(* ===== verification/_CoqProject ===== *)
-Q . S2P
Prelude.v
Util.v
MemSpring.v
Buffer.v
BufferFormat.v
SshDef.v
SshCodec.v
SshMsg.v
SshFields.v
SshMsgChannel.v
SshMsgTrans.v
SshMsgAuth.v
SshMsgKeyinit.v
SshDispatch.v
LinkedList.v
SList.v
Hash.v
HashMap.v
RbTree.v
RbShape.v
RbRepr.v
RbAdd.v
RbFind.v
RbRemove.v
RbUnlink.v
RbSpec.v
Date.v
DateArith.v
Cells.v
PtrHeap.v
HeapSpec.v
HeapQueue.v
Timer.v
TimerRun.v
TimerSpec.v
BufCommon.v
Str.v
StrSpec.v
StrRun.v
DateFormat.v
CliLine.v
CliEdit.v
Cli.v
CliRun.v
CliSession.v
Der.v
Base64.v
CfgTree.v
CfgForest.v
CfgDestroy.v
CfgValue.v
CfgWrite.v
CfgRun.v
CfgPath.v
CfgList.v
CfgComplete.v
Shell.v
ShellOut.v
ShellArgs.v
ShellSpec.v
ShellSet.v
ShellRun.v
ShellSession.v
ShellDemo.v
