(* ===== verification/Prelude.v ===== *)
(** * A verification library for TitanSDK

    TitanSDK (src/platform) is a C99 platform library: containers and buffers
    (algorithm), memory (memory), integer utilities and codecs (misc), an SSH
    server (network/ssh), and wrappers of the operating system (os, io, native)
    and of third-party libraries (crypto, ssl, xml, zip, dns).  This development
    models the parts that carry logic of their own, starting from the byte
    buffer and the SSH message layer that is built on it, and proves what makes
    them correct.

    ** How C is modelled

    A piece of C that runs is a value of [exec A]: it returns ([Ret]), an
    always-on assertion fails ([Crash]), it makes an undefined step such as an
    access outside a block, a read of freed memory or a division by zero
    ([Undef]), or a loop exceeds its fuel ([Diverge]).  A function that returns a
    [tt_result_t] yields a [result]: [TT_SUCCESS] with its OUT parameters, or
    [TT_ERROR] with the error code.  Functions that work on an object are
    state-passing functions [M S A] with [S] the object; [TT_DO] is the monadic
    bind.  Integers are [Z] with the wrap-around of their width written out
    ([u8], [u32], [u64]); blocks of memory are lists of bytes with checked reads
    and writes ([mem_read], [mem_write]); [malloc] is the interface [Allocator],
    which may fail at any call and returns blocks with any bytes.  A theorem that
    states [m s = Ret ...] therefore says that the code ends, stays inside its
    blocks and fails no assertion.  Log output is not modelled.

    ** Files and the code they model

    - [Prelude]: the above, with loops by binary fuel ([loop], total by a
      measure: [loop_total]; [fuel32] exceeds every 32-bit counter), lemmas on
      lists and 32-bit arithmetic, and the tactics all files share.
    - [Util]: misc/tt_util.h and .c.  Bit scans, powers of two, gcd, lcm, hex
      digits, alignment and overflow macros.
    - [MemSpring]: memory/tt_memory_spring.h and .c.  The block that grows by
      doubling and shrinks, and the interface [Allocator].
    - [Buffer]: algorithm/tt_buffer.h and .c.  [tt_buf_t] with its own, the
      initial or a caller's block; the invariant [buf_wf]; [content], the bytes
      between the read and the write position; the abstract byte queue of which
      the buffer is a refinement.
    - [BufferFormat]: algorithm/tt_buffer_format.h and .c.  Integers of every
      width in both byte orders and hexadecimal text; the contracts [renders] (a
      writer appends exactly these bytes), [parses] and [yields] (a reader
      consumes exactly these bytes), [reads] (a reader is safe on any bytes),
      which all later files compose.
    - [SshDef]: network/ssh/tt_ssh_def.h and .c.  Message ids, enumerations with
      their name tables behind the class [NamedEnum].
    - [SshCodec]: network/ssh/message/tt_ssh_render.h and .c, tt_ssh_parse.h and
      .c, algorithm/tt_blob.h.  The data types of RFC 4251 and owned byte strings.
    - [SshMsg]: network/ssh/message/tt_ssh_message.h and .c.  The message object,
      its function table as the class [SshMsgItf], the packet around a payload,
      and what a message type promises: [SshMsgSafe], [SshMsgWire],
      [SshMsgSized], [SshMsgRoundtrip].
    - [SshFields]: steps and tactics the message types share.
    - [SshMsgChannel], [SshMsgTrans], [SshMsgAuth], [SshMsgKeyinit]: the files
      network/ssh/message/tt_ssh_msg_*.c, one module per message type, each with
      its record, its functions, its function table and its promises.
    - [SshDispatch]: the switch of [__sshmsg_parse] and [tt_sshmsg_parse], over
      all message types.
    - [LinkedList]: algorithm/tt_list.h and .c.  Intrusive nodes and list objects
      in one memory; the abstract machine on disjoint sequences [astep].
    - [SList]: algorithm/tt_single_linked_list.h.  The same for nodes that only hold
      a next pointer, where the legal calls [sstep] are the contract.
    - [Hash]: algorithm/tt_hash.h and .c.  MurmurHash3 and FNV-1a; [reversible] maps.
    - [HashMap]: algorithm/tt_hashmap.h and .c.  Nodes, keys and slots over the
      memory of [SList]; the finite map a memory represents [has_map].
    - [RbTree]: algorithm/tt_red_black_tree.h and .c, the code; left and right are
      one definition with a [side].  [RbShape]: the trees, places in them and
      their balance.  [RbRepr]: a memory that holds a tree at a place [focus].
      [RbAdd], [RbFind], [RbRemove], [RbUnlink]: what each function does to it.
      [RbSpec]: the sorted list of entries a memory represents [rb_rep].
    - [Date]: time/tt_date.h and .c, tt_date_def.h and .c, the code, and the rules of
      the Gregorian calendar.  [DateArith]: day numbers, arithmetic, time zones.
    - [Cells]: arrays of records in a block of the memory spring.  [PtrHeap]:
      algorithm/ptr/tt_ptr_heap.h and .c, the code.  [HeapSpec]: what it does to
      the entries.  [HeapQueue]: the queue with priorities a heap represents
      [has_queue], whose machine is [qrun].
    - [Timer]: time/tt_timer.h and .c, tt_timer_manager.h and .c, and what
      os/tt_fiber_event.c, tt_fiber.c and tt_task.c do to timers, over the
      memories of [LinkedList] and [PtrHeap].  [TimerRun]: the invariant [tmr_inv]
      and what a run of the manager does [ran].  [TimerSpec]: legal calls.
    - [BufCommon]: algorithm/tt_buffer_common.h and .c.  Comparing and editing the
      readable bytes [becomes], splitting them into [tokens], trimming.
    - [Str]: algorithm/tt_string.h and .c, tt_string_common.h and .c, and tt_memicmp of
      native/linux-gnu/tt_cstd_api.c: the code.  [StrSpec]: the characters a string
      holds [str] and what each operation does to them.  [StrRun]: creation, and
      the machine of all operations [str_steps].
    - [CliLine]: cli/tt_cli_def.h, tt_cli_line.h and .c, the code of the line editor;
      function pointers are an inductive type of the functions they can hold.
      [CliEdit]: the abstract editor [edits], a terminal [term_run], and what the
      editor makes it show.
    - [Cli]: cli/tt_cli.h and .c over [CliLine]; the callbacks of the user are the
      class [CliUser].  [CliRun]: what completion finds [completion].  [CliSession]:
      the invariant [cli_at] under the contract of the callbacks [cli_contract].
    - [Der]: misc/tt_asn1_def.h, tt_der_encode.h and .c, tt_der_decode.h and .c.  Tokens
      of a document as the type [item], and their X.690 bytes [item_bytes].
    - [Base64]: misc/tt_base64.h and .c.  Decoding, and its reference [ref_decode].
    - [CfgTree]: init/tt_config_object.h and .c, tt_config_directory.h and .c, the code:
      objects as nodes of the lists of their directories, in one memory.  [CfgForest]:
      the invariant [cfg_inv], and creating, adding and removing.  [CfgDestroy]: what
      destroying takes away.  [CfgRun]: the forest a memory holds [models], and the
      machine of all operations.
    - [CfgValue]: init/tt_config_u32.c, tt_config_s32.c, tt_config_bool.c,
      tt_config_string.c, tt_config_exe.c, and the conversions of numbers in
      native/linux-gnu/tt_cstd_api.c; the user's functions are the class [CfgUser].
      [CfgWrite]: what a write stores or refuses.
    - [CfgPath] and [CfgComplete]: init/tt_config_path.h and .c: paths as walks in the
      forest [resolve], [path_of], and their completion [offer].  [CfgList]: the lines
      of a listing [line_text].
    - [Shell]: cli/shell/tt_shell.h and .c, tt_shell_command.h and .c, and the commands
      tt_shcmd_*.c: the code, as functions that [Cli] calls.  [ShellArgs]: the words
      of a line [words].  [ShellOut]: what an operation writes [says], and the prompt.
      [ShellSpec]: the answers of "ls", "get", "help" and "pwd".  [ShellSet]: what an
      object takes of a text [takes].  [ShellRun]: the answer to a line [line_answer].
      [ShellSession]: the shell keeps the contract of [CliSession].  [ShellDemo]: a
      small configuration, with sessions that are evaluated.

    ** What is shown

    For the buffer: every sequence of operations refines the abstract queue,
    keeps the invariant and never leaves a block; where [tt_buf_compress] is
    right and where it is not.  For the SSH messages: each message type
    discharges the promises of the interface, and the packet layer is proved
    against the interface alone: rendering writes well-formed aligned packets,
    parsing any received bytes is safe and leaves messages that can be released,
    and parsing what was rendered gives the message back.  Lists of algorithms
    never overflow, names are matched as the code matches them, name-lists,
    mpints and hexadecimal text round-trip.  Operations on linked lists refine
    sequences, those of the hash map refine a finite map and those of the red-black
    tree a sorted list, with logarithmic searches; the hash functions are bijections
    of the seed and of each group of key bytes.  Dates from 1583 to 65535 follow the
    calendar, and their arithmetic is that of seconds, time zones included.  The
    heap of pointers refines a queue with priorities whose entries know their
    place; timers stay consistent with their lists and the heap in every state
    that legal calls lead to, and the manager delivers each due timer once, in
    order.  Strings refine lists of characters, their ending NUL included.  The line
    editor of the command line makes a terminal show its line with the cursor in
    place, completion finds what the matching options have in common, and a session
    keeps its invariant whatever is typed, as long as the user's callbacks keep
    their contract.  DER documents round-trip but for the findings, any bytes are
    decoded safely but for one case, and Base64 is decoded as RFC 2045 says.
    Configuration objects refine a forest; a value that is written is the one that is
    read, and what an object does not take changes nothing; paths lead where they say,
    and are completed and listed as the forest has it.  The shell finds the words of a
    line, does what they say, and, over the command line and the configuration, stays in
    order from its creation on whatever is typed.  Where the code does not do what it
    means to, a lemma or an example shows the case, and it is listed as a finding.

    ** Bounds

    Readers are shown safe for up to [max_read] = 2 ^ 30 readable bytes, which
    keeps the 32-bit sums of the code exact; the SDK's own buffers stay far below.
    Writers need [room]: the sizes that growing the block goes through stay below
    2 ^ 32.

    ** Not modelled

    Wrappers of the platform and of third-party libraries have no logic of
    their own to verify.  The KEXDH_REPLY message needs keys and signatures of the
    crypto library.  What a release does to a half-parsed message is not followed.
    The console that feeds the shell (tt_console_shell.c) reads the terminal of the
    platform.  Left out although they have logic of their own: queue, stack and vectors; the random number generator; date formats; the version
    exchange message; log filters and layouts; the SSH server's state machines. *)

From Stdlib Require Export ZArith Lia.
From stdpp Require Export base tactics list numbers.
From stdpp Require Import strings.

#[global] Open Scope Z_scope.

(** ** Outcomes of running C code *)

(** [exec A] is what happens when a piece of C runs: it returns a value, an
    always-on assertion fails ([Crash]), it touches memory outside a block or
    makes some other undefined step ([Undef]), or it has not finished within
    the fuel of the loop that runs it ([Diverge]). *)
Inductive exec (A : Type) : Type :=
  | Ret (a : A)
  | Crash
  | Undef
  | Diverge.
Arguments Ret {A} a.
Arguments Crash {A}.
Arguments Undef {A}.
Arguments Diverge {A}.

Definition exec_bind {A B : Type} (m : exec A) (k : A → exec B) : exec B :=
  match m with
  | Ret a => k a
  | Crash => Crash
  | Undef => Undef
  | Diverge => Diverge
  end.

(** ** Result codes: [tt_result_t] of misc/tt_error_def.h *)

Inductive tt_err : Type :=
  | TT_FAIL
  | TT_E_TIMEOUT
  | TT_E_END
  | TT_E_PROCEED
  | TT_E_BADARG
  | TT_E_NOMEM
  | TT_E_NOEXIST
  | TT_E_EXIST
  | TT_E_UNSUPPORT
  | TT_E_NOSPC
  | TT_E_BUF_NOBUFS
  | TT_E_NTV_FAIL.

#[global] Instance tt_err_eq_dec : EqDecision tt_err.
Proof. solve_decision. Defined.

(** A call that returns [TT_SUCCESS] also delivers its OUT parameters. *)
Inductive result (A : Type) : Type :=
  | TT_SUCCESS (a : A)
  | TT_ERROR (e : tt_err).
Arguments TT_SUCCESS {A} a.
Arguments TT_ERROR {A} e.

(** ** Ends of chains *)

(** The first element of [xs], or [n]; the last, or [p]. *)
Definition hd_or {A} (xs : list A) (n : option A) : option A :=
  match xs with [] => n | x :: _ => Some x end.
Fixpoint last_or {A} (p : option A) (xs : list A) : option A :=
  match xs with [] => p | x :: xs => last_or (Some x) xs end.

Section ends.
Context {A : Type}.
Implicit Types (xs ys : list A) (p n : option A).

Lemma hd_or_app xs ys n : hd_or (xs ++ ys) n = hd_or xs (hd_or ys n).
Proof. by destruct xs. Qed.
Lemma last_or_app xs ys p : last_or p (xs ++ ys) = last_or (last_or p xs) ys.
Proof. revert p. induction xs as [|x xs IH]; intros p; [done|]. simpl. by rewrite IH. Qed.

Lemma last_in p xs y : last_or p xs = Some y → p = Some y ∨ y ∈ xs.
Proof.
  revert p. induction xs as [|x xs IH]; intros p; simpl; [by left|].
  intros [E|?]%IH; right; [injection E as ->|]; by constructor.
Qed.
Lemma hd_in xs n y : hd_or xs n = Some y → n = Some y ∨ y ∈ xs.
Proof. destruct xs; simpl; [by left|]. intros [= ->]. right. by constructor. Qed.

Lemma snoc_cases xs : xs = [] ∨ ∃ ys y, xs = ys ++ [y].
Proof. induction xs as [|y ys _] using rev_ind; eauto. Qed.

End ends.

(** ** The monad of fallible operations on a state [S] *)

Definition M (S A : Type) : Type := S → exec (result A * S).

Section monad.
Context {S : Type}.

Definition ret {A} (a : A) : M S A := λ s, Ret (TT_SUCCESS a, s).
Definition fail {A} (e : tt_err) : M S A := λ s, Ret (TT_ERROR e, s).
Definition crash {A} : M S A := λ _, Crash.
Definition undef {A} : M S A := λ _, Undef.

(** [TT_DO(m)] followed by [k]: an error is returned to the caller at once. *)
Definition bind {A B} (m : M S A) (k : A → M S B) : M S B := λ s,
  exec_bind (m s) (λ '(r, s'),
    match r with
    | TT_SUCCESS a => k a s'
    | TT_ERROR e => Ret (TT_ERROR e, s')
    end).

Definition gets {A} (f : S → A) : M S A := λ s, Ret (TT_SUCCESS (f s), s).
Definition modify (f : S → S) : M S unit := λ s, Ret (TT_SUCCESS tt, f s).

(** [if (!TT_OK(m)) return e;] *)
Definition do_r {A} (e : tt_err) (m : M S A) : M S A := λ s,
  exec_bind (m s) (λ '(r, s'),
    match r with
    | TT_SUCCESS a => Ret (TT_SUCCESS a, s')
    | TT_ERROR _ => Ret (TT_ERROR e, s')
    end).

(** [result = m;] with the result inspected by the caller. *)
Definition try {A} (m : M S A) : M S (result A) := λ s,
  exec_bind (m s) (λ '(r, s'), Ret (TT_SUCCESS r, s')).

(** A call that works on something else than the state, and an access to
    memory outside it. *)
Definition call {A} (e : exec (result A)) : M S A := λ s,
  exec_bind e (λ r, Ret (r, s)).
Definition access {A} (e : exec A) : M S A := λ s,
  exec_bind e (λ a, Ret (TT_SUCCESS a, s)).

(** An operation on an object held by value; the update is lost with an error,
    after which the callers abandon the object. *)
Definition on_val {T} (m : M T unit) (t : T) : M S T := λ s,
  exec_bind (m t) (λ '(r, t'),
    match r with
    | TT_SUCCESS _ => Ret (TT_SUCCESS t', s)
    | TT_ERROR e => Ret (TT_ERROR e, s)
    end).

(** [TT_ASSERT_ALWAYS(b)] (and [TT_ASSERT], which the default configuration
    expands to it). *)
Definition assert_always (b : bool) : M S unit :=
  if b then ret tt else crash.
End monad.

(** Run an operation of a field of the state. *)
Definition zoom {S T A} (g : S → T) (p : T → S → S) (m : M T A) : M S A := λ s,
  exec_bind (m (g s)) (λ '(r, t), Ret (r, p t s)).

#[global] Instance M_ret {S : Type} : MRet (M S) := λ A, ret.
#[global] Instance M_bind {S : Type} : MBind (M S) := λ A B k m, bind m k.

Section monad_lemmas.
Context {S : Type}.
Lemma bind_step {A B} (m : M S A) (k : A → M S B) s a s' :
  m s = Ret (TT_SUCCESS a, s') → (m ≫= k) s = k a s'.
Proof. unfold mbind, M_bind, bind. by intros ->. Qed.
Lemma bind_error {A B} (m : M S A) (k : A → M S B) s e s' :
  m s = Ret (TT_ERROR e, s') → (m ≫= k) s = Ret (TT_ERROR e, s').
Proof. unfold mbind, M_bind, bind. by intros ->. Qed.
Lemma do_r_step {A} (m : M S A) e s a s' :
  m s = Ret (TT_SUCCESS a, s') → do_r e m s = Ret (TT_SUCCESS a, s').
Proof. unfold do_r. by intros ->. Qed.
Lemma do_r_error {A} (m : M S A) e e' s s' :
  m s = Ret (TT_ERROR e', s') → do_r e m s = Ret (TT_ERROR e, s').
Proof. unfold do_r. by intros ->. Qed.
End monad_lemmas.

(** ** Machine integers *)

Definition u8_max : Z := 255.
Definition u32_max : Z := 4294967295.

Definition u8 (x : Z) : Z := x mod 2 ^ 8.
Definition u16 (x : Z) : Z := x mod 2 ^ 16.
Definition u32 (x : Z) : Z := x mod 2 ^ 32.
Definition u64 (x : Z) : Z := x mod 2 ^ 64.

Definition is_u8 (x : Z) : Prop := 0 ≤ x < 2 ^ 8.
Definition is_u32 (x : Z) : Prop := 0 ≤ x < 2 ^ 32.

(** A conversion to [tt_s32_t]: two's complement. *)
Definition s32 (x : Z) : Z :=
  let y := u32 x in if y <? 2 ^ 31 then y else y - 2 ^ 32.

Lemma u8_small x : is_u8 x → u8 x = x.
Proof. intros. by apply Z.mod_small. Qed.
Lemma u32_small x : 0 ≤ x < 2 ^ 32 → u32 x = x.
Proof. intros. by apply Z.mod_small. Qed.
Lemma u8_range x : is_u8 (u8 x).
Proof. by apply Z.mod_pos_bound. Qed.
Lemma u32_range x : 0 ≤ u32 x < 2 ^ 32.
Proof. by apply Z.mod_pos_bound. Qed.
Lemma u32_add_l x y : u32 (u32 x + y) = u32 (x + y).
Proof. apply Zplus_mod_idemp_l. Qed.
Lemma u32_add_r x y : u32 (x + u32 y) = u32 (x + y).
Proof. apply Zplus_mod_idemp_r. Qed.
Lemma u32_neg x : - 2 ^ 32 ≤ x < 0 → u32 x = x + 2 ^ 32.
Proof.
  intros. unfold u32. rewrite <- (Z.mod_add x 1) by lia.
  rewrite Z.mul_1_l. apply Z.mod_small. lia.
Qed.
Lemma u32_over x : 2 ^ 32 ≤ x < 2 * 2 ^ 32 → u32 x = x - 2 ^ 32.
Proof.
  intros. unfold u32. rewrite <- (Z.mod_add x (-1)) by lia.
  rewrite Z.mod_small; lia.
Qed.

(** ** Blocks of memory: a block is the list of its bytes *)

Definition zlen {A} (l : list A) : Z := Z.of_nat (length l).

(** The [n] elements at offset [off]. *)
Definition sub {A} (l : list A) (off n : Z) : list A :=
  take (Z.to_nat n) (drop (Z.to_nat off) l).

(** [memcpy] into a block, defined when the target range is inside it. *)
Definition in_block {A} (l : list A) (off n : Z) : bool :=
  (0 <=? off) && (0 <=? n) && (off + n <=? zlen l).

Definition splice {A} (l : list A) (off : Z) (d : list A) : list A :=
  take (Z.to_nat off) l ++ d ++ drop (Z.to_nat off + length d) l.

Definition mem_read {A} (l : list A) (off n : Z) : exec (list A) :=
  if in_block l off n then Ret (sub l off n) else Undef.

Definition mem_write {A} (l : list A) (off : Z) (d : list A) : exec (list A) :=
  if in_block l off (zlen d) then Ret (splice l off d) else Undef.

(** ** Loops *)

(** [loop n f s] runs at most [n] iterations of [f] from [s]: [f] either goes
    on with a new state ([inl]) or leaves the loop with a result ([inr]).  The
    fuel is a binary number, so a loop over a 32-bit range needs 33 digits of
    fuel and still evaluates. *)
Fixpoint loop {S R : Type} (n : positive) (f : S → S + R) (s : S) : S + R :=
  match n with
  | xH => f s
  | xO p =>
      match loop p f s with
      | inl s' => loop p f s'
      | inr r => inr r
      end
  | xI p =>
      match f s with
      | inl s1 =>
          match loop p f s1 with
          | inl s' => loop p f s'
          | inr r => inr r
          end
      | inr r => inr r
      end
  end.

Section loop.
Context {S R : Type} (f : S → S + R) (I : S → Prop) (μ : S → Z) (Q : R → Prop).

Lemma loop_sound n s :
  (∀ s, I s → match f s with inl s' => I s' ∧ μ s' < μ s | inr r => Q r end) →
  I s →
  match loop n f s with
  | inl s' => I s' ∧ μ s' ≤ μ s - Zpos n
  | inr r => Q r
  end.
Proof.
  intros Hf. revert s. induction n as [p IH|p IH|]; intros s Hs; simpl.
  - specialize (Hf s Hs). destruct (f s) as [s1|r]; [|done].
    destruct Hf as [H1 Hm1]. pose proof (IH s1 H1) as H2.
    destruct (loop p f s1) as [s2|r]; [|done]. destruct H2 as [H2 Hm2].
    pose proof (IH s2 H2) as H3. destruct (loop p f s2) as [s3|r]; [|done].
    destruct H3. split; [done|lia].
  - pose proof (IH s Hs) as H2.
    destruct (loop p f s) as [s2|r]; [|done]. destruct H2 as [H2 Hm2].
    pose proof (IH s2 H2) as H3. destruct (loop p f s2) as [s3|r]; [|done].
    destruct H3. split; [done|lia].
  - specialize (Hf s Hs). destruct (f s); [|done]. destruct Hf. split; [done|lia].
Qed.

(** Total correctness: a bounded measure that decreases ends the loop. *)
Lemma loop_total n s :
  (∀ s, I s → match f s with inl s' => I s' ∧ μ s' < μ s | inr r => Q r end) →
  (∀ s, I s → 0 ≤ μ s) →
  I s → μ s < Zpos n → ∃ r, loop n f s = inr r ∧ Q r.
Proof.
  intros Hf H0 Hs Hn. pose proof (loop_sound n s Hf Hs) as H.
  destruct (loop n f s) as [s'|r]; [|by eauto].
  destruct H as [Hs' Hm]. specialize (H0 s' Hs'). lia.
Qed.
End loop.

(** Fuel that covers every loop over a 32-bit counter. *)
Definition fuel32 : positive := 4294967297.

(** The value of a loop that left within its fuel. *)
Definition loop_exec {S R : Type} (n : positive) (f : S → S + R) (s : S) : exec R :=
  match loop n f s with
  | inl _ => Diverge
  | inr r => Ret r
  end.

(** ** Lemmas on blocks *)

Section blocks.
Context {A : Type}.
Implicit Types l d : list A.

Lemma zlen_nonneg l : 0 ≤ zlen l.
Proof. unfold zlen. lia. Qed.
Lemma zlen_nil : zlen (@nil A) = 0.
Proof. done. Qed.
Lemma zlen_cons x l : zlen (x :: l) = 1 + zlen l.
Proof. unfold zlen. simpl. lia. Qed.
Lemma zlen_app l d : zlen (l ++ d) = zlen l + zlen d.
Proof. unfold zlen. rewrite length_app. lia. Qed.
Lemma zlen_replicate n (x : A) : zlen (replicate n x) = Z.of_nat n.
Proof. unfold zlen. by rewrite length_replicate. Qed.
Lemma zlen_take n l : zlen (take (Z.to_nat n) l) = Z.min (Z.max 0 n) (zlen l).
Proof. unfold zlen. rewrite length_take. lia. Qed.
Lemma zlen_drop n l : zlen (drop (Z.to_nat n) l) = Z.max 0 (zlen l - Z.max 0 n).
Proof. unfold zlen. rewrite length_drop. lia. Qed.
Lemma zlen_nil_inv l : zlen l = 0 → l = [].
Proof. unfold zlen. destruct l; simpl; [done|lia]. Qed.

Lemma in_block_spec l off n :
  in_block l off n = true ↔ 0 ≤ off ∧ 0 ≤ n ∧ off + n ≤ zlen l.
Proof. unfold in_block. rewrite !andb_true_iff, !Z.leb_le. tauto. Qed.

Lemma zlen_sub l off n :
  0 ≤ off → 0 ≤ n → off + n ≤ zlen l → zlen (sub l off n) = n.
Proof. intros. unfold sub. rewrite zlen_take, zlen_drop. lia. Qed.

Lemma sub_0 l n : sub l 0 n = take (Z.to_nat n) l.
Proof. done. Qed.
Lemma sub_nil_len l off : sub l off 0 = [].
Proof. done. Qed.
Lemma sub_all l : sub l 0 (zlen l) = l.
Proof. unfold sub, zlen. rewrite Nat2Z.id, drop_0. by rewrite take_ge. Qed.

(** A range splits at any inner point. *)
Lemma sub_split l off n m :
  0 ≤ off → 0 ≤ n → 0 ≤ m → sub l off (n + m) = sub l off n ++ sub l (off + n) m.
Proof.
  intros. unfold sub. rewrite !Z2Nat.inj_add by lia.
  rewrite <- take_take_drop, drop_drop. do 2 f_equal.
Qed.

Lemma sub_app_l l d off n :
  0 ≤ off → 0 ≤ n → off + n ≤ zlen l → sub (l ++ d) off n = sub l off n.
Proof.
  intros. unfold sub, zlen in *. rewrite drop_app_le by lia.
  rewrite take_app_le; [done|]. rewrite length_drop. lia.
Qed.
Lemma sub_app_r' l d off n :
  off = zlen l → sub (l ++ d) off n = sub d 0 n.
Proof. intros ->. unfold sub, zlen. rewrite Nat2Z.id, drop_app_length. done. Qed.
Lemma sub_app_len l d : sub (l ++ d) 0 (zlen l) = l.
Proof. rewrite sub_app_l; [apply sub_all| |apply zlen_nonneg|]; lia. Qed.

Lemma sub_sub l off n a m :
  0 ≤ off → 0 ≤ a → 0 ≤ m → a + m ≤ n → sub (sub l off n) a m = sub l (off + a) m.
Proof.
  intros. unfold sub. rewrite skipn_firstn_comm, take_take, drop_drop.
  rewrite <- Z2Nat.inj_add by lia. f_equal. lia.
Qed.

Lemma splice_app l off d :
  0 ≤ off → splice l off d = sub l 0 off ++ d ++ drop (Z.to_nat off + length d) l.
Proof. done. Qed.

Lemma zlen_splice l off d :
  0 ≤ off → off + zlen d ≤ zlen l → zlen (splice l off d) = zlen l.
Proof.
  intros. unfold splice, zlen in *. rewrite !length_app, length_take, length_drop. lia.
Qed.

Lemma sub_splice_before l off d a n :
  0 ≤ a → 0 ≤ n → a + n ≤ off → off ≤ zlen l → sub (splice l off d) a n = sub l a n.
Proof.
  intros. unfold splice. rewrite sub_app_l by (rewrite ?zlen_take; lia).
  unfold sub. rewrite skipn_firstn_comm, take_take. f_equal. lia.
Qed.

Lemma sub_splice_at l off d :
  0 ≤ off → off ≤ zlen l → sub (splice l off d) off (zlen d) = d.
Proof.
  intros. unfold splice.
  rewrite sub_app_r' by (rewrite zlen_take; lia). apply sub_app_len.
Qed.

Lemma sub_splice_after l off d a n :
  0 ≤ off → off + zlen d ≤ a → off + zlen d ≤ zlen l → 0 ≤ n →
  sub (splice l off d) a n = sub l a n.
Proof.
  intros. unfold splice, sub. f_equal.
  unfold zlen in *.
  rewrite !drop_app, drop_drop, length_take.
  rewrite (drop_ge (take _ _)) by (rewrite length_take; lia).
  rewrite drop_ge by lia. simpl. f_equal. lia.
Qed.
Lemma mem_read_ok (l : list A) off n :
  0 ≤ off → 0 ≤ n → off + n ≤ zlen l → mem_read l off n = Ret (sub l off n).
Proof.
  intros. unfold mem_read. by rewrite (proj2 (in_block_spec l off n)).
Qed.
Lemma mem_write_ok (l : list A) off d :
  0 ≤ off → off + zlen d ≤ zlen l → mem_write l off d = Ret (splice l off d).
Proof.
  intros. pose proof (zlen_nonneg d). unfold mem_write.
  by rewrite (proj2 (in_block_spec l off (zlen d))).
Qed.


Lemma Forall_sub (P : A → Prop) l off n : Forall P l → Forall P (sub l off n).
Proof. intros. unfold sub. by apply Forall_take, Forall_drop. Qed.
Lemma Forall_splice (P : A → Prop) l off d :
  Forall P l → Forall P d → Forall P (splice l off d).
Proof.
  intros. unfold splice. apply Forall_app; split; [by apply Forall_take|].
  apply Forall_app; split; [done|by apply Forall_drop].
Qed.
End blocks.

(** The characters of a C string before its NUL. *)
Fixpoint chars (s : String.string) : list Z :=
  match s with
  | String.EmptyString => []
  | String.String c s => Z.of_nat (Ascii.nat_of_ascii c) :: chars s
  end.

(** Reading a C string out of an array: without a NUL the read leaves it. *)
Fixpoint c_str (l : list Z) : exec (list Z) :=
  match l with
  | [] => Undef
  | c :: l => if c =? 0 then Ret [] else exec_bind (c_str l) (λ s, Ret (c :: s))
  end.

Lemma c_str_app s l : Forall (λ c, c ≠ 0) s → c_str (s ++ 0 :: l) = Ret s.
Proof.
  induction 1 as [|c s Hc _ IH]; [done|]. cbn [app c_str].
  by rewrite (proj2 (Z.eqb_neq c 0)), IH.
Qed.

(** What it reads: the bytes before the first NUL. *)
Lemma c_str_ok l :
  In 0 l → ∃ s rest, c_str l = Ret s ∧ l = s ++ 0 :: rest ∧ Forall (λ c, c ≠ 0) s.
Proof.
  induction l as [|c l IH]; [done|]. intros Hin. cbn [c_str].
  destruct (Z.eqb_spec c 0) as [->|Hc]; [by exists [], l|].
  destruct IH as (s & rest & -> & -> & Hs); [by destruct Hin|].
  exists (c :: s), rest. split_and!; [done|done|by constructor].
Qed.

Lemma chars_bytes s : Forall is_u8 (chars s).
Proof.
  induction s as [|c s IH]; simpl; constructor; [|done].
  pose proof (Ascii.nat_ascii_bounded c). unfold is_u8. lia.
Qed.

Create Rewrite HintDb zlen.
#[global] Hint Rewrite @zlen_app @zlen_cons @zlen_nil @zlen_replicate : zlen.

(** ** Symbolic execution of the monad *)

Ltac m_simpl :=
  cbv beta iota zeta delta [mbind M_bind bind gets modify mret M_ret ret exec_bind fail
    try do_r crash undef assert_always call access id fst snd].
Ltac m_simpl_in H :=
  cbv beta iota zeta delta [mbind M_bind bind gets modify mret M_ret ret exec_bind fail
    try do_r crash undef assert_always call access id fst snd] in H.

(** Decide a comparison that [lia] can settle. *)
Ltac b_true :=
  match goal with
  | |- context [?x <=? ?y] => rewrite (proj2 (Z.leb_le x y)) by lia
  | |- context [?x <? ?y] => rewrite (proj2 (Z.ltb_lt x y)) by lia
  | |- context [?x =? ?y] => rewrite (proj2 (Z.eqb_eq x y)) by lia
  end.
Ltac b_false :=
  match goal with
  | |- context [?x <=? ?y] => rewrite (proj2 (Z.leb_gt x y)) by lia
  | |- context [?x <? ?y] => rewrite (proj2 (Z.ltb_ge x y)) by lia
  | |- context [?x =? ?y] => rewrite (proj2 (Z.eqb_neq x y)) by lia
  end.
Ltac b_step := (b_true || b_false); cbn [andb orb negb].

(** Byte lists given literally. *)
Ltac bytes_tac :=
  simpl; repeat first [apply Forall_nil_2 | apply Forall_cons_2; simpl | apply conj];
  try done; unfold is_u8, is_u32 in *; try lia.
