(* ===== verification/Util.v ===== *)
(** Utilities of misc/tt_util.h and misc/tt_util.c: bit scans, powers of two,
    gcd and lcm, hexadecimal digits, alignment and overflow tests. *)

From S2P Require Import Prelude.

(** [1u << n]: undefined when [n] reaches the width. *)
Definition shl_1u (n : Z) : exec Z :=
  if (0 <=? n) && (n <? 32) then Ret (u32 (Z.shiftl 1 n)) else Undef.

(** One round of the binary search of [tt_high_bit_1], on
    [(ret, cur_value, cur_shift)]. *)
Definition high_bit_step (st : Z * Z * Z) : (Z * Z * Z) + Z :=
  let '(r, cur_value, cur_shift) := st in
  if cur_shift =? 0 then inr r
  else if negb (Z.shiftr cur_value cur_shift =? 0)
  then inl (r + cur_shift, Z.shiftr cur_value cur_shift, Z.shiftr cur_shift 1)
  else inl (r, cur_value, Z.shiftr cur_shift 1).

Definition tt_high_bit_1 (value : Z) : exec (result Z) :=
  if value =? 0 then Ret (TT_ERROR TT_FAIL)
  else exec_bind (loop_exec 6 high_bit_step (0, value, 16)) (λ r, Ret (TT_SUCCESS r)).

Definition low_bit_step (st : Z * Z * Z) : (Z * Z * Z) + Z :=
  let '(r, cur_value, cur_shift) := st in
  if cur_shift =? 0 then inr r
  else if Z.land cur_value (Z.shiftl 1 cur_shift - 1) =? 0
  then inl (r + cur_shift, Z.shiftr cur_value cur_shift, Z.shiftr cur_shift 1)
  else inl (r, cur_value, Z.shiftr cur_shift 1).

Definition tt_low_bit_1 (value : Z) : exec (result Z) :=
  if value =? 0 then Ret (TT_ERROR TT_FAIL)
  else exec_bind (loop_exec 6 low_bit_step (0, value, 16)) (λ r, Ret (TT_SUCCESS r)).

Definition tt_least_2power (value : Z) : exec Z :=
  exec_bind (tt_high_bit_1 value) (λ res,
    match res with
    | TT_SUCCESS r => exec_bind (shl_1u r) (λ w, Ret (if w <? value then r + 1 else r))
    | TT_ERROR _ => Ret 0
    end).

(** Without the OUT pointer's NULL test, which the entry assertion excludes. *)
Definition tt_order (value : Z) : exec (result Z) :=
  exec_bind (tt_least_2power value) (λ r,
  exec_bind (shl_1u r) (λ w,
  Ret (if value =? w then TT_SUCCESS r else TT_ERROR TT_FAIL))).

Definition gcd_step (st : Z * Z) : (Z * Z) + Z :=
  let '(a, b) := st in if b =? 0 then inr a else inl (b, a mod b).

Definition tt_gcd_u32 (a b : Z) : exec Z := loop_exec fuel32 gcd_step (a, b).

Definition tt_lcm_u32 (a b : Z) : exec Z :=
  exec_bind (tt_gcd_u32 a b) (λ g,
    if g =? 0 then Undef else Ret (u32 (a / g * b))).

(** Characters are their codes. *)
Definition tt_c2h (c h_if_fail : Z) : Z :=
  if (48 <=? c) && (c <=? 57) then u8 (c - 48)
  else if (97 <=? c) && (c <=? 102) then u8 (c - 97 + 10)
  else if (65 <=? c) && (c <=? 70) then u8 (c - 65 + 10)
  else h_if_fail.

Definition tt_h2c (h c_if_fail : Z) : Z :=
  if (0 <=? h) && (h <=? 9) then h + 48
  else if (10 <=? h) && (h <=? 15) then h - 10 + 97
  else c_if_fail.

Definition TT_U32_ADD_WOULD_OVFL (v1 v2 : Z) : bool := u32_max <? u64 (v1 + v2).
Definition TT_U32_MUL_WOULD_OVFL (v1 v2 : Z) : bool := u32_max <? u64 (v1 * v2).

Definition TT_U32_ALIGN_INC (n m : Z) : Z :=
  Z.land (u32 (n + (u32 (Z.shiftl 1 m) - 1))) (Z.lxor (u32 (Z.shiftl 1 m) - 1) u32_max).
Definition TT_U32_ALIGN_DEC (n m : Z) : Z :=
  Z.land n (Z.lxor (u32 (Z.shiftl 1 m) - 1) u32_max).

Definition TT_SIZE_IN_ORDER (size order : Z) : Z :=
  if negb (Z.land size (Z.shiftl 1 order - 1) =? 0)
  then Z.shiftr size order + 1 else Z.shiftr size order.

(** ** Bit scans *)

(** The shifts a scan goes through, and a measure of what is left. *)
Definition scan_shift (s : Z) : Prop :=
  s = 16 ∨ s = 8 ∨ s = 4 ∨ s = 2 ∨ s = 1 ∨ s = 0.
Definition scan_left (s : Z) : Z := if decide (s = 0) then 0 else 1 + Z.log2 s.

Lemma shift_halves s :
  scan_shift s → s ≠ 0 →
  0 < s ∧ scan_shift (Z.shiftr s 1) ∧ Z.max 1 (2 * Z.shiftr s 1) = s ∧
  scan_left (Z.shiftr s 1) < scan_left s.
Proof.
  unfold scan_shift. intros [->|[->|[->|[->|[->| ->]]]]] ?; try done;
    (split; [done|split; [simpl; tauto|split; done]]).
Qed.

Lemma scan_left_nonneg s : 0 ≤ scan_left s.
Proof. unfold scan_left. case_decide; [lia|]. pose proof (Z.log2_nonneg s). lia. Qed.

(** [high_bit_step] halves a window [2 ^ (2 * shift)] that holds the value. *)
Lemma high_bit_1_spec v :
  0 < v < 2 ^ 32 → tt_high_bit_1 v = Ret (TT_SUCCESS (Z.log2 v)).
Proof.
  intros Hv. unfold tt_high_bit_1. rewrite (proj2 (Z.eqb_neq v 0)) by lia.
  unfold loop_exec.
  destruct (loop_total high_bit_step
    (λ '(r, c, s), scan_shift s ∧ 0 < c ∧
       c < 2 ^ (Z.max 1 (2 * s)) ∧ Z.log2 v = r + Z.log2 c)
    (λ '(r, c, s), scan_left s)
    (λ r, r = Z.log2 v) 6 (0, v, 16)) as (r & -> & ->); [| | | |done].
  - intros [[r c] s] (Hs & Hc & Hlt & Hlog). unfold high_bit_step.
    destruct (Z.eqb_spec s 0) as [->|Hs0].
    { change (Z.max 1 (2 * 0)) with 1 in Hlt. assert (c = 1) as -> by lia. simpl in Hlog. lia. }
    destruct (shift_halves s Hs Hs0) as (Hpos & Hin & Hmax & Hm).
    rewrite Z.max_r in Hlt by lia.
    rewrite Z.shiftr_div_pow2 by lia.
    pose proof (Z.pow_pos_nonneg 2 s ltac:(lia) ltac:(lia)) as Hp.
    assert (2 ^ (2 * s) = 2 ^ s * 2 ^ s) as Hsq.
    { rewrite <- Z.pow_add_r by lia. f_equal. lia. }
    destruct (Z.eqb_spec (c / 2 ^ s) 0) as [E|E]; simpl; rewrite Hmax; split; try done.
    + repeat split; try done. apply Z.div_small_iff in E; lia.
    + assert (0 < c / 2 ^ s) by (pose proof (Z.div_pos c (2 ^ s)); lia).
      repeat split; try done.
      * apply Z.div_lt_upper_bound; lia.
      * rewrite Hlog, <- Z.shiftr_div_pow2, Z.log2_shiftr by lia.
        assert (s ≤ Z.log2 c); [|lia].
        apply Z.log2_le_pow2; [done|].
        destruct (Z_lt_le_dec c (2 ^ s)); [|done]. rewrite Z.div_small in E; lia.
  - intros [[r c] s] _. apply scan_left_nonneg.
  - change (Z.max 1 (2 * 16)) with 32. unfold scan_shift. lia.
  - simpl. done.
Qed.

(** [low_bit_step]: the value keeps its trailing zeros, counted in [r]. *)
Lemma land_ones_zero c s : 0 ≤ s → Z.land c (Z.shiftl 1 s - 1) = c mod 2 ^ s.
Proof.
  intros. rewrite Z.shiftl_1_l, <- Z.land_ones by done. unfold Z.ones.
  by rewrite Z.shiftl_1_l, Z.sub_1_r.
Qed.

Lemma low_bit_1_spec v :
  0 < v < 2 ^ 32 →
  ∃ n, tt_low_bit_1 v = Ret (TT_SUCCESS n) ∧
       0 ≤ n < 32 ∧ (2 ^ n | v) ∧ Z.odd (v / 2 ^ n) = true.
Proof.
  intros Hv. unfold tt_low_bit_1. rewrite (proj2 (Z.eqb_neq v 0)) by lia.
  unfold loop_exec.
  destruct (loop_total low_bit_step
    (λ '(r, c, s), scan_shift s ∧ 0 < c ∧ 0 ≤ r ∧ r + Z.max 1 (2 * s) ≤ 32 ∧
       v = c * 2 ^ r ∧ c mod 2 ^ (Z.max 1 (2 * s)) ≠ 0)
    (λ '(r, c, s), scan_left s)
    (λ n, 0 ≤ n < 32 ∧ (2 ^ n | v) ∧ Z.odd (v / 2 ^ n) = true) 6 (0, v, 16))
    as (r & -> & Hr); [| | | |by exists r].
  - intros [[r c] s] (Hs & Hc & Hr & Hb & Hval & Hmod). unfold low_bit_step.
    destruct (Z.eqb_spec s 0) as [->|Hs0].
    { change (Z.max 1 (2 * 0)) with 1 in *. change (2 ^ 1) with 2 in *.
      pose proof (Z.pow_pos_nonneg 2 r ltac:(lia) ltac:(lia)) as Hp.
      rewrite Hval, Z.div_mul by lia. split; [lia|]. split; [by exists c|].
      rewrite Zmod_odd in Hmod. by destruct (Z.odd c). }
    destruct (shift_halves s Hs Hs0) as (Hpos & Hin & Hmax & Hm).
    rewrite Z.max_r in Hb, Hmod by lia. rewrite land_ones_zero by lia.
    pose proof (Z.pow_pos_nonneg 2 s ltac:(lia) ltac:(lia)) as Hp.
    destruct (Z.eqb_spec (c mod 2 ^ s) 0) as [E|E]; rewrite Hmax; split; try done;
      (split; [done|]).
    + rewrite Z.shiftr_div_pow2 by lia. apply Z.div_exact in E; [|lia].
      assert (0 < c / 2 ^ s) by nia.
      repeat split; try lia.
      * rewrite Z.pow_add_r by lia. rewrite Hval. rewrite E at 1. ring.
      * intros Hz. apply Hmod. replace (2 * s) with (s + s) by lia.
        rewrite Z.pow_add_r, Z.rem_mul_r by lia. rewrite Hz.
        rewrite E at 1. rewrite Z.mul_comm, Z.mod_mul by lia. lia.
    + repeat split; try done; lia.
  - intros [[r c] s] _. apply scan_left_nonneg.
  - change (Z.max 1 (2 * 16)) with 32. unfold scan_shift.
    repeat split; try lia. rewrite Z.mod_small; lia.
  - done.
Qed.

Lemma gcd_u32_spec a b :
  0 ≤ a < 2 ^ 32 → 0 ≤ b < 2 ^ 32 → tt_gcd_u32 a b = Ret (Z.gcd a b).
Proof.
  intros Ha Hb. unfold tt_gcd_u32, loop_exec.
  destruct (loop_total gcd_step
    (λ '(x, y), 0 ≤ x ∧ 0 ≤ y < 2 ^ 32 ∧ Z.gcd x y = Z.gcd a b) snd
    (λ g, g = Z.gcd a b) fuel32 (a, b)) as (r & -> & ->); [| | | |done].
  - intros [x y] (Hx & Hy & Hg). unfold gcd_step.
    destruct (Z.eqb_spec y 0) as [->|E].
    { rewrite Z.gcd_0_r in Hg. lia. }
    pose proof (Z.mod_pos_bound x y ltac:(lia)). simpl. repeat split; try lia.
    rewrite Z.gcd_comm, Z.gcd_mod by done. by rewrite Z.gcd_comm.
  - intros [x y] ?. simpl. lia.
  - repeat split; lia.
  - unfold fuel32. simpl. lia.
Qed.

(** The result is the least [n] with [v <= 2 ^ n]; 0 maps to 0. *)
Lemma least_2power_spec v :
  0 ≤ v < 2 ^ 32 → tt_least_2power v = Ret (Z.log2_up v).
Proof.
  intros Hv. unfold tt_least_2power.
  destruct (Z.eq_dec v 0) as [->|Hn]; [done|].
  rewrite high_bit_1_spec by lia. simpl.
  pose proof (Z.log2_nonneg v) as H0. pose proof (Z.log2_spec v ltac:(lia)) as Hl.
  assert (Z.log2 v < 32) by (apply Z.log2_lt_pow2; lia).
  unfold shl_1u. rewrite (proj2 (andb_true_iff _ _)) by lia. simpl.
  rewrite Z.shiftl_1_l.
  assert (2 ^ Z.log2 v ≤ 2 ^ 31) by (apply Z.pow_le_mono_r; lia).
  rewrite u32_small by lia.
  destruct (Z.ltb_spec (2 ^ Z.log2 v) v) as [E|E]; f_equal; symmetry.
  - apply Z.log2_up_unique; [lia|]. replace (Z.pred (Z.log2 v + 1)) with (Z.log2 v) by lia.
    rewrite <- Z.add_1_r in Hl. lia.
  - assert (v = 2 ^ Z.log2 v) as -> by lia.
    rewrite Z.log2_up_pow2, Z.log2_pow2 by lia. done.
Qed.

(** ** Properties *)

(** For every 32-bit value that is not 0 the two binary searches for a set
    bit end within their fuel: [tt_high_bit_1] finds the highest bit that is set
    and [tt_low_bit_1] the lowest. *)
Theorem bit_scans_correct v :
  0 < v < 2 ^ 32 →
  tt_high_bit_1 v = Ret (TT_SUCCESS (Z.log2 v)) ∧
  ∃ n, tt_low_bit_1 v = Ret (TT_SUCCESS n) ∧ 0 ≤ n ≤ Z.log2 v ∧
       (2 ^ n | v) ∧ Z.odd (v / 2 ^ n) = true.
Proof.
  intros Hv. split; [by apply high_bit_1_spec|].
  destruct (low_bit_1_spec v Hv) as (n & -> & Hn & Hd & Ho). exists n. split_and!; try done; [lia|].
  apply Z.log2_le_pow2; [lia|]. by apply Z.divide_pos_le; [lia|].
Qed.

(** [tt_order] accepts exactly the powers of two up to 2 ^ 31 and returns
    their exponent; any larger value makes it shift by 32, which is undefined. *)
Theorem order_correct v :
  0 ≤ v < 2 ^ 32 →
  tt_order v =
    if v <=? 2 ^ 31 then
      Ret (if v =? 2 ^ Z.log2_up v then TT_SUCCESS (Z.log2_up v) else TT_ERROR TT_FAIL)
    else Undef.
Proof.
  intros Hv. unfold tt_order. rewrite least_2power_spec by done. cbn [exec_bind].
  pose proof (Z.log2_up_nonneg v) as H0. unfold shl_1u.
  destruct (Z.leb_spec v (2 ^ 31)) as [Hle|Hgt].
  - assert (Z.log2_up v ≤ 31) as Hl.
    { rewrite <- (Z.log2_up_pow2 31) by lia. by apply Z.log2_up_le_mono. }
    rewrite (proj2 (andb_true_iff _ _)) by lia. cbn [exec_bind]. rewrite Z.shiftl_1_l.
    assert (2 ^ Z.log2_up v ≤ 2 ^ 31) by (apply Z.pow_le_mono_r; lia).
    rewrite u32_small; [|split; [apply Z.pow_nonneg; lia|lia]]. by destruct (v =? _).
  - assert (31 < Z.log2_up v) as Hl by (apply Z.log2_up_lt_pow2; lia).
    by rewrite (proj2 (andb_false_iff _ _)) by lia.
Qed.

(** [tt_gcd_u32] ends for all 32-bit arguments and returns their greatest
    common divisor; [tt_lcm_u32] returns the least common multiple modulo 2 ^ 32,
    except that it divides by zero when both arguments are 0. *)
Theorem gcd_lcm_correct a b :
  0 ≤ a < 2 ^ 32 → 0 ≤ b < 2 ^ 32 →
  tt_gcd_u32 a b = Ret (Z.gcd a b) ∧
  tt_lcm_u32 a b = if (a =? 0) && (b =? 0) then Undef else Ret (u32 (Z.lcm a b)).
Proof.
  intros Ha Hb. split; [by apply gcd_u32_spec|].
  unfold tt_lcm_u32. rewrite gcd_u32_spec by done. cbn [exec_bind].
  pose proof (Z.gcd_nonneg a b) as Hg. destruct (Z.eqb_spec (Z.gcd a b) 0) as [E|E].
  - by rewrite (Z.gcd_eq_0_l _ _ E), (Z.gcd_eq_0_r _ _ E).
  - assert ((a =? 0) && (b =? 0) = false) as ->.
    { destruct (Z.eqb_spec a 0) as [->|]; [|done]. by destruct (Z.eqb_spec b 0) as [->|]. }
    do 2 f_equal. unfold Z.lcm. rewrite Z.abs_eq.
    + pose proof (Z.gcd_divide_l a b) as Hk. pose proof (Z.gcd_divide_r a b) as Hm.
      set (g := Z.gcd a b) in *. clearbody g. destruct Hk as [k ->], Hm as [m ->].
      rewrite !Z.div_mul by done. ring.
    + apply Z.mul_nonneg_nonneg; [lia|]. apply Z.div_pos; lia.
Qed.

(** ** Witnesses *)

Lemma bit_scans_correct_witness :
  0 < 40 < 2 ^ 32 ∧ tt_high_bit_1 40 = Ret (TT_SUCCESS (Z.log2 40)) ∧
  ∃ n, tt_low_bit_1 40 = Ret (TT_SUCCESS n) ∧ 0 ≤ n ≤ Z.log2 40 ∧
       (2 ^ n | 40) ∧ Z.odd (40 / 2 ^ n) = true.
Proof. split; [lia|]. apply (bit_scans_correct 40). lia. Defined.

Lemma order_correct_witness :
  tt_order 4096 = Ret (TT_SUCCESS 12) ∧ tt_order 2147483649 = Undef.
Proof.
  split; [apply (order_correct 4096); lia|apply (order_correct 2147483649); lia].
Defined.

Lemma gcd_lcm_correct_witness :
  tt_gcd_u32 12 18 = Ret 6 ∧ tt_lcm_u32 12 18 = Ret 36.
Proof. apply (gcd_lcm_correct 12 18); lia. Defined.
