(* ===== verification/MemSpring.v ===== *)
(** The memory spring (memory/tt_memory_spring.c): the growth policy of every
    extensible block of the SDK, and the operations that extend and compress a
    block under it. *)

From S2P Require Import Prelude.

(** [malloc] of the C library, which the source reaches through [tt_malloc]:
    a request for [n] bytes either fails or yields a block of [n] bytes whose
    content is unspecified. *)
Class Allocator := {
  malloc : Z → option (list Z);
  malloc_zlen n blk : malloc n = Some blk → zlen blk = Z.max 0 n;
  malloc_bytes n blk : malloc n = Some blk → Forall is_u8 blk;
}.

(** A request never fails. *)
Definition malloc_total `{Allocator} : Prop := ∀ n, is_Some (malloc n).

Record tt_memspg_t : Type := mk_memspg {
  min_extend : Z;
  max_extend : Z;
  max_limit : Z;
}.

(** What [tt_memspg_init] asserts, with the bound on [max_extend] that the
    comment in [tt_memspg_next_size] relies on. *)
Definition memspg_wf (mspg : tt_memspg_t) : Prop :=
  0 < min_extend mspg ∧ min_extend mspg < max_extend mspg ∧
  max_extend mspg ≤ 2 ^ 30 ∧
  (max_limit mspg = 0 ∨ max_extend mspg < max_limit mspg < 2 ^ 32).

Definition tt_memspg_init (min max limit : Z) : exec tt_memspg_t :=
  if (0 <? min) && (min <? max) && ((limit =? 0) || (max <? limit))
  then Ret (mk_memspg min max limit) else Crash.

Definition tt_memspg_next_size (mspg : tt_memspg_t) (size : Z) : Z :=
  if size <? min_extend mspg then min_extend mspg
  else if size <=? max_extend mspg then u32 (Z.shiftl size 1)
  else
    let next_size := u32 (size + max_extend mspg) in
    if next_size <? size then 0
    else if (max_limit mspg =? 0) || (next_size <=? max_limit mspg) then next_size
    else 0.

(** The do-while loop of [tt_memspg_extend_ex] that picks the new size: [Crash]
    is the assertion [new_size > *size], [Ret None] the failure. *)
Definition extend_step (mspg : tt_memspg_t) (size to_size new_size : Z)
  : Z + exec (option Z) :=
  let n := tt_memspg_next_size mspg new_size in
  if n =? 0 then inr (Ret None)
  else if negb (size <? n) then inr Crash
  else if n <? to_size then inl n else inr (Ret (Some n)).

Definition extend_size (mspg : tt_memspg_t) (size to_size : Z) : exec (option Z) :=
  exec_bind (loop_exec fuel32 (extend_step mspg size to_size) size) id.

Section spring.
Context `{Allocator}.

(** The block is [None] for a NULL pointer.  [zero] is TT_MSPGEXT_ZERO; the
    flag TT_MSPGEXT_NOFREE only keeps the old block, which the caller then
    still owns. *)
Definition tt_memspg_extend_ex (mspg : tt_memspg_t) (p : option (list Z))
    (size to_size : Z) (zero : bool) : exec (result (list Z * Z)) :=
  if negb (size <? to_size) then Crash
  else
    exec_bind (extend_size mspg size to_size) (λ r,
      match r with
      | None => Ret (TT_ERROR TT_FAIL)
      | Some new_size =>
          match malloc new_size with
          | None => Ret (TT_ERROR TT_FAIL)
          | Some new_p =>
              match p with
              | None => Ret (TT_SUCCESS (new_p, new_size))
              | Some old =>
                  exec_bind (mem_read old 0 size) (λ d,
                  exec_bind (mem_write new_p 0 d) (λ np,
                  if zero then
                    exec_bind
                      (mem_write np size (replicate (Z.to_nat (new_size - size)) 0))
                      (λ np', Ret (TT_SUCCESS (np', new_size)))
                  else Ret (TT_SUCCESS (np, new_size))))
              end
          end
      end).

Definition tt_memspg_extend mspg p size to_size :=
  tt_memspg_extend_ex mspg p size to_size false.

Definition tt_memspg_compress (p : option (list Z)) (size to_size : Z)
  : exec (result (option (list Z) * Z)) :=
  match p with
  | None => Crash
  | Some old =>
      if negb (to_size <? size) then Crash
      else if to_size =? 0 then Ret (TT_SUCCESS (None, 0))
      else match malloc to_size with
           | None => Ret (TT_ERROR TT_FAIL)
           | Some new_p =>
               exec_bind (mem_read old 0 to_size) (λ d,
               exec_bind (mem_write new_p 0 d) (λ np,
               Ret (TT_SUCCESS (Some np, to_size))))
           end
  end.

Definition tt_memspg_compress_range (p : option (list Z)) (size from to : Z)
  : exec (result (option (list Z) * Z)) :=
  let new_size := u32 (to - from) in
  match p with
  | None => Crash
  | Some old =>
      if negb ((from <=? to) && (to <=? size)) then Crash
      else if new_size =? 0 then Ret (TT_SUCCESS (None, 0))
      else match malloc new_size with
           | None => Ret (TT_ERROR TT_FAIL)
           | Some new_p =>
               exec_bind (mem_read old from new_size) (λ d,
               exec_bind (mem_write new_p 0 d) (λ np,
               Ret (TT_SUCCESS (Some np, new_size))))
           end
  end.
End spring.

(** ** The growth policy *)

Lemma shiftl_1 x : Z.shiftl x 1 = 2 * x.
Proof. rewrite Z.shiftl_mul_pow2 by lia. lia. Qed.

Lemma next_size_grows mspg size :
  memspg_wf mspg → 0 ≤ size < 2 ^ 32 →
  let n := tt_memspg_next_size mspg size in
  (n = 0 ∧ (max_limit mspg ≠ 0 ∨ 2 ^ 32 ≤ size + max_extend mspg)) ∨
  (size < n < 2 ^ 32 ∧ n ≤ size + max_extend mspg).
Proof.
  intros (Hmin & Hlt & Hmax & Hlim) Hs n. subst n.
  unfold tt_memspg_next_size. rewrite shiftl_1.
  destruct (Z.ltb_spec size (min_extend mspg)); [right; lia|].
  destruct (Z.leb_spec size (max_extend mspg)).
  { right. rewrite u32_small by lia. lia. }
  destruct (Z_lt_le_dec (size + max_extend mspg) (2 ^ 32)) as [Hc|Hc].
  - rewrite u32_small by lia.
    rewrite (proj2 (Z.ltb_ge _ _)) by lia.
    destruct (Z.eqb_spec (max_limit mspg) 0); simpl; [right; lia|].
    destruct (Z.leb_spec (size + max_extend mspg) (max_limit mspg)); [right|left]; lia.
  - rewrite u32_over by lia. rewrite (proj2 (Z.ltb_lt _ _)) by lia. left; lia.
Qed.

(** The loop always ends, never trips its assertion, and overshoots the
    request by less than [max_extend]. *)
Lemma extend_size_spec mspg size to_size :
  memspg_wf mspg → 0 ≤ size → size < to_size → to_size < 2 ^ 32 →
  ∃ r, extend_size mspg size to_size = Ret r ∧
  match r with
  | None => max_limit mspg ≠ 0 ∨ 2 ^ 32 ≤ to_size + max_extend mspg
  | Some n => to_size ≤ n < to_size + max_extend mspg ∧ n < 2 ^ 32
  end.
Proof.
  intros Hwf Hs Hlt Hto. unfold extend_size, loop_exec.
  destruct (loop_total (extend_step mspg size to_size)
    (λ s, size ≤ s < to_size) (λ s, to_size - s)
    (λ r, ∃ o, r = Ret o ∧
       match o with
       | None => max_limit mspg ≠ 0 ∨ 2 ^ 32 ≤ to_size + max_extend mspg
       | Some n => to_size ≤ n < to_size + max_extend mspg ∧ n < 2 ^ 32
       end) fuel32 size) as (r & -> & o & -> & Ho); cycle 4.
  { simpl. eauto. }
  - intros s Hb. unfold extend_step.
    pose proof (next_size_grows mspg s Hwf ltac:(lia)) as Hn. simpl in Hn.
    destruct (Z.eqb_spec (tt_memspg_next_size mspg s) 0) as [E|E].
    { exists None. split; [done|]. lia. }
    destruct Hn as [[? ?]|Hn]; [lia|].
    rewrite (proj2 (Z.ltb_lt _ _)) by lia. simpl.
    destruct (Z.ltb_spec (tt_memspg_next_size mspg s) to_size); [lia|].
    eexists; split; [done|]. simpl. lia.
  - intros s Hb. lia.
  - lia.
  - unfold fuel32. lia.
Qed.

(** ** Extending a block *)

Section spring_lemmas.
Context `{Allocator}.

(** Extension keeps the old bytes in front and reports only two failures:
    no memory, or no admissible size. *)
Lemma extend_ex_spec mspg old size to_size :
  memspg_wf mspg → zlen old = size → size < to_size → to_size < 2 ^ 32 →
  Forall is_u8 old →
  (∃ np n, tt_memspg_extend_ex mspg (Some old) size to_size false
             = Ret (TT_SUCCESS (np, n)) ∧
     zlen np = n ∧ Forall is_u8 np ∧ sub np 0 size = old ∧ to_size ≤ n < to_size + max_extend mspg ∧
     n < 2 ^ 32) ∨
  (tt_memspg_extend_ex mspg (Some old) size to_size false = Ret (TT_ERROR TT_FAIL) ∧
     (¬ malloc_total ∨ max_limit mspg ≠ 0 ∨ 2 ^ 32 ≤ to_size + max_extend mspg)).
Proof.
  intros Hwf Hz Hlt Hto Hu8. pose proof (zlen_nonneg old).
  unfold tt_memspg_extend_ex. rewrite (proj2 (Z.ltb_lt size to_size)) by lia. simpl.
  destruct (extend_size_spec mspg size to_size) as (r & -> & Hr); [done|lia..|].
  simpl. destruct r as [n|]; [|right; eauto].
  destruct (malloc n) as [np|] eqn:Hm; cycle 1.
  { right. split; [done|]. left. intros Ht. destruct (Ht n) as [? ?]. congruence. }
  left. pose proof (malloc_bytes _ _ Hm) as Hb. apply malloc_zlen in Hm.
  rewrite mem_read_ok by lia. simpl.
  assert (sub old 0 size = old) as -> by (rewrite <- Hz; apply sub_all).
  rewrite mem_write_ok by lia. simpl. eexists _, n. split; [done|].
  rewrite zlen_splice by lia. rewrite <- Hz, sub_splice_at by lia.
  repeat split; try done; try lia. by apply Forall_splice.
Qed.
End spring_lemmas.
