(* ===== verification/Buffer.v ===== *)
(** The byte buffer (algorithm/tt_buffer.h, algorithm/tt_buffer.c): a block
    with a read and a write position, growing under a memory spring. *)

From S2P Require Import Prelude MemSpring.

Definition TT_BUF_INIT_SIZE : Z := 16.

Record tt_buf_attr_t : Type := mk_buf_attr {
  attr_min_extend : Z;
  attr_max_extend : Z;
  attr_max_limit : Z;
}.

(** Where [buf->p] points: nowhere, at [buf->initbuf], at a block the buffer
    owns, or at the caller's memory (tt_buf_create_nocopy). *)
Inductive buf_ptr : Type :=
  | BufNull
  | BufInit
  | BufHeap (blk : list Z)
  | BufUser (blk : list Z).

Record tt_buf_t : Type := mk_buf {
  p : buf_ptr;
  size : Z;
  mspg : tt_memspg_t;
  wpos : Z;
  rpos : Z;
  initbuf : list Z;
  readonly : bool;
}.

Definition set_p_size (q : buf_ptr) (n : Z) (b : tt_buf_t) : tt_buf_t :=
  mk_buf q n (mspg b) (wpos b) (rpos b) (initbuf b) (readonly b).
Definition set_wpos (w : Z) (b : tt_buf_t) : tt_buf_t :=
  mk_buf (p b) (size b) (mspg b) w (rpos b) (initbuf b) (readonly b).
Definition set_rpos (r : Z) (b : tt_buf_t) : tt_buf_t :=
  mk_buf (p b) (size b) (mspg b) (wpos b) r (initbuf b) (readonly b).
Definition set_initbuf (l : list Z) (b : tt_buf_t) : tt_buf_t :=
  mk_buf (p b) (size b) (mspg b) (wpos b) (rpos b) l (readonly b).

(** The block [buf->p] points at, and storing into it. *)
Definition block (b : tt_buf_t) : option (list Z) :=
  match p b with
  | BufNull => None
  | BufInit => Some (initbuf b)
  | BufHeap l | BufUser l => Some l
  end.

Definition set_block (l : list Z) (b : tt_buf_t) : tt_buf_t :=
  match p b with
  | BufNull => b
  | BufInit => set_initbuf l b
  | BufHeap _ => set_p_size (BufHeap l) (size b) b
  | BufUser _ => set_p_size (BufUser l) (size b) b
  end.

Definition TT_BUF_RLEN (b : tt_buf_t) : Z := u32 (wpos b - rpos b).
Definition TT_BUF_WLEN (b : tt_buf_t) : Z := u32 (size b - wpos b).
Definition TT_BUF_REFINABLE (b : tt_buf_t) : Z := rpos b.

(** Reading and writing [buf->p[off .. off+n)]. *)
Definition buf_read (off n : Z) : M tt_buf_t (list Z) := λ b,
  match block b with
  | None => Undef
  | Some l => exec_bind (mem_read l off n) (λ d, Ret (TT_SUCCESS d, b))
  end.

Definition buf_write (off : Z) (d : list Z) : M tt_buf_t unit := λ b,
  match block b with
  | None => Undef
  | Some l => exec_bind (mem_write l off d) (λ l', Ret (TT_SUCCESS tt, set_block l' b))
  end.

(** [TT_BUF_CHECK] *)
Definition TT_BUF_CHECK : M tt_buf_t unit :=
  b ← gets id;
  assert_always (match p b with BufNull => false | _ => true end
                 && (rpos b <=? wpos b) && (wpos b <=? size b)).

Definition tt_buf_attr_default : tt_buf_attr_t := mk_buf_attr 64 (Z.shiftl 1 12) 0.

(** *** Position operations (inline functions of tt_buffer.h) *)

Definition tt_buf_set_rptr (off : Z) : M tt_buf_t unit :=
  b ← gets id;
  assert_always ((0 <=? off) && (off <=? wpos b));;
  modify (set_rpos off).

Definition tt_buf_inc_rp (num : Z) : M tt_buf_t unit :=
  b ← gets id;
  if num <=? TT_BUF_RLEN b then modify (set_rpos (u32 (rpos b + num)))
  else fail TT_E_BUF_NOBUFS.

Definition tt_buf_dec_rp (num : Z) : M tt_buf_t unit :=
  b ← gets id;
  if num <=? rpos b then modify (set_rpos (u32 (rpos b - num))) else fail TT_FAIL.

Definition tt_buf_reset_rp : M tt_buf_t unit := modify (set_rpos 0).

Definition tt_buf_set_wptr (off : Z) : M tt_buf_t unit :=
  b ← gets id;
  assert_always ((rpos b <=? off) && (off <=? size b));;
  modify (set_wpos off).

Definition tt_buf_inc_wp (num : Z) : M tt_buf_t unit :=
  b ← gets id;
  if num <=? TT_BUF_WLEN b then modify (set_wpos (u32 (wpos b + num)))
  else fail TT_E_BUF_NOBUFS.

Definition tt_buf_dec_wp (num : Z) : M tt_buf_t unit :=
  b ← gets id;
  if num <=? TT_BUF_RLEN b then modify (set_wpos (u32 (wpos b - num))) else fail TT_FAIL.

Definition tt_buf_reset_rwp : M tt_buf_t unit :=
  modify (λ b, set_wpos 0 (set_rpos 0 b)).

Definition tt_buf_backup_rwp : M tt_buf_t (Z * Z) := gets (λ b, (rpos b, wpos b)).

Definition tt_buf_restore_rwp (rw : Z * Z) : M tt_buf_t unit :=
  modify (λ b, set_rpos rw.1 (set_wpos rw.2 b)).

Definition tt_buf_clear : M tt_buf_t unit := tt_buf_reset_rwp.

Definition tt_buf_empty (b : tt_buf_t) : bool := rpos b =? wpos b.

(** *** Reading *)

Definition tt_buf_peek (len : Z) : M tt_buf_t (list Z) :=
  b ← gets id;
  if TT_BUF_RLEN b <? len then fail TT_E_BUF_NOBUFS else buf_read (rpos b) len.

Definition tt_buf_get (len : Z) : M tt_buf_t (list Z) :=
  d ← tt_buf_peek len;
  modify (λ b, set_rpos (u32 (rpos b + len)) b);;
  mret d.

(** The pointer handed out is modelled by the bytes it points at when the call
    returns. *)
Definition tt_buf_get_nocopy (len : Z) : M tt_buf_t (list Z) :=
  b ← gets id;
  if TT_BUF_RLEN b <? len then fail TT_E_BUF_NOBUFS
  else
    d ← buf_read (rpos b) len;
    modify (set_rpos (u32 (rpos b + len)));;
    mret d.

(** *** Memory operations *)

Section alloc.
Context `{Allocator}.

Definition __buf_extend (n : Z) : M tt_buf_t unit := λ b,
  if readonly b then Ret (TT_ERROR TT_FAIL, b)
  else
    exec_bind (tt_memspg_extend_ex (mspg b) (block b) (size b) n false) (λ r,
      match r with
      | TT_SUCCESS (np, nsize) => Ret (TT_SUCCESS tt, set_p_size (BufHeap np) nsize b)
      | TT_ERROR e => Ret (TT_ERROR e, b)
      end).

Definition tt_buf_reserve (n : Z) : M tt_buf_t unit :=
  b ← gets id;
  if n <=? TT_BUF_WLEN b then mret tt else __buf_extend (u32 (size b + n)).

Definition tt_buf_extend : M tt_buf_t unit :=
  b ← gets id;
  __buf_extend (u32 (size b + 1)).

(** Replacing the block by what [tt_memspg_compress] or
    [tt_memspg_compress_range] leaves. *)
Definition compress_with
    (f : option (list Z) → exec (result (option (list Z) * Z))) : M tt_buf_t unit :=
  λ b, exec_bind (f (block b)) (λ r,
    match r with
    | TT_SUCCESS (Some np, n) => Ret (TT_SUCCESS tt, set_p_size (BufHeap np) n b)
    | TT_SUCCESS (None, n) => Ret (TT_SUCCESS tt, set_p_size BufNull n b)
    | TT_ERROR e => Ret (TT_ERROR e, b)
    end).

Definition tt_buf_compress : M tt_buf_t unit :=
  b ← gets id;
  if readonly b then fail TT_FAIL
  else
    let len := TT_BUF_RLEN b in
    if len <=? TT_BUF_INIT_SIZE then
      d ← buf_read (rpos b) len;
      ib ← (λ s, exec_bind (mem_write (initbuf s) 0 d) (λ l, Ret (TT_SUCCESS l, s)));
      modify (set_initbuf ib);;
      match p b with
      | BufInit => mret tt
      | _ => try (compress_with (λ q, tt_memspg_compress q (size b) 0));; mret tt
      end;;
      modify (λ s, set_rpos 0 (set_wpos len (set_p_size BufInit TT_BUF_INIT_SIZE s)));;
      TT_BUF_CHECK
    else
      compress_with (λ q, tt_memspg_compress_range q (size b) (rpos b) (wpos b)).

Definition tt_buf_refine : M tt_buf_t Z :=
  b ← gets id;
  if readonly b then mret 0
  else if rpos b =? 0 then mret 0
  else
    (if rpos b =? wpos b then tt_buf_reset_rwp
     else
       let len := TT_BUF_RLEN b in
       d ← buf_read (rpos b) len;
       buf_write 0 d;;
       modify (λ s, set_wpos len (set_rpos 0 s)));;
    TT_BUF_CHECK;;
    mret (rpos b).

Definition tt_buf_try_refine (threshold : Z) : M tt_buf_t Z :=
  b ← gets id;
  if tt_buf_empty b || (threshold <=? TT_BUF_REFINABLE b)
  then tt_buf_refine else mret 0.

(** *** Writing; a data argument is a block and its length [zlen data] *)

Definition tt_buf_put (data : list Z) : M tt_buf_t unit :=
  b ← gets id;
  if readonly b then fail TT_FAIL
  else if zlen data =? 0 then mret tt
  else
    tt_buf_reserve (zlen data);;
    s ← gets id;
    buf_write (wpos s) data;;
    modify (set_wpos (u32 (wpos s + zlen data)));;
    TT_BUF_CHECK.

Definition tt_buf_put_rep (byte rep_num : Z) : M tt_buf_t unit :=
  b ← gets id;
  if readonly b then fail TT_FAIL
  else if rep_num =? 0 then mret tt
  else
    tt_buf_reserve rep_num;;
    s ← gets id;
    buf_write (wpos s) (replicate (Z.to_nat rep_num) byte);;
    modify (set_wpos (u32 (wpos s + rep_num)));;
    TT_BUF_CHECK.

Definition tt_buf_set (pos : Z) (data : list Z) : M tt_buf_t unit :=
  b ← gets id;
  let data_len := zlen data in
  if u32 (rpos b + pos) <? pos then fail TT_FAIL
  else if wpos b <? u32 (rpos b + pos) then fail TT_FAIL
  else if wpos b <? u32 (u32 (rpos b + pos) + data_len) then fail TT_FAIL
  else
    buf_write (u32 (rpos b + pos)) data;;
    TT_BUF_CHECK.

Definition tt_buf_set_range (pos len : Z) (data : list Z) : M tt_buf_t unit :=
  b ← gets id;
  let data_len := zlen data in
  if (u32_max <? u64 (rpos b + pos)) || (u32_max <? u64 (rpos b + u32 (pos + len)))
  then fail TT_FAIL
  else if wpos b <? u32 (rpos b + pos) then fail TT_FAIL
  else if wpos b <? u32 (u32 (rpos b + pos) + len) then fail TT_FAIL
  else if len <? data_len then
    let n := u32 (data_len - len) in
    tt_buf_reserve n;;
    s ← gets id;
    let q := u32 (rpos s + pos) in
    d ← buf_read (q + len) (u32 (TT_BUF_RLEN s - pos - len));
    buf_write (q + data_len) d;;
    buf_write q data;;
    modify (set_wpos (u32 (wpos s + n)))
  else if len =? data_len then buf_write (u32 (rpos b + pos)) data
  else
    let q := u32 (rpos b + pos) in
    let n := u32 (len - data_len) in
    d ← buf_read (q + len) (u32 (TT_BUF_RLEN b - pos - len));
    buf_write (q + data_len) d;;
    buf_write q data;;
    modify (set_wpos (u32 (wpos b - n))).

(** *** Creation and destruction *)

Definition tt_buf_create (n : Z) (attr : option tt_buf_attr_t)
  : exec (result tt_buf_t) :=
  let a := default tt_buf_attr_default attr in
  exec_bind (tt_memspg_init (attr_min_extend a) (attr_max_extend a) (attr_max_limit a))
    (λ ms,
      let ib := replicate 16 0 in
      if n <? TT_BUF_INIT_SIZE
      then Ret (TT_SUCCESS (mk_buf BufInit TT_BUF_INIT_SIZE ms 0 0 ib false))
      else exec_bind (tt_memspg_extend ms None 0 n) (λ r,
        match r with
        | TT_SUCCESS (np, nsize) =>
            Ret (TT_SUCCESS (mk_buf (BufHeap np) nsize ms 0 0 ib false))
        | TT_ERROR e => Ret (TT_ERROR e)
        end)).

Definition tt_buf_init (attr : option tt_buf_attr_t) : exec (result tt_buf_t) :=
  tt_buf_create 0 attr.

Definition tt_buf_create_copy (data : list Z) (attr : option tt_buf_attr_t)
  : exec (result tt_buf_t) :=
  exec_bind (tt_buf_create (zlen data) attr) (λ r,
    match r with
    | TT_ERROR _ => Ret (TT_ERROR TT_FAIL)
    | TT_SUCCESS b =>
        exec_bind (tt_buf_put data b) (λ '(r', b'),
          match r' with
          | TT_SUCCESS _ => Ret (TT_SUCCESS b')
          | TT_ERROR _ => Ret (TT_ERROR TT_FAIL)
          end)
    end).

Definition tt_buf_create_nocopy (data : list Z) (attr : option tt_buf_attr_t)
  : exec (result tt_buf_t) :=
  exec_bind (tt_buf_create 0 attr) (λ r,
    match r with
    | TT_ERROR _ => Ret (TT_ERROR TT_FAIL)
    | TT_SUCCESS b =>
        Ret (TT_SUCCESS (mk_buf (BufUser data) (zlen data) (mspg b) (zlen data)
                           (rpos b) (initbuf b) true))
    end).

Definition tt_buf_destroy : M tt_buf_t unit :=
  b ← gets id;
  match p b with
  | BufNull => crash
  | BufInit => mret tt
  | _ => if readonly b then mret tt
         else try (compress_with (λ q, tt_memspg_compress q (size b) 0));; mret tt
  end.
End alloc.

(** ** The invariant and the readable bytes *)

Definition blk (b : tt_buf_t) : list Z := default [] (block b).

(** What a buffer offers its readers: the bytes between the two positions. *)
Definition content (b : tt_buf_t) : list Z := sub (blk b) (rpos b) (wpos b - rpos b).

Record buf_wf (b : tt_buf_t) : Prop := {
  wf_ptr : p b ≠ BufNull;
  wf_zlen : zlen (blk b) = size b;
  wf_pos : 0 ≤ rpos b ≤ wpos b ∧ wpos b ≤ size b;
  wf_size : size b < 2 ^ 32;
  wf_bytes : Forall is_u8 (blk b);
  wf_init : zlen (initbuf b) = TT_BUF_INIT_SIZE ∧ Forall is_u8 (initbuf b);
  wf_mspg : memspg_wf (mspg b);
  wf_ro : readonly b = match p b with BufUser _ => true | _ => false end;
  wf_heap : match p b with BufHeap _ => 0 < size b | _ => True end;
}.

Section wf.
Context (b : tt_buf_t) (Hwf : buf_wf b).

Lemma wf_block : block b = Some (blk b).
Proof. destruct Hwf as [Hp _ _ _ _ _ _ _ _]. unfold blk, block. by destruct (p b). Qed.

Lemma wf_rlen : TT_BUF_RLEN b = wpos b - rpos b.
Proof. destruct Hwf. unfold TT_BUF_RLEN. apply u32_small. lia. Qed.
Lemma wf_wlen : TT_BUF_WLEN b = size b - wpos b.
Proof. destruct Hwf. unfold TT_BUF_WLEN. apply u32_small. lia. Qed.

Lemma wf_content : zlen (content b) = wpos b - rpos b.
Proof. destruct Hwf. unfold content. apply zlen_sub; lia. Qed.

Lemma wf_check : TT_BUF_CHECK b = Ret (TT_SUCCESS tt, b).
Proof.
  destruct Hwf as [Hp _ [[??]?] _ _ _ _ _ _].
  unfold TT_BUF_CHECK. m_simpl. repeat b_step. by destruct (p b).
Qed.

Lemma buf_read_ok off n :
  0 ≤ off → 0 ≤ n → off + n ≤ size b →
  buf_read off n b = Ret (TT_SUCCESS (sub (blk b) off n), b).
Proof.
  intros. unfold buf_read. rewrite wf_block.
  rewrite mem_read_ok; [done|done|done|]. rewrite wf_zlen; done.
Qed.

Lemma blk_set_block l : blk (set_block l b) = l.
Proof.
  destruct Hwf as [Hp _ _ _ _ _ _ _ _].
  unfold blk, block, set_block. by destruct (p b) eqn:E; rewrite ?E; simpl; rewrite ?E.
Qed.

Lemma buf_write_ok off d :
  0 ≤ off → off + zlen d ≤ size b →
  buf_write off d b = Ret (TT_SUCCESS tt, set_block (splice (blk b) off d) b).
Proof.
  intros. unfold buf_write. rewrite wf_block.
  rewrite mem_write_ok; [done|done|]. rewrite wf_zlen; done.
Qed.

Lemma wf_set_block l :
  zlen l = size b → Forall is_u8 l → buf_wf (set_block l b).
Proof.
  intros Hl Hb. pose proof (blk_set_block l) as E. destruct Hwf.
  constructor; rewrite ?E; unfold set_block in *; destruct (p b) eqn:Ep; simpl in *;
    rewrite ?Ep; try done.
  unfold blk, block in *. rewrite Ep in *. simpl in *. split; [lia|done].
Qed.

Lemma wf_set_wpos w : rpos b ≤ w ≤ size b → buf_wf (set_wpos w b).
Proof. intros. destruct Hwf. constructor; try done. simpl. lia. Qed.
Lemma wf_set_rpos r : 0 ≤ r ≤ wpos b → buf_wf (set_rpos r b).
Proof. intros. destruct Hwf. constructor; try done. simpl. lia. Qed.
End wf.

(** The fields an update of the block leaves alone. *)
Lemma set_block_fields l b :
  size (set_block l b) = size b ∧ wpos (set_block l b) = wpos b ∧
  rpos (set_block l b) = rpos b ∧ mspg (set_block l b) = mspg b ∧
  readonly (set_block l b) = readonly b.
Proof. unfold set_block. by destruct (p b). Qed.
Lemma size_set_block l b : size (set_block l b) = size b.
Proof. apply set_block_fields. Qed.
Lemma wpos_set_block l b : wpos (set_block l b) = wpos b.
Proof. apply set_block_fields. Qed.
Lemma rpos_set_block l b : rpos (set_block l b) = rpos b.
Proof. apply set_block_fields. Qed.
Lemma mspg_set_block l b : mspg (set_block l b) = mspg b.
Proof. apply set_block_fields. Qed.
Lemma readonly_set_block l b : readonly (set_block l b) = readonly b.
Proof. apply set_block_fields. Qed.

Create Rewrite HintDb buf.
#[global] Hint Rewrite size_set_block wpos_set_block rpos_set_block mspg_set_block
  readonly_set_block : buf.

(** ** Writing appends *)

(** No allocation fails and the spring has no limit. *)
Definition reliable `{Allocator} (b : tt_buf_t) : Prop :=
  malloc_total ∧ max_limit (mspg b) = 0.

(** Room for [n] more bytes, in any number of writes, without a 32-bit size
    overflowing: a write never grows the block beyond
    [wpos + 2 * n + max_extend]. *)
Definition room (b : tt_buf_t) (n : Z) : Prop :=
  size b + n < 2 ^ 32 ∧ wpos b + 3 * n + max_extend (mspg b) < 2 ^ 32.

(** [b'] is [b] with [d] written at its end. *)
Record appended (b : tt_buf_t) (d : list Z) (b' : tt_buf_t) : Prop := {
  app_wf : buf_wf b';
  app_content : content b' = content b ++ d;
  app_wpos : wpos b' = wpos b + zlen d;
  app_rpos : rpos b' = rpos b;
  app_mspg : mspg b' = mspg b;
  app_ro : readonly b' = readonly b;
  app_size : size b' ≤ Z.max (size b) (wpos b + 2 * zlen d + max_extend (mspg b));
}.

(** [b'] has the positions and bytes of [b], maybe in a larger block. *)
Record kept (b b' : tt_buf_t) : Prop := {
  kept_wf : buf_wf b';
  kept_content : content b' = content b;
  kept_wpos : wpos b' = wpos b;
  kept_rpos : rpos b' = rpos b;
  kept_mspg : mspg b' = mspg b;
  kept_ro : readonly b' = readonly b;
}.

Lemma kept_refl b : buf_wf b → kept b b.
Proof. by constructor. Qed.

Lemma kept_appended b b1 d b2 :
  kept b b1 → appended b1 d b2 →
  size b2 ≤ Z.max (size b) (wpos b + 2 * zlen d + max_extend (mspg b)) →
  appended b d b2.
Proof. intros [] [] ?. constructor; congruence. Qed.

Lemma appended_nil b : buf_wf b → appended b [] b.
Proof.
  intros Hwf. pose proof (wf_pos b Hwf) as Hp.
  constructor; try done; rewrite ?app_nil_r, ?zlen_nil; try done; lia.
Qed.

Lemma appended_app b d1 b1 d2 b2 :
  appended b d1 b1 → appended b1 d2 b2 → appended b (d1 ++ d2) b2.
Proof.
  intros H1 H2. destruct H1, H2. pose proof (zlen_nonneg d1). pose proof (zlen_nonneg d2).
  constructor; try congruence.
  - rewrite app_content1, app_content0. by rewrite app_assoc.
  - rewrite zlen_app. lia.
  - rewrite zlen_app. rewrite app_mspg0 in *. lia.
Qed.

Lemma room_appended b d1 b1 n :
  0 ≤ n → room b (zlen d1 + n) → appended b d1 b1 → room b1 n.
Proof.
  intros Hn [H1 H2] []. pose proof (zlen_nonneg d1). split; [lia|].
  rewrite app_mspg0. lia.
Qed.

Lemma room_weaken b n m : 0 ≤ n ≤ m → room b m → room b n.
Proof. intros ? []. split; lia. Qed.

Section write.
Context `{Allocator}.

Lemma buf_extend_spec b n :
  buf_wf b → readonly b = false → size b < n → n < 2 ^ 32 →
  (∃ np ns, __buf_extend n b = Ret (TT_SUCCESS tt, set_p_size (BufHeap np) ns b) ∧
     zlen np = ns ∧ Forall is_u8 np ∧ sub np 0 (size b) = blk b ∧
     n ≤ ns < n + max_extend (mspg b) ∧ ns < 2 ^ 32) ∨
  (__buf_extend n b = Ret (TT_ERROR TT_FAIL, b) ∧
     (reliable b → 2 ^ 32 ≤ n + max_extend (mspg b))).
Proof.
  intros Hwf Hro Hlt Hn. pose proof (wf_zlen b Hwf). pose proof (wf_bytes b Hwf).
  unfold __buf_extend. rewrite Hro, (wf_block b Hwf).
  destruct (extend_ex_spec (mspg b) (blk b) (size b) n)
    as [(np & ns & -> & ?)|[-> Hr]]; try done; [apply wf_mspg, Hwf| |].
  - left. simpl. exists np, ns. naive_solver.
  - right. simpl. split; [done|]. intros [? ?]. naive_solver.
Qed.

(** Reserving changes neither the positions nor the readable bytes. *)
Lemma buf_reserve_spec b n :
  buf_wf b → readonly b = false → 0 ≤ n → room b n →
  (∃ b', tt_buf_reserve n b = Ret (TT_SUCCESS tt, b') ∧ kept b b' ∧
     wpos b + n ≤ size b' ≤ Z.max (size b) (wpos b + 2 * n + max_extend (mspg b))) ∨
  (tt_buf_reserve n b = Ret (TT_ERROR TT_FAIL, b) ∧ ¬ reliable b).
Proof.
  intros Hwf Hro Hn [Hr1 Hr2]. pose proof (wf_pos b Hwf) as Hpos.
  unfold tt_buf_reserve. m_simpl. rewrite (wf_wlen b Hwf).
  destruct (Z.leb_spec n (size b - wpos b)) as [Hle|Hgt].
  { left. exists b. split; [done|]. split; [by apply kept_refl|]. lia. }
  pose proof (wf_size b Hwf). rewrite u32_small by lia.
  destruct (buf_extend_spec b (size b + n)) as [(np & ns & -> & Hz & Hb & Hs & Hns & Hm)
    |[-> Hrel]]; try done; [lia|left|right].
  - eexists; split; [done|]. split; [|simpl; lia].
    constructor; simpl; try done.
    + pose proof (wf_init b Hwf). pose proof (wf_mspg b Hwf).
      constructor; simpl; unfold blk, block; simpl; try done; lia.
    + unfold content at 1, blk, block. simpl.
      unfold content. rewrite <- Hs. rewrite sub_sub by lia. f_equal; lia.
  - split; [done|]. intros Hr. specialize (Hrel Hr). lia.
Qed.

(** The write at the end that [tt_buf_put] and its variants share. *)
Lemma buf_store_spec b d :
  buf_wf b → Forall is_u8 d → wpos b + zlen d ≤ size b →
  let b' := set_wpos (u32 (wpos b + zlen d)) (set_block (splice (blk b) (wpos b) d) b) in
  buf_write (wpos b) d b
    = Ret (TT_SUCCESS tt, set_block (splice (blk b) (wpos b) d) b) ∧
  appended b d b'.
Proof.
  intros Hwf Hd Hfit b'. pose proof (zlen_nonneg d). pose proof (wf_pos b Hwf).
  pose proof (wf_zlen b Hwf) as Hz. pose proof (wf_size b Hwf).
  split; [by apply buf_write_ok; [|lia|]|]. subst b'.
  rewrite u32_small by lia.
  assert (buf_wf (set_block (splice (blk b) (wpos b) d) b)) as Hwf'.
  { apply wf_set_block; [done| |].
    - rewrite zlen_splice; [done|lia|lia].
    - apply Forall_splice; [apply wf_bytes, Hwf|done]. }
  constructor; simpl; autorewrite with buf; try done; try lia.
  - apply wf_set_wpos; [done|]. autorewrite with buf. lia.
  - unfold content. change (blk (set_wpos ?w ?s)) with (blk s).
    rewrite blk_set_block by done. simpl. autorewrite with buf.
    replace (wpos b + zlen d - rpos b) with ((wpos b - rpos b) + zlen d) by lia.
    rewrite sub_split by lia. f_equal.
    + apply sub_splice_before; lia.
    + replace (rpos b + (wpos b - rpos b)) with (wpos b) by lia.
      apply sub_splice_at; lia.
Qed.

Lemma buf_put_spec b d :
  buf_wf b → readonly b = false → Forall is_u8 d → room b (zlen d) →
  (∃ b', tt_buf_put d b = Ret (TT_SUCCESS tt, b') ∧ appended b d b') ∨
  (tt_buf_put d b = Ret (TT_ERROR TT_FAIL, b) ∧ ¬ reliable b).
Proof.
  intros Hwf Hro Hd Hroom. pose proof (zlen_nonneg d).
  unfold tt_buf_put. m_simpl. rewrite Hro.
  destruct (Z.eqb_spec (zlen d) 0) as [E|E].
  { left. exists b. split; [done|]. apply zlen_nil_inv in E as ->. by apply appended_nil. }
  destruct (buf_reserve_spec b (zlen d)) as [(b1 & -> & H1 & Hs1)|[-> ?]]; try done;
    [left|by right].
  pose proof (kept_wf _ _ H1) as Hwf1. pose proof (kept_wpos _ _ H1) as Hw. m_simpl.
  destruct (buf_store_spec b1 d) as [-> H2]; [done|done|lia|]. m_simpl.
  rewrite (wf_check _ (app_wf _ _ _ H2)).
  eexists; split; [done|]. eapply kept_appended; [done|done|].
  simpl. autorewrite with buf. lia.
Qed.
End write.

(** ** Reading consumes *)

Lemma content_set_rpos b n :
  buf_wf b → 0 ≤ n ≤ zlen (content b) →
  content (set_rpos (rpos b + n) b) = drop (Z.to_nat n) (content b).
Proof.
  intros Hwf Hn. rewrite (wf_content b Hwf) in Hn. pose proof (wf_pos b Hwf).
  unfold content. change (blk (set_rpos _ b)) with (blk b). simpl.
  replace (wpos b - rpos b) with (n + (wpos b - (rpos b + n))) by lia.
  rewrite sub_split by lia. rewrite drop_app_length'; [done|].
  pose proof (wf_zlen b Hwf).
  pose proof (zlen_sub (blk b) (rpos b) n) as E. unfold zlen in *. lia.
Qed.

Lemma sub_content b a n :
  buf_wf b → 0 ≤ a → 0 ≤ n → a + n ≤ zlen (content b) →
  sub (content b) a n = sub (blk b) (rpos b + a) n.
Proof.
  intros Hwf ???. rewrite (wf_content b Hwf) in *. pose proof (wf_pos b Hwf).
  unfold content. by rewrite sub_sub by lia.
Qed.

Section read.
Context (b : tt_buf_t) (Hwf : buf_wf b) (n : Z) (Hn : 0 ≤ n).

Lemma wf_advance : n ≤ zlen (content b) → buf_wf (set_rpos (rpos b + n) b).
Proof.
  intros Hle. rewrite (wf_content b Hwf) in Hle. pose proof (wf_pos b Hwf).
  apply wf_set_rpos; [done|lia].
Qed.

Lemma buf_peek_spec :
  tt_buf_peek n b =
    Ret (if n <=? zlen (content b) then TT_SUCCESS (sub (content b) 0 n)
         else TT_ERROR TT_E_BUF_NOBUFS, b).
Proof.
  unfold tt_buf_peek. m_simpl. rewrite (wf_rlen b Hwf), <- (wf_content b Hwf).
  destruct (Z.ltb_spec (zlen (content b)) n) as [E|E]; b_step; [done|].
  rewrite sub_content, Z.add_0_r by (try done; lia).
  rewrite (wf_content b Hwf) in E. pose proof (wf_pos b Hwf).
  by rewrite buf_read_ok by (try done; lia).
Qed.

Lemma buf_get_spec :
  tt_buf_get n b =
    (if n <=? zlen (content b)
     then Ret (TT_SUCCESS (sub (content b) 0 n), set_rpos (rpos b + n) b)
     else Ret (TT_ERROR TT_E_BUF_NOBUFS, b)).
Proof.
  unfold tt_buf_get. m_simpl. rewrite buf_peek_spec.
  destruct (Z.leb_spec n (zlen (content b))) as [E|E]; [|done]. m_simpl.
  rewrite (wf_content b Hwf) in E. pose proof (wf_pos b Hwf). pose proof (wf_size b Hwf).
  by rewrite u32_small by lia.
Qed.

Lemma buf_get_nocopy_spec : tt_buf_get_nocopy n b = tt_buf_get n b.
Proof.
  rewrite buf_get_spec. unfold tt_buf_get_nocopy. m_simpl.
  rewrite (wf_rlen b Hwf), <- (wf_content b Hwf).
  destruct (Z.ltb_spec (zlen (content b)) n) as [E|E]; b_step; [done|].
  rewrite sub_content, Z.add_0_r by (try done; lia).
  rewrite (wf_content b Hwf) in E. pose proof (wf_pos b Hwf). pose proof (wf_size b Hwf).
  rewrite buf_read_ok by (try done; lia). by rewrite u32_small by lia.
Qed.

Lemma buf_inc_rp_spec :
  tt_buf_inc_rp n b =
    (if n <=? zlen (content b) then Ret (TT_SUCCESS tt, set_rpos (rpos b + n) b)
     else Ret (TT_ERROR TT_E_BUF_NOBUFS, b)).
Proof.
  unfold tt_buf_inc_rp. m_simpl. rewrite (wf_rlen b Hwf), <- (wf_content b Hwf).
  destruct (Z.leb_spec n (zlen (content b))) as [E|E]; [|done].
  rewrite (wf_content b Hwf) in E. pose proof (wf_pos b Hwf). pose proof (wf_size b Hwf).
  by rewrite u32_small by lia.
Qed.
End read.

(** ** Filling, overwriting, refining *)

Section write2.
Context `{Allocator}.

Lemma put_rep_put byte n b :
  0 ≤ n → tt_buf_put_rep byte n b = tt_buf_put (replicate (Z.to_nat n) byte) b.
Proof.
  intros. unfold tt_buf_put_rep, tt_buf_put. rewrite zlen_replicate, Z2Nat.id by done.
  done.
Qed.

(** Overwriting inside the readable area. *)
Lemma buf_set_spec b pos d :
  buf_wf b → Forall is_u8 d → 0 ≤ pos → pos + zlen d ≤ zlen (content b) →
  ∃ b', tt_buf_set pos d b = Ret (TT_SUCCESS tt, b') ∧ buf_wf b' ∧
   content b' = splice (content b) pos d ∧ rpos b' = rpos b ∧ wpos b' = wpos b ∧
   size b' = size b ∧ mspg b' = mspg b ∧ readonly b' = readonly b.
Proof.
  intros Hwf Hd Hpos Hle. rewrite (wf_content b Hwf) in Hle.
  pose proof (wf_pos b Hwf). pose proof (wf_size b Hwf). pose proof (zlen_nonneg d).
  pose proof (wf_zlen b Hwf) as Hz.
  unfold tt_buf_set. m_simpl. rewrite !(u32_small (rpos b + pos)) by lia.
  rewrite u32_small by lia. repeat b_step.
  rewrite (buf_write_ok b Hwf) by lia.
  assert (buf_wf (set_block (splice (blk b) (rpos b + pos) d) b)) as Hwf'.
  { apply wf_set_block; [done| |].
    - rewrite zlen_splice; lia.
    - apply Forall_splice; [apply wf_bytes, Hwf|done]. }
  rewrite (wf_check _ Hwf'). eexists.
  split; [done|]. split; [done|]. autorewrite with buf. split; [|done].
  unfold content. rewrite blk_set_block by done. autorewrite with buf.
  set (l := blk b) in *. set (r := rpos b) in *. set (w := wpos b) in *.
  replace (w - r) with (pos + (zlen d + (w - r - pos - zlen d))) at 1 by lia.
  rewrite !sub_split by lia.
  rewrite sub_splice_before, sub_splice_at, sub_splice_after by lia.
  unfold splice. f_equal; [|f_equal].
  - replace (w - r) with (pos + (w - r - pos)) by lia. rewrite sub_split by lia.
    rewrite take_app_length'; [done|].
    pose proof (zlen_sub l r pos). unfold zlen in *. lia.
  - replace (w - r) with ((pos + zlen d) + (w - r - pos - zlen d)) at 2 by lia.
    rewrite sub_split by lia. rewrite drop_app_length'.
    + f_equal. lia.
    + pose proof (zlen_sub l r (pos + zlen d)). unfold zlen in *. lia.
Qed.

Lemma buf_refine_spec b :
  buf_wf b → readonly b = false →
  ∃ b', tt_buf_refine b = Ret (TT_SUCCESS (rpos b), b') ∧ buf_wf b' ∧
    content b' = content b ∧ rpos b' = 0 ∧ wpos b' = wpos b - rpos b ∧
    size b' = size b ∧ mspg b' = mspg b ∧ readonly b' = false.
Proof.
  intros Hwf Hro. pose proof (wf_pos b Hwf). pose proof (wf_zlen b Hwf).
  pose proof (wf_size b Hwf).
  unfold tt_buf_refine. m_simpl. rewrite Hro.
  destruct (Z.eqb_spec (rpos b) 0) as [E|E].
  { exists b. rewrite E. split_and!; try done; lia. }
  destruct (Z.eqb_spec (rpos b) (wpos b)) as [E'|E'].
  - unfold tt_buf_reset_rwp. m_simpl. rewrite wf_check.
    2:{ apply wf_set_wpos; [apply wf_set_rpos; [done|lia]|simpl; lia]. }
    eexists. split; [done|]. simpl. split.
    { apply wf_set_wpos; [apply wf_set_rpos; [done|lia]|simpl; lia]. }
    split_and!; try done; try lia. unfold content. simpl. by rewrite <- E', !Z.sub_diag.
  - rewrite (wf_rlen b Hwf). rewrite (buf_read_ok b Hwf) by lia.
    assert (zlen (sub (blk b) (rpos b) (wpos b - rpos b)) = wpos b - rpos b) as Hl
      by (apply zlen_sub; lia).
    rewrite (buf_write_ok b Hwf) by lia.
    set (l := splice _ _ _).
    assert (buf_wf (set_block l b)) as Hwf'.
    { apply wf_set_block; [done| |].
      - subst l. rewrite zlen_splice; lia.
      - apply Forall_splice; [|apply Forall_sub]; apply wf_bytes, Hwf. }
    assert (buf_wf (set_wpos (wpos b - rpos b) (set_rpos 0 (set_block l b)))) as Hwf2.
    { apply wf_set_wpos; [apply wf_set_rpos; [done|]|]; simpl; autorewrite with buf; lia. }
    rewrite (wf_check _ Hwf2). eexists. split; [done|]. split; [done|].
    simpl. autorewrite with buf. split; [|done].
    unfold content. change (blk (set_wpos ?x (set_rpos ?y ?z))) with (blk z).
    rewrite blk_set_block by done. simpl. rewrite Z.sub_0_r.
    subst l. set (d := sub (blk b) _ _) in *. rewrite <- Hl.
    apply sub_splice_at; lia.
Qed.
End write2.

(** ** The buffer as a byte queue *)

Inductive buf_op : Type :=
  | OpPut (d : list Z)
  | OpPutRep (byte n : Z)
  | OpGet (n : Z)
  | OpGetNocopy (n : Z)
  | OpPeek (n : Z)
  | OpIncRp (n : Z)
  | OpRefine
  | OpTryRefine (threshold : Z)
  | OpClear.

Definition op_ok (o : buf_op) : Prop :=
  match o with
  | OpPut d => Forall is_u8 d
  | OpPutRep byte n => is_u8 byte ∧ 0 ≤ n
  | OpGet n | OpGetNocopy n | OpPeek n | OpIncRp n => 0 ≤ n
  | _ => True
  end.

(** How many bytes an operation may add. *)
Definition op_cost (o : buf_op) : Z :=
  match o with
  | OpPut d => zlen d
  | OpPutRep _ n => Z.max 0 n
  | _ => 0
  end.

Definition ops_cost (os : list buf_op) : Z := foldr (λ o c, op_cost o + c) 0 os.

Section queue.
Context `{Allocator}.

(** The bytes an operation hands to its caller. *)
Definition run_op (o : buf_op) : M tt_buf_t (list Z) :=
  match o with
  | OpPut d => tt_buf_put d;; mret []
  | OpPutRep byte n => tt_buf_put_rep byte n;; mret []
  | OpGet n => tt_buf_get n
  | OpGetNocopy n => tt_buf_get_nocopy n
  | OpPeek n => tt_buf_peek n
  | OpIncRp n => tt_buf_inc_rp n;; mret []
  | OpRefine => tt_buf_refine;; mret []
  | OpTryRefine t => tt_buf_try_refine t;; mret []
  | OpClear => tt_buf_clear;; mret []
  end.

(** A client that issues the operations in turn and keeps going on errors. *)
Fixpoint run_ops (os : list buf_op) : M tt_buf_t (list (result (list Z))) :=
  match os with
  | [] => mret []
  | o :: os =>
      r ← try (run_op o);
      rs ← run_ops os;
      mret (r :: rs)
  end.
End queue.

(** The abstract queue.  [lossy] says that a write may be refused; it then has
    no effect. *)
Inductive q_step (lossy : Prop) : buf_op → list Z → result (list Z) → list Z → Prop :=
  | q_put d q : q_step lossy (OpPut d) q (TT_SUCCESS []) (q ++ d)
  | q_put_fail d q : lossy → q_step lossy (OpPut d) q (TT_ERROR TT_FAIL) q
  | q_rep byte n q :
      q_step lossy (OpPutRep byte n) q (TT_SUCCESS []) (q ++ replicate (Z.to_nat n) byte)
  | q_rep_fail byte n q : lossy → q_step lossy (OpPutRep byte n) q (TT_ERROR TT_FAIL) q
  | q_get d q : q_step lossy (OpGet (zlen d)) (d ++ q) (TT_SUCCESS d) q
  | q_get_short n q : zlen q < n → q_step lossy (OpGet n) q (TT_ERROR TT_E_BUF_NOBUFS) q
  | q_nocopy d q : q_step lossy (OpGetNocopy (zlen d)) (d ++ q) (TT_SUCCESS d) q
  | q_nocopy_short n q :
      zlen q < n → q_step lossy (OpGetNocopy n) q (TT_ERROR TT_E_BUF_NOBUFS) q
  | q_peek d q : q_step lossy (OpPeek (zlen d)) (d ++ q) (TT_SUCCESS d) (d ++ q)
  | q_peek_short n q : zlen q < n → q_step lossy (OpPeek n) q (TT_ERROR TT_E_BUF_NOBUFS) q
  | q_inc d q : q_step lossy (OpIncRp (zlen d)) (d ++ q) (TT_SUCCESS []) q
  | q_inc_short n q : zlen q < n → q_step lossy (OpIncRp n) q (TT_ERROR TT_E_BUF_NOBUFS) q
  | q_refine q : q_step lossy OpRefine q (TT_SUCCESS []) q
  | q_try_refine t q : q_step lossy (OpTryRefine t) q (TT_SUCCESS []) q
  | q_clear q : q_step lossy OpClear q (TT_SUCCESS []) [].

Inductive q_steps (lossy : Prop)
  : list buf_op → list Z → list (result (list Z)) → list Z → Prop :=
  | q_done q : q_steps lossy [] q [] q
  | q_next o os q r q1 rs q2 :
      q_step lossy o q r q1 → q_steps lossy os q1 rs q2 →
      q_steps lossy (o :: os) q (r :: rs) q2.

Section refinement.
Context `{Allocator}.

(** One operation: outcome, new queue, and room left for [n] more bytes. *)
Definition op_refines (o : buf_op) (b : tt_buf_t) (n : Z) : Prop :=
  ∃ r b', run_op o b = Ret (r, b') ∧ buf_wf b' ∧ readonly b' = false ∧
    mspg b' = mspg b ∧ room b' n ∧
    q_step (¬ reliable b) o (content b) r (content b').

Lemma content_split b n :
  0 ≤ n ≤ zlen (content b) →
  content b = sub (content b) 0 n ++ drop (Z.to_nat n) (content b) ∧
  zlen (sub (content b) 0 n) = n.
Proof.
  intros. split; [|apply zlen_sub; lia]. unfold sub.
  by rewrite drop_0, take_drop.
Qed.

Lemma advance_refines o b n m r (f : list Z → list Z) :
  buf_wf b → readonly b = false → 0 ≤ n → room b m →
  run_op o b = (if n <=? zlen (content b)
                then Ret (TT_SUCCESS (f (sub (content b) 0 n)), set_rpos (rpos b + n) b)
                else Ret (r, b)) →
  (∀ d q, zlen d = n → q_step (¬ reliable b) o (d ++ q) (TT_SUCCESS (f d)) q) →
  (zlen (content b) < n → q_step (¬ reliable b) o (content b) r (content b)) →
  op_refines o b m.
Proof.
  intros Hwf Hro Hn Hroom Hrun Hok Hko. unfold op_refines. rewrite Hrun.
  destruct (Z.leb_spec n (zlen (content b))) as [E|E].
  - destruct (content_split b n) as [Hs Hl]; [lia|].
    eexists _, _. split; [done|]. split; [by apply wf_advance|].
    split_and!; try done. rewrite content_set_rpos by (try done; lia).
    rewrite Hs at 1. by apply Hok.
  - eexists _, _. split; [done|]. split_and!; try done. by apply Hko.
Qed.

Lemma put_refines b d n :
  buf_wf b → readonly b = false → Forall is_u8 d → 0 ≤ n → room b (zlen d + n) →
  ∃ r b', tt_buf_put d b = Ret (r, b') ∧ buf_wf b' ∧ readonly b' = false ∧
    mspg b' = mspg b ∧ room b' n ∧
    (r = TT_SUCCESS tt ∧ content b' = content b ++ d ∨
     r = TT_ERROR TT_FAIL ∧ content b' = content b ∧ ¬ reliable b).
Proof.
  intros Hwf Hro Hd Hn Hroom. pose proof (zlen_nonneg d).
  assert (room b n) by (eapply room_weaken; [|exact Hroom]; lia).
  destruct (buf_put_spec b d) as [(b' & -> & Ha)|[-> ?]]; try done.
  - eapply room_weaken; [|exact Hroom]. lia.
  - pose proof (room_appended _ _ _ _ Hn Hroom Ha). destruct Ha.
    eexists _, b'. split; [done|]. split_and!; try done; [congruence|]. by left.
  - eexists _, b. split; [done|]. split_and!; try done. by right.
Qed.

Lemma refine_refines b n :
  buf_wf b → readonly b = false → room b n →
  ∃ k b', tt_buf_refine b = Ret (TT_SUCCESS k, b') ∧ buf_wf b' ∧
    readonly b' = false ∧ mspg b' = mspg b ∧ room b' n ∧ content b' = content b.
Proof.
  intros Hwf Hro [Hr1 Hr2]. pose proof (wf_pos b Hwf).
  destruct (buf_refine_spec b) as (b' & -> & Hwf' & Hc & Hrp & Hwp & Hs & Hm & Hro');
    [done..|].
  eexists _, b'. split; [done|]. split_and!; try done. split; [lia|]. rewrite Hm. lia.
Qed.

Lemma run_op_refines o b n :
  buf_wf b → readonly b = false → op_ok o → 0 ≤ n → room b (op_cost o + n) →
  op_refines o b n.
Proof.
  intros Hwf Hro Hok Hn Hroom.
  destruct o as [d|byte k|k|k|k|k| |t| ]; simpl in Hok, Hroom.
  - unfold op_refines, run_op.
    destruct (put_refines b d n) as (r & b' & E & ? & ? & ? & ? & [[-> Hc]|(-> & Hc & ?)]);
      try done; m_simpl; rewrite E; eexists _, b'; (split; [done|]);
      split_and!; try done; rewrite Hc; by constructor.
  - destruct Hok as [Hb Hk]. unfold op_refines, run_op.
    m_simpl. rewrite put_rep_put by done.
    destruct (put_refines b (replicate (Z.to_nat k) byte) n)
      as (r & b' & E & ? & ? & ? & ? & [[-> Hc]|(-> & Hc & ?)]);
      try done; try by apply Forall_replicate.
    { rewrite zlen_replicate. replace (Z.of_nat (Z.to_nat k)) with (Z.max 0 k) by lia. done. }
    all: rewrite E; eexists _, b'; (split; [done|]);
      split_and!; try done; rewrite Hc; by constructor.
  - eapply (advance_refines _ b k n (TT_ERROR TT_E_BUF_NOBUFS) id); try done.
    + by apply buf_get_spec.
    + intros d q <-. constructor.
    + by constructor.
  - eapply (advance_refines _ b k n (TT_ERROR TT_E_BUF_NOBUFS) id); try done.
    + simpl. rewrite buf_get_nocopy_spec by done. by apply buf_get_spec.
    + intros d q <-. constructor.
    + by constructor.
  - unfold op_refines, run_op. rewrite buf_peek_spec by done.
    destruct (Z.leb_spec k (zlen (content b))) as [E|E].
    + destruct (content_split b k) as [Hs Hl]; [lia|].
      eexists _, b. split; [done|]. split_and!; try done.
      rewrite Hs at 1 3. rewrite <- Hl at 1. constructor.
    + eexists _, b. split; [done|]. split_and!; try done. by constructor.
  - eapply (advance_refines _ b k n (TT_ERROR TT_E_BUF_NOBUFS) (λ _, [])); try done.
    + unfold run_op. m_simpl. rewrite buf_inc_rp_spec by done.
      by destruct (k <=? zlen (content b)).
    + intros d q <-. constructor.
    + by constructor.
  - unfold op_refines, run_op. m_simpl.
    destruct (refine_refines b n) as (k & b' & E & ? & ? & ? & ? & Hc); [done..|].
    rewrite E. eexists _, b'. split; [done|]. split_and!; try done. rewrite Hc. constructor.
  - unfold op_refines, run_op, tt_buf_try_refine. m_simpl.
    destruct (_ || _).
    + destruct (refine_refines b n) as (k & b' & E & ? & ? & ? & ? & Hc); [done..|].
      rewrite E. eexists _, b'. split; [done|]. split_and!; try done. rewrite Hc. constructor.
    + eexists _, b. split; [done|]. split_and!; try done. constructor.
  - unfold op_refines, run_op, tt_buf_clear, tt_buf_reset_rwp. m_simpl.
    destruct Hroom as [Hr1 Hr2]. pose proof (wf_pos b Hwf).
    eexists _, _. split; [done|]. split_and!; try done.
    + apply wf_set_wpos; [apply wf_set_rpos; [done|lia]|simpl; lia].
    + split; simpl in *; lia.
    + simpl. apply (q_clear _ (content b)).
Qed.
End refinement.

(** ** Creation *)

Section create.
Context `{Allocator}.

Definition attr_wf (a : tt_buf_attr_t) : Prop :=
  memspg_wf (mk_memspg (attr_min_extend a) (attr_max_extend a) (attr_max_limit a)).

Lemma attr_default_wf : attr_wf tt_buf_attr_default.
Proof.
  unfold attr_wf, memspg_wf, tt_buf_attr_default. change (Z.shiftl 1 12) with 4096.
  simpl. lia.
Qed.

Lemma memspg_init_ok a :
  attr_wf a →
  tt_memspg_init (attr_min_extend a) (attr_max_extend a) (attr_max_limit a) =
  Ret (mk_memspg (attr_min_extend a) (attr_max_extend a) (attr_max_limit a)).
Proof.
  intros (H1 & H2 & H3 & H4). simpl in *. unfold tt_memspg_init.
  do 2 b_step. destruct (Z.eqb_spec (attr_max_limit a) 0); simpl; [done|].
  by rewrite (proj2 (Z.ltb_lt _ _)) by lia.
Qed.

(** An empty buffer with room for small writes in its own bytes. *)
Lemma buf_init_ok a :
  attr_wf (default tt_buf_attr_default a) →
  ∃ b, tt_buf_init a = Ret (TT_SUCCESS b) ∧ buf_wf b ∧ readonly b = false ∧
       content b = [] ∧ size b = TT_BUF_INIT_SIZE ∧ rpos b = 0 ∧ wpos b = 0 ∧
       mspg b = mk_memspg (attr_min_extend (default tt_buf_attr_default a))
                  (attr_max_extend (default tt_buf_attr_default a))
                  (attr_max_limit (default tt_buf_attr_default a)).
Proof.
  intros Ha. unfold tt_buf_init, tt_buf_create. cbv zeta.
  rewrite memspg_init_ok by done. simpl. eexists. split; [done|].
  split; [|by unfold content].
  constructor; simpl; try done.
  - unfold blk, block. simpl. by repeat constructor.
  - split; [done|]. by repeat constructor.
Qed.

(** Reading a caller's block in place: its bytes are the content. *)
Lemma buf_create_nocopy_ok data a :
  attr_wf (default tt_buf_attr_default a) → Forall is_u8 data → zlen data < 2 ^ 32 →
  ∃ b, tt_buf_create_nocopy data a = Ret (TT_SUCCESS b) ∧ buf_wf b ∧
       content b = data ∧ readonly b = true ∧ rpos b = 0 ∧ wpos b = zlen data.
Proof.
  intros Ha Hd Hl. unfold tt_buf_create_nocopy.
  destruct (buf_init_ok a Ha) as (b & E & Hwf & Hro & Hc & Hs & Hr & Hw & Hm).
  unfold tt_buf_init in E. rewrite E. simpl. eexists. split; [done|].
  pose proof (zlen_nonneg data). destruct Hwf. split_and!; try done.
  - constructor; simpl; try done. lia.
  - unfold content, blk, block. simpl. rewrite Hr, Z.sub_0_r. apply sub_all.
Qed.

(** Destroying a buffer that is in order works, whatever its block. *)
Lemma buf_destroy_ok b : buf_wf b → ∃ b', tt_buf_destroy b = Ret (TT_SUCCESS tt, b').
Proof.
  intros [Hp _ _ _ _ _ _ Hro Hh]. unfold tt_buf_destroy. m_simpl. rewrite Hro.
  destruct (p b) eqn:E; [done|by eexists| |by eexists].
  unfold try, compress_with, block, tt_memspg_compress. rewrite E.
  rewrite (proj2 (Z.ltb_lt 0 (size b))) by done. by eexists.
Qed.
End create.

(** ** Properties *)

Section properties.
Context `{Allocator}.

(** C4: a writable buffer behaves as a byte queue under every sequence of
    puts, fills, gets, peeks, skips, refines and clears: no assertion fails, no
    access leaves the block, the invariant is kept, and the outcomes and bytes
    are those of the abstract queue.  A write is refused only when memory or
    the growth limit may run out. *)
Theorem buf_refines_queue os b :
  buf_wf b → readonly b = false → Forall op_ok os → room b (ops_cost os) →
  ∃ rs b', run_ops os b = Ret (TT_SUCCESS rs, b') ∧ buf_wf b' ∧
    readonly b' = false ∧ q_steps (¬ reliable b) os (content b) rs (content b').
Proof.
  revert b. induction os as [|o os IH]; intros b Hwf Hro Hok Hroom.
  { exists [], b. split_and!; try done. constructor. }
  apply Forall_cons_1 in Hok as [Ho Hos]. simpl in Hroom.
  assert (0 ≤ ops_cost os) as Hc.
  { clear. induction os as [|o os IH]; simpl; [lia|].
    pose proof (zlen_nonneg (match o with OpPut d => d | _ => [] end)).
    destruct o; simpl in *; lia. }
  destruct (run_op_refines o b (ops_cost os))
    as (r & b1 & E1 & Hwf1 & Hro1 & Hm1 & Hroom1 & Hq1); try done.
  destruct (IH b1) as (rs & b2 & E2 & Hwf2 & Hro2 & Hq2); try done.
  exists (r :: rs), b2. split.
  - simpl. m_simpl. by rewrite E1, E2.
  - split_and!; try done. econstructor; [done|].
    unfold reliable in *. by rewrite Hm1 in Hq2.
Qed.
End properties.

(** *** Compression *)

Section compress.
Context `{Allocator}.

(** The bytes copied into [initbuf] before the old block goes. *)
Lemma buf_compress_small b :
  buf_wf b → readonly b = false → zlen (content b) ≤ TT_BUF_INIT_SIZE →
  ∃ b', tt_buf_compress b = Ret (TT_SUCCESS tt, b') ∧ buf_wf b' ∧
    content b' = content b ∧ rpos b' = 0 ∧ size b' = TT_BUF_INIT_SIZE ∧
    readonly b' = false ∧ mspg b' = mspg b.
Proof.
  intros Hwf Hro Hle. pose proof (wf_content b Hwf) as Hlen.
  pose proof (wf_pos b Hwf). pose proof (wf_init b Hwf) as [Hi Hib].
  assert (sub (blk b) (rpos b) (wpos b - rpos b) = content b) as Ec by done.
  unfold tt_buf_compress. m_simpl. rewrite Hro, (wf_rlen b Hwf). b_step.
  rewrite (buf_read_ok b Hwf) by lia. m_simpl.
  rewrite Ec, mem_write_ok by lia. m_simpl.
  set (ib := splice (initbuf b) 0 (content b)).
  assert (zlen ib = TT_BUF_INIT_SIZE) as Hz by (subst ib; rewrite zlen_splice; lia).
  assert (Forall is_u8 ib) as Hb.
  { apply Forall_splice; [done|]. apply Forall_sub, wf_bytes, Hwf. }
  set (b' := mk_buf BufInit TT_BUF_INIT_SIZE (mspg b) (wpos b - rpos b) 0 ib (readonly b)).
  assert (buf_wf b') as Hwf'.
  { constructor; subst b'; simpl; try done; [lia|apply (wf_mspg b Hwf)]. }
  assert (content b' = content b) as Hc.
  { unfold content at 1, blk, block. simpl. rewrite Z.sub_0_r, <- Hlen.
    subst ib. apply sub_splice_at; lia. }
  exists b'. split; [|by split_and!].
  pose proof (wf_heap b Hwf) as Hh. pose proof (wf_ro b Hwf) as Hu.
  pose proof (wf_ptr b Hwf) as Hp. rewrite Hro in Hu.
  destruct (p b) as [| |l|l] eqn:Ep; try done; m_simpl.
  - exact (wf_check _ Hwf').
  - unfold compress_with, block, set_initbuf. simpl. rewrite Ep. simpl.
    rewrite (proj2 (Z.ltb_lt 0 (size b))) by lia. simpl.
    exact (wf_check _ Hwf').
Qed.

(** The branch for more than [TT_BUF_INIT_SIZE] bytes: the readable bytes move
    to the front of a block of their own; the positions stay. *)
Lemma buf_compress_large b :
  buf_wf b → readonly b = false → TT_BUF_INIT_SIZE < zlen (content b) →
  (∃ np, tt_buf_compress b =
     Ret (TT_SUCCESS tt, set_p_size (BufHeap np) (zlen (content b)) b) ∧
     np = content b) ∨
  (tt_buf_compress b = Ret (TT_ERROR TT_FAIL, b) ∧ malloc (zlen (content b)) = None).
Proof.
  intros Hwf Hro Hlt. pose proof (wf_content b Hwf) as Hlen.
  pose proof (wf_pos b Hwf). pose proof (wf_size b Hwf). pose proof (wf_zlen b Hwf).
  unfold TT_BUF_INIT_SIZE in *.
  unfold tt_buf_compress. m_simpl. rewrite Hro, (wf_rlen b Hwf).
  unfold TT_BUF_INIT_SIZE. b_step.
  unfold compress_with. rewrite (wf_block b Hwf). unfold tt_memspg_compress_range.
  rewrite u32_small by lia. repeat b_step. rewrite <- Hlen.
  destruct (malloc (zlen (content b))) as [np|] eqn:Em; [left|by right].
  pose proof (malloc_zlen _ _ Em) as Hnp.
  rewrite mem_read_ok by lia. simpl. rewrite Hlen. fold (content b).
  rewrite mem_write_ok by lia. simpl. eexists. split; [done|].
  unfold splice. simpl. rewrite drop_ge; [by rewrite app_nil_r|].
  unfold zlen in *. lia.
Qed.

(** Compressing keeps the invariant and the readable bytes when at most
    [TT_BUF_INIT_SIZE] bytes are readable or nothing has been read yet; it can
    only be refused for lack of memory. *)
Theorem buf_compress_correct b :
  buf_wf b → readonly b = false →
  zlen (content b) ≤ TT_BUF_INIT_SIZE ∨ rpos b = 0 →
  (∃ b', tt_buf_compress b = Ret (TT_SUCCESS tt, b') ∧ buf_wf b' ∧
     content b' = content b) ∨
  (tt_buf_compress b = Ret (TT_ERROR TT_FAIL, b) ∧ ¬ malloc_total).
Proof.
  intros Hwf Hro Hcase. unfold TT_BUF_INIT_SIZE in *.
  destruct (Z_le_gt_dec (zlen (content b)) 16) as [Hle|Hgt].
  { destruct (buf_compress_small b) as (b' & ? & ? & ? & _); try done. left; eauto. }
  destruct Hcase as [|Hr]; [lia|].
  destruct (buf_compress_large b) as [(np & -> & ->)|[-> Hn]]; try done; [unfold TT_BUF_INIT_SIZE; lia| |].
  - left. eexists. split; [done|]. pose proof (wf_content b Hwf) as Hlen.
    pose proof (wf_pos b Hwf). pose proof (wf_size b Hwf).
    split; [|].
    + constructor; simpl; try done; try lia; try apply Hwf.
      apply Forall_sub, wf_bytes, Hwf.
    + unfold content at 1. unfold blk at 1, block. simpl. rewrite <- Hlen, Hr.
      apply sub_all.
  - right. split; [done|]. intros Ht. destruct (Ht (zlen (content b))). congruence.
Qed.

(** With more than [TT_BUF_INIT_SIZE] readable bytes and a read position
    that is not 0, a successful compression leaves the write position beyond the
    end of the new block, so the invariant [TT_BUF_CHECK] asserts is broken and
    reading the bytes that were readable runs outside the block. *)
Theorem buf_compress_stale b :
  buf_wf b → readonly b = false → TT_BUF_INIT_SIZE < zlen (content b) → 0 < rpos b →
  is_Some (malloc (zlen (content b))) →
  ∃ b', tt_buf_compress b = Ret (TT_SUCCESS tt, b') ∧ size b' < wpos b' ∧
    TT_BUF_CHECK b' = Crash ∧ tt_buf_peek (zlen (content b)) b' = Undef.
Proof.
  intros Hwf Hro Hlt Hr [np0 Hnp0].
  destruct (buf_compress_large b) as [(np & -> & ->)|[-> Hn]]; try done; [|congruence].
  pose proof (wf_content b Hwf) as Hlen.
  pose proof (wf_pos b Hwf). pose proof (wf_size b Hwf).
  eexists. split; [done|]. split; [simpl; lia|]. split.
  - unfold TT_BUF_CHECK. m_simpl. simpl. by repeat b_step.
  - unfold tt_buf_peek. m_simpl. unfold TT_BUF_RLEN. simpl.
    rewrite u32_small by lia. b_step. unfold buf_read, block. simpl.
    unfold mem_read, in_block. by repeat b_step.
Qed.
End compress.

(** An allocator that always succeeds, with zeroed blocks. *)
Program Definition zero_alloc : Allocator :=
  {| malloc := λ n, Some (replicate (Z.to_nat n) 0) |}.
Next Obligation. intros n blk [= <-]. rewrite zlen_replicate. lia. Qed.
Next Obligation. intros n blk [= <-]. apply Forall_replicate. unfold is_u8. lia. Qed.

Lemma empty_buf_wf : buf_wf (mk_buf BufInit 16 (mk_memspg 64 4096 0) 0 0 (replicate 16 0) false).
Proof.
  constructor; simpl; try done.
  - unfold blk, block. simpl. by repeat constructor.
  - split; [done|]. by repeat constructor.
  - unfold memspg_wf. simpl. lia.
Qed.

Lemma buf_refines_queue_witness :
  ∃ rs b', @run_ops zero_alloc [OpPut [1; 2; 3]; OpGet 2; OpPutRep 9 100; OpRefine; OpGet 2]
      (mk_buf BufInit 16 (mk_memspg 64 4096 0) 0 0 (replicate 16 0) false)
    = Ret (TT_SUCCESS rs, b') ∧ rs = [TT_SUCCESS []; TT_SUCCESS [1; 2]; TT_SUCCESS [];
        TT_SUCCESS []; TT_SUCCESS [3; 9]] ∧ size b' = 128.
Proof.
  destruct (@buf_refines_queue zero_alloc
    [OpPut [1; 2; 3]; OpGet 2; OpPutRep 9 100; OpRefine; OpGet 2] _ empty_buf_wf)
    as (rs & b' & E & _).
  - reflexivity.
  - bytes_tac.
  - split; vm_compute; reflexivity.
  - exists rs, b'. split; [exact E|].
    vm_compute in E. injection E as <- <-. split; reflexivity.
Defined.

(** A buffer with 20 bytes in a block of 32, 4 of them read. *)
Definition read_buf (r : Z) : tt_buf_t :=
  mk_buf (BufHeap (replicate 32 7)) 32 (mk_memspg 64 4096 0) 24 r (replicate 16 0) false.

Lemma read_buf_wf r : 0 ≤ r ≤ 24 → buf_wf (read_buf r).
Proof.
  intros. constructor; try done; simpl.
  - bytes_tac.
  - split; [done|]. bytes_tac.
  - unfold memspg_wf. simpl. lia.
Qed.

Lemma buf_compress_correct_witness :
  zlen (content (read_buf 0)) = 24 ∧
  ((∃ b', @tt_buf_compress zero_alloc (read_buf 0) = Ret (TT_SUCCESS tt, b') ∧ buf_wf b' ∧
      content b' = content (read_buf 0)) ∨
   (@tt_buf_compress zero_alloc (read_buf 0) = Ret (TT_ERROR TT_FAIL, read_buf 0) ∧
      ¬ @malloc_total zero_alloc)).
Proof.
  split; [reflexivity|].
  apply (@buf_compress_correct zero_alloc (read_buf 0)); [apply read_buf_wf; lia|reflexivity|].
  right; reflexivity.
Defined.

Lemma buf_compress_stale_witness :
  ∃ b', @tt_buf_compress zero_alloc (read_buf 4) = Ret (TT_SUCCESS tt, b') ∧
    size b' < wpos b' ∧ TT_BUF_CHECK b' = Crash ∧
    tt_buf_peek (zlen (content (read_buf 4))) b' = Undef.
Proof.
  apply (@buf_compress_stale zero_alloc (read_buf 4)).
  - apply read_buf_wf; lia.
  - reflexivity.
  - vm_compute. reflexivity.
  - vm_compute. reflexivity.
  - vm_compute. eexists. reflexivity.
Defined.
