(* ===== verification/BufferFormat.v ===== *)
(** Typed writes and reads of a buffer (algorithm/tt_buffer_format.h and .c):
    integers in host and network order, hexadecimal text; and the two
    composable contracts [renders] and [parses] that the protocol layers use. *)

From S2P Require Import Prelude Util MemSpring Buffer.

(** ** Integers in memory

    The host is little-endian (the ports build for x86 and ARM little-endian);
    [tt_hton32] and its kin swap bytes. *)

Fixpoint le_split (n : nat) (v : Z) : list Z :=
  match n with
  | O => []
  | S n => v mod 256 :: le_split n (v / 256)
  end.

Fixpoint le_combine (l : list Z) : Z :=
  match l with
  | [] => 0
  | x :: l => x + 256 * le_combine l
  end.

Definition bswap (n : nat) (v : Z) : Z := le_combine (rev (le_split n v)).

Definition tt_hton16 : Z → Z := bswap 2.
Definition tt_ntoh16 : Z → Z := bswap 2.
Definition tt_hton32 : Z → Z := bswap 4.
Definition tt_ntoh32 : Z → Z := bswap 4.
Definition tt_hton64 : Z → Z := bswap 8.
Definition tt_ntoh64 : Z → Z := bswap 8.

(** The bytes of a number, most significant first. *)
Definition be_bytes (n : nat) (v : Z) : list Z := rev (le_split n v).
Arguments be_bytes : simpl never.

Section format.
Context `{Allocator}.

Definition tt_buf_put_u64 (v : Z) : M tt_buf_t unit := tt_buf_put (le_split 8 v).
Definition tt_buf_put_u64_n (v : Z) : M tt_buf_t unit :=
tt_buf_put (le_split 8 (tt_hton64 v)).
Definition tt_buf_put_u32 (v : Z) : M tt_buf_t unit := tt_buf_put (le_split 4 v).
Definition tt_buf_put_u32_n (v : Z) : M tt_buf_t unit :=
tt_buf_put (le_split 4 (tt_hton32 v)).
Definition tt_buf_put_u16 (v : Z) : M tt_buf_t unit := tt_buf_put (le_split 2 v).
Definition tt_buf_put_u16_n (v : Z) : M tt_buf_t unit :=
tt_buf_put (le_split 2 (tt_hton16 v)).
Definition tt_buf_put_u8 (v : Z) : M tt_buf_t unit := tt_buf_put [v].

(** A C string argument is the list of its characters before the NUL. *)
Definition tt_buf_put_cstr (cstr : list Z) : M tt_buf_t unit := tt_buf_put cstr.
Definition tt_buf_put_subcstr (cstr : list Z) (len : Z) : M tt_buf_t unit :=
tt_buf_put (take (Z.to_nat (Z.min len (zlen cstr))) cstr).

(** Two digits a byte; a last odd digit is the high half of its byte. *)
Fixpoint tt_buf_put_cstr2hex (cstr : list Z) : M tt_buf_t unit :=
match cstr with
| [] => mret tt
| [c] => tt_buf_put_u8 (u8 (Z.shiftl (Z.land (tt_c2h c 0) 15) 4))
| c0 :: c1 :: cs =>
    tt_buf_put_u8
      (Z.lor (u8 (Z.shiftl (Z.land (tt_c2h c0 0) 15) 4)) (Z.land (tt_c2h c1 0) 15));;
    tt_buf_put_cstr2hex cs
end.

Fixpoint tt_buf_put_hex2cstr (hex : list Z) : M tt_buf_t unit :=
match hex with
| [] => mret tt
| x :: xs =>
    tt_buf_put_u8 (tt_h2c (Z.land (Z.shiftr x 4) 15) 63);;
    tt_buf_put_u8 (tt_h2c (Z.land x 15) 63);;
    tt_buf_put_hex2cstr xs
end.

(** The values the thread generator returns during the call are the arguments
    [rand_u64] and [rand_u32]. *)
Fixpoint put_rand_u64s (rand_u64 : nat → Z) (k : nat) : M tt_buf_t unit :=
match k with
| O => mret tt
| S k => tt_buf_put_u64 (rand_u64 k);; put_rand_u64s rand_u64 k
end.

Fixpoint put_rand_u8s (rand_u32 : nat → Z) (k : nat) : M tt_buf_t unit :=
match k with
| O => mret tt
| S k => tt_buf_put_u8 (u8 (rand_u32 k));; put_rand_u8s rand_u32 k
end.

Definition tt_buf_put_rand (rand_u64 rand_u32 : nat → Z) (len : Z) : M tt_buf_t unit :=
b ← gets id;
if readonly b then fail TT_FAIL
else if len =? 0 then mret tt
else
  tt_buf_reserve len;;
  put_rand_u64s rand_u64 (Z.to_nat (len / 8));;
  put_rand_u8s rand_u32 (Z.to_nat (len mod 8)).
End format.

Definition tt_buf_get_u64 : M tt_buf_t Z := d ← tt_buf_get 8; mret (le_combine d).
Definition tt_buf_get_u64_h : M tt_buf_t Z :=
  d ← tt_buf_get 8; mret (tt_ntoh64 (le_combine d)).
Definition tt_buf_get_u32 : M tt_buf_t Z := d ← tt_buf_get 4; mret (le_combine d).
Definition tt_buf_get_u32_h : M tt_buf_t Z :=
  d ← tt_buf_get 4; mret (tt_ntoh32 (le_combine d)).
Definition tt_buf_peek_u32 : M tt_buf_t Z := d ← tt_buf_peek 4; mret (le_combine d).
Definition tt_buf_peek_u32_h : M tt_buf_t Z :=
  d ← tt_buf_peek 4; mret (tt_ntoh32 (le_combine d)).
Definition tt_buf_get_u16 : M tt_buf_t Z := d ← tt_buf_get 2; mret (le_combine d).
Definition tt_buf_get_u16_h : M tt_buf_t Z :=
  d ← tt_buf_get 2; mret (tt_ntoh16 (le_combine d)).
Definition tt_buf_get_u8 : M tt_buf_t Z := d ← tt_buf_get 1; mret (le_combine d).

(** ** Byte order lemmas *)

Lemma length_le_split n v : length (le_split n v) = n.
Proof. revert v. induction n; intros; simpl; auto. Qed.
Lemma zlen_be n v : zlen (be_bytes n v) = Z.of_nat n.
Proof. unfold be_bytes, zlen. by rewrite length_rev, length_le_split. Qed.

Lemma le_split_bytes n v : Forall is_u8 (le_split n v).
Proof.
  revert v. induction n as [|n IH]; intros v; simpl; constructor; [|done].
  by apply (Z.mod_pos_bound v 256).
Qed.
Lemma be_bytes_u8 n v : Forall is_u8 (be_bytes n v).
Proof. apply Forall_rev, le_split_bytes. Qed.

Lemma le_combine_split n v : le_combine (le_split n v) = v mod 256 ^ Z.of_nat n.
Proof.
  revert v. induction n as [|n IH]; intros v; simpl le_combine.
  { by rewrite Z.mod_1_r. }
  rewrite IH, Nat2Z.inj_succ, Z.pow_succ_r by lia.
  rewrite Z.rem_mul_r; [done|lia|]. apply Z.pow_pos_nonneg; lia.
Qed.

Lemma le_split_combine l :
  Forall is_u8 l → le_split (length l) (le_combine l) = l.
Proof.
  induction 1 as [|x l Hx Hl IH]; simpl; [done|]. unfold is_u8 in Hx.
  change (2 ^ 8) with 256 in Hx. rewrite (Z.mul_comm 256).
  rewrite Z.mod_add, Z.mod_small, Z.div_add, Z.div_small, Z.add_0_l by lia.
  by rewrite IH.
Qed.

Lemma le_combine_range l :
  Forall is_u8 l → 0 ≤ le_combine l < 256 ^ zlen l.
Proof.
  induction 1 as [|x l Hx Hl IH]; simpl; [done|]. unfold is_u8 in Hx.
  rewrite zlen_cons, Z.pow_add_r by (try lia; apply zlen_nonneg).
  change (256 ^ 1) with 256. lia.
Qed.

(** Swapping before storing gives network order; swapping what was loaded
    undoes it. *)
Lemma le_split_combine_n n l :
  Forall is_u8 l → length l = n → le_split n (le_combine l) = l.
Proof. intros ? <-. by apply le_split_combine. Qed.

Lemma length_be_bytes n v : length (be_bytes n v) = n.
Proof. unfold be_bytes. by rewrite length_rev, length_le_split. Qed.

Lemma le_split_bswap n v : le_split n (bswap n v) = be_bytes n v.
Proof.
  unfold bswap. apply le_split_combine_n; [apply be_bytes_u8|apply length_be_bytes].
Qed.

Lemma bswap_be n v :
  0 ≤ v < 256 ^ Z.of_nat n → bswap n (le_combine (be_bytes n v)) = v.
Proof.
  intros Hv. unfold bswap.
  rewrite (le_split_combine_n n) by (apply be_bytes_u8 || apply length_be_bytes).
  unfold be_bytes. rewrite rev_involutive, le_combine_split. by apply Z.mod_small.
Qed.

Lemma bswap_range n l :
  Forall is_u8 l → length l = n → 0 ≤ bswap n (le_combine l) < 256 ^ Z.of_nat n.
Proof.
  intros Hl <-. unfold bswap. rewrite le_split_combine by done.
  pose proof (le_combine_range (rev l) (Forall_rev Hl)) as Hr.
  unfold zlen in Hr. by rewrite length_rev in Hr.
Qed.

(** ** Contracts of writers and readers *)

(** [m] writes exactly [d] at the end of any writable buffer with room for it,
    and can only be refused when memory or the growth limit may run out. *)
Definition renders `{Allocator} (m : M tt_buf_t unit) (d : list Z) : Prop :=
  ∀ b, buf_wf b → readonly b = false → room b (zlen d) →
  (∃ b', m b = Ret (TT_SUCCESS tt, b') ∧ appended b d b') ∨
  (∃ e b', m b = Ret (TT_ERROR e, b') ∧ buf_wf b' ∧ readonly b' = false ∧ ¬ reliable b).

(** [m] consumes exactly [d] from any buffer that offers it and returns [a]. *)
Definition parses {A} (m : M tt_buf_t A) (d : list Z) (a : A) : Prop :=
  ∀ b rest, buf_wf b → content b = d ++ rest →
  m b = Ret (TT_SUCCESS a, set_rpos (rpos b + zlen d) b).

(** [m] consumes [d] and returns a value that satisfies [P], unless memory runs
    out. *)
Definition yields `{Allocator} {A} (m : M tt_buf_t A) (d : list Z) (P : A → Prop) : Prop :=
  ∀ b rest, buf_wf b → content b = d ++ rest →
  (∃ a, m b = Ret (TT_SUCCESS a, set_rpos (rpos b + zlen d) b) ∧ P a) ∨
  (∃ e b', m b = Ret (TT_ERROR e, b') ∧ ¬ malloc_total).

(** The most bytes a reader is given: the sizes that the SDK computes from
    lengths below it do not overflow. *)
Definition max_read : Z := 2 ^ 30.

(** On any bytes at all [m] stays inside the buffer, only moves the read
    position forward, and what it returns satisfies [P]. *)
Definition reads {A} (m : M tt_buf_t A) (P : A → Prop) : Prop :=
  ∀ b, buf_wf b → zlen (content b) ≤ max_read →
  ∃ r n, m b = Ret (r, set_rpos (rpos b + n) b) ∧ 0 ≤ n ≤ zlen (content b) ∧
         match r with TT_SUCCESS a => P a | TT_ERROR _ => True end.

Lemma set_rpos_0 b : set_rpos (rpos b + 0) b = b.
Proof. destruct b. unfold set_rpos. simpl. by rewrite Z.add_0_r. Qed.

Section renders.
Context `{Allocator}.

Lemma renders_ret : renders (mret tt) [].
Proof. intros b Hwf _ _. left. exists b. split; [done|]. by apply appended_nil. Qed.

Lemma renders_put d : Forall is_u8 d → renders (tt_buf_put d) d.
Proof.
  intros Hd b Hwf Hro Hroom.
  destruct (buf_put_spec b d) as [(b' & ? & ?)|[? ?]]; try done; [left|right]; eauto 8.
Qed.

Lemma renders_bind m1 m2 d1 d2 :
  renders m1 d1 → renders m2 d2 → renders (m1;; m2) (d1 ++ d2).
Proof.
  intros H1 H2 b Hwf Hro Hroom. rewrite zlen_app in Hroom.
  pose proof (zlen_nonneg d1). pose proof (zlen_nonneg d2).
  destruct (H1 b Hwf Hro) as [(b1 & E1 & A1)|(e & b1 & E1 & ? & ? & ?)].
  - eapply room_weaken; [|exact Hroom]. lia.
  - pose proof (app_ro _ _ _ A1) as Hro1. pose proof (app_mspg _ _ _ A1) as Hm.
    destruct (H2 b1) as [(b2 & E2 & A2)|(e & b2 & E2 & ? & ? & Hrel)].
    + apply (app_wf _ _ _ A1).
    + congruence.
    + eapply room_appended; [|done|done]. lia.
    + left. exists b2. split; [by erewrite bind_step|]. by eapply appended_app.
    + right. exists e, b2. split; [by erewrite bind_step|].
      split_and!; try done. unfold reliable in *. by rewrite Hm in Hrel.
  - right. exists e, b1. split; [by erewrite bind_error|done].
Qed.

Lemma renders_last m d : renders m d → renders m (d ++ []).
Proof. by rewrite app_nil_r. Qed.

Lemma renders_if (c : bool) m1 m2 d1 d2 :
  renders m1 d1 → renders m2 d2 →
  renders (if c then m1 else m2) (if c then d1 else d2).
Proof. by destruct c. Qed.

Lemma renders_do_r e m d : renders m d → renders (do_r e m) d.
Proof.
  intros Hm b Hwf Hro Hroom.
  destruct (Hm b Hwf Hro Hroom) as [(b1 & E1 & A1)|(e' & b1 & E1 & ? & ? & ?)].
  - left. exists b1. split; [by apply do_r_step|done].
  - right. exists e, b1. split; [by eapply do_r_error|done].
Qed.

Lemma renders_u8 v : is_u8 v → renders (tt_buf_put_u8 v) [v].
Proof. intros. apply renders_put. by apply Forall_singleton. Qed.

Lemma renders_be n v :
  renders (tt_buf_put (le_split n (bswap n v))) (be_bytes n v).
Proof. rewrite le_split_bswap. apply renders_put, be_bytes_u8. Qed.
End renders.

Section parses.
Lemma parses_ret {A} (a : A) : parses (mret a) [] a.
Proof.
  intros b rest Hwf Hc. rewrite zlen_nil. by rewrite set_rpos_0.
Qed.

Lemma parses_bind {A B} (m : M tt_buf_t A) (k : A → M tt_buf_t B) d1 d2 a c :
  parses m d1 a → parses (k a) d2 c → parses (m ≫= k) (d1 ++ d2) c.
Proof.
  intros H1 H2 b rest Hwf Hc. rewrite <- app_assoc in Hc.
  assert (0 ≤ zlen d1 ≤ zlen (content b)) as Hl.
  { rewrite Hc, zlen_app. pose proof (zlen_nonneg d1).
    pose proof (zlen_nonneg (d2 ++ rest)). lia. }
  erewrite bind_step by by eapply H1.
  rewrite (H2 (set_rpos (rpos b + zlen d1) b) rest).
  - simpl. by rewrite zlen_app, Z.add_assoc.
  - apply wf_advance; [done|lia|lia].
  - rewrite content_set_rpos by done. rewrite Hc.
    apply drop_app_length'. unfold zlen. lia.
Qed.

Lemma parses_get d : parses (tt_buf_get (zlen d)) d d.
Proof.
  intros b rest Hwf Hc. pose proof (zlen_nonneg d). pose proof (zlen_nonneg rest).
  rewrite buf_get_spec by done. rewrite Hc, zlen_app. b_step.
  by rewrite sub_app_len.
Qed.

Lemma parses_get_nocopy d n : n = zlen d → parses (tt_buf_get_nocopy n) d d.
Proof.
  intros -> b rest Hwf Hc. pose proof (zlen_nonneg d).
  rewrite buf_get_nocopy_spec by done. by apply parses_get with rest.
Qed.

Lemma parses_inc_rp d n : n = zlen d → parses (tt_buf_inc_rp n) d tt.
Proof.
  intros -> b rest Hwf Hc. pose proof (zlen_nonneg d). pose proof (zlen_nonneg rest).
  rewrite buf_inc_rp_spec by done. rewrite Hc, zlen_app. by b_step.
Qed.

Lemma parses_map {A B} (m : M tt_buf_t A) (f : A → B) d a :
  parses m d a → parses (x ← m; mret (f x)) d (f a).
Proof.
  intros. rewrite <- (app_nil_r d). eapply parses_bind; [done|apply parses_ret].
Qed.

Lemma parses_get_n n d : zlen d = n → parses (tt_buf_get n) d d.
Proof. intros <-. apply parses_get. Qed.

Lemma parses_u8 v : parses tt_buf_get_u8 [v] v.
Proof.
  unfold tt_buf_get_u8.
  replace v with (le_combine [v]) at 2 by (simpl; lia).
  by apply parses_map, parses_get_n.
Qed.

Lemma parses_be n v :
  0 ≤ v < 256 ^ Z.of_nat n →
  parses (d ← tt_buf_get (Z.of_nat n); mret (bswap n (le_combine d))) (be_bytes n v) v.
Proof.
  intros Hv. rewrite <- (bswap_be n v Hv) at 2.
  apply (parses_map _ (λ d, bswap n (le_combine d))), parses_get_n, zlen_be.
Qed.

Lemma parses_u32_h v : is_u32 v → parses tt_buf_get_u32_h (be_bytes 4 v) v.
Proof. intros. by apply (parses_be 4). Qed.
Lemma parses_u16_h v : 0 ≤ v < 2 ^ 16 → parses tt_buf_get_u16_h (be_bytes 2 v) v.
Proof. intros. by apply (parses_be 2). Qed.
Lemma parses_u64_h v : 0 ≤ v < 2 ^ 64 → parses tt_buf_get_u64_h (be_bytes 8 v) v.
Proof. intros. by apply (parses_be 8). Qed.
End parses.

Section yields.
Context `{Allocator}.

Lemma yields_ret {A} (a : A) (P : A → Prop) : P a → yields (mret a) [] P.
Proof.
  intros Ha b rest Hwf Hc. left. exists a. rewrite zlen_nil. by rewrite set_rpos_0.
Qed.

Lemma yields_parses {A} (m : M tt_buf_t A) d a : parses m d a → yields m d (λ x, x = a).
Proof. intros Hm b rest Hwf Hc. left. exists a. split; [by eapply Hm|done]. Qed.

Lemma yields_bind {A B} (m : M tt_buf_t A) (k : A → M tt_buf_t B) d1 d2 P Q :
yields m d1 P → (∀ a, P a → yields (k a) d2 Q) → yields (m ≫= k) (d1 ++ d2) Q.
Proof.
  intros H1 H2 b rest Hwf Hc. rewrite <- app_assoc in Hc.
  assert (0 ≤ zlen d1 ≤ zlen (content b)) as Hl.
  { rewrite Hc, zlen_app. pose proof (zlen_nonneg d1).
    pose proof (zlen_nonneg (d2 ++ rest)). lia. }
  destruct (H1 b _ Hwf Hc) as [(a & E & Ha)|(e & b' & E & ?)]; cycle 1.
  { right. exists e, b'. split; [by eapply bind_error|done]. }
  destruct (H2 a Ha (set_rpos (rpos b + zlen d1) b) rest) as [(c & E' & ?)|(e & b' & E' & ?)].
  - apply wf_advance; [done|lia|lia].
  - rewrite content_set_rpos by done. rewrite Hc. apply drop_app_length'. unfold zlen. lia.
  - left. exists c. split; [|done]. erewrite bind_step by done. rewrite E'.
    simpl. by rewrite zlen_app, Z.add_assoc.
  - right. exists e, b'. split; [by erewrite bind_step|done].
Qed.

Lemma yields_then {A B} (m : M tt_buf_t A) (k : A → M tt_buf_t B) d1 d2 a Q :
parses m d1 a → yields (k a) d2 Q → yields (m ≫= k) (d1 ++ d2) Q.
Proof.
  intros H1 H2. eapply yields_bind; [by apply yields_parses|]. by intros ? ->.
Qed.

Lemma yields_last {A} (m : M tt_buf_t A) d P : yields m d P → yields m (d ++ []) P.
Proof. by rewrite app_nil_r. Qed.
End yields.

Section reads.
Lemma reads_ret {A} (a : A) (P : A → Prop) : P a → reads (mret a) P.
Proof.
  intros Ha b Hwf Hmax. exists (TT_SUCCESS a), 0. rewrite set_rpos_0.
  split; [done|]. pose proof (zlen_nonneg (content b)). split; [lia|done].
Qed.

Lemma reads_fail {A} e (P : A → Prop) : reads (fail e) P.
Proof.
  intros b Hwf Hmax. exists (TT_ERROR e), 0. rewrite set_rpos_0.
  split; [done|]. pose proof (zlen_nonneg (content b)). split; [lia|done].
Qed.

Lemma reads_bind {A B} (m : M tt_buf_t A) (k : A → M tt_buf_t B) P Q :
  reads m P → (∀ a, P a → reads (k a) Q) → reads (m ≫= k) Q.
Proof.
  intros Hm Hk b Hwf Hmax. destruct (Hm b Hwf Hmax) as ([a|e] & n & E & Hn & Ha); cycle 1.
  { exists (TT_ERROR e), n. by erewrite bind_error. }
  destruct (Hk a Ha (set_rpos (rpos b + n) b)) as (r & n' & E' & Hn' & Hr).
  { apply wf_advance; [done|lia|lia]. }
  { rewrite content_set_rpos, zlen_drop by done. lia. }
  exists r, (n + n'). erewrite bind_step by done. rewrite E'. simpl.
  rewrite Z.add_assoc. split; [done|].
  rewrite content_set_rpos in Hn' by done. rewrite zlen_drop in Hn'. split; [lia|done].
Qed.

Lemma reads_weaken {A} (m : M tt_buf_t A) (P Q : A → Prop) :
  reads m P → (∀ a, P a → Q a) → reads m Q.
Proof.
  intros Hm HPQ b Hwf Hmax. destruct (Hm b Hwf Hmax) as (r & n & E & Hn & Hr).
  exists r, n. split_and!; try done; try lia. destruct r; auto.
Qed.

Lemma reads_get n :
  0 ≤ n → reads (tt_buf_get n) (λ d, zlen d = n ∧ n ≤ max_read ∧ Forall is_u8 d).
Proof.
  intros Hn b Hwf Hmax. rewrite buf_get_spec by done.
  pose proof (zlen_nonneg (content b)).
  destruct (Z.leb_spec n (zlen (content b))).
  - eexists _, n. split; [done|]. split; [lia|]. split; [apply zlen_sub; lia|]. split; [lia|].
    apply Forall_sub, Forall_sub, wf_bytes, Hwf.
  - eexists _, 0. rewrite set_rpos_0. split; [done|]. split; [lia|done].
Qed.

Lemma reads_get_nocopy n :
  0 ≤ n → reads (tt_buf_get_nocopy n) (λ d, zlen d = n ∧ n ≤ max_read ∧ Forall is_u8 d).
Proof.
  intros Hn b Hwf Hmax. rewrite buf_get_nocopy_spec by done. by apply reads_get.
Qed.

Lemma reads_inc_rp n : 0 ≤ n → reads (tt_buf_inc_rp n) (λ _, True).
Proof.
  intros Hn b Hwf Hmax. rewrite buf_inc_rp_spec by done.
  pose proof (zlen_nonneg (content b)).
  destruct (Z.leb_spec n (zlen (content b))).
  - eexists _, n. split; [done|]. split; [lia|done].
  - eexists _, 0. rewrite set_rpos_0. split; [done|]. split; [lia|done].
Qed.

Lemma reads_be n :
  reads (d ← tt_buf_get (Z.of_nat n); mret (bswap n (le_combine d)))
    (λ v, 0 ≤ v < 256 ^ Z.of_nat n).
Proof.
  eapply reads_bind; [apply reads_get; lia|]. intros d (Hl & _ & Hd). apply reads_ret.
  apply bswap_range; [done|]. unfold zlen in Hl. lia.
Qed.

Lemma reads_u32_h : reads tt_buf_get_u32_h is_u32.
Proof. apply (reads_be 4). Qed.

Lemma reads_u8 : reads tt_buf_get_u8 is_u8.
Proof.
  eapply reads_bind; [apply reads_get; lia|]. intros d (Hl & _ & Hd). apply reads_ret.
  pose proof (le_combine_range d Hd) as Hr. by rewrite Hl in Hr.
Qed.

Lemma reads_do_r {A} e (m : M tt_buf_t A) P : reads m P → reads (do_r e m) P.
Proof.
  intros Hm b Hwf Hmax. destruct (Hm b Hwf Hmax) as ([a|e'] & n & E & Hn & Ha).
  - exists (TT_SUCCESS a), n. by erewrite do_r_step.
  - exists (TT_ERROR e), n. by erewrite do_r_error.
Qed.
End reads.

Create HintDb codec.
#[export] Hint Resolve renders_ret renders_u8 be_bytes_u8 : codec.
#[export] Hint Resolve reads_ret reads_fail reads_u32_h reads_u8 reads_inc_rp
  reads_get_nocopy reads_get reads_do_r : codec.
#[export] Hint Resolve parses_ret parses_u8 parses_u32_h parses_get_n parses_get_nocopy : codec.

(** ** Hexadecimal text *)

(** Two digits for each byte. *)
Definition hex_pair (x : Z) : list Z :=
  [tt_h2c (Z.land (Z.shiftr x 4) 15) 63; tt_h2c (Z.land x 15) 63].
Definition hex_digits (d : list Z) : list Z := concat (map hex_pair d).

Definition hex_byte_check (x : Z) : bool :=
  match hex_pair x with
  | [c0; c1] =>
      (0 <=? c0) && (c0 <? 256) && (0 <=? c1) && (c1 <? 256) &&
      (Z.lor (u8 (Z.shiftl (Z.land (tt_c2h c0 0) 15) 4)) (Z.land (tt_c2h c1 0) 15) =? x)
  | _ => false
  end.

(** Every byte survives its two digits, by looking at all of them. *)
Lemma hex_byte x : is_u8 x → hex_byte_check x = true.
Proof.
  intros Hx. assert (forallb hex_byte_check (map Z.of_nat (seq 0 256)) = true) as Hall
    by (vm_compute; reflexivity).
  rewrite forallb_forall in Hall. apply Hall, in_map_iff.
  exists (Z.to_nat x). unfold is_u8 in Hx. split; [lia|]. apply in_seq. lia.
Qed.

Section hex.
Context `{Allocator}.

Lemma renders_hex2cstr d :
  Forall is_u8 d → renders (tt_buf_put_hex2cstr d) (hex_digits d) ∧
  renders (tt_buf_put_cstr2hex (hex_digits d)) d ∧ zlen (hex_digits d) = 2 * zlen d.
Proof.
  induction 1 as [|x d Hx _ (IH1 & IH2 & IH3)].
  { split_and!; [apply renders_ret|apply renders_ret|done]. }
  pose proof (hex_byte x Hx) as Hc. unfold hex_byte_check, hex_pair in Hc.
  apply andb_prop in Hc as [Hc E%Z.eqb_eq].
  apply andb_prop in Hc as [Hc H4%Z.ltb_lt]. apply andb_prop in Hc as [Hc H3%Z.leb_le].
  apply andb_prop in Hc as [H1%Z.leb_le H2%Z.ltb_lt].
  split_and!.
  - cbn [tt_buf_put_hex2cstr hex_digits map concat]. fold (hex_digits d).
    change (hex_pair x ++ hex_digits d) with
      ([tt_h2c (Z.land (Z.shiftr x 4) 15) 63] ++ [tt_h2c (Z.land x 15) 63] ++ hex_digits d).
    apply renders_bind; [by apply renders_u8|]. apply renders_bind; [by apply renders_u8|done].
  - cbn [tt_buf_put_cstr2hex hex_digits map concat hex_pair app]. fold (hex_digits d).
    rewrite E. change (x :: d) with ([x] ++ d). apply renders_bind; [by apply renders_u8|done].
  - change (hex_digits (x :: d)) with (hex_pair x ++ hex_digits d).
    rewrite zlen_app, IH3, zlen_cons. change (zlen (hex_pair x)) with 2. lia.
Qed.

(** Hexadecimal text round-trips: [tt_buf_put_hex2cstr] appends two digits
    for every byte, and [tt_buf_put_cstr2hex] of these digits appends exactly the
    bytes again. *)
Theorem hex_roundtrip d b1 b2 :
  Forall is_u8 d →
  buf_wf b1 → readonly b1 = false → reliable b1 → room b1 (2 * zlen d) → content b1 = [] →
  buf_wf b2 → readonly b2 = false → reliable b2 → room b2 (zlen d) →
  ∃ b1' b2', tt_buf_put_hex2cstr d b1 = Ret (TT_SUCCESS tt, b1') ∧
    zlen (content b1') = 2 * zlen d ∧
    tt_buf_put_cstr2hex (content b1') b2 = Ret (TT_SUCCESS tt, b2') ∧
    content b2' = content b2 ++ d.
Proof.
  intros Hd Hwf1 Hro1 Hrel1 Hroom1 Hc1 Hwf2 Hro2 Hrel2 Hroom2.
  destruct (renders_hex2cstr d Hd) as (R1 & R2 & Hl).
  destruct (R1 b1 Hwf1 Hro1) as [(b1' & E1 & A1)|(? & ? & _ & _ & _ & ?)]; [by rewrite Hl| |done].
  destruct (R2 b2 Hwf2 Hro2) as [(b2' & E2 & A2)|(? & ? & _ & _ & _ & ?)]; [done| |done].
  pose proof (app_content _ _ _ A1) as Hc. rewrite Hc1 in Hc. simpl in Hc.
  exists b1', b2'. rewrite Hc. split_and!; try done. apply (app_content _ _ _ A2).
Qed.
End hex.

Lemma hex_roundtrip_witness :
  let e := mk_buf BufInit 16 (mk_memspg 64 4096 0) 0 0 (replicate 16 0) false in
  ∃ b1' b2', tt_buf_put_hex2cstr (H:=zero_alloc) [222; 173] e = Ret (TT_SUCCESS tt, b1') ∧
    zlen (content b1') = 4 ∧
    tt_buf_put_cstr2hex (H:=zero_alloc) (content b1') e = Ret (TT_SUCCESS tt, b2') ∧
    content b2' = [222; 173].
Proof.
  intros e. assert (@reliable zero_alloc e) as Hr by (split; [by intros n; eexists|reflexivity]).
  apply (hex_roundtrip (H:=zero_alloc) [222; 173] e e); try exact empty_buf_wf; try exact Hr;
    try reflexivity; try (split; reflexivity). bytes_tac.
Defined.
