(* ===== verification/SshDef.v ===== *)
(** Names and numbers of the SSH protocol (network/ssh/tt_ssh_def.h and .c):
    enumerations with their name tables, the matching of received names, key
    sizes.  A C argument pair of a byte pointer and a length is modelled by the
    list of those bytes. *)

From S2P Require Import Prelude.
From stdpp Require Import strings.

#[local] Open Scope Z_scope.

(** ** Message numbers *)

Definition TT_SSH_MSGID_DISCONNECT : Z := 1.
Definition TT_SSH_MSGID_IGNORE : Z := 2.
Definition TT_SSH_MSGID_UNIMPLEMENTED : Z := 3.
Definition TT_SSH_MSGID_DEBUG : Z := 4.
Definition TT_SSH_MSGID_SERVICE_REQUEST : Z := 5.
Definition TT_SSH_MSGID_SERVICE_ACCEPT : Z := 6.
Definition TT_SSH_MSGID_KEXINIT : Z := 20.
Definition TT_SSH_MSGID_NEWKEYS : Z := 21.
Definition TT_SSH_MSGID_KEXDH_INIT : Z := 30.
Definition TT_SSH_MSGID_KEXDH_REPLY : Z := 31.
Definition TT_SSH_MSGID_USERAUTH_REQUEST : Z := 50.
Definition TT_SSH_MSGID_USERAUTH_FAILURE : Z := 51.
Definition TT_SSH_MSGID_USERAUTH_SUCCESS : Z := 52.
Definition TT_SSH_MSGID_USERAUTH_BANNER : Z := 53.
Definition TT_SSH_MSGID_GLOBAL_REQUEST : Z := 80.
Definition TT_SSH_MSGID_REQUEST_SUCCESS : Z := 81.
Definition TT_SSH_MSGID_REQUEST_FAILURE : Z := 82.
Definition TT_SSH_MSGID_CHANNEL_OPEN : Z := 90.
Definition TT_SSH_MSGID_CHANNEL_OPEN_CONFIRMATION : Z := 91.
Definition TT_SSH_MSGID_CHANNEL_OPEN_FAILURE : Z := 92.
Definition TT_SSH_MSGID_CHANNEL_WINDOW_ADJUST : Z := 93.
Definition TT_SSH_MSGID_CHANNEL_DATA : Z := 94.
Definition TT_SSH_MSGID_CHANNEL_EOF : Z := 96.
Definition TT_SSH_MSGID_CHANNEL_CLOSE : Z := 97.
Definition TT_SSH_MSGID_CHANNEL_REQUEST : Z := 98.
Definition TT_SSH_MSGID_CHANNEL_SUCCESS : Z := 99.
Definition TT_SSH_MSGID_CHANNEL_FAILURE : Z := 100.
Definition TT_SSH_MSGID_VERXCHG : Z := 192.

(** ** Enumerations

    Every enumeration ends in a [_NUM] enumerator, which stands for "none" and
    indexes no name. *)

Inductive tt_ssh_kex_alg_t : Type :=
  | TT_SSH_KEX_ALG_DH_G1_SHA1
  | TT_SSH_KEX_ALG_DH_G14_SHA1
  | TT_SSH_KEX_ALG_RSA1024_SHA1
  | TT_SSH_KEX_ALG_RSA2048_SHA256
  | TT_SSH_KEX_ALG_NUM.

Inductive tt_ssh_pubkey_alg_t : Type :=
  | TT_SSH_PUBKEY_ALG_DSS
  | TT_SSH_PUBKEY_ALG_RSA
  | TT_SSH_PUBKEY_ALG_NUM.

Inductive tt_ssh_enc_alg_t : Type :=
  | TT_SSH_ENC_ALG_AES128_CBC
  | TT_SSH_ENC_ALG_AES256_CBC
  | TT_SSH_ENC_ALG_NUM.

Inductive tt_ssh_mac_alg_t : Type :=
  | TT_SSH_MAC_ALG_HMAC_SHA1
  | TT_SSH_MAC_ALG_NUM.

Inductive tt_ssh_cmprs_alg_t : Type :=
  | TT_SSH_CMPRS_ALG_NONE
  | TT_SSH_CMPRS_ALG_ZLIB
  | TT_SSH_CMPRS_ALG_NUM.

Inductive tt_ssh_service_t : Type :=
  | TT_SSH_SERVICE_USERAUTH
  | TT_SSH_SERVICE_CONNECTION
  | TT_SSH_SERVICE_NUM.

Inductive tt_ssh_auth_t : Type :=
  | TT_SSH_AUTH_PUBLICKEY
  | TT_SSH_AUTH_PASSWORD
  | TT_SSH_AUTH_HOSTBASED
  | TT_SSH_AUTH_NONE
  | TT_SSH_AUTH_NUM.

Inductive tt_ssh_chtype_t : Type :=
  | TT_SSH_CHTYPE_SESSION
  | TT_SSH_CHTYPE_X11
  | TT_SSH_CHTYPE_FORWARD_TCPIP
  | TT_SSH_CHTYPE_DIRECT_TCPIP
  | TT_SSH_CHTYPE_NUM.

Inductive tt_ssh_chreqtype_t : Type :=
  | TT_SSH_CHREQTYPE_PTYREQ
  | TT_SSH_CHREQTYPE_X11REQ
  | TT_SSH_CHREQTYPE_ENV
  | TT_SSH_CHREQTYPE_SHELL
  | TT_SSH_CHREQTYPE_EXEC
  | TT_SSH_CHREQTYPE_SUBSYSTEM
  | TT_SSH_CHREQTYPE_WINCHANGE
  | TT_SSH_CHREQTYPE_XONXOFF
  | TT_SSH_CHREQTYPE_SIGNAL
  | TT_SSH_CHREQTYPE_EXITSTATUS
  | TT_SSH_CHREQTYPE_EXITSIGNAL
  | TT_SSH_CHREQTYPE_NUM.

(** ** Name tables: the enumerators in order, each with its name *)

Definition tt_g_ssh_kex_alg_name : list (tt_ssh_kex_alg_t * list Z) :=
  [ (TT_SSH_KEX_ALG_DH_G1_SHA1, chars "diffie-hellman-group1-sha1");
    (TT_SSH_KEX_ALG_DH_G14_SHA1, chars "diffie-hellman-group14-sha1");
    (TT_SSH_KEX_ALG_RSA1024_SHA1, chars "rsa1024-sha1");
    (TT_SSH_KEX_ALG_RSA2048_SHA256, chars "rsa2048-sha256") ].

Definition tt_g_ssh_pubkey_alg_name : list (tt_ssh_pubkey_alg_t * list Z) :=
  [ (TT_SSH_PUBKEY_ALG_DSS, chars "ssh-dss");
    (TT_SSH_PUBKEY_ALG_RSA, chars "ssh-rsa") ].

Definition tt_g_ssh_enc_alg_name : list (tt_ssh_enc_alg_t * list Z) :=
  [ (TT_SSH_ENC_ALG_AES128_CBC, chars "aes128-cbc");
    (TT_SSH_ENC_ALG_AES256_CBC, chars "aes256-cbc") ].

Definition tt_g_ssh_mac_alg_name : list (tt_ssh_mac_alg_t * list Z) :=
  [ (TT_SSH_MAC_ALG_HMAC_SHA1, chars "hmac-sha1") ].

Definition tt_g_ssh_cmprs_alg_name : list (tt_ssh_cmprs_alg_t * list Z) :=
  [ (TT_SSH_CMPRS_ALG_NONE, chars "none");
    (TT_SSH_CMPRS_ALG_ZLIB, chars "zlib") ].

Definition tt_g_ssh_serv_name : list (tt_ssh_service_t * list Z) :=
  [ (TT_SSH_SERVICE_USERAUTH, chars "ssh-userauth");
    (TT_SSH_SERVICE_CONNECTION, chars "ssh-connection") ].

Definition tt_g_ssh_auth_name : list (tt_ssh_auth_t * list Z) :=
  [ (TT_SSH_AUTH_PUBLICKEY, chars "publickey");
    (TT_SSH_AUTH_PASSWORD, chars "password");
    (TT_SSH_AUTH_HOSTBASED, chars "hostbased");
    (TT_SSH_AUTH_NONE, chars "none") ].

Definition tt_g_ssh_chtype_name : list (tt_ssh_chtype_t * list Z) :=
  [ (TT_SSH_CHTYPE_SESSION, chars "session");
    (TT_SSH_CHTYPE_X11, chars "x11");
    (TT_SSH_CHTYPE_FORWARD_TCPIP, chars "forwarded-tcpip");
    (TT_SSH_CHTYPE_DIRECT_TCPIP, chars "direct-tcpip") ].

Definition tt_g_ssh_chreqtype_name : list (tt_ssh_chreqtype_t * list Z) :=
  [ (TT_SSH_CHREQTYPE_PTYREQ, chars "pty-req");
    (TT_SSH_CHREQTYPE_X11REQ, chars "x11-req");
    (TT_SSH_CHREQTYPE_ENV, chars "env");
    (TT_SSH_CHREQTYPE_SHELL, chars "shell");
    (TT_SSH_CHREQTYPE_EXEC, chars "exec");
    (TT_SSH_CHREQTYPE_SUBSYSTEM, chars "subsystem");
    (TT_SSH_CHREQTYPE_WINCHANGE, chars "window-change");
    (TT_SSH_CHREQTYPE_XONXOFF, chars "xon-xoff");
    (TT_SSH_CHREQTYPE_SIGNAL, chars "signal");
    (TT_SSH_CHREQTYPE_EXITSTATUS, chars "exit-status");
    (TT_SSH_CHREQTYPE_EXITSIGNAL, chars "exit-signal") ].

(** ** Lookup and matching *)

(** [strncmp(s, name, name_len)] for a C string [s]: past its characters comes
    its NUL. *)
Fixpoint strncmp (s name : list Z) : Z :=
  match name with
  | [] => 0
  | c :: name =>
      let c0 := hd 0 s in
      if c0 =? c then (if c0 =? 0 then 0 else strncmp (tail s) name) else c0 - c
  end.

(** The loop shared by the [_match] functions. *)
Fixpoint table_match {A} (num : A) (table : list (A * list Z)) (name : list Z) : A :=
  match table with
  | [] => num
  | (a, s) :: table =>
      if strncmp s name =? 0 then a else table_match num table name
  end.

(** [table[a]]: the [_NUM] enumerator is out of the table's bounds. *)
Fixpoint table_name {A} `{EqDecision A} (table : list (A * list Z)) (a : A)
  : exec (list Z) :=
  match table with
  | [] => Undef
  | (a', s) :: table => if decide (a = a') then Ret s else table_name table a
  end.

Definition tt_ssh_pubkey_alg_match (name : list Z) : tt_ssh_pubkey_alg_t :=
  table_match TT_SSH_PUBKEY_ALG_NUM tt_g_ssh_pubkey_alg_name name.
Definition tt_ssh_enc_alg_match (name : list Z) : tt_ssh_enc_alg_t :=
  table_match TT_SSH_ENC_ALG_NUM tt_g_ssh_enc_alg_name name.
Definition tt_ssh_mac_alg_match (name : list Z) : tt_ssh_mac_alg_t :=
  table_match TT_SSH_MAC_ALG_NUM tt_g_ssh_mac_alg_name name.
Definition tt_ssh_cmprs_alg_match (name : list Z) : tt_ssh_cmprs_alg_t :=
  table_match TT_SSH_CMPRS_ALG_NUM tt_g_ssh_cmprs_alg_name name.
Definition tt_ssh_serv_match (name : list Z) : tt_ssh_service_t :=
  table_match TT_SSH_SERVICE_NUM tt_g_ssh_serv_name name.
Definition tt_ssh_auth_match (name : list Z) : tt_ssh_auth_t :=
  table_match TT_SSH_AUTH_NUM tt_g_ssh_auth_name name.
Definition tt_ssh_chtype_match (name : list Z) : tt_ssh_chtype_t :=
  table_match TT_SSH_CHTYPE_NUM tt_g_ssh_chtype_name name.
Definition tt_ssh_chreqtype_match (name : list Z) : tt_ssh_chreqtype_t :=
  table_match TT_SSH_CHREQTYPE_NUM tt_g_ssh_chreqtype_name name.

(** ** The enumerations behind one interface *)

(** What a message needs of an enumeration: its table, its "none" and the
    promise that every other enumerator has a name, which is found again by
    matching. *)
Class NamedEnum (A : Type) := {
  enum_dec :: EqDecision A;
  enum_num : A;
  enum_table : list (A * list Z);
}.

Definition enum_valid `{NamedEnum A} (a : A) : bool := negb (bool_decide (a = enum_num)).
Definition enum_name `{NamedEnum A} (a : A) : exec (list Z) := table_name enum_table a.
Definition enum_match `{NamedEnum A} (name : list Z) : A :=
  table_match enum_num enum_table name.

Class NamedEnumLaws (A : Type) `{NamedEnum A} :=
  enum_named : ∀ a : A, enum_valid a = true →
    ∃ s, enum_name a = Ret s ∧ enum_match s = a ∧ Forall is_u8 s ∧ zlen s ≤ 64 ∧
         s ≠ [] ∧ Forall (λ c, c ≠ 44) s.

#[export] Instance kex_alg_enum : NamedEnum tt_ssh_kex_alg_t.
Proof.
  refine {| enum_num := TT_SSH_KEX_ALG_NUM; enum_table := tt_g_ssh_kex_alg_name |}.
  solve_decision.
Defined.
#[export] Instance pubkey_alg_enum : NamedEnum tt_ssh_pubkey_alg_t.
Proof.
  refine {| enum_num := TT_SSH_PUBKEY_ALG_NUM; enum_table := tt_g_ssh_pubkey_alg_name |}.
  solve_decision.
Defined.
#[export] Instance enc_alg_enum : NamedEnum tt_ssh_enc_alg_t.
Proof.
  refine {| enum_num := TT_SSH_ENC_ALG_NUM; enum_table := tt_g_ssh_enc_alg_name |}.
  solve_decision.
Defined.
#[export] Instance mac_alg_enum : NamedEnum tt_ssh_mac_alg_t.
Proof.
  refine {| enum_num := TT_SSH_MAC_ALG_NUM; enum_table := tt_g_ssh_mac_alg_name |}.
  solve_decision.
Defined.
#[export] Instance cmprs_alg_enum : NamedEnum tt_ssh_cmprs_alg_t.
Proof.
  refine {| enum_num := TT_SSH_CMPRS_ALG_NUM; enum_table := tt_g_ssh_cmprs_alg_name |}.
  solve_decision.
Defined.
#[export] Instance service_enum : NamedEnum tt_ssh_service_t.
Proof.
  refine {| enum_num := TT_SSH_SERVICE_NUM; enum_table := tt_g_ssh_serv_name |}.
  solve_decision.
Defined.
#[export] Instance auth_enum : NamedEnum tt_ssh_auth_t.
Proof.
  refine {| enum_num := TT_SSH_AUTH_NUM; enum_table := tt_g_ssh_auth_name |}.
  solve_decision.
Defined.
#[export] Instance chtype_enum : NamedEnum tt_ssh_chtype_t.
Proof.
  refine {| enum_num := TT_SSH_CHTYPE_NUM; enum_table := tt_g_ssh_chtype_name |}.
  solve_decision.
Defined.
#[export] Instance chreqtype_enum : NamedEnum tt_ssh_chreqtype_t.
Proof.
  refine {| enum_num := TT_SSH_CHREQTYPE_NUM; enum_table := tt_g_ssh_chreqtype_name |}.
  solve_decision.
Defined.

Ltac solve_enum :=
  intros [] Hv; try discriminate Hv; eexists;
  (split; [reflexivity|]; split; [reflexivity|]; split; [apply chars_bytes|];
   split; [done|]; split; [done|]; repeat (apply Forall_cons_2; [discriminate|]);
   apply Forall_nil_2).

#[export] Instance kex_alg_laws : NamedEnumLaws tt_ssh_kex_alg_t.
Proof. solve_enum. Qed.
#[export] Instance pubkey_alg_laws : NamedEnumLaws tt_ssh_pubkey_alg_t.
Proof. solve_enum. Qed.
#[export] Instance enc_alg_laws : NamedEnumLaws tt_ssh_enc_alg_t.
Proof. solve_enum. Qed.
#[export] Instance mac_alg_laws : NamedEnumLaws tt_ssh_mac_alg_t.
Proof. solve_enum. Qed.
#[export] Instance cmprs_alg_laws : NamedEnumLaws tt_ssh_cmprs_alg_t.
Proof. solve_enum. Qed.
#[export] Instance service_laws : NamedEnumLaws tt_ssh_service_t.
Proof. solve_enum. Qed.
#[export] Instance auth_laws : NamedEnumLaws tt_ssh_auth_t.
Proof. solve_enum. Qed.
#[export] Instance chtype_laws : NamedEnumLaws tt_ssh_chtype_t.
Proof. solve_enum. Qed.
#[export] Instance chreqtype_laws : NamedEnumLaws tt_ssh_chreqtype_t.
Proof. solve_enum. Qed.

(** Different named enumerators fit an array as long as the table. *)
Lemma table_name_in {A} `{EqDecision A} (table : list (A * list Z)) a s :
  table_name table a = Ret s → a ∈ map fst table.
Proof.
  induction table as [|[a' s'] table IH]; [done|]. cbn. case_decide as E; [subst|].
  - intros _. apply list_elem_of_here.
  - intros. by apply list_elem_of_further, IH.
Qed.

Lemma enum_bound `{NamedEnumLaws A} (l : list A) :
  NoDup l → Forall (λ a, enum_valid a = true) l → zlen l ≤ zlen (enum_table (A:=A)).
Proof.
  intros Hn Hv. assert (l ⊆+ map fst (enum_table (A:=A))) as Hs.
  { apply NoDup_submseteq; [done|]. intros a Ha.
    apply list.Forall_forall with (x:=a) in Hv; [|done].
    destruct (enum_named a Hv) as (s & E & _). by eapply table_name_in. }
  apply submseteq_length in Hs. rewrite length_map in Hs. unfold zlen. lia.
Qed.

(** *** What matching accepts *)

(** A name without NUL matches exactly the entries it is a prefix of. *)
Lemma strncmp_prefix s name :
  Forall (λ c, c ≠ 0) name → (strncmp s name =? 0) = bool_decide (name `prefix_of` s).
Proof.
  intros Hn. revert s. induction Hn as [|c name Hc Hn IH]; intros s; cbn [strncmp].
  { rewrite bool_decide_eq_true_2; [done|apply prefix_nil]. }
  destruct s as [|c0 s]; cbn [hd tail].
  { rewrite (proj2 (Z.eqb_neq 0 c)) by lia. rewrite bool_decide_eq_false_2.
    - apply Z.eqb_neq. lia.
    - apply prefix_nil_not. }
  destruct (Z.eqb_spec c0 c) as [->|Hne].
  - rewrite (proj2 (Z.eqb_neq c 0)) by lia. rewrite IH. apply bool_decide_ext.
    split; [apply prefix_cons|apply prefix_cons_inv_2].
  - rewrite bool_decide_eq_false_2; [apply Z.eqb_neq; lia|].
    intros H%prefix_cons_inv_1. congruence.
Qed.

(** [a] is the first enumerator whose name starts with [name], or none is. *)
Definition first_prefix {A} (table : list (A * list Z)) (num : A) (name : list Z) (a : A)
    : Prop :=
  (∃ i s, table !! i = Some (a, s) ∧ name `prefix_of` s ∧
     ∀ j a' s', (j < i)%nat → table !! j = Some (a', s') → ¬ name `prefix_of` s')
  ∨ (a = num ∧ ∀ j a' s', table !! j = Some (a', s') → ¬ name `prefix_of` s').

Lemma table_match_first {A} (num : A) table name :
  Forall (λ c, c ≠ 0) name → first_prefix table num name (table_match num table name).
Proof.
  intros Hn. induction table as [|[a s] table IH]; simpl; [right; done|].
  rewrite strncmp_prefix by done. case_bool_decide as Hp.
  { left. exists 0%nat, s. split_and!; [done|done|lia]. }
  destruct IH as [(i & s0 & Hi & Hp0 & Hmin)|[-> Hmin]].
  - left. exists (S i), s0. split_and!; [done|done|].
    intros [|j] a' s' ?; simpl; [naive_solver|]. apply Hmin. lia.
  - right. split; [done|]. intros [|j] a' s'; simpl; [naive_solver|]. apply Hmin.
Qed.

(** Matching a received name (one without NUL bytes) against a name table
    of the SSH definitions gives the first enumerator whose name starts with it,
    and the [_NUM] enumerator exactly when there is none; so a truncated and
    even an empty name is accepted for a full one. *)
Theorem enum_match_spec `{NamedEnum A} (name : list Z) :
  Forall (λ c, c ≠ 0) name →
  first_prefix enum_table enum_num name (enum_match name : A).
Proof. apply table_match_first. Qed.

(** "pass" is taken for "password", and the empty name for the first entry. *)
Example auth_match_truncated :
  tt_ssh_auth_match (chars "pass") = TT_SSH_AUTH_PASSWORD ∧
  tt_ssh_auth_match [] = TT_SSH_AUTH_PUBLICKEY ∧
  tt_ssh_auth_match (chars "passwords") = TT_SSH_AUTH_NUM.
Proof. done. Qed.

Lemma enum_match_spec_witness :
  Forall (λ c, c ≠ 0) [104; 111; 115; 116] ∧
  first_prefix tt_g_ssh_auth_name TT_SSH_AUTH_NUM [104; 111; 115; 116] TT_SSH_AUTH_HOSTBASED.
Proof.
  assert (Forall (λ c, c ≠ 0) [104; 111; 115; 116]) as Hn.
  { repeat (apply Forall_cons_2; [discriminate|]). apply Forall_nil_2. }
  split; [exact Hn|].
  exact (enum_match_spec (A:=tt_ssh_auth_t) [104; 111; 115; 116] Hn).
Defined.
