(* ===== verification/SshCodec.v ===== *)
(** The SSH data types on the wire (network/ssh/message/tt_ssh_render.h and .c,
    tt_ssh_parse.h and .c, RFC 4251 section 5), the padding of a packet, and the
    owned byte strings of a message (algorithm/tt_blob.h). *)

From S2P Require Import Prelude MemSpring Buffer BufferFormat.

(** ** Lengths: the [_render_prepare] functions *)

Definition tt_ssh_byte_render_prepare : Z := 1.
Definition tt_ssh_boolean_render_prepare : Z := 1.
Definition tt_ssh_uint32_render_prepare : Z := 4.
Definition tt_ssh_uint64_render_prepare : Z := 8.
Definition tt_ssh_string_render_prepare (string_len : Z) : Z := u32 (4 + string_len).

(** [mpint[0]] is read whatever the length of the number says, but only when it
    is not negative. *)
Definition mpint_high (mpint : list Z) (negative : bool) : exec bool :=
  if negative then Ret false
  else exec_bind (mem_read mpint 0 1) (λ d, Ret (negb (Z.land (hd 0 d) 128 =? 0))).

Definition tt_ssh_mpint_render_prepare (mpint : list Z) (negative : bool) : exec Z :=
  if zlen mpint =? 0 then Ret 4
  else exec_bind (mpint_high mpint negative) (λ h,
    Ret (u32 (4 + zlen mpint + (if h then 1 else 0)))).

(** The length that the names after the first one add, each with its comma. *)
Fixpoint names_len (len : Z) (names : list (list Z)) : Z :=
  match names with
  | [] => len
  | n :: names =>
      names_len (if 0 <? zlen n then u32 (len + (1 + zlen n)) else len) names
  end.

Definition namelist_len (len : Z) (names : list (list Z)) : Z :=
  match names with
  | [] => len
  | n :: names => names_len (u32 (len + zlen n)) names
  end.

Definition tt_ssh_namelist_render_prepare (names : list (list Z)) : Z :=
  namelist_len 4 names.

(** The padding length; [rand] is what the generator returns. *)
Definition tt_sshmsg_padlen (rand data_len block_size pad_block max_pad_block : Z)
  : exec Z :=
  let block_size := if block_size =? 0 then 8 else block_size in
  let max_pad_block := if max_pad_block =? 0 then 2 else max_pad_block in
  let data_len := u32 (data_len + 5) in
  let padlen := u32 (u32 (block_size - u32 (data_len + 4) mod block_size) + 4) in
  exec_bind
    (if pad_block =? 0 then Ret (rand mod max_pad_block)
     else if pad_block <? max_pad_block then Ret pad_block else Crash)
    (λ n,
      let padlen := u32 (padlen + u32 (n * block_size)) in
      if padlen <? 255 then Ret (u8 padlen) else Crash).

(** ** Writing *)

Section render.
Context `{Allocator}.

Definition tt_ssh_byte_render (byte_val : Z) : M tt_buf_t unit := tt_buf_put_u8 byte_val.
Definition tt_ssh_boolean_render (boolean_val : bool) : M tt_buf_t unit :=
tt_buf_put_u8 (if boolean_val then 1 else 0).
Definition tt_ssh_uint32_render (uint32_val : Z) : M tt_buf_t unit :=
tt_buf_put_u32_n uint32_val.
Definition tt_ssh_uint64_render (uint64_val : Z) : M tt_buf_t unit :=
tt_buf_put_u64_n uint64_val.

Definition tt_ssh_string_render (string_val : list Z) : M tt_buf_t unit :=
tt_buf_put_u32_n (zlen string_val);;
if 0 <? zlen string_val then tt_buf_put string_val else mret tt.

Definition tt_ssh_mpint_render (mpint : list Z) (negative : bool) : M tt_buf_t unit :=
h1 ← access (mpint_high mpint negative);
tt_buf_put_u32_n (u32 (zlen mpint + (if h1 then 1 else 0)));;
if 0 <? zlen mpint then
  (if (h1 : bool) then tt_buf_put_u8 0 else mret tt);;
  tt_buf_put mpint
else mret tt.

Fixpoint put_names (names : list (list Z)) : M tt_buf_t unit :=
match names with
| [] => mret tt
| n :: names =>
    (if 0 <? zlen n then tt_buf_put_u8 44;; tt_buf_put n else mret tt);;
    put_names names
end.

Definition tt_ssh_namelist_render (names : list (list Z)) : M tt_buf_t unit :=
tt_buf_put_u32_n (namelist_len 0 names);;
match names with
| [] => mret tt
| n :: names =>
    (if 0 <? zlen n then tt_buf_put n else mret tt);;
    put_names names
end.
End render.

(** ** Reading *)

Definition tt_ssh_byte_parse : M tt_buf_t Z := tt_buf_get_u8.
Definition tt_ssh_boolean_parse : M tt_buf_t bool :=
  val_u8 ← tt_buf_get_u8; mret (negb (val_u8 =? 0)).
Definition tt_ssh_uint32_parse : M tt_buf_t Z := tt_buf_get_u32_h.
Definition tt_ssh_uint64_parse : M tt_buf_t Z := tt_buf_get_u64_h.

Definition tt_ssh_string_parse : M tt_buf_t (list Z) :=
  len ← tt_buf_get_u32_h;
  tt_buf_get_nocopy len.

(** The pointer is taken before the position moves over the number. *)
Definition tt_ssh_mpint_parse : M tt_buf_t (list Z) :=
  len ← tt_buf_get_u32_h;
  b ← gets id;
  tt_buf_inc_rp len;;
  buf_read (rpos b) len.

Section namelist.
Context {S : Type} (cb : list Z → S → exec (result S)).

(** The loop over the bytes of a name-list: [name] holds the bytes between the
  pointers [name] and [p].  Any failure of the callback is TT_FAIL. *)
Fixpoint namelist_scan (name rest : list Z) (s : S) : exec (result S) :=
let call_cb (k : S → exec (result S)) :=
  exec_bind (cb name s) (λ r,
    match r with TT_SUCCESS s' => k s' | TT_ERROR _ => Ret (TT_ERROR TT_FAIL) end) in
match rest with
| [] => if zlen name =? 0 then Ret (TT_ERROR TT_FAIL) else call_cb (λ s, Ret (TT_SUCCESS s))
| c :: rest =>
    if c =? 44 then
      if zlen name =? 0 then Ret (TT_ERROR TT_FAIL)
      else call_cb (namelist_scan [] rest)
    else namelist_scan (name ++ [c]) rest s
end.

Definition tt_ssh_namelist_parse (s : S) : M tt_buf_t S :=
len ← tt_buf_get_u32_h;
if len =? 0 then mret s
else
  b ← gets id;
  tt_buf_inc_rp len;;
  d ← buf_read (rpos b) len;
  call (namelist_scan [] d s).
End namelist.

(** ** Blobs *)

(** What [addr] of a blob holds: NULL, an owned block, or the address of a block
    that has been freed. *)
Inductive blob_ptr : Type :=
  | BlobNull
  | BlobBlock (blk : list Z)
  | BlobFreed.

Record tt_blob_t : Type := mk_blob { addr : blob_ptr; blob_len : Z }.

Definition blob_null : tt_blob_t := mk_blob BlobNull 0.

(** The bytes a user of [(addr, len)] reads. *)
Definition blob_bytes (b : tt_blob_t) : exec (list Z) :=
  if blob_len b =? 0 then Ret []
  else match addr b with BlobBlock l => mem_read l 0 (blob_len b) | _ => Undef end.

Definition blob_set_p (b : tt_blob_t) : bool :=
  match addr b with BlobNull => false | _ => true end.

Section blob.
Context `{Allocator}.

Definition tt_blob_create (src : option (list Z)) (n : Z) : M tt_blob_t unit := λ b,
match malloc n with
| None => Ret (TT_ERROR TT_FAIL, b)
| Some q =>
    exec_bind
      (match src with
       | None => Ret q
       | Some d => exec_bind (mem_read d 0 n) (mem_write q 0)
       end)
      (λ q, Ret (TT_SUCCESS tt, mk_blob (BlobBlock q) n))
end.
End blob.

Definition tt_blob_destroy : M tt_blob_t unit := λ b,
  match addr b with
  | BlobNull => Ret (TT_SUCCESS tt, b)
  | BlobBlock _ => Ret (TT_SUCCESS tt, mk_blob BlobFreed (blob_len b))
  | BlobFreed => Undef
  end.

Definition tt_blob_init : M tt_blob_t unit := λ _, Ret (TT_SUCCESS tt, mk_blob BlobNull 0).

(** [memcmp]: the difference of the first bytes that differ. *)
Fixpoint memcmp (l1 l2 : list Z) : Z :=
  match l1, l2 with
  | x :: l1, y :: l2 => if x =? y then memcmp l1 l2 else x - y
  | _, _ => 0
  end.

(** [same] tells that both arguments are the same object. *)
Definition tt_blob_cmp (same : bool) (a b : tt_blob_t) : exec Z :=
  if same then Ret 0
  else if blob_len a <? blob_len b then Ret (-1)
  else if blob_len b <? blob_len a then Ret 1
  else exec_bind (blob_bytes a) (λ x, exec_bind (blob_bytes b) (λ y, Ret (memcmp x y))).

Definition tt_blob_strcmp (b : tt_blob_t) (cstr : list Z) : exec Z :=
  if blob_len b <? zlen cstr then Ret (-1)
  else if zlen cstr <? blob_len b then Ret 1
  else exec_bind (blob_bytes b) (λ x, Ret (memcmp x cstr)).

(** ** Wire formats and contracts *)

Definition string_bytes (s : list Z) : list Z := be_bytes 4 (zlen s) ++ s.
Definition bool_byte (b : bool) : list Z := [if b then 1 else 0].
Arguments string_bytes : simpl never.
Arguments bool_byte : simpl never.

Definition mpint_bytes (mpint : list Z) (high : bool) : list Z :=
  be_bytes 4 (zlen mpint + (if high then 1 else 0)) ++ (if high then [0] else []) ++ mpint.

Fixpoint join_more (names : list (list Z)) : list Z :=
  match names with
  | [] => []
  | n :: names => (if 0 <? zlen n then 44 :: n else []) ++ join_more names
  end.
Definition join_names (names : list (list Z)) : list Z :=
  match names with [] => [] | n :: names => n ++ join_more names end.

Lemma zlen_string_bytes s : zlen (string_bytes s) = 4 + zlen s.
Proof. unfold string_bytes. by rewrite zlen_app, zlen_be. Qed.
Lemma zlen_bool_byte b : zlen (bool_byte b) = 1.
Proof. done. Qed.
#[export] Hint Rewrite zlen_be zlen_string_bytes zlen_bool_byte : zlen.

(** A byte string whose length field and packet fit 32 bits. *)
Definition str_ok (s : list Z) : Prop := Forall is_u8 s ∧ zlen s ≤ max_read.

Lemma zlen_u32 (s : list Z) : zlen s ≤ max_read → is_u32 (zlen s).
Proof. intros. pose proof (zlen_nonneg s). unfold is_u32, max_read in *. lia. Qed.

Lemma string_prepare_ok s :
  zlen s ≤ max_read → tt_ssh_string_render_prepare (zlen s) = zlen (string_bytes s).
Proof.
  intros Hs. rewrite zlen_string_bytes. pose proof (zlen_nonneg s).
  unfold max_read in *. apply u32_small. lia.
Qed.

Section writes.
Context `{Allocator}.

Lemma renders_byte v : is_u8 v → renders (tt_ssh_byte_render v) [v].
Proof. apply renders_u8. Qed.
Lemma renders_bool b : renders (tt_ssh_boolean_render b) (bool_byte b).
Proof. apply renders_u8. by destruct b. Qed.
Lemma renders_uint32 v : renders (tt_ssh_uint32_render v) (be_bytes 4 v).
Proof. apply renders_be. Qed.
Lemma renders_uint64 v : renders (tt_ssh_uint64_render v) (be_bytes 8 v).
Proof. apply renders_be. Qed.

(** An access that succeeds is no step of the buffer. *)
Lemma renders_access {A} (e : exec A) (k : A → M tt_buf_t unit) a d :
e = Ret a → renders (k a) d → renders (x ← access e; k x) d.
Proof. intros ->. done. Qed.

Lemma renders_put_if s :
Forall is_u8 s → renders (if 0 <? zlen s then tt_buf_put s else mret tt) s.
Proof.
  intros Hs. pose proof (zlen_nonneg s). destruct (Z.ltb_spec 0 (zlen s)).
  - by apply renders_put.
  - rewrite (zlen_nil_inv s) by lia. apply renders_ret.
Qed.

Lemma renders_string s : Forall is_u8 s → renders (tt_ssh_string_render s) (string_bytes s).
Proof. intros Hs. apply renders_bind; [apply renders_be|by apply renders_put_if]. Qed.

Lemma renders_mpint mpint negative high :
mpint_high mpint negative = Ret high → zlen mpint + 1 < 2 ^ 32 →
Forall is_u8 mpint → (zlen mpint = 0 → high = false) →
renders (tt_ssh_mpint_render mpint negative) (mpint_bytes mpint high).
Proof.
  intros Hh Hlen Hm H0. pose proof (zlen_nonneg mpint).
  eapply renders_access; [exact Hh|]. unfold mpint_bytes.
  rewrite u32_small by (destruct high; lia).
  apply renders_bind; [apply renders_be|]. destruct (Z.ltb_spec 0 (zlen mpint)).
  - apply renders_bind; [|by apply renders_put]. destruct high; [|apply renders_ret].
    by apply renders_u8.
  - rewrite H0, (zlen_nil_inv mpint) by lia. apply renders_ret.
Qed.

Lemma renders_names names :
Forall (Forall is_u8) names → renders (put_names names) (join_more names).
Proof.
  induction 1 as [|n names Hn Hns IH]; simpl; [apply renders_ret|].
  apply renders_bind; [|done]. destruct (0 <? zlen n); [|apply renders_ret].
  apply (renders_bind _ _ [44] n); [by apply renders_u8|by apply renders_put].
Qed.

Lemma names_len_spec len names :
0 ≤ len → len + zlen (join_more names) < 2 ^ 32 →
names_len len names = len + zlen (join_more names).
Proof.
  revert len. induction names as [|n names IH]; intros len H0 Hlt; simpl in *.
  { rewrite zlen_nil. lia. }
  pose proof (zlen_nonneg n). pose proof (zlen_nonneg (join_more names)).
  rewrite zlen_app in *. destruct (Z.ltb_spec 0 (zlen n)) as [Hp|Hp].
  - rewrite zlen_cons in *. rewrite u32_small by lia. rewrite IH by lia. lia.
  - rewrite zlen_nil in *. rewrite IH by lia. lia.
Qed.

Lemma namelist_len_spec len names :
0 ≤ len → len + zlen (join_names names) < 2 ^ 32 →
namelist_len len names = len + zlen (join_names names).
Proof.
  intros H0 Hlt. destruct names as [|n names]; simpl in *; [rewrite zlen_nil; lia|].
  pose proof (zlen_nonneg n). pose proof (zlen_nonneg (join_more names)).
  rewrite zlen_app in *. rewrite u32_small by lia. rewrite names_len_spec by lia. lia.
Qed.

Lemma namelist_prepare_ok names :
zlen (join_names names) ≤ max_read →
tt_ssh_namelist_render_prepare names = zlen (string_bytes (join_names names)).
Proof.
  intros Hl. pose proof (zlen_nonneg (join_names names)). unfold max_read in Hl.
  unfold tt_ssh_namelist_render_prepare.
  rewrite namelist_len_spec by lia. by rewrite zlen_string_bytes.
Qed.

Lemma renders_namelist names :
Forall (Forall is_u8) names → zlen (join_names names) ≤ max_read →
renders (tt_ssh_namelist_render names) (string_bytes (join_names names)).
Proof.
  intros Hn Hl. pose proof (zlen_nonneg (join_names names)). unfold max_read in Hl.
  unfold tt_ssh_namelist_render. rewrite namelist_len_spec by lia.
  apply renders_bind; [apply renders_be|].
  destruct Hn as [|n names Hn Hns]; [apply renders_ret|].
  apply renders_bind; [by apply renders_put_if|by apply renders_names].
Qed.
End writes.

Section readers.
Lemma parses_bool b : parses tt_ssh_boolean_parse (bool_byte b) b.
Proof.
  replace b with (negb ((if b then 1 else 0) =? 0)) at 2 by by destruct b.
  apply (parses_map _ (λ v, negb (v =? 0))), parses_u8.
Qed.

Lemma parses_uint32 v : is_u32 v → parses tt_ssh_uint32_parse (be_bytes 4 v) v.
Proof. apply parses_u32_h. Qed.

Lemma parses_string s : zlen s ≤ max_read → parses tt_ssh_string_parse (string_bytes s) s.
Proof.
  intros Hs. eapply parses_bind; [by apply parses_u32_h, zlen_u32|].
  by apply parses_get_nocopy.
Qed.

(** Taking the pointer, moving the position and then reading through the pointer
  is reading. *)
Lemma inc_rp_read n b :
0 ≤ n → buf_wf b →
(b0 ← gets id; tt_buf_inc_rp n;; buf_read (rpos b0) n) b = tt_buf_get_nocopy n b.
Proof.
  intros Hn Hwf. m_simpl. rewrite (buf_inc_rp_spec b Hwf) by done.
  rewrite buf_get_nocopy_spec, buf_get_spec by done.
  pose proof (wf_content b Hwf). pose proof (wf_pos b Hwf).
  destruct (Z.leb_spec n (zlen (content b))); [|done]. simpl.
  rewrite buf_read_ok; simpl; try lia; [|by apply wf_advance].
  do 3 f_equal. unfold content. rewrite sub_sub by lia. by rewrite Z.add_0_r.
Qed.

Lemma mpint_parse_string b :
buf_wf b → zlen (content b) ≤ max_read → tt_ssh_mpint_parse b = tt_ssh_string_parse b.
Proof.
  intros Hwf Hmax. unfold tt_ssh_mpint_parse, tt_ssh_string_parse.
  destruct (reads_u32_h b Hwf Hmax) as ([len|e] & n & E & Hn & Hl).
  - rewrite !(bind_step _ _ _ _ _ E). apply inc_rp_read; [unfold is_u32 in *; lia|].
    apply wf_advance; [done|lia|lia].
  - by rewrite !(bind_error _ _ _ _ _ E).
Qed.

Lemma reads_bool : reads tt_ssh_boolean_parse (λ _, True).
Proof.
  eapply reads_bind; [apply reads_u8|]. intros. by apply reads_ret.
Qed.

Lemma reads_uint32 : reads tt_ssh_uint32_parse is_u32.
Proof. apply reads_u32_h. Qed.

Lemma reads_string : reads tt_ssh_string_parse str_ok.
Proof.
  eapply reads_bind; [apply reads_u32_h|]. intros len Hlen.
  eapply reads_weaken; [apply reads_get_nocopy; unfold is_u32 in *; lia|].
  simpl. intros d (<- & ? & ?). by split.
Qed.

Lemma reads_mpint : reads tt_ssh_mpint_parse str_ok.
Proof.
  intros b Hwf Hmax. rewrite mpint_parse_string by done. by apply reads_string.
Qed.
End readers.

#[export] Hint Opaque be_bytes string_bytes bool_byte tt_ssh_byte_render
  tt_ssh_boolean_render tt_ssh_uint32_render tt_ssh_uint64_render tt_ssh_string_render
  tt_ssh_namelist_render tt_ssh_boolean_parse tt_ssh_uint32_parse tt_ssh_uint64_parse
  tt_ssh_string_parse tt_ssh_mpint_parse : codec.
#[export] Hint Resolve renders_byte renders_bool renders_uint32 renders_uint64
  renders_string renders_namelist : codec.
#[export] Hint Resolve parses_bool parses_uint32 parses_string : codec.
#[export] Hint Resolve reads_bool reads_uint32 reads_string reads_mpint : codec.

(** *** Name-lists *)

(** A name as the protocol has it: not empty and without comma. *)
Definition name_ok (n : list Z) : Prop := n ≠ [] ∧ Forall is_u8 n ∧ Forall (λ c, c ≠ 44) n.

Lemma names_bytes names : Forall name_ok names → Forall (Forall is_u8) names.
Proof. induction 1 as [|n names (_ & ? & _)]; by constructor. Qed.

Section namelists.
Context {S : Type} (cb : list Z → S → exec (result S)).

(** The callback on every name in turn; any failure is TT_FAIL. *)
Fixpoint cb_fold (names : list (list Z)) (s : S) : exec (result S) :=
match names with
| [] => Ret (TT_SUCCESS s)
| n :: names =>
  exec_bind (cb n s) (λ r,
    match r with
    | TT_SUCCESS s' => cb_fold names s'
    | TT_ERROR _ => Ret (TT_ERROR TT_FAIL)
    end)
end.

Lemma scan_name pre n rest s :
Forall (λ c, c ≠ 44) n →
namelist_scan cb pre (n ++ rest) s = namelist_scan cb (pre ++ n) rest s.
Proof.
  intros Hn. revert pre. induction Hn as [|c n Hc Hn IH]; intros pre; simpl.
  { by rewrite app_nil_r. }
  rewrite (proj2 (Z.eqb_neq c 44)) by done. rewrite IH. by rewrite <- app_assoc.
Qed.

Lemma zlen_pos {A} (l : list A) : l ≠ [] → (zlen l =? 0) = false.
Proof. destruct l; [done|]. intros _. apply Z.eqb_neq. rewrite zlen_cons.
pose proof (zlen_nonneg l). lia. Qed.

Lemma scan_join n names s :
Forall name_ok (n :: names) →
namelist_scan cb n (join_more names) s = cb_fold (n :: names) s.
Proof.
  revert n s. induction names as [|n' names IH]; intros n s Hok.
  all: apply Forall_cons_1 in Hok as [(Hne & _ & Hc) Hns].
  { simpl. by rewrite zlen_pos. }
  pose proof Hns as (Hn' & _)%Forall_cons_1. destruct Hn' as (Hne' & _ & Hc').
  cbn [join_more cb_fold]. destruct (Z.ltb_spec 0 (zlen n')); cycle 1.
  { pose proof (zlen_pos n' Hne') as Hz%Z.eqb_neq. pose proof (zlen_nonneg n'). lia. }
  simpl. rewrite zlen_pos by done. destruct (cb n s) as [[s'|e]| | |]; try done. simpl.
  rewrite scan_name by done. simpl. by rewrite (IH n' s' Hns).
Qed.

Lemma namelist_parse_spec names s :
Forall name_ok names → zlen (join_names names) ≤ max_read →
∀ b rest, buf_wf b → content b = string_bytes (join_names names) ++ rest →
tt_ssh_namelist_parse cb s b =
  exec_bind (cb_fold names s) (λ r,
    Ret (r, set_rpos (rpos b + zlen (string_bytes (join_names names))) b)).
Proof.
  intros Hok Hmax b rest Hwf Hc. unfold tt_ssh_namelist_parse.
  pose proof (parses_u32_h (zlen (join_names names)) (zlen_u32 _ Hmax) b) as Hp.
  rewrite (bind_step _ _ _ _ _ (Hp (join_names names ++ rest) Hwf ltac:(by rewrite Hc; unfold string_bytes; rewrite <- app_assoc))).
  rewrite zlen_string_bytes, zlen_be. set (b1 := set_rpos _ b).
  destruct names as [|n names].
  { simpl. rewrite zlen_nil. done. }
  assert (join_names (n :: names) ≠ []) as Hne.
  { simpl. apply Forall_cons_1 in Hok as [(Hn & _) _]. by destruct n. }
  rewrite zlen_pos by done.
  assert (buf_wf b1 ∧ content b1 = join_names (n :: names) ++ rest) as [Hwf1 Hc1].
  { assert (4 ≤ zlen (content b)).
    { rewrite Hc. autorewrite with zlen. pose proof (zlen_nonneg (join_names (n :: names))).
      pose proof (zlen_nonneg rest). lia. }
    split; [apply wf_advance; [done|simpl; lia|simpl; lia]|].
    unfold b1. rewrite content_set_rpos, Hc by (done || (simpl; lia)). done. }
  pose proof (inc_rp_read (zlen (join_names (n :: names))) b1 (zlen_nonneg _) Hwf1) as Hi.
  rewrite (parses_get_nocopy _ _ eq_refl b1 rest Hwf1 Hc1) in Hi.
  set (l := join_names (n :: names)) in *.
  assert (∀ (k : list Z → M tt_buf_t S),
    (b0 ← gets id; tt_buf_inc_rp (zlen l);; d ← buf_read (rpos b0) (zlen l); k d) b1 =
    ((b0 ← gets id; tt_buf_inc_rp (zlen l);; buf_read (rpos b0) (zlen l)) ≫= k) b1) as Ha.
  { intros k. m_simpl. destruct (tt_buf_inc_rp (zlen l) b1) as [[[] ?]| | |]; done. }
  rewrite Ha. rewrite (bind_step _ _ _ _ _ Hi). unfold call.
  unfold l. simpl join_names. rewrite scan_name by by apply Forall_cons_1 in Hok as [(_ & _ & ?) _].
  simpl app. rewrite scan_join by done.
  unfold b1, l. simpl. unfold set_rpos. simpl. by rewrite Z.add_assoc.
Qed.

Context (I : S → Prop).
Context (cb_safe : ∀ name s, str_ok name → I s →
∃ r, cb name s = Ret r ∧ match r with TT_SUCCESS s' => I s' | TT_ERROR _ => True end).

Lemma scan_safe pre d s :
str_ok (pre ++ d) → I s →
∃ r, namelist_scan cb pre d s = Ret r ∧
   match r with TT_SUCCESS s' => I s' | TT_ERROR _ => True end.
Proof.
  revert pre s. induction d as [|c d IH]; intros pre s [Hb Hl] Hs.
  { rewrite app_nil_r in Hb, Hl. simpl. destruct (zlen pre =? 0); [eexists; by split|].
    destruct (cb_safe pre s (conj Hb Hl) Hs) as ([s'|e] & -> & ?); simpl; (eexists; by split). }
  pose proof (zlen_nonneg pre). pose proof (zlen_nonneg d). pose proof Hb as Hb0.
  rewrite zlen_app, zlen_cons in Hl.
  apply Forall_app in Hb as [Hpre [Hc Hd]%Forall_cons_1]. simpl.
  destruct (c =? 44).
  - destruct (zlen pre =? 0); [eexists; by split|].
    assert (str_ok pre) as Hp by (split; [done|lia]).
    destruct (cb_safe pre s Hp Hs) as ([s'|e] & -> & ?); simpl; [|eexists; by split].
    apply IH; [|done]. split; [done|]. simpl. lia.
  - apply IH; [|done]. rewrite <- app_assoc. split; [done|].
    rewrite zlen_app. simpl. rewrite zlen_cons. lia.
Qed.

Lemma reads_namelist s : I s → reads (tt_ssh_namelist_parse cb s) I.
Proof.
  intros Hs. eapply reads_bind; [apply reads_u32_h|]. intros len Hlen.
  destruct (len =? 0); [by apply reads_ret|].
  assert (reads (d ← tt_buf_get_nocopy len; call (namelist_scan cb [] d s)) I) as Hr.
  { eapply reads_bind; [apply reads_get_nocopy; unfold is_u32 in *; lia|].
    intros d (Hd & Hm & Hb) b Hwf Hmax.
    destruct (scan_safe [] d s) as (r & E & ?); [split; [done|simpl; lia]|done|].
    exists r, 0. rewrite set_rpos_0. unfold call. rewrite E. simpl.
    pose proof (zlen_nonneg (content b)). split; [done|]. split; [lia|]. by destruct r. }
  intros b Hwf Hmax. destruct (Hr b Hwf Hmax) as (r & n & E & ?).
  exists r, n. split; [|done]. rewrite <- E.
  assert (0 ≤ len) as Hlen0 by (unfold is_u32 in *; lia).
  pose proof (inc_rp_read len b Hlen0 Hwf) as Hi.
  revert Hi. m_simpl. destruct (tt_buf_inc_rp len b) as [[[?|e] b1]| | |];
    intros Hi; rewrite <- Hi; try done.
Qed.
End namelists.

(** *** Blobs *)

(** A blob that is empty or owns exactly its bytes. *)
Definition blob_ok (b : tt_blob_t) : Prop :=
  match addr b with
  | BlobNull => blob_len b = 0
  | BlobBlock l => blob_len b = zlen l ∧ str_ok l
  | BlobFreed => False
  end.

Definition blob_data (b : tt_blob_t) : list Z :=
  match addr b with BlobBlock l => l | _ => [] end.

Lemma blob_null_ok : blob_ok blob_null.
Proof. done. Qed.

Lemma blob_bytes_ok b :
  blob_ok b → blob_bytes b = Ret (blob_data b) ∧ blob_len b = zlen (blob_data b) ∧
              str_ok (blob_data b).
Proof.
  unfold blob_ok, blob_bytes, blob_data. destruct b as [[|l|] n]; simpl; [|..|done].
  - intros ->. split; [done|]. split; [done|]. split; [by constructor|done].
  - intros [-> ?]. split; [|done]. destruct (Z.eqb_spec (zlen l) 0) as [E|E].
    + by rewrite (zlen_nil_inv l).
    + rewrite mem_read_ok by (pose proof (zlen_nonneg l); lia). by rewrite sub_all.
Qed.

Section blob_lemmas.
Context `{Allocator}.

Lemma splice_whole {A} (q d : list A) : zlen q = zlen d → splice q 0 d = d.
Proof.
  intros E. unfold splice. simpl. rewrite drop_ge; [by rewrite app_nil_r|].
  unfold zlen in E. lia.
Qed.

Lemma blob_create_ok d b :
  tt_blob_create (Some d) (zlen d) b =
    Ret (TT_SUCCESS tt, mk_blob (BlobBlock d) (zlen d)) ∨
  (tt_blob_create (Some d) (zlen d) b = Ret (TT_ERROR TT_FAIL, b) ∧ ¬ malloc_total).
Proof.
  unfold tt_blob_create. pose proof (zlen_nonneg d).
  destruct (malloc (zlen d)) as [q|] eqn:E.
  - left. pose proof (malloc_zlen _ _ E).
    rewrite mem_read_ok by lia. simpl. rewrite sub_all, mem_write_ok by lia.
    simpl. by rewrite splice_whole by lia.
  - right. split; [done|]. intros Ht. destruct (Ht (zlen d)). congruence.
Qed.

(** What the message parsers do with the string they read: an empty string
    leaves the blob as it is. *)
Lemma renders_blob b :
  blob_ok b →
  renders (s ← access (blob_bytes b); tt_ssh_string_render s) (string_bytes (blob_data b)).
Proof.
  intros (E & _ & Hs & _)%blob_bytes_ok. eapply renders_access; [done|].
  by apply renders_string.
Qed.
End blob_lemmas.

(** ** Properties of the codec *)

Section properties.
Context `{Allocator}.

(** The padding length of an SSH packet makes packet length, padding length,
    payload and padding together a multiple of the cipher block size, and is
    between 4 and 254, for every payload size, random value and block size up to
    64; no assertion fails. *)
Theorem padlen_aligned rand data_len block_size pad_block :
0 ≤ rand → 0 ≤ data_len < 2 ^ 32 - 9 → 0 ≤ block_size ≤ 64 → 0 ≤ pad_block < 2 →
∃ n, tt_sshmsg_padlen rand data_len block_size pad_block 2 = Ret n ∧
  4 ≤ n < 255 ∧
  (5 + data_len + n) mod (if block_size =? 0 then 8 else block_size) = 0.
Proof.
  intros Hr Hd Hb Hp. unfold tt_sshmsg_padlen.
  rewrite (proj2 (Z.eqb_neq 2 0)) by lia.
  set (bs := if block_size =? 0 then 8 else block_size).
  assert (0 < bs ≤ 64) by (unfold bs; destruct (Z.eqb_spec block_size 0); lia).
  assert (∃ k, 0 ≤ k ≤ 1 ∧ (if pad_block =? 0 then Ret (rand mod 2)
      else if pad_block <? 2 then Ret pad_block else Crash) = Ret k) as (k & Hk & ->).
  { destruct (pad_block =? 0).
    - exists (rand mod 2). pose proof (Z.mod_pos_bound rand 2). split; [lia|done].
    - exists pad_block. rewrite (proj2 (Z.ltb_lt pad_block 2)) by lia. split; [lia|done]. }
  simpl. rewrite (u32_small (data_len + 5)) by lia.
  rewrite (u32_small (data_len + 5 + 4)) by lia.
  pose proof (Z.mod_pos_bound (data_len + 5 + 4) bs ltac:(lia)) as Hm.
  rewrite (u32_small (bs - _)) by lia. rewrite (u32_small (bs - _ + 4)) by lia.
  assert (0 ≤ k * bs ≤ 64) by nia.
  rewrite (u32_small (k * bs)) by lia. rewrite (u32_small (_ + k * bs)) by lia.
  rewrite (proj2 (Z.ltb_lt _ 255)) by lia. eexists. split; [reflexivity|].
  rewrite u8_small by (unfold is_u8; lia). split; [lia|].
  pose proof (Z.div_mod (data_len + 5 + 4) bs ltac:(lia)).
  replace (5 + data_len + (bs - (data_len + 5 + 4) mod bs + 4 + k * bs))
    with ((1 + k + (data_len + 5 + 4) / bs) * bs) by lia.
  apply Z.mod_mul. lia.
Qed.

(** The callback that collects the names. *)
Definition collect (n : list Z) (l : list (list Z)) : exec (result (list (list Z))) :=
Ret (TT_SUCCESS (l ++ [n])).

Lemma fold_collect names l : cb_fold collect names l = Ret (TT_SUCCESS (l ++ names)).
Proof.
  revert l. induction names as [|n names IH]; intros l; simpl; [by rewrite app_nil_r|].
  rewrite IH. by rewrite <- app_assoc.
Qed.

(** C6: name-lists round-trip: rendering any list of non-empty names without
    commas into an empty buffer and parsing the buffer calls the callback on
    exactly those names in their order and leaves the buffer empty; the length
    announced by [tt_ssh_namelist_render_prepare] is the rendered one. *)
Theorem namelist_roundtrip names b :
Forall name_ok names → zlen (join_names names) ≤ max_read →
buf_wf b → readonly b = false → content b = [] → reliable b →
room b (tt_ssh_namelist_render_prepare names) →
∃ b' b'', tt_ssh_namelist_render names b = Ret (TT_SUCCESS tt, b') ∧
  zlen (content b') = tt_ssh_namelist_render_prepare names ∧
  tt_ssh_namelist_parse collect [] b' = Ret (TT_SUCCESS names, b'') ∧
  buf_wf b'' ∧ content b'' = [].
Proof.
  intros Hn Hl Hwf Hro Hc Hrel Hroom. rewrite namelist_prepare_ok in * by done.
  pose proof (names_bytes names Hn) as Hb.
  destruct (renders_namelist names Hb Hl b Hwf Hro Hroom)
    as [(b' & E & A)|(? & ? & _ & _ & _ & ?)]; [|done].
  pose proof (app_content _ _ _ A) as Hc'. rewrite Hc in Hc'. simpl in Hc'.
  pose proof (app_wf _ _ _ A) as Hwf'. pose proof (zlen_nonneg (content b')).
  assert (zlen (content b') = zlen (string_bytes (join_names names))) as Hz by by rewrite Hc'.
  assert (content b' = string_bytes (join_names names) ++ []) as Hc'' by by rewrite app_nil_r.
  exists b', (set_rpos (rpos b' + zlen (content b')) b'). split_and!; try done.
  - rewrite (namelist_parse_spec collect names [] Hn Hl b' [] Hwf' Hc'').
    rewrite fold_collect, Hz. done.
  - apply wf_advance; [done|lia|lia].
  - rewrite content_set_rpos by (done || lia).
    apply drop_ge. unfold zlen. lia.
Qed.

(** The bytes of an mpint inside its string. *)
Definition mpint_data (mpint : list Z) (high : bool) : list Z :=
(if high then [0] else []) ++ mpint.

Lemma mpint_bytes_string mpint high :
mpint_bytes mpint high = string_bytes (mpint_data mpint high).
Proof.
  unfold mpint_bytes, string_bytes, mpint_data. destruct high; [|by rewrite Z.add_0_r].
  cbn [app]. rewrite zlen_cons. do 2 f_equal. lia.
Qed.

Lemma mpint_high_spec x mpint :
is_u8 x → mpint_high (x :: mpint) false = Ret (128 <=? x).
Proof.
  unfold is_u8. intros Hx. unfold mpint_high. rewrite mem_read_ok; [|lia|lia|].
  2:{ rewrite zlen_cons. pose proof (zlen_nonneg mpint). lia. }
  simpl. f_equal. change 128 with (2 ^ 7). rewrite <- (Z.add_0_l (2 ^ 7)) at 1.
  assert (x = x mod 2 ^ 7 + x / 2 ^ 7 * 2 ^ 7) as E by (pose proof (Z.div_mod x (2 ^ 7)); lia).
  destruct (Z.leb_spec (2 ^ 7) x).
  - assert (Z.testbit (Z.land x (0 + 2 ^ 7)) 7 = true) as Ht.
    { rewrite Z.land_spec, andb_true_r. apply Z.testbit_true; [lia|].
      by rewrite <- (Z.div_unique x (2 ^ 7) 1 (x - 128)) by lia. }
    destruct (Z.eqb_spec (Z.land x (0 + 2 ^ 7)) 0) as [E0|]; [|done].
    rewrite E0 in Ht. done.
  - assert (Z.land x (0 + 2 ^ 7) = 0) as ->; [|done].
    apply Z.bits_inj'. intros n Hn. rewrite Z.land_spec, Z.bits_0.
    rewrite Z.add_0_l, Z.pow2_bits_eqb by lia. destruct (Z.eqb_spec 7 n) as [<-|]; [|by rewrite andb_false_r].
    rewrite andb_true_r. apply Z.testbit_false; [lia|]. by rewrite Z.div_small by lia.
Qed.

Lemma le_combine_zero l : le_combine (l ++ [0]) = le_combine l.
Proof. induction l as [|x l IH]; simpl; [done|]. by rewrite IH. Qed.

(** C7: a non-empty mpint is rendered in the announced length, and a
    non-negative one never looks negative: reading it back gives the same number
    in bytes of which the first is below 0x80. *)
Theorem mpint_render_sound mpint b :
mpint ≠ [] → Forall is_u8 mpint → 5 + zlen mpint ≤ max_read →
buf_wf b → readonly b = false → content b = [] → reliable b → room b (5 + zlen mpint) →
∃ b' d b'', tt_ssh_mpint_render mpint false b = Ret (TT_SUCCESS tt, b') ∧
  tt_ssh_mpint_render_prepare mpint false = Ret (zlen (content b')) ∧
  tt_ssh_mpint_parse b' = Ret (TT_SUCCESS d, b'') ∧ content b'' = [] ∧
  hd 0 d < 128 ∧ le_combine (rev d) = le_combine (rev mpint).
Proof.
  intros Hne Hb Hl Hwf Hro Hc Hrel Hroom. unfold max_read in Hl.
  destruct mpint as [|x mpint]; [done|]. pose proof (Forall_cons_1 _ _ _ Hb) as [Hx _].
  set (m := x :: mpint) in *. set (high := 128 <=? x).
  assert (mpint_high m false = Ret high) as Hh by by apply mpint_high_spec.
  assert (0 < zlen m) as Hm.
  { unfold m. rewrite zlen_cons. pose proof (zlen_nonneg mpint). lia. }
  assert (zlen (mpint_data m high) = zlen m + (if high then 1 else 0)) as Hdl.
  { unfold mpint_data. rewrite zlen_app. destruct high; rewrite ?zlen_cons, ?zlen_nil; lia. }
  destruct (renders_mpint m false high Hh ltac:(lia) Hb ltac:(lia) b Hwf Hro)
    as [(b' & E & A)|(? & ? & _ & _ & _ & ?)]; [| |done].
  { rewrite mpint_bytes_string, zlen_string_bytes, Hdl.
    eapply room_weaken; [|done]. destruct high; lia. }
  rewrite mpint_bytes_string in A. set (d := mpint_data m high) in *.
  pose proof (app_content _ _ _ A) as Hc'. rewrite Hc in Hc'. simpl in Hc'.
  pose proof (app_wf _ _ _ A) as Hwf'.
  assert (zlen (content b') = 4 + zlen d) as Hz by by rewrite Hc', zlen_string_bytes.
  assert (zlen d ≤ max_read) as Hd by (unfold max_read; destruct high; lia).
  exists b', d, (set_rpos (rpos b' + zlen (content b')) b').
  pose proof (zlen_nonneg d). split_and!.
  - done.
  - unfold tt_ssh_mpint_render_prepare. rewrite (proj2 (Z.eqb_neq (zlen m) 0)), Hh by lia.
    simpl. rewrite u32_small by (destruct high; lia). f_equal. rewrite Hz, Hdl. lia.
  - rewrite mpint_parse_string; [|done|rewrite Hz, Hdl; unfold max_read in *; destruct high; lia].
    rewrite (parses_string d Hd b' []) by (done || by rewrite app_nil_r).
    by rewrite zlen_string_bytes, Hz.
  - rewrite content_set_rpos by (done || lia). apply drop_ge. unfold zlen. lia.
  - unfold d, mpint_data, high. destruct (Z.leb_spec 128 x); simpl; lia.
  - unfold d, mpint_data. destruct high; [|done]. simpl app. simpl rev.
    by rewrite le_combine_zero.
Qed.
End properties.

(** Rendering the number zero, which RFC 4251 stores as an empty string and for
    which [tt_ssh_mpint_render_prepare] announces 4 bytes, reads [mpint[0]] of an
    empty number. *)
Lemma mpint_render_zero_undef `{Allocator} b :
  tt_ssh_mpint_render_prepare [] false = Ret 4 ∧ tt_ssh_mpint_render [] false b = Undef.
Proof. done. Qed.

(** ** Witnesses *)

Definition small_buf : tt_buf_t :=
  mk_buf BufInit 16 (mk_memspg 64 4096 0) 0 0 (replicate 16 0) false.

Lemma small_buf_room n : 0 ≤ n ≤ 1000 → room small_buf n.
Proof. intros. unfold room. simpl. lia. Qed.

(** A buffer over received bytes. *)
Definition recv_buf (d : list Z) : tt_buf_t :=
  mk_buf (BufUser d) (zlen d) (mk_memspg 64 4096 0) (zlen d) 0 (replicate 16 0) true.

Lemma recv_buf_ok d :
  Forall is_u8 d → zlen d < 2 ^ 32 → buf_wf (recv_buf d) ∧ content (recv_buf d) = d.
Proof.
  intros Hd Hl. pose proof (zlen_nonneg d). split.
  - constructor; cbn [p size wpos rpos mspg readonly initbuf recv_buf]; try done; try lia.
    + split; [done|bytes_tac].
    + unfold memspg_wf. simpl. lia.
  - unfold content, blk, block. simpl. rewrite Z.sub_0_r. apply sub_all.
Qed.

Lemma zero_alloc_total : @malloc_total zero_alloc.
Proof. intros n. by eexists. Qed.

Lemma padlen_aligned_witness :
  (0 ≤ 7 ∧ 0 ≤ 21 < 2 ^ 32 - 9 ∧ 0 ≤ 16 ≤ 64 ∧ 0 ≤ 0 < 2) ∧
  ∃ n, tt_sshmsg_padlen 7 21 16 0 2 = Ret n ∧ 4 ≤ n < 255 ∧ (5 + 21 + n) mod 16 = 0.
Proof.
  split; [lia|]. exact (padlen_aligned 7 21 16 0 ltac:(lia) ltac:(lia) ltac:(lia) ltac:(lia)).
Defined.

Lemma namelist_roundtrip_witness :
  ∃ b' b'', tt_ssh_namelist_render (H:=zero_alloc) [[97; 98]; [99]] small_buf
      = Ret (TT_SUCCESS tt, b') ∧
    zlen (content b') = 8 ∧
    tt_ssh_namelist_parse collect [] b' = Ret (TT_SUCCESS [[97; 98]; [99]], b'') ∧
    buf_wf b'' ∧ content b'' = [].
Proof.
  apply (namelist_roundtrip (H:=zero_alloc) [[97; 98]; [99]] small_buf).
  - repeat (apply Forall_cons_2 || apply Forall_nil_2); (split; [done|split; bytes_tac]).
  - done.
  - exact empty_buf_wf.
  - done.
  - done.
  - split; [by intros n; eexists|reflexivity].
  - by apply small_buf_room.
Defined.

Lemma mpint_render_sound_witness :
  ∃ b' d b'', tt_ssh_mpint_render (H:=zero_alloc) [200; 1] false small_buf
      = Ret (TT_SUCCESS tt, b') ∧
    tt_ssh_mpint_render_prepare [200; 1] false = Ret (zlen (content b')) ∧
    tt_ssh_mpint_parse b' = Ret (TT_SUCCESS d, b'') ∧ content b'' = [] ∧
    hd 0 d < 128 ∧ le_combine (rev d) = 51201.
Proof.
  apply (mpint_render_sound (H:=zero_alloc) [200; 1] small_buf).
  - discriminate.
  - bytes_tac.
  - done.
  - exact empty_buf_wf.
  - done.
  - done.
  - split; [by intros n; eexists|reflexivity].
  - by apply small_buf_room.
Defined.
