(* ===== verification/SshMsg.v ===== *)
(** SSH messages (network/ssh/message/tt_ssh_message.h and .c): the object
    common to all messages, the interface each message type implements, the
    packet around a rendered message, and the payload of a received packet. *)

From S2P Require Import Prelude MemSpring Buffer BufferFormat SshCodec.

Definition __MAX_SSH_MAC_LEN : Z := 32.
Definition __MAX_SSH_PAD_BLOCK : Z := 2.

Inductive tt_ssh_render_mode_t : Type :=
  | TT_SSH_RENDER_MODE_RAW
  | TT_SSH_RENDER_MODE_BINARY.

(** ** The interface of a message type: [tt_sshmsg_itf_t]

    [T] is the type of the message's own fields, which follow the common object
    in memory ([TT_SSHMSG_CAST]).  [itf_zero] is that memory filled with zeros,
    which is what [create] finds; [itf_save] is what it leaves in [msg->save].
    [parse] returns the updated fields. *)
Class SshMsgItf `{Allocator} (T : Type) := {
  itf_id : Z;
  itf_zero : T;
  itf_create : T → exec (result T);
  itf_save : bool;
  itf_destroy : M T unit;
  itf_render_prepare : T → exec (result (Z * tt_ssh_render_mode_t));
  itf_render : T → M tt_buf_t unit;
  itf_parse : T → M tt_buf_t T;
}.

Record tt_sshmsg_t (T : Type) : Type := mk_sshmsg {
  msg_id : Z;
  msg_ref : Z;
  msg_buf : tt_buf_t;
  rendered : bool;
  pad_block : Z;
  save : bool;
  body : T;
}.
Arguments mk_sshmsg {T}.
Arguments msg_id {T}.
Arguments msg_ref {T}.
Arguments msg_buf {T}.
Arguments rendered {T}.
Arguments pad_block {T}.
Arguments save {T}.
Arguments body {T}.

Section sshmsg.
Context `{Allocator} {T : Type}.
Implicit Type m : tt_sshmsg_t T.

Definition set_body (t : T) m : tt_sshmsg_t T :=
  mk_sshmsg (msg_id m) (msg_ref m) (msg_buf m) (rendered m) (pad_block m) (save m) t.
Definition set_msg_buf (b : tt_buf_t) m : tt_sshmsg_t T :=
  mk_sshmsg (msg_id m) (msg_ref m) b (rendered m) (pad_block m) (save m) (body m).
Definition set_rendered (r : bool) m : tt_sshmsg_t T :=
  mk_sshmsg (msg_id m) (msg_ref m) (msg_buf m) r (pad_block m) (save m) (body m).
Definition set_ref (n : Z) m : tt_sshmsg_t T :=
  mk_sshmsg (msg_id m) n (msg_buf m) (rendered m) (pad_block m) (save m) (body m).

(** A setter or getter of a message type: it asserts the message id, then works
    on the fields. *)
Definition on_msg {A} (id : Z) (op : M T A) : M (tt_sshmsg_t T) A :=
  n ← gets msg_id;
  assert_always (n =? id);;
  zoom body set_body op.

Context `{!SshMsgItf T}.

(** [sizeof] gives the size of the object of a message id, which depends on the
    platform.  The allocation is cleared before it is checked: a failed one is a
    write through NULL. *)
Definition tt_sshmsg_create (sizeof : Z → Z) : exec (option (tt_sshmsg_t T)) :=
  match malloc (sizeof itf_id) with
  | None => Undef
  | Some _ =>
      exec_bind (tt_buf_init None) (λ r,
        let zero := mk_buf BufNull 0 (mk_memspg 0 0 0) 0 0 (replicate 16 0) false in
        let buf := match r with TT_SUCCESS b => b | TT_ERROR _ => zero end in
        exec_bind (itf_create itf_zero) (λ r,
          match r with
          | TT_SUCCESS t => Ret (Some (mk_sshmsg itf_id 1 buf false 0 itf_save t))
          | TT_ERROR _ => exec_bind (tt_buf_destroy buf) (λ _, Ret None)
          end))
  end.

Definition __sshmsg_destroy : M (tt_sshmsg_t T) unit :=
  zoom body set_body itf_destroy;;
  zoom msg_buf set_msg_buf tt_buf_destroy.

Definition tt_sshmsg_ref : M (tt_sshmsg_t T) unit :=
  modify (λ m, set_ref (msg_ref m + 1) m).

(** The object is gone ([true]) when its last reference is released. *)
Definition tt_sshmsg_release : M (tt_sshmsg_t T) bool :=
  modify (λ m, set_ref (msg_ref m - 1) m);;
  n ← gets msg_ref;
  if n =? 0 then __sshmsg_destroy;; mret true else mret false.

(** What [tt_sshmsg_render] does to the buffer.  [rand] is the random value the
    padding length uses, [rand_u64] and [rand_u32] those of the padding. *)
Definition sshmsg_write (rand : Z) (rand_u64 rand_u32 : nat → Z) (m : tt_sshmsg_t T)
    (block_len : Z) : M tt_buf_t unit :=
  '(len, mode) ← do_r TT_FAIL (call (itf_render_prepare (body m)));
  match mode with
  | TT_SSH_RENDER_MODE_RAW =>
      do_r TT_FAIL (tt_buf_reserve len);;
      do_r TT_FAIL (itf_render (body m))
  | TT_SSH_RENDER_MODE_BINARY =>
      padlen ← access (tt_sshmsg_padlen rand len block_len (pad_block m) __MAX_SSH_PAD_BLOCK);
      do_r TT_FAIL (tt_buf_reserve (u32 (5 + len + padlen + __MAX_SSH_MAC_LEN)));;
      tt_buf_put_u32_n (u32 (1 + len + padlen));;
      tt_buf_put_u8 padlen;;
      do_r TT_FAIL (itf_render (body m));;
      tt_buf_put_rand rand_u64 rand_u32 padlen
  end.

(** [own] tells that the caller passed no buffer: the message's own one is used. *)
Definition tt_sshmsg_render (rand : Z) (rand_u64 rand_u32 : nat → Z) (block_len : Z)
    (own : bool) : M (tt_sshmsg_t T * tt_buf_t) unit :=
  s ← gets id;
  let m := s.1 in
  assert_always (negb (rendered m));;
  let write := sshmsg_write rand rand_u64 rand_u32 m block_len in
  (if own then zoom (λ s, msg_buf s.1) (λ b s, (set_msg_buf b s.1, s.2)) write
   else zoom snd (λ b s, (s.1, b)) write);;
  modify (λ s, (set_rendered true s.1, s.2)).
End sshmsg.

(** The payload of the packet at the read position, without consuming it. *)
Definition tt_sshmsg_peek_payload : M tt_buf_t (list Z) :=
  rw ← tt_buf_backup_rwp;
  r ← try
    (len ← do_r TT_FAIL tt_buf_get_u32_h;
     pad_len ← do_r TT_FAIL tt_buf_get_u8;
     if len <? u32 (pad_len + 1) then fail TT_FAIL
     else
       let len := u32 (len - (pad_len + 1)) in
       b ← gets id;
       if TT_BUF_RLEN b <? len then fail TT_E_BUF_NOBUFS
       else buf_read (rpos b) len);
  tt_buf_restore_rwp rw;;
  call (Ret r).

(** ** What a message type promises *)

(** Its object can be created, and parsing any bytes at all into a new object
    stays inside the received payload and leaves the fields in order. *)
Class SshMsgSafe `{Allocator} (T : Type) `{!SshMsgItf T} := {
  msg_init : T;
  msg_parsed : T → Prop;
  law_create : itf_create itf_zero = Ret (TT_SUCCESS msg_init);
  law_safe : reads (itf_parse msg_init) msg_parsed;
}.

(** Its rendering is its message id followed by its fields. *)
Class SshMsgWire `{Allocator} (T : Type) `{!SshMsgItf T} := {
  msg_valid : T → Prop;
  msg_fields : T → list Z;
  law_id : is_u8 itf_id;
  law_small t : msg_valid t → zlen (msg_fields t) < 2 ^ 31;
  law_render t : msg_valid t → renders (itf_render t) (itf_id :: msg_fields t);
}.

(** It announces the length that it renders. *)
Class SshMsgSized `{Allocator} (T : Type) `{!SshMsgItf T} `{!SshMsgWire T} :=
  law_prepare t : msg_valid t →
    itf_render_prepare t =
      Ret (TT_SUCCESS (1 + zlen (msg_fields t), TT_SSH_RENDER_MODE_BINARY)).

(** [m] accepts the bytes [d], maybe without consuming all of them, and returns
    a value that satisfies [P], unless memory runs out. *)
Definition accepts `{Allocator} {A} (m : M tt_buf_t A) (d : list Z) (P : A → Prop) : Prop :=
  ∀ b rest, buf_wf b → content b = d ++ rest →
  (∃ a b', m b = Ret (TT_SUCCESS a, b') ∧ P a) ∨
  (∃ e b', m b = Ret (TT_ERROR e, b') ∧ ¬ malloc_total).

(** Parsing what it rendered into a new object gives the message back. *)
Class SshMsgRoundtrip `{Allocator} (T : Type) `{!SshMsgItf T} `{!SshMsgWire T}
    `{!SshMsgSafe T} := {
  msg_same : T → T → Prop;
  law_parse t : msg_valid t → accepts (itf_parse msg_init) (msg_fields t) (msg_same t);
}.

Section accepts.
Context `{Allocator} {A B : Type}.

Lemma accepts_ret (a : A) d (P : A → Prop) : P a → accepts (mret a) d P.
Proof. intros Ha b rest _ _. left. by exists a, b. Qed.

Lemma accepts_bind (m : M tt_buf_t A) (k : A → M tt_buf_t B) d1 d2 P Q :
yields m d1 P → (∀ a, P a → accepts (k a) d2 Q) → accepts (m ≫= k) (d1 ++ d2) Q.
Proof.
  intros H1 H2 b rest Hwf Hc. rewrite <- app_assoc in Hc.
  assert (0 ≤ zlen d1 ≤ zlen (content b)) as Hl.
  { rewrite Hc, zlen_app. pose proof (zlen_nonneg d1).
    pose proof (zlen_nonneg (d2 ++ rest)). lia. }
  destruct (H1 b _ Hwf Hc) as [(a & E & Ha)|(e & b' & E & ?)]; cycle 1.
  { right. exists e, b'. split; [by eapply bind_error|done]. }
  destruct (H2 a Ha (set_rpos (rpos b + zlen d1) b) rest) as [(c & b' & E' & ?)|(e & b' & E' & ?)].
  - apply wf_advance; [done|lia|lia].
  - rewrite content_set_rpos by done. rewrite Hc. apply drop_app_length'. unfold zlen. lia.
  - left. exists c, b'. split; [|done]. by erewrite bind_step.
  - right. exists e, b'. split; [by erewrite bind_step|done].
Qed.

Lemma accepts_then (m : M tt_buf_t A) (k : A → M tt_buf_t B) d1 d2 a Q :
parses m d1 a → accepts (k a) d2 Q → accepts (m ≫= k) (d1 ++ d2) Q.
Proof.
  intros H1 H2. eapply accepts_bind; [by apply yields_parses|]. by intros ? ->.
Qed.

Lemma accepts_silent (m : M tt_buf_t A) (k : A → M tt_buf_t B) d P Q :
yields m [] P → (∀ a, P a → accepts (k a) d Q) → accepts (m ≫= k) d Q.
Proof. intros. change d with ([] ++ d). by eapply accepts_bind. Qed.

Lemma accepts_last (m : M tt_buf_t A) (k : A → M tt_buf_t B) d a Q :
parses m d a → accepts (k a) [] Q → accepts (m ≫= k) d Q.
Proof. intros. rewrite <- (app_nil_r d). by eapply accepts_then. Qed.

Lemma accepts_tail (m : M tt_buf_t A) d P :
accepts (m ≫= mret) d P → accepts m d P.
Proof.
  intros Hm b rest Hwf Hc.
  destruct (Hm b rest Hwf Hc) as [(a & b' & E & Ha)|(e & b' & E & Hn)]; revert E;
    unfold mbind, M_bind, bind, mret, M_ret, ret; destruct (m b) as [[[x|e'] s]| | |]; cbn;
    intros E; simplify_eq; eauto.
Qed.
End accepts.

(** ** The packet *)

(** packet_length, padding_length, payload and padding (RFC 4253 section 6). *)
Definition packet (payload padding : list Z) : list Z :=
  be_bytes 4 (1 + zlen payload + zlen padding) ++ [zlen padding] ++ payload ++ padding.

Lemma zlen_packet payload padding :
  zlen (packet payload padding) = 5 + zlen payload + zlen padding.
Proof. unfold packet. autorewrite with zlen. lia. Qed.

Section write.
Context `{Allocator}.

Lemma renders_reserve n m d :
  0 ≤ n ≤ zlen d → renders m d → renders (tt_buf_reserve n;; m) d.
Proof.
  intros Hn Hm b Hwf Hro Hroom. destruct Hroom as [Hr1 Hr2].
  destruct (buf_reserve_spec b n Hwf Hro) as [(b1 & E & K & Hs)|[E ?]];
    [lia|split; lia| |].
  - pose proof (kept_wpos _ _ K). pose proof (kept_mspg _ _ K) as Hm1.
    destruct (Hm b1) as [(b2 & E2 & A)|(e & b2 & E2 & ? & ? & Hr)].
    + apply (kept_wf _ _ K).
    + by rewrite (kept_ro _ _ K).
    + split; rewrite ?Hm1; lia.
    + left. exists b2. split; [by erewrite bind_step|]. eapply kept_appended; [done..|].
      pose proof (app_size _ _ _ A). rewrite Hm1 in *. lia.
    + right. exists e, b2. split; [by erewrite bind_step|]. unfold reliable in *.
      rewrite Hm1 in Hr. done.
  - right. exists TT_FAIL, b. split; [by erewrite bind_error|done].
Qed.

(** The bytes of the random padding. *)
Fixpoint rand_u64_bytes (r : nat → Z) (k : nat) : list Z :=
match k with O => [] | S k => le_split 8 (r k) ++ rand_u64_bytes r k end.
Fixpoint rand_u8_bytes (r : nat → Z) (k : nat) : list Z :=
match k with O => [] | S k => [u8 (r k)] ++ rand_u8_bytes r k end.
Definition rand_bytes (r64 r32 : nat → Z) (len : Z) : list Z :=
rand_u64_bytes r64 (Z.to_nat (len / 8)) ++ rand_u8_bytes r32 (Z.to_nat (len mod 8)).

Lemma renders_rand_u64s r k :
zlen (rand_u64_bytes r k) = 8 * Z.of_nat k ∧ Forall is_u8 (rand_u64_bytes r k) ∧
renders (put_rand_u64s r k) (rand_u64_bytes r k).
Proof.
  induction k as [|k (Hl & Hd & IH)]; [split_and!; [done|constructor|apply renders_ret]|].
  cbn [rand_u64_bytes]. split_and!.
  - rewrite zlen_app. unfold zlen at 1. rewrite length_le_split. lia.
  - apply Forall_app; split; [apply le_split_bytes|done].
  - apply renders_bind; [apply renders_put, le_split_bytes|done].
Qed.

Lemma renders_rand_u8s r k :
zlen (rand_u8_bytes r k) = Z.of_nat k ∧ Forall is_u8 (rand_u8_bytes r k) ∧
renders (put_rand_u8s r k) (rand_u8_bytes r k).
Proof.
  induction k as [|k (Hl & Hd & IH)]; [split_and!; [done|constructor|apply renders_ret]|].
  cbn [rand_u8_bytes]. pose proof (u8_range (r k)). split_and!.
  - rewrite zlen_app. change (zlen [u8 (r k)]) with 1. lia.
  - by constructor.
  - apply renders_bind; [by apply renders_u8|done].
Qed.

(** Random padding of [len] bytes. *)
Lemma renders_rand r64 r32 len :
0 ≤ len →
zlen (rand_bytes r64 r32 len) = len ∧ Forall is_u8 (rand_bytes r64 r32 len) ∧
renders (tt_buf_put_rand r64 r32 len) (rand_bytes r64 r32 len).
Proof.
  intros Hlen. pose proof (Z.div_mod len 8 ltac:(lia)). pose proof (Z.mod_pos_bound len 8 ltac:(lia)).
  assert (0 ≤ len / 8) by by apply Z.div_pos.
  destruct (renders_rand_u64s r64 (Z.to_nat (len / 8))) as (Hl1 & Hd1 & R1).
  destruct (renders_rand_u8s r32 (Z.to_nat (len mod 8))) as (Hl2 & Hd2 & R2).
  rewrite Z2Nat.id in Hl1, Hl2 by lia. fold (rand_bytes r64 r32 len).
  assert (zlen (rand_bytes r64 r32 len) = len) as Hz
    by (unfold rand_bytes; rewrite zlen_app; lia).
  split_and!; [done|by apply Forall_app|].
  assert (renders (tt_buf_reserve len;; put_rand_u64s r64 (Z.to_nat (len / 8));;
    put_rand_u8s r32 (Z.to_nat (len mod 8))) (rand_bytes r64 r32 len)) as Hr.
  { apply renders_reserve; [lia|]. by apply renders_bind. }
  intros b Hwf Hro Hroom. specialize (Hr b Hwf Hro Hroom).
  unfold tt_buf_put_rand. m_simpl. rewrite Hro.
  destruct (Z.eqb_spec len 0) as [E|E]; [|exact Hr].
  left. exists b. split; [done|]. rewrite (zlen_nil_inv (rand_bytes r64 r32 len)) by lia.
  by apply appended_nil.
Qed.
End write.

Section packets.
Context `{Allocator} {T : Type} `{!SshMsgItf T} `{!SshMsgWire T} `{!SshMsgSized T}.

Definition msg_payload (t : T) : list Z := itf_id :: msg_fields t.

(** Writing the packet of a message: reserve, then the parts in order. *)
Lemma sshmsg_write_spec rand r64 r32 m block_len b :
  msg_valid (body m) → 0 ≤ rand → 0 ≤ pad_block m < 2 → 0 ≤ block_len ≤ 64 →
  buf_wf b → readonly b = false → room b (zlen (msg_payload (body m)) + 400) →
  (∃ padding b', sshmsg_write rand r64 r32 m block_len b = Ret (TT_SUCCESS tt, b') ∧
     buf_wf b' ∧ content b' = content b ++ packet (msg_payload (body m)) padding ∧
     4 ≤ zlen padding < 255 ∧ Forall is_u8 padding ∧
     zlen (packet (msg_payload (body m)) padding)
       mod (if block_len =? 0 then 8 else block_len) = 0) ∨
  (∃ e b', sshmsg_write rand r64 r32 m block_len b = Ret (TT_ERROR e, b') ∧ buf_wf b' ∧
     ¬ reliable b).
Proof.
  intros Hv Hrand Hpb Hbl Hwf Hro [Hr1 Hr2]. set (len := zlen (msg_payload (body m))) in *.
  pose proof (law_small _ Hv). pose proof (zlen_nonneg (msg_fields (body m))).
  assert (len = 1 + zlen (msg_fields (body m))) as Hlen by apply zlen_cons.
  destruct (padlen_aligned rand len block_len (pad_block m)) as (n & Ep & Hn & Hal); [lia..|].
  destruct (renders_rand r64 r32 n) as (Hpl & Hpd & Rp); [lia|].
  set (padding := rand_bytes r64 r32 n) in *.
  unfold sshmsg_write, call. rewrite law_prepare by done.
  erewrite bind_step by (unfold do_r; simpl; reflexivity). rewrite <- Hlen.
  unfold access, __MAX_SSH_PAD_BLOCK. rewrite Ep. erewrite bind_step by reflexivity.
  unfold __MAX_SSH_MAC_LEN. rewrite !u32_small by lia.
  destruct (buf_reserve_spec b (5 + len + n + 32) Hwf Hro) as [(b1 & E & K & Hs)|[E ?]];
    [lia|split; lia| |]; cycle 1.
  { right. exists TT_FAIL, b. split; [|done]. erewrite bind_error; [done|].
    by eapply do_r_error. }
  assert (renders (tt_buf_put_u32_n (1 + len + n);; tt_buf_put_u8 n;;
    do_r TT_FAIL (itf_render (body m));; tt_buf_put_rand r64 r32 n)
    (packet (msg_payload (body m)) padding)) as R.
  { unfold packet. fold len. rewrite Hpl. apply renders_bind; [apply renders_be|].
    apply renders_bind; [apply renders_u8; unfold is_u8; lia|].
    apply renders_bind; [by apply renders_do_r, law_render|done]. }
  pose proof (kept_wpos _ _ K) as Hw. pose proof (kept_mspg _ _ K) as Hm.
  assert (zlen (packet (msg_payload (body m)) padding) = 5 + len + n) as Hzp
    by by rewrite zlen_packet, Hpl.
  rewrite (bind_step _ _ _ _ _ (do_r_step _ TT_FAIL _ _ _ E)).
  destruct (R b1) as [(b2 & E2 & A)|(e & b2 & E2 & ? & ? & Hr)].
  - apply (kept_wf _ _ K).
  - by rewrite (kept_ro _ _ K).
  - rewrite Hzp. split; rewrite ?Hm; lia.
  - left. exists padding, b2. rewrite Hpl. split_and!; try done; try lia.
    + apply (app_wf _ _ _ A).
    + by rewrite (app_content _ _ _ A), (kept_content _ _ K).
    + rewrite Hzp. done.
  - right. exists e, b2. split_and!; [done|done|]. unfold reliable in *. by rewrite Hm in Hr.
Qed.
End packets.

(** ** Peeking at the payload *)

Lemma get_u32_h_spec b :
  buf_wf b →
  tt_buf_get_u32_h b =
    if 4 <=? zlen (content b)
    then Ret (TT_SUCCESS (tt_ntoh32 (le_combine (sub (content b) 0 4))), set_rpos (rpos b + 4) b)
    else Ret (TT_ERROR TT_E_BUF_NOBUFS, b).
Proof.
  intros Hwf. unfold tt_buf_get_u32_h. m_simpl. rewrite buf_get_spec by done.
  by destruct (4 <=? zlen (content b)).
Qed.

Lemma get_u8_spec b :
  buf_wf b →
  tt_buf_get_u8 b =
    if 1 <=? zlen (content b)
    then Ret (TT_SUCCESS (le_combine (sub (content b) 0 1)), set_rpos (rpos b + 1) b)
    else Ret (TT_ERROR TT_E_BUF_NOBUFS, b).
Proof.
  intros Hwf. unfold tt_buf_get_u8. m_simpl. rewrite buf_get_spec by done.
  by destruct (1 <=? zlen (content b)).
Qed.

(** What peeking finds in the readable bytes [c]. *)
Definition peek_result (c : list Z) : result (list Z) :=
  if zlen c <? 5 then TT_ERROR TT_FAIL
  else
    let len := tt_ntoh32 (le_combine (sub c 0 4)) in
    let pad := le_combine (sub c 4 1) in
    if len <? pad + 1 then TT_ERROR TT_FAIL
    else if zlen c - 5 <? len - (pad + 1) then TT_ERROR TT_E_BUF_NOBUFS
    else TT_SUCCESS (sub c 5 (len - (pad + 1))).

(** Peeking at the payload of a packet works on any bytes: it never leaves
    the buffer, never changes it, fails exactly when the five header bytes are
    missing or announce less than their padding, asks for more bytes exactly when
    the announced packet is not complete, and otherwise returns the bytes between
    header and padding. *)
Theorem peek_payload_spec b :
  buf_wf b → tt_sshmsg_peek_payload b = Ret (peek_result (content b), b).
Proof.
  intros Hwf. unfold tt_sshmsg_peek_payload, tt_buf_backup_rwp, tt_buf_restore_rwp, peek_result.
  pose proof (wf_content b Hwf) as Hz. pose proof (wf_pos b Hwf).
  m_simpl. rewrite get_u32_h_spec by done.
  destruct (Z.leb_spec 4 (zlen (content b))) as [H4|H4]; cycle 1.
  { simpl. rewrite (proj2 (Z.ltb_lt _ 5)) by lia. by destruct b. }
  set (b1 := set_rpos (rpos b + 4) b).
  assert (buf_wf b1) as Hwf1 by (apply wf_advance; [done|lia|lia]).
  assert (content b1 = drop (Z.to_nat 4) (content b)) as Hc1
    by by apply content_set_rpos; [|lia].
  assert (zlen (content b1) = zlen (content b) - 4) as Hz1
    by (rewrite Hc1, zlen_drop; lia).
  cbn iota beta. rewrite get_u8_spec by done.
  destruct (Z.leb_spec 1 (zlen (content b1))) as [H5|H5]; cycle 1.
  { simpl. rewrite (proj2 (Z.ltb_lt _ 5)) by lia. by destruct b. }
  rewrite (proj2 (Z.ltb_ge _ 5)) by lia.
  replace (sub (content b1) 0 1) with (sub (content b) 4 1) by by rewrite Hc1.
  set (len := tt_ntoh32 _). set (pad := le_combine (sub (content b) 4 1)).
  pose proof (wf_bytes b Hwf) as Hb.
  assert (Forall is_u8 (content b)) as Hcb by by apply Forall_sub.
  assert (is_u8 pad) as Hpad.
  { pose proof (le_combine_range (sub (content b) 4 1) (Forall_sub _ _ _ _ Hcb)) as Hr.
    rewrite zlen_sub in Hr by lia. exact Hr. }
  assert (is_u32 len) as Hlen.
  { apply (bswap_range 4); [by apply Forall_sub|].
    pose proof (zlen_sub (content b) 0 4). unfold zlen in *. lia. }
  unfold is_u8, is_u32 in *. cbn iota beta. rewrite (u32_small (pad + 1)) by lia.
  destruct (Z.ltb_spec len (pad + 1)); [by destruct b|].
  rewrite (u32_small (len - _)) by lia.
  set (b2 := set_rpos (rpos b1 + 1) b1).
  assert (buf_wf b2) as Hwf2 by (apply wf_advance; [done|lia|lia]).
  assert (TT_BUF_RLEN b2 = zlen (content b) - 5) as ->
    by (rewrite wf_rlen by done; simpl; lia).
  destruct (Z.ltb_spec (zlen (content b) - 5) (len - (pad + 1))); [by destruct b|].
  rewrite buf_read_ok by (done || (simpl; lia)). simpl.
  rewrite sub_content by (done || lia).
  replace (blk b2) with (blk b) by done.
  replace (rpos b + 4 + 1) with (rpos b + 5) by lia. by destruct b.
Qed.

(** The parts of a packet at the start of some bytes. *)
Lemma packet_parts payload padding rest :
  zlen payload + zlen padding < 2 ^ 32 - 1 → zlen padding < 256 →
  let c := packet payload padding ++ rest in
  tt_ntoh32 (le_combine (sub c 0 4)) = 1 + zlen payload + zlen padding ∧
  le_combine (sub c 4 1) = zlen padding ∧ sub c 5 (zlen payload) = payload.
Proof.
  intros Hl Hp c. pose proof (zlen_nonneg payload). pose proof (zlen_nonneg padding).
  set (v := 1 + zlen payload + zlen padding).
  assert (c = be_bytes 4 v ++ [zlen padding] ++ payload ++ padding ++ rest) as ->.
  { unfold c, packet. by rewrite <- !app_assoc. }
  pose proof (zlen_be 4 v) as Hbe. split_and!.
  - replace 4 with (zlen (be_bytes 4 v)) by done. rewrite sub_app_len.
    unfold tt_ntoh32. apply bswap_be. unfold v. simpl. lia.
  - rewrite (sub_app_r' _ _ 4 1) by by rewrite Hbe.
    change (sub ([zlen padding] ++ _) 0 1) with [zlen padding]. simpl. lia.
  - rewrite app_assoc. rewrite sub_app_r' by by rewrite zlen_app, Hbe. apply sub_app_len.
Qed.

Lemma peek_packet payload padding rest :
  zlen payload + zlen padding < 2 ^ 32 - 1 → zlen padding < 256 →
  peek_result (packet payload padding ++ rest) = TT_SUCCESS payload.
Proof.
  intros Hl Hp. pose proof (zlen_nonneg payload). pose proof (zlen_nonneg padding).
  pose proof (zlen_nonneg rest). destruct (packet_parts payload padding rest Hl Hp) as (E1 & E2 & E3).
  unfold peek_result. rewrite E1, E2, zlen_app, zlen_packet.
  rewrite (proj2 (Z.ltb_ge _ 5)) by lia. set (v := 1 + zlen payload + zlen padding).
  rewrite (proj2 (Z.ltb_ge v _)) by lia. rewrite (proj2 (Z.ltb_ge _ (v - _))) by lia.
  replace (v - (zlen padding + 1)) with (zlen payload) by lia. by rewrite E3.
Qed.

Section packet_properties.
Context `{Allocator} {T : Type} `{!SshMsgItf T} `{!SshMsgWire T} `{!SshMsgSized T}.

(** C5: for every message type that keeps the promises of the interface,
    rendering a valid message into a writable buffer with room for it appends one
    well-formed packet (length, padding length, payload, random padding) whose
    size is a multiple of the cipher block, marks the message rendered, and the
    payload of that packet is what peeking at it finds. *)
Theorem render_packet rand r64 r32 (m : tt_sshmsg_t T) block_len b :
msg_valid (body m) → rendered m = false →
0 ≤ rand → 0 ≤ pad_block m < 2 → 0 ≤ block_len ≤ 64 →
buf_wf b → readonly b = false → content b = [] → reliable b →
room b (zlen (msg_payload (body m)) + 400) →
∃ padding b', tt_sshmsg_render rand r64 r32 block_len false (m, b)
    = Ret (TT_SUCCESS tt, (set_rendered true m, b')) ∧
  buf_wf b' ∧ content b' = packet (msg_payload (body m)) padding ∧
  4 ≤ zlen padding < 255 ∧
  zlen (content b') mod (if block_len =? 0 then 8 else block_len) = 0 ∧
  tt_sshmsg_peek_payload b' = Ret (TT_SUCCESS (msg_payload (body m)), b').
Proof.
  intros Hv Hre Hrand Hpb Hbl Hwf Hro Hc Hrel Hroom.
  destruct (sshmsg_write_spec rand r64 r32 m block_len b)
    as [(padding & b' & E & Hwf' & Hc' & Hp & Hpd & Hal)|(? & ? & _ & _ & ?)]; try done.
  rewrite Hc in Hc'. simpl in Hc'. exists padding, b'. rewrite Hc'. split_and!; try done; try lia.
  - unfold tt_sshmsg_render. m_simpl. rewrite Hre. unfold zoom. simpl. by rewrite E.
  - rewrite peek_payload_spec, Hc', <- (app_nil_r (packet _ _)) by done.
    rewrite peek_packet; [done| |lia]. pose proof (law_small _ Hv).
    unfold msg_payload. rewrite zlen_cons. lia.
Qed.
End packet_properties.
