(* ===== verification/SshFields.v ===== *)
(** The steps that the message types share: storing a received string in a blob
    or a buffer, names of enumerations, and the tactics that discharge the
    promises of [SshMsg] field by field. *)

From S2P Require Import Prelude MemSpring Buffer BufferFormat SshDef SshCodec SshMsg.

(** [(len != 0) && !TT_OK(tt_blob_create(blob, addr, len))] fails. *)
Definition opt_blob_create `{Allocator} (d : list Z) (b : tt_blob_t) : M tt_buf_t tt_blob_t :=
  if zlen d =? 0 then mret b
  else do_r TT_FAIL (on_val (tt_blob_create (Some d) (zlen d)) b).

(** [(len == 0) || !TT_OK(tt_blob_create(blob, addr, len))] fails. *)
Definition req_blob_create `{Allocator} (d : list Z) (b : tt_blob_t) : M tt_buf_t tt_blob_t :=
  if zlen d =? 0 then fail TT_FAIL
  else do_r TT_FAIL (on_val (tt_blob_create (Some d) (zlen d)) b).

(** The bytes [TT_BUF_RPOS(buf)], [TT_BUF_RLEN(buf)]. *)
Definition buf_bytes (b : tt_buf_t) : exec (list Z) :=
  match block b with
  | None => if TT_BUF_RLEN b =? 0 then Ret [] else Undef
  | Some l => mem_read l (rpos b) (TT_BUF_RLEN b)
  end.

(** [if (x == TT_..._NUM) return TT_FAIL;] *)
Definition check_enum `{NamedEnum A} (a : A) : M tt_buf_t unit :=
  if enum_valid a then mret tt else fail TT_FAIL.

(** The name of an enumerator on the wire. *)
Definition enum_bytes `{NamedEnum A} (a : A) : list Z :=
  match enum_name a with Ret s => s | _ => [] end.

Lemma enum_bytes_ok `{NamedEnumLaws A} (a : A) :
  enum_valid a = true →
  enum_name a = Ret (enum_bytes a) ∧ enum_match (enum_bytes a) = a ∧
  Forall is_u8 (enum_bytes a) ∧ 0 ≤ zlen (enum_bytes a) ≤ 64.
Proof.
  intros (s & E & Hm & Hs & Hl & _)%enum_named. unfold enum_bytes. rewrite E.
  pose proof (zlen_nonneg s). by split_and!.
Qed.

(** The names of a list of enumerators: [name[i] = table[id[i]]] for each. *)
Definition names_of `{NamedEnum A} (l : list A) : exec (list (list Z)) :=
  foldr (λ a k, exec_bind (enum_name a) (λ n, exec_bind k (λ ns, Ret (n :: ns)))) (Ret []) l.

(** Their name-list. *)
Definition names_wire `{NamedEnum A} (l : list A) : list Z := join_names (map enum_bytes l).

Definition all_named `{NamedEnum A} (l : list A) : Prop := Forall (λ a, enum_valid a = true) l.

Section names.
Context `{NamedEnumLaws A}.
Implicit Types l : list A.

Lemma names_of_ok l : all_named l → names_of l = Ret (map enum_bytes l).
Proof.
  induction 1 as [|a l Ha Hl IH]; [done|]. cbn [names_of foldr map].
  destruct (enum_bytes_ok a Ha) as (-> & _). cbn [exec_bind].
  change (foldr _ _ l) with (names_of l). by rewrite IH.
Qed.

Lemma names_ok l : all_named l → Forall name_ok (map enum_bytes l).
Proof.
  induction 1 as [|a l Ha Hl IH]; constructor; [|done].
  destruct (enum_named a Ha) as (s & E & _ & Hb & _ & Hne & Hc).
  unfold enum_bytes. by rewrite E.
Qed.

Lemma zlen_join_more l : all_named l → zlen (join_more (map enum_bytes l)) ≤ 65 * zlen l.
Proof.
  induction 1 as [|a l' Ha _ IH]; [done|]. cbn [map join_more].
  destruct (enum_bytes_ok a Ha) as (_ & _ & _ & ?).
  rewrite zlen_app, zlen_cons. destruct (_ <? _); rewrite ?zlen_cons, ?zlen_nil; lia.
Qed.

Lemma zlen_names_wire l : all_named l → zlen (names_wire l) ≤ 65 * zlen l.
Proof.
  destruct 1 as [|a l' Ha Hl]; [done|]. unfold names_wire. cbn [map join_names].
  destruct (enum_bytes_ok a Ha) as (_ & _ & _ & ?). pose proof (zlen_join_more l' Hl).
  rewrite zlen_app, zlen_cons. lia.
Qed.

(** Distinct enumerators of a small enumeration have a small name-list. *)
Lemma names_wire_small l :
NoDup l → all_named l → zlen (enum_table (A:=A)) ≤ 16 → zlen (names_wire l) ≤ 1040.
Proof. intros Hn Hv Ht. pose proof (zlen_names_wire l Hv). pose proof (enum_bound l Hn Hv). lia. Qed.

Lemma renders_names_wire `{Allocator} l :
all_named l → zlen (names_wire l) ≤ max_read →
renders (tt_ssh_namelist_render (map enum_bytes l)) (string_bytes (names_wire l)).
Proof. intros Hv Hl. apply renders_namelist; [by apply names_bytes, names_ok|done]. Qed.
End names.

(** A buffer that an object owns by value: writable and without limit. *)
Definition own_buf_ok (b : tt_buf_t) : Prop :=
  buf_wf b ∧ readonly b = false ∧ zlen (content b) ≤ max_read.

Lemma buf_bytes_ok b :
  buf_wf b → zlen (content b) ≤ max_read →
  buf_bytes b = Ret (content b) ∧ TT_BUF_RLEN b = zlen (content b) ∧ str_ok (content b).
Proof.
  intros Hwf Hl. pose proof (wf_pos b Hwf). pose proof (wf_zlen b Hwf).
  unfold buf_bytes. rewrite wf_block, wf_rlen, wf_content by done.
  rewrite mem_read_ok by lia. split; [done|]. split; [done|].
  split; [by apply Forall_sub, wf_bytes|done].
Qed.

Lemma small_buf_ok : own_buf_ok small_buf.
Proof. split; [exact empty_buf_wf|]. by split. Qed.

Section fields.
Context `{Allocator}.

(** *** Blobs *)

Lemma on_blob_create d b s :
on_val (tt_blob_create (Some d) (zlen d)) b s =
  Ret (TT_SUCCESS (mk_blob (BlobBlock d) (zlen d)), s : tt_buf_t) ∨
(on_val (tt_blob_create (Some d) (zlen d)) b s = Ret (TT_ERROR TT_FAIL, s) ∧ ¬ malloc_total).
Proof.
  unfold on_val. destruct (blob_create_ok d b) as [->|[-> ?]]; [by left|by right].
Qed.

(** The blob that holds a received string. *)
Definition blob_holds (d : list Z) (b : tt_blob_t) : Prop := blob_ok b ∧ blob_data b = d.

Lemma blob_holds_new d : str_ok d → blob_holds d (mk_blob (BlobBlock d) (zlen d)).
Proof. by intros. Qed.
Lemma blob_holds_null : blob_holds [] blob_null.
Proof. done. Qed.

Lemma yields_opt_blob d : str_ok d → yields (opt_blob_create d blob_null) [] (blob_holds d).
Proof.
  intros Hd b rest Hwf Hc. unfold opt_blob_create.
  destruct (Z.eqb_spec (zlen d) 0) as [E|E].
  { apply zlen_nil_inv in E as ->. left. exists blob_null.
    rewrite zlen_nil, set_rpos_0. by split; [|apply blob_holds_null]. }
  destruct (on_blob_create d blob_null b) as [E1|[E1 ?]]; [left|right].
  - eexists. rewrite zlen_nil, set_rpos_0. split; [by apply do_r_step|by apply blob_holds_new].
  - exists TT_FAIL, b. split; [by eapply do_r_error|done].
Qed.

Lemma yields_req_blob d :
str_ok d → d ≠ [] → yields (req_blob_create d blob_null) [] (blob_holds d).
Proof.
  intros Hd Hne. pose proof (yields_opt_blob d Hd) as Hy. unfold opt_blob_create in Hy.
  unfold req_blob_create. by rewrite zlen_pos in *.
Qed.

Lemma reads_on_blob d b :
str_ok d → reads (on_val (tt_blob_create (Some d) (zlen d)) b) blob_ok.
Proof.
  intros Hd s Hwf Hmax. pose proof (zlen_nonneg (content s)).
  destruct (on_blob_create d b s) as [E|[E _]]; rewrite E; eexists _, 0;
    rewrite set_rpos_0; (split; [done|]); (split; [lia|]).
  - by apply blob_holds_new.
  - done.
Qed.

Lemma reads_opt_blob d b : str_ok d → blob_ok b → reads (opt_blob_create d b) blob_ok.
Proof.
  intros. unfold opt_blob_create. destruct (_ =? _); [by apply reads_ret|].
  by apply reads_do_r, reads_on_blob.
Qed.

Lemma reads_req_blob d b :
str_ok d → reads (req_blob_create d b) (λ b', blob_ok b' ∧ blob_data b' ≠ []).
Proof.
  intros Hd. unfold req_blob_create. destruct (Z.eqb_spec (zlen d) 0) as [|Hz];
    [apply reads_fail|]. apply reads_do_r.
  intros s Hwf Hmax. pose proof (zlen_nonneg (content s)).
  destruct (on_blob_create d b s) as [E|[E _]]; rewrite E; eexists _, 0;
    rewrite set_rpos_0; (split; [done|]); (split; [lia|]); [|done].
  split; [by apply blob_holds_new|]. unfold blob_data. simpl. intros ->. done.
Qed.

(** *** Buffers held by value *)

Lemma own_put d (b : tt_buf_t) :
str_ok d → b = small_buf →
(∃ b', tt_buf_put d b = Ret (TT_SUCCESS tt, b') ∧ own_buf_ok b' ∧ content b' = d) ∨
(∃ e b', tt_buf_put d b = Ret (TT_ERROR e, b') ∧ ¬ malloc_total).
Proof.
  intros [Hd Hl] ->. pose proof (zlen_nonneg d). unfold max_read in *.
  destruct (renders_put d Hd small_buf empty_buf_wf eq_refl) as [(b' & E & A)|(e & b' & E & _ & _ & Hr)].
  - split; simpl; lia.
  - left. exists b'. split; [done|]. pose proof (app_content _ _ _ A) as Hc.
    change (content small_buf) with (@nil Z) in Hc. simpl in Hc. split; [|done]. split_and!.
    + apply (app_wf _ _ _ A).
    + by rewrite (app_ro _ _ _ A).
    + by rewrite Hc.
  - right. exists e, b'. split; [done|]. intros Ht. by apply Hr.
Qed.

Lemma yields_own_put d :
str_ok d →
yields (on_val (tt_buf_put d) small_buf) [] (λ b, own_buf_ok b ∧ content b = d).
Proof.
  intros Hd b rest Hwf Hc. unfold on_val. rewrite zlen_nil, set_rpos_0.
  destruct (own_put d small_buf Hd eq_refl) as [(b' & -> & ?)|(e & b' & -> & ?)]; eauto.
Qed.

Lemma reads_own_put d : str_ok d → reads (on_val (tt_buf_put d) small_buf) own_buf_ok.
Proof.
  intros Hd b Hwf Hmax. unfold on_val. pose proof (zlen_nonneg (content b)).
  destruct (own_put d small_buf Hd eq_refl) as [(b' & -> & ? & _)|(e & b' & -> & ?)];
    eexists _, 0; rewrite set_rpos_0; (split; [done|]); (split; [lia|done]).
Qed.

(** Resetting the positions of a new buffer changes nothing. *)
Lemma on_val_reset (k : M tt_buf_t unit) :
on_val (S:=tt_buf_t) (tt_buf_reset_rwp;; k) small_buf = on_val k small_buf.
Proof. done. Qed.

(** *** Enumerations by name *)

Lemma renders_enum `{NamedEnumLaws A} (a : A) s :
enum_name a = Ret s → Forall is_u8 s →
renders (n ← access (enum_name a); tt_ssh_string_render n) (string_bytes s).
Proof. intros E Hs. eapply renders_access; [done|]. by apply renders_string. Qed.

Lemma yields_check `{NamedEnum A} (a : A) :
enum_valid a = true → yields (check_enum a) [] (λ _, True).
Proof. unfold check_enum. intros ->. by apply yields_ret. Qed.

Lemma reads_check `{NamedEnum A} (a : A) : reads (check_enum a) (λ _, enum_valid a = true).
Proof. unfold check_enum. destruct (enum_valid a); [by apply reads_ret|apply reads_fail]. Qed.
End fields.

#[export] Hint Resolve blob_null_ok reads_opt_blob reads_req_blob reads_own_put reads_check : codec.
#[export] Hint Resolve yields_opt_blob yields_req_blob yields_own_put yields_check : codec.

#[export] Hint Extern 2 (is_u8 _) => (split; [discriminate|reflexivity]) : codec.

(** ** Tactics *)

(** A rendering, one field after the other. *)
Ltac render_field :=
  lazymatch goal with
  | |- renders (tt_ssh_byte_render _) _ => apply renders_byte; by split
  | |- renders (tt_ssh_boolean_render _) _ => apply renders_bool
  | |- renders (tt_ssh_uint32_render _) _ => apply renders_uint32
  | |- renders (tt_ssh_string_render _) _ => apply renders_string; auto with codec
  | |- renders (tt_ssh_namelist_render _) _ => apply renders_namelist; auto with codec
  | |- renders (mbind _ (access _)) _ => eapply renders_access; [eassumption|render_field]
  | |- renders (mbind _ _) (_ ++ _) => apply renders_bind; render_field
  end.
Ltac solve_renders :=
  lazymatch goal with |- renders _ (?x :: ?l) => change (x :: l) with ([x] ++ l) end;
  render_field.

(** Parsing arbitrary bytes, one field after the other. *)
Ltac solve_reads :=
  repeat (eapply reads_bind; [solve [eauto with codec]|intros ? ?]);
  apply reads_ret.

(** Parsing what was rendered, one field after the other; what is not the
    parsing of a field is left. *)
Ltac size_tac :=
  unfold max_read in *; repeat match goal with
    | |- context [zlen ?l] => unless (0 ≤ zlen l) by assumption; pose proof (zlen_nonneg l)
  end; lia.
Ltac parse_field :=
  lazymatch goal with
  | |- parses tt_ssh_uint32_parse _ _ => apply parses_uint32; assumption
  | |- parses tt_ssh_boolean_parse _ _ => apply parses_bool
  | |- parses tt_ssh_string_parse _ _ => apply parses_string; size_tac
  end.
Ltac solve_accepts :=
  repeat lazymatch goal with
    | |- accepts (mbind _ _) (_ ++ _) _ => eapply accepts_then; [parse_field|cbn beta]
    | |- accepts (mbind _ ?m) _ _ =>
        lazymatch m with
        | tt_ssh_uint32_parse => eapply accepts_last; [parse_field|cbn beta]
        | tt_ssh_boolean_parse => eapply accepts_last; [parse_field|cbn beta]
        | tt_ssh_string_parse => eapply accepts_last; [parse_field|cbn beta]
        end
    end;
  try apply accepts_ret.

(** The length that a [render_prepare] sums up step by step. *)
Ltac prepare_tac :=
  unfold tt_ssh_byte_render_prepare, tt_ssh_boolean_render_prepare,
    tt_ssh_uint32_render_prepare, tt_ssh_string_render_prepare, max_read in *;
  autorewrite with zlen;
  repeat match goal with
    | |- context [zlen ?l] =>
        lazymatch goal with
        | _ : 0 ≤ zlen l |- _ => fail
        | _ : 0 ≤ zlen l ≤ _ |- _ => fail
        | _ => pose proof (zlen_nonneg l)
        end
    end;
  repeat match goal with
    | |- context [u32 ?x] =>
        lazymatch x with context [u32 _] => fail | _ => rewrite (u32_small x) by lia end
    end;
  do 3 f_equal; lia.
