(* ===== verification/SshMsgChannel.v ===== *)
(** The channel messages of the SSH connection protocol (RFC 4254): one module
    per message type with its fields, its operations and the proof that it keeps
    the promises of [SshMsg]. *)

From S2P Require Import Prelude MemSpring Buffer BufferFormat SshDef SshCodec SshMsg.
From S2P Require Import SshFields.

(** *** Channel close: network/ssh/message/tt_ssh_msg_channel_close.c *)

Module Chclose.
Record tt_sshmsg_chclose_t : Type := mk { rcv_chnum : Z }.

Section chclose.
Context `{Allocator}.

Definition __chclose_render_prepare (chclose : tt_sshmsg_chclose_t)
  : exec (result (Z * tt_ssh_render_mode_t)) :=
  let msg_len := tt_ssh_byte_render_prepare in
  let msg_len := u32 (msg_len + tt_ssh_uint32_render_prepare) in
  Ret (TT_SUCCESS (msg_len, TT_SSH_RENDER_MODE_BINARY)).

Definition __chclose_render (chclose : tt_sshmsg_chclose_t) : M tt_buf_t unit :=
  tt_ssh_byte_render TT_SSH_MSGID_CHANNEL_CLOSE;;
  tt_ssh_uint32_render (rcv_chnum chclose).

Definition __chclose_parse (chclose : tt_sshmsg_chclose_t) : M tt_buf_t tt_sshmsg_chclose_t :=
  rcv_chnum ← tt_ssh_uint32_parse;
  mret (mk rcv_chnum).

#[global] Instance __chclose_op : SshMsgItf tt_sshmsg_chclose_t := {|
  itf_id := TT_SSH_MSGID_CHANNEL_CLOSE;
  itf_zero := mk 0;
  itf_create t := Ret (TT_SUCCESS t);
  itf_save := false;
  itf_destroy := mret tt;
  itf_render_prepare := __chclose_render_prepare;
  itf_render := __chclose_render;
  itf_parse := __chclose_parse;
|}.

Definition tt_sshmsg_chclose_create : (Z → Z) → exec (option (tt_sshmsg_t tt_sshmsg_chclose_t)) :=
  tt_sshmsg_create.

Definition tt_sshmsg_chclose_set_rcvchnum (n : Z) : M (tt_sshmsg_t tt_sshmsg_chclose_t) unit :=
  on_msg TT_SSH_MSGID_CHANNEL_CLOSE (modify (λ _, mk n)).

#[global] Instance chclose_safe : SshMsgSafe tt_sshmsg_chclose_t.
Proof.
  refine {| msg_init := mk 0; msg_parsed t := is_u32 (rcv_chnum t) |}; [done|].
  unfold itf_parse. cbn. unfold __chclose_parse. solve_reads. done.
Defined.

#[global] Instance chclose_wire : SshMsgWire tt_sshmsg_chclose_t.
Proof.
  refine {| msg_valid t := is_u32 (rcv_chnum t); msg_fields t := be_bytes 4 (rcv_chnum t) |}.
  - done.
  - intros. by rewrite zlen_be.
  - intros t Ht. cbn. unfold __chclose_render. solve_renders.
Defined.

#[global] Instance chclose_sized : SshMsgSized tt_sshmsg_chclose_t.
Proof. intros t Ht. cbn. by rewrite zlen_be. Qed.

#[global] Instance chclose_roundtrip : SshMsgRoundtrip tt_sshmsg_chclose_t.
Proof.
  refine {| msg_same := eq |}. intros t Ht. cbn in *. unfold __chclose_parse.
  solve_accepts. by destruct t.
Defined.
End chclose.
End Chclose.

(** *** Channel end of file: network/ssh/message/tt_ssh_msg_channel_eof.c *)

Module Cheof.
Record tt_sshmsg_cheof_t : Type := mk { rcv_chnum : Z }.

Section cheof.
Context `{Allocator}.

Definition __cheof_render_prepare (cheof : tt_sshmsg_cheof_t)
  : exec (result (Z * tt_ssh_render_mode_t)) :=
  let msg_len := tt_ssh_byte_render_prepare in
  let msg_len := u32 (msg_len + tt_ssh_uint32_render_prepare) in
  Ret (TT_SUCCESS (msg_len, TT_SSH_RENDER_MODE_BINARY)).

Definition __cheof_render (cheof : tt_sshmsg_cheof_t) : M tt_buf_t unit :=
  tt_ssh_byte_render TT_SSH_MSGID_CHANNEL_EOF;;
  tt_ssh_uint32_render (rcv_chnum cheof).

Definition __cheof_parse (cheof : tt_sshmsg_cheof_t) : M tt_buf_t tt_sshmsg_cheof_t :=
  rcv_chnum ← tt_ssh_uint32_parse;
  mret (mk rcv_chnum).

#[global] Instance __cheof_op : SshMsgItf tt_sshmsg_cheof_t := {|
  itf_id := TT_SSH_MSGID_CHANNEL_EOF;
  itf_zero := mk 0;
  itf_create t := Ret (TT_SUCCESS t);
  itf_save := false;
  itf_destroy := mret tt;
  itf_render_prepare := __cheof_render_prepare;
  itf_render := __cheof_render;
  itf_parse := __cheof_parse;
|}.

Definition tt_sshmsg_cheof_create : (Z → Z) → exec (option (tt_sshmsg_t tt_sshmsg_cheof_t)) :=
  tt_sshmsg_create.

Definition tt_sshmsg_cheof_set_rcvchnum (n : Z) : M (tt_sshmsg_t tt_sshmsg_cheof_t) unit :=
  on_msg TT_SSH_MSGID_CHANNEL_EOF (modify (λ _, mk n)).

#[global] Instance cheof_safe : SshMsgSafe tt_sshmsg_cheof_t.
Proof.
  refine {| msg_init := mk 0; msg_parsed t := is_u32 (rcv_chnum t) |}; [done|].
  unfold itf_parse. cbn. unfold __cheof_parse. solve_reads. done.
Defined.

#[global] Instance cheof_wire : SshMsgWire tt_sshmsg_cheof_t.
Proof.
  refine {| msg_valid t := is_u32 (rcv_chnum t); msg_fields t := be_bytes 4 (rcv_chnum t) |}.
  - done.
  - intros. by rewrite zlen_be.
  - intros t Ht. cbn. unfold __cheof_render. solve_renders.
Defined.

#[global] Instance cheof_sized : SshMsgSized tt_sshmsg_cheof_t.
Proof. intros t Ht. cbn. by rewrite zlen_be. Qed.

#[global] Instance cheof_roundtrip : SshMsgRoundtrip tt_sshmsg_cheof_t.
Proof.
  refine {| msg_same := eq |}. intros t Ht. cbn in *. unfold __cheof_parse.
  solve_accepts. by destruct t.
Defined.
End cheof.
End Cheof.

(** *** Channel success: network/ssh/message/tt_ssh_msg_channel_success.c *)

Module Chsucc.
Record tt_sshmsg_chsucc_t : Type := mk { rcv_chnum : Z }.

Section chsucc.
Context `{Allocator}.

Definition __chsucc_render_prepare (chsucc : tt_sshmsg_chsucc_t)
  : exec (result (Z * tt_ssh_render_mode_t)) :=
  let msg_len := tt_ssh_byte_render_prepare in
  let msg_len := u32 (msg_len + tt_ssh_uint32_render_prepare) in
  Ret (TT_SUCCESS (msg_len, TT_SSH_RENDER_MODE_BINARY)).

Definition __chsucc_render (chsucc : tt_sshmsg_chsucc_t) : M tt_buf_t unit :=
  tt_ssh_byte_render TT_SSH_MSGID_CHANNEL_SUCCESS;;
  tt_ssh_uint32_render (rcv_chnum chsucc).

Definition __chsucc_parse (chsucc : tt_sshmsg_chsucc_t) : M tt_buf_t tt_sshmsg_chsucc_t :=
  rcv_chnum ← tt_ssh_uint32_parse;
  mret (mk rcv_chnum).

#[global] Instance __chsucc_op : SshMsgItf tt_sshmsg_chsucc_t := {|
  itf_id := TT_SSH_MSGID_CHANNEL_SUCCESS;
  itf_zero := mk 0;
  itf_create t := Ret (TT_SUCCESS t);
  itf_save := false;
  itf_destroy := mret tt;
  itf_render_prepare := __chsucc_render_prepare;
  itf_render := __chsucc_render;
  itf_parse := __chsucc_parse;
|}.

Definition tt_sshmsg_chsucc_create : (Z → Z) → exec (option (tt_sshmsg_t tt_sshmsg_chsucc_t)) :=
  tt_sshmsg_create.

Definition tt_sshmsg_chsucc_set_rcvchnum (n : Z) : M (tt_sshmsg_t tt_sshmsg_chsucc_t) unit :=
  on_msg TT_SSH_MSGID_CHANNEL_SUCCESS (modify (λ _, mk n)).

#[global] Instance chsucc_safe : SshMsgSafe tt_sshmsg_chsucc_t.
Proof.
  refine {| msg_init := mk 0; msg_parsed t := is_u32 (rcv_chnum t) |}; [done|].
  unfold itf_parse. cbn. unfold __chsucc_parse. solve_reads. done.
Defined.

#[global] Instance chsucc_wire : SshMsgWire tt_sshmsg_chsucc_t.
Proof.
  refine {| msg_valid t := is_u32 (rcv_chnum t); msg_fields t := be_bytes 4 (rcv_chnum t) |}.
  - done.
  - intros. by rewrite zlen_be.
  - intros t Ht. cbn. unfold __chsucc_render. solve_renders.
Defined.

#[global] Instance chsucc_sized : SshMsgSized tt_sshmsg_chsucc_t.
Proof. intros t Ht. cbn. by rewrite zlen_be. Qed.

#[global] Instance chsucc_roundtrip : SshMsgRoundtrip tt_sshmsg_chsucc_t.
Proof.
  refine {| msg_same := eq |}. intros t Ht. cbn in *. unfold __chsucc_parse.
  solve_accepts. by destruct t.
Defined.
End chsucc.
End Chsucc.

(** *** Channel failure: network/ssh/message/tt_ssh_msg_channel_failure.c *)

Module Chfail.
Record tt_sshmsg_chfail_t : Type := mk { rcv_chnum : Z }.

Section chfail.
Context `{Allocator}.

Definition __chfail_render_prepare (chfail : tt_sshmsg_chfail_t)
  : exec (result (Z * tt_ssh_render_mode_t)) :=
  let msg_len := tt_ssh_byte_render_prepare in
  let msg_len := u32 (msg_len + tt_ssh_uint32_render_prepare) in
  Ret (TT_SUCCESS (msg_len, TT_SSH_RENDER_MODE_BINARY)).

Definition __chfail_render (chfail : tt_sshmsg_chfail_t) : M tt_buf_t unit :=
  tt_ssh_byte_render TT_SSH_MSGID_CHANNEL_FAILURE;;
  tt_ssh_uint32_render (rcv_chnum chfail).

Definition __chfail_parse (chfail : tt_sshmsg_chfail_t) : M tt_buf_t tt_sshmsg_chfail_t :=
  rcv_chnum ← tt_ssh_uint32_parse;
  mret (mk rcv_chnum).

#[global] Instance __chfail_op : SshMsgItf tt_sshmsg_chfail_t := {|
  itf_id := TT_SSH_MSGID_CHANNEL_FAILURE;
  itf_zero := mk 0;
  itf_create t := Ret (TT_SUCCESS t);
  itf_save := false;
  itf_destroy := mret tt;
  itf_render_prepare := __chfail_render_prepare;
  itf_render := __chfail_render;
  itf_parse := __chfail_parse;
|}.

Definition tt_sshmsg_chfail_create : (Z → Z) → exec (option (tt_sshmsg_t tt_sshmsg_chfail_t)) :=
  tt_sshmsg_create.

Definition tt_sshmsg_chfail_set_rcvchnum (n : Z) : M (tt_sshmsg_t tt_sshmsg_chfail_t) unit :=
  on_msg TT_SSH_MSGID_CHANNEL_FAILURE (modify (λ _, mk n)).

#[global] Instance chfail_safe : SshMsgSafe tt_sshmsg_chfail_t.
Proof.
  refine {| msg_init := mk 0; msg_parsed t := is_u32 (rcv_chnum t) |}; [done|].
  unfold itf_parse. cbn. unfold __chfail_parse. solve_reads. done.
Defined.

#[global] Instance chfail_wire : SshMsgWire tt_sshmsg_chfail_t.
Proof.
  refine {| msg_valid t := is_u32 (rcv_chnum t); msg_fields t := be_bytes 4 (rcv_chnum t) |}.
  - done.
  - intros. by rewrite zlen_be.
  - intros t Ht. cbn. unfold __chfail_render. solve_renders.
Defined.

#[global] Instance chfail_sized : SshMsgSized tt_sshmsg_chfail_t.
Proof. intros t Ht. cbn. by rewrite zlen_be. Qed.

#[global] Instance chfail_roundtrip : SshMsgRoundtrip tt_sshmsg_chfail_t.
Proof.
  refine {| msg_same := eq |}. intros t Ht. cbn in *. unfold __chfail_parse.
  solve_accepts. by destruct t.
Defined.
End chfail.
End Chfail.

(** *** Window adjustment: network/ssh/message/tt_ssh_msg_channel_window_adjust.c *)

Module Chwinadj.
Record tt_sshmsg_chwinadj_t : Type := mk { rcv_chnum : Z; capacity : Z }.

Section chwinadj.
Context `{Allocator}.

Definition __chwinadj_render_prepare (chwinadj : tt_sshmsg_chwinadj_t)
  : exec (result (Z * tt_ssh_render_mode_t)) :=
  let msg_len := tt_ssh_byte_render_prepare in
  let msg_len := u32 (msg_len + tt_ssh_uint32_render_prepare) in
  let msg_len := u32 (msg_len + tt_ssh_uint32_render_prepare) in
  Ret (TT_SUCCESS (msg_len, TT_SSH_RENDER_MODE_BINARY)).

Definition __chwinadj_render (chwinadj : tt_sshmsg_chwinadj_t) : M tt_buf_t unit :=
  tt_ssh_byte_render TT_SSH_MSGID_CHANNEL_WINDOW_ADJUST;;
  tt_ssh_uint32_render (rcv_chnum chwinadj);;
  tt_ssh_uint32_render (capacity chwinadj).

Definition __chwinadj_parse (chwinadj : tt_sshmsg_chwinadj_t) : M tt_buf_t tt_sshmsg_chwinadj_t :=
  rcv_chnum ← tt_ssh_uint32_parse;
  capacity ← tt_ssh_uint32_parse;
  mret (mk rcv_chnum capacity).

#[global] Instance __chwinadj_op : SshMsgItf tt_sshmsg_chwinadj_t := {|
  itf_id := TT_SSH_MSGID_CHANNEL_WINDOW_ADJUST;
  itf_zero := mk 0 0;
  itf_create t := Ret (TT_SUCCESS t);
  itf_save := false;
  itf_destroy := mret tt;
  itf_render_prepare := __chwinadj_render_prepare;
  itf_render := __chwinadj_render;
  itf_parse := __chwinadj_parse;
|}.

Definition tt_sshmsg_chwinadj_create : (Z → Z) → exec (option (tt_sshmsg_t tt_sshmsg_chwinadj_t)) :=
  tt_sshmsg_create.

Definition tt_sshmsg_chwinadj_set_rcvchnum (n : Z) : M (tt_sshmsg_t tt_sshmsg_chwinadj_t) unit :=
  on_msg TT_SSH_MSGID_CHANNEL_WINDOW_ADJUST (modify (λ t, mk n (capacity t))).

Definition tt_sshmsg_chwinadj_set_capacity (n : Z) : M (tt_sshmsg_t tt_sshmsg_chwinadj_t) unit :=
  on_msg TT_SSH_MSGID_CHANNEL_WINDOW_ADJUST (modify (λ t, mk (rcv_chnum t) n)).

#[global] Instance chwinadj_safe : SshMsgSafe tt_sshmsg_chwinadj_t.
Proof.
  refine {| msg_init := mk 0 0;
    msg_parsed t := is_u32 (rcv_chnum t) ∧ is_u32 (capacity t) |}; [done|].
  cbn. unfold __chwinadj_parse. solve_reads. by split_and!.
Defined.

#[global] Instance chwinadj_wire : SshMsgWire tt_sshmsg_chwinadj_t.
Proof.
  refine {| msg_valid t := is_u32 (rcv_chnum t) ∧ is_u32 (capacity t);
    msg_fields t := be_bytes 4 (rcv_chnum t) ++ be_bytes 4 (capacity t) |}.
  - done.
  - intros. by autorewrite with zlen.
  - intros t Ht. cbn. unfold __chwinadj_render. solve_renders.
Defined.

#[global] Instance chwinadj_sized : SshMsgSized tt_sshmsg_chwinadj_t.
Proof. intros t Ht. cbn. by autorewrite with zlen. Qed.

#[global] Instance chwinadj_roundtrip : SshMsgRoundtrip tt_sshmsg_chwinadj_t.
Proof.
  refine {| msg_same := eq |}. intros t (? & ?). cbn. unfold __chwinadj_parse.
  solve_accepts. by destruct t.
Defined.
End chwinadj.
End Chwinadj.

(** *** Channel open confirmation: network/ssh/message/tt_ssh_msg_channel_open_confirmation.c *)

Module Chopc.
Record tt_sshmsg_chopc_t : Type := mk { rcv_chnum : Z; snd_chnum : Z; window_size : Z; packet_size : Z }.

Section chopc.
Context `{Allocator}.

Definition __chopc_render_prepare (chopc : tt_sshmsg_chopc_t)
  : exec (result (Z * tt_ssh_render_mode_t)) :=
  let msg_len := tt_ssh_byte_render_prepare in
  let msg_len := u32 (msg_len + Z.shiftl tt_ssh_uint32_render_prepare 2) in
  Ret (TT_SUCCESS (msg_len, TT_SSH_RENDER_MODE_BINARY)).

Definition __chopc_render (chopc : tt_sshmsg_chopc_t) : M tt_buf_t unit :=
  tt_ssh_byte_render TT_SSH_MSGID_CHANNEL_OPEN_CONFIRMATION;;
  tt_ssh_uint32_render (rcv_chnum chopc);;
  tt_ssh_uint32_render (snd_chnum chopc);;
  tt_ssh_uint32_render (window_size chopc);;
  tt_ssh_uint32_render (packet_size chopc).

Definition __chopc_parse (chopc : tt_sshmsg_chopc_t) : M tt_buf_t tt_sshmsg_chopc_t :=
  rcv_chnum ← tt_ssh_uint32_parse;
  snd_chnum ← tt_ssh_uint32_parse;
  window_size ← tt_ssh_uint32_parse;
  packet_size ← tt_ssh_uint32_parse;
  mret (mk rcv_chnum snd_chnum window_size packet_size).

#[global] Instance __chopc_op : SshMsgItf tt_sshmsg_chopc_t := {|
  itf_id := TT_SSH_MSGID_CHANNEL_OPEN_CONFIRMATION;
  itf_zero := mk 0 0 0 0;
  itf_create t := Ret (TT_SUCCESS t);
  itf_save := false;
  itf_destroy := mret tt;
  itf_render_prepare := __chopc_render_prepare;
  itf_render := __chopc_render;
  itf_parse := __chopc_parse;
|}.

Definition tt_sshmsg_chopc_create : (Z → Z) → exec (option (tt_sshmsg_t tt_sshmsg_chopc_t)) :=
  tt_sshmsg_create.

Definition tt_sshmsg_chopc_set_rcvchnum (n : Z) : M (tt_sshmsg_t tt_sshmsg_chopc_t) unit :=
  on_msg TT_SSH_MSGID_CHANNEL_OPEN_CONFIRMATION (modify (λ t, mk n (snd_chnum t) (window_size t) (packet_size t))).

Definition tt_sshmsg_chopc_set_sndchnum (n : Z) : M (tt_sshmsg_t tt_sshmsg_chopc_t) unit :=
  on_msg TT_SSH_MSGID_CHANNEL_OPEN_CONFIRMATION (modify (λ t, mk (rcv_chnum t) n (window_size t) (packet_size t))).

Definition tt_sshmsg_chopc_set_winsize (n : Z) : M (tt_sshmsg_t tt_sshmsg_chopc_t) unit :=
  on_msg TT_SSH_MSGID_CHANNEL_OPEN_CONFIRMATION (modify (λ t, mk (rcv_chnum t) (snd_chnum t) n (packet_size t))).

Definition tt_sshmsg_chopc_set_pktsize (n : Z) : M (tt_sshmsg_t tt_sshmsg_chopc_t) unit :=
  on_msg TT_SSH_MSGID_CHANNEL_OPEN_CONFIRMATION (modify (λ t, mk (rcv_chnum t) (snd_chnum t) (window_size t) n)).

#[global] Instance chopc_safe : SshMsgSafe tt_sshmsg_chopc_t.
Proof.
  refine {| msg_init := mk 0 0 0 0;
    msg_parsed t := is_u32 (rcv_chnum t) ∧ is_u32 (snd_chnum t) ∧ is_u32 (window_size t) ∧ is_u32 (packet_size t) |}; [done|].
  cbn. unfold __chopc_parse. solve_reads. by split_and!.
Defined.

#[global] Instance chopc_wire : SshMsgWire tt_sshmsg_chopc_t.
Proof.
  refine {| msg_valid t := is_u32 (rcv_chnum t) ∧ is_u32 (snd_chnum t) ∧ is_u32 (window_size t) ∧ is_u32 (packet_size t);
    msg_fields t := be_bytes 4 (rcv_chnum t) ++ be_bytes 4 (snd_chnum t) ++ be_bytes 4 (window_size t) ++ be_bytes 4 (packet_size t) |}.
  - done.
  - intros. by autorewrite with zlen.
  - intros t Ht. cbn. unfold __chopc_render. solve_renders.
Defined.

#[global] Instance chopc_sized : SshMsgSized tt_sshmsg_chopc_t.
Proof. intros t Ht. cbn. by autorewrite with zlen. Qed.

#[global] Instance chopc_roundtrip : SshMsgRoundtrip tt_sshmsg_chopc_t.
Proof.
  refine {| msg_same := eq |}. intros t (? & ? & ? & ?). cbn. unfold __chopc_parse.
  solve_accepts. by destruct t.
Defined.
End chopc.
End Chopc.

(** *** Channel open: network/ssh/message/tt_ssh_msg_channel_open.c *)

Module Chopen.
Record tt_sshmsg_chopen_t : Type := mk {
  type : tt_ssh_chtype_t;
  snd_chnum : Z;
  window_size : Z;
  packet_size : Z;
}.

Section chopen.
Context `{Allocator}.

Definition __chopen_create (chopen : tt_sshmsg_chopen_t) : exec (result tt_sshmsg_chopen_t) :=
  Ret (TT_SUCCESS (mk TT_SSH_CHTYPE_NUM 0 0 0)).

Definition __chopen_render_prepare (chopen : tt_sshmsg_chopen_t)
  : exec (result (Z * tt_ssh_render_mode_t)) :=
  if negb (enum_valid (type chopen)) then Ret (TT_ERROR TT_FAIL)
  else
    let msg_len := tt_ssh_byte_render_prepare in
    exec_bind (enum_name (type chopen)) (λ name,
      let msg_len := u32 (msg_len + tt_ssh_string_render_prepare (zlen name)) in
      let msg_len := u32 (msg_len + tt_ssh_uint32_render_prepare) in
      let msg_len := u32 (msg_len + tt_ssh_uint32_render_prepare) in
      let msg_len := u32 (msg_len + tt_ssh_uint32_render_prepare) in
      Ret (TT_SUCCESS (msg_len, TT_SSH_RENDER_MODE_BINARY))).

Definition __chopen_render (chopen : tt_sshmsg_chopen_t) : M tt_buf_t unit :=
  tt_ssh_byte_render TT_SSH_MSGID_CHANNEL_OPEN;;
  (name ← access (enum_name (type chopen)); tt_ssh_string_render name);;
  tt_ssh_uint32_render (snd_chnum chopen);;
  tt_ssh_uint32_render (window_size chopen);;
  tt_ssh_uint32_render (packet_size chopen).

Definition __chopen_parse (chopen : tt_sshmsg_chopen_t) : M tt_buf_t tt_sshmsg_chopen_t :=
  name ← tt_ssh_string_parse;
  let type := tt_ssh_chtype_match name in
  check_enum type;;
  snd_chnum ← tt_ssh_uint32_parse;
  window_size ← tt_ssh_uint32_parse;
  packet_size ← tt_ssh_uint32_parse;
  mret (mk type snd_chnum window_size packet_size).

#[global] Instance __chopen_op : SshMsgItf tt_sshmsg_chopen_t := {|
  itf_id := TT_SSH_MSGID_CHANNEL_OPEN;
  itf_zero := mk TT_SSH_CHTYPE_SESSION 0 0 0;
  itf_create := __chopen_create;
  itf_save := false;
  itf_destroy := mret tt;
  itf_render_prepare := __chopen_render_prepare;
  itf_render := __chopen_render;
  itf_parse := __chopen_parse;
|}.

Definition tt_sshmsg_chopen_create : (Z → Z) → exec (option (tt_sshmsg_t tt_sshmsg_chopen_t)) :=
  tt_sshmsg_create.

Definition tt_sshmsg_chopen_set_type (ty : tt_ssh_chtype_t)
  : M (tt_sshmsg_t tt_sshmsg_chopen_t) unit :=
  on_msg TT_SSH_MSGID_CHANNEL_OPEN
    (assert_always (enum_valid ty);;
     modify (λ t, mk ty (snd_chnum t) (window_size t) (packet_size t))).
Definition tt_sshmsg_chopen_set_sndchnum (n : Z) : M (tt_sshmsg_t tt_sshmsg_chopen_t) unit :=
  on_msg TT_SSH_MSGID_CHANNEL_OPEN
    (modify (λ t, mk (type t) n (window_size t) (packet_size t))).
Definition tt_sshmsg_chopen_set_winsize (n : Z) : M (tt_sshmsg_t tt_sshmsg_chopen_t) unit :=
  on_msg TT_SSH_MSGID_CHANNEL_OPEN
    (modify (λ t, mk (type t) (snd_chnum t) n (packet_size t))).
Definition tt_sshmsg_chopen_set_pktsize (n : Z) : M (tt_sshmsg_t tt_sshmsg_chopen_t) unit :=
  on_msg TT_SSH_MSGID_CHANNEL_OPEN
    (modify (λ t, mk (type t) (snd_chnum t) (window_size t) n)).

Definition chopen_ok (t : tt_sshmsg_chopen_t) : Prop :=
  enum_valid (type t) = true ∧ is_u32 (snd_chnum t) ∧ is_u32 (window_size t) ∧
  is_u32 (packet_size t).

#[global] Instance chopen_safe : SshMsgSafe tt_sshmsg_chopen_t.
Proof.
  refine {| msg_init := mk TT_SSH_CHTYPE_NUM 0 0 0; msg_parsed := chopen_ok |}; [done|].
  cbn. unfold __chopen_parse. solve_reads. by split_and!.
Defined.

#[global] Instance chopen_wire : SshMsgWire tt_sshmsg_chopen_t.
Proof.
  refine {| msg_valid := chopen_ok;
    msg_fields t := string_bytes (enum_bytes (type t)) ++ be_bytes 4 (snd_chnum t) ++
      be_bytes 4 (window_size t) ++ be_bytes 4 (packet_size t) |}.
  - done.
  - intros t ((_ & _ & _ & ?)%enum_bytes_ok & _). autorewrite with zlen. lia.
  - intros t ((? & _ & ? & _)%enum_bytes_ok & _). cbn. unfold __chopen_render. solve_renders.
Defined.

#[global] Instance chopen_sized : SshMsgSized tt_sshmsg_chopen_t.
Proof.
  intros t [Hv _]. destruct (enum_bytes_ok _ Hv) as (E & _ & _ & ?).
  cbn [itf_render_prepare __chopen_op msg_fields chopen_wire].
  unfold __chopen_render_prepare. rewrite Hv, E. cbn [negb exec_bind]. prepare_tac.
Qed.

#[global] Instance chopen_roundtrip : SshMsgRoundtrip tt_sshmsg_chopen_t.
Proof.
  refine {| msg_same := eq |}. intros t (Hv & ? & ? & ?). cbn. unfold __chopen_parse.
  pose proof (enum_bytes_ok _ Hv) as (_ & Hm & _ & ?).
  solve_accepts.
  change (tt_ssh_chtype_match (enum_bytes (type t))) with
    (enum_match (enum_bytes (type t)) : tt_ssh_chtype_t). rewrite Hm.
  eapply accepts_silent; [by apply yields_check|]. intros _ _. solve_accepts. by destruct t.
Defined.
End chopen.
End Chopen.

(** *** Channel request: network/ssh/message/tt_ssh_msg_channel_request.c *)

Module Chreq.
Record tt_sshmsg_chreq_t : Type := mk {
  rcv_chnum : Z;
  req_type : tt_ssh_chreqtype_t;
  want_reply : bool;
}.

Section chreq.
Context `{Allocator}.

Definition __chreq_create (chreq : tt_sshmsg_chreq_t) : exec (result tt_sshmsg_chreq_t) :=
  Ret (TT_SUCCESS (mk (rcv_chnum chreq) TT_SSH_CHREQTYPE_NUM (want_reply chreq))).

Definition __chreq_render_prepare (chreq : tt_sshmsg_chreq_t)
  : exec (result (Z * tt_ssh_render_mode_t)) :=
  let rtype := req_type chreq in
  if negb (enum_valid rtype) then Ret (TT_ERROR TT_FAIL)
  else
    let msg_len := tt_ssh_byte_render_prepare in
    let msg_len := u32 (msg_len + tt_ssh_uint32_render_prepare) in
    exec_bind (enum_name rtype) (λ name,
      let msg_len := u32 (msg_len + tt_ssh_string_render_prepare (zlen name)) in
      let msg_len := u32 (msg_len + tt_ssh_boolean_render_prepare) in
      Ret (TT_SUCCESS (msg_len, TT_SSH_RENDER_MODE_BINARY))).

Definition __chreq_render (chreq : tt_sshmsg_chreq_t) : M tt_buf_t unit :=
  tt_ssh_byte_render TT_SSH_MSGID_CHANNEL_REQUEST;;
  tt_ssh_uint32_render (rcv_chnum chreq);;
  (name ← access (enum_name (req_type chreq)); tt_ssh_string_render name);;
  tt_ssh_boolean_render (want_reply chreq).

Definition __chreq_parse (chreq : tt_sshmsg_chreq_t) : M tt_buf_t tt_sshmsg_chreq_t :=
  rcv_chnum ← tt_ssh_uint32_parse;
  name ← tt_ssh_string_parse;
  let req_type := tt_ssh_chreqtype_match name in
  check_enum req_type;;
  want_reply ← tt_ssh_boolean_parse;
  mret (mk rcv_chnum req_type want_reply).

#[global] Instance __chreq_op : SshMsgItf tt_sshmsg_chreq_t := {|
  itf_id := TT_SSH_MSGID_CHANNEL_REQUEST;
  itf_zero := mk 0 TT_SSH_CHREQTYPE_PTYREQ false;
  itf_create := __chreq_create;
  itf_save := false;
  itf_destroy := mret tt;
  itf_render_prepare := __chreq_render_prepare;
  itf_render := __chreq_render;
  itf_parse := __chreq_parse;
|}.

Definition tt_sshmsg_chreq_create : (Z → Z) → exec (option (tt_sshmsg_t tt_sshmsg_chreq_t)) :=
  tt_sshmsg_create.

Definition tt_sshmsg_chreq_set_rcvchnum (n : Z) : M (tt_sshmsg_t tt_sshmsg_chreq_t) unit :=
  on_msg TT_SSH_MSGID_CHANNEL_REQUEST (modify (λ t, mk n (req_type t) (want_reply t))).
Definition tt_sshmsg_chreq_set_reqtype (ty : tt_ssh_chreqtype_t)
  : M (tt_sshmsg_t tt_sshmsg_chreq_t) unit :=
  on_msg TT_SSH_MSGID_CHANNEL_REQUEST (modify (λ t, mk (rcv_chnum t) ty (want_reply t))).
Definition tt_sshmsg_chreq_set_wantreply (w : bool) : M (tt_sshmsg_t tt_sshmsg_chreq_t) unit :=
  on_msg TT_SSH_MSGID_CHANNEL_REQUEST (modify (λ t, mk (rcv_chnum t) (req_type t) w)).

Definition chreq_ok (t : tt_sshmsg_chreq_t) : Prop :=
  is_u32 (rcv_chnum t) ∧ enum_valid (req_type t) = true.

#[global] Instance chreq_safe : SshMsgSafe tt_sshmsg_chreq_t.
Proof.
  refine {| msg_init := mk 0 TT_SSH_CHREQTYPE_NUM false; msg_parsed := chreq_ok |}; [done|].
  cbn. unfold __chreq_parse. solve_reads. by split.
Defined.

#[global] Instance chreq_wire : SshMsgWire tt_sshmsg_chreq_t.
Proof.
  refine {| msg_valid := chreq_ok;
    msg_fields t := be_bytes 4 (rcv_chnum t) ++ string_bytes (enum_bytes (req_type t)) ++
      bool_byte (want_reply t) |}.
  - done.
  - intros t (_ & (_ & _ & _ & ?)%enum_bytes_ok). autorewrite with zlen. lia.
  - intros t (_ & (? & _ & ? & _)%enum_bytes_ok). cbn. unfold __chreq_render. solve_renders.
Defined.

#[global] Instance chreq_sized : SshMsgSized tt_sshmsg_chreq_t.
Proof.
  intros t [_ Hv]. destruct (enum_bytes_ok _ Hv) as (E & _ & _ & ?).
  cbn [itf_render_prepare __chreq_op msg_fields chreq_wire].
  unfold __chreq_render_prepare. rewrite Hv, E. cbn [negb exec_bind]. prepare_tac.
Qed.

#[global] Instance chreq_roundtrip : SshMsgRoundtrip tt_sshmsg_chreq_t.
Proof.
  refine {| msg_same := eq |}. intros t (? & Hv). cbn. unfold __chreq_parse.
  pose proof (enum_bytes_ok _ Hv) as (_ & Hm & _ & ?).
  solve_accepts.
  change (tt_ssh_chreqtype_match (enum_bytes (req_type t))) with
    (enum_match (enum_bytes (req_type t)) : tt_ssh_chreqtype_t). rewrite Hm.
  eapply accepts_silent; [by apply yields_check|]. intros _ _. solve_accepts. by destruct t.
Defined.
End chreq.
End Chreq.

(** *** Channel open failure: network/ssh/message/tt_ssh_msg_channel_open_failure.c *)

Module Chopf.
Record tt_sshmsg_chopf_t : Type := mk {
  rcv_chnum : Z;
  reason_code : Z;
  desc : tt_blob_t;
}.

Definition set_desc (d : tt_blob_t) (t : tt_sshmsg_chopf_t) : tt_sshmsg_chopf_t :=
  mk (rcv_chnum t) (reason_code t) d.

Section chopf.
Context `{Allocator}.

Definition __chopf_create (chopf : tt_sshmsg_chopf_t) : exec (result tt_sshmsg_chopf_t) :=
  Ret (TT_SUCCESS (mk 0 0 blob_null)).

Definition __chopf_destroy : M tt_sshmsg_chopf_t unit := zoom desc set_desc tt_blob_destroy.

Definition __chopf_render_prepare (chopf : tt_sshmsg_chopf_t)
  : exec (result (Z * tt_ssh_render_mode_t)) :=
  let msg_len := tt_ssh_byte_render_prepare in
  let msg_len := u32 (msg_len + Z.shiftl tt_ssh_uint32_render_prepare 1) in
  let msg_len := u32 (msg_len + tt_ssh_string_render_prepare (blob_len (desc chopf))) in
  let msg_len := u32 (msg_len + tt_ssh_string_render_prepare 0) in
  Ret (TT_SUCCESS (msg_len, TT_SSH_RENDER_MODE_BINARY)).

Definition __chopf_render (chopf : tt_sshmsg_chopf_t) : M tt_buf_t unit :=
  tt_ssh_byte_render TT_SSH_MSGID_CHANNEL_OPEN_FAILURE;;
  tt_ssh_uint32_render (rcv_chnum chopf);;
  tt_ssh_uint32_render (reason_code chopf);;
  (s ← access (blob_bytes (desc chopf)); tt_ssh_string_render s);;
  tt_ssh_string_render [].

Definition __chopf_parse (chopf : tt_sshmsg_chopf_t) : M tt_buf_t tt_sshmsg_chopf_t :=
  rcv_chnum ← tt_ssh_uint32_parse;
  reason_code ← tt_ssh_uint32_parse;
  s ← tt_ssh_string_parse;
  desc ← opt_blob_create s (desc chopf);
  mret (mk rcv_chnum reason_code desc).

#[global] Instance __chopf_op : SshMsgItf tt_sshmsg_chopf_t := {|
  itf_id := TT_SSH_MSGID_CHANNEL_OPEN_FAILURE;
  itf_zero := mk 0 0 blob_null;
  itf_create := __chopf_create;
  itf_save := false;
  itf_destroy := __chopf_destroy;
  itf_render_prepare := __chopf_render_prepare;
  itf_render := __chopf_render;
  itf_parse := __chopf_parse;
|}.

Definition tt_sshmsg_chopf_create : (Z → Z) → exec (option (tt_sshmsg_t tt_sshmsg_chopf_t)) :=
  tt_sshmsg_create.

Definition tt_sshmsg_chopf_set_rcvchnum (n : Z) : M (tt_sshmsg_t tt_sshmsg_chopf_t) unit :=
  on_msg TT_SSH_MSGID_CHANNEL_OPEN_FAILURE (modify (λ t, mk n (reason_code t) (desc t))).
Definition tt_sshmsg_chopf_set_reason (n : Z) : M (tt_sshmsg_t tt_sshmsg_chopf_t) unit :=
  on_msg TT_SSH_MSGID_CHANNEL_OPEN_FAILURE (modify (λ t, mk (rcv_chnum t) n (desc t))).
Definition tt_sshmsg_chopf_set_desc (d : list Z) : M (tt_sshmsg_t tt_sshmsg_chopf_t) unit :=
  on_msg TT_SSH_MSGID_CHANNEL_OPEN_FAILURE
    (zoom desc set_desc (tt_blob_destroy;; tt_blob_create (Some d) (zlen d))).

Definition chopf_ok (t : tt_sshmsg_chopf_t) : Prop :=
  is_u32 (rcv_chnum t) ∧ is_u32 (reason_code t) ∧ blob_ok (desc t).

#[global] Instance chopf_safe : SshMsgSafe tt_sshmsg_chopf_t.
Proof.
  refine {| msg_init := mk 0 0 blob_null; msg_parsed := chopf_ok |}; [done|].
  cbn. unfold __chopf_parse. cbn [desc]. solve_reads. by split_and!.
Defined.

#[global] Instance chopf_wire : SshMsgWire tt_sshmsg_chopf_t.
Proof.
  refine {| msg_valid := chopf_ok;
    msg_fields t := be_bytes 4 (rcv_chnum t) ++ be_bytes 4 (reason_code t) ++
      string_bytes (blob_data (desc t)) ++ string_bytes [] |}.
  - done.
  - intros t (_ & _ & (_ & _ & _ & ?)%blob_bytes_ok).
    unfold max_read in *. autorewrite with zlen. lia.
  - intros t (_ & _ & (? & _ & ? & _)%blob_bytes_ok). cbn. unfold __chopf_render.
    solve_renders.
Defined.

#[global] Instance chopf_sized : SshMsgSized tt_sshmsg_chopf_t.
Proof.
  intros t (_ & _ & (_ & E & _ & ?)%blob_bytes_ok). cbn.
  unfold __chopf_render_prepare. rewrite E. change (Z.shiftl _ 1) with 8. prepare_tac.
Qed.

#[global] Instance chopf_roundtrip : SshMsgRoundtrip tt_sshmsg_chopf_t.
Proof.
  refine {| msg_same t t' := rcv_chnum t' = rcv_chnum t ∧ reason_code t' = reason_code t ∧
    blob_holds (blob_data (desc t)) (desc t') |}.
  intros t (? & ? & (_ & _ & Hs)%blob_bytes_ok). pose proof Hs as [? ?]. cbn.
  unfold __chopf_parse. solve_accepts.
  eapply accepts_silent; [by apply yields_opt_blob|]. intros d Hd. by apply accepts_ret.
Defined.

(** When the new description of a CHANNEL_OPEN_FAILURE message cannot be
    allocated, the setter fails and leaves the message with the address of its
    freed one: destroying the message, as its last release does, frees that block
    a second time. *)
Theorem chopf_set_desc_dangling (m : tt_sshmsg_t tt_sshmsg_chopf_t) l d :
  msg_id m = TT_SSH_MSGID_CHANNEL_OPEN_FAILURE → addr (desc (body m)) = BlobBlock l →
  malloc (zlen d) = None →
  ∃ m', tt_sshmsg_chopf_set_desc d m = Ret (TT_ERROR TT_FAIL, m') ∧
    __sshmsg_destroy m' = Undef.
Proof.
  intros Hid Ha Hm. destruct m as [i rf mb re pb sv [rc rs [a n]]]. cbn in *. subst.
  eexists (mk_sshmsg _ rf mb re pb sv (mk rc rs (mk_blob BlobFreed n))). split; [|reflexivity].
  unfold tt_sshmsg_chopf_set_desc, on_msg, zoom, tt_blob_create. cbn. by rewrite Hm.
Qed.
End chopf.

(** An allocator that always fails. *)
Program Definition no_alloc : Allocator := {| malloc := λ _, None |}.
Next Obligation. done. Qed.
Next Obligation. done. Qed.

Lemma chopf_set_desc_dangling_witness :
  let m := mk_sshmsg 92 1 small_buf false 0 false
             (mk 3 1 (mk_blob (BlobBlock [104; 105]) 2)) in
  ∃ m', tt_sshmsg_chopf_set_desc (H:=no_alloc) [110; 111] m = Ret (TT_ERROR TT_FAIL, m') ∧
    __sshmsg_destroy (H:=no_alloc) m' = Undef.
Proof.
  intros m. by apply (chopf_set_desc_dangling (H:=no_alloc) m [104; 105] [110; 111]).
Defined.
End Chopf.

(** *** Channel data: network/ssh/message/tt_ssh_msg_channel_data.c *)

Module Chdata.
Record tt_sshmsg_chdata_t : Type := mk { rcv_chnum : Z; data : tt_buf_t }.

Definition set_data (b : tt_buf_t) (t : tt_sshmsg_chdata_t) : tt_sshmsg_chdata_t :=
  mk (rcv_chnum t) b.

Section chdata.
Context `{Allocator}.

Definition __chdata_create (chdata : tt_sshmsg_chdata_t) : exec (result tt_sshmsg_chdata_t) :=
  exec_bind (tt_buf_init None) (λ r,
    Ret (TT_SUCCESS (mk 0 match r with TT_SUCCESS b => b | TT_ERROR _ => data chdata end))).

Definition __chdata_destroy : M tt_sshmsg_chdata_t unit := zoom data set_data tt_buf_destroy.

Definition __chdata_render_prepare (chdata : tt_sshmsg_chdata_t)
  : exec (result (Z * tt_ssh_render_mode_t)) :=
  let msg_len := tt_ssh_byte_render_prepare in
  let msg_len := u32 (msg_len + tt_ssh_uint32_render_prepare) in
  let msg_len := u32 (msg_len + tt_ssh_string_render_prepare (TT_BUF_RLEN (data chdata))) in
  Ret (TT_SUCCESS (msg_len, TT_SSH_RENDER_MODE_BINARY)).

Definition __chdata_render (chdata : tt_sshmsg_chdata_t) : M tt_buf_t unit :=
  tt_ssh_byte_render TT_SSH_MSGID_CHANNEL_DATA;;
  tt_ssh_uint32_render (rcv_chnum chdata);;
  (s ← access (buf_bytes (data chdata)); tt_ssh_string_render s).

Definition __chdata_parse (chdata : tt_sshmsg_chdata_t) : M tt_buf_t tt_sshmsg_chdata_t :=
  rcv_chnum ← tt_ssh_uint32_parse;
  s ← tt_ssh_string_parse;
  data ← on_val (tt_buf_reset_rwp;; tt_buf_put s) (data chdata);
  mret (mk rcv_chnum data).

#[global] Instance __chdata_op : SshMsgItf tt_sshmsg_chdata_t := {|
  itf_id := TT_SSH_MSGID_CHANNEL_DATA;
  itf_zero := mk 0 (mk_buf BufNull 0 (mk_memspg 0 0 0) 0 0 (replicate 16 0) false);
  itf_create := __chdata_create;
  itf_save := false;
  itf_destroy := __chdata_destroy;
  itf_render_prepare := __chdata_render_prepare;
  itf_render := __chdata_render;
  itf_parse := __chdata_parse;
|}.

Definition tt_sshmsg_chdata_create : (Z → Z) → exec (option (tt_sshmsg_t tt_sshmsg_chdata_t)) :=
  tt_sshmsg_create.

Definition tt_sshmsg_chdata_set_rcvchnum (n : Z) : M (tt_sshmsg_t tt_sshmsg_chdata_t) unit :=
  on_msg TT_SSH_MSGID_CHANNEL_DATA (modify (λ t, mk n (data t))).

(** The result of the put is not looked at. *)
Definition tt_sshmsg_chdata_set_data (s : list Z) (no_copy : bool)
  : M (tt_sshmsg_t tt_sshmsg_chdata_t) unit :=
  on_msg TT_SSH_MSGID_CHANNEL_DATA
    (zoom data set_data tt_buf_destroy;;
     if no_copy then
       b ← do_r TT_FAIL (call (tt_buf_create_nocopy s None));
       modify (set_data b)
     else
       b ← do_r TT_FAIL (call (tt_buf_create (zlen s) None));
       modify (set_data b);;
       try (zoom data set_data (tt_buf_put s));;
       mret tt).

Definition chdata_ok (t : tt_sshmsg_chdata_t) : Prop :=
  is_u32 (rcv_chnum t) ∧ own_buf_ok (data t).

#[global] Instance chdata_safe : SshMsgSafe tt_sshmsg_chdata_t.
Proof.
  refine {| msg_init := mk 0 small_buf; msg_parsed := chdata_ok |}; [done|].
  cbn. unfold __chdata_parse. cbn [data].
  eapply reads_bind; [apply reads_uint32|intros n Hn].
  eapply reads_bind; [apply reads_string|intros s Hs].
  eapply reads_bind; [|intros b Hb; by apply reads_ret].
  rewrite on_val_reset. by apply reads_own_put.
Defined.

#[global] Instance chdata_wire : SshMsgWire tt_sshmsg_chdata_t.
Proof.
  refine {| msg_valid := chdata_ok;
    msg_fields t := be_bytes 4 (rcv_chnum t) ++ string_bytes (content (data t)) |}.
  - done.
  - intros t (_ & _ & _ & Hl). unfold max_read in *. autorewrite with zlen. lia.
  - intros t (_ & ? & _ & ?). destruct (buf_bytes_ok (data t)) as (? & _ & ? & _); try done.
    cbn. unfold __chdata_render. solve_renders.
Defined.

#[global] Instance chdata_sized : SshMsgSized tt_sshmsg_chdata_t.
Proof.
  intros t (_ & ? & _ & ?). destruct (buf_bytes_ok (data t)) as (_ & E & _); try done.
  cbn. unfold __chdata_render_prepare. rewrite E. prepare_tac.
Qed.

#[global] Instance chdata_roundtrip : SshMsgRoundtrip tt_sshmsg_chdata_t.
Proof.
  refine {| msg_same t t' := rcv_chnum t' = rcv_chnum t ∧ own_buf_ok (data t') ∧
    content (data t') = content (data t) |}.
  intros t (? & ? & _ & ?). destruct (buf_bytes_ok (data t)) as (_ & _ & Hs); try done.
  cbn. unfold __chdata_parse. cbn [data]. solve_accepts.
  rewrite on_val_reset. eapply accepts_silent; [by apply yields_own_put|].
  intros b Hb. apply accepts_ret. by split.
Defined.
End chdata.
End Chdata.
