(* ===== verification/SshMsgTrans.v ===== *)
(** The transport-layer messages of SSH (RFC 4253) and the service messages:
    one module per message type, as in [SshMsgChannel]. *)

From S2P Require Import Prelude MemSpring Buffer BufferFormat SshDef SshCodec SshMsg.
From S2P Require Import SshFields.

(** *** Disconnect: network/ssh/message/tt_ssh_msg_disconnect.c *)

Module Disconnect.
Definition TT_SSHMSG_DISC_DESC_LEN : Z := 64.

(** [description] is the whole array of 65 characters. *)
Record tt_sshmsg_disconnect_t : Type := mk { reason_code : Z; description : list Z }.

(** [strncpy(dst, src, n)] into an array: at most [n] characters, filled up to
    [n] with NULs. *)
Definition strncpy (dst src : list Z) (n : Z) : exec (list Z) :=
  let s := take (Z.to_nat n) src in
  mem_write dst 0 (s ++ replicate (Z.to_nat (n - zlen s)) 0).

Section disconnect.
Context `{Allocator}.

(** The reason code is counted as one byte. *)
Definition __disconnect_render_prepare (msg_disc : tt_sshmsg_disconnect_t)
  : exec (result (Z * tt_ssh_render_mode_t)) :=
  let msg_len := tt_ssh_byte_render_prepare in
  let msg_len := u32 (msg_len + tt_ssh_byte_render_prepare) in
  exec_bind (c_str (description msg_disc)) (λ s,
    let msg_len := u32 (msg_len + tt_ssh_string_render_prepare (zlen s)) in
    let msg_len := u32 (msg_len + tt_ssh_string_render_prepare 0) in
    Ret (TT_SUCCESS (msg_len, TT_SSH_RENDER_MODE_BINARY))).

Definition __disconnect_render (msg_disc : tt_sshmsg_disconnect_t) : M tt_buf_t unit :=
  tt_ssh_byte_render TT_SSH_MSGID_DISCONNECT;;
  tt_ssh_uint32_render (reason_code msg_disc);;
  (s ← access (c_str (description msg_disc)); tt_ssh_string_render s);;
  tt_ssh_string_render [].

(** Descriptions longer than the array are cut. *)
Definition __disconnect_parse (msg_disc : tt_sshmsg_disconnect_t)
  : M tt_buf_t tt_sshmsg_disconnect_t :=
  reason_code ← tt_ssh_uint32_parse;
  desc ← tt_ssh_string_parse;
  let desc_len :=
    if TT_SSHMSG_DISC_DESC_LEN <? zlen desc then TT_SSHMSG_DISC_DESC_LEN else zlen desc in
  d ← access (mem_read desc 0 desc_len);
  a ← access (mem_write (description msg_disc) 0 d);
  a ← access (mem_write a desc_len [0]);
  mret (mk reason_code a).

#[global] Instance __disconnect_op : SshMsgItf tt_sshmsg_disconnect_t := {|
  itf_id := TT_SSH_MSGID_DISCONNECT;
  itf_zero := mk 0 (replicate 65 0);
  itf_create t := Ret (TT_SUCCESS t);
  itf_save := false;
  itf_destroy := mret tt;
  itf_render_prepare := __disconnect_render_prepare;
  itf_render := __disconnect_render;
  itf_parse := __disconnect_parse;
|}.

Definition tt_sshmsg_disconnect_create
  : (Z → Z) → exec (option (tt_sshmsg_t tt_sshmsg_disconnect_t)) := tt_sshmsg_create.

Definition tt_sshmsg_disconnect_set_reason (n : Z)
  : M (tt_sshmsg_t tt_sshmsg_disconnect_t) unit :=
  on_msg TT_SSH_MSGID_DISCONNECT (modify (λ t, mk n (description t))).

Definition tt_sshmsg_disconnect_set_desc (d : list Z)
  : M (tt_sshmsg_t tt_sshmsg_disconnect_t) unit :=
  on_msg TT_SSH_MSGID_DISCONNECT
    (t ← gets id;
     a ← access (strncpy (description t) d TT_SSHMSG_DISC_DESC_LEN);
     modify (λ t, mk (reason_code t) a)).

Definition disconnect_ok (t : tt_sshmsg_disconnect_t) : Prop :=
  is_u32 (reason_code t) ∧ Forall is_u8 (description t) ∧
  ∃ l, description t = l ++ [0] ∧ zlen l = 64.

(** The description before its NUL. *)
Definition desc_chars (t : tt_sshmsg_disconnect_t) : list Z :=
  match c_str (description t) with Ret s => s | _ => [] end.

Lemma desc_chars_ok t :
  disconnect_ok t →
  c_str (description t) = Ret (desc_chars t) ∧ Forall is_u8 (desc_chars t) ∧
  Forall (λ c, c ≠ 0) (desc_chars t) ∧ zlen (desc_chars t) ≤ 64.
Proof.
  intros (_ & Hb & l & Hd & Hl). destruct (c_str_ok (description t)) as (s & rest & E & E' & Hs).
  { rewrite Hd. apply in_app_iff. right. by left. }
  unfold desc_chars. rewrite E. rewrite E' in Hb, Hd.
  assert (zlen (s ++ 0 :: rest) = 65) as Hz by by rewrite Hd, zlen_app, Hl.
  rewrite zlen_app, zlen_cons in Hz. pose proof (zlen_nonneg rest).
  apply Forall_app in Hb as [? _]. split_and!; [done|done|done|lia].
Qed.

(** Storing a description of at most 64 bytes. *)
Lemma store_desc l d :
  zlen l = 64 → zlen d ≤ 64 → Forall is_u8 l → Forall is_u8 d →
  ∃ a l', mem_write (l ++ [0]) 0 d = Ret a ∧
    mem_write a (zlen d) [0] = Ret (l' ++ [0]) ∧ zlen l' = 64 ∧ Forall is_u8 l' ∧
    ∃ rest, l' ++ [0] = d ++ 0 :: rest.
Proof.
  intros Hl Hd Hbl Hbd. pose proof (zlen_nonneg d).
  assert (zlen (l ++ [0]) = 65) as Hz by by rewrite zlen_app, Hl.
  exists (splice (l ++ [0]) 0 d).
  assert (splice (l ++ [0]) 0 d = d ++ drop (length d) (l ++ [0])) as Ha by done.
  assert (zlen (splice (l ++ [0]) 0 d) = 65) as Hza by (rewrite zlen_splice; lia).
  assert (splice (splice (l ++ [0]) 0 d) (zlen d) [0]
    = d ++ [0] ++ drop (S (length d)) (l ++ [0])) as Hs.
  { rewrite Ha. unfold splice, zlen. rewrite Nat2Z.id, take_app_length.
    do 2 f_equal. rewrite drop_app_ge by (simpl; lia). rewrite drop_drop.
    f_equal. simpl. lia. }
  assert (∃ l', d ++ [0] ++ drop (S (length d)) (l ++ [0]) = l' ++ [0]) as [l' Hl'].
  { unfold zlen in *. destruct (decide (length d = 64%nat)) as [E|E].
    - exists d. rewrite drop_ge; [done|]. rewrite length_app. simpl. lia.
    - exists (d ++ [0] ++ drop (S (length d)) l). rewrite drop_app_le by lia.
      by rewrite <- !app_assoc. }
  exists l'. rewrite mem_write_ok by lia. rewrite mem_write_ok by (rewrite ?Hza; autorewrite with zlen; lia).
  rewrite Hs, Hl'. split_and!; [done|done| | |].
  - assert (zlen (l' ++ [0]) = 65) as Hz'.
    { rewrite <- Hl', <- Hs, zlen_splice; [done|lia|]. rewrite Hza. autorewrite with zlen. lia. }
    rewrite zlen_app in Hz'. change (zlen [0]) with 1 in Hz'. lia.
  - assert (Forall is_u8 (l' ++ [0])) as Hf; [|by apply Forall_app in Hf as [? _]].
    rewrite <- Hl'. apply Forall_app; split; [done|]. constructor; [by split|].
    apply Forall_drop, Forall_app; split; [done|]. by repeat constructor.
  - exists (drop (S (length d)) (l ++ [0])). by rewrite <- Hl'.
Qed.

#[global] Instance disconnect_safe : SshMsgSafe tt_sshmsg_disconnect_t.
Proof.
  refine {| msg_init := mk 0 (replicate 65 0); msg_parsed := disconnect_ok |}; [done|].
  cbn [itf_parse __disconnect_op]. unfold __disconnect_parse. cbn [description].
  eapply reads_bind; [apply reads_uint32|intros n Hn].
  eapply reads_bind; [apply reads_string|intros d [Hd _]].
  set (k := if _ <? _ then _ else _).
  assert (0 ≤ k ≤ 64 ∧ k ≤ zlen d) as Hk.
  { pose proof (zlen_nonneg d). unfold k, TT_SSHMSG_DISC_DESC_LEN.
    destruct (Z.ltb_spec 64 (zlen d)); lia. }
  rewrite mem_read_ok by lia. pose proof (zlen_sub d 0 k ltac:(lia) ltac:(lia) ltac:(lia)) as Hz.
  destruct (store_desc (replicate 64 0) (sub d 0 k)) as (a & l' & Ea & El & Hl & Hf & _).
  { done. } { lia. } { by apply Forall_replicate. } { by apply Forall_sub. }
  change (replicate 65 0) with (replicate 64 0 ++ [0]). rewrite Hz in El.
  intros b Hwf Hmax. exists (TT_SUCCESS (mk n (l' ++ [0]))), 0. rewrite set_rpos_0.
  unfold access. m_simpl. rewrite Ea. cbn [exec_bind]. rewrite El. cbn [exec_bind].
  pose proof (zlen_nonneg (content b)). split; [done|]. split; [lia|].
  split; [done|]. split; [|by exists l'].
  apply Forall_app; split; [done|by repeat constructor].
Defined.

#[global] Instance disconnect_wire : SshMsgWire tt_sshmsg_disconnect_t.
Proof.
  refine {| msg_valid := disconnect_ok;
    msg_fields t := be_bytes 4 (reason_code t) ++ string_bytes (desc_chars t) ++
      string_bytes [] |}.
  - done.
  - intros t (_ & _ & _ & ?)%desc_chars_ok. autorewrite with zlen. lia.
  - intros t (? & ? & _)%desc_chars_ok. cbn. unfold __disconnect_render. solve_renders.
Defined.

#[global] Instance disconnect_roundtrip : SshMsgRoundtrip tt_sshmsg_disconnect_t.
Proof.
  refine {| msg_same t t' := reason_code t' = reason_code t ∧ desc_chars t' = desc_chars t |}.
  intros t Hok. destruct (desc_chars_ok t Hok) as (_ & Hb & Hc & Hl). destruct Hok as (? & _).
  cbn [itf_parse __disconnect_op msg_init disconnect_safe msg_fields disconnect_wire].
  unfold __disconnect_parse. cbn [description].
  eapply accepts_then; [by apply parses_uint32|].
  eapply accepts_then; [apply parses_string; unfold max_read; lia|].
  set (d := desc_chars t) in *. rewrite (proj2 (Z.ltb_ge TT_SSHMSG_DISC_DESC_LEN (zlen d))) by done.
  rewrite mem_read_ok, sub_all by (pose proof (zlen_nonneg d); lia).
  destruct (store_desc (replicate 64 0) d) as (a & l' & Ea & El & _ & _ & rest & Hr).
  { done. } { done. } { by apply Forall_replicate. } { done. }
  change (replicate 65 0) with (replicate 64 0 ++ [0]).
  intros b rst _ _. left. exists (mk (reason_code t) (l' ++ [0])), b.
  unfold access. m_simpl. rewrite Ea. cbn [exec_bind]. rewrite El. cbn [exec_bind].
  split; [done|]. split; [done|]. unfold desc_chars at 1. cbn [description].
  by rewrite Hr, c_str_app.
Defined.

(** [tt_sshmsg_disconnect] announces three bytes less than it renders, for
    every message: its preparation counts the uint32 reason code as one byte, so
    the packet length on the wire is three too small. *)
Theorem disconnect_short (t : tt_sshmsg_disconnect_t) b :
msg_valid t → buf_wf b → readonly b = false → content b = [] → reliable b →
room b (zlen (msg_payload t)) →
∃ len b', itf_render_prepare t = Ret (TT_SUCCESS (len, TT_SSH_RENDER_MODE_BINARY)) ∧
  itf_render t b = Ret (TT_SUCCESS tt, b') ∧ zlen (content b') = len + 3.
Proof.
  intros Hv Hwf Hro Hc Hrel Hroom. destruct (desc_chars_ok t Hv) as (E & _ & _ & ?).
  destruct (law_render t Hv b Hwf Hro Hroom) as [(b' & Er & A)|(? & ? & _ & _ & _ & ?)]; [|done].
  exists (zlen (msg_payload t) - 3), b'. split; [|split; [done|]].
  - cbn [itf_render_prepare __disconnect_op]. unfold __disconnect_render_prepare, msg_payload.
    rewrite E. cbn [exec_bind msg_fields disconnect_wire]. prepare_tac.
  - rewrite (app_content _ _ _ A), Hc. change (itf_id :: msg_fields t) with (msg_payload t).
    simpl app. lia.
Qed.
End disconnect.
End Disconnect.

(** *** Ignore: network/ssh/message/tt_ssh_msg_ignore.c *)

Module Ignore.
Record tt_sshmsg_ignore_t : Type := mk { data : tt_blob_t }.

Section ignore.
Context `{Allocator}.

Definition __ignore_render_prepare (t : tt_sshmsg_ignore_t)
  : exec (result (Z * tt_ssh_render_mode_t)) :=
  let msg_len := tt_ssh_byte_render_prepare in
  let msg_len := u32 (msg_len + tt_ssh_string_render_prepare 0) in
  Ret (TT_SUCCESS (msg_len, TT_SSH_RENDER_MODE_BINARY)).

Definition __ignore_render (t : tt_sshmsg_ignore_t) : M tt_buf_t unit :=
  tt_ssh_byte_render TT_SSH_MSGID_IGNORE;;
  tt_ssh_string_render [].

(** The received data is not even read. *)
Definition __ignore_parse (t : tt_sshmsg_ignore_t) : M tt_buf_t tt_sshmsg_ignore_t := mret t.

#[global] Instance __ignore_op : SshMsgItf tt_sshmsg_ignore_t := {|
  itf_id := TT_SSH_MSGID_IGNORE;
  itf_zero := mk blob_null;
  itf_create t := Ret (TT_SUCCESS t);
  itf_save := false;
  itf_destroy := mret tt;
  itf_render_prepare := __ignore_render_prepare;
  itf_render := __ignore_render;
  itf_parse := __ignore_parse;
|}.

Definition tt_sshmsg_ignore_create : (Z → Z) → exec (option (tt_sshmsg_t tt_sshmsg_ignore_t)) :=
  tt_sshmsg_create.

#[global] Instance ignore_safe : SshMsgSafe tt_sshmsg_ignore_t.
Proof.
  refine {| msg_init := mk blob_null; msg_parsed t := t = mk blob_null |}; [done|].
  by apply reads_ret.
Defined.

#[global] Instance ignore_wire : SshMsgWire tt_sshmsg_ignore_t.
Proof.
  refine {| msg_valid t := t = mk blob_null; msg_fields t := string_bytes [] |}.
  - done.
  - done.
  - intros t _. cbn. unfold __ignore_render. solve_renders.
Defined.

#[global] Instance ignore_sized : SshMsgSized tt_sshmsg_ignore_t.
Proof. intros t _. done. Qed.

#[global] Instance ignore_roundtrip : SshMsgRoundtrip tt_sshmsg_ignore_t.
Proof.
  refine {| msg_same := eq |}. intros t ->. cbn. unfold __ignore_parse. by apply accepts_ret.
Defined.
End ignore.
End Ignore.

(** *** New keys: network/ssh/message/tt_ssh_msg_newkeys.c *)

Module Newkeys.
Inductive newkeys_t : Type := no_fields.

Section newkeys.
Context `{Allocator}.

Definition __newkeys_render_prepare (t : newkeys_t) : exec (result (Z * tt_ssh_render_mode_t)) :=
  Ret (TT_SUCCESS (1, TT_SSH_RENDER_MODE_BINARY)).

Definition __newkeys_render (t : newkeys_t) : M tt_buf_t unit := tt_ssh_byte_render TT_SSH_MSGID_NEWKEYS.

Definition __newkeys_parse (t : newkeys_t) : M tt_buf_t newkeys_t := mret t.

#[global] Instance __newkeys_op : SshMsgItf newkeys_t := {|
  itf_id := TT_SSH_MSGID_NEWKEYS;
  itf_zero := no_fields;
  itf_create t := Ret (TT_SUCCESS t);
  itf_save := false;
  itf_destroy := mret tt;
  itf_render_prepare := __newkeys_render_prepare;
  itf_render := __newkeys_render;
  itf_parse := __newkeys_parse;
|}.

Definition tt_sshms_newkeys_create : (Z → Z) → exec (option (tt_sshmsg_t newkeys_t)) := tt_sshmsg_create.

#[global] Instance newkeys_safe : SshMsgSafe newkeys_t.
Proof.
  refine {| msg_init := no_fields; msg_parsed _ := True |}; [done|]. by apply reads_ret.
Defined.

#[global] Instance newkeys_wire : SshMsgWire newkeys_t.
Proof.
  refine {| msg_valid _ := True; msg_fields _ := [] |}; [done|done|].
  intros t _. by apply renders_byte.
Defined.

#[global] Instance newkeys_sized : SshMsgSized newkeys_t.
Proof. intros t _. done. Qed.

#[global] Instance newkeys_roundtrip : SshMsgRoundtrip newkeys_t.
Proof. refine {| msg_same := eq |}. intros [] _. by apply accepts_ret. Defined.
End newkeys.
End Newkeys.

(** *** Diffie-Hellman init: network/ssh/message/tt_ssh_msg_kexdh_init.c

    Only received: rendering it is an assertion failure. *)

Module KexdhInit.
Record tt_sshmsg_kexdh_init_t : Type := mk { e : tt_blob_t }.

Section kexdh_init.
Context `{Allocator}.

Definition __kexdh_init_create (ki : tt_sshmsg_kexdh_init_t)
  : exec (result tt_sshmsg_kexdh_init_t) := Ret (TT_SUCCESS (mk blob_null)).

Definition __kexdh_init_destroy : M tt_sshmsg_kexdh_init_t unit :=
  zoom e (λ b _, mk b) tt_blob_destroy.

Definition __kexdh_init_render_prepare (ki : tt_sshmsg_kexdh_init_t)
  : exec (result (Z * tt_ssh_render_mode_t)) := Crash.

Definition __kexdh_init_render (ki : tt_sshmsg_kexdh_init_t) : M tt_buf_t unit := crash.

Definition __kexdh_init_parse (ki : tt_sshmsg_kexdh_init_t)
  : M tt_buf_t tt_sshmsg_kexdh_init_t :=
  mpint ← tt_ssh_mpint_parse;
  b ← req_blob_create mpint (e ki);
  mret (mk b).

#[global] Instance __kexdh_init_op : SshMsgItf tt_sshmsg_kexdh_init_t := {|
  itf_id := TT_SSH_MSGID_KEXDH_INIT;
  itf_zero := mk blob_null;
  itf_create := __kexdh_init_create;
  itf_save := false;
  itf_destroy := __kexdh_init_destroy;
  itf_render_prepare := __kexdh_init_render_prepare;
  itf_render := __kexdh_init_render;
  itf_parse := __kexdh_init_parse;
|}.

Definition tt_sshmsg_kexdh_init_create
  : (Z → Z) → exec (option (tt_sshmsg_t tt_sshmsg_kexdh_init_t)) := tt_sshmsg_create.

(** A received message has a number. *)
#[global] Instance kexdh_init_safe : SshMsgSafe tt_sshmsg_kexdh_init_t.
Proof.
  refine {| msg_init := mk blob_null;
    msg_parsed t := blob_ok (e t) ∧ blob_data (e t) ≠ [] |}; [done|].
  cbn. unfold __kexdh_init_parse. solve_reads. done.
Defined.
End kexdh_init.
End KexdhInit.

(** *** Service request: network/ssh/message/tt_ssh_msg_service_request.c *)

Module Servreq.
Record tt_sshmsg_servreq_t : Type := mk { service : tt_ssh_service_t }.

Section servreq.
Context `{Allocator}.

Definition __servreq_create (servreq : tt_sshmsg_servreq_t) : exec (result tt_sshmsg_servreq_t) :=
  Ret (TT_SUCCESS (mk TT_SSH_SERVICE_NUM)).

Definition __servreq_render_prepare (servreq : tt_sshmsg_servreq_t)
  : exec (result (Z * tt_ssh_render_mode_t)) :=
  let sshserv := service servreq in
  if negb (enum_valid sshserv) then Ret (TT_ERROR TT_FAIL)
  else
    let msg_len := tt_ssh_byte_render_prepare in
    exec_bind (enum_name sshserv) (λ name,
      let msg_len := u32 (msg_len + tt_ssh_string_render_prepare (zlen name)) in
      Ret (TT_SUCCESS (msg_len, TT_SSH_RENDER_MODE_BINARY))).

Definition __servreq_render (servreq : tt_sshmsg_servreq_t) : M tt_buf_t unit :=
  tt_ssh_byte_render TT_SSH_MSGID_SERVICE_REQUEST;;
  (name ← access (enum_name (service servreq)); tt_ssh_string_render name).

Definition __servreq_parse (servreq : tt_sshmsg_servreq_t) : M tt_buf_t tt_sshmsg_servreq_t :=
  serv ← tt_ssh_string_parse;
  let sshserv := tt_ssh_serv_match serv in
  check_enum sshserv;;
  mret (mk sshserv).

#[global] Instance __servreq_op : SshMsgItf tt_sshmsg_servreq_t := {|
  itf_id := TT_SSH_MSGID_SERVICE_REQUEST;
  itf_zero := mk TT_SSH_SERVICE_USERAUTH;
  itf_create := __servreq_create;
  itf_save := false;
  itf_destroy := mret tt;
  itf_render_prepare := __servreq_render_prepare;
  itf_render := __servreq_render;
  itf_parse := __servreq_parse;
|}.

Definition tt_sshmsg_servreq_create : (Z → Z) → exec (option (tt_sshmsg_t tt_sshmsg_servreq_t)) :=
  tt_sshmsg_create.

Definition tt_sshmsg_servreq_set_service (s : tt_ssh_service_t)
  : M (tt_sshmsg_t tt_sshmsg_servreq_t) unit :=
  on_msg TT_SSH_MSGID_SERVICE_REQUEST (assert_always (enum_valid s);; modify (λ _, mk s)).

Definition tt_sshmsg_servreq_get_service : M (tt_sshmsg_t tt_sshmsg_servreq_t) tt_ssh_service_t :=
  on_msg TT_SSH_MSGID_SERVICE_REQUEST (gets service).

#[global] Instance servreq_safe : SshMsgSafe tt_sshmsg_servreq_t.
Proof.
  refine {| msg_init := mk TT_SSH_SERVICE_NUM;
    msg_parsed t := enum_valid (service t) = true |}; [done|].
  cbn. unfold __servreq_parse. solve_reads. done.
Defined.

#[global] Instance servreq_wire : SshMsgWire tt_sshmsg_servreq_t.
Proof.
  refine {| msg_valid t := enum_valid (service t) = true;
    msg_fields t := string_bytes (enum_bytes (service t)) |}.
  - done.
  - intros t (_ & _ & _ & ?)%enum_bytes_ok. autorewrite with zlen. lia.
  - intros t (? & _ & ? & _)%enum_bytes_ok. cbn. unfold __servreq_render. solve_renders.
Defined.

#[global] Instance servreq_sized : SshMsgSized tt_sshmsg_servreq_t.
Proof.
  intros t Hv. destruct (enum_bytes_ok _ Hv) as (E & _ & _ & ?). cbn in Hv.
  cbn [itf_render_prepare __servreq_op msg_fields servreq_wire].
  unfold __servreq_render_prepare. rewrite Hv, E. cbn [negb exec_bind]. prepare_tac.
Qed.

#[global] Instance servreq_roundtrip : SshMsgRoundtrip tt_sshmsg_servreq_t.
Proof.
  refine {| msg_same := eq |}. intros t Hv. cbn. unfold __servreq_parse.
  pose proof (enum_bytes_ok _ Hv) as (_ & Hm & _ & ?).
  solve_accepts.
  change (tt_ssh_serv_match (enum_bytes (service t))) with
    (enum_match (enum_bytes (service t)) : tt_ssh_service_t). rewrite Hm.
  eapply accepts_silent; [by apply yields_check|]. intros _ _. apply accepts_ret.
  by destruct t.
Defined.
End servreq.
End Servreq.

(** *** Service accept: network/ssh/message/tt_ssh_msg_service_accept.c *)

Module Servacc.
Record tt_sshmsg_servacc_t : Type := mk { service : tt_ssh_service_t }.

Section servacc.
Context `{Allocator}.

Definition __servacc_create (servacc : tt_sshmsg_servacc_t) : exec (result tt_sshmsg_servacc_t) :=
  Ret (TT_SUCCESS (mk TT_SSH_SERVICE_NUM)).

Definition __servacc_render_prepare (servacc : tt_sshmsg_servacc_t)
  : exec (result (Z * tt_ssh_render_mode_t)) :=
  let sshserv := service servacc in
  if negb (enum_valid sshserv) then Ret (TT_ERROR TT_FAIL)
  else
    let msg_len := tt_ssh_byte_render_prepare in
    exec_bind (enum_name sshserv) (λ name,
      let msg_len := u32 (msg_len + tt_ssh_string_render_prepare (zlen name)) in
      Ret (TT_SUCCESS (msg_len, TT_SSH_RENDER_MODE_BINARY))).

Definition __servacc_render (servacc : tt_sshmsg_servacc_t) : M tt_buf_t unit :=
  tt_ssh_byte_render TT_SSH_MSGID_SERVICE_ACCEPT;;
  (name ← access (enum_name (service servacc)); tt_ssh_string_render name).

Definition __servacc_parse (servacc : tt_sshmsg_servacc_t) : M tt_buf_t tt_sshmsg_servacc_t :=
  serv ← tt_ssh_string_parse;
  let sshserv := tt_ssh_serv_match serv in
  check_enum sshserv;;
  mret (mk sshserv).

#[global] Instance __servacc_op : SshMsgItf tt_sshmsg_servacc_t := {|
  itf_id := TT_SSH_MSGID_SERVICE_ACCEPT;
  itf_zero := mk TT_SSH_SERVICE_USERAUTH;
  itf_create := __servacc_create;
  itf_save := false;
  itf_destroy := mret tt;
  itf_render_prepare := __servacc_render_prepare;
  itf_render := __servacc_render;
  itf_parse := __servacc_parse;
|}.

Definition tt_sshmsg_servacc_create : (Z → Z) → exec (option (tt_sshmsg_t tt_sshmsg_servacc_t)) :=
  tt_sshmsg_create.

Definition tt_sshmsg_servacc_set_service (s : tt_ssh_service_t)
  : M (tt_sshmsg_t tt_sshmsg_servacc_t) unit :=
  on_msg TT_SSH_MSGID_SERVICE_ACCEPT (assert_always (enum_valid s);; modify (λ _, mk s)).

Definition tt_sshmsg_servacc_get_service : M (tt_sshmsg_t tt_sshmsg_servacc_t) tt_ssh_service_t :=
  on_msg TT_SSH_MSGID_SERVICE_ACCEPT (gets service).

#[global] Instance servacc_safe : SshMsgSafe tt_sshmsg_servacc_t.
Proof.
  refine {| msg_init := mk TT_SSH_SERVICE_NUM;
    msg_parsed t := enum_valid (service t) = true |}; [done|].
  cbn. unfold __servacc_parse. solve_reads. done.
Defined.

#[global] Instance servacc_wire : SshMsgWire tt_sshmsg_servacc_t.
Proof.
  refine {| msg_valid t := enum_valid (service t) = true;
    msg_fields t := string_bytes (enum_bytes (service t)) |}.
  - done.
  - intros t (_ & _ & _ & ?)%enum_bytes_ok. autorewrite with zlen. lia.
  - intros t (? & _ & ? & _)%enum_bytes_ok. cbn. unfold __servacc_render. solve_renders.
Defined.

#[global] Instance servacc_sized : SshMsgSized tt_sshmsg_servacc_t.
Proof.
  intros t Hv. destruct (enum_bytes_ok _ Hv) as (E & _ & _ & ?). cbn in Hv.
  cbn [itf_render_prepare __servacc_op msg_fields servacc_wire].
  unfold __servacc_render_prepare. rewrite Hv, E. cbn [negb exec_bind]. prepare_tac.
Qed.

#[global] Instance servacc_roundtrip : SshMsgRoundtrip tt_sshmsg_servacc_t.
Proof.
  refine {| msg_same := eq |}. intros t Hv. cbn. unfold __servacc_parse.
  pose proof (enum_bytes_ok _ Hv) as (_ & Hm & _ & ?).
  solve_accepts.
  change (tt_ssh_serv_match (enum_bytes (service t))) with
    (enum_match (enum_bytes (service t)) : tt_ssh_service_t). rewrite Hm.
  eapply accepts_silent; [by apply yields_check|]. intros _ _. apply accepts_ret.
  by destruct t.
Defined.
End servacc.
End Servacc.
