(* ===== verification/SshMsgAuth.v ===== *)
(** The authentication messages of SSH (RFC 4252) and the global requests: one
    module per message type, as in [SshMsgChannel]. *)

From S2P Require Import Prelude MemSpring Buffer BufferFormat SshDef SshCodec SshMsg.
From S2P Require Import SshFields.
From stdpp Require Import sets.

#[local] Open Scope Z_scope.

(** *** Banner: network/ssh/message/tt_ssh_msg_userauth_banner.c *)

Module Uab.
Record tt_sshmsg_uab_t : Type := mk { banner : tt_buf_t }.

Section uab.
Context `{Allocator}.

Definition __uab_create (uab : tt_sshmsg_uab_t) : exec (result tt_sshmsg_uab_t) :=
  exec_bind (tt_buf_init None) (λ r,
    Ret (TT_SUCCESS (mk match r with TT_SUCCESS b => b | TT_ERROR _ => banner uab end))).

Definition __uab_render_prepare (uab : tt_sshmsg_uab_t)
  : exec (result (Z * tt_ssh_render_mode_t)) :=
  let msg_len := tt_ssh_byte_render_prepare in
  let msg_len := u32 (msg_len + tt_ssh_string_render_prepare (TT_BUF_RLEN (banner uab))) in
  let msg_len := u32 (msg_len + tt_ssh_string_render_prepare 0) in
  Ret (TT_SUCCESS (msg_len, TT_SSH_RENDER_MODE_BINARY)).

Definition __uab_render (uab : tt_sshmsg_uab_t) : M tt_buf_t unit :=
  tt_ssh_byte_render TT_SSH_MSGID_USERAUTH_BANNER;;
  (s ← access (buf_bytes (banner uab)); tt_ssh_string_render s);;
  tt_ssh_string_render [].

Definition __uab_parse (uab : tt_sshmsg_uab_t) : M tt_buf_t tt_sshmsg_uab_t :=
  s ← tt_ssh_string_parse;
  b ← on_val (tt_buf_put s) (banner uab);
  mret (mk b).

(** The type has no destructor. *)
#[global] Instance __uab_op : SshMsgItf tt_sshmsg_uab_t := {|
  itf_id := TT_SSH_MSGID_USERAUTH_BANNER;
  itf_zero := mk (mk_buf BufNull 0 (mk_memspg 0 0 0) 0 0 (replicate 16 0) false);
  itf_create := __uab_create;
  itf_save := false;
  itf_destroy := mret tt;
  itf_render_prepare := __uab_render_prepare;
  itf_render := __uab_render;
  itf_parse := __uab_parse;
|}.

Definition tt_sshmsg_uab_create : (Z → Z) → exec (option (tt_sshmsg_t tt_sshmsg_uab_t)) :=
  tt_sshmsg_create.

Definition tt_sshmsg_uab_set_banner (s : list Z) : M (tt_sshmsg_t tt_sshmsg_uab_t) unit :=
  on_msg TT_SSH_MSGID_USERAUTH_BANNER
    (zoom banner (λ b _, mk b) (tt_buf_reset_rwp;; tt_buf_put s)).

#[global] Instance uab_safe : SshMsgSafe tt_sshmsg_uab_t.
Proof.
  refine {| msg_init := mk small_buf; msg_parsed t := own_buf_ok (banner t) |}; [done|].
  cbn. unfold __uab_parse. cbn [banner]. solve_reads. done.
Defined.

#[global] Instance uab_wire : SshMsgWire tt_sshmsg_uab_t.
Proof.
  refine {| msg_valid t := own_buf_ok (banner t);
    msg_fields t := string_bytes (content (banner t)) ++ string_bytes [] |}.
  - done.
  - intros t (_ & _ & Hl). unfold max_read in *. autorewrite with zlen. lia.
  - intros t (? & _ & ?). destruct (buf_bytes_ok (banner t)) as (? & _ & ? & _); try done.
    cbn. unfold __uab_render. solve_renders.
Defined.

#[global] Instance uab_sized : SshMsgSized tt_sshmsg_uab_t.
Proof.
  intros t (? & _ & ?). destruct (buf_bytes_ok (banner t)) as (_ & E & _); try done.
  cbn. unfold __uab_render_prepare. rewrite E. prepare_tac.
Qed.

#[global] Instance uab_roundtrip : SshMsgRoundtrip tt_sshmsg_uab_t.
Proof.
  refine {| msg_same t t' := own_buf_ok (banner t') ∧ content (banner t') = content (banner t) |}.
  intros t (? & _ & ?). destruct (buf_bytes_ok (banner t)) as (_ & _ & Hs); try done.
  cbn. unfold __uab_parse. cbn [banner]. solve_accepts.
  eapply accepts_silent; [by apply yields_own_put|]. intros b Hb. by apply accepts_ret.
Defined.
End uab.
End Uab.

(** *** Authentication failure: network/ssh/message/tt_ssh_msg_userauth_failure.c *)

Module Uaf.
(** [auth] is the whole array, of which [auth_num] elements are in use. *)
Record tt_sshmsg_uaf_t : Type := mk {
  auth : list tt_ssh_auth_t;
  auth_num : Z;
  partial_success : bool;
}.

Section uaf.
Context `{Allocator}.

Definition __uaf_create (uaf : tt_sshmsg_uaf_t) : exec (result tt_sshmsg_uaf_t) :=
  Ret (TT_SUCCESS (mk (replicate 4 TT_SSH_AUTH_PUBLICKEY) 0 false)).

(** The search for a method among those in use, and its addition. *)
Definition uaf_add (a : tt_ssh_auth_t) (uaf : tt_sshmsg_uaf_t) : exec tt_sshmsg_uaf_t :=
  exec_bind (mem_read (auth uaf) 0 (auth_num uaf)) (λ l,
    if bool_decide (a ∈ l) then Ret uaf
    else exec_bind (mem_write (auth uaf) (auth_num uaf) [a]) (λ l',
      Ret (mk l' (u32 (auth_num uaf + 1)) (partial_success uaf)))).

(** [auth_name[i] = tt_g_ssh_auth_name[uaf->auth[i]]] for the methods in use. *)
Definition uaf_names (uaf : tt_sshmsg_uaf_t) : exec (list (list Z)) :=
  exec_bind (mem_read (auth uaf) 0 (auth_num uaf)) names_of.

Definition __uaf_render_prepare (uaf : tt_sshmsg_uaf_t)
  : exec (result (Z * tt_ssh_render_mode_t)) :=
  let msg_len := tt_ssh_byte_render_prepare in
  exec_bind (uaf_names uaf) (λ auth_name,
    let msg_len := u32 (msg_len + tt_ssh_namelist_render_prepare auth_name) in
    let msg_len := u32 (msg_len + tt_ssh_boolean_render_prepare) in
    Ret (TT_SUCCESS (msg_len, TT_SSH_RENDER_MODE_BINARY))).

Definition __uaf_render (uaf : tt_sshmsg_uaf_t) : M tt_buf_t unit :=
  tt_ssh_byte_render TT_SSH_MSGID_USERAUTH_FAILURE;;
  (auth_name ← access (uaf_names uaf); tt_ssh_namelist_render auth_name);;
  tt_ssh_boolean_render (partial_success uaf).

Definition __uaf_parse_auth (name : list Z) (uaf : tt_sshmsg_uaf_t)
  : exec (result tt_sshmsg_uaf_t) :=
  let auth := tt_ssh_auth_match name in
  if enum_valid auth then exec_bind (uaf_add auth uaf) (λ uaf, Ret (TT_SUCCESS uaf))
  else Ret (TT_ERROR TT_FAIL).

Definition __uaf_parse (uaf : tt_sshmsg_uaf_t) : M tt_buf_t tt_sshmsg_uaf_t :=
  uaf ← tt_ssh_namelist_parse __uaf_parse_auth uaf;
  partial_success ← tt_ssh_boolean_parse;
  mret (mk (auth uaf) (auth_num uaf) partial_success).

#[global] Instance __uaf_op : SshMsgItf tt_sshmsg_uaf_t := {|
  itf_id := TT_SSH_MSGID_USERAUTH_FAILURE;
  itf_zero := mk (replicate 4 TT_SSH_AUTH_PUBLICKEY) 0 false;
  itf_create := __uaf_create;
  itf_save := false;
  itf_destroy := mret tt;
  itf_render_prepare := __uaf_render_prepare;
  itf_render := __uaf_render;
  itf_parse := __uaf_parse;
|}.

Definition tt_sshmsg_uaf_create : (Z → Z) → exec (option (tt_sshmsg_t tt_sshmsg_uaf_t)) :=
  tt_sshmsg_create.

Definition tt_sshmsg_uaf_add_auth (a : tt_ssh_auth_t) : M (tt_sshmsg_t tt_sshmsg_uaf_t) unit :=
  on_msg TT_SSH_MSGID_USERAUTH_FAILURE
    (assert_always (enum_valid a);;
     t ← gets id;
     t' ← access (uaf_add a t);
     modify (λ _, t')).

Definition tt_sshmsg_uaf_set_parial_succ (ps : bool) : M (tt_sshmsg_t tt_sshmsg_uaf_t) unit :=
  on_msg TT_SSH_MSGID_USERAUTH_FAILURE (modify (λ t, mk (auth t) (auth_num t) ps)).

(** The methods in use. *)
Definition used (t : tt_sshmsg_uaf_t) : list tt_ssh_auth_t := sub (auth t) 0 (auth_num t).

(** No method is in use twice, so they fit the array. *)
Record uaf_ok (t : tt_sshmsg_uaf_t) : Prop := {
  uaf_len : zlen (auth t) = 4;
  uaf_num : 0 ≤ auth_num t ≤ 4;
  uaf_nodup : NoDup (used t);
  uaf_named : all_named (used t);
}.

(** Adding a method keeps the array in order; its bounds are never left. *)
Lemma uaf_add_ok a t :
  uaf_ok t → enum_valid a = true →
  ∃ t', uaf_add a t = Ret t' ∧ uaf_ok t' ∧ partial_success t' = partial_success t ∧
    used t' = (if bool_decide (a ∈ used t) then used t else used t ++ [a]).
Proof.
  intros [Hl Hn Hd Hv] Ha. unfold uaf_add. rewrite mem_read_ok by lia. cbn [exec_bind].
  change (sub (auth t) 0 (auth_num t)) with (used t).
  case_bool_decide as Hin; [by exists t|].
  assert (NoDup (used t ++ [a])) as Hd'.
  { apply NoDup_app. split_and!; [done| |apply NoDup_singleton]. set_solver. }
  assert (Forall (λ a, enum_valid a = true) (used t ++ [a])) as Hv'
    by (apply Forall_app; split; [done|by constructor]).
  assert (zlen (used t) = auth_num t) as Hu by (apply zlen_sub; lia).
  pose proof (enum_bound _ Hd' Hv') as Hb. rewrite zlen_app, Hu in Hb.
  change (zlen [a]) with 1 in Hb. change (zlen enum_table) with 4 in Hb.
  rewrite mem_write_ok by (change (zlen [a]) with 1; lia). cbn [exec_bind].
  assert (used (mk (splice (auth t) (auth_num t) [a]) (u32 (auth_num t + 1)) (partial_success t))
    = used t ++ [a]) as E.
  { unfold used. cbn [auth auth_num]. rewrite u32_small by lia. rewrite sub_split by lia. f_equal.
    - apply sub_splice_before; lia.
    - apply (sub_splice_at _ _ [a]); lia. }
  eexists. split; [reflexivity|]. split; [|by split].
  constructor; rewrite ?E; try done; cbn [auth auth_num].
  - rewrite zlen_splice; [done|lia|change (zlen [a]) with 1; lia].
  - rewrite u32_small by lia. lia.
Qed.

Lemma uaf_names_ok t : uaf_ok t → uaf_names t = Ret (map enum_bytes (used t)).
Proof.
  intros [Hl Hn Hd Hv]. unfold uaf_names. rewrite mem_read_ok by lia. by apply names_of_ok.
Qed.

Lemma uaf_join_small t : uaf_ok t → zlen (names_wire (used t)) ≤ 1040.
Proof. intros []. by apply names_wire_small. Qed.

(** The callback on the names of methods that are new adds them in order. *)
Lemma fold_parse_auth l t :
  uaf_ok t → NoDup (used t ++ l) → all_named l →
  ∃ t', cb_fold __uaf_parse_auth (map enum_bytes l) t = Ret (TT_SUCCESS t') ∧ uaf_ok t' ∧
    used t' = used t ++ l.
Proof.
  revert t. induction l as [|a l IH]; intros t Hok Hnd Hv.
  { exists t. by rewrite app_nil_r. }
  apply Forall_cons_1 in Hv as [Ha Hv]. destruct (enum_bytes_ok a Ha) as (_ & Hm & _).
  cbn [map cb_fold]. unfold __uaf_parse_auth at 1.
  change (tt_ssh_auth_match (enum_bytes a)) with (enum_match (enum_bytes a) : tt_ssh_auth_t).
  rewrite Hm, Ha. destruct (uaf_add_ok a t Hok Ha) as (t' & -> & Hok' & _ & Hu).
  cbn [exec_bind]. rewrite bool_decide_eq_false_2 in Hu.
  - destruct (IH t' Hok') as (t'' & -> & ? & Hu''); [|done|].
    { rewrite Hu, <- app_assoc. done. }
    exists t''. split_and!; [done|done|]. by rewrite Hu'', Hu, <- app_assoc.
  - apply NoDup_app in Hnd as (_ & Hnd & _). intros Hin. apply (Hnd a Hin). set_solver.
Qed.

Lemma uaf_init_ok ps : uaf_ok (mk (replicate 4 TT_SSH_AUTH_PUBLICKEY) 0 ps).
Proof. constructor; cbn; [done|lia|constructor|constructor]. Qed.

#[global] Instance uaf_safe : SshMsgSafe tt_sshmsg_uaf_t.
Proof.
  refine {| msg_init := mk (replicate 4 TT_SSH_AUTH_PUBLICKEY) 0 false; msg_parsed := uaf_ok |};
    [done|].
  cbn. unfold __uaf_parse.
  eapply (reads_bind _ _ uaf_ok).
  - apply reads_namelist; [|by apply uaf_init_ok]. intros name t _ Hok.
    unfold __uaf_parse_auth. destruct (enum_valid (tt_ssh_auth_match name)) eqn:Hv; [|by eexists].
    destruct (uaf_add_ok _ t Hok Hv) as (t' & -> & Hok' & _). by eexists.
  - intros t Hok. eapply reads_bind; [apply reads_bool|]. intros ps _. apply reads_ret.
    by destruct Hok.
Defined.

#[global] Instance uaf_wire : SshMsgWire tt_sshmsg_uaf_t.
Proof.
  refine {| msg_valid := uaf_ok;
    msg_fields t := string_bytes (names_wire (used t)) ++
      bool_byte (partial_success t) |}.
  - done.
  - intros t ?%uaf_join_small. autorewrite with zlen. lia.
  - intros t Hok. pose proof (uaf_names_ok t Hok). pose proof (uaf_join_small t Hok).
    cbn. unfold __uaf_render.
    lazymatch goal with |- renders _ (?x :: ?l) => change (x :: l) with ([x] ++ l) end.
    apply renders_bind; [render_field|]. apply renders_bind; [|render_field].
    eapply renders_access; [eassumption|]. apply renders_names_wire; [apply (uaf_named t Hok)|unfold max_read; lia].
Defined.

#[global] Instance uaf_sized : SshMsgSized tt_sshmsg_uaf_t.
Proof.
  intros t Hok. pose proof (uaf_names_ok t Hok) as E. pose proof (uaf_join_small t Hok).
  cbn. unfold __uaf_render_prepare. rewrite E. cbn [exec_bind].
  unfold names_wire in *. rewrite namelist_prepare_ok by (unfold max_read; lia). prepare_tac.
Qed.

#[global] Instance uaf_roundtrip : SshMsgRoundtrip tt_sshmsg_uaf_t.
Proof.
  refine {| msg_same t t' := used t' = used t ∧ partial_success t' = partial_success t |}.
  intros t Hok. pose proof (uaf_join_small t Hok) as Hj.
  cbn [itf_parse __uaf_op msg_init uaf_safe msg_fields uaf_wire]. unfold __uaf_parse.
  destruct (fold_parse_auth (used t) (mk (replicate 4 TT_SSH_AUTH_PUBLICKEY) 0 false))
    as (t' & E & Hok' & Hu); [apply uaf_init_ok|apply (uaf_nodup t Hok)|apply (uaf_named t Hok)|].
  apply accepts_bind with (P := λ x, x = t').
  - intros b rest Hwf Hc. left. exists t'. split; [|done].
    rewrite (namelist_parse_spec _ (map enum_bytes (used t))) with (rest := rest); try done.
    + by rewrite E.
    + apply names_ok, (uaf_named t Hok).
    + unfold max_read, names_wire in *. lia.
  - intros ? ->. solve_accepts. by split.
Defined.
End uaf.
End Uaf.

(** *** Authentication success: network/ssh/message/tt_ssh_msg_userauth_success.c *)

Module Uas.
Inductive uas_t : Type := no_fields.

Section uas.
Context `{Allocator}.

Definition __uas_render_prepare (t : uas_t) : exec (result (Z * tt_ssh_render_mode_t)) :=
  let msg_len := tt_ssh_byte_render_prepare in
  Ret (TT_SUCCESS (msg_len, TT_SSH_RENDER_MODE_BINARY)).

Definition __uas_render (t : uas_t) : M tt_buf_t unit := tt_ssh_byte_render TT_SSH_MSGID_USERAUTH_SUCCESS.

Definition __uas_parse (t : uas_t) : M tt_buf_t uas_t := mret t.

#[global] Instance __uas_op : SshMsgItf uas_t := {|
  itf_id := TT_SSH_MSGID_USERAUTH_SUCCESS;
  itf_zero := no_fields;
  itf_create t := Ret (TT_SUCCESS t);
  itf_save := false;
  itf_destroy := mret tt;
  itf_render_prepare := __uas_render_prepare;
  itf_render := __uas_render;
  itf_parse := __uas_parse;
|}.

Definition tt_sshmsg_uas_create : (Z → Z) → exec (option (tt_sshmsg_t uas_t)) := tt_sshmsg_create.

#[global] Instance uas_safe : SshMsgSafe uas_t.
Proof.
  refine {| msg_init := no_fields; msg_parsed _ := True |}; [done|]. by apply reads_ret.
Defined.

#[global] Instance uas_wire : SshMsgWire uas_t.
Proof.
  refine {| msg_valid _ := True; msg_fields _ := [] |}; [done|done|].
  intros t _. by apply renders_byte.
Defined.

#[global] Instance uas_sized : SshMsgSized uas_t.
Proof. intros t _. done. Qed.

#[global] Instance uas_roundtrip : SshMsgRoundtrip uas_t.
Proof. refine {| msg_same := eq |}. intros [] _. by apply accepts_ret. Defined.
End uas.
End Uas.

(** *** Request failure: network/ssh/message/tt_ssh_msg_request_failure.c *)

Module Reqfail.
Inductive reqfail_t : Type := no_fields.

Section reqfail.
Context `{Allocator}.

Definition __reqfail_render_prepare (t : reqfail_t) : exec (result (Z * tt_ssh_render_mode_t)) :=
  Ret (TT_SUCCESS (1, TT_SSH_RENDER_MODE_BINARY)).

Definition __reqfail_render (t : reqfail_t) : M tt_buf_t unit := tt_ssh_byte_render TT_SSH_MSGID_REQUEST_FAILURE.

Definition __reqfail_parse (t : reqfail_t) : M tt_buf_t reqfail_t := mret t.

#[global] Instance __reqfail_op : SshMsgItf reqfail_t := {|
  itf_id := TT_SSH_MSGID_REQUEST_FAILURE;
  itf_zero := no_fields;
  itf_create t := Ret (TT_SUCCESS t);
  itf_save := false;
  itf_destroy := mret tt;
  itf_render_prepare := __reqfail_render_prepare;
  itf_render := __reqfail_render;
  itf_parse := __reqfail_parse;
|}.

Definition tt_sshmsg_reqfail_create : (Z → Z) → exec (option (tt_sshmsg_t reqfail_t)) := tt_sshmsg_create.

#[global] Instance reqfail_safe : SshMsgSafe reqfail_t.
Proof.
  refine {| msg_init := no_fields; msg_parsed _ := True |}; [done|]. by apply reads_ret.
Defined.

#[global] Instance reqfail_wire : SshMsgWire reqfail_t.
Proof.
  refine {| msg_valid _ := True; msg_fields _ := [] |}; [done|done|].
  intros t _. by apply renders_byte.
Defined.

#[global] Instance reqfail_sized : SshMsgSized reqfail_t.
Proof. intros t _. done. Qed.

#[global] Instance reqfail_roundtrip : SshMsgRoundtrip reqfail_t.
Proof. refine {| msg_same := eq |}. intros [] _. by apply accepts_ret. Defined.
End reqfail.
End Reqfail.

(** *** Request success: network/ssh/message/tt_ssh_msg_request_success.c *)

Module Reqsucc.
Record tt_sshmsg_reqsucc_t : Type := mk { reserved : Z }.

Section reqsucc.
Context `{Allocator}.

Definition __reqsucc_create (t : tt_sshmsg_reqsucc_t) : exec (result tt_sshmsg_reqsucc_t) :=
  Ret (TT_SUCCESS t).

Definition __reqsucc_render_prepare (t : tt_sshmsg_reqsucc_t) : exec (result (Z * tt_ssh_render_mode_t)) :=
  let msg_len := tt_ssh_byte_render_prepare in
  Ret (TT_SUCCESS (msg_len, TT_SSH_RENDER_MODE_BINARY)).

Definition __reqsucc_render (t : tt_sshmsg_reqsucc_t) : M tt_buf_t unit := tt_ssh_byte_render TT_SSH_MSGID_REQUEST_SUCCESS.

Definition __reqsucc_parse (t : tt_sshmsg_reqsucc_t) : M tt_buf_t tt_sshmsg_reqsucc_t := mret t.

#[global] Instance __reqsucc_op : SshMsgItf tt_sshmsg_reqsucc_t := {|
  itf_id := TT_SSH_MSGID_REQUEST_SUCCESS;
  itf_zero := mk 0;
  itf_create := __reqsucc_create;
  itf_save := false;
  itf_destroy := mret tt;
  itf_render_prepare := __reqsucc_render_prepare;
  itf_render := __reqsucc_render;
  itf_parse := __reqsucc_parse;
|}.

Definition tt_sshmsg_reqsucc_create : (Z → Z) → exec (option (tt_sshmsg_t tt_sshmsg_reqsucc_t)) := tt_sshmsg_create.

#[global] Instance reqsucc_safe : SshMsgSafe tt_sshmsg_reqsucc_t.
Proof.
  refine {| msg_init := mk 0; msg_parsed t := t = mk 0 |}; [done|]. by apply reads_ret.
Defined.

#[global] Instance reqsucc_wire : SshMsgWire tt_sshmsg_reqsucc_t.
Proof.
  refine {| msg_valid t := t = mk 0; msg_fields _ := [] |}; [done|done|].
  intros t _. by apply renders_byte.
Defined.

#[global] Instance reqsucc_sized : SshMsgSized tt_sshmsg_reqsucc_t.
Proof. intros t _. done. Qed.

#[global] Instance reqsucc_roundtrip : SshMsgRoundtrip tt_sshmsg_reqsucc_t.
Proof. refine {| msg_same := eq |}. intros t ->. by apply accepts_ret. Defined.
End reqsucc.
End Reqsucc.

(** *** Global request: network/ssh/message/tt_ssh_msg_global_request.c *)

Module Glbreq.
Record tt_sshmsg_glbreq_t : Type := mk { req_name : tt_blob_t; want_reply : bool }.

Definition set_req_name (b : tt_blob_t) (t : tt_sshmsg_glbreq_t) : tt_sshmsg_glbreq_t :=
  mk b (want_reply t).

Section glbreq.
Context `{Allocator}.

Definition __glbreq_create (gr : tt_sshmsg_glbreq_t) : exec (result tt_sshmsg_glbreq_t) :=
  Ret (TT_SUCCESS (mk blob_null false)).

Definition __glbreq_destroy : M tt_sshmsg_glbreq_t unit :=
  zoom req_name set_req_name tt_blob_destroy.

Definition __glbreq_render_prepare (gr : tt_sshmsg_glbreq_t)
  : exec (result (Z * tt_ssh_render_mode_t)) :=
  let msg_len := tt_ssh_byte_render_prepare in
  let msg_len := u32 (msg_len + tt_ssh_string_render_prepare (blob_len (req_name gr))) in
  let msg_len := u32 (msg_len + tt_ssh_boolean_render_prepare) in
  Ret (TT_SUCCESS (msg_len, TT_SSH_RENDER_MODE_BINARY)).

Definition __glbreq_render (gr : tt_sshmsg_glbreq_t) : M tt_buf_t unit :=
  tt_ssh_byte_render TT_SSH_MSGID_GLOBAL_REQUEST;;
  (s ← access (blob_bytes (req_name gr)); tt_ssh_string_render s);;
  tt_ssh_boolean_render (want_reply gr).

Definition __glbreq_parse (gr : tt_sshmsg_glbreq_t) : M tt_buf_t tt_sshmsg_glbreq_t :=
  s ← tt_ssh_string_parse;
  req_name ← opt_blob_create s (req_name gr);
  want_reply ← tt_ssh_boolean_parse;
  mret (mk req_name want_reply).

#[global] Instance __glbreq_op : SshMsgItf tt_sshmsg_glbreq_t := {|
  itf_id := TT_SSH_MSGID_GLOBAL_REQUEST;
  itf_zero := mk blob_null false;
  itf_create := __glbreq_create;
  itf_save := false;
  itf_destroy := __glbreq_destroy;
  itf_render_prepare := __glbreq_render_prepare;
  itf_render := __glbreq_render;
  itf_parse := __glbreq_parse;
|}.

Definition tt_sshmsg_glbreq_create : (Z → Z) → exec (option (tt_sshmsg_t tt_sshmsg_glbreq_t)) :=
  tt_sshmsg_create.

Definition tt_sshmsg_glbreq_set_reqname (s : list Z) : M (tt_sshmsg_t tt_sshmsg_glbreq_t) unit :=
  on_msg TT_SSH_MSGID_GLOBAL_REQUEST
    (zoom req_name set_req_name
       (tt_blob_destroy;;
        if 0 <? zlen s then tt_blob_create (Some s) (zlen s) else tt_blob_init)).
Definition tt_sshmsg_glbreq_set_wantreply (w : bool) : M (tt_sshmsg_t tt_sshmsg_glbreq_t) unit :=
  on_msg TT_SSH_MSGID_GLOBAL_REQUEST (modify (λ t, mk (req_name t) w)).

#[global] Instance glbreq_safe : SshMsgSafe tt_sshmsg_glbreq_t.
Proof.
  refine {| msg_init := mk blob_null false; msg_parsed t := blob_ok (req_name t) |}; [done|].
  cbn. unfold __glbreq_parse. cbn [req_name]. solve_reads. done.
Defined.

#[global] Instance glbreq_wire : SshMsgWire tt_sshmsg_glbreq_t.
Proof.
  refine {| msg_valid t := blob_ok (req_name t);
    msg_fields t := string_bytes (blob_data (req_name t)) ++ bool_byte (want_reply t) |}.
  - done.
  - intros t (_ & _ & _ & ?)%blob_bytes_ok. unfold max_read in *. autorewrite with zlen. lia.
  - intros t (? & _ & ? & _)%blob_bytes_ok. cbn. unfold __glbreq_render. solve_renders.
Defined.

#[global] Instance glbreq_sized : SshMsgSized tt_sshmsg_glbreq_t.
Proof.
  intros t (_ & E & _ & ?)%blob_bytes_ok. cbn. unfold __glbreq_render_prepare. rewrite E.
  prepare_tac.
Qed.

#[global] Instance glbreq_roundtrip : SshMsgRoundtrip tt_sshmsg_glbreq_t.
Proof.
  refine {| msg_same t t' := want_reply t' = want_reply t ∧
    blob_holds (blob_data (req_name t)) (req_name t') |}.
  intros t (_ & _ & Hs)%blob_bytes_ok. pose proof Hs as [? ?]. cbn.
  unfold __glbreq_parse. solve_accepts.
  eapply accepts_silent; [by apply yields_opt_blob|]. intros d Hd. solve_accepts. done.
Defined.
End glbreq.
End Glbreq.

(** *** Authentication request: network/ssh/message/tt_ssh_msg_userauth_request.c *)

Module Uar.
Record tt_ssh_auth_pubkey_t : Type := mk_pubkey {
  pubkey_alg : tt_ssh_pubkey_alg_t;
  pubkey : tt_blob_t;
  signature : tt_blob_t;
}.

Record tt_ssh_auth_pwd_t : Type := mk_pwd { pwd : tt_blob_t; new_pwd : tt_blob_t }.

(** The union [auth_u]: all zero, which is a value of both members, or holding
    one of them.  Reading it as the other member is undefined. *)
Inductive auth_union : Type :=
  | AuthZero
  | AuthPubkey (k : tt_ssh_auth_pubkey_t)
  | AuthPwd (w : tt_ssh_auth_pwd_t).

Definition zero_pubkey : tt_ssh_auth_pubkey_t :=
  mk_pubkey TT_SSH_PUBKEY_ALG_DSS blob_null blob_null.
Definition zero_pwd : tt_ssh_auth_pwd_t := mk_pwd blob_null blob_null.

Definition as_pubkey (u : auth_union) : exec tt_ssh_auth_pubkey_t :=
  match u with AuthZero => Ret zero_pubkey | AuthPubkey k => Ret k | AuthPwd _ => Undef end.
Definition as_pwd (u : auth_union) : exec tt_ssh_auth_pwd_t :=
  match u with AuthZero => Ret zero_pwd | AuthPwd w => Ret w | AuthPubkey _ => Undef end.

Record tt_sshmsg_uar_t : Type := mk {
  user : tt_blob_t;
  service : tt_ssh_service_t;
  auth : tt_ssh_auth_t;
  auth_u : auth_union;
}.

Definition set_user (b : tt_blob_t) (t : tt_sshmsg_uar_t) : tt_sshmsg_uar_t :=
  mk b (service t) (auth t) (auth_u t).
Definition set_auth_u (u : auth_union) (t : tt_sshmsg_uar_t) : tt_sshmsg_uar_t :=
  mk (user t) (service t) (auth t) u.

Section uar.
Context `{Allocator}.

Definition __uar_create (uar : tt_sshmsg_uar_t) : exec (result tt_sshmsg_uar_t) :=
  Ret (TT_SUCCESS (mk blob_null TT_SSH_SERVICE_NUM TT_SSH_AUTH_NUM AuthZero)).

(** Updates of the members of the union. *)
Definition on_pubkey (f : M tt_ssh_auth_pubkey_t unit) : M tt_sshmsg_uar_t unit :=
  t ← gets id;
  k ← access (as_pubkey (auth_u t));
  zoom (λ _, k) (λ k, set_auth_u (AuthPubkey k)) f.
Definition on_pwd (f : M tt_ssh_auth_pwd_t unit) : M tt_sshmsg_uar_t unit :=
  t ← gets id;
  w ← access (as_pwd (auth_u t));
  zoom (λ _, w) (λ w, set_auth_u (AuthPwd w)) f.

Definition on_key (f : M tt_blob_t unit) : M tt_ssh_auth_pubkey_t unit :=
  zoom pubkey (λ b k, mk_pubkey (pubkey_alg k) b (signature k)) f.
Definition on_signature (f : M tt_blob_t unit) : M tt_ssh_auth_pubkey_t unit :=
  zoom signature (λ b k, mk_pubkey (pubkey_alg k) (pubkey k) b) f.
Definition on_old_pwd (f : M tt_blob_t unit) : M tt_ssh_auth_pwd_t unit :=
  zoom pwd (λ b w, mk_pwd b (new_pwd w)) f.
Definition on_new_pwd (f : M tt_blob_t unit) : M tt_ssh_auth_pwd_t unit :=
  zoom new_pwd (λ b w, mk_pwd (pwd w) b) f.

Definition __uar_destroy : M tt_sshmsg_uar_t unit :=
  zoom user set_user tt_blob_destroy;;
  t ← gets id;
  match auth t with
  | TT_SSH_AUTH_PUBLICKEY =>
      on_pubkey (on_key tt_blob_destroy;; on_signature tt_blob_destroy)
  | TT_SSH_AUTH_PASSWORD =>
      on_pwd (on_old_pwd tt_blob_destroy;; on_new_pwd tt_blob_destroy)
  | _ => mret tt
  end.

Definition blob_unset (b : tt_blob_t) : bool := negb (blob_set_p b) || (blob_len b =? 0).

Definition __uar_render_prepare (uar : tt_sshmsg_uar_t)
  : exec (result (Z * tt_ssh_render_mode_t)) :=
  let sshserv := service uar in
  let sshauth := auth uar in
  if negb (enum_valid sshserv) then Ret (TT_ERROR TT_FAIL)
  else if negb (enum_valid sshauth) then Ret (TT_ERROR TT_FAIL)
  else
    let msg_len := tt_ssh_byte_render_prepare in
    let msg_len := u32 (msg_len + tt_ssh_string_render_prepare (blob_len (user uar))) in
    exec_bind (enum_name sshserv) (λ serv_name,
    let msg_len := u32 (msg_len + tt_ssh_string_render_prepare (zlen serv_name)) in
    exec_bind (enum_name sshauth) (λ auth_name,
    let msg_len := u32 (msg_len + tt_ssh_string_render_prepare (zlen auth_name)) in
    match sshauth with
    | TT_SSH_AUTH_PUBLICKEY =>
        exec_bind (as_pubkey (auth_u uar)) (λ k,
        if negb (enum_valid (pubkey_alg k)) then Ret (TT_ERROR TT_FAIL)
        else if blob_unset (pubkey k) then Ret (TT_ERROR TT_FAIL)
        else
          let msg_len := u32 (msg_len + tt_ssh_boolean_render_prepare) in
          exec_bind (enum_name (pubkey_alg k)) (λ alg_name,
          let msg_len := u32 (msg_len + tt_ssh_string_render_prepare (zlen alg_name)) in
          let msg_len := u32 (msg_len + tt_ssh_string_render_prepare (blob_len (pubkey k))) in
          let msg_len :=
            if blob_set_p (signature k)
            then u32 (msg_len + tt_ssh_string_render_prepare (blob_len (signature k)))
            else msg_len in
          Ret (TT_SUCCESS (msg_len, TT_SSH_RENDER_MODE_BINARY))))
    | TT_SSH_AUTH_PASSWORD =>
        exec_bind (as_pwd (auth_u uar)) (λ w,
        if blob_unset (pwd w) then Ret (TT_ERROR TT_FAIL)
        else
          let msg_len := u32 (msg_len + tt_ssh_boolean_render_prepare) in
          let msg_len := u32 (msg_len + tt_ssh_string_render_prepare (blob_len (pwd w))) in
          let msg_len :=
            if blob_set_p (new_pwd w)
            then u32 (msg_len + tt_ssh_string_render_prepare (blob_len (new_pwd w)))
            else msg_len in
          Ret (TT_SUCCESS (msg_len, TT_SSH_RENDER_MODE_BINARY)))
    | _ => Crash
    end)).

Definition render_blob (b : tt_blob_t) : M tt_buf_t unit :=
  s ← access (blob_bytes b); tt_ssh_string_render s.
Definition render_name `{NamedEnum A} (a : A) : M tt_buf_t unit :=
  name ← access (enum_name a); tt_ssh_string_render name.

Definition __uar_render (uar : tt_sshmsg_uar_t) : M tt_buf_t unit :=
  tt_ssh_byte_render TT_SSH_MSGID_USERAUTH_REQUEST;;
  render_blob (user uar);;
  render_name (service uar);;
  render_name (auth uar);;
  match auth uar with
  | TT_SSH_AUTH_PUBLICKEY =>
      k ← access (as_pubkey (auth_u uar));
      tt_ssh_boolean_render (blob_set_p (signature k));;
      render_name (pubkey_alg k);;
      render_blob (pubkey k);;
      if blob_set_p (signature k) then render_blob (signature k) else mret tt
  | TT_SSH_AUTH_PASSWORD =>
      w ← access (as_pwd (auth_u uar));
      tt_ssh_boolean_render (blob_set_p (new_pwd w));;
      render_blob (pwd w);;
      if blob_set_p (new_pwd w) then render_blob (new_pwd w) else mret tt
  | _ => crash
  end.

(** The algorithm name is matched but not stored. *)
Definition __uar_parse (uar : tt_sshmsg_uar_t) : M tt_buf_t tt_sshmsg_uar_t :=
  s ← tt_ssh_string_parse;
  user ← opt_blob_create s (user uar);
  s ← tt_ssh_string_parse;
  let sshserv := tt_ssh_serv_match s in
  check_enum sshserv;;
  s ← tt_ssh_string_parse;
  let sshauth := tt_ssh_auth_match s in
  check_enum sshauth;;
  match sshauth with
  | TT_SSH_AUTH_PUBLICKEY =>
      k ← access (as_pubkey (auth_u uar));
      has_signature ← tt_ssh_boolean_parse;
      s ← tt_ssh_string_parse;
      check_enum (tt_ssh_pubkey_alg_match s);;
      s ← tt_ssh_string_parse;
      key ← req_blob_create s (pubkey k);
      sig ← (if (has_signature : bool) then s ← tt_ssh_string_parse; req_blob_create s (signature k)
             else mret (signature k));
      mret (mk user sshserv sshauth (AuthPubkey (mk_pubkey (pubkey_alg k) key sig)))
  | TT_SSH_AUTH_PASSWORD =>
      w ← access (as_pwd (auth_u uar));
      has_newpwd ← tt_ssh_boolean_parse;
      s ← tt_ssh_string_parse;
      old ← req_blob_create s (pwd w);
      new ← (if (has_newpwd : bool) then s ← tt_ssh_string_parse; req_blob_create s (new_pwd w)
             else mret (new_pwd w));
      mret (mk user sshserv sshauth (AuthPwd (mk_pwd old new)))
  | _ => mret (mk user sshserv sshauth (auth_u uar))
  end.

#[global] Instance __uar_op : SshMsgItf tt_sshmsg_uar_t := {|
  itf_id := TT_SSH_MSGID_USERAUTH_REQUEST;
  itf_zero := mk blob_null TT_SSH_SERVICE_USERAUTH TT_SSH_AUTH_PUBLICKEY AuthZero;
  itf_create := __uar_create;
  itf_save := false;
  itf_destroy := __uar_destroy;
  itf_render_prepare := __uar_render_prepare;
  itf_render := __uar_render;
  itf_parse := __uar_parse;
|}.

Definition tt_sshmsg_uar_create : (Z → Z) → exec (option (tt_sshmsg_t tt_sshmsg_uar_t)) :=
  tt_sshmsg_create.

Definition tt_sshmsg_uar_set_user (s : list Z) : M (tt_sshmsg_t tt_sshmsg_uar_t) unit :=
  on_msg TT_SSH_MSGID_USERAUTH_REQUEST
    (zoom user set_user
       (tt_blob_destroy;;
        if 0 <? zlen s then tt_blob_create (Some s) (zlen s) else tt_blob_init)).
Definition tt_sshmsg_uar_set_service (s : tt_ssh_service_t)
  : M (tt_sshmsg_t tt_sshmsg_uar_t) unit :=
  on_msg TT_SSH_MSGID_USERAUTH_REQUEST
    (assert_always (enum_valid s);; modify (λ t, mk (user t) s (auth t) (auth_u t))).
Definition tt_sshmsg_uar_set_auth (a : tt_ssh_auth_t) : M (tt_sshmsg_t tt_sshmsg_uar_t) unit :=
  on_msg TT_SSH_MSGID_USERAUTH_REQUEST
    (assert_always (enum_valid a);; modify (λ t, mk (user t) (service t) a (auth_u t))).

(** [if (uar->auth != a) return TT_FAIL;] *)
Definition check_auth (a : tt_ssh_auth_t) : M tt_sshmsg_uar_t unit :=
  t ← gets id; if bool_decide (auth t = a) then mret tt else fail TT_FAIL.

Definition renew_blob (s : list Z) : M tt_blob_t unit :=
  tt_blob_destroy;; do_r TT_FAIL (tt_blob_create (Some s) (zlen s)).

Definition tt_sshmsg_uar_set_pubkey_alg (alg : tt_ssh_pubkey_alg_t)
  : M (tt_sshmsg_t tt_sshmsg_uar_t) unit :=
  on_msg TT_SSH_MSGID_USERAUTH_REQUEST
    (assert_always (enum_valid alg);; check_auth TT_SSH_AUTH_PUBLICKEY;;
     on_pubkey (modify (λ k, mk_pubkey alg (pubkey k) (signature k)))).
Definition tt_sshmsg_uar_set_pubkey (s : list Z) : M (tt_sshmsg_t tt_sshmsg_uar_t) unit :=
  on_msg TT_SSH_MSGID_USERAUTH_REQUEST
    (assert_always (negb (zlen s =? 0));; check_auth TT_SSH_AUTH_PUBLICKEY;;
     on_pubkey (on_key (renew_blob s))).
Definition tt_sshmsg_uar_set_signature (s : list Z) : M (tt_sshmsg_t tt_sshmsg_uar_t) unit :=
  on_msg TT_SSH_MSGID_USERAUTH_REQUEST
    (assert_always (negb (zlen s =? 0));; check_auth TT_SSH_AUTH_PUBLICKEY;;
     on_pubkey (on_signature (renew_blob s))).
Definition tt_sshmsg_uar_set_pwd (s : list Z) : M (tt_sshmsg_t tt_sshmsg_uar_t) unit :=
  on_msg TT_SSH_MSGID_USERAUTH_REQUEST
    (check_auth TT_SSH_AUTH_PASSWORD;; on_pwd (on_old_pwd (renew_blob s))).
Definition tt_sshmsg_uar_set_newpwd (s : list Z) : M (tt_sshmsg_t tt_sshmsg_uar_t) unit :=
  on_msg TT_SSH_MSGID_USERAUTH_REQUEST
    (check_auth TT_SSH_AUTH_PASSWORD;; on_pwd (on_new_pwd (renew_blob s))).

(** ** Validity and wire format *)

(** A blob that must, or may, hold a non-empty string. *)
Definition blob_full (b : tt_blob_t) : Prop := blob_ok b ∧ blob_data b ≠ [].
Definition blob_opt (b : tt_blob_t) : Prop := b = blob_null ∨ blob_full b.

Definition opt_string (b : tt_blob_t) : list Z :=
  if blob_set_p b then string_bytes (blob_data b) else [].

(** The method-specific fields. *)
Definition method_fields (t : tt_sshmsg_uar_t) : list Z :=
  match auth t with
  | TT_SSH_AUTH_PUBLICKEY =>
      match as_pubkey (auth_u t) with
      | Ret k => bool_byte (blob_set_p (signature k)) ++
          string_bytes (enum_bytes (pubkey_alg k)) ++ string_bytes (blob_data (pubkey k)) ++
          opt_string (signature k)
      | _ => []
      end
  | TT_SSH_AUTH_PASSWORD =>
      match as_pwd (auth_u t) with
      | Ret w => bool_byte (blob_set_p (new_pwd w)) ++ string_bytes (blob_data (pwd w)) ++
          opt_string (new_pwd w)
      | _ => []
      end
  | _ => []
  end.

Definition uar_fields (t : tt_sshmsg_uar_t) : list Z :=
  string_bytes (blob_data (user t)) ++ string_bytes (enum_bytes (service t)) ++
  string_bytes (enum_bytes (auth t)) ++ method_fields t.

Definition method_ok (t : tt_sshmsg_uar_t) : Prop :=
  match auth t with
  | TT_SSH_AUTH_PUBLICKEY => ∃ k, as_pubkey (auth_u t) = Ret k ∧
      enum_valid (pubkey_alg k) = true ∧ blob_full (pubkey k) ∧ blob_opt (signature k)
  | TT_SSH_AUTH_PASSWORD => ∃ w, as_pwd (auth_u t) = Ret w ∧
      blob_full (pwd w) ∧ blob_opt (new_pwd w)
  | _ => False
  end.

Definition uar_ok (t : tt_sshmsg_uar_t) : Prop :=
  blob_ok (user t) ∧ enum_valid (service t) = true ∧ method_ok t ∧
  zlen (uar_fields t) ≤ max_read.

Lemma blob_full_spec b :
  blob_full b → blob_unset b = false ∧ blob_set_p b = true ∧ blob_len b = zlen (blob_data b).
Proof.
  intros [Hok Hne]. destruct (blob_bytes_ok b Hok) as (_ & El & _).
  unfold blob_unset. rewrite El, zlen_pos by done.
  unfold blob_set_p, blob_ok, blob_data in *. destruct b as [[|l|] n]; by cbn in *.
Qed.

Lemma blob_opt_len b :
  blob_opt b →
  (blob_set_p b = true ∧ blob_len b = zlen (blob_data b) ∧
     zlen (opt_string b) = 4 + zlen (blob_data b)) ∨
  (blob_set_p b = false ∧ zlen (opt_string b) = 0).
Proof.
  unfold opt_string. intros [->|(_ & -> & E)%blob_full_spec]; [by right|left].
  by rewrite zlen_string_bytes.
Qed.

Lemma renders_render_blob b : blob_ok b → renders (render_blob b) (string_bytes (blob_data b)).
Proof. apply renders_blob. Qed.

Lemma renders_render_name `{NamedEnumLaws A} (a : A) :
  enum_valid a = true → renders (render_name a) (string_bytes (enum_bytes a)).
Proof. intros (E & _ & Hb & _)%enum_bytes_ok. by eapply renders_enum. Qed.

Lemma renders_opt b :
  blob_opt b → renders (if blob_set_p b then render_blob b else mret tt) (opt_string b).
Proof.
  unfold opt_string. intros [->|Hf]; [apply renders_ret|].
  destruct (blob_full_spec b Hf) as (_ & -> & _). by apply renders_render_blob, Hf.
Qed.

Lemma auth_method_valid t : method_ok t → enum_valid (auth t) = true.
Proof. unfold method_ok. by destruct (auth t). Qed.

#[global] Instance uar_wire : SshMsgWire tt_sshmsg_uar_t.
Proof.
  refine {| msg_valid := uar_ok; msg_fields := uar_fields |}; [done| |].
  { intros t (_ & _ & _ & Hl). unfold max_read in Hl. lia. }
  intros t (Hu & Hs & Hm & _). cbn [itf_render __uar_op itf_id].
  change (?x :: uar_fields t) with ([x] ++ uar_fields t). unfold __uar_render, uar_fields.
  apply renders_bind; [by apply renders_byte|].
  apply renders_bind; [by apply renders_render_blob|].
  apply renders_bind; [by apply renders_render_name|].
  apply renders_bind; [by apply renders_render_name, auth_method_valid|].
  unfold method_fields. unfold method_ok in Hm. destruct (auth t); try done.
  - destruct Hm as (k & -> & ? & [? _] & ?). eapply renders_access; [reflexivity|].
    apply renders_bind; [apply renders_bool|].
    apply renders_bind; [by apply renders_render_name|].
    apply renders_bind; [by apply renders_render_blob|by apply renders_opt].
  - destruct Hm as (w & -> & [? _] & ?). eapply renders_access; [reflexivity|].
    apply renders_bind; [apply renders_bool|].
    apply renders_bind; [by apply renders_render_blob|by apply renders_opt].
Defined.

#[global] Instance uar_sized : SshMsgSized tt_sshmsg_uar_t.
Proof.
  intros t (Hu & Hs & Hm & Hl). pose proof (auth_method_valid t Hm) as Ha.
  destruct (blob_bytes_ok _ Hu) as (_ & Eu & _). destruct (enum_bytes_ok _ Hs) as (Es & _ & _ & ?).
  destruct (enum_bytes_ok _ Ha) as (Ea & _ & _ & ?).
  cbn [itf_render_prepare __uar_op msg_fields uar_wire].
  unfold __uar_render_prepare. rewrite Hs, Ha, Es, Ea, Eu. cbn [negb exec_bind].
  unfold uar_fields, method_fields, method_ok in *. destruct (auth t) eqn:E; try done.
  - destruct Hm as (k & Ek & Halg & Hk & Hsig). rewrite Ek in *. cbn [exec_bind].
    destruct (enum_bytes_ok _ Halg) as (Eg & _ & _ & ?).
    destruct (blob_full_spec _ Hk) as (-> & _ & ->). rewrite Halg, Eg. cbn [negb exec_bind].
    destruct (blob_opt_len _ Hsig) as [(-> & -> & Ho)|[-> Ho]];
      autorewrite with zlen in *; rewrite Ho in *; prepare_tac.
  - destruct Hm as (w & Ew & Hp & Hn). rewrite Ew in *. cbn [exec_bind].
    destruct (blob_full_spec _ Hp) as (-> & _ & ->). cbn [negb exec_bind].
    destruct (blob_opt_len _ Hn) as [(-> & -> & Ho)|[-> Ho]];
      autorewrite with zlen in *; rewrite Ho in *; prepare_tac.
Qed.

(** *** Reading *)

(** What parsing leaves: known names and blobs in order. *)
Definition uar_parsed (t : tt_sshmsg_uar_t) : Prop :=
  blob_ok (user t) ∧ enum_valid (service t) = true ∧ enum_valid (auth t) = true ∧
  match auth t with
  | TT_SSH_AUTH_PUBLICKEY =>
      ∃ k, auth_u t = AuthPubkey k ∧ blob_ok (pubkey k) ∧ blob_ok (signature k)
  | TT_SSH_AUTH_PASSWORD => ∃ w, auth_u t = AuthPwd w ∧ blob_ok (pwd w) ∧ blob_ok (new_pwd w)
  | _ => True
  end.

Lemma reads_opt_string (c : bool) :
  reads (if c then s ← tt_ssh_string_parse; req_blob_create s blob_null else mret blob_null)
    blob_ok.
Proof.
  destruct c; [|by apply reads_ret]. eapply reads_bind; [apply reads_string|].
  intros s Hs. eapply reads_weaken; [by apply reads_req_blob|]. by intros b [? _].
Qed.

#[global] Instance uar_safe : SshMsgSafe tt_sshmsg_uar_t.
Proof.
  refine {| msg_init := mk blob_null TT_SSH_SERVICE_NUM TT_SSH_AUTH_NUM AuthZero;
    msg_parsed := uar_parsed |}; [done|].
  cbn [itf_parse __uar_op]. unfold __uar_parse. cbn [user auth_u as_pubkey as_pwd].
  do 5 (eapply reads_bind; [solve [eauto with codec]|intros ? ?]).
  eapply reads_bind; [apply reads_check|intros ? Ha].
  destruct (tt_ssh_auth_match _) eqn:E; try (apply reads_ret; by split_and!).
  all: change (access (Ret ?x) ≫= ?k) with (k x); cbn beta.
  - eapply reads_bind; [apply reads_bool|intros sg _].
    eapply reads_bind; [apply reads_string|intros alg _].
    eapply reads_bind; [apply reads_check|intros ? ?].
    eapply reads_bind; [apply reads_string|intros s Hs].
    eapply reads_bind; [by apply reads_req_blob|intros key [Hk _]].
    eapply reads_bind; [apply reads_opt_string|intros b Hb]. apply reads_ret.
    split_and!; cbn [user service auth auth_u]; eauto.
  - eapply reads_bind; [apply reads_bool|intros nw _].
    eapply reads_bind; [apply reads_string|intros s Hs].
    eapply reads_bind; [by apply reads_req_blob|intros old [Ho _]].
    eapply reads_bind; [apply reads_opt_string|intros b Hb]. apply reads_ret.
    split_and!; cbn [user service auth auth_u]; eauto.
Defined.

(** The parsed message agrees with the rendered one, except that the public key
    algorithm is always the first one. *)
Definition uar_same (t t' : tt_sshmsg_uar_t) : Prop :=
  blob_data (user t') = blob_data (user t) ∧ service t' = service t ∧ auth t' = auth t ∧
  match auth t with
  | TT_SSH_AUTH_PUBLICKEY => ∃ k k', as_pubkey (auth_u t) = Ret k ∧
      auth_u t' = AuthPubkey k' ∧ pubkey_alg k' = TT_SSH_PUBKEY_ALG_DSS ∧
      blob_data (pubkey k') = blob_data (pubkey k) ∧
      blob_data (signature k') = blob_data (signature k)
  | TT_SSH_AUTH_PASSWORD => ∃ w w', as_pwd (auth_u t) = Ret w ∧ auth_u t' = AuthPwd w' ∧
      blob_data (pwd w') = blob_data (pwd w) ∧ blob_data (new_pwd w') = blob_data (new_pwd w)
  | _ => True
  end.

Lemma blob_full_str b : blob_full b → str_ok (blob_data b) ∧ blob_data b ≠ [].
Proof. intros [Hb Hne]. split; [by apply blob_bytes_ok|done]. Qed.

Lemma accepts_opt {B} b (k : tt_blob_t → M tt_buf_t B) Q :
  blob_opt b → (∀ b', blob_data b' = blob_data b → accepts (k b') [] Q) →
  accepts ((if blob_set_p b then s ← tt_ssh_string_parse; req_blob_create s blob_null
            else mret blob_null) ≫= k) (opt_string b) Q.
Proof.
  intros Hb Hk. unfold opt_string. destruct Hb as [->|Hf]; [by apply Hk|].
  destruct (blob_full_spec b Hf) as (_ & -> & _). destruct (blob_full_str b Hf) as [Hs Hne].
  rewrite <- (app_nil_r (string_bytes _)). eapply (accepts_bind _ k _ _ (blob_holds (blob_data b))).
  - rewrite <- (app_nil_r (string_bytes _)). eapply yields_then; [apply parses_string, Hs|].
    by apply yields_req_blob.
  - intros b' [_ Hd]. by apply Hk.
Qed.

#[global] Instance uar_roundtrip : SshMsgRoundtrip tt_sshmsg_uar_t.
Proof.
  refine {| msg_same := uar_same |}. intros t (Hu & Hs & Hm & _).
  pose proof (auth_method_valid t Hm) as Ha. destruct (blob_bytes_ok _ Hu) as (_ & _ & Hub).
  destruct (enum_bytes_ok _ Hs) as (_ & Ms & _ & ?). destruct (enum_bytes_ok _ Ha) as (_ & Ma & _ & ?).
  cbn [itf_parse __uar_op msg_init uar_safe msg_fields uar_wire].
  unfold __uar_parse, uar_fields. cbn [user auth_u as_pubkey as_pwd].
  eapply accepts_then; [apply parses_string, Hub|].
  eapply accepts_silent; [by apply yields_opt_blob|]. intros u [_ Hud].
  eapply accepts_then; [apply parses_string; size_tac|].
  change (tt_ssh_serv_match (enum_bytes (service t))) with
    (enum_match (enum_bytes (service t)) : tt_ssh_service_t). rewrite Ms.
  eapply accepts_silent; [by apply yields_check|]. intros _ _.
  eapply accepts_then; [apply parses_string; size_tac|].
  change (tt_ssh_auth_match (enum_bytes (auth t))) with
    (enum_match (enum_bytes (auth t)) : tt_ssh_auth_t). rewrite Ma.
  eapply accepts_silent; [by apply yields_check|]. intros _ _.
  unfold method_fields, uar_same, method_ok in *. destruct (auth t) eqn:E; try done.
  - destruct Hm as (k & Ek & Halg & Hk & Hsig). rewrite Ek.
    destruct (enum_bytes_ok _ Halg) as (_ & Mg & _ & ?).
    destruct (blob_full_str _ Hk) as [Hks Hkn].
    change (access (Ret ?x) ≫= ?k) with (k x). cbn beta.
    eapply accepts_then; [apply parses_bool|].
    eapply accepts_then; [apply parses_string; size_tac|].
    change (tt_ssh_pubkey_alg_match (enum_bytes (pubkey_alg k))) with
      (enum_match (enum_bytes (pubkey_alg k)) : tt_ssh_pubkey_alg_t). rewrite Mg.
    eapply accepts_silent; [by apply yields_check|]. intros _ _.
    eapply accepts_then; [apply parses_string, Hks|].
    eapply accepts_silent; [by apply yields_req_blob|]. intros key [_ Hkey].
    apply (accepts_opt (signature k)); [done|]. intros sg Hsg. apply accepts_ret.
    cbn [user service auth auth_u]. split_and!; [done|done|done|].
    eexists _, _. by split_and!.
  - destruct Hm as (w & Ew & Hp & Hn). rewrite Ew.
    destruct (blob_full_str _ Hp) as [Hps Hpn].
    change (access (Ret ?x) ≫= ?k) with (k x). cbn beta.
    eapply accepts_then; [apply parses_bool|].
    eapply accepts_then; [apply parses_string, Hps|].
    eapply accepts_silent; [by apply yields_req_blob|]. intros old [_ Hold].
    apply (accepts_opt (new_pwd w)); [done|]. intros nw Hnw. apply accepts_ret.
    cbn [user service auth auth_u]. split_and!; [done|done|done|].
    eexists _, _. by split_and!.
Defined.

(** The public key algorithm of an authentication request is lost: parsing
    the fields of any valid request for a key that is not DSS succeeds, but the
    parsed message says DSS. *)
Theorem uar_alg_lost t k b rest :
  malloc_total → msg_valid t → auth t = TT_SSH_AUTH_PUBLICKEY →
  as_pubkey (auth_u t) = Ret k → pubkey_alg k ≠ TT_SSH_PUBKEY_ALG_DSS →
  buf_wf b → content b = msg_fields t ++ rest →
  ∃ t' k' b', itf_parse msg_init b = Ret (TT_SUCCESS t', b') ∧
    auth t' = TT_SSH_AUTH_PUBLICKEY ∧ auth_u t' = AuthPubkey k' ∧
    blob_data (pubkey k') = blob_data (pubkey k) ∧ pubkey_alg k' ≠ pubkey_alg k.
Proof.
  intros Hm Hv Ha Hk Hne Hwf Hc.
  destruct (law_parse t Hv b rest Hwf Hc) as [(t' & b' & E & Hs)|(? & ? & _ & ?)]; [|done].
  destruct Hs as (_ & _ & Ha' & Hs). rewrite Ha in Hs.
  destruct Hs as (k0 & k' & E0 & Hu & Hd & Hp & _). rewrite Hk in E0. injection E0 as <-.
  exists t', k', b'. split_and!; try done; [by rewrite Ha', Ha|]. rewrite Hd. intros E0. by apply Hne.
Qed.
End uar.

(** A request to log in as "u" with an RSA key, not signed. *)
Definition rsa_request : tt_sshmsg_uar_t :=
  mk (mk_blob (BlobBlock [117]) 1) TT_SSH_SERVICE_CONNECTION TT_SSH_AUTH_PUBLICKEY
    (AuthPubkey (mk_pubkey TT_SSH_PUBKEY_ALG_RSA (mk_blob (BlobBlock [1; 2]) 2) blob_null)).

Lemma uar_alg_lost_witness :
  ∃ t' k' b', itf_parse (H:=zero_alloc) (msg_init (H:=zero_alloc))
      (recv_buf (msg_fields (H:=zero_alloc) rsa_request)) = Ret (TT_SUCCESS t', b') ∧
    auth t' = TT_SSH_AUTH_PUBLICKEY ∧ auth_u t' = AuthPubkey k' ∧
    blob_data (pubkey k') = [1; 2] ∧ pubkey_alg k' ≠ TT_SSH_PUBKEY_ALG_RSA.
Proof.
  assert (str_ok [117] ∧ str_ok [1; 2]) as [Hs1 Hs2] by (split; (split; [bytes_tac|done])).
  destruct (recv_buf_ok (msg_fields (H:=zero_alloc) rsa_request)) as [Hwf Hc].
  { change (Forall is_u8 (uar_fields rsa_request)). vm_compute uar_fields. bytes_tac. }
  { reflexivity. }
  apply (uar_alg_lost (H:=zero_alloc) rsa_request
    (mk_pubkey TT_SSH_PUBKEY_ALG_RSA (mk_blob (BlobBlock [1; 2]) 2) blob_null)
    (recv_buf (msg_fields (H:=zero_alloc) rsa_request)) []).
  - exact zero_alloc_total.
  - split; [by split|]. split; [done|]. split; [|done]. eexists. split; [reflexivity|].
    split; [done|]. split; [by split|]. by left.
  - reflexivity.
  - reflexivity.
  - discriminate.
  - exact Hwf.
  - by rewrite Hc, app_nil_r.
Defined.
End Uar.
