(* ===== verification/SshMsgKeyinit.v ===== *)
(** The key exchange negotiation message (network/ssh/message/tt_ssh_msg_keyinit.h
    and .c): eight lists of algorithms, filled by the application or by parsing
    the name-lists of the peer. *)

From S2P Require Import Prelude MemSpring Buffer BufferFormat SshDef SshCodec SshMsg SshFields.
From stdpp Require Import sets.

#[local] Open Scope Z_scope.

Definition __MAX_ALG_NUM : Z := 10.

(** The random numbers that [tt_buf_put_rand] draws for the cookie. *)
Class Random := { rand_u64 : nat → Z; rand_u32 : nat → Z }.

(** ** An array of algorithms and the number of those in use *)

Record alg_list (A : Type) : Type := mk_algs { algs : list A; alg_num : Z }.
Arguments mk_algs {A}.
Arguments algs {A}.
Arguments alg_num {A}.

(** What one [__keyinit_addalg_...] does with its array.  The capacity
    [TT_SSH_..._ALG_NUM] is the size of the name table. *)
Definition addalg `{NamedEnum A} (a : A) (s : alg_list A) : exec (result (alg_list A)) :=
  exec_bind (mem_read (algs s) 0 (alg_num s)) (λ l,
    if bool_decide (a ∈ l) then Ret (TT_SUCCESS s)
    else if alg_num s <? zlen (enum_table (A:=A)) then
      exec_bind (mem_write (algs s) (alg_num s) [a]) (λ l',
        Ret (TT_SUCCESS (mk_algs l' (u32 (alg_num s + 1)))))
    else Ret (TT_ERROR TT_FAIL)).

(** [__fill_alg_name]: the local array [alg_name] has [__MAX_ALG_NUM] elements. *)
Definition fill_alg_name `{NamedEnum A} (s : alg_list A) : exec (list (list Z)) :=
  if __MAX_ALG_NUM <? alg_num s then Undef
  else exec_bind (mem_read (algs s) 0 (alg_num s)) names_of.

(** [__check_alg_num] *)
Definition check_alg_num {A} (s : alg_list A) : bool :=
  negb (alg_num s =? 0) && negb (__MAX_ALG_NUM <? alg_num s).

(** ** The arrays never overflow *)

(** The algorithms in use. *)
Definition used {A} (s : alg_list A) : list A := sub (algs s) 0 (alg_num s).

(** No algorithm is in use twice, so they fit the array. *)
Record alg_ok `{NamedEnum A} (s : alg_list A) : Prop := {
  alg_len : zlen (algs s) = zlen (enum_table (A:=A));
  alg_bound : 0 ≤ alg_num s ≤ zlen (enum_table (A:=A)) ≤ __MAX_ALG_NUM;
  alg_nodup : NoDup (used s);
  alg_named : all_named (used s);
}.

Section alg_lists.
Context `{NamedEnumLaws A}.
Implicit Types s : alg_list A.

Lemma zlen_used s : alg_ok s → zlen (used s) = alg_num s.
Proof. intros [Hl Hn _ _]. apply zlen_sub; lia. Qed.

Lemma used_init n (a : A) : used (mk_algs (replicate n a) 0) = [].
Proof. done. Qed.

Lemma alg_ok_init n (a : A) :
  Z.of_nat n = zlen (enum_table (A:=A)) → zlen (enum_table (A:=A)) ≤ __MAX_ALG_NUM →
  alg_ok (mk_algs (replicate n a) 0).
Proof.
  intros Hn Hm. pose proof (zlen_nonneg (enum_table (A:=A))).
  constructor; cbn [algs alg_num]; [|lia|constructor|constructor].
  unfold zlen at 1. by rewrite length_replicate.
Qed.

(** Adding finds the algorithm or appends it; the array is never full before. *)
Lemma addalg_ok a s :
  alg_ok s → enum_valid a = true →
  ∃ s', addalg a s = Ret (TT_SUCCESS s') ∧ alg_ok s' ∧
    used s' = (if bool_decide (a ∈ used s) then used s else used s ++ [a]).
Proof.
  intros Hok Ha. pose proof (zlen_used s Hok) as Hu. destruct Hok as [Hl Hn Hd Hv].
  unfold addalg. rewrite mem_read_ok by lia. cbn [exec_bind]. fold (used s).
  case_bool_decide as Hin; [by exists s|].
  assert (NoDup (used s ++ [a])) as Hd'.
  { apply NoDup_app. split_and!; [done| |apply NoDup_singleton]. set_solver. }
  assert (all_named (used s ++ [a])) as Hv' by (apply Forall_app; split; [done|by constructor]).
  pose proof (enum_bound _ Hd' Hv') as Hb. rewrite zlen_app, Hu in Hb.
  change (zlen [a]) with 1 in Hb. unfold __MAX_ALG_NUM in *.
  rewrite (proj2 (Z.ltb_lt (alg_num s) _)) by lia.
  rewrite mem_write_ok by (change (zlen [a]) with 1; lia). cbn [exec_bind].
  assert (used (mk_algs (splice (algs s) (alg_num s) [a]) (u32 (alg_num s + 1)))
    = used s ++ [a]) as E.
  { unfold used. cbn [algs alg_num]. rewrite u32_small by lia. rewrite sub_split by lia. f_equal.
    - apply sub_splice_before; lia.
    - apply (sub_splice_at _ _ [a]); lia. }
  eexists. split; [reflexivity|]. split; [|done].
  constructor; rewrite ?E; try done; cbn [algs alg_num]; unfold __MAX_ALG_NUM.
  - rewrite zlen_splice; [done|lia|change (zlen [a]) with 1; lia].
  - rewrite u32_small; lia.
Qed.

Lemma fill_ok s : alg_ok s → fill_alg_name s = Ret (map enum_bytes (used s)).
Proof.
  intros [Hl Hn Hd Hv]. unfold fill_alg_name. rewrite (proj2 (Z.ltb_ge _ _)) by lia.
  rewrite mem_read_ok by lia. by apply names_of_ok.
Qed.

(** The name-list of the algorithms in use, and its size. *)
Definition alg_wire s : list Z := string_bytes (names_wire (used s)).

Lemma alg_wire_small s : alg_ok s → zlen (names_wire (used s)) ≤ 650.
Proof.
  intros Hok. pose proof (zlen_names_wire (used s) (alg_named s Hok)).
  rewrite zlen_used in * by done. destruct Hok. unfold __MAX_ALG_NUM in *. lia.
Qed.

Lemma check_alg_ok s : alg_ok s → used s ≠ [] → check_alg_num s = true.
Proof.
  intros Hok Hne. pose proof (zlen_used s Hok) as Hu. destruct Hok as [_ Hn _ _].
  unfold check_alg_num, __MAX_ALG_NUM in *. apply andb_true_intro. split.
  - apply negb_true_iff. rewrite <- Hu. by apply zlen_pos.
  - apply negb_true_iff, Z.ltb_ge. lia.
Qed.

(** Adding algorithms one after the other. *)
Fixpoint addalg_seq (l : list A) s : exec (result (alg_list A)) :=
  match l with
  | [] => Ret (TT_SUCCESS s)
  | a :: l =>
      exec_bind (addalg a s) (λ r,
        match r with
        | TT_SUCCESS s' => addalg_seq l s'
        | TT_ERROR e => Ret (TT_ERROR e)
        end)
  end.

(** C8: whatever valid algorithms are added to a list of the negotiation
    message, in whatever order and however often, no addition fails or leaves the
    array: the list keeps the algorithms it had in their order, ends up with
    exactly these and the added ones, has none of them twice, and all its names
    can be rendered. *)
Theorem addalg_any l s :
  alg_ok s → all_named l →
  ∃ s', addalg_seq l s = Ret (TT_SUCCESS s') ∧ (∃ new, used s' = used s ++ new) ∧
    (∀ a, a ∈ used s' ↔ a ∈ used s ∨ a ∈ l) ∧ NoDup (used s') ∧
    zlen (algs s') = zlen (algs s) ∧ fill_alg_name s' = Ret (map enum_bytes (used s')).
Proof.
  revert s. induction l as [|a l IH]; intros s Hok Hv.
  { exists s. split; [done|]. split; [exists []; by rewrite app_nil_r|].
    split; [set_solver|]. split; [apply (alg_nodup s Hok)|]. split; [done|by apply fill_ok]. }
  apply Forall_cons_1 in Hv as [Ha Hv]. destruct (addalg_ok a s Hok Ha) as (s1 & E1 & Hok1 & Hu1).
  destruct (IH s1 Hok1 Hv) as (s' & E & [new Hnew] & Hin & Hnd & Hl & Hf).
  exists s'. cbn [addalg_seq]. rewrite E1. cbn [exec_bind]. split; [done|].
  split; [|split; [|split; [done|split; [|done]]]].
  - rewrite Hnew, Hu1. case_bool_decide; [by eexists|]. eexists. by rewrite <- app_assoc.
  - intros x. rewrite Hin, Hu1. case_bool_decide; set_solver.
  - by rewrite Hl, (alg_len s1 Hok1), (alg_len s Hok).
Qed.
End alg_lists.

Lemma addalg_any_witness :
  ∃ s', addalg_seq [TT_SSH_ENC_ALG_AES256_CBC; TT_SSH_ENC_ALG_AES128_CBC; TT_SSH_ENC_ALG_AES256_CBC]
      (mk_algs (replicate 2 TT_SSH_ENC_ALG_AES128_CBC) 0) = Ret (TT_SUCCESS s') ∧
    used s' = [TT_SSH_ENC_ALG_AES256_CBC; TT_SSH_ENC_ALG_AES128_CBC] ∧ NoDup (used s').
Proof.
  destruct (addalg_any
    [TT_SSH_ENC_ALG_AES256_CBC; TT_SSH_ENC_ALG_AES128_CBC; TT_SSH_ENC_ALG_AES256_CBC]
    (mk_algs (replicate 2 TT_SSH_ENC_ALG_AES128_CBC) 0)) as (s' & E & _ & _ & Hnd & _).
  - by apply alg_ok_init.
  - by repeat constructor.
  - exists s'. split; [exact E|]. split; [|exact Hnd].
    vm_compute in E. injection E as <-. reflexivity.
Defined.

Module Keyinit.
Record tt_sshms_keyinit_t : Type := mk {
  kex_alg : alg_list tt_ssh_kex_alg_t;
  pubkey_alg : alg_list tt_ssh_pubkey_alg_t;
  enc_c2s : alg_list tt_ssh_enc_alg_t;
  enc_s2c : alg_list tt_ssh_enc_alg_t;
  mac_c2s : alg_list tt_ssh_mac_alg_t;
  mac_s2c : alg_list tt_ssh_mac_alg_t;
  comp_c2s : alg_list tt_ssh_cmprs_alg_t;
  comp_s2c : alg_list tt_ssh_cmprs_alg_t;
}.

Definition set_kex_alg x t := mk x (pubkey_alg t) (enc_c2s t) (enc_s2c t) (mac_c2s t) (mac_s2c t) (comp_c2s t) (comp_s2c t).
Definition set_pubkey_alg x t := mk (kex_alg t) x (enc_c2s t) (enc_s2c t) (mac_c2s t) (mac_s2c t) (comp_c2s t) (comp_s2c t).
Definition set_enc_c2s x t := mk (kex_alg t) (pubkey_alg t) x (enc_s2c t) (mac_c2s t) (mac_s2c t) (comp_c2s t) (comp_s2c t).
Definition set_enc_s2c x t := mk (kex_alg t) (pubkey_alg t) (enc_c2s t) x (mac_c2s t) (mac_s2c t) (comp_c2s t) (comp_s2c t).
Definition set_mac_c2s x t := mk (kex_alg t) (pubkey_alg t) (enc_c2s t) (enc_s2c t) x (mac_s2c t) (comp_c2s t) (comp_s2c t).
Definition set_mac_s2c x t := mk (kex_alg t) (pubkey_alg t) (enc_c2s t) (enc_s2c t) (mac_c2s t) x (comp_c2s t) (comp_s2c t).
Definition set_comp_c2s x t := mk (kex_alg t) (pubkey_alg t) (enc_c2s t) (enc_s2c t) (mac_c2s t) (mac_s2c t) x (comp_s2c t).
Definition set_comp_s2c x t := mk (kex_alg t) (pubkey_alg t) (enc_c2s t) (enc_s2c t) (mac_c2s t) (mac_s2c t) (comp_c2s t) x.

(** An update of one list of the message. *)
Definition in_field {F} (get : tt_sshms_keyinit_t → F) (set : F → tt_sshms_keyinit_t → tt_sshms_keyinit_t)
    (op : F → exec (result F)) (t : tt_sshms_keyinit_t) : exec (result tt_sshms_keyinit_t) :=
  exec_bind (op (get t)) (λ r,
    match r with
    | TT_SUCCESS x => Ret (TT_SUCCESS (set x t))
    | TT_ERROR e => Ret (TT_ERROR e)
    end).

Definition __keyinit_addalg_kex (kex : tt_ssh_kex_alg_t) := in_field kex_alg set_kex_alg (addalg kex).
Definition __keyinit_addalg_pubkey (pubkey : tt_ssh_pubkey_alg_t) :=
  in_field pubkey_alg set_pubkey_alg (addalg pubkey).
Definition __keyinit_addalg_enc_c2s (enc : tt_ssh_enc_alg_t) := in_field enc_c2s set_enc_c2s (addalg enc).
Definition __keyinit_addalg_enc_s2c (enc : tt_ssh_enc_alg_t) := in_field enc_s2c set_enc_s2c (addalg enc).
Definition __keyinit_addalg_mac_c2s (mac : tt_ssh_mac_alg_t) := in_field mac_c2s set_mac_c2s (addalg mac).
Definition __keyinit_addalg_mac_s2c (mac : tt_ssh_mac_alg_t) := in_field mac_s2c set_mac_s2c (addalg mac).
Definition __keyinit_addalg_comp_c2s (comp : tt_ssh_cmprs_alg_t) :=
  in_field comp_c2s set_comp_c2s (addalg comp).
Definition __keyinit_addalg_comp_s2c (comp : tt_ssh_cmprs_alg_t) :=
  in_field comp_s2c set_comp_s2c (addalg comp).

(** The callbacks of the name-lists: [__find_alg_idx], then the addition; a name
    that is not known is ignored. *)
Definition __keyinit_kex_parse (name : list Z) (t : tt_sshms_keyinit_t) : exec (result tt_sshms_keyinit_t) :=
  let i : tt_ssh_kex_alg_t := enum_match name in
  if enum_valid i then __keyinit_addalg_kex i t else Ret (TT_SUCCESS t).
Definition __keyinit_pubkey_parse (name : list Z) (t : tt_sshms_keyinit_t) : exec (result tt_sshms_keyinit_t) :=
  let i : tt_ssh_pubkey_alg_t := enum_match name in
  if enum_valid i then __keyinit_addalg_pubkey i t else Ret (TT_SUCCESS t).
Definition __keyinit_enc_c2s_parse (name : list Z) (t : tt_sshms_keyinit_t) : exec (result tt_sshms_keyinit_t) :=
  let i : tt_ssh_enc_alg_t := enum_match name in
  if enum_valid i then __keyinit_addalg_enc_c2s i t else Ret (TT_SUCCESS t).
Definition __keyinit_enc_s2c_parse (name : list Z) (t : tt_sshms_keyinit_t) : exec (result tt_sshms_keyinit_t) :=
  let i : tt_ssh_enc_alg_t := enum_match name in
  if enum_valid i then __keyinit_addalg_enc_s2c i t else Ret (TT_SUCCESS t).
Definition __keyinit_mac_c2s_parse (name : list Z) (t : tt_sshms_keyinit_t) : exec (result tt_sshms_keyinit_t) :=
  let i : tt_ssh_mac_alg_t := enum_match name in
  if enum_valid i then __keyinit_addalg_mac_c2s i t else Ret (TT_SUCCESS t).
Definition __keyinit_mac_s2c_parse (name : list Z) (t : tt_sshms_keyinit_t) : exec (result tt_sshms_keyinit_t) :=
  let i : tt_ssh_mac_alg_t := enum_match name in
  if enum_valid i then __keyinit_addalg_mac_s2c i t else Ret (TT_SUCCESS t).
Definition __keyinit_comp_c2s_parse (name : list Z) (t : tt_sshms_keyinit_t) : exec (result tt_sshms_keyinit_t) :=
  let i : tt_ssh_cmprs_alg_t := enum_match name in
  if enum_valid i then __keyinit_addalg_comp_c2s i t else Ret (TT_SUCCESS t).
Definition __keyinit_comp_s2c_parse (name : list Z) (t : tt_sshms_keyinit_t) : exec (result tt_sshms_keyinit_t) :=
  let i : tt_ssh_cmprs_alg_t := enum_match name in
  if enum_valid i then __keyinit_addalg_comp_s2c i t else Ret (TT_SUCCESS t).

Section keyinit.
Context `{Allocator} `{Random}.

(** All zero: enumerators 0 and empty lists. *)
Definition keyinit_zero : tt_sshms_keyinit_t :=
  mk (mk_algs (replicate 4 TT_SSH_KEX_ALG_DH_G1_SHA1) 0)
     (mk_algs (replicate 2 TT_SSH_PUBKEY_ALG_DSS) 0)
     (mk_algs (replicate 2 TT_SSH_ENC_ALG_AES128_CBC) 0)
     (mk_algs (replicate 2 TT_SSH_ENC_ALG_AES128_CBC) 0)
     (mk_algs (replicate 1 TT_SSH_MAC_ALG_HMAC_SHA1) 0)
     (mk_algs (replicate 1 TT_SSH_MAC_ALG_HMAC_SHA1) 0)
     (mk_algs (replicate 2 TT_SSH_CMPRS_ALG_NONE) 0)
     (mk_algs (replicate 2 TT_SSH_CMPRS_ALG_NONE) 0).

(** It only sets [msg->save], see [itf_save] below. *)
Definition __keyinit_create (t : tt_sshms_keyinit_t) : exec (result tt_sshms_keyinit_t) :=
  Ret (TT_SUCCESS t).

(** [msg_len += tt_ssh_namelist_render_prepare(alg_name, alg_name_num)] *)
Definition add_prepare `{NamedEnum A} (s : alg_list A) (msg_len : Z) : exec Z :=
  exec_bind (fill_alg_name s) (λ alg_name,
    Ret (u32 (msg_len + tt_ssh_namelist_render_prepare alg_name))).

Definition __keyinit_render_prepare (t : tt_sshms_keyinit_t)
  : exec (result (Z * tt_ssh_render_mode_t)) :=
  if negb (check_alg_num (kex_alg t) && check_alg_num (pubkey_alg t)
           && check_alg_num (enc_c2s t) && check_alg_num (enc_s2c t)
           && check_alg_num (mac_c2s t) && check_alg_num (mac_s2c t)
           && check_alg_num (comp_c2s t) && check_alg_num (comp_s2c t))
  then Ret (TT_ERROR TT_FAIL)
  else
    let msg_len := 17 in
    exec_bind (add_prepare (kex_alg t) msg_len) (λ msg_len,
    exec_bind (add_prepare (pubkey_alg t) msg_len) (λ msg_len,
    exec_bind (add_prepare (enc_c2s t) msg_len) (λ msg_len,
    exec_bind (add_prepare (enc_s2c t) msg_len) (λ msg_len,
    exec_bind (add_prepare (mac_c2s t) msg_len) (λ msg_len,
    exec_bind (add_prepare (mac_s2c t) msg_len) (λ msg_len,
    exec_bind (add_prepare (comp_c2s t) msg_len) (λ msg_len,
    exec_bind (add_prepare (comp_s2c t) msg_len) (λ msg_len,
    let msg_len := u32 (msg_len + tt_ssh_namelist_render_prepare []) in
    let msg_len := u32 (msg_len + tt_ssh_namelist_render_prepare []) in
    let msg_len := u32 (msg_len + 5) in
    Ret (TT_SUCCESS (msg_len, TT_SSH_RENDER_MODE_BINARY)))))))))).

Definition alg_render `{NamedEnum A} (s : alg_list A) : M tt_buf_t unit :=
  alg_name ← access (fill_alg_name s); tt_ssh_namelist_render alg_name.

Definition __keyinit_render (t : tt_sshms_keyinit_t) : M tt_buf_t unit :=
  tt_buf_put_u8 TT_SSH_MSGID_KEXINIT;;
  tt_buf_put_rand rand_u64 rand_u32 16;;
  alg_render (kex_alg t);;
  alg_render (pubkey_alg t);;
  alg_render (enc_c2s t);;
  alg_render (enc_s2c t);;
  alg_render (mac_c2s t);;
  alg_render (mac_s2c t);;
  alg_render (comp_c2s t);;
  alg_render (comp_s2c t);;
  tt_ssh_namelist_render [];;
  tt_ssh_namelist_render [];;
  tt_ssh_byte_render 0;;
  tt_ssh_uint32_render 0.

Definition __keyinit_parse (t : tt_sshms_keyinit_t) : M tt_buf_t tt_sshms_keyinit_t :=
  tt_buf_inc_rp 16;;
  t ← tt_ssh_namelist_parse __keyinit_kex_parse t;
  t ← tt_ssh_namelist_parse __keyinit_pubkey_parse t;
  t ← tt_ssh_namelist_parse __keyinit_enc_c2s_parse t;
  t ← tt_ssh_namelist_parse __keyinit_enc_s2c_parse t;
  t ← tt_ssh_namelist_parse __keyinit_mac_c2s_parse t;
  t ← tt_ssh_namelist_parse __keyinit_mac_s2c_parse t;
  t ← tt_ssh_namelist_parse __keyinit_comp_c2s_parse t;
  tt_ssh_namelist_parse __keyinit_comp_s2c_parse t.

#[global] Instance __keyinit_op : SshMsgItf tt_sshms_keyinit_t := {|
  itf_id := TT_SSH_MSGID_KEXINIT;
  itf_zero := keyinit_zero;
  itf_create := __keyinit_create;
  itf_save := true;
  itf_destroy := mret tt;
  itf_render_prepare := __keyinit_render_prepare;
  itf_render := __keyinit_render;
  itf_parse := __keyinit_parse;
|}.

Definition tt_sshms_keyinit_create : (Z → Z) → exec (option (tt_sshmsg_t tt_sshms_keyinit_t)) :=
  tt_sshmsg_create.

(** An addition through the message object. *)
Definition msg_addalg (add : tt_sshms_keyinit_t → exec (result tt_sshms_keyinit_t))
  : M (tt_sshmsg_t tt_sshms_keyinit_t) unit :=
  on_msg TT_SSH_MSGID_KEXINIT
    (t ← gets id; t' ← call (add t); modify (λ _, t')).

Definition tt_sshms_keyinit_addalg_kex kex := msg_addalg (__keyinit_addalg_kex kex).
Definition tt_sshms_keyinit_addalg_pubkey pubkey := msg_addalg (__keyinit_addalg_pubkey pubkey).
Definition tt_sshms_keyinit_addalg_enc enc (client2server : bool) :=
  msg_addalg (if client2server then __keyinit_addalg_enc_c2s enc else __keyinit_addalg_enc_s2c enc).
Definition tt_sshms_keyinit_addalg_mac mac (client2server : bool) :=
  msg_addalg (if client2server then __keyinit_addalg_mac_c2s mac else __keyinit_addalg_mac_s2c mac).
Definition tt_sshms_keyinit_addalg_comp comp (client2server : bool) :=
  msg_addalg (if client2server then __keyinit_addalg_comp_c2s comp
              else __keyinit_addalg_comp_s2c comp).
End keyinit.

(** ** Each list is filled by its own callback *)

(** The shape that the callbacks share. *)
Definition alg_cb `{NamedEnum A} (get : tt_sshms_keyinit_t → alg_list A)
    (set : alg_list A → tt_sshms_keyinit_t → tt_sshms_keyinit_t) (name : list Z)
    (t : tt_sshms_keyinit_t) : exec (result tt_sshms_keyinit_t) :=
  let i : A := enum_match name in
  if enum_valid i then in_field get set (addalg i) t else Ret (TT_SUCCESS t).

Section field.
Context `{Allocator} `{NamedEnumLaws A}.
Context (get : tt_sshms_keyinit_t → alg_list A)
  (set : alg_list A → tt_sshms_keyinit_t → tt_sshms_keyinit_t).
Context (get_set : ∀ x t, get (set x t) = x) (set_get : ∀ t, set (get t) t = t)
  (set_set : ∀ x y t, set x (set y t) = set x t).

(** The names of new algorithms add them in order. *)
Lemma fold_alg_cb l t :
  alg_ok (get t) → NoDup (used (get t) ++ l) → all_named l →
  ∃ x, cb_fold (alg_cb get set) (map enum_bytes l) t = Ret (TT_SUCCESS (set x t)) ∧
    alg_ok x ∧ used x = used (get t) ++ l.
Proof.
  revert t. induction l as [|a l IH]; intros t Hok Hnd Hv.
  { exists (get t). by rewrite app_nil_r, set_get. }
  apply Forall_cons_1 in Hv as [Ha Hv]. destruct (enum_bytes_ok a Ha) as (_ & Hm & _).
  cbn [map cb_fold]. unfold alg_cb at 1. rewrite Hm. cbv zeta. rewrite Ha. unfold in_field.
  destruct (addalg_ok a (get t) Hok Ha) as (x & -> & Hx & Hu). cbn [exec_bind].
  rewrite bool_decide_eq_false_2 in Hu.
  - destruct (IH (set x t)) as (y & -> & Hy & Hu'); rewrite ?get_set in *; [done| |done|].
    { rewrite Hu, <- app_assoc. done. }
    exists y. rewrite set_set. split_and!; [done|done|]. by rewrite Hu', Hu, <- app_assoc.
  - apply NoDup_app in Hnd as (_ & Hnd & _). intros Hin. apply (Hnd a Hin). set_solver.
Qed.

(** Parsing the name-list of [s] fills an empty list with the same algorithms. *)
Lemma yields_alg (s : alg_list A) t :
  alg_ok s → alg_ok (get t) → used (get t) = [] →
  yields (tt_ssh_namelist_parse (alg_cb get set) t) (alg_wire s)
    (λ t', ∃ x, t' = set x t ∧ alg_ok x ∧ used x = used s).
Proof.
  intros Hs Hok Hu b rest Hwf Hc. left. pose proof (alg_wire_small s Hs) as Hl.
  destruct (fold_alg_cb (used s) t) as (x & E & Hx & Hux).
  - done.
  - rewrite Hu. apply (alg_nodup s Hs).
  - apply (alg_named s Hs).
  - exists (set x t). split.
    + unfold alg_wire in *. rewrite (namelist_parse_spec _ (map enum_bytes (used s)))
        with (rest := rest); try done.
      * by rewrite E.
      * apply names_ok, (alg_named s Hs).
      * unfold max_read, names_wire in *. lia.
    + exists x. by rewrite Hux, Hu.
Qed.

(** Any name keeps the list in order. *)
Lemma alg_cb_ok name t :
  alg_ok (get t) → ∃ x, alg_cb get set name t = Ret (TT_SUCCESS (set x t)) ∧ alg_ok x.
Proof.
  intros Hok. unfold alg_cb. cbv zeta. destruct (enum_valid _) eqn:Ha.
  - unfold in_field. destruct (addalg_ok _ (get t) Hok Ha) as (x & -> & Hx & _). by exists x.
  - exists (get t). by rewrite set_get.
Qed.
End field.

Record keyinit_ok (t : tt_sshms_keyinit_t) : Prop := {
  ok_kex : alg_ok (kex_alg t);
  ok_pubkey : alg_ok (pubkey_alg t);
  ok_enc_c2s : alg_ok (enc_c2s t);
  ok_enc_s2c : alg_ok (enc_s2c t);
  ok_mac_c2s : alg_ok (mac_c2s t);
  ok_mac_s2c : alg_ok (mac_s2c t);
  ok_comp_c2s : alg_ok (comp_c2s t);
  ok_comp_s2c : alg_ok (comp_s2c t);
}.

(** No list is empty. *)
Record keyinit_full (t : tt_sshms_keyinit_t) : Prop := {
  ne_kex : used (kex_alg t) ≠ [];
  ne_pubkey : used (pubkey_alg t) ≠ [];
  ne_enc_c2s : used (enc_c2s t) ≠ [];
  ne_enc_s2c : used (enc_s2c t) ≠ [];
  ne_mac_c2s : used (mac_c2s t) ≠ [];
  ne_mac_s2c : used (mac_s2c t) ≠ [];
  ne_comp_c2s : used (comp_c2s t) ≠ [];
  ne_comp_s2c : used (comp_s2c t) ≠ [];
}.

(** The same algorithms in the same order. *)
Record keyinit_same (t t' : tt_sshms_keyinit_t) : Prop := {
  same_kex : used (kex_alg t') = used (kex_alg t);
  same_pubkey : used (pubkey_alg t') = used (pubkey_alg t);
  same_enc_c2s : used (enc_c2s t') = used (enc_c2s t);
  same_enc_s2c : used (enc_s2c t') = used (enc_s2c t);
  same_mac_c2s : used (mac_c2s t') = used (mac_c2s t);
  same_mac_s2c : used (mac_s2c t') = used (mac_s2c t);
  same_comp_c2s : used (comp_c2s t') = used (comp_c2s t);
  same_comp_s2c : used (comp_s2c t') = used (comp_s2c t);
}.

(** What follows the message id: the cookie, the eight lists, no languages, no
    guessed packet, the reserved word. *)
Definition keyinit_fields `{Random} (t : tt_sshms_keyinit_t) : list Z :=
  rand_bytes rand_u64 rand_u32 16 ++ alg_wire (kex_alg t) ++ alg_wire (pubkey_alg t) ++
  alg_wire (enc_c2s t) ++ alg_wire (enc_s2c t) ++ alg_wire (mac_c2s t) ++ alg_wire (mac_s2c t) ++
  alg_wire (comp_c2s t) ++ alg_wire (comp_s2c t) ++ string_bytes [] ++ string_bytes [] ++
  [0] ++ be_bytes 4 0.

Section instances.
Context `{Allocator} `{Random}.

Lemma keyinit_zero_ok : keyinit_ok keyinit_zero.
Proof. by constructor; apply alg_ok_init. Qed.

Lemma renders_alg `{NamedEnumLaws A} (s : alg_list A) :
  alg_ok s → renders (alg_render s) (alg_wire s).
Proof.
  intros Hs. pose proof (alg_wire_small s Hs). eapply renders_access; [by apply fill_ok|].
  apply renders_names_wire; [apply (alg_named s Hs)|unfold max_read; lia].
Qed.

Lemma add_prepare_ok `{NamedEnumLaws A} (s : alg_list A) n :
  alg_ok s → 0 ≤ n < 2 ^ 30 →
  add_prepare s n = Ret (n + zlen (alg_wire s)) ∧ 0 ≤ zlen (alg_wire s) ≤ 654.
Proof.
  intros Hs Hn. pose proof (alg_wire_small s Hs). pose proof (zlen_nonneg (names_wire (used s))).
  unfold alg_wire, add_prepare. rewrite fill_ok by done. cbn [exec_bind].
  unfold names_wire in *. rewrite namelist_prepare_ok by (unfold max_read; lia).
  rewrite zlen_string_bytes. split; [|lia]. by rewrite u32_small by lia.
Qed.

Lemma zlen_cookie : zlen (rand_bytes rand_u64 rand_u32 16) = 16.
Proof. by destruct (renders_rand rand_u64 rand_u32 16). Qed.

(** No name makes a callback leave its array or fail. *)
Definition cb_ok (cb : list Z → tt_sshms_keyinit_t → exec (result tt_sshms_keyinit_t)) : Prop :=
  ∀ name t, keyinit_ok t → ∃ t', cb name t = Ret (TT_SUCCESS t') ∧ keyinit_ok t'.

Ltac solve_cb get set :=
  intros name t Hok; destruct (alg_cb_ok get set ltac:(by intros []) name t) as (x & E & Hx);
  [by destruct Hok|]; exists (set x t); split; [exact E|]; destruct Hok; by constructor.

Lemma kex_ok : cb_ok __keyinit_kex_parse.
Proof. solve_cb kex_alg set_kex_alg. Qed.
Lemma pubkey_ok : cb_ok __keyinit_pubkey_parse.
Proof. solve_cb pubkey_alg set_pubkey_alg. Qed.
Lemma enc_c2s_ok : cb_ok __keyinit_enc_c2s_parse.
Proof. solve_cb enc_c2s set_enc_c2s. Qed.
Lemma enc_s2c_ok : cb_ok __keyinit_enc_s2c_parse.
Proof. solve_cb enc_s2c set_enc_s2c. Qed.
Lemma mac_c2s_ok : cb_ok __keyinit_mac_c2s_parse.
Proof. solve_cb mac_c2s set_mac_c2s. Qed.
Lemma mac_s2c_ok : cb_ok __keyinit_mac_s2c_parse.
Proof. solve_cb mac_s2c set_mac_s2c. Qed.
Lemma comp_c2s_ok : cb_ok __keyinit_comp_c2s_parse.
Proof. solve_cb comp_c2s set_comp_c2s. Qed.
Lemma comp_s2c_ok : cb_ok __keyinit_comp_s2c_parse.
Proof. solve_cb comp_s2c set_comp_s2c. Qed.

Lemma reads_cb cb t : cb_ok cb → keyinit_ok t → reads (tt_ssh_namelist_parse cb t) keyinit_ok.
Proof.
  intros Hcb Ht. apply reads_namelist; [|done]. intros name t' _ Ht'.
  destruct (Hcb name t' Ht') as (t'' & -> & ?). by eexists.
Qed.

#[global] Instance keyinit_safe : SshMsgSafe tt_sshms_keyinit_t.
Proof.
  refine {| msg_init := keyinit_zero; msg_parsed := keyinit_ok |}; [done|].
  cbn [itf_parse __keyinit_op]. unfold __keyinit_parse.
  eapply reads_bind; [by apply reads_inc_rp|]. intros _ _.
  eapply (reads_bind _ _ keyinit_ok); [apply reads_cb; [apply kex_ok|apply keyinit_zero_ok]|].
  clear. intros t Ht. eapply (reads_bind _ _ keyinit_ok); [by apply reads_cb; [apply pubkey_ok|]|].
  clear. intros t Ht. eapply (reads_bind _ _ keyinit_ok); [by apply reads_cb; [apply enc_c2s_ok|]|].
  clear. intros t Ht. eapply (reads_bind _ _ keyinit_ok); [by apply reads_cb; [apply enc_s2c_ok|]|].
  clear. intros t Ht. eapply (reads_bind _ _ keyinit_ok); [by apply reads_cb; [apply mac_c2s_ok|]|].
  clear. intros t Ht. eapply (reads_bind _ _ keyinit_ok); [by apply reads_cb; [apply mac_s2c_ok|]|].
  clear. intros t Ht. eapply (reads_bind _ _ keyinit_ok); [by apply reads_cb; [apply comp_c2s_ok|]|].
  clear. intros t Ht. by apply reads_cb; [apply comp_s2c_ok|].
Defined.

#[global] Instance keyinit_wire : SshMsgWire tt_sshms_keyinit_t.
Proof.
  refine {| msg_valid t := keyinit_ok t ∧ keyinit_full t; msg_fields := keyinit_fields |}.
  - done.
  - intros t [[] _]. unfold keyinit_fields. autorewrite with zlen. rewrite zlen_cookie.
    repeat lazymatch goal with
      | Hs : alg_ok ?s |- _ =>
          pose proof (proj2 (add_prepare_ok s 0 Hs ltac:(lia))); clear Hs
      end. change (zlen [0]) with 1. change (zlen (@nil Z)) with 0. lia.
  - intros t [[] _]. cbn. unfold __keyinit_render, keyinit_fields.
    lazymatch goal with |- renders _ (?x :: ?l) => change (x :: l) with ([x] ++ l) end.
    apply renders_bind; [by apply renders_u8|].
    apply renders_bind; [by apply renders_rand|].
    do 8 (apply renders_bind; [by apply renders_alg|]).
    do 2 (apply renders_bind; [by apply (renders_namelist [])|]).
    apply renders_bind; [by apply renders_byte|]. apply renders_uint32.
Defined.

#[global] Instance keyinit_sized : SshMsgSized tt_sshms_keyinit_t.
Proof.
  intros t [[] []]. cbn. unfold __keyinit_render_prepare, keyinit_fields.
  rewrite !check_alg_ok by done. cbn [andb negb].
  autorewrite with zlen. rewrite zlen_cookie.
  repeat lazymatch goal with
    | Hs : alg_ok ?s |- context [add_prepare ?s ?n] =>
        destruct (add_prepare_ok s n Hs) as [-> ?]; [lia|]; cbn [exec_bind]
    end.
  change (tt_ssh_namelist_render_prepare []) with 4. change (zlen [0]) with 1.
  change (zlen (@nil Z)) with 0. prepare_tac.
Qed.

#[global] Instance keyinit_roundtrip : SshMsgRoundtrip tt_sshms_keyinit_t.
Proof.
  refine {| msg_same := keyinit_same |}. intros t [Hok _].
  cbn [itf_parse __keyinit_op msg_init keyinit_safe msg_fields keyinit_wire].
  unfold __keyinit_parse, keyinit_fields. pose proof keyinit_zero_ok as Hz.
  eapply accepts_then; [by apply parses_inc_rp; rewrite zlen_cookie|].
  eapply accepts_bind; [apply (yields_alg kex_alg set_kex_alg); first [done|by intros []|apply Hok|apply Hz]|].
  intros ? (x_kex_alg & -> & _ & E_kex_alg).
  eapply accepts_bind; [apply (yields_alg pubkey_alg set_pubkey_alg); first [done|by intros []|apply Hok|apply Hz]|].
  intros ? (x_pubkey_alg & -> & _ & E_pubkey_alg).
  eapply accepts_bind; [apply (yields_alg enc_c2s set_enc_c2s); first [done|by intros []|apply Hok|apply Hz]|].
  intros ? (x_enc_c2s & -> & _ & E_enc_c2s).
  eapply accepts_bind; [apply (yields_alg enc_s2c set_enc_s2c); first [done|by intros []|apply Hok|apply Hz]|].
  intros ? (x_enc_s2c & -> & _ & E_enc_s2c).
  eapply accepts_bind; [apply (yields_alg mac_c2s set_mac_c2s); first [done|by intros []|apply Hok|apply Hz]|].
  intros ? (x_mac_c2s & -> & _ & E_mac_c2s).
  eapply accepts_bind; [apply (yields_alg mac_s2c set_mac_s2c); first [done|by intros []|apply Hok|apply Hz]|].
  intros ? (x_mac_s2c & -> & _ & E_mac_s2c).
  eapply accepts_bind; [apply (yields_alg comp_c2s set_comp_c2s); first [done|by intros []|apply Hok|apply Hz]|].
  intros ? (x_comp_c2s & -> & _ & E_comp_c2s).
  apply accepts_tail.
  eapply accepts_bind; [apply (yields_alg comp_s2c set_comp_s2c); first [done|by intros []|apply Hok|apply Hz]|].
  intros ? (x_comp_s2c & -> & _ & E_comp_s2c). by apply accepts_ret; constructor.
Defined.
End instances.
End Keyinit.
