(* ===== verification/SshDispatch.v ===== *)
(** Receiving a message (network/ssh/message/tt_ssh_message.c): which type a
    message id stands for, [__sshmsg_parse] on a payload, [tt_sshmsg_parse] on a
    packet. *)

From S2P Require Import Prelude MemSpring Buffer BufferFormat SshDef SshCodec SshMsg SshFields.
From S2P Require Import SshMsgChannel SshMsgTrans SshMsgAuth SshMsgKeyinit.

(** ** The message types that can be received *)

Inductive msg_kind : Type :=
  | KEXINIT | IGNORE | DISCONNECT | KEXDH_INIT | NEWKEYS
  | SERVICE_REQUEST | SERVICE_ACCEPT
  | USERAUTH_REQUEST | USERAUTH_SUCCESS | USERAUTH_FAILURE | USERAUTH_BANNER
  | GLOBAL_REQUEST | REQUEST_SUCCESS | REQUEST_FAILURE
  | CHANNEL_OPEN | CHANNEL_OPEN_CONFIRMATION | CHANNEL_OPEN_FAILURE
  | CHANNEL_WINDOW_ADJUST | CHANNEL_DATA | CHANNEL_CLOSE | CHANNEL_EOF
  | CHANNEL_REQUEST | CHANNEL_SUCCESS | CHANNEL_FAILURE.

#[global] Instance msg_kind_eq_dec : EqDecision msg_kind.
Proof. solve_decision. Defined.

(** The switch of [__sshmsg_parse]. *)
Definition kind_of_id (msgid : Z) : option msg_kind :=
  if msgid =? TT_SSH_MSGID_KEXINIT then Some KEXINIT
  else if msgid =? TT_SSH_MSGID_IGNORE then Some IGNORE
  else if msgid =? TT_SSH_MSGID_DISCONNECT then Some DISCONNECT
  else if msgid =? TT_SSH_MSGID_KEXDH_INIT then Some KEXDH_INIT
  else if msgid =? TT_SSH_MSGID_NEWKEYS then Some NEWKEYS
  else if msgid =? TT_SSH_MSGID_SERVICE_REQUEST then Some SERVICE_REQUEST
  else if msgid =? TT_SSH_MSGID_SERVICE_ACCEPT then Some SERVICE_ACCEPT
  else if msgid =? TT_SSH_MSGID_USERAUTH_REQUEST then Some USERAUTH_REQUEST
  else if msgid =? TT_SSH_MSGID_USERAUTH_SUCCESS then Some USERAUTH_SUCCESS
  else if msgid =? TT_SSH_MSGID_USERAUTH_FAILURE then Some USERAUTH_FAILURE
  else if msgid =? TT_SSH_MSGID_USERAUTH_BANNER then Some USERAUTH_BANNER
  else if msgid =? TT_SSH_MSGID_GLOBAL_REQUEST then Some GLOBAL_REQUEST
  else if msgid =? TT_SSH_MSGID_REQUEST_SUCCESS then Some REQUEST_SUCCESS
  else if msgid =? TT_SSH_MSGID_REQUEST_FAILURE then Some REQUEST_FAILURE
  else if msgid =? TT_SSH_MSGID_CHANNEL_OPEN then Some CHANNEL_OPEN
  else if msgid =? TT_SSH_MSGID_CHANNEL_OPEN_CONFIRMATION then Some CHANNEL_OPEN_CONFIRMATION
  else if msgid =? TT_SSH_MSGID_CHANNEL_OPEN_FAILURE then Some CHANNEL_OPEN_FAILURE
  else if msgid =? TT_SSH_MSGID_CHANNEL_WINDOW_ADJUST then Some CHANNEL_WINDOW_ADJUST
  else if msgid =? TT_SSH_MSGID_CHANNEL_DATA then Some CHANNEL_DATA
  else if msgid =? TT_SSH_MSGID_CHANNEL_CLOSE then Some CHANNEL_CLOSE
  else if msgid =? TT_SSH_MSGID_CHANNEL_EOF then Some CHANNEL_EOF
  else if msgid =? TT_SSH_MSGID_CHANNEL_REQUEST then Some CHANNEL_REQUEST
  else if msgid =? TT_SSH_MSGID_CHANNEL_SUCCESS then Some CHANNEL_SUCCESS
  else if msgid =? TT_SSH_MSGID_CHANNEL_FAILURE then Some CHANNEL_FAILURE
  else None.

(** The fields of each type. *)
Definition fields_t (k : msg_kind) : Type :=
  match k with
  | KEXINIT => Keyinit.tt_sshms_keyinit_t
  | IGNORE => Ignore.tt_sshmsg_ignore_t
  | DISCONNECT => Disconnect.tt_sshmsg_disconnect_t
  | KEXDH_INIT => KexdhInit.tt_sshmsg_kexdh_init_t
  | NEWKEYS => Newkeys.newkeys_t
  | SERVICE_REQUEST => Servreq.tt_sshmsg_servreq_t
  | SERVICE_ACCEPT => Servacc.tt_sshmsg_servacc_t
  | USERAUTH_REQUEST => Uar.tt_sshmsg_uar_t
  | USERAUTH_SUCCESS => Uas.uas_t
  | USERAUTH_FAILURE => Uaf.tt_sshmsg_uaf_t
  | USERAUTH_BANNER => Uab.tt_sshmsg_uab_t
  | GLOBAL_REQUEST => Glbreq.tt_sshmsg_glbreq_t
  | REQUEST_SUCCESS => Reqsucc.tt_sshmsg_reqsucc_t
  | REQUEST_FAILURE => Reqfail.reqfail_t
  | CHANNEL_OPEN => Chopen.tt_sshmsg_chopen_t
  | CHANNEL_OPEN_CONFIRMATION => Chopc.tt_sshmsg_chopc_t
  | CHANNEL_OPEN_FAILURE => Chopf.tt_sshmsg_chopf_t
  | CHANNEL_WINDOW_ADJUST => Chwinadj.tt_sshmsg_chwinadj_t
  | CHANNEL_DATA => Chdata.tt_sshmsg_chdata_t
  | CHANNEL_CLOSE => Chclose.tt_sshmsg_chclose_t
  | CHANNEL_EOF => Cheof.tt_sshmsg_cheof_t
  | CHANNEL_REQUEST => Chreq.tt_sshmsg_chreq_t
  | CHANNEL_SUCCESS => Chsucc.tt_sshmsg_chsucc_t
  | CHANNEL_FAILURE => Chfail.tt_sshmsg_chfail_t
  end.

(** A message whose type is only known when the program runs: the object and its
    [itf] pointer. *)
Record any_msg : Type := mk_any { kind : msg_kind; obj : tt_sshmsg_t (fields_t kind) }.

Section dispatch.
Context `{Allocator} `{Random}.

(** The function table that the [..._create] of each type installs. *)
#[global] Instance kind_itf (k : msg_kind) : SshMsgItf (fields_t k).
Proof. destruct k; cbn [fields_t]; apply _. Defined.

(** Create a message of the type and let it parse. *)
Definition parse_kind (sizeof : Z → Z) (k : msg_kind) : M tt_buf_t any_msg :=
  msg ← access (tt_sshmsg_create sizeof);
  match msg with
  | None => fail TT_FAIL
  | Some m =>
      t ← itf_parse (body m);
      mret (mk_any k (set_body t m))
  end.

(** [None] is the NULL of a failure.  The buffer over the payload is set up
    without checking; were that to fail, it would be used uninitialised.  After a
    failed parse the new object is released; what the release does to a half
    parsed object is not followed, [itf_parse] yields the fields on success
    only. *)
Definition __sshmsg_parse (sizeof : Z → Z) (payload : list Z) : exec (option any_msg) :=
  exec_bind (tt_buf_create_nocopy payload None) (λ r,
    match r with
    | TT_ERROR _ => Undef
    | TT_SUCCESS pbuf =>
        exec_bind
          ((msgid ← tt_buf_get_u8;
            match kind_of_id msgid with
            | None => fail TT_FAIL
            | Some k => parse_kind sizeof k
            end) pbuf)
          (λ '(r, _), Ret match r with TT_SUCCESS m => Some m | TT_ERROR _ => None end)
    end).

(** [tt_buf_reset_rwp(&msg->buf); tt_buf_put(&msg->buf, msg_data, msg_len)] *)
Definition save_packet {T} (data : list Z) : M (tt_sshmsg_t T) unit :=
  zoom msg_buf set_msg_buf (tt_buf_reset_rwp;; tt_buf_put data).

Definition tt_sshmsg_parse (sizeof : Z → Z) : M tt_buf_t any_msg :=
  msg_data ← gets rpos;
  packet_length ← tt_buf_get_u32_h;
  b ← gets id;
  if packet_length =? 0 then fail TT_FAIL
  else if TT_BUF_RLEN b <? packet_length then fail TT_E_BUF_NOBUFS
  else
    padding_length ← tt_buf_get_u8;
    if packet_length <=? padding_length + 1 then fail TT_FAIL
    else
      b ← gets id;
      let payload_length := u32 (packet_length - 1 - padding_length) in
      payload ← buf_read (rpos b) payload_length;
      msg ← access (__sshmsg_parse sizeof payload);
      match msg with
      | None => fail TT_FAIL
      | Some (mk_any k m) =>
          _ ← try (tt_buf_inc_rp (u32 (payload_length + padding_length)));
          b ← gets id;
          let msg_len := u32 (rpos b - msg_data) in
          if save m then
            data ← buf_read msg_data msg_len;
            '(r, m) ← access (save_packet data m);
            match r with
            | TT_SUCCESS _ => mret (mk_any k m)
            | TT_ERROR _ => access (tt_sshmsg_release m);; fail TT_FAIL
            end
          else mret (mk_any k m)
      end.
End dispatch.

(** ** The promises of every type *)

Section kinds.
Context `{Allocator} `{Random}.

#[global] Instance kind_safe (k : msg_kind) : SshMsgSafe (fields_t k).
Proof. destruct k; cbn [fields_t kind_itf]; apply _. Defined.

(** No message of this type is ever rendered. *)
#[local] Instance kexdh_init_wire : SshMsgWire KexdhInit.tt_sshmsg_kexdh_init_t.
Proof. refine {| msg_valid _ := False; msg_fields _ := [] |}; done. Defined.
#[local] Instance kexdh_init_roundtrip : SshMsgRoundtrip KexdhInit.tt_sshmsg_kexdh_init_t.
Proof. refine {| msg_same _ _ := False |}. done. Defined.

#[global] Instance kind_wire (k : msg_kind) : SshMsgWire (fields_t k).
Proof. destruct k; cbn [fields_t kind_itf]; apply _. Defined.

#[global] Instance kind_roundtrip (k : msg_kind) : SshMsgRoundtrip (fields_t k).
Proof. destruct k; cbn [fields_t kind_itf kind_wire kind_safe]; apply _. Defined.

Definition kind_id (k : msg_kind) : Z := itf_id (T:=fields_t k).

(** The switch goes by the id that the type renders. *)
Lemma kind_of_id_iff msgid k : kind_of_id msgid = Some k ↔ msgid = kind_id k.
Proof.
  split; [|intros ->; by destruct k]. unfold kind_of_id.
  repeat lazymatch goal with
    | |- (if ?x =? ?y then Some ?c else _) = Some k → _ =>
        destruct (Z.eqb_spec x y) as [->|_]; [intros [= <-]; reflexivity|]
    end. done.
Qed.

(** What parsing leaves can be destroyed: every block it owns is freed once. *)
Lemma zoom_ok {S T} (g : S → T) (p : T → S → S) (m : M T unit) s t :
  m (g s) = Ret (TT_SUCCESS tt, t) → zoom g p m s = Ret (TT_SUCCESS tt, p t s).
Proof. unfold zoom. by intros ->. Qed.

Lemma blob_destroy_ok b : blob_ok b → ∃ b', tt_blob_destroy b = Ret (TT_SUCCESS tt, b').
Proof. unfold blob_ok, tt_blob_destroy. destruct (addr b); [by eexists|by eexists|done]. Qed.

Lemma uar_destroy_ok t :
  Uar.uar_parsed t → ∃ t', Uar.__uar_destroy t = Ret (TT_SUCCESS tt, t').
Proof.
  intros (Hu & _ & _ & Hm). unfold Uar.__uar_destroy.
  destruct (blob_destroy_ok _ Hu) as (u & Eu).
  rewrite (bind_step _ _ _ _ _ (zoom_ok _ _ _ _ _ Eu)). m_simpl.
  change (Uar.auth (Uar.set_user u t)) with (Uar.auth t).
  destruct (Uar.auth t); try by eexists.
  - destruct Hm as (k & Ek & Hk & Hs).
    destruct (blob_destroy_ok _ Hk) as (b1 & E1). destruct (blob_destroy_ok _ Hs) as (b2 & E2).
    unfold Uar.on_pubkey, Uar.on_key, Uar.on_signature, zoom, access. m_simpl. cbn.
    rewrite Ek. cbn. rewrite E1. cbn. rewrite E2. by eexists.
  - destruct Hm as (w & Ew & Hk & Hs).
    destruct (blob_destroy_ok _ Hk) as (b1 & E1). destruct (blob_destroy_ok _ Hs) as (b2 & E2).
    unfold Uar.on_pwd, Uar.on_old_pwd, Uar.on_new_pwd, zoom, access. m_simpl. cbn.
    rewrite Ew. cbn. rewrite E1. cbn. rewrite E2. by eexists.
Qed.

Lemma kind_destroy k (t : fields_t k) :
  msg_parsed t → ∃ t', itf_destroy t = Ret (TT_SUCCESS tt, t').
Proof.
  destruct k; cbn; intros Hp; try (by eexists).
  - destruct (blob_destroy_ok _ (proj1 Hp)) as (b & E). eexists. by apply zoom_ok.
  - by apply uar_destroy_ok.
  - destruct (blob_destroy_ok _ Hp) as (b & E). eexists. by apply zoom_ok.
  - destruct Hp as (_ & _ & Hp); destruct (blob_destroy_ok _ Hp) as (b & E).
    eexists. by apply zoom_ok.
  - destruct Hp as (_ & Hp & _). destruct (buf_destroy_ok _ Hp) as (b & E).
    eexists. by apply zoom_ok.
Qed.
End kinds.

(** ** A payload *)

Section payload.
Context `{Allocator} `{Random} (sizeof : Z → Z).

(** The memory of the message objects themselves can be had. *)
Definition objects_fit : Prop := ∀ id, is_Some (malloc (sizeof id)).

Lemma create_ok k :
  objects_fit →
  tt_sshmsg_create (T:=fields_t k) sizeof =
    Ret (Some (mk_sshmsg (kind_id k) 1 small_buf false 0 (itf_save (T:=fields_t k)) msg_init)).
Proof.
  intros Hf. unfold tt_sshmsg_create. destruct (Hf (itf_id (T:=fields_t k))) as (blk & ->).
  change (tt_buf_init None) with (Ret (TT_SUCCESS small_buf)).
  by rewrite (law_create (T:=fields_t k)).
Qed.

(** A delivered message, before its packet is saved. *)
Definition new_msg (k : msg_kind) (t : fields_t k) : tt_sshmsg_t (fields_t k) :=
  mk_sshmsg (kind_id k) 1 small_buf false 0 (itf_save (T:=fields_t k)) t.

Lemma parse_kind_eq k b :
  objects_fit →
  parse_kind sizeof k b =
    exec_bind (itf_parse (T:=fields_t k) msg_init b) (λ '(r, b'),
      Ret (match r with TT_SUCCESS t => TT_SUCCESS (mk_any k (new_msg k t))
                      | TT_ERROR e => TT_ERROR e end, b')).
Proof.
  intros Hf. unfold parse_kind. m_simpl. rewrite create_ok by done. cbn [body].
  by destruct (itf_parse msg_init b) as [[[] ?]| | |].
Qed.

(** The buffer that [__sshmsg_parse] reads. *)
Lemma payload_buffer c d :
  Forall is_u8 (c :: d) → zlen (c :: d) < 2 ^ 32 →
  ∃ b, tt_buf_create_nocopy (c :: d) None = Ret (TT_SUCCESS b) ∧
    tt_buf_get_u8 b = Ret (TT_SUCCESS c, set_rpos 1 b) ∧
    buf_wf (set_rpos 1 b) ∧ content (set_rpos 1 b) = d.
Proof.
  intros Hd Hl. destruct (buf_create_nocopy_ok (c :: d) None attr_default_wf Hd Hl)
    as (b & E & Hwf & Hc & _ & Hr & Hw).
  exists b. pose proof (parses_u8 c b d Hwf Hc) as Hp. rewrite Hr in Hp.
  split; [done|]. split; [exact Hp|].
  assert (0 ≤ 1 ≤ zlen (content b)) as Hn.
  { rewrite Hc, zlen_cons. pose proof (zlen_nonneg d). lia. }
  replace (set_rpos 1 b) with (set_rpos (rpos b + 1) b) by by rewrite Hr.
  split; [apply wf_advance; [done|lia|lia]|]. rewrite content_set_rpos by (done || lia). by rewrite Hc.
Qed.

(** What [__sshmsg_parse] delivers is in order. *)
Definition delivered (payload : list Z) (m : any_msg) : Prop :=
  ∃ k t rest, m = mk_any k (new_msg k t) ∧ msg_parsed t ∧ payload = kind_id k :: rest.

Lemma payload_safe payload :
  objects_fit → Forall is_u8 payload → zlen payload ≤ max_read →
  ∃ r, __sshmsg_parse sizeof payload = Ret r ∧
    match r with None => True | Some m => delivered payload m end.
Proof.
  intros Hf Hd Hl. unfold __sshmsg_parse. destruct payload as [|c d].
  { by exists None. }
  destruct (payload_buffer c d) as (b & -> & E & Hwf & Hc); [done|unfold max_read in *; lia|].
  cbn [exec_bind]. rewrite (bind_step _ _ _ _ _ E).
  destruct (kind_of_id c) as [k|] eqn:Hk; [|by exists None].
  rewrite parse_kind_eq by done.
  destruct (law_safe (T:=fields_t k) (set_rpos 1 b)) as (r & n & -> & _ & Hr).
  { done. } { rewrite Hc, zlen_cons in *. lia. }
  destruct r as [t|e]; [|by exists None]. cbn [exec_bind].
  eexists. split; [reflexivity|]. exists k, t, d. split_and!; [done|done|].
  f_equal. by apply kind_of_id_iff.
Qed.

Lemma payload_roundtrip k (t : fields_t k) :
  malloc_total → msg_valid t → Forall is_u8 (msg_payload t) → zlen (msg_payload t) ≤ max_read →
  ∃ t', __sshmsg_parse sizeof (msg_payload t) = Ret (Some (mk_any k (new_msg k t'))) ∧
    msg_same t t' ∧ msg_parsed t'.
Proof.
  intros Hm Hv Hd Hl. pose proof (law_small t Hv). unfold __sshmsg_parse, msg_payload in *.
  destruct (payload_buffer (itf_id (T:=fields_t k)) (msg_fields t))
    as (b & -> & E & Hwf & Hc); [done|rewrite zlen_cons; lia|].
  cbn [exec_bind]. rewrite (bind_step _ _ _ _ _ E).
  rewrite (proj2 (kind_of_id_iff (itf_id (T:=fields_t k)) k) eq_refl). rewrite parse_kind_eq by (intros id; apply Hm).
  destruct (law_parse t Hv (set_rpos 1 b) []) as [(t' & b' & Ep & Hs)|(? & ? & _ & ?)]; try done.
  { by rewrite app_nil_r. }
  destruct (law_safe (T:=fields_t k) (set_rpos 1 b)) as (r & n & E' & _ & Hr).
  { done. } { rewrite Hc, zlen_cons in *. lia. }
  exists t'. rewrite Ep in E'. injection E' as <- _. by rewrite Ep.
Qed.

(** ** A packet *)

(** What the framing finds in the readable bytes [c]: how many bytes the packet
    has, and its payload. *)
Definition frame_result (c : list Z) : result (Z * list Z) :=
  if zlen c <? 4 then TT_ERROR TT_E_BUF_NOBUFS
  else
    let len := tt_ntoh32 (le_combine (sub c 0 4)) in
    if len =? 0 then TT_ERROR TT_FAIL
    else if zlen c - 4 <? len then TT_ERROR TT_E_BUF_NOBUFS
    else
      let pad := le_combine (sub c 4 1) in
      if len <=? pad + 1 then TT_ERROR TT_FAIL
      else TT_SUCCESS (4 + len, sub c 5 (len - 1 - pad)).

(** The end of [tt_sshmsg_parse]: saving the packet in the message. *)
Definition finish_parse (k : msg_kind) (m : tt_sshmsg_t (fields_t k)) (data : list Z)
    (b : tt_buf_t) : exec (result any_msg * tt_buf_t) :=
  if save m then
    exec_bind (save_packet data m) (λ '(r, m),
      match r with
      | TT_SUCCESS _ => Ret (TT_SUCCESS (mk_any k m), b)
      | TT_ERROR _ => exec_bind (tt_sshmsg_release m) (λ _, Ret (TT_ERROR TT_FAIL, b))
      end)
  else Ret (TT_SUCCESS (mk_any k m), b).

Lemma parse_frame b :
  buf_wf b →
  match frame_result (content b) with
  | TT_ERROR e => ∃ b', tt_sshmsg_parse sizeof b = Ret (TT_ERROR e, b') ∧ buf_wf b'
  | TT_SUCCESS (n, payload) =>
      5 ≤ n ≤ zlen (content b) ∧ Forall is_u8 payload ∧ zlen payload ≤ zlen (content b) ∧
      tt_sshmsg_parse sizeof b =
        exec_bind (__sshmsg_parse sizeof payload) (λ msg,
          match msg with
          | None => Ret (TT_ERROR TT_FAIL, set_rpos (rpos b + 5) b)
          | Some (mk_any k m) =>
              finish_parse k m (sub (content b) 0 n) (set_rpos (rpos b + n) b)
          end)
  end.
Proof.
  intros Hwf. unfold tt_sshmsg_parse, frame_result.
  pose proof (wf_content b Hwf) as Hz. pose proof (wf_pos b Hwf). pose proof (wf_size b Hwf).
  m_simpl. rewrite get_u32_h_spec by done.
  destruct (Z.leb_spec 4 (zlen (content b))) as [H4|H4]; cycle 1.
  { rewrite (proj2 (Z.ltb_lt _ 4)) by lia. by eexists. }
  rewrite (proj2 (Z.ltb_ge _ 4)) by lia.
  set (b1 := set_rpos (rpos b + 4) b).
  assert (buf_wf b1) as Hwf1 by (apply wf_advance; [done|lia|lia]).
  assert (content b1 = drop (Z.to_nat 4) (content b)) as Hc1
    by by apply content_set_rpos; [|lia].
  assert (zlen (content b1) = zlen (content b) - 4) as Hz1 by (rewrite Hc1, zlen_drop; lia).
  pose proof (Forall_sub _ (blk b) (rpos b) (wpos b - rpos b) (wf_bytes b Hwf)) as Hcb.
  fold (content b) in Hcb.
  set (len := tt_ntoh32 _).
  assert (is_u32 len) as Hlen.
  { apply (bswap_range 4); [by apply Forall_sub|].
    pose proof (zlen_sub (content b) 0 4). unfold zlen in *. lia. }
  unfold is_u32 in Hlen. cbn iota beta.
  destruct (Z.eqb_spec len 0); [by eexists|].
  assert (TT_BUF_RLEN b1 = zlen (content b) - 4) as -> by (rewrite wf_rlen by done; simpl; lia).
  destruct (Z.ltb_spec (zlen (content b) - 4) len); [by eexists|].
  rewrite get_u8_spec by done. rewrite (proj2 (Z.leb_le 1 _)) by lia.
  replace (sub (content b1) 0 1) with (sub (content b) 4 1) by by rewrite Hc1.
  set (pad := le_combine (sub (content b) 4 1)).
  assert (is_u8 pad) as Hpad.
  { pose proof (le_combine_range (sub (content b) 4 1) (Forall_sub _ _ _ _ Hcb)) as Hr.
    rewrite zlen_sub in Hr by lia. exact Hr. }
  unfold is_u8 in Hpad. cbn iota beta.
  set (b2 := set_rpos (rpos b1 + 1) b1).
  assert (buf_wf b2) as Hwf2 by (apply wf_advance; [done|lia|lia]).
  destruct (Z.leb_spec len (pad + 1)); [by eexists|].
  rewrite (u32_small (len - 1 - pad)) by lia.
  split; [lia|]. split; [by apply Forall_sub|].
  split; [rewrite zlen_sub; lia|].
  rewrite buf_read_ok by (done || (simpl; lia)). cbn iota beta.
  change (blk b2) with (blk b). replace (rpos b2) with (rpos b + 5) by (simpl; lia).
  rewrite <- (sub_content b 5) by (done || lia).
  destruct (__sshmsg_parse sizeof _) as [[[k m]|]| | |]; try done; cbn [exec_bind]; cycle 1.
  { do 2 f_equal. unfold b2, b1, set_rpos. simpl. f_equal. lia. }
  rewrite (u32_small (_ + pad)) by lia. rewrite buf_inc_rp_spec by (done || lia).
  assert (zlen (content b2) = zlen (content b) - 5) as Hz2
    by (rewrite wf_content by done; simpl; lia).
  rewrite (proj2 (Z.leb_le _ (zlen (content b2)))) by lia. cbn iota beta.
  set (b3 := set_rpos (rpos b2 + _) b2).
  assert (b3 = set_rpos (rpos b + (4 + len)) b) as E3
    by (unfold b3, b2, b1, set_rpos; simpl; f_equal; lia).
  unfold finish_parse. destruct (save m); [|by rewrite E3].
  replace (rpos b3 - rpos b) with (4 + len) by (rewrite E3; simpl; lia).
  rewrite u32_small by lia.
  assert (buf_wf b3) by (rewrite E3; apply wf_advance; [done|lia|lia]).
  rewrite buf_read_ok by (done || (try change (size b3) with (size b); lia)). cbn iota beta.
  change (blk b3) with (blk b). rewrite sub_content by (done || lia). rewrite Z.add_0_r, E3.
  destruct (save_packet _ m) as [[[?|?] m']| | |]; try done. cbn iota beta.
  cbn [exec_bind]. by destruct (tt_sshmsg_release m').
Qed.

(** What saving leaves in the message's buffer. *)
Definition saved_in {T} `{!SshMsgItf T} (packet : list Z) (m : tt_sshmsg_t T) : Prop :=
  buf_wf (msg_buf m) ∧ content (msg_buf m) = if itf_save then packet else [].

(** The last reference to a message in order frees it. *)
Lemma release_ok k (m : tt_sshmsg_t (fields_t k)) :
  msg_parsed (body m) → buf_wf (msg_buf m) → msg_ref m = 1 →
  ∃ m', tt_sshmsg_release m = Ret (TT_SUCCESS true, m').
Proof.
  intros Ht Hb Hr. destruct (kind_destroy k (body m) Ht) as (t' & E).
  destruct (buf_destroy_ok _ Hb) as (b' & E').
  unfold tt_sshmsg_release, __sshmsg_destroy, zoom. m_simpl. cbn [msg_ref set_ref].
  rewrite Hr. change (1 - 1 =? 0) with true. cbn [body set_ref]. rewrite E.
  cbn [msg_buf set_body set_ref]. rewrite E'. by eexists.
Qed.

Lemma finish_ok k t data b :
  msg_parsed t → Forall is_u8 data → zlen data ≤ 4 + max_read →
  (∃ m, finish_parse k (new_msg k t) data b = Ret (TT_SUCCESS (mk_any k m), b) ∧
     body m = t ∧ msg_id m = kind_id k ∧ msg_ref m = 1 ∧ saved_in data m) ∨
  (finish_parse k (new_msg k t) data b = Ret (TT_ERROR TT_FAIL, b) ∧ ¬ malloc_total).
Proof.
  intros Ht Hd Hl. unfold finish_parse. cbn [save new_msg].
  destruct itf_save eqn:Hs; cycle 1.
  { left. eexists. split; [done|]. split_and!; try done. unfold saved_in. rewrite Hs.
    split; [exact empty_buf_wf|done]. }
  unfold save_packet, zoom. cbn [msg_buf new_msg]. rewrite bind_step with (a := tt) (s' := small_buf) by done.
  pose proof (zlen_nonneg data). unfold max_read in *.
  destruct (renders_put data Hd small_buf empty_buf_wf eq_refl)
    as [(b' & -> & A)|(e & b' & -> & Hwf' & _ & Hr)].
  - split; simpl; lia.
  - left. eexists. split; [reflexivity|]. split_and!; try done. unfold saved_in. rewrite Hs.
    split; [apply (app_wf _ _ _ A)|]. apply (app_content _ _ _ A).
  - right. split; [|intros Hm; by apply Hr].
    set (m := set_msg_buf b' (new_msg k t)).
    destruct (release_ok k m Ht Hwf' eq_refl) as (m' & E). cbn [exec_bind].
    unfold m in E. by rewrite E.
Qed.

Lemma frame_packet payload padding rest :
  payload ≠ [] → zlen payload + zlen padding < 2 ^ 32 - 1 → zlen padding < 256 →
  frame_result (packet payload padding ++ rest) =
    TT_SUCCESS (zlen (packet payload padding), payload).
Proof.
  intros Hne Hl Hp. pose proof (zlen_nonneg padding). pose proof (zlen_nonneg rest).
  pose proof (zlen_pos payload Hne) as Hz%Z.eqb_neq. pose proof (zlen_nonneg payload).
  destruct (packet_parts payload padding rest Hl Hp) as (E1 & E2 & E3).
  unfold frame_result. rewrite E1, E2. rewrite zlen_app, zlen_packet.
  set (v := 1 + zlen payload + zlen padding).
  rewrite (proj2 (Z.ltb_ge _ 4)) by lia. rewrite (proj2 (Z.eqb_neq v 0)) by lia.
  rewrite (proj2 (Z.ltb_ge _ v)) by lia. rewrite (proj2 (Z.leb_gt v _)) by lia.
  replace (v - 1 - zlen padding) with (zlen payload) by lia. rewrite E3. do 2 f_equal. lia.
Qed.
End payload.

(** ** Properties *)

Section properties.
Context `{Allocator} `{Random} (sizeof : Z → Z).


Lemma parse_packet_ok k (t : fields_t k) padding rest b :
  malloc_total → msg_valid t → zlen padding < 256 →
  zlen (packet (msg_payload t) padding) ≤ max_read →
  buf_wf b → content b = packet (msg_payload t) padding ++ rest →
  ∃ m b', tt_sshmsg_parse sizeof b = Ret (TT_SUCCESS (mk_any k m), b') ∧ buf_wf b' ∧
    content b' = rest ∧ msg_id m = itf_id (T:=fields_t k) ∧ msg_same t (body m) ∧
    saved_in (packet (msg_payload t) padding) m.
Proof.
  intros Hm Hv Hpad Hl Hwf Hc. pose proof (parse_frame sizeof b Hwf) as Hp.
  pose proof Hl as Hl'. rewrite zlen_packet in Hl'. unfold max_read in Hl'.
  rewrite Hc, frame_packet in Hp by (done || lia). destruct Hp as (Hn & Hd & _ & ->).
  set (pk := packet _ _) in *. rewrite zlen_app in Hn. pose proof (zlen_nonneg rest).
  assert (zlen (msg_payload t) ≤ max_read) as Hl2
    by (unfold max_read; pose proof (zlen_nonneg padding); lia).
  destruct (payload_roundtrip sizeof k t Hm Hv Hd Hl2) as (t' & -> & Hs & Ht). cbn [exec_bind].
  rewrite sub_app_len.
  assert (Forall is_u8 pk) as Hpk.
  { pose proof (Forall_sub _ _ (rpos b) (wpos b - rpos b) (wf_bytes b Hwf)) as Hb.
    fold (content b) in Hb. rewrite Hc in Hb. by apply Forall_app in Hb as [? _]. }
  assert (0 ≤ zlen pk ≤ zlen (content b)) as Hz by (rewrite Hc, zlen_app; lia).
  destruct (finish_ok k t' pk (set_rpos (rpos b + zlen pk) b))
    as [(m & -> & Hb & Hid & Href & Hsv)|[-> ?]]; [done|done|unfold max_read in *; lia| |done].
  eexists _, _. split; [done|]. rewrite Hb. split_and!; try done; [apply wf_advance; [done|lia|lia]|].
  rewrite content_set_rpos by (done || lia). rewrite Hc. apply drop_app_length'. unfold zlen. lia.
Qed.


End properties.

(** ** Witnesses *)

Definition fixed_random : Random := {| rand_u64 _ := 5; rand_u32 _ := 7 |}.

(** CHANNEL_CLOSE of channel 7, as a packet of 16 bytes. *)
Definition close_msg : tt_sshmsg_t (fields_t CHANNEL_CLOSE) :=
  mk_sshmsg 97 1 small_buf false 0 false (Chclose.mk 7).
Definition close_packet : list Z := [0; 0; 0; 12; 6; 97; 0; 0; 0; 7; 1; 2; 3; 4; 5; 6].

Lemma close_packet_eq :
  close_packet ++ [9] = packet (97 :: be_bytes 4 7) [1; 2; 3; 4; 5; 6] ++ [9].
Proof. reflexivity. Qed.

Lemma peek_payload_spec_witness :
  buf_wf (recv_buf close_packet) ∧
  tt_sshmsg_peek_payload (recv_buf close_packet) =
    Ret (TT_SUCCESS [97; 0; 0; 0; 7], recv_buf close_packet).
Proof.
  destruct (recv_buf_ok close_packet ltac:(bytes_tac) eq_refl) as [Hwf Hc].
  split; [exact Hwf|]. exact (peek_payload_spec (recv_buf close_packet) Hwf).
Defined.

Lemma small_buf_reliable : @reliable zero_alloc small_buf.
Proof. split; [exact zero_alloc_total|reflexivity]. Qed.

Lemma close_payload : msg_payload (H:=zero_alloc) (Chclose.mk 7) = [97; 0; 0; 0; 7].
Proof. reflexivity. Qed.

Lemma render_packet_witness :
  ∃ padding b', tt_sshmsg_render (H:=zero_alloc) 3 (λ _, 5) (λ _, 7) 8 false
      (close_msg : tt_sshmsg_t Chclose.tt_sshmsg_chclose_t, small_buf)
      = Ret (TT_SUCCESS tt, (set_rendered true close_msg, b')) ∧
    buf_wf b' ∧ content b' = packet [97; 0; 0; 0; 7] padding ∧ 4 ≤ zlen padding < 255 ∧
    zlen (content b') mod 8 = 0 ∧
    tt_sshmsg_peek_payload b' = Ret (TT_SUCCESS [97; 0; 0; 0; 7], b').
Proof.
  rewrite <- close_payload.
  refine (render_packet (H:=zero_alloc) (T:=Chclose.tt_sshmsg_chclose_t) 3 (λ _, 5) (λ _, 7)
    close_msg 8 small_buf _ eq_refl _ _ _ empty_buf_wf eq_refl eq_refl small_buf_reliable _).
  - split; [discriminate|reflexivity].
  - lia.
  - split; [discriminate|reflexivity].
  - lia.
  - apply small_buf_room. change (body close_msg) with (Chclose.mk 7). rewrite close_payload.
    split; discriminate.
Defined.

Lemma disconnect_short_witness :
  let t := Disconnect.mk 11 (replicate 65 0) in
  ∃ len b', itf_render_prepare (H:=zero_alloc) t = Ret (TT_SUCCESS (len, TT_SSH_RENDER_MODE_BINARY)) ∧
    itf_render (H:=zero_alloc) t small_buf = Ret (TT_SUCCESS tt, b') ∧ zlen (content b') = len + 3.
Proof.
  apply (Disconnect.disconnect_short (H:=zero_alloc) (Disconnect.mk 11 (replicate 65 0)) small_buf).
  - split; [done|]. split; [bytes_tac|]. by exists (replicate 64 0).
  - exact empty_buf_wf.
  - done.
  - done.
  - split; [exact zero_alloc_total|reflexivity].
  - apply small_buf_room. vm_compute. split; discriminate.
Defined.



