(* ===== verification/LinkedList.v ===== *)
(** The intrusive doubly linked list (algorithm/tt_list.h and .c): nodes and list
    objects live in one memory and point to each other, and the same node can be
    passed to operations of different lists.  The lists are shown to behave as
    disjoint sequences of nodes. *)

From S2P Require Import Prelude.
From stdpp Require Import gmap.

#[local] Open Scope Z_scope.

(** ** Memory *)

Notation nid := positive (only parsing).
Notation lid := positive (only parsing).

Record tt_lnode_t : Type := mk_lnode {
  lst : option lid;
  prev : option nid;
  next : option nid;
}.

Record tt_list_t : Type := mk_list {
  head : option nid;
  tail : option nid;
  count : Z;
}.

Record lmem : Type := mk_lmem { nodes : gmap nid tt_lnode_t; lists : gmap lid tt_list_t }.

Definition set_lst (l : option lid) (v : tt_lnode_t) : tt_lnode_t := mk_lnode l (prev v) (next v).
Definition set_prev (p : option nid) (v : tt_lnode_t) : tt_lnode_t := mk_lnode (lst v) p (next v).
Definition set_next (n : option nid) (v : tt_lnode_t) : tt_lnode_t := mk_lnode (lst v) (prev v) n.
Definition set_head (h : option nid) (l : tt_list_t) : tt_list_t := mk_list h (tail l) (count l).
Definition set_tail (t : option nid) (l : tt_list_t) : tt_list_t := mk_list (head l) t (count l).
Definition set_count (c : Z) (l : tt_list_t) : tt_list_t := mk_list (head l) (tail l) c.

(** Following a pointer to a node or a list. *)
Definition node (x : nid) : M lmem tt_lnode_t := λ h,
  match nodes h !! x with Some v => Ret (TT_SUCCESS v, h) | None => Undef end.
Definition list_at (L : lid) : M lmem tt_list_t := λ h,
  match lists h !! L with Some l => Ret (TT_SUCCESS l, h) | None => Undef end.

(** Writing fields through a pointer. *)
Definition upd_node (x : nid) (f : tt_lnode_t → tt_lnode_t) : M lmem unit := λ h,
  match nodes h !! x with
  | Some v => Ret (TT_SUCCESS tt, mk_lmem (<[x := f v]> (nodes h)) (lists h))
  | None => Undef
  end.
Definition upd_list (L : lid) (f : tt_list_t → tt_list_t) : M lmem unit := λ h,
  match lists h !! L with
  | Some l => Ret (TT_SUCCESS tt, mk_lmem (nodes h) (<[L := f l]> (lists h)))
  | None => Undef
  end.

Definition is_null {A} (p : option A) : bool := match p with None => true | Some _ => false end.

(** ** Operations *)

Definition lnode_blank : tt_lnode_t := mk_lnode None None None.

Definition tt_lnode_init (x : nid) : M lmem unit := upd_node x (λ _, lnode_blank).
Definition tt_list_init (L : lid) : M lmem unit := upd_list L (λ _, mk_list None None 0).

Definition tt_list_count (L : lid) : M lmem Z := l ← list_at L; mret (count l).
Definition tt_list_empty (L : lid) : M lmem bool := c ← tt_list_count L; mret (c =? 0).
Definition tt_list_head (L : lid) : M lmem (option nid) := l ← list_at L; mret (head l).
Definition tt_list_tail (L : lid) : M lmem (option nid) := l ← list_at L; mret (tail l).

Definition tt_list_push_head (L : lid) (x : nid) : M lmem unit :=
  v ← node x;
  assert_always (is_null (lst v));;
  l ← list_at L;
  upd_node x (set_next (head l));;
  upd_node x (set_lst (Some L));;
  match head l with
  | Some y => upd_node y (set_prev (Some x))
  | None => upd_list L (set_tail (Some x))
  end;;
  upd_list L (set_head (Some x));;
  upd_list L (λ l, set_count (u32 (count l + 1)) l).

Definition tt_list_push_tail (L : lid) (x : nid) : M lmem unit :=
  v ← node x;
  assert_always (is_null (lst v));;
  l ← list_at L;
  upd_node x (set_prev (tail l));;
  upd_node x (set_lst (Some L));;
  match tail l with
  | Some y => upd_node y (set_next (Some x))
  | None => upd_list L (set_head (Some x))
  end;;
  upd_list L (set_tail (Some x));;
  upd_list L (λ l, set_count (u32 (count l + 1)) l).

Definition tt_list_pop_head (L : lid) : M lmem (option nid) :=
  l ← list_at L;
  match head l with
  | None => mret None
  | Some x =>
      v ← node x;
      upd_list L (set_head (next v));;
      match next v with
      | Some y => upd_node y (set_prev None)
      | None => upd_list L (set_tail None)
      end;;
      upd_list L (λ l, set_count (u32 (count l - 1)) l);;
      upd_node x (λ _, lnode_blank);;
      mret (Some x)
  end.

Definition tt_list_pop_tail (L : lid) : M lmem (option nid) :=
  l ← list_at L;
  match tail l with
  | None => mret None
  | Some x =>
      v ← node x;
      upd_list L (set_tail (prev v));;
      match prev v with
      | Some y => upd_node y (set_next None)
      | None => upd_list L (set_head None)
      end;;
      upd_list L (λ l, set_count (u32 (count l - 1)) l);;
      upd_node x (λ _, lnode_blank);;
      mret (Some x)
  end.

(** The loop runs once for each node; [fuel] bounds it. *)
Fixpoint clear_loop (fuel : nat) (L : lid) : M lmem unit :=
  match fuel with
  | O => λ _, Diverge
  | S fuel =>
      r ← tt_list_pop_head L;
      match r with None => mret tt | Some _ => clear_loop fuel L end
  end.
Definition tt_list_clear (L : lid) : M lmem unit := λ h, clear_loop (S (size (nodes h))) L h.

Definition tt_list_insert_before (pos x : nid) : M lmem unit :=
  vp ← node pos;
  v ← node x;
  assert_always (is_null (lst v));;
  match lst vp with
  | None => crash
  | Some L =>
      upd_node x (set_next (Some pos));;
      upd_node x (set_prev (prev vp));;
      upd_node x (set_lst (Some L));;
      match prev vp with
      | Some y => upd_node y (set_next (Some x))
      | None => upd_list L (set_head (Some x))
      end;;
      upd_node pos (set_prev (Some x));;
      upd_list L (λ l, set_count (u32 (count l + 1)) l)
  end.

Definition tt_list_insert_after (pos x : nid) : M lmem unit :=
  vp ← node pos;
  v ← node x;
  assert_always (is_null (lst v));;
  match lst vp with
  | None => crash
  | Some L =>
      upd_node x (set_prev (Some pos));;
      upd_node x (set_next (next vp));;
      upd_node x (set_lst (Some L));;
      match next vp with
      | Some y => upd_node y (set_prev (Some x))
      | None => upd_list L (set_tail (Some x))
      end;;
      upd_node pos (set_next (Some x));;
      upd_list L (λ l, set_count (u32 (count l + 1)) l)
  end.

Definition tt_list_remove (x : nid) : M lmem (option nid) :=
  v ← node x;
  match lst v with
  | None => mret None
  | Some L =>
      match prev v with
      | Some y => upd_node y (set_next (next v))
      | None => upd_list L (set_head (next v))
      end;;
      match next v with
      | Some y => upd_node y (set_prev (prev v))
      | None => upd_list L (set_tail (prev v))
      end;;
      upd_list L (λ l, set_count (u32 (count l - 1)) l);;
      upd_node x (λ _, lnode_blank);;
      mret (next v)
  end.

Definition tt_list_contain (L : lid) (x : nid) : M lmem bool :=
  v ← node x; mret (bool_decide (Some L = lst v)).

(** ** A doubly linked segment *)

(** The nodes [xs] of list [L] are linked in this order, with [p] before the
    first and [n] after the last. *)
Fixpoint linked (m : gmap nid tt_lnode_t) (L : lid) (p : option nid) (xs : list nid)
    (n : option nid) : Prop :=
  match xs with
  | [] => True
  | x :: xs => m !! x = Some (mk_lnode (Some L) p (hd_or xs n)) ∧ linked m L (Some x) xs n
  end.

Section linked.
Context (L : lid).
Implicit Types (m : gmap nid tt_lnode_t) (xs ys : list nid) (p n : option nid).

Lemma linked_app m p xs ys n :
  linked m L p (xs ++ ys) n ↔ linked m L p xs (hd_or ys n) ∧ linked m L (last_or p xs) ys n.
Proof.
  revert p. induction xs as [|x xs IH]; intros p; simpl; [naive_solver|].
  rewrite IH, hd_or_app. naive_solver.
Qed.

Lemma linked_at m p xs1 x xs2 n :
  linked m L p (xs1 ++ x :: xs2) n →
  m !! x = Some (mk_lnode (Some L) (last_or p xs1) (hd_or xs2 n)).
Proof. rewrite linked_app. simpl. naive_solver. Qed.

Lemma linked_ext m m' p xs n :
  (∀ y, y ∈ xs → m' !! y = m !! y) → linked m L p xs n → linked m' L p xs n.
Proof.
  revert p. induction xs as [|x xs IH]; intros p Heq; [done|]. simpl. intros [Hx Hl].
  rewrite Heq by set_solver. split; [done|]. apply IH; [set_solver|done].
Qed.

Lemma linked_insert m p xs n x v : x ∉ xs → linked m L p xs n → linked (<[x := v]> m) L p xs n.
Proof. intros Hx. apply linked_ext. intros y Hy. apply lookup_insert_ne. set_solver. Qed.

Lemma linked_in m p xs n x :
  linked m L p xs n → x ∈ xs → ∃ v, m !! x = Some v ∧ lst v = Some L.
Proof.
  intros Hl (xs1 & xs2 & ->)%list_elem_of_split. apply linked_at in Hl. eauto.
Qed.

(** Relinking the first node backwards, the last node forwards. *)
Lemma linked_set_prev m p p' y ys n v :
  NoDup (y :: ys) → linked m L p (y :: ys) n → m !! y = Some v →
  linked (<[y := set_prev p' v]> m) L p' (y :: ys) n.
Proof.
  intros [Hy _]%NoDup_cons [E Hl] Hv. simpl. rewrite lookup_insert_eq.
  rewrite E in Hv. injection Hv as <-. split; [done|]. by apply linked_insert.
Qed.

Lemma linked_set_next m p ys y n n' v :
  NoDup (ys ++ [y]) → linked m L p (ys ++ [y]) n → m !! y = Some v →
  linked (<[y := set_next n' v]> m) L p (ys ++ [y]) n'.
Proof.
  intros (_ & Hy & _)%NoDup_app [Hl [E _]]%linked_app Hv. apply linked_app.
  rewrite E in Hv. injection Hv as <-. split.
  - apply linked_insert; [|done]. intros Hin. apply (Hy y Hin). set_solver.
  - simpl. by rewrite lookup_insert_eq.
Qed.
End linked.

(** ** Lists as sequences *)

(** The sequence of each list. *)
Notation seqs := (gmap lid (list nid)) (only parsing).

Definition free (σ : gmap lid (list nid)) (x : nid) : Prop := ∀ L xs, σ !! L = Some xs → x ∉ xs.

Definition list_of (xs : list nid) : tt_list_t :=
  mk_list (hd_or xs None) (last_or None xs) (u32 (zlen xs)).

Record lrep (h : lmem) (σ : gmap lid (list nid)) : Prop := {
  rep_list L xs : σ !! L = Some xs →
    lists h !! L = Some (list_of xs) ∧ NoDup xs ∧ linked (nodes h) L None xs None;
  rep_node x v : nodes h !! x = Some v →
    match lst v with
    | None => v = lnode_blank
    | Some L => ∃ xs, σ !! L = Some xs ∧ x ∈ xs
    end;
  rep_dom L l : lists h !! L = Some l → is_Some (σ !! L);
}.

Section rep.
Context (h : lmem) (σ : gmap lid (list nid)) (Hrep : lrep h σ).

Lemma rep_in L xs x :
  σ !! L = Some xs → x ∈ xs → ∃ v, nodes h !! x = Some v ∧ lst v = Some L.
Proof. intros HL. destruct (rep_list h σ Hrep L xs HL) as (_ & _ & Hl). by eapply linked_in. Qed.

(** Lists share no node. *)
Lemma rep_disjoint L xs K ys x :
  σ !! L = Some xs → σ !! K = Some ys → x ∈ xs → x ∈ ys → K = L.
Proof.
  intros HL HK Hx Hy. destruct (rep_in L xs x HL Hx) as (v & Hv & E).
  destruct (rep_in K ys x HK Hy) as (v' & Hv' & E'). congruence.
Qed.

Lemma rep_free x v : nodes h !! x = Some v → free σ x ↔ lst v = None.
Proof.
  intros Hv. split.
  - intros Hf. pose proof (rep_node h σ Hrep x v Hv) as Hn. destruct (lst v) as [L|]; [|done].
    destruct Hn as (xs & HL & Hx). by destruct (Hf L xs HL).
  - intros E L xs HL Hx. destruct (rep_in L xs x HL Hx) as (v' & Hv' & E'). congruence.
Qed.

Lemma rep_blank x v : nodes h !! x = Some v → free σ x → v = lnode_blank.
Proof.
  intros Hv Hf. pose proof (rep_node h σ Hrep x v Hv) as Hn.
  by rewrite (proj1 (rep_free x v Hv) Hf) in Hn.
Qed.

(** An operation that changes list [L] from [xs] to [xs'], touching only nodes of
    [xs] and one node [x] that is free or in [xs]. *)
Lemma rep_update L xs xs' x m' :
  σ !! L = Some xs → (free σ x ∨ x ∈ xs) →
  (∀ y, y ∉ xs → y ≠ x → m' !! y = nodes h !! y) →
  NoDup xs' → linked m' L None xs' None →
  (∀ y v, y ∈ xs ∨ y = x → m' !! y = Some v → y ∈ xs' ∨ v = lnode_blank) →
  (∀ y, y ∈ xs' → y ∈ xs ∨ y = x) →
  lrep (mk_lmem m' (<[L := list_of xs']> (lists h))) (<[L := xs']> σ).
Proof.
  intros HL Hx Hm Hnd Hl Hout Hin.
  assert (∀ K ys y, σ !! K = Some ys → K ≠ L → y ∈ ys → m' !! y = nodes h !! y) as Hframe.
  { intros K ys y HK Hne Hy. apply Hm.
    - intros Hy'. exact (Hne (rep_disjoint L xs K ys y HL HK Hy' Hy)).
    - intros ->. destruct Hx as [Hf|Hx]; [by apply (Hf K ys)|].
      exact (Hne (rep_disjoint L xs K ys x HL HK Hx Hy)). }
  constructor.
  - intros K ys. simpl. destruct (decide (K = L)) as [->|Hne].
    + rewrite !lookup_insert_eq. by intros [= <-].
    + rewrite !lookup_insert_ne by done. intros HK. destruct (rep_list h σ Hrep K ys HK) as (? & ? & Hk).
      split_and!; try done. eapply linked_ext; [|done]. intros y. by apply (Hframe K).
  - intros y v Hy. simpl in Hy. destruct (decide (y ∈ xs ∨ y = x)) as [Hc|Hc].
    + destruct (Hout y v Hc Hy) as [Hy'| ->]; [|done].
      destruct (linked_in L m' None xs' None y Hl Hy') as (v' & Hv' & E). rewrite Hy in Hv'.
      injection Hv' as ->. rewrite E. exists xs'. by rewrite lookup_insert_eq.
    + rewrite Hm in Hy by naive_solver. pose proof (rep_node h σ Hrep y v Hy) as Hn.
      destruct (lst v) as [K|]; [|done]. destruct Hn as (ys & HK & Hys). exists ys.
      rewrite lookup_insert_ne; [done|]. intros ->. naive_solver.
  - intros K l. simpl. destruct (decide (K = L)) as [->|Hne].
    + rewrite !lookup_insert_eq. by eexists.
    + rewrite !lookup_insert_ne by done. apply (rep_dom h σ Hrep).
Qed.
End rep.

(** ** Each operation on sequences *)

Ltac look :=
  first [ rewrite lookup_insert_eq | rewrite lookup_insert_ne by (done || congruence || set_solver)
        | match goal with E : ?m !! ?k = _ |- context [?m !! ?k] => rewrite E end ].
Ltac lrun :=
  m_simpl; unfold node, list_at, upd_node, upd_list; cbn; repeat (look; cbn).

(** The record of a list after its fields were written one by one. *)
Ltac norm_list Hc :=
  rewrite ?insert_insert_eq; unfold set_count, set_head, set_tail; cbn; rewrite Hc; done.

(** Changing a node that may be missing at the end of a list. *)
Definition relink (f : tt_lnode_t → tt_lnode_t) (o : option nid) (m : gmap nid tt_lnode_t)
  : gmap nid tt_lnode_t :=
  match o with Some y => match m !! y with Some v => <[y := f v]> m | None => m end | None => m end.

Lemma relink_other f o m y : o ≠ Some y → relink f o m !! y = m !! y.
Proof.
  intros Hne. destruct o as [z|]; [|done]. simpl. destruct (m !! z); [|done].
  apply lookup_insert_ne. congruence.
Qed.

(** The memory with [x] between [xs1] and [xs2]. *)
Definition link_in (m : gmap nid tt_lnode_t) (L : lid) (xs1 : list nid) (x : nid) (xs2 : list nid)
  : gmap nid tt_lnode_t :=
  relink (set_prev (Some x)) (hd_or xs2 None)
    (relink (set_next (Some x)) (last_or None xs1)
      (<[x := mk_lnode (Some L) (last_or None xs1) (hd_or xs2 None)]> m)).

(** The memory without [x] between them. *)
Definition link_out (m : gmap nid tt_lnode_t) (xs1 : list nid) (x : nid) (xs2 : list nid)
  : gmap nid tt_lnode_t :=
  <[x := lnode_blank]>
    (relink (set_prev (last_or None xs1)) (hd_or xs2 None)
      (relink (set_next (hd_or xs2 None)) (last_or None xs1) m)).

Section relink.
Context (L : lid).
Implicit Types (m : gmap nid tt_lnode_t) (xs : list nid).

Lemma relink_next m p xs n n' :
  NoDup xs → linked m L p xs n →
  linked (relink (set_next n') (last_or None xs) m) L p xs n'.
Proof.
  intros Hnd Hl. destruct (snoc_cases xs) as [->|(ys & y & ->)]; [done|].
  rewrite last_or_app. cbn [last_or relink]. pose proof (linked_at L m p ys y [] n Hl) as E.
  rewrite E. by eapply linked_set_next.
Qed.

Lemma relink_prev m p p' xs n :
  NoDup xs → linked m L p xs n → linked (relink (set_prev p') (hd_or xs None) m) L p' xs n.
Proof.
  intros Hnd Hl. destruct xs as [|x xs]; [done|]. cbn [hd_or relink].
  rewrite (proj1 Hl). eapply linked_set_prev; [done|done|apply (proj1 Hl)].
Qed.

Lemma relink_frame m f o p xs n :
  (∀ y, o = Some y → y ∉ xs) → linked m L p xs n → linked (relink f o m) L p xs n.
Proof.
  intros Ho. apply linked_ext. intros y Hy. apply relink_other. intros E. by apply (Ho y).
Qed.

Lemma nodup_parts xs1 (x : nid) xs2 :
  NoDup (xs1 ++ x :: xs2) →
  NoDup xs1 ∧ NoDup xs2 ∧ x ∉ xs1 ∧ x ∉ xs2 ∧ (∀ y, y ∈ xs1 → y ∉ xs2) ∧ NoDup (xs1 ++ xs2).
Proof.
  intros (H1 & H2 & [H3 H4]%NoDup_cons)%NoDup_app. split_and!; try done.
  - set_solver.
  - set_solver.
  - apply NoDup_app. split_and!; [done|set_solver|done].
Qed.

Lemma link_in_ok m xs1 x xs2 :
  NoDup (xs1 ++ x :: xs2) → linked m L None (xs1 ++ xs2) None →
  linked (link_in m L xs1 x xs2) L None (xs1 ++ x :: xs2) None.
Proof.
  intros (H1 & H2 & Hx1 & Hx2 & Hd & _)%nodup_parts [Hl1 Hl2]%linked_app. unfold link_in.
  apply linked_app. split; [|split].
  - apply relink_frame; [intros y [|Hy]%hd_in; [done|]; set_solver|].
    apply (relink_next _ _ _ (hd_or xs2 None)); [done|]. by apply linked_insert.
  - rewrite relink_other; [rewrite relink_other; [by rewrite lookup_insert_eq|]|].
    + intros [|]%last_in; [done|by apply Hx1].
    + intros [|]%hd_in; [done|by apply Hx2].
  - apply relink_prev with (p := last_or None xs1); [done|].
    apply relink_frame; [intros y [|Hy]%last_in; [done|by apply Hd]|]. by apply linked_insert.
Qed.

Lemma link_out_ok m xs1 x xs2 :
  NoDup (xs1 ++ x :: xs2) → linked m L None (xs1 ++ x :: xs2) None →
  linked (link_out m xs1 x xs2) L None (xs1 ++ xs2) None.
Proof.
  intros (H1 & H2 & Hx1 & Hx2 & Hd & _)%nodup_parts [Hl1 [_ Hl2]]%linked_app. unfold link_out.
  apply linked_insert; [set_solver|]. apply linked_app. split.
  - apply relink_frame; [intros y [|Hy]%hd_in; [done|]; set_solver|].
    by apply (relink_next _ _ _ (hd_or (x :: xs2) None)).
  - apply relink_prev with (p := Some x); [done|].
    apply relink_frame; [intros y [|Hy]%last_in; [done|by apply Hd]|done].
Qed.

(** Which nodes they change. *)
Lemma link_in_frame m xs1 x xs2 y :
  y ∉ xs1 ++ xs2 → y ≠ x → link_in m L xs1 x xs2 !! y = m !! y.
Proof.
  intros Hy Hne. unfold link_in. rewrite !relink_other; [by rewrite lookup_insert_ne| |].
  - intros [|]%last_in; [done|set_solver].
  - intros [|]%hd_in; [done|set_solver].
Qed.

Lemma link_out_frame m xs1 x xs2 y :
  y ∉ xs1 ++ x :: xs2 → link_out m xs1 x xs2 !! y = m !! y.
Proof.
  intros Hy. unfold link_out. rewrite lookup_insert_ne by set_solver. rewrite !relink_other.
  - done.
  - intros [|]%last_in; [done|set_solver].
  - intros [|]%hd_in; [done|set_solver].
Qed.
End relink.

Section ops.
Context (h : lmem) (σ : gmap lid (list nid)) (Hrep : lrep h σ).

(** Any operation that links a free node in, or one node out, keeps the
    representation. *)
Lemma rep_link_in L xs1 xs2 x :
  σ !! L = Some (xs1 ++ xs2) → free σ x →
  lrep (mk_lmem (link_in (nodes h) L xs1 x xs2) (<[L := list_of (xs1 ++ x :: xs2)]> (lists h)))
    (<[L := xs1 ++ x :: xs2]> σ).
Proof.
  intros HL Hf. destruct (rep_list h σ Hrep L _ HL) as (_ & Hnd & Hl).
  pose proof (Hf L _ HL) as Hx.
  assert (NoDup (xs1 ++ x :: xs2)) as Hnd'.
  { apply NoDup_Permutation_proper with (x :: xs1 ++ xs2); [by rewrite Permutation_middle|].
    by apply NoDup_cons. }
  apply (rep_update h σ Hrep L (xs1 ++ xs2) _ x); try done; try (by left).
  - intros. by apply link_in_frame.
  - by apply link_in_ok.
  - intros y v Hy _. left. set_solver.
  - intros y. set_solver.
Qed.

Lemma rep_link_out L xs1 xs2 x :
  σ !! L = Some (xs1 ++ x :: xs2) →
  lrep (mk_lmem (link_out (nodes h) xs1 x xs2) (<[L := list_of (xs1 ++ xs2)]> (lists h)))
    (<[L := xs1 ++ xs2]> σ).
Proof.
  intros HL. destruct (rep_list h σ Hrep L _ HL) as (_ & Hnd & Hl).
  pose proof (nodup_parts xs1 x xs2 Hnd) as (_ & _ & _ & _ & _ & Hnd').
  apply (rep_update h σ Hrep L (xs1 ++ x :: xs2) _ x); try done; try (right; set_solver).
  - intros. by apply link_out_frame.
  - by apply link_out_ok.
  - intros y v Hy Hv. destruct (decide (y = x)) as [->|Hne]; [|left; set_solver].
    right. unfold link_out in Hv. rewrite lookup_insert_eq in Hv. by injection Hv as <-.
  - intros y. set_solver.
Qed.
End ops.

(** The nodes on both sides of a place in a list. *)
Inductive side (m : gmap nid tt_lnode_t) : option nid → Prop :=
  | side_none : side m None
  | side_some y v : m !! y = Some v → side m (Some y).

Section code.
Context (h : lmem) (σ : gmap lid (list nid)) (Hrep : lrep h σ).

Lemma side_last L xs1 xs2 : σ !! L = Some (xs1 ++ xs2) → side (nodes h) (last_or None xs1).
Proof.
  intros HL. destruct (rep_list h σ Hrep L _ HL) as (_ & _ & Hl).
  destruct (snoc_cases xs1) as [->|(ys & y & ->)]; [constructor|].
  rewrite last_or_app. rewrite <- app_assoc in Hl. econstructor. by eapply linked_at.
Qed.
Lemma side_hd L xs1 xs2 : σ !! L = Some (xs1 ++ xs2) → side (nodes h) (hd_or xs2 None).
Proof.
  intros HL. destruct (rep_list h σ Hrep L _ HL) as (_ & _ & Hl).
  destruct xs2 as [|y ys]; [constructor|]. econstructor. by eapply linked_at.
Qed.

Lemma last_ne_x L xs1 xs2 x : σ !! L = Some (xs1 ++ xs2) → free σ x → last_or None xs1 ≠ Some x ∧ hd_or xs2 None ≠ Some x.
Proof.
  intros HL Hf. pose proof (Hf L _ HL). split.
  - intros [|]%last_in; [done|set_solver].
  - intros [|]%hd_in; [done|set_solver].
Qed.

Lemma list_of_more (xs1 : list nid) x xs2 :
  u32 (u32 (zlen (xs1 ++ xs2)) + 1) = u32 (zlen (xs1 ++ x :: xs2)).
Proof. rewrite u32_add_l, !zlen_app, zlen_cons. f_equal. lia. Qed.
Lemma list_of_less (xs1 : list nid) x xs2 :
  u32 (u32 (zlen (xs1 ++ x :: xs2)) - 1) = u32 (zlen (xs1 ++ xs2)).
Proof.
  unfold Z.sub. rewrite u32_add_l, !zlen_app, zlen_cons. f_equal. lia.
Qed.

Lemma push_head_code L x xs v :
  σ !! L = Some xs → nodes h !! x = Some v → free σ x →
  tt_list_push_head L x h = Ret (TT_SUCCESS tt,
    mk_lmem (link_in (nodes h) L [] x xs) (<[L := list_of (x :: xs)]> (lists h))).
Proof.
  intros HL Hx Hf. pose proof (rep_blank h σ Hrep x v Hx Hf) as ->.
  destruct (rep_list h σ Hrep L xs HL) as (El & _ & _).
  pose proof (side_hd L [] xs HL) as Hs. destruct (last_ne_x L [] xs x HL Hf) as [_ Hne].
  unfold tt_list_push_head, link_in.
  destruct xs as [|y ys]; cbn [hd_or last_or relink] in *; inversion Hs; subst; lrun.
  - by rewrite !insert_insert_eq.
  - rewrite !insert_insert_eq. unfold list_of, set_count, set_head. cbn.
    pose proof (list_of_more [] x (y :: ys)) as Hc. cbn [app] in Hc. by rewrite Hc.
Qed.

Lemma push_tail_code L x xs v :
  σ !! L = Some xs → nodes h !! x = Some v → free σ x →
  tt_list_push_tail L x h = Ret (TT_SUCCESS tt,
    mk_lmem (link_in (nodes h) L xs x []) (<[L := list_of (xs ++ [x])]> (lists h))).
Proof.
  intros HL Hx Hf. pose proof (rep_blank h σ Hrep x v Hx Hf) as ->.
  destruct (rep_list h σ Hrep L xs HL) as (El & _ & _).
  assert (σ !! L = Some (xs ++ [])) as HL' by by rewrite app_nil_r.
  pose proof (side_last L xs [] HL') as Hs. destruct (last_ne_x L xs [] x HL' Hf) as [Hne _].
  pose proof (list_of_more xs x []) as Hc. rewrite app_nil_r in Hc.
  unfold tt_list_push_tail, link_in.
  destruct (snoc_cases xs) as [->|(ys & y & ->)].
  - cbn [hd_or last_or relink] in *. lrun. by rewrite !insert_insert_eq.
  - unfold list_of in *. rewrite !last_or_app in *. cbn [hd_or last_or relink] in *.
    inversion Hs; subst. lrun. rewrite !insert_insert_eq. unfold set_count, set_tail. cbn.
    rewrite Hc. rewrite hd_or_app. by destruct ys.
Qed.

Lemma pop_head_code L x xs :
  σ !! L = Some (x :: xs) →
  tt_list_pop_head L h = Ret (TT_SUCCESS (Some x),
    mk_lmem (link_out (nodes h) [] x xs) (<[L := list_of xs]> (lists h))).
Proof.
  intros HL. destruct (rep_list h σ Hrep L _ HL) as (El & Hnd & [Ex Hl]).
  apply NoDup_cons in Hnd as [Hx _]. pose proof (list_of_less [] x xs) as Hc. cbn [app] in Hc.
  unfold tt_list_pop_head, link_out.
  destruct xs as [|y ys]; cbn [hd_or last_or relink] in *.
  - lrun. by rewrite !insert_insert_eq.
  - destruct Hl as [Ey _]. assert (y ≠ x) by set_solver. lrun.
    rewrite !insert_insert_eq. unfold list_of, set_count, set_head. cbn. by rewrite Hc.
Qed.

Lemma pop_tail_code L x xs :
  σ !! L = Some (xs ++ [x]) →
  tt_list_pop_tail L h = Ret (TT_SUCCESS (Some x),
    mk_lmem (link_out (nodes h) xs x []) (<[L := list_of xs]> (lists h))).
Proof.
  intros HL. destruct (rep_list h σ Hrep L _ HL) as (El & Hnd & Hl).
  pose proof (linked_at L _ _ _ _ _ _ Hl) as Ex.
  pose proof (side_last L xs [x] HL) as Hs. pose proof (list_of_less xs x []) as Hc.
  rewrite app_nil_r in Hc. unfold tt_list_pop_tail, link_out, list_of in *.
  rewrite !last_or_app in El. cbn [hd_or last_or] in *.
  destruct (snoc_cases xs) as [->|(ys & y & ->)].
  - lrun. by rewrite !insert_insert_eq.
  - rewrite last_or_app in *. cbn [last_or] in *. inversion Hs; subst.
    apply nodup_parts in Hnd as (_ & _ & Hx & _). assert (y ≠ x) by set_solver. lrun.
    rewrite !insert_insert_eq. unfold set_count, set_tail. cbn. rewrite Hc.
    by rewrite <- app_assoc, !hd_or_app.
Qed.

Lemma remove_code L xs1 x xs2 :
  σ !! L = Some (xs1 ++ x :: xs2) →
  tt_list_remove x h = Ret (TT_SUCCESS (hd_or xs2 None),
    mk_lmem (link_out (nodes h) xs1 x xs2) (<[L := list_of (xs1 ++ xs2)]> (lists h))).
Proof.
  intros HL. destruct (rep_list h σ Hrep L _ HL) as (El & Hnd & Hl).
  pose proof (linked_at L _ _ _ _ _ _ Hl) as Ex.
  pose proof (side_last L xs1 (x :: xs2) HL) as Hs1.
  assert (side (nodes h) (hd_or xs2 None)) as Hs2.
  { apply (side_hd L (xs1 ++ [x]) xs2). by rewrite <- app_assoc. }
  apply nodup_parts in Hnd as (_ & _ & Hx1 & Hx2 & Hd & _).
  pose proof (list_of_less xs1 x xs2) as Hc. unfold tt_list_remove, link_out, list_of in *.
  rewrite hd_or_app, last_or_app in *. cbn [hd_or last_or] in *.
  destruct (snoc_cases xs1) as [->|(ys & y & ->)]; destruct xs2 as [|z zs];
    rewrite ?last_or_app, ?hd_or_app in *; cbn [hd_or last_or app] in *;
    inversion Hs1; subst; inversion Hs2; subst.
  - lrun. by rewrite !insert_insert_eq.
  - assert (z ≠ x) by set_solver. lrun. norm_list Hc.
  - assert (y ≠ x) by set_solver. lrun. norm_list Hc.
  - assert (y ≠ x) by set_solver. assert (z ≠ x) by set_solver. assert (y ≠ z) by set_solver.
    lrun. norm_list Hc.
Qed.

(** [pos] is in list [L], [x] is free: what the code reads and tests first. *)
Lemma insert_pre L xs1 pos xs2 x v :
  σ !! L = Some (xs1 ++ pos :: xs2) → nodes h !! x = Some v → free σ x →
  v = lnode_blank ∧ pos ≠ x ∧ pos ∉ xs1 ∧ pos ∉ xs2 ∧ x ∉ xs1 ∧ x ∉ xs2 ∧
  nodes h !! pos = Some (mk_lnode (Some L) (last_or None xs1) (hd_or xs2 None)) ∧
  lists h !! L = Some (list_of (xs1 ++ pos :: xs2)).
Proof.
  intros HL Hx Hf. destruct (rep_list h σ Hrep L _ HL) as (El & Hnd & Hl).
  pose proof (linked_at L _ _ _ _ _ _ Hl). apply nodup_parts in Hnd as (_ & _ & ? & ? & _).
  pose proof (Hf L _ HL). pose proof (rep_blank h σ Hrep x v Hx Hf). split_and!; set_solver.
Qed.

Lemma insert_before_code L xs1 pos xs2 x v :
  σ !! L = Some (xs1 ++ pos :: xs2) → nodes h !! x = Some v → free σ x →
  tt_list_insert_before pos x h = Ret (TT_SUCCESS tt,
    mk_lmem (link_in (nodes h) L xs1 x (pos :: xs2))
      (<[L := list_of (xs1 ++ x :: pos :: xs2)]> (lists h))).
Proof.
  intros HL Hx Hf. destruct (insert_pre L xs1 pos xs2 x v HL Hx Hf) as
    (-> & Hpx & Hp1 & Hp2 & Hx1 & Hx2 & Ep & El).
  pose proof (side_last L xs1 (pos :: xs2) HL) as Hs1.
  pose proof (list_of_more xs1 x (pos :: xs2)) as Hc.
  unfold tt_list_insert_before, link_in, list_of in *. rewrite !hd_or_app, !last_or_app in *.
  cbn [hd_or last_or] in *.
  destruct (snoc_cases xs1) as [->|(ys & y & ->)];
    rewrite ?last_or_app, ?hd_or_app in *; cbn [hd_or last_or app relink] in *;
    inversion Hs1; subst.
  - lrun. norm_list Hc.
  - assert (y ≠ x) by set_solver. assert (y ≠ pos) by set_solver. lrun. norm_list Hc.
Qed.

Lemma insert_after_code L xs1 pos xs2 x v :
  σ !! L = Some (xs1 ++ pos :: xs2) → nodes h !! x = Some v → free σ x →
  tt_list_insert_after pos x h = Ret (TT_SUCCESS tt,
    mk_lmem (link_in (nodes h) L (xs1 ++ [pos]) x xs2)
      (<[L := list_of (xs1 ++ pos :: x :: xs2)]> (lists h))).
Proof.
  intros HL Hx Hf. destruct (insert_pre L xs1 pos xs2 x v HL Hx Hf) as
    (-> & Hpx & Hp1 & Hp2 & Hx1 & Hx2 & Ep & El).
  assert (side (nodes h) (hd_or xs2 None)) as Hs2.
  { apply (side_hd L (xs1 ++ [pos]) xs2). by rewrite <- app_assoc. }
  pose proof (list_of_more (xs1 ++ [pos]) x xs2) as Hc. rewrite <- !app_assoc in Hc.
  unfold tt_list_insert_after, link_in, list_of in *. rewrite !hd_or_app, !last_or_app in *.
  cbn [hd_or last_or app relink] in *.
  destruct xs2 as [|z zs]; cbn [hd_or last_or app relink] in *; inversion Hs2; subst.
  - lrun. norm_list Hc.
  - assert (z ≠ x) by set_solver. assert (z ≠ pos) by set_solver. lrun. rewrite !insert_insert_eq.
    rewrite (insert_insert_ne _ pos z) by congruence. norm_list Hc.
Qed.
End code.

(** ** The abstract machine *)

Inductive op : Type :=
  | PushHead (L : lid) (x : nid)
  | PushTail (L : lid) (x : nid)
  | PopHead (L : lid)
  | PopTail (L : lid)
  | InsertBefore (pos x : nid)
  | InsertAfter (pos x : nid)
  | Remove (x : nid)
  | Clear (L : lid)
  | Contain (L : lid) (x : nid)
  | Count (L : lid).

Inductive res : Type :=
  | RUnit
  | RNode (o : option nid)
  | RBool (b : bool)
  | RNum (n : Z).

(** The call of an operation. *)
Definition run_op (o : op) : M lmem res :=
  match o with
  | PushHead L x => tt_list_push_head L x;; mret RUnit
  | PushTail L x => tt_list_push_tail L x;; mret RUnit
  | PopHead L => r ← tt_list_pop_head L; mret (RNode r)
  | PopTail L => r ← tt_list_pop_tail L; mret (RNode r)
  | InsertBefore pos x => tt_list_insert_before pos x;; mret RUnit
  | InsertAfter pos x => tt_list_insert_after pos x;; mret RUnit
  | Remove x => r ← tt_list_remove x; mret (RNode r)
  | Clear L => tt_list_clear L;; mret RUnit
  | Contain L x => b ← tt_list_contain L x; mret (RBool b)
  | Count L => n ← tt_list_count L; mret (RNum n)
  end.

(** What it does to the sequences; [None] is a failed assertion. *)
Inductive astep (σ : gmap lid (list nid)) : op → option (res * gmap lid (list nid)) → Prop :=
  | as_push_head L x xs : σ !! L = Some xs → free σ x →
      astep σ (PushHead L x) (Some (RUnit, <[L := x :: xs]> σ))
  | as_push_tail L x xs : σ !! L = Some xs → free σ x →
      astep σ (PushTail L x) (Some (RUnit, <[L := xs ++ [x]]> σ))
  | as_push_head_used L x : ¬ free σ x → astep σ (PushHead L x) None
  | as_push_tail_used L x : ¬ free σ x → astep σ (PushTail L x) None
  | as_pop_head L x xs : σ !! L = Some (x :: xs) →
      astep σ (PopHead L) (Some (RNode (Some x), <[L := xs]> σ))
  | as_pop_head_empty L : σ !! L = Some [] → astep σ (PopHead L) (Some (RNode None, σ))
  | as_pop_tail L x xs : σ !! L = Some (xs ++ [x]) →
      astep σ (PopTail L) (Some (RNode (Some x), <[L := xs]> σ))
  | as_pop_tail_empty L : σ !! L = Some [] → astep σ (PopTail L) (Some (RNode None, σ))
  | as_before L xs1 pos xs2 x : σ !! L = Some (xs1 ++ pos :: xs2) → free σ x →
      astep σ (InsertBefore pos x) (Some (RUnit, <[L := xs1 ++ x :: pos :: xs2]> σ))
  | as_after L xs1 pos xs2 x : σ !! L = Some (xs1 ++ pos :: xs2) → free σ x →
      astep σ (InsertAfter pos x) (Some (RUnit, <[L := xs1 ++ pos :: x :: xs2]> σ))
  | as_before_used pos x : ¬ free σ x → astep σ (InsertBefore pos x) None
  | as_after_used pos x : ¬ free σ x → astep σ (InsertAfter pos x) None
  | as_before_nowhere pos x : free σ pos → astep σ (InsertBefore pos x) None
  | as_after_nowhere pos x : free σ pos → astep σ (InsertAfter pos x) None
  | as_remove L xs1 x xs2 : σ !! L = Some (xs1 ++ x :: xs2) →
      astep σ (Remove x) (Some (RNode (hd_or xs2 None), <[L := xs1 ++ xs2]> σ))
  | as_remove_free x : free σ x → astep σ (Remove x) (Some (RNode None, σ))
  | as_clear L xs : σ !! L = Some xs → astep σ (Clear L) (Some (RUnit, <[L := []]> σ))
  | as_contain L xs x : σ !! L = Some xs →
      astep σ (Contain L x) (Some (RBool (bool_decide (x ∈ xs)), σ))
  | as_count L xs : σ !! L = Some xs → astep σ (Count L) (Some (RNum (u32 (zlen xs)), σ)).

(** The operation is given objects of the memory. *)
Definition addressed (h : lmem) (o : op) : Prop :=
  match o with
  | PushHead L x | PushTail L x | Contain L x => is_Some (lists h !! L) ∧ is_Some (nodes h !! x)
  | PopHead L | PopTail L | Clear L | Count L => is_Some (lists h !! L)
  | InsertBefore p x | InsertAfter p x => is_Some (nodes h !! p) ∧ is_Some (nodes h !! x)
  | Remove x => is_Some (nodes h !! x)
  end.

(** Same objects before and after. *)
Definition same_objects (h h' : lmem) : Prop :=
  dom (nodes h') = dom (nodes h) ∧ dom (lists h') = dom (lists h).

Lemma same_objects_addressed h h' o : same_objects h h' → addressed h o → addressed h' o.
Proof.
  intros [Hn Hl]. destruct o; simpl; rewrite <- !elem_of_dom, ?Hn, ?Hl; done.
Qed.

Lemma same_objects_trans h1 h2 h3 : same_objects h1 h2 → same_objects h2 h3 → same_objects h1 h3.
Proof. unfold same_objects. intuition congruence. Qed.

Lemma relink_dom f o m : dom (relink f o m) = dom m.
Proof.
  destruct o as [y|]; [|done]. simpl. destruct (m !! y) eqn:E; [|done]. by apply dom_insert_lookup_L.
Qed.

(** [b] is what the code may do from memory [h] when the abstract machine gives [o]. *)
Definition allowed {A} (h : lmem) (o : option (A * gmap lid (list nid)))
    (b : exec (result A * lmem)) : Prop :=
  match o with
  | None => b = Crash
  | Some (r, σ') => ∃ h', b = Ret (TT_SUCCESS r, h') ∧ lrep h' σ' ∧ same_objects h h'
  end.

Section refinement.
Context (h : lmem) (σ : gmap lid (list nid)) (Hrep : lrep h σ).

Lemma link_in_dom m L xs1 x xs2 : is_Some (m !! x) → dom (link_in m L xs1 x xs2) = dom m.
Proof. intros Hx. unfold link_in. rewrite !relink_dom. by apply dom_insert_lookup_L. Qed.
Lemma link_out_dom m xs1 x xs2 : is_Some (m !! x) → dom (link_out m xs1 x xs2) = dom m.
Proof.
  intros Hx. unfold link_out. rewrite dom_insert_lookup_L; [by rewrite !relink_dom|].
  apply elem_of_dom. rewrite !relink_dom. by apply elem_of_dom.
Qed.

(** The state reached by linking a free node in, or a node out. *)
Lemma allowed_in L xs1 xs2 x (r : res) :
  σ !! L = Some (xs1 ++ xs2) → free σ x → is_Some (nodes h !! x) →
  allowed h (Some (r, <[L := xs1 ++ x :: xs2]> σ)) (Ret (TT_SUCCESS r,
    mk_lmem (link_in (nodes h) L xs1 x xs2) (<[L := list_of (xs1 ++ x :: xs2)]> (lists h)))).
Proof.
  intros HL Hf Hx. eexists. split; [done|]. split; [by apply rep_link_in|].
  destruct (rep_list h σ Hrep L _ HL) as (El & _). split; simpl.
  - by apply link_in_dom.
  - apply dom_insert_lookup_L. by eexists.
Qed.
Lemma allowed_out L xs1 xs2 x (r : res) :
  σ !! L = Some (xs1 ++ x :: xs2) →
  allowed h (Some (r, <[L := xs1 ++ xs2]> σ)) (Ret (TT_SUCCESS r,
    mk_lmem (link_out (nodes h) xs1 x xs2) (<[L := list_of (xs1 ++ xs2)]> (lists h)))).
Proof.
  intros HL. eexists. split; [done|]. split; [by apply rep_link_out|].
  destruct (rep_list h σ Hrep L _ HL) as (El & _ & Hl). split; simpl.
  - apply link_out_dom. eexists. by eapply linked_at.
  - apply dom_insert_lookup_L. by eexists.
Qed.

Lemma allowed_same {A} (r : A) : allowed h (Some (r, σ)) (Ret (TT_SUCCESS r, h)).
Proof. exists h. done. Qed.

(** Popping an empty list, and asking. *)
Lemma pop_head_empty L : σ !! L = Some [] → tt_list_pop_head L h = Ret (TT_SUCCESS None, h).
Proof.
  intros HL. destruct (rep_list h σ Hrep L _ HL) as (El & _). unfold tt_list_pop_head. by lrun.
Qed.
Lemma pop_tail_empty L : σ !! L = Some [] → tt_list_pop_tail L h = Ret (TT_SUCCESS None, h).
Proof.
  intros HL. destruct (rep_list h σ Hrep L _ HL) as (El & _). unfold tt_list_pop_tail. by lrun.
Qed.
Lemma contain_code L xs x v :
  σ !! L = Some xs → nodes h !! x = Some v →
  tt_list_contain L x h = Ret (TT_SUCCESS (bool_decide (x ∈ xs)), h).
Proof.
  intros HL Hx. unfold tt_list_contain. lrun. do 3 f_equal. apply bool_decide_ext.
  pose proof (rep_node h σ Hrep x v Hx) as Hn. split.
  - intros E. rewrite <- E in Hn. destruct Hn as (ys & Hys & Hin). congruence.
  - intros Hin. destruct (rep_in h σ Hrep L xs x HL Hin) as (v' & Hv' & E). congruence.
Qed.

(** A list has at most as many nodes as the memory. *)
Lemma rep_length L xs : σ !! L = Some xs → (length xs ≤ size (nodes h))%nat.
Proof.
  intros HL. destruct (rep_list h σ Hrep L _ HL) as (_ & Hnd & _).
  rewrite <- (size_list_to_set (C := gset nid) xs) by done. rewrite <- size_dom.
  apply subseteq_size. intros y Hy%elem_of_list_to_set. apply elem_of_dom.
  destruct (rep_in h σ Hrep L xs y HL Hy) as (v & Hv & _). by eexists.
Qed.

(** A failed assertion: the node is not free, or the place is in no list. *)
Lemma used_crash x v : nodes h !! x = Some v → ¬ free σ x → is_null (lst v) = false.
Proof.
  intros Hx Hf. destruct (lst v) eqn:E; [done|]. by destruct Hf; apply (rep_free h σ Hrep x v Hx).
Qed.
End refinement.

Lemma clear_ok fuel : ∀ L xs h σ, lrep h σ → σ !! L = Some xs → (length xs < fuel)%nat →
  allowed h (Some (tt, <[L := []]> σ)) (clear_loop fuel L h).
Proof.
  induction fuel as [|fuel IH]; intros L xs h σ Hrep HL Hlen; [lia|]. cbn [clear_loop].
  destruct xs as [|x xs].
  - rewrite (bind_step _ _ _ _ _ (pop_head_empty h σ Hrep L HL)). rewrite insert_id by done.
    by apply allowed_same.
  - rewrite (bind_step _ _ _ _ _ (pop_head_code h σ Hrep L x xs HL)).
    destruct (allowed_out h σ Hrep L [] xs x RUnit HL) as (h1 & E & Hrep1 & Hso).
    injection E as <-. simpl in Hlen. destruct (IH L xs _ _ Hrep1) as (h2 & -> & Hrep2 & Hso2).
    + apply lookup_insert_eq.
    + lia.
    + rewrite insert_insert_eq in Hrep2. exists h2. split_and!; [done|done|].
      by eapply same_objects_trans.
Qed.

(** Misuse fails an assertion. *)
Lemma misuse_sound h σ o : lrep h σ → addressed h o → astep σ o None → run_op o h = Crash.
Proof.
  intros Hrep Ha Hs. inversion Hs as [| |L x Hf|L x Hf| | | | | | |pos x Hf|pos x Hf|pos x Hf|pos x Hf| | | | |];
    subst; destruct Ha as [Hp [v Hx]].
  1-4: pose proof (used_crash h σ Hrep x v Hx Hf) as E; try destruct Hp as [vp Hp].
  5-6: destruct Hp as [vp Hp]; apply (rep_blank h σ Hrep pos vp Hp) in Hf as ->.
  - unfold run_op, tt_list_push_head. lrun. by rewrite E.
  - unfold run_op, tt_list_push_tail. lrun. by rewrite E.
  - unfold run_op, tt_list_insert_before. lrun. by rewrite E.
  - unfold run_op, tt_list_insert_after. lrun. by rewrite E.
  - unfold run_op, tt_list_insert_before. lrun. by destruct (is_null (lst v)).
  - unfold run_op, tt_list_insert_after. lrun. by destruct (is_null (lst v)).
Qed.

(** Every step of the abstract machine is what the code does. *)
Lemma step_sound h σ o a : lrep h σ → addressed h o → astep σ o a → allowed h a (run_op o h).
Proof.
  intros Hrep Ha Hs. destruct a as [[r σ']|]; [|by apply (misuse_sound h σ o)].
  inversion Hs as [L x xs HL Hf|L x xs HL Hf| | |L x xs HL|L HL|L x xs HL|L HL
    |L xs1 pos xs2 x HL Hf|L xs1 pos xs2 x HL Hf| | | |
    |L xs1 x xs2 HL|x Hf|L xs HL|L xs x HL|L xs HL]; subst; unfold run_op.
  - destruct Ha as [_ [v Hx]]. rewrite (bind_step _ _ _ _ _ (push_head_code h _ Hrep L x xs v HL Hx Hf)).
    apply (allowed_in h _ Hrep L [] xs x RUnit HL Hf). by eexists.
  - destruct Ha as [_ [v Hx]]. rewrite (bind_step _ _ _ _ _ (push_tail_code h _ Hrep L x xs v HL Hx Hf)).
    rewrite <- (app_nil_r xs) in HL. apply (allowed_in h _ Hrep L xs [] x RUnit HL Hf). by eexists.
  - rewrite (bind_step _ _ _ _ _ (pop_head_code h _ Hrep L x xs HL)).
    by apply (allowed_out h _ Hrep L [] xs x (RNode (Some x))).
  - rewrite (bind_step _ _ _ _ _ (pop_head_empty h _ Hrep L HL)). by apply allowed_same.
  - rewrite (bind_step _ _ _ _ _ (pop_tail_code h _ Hrep L x xs HL)).
    pose proof (allowed_out h _ Hrep L xs [] x (RNode (Some x)) HL) as H. by rewrite app_nil_r in H.
  - rewrite (bind_step _ _ _ _ _ (pop_tail_empty h _ Hrep L HL)). by apply allowed_same.
  - destruct Ha as [_ [v Hx]].
    rewrite (bind_step _ _ _ _ _ (insert_before_code h _ Hrep L xs1 pos xs2 x v HL Hx Hf)).
    apply (allowed_in h _ Hrep L xs1 (pos :: xs2) x RUnit HL Hf). by eexists.
  - destruct Ha as [_ [v Hx]].
    rewrite (bind_step _ _ _ _ _ (insert_after_code h _ Hrep L xs1 pos xs2 x v HL Hx Hf)).
    pose proof (allowed_in h _ Hrep L (xs1 ++ [pos]) xs2 x RUnit) as H. rewrite <- !app_assoc in H.
    apply (H HL Hf). by eexists.
  - rewrite (bind_step _ _ _ _ _ (remove_code h _ Hrep L xs1 x xs2 HL)). by apply allowed_out.
  - destruct Ha as [v Hx]. apply (rep_blank h _ Hrep x v Hx) in Hf as ->.
    unfold tt_list_remove. lrun. by apply allowed_same.
  - pose proof (rep_length h _ Hrep L xs HL).
    destruct (clear_ok (S (size (nodes h))) L xs h _ Hrep HL ltac:(lia)) as (h' & E & ?).
    rewrite (bind_step (tt_list_clear L) _ _ _ _ E). by exists h'.
  - destruct Ha as [_ [v Hx]]. rewrite (bind_step _ _ _ _ _ (contain_code h _ Hrep L xs x v HL Hx)).
    by apply allowed_same.
  - destruct (rep_list h _ Hrep L _ HL) as (El & _). unfold tt_list_count. lrun. by apply allowed_same.
Qed.

(** Each node is free or at some place of some list. *)
Lemma where_is h σ x : lrep h σ → is_Some (nodes h !! x) →
  free σ x ∨ ∃ L xs1 xs2, σ !! L = Some (xs1 ++ x :: xs2).
Proof.
  intros Hrep [v Hx]. pose proof (rep_node h σ Hrep x v Hx) as Hn. destruct (lst v) as [L|] eqn:E.
  - right. destruct Hn as (xs & HL & (xs1 & xs2 & ->)%list_elem_of_split). eauto.
  - left. by apply (rep_free h σ Hrep x v Hx).
Qed.

(** The abstract machine has a step for every operation. *)
Lemma step_total h σ o : lrep h σ → addressed h o → ∃ a, astep σ o a.
Proof.
  intros Hrep Ha.
  assert (∀ L, is_Some (lists h !! L) → ∃ xs, σ !! L = Some xs) as Hl.
  { intros L [l HL]. exact (rep_dom h σ Hrep L l HL). }
  assert (∀ x, is_Some (nodes h !! x) → free σ x ∨ ¬ free σ x) as Hem.
  { intros x Hx. destruct (where_is h σ x Hrep Hx) as [?|(L & xs1 & xs2 & HL)]; [by left|].
    right. intros Hf. apply (Hf L _ HL). set_solver. }
  destruct o as [L x|L x|L|L|p x|p x|x|L|L x|L]; simpl in Ha.
  - destruct Ha as [(xs & HL)%Hl [Hf|Hf]%Hem]; eexists; [by eapply as_push_head|by apply as_push_head_used].
  - destruct Ha as [(xs & HL)%Hl [Hf|Hf]%Hem]; eexists; [by eapply as_push_tail|by apply as_push_tail_used].
  - destruct (Hl L Ha) as ([|x xs] & HL); eexists; [by apply as_pop_head_empty|by apply as_pop_head].
  - destruct (Hl L Ha) as (xs & HL). destruct (snoc_cases xs) as [->|(ys & y & ->)]; eexists;
      [by apply as_pop_tail_empty|by apply as_pop_tail].
  - destruct Ha as [[Hp|(L & xs1 & xs2 & HL)]%(where_is h σ p Hrep) [Hf|Hf]%Hem]; eexists;
      [by apply as_before_nowhere..|by eapply as_before|by apply as_before_used].
  - destruct Ha as [[Hp|(L & xs1 & xs2 & HL)]%(where_is h σ p Hrep) [Hf|Hf]%Hem]; eexists;
      [by apply as_after_nowhere..|by eapply as_after|by apply as_after_used].
  - destruct (where_is h σ x Hrep Ha) as [Hf|(L & xs1 & xs2 & HL)]; eexists;
      [by apply as_remove_free|by eapply as_remove].
  - destruct (Hl L Ha) as (xs & HL). eexists. by eapply as_clear.
  - destruct Ha as [(xs & HL)%Hl _]. eexists. by eapply as_contain.
  - destruct (Hl L Ha) as (xs & HL). eexists. by apply as_count.
Qed.

(** ** Runs *)

(** A sequence of calls, stopped by a failed assertion. *)
Fixpoint run_ops (os : list op) : M lmem (list res) :=
  match os with
  | [] => mret []
  | o :: os => r ← run_op o; rs ← run_ops os; mret (r :: rs)
  end.

Inductive arun : gmap lid (list nid) → list op → option (list res * gmap lid (list nid)) → Prop :=
  | ar_nil σ : arun σ [] (Some ([], σ))
  | ar_stop σ o os : astep σ o None → arun σ (o :: os) None
  | ar_crash σ o os r σ' : astep σ o (Some (r, σ')) → arun σ' os None → arun σ (o :: os) None
  | ar_cons σ o os r σ' rs σ'' : astep σ o (Some (r, σ')) → arun σ' os (Some (rs, σ'')) →
      arun σ (o :: os) (Some (r :: rs, σ'')).

Lemma arun_total os : ∀ h σ, lrep h σ → Forall (addressed h) os → ∃ a, arun σ os a.
Proof.
  induction os as [|o os IH]; intros h σ Hrep Ha; [eexists; constructor|].
  apply Forall_cons in Ha as [Ho Hos]. destruct (step_total h σ o Hrep Ho) as [[[r σ']|] Hs].
  - destruct (step_sound h σ o _ Hrep Ho Hs) as (h' & _ & Hrep' & Hso).
    destruct (IH h' σ' Hrep') as [[[rs σ'']|] Hr].
    + eapply Forall_impl; [done|]. intros o'. by apply same_objects_addressed.
    + eexists. by eapply ar_cons.
    + eexists. by eapply ar_crash.
  - eexists. by apply ar_stop.
Qed.

Lemma arun_sound os : ∀ h σ a, lrep h σ → Forall (addressed h) os → arun σ os a →
  allowed h a (run_ops os h).
Proof.
  induction os as [|o os IH]; intros h σ a Hrep Ha Hr.
  - inversion Hr; subst. by apply allowed_same.
  - apply Forall_cons in Ha as [Ho Hos].
    assert (∀ r σ', astep σ o (Some (r, σ')) → ∃ h', run_op o h = Ret (TT_SUCCESS r, h') ∧
      lrep h' σ' ∧ same_objects h h' ∧ Forall (addressed h') os) as Hstep.
    { intros r σ' Hs. destruct (step_sound h σ o _ Hrep Ho Hs) as (h' & ? & ? & ?). exists h'.
      split_and!; try done. eapply Forall_impl; [done|]. intros o'. by apply same_objects_addressed. }
    cbn [run_ops]. inversion Hr as [|? ? ? Hs|? ? ? r σ' Hs Hr'|? ? ? r σ' rs σ'' Hs Hr']; subst.
    + pose proof (step_sound h σ o _ Hrep Ho Hs) as E. simpl in E. m_simpl. by rewrite E.
    + destruct (Hstep r σ' Hs) as (h' & E & Hrep' & _ & Hos').
      rewrite (bind_step _ _ _ _ _ E). pose proof (IH h' σ' None Hrep' Hos' Hr') as E'. simpl in E'.
      m_simpl. by rewrite E'.
    + destruct (Hstep r σ' Hs) as (h' & E & Hrep' & Hso & Hos').
      rewrite (bind_step _ _ _ _ _ E). destruct (IH h' σ' _ Hrep' Hos' Hr') as (h'' & E' & Hrep'' & Hso').
      rewrite (bind_step _ _ _ _ _ E'). exists h''. split_and!; [done|done|].
      by eapply same_objects_trans.
Qed.

(** A memory of nodes and lists that were only initialised. *)
Lemma lrep_init h :
  (∀ x v, nodes h !! x = Some v → v = lnode_blank) →
  (∀ L l, lists h !! L = Some l → l = mk_list None None 0) →
  lrep h ((λ _, []) <$> lists h).
Proof.
  intros Hn Hl. constructor.
  - intros L xs. rewrite lookup_fmap. destruct (lists h !! L) as [l|] eqn:E; [|done].
    intros [= <-]. rewrite (Hl L l E). split_and!; [done|apply NoDup_nil_2|done].
  - intros x v Hx. by rewrite (Hn x v Hx).
  - intros L l E. rewrite lookup_fmap, E. by eexists.
Qed.

(** ** Properties *)

(** C9: any sequence of list operations on nodes and lists that share one
    memory does what the abstract machine on disjoint sequences does: each call
    returns the value the machine gives and leaves the pointers, the heads, the
    tails and the counts of all lists representing its sequences, and a node
    that is already in a list, or a place that is in none, fails an assertion
    at that call; no call follows a dangling pointer or loops for ever. *)
Theorem list_refines h σ os :
  lrep h σ → Forall (addressed h) os →
  (∃ a, arun σ os a) ∧ ∀ a, arun σ os a → allowed h a (run_ops os h).
Proof.
  intros Hrep Ha. split; [by eapply arun_total|]. intros a. by apply arun_sound.
Qed.

(** ** Witnesses *)

Definition demo_mem : lmem :=
  mk_lmem {[ 1%positive := lnode_blank; 2%positive := lnode_blank; 3%positive := lnode_blank ]}
    {[ 1%positive := mk_list None None 0; 2%positive := mk_list None None 0 ]}.

Definition demo_ops : list op :=
  [PushTail 1 1; PushTail 1 3; InsertBefore 3 2; Remove 2; PushHead 2 2; PopHead 1; Count 1;
   Contain 2 2; Clear 2; Contain 2 2]%positive.

Example demo_run : exists h', run_ops demo_ops demo_mem = Ret (TT_SUCCESS
  [RUnit; RUnit; RUnit; RNode (Some 3%positive); RUnit; RNode (Some 1%positive); RNum 1; RBool true; RUnit;
   RBool false], h').
Proof. eexists. vm_compute. reflexivity. Qed.

Lemma demo_rep : lrep demo_mem ((λ _, []) <$> lists demo_mem).
Proof.
  apply lrep_init; intros k v Hv; unfold demo_mem in Hv; cbn [nodes lists] in Hv; repeat (apply lookup_insert_Some in Hv as [[_ <-]|[_ Hv]]; [done|]);
    apply lookup_singleton_Some in Hv as [_ <-]; done.
Qed.

Lemma list_refines_witness :
  let σ := (λ _, []) <$> lists demo_mem in
  (∃ a, arun σ demo_ops a) ∧ ∀ a, arun σ demo_ops a → allowed demo_mem a (run_ops demo_ops demo_mem).
Proof.
  apply (list_refines demo_mem _ demo_ops demo_rep).
  repeat (apply Forall_cons; split; [simpl; repeat split; eexists; vm_compute; reflexivity|]). done.
Defined.
