(* ===== verification/SList.v ===== *)
(** The intrusive singly linked list (algorithm/tt_single_linked_list.h).  A node
    only holds a pointer to the next one, so the code cannot tell a free node from
    the last node of a list: which calls are legal is part of the contract. *)

From S2P Require Import Prelude.
From stdpp Require Import gmap.

#[local] Open Scope Z_scope.

(** ** Memory *)

Notation nid := positive (only parsing).
Notation lid := positive (only parsing).

(** The field [next] of every [tt_snode_t], the field [head] of every
    [tt_slist_t]. *)
Record smem : Type := mk_smem { snext : gmap nid (option nid); shead : gmap lid (option nid) }.

Definition get_next (x : nid) : M smem (option nid) := λ h,
  match snext h !! x with Some n => Ret (TT_SUCCESS n, h) | None => Undef end.
Definition get_head (L : lid) : M smem (option nid) := λ h,
  match shead h !! L with Some n => Ret (TT_SUCCESS n, h) | None => Undef end.
Definition set_next (x : nid) (n : option nid) : M smem unit := λ h,
  match snext h !! x with
  | Some _ => Ret (TT_SUCCESS tt, mk_smem (<[x := n]> (snext h)) (shead h))
  | None => Undef
  end.
Definition set_head (L : lid) (n : option nid) : M smem unit := λ h,
  match shead h !! L with
  | Some _ => Ret (TT_SUCCESS tt, mk_smem (snext h) (<[L := n]> (shead h)))
  | None => Undef
  end.

(** A loop over the nodes of a list, with more steps than there are nodes. *)
Definition walk {A} (loop : nat → M smem A) : M smem A := λ h, loop (S (size (snext h))) h.
#[global] Arguments walk : simpl never.

(** ** Operations *)

Definition tt_snode_init (x : nid) : M smem unit := set_next x None.
Definition tt_slist_init (L : lid) : M smem unit := set_head L None.
Definition tt_slist_head (L : lid) : M smem (option nid) := get_head L.

(** [while (sn->next != NULL) sn = sn->next;] *)
Fixpoint tail_loop (sn : nid) (fuel : nat) : M smem nid :=
  match fuel with
  | O => λ _, Diverge
  | S fuel => n ← get_next sn; match n with None => mret sn | Some y => tail_loop y fuel end
  end.
Definition tt_slist_tail (L : lid) : M smem (option nid) :=
  sn ← get_head L;
  match sn with
  | None => mret None
  | Some x => t ← walk (tail_loop x); mret (Some t)
  end.

Fixpoint count_loop (count : Z) (sn : option nid) (fuel : nat) : M smem Z :=
  match fuel with
  | O => λ _, Diverge
  | S fuel =>
      match sn with
      | None => mret count
      | Some x => n ← get_next x; count_loop (u32 (count + 1)) n fuel
      end
  end.
Definition tt_slist_count (L : lid) : M smem Z := sn ← get_head L; walk (count_loop 0 sn).

Fixpoint clear_loop (sn : option nid) (fuel : nat) : M smem unit :=
  match fuel with
  | O => λ _, Diverge
  | S fuel =>
      match sn with
      | None => mret tt
      | Some x => n ← get_next x; set_next x None;; clear_loop n fuel
      end
  end.
Definition tt_slist_clear (L : lid) : M smem unit :=
  sn ← get_head L; walk (clear_loop sn);; set_head L None.

Definition tt_slist_empty (L : lid) : M smem bool :=
  sn ← get_head L; mret (bool_decide (sn = None)).

Definition tt_slist_push_head (L : lid) (x : nid) : M smem unit :=
  n ← get_next x;
  assert_always (bool_decide (n = None));;
  hd ← get_head L;
  set_next x hd;;
  set_head L (Some x).

Definition tt_slist_push_tail (L : lid) (x : nid) : M smem unit :=
  tail ← tt_slist_tail L;
  n ← get_next x;
  assert_always (bool_decide (n = None));;
  match tail with
  | Some t => set_next t (Some x)
  | None => set_head L (Some x)
  end.

Definition tt_slist_pop_head (L : lid) : M smem (option nid) :=
  hd ← get_head L;
  match hd with
  | None => mret None
  | Some x => n ← get_next x; set_head L n;; set_next x None;; mret (Some x)
  end.

(** [do { prev = sn; sn = sn->next; } while (sn->next != NULL);] from a node [sn]
    that has a next one, giving the last [prev] and [sn]. *)
Fixpoint last_two (sn : nid) (fuel : nat) : M smem (nid * nid) :=
  match fuel with
  | O => λ _, Diverge
  | S fuel =>
      n ← get_next sn;
      match n with
      | None => undef
      | Some y => m ← get_next y; match m with None => mret (sn, y) | Some _ => last_two y fuel end
      end
  end.
Definition tt_slist_pop_tail (L : lid) : M smem (option nid) :=
  sn ← get_head L;
  match sn with
  | None => mret None
  | Some x =>
      n ← get_next x;
      match n with
      | None => set_head L None;; mret (Some x)
      | Some _ =>
          '(prev, t) ← walk (last_two x);
          set_next prev None;;
          set_next t None;;
          mret (Some t)
      end
  end.

Definition tt_slist_insert_after (pos x : nid) : M smem unit :=
  n ← get_next x;
  assert_always (bool_decide (n = None));;
  m ← get_next pos;
  set_next x m;;
  set_next pos (Some x).

(** [while ((node != NULL) && (node->next != sn)) node = node->next;] *)
Fixpoint find_prev (sn : nid) (node : option nid) (fuel : nat) : M smem (option nid) :=
  match fuel with
  | O => λ _, Diverge
  | S fuel =>
      match node with
      | None => mret None
      | Some y =>
          n ← get_next y;
          if bool_decide (n = Some sn) then mret (Some y) else find_prev sn n fuel
      end
  end.
Definition tt_slist_remove (L : lid) (sn : nid) : M smem (option nid) :=
  node ← get_head L;
  next ← get_next sn;
  (if bool_decide (node = Some sn) then set_head L next
   else
     p ← walk (find_prev sn node);
     match p with Some y => set_next y next | None => mret tt end);;
  set_next sn None;;
  mret next.

Definition tt_slist_fast_remove (L : lid) (prev : option nid) (sn : nid) : M smem (option nid) :=
  next ← get_next sn;
  match prev with
  | Some p =>
      n ← get_next p;
      assert_always (bool_decide (n = Some sn));;
      set_next p next
  | None =>
      hd ← get_head L;
      assert_always (bool_decide (hd = Some sn));;
      set_head L next
  end;;
  set_next sn None;;
  mret next.

Definition tt_slist_move (dst src : lid) : M smem unit :=
  tail ← tt_slist_tail dst;
  hd ← get_head src;
  match tail with
  | Some t => set_next t hd
  | None => set_head dst hd
  end;;
  set_head src None.

Fixpoint take_loop (prev node : option nid) (n count : Z) (fuel : nat) : M smem (option nid * Z) :=
  match fuel with
  | O => λ _, Diverge
  | S fuel =>
      match node with
      | Some y =>
          if n <? count then m ← get_next y; take_loop (Some y) m (u32 (n + 1)) count fuel
          else mret (prev, n)
      | None => mret (prev, n)
      end
  end.
Definition tt_slist_move_count (dst src : lid) (count : Z) : M smem Z :=
  if bool_decide (dst = src) then mret 0
  else
    node ← get_head src;
    '(prev, n) ← walk (take_loop None node 0 count);
    match prev with
    | None => mret n
    | Some p =>
        hd ← get_head dst;
        hs ← get_head src;
        match hd with
        | Some _ =>
            t ← tt_slist_tail dst;
            match t with Some t => set_next t hs | None => undef end
        | None => set_head dst hs
        end;;
        m ← get_next p;
        set_head src m;;
        set_next p None;;
        mret n
    end.

Definition tt_slist_swap (l r : lid) : M smem unit :=
  a ← get_head l;
  b ← get_head r;
  set_head l b;;
  set_head r a.

(** ** Chains *)

(** The nodes [xs] follow each other, and [n] comes after the last. *)
Fixpoint chain (m : gmap nid (option nid)) (xs : list nid) (n : option nid) : Prop :=
  match xs with
  | [] => True
  | x :: xs => m !! x = Some (hd_or xs n) ∧ chain m xs n
  end.

Section chain.
Implicit Types (m : gmap nid (option nid)) (xs ys : list nid) (n : option nid).

Lemma chain_app m xs ys n : chain m (xs ++ ys) n ↔ chain m xs (hd_or ys n) ∧ chain m ys n.
Proof. induction xs as [|x xs IH]; simpl; [naive_solver|]. rewrite IH, hd_or_app. naive_solver. Qed.

Lemma chain_at m xs1 x xs2 n : chain m (xs1 ++ x :: xs2) n → m !! x = Some (hd_or xs2 n).
Proof. rewrite chain_app. simpl. naive_solver. Qed.

Lemma chain_in m xs n x : chain m xs n → x ∈ xs → is_Some (m !! x).
Proof. intros Hc (xs1 & xs2 & ->)%list_elem_of_split. apply chain_at in Hc. by eexists. Qed.

Lemma chain_ext m m' xs n : (∀ y, y ∈ xs → m' !! y = m !! y) → chain m xs n → chain m' xs n.
Proof.
  induction xs as [|x xs IH]; intros Heq; [done|]. simpl. intros [Hx Hc].
  rewrite Heq by set_solver. split; [done|]. apply IH; [set_solver|done].
Qed.

Lemma chain_insert m xs n x v : x ∉ xs → chain m xs n → chain (<[x := v]> m) xs n.
Proof. intros Hx. apply chain_ext. intros y Hy. apply lookup_insert_ne. set_solver. Qed.

(** Relinking the last node. *)
Lemma chain_relink m xs y n n' : y ∉ xs → chain m (xs ++ [y]) n → chain (<[y := n']> m) (xs ++ [y]) n'.
Proof.
  intros Hy [Hc _]%chain_app. apply chain_app. split; [by apply chain_insert|].
  simpl. by rewrite lookup_insert_eq.
Qed.
End chain.

(** ** Lists as sequences *)

Definition free (σ : gmap lid (list nid)) (x : nid) : Prop := ∀ L xs, σ !! L = Some xs → x ∉ xs.

Record srep (h : smem) (σ : gmap lid (list nid)) : Prop := {
  sr_list L xs : σ !! L = Some xs →
    shead h !! L = Some (hd_or xs None) ∧ NoDup xs ∧ chain (snext h) xs None;
  sr_disj L K xs ys x : σ !! L = Some xs → σ !! K = Some ys → x ∈ xs → x ∈ ys → L = K;
  sr_free x n : snext h !! x = Some n → free σ x → n = None;
  sr_dom L n : shead h !! L = Some n → is_Some (σ !! L);
}.

Section update.
Context (h : smem) (σ : gmap lid (list nid)) (Hrep : srep h σ).

(** A call that changes list [L] from [xs] to [xs'], touching only nodes of [xs]
    and one node [x] that is free or in [xs]. *)
Lemma srep_update L xs xs' x m' :
  σ !! L = Some xs → (free σ x ∨ x ∈ xs) →
  (∀ y, y ∉ xs → y ≠ x → m' !! y = snext h !! y) →
  NoDup xs' → chain m' xs' None →
  (∀ y n, y ∈ xs ∨ y = x → m' !! y = Some n → y ∈ xs' ∨ n = None) →
  (∀ y, y ∈ xs' → y ∈ xs ∨ y = x) →
  srep (mk_smem m' (<[L := hd_or xs' None]> (shead h))) (<[L := xs']> σ).
Proof.
  intros HL Hx Hm Hnd Hc Hout Hin.
  assert (∀ K ys y, σ !! K = Some ys → K ≠ L → y ∈ ys → y ∉ xs ∧ y ≠ x) as Hsep.
  { intros K ys y HK Hne Hy. split.
    - intros Hy'. by apply Hne, (sr_disj h σ Hrep K L ys xs y).
    - intros ->. destruct Hx as [Hf|Hx]; [by apply (Hf K ys)|].
      by apply Hne, (sr_disj h σ Hrep K L ys xs x). }
  constructor; simpl.
  - intros K ys [[<- <-]|[Hne HK]]%lookup_insert_Some; [by rewrite lookup_insert_eq|].
    rewrite lookup_insert_ne by done. destruct (sr_list h σ Hrep K ys HK) as (? & ? & Hk).
    split_and!; try done. eapply chain_ext; [|done]. intros y Hy.
    destruct (Hsep K ys y HK) as [? ?]; [by apply not_eq_sym|done|]. by apply Hm.
  - intros K K' ys ys' y [[<- <-]|[Hne HK]]%lookup_insert_Some [[<- <-]|[Hne' HK']]%lookup_insert_Some;
      intros Hy Hy'; [done|..|by apply (sr_disj h σ Hrep K K' ys ys' y)].
    + destruct (Hsep K' ys' y HK') as [? ?]; [by apply not_eq_sym|done|]. destruct (Hin y Hy); done.
    + destruct (Hsep K ys y HK) as [? ?]; [by apply not_eq_sym|done|]. destruct (Hin y Hy'); done.
  - intros y n Hy Hf. pose proof (Hf L xs' (lookup_insert_eq _ _ _)) as Hy'.
    destruct (decide (y ∈ xs ∨ y = x)) as [Hd|Hd]; [by destruct (Hout y n Hd Hy)|].
    apply (sr_free h σ Hrep y); [rewrite <- Hm; naive_solver|]. intros K ys HK.
    destruct (decide (K = L)) as [->|Hne]; [naive_solver|]. apply (Hf K). by rewrite lookup_insert_ne.
  - intros K n. destruct (decide (K = L)) as [->|Hne]; [rewrite !lookup_insert_eq; by eexists|].
    rewrite !lookup_insert_ne by done. apply (sr_dom h σ Hrep).
Qed.

(** A call that redistributes the nodes of two lists. *)
Lemma srep_update2 A B xs ys xs' ys' m' :
  A ≠ B → σ !! A = Some xs → σ !! B = Some ys →
  (∀ y, y ∉ xs → y ∉ ys → m' !! y = snext h !! y) →
  xs' ++ ys' ≡ₚ xs ++ ys → chain m' xs' None → chain m' ys' None →
  srep (mk_smem m' (<[B := hd_or ys' None]> (<[A := hd_or xs' None]> (shead h))))
    (<[B := ys']> (<[A := xs']> σ)).
Proof.
  intros Hab HA HB Hm Hp Hca Hcb.
  assert (NoDup (xs' ++ ys')) as (Hndx & Hd & Hndy)%NoDup_app.
  { rewrite Hp. apply NoDup_app. destruct (sr_list h σ Hrep A xs HA) as (_ & ? & _).
    destruct (sr_list h σ Hrep B ys HB) as (_ & ? & _). split_and!; try done.
    intros x Hx Hy. by apply Hab, (sr_disj h σ Hrep A B xs ys x). }
  assert (∀ y, y ∈ xs' ∨ y ∈ ys' ↔ y ∈ xs ∨ y ∈ ys) as Hin.
  { intros y. rewrite <- !elem_of_app. by rewrite Hp. }
  assert (∀ K zs y, σ !! K = Some zs → K ≠ A → K ≠ B → y ∈ zs → y ∉ xs ∧ y ∉ ys) as Hsep.
  { intros K zs y HK Hna Hnb Hy. split; intros Hy'.
    - by apply Hna, (sr_disj h σ Hrep K A zs xs y).
    - by apply Hnb, (sr_disj h σ Hrep K B zs ys y). }
  assert (∀ K zs, <[B := ys']> (<[A := xs']> σ) !! K = Some zs →
    (K = B ∧ zs = ys') ∨ (K = A ∧ zs = xs') ∨ (K ≠ B ∧ K ≠ A ∧ σ !! K = Some zs)) as Hlk.
  { intros K zs [[<- <-]|[? [[<- <-]|[? ?]]%lookup_insert_Some]]%lookup_insert_Some; naive_solver. }
  constructor; simpl.
  - intros K zs [[-> ->]|[[-> ->]|(Hnb & Hna & HK)]]%Hlk.
    + by rewrite lookup_insert_eq.
    + by rewrite lookup_insert_ne, lookup_insert_eq by done.
    + rewrite !lookup_insert_ne by done. destruct (sr_list h σ Hrep K zs HK) as (? & ? & Hk).
      split_and!; try done. eapply chain_ext; [|done]. intros y Hy.
      destruct (Hsep K zs y HK Hna Hnb Hy). by apply Hm.
  - intros K K' zs zs' y [[-> ->]|[[-> ->]|(Hnb & Hna & HK)]]%Hlk
      [[-> ->]|[[-> ->]|(Hnb' & Hna' & HK')]]%Hlk Hy Hy'; try done;
      try (pose proof (Hsep _ _ y HK Hna Hnb Hy)); try (pose proof (Hsep _ _ y HK' Hna' Hnb' Hy'));
      try (by apply (sr_disj h σ Hrep K K' zs zs' y)); set_solver.
  - intros y n Hy Hf. pose proof (Hf B ys' (lookup_insert_eq _ _ _)) as Hyb.
    assert (y ∉ xs') as Hya by (apply (Hf A); rewrite lookup_insert_ne, lookup_insert_eq by done; done).
    assert (y ∉ xs ∧ y ∉ ys) as [Hxa Hxb] by (pose proof (Hin y); tauto).
    apply (sr_free h σ Hrep y); [by rewrite <- Hm|]. intros K zs HK.
    destruct (decide (K = A)) as [->|Hna]; [naive_solver|].
    destruct (decide (K = B)) as [->|Hnb]; [naive_solver|]. apply (Hf K). by rewrite !lookup_insert_ne.
  - intros K n. destruct (decide (K = B)) as [->|Hnb]; [rewrite !lookup_insert_eq; by eexists|].
    rewrite !(lookup_insert_ne _ B) by done.
    destruct (decide (K = A)) as [->|Hna]; [rewrite !lookup_insert_eq; by eexists|].
    rewrite !lookup_insert_ne by done. apply (sr_dom h σ Hrep).
Qed.
End update.

(** ** Loops *)

(** The nodes [xs] with their pointers cleared. *)
Fixpoint clear_all (m : gmap nid (option nid)) (xs : list nid) : gmap nid (option nid) :=
  match xs with [] => m | x :: xs => clear_all (<[x := None]> m) xs end.

Lemma clear_all_other xs : ∀ m y, y ∉ xs → clear_all m xs !! y = m !! y.
Proof.
  induction xs as [|x xs IH]; intros m y Hy; [done|]. simpl. rewrite IH by set_solver.
  apply lookup_insert_ne. set_solver.
Qed.
Lemma clear_all_in xs : ∀ m y, y ∈ xs → clear_all m xs !! y = Some None.
Proof.
  induction xs as [|x xs IH]; intros m y Hy; [set_solver|]. simpl.
  destruct (decide (y ∈ xs)) as [Hin|Hin]; [by apply IH|]. rewrite clear_all_other by done.
  apply elem_of_cons in Hy as [->|]; [by rewrite lookup_insert_eq|done].
Qed.

Ltac srun :=
  m_simpl; unfold get_next, get_head, set_next, set_head; cbn;
  repeat (first [ rewrite lookup_insert_eq | rewrite lookup_insert_ne by (done || congruence || set_solver)
                | match goal with E : ?m !! ?k = _ |- context [?m !! ?k] => rewrite E end ]; cbn).

Section loops.
Implicit Types (h : smem) (fuel : nat).

Lemma tail_loop_ok ys : ∀ h x t fuel, chain (snext h) (ys ++ [t]) None →
  hd_or (ys ++ [t]) None = Some x → (length ys < fuel)%nat →
  tail_loop x fuel h = Ret (TT_SUCCESS t, h).
Proof.
  induction ys as [|y ys IH]; intros h x t [|fuel] Hc Hx Hl; simpl in *; try lia;
    injection Hx as <-; destruct Hc as [E Hc].
  - by srun.
  - srun. destruct (hd_or (ys ++ [t]) None) eqn:Eh; [|by destruct ys]. apply IH; [done..|lia].
Qed.

Lemma count_loop_ok xs : ∀ h c fuel, chain (snext h) xs None → (length xs < fuel)%nat →
  count_loop (u32 c) (hd_or xs None) fuel h = Ret (TT_SUCCESS (u32 (c + zlen xs)), h).
Proof.
  induction xs as [|x xs IH]; intros h c [|fuel] Hc Hl; simpl in *; try lia.
  - rewrite zlen_nil, Z.add_0_r. done.
  - destruct Hc as [E Hc]. srun. rewrite u32_add_l, IH by (done || lia). rewrite zlen_cons.
    do 4 f_equal. lia.
Qed.

Lemma clear_loop_ok xs : ∀ h fuel, NoDup xs → chain (snext h) xs None → (length xs < fuel)%nat →
  clear_loop (hd_or xs None) fuel h = Ret (TT_SUCCESS tt, mk_smem (clear_all (snext h) xs) (shead h)).
Proof.
  induction xs as [|x xs IH]; intros [m hd] [|fuel] Hnd Hc Hl; simpl in *; try lia; [done|].
  apply NoDup_cons in Hnd as [Hx Hnd]. destruct Hc as [E Hc]. srun.
  rewrite IH; [done|done|by apply chain_insert|lia].
Qed.

Lemma last_two_ok ys : ∀ h x p t fuel, chain (snext h) (ys ++ [p; t]) None →
  hd_or (ys ++ [p; t]) None = Some x → (length ys < fuel)%nat →
  last_two x fuel h = Ret (TT_SUCCESS (p, t), h).
Proof.
  induction ys as [|y ys IH]; intros h x p t [|fuel] Hc Hx Hl; simpl in *; try lia; injection Hx as <-.
  - destruct Hc as (E & E' & _). by srun.
  - destruct Hc as [E Hc]. srun. destruct (hd_or (ys ++ [p; t]) None) as [z|] eqn:Eh; [|by destruct ys].
    assert (∃ w, snext h !! z = Some (Some w)) as [w Ew].
    { destruct ys as [|z' ys]; simpl in *; injection Eh as ->; destruct Hc as [-> _]; [by eexists|].
      destruct ys; by eexists. }
    srun. apply IH; [done..|lia].
Qed.

Lemma find_prev_ok ys : ∀ h p sn zs fuel, NoDup (ys ++ p :: sn :: zs) →
  chain (snext h) (ys ++ p :: sn :: zs) None → (length ys < fuel)%nat →
  find_prev sn (hd_or (ys ++ p :: sn :: zs) None) fuel h = Ret (TT_SUCCESS (Some p), h).
Proof.
  induction ys as [|y ys IH]; intros h p sn zs [|fuel] Hnd Hc Hl; simpl in *; try lia;
    destruct Hc as [E Hc].
  - srun. by rewrite bool_decide_true.
  - apply NoDup_cons in Hnd as [Hy Hnd]. srun. rewrite bool_decide_false; [apply IH; [done..|lia]|].
    intros Eh. apply NoDup_app in Hnd as (_ & Hd & Hnd). destruct ys as [|z ys]; simpl in Eh.
    + injection Eh as ->. apply NoDup_cons in Hnd as [Hp _]. set_solver.
    + injection Eh as ->. apply (Hd sn); set_solver.
Qed.

Lemma find_prev_none xs : ∀ h sn fuel, sn ∉ xs → chain (snext h) xs None → (length xs < fuel)%nat →
  find_prev sn (hd_or xs None) fuel h = Ret (TT_SUCCESS None, h).
Proof.
  induction xs as [|x xs IH]; intros h sn [|fuel] Hsn Hc Hl; simpl in *; try lia; [done|].
  destruct Hc as [E Hc]. srun. rewrite bool_decide_false; [apply IH; [set_solver|done|lia]|].
  intros [|]%hd_in; [done|set_solver].
Qed.

Lemma take_loop_ok xs : ∀ h prev n count fuel, 0 ≤ n → count < 2 ^ 32 →
  chain (snext h) xs None → (length xs < fuel)%nat →
  let ys := take (Z.to_nat (count - n)) xs in
  take_loop prev (hd_or xs None) n count fuel h = Ret (TT_SUCCESS (last_or prev ys, n + zlen ys), h).
Proof.
  induction xs as [|x xs IH]; intros h prev n count [|fuel] Hn Hcnt Hc Hl; simpl in *; try lia.
  - rewrite take_nil. simpl. by rewrite zlen_nil, Z.add_0_r.
  - destruct Hc as [E Hc]. destruct (Z.ltb_spec n count) as [Hlt|Hge].
    + srun. rewrite u32_small by lia. rewrite IH by (done || lia).
      replace (Z.to_nat (count - n)) with (S (Z.to_nat (count - (n + 1)))) by lia.
      simpl. rewrite zlen_cons. do 4 f_equal. lia.
    + replace (Z.to_nat (count - n)) with O by lia. simpl. by rewrite zlen_nil, Z.add_0_r.
Qed.
End loops.

(** ** Each operation on sequences *)

(** Running [b] gives [r] and a memory that represents [σ'], with the same nodes
    and lists as [h]. *)
Definition gives {A} (h : smem) (b : exec (result A * smem)) (r : A) (σ' : gmap lid (list nid)) : Prop :=
  ∃ h', b = Ret (TT_SUCCESS r, h') ∧ srep h' σ' ∧
    dom (snext h') = dom (snext h) ∧ dom (shead h') = dom (shead h).

Lemma gives_intro {A} h (r : A) m' hd' σ' : srep (mk_smem m' hd') σ' →
  dom m' = dom (snext h) → dom hd' = dom (shead h) →
  gives h (Ret (TT_SUCCESS r, mk_smem m' hd')) r σ'.
Proof. intros. by exists (mk_smem m' hd'). Qed.

(** The same nodes: updates of fields that are there. *)
Ltac same_dom :=
  repeat (rewrite dom_insert_lookup_L by (rewrite ?lookup_insert_ne by done; eauto)); done.

Lemma smem_eta h : mk_smem (snext h) (shead h) = h.
Proof. by destruct h. Qed.

Section ops.
Context (h : smem) (σ : gmap lid (list nid)) (Hrep : srep h σ).

Lemma gives_same {A} (r : A) : gives h (Ret (TT_SUCCESS r, h)) r σ.
Proof. by exists h. Qed.

Lemma sl_rep_length L xs : σ !! L = Some xs → (length xs < S (size (snext h)))%nat.
Proof.
  intros HL. destruct (sr_list h σ Hrep L _ HL) as (_ & Hnd & Hc).
  rewrite <- (size_list_to_set (C := gset nid) xs) by done. rewrite <- size_dom.
  apply Nat.lt_succ_r, subseteq_size. intros y Hy%elem_of_list_to_set. apply elem_of_dom.
  by eapply chain_in.
Qed.

Lemma tail_code L xs : σ !! L = Some xs → tt_slist_tail L h = Ret (TT_SUCCESS (last_or None xs), h).
Proof.
  intros HL. pose proof (sl_rep_length L xs HL). destruct (sr_list h σ Hrep L _ HL) as (El & _ & Hc).
  unfold tt_slist_tail. srun. destruct (hd_or xs None) as [x|] eqn:Eh; [|by destruct xs].
  destruct (snoc_cases xs) as [->|(ys & t & ->)]; [done|]. rewrite last_or_app in *.
  rewrite length_app in *. unfold walk; cbv beta. by rewrite (tail_loop_ok ys h x t) by (done || lia).
Qed.

Lemma count_code L xs : σ !! L = Some xs → tt_slist_count L h = Ret (TT_SUCCESS (u32 (zlen xs)), h).
Proof.
  intros HL. pose proof (sl_rep_length L xs HL). destruct (sr_list h σ Hrep L _ HL) as (El & _ & Hc).
  unfold tt_slist_count. srun. unfold walk; cbv beta. change 0 with (u32 0). by rewrite count_loop_ok.
Qed.

Lemma sl_clear_code L xs : σ !! L = Some xs → gives h (tt_slist_clear L h) tt (<[L := []]> σ).
Proof.
  intros HL. pose proof (sl_rep_length L xs HL). destruct (sr_list h σ Hrep L _ HL) as (El & Hnd & Hc).
  unfold tt_slist_clear. srun. unfold walk; cbv beta. rewrite clear_loop_ok by done. srun.
  apply gives_intro; [|apply set_eq; intros y|same_dom].
  - assert (∃ x, free σ x ∨ x ∈ xs) as [x Hx].
    { destruct xs as [|x xs]; [|exists x; set_solver]. exists (fresh (dom (snext h))). left.
      intros K ys HK Hin. destruct (sr_list h σ Hrep K ys HK) as (_ & _ & Hk).
      apply (is_fresh (dom (snext h))), elem_of_dom. by eapply chain_in. }
    apply (srep_update h σ Hrep L xs [] x); [done|done| |constructor|done| |set_solver].
    + intros y Hy _. by apply clear_all_other.
    + intros y n [Hy|Hy] E; right; [rewrite clear_all_in in E by done; by injection E as <-|].
      subst y. destruct (decide (x ∈ xs)); [rewrite clear_all_in in E by done; by injection E as <-|].
      rewrite clear_all_other in E by done. apply (sr_free h σ Hrep x); tauto.
  - rewrite !elem_of_dom. destruct (decide (y ∈ xs)) as [Hy|Hy]; [|by rewrite clear_all_other].
    rewrite clear_all_in by done. split; [|by eexists]. intros _. by eapply chain_in.
Qed.

Lemma sl_push_head_code L x xs : σ !! L = Some xs → is_Some (snext h !! x) → free σ x →
  gives h (tt_slist_push_head L x h) tt (<[L := x :: xs]> σ).
Proof.
  intros HL [n Hx] Hf. pose proof (sr_free h σ Hrep x n Hx Hf) as ->.
  destruct (sr_list h σ Hrep L _ HL) as (El & Hnd & Hc). unfold tt_slist_push_head. srun.
  pose proof (Hf L xs HL). apply gives_intro; [|same_dom..].
  apply (srep_update h σ Hrep L xs (x :: xs) x); try done; try (by left).
  - intros y _ Hne. by rewrite lookup_insert_ne.
  - by apply NoDup_cons.
  - simpl. rewrite lookup_insert_eq. split; [done|]. by apply chain_insert.
  - intros y n [|]; left; set_solver.
  - intros y. set_solver.
Qed.

Lemma sl_push_tail_code L x xs : σ !! L = Some xs → is_Some (snext h !! x) → free σ x →
  gives h (tt_slist_push_tail L x h) tt (<[L := xs ++ [x]]> σ).
Proof.
  intros HL [n Hx] Hf. pose proof (sr_free h σ Hrep x n Hx Hf) as ->.
  destruct (sr_list h σ Hrep L _ HL) as (El & Hnd & Hc). pose proof (Hf L xs HL) as Hxs.
  unfold tt_slist_push_tail. rewrite (bind_step _ _ _ _ _ (tail_code L xs HL)). srun.
  assert (NoDup (xs ++ [x])) as Hnd' by (apply NoDup_app; split_and!; [done|set_solver|apply NoDup_singleton]).
  destruct (snoc_cases xs) as [->|(ys & t & ->)]; [|rewrite last_or_app; cbn [last_or]].
  - srun. apply gives_intro; [|same_dom..]. apply (srep_update h σ Hrep L [] [x] x); try done; [by left|set_solver..].
  - pose proof (chain_at _ _ _ _ _ Hc) as Et. srun.
    apply NoDup_app in Hnd as (_ & Hd & _). assert (t ∉ ys) by set_solver. assert (t ≠ x) by set_solver.
    rewrite <- (insert_id (shead h) L (hd_or ((ys ++ [t]) ++ [x]) None)); [apply gives_intro|].
    + apply (srep_update h σ Hrep L (ys ++ [t]) ((ys ++ [t]) ++ [x]) x); try done; [by left|..].
      * intros y Hy _. rewrite lookup_insert_ne; set_solver.
      * apply chain_app. split; [by eapply chain_relink|]. simpl. by rewrite lookup_insert_ne.
      * intros y n [|]; left; set_solver.
      * intros y. set_solver.
    + same_dom.
    + same_dom.
    + rewrite El. by destruct ys.
Qed.

(** Taking the first node out, and one behind another. *)
Lemma srep_cut_head L x xs : σ !! L = Some (x :: xs) →
  srep (mk_smem (<[x := None]> (snext h)) (<[L := hd_or xs None]> (shead h))) (<[L := xs]> σ).
Proof.
  intros HL. destruct (sr_list h σ Hrep L _ HL) as (El & [Hx Hnd]%NoDup_cons & [E Hc]).
  apply (srep_update h σ Hrep L (x :: xs) xs x); try done; [right; set_solver|..].
  - intros y ? ?. rewrite lookup_insert_ne; set_solver.
  - by apply chain_insert.
  - intros y n Hy. destruct (decide (y = x)) as [->|]; [|left; set_solver].
    rewrite lookup_insert_eq. intros [= <-]. by right.
  - intros y. set_solver.
Qed.
Lemma srep_cut L ys p x xs : σ !! L = Some (ys ++ p :: x :: xs) →
  srep (mk_smem (<[x := None]> (<[p := hd_or xs None]> (snext h))) (shead h)) (<[L := ys ++ p :: xs]> σ).
Proof.
  intros HL. destruct (sr_list h σ Hrep L _ HL) as (El & Hnd & Hc).
  assert (hd_or (ys ++ p :: xs) None = hd_or (ys ++ p :: x :: xs) None) as Eh by (by destruct ys).
  rewrite <- (insert_id (shead h) L (hd_or (ys ++ p :: xs) None)) by (by rewrite Eh).
  assert (NoDup (x :: ys ++ p :: xs)) as [Hx Hnd']%NoDup_cons.
  { eapply NoDup_Permutation_proper; [|apply Hnd]. rewrite (cons_middle p), app_assoc.
    rewrite Permutation_middle, <- app_assoc. done. }
  apply (srep_update h σ Hrep L (ys ++ p :: x :: xs) (ys ++ p :: xs) x); try done; [right; set_solver|..].
  - intros y ? ?. rewrite !lookup_insert_ne; set_solver.
  - apply chain_insert; [done|]. apply NoDup_app in Hnd' as (_ & Hd & [Hp _]%NoDup_cons).
    rewrite (cons_middle p), app_assoc in Hc |- *. apply chain_app in Hc as [Hc1 [_ Hc2]].
    apply chain_app. split; [|by apply chain_insert]. eapply chain_relink; [set_solver|done].
  - intros y n Hy. destruct (decide (y = x)) as [->|]; [|left; set_solver].
    rewrite lookup_insert_eq. intros [= <-]. by right.
  - intros y. set_solver.
Qed.

Lemma sl_pop_head_code L x xs : σ !! L = Some (x :: xs) →
  gives h (tt_slist_pop_head L h) (Some x) (<[L := xs]> σ).
Proof.
  intros HL. destruct (sr_list h σ Hrep L _ HL) as (El & _ & [E _]).
  unfold tt_slist_pop_head. cbn [hd_or] in *. srun. apply gives_intro; [|same_dom..].
  by apply srep_cut_head.
Qed.
Lemma sl_pop_head_empty L : σ !! L = Some [] → tt_slist_pop_head L h = Ret (TT_SUCCESS None, h).
Proof.
  intros HL. destruct (sr_list h σ Hrep L _ HL) as (El & _). unfold tt_slist_pop_head. by srun.
Qed.

(** What the code reads around the node [x]. *)
Lemma cut_reads L ys p x xs : σ !! L = Some (ys ++ p :: x :: xs) →
  shead h !! L = Some (hd_or (ys ++ p :: x :: xs) None) ∧ snext h !! p = Some (Some x) ∧
  snext h !! x = Some (hd_or xs None) ∧ p ≠ x ∧ (∀ y, hd_or (ys ++ [p]) None = Some y → y ≠ x).
Proof.
  intros HL. destruct (sr_list h σ Hrep L _ HL) as (El & Hnd & Hc). split; [done|].
  pose proof (chain_at _ _ _ _ _ Hc) as Ep. rewrite (cons_middle p), app_assoc in Hc, Hnd.
  pose proof (chain_at _ _ _ _ _ Hc) as Ex. apply NoDup_app in Hnd as (_ & Hd & _).
  split_and!; [done|done|set_solver|]. intros y [|Hy]%hd_in; [done|]. set_solver.
Qed.

Lemma sl_pop_tail_code L x xs : σ !! L = Some (xs ++ [x]) →
  gives h (tt_slist_pop_tail L h) (Some x) (<[L := xs]> σ).
Proof.
  intros HL. pose proof (sl_rep_length L _ HL). destruct (sr_list h σ Hrep L _ HL) as (El & _ & Hc).
  unfold tt_slist_pop_tail. destruct (snoc_cases xs) as [->|(ys & p & ->)].
  - simpl in *. destruct Hc as [E _]. srun. rewrite <- (insert_id (snext h) x None) at 1 by done.
    apply gives_intro; [|same_dom..]. by apply (srep_cut_head L x []).
  - rewrite <- app_assoc in *. cbn [app] in *. destruct (cut_reads L ys p x [] HL) as (_ & Ep & Ex & Hne & _).
    rewrite length_app in *. simpl in *. srun.
    destruct (hd_or (ys ++ [p; x]) None) as [y|] eqn:Eh; [|by destruct ys].
    assert (∃ w, snext h !! y = Some (Some w)) as [w Ew].
    { destruct ys as [|z ys]; simpl in *; injection Eh as ->; [by eexists|]. destruct Hc as [-> _].
      destruct ys; by eexists. }
    srun. unfold walk; cbv beta. rewrite (last_two_ok ys h y p x) by (done || lia). srun.
    apply gives_intro; [|same_dom..]. by apply (srep_cut L ys p x []).
Qed.

Lemma fast_remove_code L xs1 x xs2 : σ !! L = Some (xs1 ++ x :: xs2) →
  gives h (tt_slist_fast_remove L (last_or None xs1) x h) (hd_or xs2 None) (<[L := xs1 ++ xs2]> σ).
Proof.
  intros HL. unfold tt_slist_fast_remove. destruct (snoc_cases xs1) as [->|(ys & p & ->)].
  - destruct (sr_list h σ Hrep L _ HL) as (El & _ & [E _]). cbn [hd_or last_or app] in *. srun.
    rewrite bool_decide_true by done. srun. apply gives_intro; [|same_dom..]. by apply srep_cut_head.
  - rewrite last_or_app. rewrite <- !app_assoc in *. cbn [last_or app] in *.
    destruct (cut_reads L ys p x xs2 HL) as (El & Ep & Ex & Hne & _). srun.
    rewrite bool_decide_true by done. srun. apply gives_intro; [|same_dom..]. by apply srep_cut.
Qed.

Lemma sl_remove_code L xs1 x xs2 : σ !! L = Some (xs1 ++ x :: xs2) →
  gives h (tt_slist_remove L x h) (hd_or xs2 None) (<[L := xs1 ++ xs2]> σ).
Proof.
  intros HL. pose proof (sl_rep_length L _ HL). unfold tt_slist_remove.
  destruct (snoc_cases xs1) as [->|(ys & p & ->)].
  - destruct (sr_list h σ Hrep L _ HL) as (El & _ & [E _]). cbn [hd_or app] in *. srun.
    rewrite bool_decide_true by done. srun. apply gives_intro; [|same_dom..]. by apply srep_cut_head.
  - rewrite <- !app_assoc in *. cbn [app] in *. rewrite length_app in *. simpl in *.
    destruct (cut_reads L ys p x xs2 HL) as (El & Ep & Ex & Hne & Hhd).
    destruct (sr_list h σ Hrep L _ HL) as (_ & Hnd & Hc). srun. rewrite bool_decide_false.
    2:{ intros Eh. apply (Hhd x); [|done]. rewrite <- Eh. by destruct ys. }
    unfold walk; cbv beta. rewrite (find_prev_ok ys h p x xs2) by (done || lia). srun.
    apply gives_intro; [|same_dom..]. by apply srep_cut.
Qed.

Lemma remove_free_code L xs x : σ !! L = Some xs → is_Some (snext h !! x) → free σ x →
  tt_slist_remove L x h = Ret (TT_SUCCESS None, h).
Proof.
  intros HL [n Hx] Hf. pose proof (sr_free h σ Hrep x n Hx Hf) as ->. pose proof (sl_rep_length L xs HL).
  destruct (sr_list h σ Hrep L _ HL) as (El & Hnd & Hc). pose proof (Hf L xs HL) as Hxs.
  unfold tt_slist_remove. srun. rewrite bool_decide_false by (intros [|]%hd_in; done).
  unfold walk; cbv beta. rewrite find_prev_none by done. srun.
  by rewrite insert_id, smem_eta.
Qed.

Lemma sl_insert_after_code L xs1 pos xs2 x : σ !! L = Some (xs1 ++ pos :: xs2) →
  is_Some (snext h !! x) → free σ x →
  gives h (tt_slist_insert_after pos x h) tt (<[L := xs1 ++ pos :: x :: xs2]> σ).
Proof.
  intros HL [n Hx] Hf. pose proof (sr_free h σ Hrep x n Hx Hf) as ->. pose proof (Hf L _ HL) as Hxs.
  destruct (sr_list h σ Hrep L _ HL) as (El & Hnd & Hc). pose proof (chain_at _ _ _ _ _ Hc) as Ep.
  assert (pos ≠ x) by set_solver. unfold tt_slist_insert_after. srun.
  rewrite <- (insert_id (shead h) L (hd_or (xs1 ++ pos :: x :: xs2) None)) by (rewrite El; by destruct xs1).
  apply gives_intro; [|same_dom..].
  apply (srep_update h σ Hrep L (xs1 ++ pos :: xs2) _ x); try done; try (by left).
  - intros y ? ?. rewrite !lookup_insert_ne; set_solver.
  - eapply NoDup_Permutation_proper with (x :: xs1 ++ pos :: xs2); [|by apply NoDup_cons].
    rewrite (cons_middle pos xs1 (x :: xs2)), app_assoc, <- Permutation_middle, <- app_assoc. done.
  - rewrite (cons_middle pos), app_assoc in Hc |- *. apply chain_app in Hc as [Hc1 Hc2].
    apply NoDup_app in Hnd as (_ & Hd & [Hp _]%NoDup_cons). apply chain_app. split.
    + eapply chain_relink; [set_solver|]. apply chain_insert; [set_solver|done].
    + simpl. rewrite lookup_insert_ne, lookup_insert_eq by done. split; [done|].
      apply chain_insert; [done|]. apply chain_insert; [set_solver|]. apply Hc2.
  - intros y n [|]; left; set_solver.
  - intros y. set_solver.
Qed.
End ops.

(** Relinking the last node of [xs]. *)
Definition join (m : gmap nid (option nid)) (xs : list nid) (n : option nid) : gmap nid (option nid) :=
  match last_or None xs with Some t => <[t := n]> m | None => m end.

Lemma join_other m xs n y : y ∉ xs → join m xs n !! y = m !! y.
Proof.
  intros Hy. unfold join. destruct (last_or None xs) as [t|] eqn:E; [|done].
  apply lookup_insert_ne. intros ->. apply last_in in E as [|]; [done|by apply Hy].
Qed.

Lemma join_chain m xs n n' : NoDup xs → chain m xs n → chain (join m xs n') xs n'.
Proof.
  intros Hnd Hc. unfold join. destruct (snoc_cases xs) as [->|(zs & t & ->)]; [done|].
  rewrite last_or_app. cbn [last_or]. apply NoDup_app in Hnd as (_ & Hd & _).
  eapply chain_relink; [set_solver|done].
Qed.

Lemma last_hd (zs ws : list nid) t : last_or None zs = Some t → hd_or (zs ++ ws) None = hd_or zs None.
Proof. by destruct zs. Qed.
Lemma last_none (zs : list nid) : last_or None zs = None → zs = [].
Proof. destruct (snoc_cases zs) as [->|(? & ? & ->)]; [done|]. by rewrite last_or_app. Qed.

Section two.
Context (h : smem) (σ : gmap lid (list nid)) (Hrep : srep h σ).
Context (A B : lid) (xs ys : list nid) (Hab : A ≠ B) (HA : σ !! A = Some xs) (HB : σ !! B = Some ys).

Lemma two_reads : shead h !! A = Some (hd_or xs None) ∧ shead h !! B = Some (hd_or ys None) ∧
  NoDup xs ∧ chain (snext h) xs None ∧ NoDup ys ∧ chain (snext h) ys None ∧ (∀ y, y ∈ ys → y ∉ xs).
Proof.
  destruct (sr_list h σ Hrep A _ HA) as (? & ? & ?). destruct (sr_list h σ Hrep B _ HB) as (? & ? & ?).
  split_and!; try done. intros y Hy Hx. by apply Hab, (sr_disj h σ Hrep A B xs ys y).
Qed.

Lemma move_code : gives h (tt_slist_move A B h) tt (<[B := []]> (<[A := xs ++ ys]> σ)).
Proof.
  destruct two_reads as (Ea & Eb & Hna & Hca & Hnb & Hcb & Hd). unfold tt_slist_move.
  rewrite (bind_step _ _ _ _ _ (tail_code h σ Hrep A xs HA)). srun.
  assert (srep (mk_smem (join (snext h) xs (hd_or ys None))
    (<[B := hd_or [] None]> (<[A := hd_or (xs ++ ys) None]> (shead h)))) (<[B := []]> (<[A := xs ++ ys]> σ))) as Hr.
  { apply (srep_update2 h σ Hrep A B xs ys (xs ++ ys) []); try done.
    - intros y Hx _. by apply join_other.
    - by rewrite app_nil_r.
    - apply chain_app. split; [by eapply join_chain|]. eapply chain_ext; [|done].
      intros y Hy. apply join_other. by apply Hd. }
  unfold join in Hr. destruct (last_or None xs) as [t|] eqn:Et.
  - assert (is_Some (snext h !! t)) as [n En].
    { pose proof (last_in _ _ _ Et) as [|]; [done|]. by apply (chain_in _ xs None). }
    rewrite (last_hd xs ys t) in Hr by done. rewrite (insert_id (shead h) A) in Hr by done. srun.
    apply gives_intro; [done|same_dom..].
  - pose proof (last_none xs Et) as E. rewrite E in *. cbn [hd_or app] in *. srun. apply gives_intro; [done|same_dom..].
Qed.

Lemma swap_code : gives h (tt_slist_swap A B h) tt (<[B := xs]> (<[A := ys]> σ)).
Proof.
  destruct two_reads as (Ea & Eb & Hna & Hca & Hnb & Hcb & Hd). unfold tt_slist_swap. srun.
  apply gives_intro; [|same_dom..].
  apply (srep_update2 h σ Hrep A B xs ys ys xs); try done. apply Permutation_app_comm.
Qed.

(** The state after the first nodes [zs ++ [p]] of list [B] went to list [A]. *)
Lemma srep_move zs p ws : ys = (zs ++ [p]) ++ ws →
  srep (mk_smem (<[p := None]> (join (snext h) xs (hd_or ys None)))
      (<[B := hd_or ws None]> (<[A := hd_or (xs ++ zs ++ [p]) None]> (shead h))))
    (<[B := ws]> (<[A := xs ++ zs ++ [p]]> σ)) ∧
  snext h !! p = Some (hd_or ws None) ∧ p ∉ xs ∧ hd_or ys None = hd_or (zs ++ [p]) None.
Proof.
  intros Hys. destruct two_reads as (Ea & Eb & Hna & Hca & Hnb & Hcb & Hd).
  assert (p ∉ xs) as Hp by (apply Hd; rewrite Hys; set_solver). rewrite Hys in Hcb, Hnb.
  pose proof (proj1 (chain_app _ _ _ _) Hcb) as [Hc1 Hc2].
  apply NoDup_app in Hnb as (Hn1 & Hd1 & Hn2). apply NoDup_app in Hn1 as (_ & Hd2 & _).
  assert (hd_or ys None = hd_or (zs ++ [p]) None) as Eh by by rewrite Hys; destruct zs.
  split_and!; [|exact (chain_at _ zs p [] _ Hc1)|done|done].
  apply (srep_update2 h σ Hrep A B xs ys); try done.
  - intros y Hx Hy. rewrite lookup_insert_ne by (intros ->; apply Hy; rewrite Hys; set_solver).
    by apply join_other.
  - by rewrite Hys, <- !app_assoc.
  - apply chain_app. split.
    + apply chain_insert; [done|]. rewrite Eh. by eapply join_chain.
    + eapply chain_relink; [set_solver|]. eapply chain_ext; [|done]. intros y Hy. apply join_other, Hd.
      rewrite Hys. set_solver.
  - apply chain_insert; [set_solver|]. eapply chain_ext; [|done]. intros y Hy. apply join_other, Hd.
    rewrite Hys. set_solver.
Qed.

Lemma move_count_code count : 0 ≤ count < 2 ^ 32 →
  let k := Z.to_nat count in
  gives h (tt_slist_move_count A B count h) (zlen (take k ys)) (<[B := drop k ys]> (<[A := xs ++ take k ys]> σ)).
Proof.
  intros Hcnt k. destruct two_reads as (Ea & Eb & Hna & Hca & Hnb & Hcb & Hd).
  pose proof (sl_rep_length h σ Hrep B ys HB). unfold tt_slist_move_count.
  rewrite bool_decide_false by done. srun. unfold walk; cbv beta. rewrite take_loop_ok by (done || lia).
  rewrite Z.sub_0_r. fold k. m_simpl. pose proof (take_drop k ys) as Htd.
  destruct (snoc_cases (take k ys)) as [E|(zs & p & E)]; rewrite E in *.
  - cbn in *. rewrite Htd, app_nil_r, (insert_id σ A), (insert_id σ B) by done. by apply gives_same.
  - destruct (srep_move zs p (drop k ys)) as (Hr & Ep & Hp & Eh); [by rewrite Htd|].
    rewrite last_or_app. cbn [last_or]. rewrite Z.add_0_l. unfold join in Hr.
    destruct (last_or None xs) as [t|] eqn:Et.
    + destruct (hd_or xs None) as [x|] eqn:Ex; [|by rewrite (last_none xs) in Et by (by destruct xs)].
      pose proof (last_in _ _ _ Et) as [|Ht]; [done|]. assert (t ≠ p) by set_solver.
      assert (is_Some (snext h !! t)) as [n En] by by apply (chain_in _ xs None).
      pose proof (tail_code h σ Hrep A xs HA) as Ht'. rewrite Et in Ht'. srun.
      rewrite Ht'. srun. rewrite (last_hd xs _ t), Ex, (insert_id (shead h) A) in Hr by done.
      apply gives_intro; [done|same_dom..].
    + pose proof (last_none xs Et) as E'. rewrite E' in *. cbn [hd_or app] in *. srun.
      rewrite Eh. apply gives_intro; [done|same_dom..].
Qed.
End two.

(** ** The abstract machine *)

Inductive op : Type :=
  | PushHead (L : lid) (x : nid)
  | PushTail (L : lid) (x : nid)
  | PopHead (L : lid)
  | PopTail (L : lid)
  | InsertAfter (pos x : nid)
  | Remove (L : lid) (x : nid)
  | FastRemove (L : lid) (prev : option nid) (x : nid)
  | Move (dst src : lid)
  | MoveCount (dst src : lid) (count : Z)
  | Swap (l r : lid)
  | Clear (L : lid)
  | Head (L : lid)
  | Tail (L : lid)
  | Count (L : lid)
  | Empty (L : lid).

Inductive res : Type :=
  | RUnit
  | RNode (o : option nid)
  | RBool (b : bool)
  | RNum (n : Z).

Definition run_op (o : op) : M smem res :=
  match o with
  | PushHead L x => tt_slist_push_head L x;; mret RUnit
  | PushTail L x => tt_slist_push_tail L x;; mret RUnit
  | PopHead L => r ← tt_slist_pop_head L; mret (RNode r)
  | PopTail L => r ← tt_slist_pop_tail L; mret (RNode r)
  | InsertAfter pos x => tt_slist_insert_after pos x;; mret RUnit
  | Remove L x => r ← tt_slist_remove L x; mret (RNode r)
  | FastRemove L prev x => r ← tt_slist_fast_remove L prev x; mret (RNode r)
  | Move dst src => tt_slist_move dst src;; mret RUnit
  | MoveCount dst src count => n ← tt_slist_move_count dst src count; mret (RNum n)
  | Swap l r => tt_slist_swap l r;; mret RUnit
  | Clear L => tt_slist_clear L;; mret RUnit
  | Head L => r ← tt_slist_head L; mret (RNode r)
  | Tail L => r ← tt_slist_tail L; mret (RNode r)
  | Count L => n ← tt_slist_count L; mret (RNum n)
  | Empty L => b ← tt_slist_empty L; mret (RBool b)
  end.

(** The legal calls and what they do to the sequences.  A moved or swapped list
    is another one, a linked node is free, a removed node is free or in the given
    list, behind the given node. *)
Inductive sstep (σ : gmap lid (list nid)) : op → res → gmap lid (list nid) → Prop :=
  | ss_push_head L x xs : σ !! L = Some xs → free σ x →
      sstep σ (PushHead L x) RUnit (<[L := x :: xs]> σ)
  | ss_push_tail L x xs : σ !! L = Some xs → free σ x →
      sstep σ (PushTail L x) RUnit (<[L := xs ++ [x]]> σ)
  | ss_pop_head L x xs : σ !! L = Some (x :: xs) →
      sstep σ (PopHead L) (RNode (Some x)) (<[L := xs]> σ)
  | ss_pop_head_empty L : σ !! L = Some [] → sstep σ (PopHead L) (RNode None) σ
  | ss_pop_tail L x xs : σ !! L = Some (xs ++ [x]) →
      sstep σ (PopTail L) (RNode (Some x)) (<[L := xs]> σ)
  | ss_pop_tail_empty L : σ !! L = Some [] → sstep σ (PopTail L) (RNode None) σ
  | ss_insert_after L xs1 pos xs2 x : σ !! L = Some (xs1 ++ pos :: xs2) → free σ x →
      sstep σ (InsertAfter pos x) RUnit (<[L := xs1 ++ pos :: x :: xs2]> σ)
  | ss_remove L xs1 x xs2 : σ !! L = Some (xs1 ++ x :: xs2) →
      sstep σ (Remove L x) (RNode (hd_or xs2 None)) (<[L := xs1 ++ xs2]> σ)
  | ss_remove_free L xs x : σ !! L = Some xs → free σ x → sstep σ (Remove L x) (RNode None) σ
  | ss_fast_remove L xs1 x xs2 : σ !! L = Some (xs1 ++ x :: xs2) →
      sstep σ (FastRemove L (last_or None xs1) x) (RNode (hd_or xs2 None)) (<[L := xs1 ++ xs2]> σ)
  | ss_move dst src xs ys : dst ≠ src → σ !! dst = Some xs → σ !! src = Some ys →
      sstep σ (Move dst src) RUnit (<[src := []]> (<[dst := xs ++ ys]> σ))
  | ss_move_count dst src xs ys count : dst ≠ src → 0 ≤ count < 2 ^ 32 →
      σ !! dst = Some xs → σ !! src = Some ys →
      let k := Z.to_nat count in
      sstep σ (MoveCount dst src count) (RNum (zlen (take k ys)))
        (<[src := drop k ys]> (<[dst := xs ++ take k ys]> σ))
  | ss_move_count_self L count : sstep σ (MoveCount L L count) (RNum 0) σ
  | ss_swap l r xs ys : l ≠ r → σ !! l = Some xs → σ !! r = Some ys →
      sstep σ (Swap l r) RUnit (<[r := xs]> (<[l := ys]> σ))
  | ss_clear L xs : σ !! L = Some xs → sstep σ (Clear L) RUnit (<[L := []]> σ)
  | ss_head L xs : σ !! L = Some xs → sstep σ (Head L) (RNode (hd_or xs None)) σ
  | ss_tail L xs : σ !! L = Some xs → sstep σ (Tail L) (RNode (last_or None xs)) σ
  | ss_count L xs : σ !! L = Some xs → sstep σ (Count L) (RNum (u32 (zlen xs))) σ
  | ss_empty L xs : σ !! L = Some xs → sstep σ (Empty L) (RBool (bool_decide (xs = []))) σ.

(** Any sequence of legal calls. *)
Inductive sruns : gmap lid (list nid) → list op → list res → gmap lid (list nid) → Prop :=
  | sr_nil σ : sruns σ [] [] σ
  | sr_cons σ o r σ' os rs σ'' : sstep σ o r σ' → sruns σ' os rs σ'' →
      sruns σ (o :: os) (r :: rs) σ''.

Fixpoint run_ops (os : list op) : M smem (list res) :=
  match os with
  | [] => mret []
  | o :: os => r ← run_op o; rs ← run_ops os; mret (r :: rs)
  end.

(** The nodes of the calls exist. *)
Definition op_node (o : op) : option nid :=
  match o with
  | PushHead _ x | PushTail _ x | InsertAfter _ x | Remove _ x | FastRemove _ _ x => Some x
  | _ => None
  end.
Definition there (h : smem) (o : op) : Prop :=
  match op_node o with Some x => is_Some (snext h !! x) | None => True end.

Lemma gives_map {A B} h (m : M smem A) (f : A → B) r σ' :
  gives h (m h) r σ' → gives h ((r ← m; mret (f r)) h) (f r) σ'.
Proof. intros (h' & E & Hr). rewrite (bind_step _ _ _ _ _ E). by exists h'. Qed.

Lemma sl_step_sound h σ o r σ' : srep h σ → there h o → sstep σ o r σ' → gives h (run_op o h) r σ'.
Proof.
  intros Hrep Hx Hs. destruct Hs as [L x xs HL Hf|L x xs HL Hf|L x xs HL|L HL|L x xs HL|L HL
    |L xs1 pos xs2 x HL Hf|L xs1 x xs2 HL|L xs x HL Hf|L xs1 x xs2 HL|d s xs ys Hne Hd Hs
    |d s xs ys c Hne Hc Hd Hs k|L c|l r xs ys Hne Hl Hr|L xs HL|L xs HL|L xs HL|L xs HL|L xs HL];
    unfold run_op; unfold there in Hx; cbn [op_node] in Hx.
  - by apply (gives_map h _ (λ _, RUnit) tt), sl_push_head_code.
  - by apply (gives_map h _ (λ _, RUnit) tt), sl_push_tail_code.
  - by eapply (gives_map h _ RNode), sl_pop_head_code.
  - rewrite (bind_step _ _ _ _ _ (sl_pop_head_empty h _ Hrep L HL)). by apply gives_same.
  - by eapply (gives_map h _ RNode), sl_pop_tail_code.
  - destruct (sr_list h _ Hrep L _ HL) as (El & _). unfold tt_slist_pop_tail. srun. by apply gives_same.
  - by apply (gives_map h _ (λ _, RUnit) tt), sl_insert_after_code.
  - by eapply (gives_map h _ RNode), sl_remove_code.
  - rewrite (bind_step _ _ _ _ _ (remove_free_code h _ Hrep L xs x HL Hx Hf)). by apply gives_same.
  - by eapply (gives_map h _ RNode), fast_remove_code.
  - by apply (gives_map h _ (λ _, RUnit) tt), move_code.
  - by apply (gives_map h _ RNum), move_count_code.
  - unfold tt_slist_move_count. rewrite bool_decide_true by done. srun. by apply gives_same.
  - by apply (gives_map h _ (λ _, RUnit) tt), swap_code.
  - by apply (gives_map h _ (λ _, RUnit) tt), (sl_clear_code h _ Hrep L xs).
  - destruct (sr_list h _ Hrep L _ HL) as (El & _). unfold tt_slist_head. srun. by apply gives_same.
  - rewrite (bind_step _ _ _ _ _ (tail_code h _ Hrep L xs HL)). by apply gives_same.
  - rewrite (bind_step _ _ _ _ _ (count_code h _ Hrep L xs HL)). by apply gives_same.
  - destruct (sr_list h _ Hrep L _ HL) as (El & _). unfold tt_slist_empty. srun.
    replace (bool_decide (hd_or xs None = None)) with (bool_decide (xs = [])); [by apply gives_same|].
    apply bool_decide_ext. by destruct xs.
Qed.

Lemma runs_sound os : ∀ h σ rs σ', srep h σ → Forall (there h) os → sruns σ os rs σ' →
  gives h (run_ops os h) rs σ'.
Proof.
  induction os as [|o os IH]; intros h σ rs σ' Hrep Ht Hr; inversion Hr as [|? ? r σ1 ? rs1 ? Hs Hr']; subst;
    [by apply gives_same|]. apply Forall_cons in Ht as [Hto Ht]. cbn [run_ops].
  destruct (sl_step_sound h σ o _ _ Hrep Hto Hs) as (h1 & E1 & Hrep1 & Hn1 & Hl1).
  rewrite (bind_step _ _ _ _ _ E1).
  destruct (IH h1 σ1 rs1 σ' Hrep1) as (h2 & E2 & Hrep2 & Hn2 & Hl2); [|done|].
  - eapply Forall_impl; [done|]. intros o'. unfold there. destruct (op_node o'); [|done].
    by rewrite <- !elem_of_dom, Hn1.
  - rewrite (bind_step _ _ _ _ _ E2). exists h2. split_and!; [done|done|congruence..].
Qed.

(** Initialised nodes and lists. *)
Lemma srep_init h :
  (∀ x n, snext h !! x = Some n → n = None) → (∀ L n, shead h !! L = Some n → n = None) →
  srep h ((λ _, []) <$> shead h).
Proof.
  intros Hn Hl.
  assert (∀ L xs, ((λ _ : option nid, @nil nid) <$> shead h) !! L = Some xs → xs = []) as Hlk.
  { intros L xs. rewrite lookup_fmap. destruct (shead h !! L); [by intros [= <-]|done]. }
  constructor.
  - intros L xs HL. pose proof (Hlk L xs HL) as ->. rewrite lookup_fmap in HL.
    destruct (shead h !! L) as [n|] eqn:E; [|done]. rewrite (Hl L n E). split_and!; [done|constructor|done].
  - intros L K xs ys x HL _ Hx. rewrite (Hlk L xs HL) in Hx. set_solver.
  - intros x n Hx _. by eapply Hn.
  - intros L n E. rewrite lookup_fmap, E. by eexists.
Qed.

(** ** Properties *)

(** C10: every legal sequence of calls on singly linked lists that share one
    memory does what it does to disjoint sequences: each call returns the right
    node, number or flag, no loop walks past the end or for ever, no assertion
    fails, and afterwards the pointers represent the new sequences. *)
Theorem slist_refines h σ os rs σ' :
  srep h σ → Forall (there h) os → sruns σ os rs σ' → gives h (run_ops os h) rs σ'.
Proof. by apply runs_sound. Qed.

(** ** Witnesses *)

Definition demo_mem : smem :=
  mk_smem {[ 1%positive := None; 2%positive := None; 3%positive := None ]}
    {[ 1%positive := None; 2%positive := None ]}.
Definition demo_ops : list op :=
  [PushTail 1 1; PushTail 1 2; InsertAfter 1 3; MoveCount 2 1 2; Remove 2 3; PopTail 2; Count 1]%positive.

Lemma sl_demo_rep : srep demo_mem ((λ _, []) <$> shead demo_mem).
Proof.
  apply srep_init; intros k v Hv; unfold demo_mem in Hv; cbn [snext shead] in Hv;
    repeat (apply lookup_insert_Some in Hv as [[_ <-]|[_ Hv]]; [done|]);
    apply lookup_singleton_Some in Hv as [_ <-]; done.
Qed.

Lemma free_none (m : gmap lid (option nid)) x : free ((λ _, []) <$> m) x.
Proof.
  intros L xs. rewrite lookup_fmap. destruct (m !! L); [|done]. intros [= <-]. set_solver.
Qed.
Lemma free_insert σ L xs x : x ∉ xs → free σ x → free (<[L := xs]> σ) x.
Proof. intros Hx Hf K ys [[_ <-]|[_ HK]]%lookup_insert_Some; [done|by eapply Hf]. Qed.
#[local] Hint Resolve free_none free_insert : core.

Lemma slist_refines_witness :
  ∃ rs σ', rs = [RUnit; RUnit; RUnit; RNum 2; RNode None; RNode (Some 1%positive); RNum 1] ∧
    σ' !! 1%positive = Some [2%positive] ∧ gives demo_mem (run_ops demo_ops demo_mem) rs σ'.
Proof.
  eexists _, _. split; [reflexivity|]. split; cycle 1.
  - eapply (slist_refines demo_mem _ demo_ops _ _ sl_demo_rep).
    + repeat (apply Forall_cons; split; [try done; eexists; reflexivity|]). done.
    + unfold demo_ops. eapply sr_cons; [eapply ss_push_tail; [reflexivity|auto]|].
      eapply sr_cons; [eapply ss_push_tail; [reflexivity|apply free_insert; [set_solver|auto]]|].
      eapply sr_cons; [eapply (ss_insert_after _ 1%positive [] 1%positive [2%positive]);
        [reflexivity|repeat (apply free_insert; [set_solver|]); auto]|].
      eapply sr_cons; [eapply (ss_move_count _ 2%positive 1%positive [] [1; 3; 2]%positive 2); [done|lia|reflexivity..]|].
      eapply sr_cons; [eapply (ss_remove _ 2%positive [1%positive] 3%positive []); reflexivity|].
      eapply sr_cons; [eapply (ss_pop_tail _ 2%positive 1%positive []); reflexivity|].
      eapply sr_cons; [eapply (ss_count _ 1%positive [2%positive]); reflexivity|]. apply sr_nil.
  - reflexivity.
Defined.
