(* ===== verification/Hash.v ===== *)
(** The hash functions of byte strings (algorithm/tt_hash.h and .c). *)

From S2P Require Import Prelude.
From stdpp Require Import strings.

#[local] Open Scope Z_scope.

Inductive tt_hash_alg_t : Type := TT_HASH_ALG_MURMUR3 | TT_HASH_ALG_FNV1A.

#[global] Instance tt_hash_alg_eq_dec : EqDecision tt_hash_alg_t.
Proof. solve_decision. Defined.

(** The context is the seed, which [tt_hashctx_init] takes from a random number
    generator. *)
Record tt_hashctx_t : Type := mk_hashctx { seed : Z }.

Definition tt_hashctx_init (rand_u32 : Z) : tt_hashctx_t := mk_hashctx (u32 rand_u32).

(** ** MurmurHash3 *)

(** [(x << r) | (x >> (32 - r))] *)
Definition rotl32 (x r : Z) : Z := Z.lor (u32 (Z.shiftl x r)) (Z.shiftr x (32 - r)).

Definition mix_k (k : Z) : Z := u32 (rotl32 (u32 (k * 0xcc9e2d51)) 15 * 0x1b873593).
Definition mix_hash (hash k : Z) : Z := u32 (rotl32 (Z.lxor hash k) 13 * 5 + 0xe6546b64).

(** The loop over the blocks; a block is read as the processor does, least byte
    first. *)
Fixpoint murmur3_blocks (hash : Z) (key : list Z) (nblocks : nat) {struct nblocks} : Z * list Z :=
  match nblocks, key with
  | S n, b0 :: b1 :: b2 :: b3 :: key =>
      murmur3_blocks (mix_hash hash (mix_k (b0 + 2 ^ 8 * b1 + 2 ^ 16 * b2 + 2 ^ 24 * b3))) key n
  | _, _ => (hash, key)
  end.

(** The switch over the remaining bytes. *)
Definition murmur3_tail (hash : Z) (tail : list Z) : Z :=
  match tail with
  | [t0; t1; t2] =>
      Z.lxor hash (mix_k (Z.lxor (Z.lxor (Z.lxor 0 (Z.shiftl t2 16)) (Z.shiftl t1 8)) t0))
  | [t0; t1] => Z.lxor hash (mix_k (Z.lxor (Z.lxor 0 (Z.shiftl t1 8)) t0))
  | [t0] => Z.lxor hash (mix_k (Z.lxor 0 t0))
  | _ => hash
  end.

(** The final mixing. *)
Definition fmix (hash : Z) : Z :=
  let hash := Z.lxor hash (Z.shiftr hash 16) in
  let hash := u32 (hash * 0x85ebca6b) in
  let hash := Z.lxor hash (Z.shiftr hash 13) in
  let hash := u32 (hash * 0xc2b2ae35) in
  Z.lxor hash (Z.shiftr hash 16).

Definition tt_hash_murmur3 (key : list Z) (hctx : tt_hashctx_t) : Z :=
  let key_len := u32 (zlen key) in
  let '(hash, tail) := murmur3_blocks (seed hctx) key (Z.to_nat (Z.shiftr key_len 2)) in
  fmix (Z.lxor (murmur3_tail hash tail) key_len).

(** ** FNV-1a *)

Definition fnv_step (hval b : Z) : Z :=
  let hval := Z.lxor hval b in
  u32 (hval + (u32 (Z.shiftl hval 1) + u32 (Z.shiftl hval 4) + u32 (Z.shiftl hval 7) +
    u32 (Z.shiftl hval 8) + u32 (Z.shiftl hval 24))).

Definition tt_hash_fnv1a (key : list Z) (hctx : tt_hashctx_t) : Z := foldl fnv_step (seed hctx) key.

(** The function [tt_hmap_create] selects. *)
Definition hash_of (alg : tt_hash_alg_t) : list Z → tt_hashctx_t → Z :=
  match alg with TT_HASH_ALG_MURMUR3 => tt_hash_murmur3 | TT_HASH_ALG_FNV1A => tt_hash_fnv1a end.

Example murmur3_empty : tt_hash_murmur3 [] (mk_hashctx 1) = 0x514E28B7.
Proof. reflexivity. Qed.
Example murmur3_test : tt_hash_murmur3 [116; 101; 115; 116] (mk_hashctx 0) = 0xba6bd213.
Proof. reflexivity. Qed.
Example murmur3_hello : tt_hash_murmur3 (chars "Hello, world!") (mk_hashctx 0) = 0xc0363e43.
Proof. reflexivity. Qed.
Example fnv1a_foobar : tt_hash_fnv1a (chars "foobar") (mk_hashctx 0x811c9dc5) = 0xbf9cf968.
Proof. reflexivity. Qed.

(** ** Arithmetic of the mixing steps *)

Lemma u32_bits x n : 0 ≤ n → Z.testbit (u32 x) n = (n <? 32) && Z.testbit x n.
Proof.
  intros Hn. unfold u32. destruct (Z.ltb_spec n 32).
  - by rewrite Z.mod_pow2_bits_low.
  - by rewrite Z.mod_pow2_bits_high by lia.
Qed.

Lemma bits_above x n : is_u32 x → 32 ≤ n → Z.testbit x n = false.
Proof.
  intros Hx Hn. rewrite <- (u32_small x) by apply Hx. rewrite u32_bits by lia.
  by rewrite (proj2 (Z.ltb_ge n 32)).
Qed.

Lemma is_u32_bits x : 0 ≤ x → (∀ n, 32 ≤ n → Z.testbit x n = false) → is_u32 x.
Proof.
  intros H0 Hb. replace x with (u32 x); [apply u32_range|]. apply Z.bits_inj'. intros n Hn.
  rewrite u32_bits by done. destruct (Z.ltb_spec n 32); [done|]. by rewrite Hb.
Qed.

Lemma lxor_u32 x y : is_u32 x → is_u32 y → is_u32 (Z.lxor x y).
Proof.
  intros Hx Hy. apply is_u32_bits.
  - apply Z.lxor_nonneg. unfold is_u32 in *. lia.
  - intros n Hn. by rewrite Z.lxor_spec, !bits_above.
Qed.

Lemma shiftr_u32 x r : is_u32 x → 0 ≤ r → is_u32 (Z.shiftr x r).
Proof.
  intros Hx Hr. apply is_u32_bits; [apply Z.shiftr_nonneg; unfold is_u32 in *; lia|].
  intros n Hn. rewrite Z.shiftr_spec, bits_above by (done || lia). done.
Qed.

(** Multiplying by a unit modulo 2 ^ 32 can be undone. *)
Lemma mul_inv x c c' : is_u32 x → u32 (c * c') = 1 → u32 (u32 (x * c) * c') = x.
Proof.
  intros Hx Hc. unfold u32 in *. rewrite Z.mul_mod_idemp_l, <- Z.mul_assoc by done.
  rewrite <- Z.mul_mod_idemp_r, Hc, Z.mul_1_r by done. by apply Z.mod_small.
Qed.

Lemma lxor_cancel x y : Z.lxor (Z.lxor x y) y = x.
Proof. by rewrite Z.lxor_assoc, Z.lxor_nilpotent, Z.lxor_0_r. Qed.
Lemma lxor_cancel_l x y : Z.lxor x (Z.lxor x y) = y.
Proof. by rewrite <- Z.lxor_assoc, Z.lxor_nilpotent. Qed.

(** [x ^ (x >> r)] can be undone. *)
Lemma xorshift_inv2 x r : is_u32 x → 16 ≤ r →
  let y := Z.lxor x (Z.shiftr x r) in Z.lxor y (Z.shiftr y r) = x.
Proof.
  intros Hx Hr. cbv zeta. apply Z.bits_inj'. intros n Hn.
  rewrite !Z.lxor_spec, !Z.shiftr_spec, !Z.lxor_spec, !Z.shiftr_spec by lia.
  rewrite (bits_above x (n + r + r)) by (done || lia).
  by destruct (Z.testbit x n), (Z.testbit x (n + r)).
Qed.

Lemma xorshift_inv3 x r : is_u32 x → 11 ≤ r →
  let y := Z.lxor x (Z.shiftr x r) in Z.lxor (Z.lxor y (Z.shiftr y r)) (Z.shiftr y (2 * r)) = x.
Proof.
  intros Hx Hr. cbv zeta. apply Z.bits_inj'. intros n Hn.
  rewrite !Z.lxor_spec, !Z.shiftr_spec, !Z.lxor_spec, !Z.shiftr_spec by lia.
  replace (n + 2 * r) with (n + r + r) by lia.
  rewrite (bits_above x (n + r + r + r)) by (done || lia).
  by destruct (Z.testbit x n), (Z.testbit x (n + r)), (Z.testbit x (n + r + r)).
Qed.

Lemma rotl32_bits x r n : is_u32 x → 0 < r < 32 → 0 ≤ n →
  Z.testbit (rotl32 x r) n = (n <? 32) && Z.testbit x ((n - r) mod 32).
Proof.
  intros Hx Hr Hn. unfold rotl32. rewrite Z.lor_spec, u32_bits, Z.shiftr_spec, Z.shiftl_spec by lia.
  destruct (Z.ltb_spec n 32); cbn [andb]; [|by rewrite bits_above by (done || lia)].
  destruct (Z.le_gt_cases r n).
  - rewrite Z.mod_small by lia. rewrite (bits_above x (n + (32 - r))) by (done || lia). by rewrite orb_false_r.
  - rewrite Z.testbit_neg_r by lia. cbn [orb]. f_equal.
    symmetry. rewrite <- (Z.mod_small (n + (32 - r)) 32) by lia. rewrite <- Z_mod_plus_full with (b := 1).
    f_equal. lia.
Qed.

Lemma rotl32_u32 x r : is_u32 x → 0 < r < 32 → is_u32 (rotl32 x r).
Proof.
  intros Hx Hr. apply is_u32_bits.
  - unfold rotl32. apply Z.lor_nonneg. split; [apply u32_range|].
    apply Z.shiftr_nonneg. unfold is_u32 in *. lia.
  - intros n Hn. rewrite rotl32_bits by (done || lia). by rewrite (proj2 (Z.ltb_ge n 32)).
Qed.

Lemma rotl32_inv x r : is_u32 x → 0 < r < 32 → rotl32 (rotl32 x r) (32 - r) = x.
Proof.
  intros Hx Hr. apply Z.bits_inj'. intros n Hn.
  rewrite !rotl32_bits by (try apply rotl32_u32; done || lia || (apply Z.mod_pos_bound; lia)).
  destruct (Z.ltb_spec n 32); cbn [andb]; [|by rewrite bits_above by (done || lia)].
  rewrite (proj2 (Z.ltb_lt _ 32)) by (apply Z.mod_pos_bound; lia). cbn [andb]. f_equal.
  rewrite Zminus_mod_idemp_l. rewrite <- (Z.mod_small n 32) at 2 by lia.
  rewrite <- Z_mod_plus_full with (b := 1). f_equal. lia.
Qed.

(** ** The steps are bijections *)

(** A map of 32-bit values with an inverse. *)
Definition reversible (f : Z → Z) : Prop :=
  (∀ x, is_u32 x → is_u32 (f x)) ∧ ∃ g, ∀ x, is_u32 x → g (f x) = x.

Lemma reversible_inj f x y : reversible f → is_u32 x → is_u32 y → f x = f y → x = y.
Proof. intros [_ [g Hg]] Hx Hy E. rewrite <- (Hg x Hx), <- (Hg y Hy). by rewrite E. Qed.

Lemma reversible_comp f f' : reversible f → reversible f' → reversible (λ x, f' (f x)).
Proof.
  intros [Hf [g Hg]] [Hf' [g' Hg']]. split; [auto|]. exists (λ x, g (g' x)). intros x Hx.
  by rewrite Hg', Hg by auto.
Qed.

Lemma reversible_ext f f' : (∀ x, f x = f' x) → reversible f → reversible f'.
Proof.
  intros E [Hf [g Hg]]. split; [intros x Hx; rewrite <- E; auto|]. exists g. intros x Hx. rewrite <- E. auto.
Qed.

Lemma reversible_id : reversible (λ x, x).
Proof. split; [auto|]. by exists (λ x, x). Qed.

Lemma reversible_lxor k : is_u32 k → reversible (λ x, Z.lxor x k).
Proof.
  intros Hk. split; [intros; by apply lxor_u32|]. exists (λ x, Z.lxor x k). intros. apply lxor_cancel.
Qed.
Lemma reversible_lxor_l k : is_u32 k → reversible (λ x, Z.lxor k x).
Proof.
  intros Hk. split; [intros; by apply lxor_u32|]. exists (λ x, Z.lxor k x). intros. apply lxor_cancel_l.
Qed.

Lemma reversible_mul c c' : u32 (c * c') = 1 → reversible (λ x, u32 (x * c)).
Proof.
  intros Hc. split; [intros; apply u32_range|]. exists (λ x, u32 (x * c')). intros. by apply mul_inv.
Qed.

Lemma reversible_add c : reversible (λ x, u32 (x + c)).
Proof.
  split; [intros; apply u32_range|]. exists (λ x, u32 (x - c)). intros x Hx.
  unfold Z.sub. rewrite u32_add_l. replace (x + c + - c) with x by lia. by apply u32_small.
Qed.

Lemma reversible_rotl r : 0 < r < 32 → reversible (λ x, rotl32 x r).
Proof.
  intros Hr. split; [intros; by apply rotl32_u32|]. exists (λ x, rotl32 x (32 - r)). intros. by apply rotl32_inv.
Qed.

Lemma reversible_xorshift2 r : 16 ≤ r → reversible (λ x, Z.lxor x (Z.shiftr x r)).
Proof.
  intros Hr. split; [intros; apply lxor_u32, shiftr_u32; by try lia|].
  exists (λ y, Z.lxor y (Z.shiftr y r)). intros x Hx. exact (xorshift_inv2 x r Hx Hr).
Qed.
Lemma reversible_xorshift3 r : 11 ≤ r → reversible (λ x, Z.lxor x (Z.shiftr x r)).
Proof.
  intros Hr. split; [intros; apply lxor_u32, shiftr_u32; by try lia|].
  exists (λ y, Z.lxor (Z.lxor y (Z.shiftr y r)) (Z.shiftr y (2 * r))). intros x Hx.
  exact (xorshift_inv3 x r Hx Hr).
Qed.

Create HintDb reversible.
#[export] Hint Resolve reversible_id reversible_lxor reversible_lxor_l reversible_add : reversible.

Lemma reversible_mix_k : reversible mix_k.
Proof.
  apply (reversible_comp (λ k, u32 (k * 0xcc9e2d51)) (λ k, u32 (rotl32 k 15 * 0x1b873593))).
  - by apply (reversible_mul _ 0xdee13bb1).
  - apply (reversible_comp (λ k, rotl32 k 15) (λ k, u32 (k * 0x1b873593))); [by apply reversible_rotl|].
    by apply (reversible_mul _ 0x56ed309b).
Qed.

Lemma reversible_mix_out : reversible (λ x, u32 (rotl32 x 13 * 5 + 0xe6546b64)).
Proof.
  apply (reversible_comp (λ x, rotl32 x 13) (λ x, u32 (x * 5 + 0xe6546b64))); [by apply reversible_rotl|].
  apply (reversible_ext (λ x, u32 (u32 (x * 5) + 0xe6546b64))); [intros x; by rewrite u32_add_l|].
  apply (reversible_comp (λ x, u32 (x * 5)) (λ x, u32 (x + 0xe6546b64))); [|apply reversible_add].
  by apply (reversible_mul _ 0xcccccccd).
Qed.

Lemma reversible_mix_hash k : is_u32 k → reversible (λ hash, mix_hash hash k).
Proof.
  intros Hk. exact (reversible_comp (λ h, Z.lxor h k) _ (reversible_lxor k Hk) reversible_mix_out).
Qed.
Lemma reversible_mix_hash_r hash : is_u32 hash → reversible (λ k, mix_hash hash k).
Proof.
  intros Hh. exact (reversible_comp (λ k, Z.lxor hash k) _ (reversible_lxor_l hash Hh) reversible_mix_out).
Qed.

Lemma reversible_fmix : reversible fmix.
Proof.
  apply (reversible_comp (λ h, Z.lxor h (Z.shiftr h 16)) (λ h,
    let h := u32 (h * 0x85ebca6b) in let h := Z.lxor h (Z.shiftr h 13) in
    let h := u32 (h * 0xc2b2ae35) in Z.lxor h (Z.shiftr h 16))); [by apply reversible_xorshift2|].
  apply (reversible_comp (λ h, u32 (h * 0x85ebca6b)) (λ h, let h := Z.lxor h (Z.shiftr h 13) in
    let h := u32 (h * 0xc2b2ae35) in Z.lxor h (Z.shiftr h 16))); [by apply (reversible_mul _ 0xa5cb9243)|].
  apply (reversible_comp (λ h, Z.lxor h (Z.shiftr h 13)) (λ h,
    let h := u32 (h * 0xc2b2ae35) in Z.lxor h (Z.shiftr h 16))); [by apply reversible_xorshift3|].
  apply (reversible_comp (λ h, u32 (h * 0xc2b2ae35)) (λ h, Z.lxor h (Z.shiftr h 16)));
    [by apply (reversible_mul _ 0x7ed1b41d)|by apply reversible_xorshift2].
Qed.

(** The shifts and additions of FNV-1a multiply by the FNV prime. *)
Lemma fnv_step_mul hval b : fnv_step hval b = u32 (Z.lxor hval b * 0x01000193).
Proof.
  unfold fnv_step. set (x := Z.lxor hval b). rewrite !Z.shiftl_mul_pow2 by lia.
  unfold u32. Z.to_euclidean_division_equations. lia.
Qed.

Lemma reversible_fnv_step b : is_u32 b → reversible (λ hval, fnv_step hval b).
Proof.
  intros Hb. apply (reversible_ext (λ h, u32 (Z.lxor h b * 0x01000193))); [intros; by rewrite fnv_step_mul|].
  apply (reversible_comp (λ h, Z.lxor h b) (λ h, u32 (h * 0x01000193))); [by apply reversible_lxor|].
  by apply (reversible_mul _ 0x359c449b).
Qed.
Lemma reversible_fnv_step_r hval : is_u32 hval → reversible (λ b, fnv_step hval b).
Proof.
  intros Hh. apply (reversible_ext (λ b, u32 (Z.lxor hval b * 0x01000193))); [intros; by rewrite fnv_step_mul|].
  apply (reversible_comp (λ b, Z.lxor hval b) (λ h, u32 (h * 0x01000193))); [by apply reversible_lxor_l|].
  by apply (reversible_mul _ 0x359c449b).
Qed.

(** ** Bytes of a block *)

(** The number with these bytes, least first. *)
Definition le_val (bs : list Z) : Z := foldr (λ b v, b + 2 ^ 8 * v) 0 bs.

Lemma le_val_bound bs : Forall is_u8 bs → 0 ≤ le_val bs < 2 ^ (8 * zlen bs).
Proof.
  induction 1 as [|b bs Hb _ IH]; [done|]. rewrite zlen_cons.
  replace (8 * (1 + zlen bs)) with (8 + 8 * zlen bs) by lia. rewrite Z.pow_add_r by (pose proof (zlen_nonneg bs); lia).
  simpl. unfold is_u8 in Hb. lia.
Qed.

Lemma le_val_u32 bs : Forall is_u8 bs → (length bs ≤ 4)%nat → is_u32 (le_val bs).
Proof.
  intros Hb Hl. pose proof (le_val_bound bs Hb) as Hv. unfold is_u32, zlen in *.
  pose proof (Z.pow_le_mono_r 2 (8 * Z.of_nat (length bs)) 32). lia.
Qed.

Lemma le_val_inj bs : ∀ bs', Forall is_u8 bs → Forall is_u8 bs' → length bs = length bs' →
  le_val bs = le_val bs' → bs = bs'.
Proof.
  induction bs as [|b bs IH]; intros [|b' bs'] H H' Hl E; try done.
  apply Forall_cons in H as [Hb H]. apply Forall_cons in H' as [Hb' H']. simpl in *. unfold is_u8 in *.
  assert (b = b') as -> by lia. f_equal. apply IH; [done|done|lia|lia].
Qed.

Lemma lxor_shiftl a b k : 0 ≤ k → 0 ≤ b < 2 ^ k → Z.lxor (Z.shiftl a k) b = b + 2 ^ k * a.
Proof.
  intros Hk Hb. assert (Z.land (Z.shiftl a k) b = 0) as E.
  { apply Z.bits_inj'. intros n Hn. rewrite Z.land_spec, Z.bits_0, Z.shiftl_spec by lia.
    destruct (Z.le_gt_cases k n); [|by rewrite Z.testbit_neg_r by lia].
    rewrite <- (Z.mod_small b (2 ^ k)), Z.mod_pow2_bits_high by lia. apply andb_false_r. }
  rewrite <- Z.add_nocarry_lxor, Z.shiftl_mul_pow2 by done. lia.
Qed.

Lemma murmur3_tail_val hash t : Forall is_u8 t → (length t ≤ 3)%nat →
  murmur3_tail hash t = if bool_decide (t = []) then hash else Z.lxor hash (mix_k (le_val t)).
Proof.
  intros Ht Hl. destruct t as [|t0 [|t1 [|t2 [|]]]]; simpl in Hl; try lia; cbn [murmur3_tail];
    [done|rewrite bool_decide_false by done; cbn [le_val foldr]..]; decompose_Forall; unfold is_u8 in *.
  - rewrite Z.lxor_0_l. do 2 f_equal. lia.
  - rewrite Z.lxor_0_l, lxor_shiftl by lia. do 2 f_equal. lia.
  - rewrite Z.lxor_0_l. do 2 f_equal. replace 16 with (8 + 8) by done.
    rewrite <- Z.shiftl_shiftl, <- Z.shiftl_lxor, !lxor_shiftl by lia. lia.
Qed.

(** ** Folding over a key *)

Lemma murmur3_blocks_app n : ∀ h p k m, length p = (4 * n)%nat →
  murmur3_blocks h (p ++ k) (n + m) = murmur3_blocks (murmur3_blocks h p n).1 k m.
Proof.
  induction n as [|n IH]; intros h p k m Hl.
  - destruct p; [done|simpl in Hl; lia].
  - destruct p as [|b0 [|b1 [|b2 [|b3 p]]]]; simpl in Hl; try lia. cbn [app Nat.add murmur3_blocks].
    apply IH. lia.
Qed.

Lemma murmur3_blocks_one h b0 b1 b2 b3 k n :
  murmur3_blocks h ([b0; b1; b2; b3] ++ k) (S n) =
  murmur3_blocks (mix_hash h (mix_k (le_val [b0; b1; b2; b3]))) k n.
Proof.
  cbn [app murmur3_blocks]. replace (b0 + _ + _ + _) with (le_val [b0; b1; b2; b3]); [done|].
  unfold le_val. cbn [foldr]. lia.
Qed.

Lemma murmur3_blocks_rest n : ∀ h k, (4 * n ≤ length k)%nat → (murmur3_blocks h k n).2 = drop (4 * n) k.
Proof.
  induction n as [|n IH]; intros h k Hl; [done|].
  destruct k as [|b0 [|b1 [|b2 [|b3 k]]]]; simpl in Hl; try lia. cbn [murmur3_blocks].
  rewrite IH by lia. replace (4 * S n)%nat with (S (S (S (S (4 * n))))) by lia. done.
Qed.

Lemma reversible_blocks n : ∀ k, Forall is_u8 k → reversible (λ h, (murmur3_blocks h k n).1).
Proof.
  induction n as [|n IH]; intros k Hk; [apply reversible_id|].
  destruct k as [|b0 [|b1 [|b2 [|b3 k]]]]; try apply reversible_id.
  cbn [murmur3_blocks]. set (v := b0 + _ + _ + _).
  assert (v = le_val [b0; b1; b2; b3]) as Ev by (unfold v, le_val; cbn [foldr]; lia).
  assert (Forall is_u8 [b0; b1; b2; b3] ∧ Forall is_u8 k) as [Hb Hk'].
  { rewrite <- Forall_app. done. }
  apply (reversible_comp (λ h, mix_hash h (mix_k v)) (λ h, (murmur3_blocks h k n).1)); [|by apply IH].
  apply reversible_mix_hash, reversible_mix_k. rewrite Ev. by apply le_val_u32.
Qed.

Lemma reversible_tail t : Forall is_u8 t → (length t ≤ 3)%nat → reversible (λ h, murmur3_tail h t).
Proof.
  intros Ht Hl. eapply reversible_ext; [intros; symmetry; by apply murmur3_tail_val|].
  destruct (bool_decide (t = [])); [apply reversible_id|].
  apply reversible_lxor, reversible_mix_k, le_val_u32; [done|lia].
Qed.

Lemma reversible_foldl k : Forall is_u8 k → reversible (λ h, foldl fnv_step h k).
Proof.
  induction 1 as [|b k Hb _ IH]; [apply reversible_id|]. simpl.
  apply (reversible_comp (λ h, fnv_step h b) (λ h, foldl fnv_step h k)); [|done].
  apply reversible_fnv_step. unfold is_u8, is_u32 in *. lia.
Qed.

(** ** Whole keys *)

Lemma murmur3_split key ctx n : zlen key < 2 ^ 32 → (4 * n ≤ length key < 4 * n + 4)%nat →
  tt_hash_murmur3 key ctx =
    fmix (Z.lxor (murmur3_tail (murmur3_blocks (seed ctx) key n).1 (drop (4 * n) key)) (zlen key)).
Proof.
  intros Hl Hn. unfold tt_hash_murmur3. rewrite u32_small by (pose proof (zlen_nonneg key); lia).
  rewrite Z.shiftr_div_pow2 by lia.
  replace (Z.to_nat (zlen key / 2 ^ 2)) with n.
  - rewrite (surjective_pairing (murmur3_blocks (seed ctx) key n)). by rewrite murmur3_blocks_rest by lia.
  - unfold zlen. Z.to_euclidean_division_equations. lia.
Qed.

Lemma hash_seed_reversible alg key : Forall is_u8 key → zlen key < 2 ^ 32 →
  reversible (λ s, hash_of alg key (mk_hashctx s)).
Proof.
  intros Hk Hl. destruct alg; [|by apply reversible_foldl]. cbn [hash_of].
  set (n := (length key / 4)%nat).
  assert (4 * n ≤ length key < 4 * n + 4)%nat as Hn.
  { unfold n. pose proof (Nat.div_mod_eq (length key) 4). pose proof (Nat.mod_upper_bound (length key) 4). lia. }
  eapply reversible_ext; [intros s; symmetry; by apply (murmur3_split key _ n)|]. cbn [seed].
  apply (reversible_comp (λ s, (murmur3_blocks s key n).1)
    (λ h, fmix (Z.lxor (murmur3_tail h (drop (4 * n) key)) (zlen key)))); [by apply reversible_blocks|].
  apply (reversible_comp (λ h, murmur3_tail h (drop (4 * n) key)) (λ h, fmix (Z.lxor h (zlen key)))).
  { apply reversible_tail; [by apply Forall_drop|]. rewrite length_drop. lia. }
  apply (reversible_comp (λ h, Z.lxor h (zlen key)) fmix); [|apply reversible_fmix].
  apply reversible_lxor. pose proof (zlen_nonneg key). split; lia.
Qed.

(** A place at which MurmurHash3 reads a whole group of bytes: a block of four,
    or the rest of less than four. *)
Definition group_at (alg : tt_hash_alg_t) (p d s : list Z) : Prop :=
  match alg with
  | TT_HASH_ALG_MURMUR3 => (∃ n, length p = 4 * n)%nat ∧ (length d = 4 ∨ (length d < 4 ∧ s = []))%nat
  | TT_HASH_ALG_FNV1A => length d = 1%nat
  end.

(** The rest of the function after the block has been mixed in. *)
Lemma murmur3_after n m p b0 b1 b2 b3 s ctx : length p = (4 * n)%nat → (4 * m ≤ length s < 4 * m + 4)%nat →
  zlen (p ++ [b0; b1; b2; b3] ++ s) < 2 ^ 32 →
  tt_hash_murmur3 (p ++ [b0; b1; b2; b3] ++ s) ctx =
    fmix (Z.lxor (murmur3_tail (murmur3_blocks (mix_hash (murmur3_blocks (seed ctx) p n).1
      (mix_k (le_val [b0; b1; b2; b3]))) s m).1 (drop (4 * m) s)) (4 * Z.of_nat n + 4 + zlen s)).
Proof.
  intros Hp Hs Hl. rewrite (murmur3_split _ _ (n + S m)).
  - rewrite murmur3_blocks_app, murmur3_blocks_one by done.
    replace (drop (4 * (n + S m)) (p ++ [b0; b1; b2; b3] ++ s)) with (drop (4 * m) s).
    + do 2 f_equal. rewrite !zlen_app. unfold zlen. simpl. lia.
    + rewrite drop_app, (drop_ge p) by lia. cbn [app].
      replace (4 * (n + S m) - length p)%nat with (S (S (S (S (4 * m))))) by lia. done.
  - done.
  - rewrite !length_app. simpl. lia.
Qed.

Lemma div4 (n : nat) : ∃ m, (4 * m ≤ n < 4 * m + 4)%nat.
Proof.
  exists (n / 4)%nat. pose proof (Nat.div_mod_eq n 4). pose proof (Nat.mod_upper_bound n 4). lia.
Qed.

Lemma reversible_after h t rest len m : is_u32 h → is_u32 len → Forall is_u8 t → Forall is_u8 rest →
  (length rest ≤ 3)%nat →
  reversible (λ v, fmix (Z.lxor (murmur3_tail (murmur3_blocks (mix_hash h (mix_k v)) t m).1 rest) len)).
Proof.
  intros Hh Hlen Ht Hr Hl.
  apply (reversible_comp mix_k (λ k, fmix (Z.lxor (murmur3_tail (murmur3_blocks (mix_hash h k) t m).1 rest) len)));
    [apply reversible_mix_k|].
  apply (reversible_comp (mix_hash h) (λ h, fmix (Z.lxor (murmur3_tail (murmur3_blocks h t m).1 rest) len)));
    [by apply reversible_mix_hash_r|].
  apply (reversible_comp (λ h, (murmur3_blocks h t m).1) (λ h, fmix (Z.lxor (murmur3_tail h rest) len)));
    [by apply reversible_blocks|].
  apply (reversible_comp (λ h, murmur3_tail h rest) (λ h, fmix (Z.lxor h len))); [by apply reversible_tail|].
  exact (reversible_comp (λ h, Z.lxor h len) fmix (reversible_lxor len Hlen) reversible_fmix).
Qed.

Lemma reversible_last h len : is_u32 h → is_u32 len → reversible (λ v, fmix (Z.lxor (Z.lxor h (mix_k v)) len)).
Proof.
  intros Hh Hlen. apply (reversible_comp mix_k (λ k, fmix (Z.lxor (Z.lxor h k) len))); [apply reversible_mix_k|].
  apply (reversible_comp (Z.lxor h) (λ h, fmix (Z.lxor h len))); [by apply reversible_lxor_l|].
  exact (reversible_comp (λ h, Z.lxor h len) fmix (reversible_lxor len Hlen) reversible_fmix).
Qed.

(** Changing a whole block, or the rest, of the key. *)
Lemma murmur3_block_change p b b' s ctx n :
  Forall is_u8 p → Forall is_u8 b → Forall is_u8 b' → Forall is_u8 s → length p = (4 * n)%nat →
  length b = 4%nat → length b' = 4%nat → is_u32 (seed ctx) → zlen (p ++ b ++ s) < 2 ^ 32 →
  tt_hash_murmur3 (p ++ b ++ s) ctx = tt_hash_murmur3 (p ++ b' ++ s) ctx → b = b'.
Proof.
  intros Hp Hb Hb' Hs Hpl Hbl Hbl' Hseed Hl E. apply le_val_inj; [done|done|by rewrite Hbl|].
  destruct (div4 (length s)) as [m Hm].
  assert (zlen (p ++ b' ++ s) < 2 ^ 32) as Hl' by (rewrite !zlen_app in *; unfold zlen in *; lia).
  assert (is_u32 (4 * Z.of_nat n + 4 + zlen s)) as Hlen.
  { rewrite !zlen_app in Hl. unfold is_u32, zlen in *. lia. }
  destruct b as [|b0 [|b1 [|b2 [|b3 [|]]]]], b' as [|b0' [|b1' [|b2' [|b3' [|]]]]]; try done.
  rewrite !(murmur3_after n m) in E by done.
  eapply reversible_inj; [eapply reversible_after with (t := s) (rest := drop (4 * m) s)| | |exact E];
    [|done|done|by apply Forall_drop|rewrite length_drop; lia|by apply le_val_u32..].
  by apply (reversible_blocks n p Hp).
Qed.

Lemma murmur3_rest_change p t t' ctx n :
  Forall is_u8 p → Forall is_u8 t → Forall is_u8 t' → length p = (4 * n)%nat →
  (length t < 4)%nat → length t' = length t → is_u32 (seed ctx) → zlen (p ++ t) < 2 ^ 32 →
  tt_hash_murmur3 (p ++ t) ctx = tt_hash_murmur3 (p ++ t') ctx → t = t'.
Proof.
  intros Hp Ht Ht' Hpl Htl Htl' Hseed Hl E.
  assert (∀ u, Forall is_u8 u → length u = length t → tt_hash_murmur3 (p ++ u) ctx =
    fmix (Z.lxor (murmur3_tail (murmur3_blocks (seed ctx) p n).1 u) (zlen (p ++ t)))) as Hh.
  { intros u Hu Hul. rewrite (murmur3_split _ _ n) by (rewrite ?zlen_app, ?length_app in *; unfold zlen in *; lia).
    rewrite drop_app, (drop_ge p), Hpl, Nat.sub_diag, drop_0 by lia. cbn [app].
    rewrite <- (Nat.add_0_r n) at 1. rewrite murmur3_blocks_app by done. do 2 f_equal.
    rewrite !zlen_app. unfold zlen. lia. }
  rewrite (Hh t), (Hh t'), !murmur3_tail_val in E by (done || lia).
  destruct t as [|t0 t]; [by destruct t'|]. destruct t' as [|t0' t']; [done|].
  rewrite !bool_decide_false in E by done. apply le_val_inj; [done..|].
  eapply reversible_inj; [eapply reversible_last| | |exact E]; [..|apply le_val_u32; [done|lia]
    |apply le_val_u32; [done|lia]].
  - by apply (reversible_blocks n p Hp).
  - split; [apply zlen_nonneg|done].
Qed.

(** ** Properties *)


