(* ===== verification/HashMap.v ===== *)
(** The intrusive hash map (algorithm/tt_hashmap.h and .c) over singly linked
    lists: nodes, keys and list heads live in the caller's memory. *)

From S2P Require Import Prelude Hash SList.
From stdpp Require Import gmap.

#[local] Open Scope Z_scope.

(** ** Memory *)

Notation kid := positive (only parsing).

(** The fields [key] and [key_len] of a [tt_hnode_t]; its [snode] is in the
    memory of the lists, at the same address. *)
Record hkey_t : Type := mk_hkey { key : option kid; key_len : Z }.

Record tt_hashmap_t : Type := mk_hashmap {
  sll : list lid;
  hash : tt_hash_alg_t;
  hashctx : tt_hashctx_t;
  sll_num : Z;
  count : Z;
}.

(** The lists, the key fields, the bytes keys point at, and one map. *)
Record hmem : Type := mk_hmem {
  sm : smem;
  hkeys : gmap nid hkey_t;
  kmem : gmap kid (list Z);
  hmap : tt_hashmap_t;
}.

Definition set_sm (m : smem) (h : hmem) : hmem := mk_hmem m (hkeys h) (kmem h) (hmap h).
Definition set_hkeys (k : gmap nid hkey_t) (h : hmem) : hmem := mk_hmem (sm h) k (kmem h) (hmap h).
Definition set_hmap (p : tt_hashmap_t) (h : hmem) : hmem := mk_hmem (sm h) (hkeys h) (kmem h) p.
Definition set_count (c : Z) (p : tt_hashmap_t) : tt_hashmap_t :=
  mk_hashmap (sll p) (hash p) (hashctx p) (sll_num p) c.

(** An operation of the lists. *)
Definition on_sm {A} (m : M smem A) : M hmem A := zoom sm set_sm m.

(** The [len] bytes at address [k]. *)
Definition bytes_at (km : gmap kid (list Z)) (k : kid) (len : Z) : option (list Z) :=
  bs ← km !! k; if len <=? zlen bs then Some (take (Z.to_nat len) bs) else None.
Definition read_key (k : kid) (len : Z) : M hmem (list Z) := λ h,
  match bytes_at (kmem h) k len with Some bs => Ret (TT_SUCCESS bs, h) | None => Undef end.
Definition hnode (x : nid) : M hmem hkey_t := λ h,
  match hkeys h !! x with Some v => Ret (TT_SUCCESS v, h) | None => Undef end.
Definition set_hnode (x : nid) (v : hkey_t) : M hmem unit := λ h,
  match hkeys h !! x with
  | Some _ => Ret (TT_SUCCESS tt, set_hkeys (<[x := v]> (hkeys h)) h)
  | None => Undef
  end.

(** [&hmap->sll[i]] *)
Definition slot (i : Z) : M hmem lid := λ h,
  match sll (hmap h) !! Z.to_nat i with Some L => Ret (TT_SUCCESS L, h) | None => Undef end.

(** ** Operations *)

(** [__KEQ(hn, k, klen)] *)
Definition keq (x : nid) (k : kid) (klen : Z) : M hmem bool :=
  v ← hnode x;
  if klen =? key_len v then
    a ← read_key k klen;
    match key v with
    | Some kx => b ← read_key kx klen; mret (bool_decide (a = b))
    | None => undef
    end
  else mret false.

Definition __find_sll (k : kid) (klen : Z) : M hmem lid :=
  bs ← read_key k klen;
  p ← gets hmap;
  (if sll_num p =? 0 then undef else mret tt);;
  slot (hash_of (hash p) bs (hashctx p) mod sll_num p).

Definition tt_hmap_attr_default : tt_hash_alg_t := TT_HASH_ALG_MURMUR3.

(** [for (i = 0; i < slot_num; ++i) tt_slist_init(&hmap->sll[i]);] *)
Fixpoint init_slots (Ls : list lid) : M hmem unit :=
  match Ls with [] => mret tt | L :: Ls => on_sm (tt_slist_init L);; init_slots Ls end.

(** [mem] is what [tt_malloc] gives: nothing, or the addresses of the list
    objects of the array; [rand] is the random number of the seed. *)
Definition tt_hmap_create (mem : option (list lid)) (rand : Z) (slot_num : Z)
    (attr : option tt_hash_alg_t) : M hmem unit :=
  assert_always (negb (slot_num =? 0));;
  let alg := match attr with None => tt_hmap_attr_default | Some a => a end in
  match mem with
  | None => fail TT_FAIL
  | Some Ls =>
      init_slots Ls;;
      modify (set_hmap (mk_hashmap Ls alg (tt_hashctx_init rand) slot_num 0))
  end.

(** [while ((sn = tt_slist_pop_head(..)) != NULL) hnode_destroy(..);] for one slot;
    the result is the nodes given to the callback, in order. *)
Fixpoint drain (L : lid) (fuel : nat) : M hmem (list nid) :=
  match fuel with
  | O => λ _, Diverge
  | S fuel =>
      sn ← on_sm (tt_slist_pop_head L);
      match sn with
      | None => mret []
      | Some x => xs ← drain L fuel; mret (x :: xs)
      end
  end.
Definition bounded {A} (loop : nat → M hmem A) : M hmem A := λ h, loop (S (size (snext (sm h)))) h.
#[global] Arguments bounded : simpl never.

(** [n] slots are left from index [i] on. *)
Fixpoint drain_slots (n : nat) (i : Z) : M hmem (list nid) :=
  match n with
  | O => mret []
  | S n => L ← slot i; xs ← bounded (drain L); ys ← drain_slots n (i + 1); mret (xs ++ ys)
  end.
Definition tt_hmap_clear : M hmem (list nid) :=
  p ← gets hmap;
  xs ← drain_slots (Z.to_nat (sll_num p)) 0;
  modify (λ h, set_hmap (set_count 0 (hmap h)) h);;
  mret xs.

(** [tt_free(hmap->sll)] gives the array of lists back. *)
Definition free_slots : M hmem unit :=
  modify (λ h, set_sm (mk_smem (snext (sm h)) (foldr delete (shead (sm h)) (sll (hmap h)))) h).
Definition tt_hmap_destroy : M hmem (list nid) := xs ← tt_hmap_clear; free_slots;; mret xs.

Definition tt_hmap_count : M hmem Z := p ← gets hmap; mret (count p).
Definition tt_hmap_empty : M hmem bool := p ← gets hmap; mret (count p =? 0).

Fixpoint find_loop (k : kid) (klen : Z) (sn : option nid) (fuel : nat) : M hmem (option nid) :=
  match fuel with
  | O => λ _, Diverge
  | S fuel =>
      match sn with
      | None => mret None
      | Some x =>
          b ← keq x k klen;
          if b : bool then mret (Some x) else n ← on_sm (get_next x); find_loop k klen n fuel
      end
  end.
Definition tt_hmap_find (k : kid) (klen : Z) : M hmem (option nid) :=
  L ← __find_sll k klen;
  sn ← on_sm (tt_slist_head L);
  bounded (find_loop k klen sn).

Definition tt_hmap_contain_key (k : kid) (klen : Z) : M hmem bool :=
  r ← tt_hmap_find k klen; mret (bool_decide (r ≠ None)).

(** Looking for the node itself in one slot, and in all. *)
Fixpoint seek (x : nid) (sn : option nid) (fuel : nat) : M hmem bool :=
  match fuel with
  | O => λ _, Diverge
  | S fuel =>
      match sn with
      | None => mret false
      | Some y => if bool_decide (x = y) then mret true else n ← on_sm (get_next y); seek x n fuel
      end
  end.
Fixpoint seek_slots (x : nid) (n : nat) (i : Z) : M hmem bool :=
  match n with
  | O => mret false
  | S n =>
      L ← slot i;
      sn ← on_sm (tt_slist_head L);
      b ← bounded (seek x sn);
      if b : bool then mret true else seek_slots x n (i + 1)
  end.
Definition tt_hmap_contain (x : nid) : M hmem bool :=
  p ← gets hmap; seek_slots x (Z.to_nat (sll_num p)) 0.

Definition tt_hmap_add (k : kid) (klen : Z) (x : nid) : M hmem unit :=
  L ← __find_sll k klen;
  sn ← on_sm (tt_slist_head L);
  r ← bounded (find_loop k klen sn);
  match r with
  | Some _ => fail TT_FAIL
  | None =>
      set_hnode x (mk_hkey (Some k) klen);;
      on_sm (tt_slist_push_head L x);;
      modify (λ h, set_hmap (set_count (u32 (count (hmap h) + 1)) (hmap h)) h)
  end.

Definition tt_hmap_remove (x : nid) : M hmem unit :=
  v ← hnode x;
  match key v with
  | None => undef
  | Some k =>
      L ← __find_sll k (key_len v);
      on_sm (tt_slist_remove L x);;
      modify (λ h, set_hmap (set_count (u32 (count (hmap h) - 1)) (hmap h)) h)
  end.

Fixpoint remove_loop (L : lid) (k : kid) (klen : Z) (prev sn : option nid) (fuel : nat) : M hmem bool :=
  match fuel with
  | O => λ _, Diverge
  | S fuel =>
      match sn with
      | None => mret false
      | Some x =>
          b ← keq x k klen;
          if b : bool then
            on_sm (tt_slist_fast_remove L prev x);;
            modify (λ h, set_hmap (set_count (u32 (count (hmap h) - 1)) (hmap h)) h);;
            mret true
          else n ← on_sm (get_next x); remove_loop L k klen (Some x) n fuel
      end
  end.
Definition tt_hmap_remove_key (k : kid) (klen : Z) : M hmem bool :=
  L ← __find_sll k klen;
  sn ← on_sm (tt_slist_head L);
  bounded (remove_loop L k klen None sn).

(** ** Visiting every node *)

(** The callback gets the key, the node and the state behind its parameter, and
    says whether to go on; it does not change the map. *)
Section foreach.
Context {P : Type} (action : option kid → Z → nid → P → bool * P).

Fixpoint visit (sn : option nid) (param : P) (fuel : nat) : M hmem (bool * P) :=
  match fuel with
  | O => λ _, Diverge
  | S fuel =>
      match sn with
      | None => mret (true, param)
      | Some x =>
          v ← hnode x;
          n ← on_sm (get_next x);
          match action (key v) (key_len v) x param with
          | (true, param) => visit n param fuel
          | (false, param) => mret (false, param)
          end
      end
  end.
Fixpoint visit_slots (n : nat) (i : Z) (param : P) : M hmem P :=
  match n with
  | O => mret param
  | S n =>
      L ← slot i;
      sn ← on_sm (tt_slist_head L);
      '(go, param) ← bounded (visit sn param);
      if go : bool then visit_slots n (i + 1) param else mret param
  end.
Definition tt_hmap_foreach (param : P) : M hmem P :=
  p ← gets hmap; visit_slots (Z.to_nat (sll_num p)) 0 param.
End foreach.

Record tt_hmap_iter_t : Type := mk_hiter { ihnode : option nid; sll_idx : Z }.

(** The first slot from [sll_idx] on that is not empty; [n] slots are left. *)
Fixpoint next_slot (n : nat) (sll_idx : Z) : M hmem tt_hmap_iter_t :=
  match n with
  | O => mret (mk_hiter None sll_idx)
  | S n =>
      L ← slot sll_idx;
      b ← on_sm (tt_slist_empty L);
      if negb b then sn ← on_sm (tt_slist_head L); mret (mk_hiter sn sll_idx)
      else next_slot n (sll_idx + 1)
  end.
Definition tt_hmap_iter : M hmem tt_hmap_iter_t :=
  p ← gets hmap; next_slot (Z.to_nat (sll_num p)) 0.

Definition tt_hmap_iter_next (it : tt_hmap_iter_t) : M hmem (option nid * tt_hmap_iter_t) :=
  p ← gets hmap;
  match ihnode it with
  | None => assert_always (sll_idx it =? sll_num p);; mret (None, it)
  | Some x =>
      assert_always (sll_idx it <? sll_num p);;
      sn ← on_sm (get_next x);
      match sn with
      | Some y => mret (Some x, mk_hiter (Some y) (sll_idx it))
      | None =>
          it' ← next_slot (Z.to_nat (sll_num p - (sll_idx it + 1))) (sll_idx it + 1);
          mret (Some x, it')
      end
  end.

(** ** Reading keys *)

Section keys.
Implicit Types (h : hmem) (x : nid) (bs : list Z).

(** Node [x] has the key [bs]. *)
Definition key_ok h x bs : Prop :=
  ∃ k len, hkeys h !! x = Some (mk_hkey (Some k) len) ∧ 0 ≤ len ∧ bytes_at (kmem h) k len = Some bs.

Lemma bytes_at_len km k len bs : 0 ≤ len → bytes_at km k len = Some bs → zlen bs = len.
Proof.
  intros Hl. unfold bytes_at. destruct (km !! k) as [l|]; [simpl|done].
  destruct (Z.leb_spec len (zlen l)); [|done]. intros [= <-]. unfold zlen in *. rewrite length_take. lia.
Qed.

Lemma key_ok_fun h x bs bs' : key_ok h x bs → key_ok h x bs' → bs = bs'.
Proof. intros (k & l & E & _ & Hk) (k' & l' & E' & _ & Hk'). congruence. Qed.

Lemma key_ok_ext h h' x bs : hkeys h' !! x = hkeys h !! x → kmem h' = kmem h → key_ok h x bs → key_ok h' x bs.
Proof. unfold key_ok. intros -> ->. done. Qed.

Lemma read_key_ok h k len bs : bytes_at (kmem h) k len = Some bs → read_key k len h = Ret (TT_SUCCESS bs, h).
Proof. unfold read_key. by intros ->. Qed.

Lemma keq_ok h x k len bs bs' : 0 ≤ len → bytes_at (kmem h) k len = Some bs → key_ok h x bs' →
  keq x k len h = Ret (TT_SUCCESS (bool_decide (bs = bs')), h).
Proof.
  intros Hl Hb (k' & len' & Ex & Hl' & Hb'). unfold keq, hnode, read_key. m_simpl. rewrite Ex. cbn.
  destruct (Z.eqb_spec len len') as [->|Hne].
  - by rewrite Hb, Hb'.
  - rewrite bool_decide_false; [done|]. intros ->. apply Hne.
    by rewrite <- (bytes_at_len _ _ _ _ Hl Hb), <- (bytes_at_len _ _ _ _ Hl' Hb').
Qed.
End keys.

Lemma on_sm_step {A} (m : M smem A) h a s' : m (sm h) = Ret (TT_SUCCESS a, s') →
  on_sm m h = Ret (TT_SUCCESS a, set_sm s' h).
Proof. unfold on_sm, zoom. by intros ->. Qed.
Lemma set_sm_id h : set_sm (sm h) h = h.
Proof. by destruct h. Qed.
Lemma on_sm_same {A} (m : M smem A) h a : m (sm h) = Ret (TT_SUCCESS a, sm h) →
  on_sm m h = Ret (TT_SUCCESS a, h).
Proof. intros E. rewrite (on_sm_step m h a _ E). by rewrite set_sm_id. Qed.

Lemma next_ok h x n : snext (sm h) !! x = Some n → on_sm (get_next x) h = Ret (TT_SUCCESS n, h).
Proof. intros E. apply on_sm_same. unfold get_next. by rewrite E. Qed.

(** No node of [ys] has the key [bs]. *)
Definition no_key (h : hmem) (bs : list Z) (ys : list nid) : Prop :=
  ∀ y, y ∈ ys → ∃ bs', key_ok h y bs' ∧ bs' ≠ bs.

Section search.
Context (h : hmem) (k : kid) (klen : Z) (bs : list Z).
Context (Hlen : 0 ≤ klen) (Hbs : bytes_at (kmem h) k klen = Some bs).

Lemma find_loop_none ys : ∀ fuel, no_key h bs ys → chain (snext (sm h)) ys None → (length ys < fuel)%nat →
  find_loop k klen (hd_or ys None) fuel h = Ret (TT_SUCCESS None, h).
Proof.
  induction ys as [|y ys IH]; intros [|fuel] Hno Hc Hf; simpl in *; try lia; [done|].
  destruct Hc as [E Hc]. destruct (Hno y) as (bs' & Hy & Hne); [set_solver|].
  rewrite (bind_step _ _ _ _ _ (keq_ok h y k klen bs bs' Hlen Hbs Hy)), bool_decide_false by congruence.
  rewrite (bind_step _ _ _ _ _ (next_ok h y _ E)). apply IH; [|done|lia]. intros z Hz. apply Hno. set_solver.
Qed.

Lemma find_loop_some ys : ∀ x zs fuel, no_key h bs ys → key_ok h x bs →
  chain (snext (sm h)) (ys ++ x :: zs) None → (length ys < fuel)%nat →
  find_loop k klen (hd_or (ys ++ x :: zs) None) fuel h = Ret (TT_SUCCESS (Some x), h).
Proof.
  induction ys as [|y ys IH]; intros x zs [|fuel] Hno Hx Hc Hf; simpl in *; try lia.
  - by rewrite (bind_step _ _ _ _ _ (keq_ok h x k klen bs bs Hlen Hbs Hx)), bool_decide_true.
  - destruct Hc as [E Hc]. destruct (Hno y) as (bs' & Hy & Hne); [set_solver|].
    rewrite (bind_step _ _ _ _ _ (keq_ok h y k klen bs bs' Hlen Hbs Hy)), bool_decide_false by congruence.
    rewrite (bind_step _ _ _ _ _ (next_ok h y _ E)). apply IH; [|done|done|lia].
    intros z Hz. apply Hno. set_solver.
Qed.

Lemma remove_loop_none L ys : ∀ prev fuel, no_key h bs ys → chain (snext (sm h)) ys None →
  (length ys < fuel)%nat → remove_loop L k klen prev (hd_or ys None) fuel h = Ret (TT_SUCCESS false, h).
Proof.
  induction ys as [|y ys IH]; intros prev [|fuel] Hno Hc Hf; simpl in *; try lia; [done|].
  destruct Hc as [E Hc]. destruct (Hno y) as (bs' & Hy & Hne); [set_solver|].
  rewrite (bind_step _ _ _ _ _ (keq_ok h y k klen bs bs' Hlen Hbs Hy)), bool_decide_false by congruence.
  rewrite (bind_step _ _ _ _ _ (next_ok h y _ E)). apply IH; [|done|lia]. intros z Hz. apply Hno. set_solver.
Qed.

(** The removal is a call of [tt_slist_fast_remove] with the node before. *)
Lemma remove_loop_some L ys : ∀ prev x zs fuel, no_key h bs ys → key_ok h x bs →
  chain (snext (sm h)) (ys ++ x :: zs) None → (length ys < fuel)%nat →
  remove_loop L k klen prev (hd_or (ys ++ x :: zs) None) fuel h =
  (on_sm (tt_slist_fast_remove L (last_or prev ys) x);;
   modify (λ h, set_hmap (set_count (u32 (count (hmap h) - 1)) (hmap h)) h);; mret true) h.
Proof.
  induction ys as [|y ys IH]; intros prev x zs [|fuel] Hno Hx Hc Hf; simpl in *; try lia.
  - by rewrite (bind_step _ _ _ _ _ (keq_ok h x k klen bs bs Hlen Hbs Hx)), bool_decide_true.
  - destruct Hc as [E Hc]. destruct (Hno y) as (bs' & Hy & Hne); [set_solver|].
    rewrite (bind_step _ _ _ _ _ (keq_ok h y k klen bs bs' Hlen Hbs Hy)), bool_decide_false by congruence.
    rewrite (bind_step _ _ _ _ _ (next_ok h y _ E)). eapply IH; [|done|done|lia].
    intros z Hz. apply Hno. set_solver.
Qed.
End search.

(** ** The map a memory represents *)

Definition slot_of (p : tt_hashmap_t) (bs : list Z) : Z := hash_of (hash p) bs (hashctx p) mod sll_num p.

(** The lists of the memory are [σ], the map is [m]: each node of slot [i] has a
    key that hashes to [i] and is the node of that key. *)
Record hrep (h : hmem) (σ : gmap lid (list nid)) (m : gmap (list Z) nid) : Prop := {
  hr_lists : srep (sm h) σ;
  hr_slots L : L ∈ sll (hmap h) → is_Some (σ !! L);
  hr_nodup : NoDup (sll (hmap h));
  hr_num : zlen (sll (hmap h)) = sll_num (hmap h) ∧ 0 < sll_num (hmap h) < 2 ^ 32;
  hr_key i L xs x : sll (hmap h) !! i = Some L → σ !! L = Some xs → x ∈ xs →
    ∃ bs, key_ok h x bs ∧ Z.of_nat i = slot_of (hmap h) bs ∧ m !! bs = Some x;
  hr_map bs x : m !! bs = Some x → key_ok h x bs ∧
    ∃ L xs, sll (hmap h) !! Z.to_nat (slot_of (hmap h) bs) = Some L ∧ σ !! L = Some xs ∧ x ∈ xs;
  hr_count : count (hmap h) = u32 (Z.of_nat (size m));
}.

Section rep.
Context (h : hmem) (σ : gmap lid (list nid)) (m : gmap (list Z) nid) (Hrep : hrep h σ m).
Notation p := (hmap h).

Lemma slot_ok bs : ∃ L xs, sll p !! Z.to_nat (slot_of p bs) = Some L ∧ σ !! L = Some xs ∧
  shead (sm h) !! L = Some (hd_or xs None) ∧ NoDup xs ∧ chain (snext (sm h)) xs None ∧
  (length xs < S (size (snext (sm h))))%nat.
Proof.
  destruct (hr_num _ _ _ Hrep) as [Hn Hpos].
  pose proof (Z.mod_pos_bound (hash_of (hash p) bs (hashctx p)) (sll_num p)) as Hm.
  destruct (lookup_lt_is_Some_2 (sll p) (Z.to_nat (slot_of p bs))) as [L HL].
  { unfold slot_of, zlen in *. lia. }
  destruct (hr_slots _ _ _ Hrep L) as [xs Hxs]; [by eapply list_elem_of_lookup_2|].
  pose proof (sl_rep_length _ _ (hr_lists _ _ _ Hrep) L xs Hxs).
  destruct (sr_list _ _ (hr_lists _ _ _ Hrep) L xs Hxs) as (? & ? & ?). by exists L, xs.
Qed.

Lemma find_sll_ok k klen bs L : bytes_at (kmem h) k klen = Some bs →
  sll p !! Z.to_nat (slot_of p bs) = Some L → __find_sll k klen h = Ret (TT_SUCCESS L, h).
Proof.
  intros Hb HL. unfold __find_sll. rewrite (bind_step _ _ _ _ _ (read_key_ok h k klen bs Hb)).
  destruct (hr_num _ _ _ Hrep) as [_ Hpos]. m_simpl. rewrite (proj2 (Z.eqb_neq _ 0)) by lia. unfold slot.
  unfold slot_of in HL. by rewrite HL.
Qed.

Lemma head_ok L xs : σ !! L = Some xs → on_sm (tt_slist_head L) h = Ret (TT_SUCCESS (hd_or xs None), h).
Proof.
  intros HL. destruct (sr_list _ _ (hr_lists _ _ _ Hrep) L xs HL) as (E & _). apply on_sm_same.
  unfold tt_slist_head, get_head. by rewrite E.
Qed.

(** The key is not in the map: no node of its slot has it. *)
Lemma absent bs L xs : m !! bs = None → sll p !! Z.to_nat (slot_of p bs) = Some L → σ !! L = Some xs →
  no_key h bs xs.
Proof.
  intros Hm HL Hxs y Hy. destruct (hr_key _ _ _ Hrep _ L xs y HL Hxs Hy) as (bs' & Hk & _ & Hb).
  exists bs'. split; [done|]. congruence.
Qed.

(** The key is in the map: exactly its node has it. *)
Lemma present bs x L xs : m !! bs = Some x → sll p !! Z.to_nat (slot_of p bs) = Some L → σ !! L = Some xs →
  ∃ ys zs, xs = ys ++ x :: zs ∧ no_key h bs ys ∧ key_ok h x bs.
Proof.
  intros Hm HL Hxs. destruct (hr_map _ _ _ Hrep bs x Hm) as (Hk & L' & xs' & HL' & Hxs' & Hx).
  rewrite HL in HL'. injection HL' as <-. rewrite Hxs in Hxs'. injection Hxs' as <-.
  pose proof (sr_list _ _ (hr_lists _ _ _ Hrep) L xs Hxs) as (_ & Hnd & _).
  apply list_elem_of_split in Hx as (ys & zs & ->). exists ys, zs. split_and!; [done| |done].
  intros y Hy. destruct (hr_key _ _ _ Hrep _ L _ y HL Hxs) as (bs' & Hk' & _ & Hb); [set_solver|].
  exists bs'. split; [done|]. intros ->. rewrite Hm in Hb. injection Hb as <-.
  apply NoDup_app in Hnd as (_ & Hd & _). apply (Hd x Hy). set_solver.
Qed.

Lemma find_code k klen bs : 0 ≤ klen → bytes_at (kmem h) k klen = Some bs →
  tt_hmap_find k klen h = Ret (TT_SUCCESS (m !! bs), h).
Proof.
  intros Hl Hb. destruct (slot_ok bs) as (L & xs & HL & Hxs & _ & Hnd & Hc & Hlen).
  unfold tt_hmap_find. rewrite (bind_step _ _ _ _ _ (find_sll_ok k klen bs L Hb HL)).
  rewrite (bind_step _ _ _ _ _ (head_ok L xs Hxs)). unfold bounded. destruct (m !! bs) as [x|] eqn:Hm.
  - destruct (present bs x L xs Hm HL Hxs) as (ys & zs & -> & Hno & Hk). rewrite length_app in Hlen.
    by rewrite (find_loop_some h k klen bs Hl Hb ys x zs) by (done || lia).
  - rewrite (find_loop_none h k klen bs Hl Hb xs); [done|by eapply absent|done|done].
Qed.

(** The node of a key is in no other slot, and no other key has it. *)
Lemma map_inj bs bs' x : m !! bs = Some x → m !! bs' = Some x → bs = bs'.
Proof.
  intros H H'. destruct (hr_map _ _ _ Hrep bs x H) as [Hk _].
  destruct (hr_map _ _ _ Hrep bs' x H') as [Hk' _]. by eapply key_ok_fun.
Qed.

Lemma slot_inj i j L : sll p !! i = Some L → sll p !! j = Some L → i = j.
Proof. intros Hi Hj. by apply (NoDup_lookup _ _ _ _ (hr_nodup _ _ _ Hrep) Hi Hj). Qed.

(** Adding a free node under a new key. *)
Lemma hrep_add k klen bs x s' L xs : 0 ≤ klen → bytes_at (kmem h) k klen = Some bs → m !! bs = None →
  free σ x → sll p !! Z.to_nat (slot_of p bs) = Some L → σ !! L = Some xs →
  srep s' (<[L := x :: xs]> σ) → is_Some (hkeys h !! x) →
  hrep (set_hmap (set_count (u32 (count p + 1)) p)
         (set_sm s' (set_hkeys (<[x := mk_hkey (Some k) klen]> (hkeys h)) h)))
    (<[L := x :: xs]> σ) (<[bs := x]> m).
Proof.
  intros Hl Hb Hm Hf HL Hxs Hs' Hx.
  set (h' := set_hmap _ _).
  assert (key_ok h' x bs) as Hkx by (exists k, klen; simpl; by rewrite lookup_insert_eq).
  assert (∀ y bs', y ≠ x → key_ok h y bs' → key_ok h' y bs') as Hko.
  { intros y bs' Hne. apply key_ok_ext; [|done]. simpl. by rewrite lookup_insert_ne. }
  assert (∀ bs' y, m !! bs' = Some y → y ≠ x) as Hmx.
  { intros bs' y Hy ->. destruct (hr_map _ _ _ Hrep bs' x Hy) as (_ & K & ys & _ & HK & Hin). by apply (Hf K ys). }
  constructor; simpl; try done.
  - intros K HK. destruct (decide (K = L)) as [->|Hne]; [rewrite lookup_insert_eq; by eexists|].
    rewrite lookup_insert_ne by done. by apply (hr_slots _ _ _ Hrep).
  - apply (hr_nodup _ _ _ Hrep).
  - apply (hr_num _ _ _ Hrep).
  - intros i K ys y HK Hys Hy. destruct (decide (y = x)) as [->|Hne].
    + exists bs. rewrite lookup_insert_eq. split_and!; [done| |done].
      apply lookup_insert_Some in Hys as [[<- <-]|[_ Hys]]; [|by destruct (Hf K ys Hys)].
      rewrite (slot_inj i _ L HK HL). unfold slot_of in *. simpl. apply Z2Nat.id.
      destruct (hr_num _ _ _ Hrep) as [_ ?]. apply Z.mod_pos_bound. lia.
    + assert (∃ zs, σ !! K = Some zs ∧ y ∈ zs) as (zs & Hzs & Hy').
      { apply lookup_insert_Some in Hys as [[<- <-]|[_ Hys]]; [exists xs|by exists ys]. set_solver. }
      destruct (hr_key _ _ _ Hrep i K zs y HK Hzs Hy') as (bs' & Hk & Hi & Hb').
      exists bs'. split_and!; [by apply Hko|done|]. rewrite lookup_insert_ne; [done|]. congruence.
  - intros bs' y [[<- <-]|[Hne Hy]]%lookup_insert_Some.
    + split; [done|]. exists L, (x :: xs). rewrite lookup_insert_eq. split_and!; [done|done|set_solver].
    + destruct (hr_map _ _ _ Hrep bs' y Hy) as (Hk & K & ys & HK & Hys & Hin).
      split; [by eapply Hko; [eapply Hmx|]|]. destruct (decide (K = L)) as [->|HKL].
      * exists L, (x :: xs). rewrite lookup_insert_eq. rewrite Hxs in Hys. injection Hys as <-. set_solver.
      * exists K, ys. by rewrite lookup_insert_ne.
  - rewrite (hr_count _ _ _ Hrep), map_size_insert_None, u32_add_l by done. f_equal. lia.
Qed.

(** Taking the node of a key out. *)
Lemma hrep_remove bs x s' L ys zs : m !! bs = Some x →
  sll p !! Z.to_nat (slot_of p bs) = Some L → σ !! L = Some (ys ++ x :: zs) →
  srep s' (<[L := ys ++ zs]> σ) →
  hrep (set_hmap (set_count (u32 (count p - 1)) p) (set_sm s' h)) (<[L := ys ++ zs]> σ) (delete bs m).
Proof.
  intros Hm HL Hxs Hs'.
  pose proof (sr_list _ _ (hr_lists _ _ _ Hrep) L _ Hxs) as (_ & Hnd & _).
  assert (x ∉ ys ++ zs) as Hx.
  { rewrite (NoDup_Permutation_proper _ (x :: ys ++ zs)) in Hnd by by rewrite Permutation_middle.
    by apply NoDup_cons in Hnd as [? _]. }
  constructor; simpl; try done.
  - intros K HK. destruct (decide (K = L)) as [->|Hne]; [rewrite lookup_insert_eq; by eexists|].
    rewrite lookup_insert_ne by done. by apply (hr_slots _ _ _ Hrep).
  - apply (hr_nodup _ _ _ Hrep).
  - apply (hr_num _ _ _ Hrep).
  - intros i K ws y HK Hws Hy.
    assert (∃ vs, σ !! K = Some vs ∧ y ∈ vs ∧ y ≠ x) as (vs & Hvs & Hy' & Hne).
    { apply lookup_insert_Some in Hws as [[<- <-]|[HKL Hws]].
      - exists (ys ++ x :: zs). set_solver.
      - exists ws. split_and!; [done|done|]. intros ->. apply HKL.
        apply (sr_disj _ _ (hr_lists _ _ _ Hrep) L K (ys ++ x :: zs) ws x); [done..|set_solver|done]. }
    destruct (hr_key _ _ _ Hrep i K vs y HK Hvs Hy') as (bs' & Hk & Hi & Hb').
    exists bs'. split_and!; [done|done|]. rewrite lookup_delete_ne; [done|]. congruence.
  - intros bs' y [Hne Hy]%lookup_delete_Some.
    destruct (hr_map _ _ _ Hrep bs' y Hy) as (Hk & K & ws & HK & Hws & Hin). split; [done|].
    destruct (decide (K = L)) as [->|HKL]; [|exists K, ws; by rewrite lookup_insert_ne].
    exists L, (ys ++ zs). rewrite lookup_insert_eq. split_and!; [done|done|].
    rewrite Hxs in Hws. injection Hws as <-. assert (y ≠ x) by (intros ->; apply Hne; by eapply map_inj).
    set_solver.
  - rewrite (hr_count _ _ _ Hrep). unfold Z.sub. rewrite u32_add_l, map_size_delete_Some by by eexists.
    assert (size m ≠ O) by by eapply map_size_ne_0_lookup_2; eexists. f_equal. lia.
Qed.
End rep.

(** The same nodes and the same bytes. *)
Definition same_nodes (h h' : hmem) : Prop :=
  kmem h' = kmem h ∧ dom (snext (sm h')) = dom (snext (sm h)) ∧ dom (hkeys h') = dom (hkeys h).

Section ops.
Context (h : hmem) (σ : gmap lid (list nid)) (m : gmap (list Z) nid) (Hrep : hrep h σ m).
Notation p := (hmap h).

Lemma add_dup k klen bs x y : 0 ≤ klen → bytes_at (kmem h) k klen = Some bs → m !! bs = Some y →
  tt_hmap_add k klen x h = Ret (TT_ERROR TT_FAIL, h).
Proof.
  intros Hl Hb Hm. destruct (slot_ok h σ m Hrep bs) as (L & xs & HL & Hxs & _ & Hnd & Hc & Hlen).
  unfold tt_hmap_add. rewrite (bind_step _ _ _ _ _ (find_sll_ok h σ m Hrep k klen bs L Hb HL)).
  rewrite (bind_step _ _ _ _ _ (head_ok h σ m Hrep L xs Hxs)).
  destruct (present h σ m Hrep bs y L xs Hm HL Hxs) as (ys & zs & -> & Hno & Hk). rewrite length_app in Hlen.
  assert (bounded (find_loop k klen (hd_or (ys ++ y :: zs) None)) h = Ret (TT_SUCCESS (Some y), h)) as E.
  { apply (find_loop_some h k klen bs); try done; lia. }
  by rewrite (bind_step _ _ _ _ _ E).
Qed.

(** The state after a successful addition. *)
Lemma add_code k klen bs x : 0 ≤ klen → bytes_at (kmem h) k klen = Some bs → m !! bs = None →
  is_Some (snext (sm h) !! x) → is_Some (hkeys h !! x) → free σ x →
  ∃ h' L xs, tt_hmap_add k klen x h = Ret (TT_SUCCESS tt, h') ∧ σ !! L = Some xs ∧
    hrep h' (<[L := x :: xs]> σ) (<[bs := x]> m) ∧ same_nodes h h'.
Proof.
  intros Hl Hb Hm Hx [v Hv] Hf. destruct (slot_ok h σ m Hrep bs) as (L & xs & HL & Hxs & _ & Hnd & Hc & Hlen).
  unfold tt_hmap_add. rewrite (bind_step _ _ _ _ _ (find_sll_ok h σ m Hrep k klen bs L Hb HL)).
  rewrite (bind_step _ _ _ _ _ (head_ok h σ m Hrep L xs Hxs)).
  assert (bounded (find_loop k klen (hd_or xs None)) h = Ret (TT_SUCCESS None, h)) as E.
  { apply (find_loop_none h k klen bs); try done. by eapply absent. }
  rewrite (bind_step _ _ _ _ _ E).
  destruct (sl_push_head_code (sm h) σ (hr_lists _ _ _ Hrep) L x xs Hxs Hx Hf) as (s' & Es & Hs' & Hd & _).
  unfold set_hnode. m_simpl. rewrite Hv. cbn. unfold on_sm, zoom. cbn. rewrite Es. cbn.
  eexists _, L, xs. split; [done|]. split; [done|].
  split; [|split_and!; [done|done|simpl; by apply dom_insert_lookup_L]].
  exact (hrep_add h σ m Hrep k klen bs x s' L xs Hl Hb Hm Hf HL Hxs Hs' ltac:(by eexists)).
Qed.

(** What a removal has done. *)
Definition removed (bs : list Z) (x : nid) (h' : hmem) : Prop :=
  ∃ L ys zs, σ !! L = Some (ys ++ x :: zs) ∧ hrep h' (<[L := ys ++ zs]> σ) (delete bs m) ∧ same_nodes h h'.

Lemma hm_remove_code bs x : m !! bs = Some x →
  ∃ h', tt_hmap_remove x h = Ret (TT_SUCCESS tt, h') ∧ removed bs x h'.
Proof.
  intros Hm. destruct (slot_ok h σ m Hrep bs) as (L & xs & HL & Hxs & _ & Hnd & Hc & Hlen).
  destruct (present h σ m Hrep bs x L xs Hm HL Hxs) as (ys & zs & -> & _ & (k & len & Ek & Hl & Hb)).
  unfold tt_hmap_remove, hnode. m_simpl. rewrite Ek. cbn.
  rewrite (find_sll_ok h σ m Hrep k len bs L Hb HL). unfold on_sm, zoom. cbn.
  destruct (sl_remove_code (sm h) σ (hr_lists _ _ _ Hrep) L ys x zs Hxs) as (s' & Es & Hs' & Hd & _).
  rewrite Es. cbn. eexists. split; [done|]. exists L, ys, zs. split; [done|]. split; [|done].
  by apply (hrep_remove h σ m Hrep bs x).
Qed.

Lemma remove_key_some k klen bs x : 0 ≤ klen → bytes_at (kmem h) k klen = Some bs → m !! bs = Some x →
  ∃ h', tt_hmap_remove_key k klen h = Ret (TT_SUCCESS true, h') ∧ removed bs x h'.
Proof.
  intros Hl Hb Hm. destruct (slot_ok h σ m Hrep bs) as (L & xs & HL & Hxs & _ & Hnd & Hc & Hlen).
  unfold tt_hmap_remove_key. rewrite (bind_step _ _ _ _ _ (find_sll_ok h σ m Hrep k klen bs L Hb HL)).
  rewrite (bind_step _ _ _ _ _ (head_ok h σ m Hrep L xs Hxs)).
  destruct (present h σ m Hrep bs x L xs Hm HL Hxs) as (ys & zs & -> & Hno & Hk). rewrite length_app in Hlen.
  unfold bounded. rewrite (remove_loop_some h k klen bs Hl Hb L ys None x zs) by (done || lia).
  destruct (fast_remove_code (sm h) σ (hr_lists _ _ _ Hrep) L ys x zs Hxs) as (s' & Es & Hs' & Hd & _).
  unfold on_sm, zoom. m_simpl. rewrite Es. cbn. eexists. split; [done|]. exists L, ys, zs.
  split; [done|]. split; [|done]. by apply (hrep_remove h σ m Hrep bs x).
Qed.

Lemma remove_key_none k klen bs : 0 ≤ klen → bytes_at (kmem h) k klen = Some bs → m !! bs = None →
  tt_hmap_remove_key k klen h = Ret (TT_SUCCESS false, h).
Proof.
  intros Hl Hb Hm. destruct (slot_ok h σ m Hrep bs) as (L & xs & HL & Hxs & _ & Hnd & Hc & Hlen).
  unfold tt_hmap_remove_key. rewrite (bind_step _ _ _ _ _ (find_sll_ok h σ m Hrep k klen bs L Hb HL)).
  rewrite (bind_step _ _ _ _ _ (head_ok h σ m Hrep L xs Hxs)). unfold bounded.
  apply (remove_loop_none h k klen bs); try done. by eapply absent.
Qed.
End ops.

(** ** Visiting *)

(** The nodes of the slots [Ls], in order. *)
Definition slots_of (σ : gmap lid (list nid)) (Ls : list lid) : list nid :=
  concat ((λ L, default [] (σ !! L)) <$> Ls).

Lemma slots_of_cons σ L xs Ls : σ !! L = Some xs → slots_of σ (L :: Ls) = xs ++ slots_of σ Ls.
Proof. intros E. unfold slots_of. simpl. by rewrite E. Qed.

Lemma elem_of_slots σ Ls x : x ∈ slots_of σ Ls ↔ ∃ L xs, L ∈ Ls ∧ σ !! L = Some xs ∧ x ∈ xs.
Proof.
  induction Ls as [|L Ls IH]; [set_solver|]. unfold slots_of in *. simpl. rewrite elem_of_app, IH.
  destruct (σ !! L) as [xs|] eqn:E; simpl; split.
  - intros [Hx|(K & ys & HK & ?)]; [exists L, xs|exists K, ys]; set_solver.
  - intros (K & ys & [->|HK]%elem_of_cons & Hys & Hy); [left; congruence|right; eauto].
  - intros [Hx|(K & ys & HK & ?)]; [set_solver|exists K, ys; set_solver].
  - intros (K & ys & [->|HK]%elem_of_cons & Hys & Hy); [congruence|right; eauto].
Qed.

Lemma slots_of_nodup s σ Ls : srep s σ → NoDup Ls → NoDup (slots_of σ Ls).
Proof.
  intros Hs. induction 1 as [|L Ls HL _ IH]; [constructor|]. unfold slots_of in *. simpl.
  apply NoDup_app. split_and!; [|intros x Hx Hy|done].
  - destruct (σ !! L) as [xs|] eqn:E; simpl; [by apply (sr_list s σ Hs L)|constructor].
  - destruct (σ !! L) as [xs|] eqn:E; simpl in Hx; [|set_solver].
    apply (elem_of_slots σ Ls x) in Hy as (K & ys & HK & Hys & Hy).
    assert (L = K) by by apply (sr_disj s σ Hs L K xs ys x). by subst.
Qed.

(** Folding a callback that may stop. *)
Fixpoint fold_stop {P} (f : nid → P → bool * P) (xs : list nid) (param : P) : bool * P :=
  match xs with
  | [] => (true, param)
  | x :: xs => match f x param with (true, param) => fold_stop f xs param | r => r end
  end.

Lemma fold_stop_app {P} (f : nid → P → bool * P) xs ys param :
  fold_stop f (xs ++ ys) param =
    let '(go, q) := fold_stop f xs param in if go then fold_stop f ys q else (false, q).
Proof.
  revert param. induction xs as [|x xs IH]; intros param; [done|]. simpl.
  destruct (f x param) as [[] q]; [apply IH|done].
Qed.

Section visit.
Context (h : hmem) (σ : gmap lid (list nid)) (m : gmap (list Z) nid) (Hrep : hrep h σ m).
Notation p := (hmap h).

Definition all_nodes : list nid := slots_of σ (sll p).

Lemma all_nodes_spec : NoDup all_nodes ∧ ∀ x, x ∈ all_nodes ↔ ∃ bs, m !! bs = Some x.
Proof.
  split; [eapply slots_of_nodup; apply Hrep|]. intros x. unfold all_nodes. rewrite elem_of_slots. split.
  - intros (L & xs & [i HL]%list_elem_of_lookup & Hxs & Hx).
    destruct (hr_key _ _ _ Hrep i L xs x HL Hxs Hx) as (bs & _ & _ & ?). by exists bs.
  - intros [bs Hb]. destruct (hr_map _ _ _ Hrep bs x Hb) as (_ & L & xs & HL & Hxs & Hx). exists L, xs.
    split_and!; [by eapply list_elem_of_lookup_2|done..].
Qed.

Lemma slot_at i : (i < length (sll p))%nat → ∃ L xs, drop i (sll p) = L :: drop (S i) (sll p) ∧
  slot (Z.of_nat i) h = Ret (TT_SUCCESS L, h) ∧ sll p !! i = Some L ∧ σ !! L = Some xs ∧ chain (snext (sm h)) xs None ∧
  (length xs < S (size (snext (sm h))))%nat.
Proof.
  intros Hi. destruct (lookup_lt_is_Some_2 _ _ Hi) as [L HL].
  destruct (hr_slots _ _ _ Hrep L) as [xs Hxs]; [by eapply list_elem_of_lookup_2|]. exists L, xs.
  split_and!; [by apply drop_S| |done|done|by apply (sr_list _ _ (hr_lists _ _ _ Hrep) L)
    |by apply (sl_rep_length _ _ (hr_lists _ _ _ Hrep) L)].
  unfold slot. by rewrite Nat2Z.id, HL.
Qed.

Lemma seek_ok x xs : ∀ fuel, chain (snext (sm h)) xs None → (length xs < fuel)%nat →
  seek x (hd_or xs None) fuel h = Ret (TT_SUCCESS (bool_decide (x ∈ xs)), h).
Proof.
  induction xs as [|y xs IH]; intros [|fuel] Hc Hl; simpl in *; try lia.
  - done.
  - destruct Hc as [E Hc]. destruct (decide (x = y)) as [->|Hne].
    + rewrite !bool_decide_true by set_solver. done.
    + rewrite bool_decide_false by done. rewrite (bind_step _ _ _ _ _ (next_ok h y _ E)), IH by (done || lia).
      do 3 f_equal. apply bool_decide_ext. set_solver.
Qed.

Lemma seek_slots_ok x n : ∀ i, (i + n = length (sll p))%nat →
  seek_slots x n (Z.of_nat i) h = Ret (TT_SUCCESS (bool_decide (x ∈ slots_of σ (drop i (sll p)))), h).
Proof.
  induction n as [|n IH]; intros i Hi; cbn [seek_slots].
  - by rewrite drop_ge by lia.
  - destruct (slot_at i) as (L & xs & -> & Es & _ & Hxs & Hc & Hl); [lia|]. rewrite (bind_step _ _ _ _ _ Es).
    rewrite (bind_step _ _ _ _ _ (head_ok h σ m Hrep L xs Hxs)).
    rewrite (bind_step (bounded _) _ _ _ _ (seek_ok x xs _ Hc Hl)), (slots_of_cons σ L xs) by done.
    case_bool_decide as Hx; [by rewrite bool_decide_true by set_solver|].
    replace (Z.of_nat i + 1) with (Z.of_nat (S i)) by lia. rewrite IH by lia.
    do 3 f_equal. apply bool_decide_ext. set_solver.
Qed.

Lemma num_slots : Z.to_nat (sll_num p) = length (sll p).
Proof. destruct (hr_num _ _ _ Hrep) as [<- _]. unfold zlen. lia. Qed.

Lemma hm_contain_code x : tt_hmap_contain x h = Ret (TT_SUCCESS (bool_decide (x ∈ all_nodes)), h).
Proof.
  unfold tt_hmap_contain. m_simpl. rewrite num_slots. by rewrite (seek_slots_ok x _ 0).
Qed.

Section foreach.
Context {P : Type} (action : option kid → Z → nid → P → bool * P).

(** The callback on a node with its key. *)
Definition act (x : nid) : P → bool * P :=
  match hkeys h !! x with Some v => action (key v) (key_len v) x | None => λ q, (true, q) end.

Lemma visit_ok xs : ∀ fuel q, chain (snext (sm h)) xs None → (∀ x, x ∈ xs → is_Some (hkeys h !! x)) →
  (length xs < fuel)%nat → visit action (hd_or xs None) q fuel h = Ret (TT_SUCCESS (fold_stop act xs q), h).
Proof.
  induction xs as [|x xs IH]; intros [|fuel] q Hc Hk Hl; simpl in *; try lia; [done|].
  destruct Hc as [E Hc]. destruct (Hk x) as [v Hv]; [set_solver|].
  assert (hnode x h = Ret (TT_SUCCESS v, h)) as Eh by (unfold hnode; by rewrite Hv).
  rewrite (bind_step _ _ _ _ _ Eh), (bind_step _ _ _ _ _ (next_ok h x _ E)).
  replace (act x q) with (action (key v) (key_len v) x q) by (unfold act; by rewrite Hv).
  destruct (action (key v) (key_len v) x q) as [[] q']; [|done]. apply IH; [done| |lia].
  intros y Hy. apply Hk. set_solver.
Qed.

Lemma visit_slots_ok n : ∀ i q, (i + n = length (sll p))%nat →
  visit_slots action n (Z.of_nat i) q h =
    Ret (TT_SUCCESS (fold_stop act (slots_of σ (drop i (sll p))) q).2, h).
Proof.
  induction n as [|n IH]; intros i q Hi; cbn [visit_slots].
  - by rewrite drop_ge by lia.
  - destruct (slot_at i) as (L & xs & -> & Es & HL & Hxs & Hc & Hl); [lia|]. rewrite (bind_step _ _ _ _ _ Es).
    rewrite (bind_step _ _ _ _ _ (head_ok h σ m Hrep L xs Hxs)).
    assert (∀ x, x ∈ xs → is_Some (hkeys h !! x)) as Hk.
    { intros x Hx. destruct (hr_key _ _ _ Hrep i L xs x HL Hxs Hx) as (? & (? & ? & ? & _) & _). by eexists. }
    rewrite (bind_step (bounded _) _ _ _ _ (visit_ok xs _ q Hc Hk Hl)).
    rewrite (slots_of_cons σ L xs), fold_stop_app by done.
    destruct (fold_stop act xs q) as [[] q']; [|done].
    replace (Z.of_nat i + 1) with (Z.of_nat (S i)) by lia. apply IH. lia.
Qed.

Lemma foreach_code q : tt_hmap_foreach action q h = Ret (TT_SUCCESS (fold_stop act all_nodes q).2, h).
Proof.
  unfold tt_hmap_foreach. m_simpl. rewrite num_slots. by rewrite (visit_slots_ok _ 0).
Qed.
End foreach.

(** The iterator has the nodes [rest] still to deliver. *)
Definition iter_at (it : tt_hmap_iter_t) (rest : list nid) : Prop :=
  match ihnode it with
  | None => rest = [] ∧ sll_idx it = sll_num p
  | Some x => ∃ i L xs1 xs2, sll_idx it = Z.of_nat i ∧ sll p !! i = Some L ∧ σ !! L = Some (xs1 ++ x :: xs2) ∧
      rest = x :: xs2 ++ slots_of σ (drop (S i) (sll p))
  end.

Lemma next_slot_ok n : ∀ i, (i + n = length (sll p))%nat →
  ∃ it, next_slot n (Z.of_nat i) h = Ret (TT_SUCCESS it, h) ∧ iter_at it (slots_of σ (drop i (sll p))).
Proof.
  induction n as [|n IH]; intros i Hi; cbn [next_slot].
  - eexists. split; [done|]. rewrite drop_ge by lia. split; [done|]. simpl.
    destruct (hr_num _ _ _ Hrep) as [<- _]. unfold zlen. lia.
  - destruct (slot_at i) as (L & xs & Ed & Es & HL & Hxs & Hc & Hl); [lia|]. rewrite (bind_step _ _ _ _ _ Es).
    pose proof (head_ok h σ m Hrep L xs Hxs) as Eh.
    assert (on_sm (tt_slist_empty L) h = Ret (TT_SUCCESS (bool_decide (hd_or xs None = None)), h)) as Ee.
    { apply on_sm_same. destruct (sr_list _ _ (hr_lists _ _ _ Hrep) L xs Hxs) as (E & _).
      unfold tt_slist_empty, get_head. m_simpl. by rewrite E. }
    rewrite (bind_step _ _ _ _ _ Ee), Ed, (slots_of_cons σ L xs) by done. destruct xs as [|x xs].
    + simpl. replace (Z.of_nat i + 1) with (Z.of_nat (S i)) by lia. apply IH. lia.
    + rewrite bool_decide_false by done. cbn [negb]. rewrite (bind_step _ _ _ _ _ Eh). eexists. split; [done|].
      by exists i, L, [], xs.
Qed.

Lemma iter_code : ∃ it, tt_hmap_iter h = Ret (TT_SUCCESS it, h) ∧ iter_at it all_nodes.
Proof. unfold tt_hmap_iter. m_simpl. rewrite num_slots. by apply (next_slot_ok _ 0). Qed.

Lemma iter_next_code it rest : iter_at it rest →
  ∃ it', tt_hmap_iter_next it h = Ret (TT_SUCCESS (hd_or rest None, it'), h) ∧ iter_at it' (tail rest).
Proof.
  intros Hi. unfold tt_hmap_iter_next. m_simpl. unfold iter_at in Hi. destruct (ihnode it) as [x|] eqn:Ex.
  - destruct Hi as (i & L & xs1 & xs2 & Ei & HL & Hxs & ->). pose proof (lookup_lt_Some _ _ _ HL) as Hlt.
    pose proof num_slots as Hn. rewrite (proj2 (Z.ltb_lt _ _)) by lia.
    pose proof (sr_list _ _ (hr_lists _ _ _ Hrep) L _ Hxs) as (_ & _ & Hc). apply chain_at in Hc.
    rewrite (next_ok h x _ Hc). cbn [tail hd_or]. destruct xs2 as [|y ys]; cbn [hd_or app].
    + rewrite Ei. replace (Z.to_nat (sll_num p - (Z.of_nat i + 1))) with (length (sll p) - S i)%nat by lia.
      replace (Z.of_nat i + 1) with (Z.of_nat (S i)) by lia.
      destruct (next_slot_ok (length (sll p) - S i) (S i)) as (it' & -> & Hit); [lia|]. by exists it'.
    + eexists. split; [done|]. exists i, L, (xs1 ++ [x]), ys. by rewrite <- app_assoc.
  - destruct Hi as [-> E]. rewrite E, Z.eqb_refl. exists it. split; [done|]. unfold iter_at. by rewrite Ex.
Qed.
End visit.

(** ** All slots at once *)

(** Setting the entries [Ls], and removing them. *)
Fixpoint fill {A} (v : A) (Ls : list lid) (t : gmap lid A) : gmap lid A :=
  match Ls with [] => t | L :: Ls => fill v Ls (<[L := v]> t) end.

Lemma fill_in {A} (v : A) Ls : ∀ t L, L ∈ Ls → fill v Ls t !! L = Some v.
Proof.
  induction Ls as [|K Ls IH]; intros t L HL; [set_solver|]. simpl.
  destruct (decide (L ∈ Ls)) as [?|Hn]; [by apply IH|]. apply elem_of_cons in HL as [->|]; [|done].
  clear IH. revert Hn. generalize (<[K := v]> t) (lookup_insert_eq t K v).
  induction Ls as [|M Ls IH]; intros t' E Hn; [done|]. simpl. apply IH; [|set_solver].
  rewrite lookup_insert_ne; [done|set_solver].
Qed.
Lemma fill_out {A} (v : A) Ls : ∀ t L, L ∉ Ls → fill v Ls t !! L = t !! L.
Proof.
  induction Ls as [|K Ls IH]; intros t L HL; [done|]. simpl. rewrite IH by set_solver.
  apply lookup_insert_ne. set_solver.
Qed.
Lemma delete_all_in {A} Ls (t : gmap lid A) L : L ∈ Ls → foldr delete t Ls !! L = None.
Proof.
  induction Ls as [|K Ls IH]; intros HL; [set_solver|]. simpl. destruct (decide (L = K)) as [->|Hne].
  - by rewrite lookup_delete_eq.
  - rewrite lookup_delete_ne by done. apply IH. set_solver.
Qed.
Lemma delete_all_out {A} Ls (t : gmap lid A) L : L ∉ Ls → foldr delete t Ls !! L = t !! L.
Proof.
  induction Ls as [|K Ls IH]; intros HL; [done|]. simpl. rewrite lookup_delete_ne by set_solver.
  apply IH. set_solver.
Qed.

Lemma slots_of_other σ L xs Ls : L ∉ Ls → slots_of (<[L := xs]> σ) Ls = slots_of σ Ls.
Proof.
  intros HL. unfold slots_of. f_equal. apply list_fmap_ext. intros i K HK.
  rewrite lookup_insert_ne; [done|]. intros ->. apply HL. by eapply list_elem_of_lookup_2.
Qed.

Lemma drain_ok L xs : ∀ fuel h σ, srep (sm h) σ → σ !! L = Some xs → (length xs < fuel)%nat →
  ∃ s', drain L fuel h = Ret (TT_SUCCESS xs, set_sm s' h) ∧ srep s' (<[L := []]> σ) ∧ dom (snext s') = dom (snext (sm h)).
Proof.
  induction xs as [|x xs IH]; intros [|fuel] h σ Hs HL Hl; simpl in Hl; try lia; cbn [drain].
  - rewrite (bind_step _ _ _ _ _ (on_sm_same _ h None (sl_pop_head_empty _ σ Hs L HL))).
    exists (sm h). rewrite set_sm_id, insert_id by done. done.
  - destruct (sl_pop_head_code _ σ Hs L x xs HL) as (s1 & E & Hs1 & Hd1 & _).
    rewrite (bind_step _ _ _ _ _ (on_sm_step _ h _ _ E)).
    destruct (IH fuel (set_sm s1 h) (<[L := xs]> σ)) as (s2 & E2 & Hs2 & Hd2);
      [done|apply lookup_insert_eq|lia|].
    rewrite (bind_step _ _ _ _ _ E2), insert_insert_eq in *. exists s2. split_and!; [done|done|].
    rewrite Hd2. done.
Qed.

Lemma drain_slots_ok n : ∀ i h σ, srep (sm h) σ → (i + n = length (sll (hmap h)))%nat →
  NoDup (sll (hmap h)) → (∀ L, L ∈ sll (hmap h) → is_Some (σ !! L)) →
  ∃ s', drain_slots n (Z.of_nat i) h = Ret (TT_SUCCESS (slots_of σ (drop i (sll (hmap h)))), set_sm s' h) ∧
    srep s' (fill [] (drop i (sll (hmap h))) σ) ∧ dom (snext s') = dom (snext (sm h)).
Proof.
  induction n as [|n IH]; intros i h σ Hs Hi Hnd Hin; cbn [drain_slots].
  - rewrite drop_ge by lia. exists (sm h). by rewrite set_sm_id.
  - destruct (lookup_lt_is_Some_2 (sll (hmap h)) i) as [L HL]; [lia|].
    destruct (Hin L) as [xs Hxs]; [by eapply list_elem_of_lookup_2|]. rewrite (drop_S _ L) by done.
    assert (slot (Z.of_nat i) h = Ret (TT_SUCCESS L, h)) as Es by (unfold slot; by rewrite Nat2Z.id, HL).
    rewrite (bind_step _ _ _ _ _ Es).
    destruct (drain_ok L xs _ h σ Hs Hxs (sl_rep_length _ σ Hs L xs Hxs)) as (s1 & E1 & Hs1 & Hd1).
    rewrite (bind_step (bounded _) _ _ _ _ E1). replace (Z.of_nat i + 1) with (Z.of_nat (S i)) by lia.
    assert (L ∉ drop (S i) (sll (hmap h))) as HLn.
    { rewrite <- (take_drop i (sll (hmap h))), (drop_S _ L) in Hnd by done.
      by apply NoDup_app in Hnd as (_ & _ & [? _]%NoDup_cons). }
    destruct (IH (S i) (set_sm s1 h) (<[L := []]> σ)) as (s2 & E2 & Hs2 & Hd2); [done|simpl; lia|done| |].
    + intros K HK. destruct (decide (K = L)) as [->|]; [rewrite lookup_insert_eq; by eexists|].
      rewrite lookup_insert_ne by done. by apply Hin.
    + simpl in E2. rewrite (bind_step _ _ _ _ _ E2), (slots_of_cons σ L xs), slots_of_other by done.
      exists s2. split_and!; [done|done|]. rewrite Hd2. done.
Qed.

Lemma hm_clear_code h σ m : hrep h σ m →
  ∃ h', tt_hmap_clear h = Ret (TT_SUCCESS (all_nodes h σ), h') ∧ hrep h' (fill [] (sll (hmap h)) σ) ∅ ∧
    same_nodes h h' ∧ sll (hmap h') = sll (hmap h).
Proof.
  intros Hrep. unfold tt_hmap_clear. m_simpl. rewrite (num_slots h σ m Hrep).
  destruct (drain_slots_ok (length (sll (hmap h))) 0 h σ) as (s' & E & Hs' & Hd);
    [apply Hrep|done|apply Hrep|apply Hrep|].
  change (Z.of_nat 0) with 0 in E. rewrite E. cbn. rewrite drop_0. eexists. split; [done|].
  split; [|done]. constructor; simpl.
  - exact Hs'.
  - intros L HL. rewrite fill_in by done. by eexists.
  - apply Hrep.
  - apply (hr_num _ _ _ Hrep).
  - intros i L xs x HL Hxs Hx. rewrite fill_in in Hxs by (by eapply list_elem_of_lookup_2).
    injection Hxs as <-. set_solver.
  - intros bs x. by rewrite lookup_empty.
  - by rewrite map_size_empty.
Qed.

(** ** Creation and destruction *)

(** Every list of [s] but those at [Ls] represents [σ]. *)
Definition srep_but (Ls : list lid) (s : smem) (σ : gmap lid (list nid)) : Prop :=
  srep (mk_smem (snext s) (foldr delete (shead s) Ls)) σ ∧ ∀ L, L ∈ Ls → σ !! L = None.

Lemma srep_fill s σ Ls : srep_but Ls s σ → srep (mk_smem (snext s) (fill None Ls (shead s))) (fill [] Ls σ).
Proof.
  intros [Hs Hnone].
  assert (∀ L xs, fill [] Ls σ !! L = Some xs → (L ∈ Ls ∧ xs = []) ∨ (L ∉ Ls ∧ σ !! L = Some xs)) as Hf.
  { intros L xs. destruct (decide (L ∈ Ls)).
    - rewrite fill_in by done. intros [= <-]. by left.
    - rewrite fill_out by done. by right. }
  assert (∀ x, free (fill [] Ls σ) x → free σ x) as Hfree.
  { intros x Hx L xs HL. apply (Hx L). rewrite fill_out; [done|]. intros Hin. by rewrite (Hnone L Hin) in HL. }
  constructor; simpl.
  - intros L xs [[HL ->]|[HL Hxs]]%Hf; [rewrite fill_in by done; split_and!; [done|constructor|done]|].
    rewrite fill_out by done. destruct (sr_list _ _ Hs L xs Hxs) as (E & ? & ?). simpl in *.
    by rewrite delete_all_out in E by done.
  - intros L K xs ys x [[HL ->]|[HL Hxs]]%Hf [[HK ->]|[HK Hys]]%Hf Hx Hy; try (by set_solver).
    by apply (sr_disj _ _ Hs L K xs ys x).
  - intros x n Hx Hfx. apply (sr_free _ _ Hs x); [done|auto].
  - intros L n. destruct (decide (L ∈ Ls)); [rewrite !fill_in by done; by eexists|].
    rewrite !fill_out by done. intros E. apply (sr_dom _ _ Hs L n). simpl. by rewrite delete_all_out.
Qed.

Lemma init_slots_ok Ls : ∀ h, (∀ L, L ∈ Ls → is_Some (shead (sm h) !! L)) →
  init_slots Ls h = Ret (TT_SUCCESS tt, set_sm (mk_smem (snext (sm h)) (fill None Ls (shead (sm h)))) h).
Proof.
  induction Ls as [|L Ls IH]; intros h Hin; cbn [init_slots fill].
  - destruct h as [[] ? ? ?]. done.
  - destruct (Hin L) as [n E]; [set_solver|].
    assert (on_sm (tt_slist_init L) h =
      Ret (TT_SUCCESS tt, set_sm (mk_smem (snext (sm h)) (<[L := None]> (shead (sm h)))) h)) as Ei.
    { apply on_sm_step. unfold tt_slist_init, set_head. by rewrite E. }
    rewrite (bind_step _ _ _ _ _ Ei), IH; [done|]. intros K HK. simpl.
    destruct (decide (K = L)) as [->|]; [rewrite lookup_insert_eq; by eexists|].
    rewrite lookup_insert_ne by done. apply Hin. set_solver.
Qed.

Lemma create_code h σ Ls rand n attr : srep_but Ls (sm h) σ → NoDup Ls →
  (∀ L, L ∈ Ls → is_Some (shead (sm h) !! L)) → zlen Ls = n → 0 < n < 2 ^ 32 →
  ∃ h', tt_hmap_create (Some Ls) rand n attr h = Ret (TT_SUCCESS tt, h') ∧ hrep h' (fill [] Ls σ) ∅ ∧
    snext (sm h') = snext (sm h) ∧ hkeys h' = hkeys h ∧ kmem h' = kmem h ∧ sll (hmap h') = Ls.
Proof.
  intros Hs Hnd Hin Hn Hpos. unfold tt_hmap_create. rewrite (proj2 (Z.eqb_neq n 0)) by lia. m_simpl. cbn.
  rewrite init_slots_ok by done. eexists. split; [done|]. split_and!; [|done..]. constructor; simpl.
  - by apply srep_fill.
  - intros L HL. rewrite fill_in by done. by eexists.
  - done.
  - done.
  - intros i L xs x HL Hxs Hx. rewrite fill_in in Hxs by (by eapply list_elem_of_lookup_2).
    injection Hxs as <-. set_solver.
  - intros bs x. by rewrite lookup_empty.
  - by rewrite map_size_empty.
Qed.

Lemma destroy_code h σ m : hrep h σ m →
  ∃ h', tt_hmap_destroy h = Ret (TT_SUCCESS (all_nodes h σ), h') ∧
    srep (sm h') (foldr delete σ (sll (hmap h))).
Proof.
  intros Hrep. destruct (hm_clear_code h σ m Hrep) as (h1 & E & Hrep1 & _ & Hl1).
  unfold tt_hmap_destroy. rewrite (bind_step _ _ _ _ _ E). unfold free_slots. m_simpl. eexists. split; [done|].
  simpl. rewrite Hl1. pose proof (hr_lists _ _ _ Hrep1) as Hs. set (Ls := sll (hmap h)) in *.
  assert (∀ L xs, foldr delete σ Ls !! L = Some xs → L ∉ Ls ∧ fill [] Ls σ !! L = Some xs) as Hf.
  { intros L xs HL. destruct (decide (L ∈ Ls)); [by rewrite delete_all_in in HL|].
    split; [done|]. rewrite delete_all_out in HL by done. by rewrite fill_out. }
  constructor; simpl.
  - intros L xs [HL Hxs]%Hf. rewrite delete_all_out by done. by apply (sr_list _ _ Hs).
  - intros L K xs ys x [_ Hxs]%Hf [_ Hys]%Hf. by apply (sr_disj _ _ Hs).
  - intros x n Hx Hfx. apply (sr_free _ _ Hs x n Hx). intros L xs HL Hin. destruct (decide (L ∈ Ls)).
    + rewrite fill_in in HL by done. injection HL as <-. set_solver.
    + rewrite fill_out in HL by done. apply (Hfx L xs); [by rewrite delete_all_out|done].
  - intros L n. destruct (decide (L ∈ Ls)); [by rewrite delete_all_in|]. rewrite !delete_all_out by done.
    intros E'. destruct (sr_dom _ _ Hs L n E') as [xs Hxs]. rewrite fill_out in Hxs by done. by eexists.
Qed.

(** ** The abstract map *)

(** [h] represents the map [m], and the nodes of [F] are in no list. *)
Definition has_map (h : hmem) (m : gmap (list Z) nid) (F : gset nid) : Prop :=
  ∃ σ, hrep h σ m ∧ ∀ x, x ∈ F → free σ x ∧ is_Some (snext (sm h) !! x) ∧ is_Some (hkeys h !! x).

Inductive op : Type :=
  | Find (k : kid) (klen : Z)
  | ContainKey (k : kid) (klen : Z)
  | Contain (x : nid)
  | Add (k : kid) (klen : Z) (x : nid)
  | Remove (x : nid)
  | RemoveKey (k : kid) (klen : Z)
  | Clear
  | Count.

Inductive res : Type :=
  | RNode (o : option nid)
  | RBool (b : bool)
  | RResult (r : result unit)
  | RUnit
  | RNodes (xs : list nid)
  | RNum (n : Z).

Definition run_op (o : op) : M hmem res :=
  match o with
  | Find k klen => r ← tt_hmap_find k klen; mret (RNode r)
  | ContainKey k klen => b ← tt_hmap_contain_key k klen; mret (RBool b)
  | Contain x => b ← tt_hmap_contain x; mret (RBool b)
  | Add k klen x => r ← try (tt_hmap_add k klen x); mret (RResult r)
  | Remove x => tt_hmap_remove x;; mret RUnit
  | RemoveKey k klen => b ← tt_hmap_remove_key k klen; mret (RBool b)
  | Clear => xs ← tt_hmap_clear; mret (RNodes xs)
  | Count => n ← tt_hmap_count; mret (RNum n)
  end.

(** What a legal call does to the map and to the free nodes; [km] is the memory
    of the keys. *)
Inductive hstep (km : gmap kid (list Z)) (m : gmap (list Z) nid) (F : gset nid) :
    op → res → gmap (list Z) nid → gset nid → Prop :=
  | hs_find k klen bs : bytes_at km k klen = Some bs → hstep km m F (Find k klen) (RNode (m !! bs)) m F
  | hs_contain_key k klen bs : bytes_at km k klen = Some bs →
      hstep km m F (ContainKey k klen) (RBool (bool_decide (is_Some (m !! bs)))) m F
  | hs_contain x b : (b = true ↔ ∃ bs, m !! bs = Some x) → hstep km m F (Contain x) (RBool b) m F
  | hs_add k klen bs x : bytes_at km k klen = Some bs → m !! bs = None → x ∈ F →
      hstep km m F (Add k klen x) (RResult (TT_SUCCESS tt)) (<[bs := x]> m) (F ∖ {[x]})
  | hs_add_dup k klen bs x : bytes_at km k klen = Some bs → is_Some (m !! bs) →
      hstep km m F (Add k klen x) (RResult (TT_ERROR TT_FAIL)) m F
  | hs_remove bs x : m !! bs = Some x → hstep km m F (Remove x) RUnit (delete bs m) ({[x]} ∪ F)
  | hs_remove_key k klen bs x : bytes_at km k klen = Some bs → m !! bs = Some x →
      hstep km m F (RemoveKey k klen) (RBool true) (delete bs m) ({[x]} ∪ F)
  | hs_remove_none k klen bs : bytes_at km k klen = Some bs → m !! bs = None →
      hstep km m F (RemoveKey k klen) (RBool false) m F
  | hs_clear xs : NoDup xs → (∀ x, x ∈ xs ↔ ∃ bs, m !! bs = Some x) →
      hstep km m F Clear (RNodes xs) ∅ (list_to_set xs ∪ F)
  | hs_count : hstep km m F Count (RNum (u32 (Z.of_nat (size m)))) m F.

(** Keys are in memory, an added node is free or its key is taken, a removed
    node is in the map. *)
Definition legal (km : gmap kid (list Z)) (m : gmap (list Z) nid) (F : gset nid) (o : op) : Prop :=
  match o with
  | Find k l | ContainKey k l | RemoveKey k l => 0 ≤ l ∧ is_Some (bytes_at km k l)
  | Add k l x => 0 ≤ l ∧ ∃ bs, bytes_at km k l = Some bs ∧ (x ∈ F ∨ is_Some (m !! bs))
  | Remove x => ∃ bs, m !! bs = Some x
  | Contain _ | Clear | Count => True
  end.

Lemma same_nodes_refl h : same_nodes h h.
Proof. done. Qed.

Lemma has_map_same h σ (F F' : gset nid) h' σ' m' :
  (∀ x, x ∈ F → free σ x ∧ is_Some (snext (sm h) !! x) ∧ is_Some (hkeys h !! x)) →
  hrep h' σ' m' → same_nodes h h' →
  (∀ x, x ∈ F' → free σ' x ∧ (x ∈ F ∨ is_Some (snext (sm h) !! x) ∧ is_Some (hkeys h !! x))) →
  has_map h' m' F'.
Proof.
  intros HF Hrep (_ & Hn & Hk) HF'. exists σ'. split; [done|]. intros x Hx.
  destruct (HF' x Hx) as [Hf Hor]. split; [done|]. rewrite <- !elem_of_dom, Hn, Hk, !elem_of_dom.
  destruct Hor as [Hin|?]; [|done]. by apply HF.
Qed.

(** A node of the map exists, and is free once it is out of its list. *)
Lemma node_there h σ m bs x : hrep h σ m → m !! bs = Some x →
  is_Some (snext (sm h) !! x) ∧ is_Some (hkeys h !! x).
Proof.
  intros Hrep Hm. destruct (hr_map _ _ _ Hrep bs x Hm) as ((k & l & E & _) & L & xs & _ & HL & Hx).
  split; [|by eexists]. destruct (sr_list _ _ (hr_lists _ _ _ Hrep) L xs HL) as (_ & _ & Hc). by eapply chain_in.
Qed.

Lemma free_cut s σ L ys x zs : srep s σ → σ !! L = Some (ys ++ x :: zs) → free (<[L := ys ++ zs]> σ) x.
Proof.
  intros Hs HL K ws HK Hin. pose proof (sr_list s σ Hs L _ HL) as (_ & Hnd & _).
  apply lookup_insert_Some in HK as [[<- <-]|[Hne HK]].
  - rewrite (NoDup_Permutation_proper _ (x :: ys ++ zs)) in Hnd by by rewrite Permutation_middle.
    by apply NoDup_cons in Hnd as [? _].
  - apply Hne, (sr_disj s σ Hs L K (ys ++ x :: zs) ws x); [done..|set_solver|done].
Qed.

Lemma free_sub σ L xs xs' x : σ !! L = Some xs → (∀ y, y ∈ xs' → y ∈ xs) → free σ x → free (<[L := xs']> σ) x.
Proof.
  intros HL Hsub Hf K ws [[<- <-]|[_ HK]]%lookup_insert_Some Hin; [|by apply (Hf K ws)].
  by apply (Hf L xs HL), Hsub.
Qed.

Lemma removed_map h σ m F bs x h' : hrep h σ m →
  (∀ x, x ∈ F → free σ x ∧ is_Some (snext (sm h) !! x) ∧ is_Some (hkeys h !! x)) →
  m !! bs = Some x → removed h σ m bs x h' → has_map h' (delete bs m) ({[x]} ∪ F) ∧ kmem h' = kmem h.
Proof.
  intros Hrep HF Hm (L & ys & zs & HL & Hrep' & Hsn). split; [|apply Hsn].
  eapply has_map_same; [exact HF|done|done|]. intros y [->%elem_of_singleton|Hy]%elem_of_union.
  - split; [by eapply free_cut; [apply Hrep|]|]. right. by eapply node_there.
  - split; [|by left]. eapply free_sub; [done| |by apply HF]. set_solver.
Qed.

Section steps.
Context (h : hmem) (σ : gmap lid (list nid)) (m : gmap (list Z) nid) (F : gset nid) (Hrep : hrep h σ m).
Context (HF : ∀ x, x ∈ F → free σ x ∧ is_Some (snext (sm h) !! x) ∧ is_Some (hkeys h !! x)).

(** The outcome of a call. *)
Definition outcome (o : op) : Prop :=
  ∃ r m' F' h', run_op o h = Ret (TT_SUCCESS r, h') ∧ hstep (kmem h) m F o r m' F' ∧ has_map h' m' F' ∧
    kmem h' = kmem h.

Lemma outcome_same o r : run_op o h = Ret (TT_SUCCESS r, h) → hstep (kmem h) m F o r m F → outcome o.
Proof. intros E Hs. exists r, m, F, h. split_and!; [done|done| |done]. by exists σ. Qed.

Lemma find_step k l : 0 ≤ l → is_Some (bytes_at (kmem h) k l) → outcome (Find k l) ∧ outcome (ContainKey k l).
Proof.
  intros Hl [bs Hb]. pose proof (find_code h σ m Hrep k l bs Hl Hb) as E. split.
  - eapply outcome_same; [|by apply hs_find]. unfold run_op. by rewrite (bind_step _ _ _ _ _ E).
  - eapply outcome_same; [|by apply hs_contain_key]. unfold run_op, tt_hmap_contain_key. m_simpl. rewrite E.
    do 4 f_equal. apply bool_decide_ext. by rewrite not_eq_None_Some.
Qed.

Lemma add_step k l bs x : 0 ≤ l → bytes_at (kmem h) k l = Some bs → x ∈ F ∨ is_Some (m !! bs) →
  outcome (Add k l x).
Proof.
  intros Hl Hb Hor. destruct (m !! bs) as [y|] eqn:Hm.
  - eapply outcome_same; [|by apply (hs_add_dup _ _ _ k l bs); [|rewrite Hm; eexists]].
    unfold run_op. m_simpl. by rewrite (add_dup h σ m Hrep k l bs x y Hl Hb Hm).
  - destruct Hor as [Hx|[? ?]]; [|done]. destruct (HF x Hx) as (Hf & Hn & Hk).
    destruct (add_code h σ m Hrep k l bs x Hl Hb Hm Hn Hk Hf) as (h' & L & xs & E & HL & Hrep' & Hsn).
    eexists _, _, _, h'. split_and!; [|by apply (hs_add _ _ _ k l bs)| |apply Hsn].
    + unfold run_op. m_simpl. by rewrite E.
    + eapply has_map_same; [exact HF|done|done|]. intros y [Hy Hne]%elem_of_difference. split; [|by left].
      destruct (HF y Hy) as (Hfy & _). intros K ws [[_ <-]|[_ HK]]%lookup_insert_Some Hin;
        [pose proof (Hfy L xs HL); set_solver|by apply (Hfy K ws)].
Qed.

Lemma remove_key_step k l : 0 ≤ l → is_Some (bytes_at (kmem h) k l) → outcome (RemoveKey k l).
Proof.
  intros Hl [bs Hb]. destruct (m !! bs) as [x|] eqn:Hm.
  - destruct (remove_key_some h σ m Hrep k l bs x Hl Hb Hm) as (h' & E & Hr).
    destruct (removed_map h σ m F bs x h' Hrep HF Hm Hr) as [Hm' Hk].
    eexists _, _, _, h'. split_and!; [|by apply (hs_remove_key _ _ _ k l bs)|done|done].
    unfold run_op. by rewrite (bind_step _ _ _ _ _ E).
  - eapply outcome_same; [|by apply (hs_remove_none _ _ _ k l bs)]. unfold run_op.
    by rewrite (bind_step _ _ _ _ _ (remove_key_none h σ m Hrep k l bs Hl Hb Hm)).
Qed.

Lemma clear_step : outcome Clear.
Proof.
  destruct (hm_clear_code h σ m Hrep) as (h' & E & Hrep' & Hsn & Hsl).
  destruct (all_nodes_spec h σ m Hrep) as [Hnd Hin].
  eexists _, _, _, h'. split_and!; [|by apply (hs_clear _ _ _ (all_nodes h σ))| |apply Hsn].
  - unfold run_op. by rewrite (bind_step _ _ _ _ _ E).
  - eapply has_map_same; [exact HF|done|done|].
    assert (∀ x, free σ x ∨ x ∈ all_nodes h σ → free (fill [] (sll (hmap h)) σ) x) as Hfree.
    { intros x Hx L xs HL Hin'. destruct (decide (L ∈ sll (hmap h))) as [Hs|Hs].
      - rewrite fill_in in HL by done. injection HL as <-. set_solver.
      - rewrite fill_out in HL by done. destruct Hx as [Hf|Hx]; [by apply (Hf L xs)|].
        apply elem_of_slots in Hx as (K & ys & HK & Hys & Hy). apply Hs.
        by rewrite (sr_disj _ _ (hr_lists _ _ _ Hrep) L K xs ys x). }
    intros y [Hy%elem_of_list_to_set|Hy]%elem_of_union; (split; [apply Hfree|]).
    + by right.
    + right. apply Hin in Hy as [bs Hm]. by eapply node_there.
    + left. by apply HF.
    + by left.
Qed.

Lemma op_step o : legal (kmem h) m F o → outcome o.
Proof.
  destruct o as [k l|k l|x|k l x|x|k l| |]; cbn [legal].
  - intros [Hl Hb]. by apply find_step.
  - intros [Hl Hb]. by apply find_step.
  - intros _. eapply outcome_same; [unfold run_op; by rewrite (bind_step _ _ _ _ _ (hm_contain_code h σ m Hrep x))|].
    apply hs_contain. rewrite bool_decide_eq_true. by apply all_nodes_spec.
  - intros (Hl & bs & Hb & Hor). by eapply add_step.
  - intros [bs Hm]. destruct (hm_remove_code h σ m Hrep bs x Hm) as (h' & E & Hr).
    destruct (removed_map h σ m F bs x h' Hrep HF Hm Hr) as [Hm' Hk].
    eexists _, _, _, h'. split_and!; [|by apply (hs_remove _ _ _ bs)|done|done].
    unfold run_op. by rewrite (bind_step _ _ _ _ _ E).
  - intros [Hl Hb]. by apply remove_key_step.
  - intros _. apply clear_step.
  - intros _. eapply outcome_same; [|apply hs_count]. unfold run_op, tt_hmap_count. m_simpl.
    by rewrite (hr_count _ _ _ Hrep).
Qed.
End steps.

(** Any sequence of calls that are legal when they are made. *)
Inductive hruns (km : gmap kid (list Z)) : gmap (list Z) nid → gset nid → list op → list res →
    gmap (list Z) nid → gset nid → Prop :=
  | hr_nil m F : hruns km m F [] [] m F
  | hr_cons m F o r m' F' os rs m'' F'' : hstep km m F o r m' F' → hruns km m' F' os rs m'' F'' →
      hruns km m F (o :: os) (r :: rs) m'' F''.

(** [os] stays legal whatever the nondeterministic answers are. *)
Fixpoint legal_run (km : gmap kid (list Z)) (m : gmap (list Z) nid) (F : gset nid) (os : list op) : Prop :=
  match os with
  | [] => True
  | o :: os => legal km m F o ∧ ∀ r m' F', hstep km m F o r m' F' → legal_run km m' F' os
  end.

Fixpoint run_ops (os : list op) : M hmem (list res) :=
  match os with
  | [] => mret []
  | o :: os => r ← run_op o; rs ← run_ops os; mret (r :: rs)
  end.

Lemma runs_step os : ∀ h m F, has_map h m F → legal_run (kmem h) m F os →
  ∃ rs m' F' h', run_ops os h = Ret (TT_SUCCESS rs, h') ∧ hruns (kmem h) m F os rs m' F' ∧ has_map h' m' F'.
Proof.
  induction os as [|o os IH]; intros h m F Hm Hl.
  - exists [], m, F, h. split_and!; [done|constructor|done].
  - destruct Hl as [Ho Hos]. destruct Hm as (σ & Hrep & HF).
    destruct (op_step h σ m F Hrep HF o Ho) as (r & m1 & F1 & h1 & E & Hs & Hm1 & Hk).
    destruct (IH h1 m1 F1 Hm1) as (rs & m2 & F2 & h2 & E2 & Hr & Hm2); [rewrite Hk; by eapply Hos|].
    exists (r :: rs), m2, F2, h2. cbn [run_ops]. rewrite (bind_step _ _ _ _ _ E), (bind_step _ _ _ _ _ E2).
    split_and!; [done| |done]. rewrite Hk in Hr. by eapply hr_cons.
Qed.

(** The client's loop over an iterator. *)
Fixpoint iterate (fuel : nat) (it : tt_hmap_iter_t) : M hmem (list nid) :=
  match fuel with
  | O => λ _, Diverge
  | S fuel =>
      '(x, it) ← tt_hmap_iter_next it;
      match x with None => mret [] | Some x => xs ← iterate fuel it; mret (x :: xs) end
  end.

Lemma iterate_ok h σ m : hrep h σ m → ∀ rest fuel it, iter_at h σ it rest → (length rest < fuel)%nat →
  iterate fuel it h = Ret (TT_SUCCESS rest, h).
Proof.
  intros Hrep. induction rest as [|x rest IH]; intros [|fuel] it Hi Hl; simpl in Hl; try lia; cbn [iterate];
    destruct (iter_next_code h σ m Hrep it _ Hi) as (it' & E & Hi'); rewrite (bind_step _ _ _ _ _ E); [done|].
  cbn [hd_or tail] in *. by rewrite (bind_step _ _ _ _ _ (IH fuel it' Hi' ltac:(lia))).
Qed.

(** ** Properties *)

(** C11: any sequence of legal calls on a hash map does what it does to a finite
    map from keys to nodes, whatever the hash function: finding returns the node
    of the key, adding fails exactly if the key is there, removing and clearing
    free the nodes, the count is the size of the map modulo 2 ^ 32; every loop
    ends and no call leaves the memory. *)
Theorem hmap_refines h m F os : has_map h m F → legal_run (kmem h) m F os →
  ∃ rs m' F' h', run_ops os h = Ret (TT_SUCCESS rs, h') ∧ hruns (kmem h) m F os rs m' F' ∧ has_map h' m' F'.
Proof. apply runs_step. Qed.

(** C12: iterating delivers every node of the map exactly once and then ends, and
    visiting with a callback gives it the same nodes in the same order until it
    stops; neither changes the map. *)
Theorem hmap_visits {P} h m F (action : option kid → Z → nid → P → bool * P) q : has_map h m F →
  ∃ ns it, NoDup ns ∧ (∀ x, x ∈ ns ↔ ∃ bs, m !! bs = Some x) ∧
    tt_hmap_iter h = Ret (TT_SUCCESS it, h) ∧ iterate (S (length ns)) it h = Ret (TT_SUCCESS ns, h) ∧
    tt_hmap_foreach action q h = Ret (TT_SUCCESS (fold_stop (act h action) ns q).2, h).
Proof.
  intros (σ & Hrep & _). destruct (all_nodes_spec h σ m Hrep) as [Hnd Hin].
  destruct (iter_code h σ m Hrep) as (it & Ei & Hi). exists (all_nodes h σ), it. split_and!; [done..| |].
  - by apply (iterate_ok h σ m Hrep); [|lia].
  - by apply (foreach_code h σ m Hrep).
Qed.

(** Creation over an array of list objects gives the empty map and keeps the
    other lists; destruction hands every node of the map to the callback exactly
    once and leaves the other lists and all nodes in order; a failed allocation is
    reported and changes nothing. *)
Theorem hmap_lifecycle h σ Ls rand n attr : srep_but Ls (sm h) σ → NoDup Ls →
  (∀ L, L ∈ Ls → is_Some (shead (sm h) !! L)) → zlen Ls = n → 0 < n < 2 ^ 32 →
  tt_hmap_create None rand n attr h = Ret (TT_ERROR TT_FAIL, h) ∧
  (∃ h1, tt_hmap_create (Some Ls) rand n attr h = Ret (TT_SUCCESS tt, h1) ∧ hrep h1 (fill [] Ls σ) ∅ ∧
    kmem h1 = kmem h) ∧
  ∀ h1 σ1 m, hrep h1 σ1 m → ∃ h2 ns, tt_hmap_destroy h1 = Ret (TT_SUCCESS ns, h2) ∧ NoDup ns ∧
    (∀ x, x ∈ ns ↔ ∃ bs, m !! bs = Some x) ∧ srep (sm h2) (foldr delete σ1 (sll (hmap h1))).
Proof.
  intros Hs Hnd Hin Hn Hpos. split_and!.
  - unfold tt_hmap_create. by rewrite (proj2 (Z.eqb_neq n 0)) by lia.
  - destruct (create_code h σ Ls rand n attr Hs Hnd Hin Hn Hpos) as (h1 & E & Hr & _ & _ & Hk & _). by exists h1.
  - intros h1 σ1 m Hrep. destruct (destroy_code h1 σ1 m Hrep) as (h2 & E & Hs2).
    destruct (all_nodes_spec h1 σ1 m Hrep). by exists h2, (all_nodes h1 σ1).
Qed.

(** Removing a node that is not in the map, for example twice, changes no
    list but decrements the count, which then is not the size of the map any
    more: 2 ^ 32 - 1 for an empty one. *)
Theorem hmap_remove_absent h m F x bs : has_map h m F → x ∈ F → key_ok h x bs →
  ∃ h', tt_hmap_remove x h = Ret (TT_SUCCESS tt, h') ∧ sm h' = sm h ∧
    count (hmap h') = u32 (Z.of_nat (size m) - 1).
Proof.
  intros (σ & Hrep & HF) Hx (k & l & Ek & Hl & Hb). destruct (HF x Hx) as (Hf & Hn & _).
  destruct (slot_ok h σ m Hrep bs) as (L & xs & HL & Hxs & _).
  unfold tt_hmap_remove, hnode. m_simpl. rewrite Ek. cbn. rewrite (find_sll_ok h σ m Hrep k l bs L Hb HL).
  unfold on_sm, zoom. cbn. rewrite (remove_free_code _ σ (hr_lists _ _ _ Hrep) L xs x Hxs Hn Hf). cbn.
  eexists. split; [done|]. split; [done|]. simpl. rewrite (hr_count _ _ _ Hrep). unfold Z.sub.
  by rewrite u32_add_l.
Qed.

(** ** Witnesses *)

(** Two nodes, two list objects with any heads, two keys. *)
Definition demo_mem : hmem :=
  mk_hmem (mk_smem {[ 1%positive := None; 2%positive := None ]} {[ 1%positive := Some 9%positive; 2%positive := None ]})
    {[ 1%positive := mk_hkey None 0; 2%positive := mk_hkey None 0 ]}
    {[ 1%positive := [97; 98]; 2%positive := [97; 99] ]}
    (mk_hashmap [] TT_HASH_ALG_MURMUR3 (mk_hashctx 0) 0 0).

Definition demo_created : hmem :=
  match tt_hmap_create (Some [1; 2]%positive) 7 2 None demo_mem with Ret (_, h) => h | _ => demo_mem end.

Lemma demo_lifecycle :
  srep_but [1; 2]%positive (sm demo_mem) ∅ ∧ NoDup [1; 2]%positive ∧
  (∀ L, L ∈ [1; 2]%positive → is_Some (shead (sm demo_mem) !! L)).
Proof.
  split_and!.
  - split; [|intros; apply lookup_empty]. constructor.
    + intros L xs. by rewrite lookup_empty.
    + intros L K xs ys x. by rewrite lookup_empty.
    + intros x n Hx _. simpl in Hx. apply lookup_insert_Some in Hx as [[_ <-]|[_ Hx]]; [done|].
      by apply lookup_singleton_Some in Hx as [_ <-].
    + intros L n Hn. vm_compute in Hn. by destruct L as [[]|[]|].
  - repeat (apply NoDup_cons; split; [set_solver|]). constructor.
  - intros L [->|[->|?%not_elem_of_nil]%elem_of_cons]%elem_of_cons; [by eexists..|done].
Qed.

Lemma demo_map : has_map demo_created ∅ {[ 1%positive; 2%positive ]}.
Proof.
  destruct demo_lifecycle as (Hs & Hnd & Hin).
  destruct (create_code demo_mem ∅ [1; 2]%positive 7 2 None Hs Hnd Hin eq_refl ltac:(lia))
    as (h' & E & Hrep & Hn & Hk & _).
  assert (demo_created = h') as -> by (unfold demo_created; by rewrite E).
  exists (fill [] [1; 2]%positive ∅). split; [done|]. intros x Hx. split_and!.
  - intros L xs HL. destruct (decide (L ∈ [1; 2]%positive)) as [Hl|Hl].
    + rewrite fill_in in HL by done. injection HL as <-. set_solver.
    + by rewrite fill_out, lookup_empty in HL.
  - rewrite Hn. apply elem_of_union in Hx as [->%elem_of_singleton| ->%elem_of_singleton]; by eexists.
  - rewrite Hk. apply elem_of_union in Hx as [->%elem_of_singleton| ->%elem_of_singleton]; by eexists.
Qed.

Definition demo_ops : list op := [Add 1 2 1; Find 1 2; Add 1 2 2; RemoveKey 1 2; Find 1 2; Count]%positive.

Example hm_demo_run : ∃ h', run_ops demo_ops demo_created = Ret (TT_SUCCESS
  [RResult (TT_SUCCESS tt); RNode (Some 1%positive); RResult (TT_ERROR TT_FAIL); RBool true; RNode None; RNum 0], h').
Proof. eexists. vm_compute. reflexivity. Qed.

Lemma hmap_refines_witness :
  ∃ rs m' F' h', run_ops demo_ops demo_created = Ret (TT_SUCCESS rs, h') ∧
    hruns (kmem demo_created) ∅ {[ 1%positive; 2%positive ]} demo_ops rs m' F' ∧ has_map h' m' F'.
Proof.
  apply (hmap_refines demo_created ∅ {[ 1%positive; 2%positive ]} demo_ops demo_map).
  assert (bytes_at (kmem demo_created) 1 2 = Some [97; 98]) as Hb by (vm_compute; reflexivity).
  unfold demo_ops. cbn [legal_run legal]. split; [split; [lia|]; exists [97; 98]; set_solver|].
  intros r m' F' Hs. split; [split; [lia|by eexists]|].
  intros r1 m1 F1 Hs1. assert (is_Some (m1 !! [97; 98])) as Hm1.
  { inversion Hs1; subst; clear Hs1. inversion Hs; subst; [|done]. assert (bs0 = [97; 98]) as -> by congruence.
    rewrite lookup_insert_eq. by eexists. }
  split; [split; [lia|]; exists [97; 98]; split; [done|by right]|].
  intros r2 m2 F2 Hs2. split; [split; [lia|by eexists]|].
  intros r3 m3 F3 Hs3. split; [split; [lia|by eexists]|]. done.
Defined.

Lemma hmap_visits_witness : ∃ ns it, NoDup ns ∧ (∀ x, x ∈ ns ↔ ∃ bs, (∅ : gmap (list Z) nid) !! bs = Some x) ∧
  tt_hmap_iter demo_created = Ret (TT_SUCCESS it, demo_created) ∧
  iterate (S (length ns)) it demo_created = Ret (TT_SUCCESS ns, demo_created) ∧
  tt_hmap_foreach (λ _ _ _ n, (true, n + 1)) 0 demo_created =
    Ret (TT_SUCCESS (fold_stop (act demo_created (λ _ _ _ n, (true, n + 1))) ns 0).2, demo_created).
Proof. apply (hmap_visits demo_created ∅ _ (λ _ _ _ n, (true, n + 1)) 0 demo_map). Defined.

Lemma hmap_lifecycle_witness :
  ∃ h1, tt_hmap_create (Some [1; 2]%positive) 7 2 None demo_mem = Ret (TT_SUCCESS tt, h1) ∧
    hrep h1 (fill [] [1; 2]%positive ∅) ∅ ∧ kmem h1 = kmem demo_mem.
Proof.
  apply (hmap_lifecycle demo_mem ∅ [1; 2]%positive 7 2 None (proj1 demo_lifecycle)
    (proj1 (proj2 demo_lifecycle)) (proj2 (proj2 demo_lifecycle)) eq_refl ltac:(lia)).
Defined.

(** The key field of a node that is not in the map is set. *)
Definition demo_absent : hmem :=
  set_hkeys (<[1%positive := mk_hkey (Some 1%positive) 2]> (hkeys demo_created)) demo_created.

Lemma demo_absent_map : has_map demo_absent ∅ {[ 1%positive ]}.
Proof.
  destruct demo_map as (σ & Hrep & HF). exists σ. split.
  - destruct Hrep as [H1 H2 H3 H4 H5 H6 H7]. constructor; try assumption.
    + intros i L xs x HL Hxs Hx. destruct (H5 i L xs x HL Hxs Hx) as (bs & _ & _ & Hb).
      by rewrite lookup_empty in Hb.
    + intros bs x. by rewrite lookup_empty.
  - intros x ->%elem_of_singleton. destruct (HF 1%positive) as (? & ? & _); [set_solver|].
    split_and!; [done|done|]. simpl. rewrite lookup_insert_eq. by eexists.
Qed.

Lemma hmap_remove_absent_witness :
  ∃ h', tt_hmap_remove 1 demo_absent = Ret (TT_SUCCESS tt, h') ∧ sm h' = sm demo_absent ∧
    count (hmap h') = 4294967295.
Proof.
  apply (hmap_remove_absent demo_absent ∅ {[ 1%positive ]} 1 [97; 98] demo_absent_map); [set_solver|].
  exists 1%positive, 2. split_and!; [simpl; by rewrite lookup_insert_eq|lia|vm_compute; reflexivity].
Defined.
