(* ===== verification/RbTree.v ===== *)
(** The red-black tree (algorithm/tt_red_black_tree.h and .c): nodes with parent
    pointers in the caller's memory, and one sentinel node for every missing
    child.  This file holds the code; [RbShape] the trees it works on, [RbProofs]
    what it does. *)

From S2P Require Import Prelude.
From stdpp Require Import gmap.

#[local] Open Scope Z_scope.

(** ** Keys *)

(** [tt_cmpkey_t]: the sign of the result orders a node's key and a key. *)
Notation cmpkey_t K := (K → K → Z) (only parsing).

(** [memcmp]: the sign is that of the first difference. *)
Fixpoint memcmp (a b : list Z) : Z :=
  match a, b with
  | x :: a, y :: b => if x =? y then memcmp a b else x - y
  | _, _ => 0
  end.

(** The default order: shorter keys first. *)
Definition __rbn_cmpkey (node_key key : list Z) : Z :=
  if zlen node_key <? zlen key then -1
  else if zlen node_key =? zlen key then memcmp node_key key
  else 1.

(** ** Memory *)

Notation nid := positive (only parsing).

(** The pointer and length of a key are the key itself. *)
Record tt_rbnode_t (K : Type) : Type := mk_rbnode {
  parent : option nid;
  left : option nid;
  right : option nid;
  key : option K;
  black : bool;
}.
Arguments mk_rbnode {K} parent left right key black.
Arguments parent {K} _.
Arguments left {K} _.
Arguments right {K} _.
Arguments key {K} _.
Arguments black {K} _.

(** The nodes, the sentinel [tnil] among them, and the fields of the tree. *)
Record rbmem (K : Type) : Type := mk_rbmem {
  nodes : gmap nid (tt_rbnode_t K);
  tnil : nid;
  root : nid;
  count : Z;
}.
Arguments mk_rbmem {K} nodes tnil root count.
Arguments nodes {K} _.
Arguments tnil {K} _.
Arguments root {K} _.
Arguments count {K} _.

Section rbtree.
Context {K : Type} (cmpkey : cmpkey_t K).
Implicit Types (v : tt_rbnode_t K).

Definition set_parent (p : option nid) v := mk_rbnode p (left v) (right v) (key v) (black v).
Definition set_left (p : option nid) v := mk_rbnode (parent v) p (right v) (key v) (black v).
Definition set_right (p : option nid) v := mk_rbnode (parent v) (left v) p (key v) (black v).
Definition set_black (b : bool) v := mk_rbnode (parent v) (left v) (right v) (key v) b.

(** The code has every rotation and every case of the fixups twice, with left and
    right exchanged; [side] says which. *)
Inductive side : Type := L | R.
Definition opp (d : side) : side := match d with L => R | R => L end.
Definition child (d : side) v : option nid := match d with L => left v | R => right v end.
Definition set_child (d : side) : option nid → tt_rbnode_t K → tt_rbnode_t K :=
  match d with L => set_left | R => set_right end.

(** Reading and writing through a pointer. *)
Definition get {A} (f : tt_rbnode_t K → A) (p : option nid) : M (rbmem K) A := λ h,
  match p with
  | Some x => match nodes h !! x with Some v => Ret (TT_SUCCESS (f v), h) | None => Undef end
  | None => Undef
  end.
Definition put (p : option nid) (f : tt_rbnode_t K → tt_rbnode_t K) : M (rbmem K) unit := λ h,
  match p with
  | Some x =>
      match nodes h !! x with
      | Some v => Ret (TT_SUCCESS tt, mk_rbmem (<[x := f v]> (nodes h)) (tnil h) (root h) (count h))
      | None => Undef
      end
  | None => Undef
  end.
Definition set_root (p : option nid) : M (rbmem K) unit := λ h,
  match p with
  | Some x => Ret (TT_SUCCESS tt, mk_rbmem (nodes h) (tnil h) x (count h))
  | None => Undef
  end.
Definition add_count (d : Z) (h : rbmem K) : rbmem K :=
  mk_rbmem (nodes h) (tnil h) (root h) (u32 (count h + d)).

Definition nilp : M (rbmem K) (option nid) := gets (λ h, Some (tnil h)).
Definition rootp : M (rbmem K) (option nid) := gets (λ h, Some (root h)).

(** [p == q] *)
Definition same (p q : option nid) : bool := bool_decide (p = q).

(** A loop that runs at most once for each node and once more. *)
Definition bounded {A} (loop : nat → M (rbmem K) A) : M (rbmem K) A := λ h, loop (S (size (nodes h))) h.
#[global] Arguments bounded : simpl never.

(** ** Helpers *)

(** [__rbt_min] for [L], [__rbt_max] for [R]. *)
Fixpoint extreme_loop (d : side) (from : option nid) (fuel : nat) : M (rbmem K) (option nid) :=
  match fuel with
  | O => λ _, Diverge
  | S fuel =>
      nil ← nilp;
      c ← get (child d) from;
      if same c nil then mret from else extreme_loop d c fuel
  end.
Definition extreme (d : side) (from : option nid) : M (rbmem K) (option nid) :=
  nil ← nilp;
  assert_always (negb (same from nil));;
  bounded (extreme_loop d from).
Definition __rbt_min : option nid → M (rbmem K) (option nid) := extreme L.
Definition __rbt_max : option nid → M (rbmem K) (option nid) := extreme R.

(** Where [x] is a child of its parent [px], or the root, [y] takes its place. *)
Definition replace_child (px x y : option nid) : M (rbmem K) unit :=
  nil ← nilp;
  if same px nil then set_root y
  else
    l ← get left px;
    if same x l then put px (set_left y) else put px (set_right y).

Definition __rbn_transplant (u v : option nid) : M (rbmem K) unit :=
  pu ← get parent u;
  replace_child pu u v;;
  pu ← get parent u;
  put v (set_parent pu).

Definition rbnode_blank : tt_rbnode_t K := mk_rbnode None None None None false.
Definition tt_rbnode_init (x : option nid) : M (rbmem K) unit := put x (λ _, rbnode_blank).

(** The memory of a tree whose sentinel is at [tnil h]. *)
Definition tt_rbtree_init : M (rbmem K) unit :=
  nil ← nilp;
  set_root nil;;
  tt_rbnode_init nil;;
  put nil (set_black true);;
  modify (λ h, mk_rbmem (nodes h) (tnil h) (root h) 0).

Definition tt_rbtree_root : M (rbmem K) (option nid) :=
  nil ← nilp; r ← rootp; mret (if same r nil then None else r).
Definition tt_rbtree_count : M (rbmem K) Z := gets count.
Definition tt_rbtree_empty : M (rbmem K) bool := n ← tt_rbtree_count; mret (n =? 0).

Definition tt_rbtree_extreme (d : side) : M (rbmem K) (option nid) :=
  nil ← nilp;
  r ← rootp;
  if same r nil then mret None else extreme d r.
Definition tt_rbtree_min : M (rbmem K) (option nid) := tt_rbtree_extreme L.
Definition tt_rbtree_max : M (rbmem K) (option nid) := tt_rbtree_extreme R.

(** Up while [node] is the child on side [d]; [tt_rbtree_next] for [R],
    [tt_rbtree_prev] for [L]. *)
Fixpoint climb (d : side) (node p : option nid) (fuel : nat) : M (rbmem K) (option nid) :=
  match fuel with
  | O => λ _, Diverge
  | S fuel =>
      nil ← nilp;
      if same p nil then mret None
      else
        c ← get (child d) p;
        if same node c then pp ← get parent p; climb d p pp fuel else mret p
  end.
Definition neighbour (d : side) (node : option nid) : M (rbmem K) (option nid) :=
  nil ← nilp;
  c ← get (child d) node;
  if same c nil then p ← get parent node; bounded (climb d node p)
  else extreme (opp d) c.
Definition tt_rbtree_next : option nid → M (rbmem K) (option nid) := neighbour R.
Definition tt_rbtree_prev : option nid → M (rbmem K) (option nid) := neighbour L.

(** [tree->cmpkey(node, key, key_len)] *)
Definition compare (node : option nid) (k : K) : M (rbmem K) Z :=
  nk ← get key node;
  match nk with Some nk => mret (cmpkey nk k) | None => undef end.

(** The three searches differ in the node [best] they return if no key is equal:
    none, the last one where they went left, the last one where they went right. *)
Fixpoint find_loop (keep : option side) (k : K) (node best : option nid) (fuel : nat)
    : M (rbmem K) (option nid) :=
  match fuel with
  | O => λ _, Diverge
  | S fuel =>
      nil ← nilp;
      if same node nil then mret best
      else
        r ← compare node k;
        if 0 <? r then
          n ← get left node;
          find_loop keep k n (match keep with Some L => node | _ => best end) fuel
        else if r =? 0 then mret node
        else
          n ← get right node;
          find_loop keep k n (match keep with Some R => node | _ => best end) fuel
  end.
Definition search (keep : option side) (k : K) : M (rbmem K) (option nid) :=
  r ← rootp; bounded (find_loop keep k r None).
Definition tt_rbtree_find : K → M (rbmem K) (option nid) := search None.
Definition tt_rbtree_find_gteq : K → M (rbmem K) (option nid) := search (Some L).
Definition tt_rbtree_find_lteq : K → M (rbmem K) (option nid) := search (Some R).

(** ** Rotations *)

(** [__rbt_left_rotate] for [L]. *)
Definition rot (d : side) (x : option nid) : M (rbmem K) unit :=
  nil ← nilp;
  y ← get (child (opp d)) x;
  assert_always (negb (same y nil));;
  b ← get (child d) y;
  put x (set_child (opp d) b);;
  (if same b nil then mret tt else put b (set_parent x));;
  px ← get parent x;
  put y (set_parent px);;
  replace_child px x y;;
  put y (set_child d x);;
  put x (set_parent y).
Definition __rbt_left_rotate : option nid → M (rbmem K) unit := rot L.
Definition __rbt_right_rotate : option nid → M (rbmem K) unit := rot R.

(** ** Insertion *)

(** One round of the loop for a red parent on side [d] of the grandparent; gives
    the next [z]. *)
Definition add_fixup_side (d : side) (z : option nid) : M (rbmem K) (option nid) :=
  zp ← get parent z;
  g ← get parent zp;
  y ← get (child (opp d)) g;
  yb ← get black y;
  if negb yb then
    put zp (set_black true);;
    put y (set_black true);;
    put g (set_black false);;
    mret g
  else
    c ← get (child (opp d)) zp;
    z ← (if same z c then rot d zp;; mret zp else mret z);
    zp ← get parent z;
    put zp (set_black true);;
    g ← get parent zp;
    put g (set_black false);;
    rot (opp d) g;;
    mret z.

Fixpoint add_fixup_loop (z : option nid) (fuel : nat) : M (rbmem K) unit :=
  match fuel with
  | O => λ _, Diverge
  | S fuel =>
      zp ← get parent z;
      b ← get black zp;
      if b : bool then mret tt
      else
        g ← get parent zp;
        gl ← get left g;
        z ← add_fixup_side (if same zp gl then L else R) z;
        add_fixup_loop z fuel
  end.
Definition __rbt_add_fixup (z : option nid) : M (rbmem K) unit :=
  bounded (add_fixup_loop z);; r ← rootp; put r (set_black true).

(** The way down to the place of a new key: the last node, and whether the place
    is at its left. *)
Fixpoint add_descend (k : K) (x y : option nid) (left_ : bool) (fuel : nat) : M (rbmem K) (option nid * bool) :=
  match fuel with
  | O => λ _, Diverge
  | S fuel =>
      nil ← nilp;
      if same x nil then mret (y, left_)
      else
        r ← compare x k;
        if 0 <? r then n ← get left x; add_descend k n x true fuel
        else n ← get right x; add_descend k n x false fuel
  end.

Definition tt_rbtree_add (k : K) (z : option nid) : M (rbmem K) unit :=
  nil ← nilp;
  r ← rootp;
  zp ← get parent z;
  assert_always (same zp None);;
  '(y, left_) ← bounded (add_descend k r nil false);
  put z (set_parent y);;
  (if same y nil then set_root z
   else if left_ : bool then put y (set_left z) else put y (set_right z));;
  put z (set_left nil);;
  put z (set_right nil);;
  put z (λ v, mk_rbnode (parent v) (left v) (right v) (Some k) false);;
  __rbt_add_fixup z;;
  modify (add_count 1).

(** ** Removal *)

(** The round once the sibling [w] is black. *)
Definition remove_fixup_black (d : side) (x w : option nid) : M (rbmem K) (option nid) :=
  wl ← get left w;
  wlb ← get black wl;
  wr ← get right w;
  wrb ← get black wr;
  if wlb && wrb then
    put w (set_black false);;
    get parent x
  else
    w ← (if match d with L => wrb | R => wlb end then
           wn ← get (child d) w;
           put wn (set_black true);;
           put w (set_black false);;
           rot (opp d) w;;
           xp ← get parent x;
           get (child (opp d)) xp
         else mret w);
    xp ← get parent x;
    pb ← get black xp;
    put w (set_black pb);;
    put xp (set_black true);;
    wf ← get (child (opp d)) w;
    put wf (set_black true);;
    rot d xp;;
    rootp.

(** One round of the loop for [x] on side [d] of its parent; gives the next [x]. *)
Definition remove_fixup_side (d : side) (x : option nid) : M (rbmem K) (option nid) :=
  xp ← get parent x;
  w ← get (child (opp d)) xp;
  wb ← get black w;
  w ← (if negb wb then
         put w (set_black true);;
         put xp (set_black false);;
         rot d xp;;
         xp ← get parent x;
         get (child (opp d)) xp
       else mret w);
  remove_fixup_black d x w.

Fixpoint remove_fixup_loop (x : option nid) (fuel : nat) : M (rbmem K) (option nid) :=
  match fuel with
  | O => λ _, Diverge
  | S fuel =>
      r ← rootp;
      xb ← get black x;
      if same x r || negb xb then mret x
      else
        xp ← get parent x;
        l ← get left xp;
        x ← remove_fixup_side (if same x l then L else R) x;
        remove_fixup_loop x fuel
  end.
Definition __rbt_remove_fixup (x : option nid) : M (rbmem K) unit :=
  x ← bounded (remove_fixup_loop x); put x (set_black true).

(** Taking [z] out of the tree: the colour that is lost and the node that moved up. *)
Definition unlink (z : option nid) : M (rbmem K) (bool * option nid) :=
  nil ← nilp;
  zl ← get left z;
  zr ← get right z;
  if same zl nil then
    b ← get black z;
    __rbn_transplant z zr;;
    mret (b, zr)
  else if same zr nil then
    b ← get black z;
    __rbn_transplant z zl;;
    mret (b, zl)
  else
    y ← __rbt_min zr;
    b ← get black y;
    x ← get right y;
    yp ← get parent y;
    (if same yp z then put x (set_parent y)
     else
       __rbn_transplant y x;;
       zr ← get right z;
       put y (set_right zr);;
       put zr (set_parent y));;
    __rbn_transplant z y;;
    zl ← get left z;
    put y (set_left zl);;
    put zl (set_parent y);;
    zb ← get black z;
    put y (set_black zb);;
    mret (b, x).

Definition tt_rbtree_remove (z : option nid) : M (rbmem K) unit :=
  zp ← get parent z;
  if same zp None then mret tt
  else
    '(b, x) ← unlink z;
    (if b : bool then __rbt_remove_fixup x else mret tt);;
    tt_rbnode_init z;;
    modify (add_count (-1)).

(** ** The checks of debug builds *)

Fixpoint expensive_check (node : option nid) (fuel : nat) : M (rbmem K) Z :=
  match fuel with
  | O => λ _, Diverge
  | S fuel =>
      nil ← nilp;
      b ← get black node;
      if same node nil then (if b : bool then mret 1 else fail TT_FAIL)
      else
        r ← rootp;
        (if same node r && negb b then fail TT_FAIL else mret tt);;
        l ← get left node;
        rt ← get right node;
        lb ← get black l;
        rb ← get black rt;
        (if negb b && (negb lb || negb rb) then fail TT_FAIL else mret tt);;
        left_bh ← do_r TT_FAIL (expensive_check l fuel);
        right_bh ← do_r TT_FAIL (expensive_check rt fuel);
        if negb (left_bh =? right_bh) then fail TT_FAIL
        else mret (if b then u32 (left_bh + 1) else left_bh)
  end.
Definition __rbt_expensive_check (node : option nid) : M (rbmem K) Z := bounded (expensive_check node).

Fixpoint rbt_count (node : option nid) (fuel : nat) : M (rbmem K) Z :=
  match fuel with
  | O => λ _, Diverge
  | S fuel =>
      nil ← nilp;
      if same node nil then mret 0
      else
        l ← get left node;
        a ← rbt_count l fuel;
        r ← get right node;
        b ← rbt_count r fuel;
        mret (u32 (a + b + 1))
  end.
Definition __rbt_count (node : option nid) : M (rbmem K) Z := bounded (rbt_count node).
End rbtree.

(** The memory of an empty tree with blank nodes, for trying the code. *)
Definition demo_rb : rbmem (list Z) :=
  mk_rbmem {[ 1%positive := mk_rbnode None None None None true; 2%positive := rbnode_blank;
    3%positive := rbnode_blank; 4%positive := rbnode_blank; 5%positive := rbnode_blank ]} 1 1 0.

Example rb_try : exists h, (
  tt_rbtree_add __rbn_cmpkey [3] (Some 2%positive);;
  tt_rbtree_add __rbn_cmpkey [1] (Some 3%positive);;
  tt_rbtree_add __rbn_cmpkey [2] (Some 4%positive);;
  tt_rbtree_add __rbn_cmpkey [1] (Some 5%positive);;
  tt_rbtree_remove (Some 4%positive);;
  a ← tt_rbtree_find_gteq __rbn_cmpkey [2];
  b ← tt_rbtree_next (Some 3%positive);
  c ← tt_rbtree_count;
  r ← rootp;
  d ← __rbt_expensive_check r;
  mret (a, b, c, d)) demo_rb = Ret (TT_SUCCESS (Some 2%positive, Some 5%positive, 3, 3), h).
Proof. eexists. vm_compute. reflexivity. Qed.
