(* ===== verification/RbShape.v ===== *)
(** The trees behind [RbTree]: binary search trees with a place in them (a
    zipper), the red-black balance of both, and what it means that a memory holds
    a tree with a place in it. *)

From S2P Require Import Prelude RbTree.
From stdpp Require Import sorting gmap.

#[local] Open Scope Z_scope.

(** ** Trees *)

Inductive tree (K : Type) : Type :=
  | E
  | T (c : bool) (l : tree K) (x : nid) (k : K) (r : tree K).
Arguments E {K}.
Arguments T {K} c l x k r.

(** A step down the tree: to side [side], from a node of this colour and key, with
    the other subtree. *)
Record frame (K : Type) : Type := F {
  fside : side;
  fblack : bool;
  fnode : nid;
  fkey : K;
  fsib : tree K;
}.
Arguments F {K} fside fblack fnode fkey fsib.
Arguments fside {K} _.
Arguments fblack {K} _.
Arguments fnode {K} _.
Arguments fkey {K} _.
Arguments fsib {K} _.

#[global] Instance side_eq_dec : EqDecision side.
Proof. solve_decision. Defined.

Section shape.
Context {K : Type}.
Implicit Types (t l r s : tree K) (c : list (frame K)) (k : K) (d : side) (n : nat).

(** Black by convention when empty. *)
Definition bk t : bool := match t with E => true | T b _ _ _ _ => b end.
Definition blacken t : tree K := match t with E => E | T _ l x k r => T true l x k r end.

(** The entries in order. *)
Fixpoint entries t : list (nid * K) :=
  match t with E => [] | T _ l x k r => entries l ++ (x, k) :: entries r end.
Definition tnodes t : list nid := (entries t).*1.

(** The node with [a] on side [d] and [b] on the other. *)
Definition node d (b : bool) (t : tree K) (x : nid) k s : tree K :=
  match d with L => T b t x k s | R => T b s x k t end.

(** The whole tree. *)
Fixpoint plug c t : tree K :=
  match c with [] => t | F d b x k s :: c => plug c (node d b t x k s) end.

(** The entries before and after the place. *)
Fixpoint pre c : list (nid * K) :=
  match c with
  | [] => []
  | F L _ _ _ _ :: c => pre c
  | F R _ x k s :: c => pre c ++ entries s ++ [(x, k)]
  end.
Fixpoint post c : list (nid * K) :=
  match c with
  | [] => []
  | F L _ x k s :: c => (x, k) :: entries s ++ post c
  | F R _ _ _ _ :: c => post c
  end.

Lemma entries_plug c : ∀ t, entries (plug c t) = pre c ++ entries t ++ post c.
Proof.
  induction c as [|[[] b x k s] c IH]; intros t; simpl; [by rewrite app_nil_r|..]; rewrite IH; simpl;
    by rewrite <- ?app_assoc.
Qed.

Lemma entries_blacken t : entries (blacken t) = entries t.
Proof. by destruct t. Qed.
Lemma entries_node d b t x k s :
  entries (node d b t x k s) =
    match d with L => entries t ++ (x, k) :: entries s | R => entries s ++ (x, k) :: entries t end.
Proof. by destruct d. Qed.

Lemma pre_app c c' : pre (c ++ c') = pre c' ++ pre c.
Proof.
  induction c as [|[[] b x k s] c IH]; simpl; [by rewrite app_nil_r|done|]. by rewrite IH, <- app_assoc.
Qed.
Lemma post_app c c' : post (c ++ c') = post c ++ post c'.
Proof. induction c as [|[[] b x k s] c IH]; simpl; [done| |done]. by rewrite IH, <- app_assoc. Qed.

Lemma plug_app c c' t : plug (c ++ c') t = plug c' (plug c t).
Proof. revert t. induction c as [|[d b x k s] c IH]; intros t; [done|]. simpl. apply IH. Qed.

Lemma plug_ne c : ∀ t, t ≠ E → plug c t ≠ E.
Proof. induction c as [|[d b x k s] c IH]; intros t Ht; [done|]. apply IH. by destruct d. Qed.

Lemma plug_ne' c t : c ≠ [] → plug c t ≠ E.
Proof. destruct c as [|[d b x k s] c]; [done|]. intros _. apply (plug_ne c). by destruct d. Qed.

(** The first node has no left child. *)
Lemma leftmost t : t ≠ E → ∃ c b y yk r, t = plug c (T b E y yk r) ∧ pre c = [].
Proof.
  induction t as [|b l IHl x k r _]; [done|]. intros _. destruct l as [|b' l' x' k' r'] eqn:El.
  - by exists [], b, x, k, r.
  - destruct IHl as (c & b2 & y & yk & r2 & E2 & Hp); [done|]. rewrite <- El in *.
    exists (c ++ [F L b x k r]), b2, y, yk, r2. rewrite plug_app, <- E2. split; [done|]. by rewrite pre_app, Hp.
Qed.

(** A node of the tree is at some place. *)
Lemma find_place t x k : (x, k) ∈ entries t → ∃ c b l r, t = plug c (T b l x k r).
Proof.
  induction t as [|b l IHl y ky r IHr]; simpl; [by intros ?%not_elem_of_nil|].
  intros [H|[H|H]%elem_of_cons]%elem_of_app.
  - destruct (IHl H) as (c & b' & l' & r' & ->). exists (c ++ [F L b y ky r]), b', l', r'. by rewrite plug_app.
  - injection H as -> ->. by exists [], b, l, r.
  - destruct (IHr H) as (c & b' & l' & r' & ->). exists (c ++ [F R b y ky l]), b', l', r'. by rewrite plug_app.
Qed.

(** ** Balance *)

(** The tree has black height [n] and no red node has a red child. *)
Inductive rb : tree K → nat → Prop :=
  | rb_E : rb E 0
  | rb_black l x k r n : rb l n → rb r n → rb (T true l x k r) (S n)
  | rb_red l x k r n : rb l n → rb r n → bk l = true → bk r = true → rb (T false l x k r) n.

(** The colour above the place; the root counts as a child of a black node. *)
Definition up_bk c : bool := match c with [] => true | f :: _ => fblack f end.

(** The place wants a tree of black height [n]; the root is black. *)
Inductive crb : list (frame K) → nat → Prop :=
  | crb_nil n : crb [] n
  | crb_black d x k s c n : rb s n → crb c (S n) → crb (F d true x k s :: c) n
  | crb_red d x k s c n : rb s n → bk s = true → c ≠ [] → up_bk c = true → crb c n →
      crb (F d false x k s :: c) n.

Lemma crb_sib d b x k s s' c n : crb (F d b x k s :: c) n → rb s' n → bk s' = true → crb (F d b x k s' :: c) n.
Proof. intros H Hs Hb. inversion H; subst; by constructor. Qed.

Lemma crb_rename cy d b x x' k k' s c : ∀ n, crb (cy ++ F d b x k s :: c) n → crb (cy ++ F d b x' k' s :: c) n.
Proof.
  induction cy as [|f cy IH]; intros n H; simpl in *; [inversion H; subst; by constructor|].
  inversion H; subst; constructor; auto; [by destruct cy|by destruct cy].
Qed.

Definition rbt t : Prop := bk t = true ∧ ∃ n, rb t n.

Lemma rb_node d b t x k s n :
  rb (node d b t x k s) n ↔
    if b then ∃ n', n = S n' ∧ rb t n' ∧ rb s n' else rb t n ∧ rb s n ∧ bk t = true ∧ bk s = true.
Proof.
  split.
  - destruct d; simpl; intros H; inversion H; subst; eauto 6.
  - destruct b; [intros (n' & -> & ? & ?)|intros (? & ? & ? & ?)]; destruct d; by constructor.
Qed.

Lemma bk_node d b t x k s : bk (node d b t x k s) = b.
Proof. by destruct d. Qed.

Lemma plug_rbt c : ∀ t n, crb c n → rb t n → bk t = true ∨ (c ≠ [] ∧ up_bk c = true) → rbt (plug c t).
Proof.
  induction c as [|[d b x k s] c IH]; intros t n Hc Ht Hb; simpl.
  - split; [naive_solver|eauto].
  - inversion Hc; subst.
    + apply (IH _ (S n)); [done|apply rb_node; eauto|left; apply bk_node].
    + apply (IH _ n); [done|apply rb_node; naive_solver|by right].
Qed.

Lemma unplug_rb c : ∀ t, rbt (plug c t) →
  ∃ n, crb c n ∧ rb t n ∧ (bk t = true ∨ (c ≠ [] ∧ up_bk c = true)).
Proof.
  induction c as [|[d b x k s] c IH]; intros t; simpl.
  - intros [Hb [n Hn]]. exists n. split_and!; [constructor|done|by left].
  - intros (n & Hc & Ht & Hb)%IH. rewrite bk_node in Hb. apply rb_node in Ht. destruct b.
    + destruct Ht as (n' & -> & ? & ?). exists n'. split_and!; [by constructor|done|by right].
    + destruct Ht as (? & ? & ? & ?). exists n. destruct Hb as [|[? ?]]; [done|].
      split_and!; [by constructor|done|by left].
Qed.

Lemma rb_blacken t n : rb t n → ∃ n', rb (blacken t) n'.
Proof. intros H. inversion H; subst; eauto using rb_E, rb_black. Qed.
Lemma bk_blacken t : bk (blacken t) = true.
Proof. by destruct t. Qed.
Lemma rb_red_inv l x k r n : rb (T false l x k r) n → rb l n ∧ rb r n ∧ bk l = true ∧ bk r = true.
Proof. by inversion 1. Qed.
Lemma rb_blacken_red t n : rb t n → bk t = false → rb (blacken t) (S n).
Proof. destruct 1; [done..|]. intros _. by constructor. Qed.
Lemma node_split d b l x k r :
  ∃ t s, T b l x k r = node d b t x k s ∧ ((t = l ∧ s = r) ∨ (t = r ∧ s = l)).
Proof. destruct d; [exists l, r|exists r, l]; naive_solver. Qed.

Lemma plug_blacken c t n : crb c n → rb t n → up_bk c = true → rbt (blacken (plug c t)).
Proof.
  intros Hc Ht Htop. destruct c as [|f c].
  - split; [apply bk_blacken|by eapply rb_blacken].
  - destruct (plug_rbt (f :: c) t n Hc Ht) as [Hb [n' Hn]]; [by right|].
    assert (∀ u : tree K, bk u = true → blacken u = u) as Hid by (by intros [|[] ????]).
    rewrite Hid by done. split; eauto.
Qed.
Lemma rb_ne t n : rb t (S n) → t ≠ E.
Proof. intros H ->. inversion H. Qed.

(** Any path has at most twice as many nodes as the black height allows, and the
    tree has enough nodes for that height. *)
Fixpoint height t : nat := match t with E => 0 | T _ l _ _ r => S (max (height l) (height r)) end.

Lemma rb_height t n : rb t n → (height t ≤ 2 * n + (if bk t then 0 else 1))%nat.
Proof.
  induction 1 as [|l x k r n Hl IHl Hr IHr|l x k r n Hl IHl Hr IHr El Er]; simpl; [lia|..].
  - destruct (bk l), (bk r); lia.
  - rewrite El, Er in *. lia.
Qed.
Lemma rb_size t n : rb t n → (2 ^ n ≤ S (length (entries t)))%nat.
Proof.
  induction 1 as [|l x k r n Hl IHl Hr IHr|l x k r n Hl IHl Hr IHr _ _]; simpl; [lia|..];
    rewrite length_app; simpl; rewrite ?Nat.add_0_r; lia.
Qed.

Lemma rbt_height t : rbt t → (2 ^ height t ≤ S (length (entries t)) * S (length (entries t)))%nat.
Proof.
  intros [Hb [n Hn]]. pose proof (rb_height t n Hn) as Hh. rewrite Hb in Hh. pose proof (rb_size t n Hn) as Hs.
  transitivity (2 ^ (n + n))%nat; [apply Nat.pow_le_mono_r; lia|]. rewrite Nat.pow_add_r. by apply Nat.mul_le_mono.
Qed.

Lemma height_entries t : (height t ≤ length (entries t))%nat.
Proof. induction t as [|b l IHl x k r IHr]; simpl; [lia|]. rewrite length_app. simpl. lia. Qed.

(** Whether the place is on the left of the node above. *)
Definition at_left c : bool := match c with F L _ _ _ _ :: _ => true | _ => false end.
End shape.

(** Equations between the entries of two places. *)
Ltac entries_tac d :=
  rewrite ?entries_plug; destruct d; simpl; rewrite ?entries_blacken; simpl;
  repeat (rewrite <- !app_assoc; simpl); done.

(** ** Order *)

(** What the code relies on of a comparison: its sign is antisymmetric and
    transitive. *)
Class KeyOrder {K} (cmpkey : cmpkey_t K) : Prop := {
  cmp_anti a b : cmpkey a b < 0 ↔ 0 < cmpkey b a;
  cmp_trans a b e : cmpkey a b ≤ 0 → cmpkey b e ≤ 0 → cmpkey a e ≤ 0;
}.

Section order.
Context {K : Type} (cmpkey : cmpkey_t K) `{!KeyOrder cmpkey}.
Implicit Types (k : K) (xs ys : list (nid * K)).

Definition le_key k k' : Prop := cmpkey k k' ≤ 0.
Definition sorted : list (nid * K) → Prop := StronglySorted (λ e e', le_key e.2 e'.2).

(** Entries at most, at least and above a key. *)
Definition below k (e : nid * K) : Prop := cmpkey e.2 k ≤ 0.
Definition beyond k (e : nid * K) : Prop := 0 < cmpkey e.2 k.

Lemma cmp_refl k : cmpkey k k = 0.
Proof. pose proof (cmp_anti k k). lia. Qed.
Lemma cmp_anti' a b : 0 < cmpkey a b ↔ cmpkey b a < 0.
Proof. pose proof (cmp_anti b a). lia. Qed.
Lemma below_le k k' e : le_key k' k → below k' e → below k e.
Proof. unfold below, le_key. eauto using cmp_trans. Qed.
Lemma beyond_le k k' e : le_key k k' → beyond k' e → beyond k e.
Proof.
  unfold beyond, le_key. intros Hk He. destruct (Z_lt_ge_dec 0 (cmpkey e.2 k)) as [|Hge]; [done|].
  pose proof (cmp_trans e.2 k k'). lia.
Qed.
(** An entry after one beyond [k] is beyond [k]; one before an entry below [k] is below it. *)
Lemma beyond_up k e e' : le_key e.2 e'.2 → beyond k e → beyond k e'.
Proof.
  unfold beyond, le_key. rewrite !cmp_anti'. intros H H'. apply cmp_anti. apply cmp_anti in H'.
  destruct (Z_lt_ge_dec 0 (cmpkey e'.2 k)) as [|Hge]; [done|]. pose proof (cmp_trans e.2 e'.2 k). lia.
Qed.
Lemma below_down k e e' : le_key e.2 e'.2 → below k e' → below k e.
Proof. unfold below, le_key. eauto using cmp_trans. Qed.

Lemma sorted_app xs ys : sorted (xs ++ ys) ↔ sorted xs ∧ sorted ys ∧ ∀ x y, x ∈ xs → y ∈ ys → le_key x.2 y.2.
Proof. unfold sorted. rewrite StronglySorted_app. tauto. Qed.

(** Inserted after the entries that are not above it. *)
Fixpoint insert_entry (e : nid * K) xs : list (nid * K) :=
  match xs with
  | [] => [e]
  | e' :: xs' => if 0 <? cmpkey e'.2 e.2 then e :: xs else e' :: insert_entry e xs'
  end.

Lemma insert_entry_app e xs ys : Forall (below e.2) xs → Forall (beyond e.2) ys →
  insert_entry e (xs ++ ys) = xs ++ e :: ys.
Proof.
  intros Hx Hy. induction Hx as [|e' xs He Hx IH]; simpl.
  - destruct Hy as [|e' ys He Hy]; [done|]. simpl. unfold beyond in He. by b_true.
  - unfold below in He. b_false. by rewrite IH.
Qed.
End order.
