(* ===== verification/RbRepr.v ===== *)
(** When a memory holds a tree with a place in it, and what the helpers and the
    rotations of [RbTree] do to it. *)

From S2P Require Import Prelude RbTree RbShape.
From stdpp Require Import sorting gmap.

#[local] Open Scope Z_scope.

(** Inclusions between the nodes of places and trees. *)
Ltac held_tac := intros ?; clear; set_solver.

Section repr.
Context {K : Type}.
Implicit Types (t l r s : tree K) (c : list (frame K)) (k : K) (d : side) (m : gmap nid (tt_rbnode_t K)).
Implicit Types (h : rbmem K) (x y z p par nl : nid) (v : tt_rbnode_t K).

(** The pointer to a tree, and to the node above a place. *)
Definition rt nl t : nid := match t with E => nl | T _ _ x _ _ => x end.
Definition above nl c : nid := match c with [] => nl | f :: _ => fnode f end.

(** A node with [p] on side [d] and [q] on the other. *)
Definition cell d (par p q : nid) k (b : bool) : tt_rbnode_t K :=
  match d with
  | L => mk_rbnode (Some par) (Some p) (Some q) (Some k) b
  | R => mk_rbnode (Some par) (Some q) (Some p) (Some k) b
  end.

(** The subtree at a place below [par]; the frames above a place that holds [p]. *)
Fixpoint repr nl m par t : Prop :=
  match t with
  | E => True
  | T b l x k r => m !! x = Some (cell L par (rt nl l) (rt nl r) k b) ∧ repr nl m x l ∧ repr nl m x r
  end.
Fixpoint crepr nl m (root : nid) c p : Prop :=
  match c with
  | [] => root = p
  | F d b x k s :: c => m !! x = Some (cell d (above nl c) p (rt nl s) k b) ∧ repr nl m x s ∧ crepr nl m root c x
  end.

(** The nodes of the frames. *)
Fixpoint cnodes c : list nid :=
  match c with [] => [] | F _ _ x _ s :: c => x :: tnodes s ++ cnodes c end.

Lemma cnodes_app c c' : cnodes (c ++ c') = cnodes c ++ cnodes c'.
Proof. induction c as [|[d b x k s] c IH]; simpl; [done|]. by rewrite IH, <- app_assoc. Qed.
Lemma rt_plug nl c : ∀ t, c ≠ [] → rt nl (plug c t) ∈ cnodes c.
Proof.
  induction c as [|[d b x k s] c IH]; intros t Hc; [done|]. simpl. destruct c as [|f c].
  - simpl. destruct d; by left.
  - right. apply elem_of_app. right. by apply IH.
Qed.

(** ** Frame lemmas *)

Lemma tnodes_T b l x k r : tnodes (T b l x k r) = tnodes l ++ x :: tnodes r.
Proof. unfold tnodes. simpl. by rewrite fmap_app. Qed.

Lemma tnodes_node d b t x k s y : y ∈ tnodes (node d b t x k s) ↔ y = x ∨ y ∈ tnodes t ∨ y ∈ tnodes s.
Proof. destruct d; simpl; rewrite tnodes_T; set_solver. Qed.

Lemma repr_ext nl m m' par t : (∀ y, y ∈ tnodes t → m' !! y = m !! y) → repr nl m par t → repr nl m' par t.
Proof.
  revert par. induction t as [|b l IHl x k r IHr]; intros par Heq; [done|]. rewrite tnodes_T in Heq.
  intros (Hx & Hl & Hr). split_and!; [by rewrite Heq by set_solver|apply IHl|apply IHr]; try done; set_solver.
Qed.
Lemma crepr_ext nl m m' root c p : (∀ y, y ∈ cnodes c → m' !! y = m !! y) →
  crepr nl m root c p → crepr nl m' root c p.
Proof.
  revert p. induction c as [|[d b x k s] c IH]; intros p Heq; [done|]. simpl in Heq.
  intros (Hx & Hs & Hc). split_and!; [by rewrite Heq by set_solver| |apply IH; [set_solver|done]].
  eapply repr_ext; [|done]. set_solver.
Qed.

Lemma repr_insert nl m par t y v : y ∉ tnodes t → repr nl m par t → repr nl (<[y := v]> m) par t.
Proof. intros Hy. apply repr_ext. intros z Hz. apply lookup_insert_ne. set_solver. Qed.
Lemma crepr_insert nl m root c p y v : y ∉ cnodes c → crepr nl m root c p → crepr nl (<[y := v]> m) root c p.
Proof. intros Hy. apply crepr_ext. intros z Hz. apply lookup_insert_ne. set_solver. Qed.

Lemma repr_node nl m par d b t x k s :
  repr nl m par (node d b t x k s) ↔
    m !! x = Some (cell d par (rt nl t) (rt nl s) k b) ∧ repr nl m x t ∧ repr nl m x s.
Proof. destruct d; simpl; tauto. Qed.
Lemma rt_node nl d b t x k s : rt nl (node d b t x k s) = x.
Proof. by destruct d. Qed.
Lemma rt_in nl t : rt nl t = nl ∧ t = E ∨ rt nl t ∈ tnodes t.
Proof. destruct t; [by left|]. right. rewrite tnodes_T. set_solver. Qed.

(** Moving a subtree below another node. *)
Lemma repr_reparent nl m par par' t v : NoDup (tnodes t) → repr nl m par t →
  m !! rt nl t = Some v → repr nl (<[rt nl t := set_parent (Some par') v]> m) par' t.
Proof.
  destruct t as [|b l x k r]; [done|]. rewrite tnodes_T. simpl.
  intros (_ & Hl & [Hr _]%NoDup_cons)%NoDup_app (Hx & Hrl & Hrr) Hv. rewrite Hx in Hv. injection Hv as <-.
  rewrite lookup_insert_eq. split_and!; [done|apply repr_insert; [set_solver|done]..].
Qed.
Lemma repr_recolor nl m par b b' l x k r v : NoDup (tnodes (T b l x k r)) → repr nl m par (T b l x k r) →
  m !! x = Some v → repr nl (<[x := set_black b' v]> m) par (T b' l x k r).
Proof.
  rewrite tnodes_T. simpl. intros (_ & Hl & [Hr _]%NoDup_cons)%NoDup_app (Hx & Hrl & Hrr) Hv.
  rewrite Hx in Hv. injection Hv as <-. rewrite lookup_insert_eq.
  split_and!; [done|apply repr_insert; [set_solver|done]..].
Qed.

Lemma cell_fields d par p q k b :
  parent (cell d par p q k b) = Some par ∧ child d (cell d par p q k b) = Some p ∧
  child (opp d) (cell d par p q k b) = Some q ∧ key (cell d par p q k b) = Some k ∧ black (cell d par p q k b) = b.
Proof. by destruct d. Qed.
Lemma cell_set d par p q k b :
  (∀ y, set_parent (Some y) (cell d par p q k b) = cell d y p q k b) ∧
  (∀ y, set_child d (Some y) (cell d par p q k b) = cell d par y q k b) ∧
  (∀ y, set_child (opp d) (Some y) (cell d par p q k b) = cell d par p y k b) ∧
  (∀ b', set_black b' (cell d par p q k b) = cell d par p q k b').
Proof. destruct d; split_and!; reflexivity. Qed.

(** ** The whole memory *)

(** The memory holds [t] at the place [c] and nothing else of the tree; the
    sentinel is black. *)
Record focus h c t : Prop := {
  fo_ctx : crepr (tnil h) (nodes h) (root h) c (rt (tnil h) t);
  fo_tree : repr (tnil h) (nodes h) (above (tnil h) c) t;
  fo_nodup : NoDup (tnil h :: cnodes c ++ tnodes t);
  fo_nil : ∃ v, nodes h !! tnil h = Some v ∧ black v = true;
}.

(** [h'] differs from [h] at most at the nodes [ys] and the root. *)
Definition frames h h' (ys : list nid) : Prop :=
  tnil h' = tnil h ∧ count h' = count h ∧ ∀ y, y ∉ ys → nodes h' !! y = nodes h !! y.

Lemma frames_refl h ys : frames h h ys.
Proof. done. Qed.
Lemma frames_trans h1 h2 h3 ys zs : frames h1 h2 ys → frames h2 h3 zs → (∀ y, y ∈ zs → y ∈ ys) → frames h1 h3 ys.
Proof.
  intros (E1 & C1 & H1) (E2 & C2 & H2) Hsub. split_and!; [congruence..|]. intros y Hy.
  rewrite H2 by auto. by apply H1.
Qed.
Lemma frames_sub h1 h2 ys zs : frames h1 h2 ys → (∀ y, y ∈ ys → y ∈ zs) → frames h1 h2 zs.
Proof. intros (E1 & C1 & H1) Hsub. split_and!; [done..|]. intros y Hy. apply H1. auto. Qed.

(** ** Steps *)

Lemma get_ok {A} (f : tt_rbnode_t K → A) h x v : nodes h !! x = Some v →
  get f (Some x) h = Ret (TT_SUCCESS (f v), h).
Proof. unfold get. by intros ->. Qed.
Lemma put_ok (f : tt_rbnode_t K → tt_rbnode_t K) h x v : nodes h !! x = Some v →
  put (Some x) f h = Ret (TT_SUCCESS tt, mk_rbmem (<[x := f v]> (nodes h)) (tnil h) (root h) (count h)).
Proof. unfold put. by intros ->. Qed.
Lemma nilp_ok h : nilp h = Ret (TT_SUCCESS (Some (tnil h)), h).
Proof. done. Qed.
Lemma rootp_ok h : rootp h = Ret (TT_SUCCESS (Some (root h)), h).
Proof. done. Qed.

Lemma assert_ok {A} (k : unit → M (rbmem K) A) h : (assert_always true ≫= k) h = k tt h.
Proof. done. Qed.
Lemma mret_ok {A B} (a : A) (k : A → M (rbmem K) B) h : (mret a ≫= k) h = k a h.
Proof. done. Qed.

Lemma same_ne x y : x ≠ y → same (Some x) (Some y) = false.
Proof. intros Hne. unfold same. apply bool_decide_false. congruence. Qed.
Lemma same_eq x : same (Some x) (Some x) = true.
Proof. unfold same. by apply bool_decide_true. Qed.

Lemma frames_insert h x v (ys : list nid) h' : nodes h' = <[x := v]> (nodes h) → tnil h' = tnil h →
  count h' = count h → x ∈ ys → frames h h' ys.
Proof. intros E E1 E2 Hx. split_and!; [done|done|]. intros y Hy. rewrite E. apply lookup_insert_ne. set_solver. Qed.

(** The child pointer above a place is overwritten. *)
Lemma relink_ok h d b z k s c x y : crepr (tnil h) (nodes h) (root h) (F d b z k s :: c) x →
  NoDup (cnodes (F d b z k s :: c)) →
  ∃ h', put (Some z) (set_child d (Some y)) h = Ret (TT_SUCCESS tt, h') ∧
    crepr (tnil h') (nodes h') (root h') (F d b z k s :: c) y ∧ frames h h' [z].
Proof.
  intros (Hz & Hs & Hc) [Hzn _]%NoDup_cons. rewrite (put_ok _ h z _ Hz). eexists. split; [done|].
  split; [|eapply frames_insert; [done..|by left]]. cbn [nodes tnil root crepr]. rewrite lookup_insert_eq.
  apply not_elem_of_app in Hzn as [Hzs Hzc].
  split_and!; [by destruct d|by apply repr_insert|by apply crepr_insert].
Qed.

(** The place of [x] below its parent gets [y]. *)
Lemma replace_child_ok h c x y : crepr (tnil h) (nodes h) (root h) c x → NoDup (tnil h :: cnodes c) →
  x ∉ tnil h :: cnodes c →
  ∃ h', replace_child (Some (above (tnil h) c)) (Some x) (Some y) h = Ret (TT_SUCCESS tt, h') ∧
    crepr (tnil h') (nodes h') (root h') c y ∧ frames h h' (cnodes c).
Proof.
  intros Hc [Hnil Hnd]%NoDup_cons Hx. unfold replace_child. rewrite (bind_step _ _ _ _ _ (nilp_ok h)).
  destruct c as [|[d b z k s] c]; cbn [above fnode].
  - rewrite same_eq. eexists. split; [done|]. split; [done|]. split_and!; done.
  - destruct (relink_ok h d b z k s c x y Hc Hnd) as (h' & E & Hc' & Fr). simpl in Hnil, Hx.
    destruct Hc as (Hz & _ & _). rewrite same_ne by set_solver.
    rewrite (bind_step _ _ _ _ _ (get_ok left h z _ Hz)).
    assert (rt (tnil h) s ≠ x) as Hne by (destruct (rt_in (tnil h) s) as [[-> _]|?]; set_solver).
    exists h'. split; [|split; [done|]].
    + destruct d; simpl; by rewrite ?same_eq, ?same_ne.
    + eapply frames_sub; [exact Fr|]. simpl. set_solver.
Qed.

Lemma tnodes_node_perm d b t x k s : tnodes (node d b t x k s) ≡ₚ x :: tnodes t ++ tnodes s.
Proof.
  destruct d; simpl; rewrite tnodes_T, <- Permutation_middle; [done|]. by rewrite (Permutation_app_comm (tnodes s)).
Qed.

(** Where the nodes of the tree sit with respect to each other. *)
Lemma focus_apart h c t : focus h c t →
  tnil h ∉ cnodes c ∧ tnil h ∉ tnodes t ∧ NoDup (cnodes c) ∧ NoDup (tnodes t) ∧ (∀ y, y ∈ cnodes c → y ∉ tnodes t).
Proof.
  intros H. pose proof (fo_nodup _ _ _ H) as [Hn (H1 & H2 & H3)%NoDup_app]%NoDup_cons.
  split_and!; [set_solver|set_solver|done|done|done].
Qed.

(** A subtree that moves below [par']; nothing happens to an empty one. *)
Lemma adopt_ok h par par' t : repr (tnil h) (nodes h) par t → NoDup (tnodes t) → tnil h ∉ tnodes t →
  ∃ h', (if same (Some (rt (tnil h) t)) (Some (tnil h)) then mret tt
         else put (Some (rt (tnil h) t)) (set_parent (Some par'))) h = Ret (TT_SUCCESS tt, h') ∧
    repr (tnil h) (nodes h') par' t ∧ frames h h' (tnodes t) ∧ root h' = root h.
Proof.
  intros Ht Hnd Hn. destruct (rt_in (tnil h) t) as [[-> ->]|Hin].
  - rewrite same_eq. by exists h.
  - rewrite same_ne by (intros E; by rewrite E in Hin).
    assert (∃ v, nodes h !! rt (tnil h) t = Some v) as [v Hv].
    { destruct t; [by apply not_elem_of_nil in Hin|]. simpl in Ht. destruct Ht as [Ht _]. by eexists. }
    rewrite (put_ok _ h _ v Hv). eexists. split; [done|]. split_and!; [by apply (repr_reparent _ _ par)| |done].
    by eapply frames_insert.
Qed.

(** The rotation at the level of the memory: [x] has [a] and [y] below it, [y]
    has [b] and [e]; afterwards [y] is above [x]. *)
Lemma rot_code h d c bx (a : nid) x kx b y ky (e : nid) (by_ : bool) :
  crepr (tnil h) (nodes h) (root h) c x → NoDup (tnil h :: cnodes c) →
  nodes h !! x = Some (cell d (above (tnil h) c) a y kx bx) →
  nodes h !! y = Some (cell d x (rt (tnil h) b) e ky by_) → repr (tnil h) (nodes h) y b →
  NoDup (tnodes b) → x ∉ tnil h :: y :: cnodes c ++ tnodes b → y ∉ tnil h :: cnodes c ++ tnodes b →
  (∀ w, w ∈ tnodes b → w ∉ tnil h :: cnodes c) →
  ∃ h', rot d (Some x) h = Ret (TT_SUCCESS tt, h') ∧ crepr (tnil h) (nodes h') (root h') c y ∧
    nodes h' !! y = Some (cell d (above (tnil h) c) x e ky by_) ∧
    nodes h' !! x = Some (cell d y a (rt (tnil h) b) kx bx) ∧
    repr (tnil h) (nodes h') x b ∧ frames h h' (cnodes c ++ x :: y :: tnodes b).
Proof.
  intros Hc Hnd Hx Hy Hb Hdb [Hxn [Hxy [Hxc Hxb]%not_elem_of_app]%not_elem_of_cons]%not_elem_of_cons
    [Hyn [Hyc Hyb]%not_elem_of_app]%not_elem_of_cons Hbc.
  assert (tnil h ∉ tnodes b) as Hnb by (intros ?%Hbc; set_solver).
  unfold rot. rewrite (bind_step _ _ _ _ _ (nilp_ok h)).
  pose proof (cell_fields d (above (tnil h) c) a y kx bx) as (_ & _ & Fx2 & _).
  pose proof (cell_set d (above (tnil h) c) a y kx bx) as (_ & _ & Sx & _).
  pose proof (cell_fields d x (rt (tnil h) b) e ky by_) as (_ & Fy & _).
  rewrite (bind_step _ _ _ _ _ (get_ok _ h x _ Hx)), Fx2, same_ne by congruence. cbn [negb].
  rewrite assert_ok, (bind_step _ _ _ _ _ (get_ok _ h y _ Hy)), Fy.
  rewrite (bind_step _ _ _ _ _ (put_ok _ h x _ Hx)), Sx. set (h1 := mk_rbmem _ _ _ _).
  destruct (adopt_ok h1 y x b) as (h2 & E2 & Hb2 & F2 & R2); [by apply repr_insert|done|done|].
  change (tnil h) with (tnil h1). rewrite (bind_step _ _ _ _ _ E2).
  assert (nodes h2 !! x = Some (cell d (above (tnil h) c) a (rt (tnil h) b) kx bx)) as Hx2.
  { rewrite (proj2 (proj2 F2)) by done. simpl. by rewrite lookup_insert_eq. }
  assert (nodes h2 !! y = Some (cell d x (rt (tnil h) b) e ky by_)) as Hy2.
  { rewrite (proj2 (proj2 F2)) by done. simpl. by rewrite lookup_insert_ne. }
  pose proof (cell_fields d (above (tnil h) c) a (rt (tnil h) b) kx bx) as (Fx3 & _).
  pose proof (cell_set d x (rt (tnil h) b) e ky by_) as (Sy & _).
  rewrite (bind_step _ _ _ _ _ (get_ok _ h2 x _ Hx2)), Fx3.
  rewrite (bind_step _ _ _ _ _ (put_ok _ h2 y _ Hy2)), Sy. set (h3 := mk_rbmem _ _ _ _).
  assert (tnil h3 = tnil h) as T3 by (simpl; apply F2).
  destruct (replace_child_ok h3 c x y) as (h4 & E4 & Hc4 & F4).
  { rewrite T3. simpl. rewrite R2. apply crepr_insert; [done|]. eapply crepr_ext; [|exact Hc].
    intros w Hw. assert (w ∉ tnodes b) by (intros ?%Hbc; set_solver).
    rewrite (proj2 (proj2 F2)) by done. simpl. rewrite lookup_insert_ne; [done|by intros ->]. }
  { by rewrite T3. }
  { rewrite T3. by apply not_elem_of_cons. }
  rewrite <- T3, (bind_step _ _ _ _ _ E4). rewrite T3 in *.
  assert (nodes h4 !! x = Some (cell d (above (tnil h) c) a (rt (tnil h) b) kx bx)) as Hx4.
  { rewrite (proj2 (proj2 F4)) by done. simpl. by rewrite lookup_insert_ne. }
  assert (nodes h4 !! y = Some (cell d (above (tnil h) c) (rt (tnil h) b) e ky by_)) as Hy4.
  { rewrite (proj2 (proj2 F4)) by done. simpl. by rewrite lookup_insert_eq. }
  rewrite (bind_step _ _ _ _ _ (put_ok _ h4 y _ Hy4)).
  rewrite put_ok with (v := cell d (above (tnil h) c) a (rt (tnil h) b) kx bx) by (simpl; by rewrite lookup_insert_ne).
  cbn [nodes tnil root count]. rewrite (proj1 (cell_set _ _ _ _ _ _)), (proj1 (proj2 (cell_set _ _ _ _ _ _))).
  assert (tnil h4 = tnil h) as T4 by (by rewrite (proj1 F4)). rewrite T4 in *.
  eexists. split; [done|]. cbn [nodes tnil root count]. split_and!.
  - apply crepr_insert; [done|]. by apply crepr_insert.
  - by rewrite lookup_insert_ne, lookup_insert_eq.
  - by rewrite lookup_insert_eq.
  - apply repr_insert; [done|]. apply repr_insert; [done|]. eapply repr_ext; [|exact Hb2]. intros w Hw.
    rewrite (proj2 (proj2 F4)) by (specialize (Hbc w Hw); set_solver). simpl. rewrite lookup_insert_ne; [done|by intros ->].
  - split_and!; [done|rewrite (proj1 (proj2 F4)); apply F2|]. intros w Hw. cbn [nodes].
    apply not_elem_of_app in Hw as [Hwc [Hwx [Hwy Hwb]%not_elem_of_cons]%not_elem_of_cons].
    rewrite !lookup_insert_ne, (proj2 (proj2 F4)) by done. simpl. rewrite lookup_insert_ne by done.
    rewrite (proj2 (proj2 F2)) by done. simpl. by rewrite lookup_insert_ne.
Qed.

Lemma rot_ok h d c bx a x kx b y ky e (by_ : bool) :
  focus h c (node d bx a x kx (node d by_ b y ky e)) →
  ∃ h', rot d (Some x) h = Ret (TT_SUCCESS tt, h') ∧
    focus h' c (node d by_ (node d bx a x kx b) y ky e) ∧ frames h h' (cnodes c ++ x :: y :: tnodes b).
Proof.
  intros Hf. destruct (focus_apart h c _ Hf) as (Hnc & Hnt & Hdc & Hdt & Hct). pose proof (fo_nodup _ _ _ Hf) as Hnd.
  destruct Hf as [Hc Ht _ (vn & Hvn & Hblk)]. rewrite rt_node in Hc.
  apply repr_node in Ht as (Hx & Ha & (Hy & Hb & He)%repr_node). rewrite rt_node in Hx.
  rewrite !tnodes_node_perm in Hdt.
  apply NoDup_cons in Hdt as [Hxn (Hda & Hda' & [Hyn (Hdb & Hbe & Hde)%NoDup_app]%NoDup_cons)%NoDup_app].
  apply not_elem_of_app in Hxn as [Hxa [Hxy [Hxb Hxe]%not_elem_of_app]%not_elem_of_cons].
  apply not_elem_of_app in Hyn as [Hyb Hye]. setoid_rewrite tnodes_node in Hct. setoid_rewrite tnodes_node in Hct.
  rewrite !tnodes_node in Hnt.
  destruct (rot_code h d c bx (rt (tnil h) a) x kx b y ky (rt (tnil h) e) by_) as (h' & E & Hc' & Hy' & Hx' & Hb' & F);
    try done; [by apply NoDup_cons|set_solver..|].
  exists h'. split; [done|]. split; [|done].
  assert (∀ w, w ∉ cnodes c → w ≠ x → w ≠ y → w ∉ tnodes b → nodes h' !! w = nodes h !! w) as Hfr.
  { intros w ????. apply F. set_solver. }
  pose proof (proj1 F) as T'. constructor; rewrite ?T'.
  - by rewrite rt_node.
  - apply repr_node. rewrite rt_node. split; [done|]. split; [apply repr_node; split_and!; [done| |done]|].
    + eapply repr_ext; [|exact Ha]. intros w Hw. apply Hfr; set_solver.
    + eapply repr_ext; [|exact He]. intros w Hw. apply Hfr; set_solver.
  - eapply NoDup_Permutation_proper; [|exact Hnd]. rewrite !tnodes_node_perm.
    rewrite <- (Permutation_middle (tnodes a)). simpl. rewrite <- app_assoc. do 2 f_equiv. apply perm_swap.
  - exists vn. split; [|done]. rewrite Hfr; [done|set_solver..].
Qed.

(** ** Moving the place *)

Lemma node_opp d b t x k s : node d b t x k s = node (opp d) b s x k t.
Proof. by destruct d. Qed.
Lemma opp_opp d : opp (opp d) = d.
Proof. by destruct d. Qed.

Lemma focus_up h d b x k s c t : focus h (F d b x k s :: c) t ↔ focus h c (node d b t x k s).
Proof.
  assert (tnil h :: cnodes (F d b x k s :: c) ++ tnodes t ≡ₚ tnil h :: cnodes c ++ tnodes (node d b t x k s)) as Hp.
  { simpl. rewrite tnodes_node_perm, <- (Permutation_middle (cnodes c)). do 2 f_equiv.
    rewrite (Permutation_app_comm (tnodes s)), <- !app_assoc. f_equiv. apply Permutation_app_comm. }
  split; intros [Hc Ht Hnd Hn]; constructor; try done.
  - rewrite rt_node. apply Hc.
  - apply repr_node. simpl in *. tauto.
  - by rewrite <- Hp.
  - rewrite rt_node in Hc. apply repr_node in Ht. simpl. tauto.
  - apply repr_node in Ht. simpl. tauto.
  - by rewrite Hp.
Qed.
Lemma focus_zip h d b x k s c t : focus h (F d b x k s :: c) t → focus h c (node d b t x k s).
Proof. apply focus_up. Qed.
Lemma focus_unzip h d b x k s c t : focus h c (node d b t x k s) → focus h (F d b x k s :: c) t.
Proof. apply focus_up. Qed.
Lemma focus_other h d b x k s c t : focus h (F d b x k s :: c) t ↔ focus h (F (opp d) b x k t :: c) s.
Proof. by rewrite !focus_up, node_opp. Qed.
Lemma focus_top h c : ∀ t, focus h c t → focus h [] (plug c t).
Proof. induction c as [|[d b x k s] c IH]; intros t H; [done|]. by apply IH, focus_up. Qed.
Lemma focus_in h c c' : ∀ t, focus h c' (plug c t) → focus h (c ++ c') t.
Proof. induction c as [|[d b x k s] c IH]; intros t H; [done|]. by apply focus_up, IH. Qed.
Lemma focus_out h c c' : ∀ t, focus h (c ++ c') t → focus h c' (plug c t).
Proof. induction c as [|[d b x k s] c IH]; intros t H; [done|]. by apply IH, focus_up. Qed.

(** ** Reading at the place *)

Lemma focus_cell h c d b t x k s : focus h c (node d b t x k s) →
  nodes h !! x = Some (cell d (above (tnil h) c) (rt (tnil h) t) (rt (tnil h) s) k b).
Proof. intros H. pose proof (fo_tree _ _ _ H) as Ht. by apply repr_node in Ht as [? _]. Qed.

Lemma focus_black h c t : focus h c t → get black (Some (rt (tnil h) t)) h = Ret (TT_SUCCESS (bk t), h).
Proof.
  intros [_ Ht _ (v & Hv & Hb)]. destruct t as [|b l x k r]; cbn [rt bk].
  - by rewrite (get_ok _ h _ v Hv), Hb.
  - by rewrite (get_ok _ h x _ (proj1 Ht)).
Qed.

Lemma cell_parent d par p q k b : parent (cell d par p q k b) = Some par.
Proof. by destruct d. Qed.
Lemma cell_child d par p q k b : child d (cell d par p q k b) = Some p.
Proof. by destruct d. Qed.
Lemma cell_other d par p q k b : child (opp d) (cell d par p q k b) = Some q.
Proof. by destruct d. Qed.
Lemma cell_key d par p q k b : key (cell d par p q k b) = Some k.
Proof. by destruct d. Qed.
Lemma cell_black d par p q k b : black (cell d par p q k b) = b.
Proof. by destruct d. Qed.
Lemma cell_opp d par p q k b : cell (opp d) par p q k b = cell d par q p k b.
Proof. by destruct d. Qed.

(** The nodes of the tree, and of a place in it. *)
Definition held c t : list nid := cnodes c ++ tnodes t.

Lemma held_up d b x k s c t y : y ∈ held (F d b x k s :: c) t ↔ y ∈ held c (node d b t x k s).
Proof. unfold held. rewrite !elem_of_app, tnodes_node. simpl. rewrite elem_of_cons, elem_of_app. tauto. Qed.

Lemma held_perm c t : (pre c ++ entries t ++ post c).*1 ≡ₚ held c t.
Proof.
  unfold held. revert t. induction c as [|[d b x k s] c IH]; intros t; simpl; [by rewrite app_nil_r|].
  specialize (IH (node d b t x k s)). rewrite tnodes_node_perm, <- (Permutation_middle (cnodes c)) in IH.
  transitivity (x :: cnodes c ++ tnodes t ++ tnodes s).
  - rewrite <- IH. destruct d; simpl; by rewrite <- !app_assoc.
  - constructor. rewrite (Permutation_app_comm (tnodes t)), !app_assoc.
    by rewrite (Permutation_app_comm (cnodes c)).
Qed.
Lemma held_entries c t c' t' y : entries (plug c t) = entries (plug c' t') → y ∈ held c t → y ∈ held c' t'.
Proof. rewrite !entries_plug. intros E. by rewrite <- !held_perm, E. Qed.

(** The colour above the place. *)
Lemma above_black h c t : focus h c t → get black (Some (above (tnil h) c)) h = Ret (TT_SUCCESS (up_bk c), h).
Proof.
  intros H. destruct c as [|[d b x k s] c]; cbn [above up_bk fnode fblack].
  - destruct (fo_nil _ _ _ H) as (v & Hv & Hb). by rewrite (get_ok _ h _ v Hv), Hb.
  - apply focus_zip, focus_cell in H. by rewrite (get_ok _ h x _ H), cell_black.
Qed.

(** The root is the node at the place only when nothing is above it. *)
Lemma crepr_root nl m root c p : crepr nl m root c p → c ≠ [] → root ∈ cnodes c.
Proof.
  revert p. induction c as [|[d b x k s] c IH]; intros p; [done|]. intros (_ & _ & Hc) _. simpl.
  destruct c as [|f c]; [simpl in Hc; subst; by left|]. right. apply elem_of_app. right. by apply (IH x).
Qed.
Lemma root_here h c t : focus h c t →
  same (Some (rt (tnil h) t)) (Some (root h)) = match c with [] => true | _ => false end.
Proof.
  intros H. pose proof (fo_ctx _ _ _ H) as Hc. destruct (focus_apart _ _ _ H) as (Hnc & _ & _ & _ & Hd).
  destruct c as [|f c]; [simpl in Hc; rewrite Hc; apply same_eq|]. apply crepr_root in Hc; [|done].
  apply same_ne. intros Heq. rewrite <- Heq in Hc. destruct (rt_in (tnil h) t) as [[En _]|Ht].
  - rewrite En in Hc. done.
  - by apply (Hd (rt (tnil h) t)).
Qed.

Lemma rt_apart h d b x k s c t : focus h (F d b x k s :: c) t → t ≠ E ∨ s ≠ E → rt (tnil h) t ≠ rt (tnil h) s.
Proof.
  intros H Hne Heq. destruct (focus_apart _ _ _ H) as (Hnc & Hnt & _ & _ & Hd). simpl in *.
  assert (tnil h ∉ tnodes s) as Hns by set_solver.
  destruct (rt_in (tnil h) t) as [[Et ->]|Ht], (rt_in (tnil h) s) as [[Es ->]|Hs].
  - naive_solver.
  - rewrite <- Heq, Et in Hs. done.
  - rewrite Heq, Es in Ht. done.
  - rewrite Heq in Ht. apply (Hd (rt (tnil h) s)); [set_solver|done].
Qed.

(** The test by which the fixups find the side of a node. *)
Lemma side_ok h d b x k s c t : focus h (F d b x k s :: c) t → t ≠ E ∨ s ≠ E →
  ∃ lf, get left (Some x) h = Ret (TT_SUCCESS lf, h) ∧ (if same (Some (rt (tnil h) t)) lf then L else R) = d.
Proof.
  intros H Hne. pose proof (rt_apart h d b x k s c t H Hne) as Hrt. apply focus_zip, focus_cell in H.
  eexists. split; [apply (get_ok left h x _ H)|]. destruct d; simpl; by rewrite ?same_eq, ?same_ne.
Qed.

(** Loops over the tree have enough fuel. *)
Lemma repr_dom nl m par t x : repr nl m par t → x ∈ tnodes t → ∃ v, m !! x = Some v.
Proof.
  revert par. induction t as [|b l IHl y k r IHr]; intros par Hr; [by intros ?%not_elem_of_nil|].
  destruct Hr as (Hy & Hl & Hr). rewrite tnodes_T, elem_of_app, elem_of_cons.
  intros [H|[->|H]]; [by apply (IHl y)|by eexists|by apply (IHr y)].
Qed.
Lemma crepr_dom nl m root c p x : crepr nl m root c p → x ∈ cnodes c → ∃ v, m !! x = Some v.
Proof.
  revert p. induction c as [|[d b y k s] c IH]; intros p Hr; [by intros ?%not_elem_of_nil|].
  destruct Hr as (Hy & Hs & Hc). simpl. rewrite elem_of_cons, elem_of_app.
  intros [->|[H|H]]; [by eexists|by apply (repr_dom nl m y s x)|by apply (IH y)].
Qed.
Lemma focus_size h c t : focus h c t → (length (cnodes c ++ tnodes t) < size (nodes h))%nat.
Proof.
  intros [Hc Ht Hnd (v & Hv & _)]. apply (size_list_to_set (C := gset nid)) in Hnd as Hsz. simpl in Hsz.
  rewrite <- size_dom, <- Nat.le_succ_l, <- Hsz. apply subseteq_size. intros x Hx. apply elem_of_dom.
  rewrite elem_of_union, elem_of_singleton, elem_of_list_to_set, elem_of_app in Hx.
  destruct Hx as [->|[Hx|Hx]]; [by eexists|by eapply crepr_dom|by eapply repr_dom].
Qed.
Lemma length_cnodes c : (length c ≤ length (cnodes c))%nat.
Proof. induction c as [|[d b x k s] c IH]; simpl; rewrite ?length_app; lia. Qed.
Lemma focus_depth h c t : focus h c t → (length c < size (nodes h))%nat.
Proof.
  intros H. pose proof (focus_size h c t H) as Hs. rewrite length_app in Hs. pose proof (length_cnodes c). lia.
Qed.

#[global] Typeclasses Opaque tnodes cnodes held.
#[global] Instance set_unfold_held y c t P Q : SetUnfoldElemOf y (cnodes c) P → SetUnfoldElemOf y (tnodes t) Q →
  SetUnfoldElemOf y (held c t) (P ∨ Q).
Proof. intros [HP] [HQ]. constructor. unfold held. by rewrite elem_of_app, HP, HQ. Qed.
#[global] Instance set_unfold_cnodes y d b x k s c P Q : SetUnfoldElemOf y (tnodes s) P →
  SetUnfoldElemOf y (cnodes c) Q → SetUnfoldElemOf y (cnodes (F d b x k s :: c)) (y = x ∨ P ∨ Q).
Proof. intros [HP] [HQ]. constructor. simpl. by rewrite elem_of_cons, elem_of_app, HP, HQ. Qed.
#[global] Instance set_unfold_tnodes_node y d b t x k s P Q : SetUnfoldElemOf y (tnodes t) P →
  SetUnfoldElemOf y (tnodes s) Q → SetUnfoldElemOf y (tnodes (node d b t x k s)) (y = x ∨ P ∨ Q).
Proof. intros [HP] [HQ]. constructor. by rewrite tnodes_node, HP, HQ. Qed.
#[global] Instance set_unfold_tnodes_T y b l x k r P Q : SetUnfoldElemOf y (tnodes l) P →
  SetUnfoldElemOf y (tnodes r) Q → SetUnfoldElemOf y (tnodes (T b l x k r)) (y = x ∨ P ∨ Q).
Proof. intros [HP] [HQ]. constructor. rewrite tnodes_T, elem_of_app, elem_of_cons, HP, HQ. tauto. Qed.
#[global] Instance set_unfold_tnodes_E y : SetUnfoldElemOf y (tnodes (E : tree K)) False.
Proof. constructor. split; [by intros ?%not_elem_of_nil|done]. Qed.

(** Painting the node at the place. *)
Lemma paint_ok h c d b b' t x k s : focus h c (node d b t x k s) →
  ∃ h', put (Some x) (set_black b') h = Ret (TT_SUCCESS tt, h') ∧ focus h' c (node d b' t x k s) ∧ frames h h' [x].
Proof.
  intros H. pose proof (focus_cell h c d b t x k s H) as Hx. rewrite (put_ok _ h x _ Hx).
  eexists. split; [done|]. split; [|by eapply frames_insert; [..|by left]].
  destruct (focus_apart h c _ H) as (Hnc & Hnt & Hdc & Hdt & Hct). destruct H as [Hc Ht Hnd (v & Hv & Hb)].
  rewrite tnodes_node in Hnt. rewrite tnodes_node_perm in Hdt. apply NoDup_cons in Hdt as [Hxn _].
  apply not_elem_of_app in Hxn as [Hxt Hxs]. apply repr_node in Ht as (_ & Htt & Hts).
  assert (x ∉ cnodes c) as Hxc by (intros Hin; apply (Hct x Hin); rewrite tnodes_node; by left).
  constructor; cbn [nodes tnil root].
  - rewrite rt_node in *. by apply crepr_insert.
  - apply repr_node. rewrite lookup_insert_eq. split; [by destruct d|]. split; by apply repr_insert.
  - eapply NoDup_Permutation_proper; [|exact Hnd]. by rewrite !tnodes_node_perm.
  - exists v. split; [|done]. rewrite lookup_insert_ne; [done|]. intros E. apply Hnt. by left.
Qed.
Lemma paint_root h c t b' : focus h c t → t ≠ E → b' = true →
  ∃ h', put (Some (rt (tnil h) t)) (set_black b') h = Ret (TT_SUCCESS tt, h') ∧ focus h' c (blacken t) ∧
    frames h h' (tnodes t).
Proof.
  intros H Hne ->. destruct t as [|b l x k r]; [done|].
  destruct (paint_ok h c L b true l x k r H) as (h' & E & Hf & F). exists h'. split; [done|]. split; [done|].
  eapply frames_sub; [done|]. intros y ->%list_elem_of_singleton. rewrite tnodes_T. set_solver.
Qed.
End repr.
