(* ===== verification/RbAdd.v ===== *)
(** Insertion into the red-black tree: the loop that repairs the colours, the way
    down and the whole [tt_rbtree_add]. *)

From S2P Require Import Prelude RbTree RbShape RbRepr.
From stdpp Require Import sorting gmap.

#[local] Open Scope Z_scope.

Section add.
Context {K : Type}.
Implicit Types (t l r s : tree K) (c : list (frame K)) (k : K) (d : side) (h : rbmem K) (n : nat).

(** ** One round of the repair *)

(** A red uncle: the grandparent becomes red, parent and uncle black. *)
Lemma add_red_uncle h d d' p kp s g kg u c z :
  focus h (F d false p kp s :: F d' true g kg u :: c) z → u ≠ E → bk u = false → z ≠ E →
  ∃ h' , add_fixup_side d' (Some (rt (tnil h) z)) h = Ret (TT_SUCCESS (Some g), h') ∧
    focus h' c (node d' false (node d true z p kp s) g kg (blacken u)) ∧
    frames h h' (p :: g :: tnodes u).
Proof.
  intros H Hu Hbu Hz. pose proof (focus_zip _ _ _ _ _ _ _ _ H) as H1.
  pose proof (focus_zip _ _ _ _ _ _ _ _ H1) as H2.
  pose proof (focus_cell _ _ _ _ _ _ _ _ H1) as Hp. pose proof (focus_cell _ _ _ _ _ _ _ _ H2) as Hg.
  pose proof (focus_black _ _ _ (proj1 (focus_other _ _ _ _ _ _ _ _) H1)) as Hub.
  destruct z as [|bz lz xz kz rz]; [done|]. pose proof (focus_cell h _ L bz lz xz kz rz H) as Hzc.
  cbn [rt above fnode] in *. unfold add_fixup_side.
  rewrite (bind_step _ _ _ _ _ (get_ok parent h xz _ Hzc)), cell_parent.
  rewrite (bind_step _ _ _ _ _ (get_ok parent h p _ Hp)), cell_parent.
  rewrite (bind_step _ _ _ _ _ (get_ok (child (opp d')) h g _ Hg)), cell_other.
  rewrite (bind_step _ _ _ _ _ Hub), Hbu. cbn [negb].
  destruct (paint_ok _ _ _ _ true _ _ _ _ H1) as (h1 & E1 & H3 & F1). rewrite (bind_step _ _ _ _ _ E1).
  apply focus_other in H3. destruct (paint_root _ _ _ true H3 Hu eq_refl) as (h2 & E2 & H4 & F2).
  pose proof (proj1 F1) as T1. rewrite T1 in E2. rewrite (bind_step _ _ _ _ _ E2).
  apply focus_zip in H4. rewrite <- node_opp in H4.
  destruct (paint_ok _ _ _ _ false _ _ _ _ H4) as (h3 & E3 & H5 & F3). rewrite (bind_step _ _ _ _ _ E3).
  exists h3. split; [done|]. split; [done|].
  eapply frames_trans; [eapply frames_trans; [eapply frames_sub; [exact F1|]|exact F2|]|exact F3|];
    intros y Hy; set_solver.
Qed.

(** A black uncle and an outer child: one rotation at the grandparent. *)
Lemma add_outer h d p kp s g kg u c z (q : option nid) :
  focus h (F d true g kg u :: c) (node d false z p kp s) →
  ∃ h', (put (Some p) (set_black true);;
         g' ← get parent (Some p);
         put g' (set_black false);;
         rot (opp d) g';;
         mret q) h = Ret (TT_SUCCESS q, h') ∧
    focus h' c (node d true z p kp (node d false s g kg u)) ∧
    frames h h' (held (F d true g kg u :: c) (node d false z p kp s)).
Proof.
  intros H. destruct (paint_ok _ _ _ _ true _ _ _ _ H) as (h1 & E1 & H1 & F1). rewrite (bind_step _ _ _ _ _ E1).
  pose proof (focus_cell _ _ _ _ _ _ _ _ H1) as Hp.
  rewrite (bind_step _ _ _ _ _ (get_ok parent h1 p _ Hp)), cell_parent. cbn [above fnode].
  apply focus_zip in H1. destruct (paint_ok _ _ _ _ false _ _ _ _ H1) as (h2 & E2 & H2 & F2).
  rewrite (bind_step _ _ _ _ _ E2). rewrite node_opp, (node_opp d) in H2.
  destruct (rot_ok _ _ _ _ _ _ _ _ _ _ _ _ H2) as (h3 & E3 & H3 & F3). rewrite (bind_step _ _ _ _ _ E3).
  exists h3. split; [done|]. rewrite node_opp, opp_opp, (node_opp (opp d)), opp_opp in H3. split; [done|].
  eapply frames_trans; [eapply frames_trans; [eapply frames_sub; [exact F1|]|exact F2|]|exact F3|];
    intros y; rewrite held_up; unfold held; rewrite !elem_of_app, !tnodes_node; set_solver.
Qed.

(** What the code reads before it rotates. *)
Lemma add_black_start h d d' p kp s g kg u c z :
  focus h (F d false p kp s :: F d' true g kg u :: c) z → bk u = true → z ≠ E →
  add_fixup_side d' (Some (rt (tnil h) z)) h =
    (z' ← (if match d, d' with L, L | R, R => false | _, _ => true end
           then rot d' (Some p);; mret (Some p) else mret (Some (rt (tnil h) z)));
     zp ← get parent z';
     put zp (set_black true);;
     g' ← get parent zp;
     put g' (set_black false);;
     rot (opp d') g';;
     mret z') h.
Proof.
  intros H Hbu Hz. pose proof (focus_zip _ _ _ _ _ _ _ _ H) as H1.
  pose proof (focus_zip _ _ _ _ _ _ _ _ H1) as H2.
  pose proof (focus_cell _ _ _ _ _ _ _ _ H1) as Hp. pose proof (focus_cell _ _ _ _ _ _ _ _ H2) as Hg.
  pose proof (focus_black _ _ _ (proj1 (focus_other _ _ _ _ _ _ _ _) H1)) as Hub.
  destruct z as [|bz lz xz kz rz]; [done|]. pose proof (focus_cell h _ L bz lz xz kz rz H) as Hzc.
  assert (rt (tnil h) s ≠ xz) as Hne.
  { destruct (focus_apart _ _ _ H) as (_ & Hn & _ & _ & Hd). rewrite tnodes_T in Hn.
    intros E. destruct (rt_in (tnil h) s) as [[E' _]|Hin]; [set_solver|]. rewrite E in Hin.
    apply (Hd xz); [simpl; set_solver|rewrite tnodes_T; set_solver]. }
  cbn [rt above fnode] in *. unfold add_fixup_side.
  rewrite (bind_step _ _ _ _ _ (get_ok parent h xz _ Hzc)), cell_parent.
  rewrite (bind_step _ _ _ _ _ (get_ok parent h p _ Hp)), cell_parent.
  rewrite (bind_step _ _ _ _ _ (get_ok (child (opp d')) h g _ Hg)), cell_other.
  rewrite (bind_step _ _ _ _ _ Hub), Hbu. cbn [negb].
  rewrite (bind_step _ _ _ _ _ (get_ok (child (opp d')) h p _ Hp)).
  destruct d, d'; cbn [child opp cell left right]; rewrite ?same_eq, ?same_ne by congruence; done.
Qed.

(** A black uncle, [z] on the outer side. *)
Lemma add_black_outer h d p kp s g kg u c z :
  focus h (F d false p kp s :: F d true g kg u :: c) z → bk u = true → z ≠ E →
  ∃ h', add_fixup_side d (Some (rt (tnil h) z)) h = Ret (TT_SUCCESS (Some (rt (tnil h) z)), h') ∧
    focus h' (F d true p kp (node d false s g kg u) :: c) z ∧
    frames h h' (held (F d false p kp s :: F d true g kg u :: c) z).
Proof.
  intros H Hbu Hz. rewrite (add_black_start h d d p kp s g kg u c z H Hbu Hz).
  destruct z as [|bz lz xz kz rz]; [done|]. pose proof (focus_cell h _ L bz lz xz kz rz H) as Hzc. cbn [rt].
  replace (match d with L => match d with L => false | R => true end | R => match d with L => true | R => false end end)
    with false by by destruct d.
  rewrite mret_ok, (bind_step _ _ _ _ _ (get_ok parent h xz _ Hzc)), cell_parent. cbn [above fnode].
  apply focus_zip in H. destruct (add_outer h d p kp s g kg u c _ (Some xz) H) as (h' & E & H' & F).
  exists h'. split; [done|]. split; [by apply focus_up|].
  eapply frames_sub; [done|]. intros y. apply held_up.
Qed.

(** A black uncle, [z] on the inner side: its parent goes below it first. *)
Lemma add_black_inner h d p kp s g kg u c b a xz kz e :
  focus h (F (opp d) false p kp s :: F d true g kg u :: c) (node d b a xz kz e) → b = false → bk u = true →
  ∃ h', add_fixup_side d (Some xz) h = Ret (TT_SUCCESS (Some p), h') ∧
    focus h' (F d true xz kz (node d false e g kg u) :: c) (node d false s p kp a) ∧
    frames h h' (held (F (opp d) false p kp s :: F d true g kg u :: c) (node d b a xz kz e)).
Proof.
  intros H -> Hbu. set (z := node d false a xz kz e) in *.
  assert (z ≠ E) as Hz by by destruct d. pose proof (rt_node (tnil h) d false a xz kz e) as Ez. fold z in Ez.
  rewrite <- Ez, (add_black_start h (opp d) d p kp s g kg u c z H Hbu Hz), Ez.
  replace (match opp d with L => match d with L => false | R => true end | R => match d with L => true | R => false end end)
    with true by by destruct d.
  pose proof (focus_zip _ _ _ _ _ _ _ _ H) as H1. rewrite node_opp, opp_opp in H1.
  destruct (rot_ok _ _ _ _ _ _ _ _ _ _ _ _ H1) as (h1 & E1 & H2 & F1). m_simpl. rewrite E1.
  pose proof (focus_cell _ _ _ _ _ _ _ _ (focus_unzip _ _ _ _ _ _ _ _ H2)) as Hp.
  rewrite (get_ok parent h1 p _ Hp), cell_parent. cbn [above fnode].
  destruct (add_outer h1 d xz kz e g kg u c _ (Some p) H2) as (h' & E & H' & F2). m_simpl_in E. rewrite E.
  exists h'. split; [done|]. split; [by apply focus_up|].
  eapply frames_trans; [eapply frames_sub; [exact F1|]|exact F2|]; intros y; unfold z;
    rewrite !held_up; unfold held; rewrite !elem_of_app, !tnodes_node; simpl; set_solver.
Qed.
(** ** The repair *)

(** What the loop keeps: the place and its tree fit, but for a red node below a red
    one. *)
Definition add_broken c t n : Prop := crb c n ∧ rb t n ∧ bk t = false.

(** One round below a red node. *)
Lemma add_round h d p kp s c z n :
  focus h (F d false p kp s :: c) z → add_broken (F d false p kp s :: c) z n →
  ∃ h' d' g kg u c' c'' z' n', c = F d' true g kg u :: c' ∧
    add_fixup_side d' (Some (rt (tnil h) z)) h = Ret (TT_SUCCESS (Some (rt (tnil h) z')), h') ∧
    focus h' c'' z' ∧ add_broken c'' z' n' ∧
    entries (plug c'' z') = entries (plug (F d false p kp s :: c) z) ∧
    frames h h' (held (F d false p kp s :: c) z) ∧ (length c'' < S (length c))%nat.
Proof.
  intros H (Hc & Hz & Hbz). inversion Hc as [| |? ? ? ? ? ? Hs Hbs Hne Htop Hc']; subst.
  destruct c as [|[d' b' g kg u] c']; [done|]. simpl in Htop. subst b'.
  inversion Hc' as [|? ? ? ? ? ? Hu Hc''|]; subst.
  assert (z ≠ E) as Hzn by (by intros ->). destruct (bk u) eqn:Ebu.
  - destruct (decide (d = opp d')) as [->|Hd].
    + destruct z as [|b l x k r]; [done|]. simpl in Hbz. subst b. apply rb_red_inv in Hz as (Hl & Hr & Hbl & Hbr).
      destruct (node_split d' false l x k r) as (a & e & Ez & Hae). rewrite Ez in *.
      destruct (add_black_inner h d' p kp s g kg u c' false a x k e H eq_refl Ebu) as (h' & E & H' & Fr).
      exists h', d', g, kg, u, c', (F d' true x k (node d' false e g kg u) :: c'), (node d' false s p kp a), n.
      rewrite !rt_node. split_and!; [done|done|done| | |done|simpl; lia].
      * split_and!; [|apply rb_node|by rewrite bk_node]; [constructor; [apply rb_node|done]|];
          destruct Hae as [[-> ->]|[-> ->]]; by split_and!.
      * rewrite !entries_plug. simpl. destruct d'; simpl; by rewrite <- ?app_assoc.
    + assert (d = d') as -> by (by destruct d, d').
      destruct (add_black_outer h d' p kp s g kg u c' z H Ebu Hzn) as (h' & E & H' & Fr).
      exists h', d', g, kg, u, c', (F d' true p kp (node d' false s g kg u) :: c'), z, n.
      split_and!; [done|done|done| | |done|simpl; lia].
      * split_and!; [|done|done]. constructor; [by apply rb_node|done].
      * rewrite !entries_plug. destruct d'; simpl; by rewrite <- ?app_assoc.
  - assert (u ≠ E) as Hun by (by intros ->).
    destruct (add_red_uncle h d d' p kp s g kg u c' z H Hun Ebu Hzn) as (h' & E & H' & Fr).
    exists h', d', g, kg, u, c', c', (node d' false (node d true z p kp s) g kg (blacken u)), (S n).
    rewrite rt_node. split_and!; [done|done|done| | | |simpl; lia].
    + split_and!; [done| |by rewrite bk_node]. apply rb_node. rewrite bk_node, bk_blacken.
      split_and!; [apply rb_node; eauto|by apply rb_blacken_red|done|done].
    + rewrite !entries_plug. destruct d, d'; simpl; rewrite entries_blacken, <- ?app_assoc; simpl;
        by rewrite <- ?app_assoc.
    + eapply frames_sub; [done|]. intros y. unfold held. simpl. set_solver.
Qed.

Lemma add_fixup_loop_ok fuel : ∀ h c z n, focus h c z → add_broken c z n → (length c < fuel)%nat →
  ∃ h' c' z' n', add_fixup_loop (Some (rt (tnil h) z)) fuel h = Ret (TT_SUCCESS tt, h') ∧
    focus h' c' z' ∧ crb c' n' ∧ rb z' n' ∧ up_bk c' = true ∧
    entries (plug c' z') = entries (plug c z) ∧ frames h h' (held c z).
Proof.
  induction fuel as [|fuel IH]; intros h c z n H Hb Hf; [lia|]. cbn [add_fixup_loop].
  destruct z as [|b l x k r] eqn:Ez; [by destruct Hb as (_ & _ & ?)|]. rewrite <- Ez in *.
  pose proof (focus_cell h c L b l x k r) as Hx. simpl node in Hx. rewrite <- Ez in Hx. specialize (Hx H).
  assert (get parent (Some (rt (tnil h) z)) h = Ret (TT_SUCCESS (Some (above (tnil h) c)), h)) as Ep
    by (rewrite Ez; apply (get_ok parent h x _ Hx)).
  rewrite (bind_step _ _ _ _ _ Ep).
  rewrite (bind_step _ _ _ _ _ (above_black h c z H)). destruct (up_bk c) eqn:Etop.
  { exists h, c, z, n. destruct Hb as (? & ? & ?). split_and!; done. }
  destruct c as [|[d [] p kp s] c]; [done..|]. clear Etop. cbn [above fnode].
  destruct (add_round h d p kp s c z n H Hb) as (h1 & d' & g & kg & u & c' & c'' & z' & n' & -> & E & H' & Hb' & He & Fr & Hl).
  pose proof (focus_zip _ _ _ _ _ _ _ _ H) as H1. pose proof (focus_cell _ _ _ _ _ _ _ _ H1) as Hp.
  rewrite (bind_step _ _ _ _ _ (get_ok parent h p _ Hp)), cell_parent. cbn [above fnode].
  destruct (side_ok _ _ _ _ _ _ _ _ H1) as (lf & El & Es); [left; by destruct d|].
  rewrite rt_node in Es. rewrite (bind_step _ _ _ _ _ El), Es, (bind_step _ _ _ _ _ E).
  pose proof (proj1 Fr) as T1. rewrite <- T1.
  destruct (IH h1 c'' z' n' H' Hb') as (h2 & c2 & z2 & n2 & E2 & H2 & Hc2 & Hz2 & Ht2 & He2 & F2); [simpl in *; lia|].
  exists h2, c2, z2, n2. split_and!; [done|done|done|done|done|by rewrite He2|].
  eapply frames_trans; [exact Fr|exact F2|]. intros y. by apply held_entries.
Qed.

Lemma add_fixup_ok h c z n : focus h c z → add_broken c z n →
  ∃ h' t, __rbt_add_fixup (Some (rt (tnil h) z)) h = Ret (TT_SUCCESS tt, h') ∧
    focus h' [] t ∧ rbt t ∧ entries t = entries (plug c z) ∧ frames h h' (held c z).
Proof.
  intros H Hb. unfold __rbt_add_fixup.
  destruct (add_fixup_loop_ok (S (size (nodes h))) h c z n H Hb) as (h1 & c' & z' & n' & E & H1 & Hc & Hz & Ht & He & Fr).
  { pose proof (focus_depth h c z H). lia. }
  rewrite (bind_step (bounded _) _ _ _ _ E), (bind_step _ _ _ _ _ (rootp_ok h1)).
  apply focus_top in H1. pose proof (fo_ctx _ _ _ H1) as Hroot. simpl in Hroot. rewrite Hroot.
  destruct (paint_root h1 [] (plug c' z') true H1) as (h2 & E2 & H2 & F2); [|done|].
  { intros En. apply (f_equal entries) in En. rewrite He, entries_plug in En. destruct Hb as (_ & _ & Hb).
    destruct z; [done|]. simpl in En. apply app_eq_nil in En as [_ En]. apply app_eq_nil in En as [En _].
    by apply app_eq_nil in En as [_ ?]. }
  exists h2, (blacken (plug c' z')). split_and!; [done|done|by eapply plug_blacken|by rewrite entries_blacken, He|].
  eapply frames_trans; [exact Fr|exact F2|]. intros y Hy. by apply (held_entries [] (plug c' z')).
Qed.
End add.

(** ** The way down *)

Section descend.
Context {K : Type} (cmpkey : cmpkey_t K) `{!KeyOrder cmpkey}.
Implicit Types (t l r s : tree K) (c : list (frame K)) (k : K) (d : side) (h : rbmem K) (n : nat).

Lemma compare_ok h c b l x kx r k : focus h c (T b l x kx r) →
  compare cmpkey (Some x) k h = Ret (TT_SUCCESS (cmpkey kx k), h).
Proof.
  intros H. apply (focus_cell h c L) in H. unfold compare. by rewrite (bind_step _ _ _ _ _ (get_ok key h x _ H)).
Qed.

(** Where the entries around a node are when its key is above or below [k]. *)
Lemma sorted_step c b l x kx r k : sorted cmpkey (entries (plug c (T b l x kx r))) →
  (0 < cmpkey kx k → Forall (beyond cmpkey k) (post c) → Forall (beyond cmpkey k) (post (F L b x kx r :: c))) ∧
  (cmpkey kx k ≤ 0 → Forall (below cmpkey k) (pre c) → Forall (below cmpkey k) (pre (F R b x kx l :: c))).
Proof.
  rewrite entries_plug. simpl. rewrite <- app_assoc, <- app_comm_cons.
  intros (_ & (_ & Hr & Hlx)%sorted_app & _)%sorted_app. apply StronglySorted_inv in Hr as [_ Hr].
  rewrite Forall_app in Hr. destruct Hr as [Hr _]. split; intros Hk Hf.
  - constructor; [done|]. apply Forall_app. split; [|done]. eapply Forall_impl; [exact Hr|]. intros e He.
    by apply (beyond_up cmpkey k (x, kx) e).
  - rewrite !Forall_app. split_and!; [done| |by constructor]. apply Forall_forall. intros e He.
    apply (below_down cmpkey k e (x, kx)); [|done]. apply Hlx; [done|]. by left.
Qed.

Lemma add_descend_ok k t : ∀ h c fuel, focus h c t → sorted cmpkey (entries (plug c t)) →
  Forall (below cmpkey k) (pre c) → Forall (beyond cmpkey k) (post c) → (height t < fuel)%nat →
  ∃ c', add_descend cmpkey k (Some (rt (tnil h) t)) (Some (above (tnil h) c)) (at_left c) fuel h =
      Ret (TT_SUCCESS (Some (above (tnil h) c'), at_left c'), h) ∧
    plug c' E = plug c t ∧ Forall (below cmpkey k) (pre c') ∧ Forall (beyond cmpkey k) (post c').
Proof.
  induction t as [|b l IHl x kx r IHr]; intros h c fuel H Hs Hpre Hpost Hf; (destruct fuel as [|fuel]; [lia|]);
    cbn [add_descend rt]; rewrite (bind_step _ _ _ _ _ (nilp_ok h)).
  - rewrite same_eq. by exists c.
  - assert (x ≠ tnil h) as Hx.
    { destruct (focus_apart _ _ _ H) as (_ & Hn & _). rewrite tnodes_T in Hn. set_solver. }
    rewrite same_ne by done. rewrite (bind_step _ _ _ _ _ (compare_ok h c b l x kx r k H)).
    pose proof (focus_cell h c L b l x kx r H) as Hc. destruct (sorted_step c b l x kx r k Hs) as [HsL HsR].
    simpl in Hf. destruct (Z.ltb_spec 0 (cmpkey kx k)) as [Hk|Hk].
    + rewrite (bind_step _ _ _ _ _ (get_ok left h x _ Hc)). apply (IHl h (F L b x kx r :: c)); [|done|done|auto|lia].
      by apply (focus_unzip h L).
    + rewrite (bind_step _ _ _ _ _ (get_ok right h x _ Hc)). apply (IHr h (F R b x kx l :: c)); [|done|auto|done|lia].
      by apply (focus_unzip h R).
Qed.

(** A new red node in an empty place. *)
Lemma attach_ok h c z v k : focus h c E → nodes h !! z = Some v → z ∉ tnil h :: cnodes c →
  ∃ h', (∀ rest : M (rbmem K) unit,
        (put (Some z) (set_parent (Some (above (tnil h) c)));;
         (if same (Some (above (tnil h) c)) (Some (tnil h)) then set_root (Some z)
          else if at_left c then put (Some (above (tnil h) c)) (set_left (Some z))
          else put (Some (above (tnil h) c)) (set_right (Some z)));;
         put (Some z) (set_left (Some (tnil h)));;
         put (Some z) (set_right (Some (tnil h)));;
         put (Some z) (λ v, mk_rbnode (parent v) (left v) (right v) (Some k) false);;
         rest) h = rest h') ∧
    focus h' c (T false E z k E) ∧ frames h h' (z :: cnodes c).
Proof.
  intros H Hv Hz. destruct (focus_apart _ _ _ H) as (Hn & _ & Hnd & _). destruct H as [Hc _ _ Hnil]. simpl in Hc.
  apply not_elem_of_cons in Hz as [Hzn Hzc].
  set (h1 := mk_rbmem (<[z := set_parent (Some (above (tnil h) c)) v]> (nodes h)) (tnil h) (root h) (count h)).
  assert (crepr (tnil h1) (nodes h1) (root h1) c (tnil h)) as Hc1 by (by apply crepr_insert).
  assert (∃ h2, (if same (Some (above (tnil h) c)) (Some (tnil h)) then set_root (Some z)
          else if at_left c then put (Some (above (tnil h) c)) (set_left (Some z))
          else put (Some (above (tnil h) c)) (set_right (Some z))) h1 = Ret (TT_SUCCESS tt, h2) ∧
      crepr (tnil h2) (nodes h2) (root h2) c z ∧ frames h1 h2 (cnodes c)) as (h2 & E2 & Hc2 & F2).
  { destruct c as [|[d b w kw s] c]; cbn [above fnode at_left].
    - rewrite same_eq. eexists. split; [done|]. split; [done|]. by split_and!.
    - rewrite same_ne by (intros ->; apply Hn; by left).
      destruct (relink_ok h1 d b w kw s c _ z Hc1 Hnd) as (h2 & E2 & Hc2 & F2). exists h2.
      split; [by destruct d|]. split; [done|]. eapply frames_sub; [exact F2|]. simpl. set_solver. }
  destruct F2 as (T2 & C2 & F2). cbn [tnil count] in *.
  assert (nodes h2 !! z = Some (set_parent (Some (above (tnil h) c)) v)) as Hz2.
  { rewrite F2 by done. simpl. by rewrite lookup_insert_eq. }
  exists (mk_rbmem (<[z := cell L (above (tnil h) c) (tnil h) (tnil h) k false]> (nodes h2)) (tnil h2) (root h2) (count h2)).
  split.
  { intros rest. rewrite (bind_step _ _ _ _ _ (put_ok _ h z v Hv)). fold h1. rewrite (bind_step _ _ _ _ _ E2).
    rewrite (bind_step _ _ _ _ _ (put_ok _ h2 z _ Hz2)).
    do 2 (erewrite bind_step; [|apply put_ok; simpl; by rewrite lookup_insert_eq]).
    cbn [nodes tnil root count]. by rewrite !insert_insert_eq. }
  split.
  - constructor; cbn [nodes tnil root rt].
    + apply crepr_insert; [done|]. done.
    + simpl. rewrite lookup_insert_eq, T2. done.
    + rewrite T2. rewrite tnodes_T. simpl. constructor; [rewrite elem_of_app, list_elem_of_singleton; naive_solver|].
      apply NoDup_app. split_and!; [done|intros y Hy ->%list_elem_of_singleton; done|apply NoDup_singleton].
    + destruct Hnil as (vn & Hvn & Hb). exists vn. split; [|done].
      rewrite T2, lookup_insert_ne by done. rewrite F2 by done. simpl. by rewrite lookup_insert_ne.
  - split_and!; [done|done|]. intros y [Hyz Hyc]%not_elem_of_cons. cbn [nodes].
    rewrite lookup_insert_ne by done. rewrite F2 by done. simpl. by rewrite lookup_insert_ne.
Qed.

(** ** [tt_rbtree_add] *)

Lemma tt_rbtree_add_ok h t k z v : focus h [] t → rbt t → sorted cmpkey (entries t) →
  nodes h !! z = Some v → parent v = None → z ∉ tnil h :: tnodes t →
  ∃ h' t', tt_rbtree_add cmpkey k (Some z) h = Ret (TT_SUCCESS tt, h') ∧
    focus h' [] t' ∧ rbt t' ∧ entries t' = insert_entry cmpkey (z, k) (entries t) ∧
    tnil h' = tnil h ∧ count h' = u32 (count h + 1) ∧
    ∀ y, y ≠ z → y ∉ tnodes t → nodes h' !! y = nodes h !! y.
Proof.
  intros H Hrb Hs Hv Hp [Hzn Hzt]%not_elem_of_cons. unfold tt_rbtree_add.
  rewrite (bind_step _ _ _ _ _ (nilp_ok h)), (bind_step _ _ _ _ _ (rootp_ok h)).
  rewrite (bind_step _ _ _ _ _ (get_ok parent h z v Hv)), Hp.
  replace (same None None) with true by (symmetry; by apply bool_decide_true). rewrite assert_ok.
  destruct (add_descend_ok k t h [] (S (size (nodes h)))) as (c & Ed & Ec & Hpre & Hpost); [done|done|constructor..| |].
  { pose proof (focus_size h [] t H) as Hsz. pose proof (height_entries t). simpl in Hsz.
    unfold tnodes in Hsz. rewrite length_fmap in Hsz. lia. }
  pose proof (fo_ctx _ _ _ H) as Hroot. cbn [crepr] in Hroot. rewrite Hroot, (bind_step (bounded _) _ _ _ _ Ed).
  cbn [plug] in Ec. clear Ed Hroot. subst t. destruct (unplug_rb c E Hrb) as (n & Hc & Hn & _).
  pose proof (focus_in h c [] E H) as H1. rewrite app_nil_r in H1.
  assert (∀ y, y ∈ cnodes c ↔ y ∈ tnodes (plug c E)) as Hcn.
  { intros y. pose proof (held_perm c (E : tree K)) as Hpm. unfold tnodes. rewrite entries_plug, Hpm.
    unfold held. rewrite elem_of_app. simpl. set_solver. }
  destruct (attach_ok h c z v k H1 Hv) as (h2 & E2 & H2 & F2).
  { rewrite not_elem_of_cons, Hcn. done. }
  rewrite E2. destruct (add_fixup_ok h2 c (T false E z k E) n H2) as (h3 & t' & E3 & H3 & Hrb3 & He3 & F3).
  { split_and!; [done| |done]. by constructor. }
  cbn [rt] in E3. rewrite (bind_step _ _ _ _ _ E3). destruct F2 as (T2 & C2 & F2), F3 as (T3 & C3 & F3).
  exists (add_count 1 h3), t'. split; [done|]. split; [by destruct H3|]. split; [done|].
  split.
  { rewrite He3, !entries_plug. simpl. by rewrite (insert_entry_app cmpkey (z, k)). }
  split; [simpl; congruence|]. split; [simpl; congruence|]. intros y Hyz Hyt. simpl.
  assert (y ∉ cnodes c) as Hyc by (by rewrite Hcn). rewrite F3, F2; [done|set_solver|].
  unfold held. rewrite tnodes_T. simpl. set_solver.
Qed.
End descend.
