(* ===== verification/RbFind.v ===== *)
(** Looking at the red-black tree without changing it: the searches, the ends,
    the neighbours, and the check of debug builds, which decides the balance. *)

From S2P Require Import Prelude RbTree RbShape RbRepr RbAdd.
From stdpp Require Import sorting gmap.

#[local] Open Scope Z_scope.

Section walk.
Context {K : Type}.
Implicit Types (t l r s : tree K) (c : list (frame K)) (k : K) (d : side) (h : rbmem K) (n : nat).

(** The entry at an end of a sequence. *)
Definition end_of (d : side) (xs : list (nid * K)) : option nid :=
  fst <$> match d with L => head xs | R => last xs end.

Lemma end_of_app d xs ys : xs ≠ [] → ys ≠ [] →
  end_of d (xs ++ ys) = match d with L => end_of d xs | R => end_of d ys end.
Proof.
  intros Hx Hy. destruct d; unfold end_of; [by destruct xs|]. rewrite last_app.
  destruct (last ys) eqn:El; [done|]. by apply last_None in El.
Qed.
Lemma end_of_node d b t x k s : end_of d (entries (node d b t x k s)) =
  match t with E => Some x | _ => end_of d (entries t) end.
Proof.
  assert (∀ b l y ky r, entries (T b l y ky r) ≠ []) as Hne
    by (intros ? l ???; simpl; by destruct (entries l)).
  destruct d; simpl.
  - destruct t as [|b' l y ky r]; [done|]. by rewrite (end_of_app L).
  - unfold end_of. rewrite last_app, last_cons. destruct t as [|b' l y ky r]; [done|].
    destruct (last (entries (T b' l y ky r))) eqn:El; [done|]. apply last_None in El. by apply Hne in El.
Qed.

Lemma node_ne h c b l x k r : focus h c (T b l x k r) → x ≠ tnil h.
Proof. intros H. destruct (focus_apart _ _ _ H) as (_ & Hn & _). rewrite tnodes_T in Hn. set_solver. Qed.
Lemma rt_same h c t : focus h c t → same (Some (rt (tnil h) t)) (Some (tnil h)) = match t with E => true | _ => false end.
Proof. intros H. destruct t; [apply same_eq|apply same_ne; by eapply node_ne]. Qed.
Lemma fuel_ok h c t : focus h c t → (height t < S (size (nodes h)))%nat.
Proof.
  intros H. pose proof (focus_size h c t H) as Hs. pose proof (height_entries t) as Hh.
  rewrite length_app in Hs. unfold tnodes in Hs. rewrite length_fmap in Hs. lia.
Qed.

(** ** [__rbt_min] and [__rbt_max] *)

Lemma extreme_loop_ok d t : ∀ h c fuel, focus h c t → t ≠ E → (height t < fuel)%nat →
  extreme_loop d (Some (rt (tnil h) t)) fuel h = Ret (TT_SUCCESS (end_of d (entries t)), h).
Proof.
  induction t as [|b l IHl x k r IHr]; intros h c fuel H Hne Hf; [done|]. destruct fuel as [|fuel]; [lia|].
  cbn [extreme_loop rt height] in *. rewrite (bind_step _ _ _ _ _ (nilp_ok h)).
  destruct (node_split d b l x k r) as (t & s & Et & Hts). pose proof H as H0. rewrite Et in H.
  rewrite Et, end_of_node. pose proof (focus_cell _ _ _ _ _ _ _ _ H) as Hc. apply focus_unzip in H.
  rewrite (bind_step _ _ _ _ _ (get_ok (child d) h x _ Hc)), cell_child, (rt_same h _ t H).
  destruct t as [|b' l' y ky r'] eqn:Ett; [done|]. rewrite <- Ett in *.
  destruct Hts as [[-> ->]|[-> ->]]; [eapply IHl|eapply IHr]; try exact H; (by rewrite Ett) || lia.
Qed.
Lemma extreme_ok d h c t : focus h c t → t ≠ E →
  extreme d (Some (rt (tnil h) t)) h = Ret (TT_SUCCESS (end_of d (entries t)), h).
Proof.
  intros H Hne. unfold extreme. rewrite (bind_step _ _ _ _ _ (nilp_ok h)), (rt_same h c t H).
  replace (match t with E => true | _ => false end) with false by (by destruct t). rewrite assert_ok.
  eapply extreme_loop_ok; [done|done|by eapply fuel_ok].
Qed.

Lemma tt_rbtree_extreme_ok d h t : focus h [] t →
  tt_rbtree_extreme d h = Ret (TT_SUCCESS (end_of d (entries t)), h).
Proof.
  intros H. unfold tt_rbtree_extreme. pose proof (fo_ctx _ _ _ H) as Hr. simpl in Hr.
  rewrite (bind_step _ _ _ _ _ (nilp_ok h)), (bind_step _ _ _ _ _ (rootp_ok h)), Hr, (rt_same h _ t H).
  destruct t as [|b l x k r] eqn:Et; [by destruct d|]. rewrite <- Et in *.
  eapply extreme_ok; [done|]. by rewrite Et.
Qed.

(** ** [tt_rbtree_next] and [tt_rbtree_prev] *)

(** The entry next to a place. *)
Definition beside (d : side) c : option nid := fst <$> match d with L => last (pre c) | R => head (post c) end.

Lemma climb_ok d c : ∀ h t fuel, focus h c t → t ≠ E → (length c < fuel)%nat →
  climb d (Some (rt (tnil h) t)) (Some (above (tnil h) c)) fuel h = Ret (TT_SUCCESS (beside d c), h).
Proof.
  induction c as [|[d' b x k s] c IH]; intros h t fuel H Hne Hf; (destruct fuel as [|fuel]; [simpl in Hf; lia|]);
    cbn [climb]; rewrite (bind_step _ _ _ _ _ (nilp_ok h)); cbn [above fnode].
  { rewrite same_eq. by destruct d. }
  pose proof (focus_zip _ _ _ _ _ _ _ _ H) as H1. pose proof (focus_cell _ _ _ _ _ _ _ _ H1) as Hc.
  pose proof (rt_apart _ _ _ _ _ _ _ _ H (or_introl Hne)) as Hrt.
  rewrite same_ne.
  2: { intros ->. apply (proj1 (focus_apart _ _ _ H)). by left. }
  rewrite (bind_step _ _ _ _ _ (get_ok (child d) h x _ Hc)). destruct (decide (d' = d)) as [->|Hd].
  - rewrite cell_child, same_eq, (bind_step _ _ _ _ _ (get_ok parent h x _ Hc)), cell_parent.
    rewrite <- (rt_node (tnil h) d b t x k s), IH; [|done|by destruct d|simpl in Hf; lia].
    unfold beside. by destruct d.
  - assert (d' = opp d) as -> by (by destruct d, d'). rewrite cell_opp, cell_child, same_ne by done.
    unfold beside. destruct d; simpl; [by rewrite app_assoc, last_snoc|done].
Qed.

Lemma neighbour_ok d h c b l x k r : focus h c (T b l x k r) →
  neighbour d (Some x) h = Ret (TT_SUCCESS (match d with
    | L => fst <$> last (pre c ++ entries l) | R => fst <$> head (entries r ++ post c) end), h).
Proof.
  intros H. unfold neighbour. rewrite (bind_step _ _ _ _ _ (nilp_ok h)).
  destruct (node_split d b l x k r) as (t & s & Et & Hts). pose proof H as H0. rewrite Et in H.
  pose proof (focus_cell _ _ _ _ _ _ _ _ H) as Hc. apply focus_unzip in H.
  rewrite (bind_step _ _ _ _ _ (get_ok (child d) h x _ Hc)), cell_child, (rt_same h _ t H).
  assert (t = match d with L => l | R => r end) as Ets.
  { destruct d; simpl in Et; by injection Et. }
  destruct t as [|b' l' y ky r'] eqn:Ett.
  - rewrite (bind_step _ _ _ _ _ (get_ok parent h x _ Hc)), cell_parent.
    pose proof (climb_ok d c h _ (S (size (nodes h))) H0) as Hcl. cbn [rt] in Hcl. unfold bounded. rewrite Hcl; [|done|].
    + destruct d; subst; simpl; [by rewrite app_nil_r|done].
    + pose proof (focus_depth _ _ _ H0). lia.
  - rewrite <- Ett in *. rewrite (extreme_ok (opp d) h _ t H) by (by rewrite Ett). do 3 f_equal.
    assert (entries t ≠ []) as Hne by (rewrite Ett; simpl; by destruct (entries l')).
    destruct d; rewrite <- Ets; unfold end_of; cbn [opp].
    + rewrite last_app. destruct (last (entries t)) eqn:El; [done|]. by apply last_None in El.
    + by destruct (entries t).
Qed.
End walk.

(** ** [tt_rbtree_find], [tt_rbtree_find_gteq] and [tt_rbtree_find_lteq] *)

Section find.
Context {K : Type} (cmpkey : cmpkey_t K) `{!KeyOrder cmpkey}.
Implicit Types (t l r s : tree K) (c : list (frame K)) (k : K) (d : side) (h : rbmem K) (n : nat).

Definition under k (e : nid * K) : Prop := cmpkey e.2 k < 0.

Lemma under_down k e e' : le_key cmpkey e.2 e'.2 → under k e' → under k e.
Proof.
  unfold under, le_key. rewrite !cmp_anti by done. intros H H'.
  destruct (Z_lt_ge_dec 0 (cmpkey k e.2)) as [|Hge]; [done|]. pose proof (cmp_trans k e.2 e'.2). lia.
Qed.

(** An entry with an equal key, or the last one with a smaller and the first one
    with a larger key when there is none. *)
Definition found (keep : option side) k (xs : list (nid * K)) (res : option nid) : Prop :=
  (∃ x kx, res = Some x ∧ (x, kx) ∈ xs ∧ cmpkey kx k = 0) ∨
  (∃ xs1 xs2, xs = xs1 ++ xs2 ∧ Forall (under k) xs1 ∧ Forall (beyond cmpkey k) xs2 ∧
    res = match keep with None => None | Some L => fst <$> head xs2 | Some R => fst <$> last xs1 end).

Definition best_at (keep : option side) c : option nid :=
  match keep with None => None | Some d => beside (opp d) c end.

Lemma find_loop_ok keep k t : ∀ h c fuel, focus h c t → sorted cmpkey (entries (plug c t)) →
  Forall (under k) (pre c) → Forall (beyond cmpkey k) (post c) → (height t < fuel)%nat →
  ∃ res, find_loop cmpkey keep k (Some (rt (tnil h) t)) (best_at keep c) fuel h = Ret (TT_SUCCESS res, h) ∧
    found keep k (entries (plug c t)) res.
Proof.
  induction t as [|b l IHl x kx r IHr]; intros h c fuel H Hs Hpre Hpost Hf; (destruct fuel as [|fuel]; [lia|]);
    cbn [find_loop]; rewrite (bind_step _ _ _ _ _ (nilp_ok h)), (rt_same h c _ H).
  - eexists. split; [done|]. right. exists (pre c), (post c). rewrite entries_plug. split_and!; [done..|].
    by destruct keep as [[]|].
  - cbn [rt]. rewrite (bind_step _ _ _ _ _ (compare_ok cmpkey h c b l x kx r k H)).
    pose proof (focus_cell h c L b l x kx r H) as Hc. destruct (sorted_step cmpkey c b l x kx r k Hs) as [HsL _].
    simpl in Hf. destruct (Z.ltb_spec 0 (cmpkey kx k)) as [Hk|Hk].
    + rewrite (bind_step _ _ _ _ _ (get_ok left h x _ Hc)).
      destruct (IHl h (F L b x kx r :: c) fuel) as (res & E & Hres); [by apply (focus_unzip h L)|done|done|auto|lia|].
      exists res. split; [|done]. rewrite <- E. destruct keep as [[]|]; reflexivity.
    + destruct (Z.eqb_spec (cmpkey kx k) 0) as [Hk0|Hk0].
      { eexists. split; [done|]. left. exists x, kx. split_and!; [done| |done].
        rewrite entries_plug. simpl. set_solver. }
      rewrite (bind_step _ _ _ _ _ (get_ok right h x _ Hc)).
      destruct (IHr h (F R b x kx l :: c) fuel) as (res & E & Hres); [by apply (focus_unzip h R)|done| |done|lia|].
      * rewrite entries_plug in Hs. simpl in Hs. rewrite <- app_assoc in Hs.
        apply sorted_app in Hs as (_ & (_ & _ & Hlx)%sorted_app & _). simpl. rewrite !Forall_app.
        split_and!; [done| |by constructor; [unfold under; simpl; lia|]]. apply Forall_forall. intros e He.
        apply (under_down k e (x, kx)); [|unfold under; simpl; lia]. apply Hlx; [done|]. by left.
      * exists res. split; [|done]. rewrite <- E. destruct keep as [[]|]; simpl; unfold beside; simpl;
          rewrite ?app_assoc, ?last_snoc; reflexivity.
Qed.

Lemma search_ok keep k h t : focus h [] t → sorted cmpkey (entries t) →
  ∃ res, search cmpkey keep k h = Ret (TT_SUCCESS res, h) ∧ found keep k (entries t) res.
Proof.
  intros H Hs. unfold search. rewrite (bind_step _ _ _ _ _ (rootp_ok h)).
  pose proof (fo_ctx _ _ _ H) as Hr. simpl in Hr. rewrite Hr.
  destruct (find_loop_ok keep k t h [] (S (size (nodes h))) H Hs) as (res & E & Hres); [done|done|by eapply fuel_ok|].
  exists res. split; [|done]. unfold bounded. rewrite <- E. by destruct keep as [[]|].
Qed.
End find.

(** ** [__rbt_expensive_check] and [__rbt_count] *)

Section check.
Context {K : Type}.
Implicit Types (t l r s : tree K) (c : list (frame K)) (k : K) (d : side) (h : rbmem K) (n : nat).

Lemma rb_unique t n n' : rb t n → rb t n' → n = n'.
Proof. intros H. revert n'. induction H; intros n' H'; inversion H'; subst; eauto. Qed.

(** What the check says of the tree at a place: its black height plus one, or that
    the tree is not balanced. *)
Definition verdict c t (res : result Z) : Prop :=
  match res with
  | TT_SUCCESS b => ∃ n, b = Z.of_nat n + 1 ∧ rb t n ∧ (n ≤ length (entries t))%nat ∧ (c = [] → bk t = true)
  | TT_ERROR _ => ∀ n, rb t n → (c = [] → bk t = true) → False
  end.

Lemma expensive_check_loop t : ∀ h c fuel, focus h c t → (height t < fuel)%nat → zlen (entries t) < 2 ^ 32 - 2 →
  ∃ res, expensive_check (Some (rt (tnil h) t)) fuel h = Ret (res, h) ∧ verdict c t res.
Proof.
  induction t as [|b l IHl x k r IHr]; intros h c fuel H Hf Hn; (destruct fuel as [|fuel]; [lia|]);
    cbn [expensive_check]; rewrite (bind_step _ _ _ _ _ (nilp_ok h)), (bind_step _ _ _ _ _ (focus_black h c _ H)),
      (rt_same h c _ H); cbn [bk].
  - eexists. split; [done|]. exists 0%nat. split_and!; [done|constructor|simpl; lia|done].
  - cbn [entries] in Hn. rewrite zlen_app, zlen_cons in Hn. unfold zlen in Hn. simpl in Hf.
    rewrite (bind_step _ _ _ _ _ (rootp_ok h)), (root_here h c _ H).
    pose proof (focus_cell h c L b l x k r H) as Hc. cbn [rt]. destruct ((match c with [] => true | _ => false end) && negb b) eqn:Er.
    { eexists. split; [by apply bind_error|]. intros n _ Hb. destruct c; [|done]. specialize (Hb eq_refl). simpl in Hb.
      by subst. }
    assert (c = [] → b = true) as Hroot by (intros ->; by destruct b).
    rewrite mret_ok, (bind_step _ _ _ _ _ (get_ok left h x _ Hc)), (bind_step _ _ _ _ _ (get_ok right h x _ Hc)).
    cbn [cell left right]. pose proof (focus_unzip h L _ _ _ _ _ _ H) as HL.
    pose proof (focus_unzip h R _ _ _ _ _ _ H) as HR.
    rewrite (bind_step _ _ _ _ _ (focus_black h _ l HL)), (bind_step _ _ _ _ _ (focus_black h _ r HR)).
    destruct (negb b && (negb (bk l) || negb (bk r))) eqn:Ec.
    { eexists. split; [by apply bind_error|]. intros n Hrb _. destruct b; [done|].
      apply rb_red_inv in Hrb as (_ & _ & E1 & E2). by rewrite E1, E2 in Ec. }
    assert (b = false → bk l = true ∧ bk r = true) as Hbb by (intros ->; by destruct (bk l), (bk r)).
    rewrite mret_ok. destruct (IHl h _ fuel HL) as (resl & El & Vl); [lia|unfold zlen; lia|].
    destruct (IHr h _ fuel HR) as (resr & Err & Vr); [lia|unfold zlen; lia|].
    destruct resl as [bl|e].
    2: { eexists. split; [apply bind_error; by eapply do_r_error|]. intros n Hrb _. destruct b; inversion Hrb; subst;
           by eapply Vl. }
    rewrite (bind_step _ _ _ _ _ (do_r_step _ _ _ _ _ El)). destruct resr as [br|e].
    2: { eexists. split; [apply bind_error; by eapply do_r_error|]. intros n Hrb _. destruct b; inversion Hrb; subst;
           by eapply Vr. }
    rewrite (bind_step _ _ _ _ _ (do_r_step _ _ _ _ _ Err)).
    destruct Vl as (nl & -> & Hrl & Hnl & _), Vr as (nr & -> & Hrr & Hnr & _).
    destruct (Z.eqb_spec (Z.of_nat nl + 1) (Z.of_nat nr + 1)) as [Heq|Hne]; cbn [negb].
    + assert (nr = nl) as -> by lia. eexists. split; [done|]. simpl. rewrite length_app. simpl. destruct b.
      * exists (S nl). rewrite u32_small by lia. split_and!; [lia|by constructor|lia|done].
      * destruct Hbb as [??]; [done|]. exists nl. split_and!; [done|by constructor|lia|done].
    + eexists. split; [done|]. intros n Hrb _. apply Hne. do 2 f_equal.
      assert (∃ m, rb l m ∧ rb r m) as (m & H1 & H2) by (destruct b; inversion Hrb; subst; eauto).
      by rewrite (rb_unique l nl m), (rb_unique r nr m).
Qed.

Lemma u32_sum a b : u32 (u32 a + u32 b + 1) = u32 (a + b + 1).
Proof. unfold u32. by rewrite <- Zplus_mod_idemp_l, <- Zplus_mod, Zplus_mod_idemp_l. Qed.

Lemma rbt_count_loop t : ∀ h c fuel, focus h c t → (height t < fuel)%nat →
  rbt_count (Some (rt (tnil h) t)) fuel h = Ret (TT_SUCCESS (u32 (zlen (entries t))), h).
Proof.
  induction t as [|b l IHl x k r IHr]; intros h c fuel H Hf; (destruct fuel as [|fuel]; [lia|]);
    cbn [rbt_count]; rewrite (bind_step _ _ _ _ _ (nilp_ok h)), (rt_same h c _ H); [done|].
  simpl in Hf. pose proof (focus_cell h c L b l x k r H) as Hc. cbn [rt].
  rewrite (bind_step _ _ _ _ _ (get_ok left h x _ Hc)). cbn [cell left right].
  rewrite (bind_step _ _ _ _ _ (IHl h _ fuel (focus_unzip h L _ _ _ _ _ _ H) ltac:(lia))).
  rewrite (bind_step _ _ _ _ _ (get_ok right h x _ Hc)). cbn [cell left right].
  rewrite (bind_step _ _ _ _ _ (IHr h _ fuel (focus_unzip h R _ _ _ _ _ _ H) ltac:(lia))).
  unfold mret, M_ret, ret. rewrite u32_sum. cbn [entries]. rewrite zlen_app, zlen_cons.
  by replace (zlen (entries l) + zlen (entries r) + 1) with (zlen (entries l) + (1 + zlen (entries r))) by lia.
Qed.
End check.
