(* ===== verification/RbRemove.v ===== *)
(** Removal from the red-black tree: taking the node out, the loop that repairs
    the colours, and the whole [tt_rbtree_remove]. *)

From S2P Require Import Prelude RbTree RbShape RbRepr RbAdd RbFind.
From stdpp Require Import sorting gmap.

#[local] Open Scope Z_scope.

Section remove.
Context {K : Type}.
Implicit Types (t l r s : tree K) (c : list (frame K)) (k : K) (d : side) (h : rbmem K) (n : nat).

(** ** A place that is one black node short *)

(** The parent pointer of the node at the place is right, even when that is the
    sentinel. *)
Definition hook h c t : Prop :=
  ∃ v, nodes h !! rt (tnil h) t = Some v ∧ parent v = Some (above (tnil h) c).

(** Painting the root black gives a tree of black height [S n], or the root is
    black already and the tree has black height [n]. *)
Definition soft t n : Prop := (bk t = true ∧ rb t n) ∨ (bk t = false ∧ rb (blacken t) (S n)).

Lemma hook_get h c t : hook h c t →
  get parent (Some (rt (tnil h) t)) h = Ret (TT_SUCCESS (Some (above (tnil h) c)), h).
Proof. intros (v & Hv & Hp). by rewrite (get_ok _ h _ v Hv), Hp. Qed.

Lemma focus_hook h c t : focus h c t → t ≠ E → hook h c t.
Proof.
  intros H Hne. destruct t as [|b l x k r]; [done|]. apply (focus_cell h c L) in H. eexists. split; [exact H|done].
Qed.

(** The sentinel is not part of the tree. *)
Lemma nil_write h c t v : focus h c t → black v = true →
  focus (mk_rbmem (<[tnil h := v]> (nodes h)) (tnil h) (root h) (count h)) c t.
Proof.
  intros H Hb. destruct (focus_apart _ _ _ H) as (Hnc & Hnt & _). destruct H as [Hc Ht Hnd _].
  constructor; cbn [nodes tnil root]; [by apply crepr_insert|by apply repr_insert|done|].
  exists v. by rewrite lookup_insert_eq.
Qed.

(** The hook of a place whose frames above change. *)
Lemma hook_move h h' c c' t ys : focus h' c' t → hook h c t → frames h h' ys → tnil h ∉ ys →
  above (tnil h) c' = above (tnil h) c → hook h' c' t.
Proof.
  intros H (v & Hv & Hp) (T1 & _ & Fr) Hn Ha. destruct t as [|b l x k r].
  - exists v. rewrite T1. simpl in *. rewrite Fr, Ha by done. done.
  - apply focus_hook; [done|by destruct b].
Qed.

(** ** The repair *)

(** The sibling is red: it moves up, and the new sibling is black. *)
Lemma remove_red h d p kp X w kw A B c :
  focus h (F d true p kp (node d false A w kw B) :: c) X → hook h (F d true p kp (node d false A w kw B) :: c) X →
  ∃ h', (put (Some w) (set_black true);;
       put (Some p) (set_black false);;
       rot d (Some p);;
       xp ← get parent (Some (rt (tnil h) X));
       get (child (opp d)) xp) h = Ret (TT_SUCCESS (Some (rt (tnil h) A)), h') ∧
    focus h' (F d false p kp A :: F d true w kw B :: c) X ∧ hook h' (F d false p kp A :: F d true w kw B :: c) X ∧
    frames h h' (held (F d true p kp (node d false A w kw B) :: c) X).
Proof.
  intros H Hk. pose proof (focus_apart _ _ _ H) as (Hnc & Hnt & _).
  pose proof (proj1 (focus_other _ _ _ _ _ _ _ _) H) as H0.
  destruct (paint_ok _ _ _ _ true _ _ _ _ H0) as (h1 & E1 & H1 & F1).
  apply (focus_other h1 d) in H1. apply focus_zip in H1.
  destruct (paint_ok _ _ _ _ false _ _ _ _ H1) as (h2 & E2 & H2 & F2).
  destruct (rot_ok _ _ _ _ _ _ _ _ _ _ _ _ H2) as (h3 & E3 & H3 & F3).
  apply focus_unzip in H3. pose proof (focus_cell _ _ _ _ _ _ _ _ H3) as Hp. apply focus_unzip in H3.
  assert (frames h h3 (held (F d true p kp (node d false A w kw B) :: c) X)) as Fr.
  { eapply frames_trans; [eapply frames_trans; [eapply frames_sub; [exact F1|]|exact F2|]|exact F3|]; held_tac. }
  assert (hook h3 (F d false p kp A :: F d true w kw B :: c) X) as Hk3.
  { eapply hook_move; [exact H3|exact Hk|exact Fr|clear -Hnc Hnt; set_solver|done]. }
  exists h3. split; [|done].
  rewrite (bind_step _ _ _ _ _ E1), (bind_step _ _ _ _ _ E2), (bind_step _ _ _ _ _ E3).
  pose proof (proj1 Fr) as T3. rewrite <- T3, (bind_step _ _ _ _ _ (hook_get _ _ _ Hk3)). cbn [above fnode].
  by rewrite (get_ok _ h3 p _ Hp), cell_other.
Qed.

(** The sibling is black and its far child too: the near child takes its place. *)
Lemma remove_inner h d b p kp X w kw A1 a ka A2 B c :
  focus h (F d b p kp (node d true (node d false A1 a ka A2) w kw B) :: c) X →
  hook h (F d b p kp (node d true (node d false A1 a ka A2) w kw B) :: c) X →
  ∃ h', (wn ← get (child d) (Some w);
       put wn (set_black true);;
       put (Some w) (set_black false);;
       rot (opp d) (Some w);;
       xp ← get parent (Some (rt (tnil h) X));
       get (child (opp d)) xp) h = Ret (TT_SUCCESS (Some a), h') ∧
    focus h' (F d b p kp (node d true A1 a ka (node d false A2 w kw B)) :: c) X ∧
    hook h' (F d b p kp (node d true A1 a ka (node d false A2 w kw B)) :: c) X ∧
    frames h h' (held (F d b p kp (node d true (node d false A1 a ka A2) w kw B) :: c) X).
Proof.
  intros H Hk. pose proof (focus_apart _ _ _ H) as (Hnc & Hnt & _).
  pose proof (proj1 (focus_other _ _ _ _ _ _ _ _) H) as H0. pose proof (focus_cell _ _ _ _ _ _ _ _ H0) as Hw.
  rewrite rt_node in Hw. apply focus_unzip in H0.
  destruct (paint_ok _ _ _ _ true _ _ _ _ H0) as (h1 & E1 & H1 & F1). apply focus_zip in H1.
  destruct (paint_ok _ _ _ _ false _ _ _ _ H1) as (h2 & E2 & H2 & F2).
  rewrite (node_opp d), (node_opp d true) in H2.
  destruct (rot_ok _ _ _ _ _ _ _ _ _ _ _ _ H2) as (h3 & E3 & H3 & F3).
  rewrite (node_opp (opp d)), (node_opp (opp d)), !opp_opp in H3. apply (focus_other h3 d) in H3.
  pose proof (focus_cell _ _ _ _ _ _ _ _ (focus_zip _ _ _ _ _ _ _ _ H3)) as Hp.
  rewrite rt_node in Hp.
  assert (frames h h3 (held (F d b p kp (node d true (node d false A1 a ka A2) w kw B) :: c) X)) as Fr.
  { eapply frames_trans; [eapply frames_trans; [eapply frames_sub; [exact F1|]|exact F2|]|exact F3|]; held_tac. }
  assert (hook h3 (F d b p kp (node d true A1 a ka (node d false A2 w kw B)) :: c) X) as Hk3.
  { eapply hook_move; [exact H3|exact Hk|exact Fr|clear -Hnc Hnt; set_solver|done]. }
  exists h3. split; [|done]. rewrite (bind_step _ _ _ _ _ (get_ok _ h w _ Hw)), cell_child.
  rewrite (bind_step _ _ _ _ _ E1), (bind_step _ _ _ _ _ E2), (bind_step _ _ _ _ _ E3).
  pose proof (proj1 Fr) as T3. rewrite <- T3, (bind_step _ _ _ _ _ (hook_get _ _ _ Hk3)). cbn [above fnode].
  by rewrite (get_ok _ h3 p _ Hp), cell_other.
Qed.

(** The far child is red: one rotation ends the repair. *)
Lemma remove_outer h d b p kp X w kw A B c :
  focus h (F d b p kp (node d true A w kw B) :: c) X → hook h (F d b p kp (node d true A w kw B) :: c) X → B ≠ E →
  ∃ h', (xp ← get parent (Some (rt (tnil h) X));
       pb ← get black xp;
       put (Some w) (set_black pb);;
       put xp (set_black true);;
       wf ← get (child (opp d)) (Some w);
       put wf (set_black true);;
       rot d xp;;
       rootp) h = Ret (TT_SUCCESS (Some (root h')), h') ∧
    focus h' c (node d b (node d true X p kp A) w kw (blacken B)) ∧
    frames h h' (held (F d b p kp (node d true A w kw B) :: c) X).
Proof.
  intros H Hk HB. pose proof (focus_cell _ _ _ _ _ _ _ _ (focus_zip _ _ _ _ _ _ _ _ H)) as Hp.
  pose proof (proj1 (focus_other _ _ _ _ _ _ _ _) H) as H0.
  destruct (paint_ok _ _ _ _ b _ _ _ _ H0) as (h1 & E1 & H1 & F1).
  apply (focus_other h1 d) in H1. apply focus_zip in H1.
  destruct (paint_ok _ _ _ _ true _ _ _ _ H1) as (h2 & E2 & H2 & F2).
  rewrite node_opp in H2. apply focus_unzip in H2. pose proof (focus_cell _ _ _ _ _ _ _ _ H2) as Hw.
  rewrite node_opp in H2. apply focus_unzip in H2.
  destruct (paint_root _ _ _ true H2 HB eq_refl) as (h3 & E3 & H3 & F3).
  apply focus_zip in H3. rewrite <- node_opp in H3. apply focus_zip in H3. rewrite <- node_opp in H3.
  destruct (rot_ok _ _ _ _ _ _ _ _ _ _ _ _ H3) as (h4 & E4 & H4 & F4).
  exists h4. split; [|split; [done|]].
  - rewrite (bind_step _ _ _ _ _ (hook_get _ _ _ Hk)). cbn [above fnode].
    rewrite (bind_step _ _ _ _ _ (get_ok black h p _ Hp)), cell_black, (bind_step _ _ _ _ _ E1), (bind_step _ _ _ _ _ E2).
    rewrite (bind_step _ _ _ _ _ (get_ok _ h2 w _ Hw)), cell_other, (bind_step _ _ _ _ _ E3), (bind_step _ _ _ _ _ E4).
    done.
  - eapply frames_trans; [eapply frames_trans; [eapply frames_trans; [eapply frames_sub; [exact F1|]|exact F2|]|exact F3|]|exact F4|];
      [held_tac..|]. destruct B; held_tac.
Qed.

(** The state of the loop. *)
Record lacking h c t n : Prop := {
  la_focus : focus h c t;
  la_hook : hook h c t;
  la_crb : crb c (S n);
  la_soft : soft t n;
}.

(** What a round does to it; a place at the root, or a red node, ends the loop. *)
Definition round_ok h c t (m : M (rbmem K) (option nid)) (next : list (frame K) → tree K → Prop) : Prop :=
  ∃ h' c' t' n', m h = Ret (TT_SUCCESS (Some (rt (tnil h') t')), h') ∧ lacking h' c' t' n' ∧
    entries (plug c' t') = entries (plug c t) ∧ frames h h' (held c t) ∧ next c' t'.

Lemma lacking_root h t : focus h [] t → rbt t → t ≠ E → ∃ n, lacking h [] t n.
Proof.
  intros H [Hb [n Hn]] Hne. exists n. constructor; [done|by apply focus_hook|constructor|by left].
Qed.

Lemma rb_black_node d t x k s n : rb (node d true t x k s) (S n) → rb t n ∧ rb s n.
Proof. intros (n' & [= ->] & ? & ?)%rb_node. done. Qed.
Lemma rb_red_node d t x k s n : rb (node d false t x k s) n → rb t n ∧ rb s n ∧ bk t = true ∧ bk s = true.
Proof. by intros H%rb_node. Qed.

(** Both children of the sibling black: the place above lacks a black node. *)
Lemma both_black_soft d b p kp X w kw A B c n : rb X n → rb A n → rb B n → bk A = true → bk B = true →
  crb (F d b p kp (node d true A w kw B) :: c) (S n) →
  ∃ n', crb c (S n') ∧ soft (node d b X p kp (node d false A w kw B)) n'.
Proof.
  intros HX HA HB Ha Hb Hc. assert (rb (node d true X p kp (node d false A w kw B)) (S n)) as Hr.
  { apply rb_node. exists n. split_and!; [done|done|]. by apply rb_node. }
  inversion Hc; subst.
  - exists (S n). split; [done|]. left. by rewrite bk_node.
  - exists n. split; [done|]. right. rewrite bk_node. split; [done|]. by destruct d.
Qed.

(** The tree that the last rotation leaves. *)
Lemma outer_rb d b p kp X w kw A B c n : rb X n → rb A n → rb B n → bk B = false →
  crb (F d b p kp (node d true A w kw B) :: c) (S n) →
  ∃ n', crb c n' ∧ rb (node d b (node d true X p kp A) w kw (blacken B)) n' ∧ (b = true ∨ (c ≠ [] ∧ up_bk c = true)).
Proof.
  intros HX HA HB Hb Hc. assert (rb (node d true X p kp A) (S n)) as Hl by (apply rb_node; eauto).
  pose proof (rb_blacken_red B n HB Hb) as HB'. inversion Hc; subst.
  - exists (S (S n)). split_and!; [done|apply rb_node; eauto|by left].
  - exists (S n). split_and!; [done|apply rb_node; rewrite bk_node, bk_blacken; done|by right].
Qed.

Lemma remove_black_round h d b p kp X W c n : lacking h (F d b p kp W :: c) X n → bk X = true → bk W = true →
  round_ok h (F d b p kp W :: c) X (remove_fixup_black d (Some (rt (tnil h) X)) (Some (rt (tnil h) W)))
    (λ c' t', c' = [] ∨ (c' = c ∧ bk t' = b)).
Proof.
  intros [H Hk Hc Hs] HbX HbW. destruct Hs as [[_ HX]|[? _]]; [|congruence].
  assert (rb W (S n)) as HW by (by inversion Hc). destruct W as [|[] l w kw r]; [by inversion HW| |done].
  pose proof (proj1 (focus_other _ _ _ _ _ _ _ _) H) as H0. pose proof (focus_cell _ _ L _ _ _ _ _ H0) as Hw.
  pose proof (focus_black _ _ _ (focus_unzip _ L _ _ _ _ _ _ H0)) as Bl.
  pose proof (focus_black _ _ _ (focus_unzip _ R _ _ _ _ _ _ H0)) as Br.
  unfold remove_fixup_black. cbn [rt]. unfold round_ok.
  rewrite (bind_step _ _ _ _ _ (get_ok left h w _ Hw)). cbn [cell left]. rewrite (bind_step _ _ _ _ _ Bl).
  rewrite (bind_step _ _ _ _ _ (get_ok right h w _ Hw)). cbn [cell right]. rewrite (bind_step _ _ _ _ _ Br).
  assert (∃ A B, T true l w kw r = node d true A w kw B ∧ bk l && bk r = bk A && bk B ∧
    match d with L => bk r | R => bk l end = bk B) as (A & B & EW & Eb & Ef).
  { destruct d; [exists l, r|exists r, l]; by rewrite 1?(andb_comm (bk r)). }
  rewrite Eb, Ef. rewrite EW in *. clear EW Eb Ef l r H0 Hw Bl Br.
  apply rb_black_node in HW as [HA HB]. destruct (bk B) eqn:EB; [destruct (bk A) eqn:EA|]; cbn [andb].
  - destruct (both_black_soft d b p kp X w kw A B c n HX HA HB EA EB Hc) as (n' & Hc' & Hs').
    pose proof (proj1 (focus_other _ _ _ _ _ _ _ _) H) as H0.
    destruct (paint_ok _ _ _ _ false _ _ _ _ H0) as (h1 & E1 & H1 & F1).
    apply (focus_other h1 d) in H1. rewrite (bind_step _ _ _ _ _ E1).
    assert (hook h1 (F d b p kp (node d false A w kw B) :: c) X) as Hk1.
    { eapply hook_move; [exact H1|exact Hk|exact F1| |done]. pose proof (focus_apart _ _ _ H) as (Hnc & _).
      clear -Hnc. set_solver. }
    pose proof (proj1 F1) as T1. rewrite <- T1, (hook_get _ _ _ Hk1). cbn [above fnode]. apply focus_zip in H1.
    exists h1, c, (node d b X p kp (node d false A w kw B)), n'. split_and!; [by rewrite rt_node| |..].
    + constructor; [exact H1| |done|done]. apply focus_hook; [done|by destruct d].
    + entries_tac d.
    + eapply frames_sub; [exact F1|]. held_tac.
    + right. by rewrite bk_node.
  - assert (A ≠ E) as HAn by (by intros ->). destruct A as [|[] l a ka r]; [done|done|].
    apply rb_red_inv in HA as (Hl & Hr & Hbl & Hbr). destruct (node_split d false l a ka r) as (A1 & A2 & EA' & HA12).
    rewrite EA' in *. destruct (remove_inner h d b p kp X w kw A1 a ka A2 B c H Hk) as (h1 & E1 & H1 & Hk1 & F1).
    rewrite (bind_step _ _ _ _ _ E1).
    destruct (remove_outer h1 d b p kp X a ka A1 (node d false A2 w kw B) c H1 Hk1) as (h2 & E2 & H2 & F2).
    { by destruct d. }
    pose proof (proj1 F1) as T1. rewrite T1 in E2. rewrite E2.
    assert (rb A1 n ∧ rb A2 n ∧ bk A1 = true ∧ bk A2 = true) as (HA1 & HA2 & Hb1 & Hb2)
      by (destruct HA12 as [[-> ->]|[-> ->]]; by split_and!).
    assert (rb (node d false A2 w kw B) n) as HB' by (by apply rb_node).
    destruct (outer_rb d b p kp X a ka A1 (node d false A2 w kw B) c n HX HA1 HB') as (n' & Hc' & Hr' & Hb').
    { apply bk_node. }
    { apply (crb_sib _ _ _ _ _ _ _ _ Hc); [apply rb_node; eauto|apply bk_node]. }
    apply focus_top in H2. apply (plug_rbt c) in Hr'; [|done|by rewrite bk_node].
    destruct (lacking_root h2 _ H2 Hr') as (n2 & Hla); [apply plug_ne; by destruct d|].
    eexists h2, [], _, n2. split_and!; [do 4 f_equal; exact (fo_ctx _ _ _ H2)|exact Hla|..].
    + cbn [plug]. entries_tac d.
    + eapply frames_trans; [exact F1|exact F2|]. held_tac.
    + by left.
  - assert (B ≠ E) as HBn by (by intros ->).
    replace (bk A && false) with false by (by destruct (bk A)). rewrite mret_ok.
    destruct (remove_outer h d b p kp X w kw A B c H Hk HBn) as (h2 & E2 & H2 & F2). rewrite E2.
    destruct (outer_rb d b p kp X w kw A B c n HX HA HB EB Hc) as (n' & Hc' & Hr' & Hb').
    apply focus_top in H2. apply (plug_rbt c) in Hr'; [|done|by rewrite bk_node].
    destruct (lacking_root h2 _ H2 Hr') as (n2 & Hla); [apply plug_ne; by destruct d|].
    eexists h2, [], _, n2. split_and!; [do 4 f_equal; exact (fo_ctx _ _ _ H2)|exact Hla|..].
    + cbn [plug]. entries_tac d.
    + exact F2.
    + by left.
Qed.

(** The whole round. *)
Lemma remove_round h d b p kp X W c n : lacking h (F d b p kp W :: c) X n → bk X = true →
  round_ok h (F d b p kp W :: c) X (remove_fixup_side d (Some (rt (tnil h) X)))
    (λ c' t', c' = [] ∨ bk t' = false ∨ c' = c).
Proof.
  intros Hla HbX. destruct (la_focus _ _ _ _ Hla) as []; pose proof (la_focus _ _ _ _ Hla) as H.
  pose proof (focus_cell _ _ _ _ _ _ _ _ (focus_zip _ _ _ _ _ _ _ _ H)) as Hp.
  pose proof (focus_black _ _ _ (proj1 (focus_other _ _ _ _ _ _ _ _) H)) as HbW.
  unfold remove_fixup_side, round_ok. rewrite (bind_step _ _ _ _ _ (hook_get _ _ _ (la_hook _ _ _ _ Hla))).
  cbn [above fnode]. rewrite (bind_step _ _ _ _ _ (get_ok _ h p _ Hp)), cell_other, (bind_step _ _ _ _ _ HbW).
  destruct (bk W) eqn:EW; cbn [negb].
  - rewrite mret_ok. destruct (remove_black_round h d b p kp X W c n Hla HbX EW)
      as (h' & c' & t' & n' & E & Hla' & He & Fr & Hn). exists h', c', t', n'. split_and!; try done.
    destruct Hn as [?|[??]]; auto.
  - destruct Hla as [_ Hk Hc Hs]. inversion Hc as [|? ? ? ? ? ? HW Hc'|]; subst; [|congruence].
    destruct W as [|[] l w kw r]; [done..|]. apply rb_red_inv in HW as (Hl & Hr & Hbl & Hbr).
    destruct (node_split d false l w kw r) as (A & B & EAB & HAB). cbn [rt]. rewrite EAB in *.
    destruct (remove_red h d p kp X w kw A B c H Hk) as (h1 & E1 & H1 & Hk1 & F1). rewrite (bind_step _ _ _ _ _ E1).
    pose proof (proj1 F1) as T1. rewrite <- T1.
    assert (rb A (S n) ∧ rb B (S n) ∧ bk A = true) as (HA & HB & HbA)
      by (destruct HAB as [[-> ->]|[-> ->]]; by split_and!).
    destruct (remove_black_round h1 d false p kp X A (F d true w kw B :: c) n)
      as (h' & c' & t' & n' & E & Hla' & He & Fr & Hn); [|done|done|].
    { constructor; [done|done| |done]. constructor; [done|done|done|done|by constructor]. }
    exists h', c', t', n'. split_and!; [done|done| | |destruct Hn as [?|[_ ?]]; auto].
    + rewrite He. entries_tac d.
    + eapply frames_trans; [exact F1|exact Fr|]. held_tac.
Qed.

Lemma remove_fixup_loop_ok fuel : ∀ h c t n, lacking h c t n → (0 < fuel)%nat →
  c = [] ∨ bk t = false ∨ (length c < fuel)%nat →
  ∃ h' c' t' n', remove_fixup_loop (Some (rt (tnil h) t)) fuel h = Ret (TT_SUCCESS (Some (rt (tnil h') t')), h') ∧
    lacking h' c' t' n' ∧ (c' = [] ∨ bk t' = false) ∧
    entries (plug c' t') = entries (plug c t) ∧ frames h h' (held c t).
Proof.
  induction fuel as [|fuel IH]; intros h c t n Hla Hpos Hf; [lia|]. cbn [remove_fixup_loop].
  pose proof (la_focus _ _ _ _ Hla) as H.
  rewrite (bind_step _ _ _ _ _ (rootp_ok h)), (bind_step _ _ _ _ _ (focus_black _ _ _ H)), (root_here h c t H).
  destruct c as [|[d b p kp W] c]; cbn [orb].
  { exists h, [], t, n. split_and!; [done|done|by left|done|apply frames_refl]. }
  destruct (bk t) eqn:Eb; cbn [negb].
  2: { exists h, (F d b p kp W :: c), t, n. split_and!; [done|done|by right|done|apply frames_refl]. }
  assert (W ≠ E) as HW by (pose proof (la_crb _ _ _ _ Hla) as Hc; inversion Hc; subst; by eapply rb_ne).
  destruct (remove_round h d b p kp t W c n Hla Eb) as (h1 & c1 & t1 & n1 & E1 & Hla1 & He1 & F1 & Hn1).
  rewrite (bind_step _ _ _ _ _ (hook_get _ _ _ (la_hook _ _ _ _ Hla))). cbn [above fnode].
  destruct (side_ok _ _ _ _ _ _ _ _ H (or_intror HW)) as (lf & El & Es).
  rewrite (bind_step _ _ _ _ _ El), Es, (bind_step _ _ _ _ _ E1).
  destruct Hf as [?|[?|Hf]]; [done|congruence|]. simpl in Hf.
  destruct (IH h1 c1 t1 n1 Hla1) as (h2 & c2 & t2 & n2 & E2 & Hla2 & Hn2 & He2 & F2); [lia| |].
  { destruct Hn1 as [?|[?| ->]]; auto with lia. }
  exists h2, c2, t2, n2. split_and!; [done|done|done|by rewrite He2|].
  eapply frames_trans; [exact F1|exact F2|]. intros y. by apply held_entries.
Qed.

(** Painting the place the loop ends at gives a balanced tree. *)
Lemma soft_plug c t n : crb c (S n) → soft t n → c = [] ∨ bk t = false → rbt (plug c (blacken t)).
Proof.
  intros Hc [[Hb Hr]|[Hb Hr]] Hn.
  - destruct Hn as [->|?]; [|congruence]. simpl. split; [apply bk_blacken|]. by eapply rb_blacken.
  - apply (plug_rbt c _ (S n)); [done|done|left; apply bk_blacken].
Qed.

Lemma paint_place h c t : focus h c t →
  ∃ h', put (Some (rt (tnil h) t)) (set_black true) h = Ret (TT_SUCCESS tt, h') ∧ focus h' c (blacken t) ∧
    frames h h' (tnil h :: held c t).
Proof.
  intros H. destruct t as [|b l x k r] eqn:Et.
  - destruct (fo_nil _ _ _ H) as (v & Hv & Hb). cbn [rt]. rewrite (put_ok _ h _ v Hv). eexists. split; [done|].
    split; [by apply nil_write|]. eapply frames_insert; [done..|by left].
  - rewrite <- Et in *. destruct (paint_root h c t true H) as (h' & E & H' & Fr); [by rewrite Et|done|].
    exists h'. split_and!; [done|done|]. eapply frames_sub; [exact Fr|]. clear. intros y Hy. right. set_solver.
Qed.

Lemma remove_fixup_ok h c t n : lacking h c t n →
  ∃ h' t', __rbt_remove_fixup (Some (rt (tnil h) t)) h = Ret (TT_SUCCESS tt, h') ∧
    focus h' [] t' ∧ rbt t' ∧ entries t' = entries (plug c t) ∧ frames h h' (tnil h :: held c t).
Proof.
  intros Hla. unfold __rbt_remove_fixup. pose proof (focus_depth _ _ _ (la_focus _ _ _ _ Hla)) as Hd.
  destruct (remove_fixup_loop_ok (S (size (nodes h))) h c t n Hla) as (h1 & c1 & t1 & n1 & E1 & Hla1 & Hn1 & He1 & F1);
    [lia|auto with lia|]. rewrite (bind_step (bounded _) _ _ _ _ E1).
  destruct (paint_place h1 c1 t1 (la_focus _ _ _ _ Hla1)) as (h2 & E2 & H2 & F2). rewrite E2.
  exists h2, (plug c1 (blacken t1)). split_and!; [done|by apply focus_top|..].
  - destruct Hla1. by eapply soft_plug.
  - rewrite <- He1, !entries_plug. by rewrite entries_blacken.
  - eapply frames_trans; [eapply frames_sub; [exact F1|]|exact F2|].
    + intros y Hy. by right.
    + rewrite (proj1 F1). intros y [->|Hy]%elem_of_cons; [by left|right]. by apply (held_entries c1 t1).
Qed.
End remove.
