(* ===== verification/RbUnlink.v ===== *)
(** Taking a node out of the red-black tree, and the whole [tt_rbtree_remove]. *)

From S2P Require Import Prelude RbTree RbShape RbRepr RbAdd RbFind RbRemove.
From stdpp Require Import sorting gmap.

#[local] Open Scope Z_scope.

Section unlink.
Context {K : Type}.
Implicit Types (t l r s yr X : tree K) (c cy : list (frame K)) (k : K) (d : side) (h : rbmem K) (n : nat).

(** ** [__rbn_transplant] *)

Lemma transplant_mem h c u (v : nid) vu vv : crepr (tnil h) (nodes h) (root h) c u → NoDup (tnil h :: cnodes c) →
  u ∉ tnil h :: cnodes c → nodes h !! u = Some vu → parent vu = Some (above (tnil h) c) →
  nodes h !! v = Some vv → v ∉ cnodes c →
  ∃ h', __rbn_transplant (Some u) (Some v) h = Ret (TT_SUCCESS tt, h') ∧
    crepr (tnil h') (nodes h') (root h') c v ∧ nodes h' !! v = Some (set_parent (Some (above (tnil h) c)) vv) ∧
    frames h h' (v :: cnodes c).
Proof.
  intros Hc Hnd Hu Hvu Hpu Hvv Hv. unfold __rbn_transplant.
  destruct (replace_child_ok h c u v Hc Hnd Hu) as (h1 & E1 & Hc1 & F1).
  rewrite (bind_step _ _ _ _ _ (get_ok _ h u _ Hvu)), Hpu, (bind_step _ _ _ _ _ E1).
  apply not_elem_of_cons in Hu as [_ Hu]. pose proof (proj2 (proj2 F1) u Hu) as Hu1. rewrite Hvu in Hu1.
  pose proof (proj2 (proj2 F1) v Hv) as Hv1. rewrite Hvv in Hv1.
  rewrite (bind_step _ _ _ _ _ (get_ok _ h1 u _ Hu1)), Hpu, (put_ok _ h1 v _ Hv1).
  eexists. split; [done|]. cbn [nodes tnil root]. split; [by apply crepr_insert|].
  split; [by rewrite lookup_insert_eq|].
  eapply frames_trans; [eapply frames_sub; [exact F1|]|eapply (frames_insert _ v _ [v]); [done..|by left]|];
    held_tac.
Qed.

(** A tree [t] that hangs below the node [u] takes its place. *)
Lemma transplant_ok h c u vu par t : crepr (tnil h) (nodes h) (root h) c u →
  NoDup (tnil h :: cnodes c ++ tnodes t) → u ∉ tnil h :: cnodes c → nodes h !! u = Some vu →
  parent vu = Some (above (tnil h) c) → repr (tnil h) (nodes h) par t →
  (∃ v, nodes h !! tnil h = Some v ∧ black v = true) →
  ∃ h', __rbn_transplant (Some u) (Some (rt (tnil h) t)) h = Ret (TT_SUCCESS tt, h') ∧
    focus h' c t ∧ hook h' c t ∧ frames h h' (rt (tnil h) t :: cnodes c).
Proof.
  intros Hc Hnd Hu Hvu Hpu Ht (vn & Hvn & Hb).
  pose proof Hnd as [Hn (Hndc & Hct & Hndt)%NoDup_app]%NoDup_cons.
  assert (∃ vv, nodes h !! rt (tnil h) t = Some vv) as [vv Hvv].
  { destruct (rt_in (tnil h) t) as [[-> _]|Hin]; [by eexists|]. by apply (repr_dom _ _ _ _ _ Ht). }
  assert (rt (tnil h) t ∉ cnodes c) as Hrt.
  { destruct (rt_in (tnil h) t) as [[-> _]|Hin]; [set_solver|]. intros ?. by apply (Hct (rt (tnil h) t)). }
  destruct (transplant_mem h c u (rt (tnil h) t) vu vv Hc) as (h' & E & Hc' & Hv' & Fr); try done.
  { apply NoDup_cons. split; [set_solver|done]. }
  exists h'. split; [done|]. pose proof (proj1 Fr) as T'. pose proof (proj2 (proj2 Fr)) as Hfr.
  assert (focus h' c t) as Hf; [|split_and!; [done| |done]].
  - constructor; rewrite ?T' in *; [done| |done|].
    + destruct t as [|b l x k r]; [done|]. destruct Ht as (Hx & Hl & Hr). simpl in *.
      rewrite Hx in Hvv. injection Hvv as <-. split; [done|]. rewrite tnodes_T in Hct, Hndt.
      apply NoDup_app in Hndt as (_ & Hxl & [Hxr _]%NoDup_cons).
      split; (eapply repr_ext; [|done]); intros y Hy; apply Hfr; rewrite not_elem_of_cons; split;
        (intros ->; set_solver) || (intros ?; apply (Hct y); set_solver).
    + destruct (rt_in (tnil h) t) as [[Er _]|Hin].
      * rewrite Er in *. rewrite Hvn in Hvv. injection Hvv as <-. eexists. split; [exact Hv'|done].
      * exists vn. split; [|done]. rewrite Hfr; [done|]. apply not_elem_of_cons. split; [|set_solver].
        intros Eq. rewrite <- Eq in Hin. set_solver.
  - eexists. rewrite T'. split; [exact Hv'|done].
Qed.

(** The node [y] takes the place, the children and the colour of [z]; its right
    subtree is in place already. *)
Lemma swap_ok h c z zk (zr : nid) zb y vy yk l r : crepr (tnil h) (nodes h) (root h) c z →
  NoDup (tnil h :: z :: y :: cnodes c ++ tnodes l ++ tnodes r) →
  nodes h !! z = Some (cell L (above (tnil h) c) (rt (tnil h) l) zr zk zb) →
  nodes h !! y = Some vy → right vy = Some (rt (tnil h) r) → key vy = Some yk →
  repr (tnil h) (nodes h) z l → l ≠ E → repr (tnil h) (nodes h) y r →
  (∃ v, nodes h !! tnil h = Some v ∧ black v = true) →
  ∃ h', (∀ (A : Type) (a : A),
      (__rbn_transplant (Some z) (Some y);;
       zl ← get left (Some z);
       put (Some y) (set_left zl);;
       put zl (set_parent (Some y));;
       zb ← get black (Some z);
       put (Some y) (set_black zb);;
       mret a) h = Ret (TT_SUCCESS a, h')) ∧
    focus h' c (T zb l y yk r) ∧ frames h h' (y :: cnodes c ++ tnodes l).
Proof.
  intros Hc Hnd Hz Hy Hry Hky Hl Hne Hr (vn & Hvn & Hbn).
  apply NoDup_cons in Hnd as [Hnn [Hzn [Hyn Hnd]%NoDup_cons]%NoDup_cons].
  pose proof Hnd as (Hndc & Hcx & (Hndl & Hlr & Hndr)%NoDup_app)%NoDup_app.
  assert (z ≠ y ∧ z ∉ cnodes c ∧ z ∉ tnodes l ∧ z ∉ tnodes r) as (Hzy & Hzc & Hzl & Hzr)
    by (clear -Hzn; set_solver).
  assert (y ∉ cnodes c ∧ y ∉ tnodes l ∧ y ∉ tnodes r) as (Hyc & Hyl & Hyr) by (clear -Hyn; set_solver).
  assert (tnil h ≠ z ∧ tnil h ≠ y ∧ tnil h ∉ cnodes c ∧ tnil h ∉ tnodes l ∧ tnil h ∉ tnodes r)
    as (Hnz & Hny & Hnc & Hnl & Hnr) by (clear -Hnn; set_solver).
  assert (∀ w, w ∈ cnodes c → w ∉ tnodes l ∧ w ∉ tnodes r) as Hcd by (clear -Hcx; set_solver).
  destruct (transplant_mem h c z y (cell L (above (tnil h) c) (rt (tnil h) l) zr zk zb) vy Hc) as (h1 & E1 & Hc1 & Hy1 & F1); try done.
  { by apply NoDup_cons. }
  { apply not_elem_of_cons. split; [congruence|done]. }
  pose proof (proj1 F1) as T1. pose proof (proj2 (proj2 F1)) as Fr1.
  assert (nodes h1 !! z = nodes h !! z) as Hz1 by (apply Fr1; by apply not_elem_of_cons).
  rewrite Hz in Hz1. set (m2 := <[y := set_left (Some (rt (tnil h) l)) (set_parent (Some (above (tnil h) c)) vy)]> (nodes h1)).
  assert (repr (tnil h) m2 z l) as Hl2.
  { eapply repr_ext; [|exact Hl]. intros w Hw. unfold m2. rewrite lookup_insert_ne by (by intros ->).
    apply Fr1. apply not_elem_of_cons. split; [by intros ->|]. intros Hwc. by destruct (Hcd w Hwc). }
  assert (∃ vl, m2 !! rt (tnil h) l = Some vl) as [vl Hvl].
  { apply (repr_dom _ _ _ _ _ Hl2). destruct (rt_in (tnil h) l) as [[_ ->]|?]; done. }
  assert (rt (tnil h) l ∈ tnodes l) as Hrl by (destruct (rt_in (tnil h) l) as [[_ ->]|?]; done).
  assert (rt (tnil h) l ≠ y ∧ rt (tnil h) l ≠ z) as [Hly Hlz] by (split; intros Eq; by rewrite Eq in Hrl).
  set (m3 := <[rt (tnil h) l := set_parent (Some y) vl]> m2).
  set (vy3 := mk_rbnode (Some (above (tnil h) c)) (Some (rt (tnil h) l)) (Some (rt (tnil h) r)) (Some yk) zb).
  exists (mk_rbmem (<[y := vy3]> m3) (tnil h1) (root h1) (count h1)). split; [|split].
  - intros A a. rewrite (bind_step _ _ _ _ _ E1), (bind_step _ _ _ _ _ (get_ok _ h1 z _ Hz1)). cbn [cell left].
    rewrite (bind_step _ _ _ _ _ (put_ok _ h1 y _ Hy1)). fold m2.
    rewrite (bind_step _ _ _ _ _ (put_ok _ (mk_rbmem m2 _ _ _) _ _ Hvl)). cbn [nodes tnil root count]. fold m3.
    erewrite bind_step.
    2: { apply (get_ok black (mk_rbmem m3 _ _ _) z). cbn [nodes]. unfold m3, m2.
         rewrite !lookup_insert_ne by done. exact Hz1. }
    erewrite bind_step.
    2: { apply put_ok. cbn [nodes]. unfold m3, m2. rewrite lookup_insert_ne, lookup_insert_eq by done. done. }
    cbn [nodes tnil root count cell black]. unfold vy3, set_black, set_left, set_parent. cbn [parent left right key].
    by rewrite Hry, Hky.
  - constructor; cbn [nodes tnil root rt above].
    + rewrite T1. apply crepr_insert; [done|]. rewrite T1 in Hc1.
      eapply crepr_ext; [|exact Hc1]. intros w Hw. unfold m3, m2.
      rewrite lookup_insert_ne by (intros Eq; rewrite Eq in Hrl; by destruct (Hcd w Hw)). by rewrite lookup_insert_ne by (by intros ->).
    + rewrite T1. cbn [repr]. rewrite lookup_insert_eq. split; [done|]. split.
      * apply repr_insert; [done|]. by apply (repr_reparent _ _ z).
      * apply repr_insert; [done|]. eapply repr_ext; [|exact Hr]. intros w Hw. unfold m3, m2.
        rewrite lookup_insert_ne by (intros Eq; rewrite Eq in Hrl; by apply (Hlr w)).
        rewrite lookup_insert_ne by (by intros ->). apply Fr1. apply not_elem_of_cons. split; [by intros ->|].
        intros Hwc. by destruct (Hcd w Hwc).
    + rewrite T1, tnodes_T. apply NoDup_cons. split; [set_solver|]. apply NoDup_app. split_and!; [done|set_solver|].
      apply NoDup_app. split_and!; [done|set_solver|by apply NoDup_cons].
    + exists vn. split; [|done]. rewrite T1, lookup_insert_ne by done. unfold m3, m2.
      rewrite lookup_insert_ne by (by intros E; rewrite E in Hrl). rewrite lookup_insert_ne by done.
      rewrite Fr1; [done|]. by apply not_elem_of_cons.
  - split_and!; [done|by rewrite <- (proj1 (proj2 F1))|]. intros w Hw. cbn [nodes].
    apply not_elem_of_cons in Hw as [Hwy [Hwc Hwl]%not_elem_of_app]. unfold m3, m2.
    rewrite lookup_insert_ne by done. rewrite lookup_insert_ne by (intros Eq; by rewrite Eq in Hrl). rewrite lookup_insert_ne by done.
    apply Fr1. by apply not_elem_of_cons.
Qed.

(** ** [unlink] *)

(** A node without a child on one side leaves the tree. *)
Lemma splice_ok h c d b z zk t : focus h c (node d b E z zk t) →
  ∃ h', __rbn_transplant (Some z) (Some (rt (tnil h) t)) h = Ret (TT_SUCCESS tt, h') ∧
    focus h' c t ∧ hook h' c t ∧ frames h h' (rt (tnil h) t :: cnodes c) ∧ z ∉ rt (tnil h) t :: cnodes c.
Proof.
  intros H. pose proof (focus_cell _ _ _ _ _ _ _ _ H) as Hz. destruct (focus_apart _ _ _ H) as (Hnc & Hnt & Hdc & Hdt & Hct).
  destruct H as [Hc Ht _ Hn]. rewrite rt_node in Hc. apply repr_node in Ht as (_ & _ & Ht).
  rewrite tnodes_node_perm in Hdt. simpl in Hdt. apply NoDup_cons in Hdt as [Hzt Hdt].
  assert (z ∉ cnodes c) as Hzc by (intros ?; apply (Hct z); [done|rewrite tnodes_node; by left]).
  assert (z ≠ tnil h) as Hzn by (intros ->; apply Hnt; rewrite tnodes_node; by left).
  assert (∀ y, y ∈ cnodes c → y ∉ tnodes t) as Hct' by (intros y Hy ?; apply (Hct y Hy); rewrite tnodes_node; auto).
  assert (tnil h ∉ tnodes t) as Hnt' by (intros ?; apply Hnt; rewrite tnodes_node; auto).
  destruct (transplant_ok h c z (cell d (above (tnil h) c) (rt (tnil h) (E : tree K)) (rt (tnil h) t) zk b) z t Hc)
    as (h' & E & H' & Hk & Fr); try done.
  - apply NoDup_cons. split; [set_solver|]. by apply NoDup_app.
  - by apply not_elem_of_cons.
  - by rewrite cell_parent.
  - exists h'. split_and!; try done. apply not_elem_of_cons. split; [|done].
    intros ->. destruct (rt_in (tnil h) t) as [[Er _]|?]; done.
Qed.

(** What is left when a node [y] without a child on one side is gone. *)
Lemma lost c d b y yk t n : crb c n → rb (node d b E y yk t) n → b = true ∨ (c ≠ [] ∧ up_bk c = true) →
  if b then ∃ n', crb c (S n') ∧ soft t n' else rbt (plug c t).
Proof.
  intros Hc Hr Hb. apply rb_node in Hr. destruct b.
  - destruct Hr as (n' & -> & He & Ht). exists n'. split; [done|]. inversion He; subst.
    destruct (bk t) eqn:Eb; [by left|right]. split; [done|]. by apply rb_blacken_red.
  - destruct Hr as (He & Ht & _ & Hb'). apply (plug_rbt c _ n); auto.
Qed.

(** The memory between the two halves of [unlink]: [y] has left its place, the
    right subtree [r] hangs below it, and [z] is still in the tree. *)
Record pulled h c zb l z zk y yk r : Prop := {
  pu_ctx : crepr (tnil h) (nodes h) (root h) c z;
  pu_z : ∃ zr, nodes h !! z = Some (cell L (above (tnil h) c) (rt (tnil h) l) zr zk zb);
  pu_y : ∃ vy, nodes h !! y = Some vy ∧ right vy = Some (rt (tnil h) r) ∧ key vy = Some yk;
  pu_l : repr (tnil h) (nodes h) z l;
  pu_r : repr (tnil h) (nodes h) y r;
  pu_nil : ∃ v, nodes h !! tnil h = Some v ∧ black v = true;
}.

(** The successor of [z] leaves its place: below [z] itself. *)
Lemma pull_near h c zb l z zk yb y yk yr : focus h c (T zb l z zk (T yb E y yk yr)) →
  ∃ h', put (Some (rt (tnil h) yr)) (set_parent (Some y)) h = Ret (TT_SUCCESS tt, h') ∧
    pulled h' c zb l z zk y yk yr ∧ (∃ v, nodes h' !! rt (tnil h) yr = Some v ∧ parent v = Some y) ∧
    frames h h' [rt (tnil h) yr].
Proof.
  intros H. destruct (focus_apart _ _ _ H) as (Hnc & Hnt & _ & Hdt & Hct).
  destruct H as [Hc (Hz & Hl & Hy & _ & Hyr) _ (vn & Hvn & Hb)]. cbn [rt] in *.
  rewrite !tnodes_T in Hdt. apply NoDup_app in Hdt as (_ & Hlr & [Hzn [Hyn Hdr]%NoDup_cons]%NoDup_cons).
  assert (∃ vv, nodes h !! rt (tnil h) yr = Some vv) as [vv Hvv].
  { destruct (rt_in (tnil h) yr) as [[-> _]|Hin]; [by eexists|]. by apply (repr_dom _ _ _ _ _ Hyr). }
  assert (∀ w, w = z ∨ w = y ∨ w ∈ tnodes l ∨ w ∈ cnodes c → w ≠ rt (tnil h) yr) as Hap.
  { intros w Hw ->. destruct (rt_in (tnil h) yr) as [[Er _]|Hin].
    - rewrite Er in Hw. clear -Hw Hnc Hnt. set_solver.
    - destruct Hw as [Ew|[Ew|[Hw|Hw]]]; [rewrite Ew in Hin..| |].
      + clear -Hin Hzn. set_solver.
      + clear -Hin Hyn. set_solver.
      + apply (Hlr _ Hw). clear -Hin. set_solver.
      + apply (Hct _ Hw). clear -Hin. set_solver. }
  rewrite (put_ok _ h _ _ Hvv). eexists. split; [done|].
  split; [|split; [|eapply frames_insert; [done..|by left]]]; [constructor|]; cbn [nodes tnil root above fnode].
  - apply crepr_insert; [|done]. intros Hin. by apply (Hap (rt (tnil h) yr)); [by right; right; right|].
  - exists y. rewrite lookup_insert_ne by (symmetry; apply Hap; auto). done.
  - eexists. rewrite lookup_insert_ne by (symmetry; apply Hap; auto). split; [exact Hy|done].
  - apply repr_insert; [|done]. intros Hin. by apply (Hap (rt (tnil h) yr)); [by right; right; left|].
  - by apply (repr_reparent _ _ y).
  - destruct (decide (rt (tnil h) yr = tnil h)) as [Er|Hne].
    + rewrite Er in *. rewrite Hvn in Hvv. injection Hvv as <-. eexists. rewrite lookup_insert_eq. split; [done|done].
    + exists vn. by rewrite lookup_insert_ne.
  - eexists. rewrite lookup_insert_eq. split; [done|done].
Qed.

(** Further down. *)
Lemma pull_far h c cy zb l z zk yb y yk yr : cy ≠ [] →
  focus h (cy ++ F R zb z zk l :: c) (T yb E y yk yr) →
  ∃ h', (__rbn_transplant (Some y) (Some (rt (tnil h) yr));;
       zr ← get right (Some z);
       put (Some y) (set_right zr);;
       put zr (set_parent (Some y))) h = Ret (TT_SUCCESS tt, h') ∧
    pulled h' c zb l z zk y yk (plug cy yr) ∧ hook h' (cy ++ F R zb z zk l :: c) yr ∧
    frames h h' (tnil h :: held (cy ++ F R zb z zk l :: c) (T yb E y yk yr)).
Proof.
  intros Hcy H. destruct (splice_ok h _ L yb y yk yr H) as (h1 & E1 & H1 & Hk1 & F1 & Hy1).
  pose proof (focus_cell _ _ L _ _ _ _ _ H) as Hy.
  assert (y ∉ tnil h :: held (cy ++ F R zb z zk l :: c) yr) as Hyh.
  { pose proof (focus_apart _ _ _ H) as (Hnc & Hnt & _ & Hdt & Hct). rewrite tnodes_T in Hnt, Hct, Hdt.
    simpl in Hnt, Hct, Hdt. apply NoDup_cons in Hdt as [Hyt _]. unfold held.
    rewrite not_elem_of_cons, not_elem_of_app. split_and!; [set_solver| |done]. intros Hin. apply (Hct y Hin). by left. }
  rewrite <- (proj2 (proj2 F1) y Hy1) in Hy. pose proof (focus_out _ _ _ _ H1) as H2. apply focus_zip in H2.
  set (r := plug cy yr) in *. cbn [node] in H2. pose proof (plug_ne' cy yr Hcy) as Hr. fold r in Hr.
  assert (∀ w, w ∈ held c (T zb l z zk r) → w ∈ held (cy ++ F R zb z zk l :: c) yr) as Hsub.
  { intros w. apply held_entries. by rewrite plug_app. }
  assert (y ∉ held c (T zb l z zk r)) as Hyr by (intros ?%Hsub; set_solver).
  assert (y ≠ z ∧ y ∉ cnodes c ∧ y ∉ tnodes l ∧ y ∉ tnodes r) as (Hyz & Hyc & Hyl & Hyt)
    by (clear -Hyr; set_solver).
  pose proof (focus_apart _ _ _ H2) as (Hnc & Hnt & _ & Hdt & Hct). pose proof (focus_cell _ _ L _ _ _ _ _ H2) as Hz.
  destruct H2 as [Hc2 (_ & Hl2 & Hr2) _ (vn & Hvn & Hb)]. rewrite tnodes_T in Hdt.
  apply NoDup_app in Hdt as (_ & Hlr & [Hzt Hdr]%NoDup_cons).
  assert (rt (tnil h1) r ∈ tnodes r) as Hrin by (destruct (rt_in (tnil h1) r) as [[_ ?]|?]; done).
  destruct (repr_dom _ _ _ _ _ Hr2 Hrin) as [vr Hvr].
  assert (∀ w, w = tnil h1 ∨ w = z ∨ w ∈ tnodes l ∨ w ∈ cnodes c → w ∉ tnodes r) as Hap.
  { intros w Hw Hin. destruct Hw as [->|[->|[Hw|Hw]]]; [clear -Hin Hnt; set_solver|done|..].
    - apply (Hlr w Hw). clear -Hin. set_solver.
    - apply (Hct w Hw). clear -Hin. set_solver. }
  assert (∀ w, w = tnil h1 ∨ w = z ∨ w ∈ tnodes l ∨ w ∈ cnodes c → w ≠ rt (tnil h1) r) as Hap'.
  { intros w Hw ->. by apply (Hap _ Hw). }
  assert (y ≠ rt (tnil h1) r ∧ y ≠ tnil h1) as [Hyr' Hyn].
  { rewrite (proj1 F1). split; [|set_solver]. rewrite <- (proj1 F1). by intros ->. }
  rewrite (bind_step _ _ _ _ _ E1), (bind_step _ _ _ _ _ (get_ok right h1 z _ Hz)). cbn [cell right].
  rewrite (bind_step _ _ _ _ _ (put_ok _ h1 y _ Hy)). rewrite (put_ok _ _ _ vr); cbn [nodes tnil root count].
  2: { by rewrite lookup_insert_ne. }
  set (m := <[rt (tnil h1) r := _]> _).
  assert (∀ w, w ≠ y → w ≠ rt (tnil h1) r → m !! w = nodes h1 !! w) as Hm
    by (intros; unfold m; by rewrite !lookup_insert_ne).
  eexists. split; [done|]. split; [constructor|split]; cbn [nodes tnil root].
  - apply crepr_insert; [intros Hin; by apply (Hap' (rt (tnil h1) r)); [auto|]|]. apply crepr_insert; done.
  - exists (rt (tnil h1) r). rewrite Hm; [done|congruence|auto].
  - eexists. unfold m. rewrite lookup_insert_ne, lookup_insert_eq by done. split; [done|done].
  - apply repr_insert; [intros Hin; by apply (Hap' (rt (tnil h1) r)); [auto|]|]. by apply repr_insert.
  - apply (repr_reparent _ _ z); [done|by apply repr_insert|by rewrite lookup_insert_ne].
  - exists vn. split; [|done]. rewrite Hm; auto.
  - destruct Hk1 as (v & Hv & Hp). exists v. cbn [nodes tnil]. split; [|done]. rewrite Hm; [done| |].
    { intros Eq. apply Hy1. rewrite <- Eq, (proj1 F1). by left. }
    intros Er. apply (proj2 (proj2 (proj2 (proj2 (focus_apart _ _ _ H1)))) (rt (tnil h1) r));
      [rewrite cnodes_app; apply elem_of_app; left; by apply rt_plug|].
    rewrite <- Er. destruct (rt_in (tnil h1) yr) as [[En _]|?]; [|done].
    rewrite En in Er. exfalso. apply (Hap' (tnil h1)); auto.
  - destruct F1 as (T1 & C1 & F1). split_and!; [done|done|]. intros w Hw. rewrite Hm.
    + apply F1. intros [->|Hwc]%elem_of_cons.
      * apply Hw. destruct (rt_in (tnil h) yr) as [[-> _]|?]; [by left|right]. clear -H0. set_solver.
      * apply Hw. right. clear -Hwc. set_solver.
    + intros ->. apply Hw. right. clear. set_solver.
    + intros ->. apply Hw. right. unfold held. rewrite cnodes_app, !elem_of_app. left. left. by apply rt_plug.
Qed.

Lemma pull_ok h c cy zb l z zk yb y yk yr : focus h c (T zb l z zk (plug cy (T yb E y yk yr))) →
  ∃ h', (if same (Some (above (tnil h) (cy ++ F R zb z zk l :: c))) (Some z)
         then put (Some (rt (tnil h) yr)) (set_parent (Some y))
         else __rbn_transplant (Some y) (Some (rt (tnil h) yr));;
              zr ← get right (Some z);
              put (Some y) (set_right zr);;
              put zr (set_parent (Some y))) h = Ret (TT_SUCCESS tt, h') ∧
    pulled h' c zb l z zk y yk (plug cy yr) ∧
    (∃ v, nodes h' !! rt (tnil h) yr = Some v ∧ parent v = Some (above (tnil h) (cy ++ F R zb y yk l :: c))) ∧
    frames h h' (tnil h :: held c (T zb l z zk (plug cy (T yb E y yk yr)))).
Proof.
  intros H. destruct cy as [|f cy].
  - cbn [app above fnode plug] in *. rewrite same_eq.
    destruct (pull_near h c zb l z zk yb y yk yr H) as (h' & E & Hp & Hv & Fr). exists h'. split_and!; try done.
    eapply frames_sub; [exact Fr|]. intros w ->%list_elem_of_singleton.
    destruct (rt_in (tnil h) yr) as [[-> _]|Hin]; [by left|right]. clear -Hin. set_solver.
  - pose proof (focus_unzip _ R _ _ _ _ _ _ H) as H1. apply focus_in in H1. rewrite same_ne.
    2: { intros Eq. pose proof (focus_apart _ _ _ H1) as (_ & _ & Hnd & _). rewrite cnodes_app in Hnd.
         apply NoDup_app in Hnd as (_ & Hd & _). apply (Hd z); [|by left]. rewrite <- Eq. destruct f. by left. }
    destruct (pull_far h c (f :: cy) zb l z zk yb y yk yr) as (h' & E & Hp & (v & Hv & Hpv) & Fr); [done|done|].
    exists h'. rewrite (proj1 Fr) in Hv, Hpv. split_and!; [done|done|by exists v|]. eapply frames_sub; [exact Fr|].
    intros w [->|Hw]%elem_of_cons; [by left|right]. eapply held_entries; [|exact Hw]. by rewrite plug_app.
Qed.

(** What is left when [z] leaves the tree: the place of the node that moved up. *)
Definition unlinked h c l z r h' (b : bool) (C : list (frame K)) X : Prop :=
  focus h' C X ∧ hook h' C X ∧ entries (plug C X) = pre c ++ entries l ++ entries r ++ post c ∧
  (if b then ∃ n, crb C (S n) ∧ soft X n else rbt (plug C X)) ∧
  (∃ v, nodes h' !! z = Some v) ∧ frames h h' (tnil h :: z :: cnodes c ++ tnodes l ++ tnodes r).

Lemma splice_unlinked h c d b z zk t l r : focus h c (node d b E z zk t) → rbt (plug c (node d b E z zk t)) →
  entries t = entries l ++ entries r →
  ∃ h', __rbn_transplant (Some z) (Some (rt (tnil h) t)) h = Ret (TT_SUCCESS tt, h') ∧ unlinked h c l z r h' b c t.
Proof.
  intros H Hrb Et. destruct (unplug_rb c _ Hrb) as (n & Hc & Hn & Hb). rewrite bk_node in Hb.
  destruct (splice_ok h c d b z zk t H) as (h' & E1 & H' & Hk & Fr & Hz). exists h'. split; [done|].
  split_and!; [done|done| |by apply (lost c d b z zk t n)| |].
  - by rewrite entries_plug, Et, <- app_assoc.
  - rewrite (proj2 (proj2 Fr)) by done. eexists. by eapply focus_cell.
  - eapply frames_sub; [exact Fr|]. intros w [->|Hw]%elem_of_cons; [|clear -Hw; set_solver].
    destruct (rt_in (tnil h) t) as [[-> _]|Hin]; [by left|]. right. right. apply elem_of_app. right.
    unfold tnodes in *. by rewrite <- fmap_app, <- Et.
Qed.

Lemma tnodes_min cy yb y yk yr : pre cy = [] → tnodes (plug cy (T yb E y yk yr)) = y :: tnodes (plug cy yr).
Proof. intros Hp. unfold tnodes. by rewrite !entries_plug, Hp. Qed.

(** The second half, for a successor that has been pulled out. *)
Lemma swap_unlinked h h1 c cy zb l z zk yb y yk yr : l ≠ E → pre cy = [] →
  focus h c (T zb l z zk (plug cy (T yb E y yk yr))) → rbt (plug c (T zb l z zk (plug cy (T yb E y yk yr)))) →
  pulled h1 c zb l z zk y yk (plug cy yr) →
  (∃ v, nodes h1 !! rt (tnil h) yr = Some v ∧ parent v = Some (above (tnil h) (cy ++ F R zb y yk l :: c))) →
  frames h h1 (tnil h :: held c (T zb l z zk (plug cy (T yb E y yk yr)))) →
  ∃ h', (∀ (A : Type) (a : A),
      (__rbn_transplant (Some z) (Some y);;
       zl ← get left (Some z);
       put (Some y) (set_left zl);;
       put zl (set_parent (Some y));;
       zb ← get black (Some z);
       put (Some y) (set_black zb);;
       mret a) h1 = Ret (TT_SUCCESS a, h')) ∧
    unlinked h c l z (plug cy (T yb E y yk yr)) h' yb (cy ++ F R zb y yk l :: c) yr.
Proof.
  intros Hl Hpre H Hrb [Hc [zr Hz] (vy & Hy & Hry & Hky) Hrl Hrr Hnil] (v & Hv & Hpv) F1.
  pose proof (fo_nodup _ _ _ H) as Hnd. rewrite tnodes_T, tnodes_min in Hnd by done.
  assert (NoDup (tnil h :: z :: y :: cnodes c ++ tnodes l ++ tnodes (plug cy yr))) as Hnd'.
  { eapply NoDup_Permutation_proper; [|exact Hnd]. constructor.
    rewrite <- (Permutation_middle (tnodes l)), <- (Permutation_middle (cnodes c)). constructor.
    rewrite <- (Permutation_middle (tnodes l)), <- (Permutation_middle (cnodes c)). done. }
  pose proof (proj1 F1) as T1. rewrite <- T1 in Hnd'.
  destruct (swap_ok h1 c z zk zr zb y vy yk l (plug cy yr) Hc Hnd' Hz Hy Hry Hky Hrl Hl Hrr Hnil) as (h2 & E2 & H2 & F2).
  exists h2. split; [exact E2|]. apply (focus_unzip _ R) in H2. apply focus_in in H2.
  split_and!; [done| | | | |].
  - exists v. rewrite (proj1 F2), T1. split; [|done]. rewrite (proj2 (proj2 F2)); [done|].
    rewrite T1 in Hnd'. apply NoDup_cons in Hnd' as [Hn [_ [Hyn Hd]%NoDup_cons]%NoDup_cons].
    destruct (rt_in (tnil h) yr) as [[-> _]|Hin]; [clear -Hn; set_solver|].
    assert (rt (tnil h) yr ∈ tnodes (plug cy yr)) as Hin'.
    { unfold tnodes in *. rewrite entries_plug, !fmap_app. clear -Hin. set_solver. }
    intros [Eq|Hw]%elem_of_cons; [rewrite Eq in Hin'; clear -Hin' Hyn; set_solver|].
    rewrite app_assoc in Hd. apply NoDup_app in Hd as (_ & Hd & _). by apply (Hd _ Hw).
  - rewrite !entries_plug, pre_app, post_app, Hpre. simpl. by rewrite <- !app_assoc.
  - assert (rbt (plug (cy ++ F R zb z zk l :: c) (T yb E y yk yr))) as Hrb' by (by rewrite plug_app).
    destruct (unplug_rb _ _ Hrb') as (n & Hcn & Hn & Hb). apply (lost _ L yb y yk yr n); [by eapply crb_rename|done|].
    destruct Hb as [?|[_ Hu]]; [by left|right]. by destruct cy.
  - rewrite (proj2 (proj2 F2)); [by eexists|]. apply NoDup_cons in Hnd' as [_ [Hzn _]%NoDup_cons].
    clear -Hzn. set_solver.
  - eapply frames_trans; [eapply frames_sub; [exact F1|]|exact F2|]; rewrite ?tnodes_min by done; clear -Hpre;
      intros w; unfold held; rewrite ?tnodes_T, ?tnodes_min by done; set_solver.
Qed.

Lemma unlink_ok h c zb l z zk r : focus h c (T zb l z zk r) → rbt (plug c (T zb l z zk r)) →
  ∃ h' C X b, unlink (Some z) h = Ret (TT_SUCCESS (b, Some (rt (tnil h) X)), h') ∧ unlinked h c l z r h' b C X.
Proof.
  intros H Hrb. pose proof (focus_cell _ _ L _ _ _ _ _ H) as Hz.
  pose proof (focus_unzip _ L _ _ _ _ _ _ H) as HL. pose proof (focus_unzip _ R _ _ _ _ _ _ H) as HR.
  unfold unlink. rewrite (bind_step _ _ _ _ _ (nilp_ok h)), (bind_step _ _ _ _ _ (get_ok left h z _ Hz)).
  rewrite (bind_step _ _ _ _ _ (get_ok right h z _ Hz)). cbn [cell left right].
  rewrite (rt_same _ _ _ HL), (rt_same _ _ _ HR).
  destruct l as [|bl ll xl kl rl] eqn:El; [|rewrite <- El in *; destruct r as [|br lr xr kr rr] eqn:Er; [|rewrite <- Er in *]].
  - destruct (splice_unlinked h c L zb z zk r E r H Hrb eq_refl) as (h' & E1 & Hu).
    rewrite (bind_step _ _ _ _ _ (get_ok black h z _ Hz)), (bind_step _ _ _ _ _ E1). by exists h', c, r, zb.
  - destruct (splice_unlinked h c R zb z zk l l E H Hrb) as (h' & E1 & Hu); [by rewrite app_nil_r|].
    rewrite (bind_step _ _ _ _ _ (get_ok black h z _ Hz)), (bind_step _ _ _ _ _ E1). by exists h', c, l, zb.
  - assert (r ≠ E) as Hr by (by rewrite Er). destruct (leftmost r Hr) as (cy & yb & y & yk & yr & Ey & Hpre).
    unfold __rbt_min. rewrite (bind_step _ _ _ _ _ (extreme_ok L h _ r HR Hr)). clear Er. subst r.
    unfold end_of. rewrite entries_plug, Hpre. cbn [app head entries fmap option_fmap option_map fst].
    pose proof HR as HY. apply focus_in in HY. pose proof (focus_cell _ _ L _ _ _ _ _ HY) as Hy.
    rewrite (bind_step _ _ _ _ _ (get_ok black h y _ Hy)), (bind_step _ _ _ _ _ (get_ok right h y _ Hy)).
    rewrite (bind_step _ _ _ _ _ (get_ok parent h y _ Hy)). cbn [cell black right parent].
    destruct (pull_ok h c cy zb l z zk yb y yk yr H) as (h1 & E1 & Hp & Hv & F1). rewrite (bind_step _ _ _ _ _ E1).
    destruct (swap_unlinked h h1 c cy zb l z zk yb y yk yr) as (h2 & E2 & Hu); [by rewrite El|done..|].
    rewrite E2. by eexists h2, _, yr, yb.
Qed.

(** ** [tt_rbtree_remove] *)

Lemma tt_rbtree_remove_ok h t z zk : focus h [] t → rbt t → (z, zk) ∈ entries t →
  ∃ h' t' xs ys, tt_rbtree_remove (Some z) h = Ret (TT_SUCCESS tt, h') ∧
    focus h' [] t' ∧ rbt t' ∧ entries t = xs ++ (z, zk) :: ys ∧ entries t' = xs ++ ys ∧
    tnil h' = tnil h ∧ count h' = u32 (count h - 1) ∧ nodes h' !! z = Some rbnode_blank ∧
    ∀ y, y ∉ tnil h :: tnodes t → nodes h' !! y = nodes h !! y.
Proof.
  intros H Hrb Hin. destruct (find_place t z zk Hin) as (c & zb & l & r & ->). clear Hin.
  pose proof (focus_in h c [] _ H) as Hf. rewrite app_nil_r in Hf. pose proof (focus_cell _ _ L _ _ _ _ _ Hf) as Hz.
  destruct (unlink_ok h c zb l z zk r Hf Hrb) as (h1 & C & X & b & E1 & H1 & Hk1 & He1 & Hb1 & (vz & Hvz) & F1).
  unfold tt_rbtree_remove. rewrite (bind_step _ _ _ _ _ (get_ok parent h z _ Hz)). cbn [cell parent].
  replace (same (Some (above (tnil h) c)) None) with false by done. rewrite (bind_step _ _ _ _ _ E1).
  assert (z ∉ tnil h :: held C X) as Hzo.
  { pose proof (fo_nodup _ _ _ H) as Hnd. apply NoDup_cons in Hnd as [Hn Hnd]. simpl in Hn, Hnd.
    rewrite not_elem_of_cons. split.
    - intros ->. apply Hn. unfold tnodes. rewrite entries_plug. simpl. rewrite !fmap_app. set_solver.
    - rewrite <- held_perm, <- entries_plug, He1. unfold tnodes in Hnd. rewrite entries_plug in Hnd. simpl in Hnd.
      rewrite <- app_assoc, !fmap_app in Hnd. simpl in Hnd. rewrite app_assoc in Hnd.
      apply NoDup_app in Hnd as (_ & Hd & [Hz' _]%NoDup_cons). rewrite app_assoc, !fmap_app.
      intros [Hw|Hw]%elem_of_app; [apply (Hd z Hw); by left|done]. }
  assert (∃ h2 t2, (if b then __rbt_remove_fixup (Some (rt (tnil h) X)) else mret tt) h1 = Ret (TT_SUCCESS tt, h2) ∧
    focus h2 [] t2 ∧ rbt t2 ∧ entries t2 = entries (plug C X) ∧ frames h1 h2 (tnil h :: held C X))
    as (h2 & t2 & E2 & H2 & Hrb2 & He2 & F2).
  { pose proof (proj1 F1) as T1. destruct b.
    - destruct Hb1 as (n & Hc & Hs). rewrite <- T1. by apply (remove_fixup_ok h1 C X n).
    - exists h1, (plug C X). split_and!; [done|by apply focus_top|done|done|apply frames_refl]. }
  rewrite (bind_step (if b then _ else _) _ _ _ _ E2).
  assert (nodes h2 !! z = Some vz) as Hz2 by (by rewrite (proj2 (proj2 F2))).
  unfold tt_rbnode_init. rewrite (bind_step _ _ _ _ _ (put_ok _ h2 z _ Hz2)).
  eexists _, t2, (pre c ++ entries l), (entries r ++ post c). split; [done|].
  destruct F1 as (T1 & C1 & F1), F2 as (T2 & C2 & F2). cbn [nodes tnil root count add_count].
  assert (z ∉ tnil h2 :: tnodes t2) as Hzt.
  { rewrite T2, T1. unfold tnodes. rewrite He2, entries_plug. rewrite not_elem_of_cons in Hzo |- *.
    by rewrite <- (held_perm C X) in Hzo. }
  apply not_elem_of_cons in Hzt as [Hznil Hzt]. split_and!.
  - destruct H2 as [Hc2 Ht2 Hnd2 (v2 & Hv2 & Hb2)]. constructor; cbn [nodes tnil root add_count]; [done|by apply repr_insert|done|].
    exists v2. by rewrite lookup_insert_ne.
  - done.
  - rewrite entries_plug. simpl. by rewrite <- !app_assoc.
  - rewrite He2, He1. by rewrite <- !app_assoc.
  - congruence.
  - unfold add_count. simpl. rewrite C2, C1. done.
  - by rewrite lookup_insert_eq.
  - intros y [Hyn Hyt]%not_elem_of_cons.
    assert (y ∉ (pre c ++ entries (T zb l z zk r) ++ post c).*1) as Hyt' by (by rewrite <- entries_plug).
    rewrite held_perm in Hyt'. unfold held in Hyt'. rewrite tnodes_T in Hyt'.
    rewrite lookup_insert_ne by (intros ->; set_solver). rewrite F2, F1; [done|set_solver|].
    rewrite not_elem_of_cons. split; [done|]. rewrite <- held_perm, <- entries_plug, He1, !fmap_app. intros Hy. apply Hyt.
    unfold tnodes. rewrite entries_plug. simpl. rewrite !fmap_app. simpl. set_solver.
Qed.
End unlink.
