(* ===== verification/RbSpec.v ===== *)
(** What the red-black tree promises: a list of entries sorted by key, of which
    every operation of [RbTree] is a refinement, within a logarithmic number of
    steps. *)

From S2P Require Import Prelude RbTree RbShape RbRepr RbAdd RbFind RbRemove RbUnlink.
From stdpp Require Import sorting gmap.

#[local] Open Scope Z_scope.

(** ** The default order *)

Lemma memcmp_anti a : ∀ b, length a = length b → memcmp a b < 0 ↔ 0 < memcmp b a.
Proof.
  induction a as [|x a IH]; intros [|y b] Hl; simpl in *; try done. rewrite (Z.eqb_sym y x).
  destruct (Z.eqb_spec x y); [apply IH; lia|lia].
Qed.
Lemma memcmp_trans a : ∀ b e, length a = length b → length b = length e →
  memcmp a b ≤ 0 → memcmp b e ≤ 0 → memcmp a e ≤ 0.
Proof.
  induction a as [|x a IH]; intros [|y b] [|w e] Hl Hl'; simpl in *; try done.
  destruct (Z.eqb_spec x y), (Z.eqb_spec y w), (Z.eqb_spec x w); try lia. apply IH; lia.
Qed.

#[global] Instance rbn_cmpkey_order : KeyOrder __rbn_cmpkey.
Proof.
  assert (∀ a b : list Z, zlen a = zlen b → length a = length b) as Hlen by (unfold zlen; lia).
  split; unfold __rbn_cmpkey.
  - intros a b. destruct (Z.ltb_spec (zlen a) (zlen b)), (Z.ltb_spec (zlen b) (zlen a)),
      (Z.eqb_spec (zlen a) (zlen b)), (Z.eqb_spec (zlen b) (zlen a)); try lia. auto using memcmp_anti.
  - intros a b e. destruct (Z.ltb_spec (zlen a) (zlen b)), (Z.ltb_spec (zlen b) (zlen e)),
      (Z.ltb_spec (zlen a) (zlen e)), (Z.eqb_spec (zlen a) (zlen b)), (Z.eqb_spec (zlen b) (zlen e)),
      (Z.eqb_spec (zlen a) (zlen e)); try lia. eauto using memcmp_trans.
Qed.

Section spec.
Context {K : Type} (cmpkey : cmpkey_t K) `{!KeyOrder cmpkey}.
Implicit Types (t : tree K) (k : K) (xs : list (nid * K)) (fr : gset nid) (z : nid) (h : rbmem K).

(** ** Calls *)

Inductive op : Type :=
  | Add (k : K) (z : nid)
  | Remove (z : nid)
  | Search (keep : option side) (k : K)
  | Extreme (d : side)
  | Neighbour (d : side) (z : nid)
  | Count.

Inductive res : Type :=
  | RUnit
  | RNode (p : option nid)
  | RNum (n : Z).

Definition run_op (o : op) : M (rbmem K) res :=
  match o with
  | Add k z => tt_rbtree_add cmpkey k (Some z);; mret RUnit
  | Remove z => tt_rbtree_remove (Some z);; mret RUnit
  | Search None k => p ← tt_rbtree_find cmpkey k; mret (RNode p)
  | Search (Some L) k => p ← tt_rbtree_find_gteq cmpkey k; mret (RNode p)
  | Search (Some R) k => p ← tt_rbtree_find_lteq cmpkey k; mret (RNode p)
  | Extreme L => p ← tt_rbtree_min; mret (RNode p)
  | Extreme R => p ← tt_rbtree_max; mret (RNode p)
  | Neighbour L z => p ← tt_rbtree_prev (Some z); mret (RNode p)
  | Neighbour R z => p ← tt_rbtree_next (Some z); mret (RNode p)
  | Count => n ← tt_rbtree_count; mret (RNum n)
  end.

Fixpoint run_ops (os : list op) : M (rbmem K) (list res) :=
  match os with
  | [] => mret []
  | o :: os => r ← run_op o; rs ← run_ops os; mret (r :: rs)
  end.

(** ** The abstract machine *)

(** Sorted entries, and the nodes that are initialised and in no tree. *)
Notation astate := (list (nid * K) * gset nid)%type.
Implicit Types (s : astate).

Definition drop_entry z xs : list (nid * K) := filter (λ e, e.1 ≠ z) xs.

(** The state after a call, for the calls a client may make. *)
Definition anext (s : astate) (o : op) : option astate :=
  let '(xs, fr) := s in
  match o with
  | Add k z => if decide (z ∈ fr) then Some (insert_entry cmpkey (z, k) xs, fr ∖ {[z]}) else None
  | Remove z =>
      if decide (z ∈ xs.*1) then Some (drop_entry z xs, {[z]} ∪ fr)
      else if decide (z ∈ fr) then Some s else None
  | Neighbour _ z => if decide (z ∈ xs.*1) then Some s else None
  | _ => Some s
  end.

(** The value a call may return. *)
Definition aout (xs : list (nid * K)) (o : op) (r : res) : Prop :=
  match o with
  | Add _ _ | Remove _ => r = RUnit
  | Search keep k => ∃ p, r = RNode p ∧ found cmpkey keep k xs p
  | Extreme d => r = RNode (end_of d xs)
  | Neighbour d z => ∃ xs1 k xs2, xs = xs1 ++ (z, k) :: xs2 ∧
      r = RNode (match d with L => fst <$> last xs1 | R => fst <$> head xs2 end)
  | Count => r = RNum (u32 (zlen xs))
  end.

Fixpoint arun (s : astate) (os : list op) (rs : list res) (s' : astate) : Prop :=
  match os, rs with
  | [], [] => s' = s
  | o :: os, r :: rs => aout s.1 o r ∧ ∃ s1, anext s o = Some s1 ∧ arun s1 os rs s'
  | _, _ => False
  end.
Fixpoint legal (s : astate) (os : list op) : Prop :=
  match os with
  | [] => True
  | o :: os => match anext s o with Some s1 => legal s1 os | None => False end
  end.

(** ** The representation *)

Definition rb_rep h (s : astate) : Prop :=
  ∃ t, focus h [] t ∧ rbt t ∧ entries t = s.1 ∧ sorted cmpkey s.1 ∧ count h = u32 (zlen s.1) ∧
    ∀ z, z ∈ s.2 → z ∉ tnil h :: s.1.*1 ∧ ∃ v, nodes h !! z = Some v ∧ parent v = None.

Lemma insert_entry_split e xs : ∃ xs1 xs2, xs = xs1 ++ xs2 ∧ insert_entry cmpkey e xs = xs1 ++ e :: xs2 ∧
  Forall (below cmpkey e.2) xs1 ∧ match xs2 with [] => True | e' :: _ => beyond cmpkey e.2 e' end.
Proof.
  induction xs as [|e' xs (xs1 & xs2 & -> & E & H1 & H2)]; simpl; [by exists [], []|].
  destruct (Z.ltb_spec 0 (cmpkey e'.2 e.2)).
  - by exists [], (e' :: xs1 ++ xs2).
  - exists (e' :: xs1), xs2. rewrite E. split_and!; [done|done| |done]. by constructor.
Qed.

Lemma insert_entry_sorted e xs : sorted cmpkey xs → sorted cmpkey (insert_entry cmpkey e xs).
Proof.
  destruct (insert_entry_split e xs) as (xs1 & xs2 & -> & -> & H1 & H2).
  intros (S1 & S2 & Hx)%sorted_app. apply sorted_app. split; [done|]. rewrite Forall_forall in H1.
  assert (∀ y, y ∈ xs2 → le_key cmpkey e.2 y.2) as Hle.
  { destruct xs2 as [|e' xs2]; [by intros y ?%not_elem_of_nil|]. unfold beyond in H2. rewrite cmp_anti' in H2 by done.
    apply StronglySorted_inv in S2 as [_ S2]. rewrite Forall_forall in S2.
    intros y [->|Hy]%elem_of_cons; [unfold le_key; lia|]. apply (cmp_trans e.2 e'.2 y.2); [lia|by apply S2]. }
  split; [constructor; [done|by apply Forall_forall]|]. intros x y Hx' [->|Hy]%elem_of_cons; [by apply H1|by apply Hx].
Qed.
Lemma insert_entry_perm e xs : insert_entry cmpkey e xs ≡ₚ e :: xs.
Proof.
  destruct (insert_entry_split e xs) as (xs1 & xs2 & -> & -> & _). by rewrite <- Permutation_middle.
Qed.

Lemma drop_entry_middle z k xs ys : NoDup (xs ++ (z, k) :: ys).*1 → drop_entry z (xs ++ (z, k) :: ys) = xs ++ ys.
Proof.
  assert (∀ l : list (nid * K), z ∉ l.*1 → filter (λ e, e.1 ≠ z) l = l) as Hid.
  { induction l as [|e l IH]; [done|]. rewrite fmap_cons, not_elem_of_cons. intros [Hz Hl].
    rewrite filter_cons_True by done. by rewrite IH. }
  rewrite fmap_app, fmap_cons. intros (_ & Hd & [Hz _]%NoDup_cons)%NoDup_app. unfold drop_entry.
  rewrite filter_app, filter_cons_False by (by intros []). rewrite !Hid; [done|done|].
  intros Hin. apply (Hd z Hin). by left.
Qed.

Lemma rep_nodup h s : rb_rep h s → NoDup (tnil h :: s.1.*1).
Proof. intros (t & Hf & _ & <- & _). pose proof (fo_nodup _ _ _ Hf) as Hnd. done. Qed.

(** A memory that holds a tree, balanced or not, of which 32 bits can count the
    levels. *)
Definition holds_tree h t : Prop := focus h [] t ∧ zlen (entries t) < 2 ^ 32 - 2.

(** ** Each call *)

Lemma rb_add_step h xs fr k z : rb_rep h (xs, fr) → z ∈ fr →
  ∃ h', tt_rbtree_add cmpkey k (Some z) h = Ret (TT_SUCCESS tt, h') ∧
    rb_rep h' (insert_entry cmpkey (z, k) xs, fr ∖ {[z]}).
Proof.
  intros (t & Hf & Hrb & He & Hs & Hc & Hfr) Hz. simpl in *. destruct (Hfr z Hz) as (Hzo & v & Hv & Hp).
  rewrite <- He in *. destruct (tt_rbtree_add_ok cmpkey h t k z v Hf Hrb Hs Hv Hp Hzo)
    as (h' & t' & E & Hf' & Hrb' & He' & Ht & Hc' & Hn).
  exists h'. split; [done|]. exists t'. simpl. split_and!; [done|done|done|by apply insert_entry_sorted| |].
  - rewrite Hc', Hc. unfold zlen. rewrite insert_entry_perm. simpl. unfold u32. rewrite Zplus_mod_idemp_l.
    f_equal. lia.
  - intros y [Hy Hyz]%elem_of_difference. destruct (Hfr y Hy) as (Hyo & vy & Hvy & Hpy).
    apply not_elem_of_cons in Hyo as [Hyn Hyo]. rewrite not_elem_of_singleton in Hyz. split.
    + rewrite Ht, insert_entry_perm. simpl. rewrite !not_elem_of_cons. done.
    + exists vy. rewrite Hn by done. done.
Qed.

Lemma rb_remove_step h xs fr z : rb_rep h (xs, fr) → z ∈ xs.*1 →
  ∃ h', tt_rbtree_remove (Some z) h = Ret (TT_SUCCESS tt, h') ∧ rb_rep h' (drop_entry z xs, {[z]} ∪ fr).
Proof.
  intros Hrep. pose proof (rep_nodup _ _ Hrep) as [Hn Hnd]%NoDup_cons. destruct Hrep as (t & Hf & Hrb & He & Hs & Hc & Hfr).
  simpl in *. intros ([z' zk] & -> & Hin)%list_elem_of_fmap. rewrite <- He in *. simpl in *.
  destruct (tt_rbtree_remove_ok h t z' zk Hf Hrb Hin) as (h' & t' & ys & ws & E & Hf' & Hrb' & Hx & Hx' & Ht & Hc' & Hz & Hno).
  exists h'. split; [done|]. rewrite Hx in *. rewrite (drop_entry_middle z' zk) by done.
  exists t'. simpl. split_and!; [done|done|done| | |].
  - apply sorted_app in Hs as (S1 & S2 & Hxy). apply StronglySorted_inv in S2 as [S2 _].
    apply sorted_app. split_and!; [done|done|]. intros x y Hxi Hyi. apply Hxy; [done|by right].
  - rewrite Hc', Hc. unfold zlen. rewrite !length_app. simpl. unfold u32. rewrite Zminus_mod_idemp_l. f_equal. lia.
  - intros y [->%elem_of_singleton|Hy]%elem_of_union.
    + split; [|by eexists]. rewrite Ht, not_elem_of_cons. split; [intros ->; apply Hn; rewrite fmap_app; set_solver|].
      rewrite fmap_app, fmap_cons in Hnd. rewrite fmap_app. apply NoDup_app in Hnd as (_ & Hd & [Hzw _]%NoDup_cons).
      intros [Hi|Hi]%elem_of_app; [apply (Hd _ Hi); by left|done].
    + destruct (Hfr y Hy) as (Hyo & vy & Hvy & Hpy). split.
      * rewrite Ht. clear -Hyo. rewrite !fmap_app in *. simpl in *. set_solver.
      * exists vy. rewrite Hno; [done|]. unfold tnodes. by rewrite Hx.
Qed.

(** A node that is in no tree is left alone. *)
Lemma remove_free h s z : rb_rep h s → z ∈ s.2 → tt_rbtree_remove (Some z) h = Ret (TT_SUCCESS tt, h).
Proof.
  intros (t & _ & _ & _ & _ & _ & Hfr) Hz. destruct (Hfr z Hz) as (_ & v & Hv & Hp).
  unfold tt_rbtree_remove. by rewrite (bind_step _ _ _ _ _ (get_ok parent h z v Hv)), Hp.
Qed.

Lemma neighbour_step d h s z : rb_rep h s → z ∈ s.1.*1 →
  ∃ xs1 k xs2, s.1 = xs1 ++ (z, k) :: xs2 ∧ neighbour d (Some z) h =
    Ret (TT_SUCCESS (match d with L => fst <$> last xs1 | R => fst <$> head xs2 end), h).
Proof.
  intros (t & Hf & _ & He & _). rewrite <- He. intros ([z' zk] & -> & Hin)%list_elem_of_fmap.
  destruct (find_place t z' zk Hin) as (c & b & l & r & ->). apply focus_in in Hf. rewrite app_nil_r in Hf.
  exists (pre c ++ entries l), zk, (entries r ++ post c). rewrite entries_plug. simpl. split; [by rewrite <- !app_assoc|].
  apply (neighbour_ok d h c b l z' zk r Hf).
Qed.

Lemma rb_op_step h s o s' : rb_rep h s → anext s o = Some s' →
  ∃ r h', run_op o h = Ret (TT_SUCCESS r, h') ∧ aout s.1 o r ∧ rb_rep h' s'.
Proof.
  destruct s as [xs fr]. intros Hrep. pose proof Hrep as (t & Hf & Hrb & He & Hs & Hc & Hfr). simpl in He, Hs, Hc.
  destruct o as [k z|z|keep k|d|d z|]; cbn [anext run_op aout fst].
  - destruct (decide (z ∈ fr)) as [Hz|]; [|done]. intros [= <-].
    destruct (rb_add_step h xs fr k z Hrep Hz) as (h' & E & Hrep'). rewrite (bind_step _ _ _ _ _ E). by exists RUnit, h'.
  - destruct (decide (z ∈ xs.*1)) as [Hz|_]; [intros [= <-]|destruct (decide (z ∈ fr)) as [Hz|]; [|done]; intros [= <-]].
    + destruct (rb_remove_step h xs fr z Hrep Hz) as (h' & E & Hrep'). rewrite (bind_step _ _ _ _ _ E). by exists RUnit, h'.
    + rewrite (bind_step _ _ _ _ _ (remove_free h (xs, fr) z Hrep Hz)). by exists RUnit, h.
  - intros [= <-]. rewrite <- He in Hs. destruct (search_ok cmpkey keep k h t Hf Hs) as (p & E & Hp). rewrite He in Hp.
    exists (RNode p), h. split; [|by eauto]. destruct keep as [[]|]; by rewrite (bind_step _ _ _ _ _ E).
  - intros [= <-]. pose proof (tt_rbtree_extreme_ok d h t Hf) as E. rewrite He in E. exists (RNode (end_of d xs)), h.
    split; [|done]. destruct d; by rewrite (bind_step _ _ _ _ _ E).
  - destruct (decide (z ∈ xs.*1)) as [Hz|]; [|done]. intros [= <-].
    destruct (neighbour_step d h (xs, fr) z Hrep Hz) as (xs1 & k & xs2 & Hx & E). simpl in Hx.
    eexists _, h. split; [|split; [by exists xs1, k, xs2|done]]. destruct d; by rewrite (bind_step _ _ _ _ _ E).
  - intros [= <-]. exists (RNum (count h)), h. split; [done|]. by rewrite Hc.
Qed.

Lemma rb_ops_step os : ∀ h s, rb_rep h s → legal s os →
  ∃ rs h' s', run_ops os h = Ret (TT_SUCCESS rs, h') ∧ arun s os rs s' ∧ rb_rep h' s'.
Proof.
  induction os as [|o os IH]; intros h s Hrep Hl; [by exists [], h, s|]. cbn [legal] in Hl.
  destruct (anext s o) as [s1|] eqn:En; [|done].
  destruct (rb_op_step h s o s1 Hrep En) as (r & h1 & E1 & Ho & Hrep1).
  destruct (IH h1 s1 Hrep1 Hl) as (rs & h' & s' & E & Ha & Hrep'). exists (r :: rs), h', s'.
  cbn [run_ops]. rewrite (bind_step _ _ _ _ _ E1), (bind_step _ _ _ _ _ E). split_and!; [done| |done].
  split; [done|]. by exists s1.
Qed.

(** A new tree is empty. *)
Lemma init_rep h fr v : nodes h !! tnil h = Some v →
  (∀ z, z ∈ fr → z ≠ tnil h ∧ ∃ v, nodes h !! z = Some v ∧ parent v = None) →
  ∃ h', tt_rbtree_init h = Ret (TT_SUCCESS tt, h') ∧ rb_rep h' ([], fr) ∧ tnil h' = tnil h.
Proof.
  intros Hv Hfr. unfold tt_rbtree_init, tt_rbnode_init.
  rewrite (bind_step _ _ _ _ _ (nilp_ok h)). unfold set_root at 1.
  set (h1 := mk_rbmem (nodes h) (tnil h) (tnil h) (count h)).
  rewrite (bind_step _ _ h tt h1) by done. rewrite (bind_step _ _ _ _ _ (put_ok _ h1 (tnil h) v Hv)).
  erewrite bind_step; [|apply put_ok; simpl; by rewrite lookup_insert_eq]. eexists. split; [done|]. split; [|done].
  exists E. simpl. rewrite insert_insert_eq. split_and!; [|split; [done|exists 0%nat; constructor]|done|constructor|done|].
  - constructor; cbn [nodes tnil root]; [done|done|apply NoDup_singleton|]. eexists. by rewrite lookup_insert_eq.
  - intros z Hz. destruct (Hfr z Hz) as (Hne & w & Hw & Hp). split; [by intros ->%list_elem_of_singleton|].
    exists w. by rewrite lookup_insert_ne.
Qed.
End spec.

(** ** Properties *)

(** C13: any sequence of legal calls on a red-black tree does what it does to a list
    of entries sorted by key: adding puts the node after all entries that are not
    greater, removing takes it out, the searches return an entry with an equal key
    or else nothing, the first larger or the last smaller one, the ends, the
    neighbours and the count are those of the list; every loop of the code ends,
    no call follows a dangling pointer, and the tree stays balanced. *)
Theorem rb_refines {K} (cmpkey : cmpkey_t K) `{!KeyOrder cmpkey} h s os :
  rb_rep cmpkey h s → legal cmpkey s os →
  ∃ rs h' s', run_ops cmpkey os h = Ret (TT_SUCCESS rs, h') ∧ arun cmpkey s os rs s' ∧ rb_rep cmpkey h' s'.
Proof. apply rb_ops_step. done. Qed.

(** C14: a search in a tree of [n] entries takes at most [N] rounds, for any [N]
    with (n + 1)² < 2 ^ N, so twice the logarithm of [n + 1] rounds are enough. *)
Theorem rb_search_rounds {K} (cmpkey : cmpkey_t K) `{!KeyOrder cmpkey} h xs fr keep k (N : nat) :
  rb_rep cmpkey h (xs, fr) → (S (length xs) * S (length xs) < 2 ^ N)%nat →
  ∃ p, find_loop cmpkey keep k (Some (root h)) None N h = Ret (TT_SUCCESS p, h) ∧ found cmpkey keep k xs p.
Proof.
  intros (t & Hf & Hrb & He & Hs & _) HN. simpl in *. subst xs. pose proof (rbt_height t Hrb) as Hh.
  assert (height t < N)%nat as Hlt by (apply (Nat.pow_lt_mono_r_iff 2); lia).
  destruct (find_loop_ok cmpkey keep k t h [] N Hf Hs) as (p & E & Hp); [done..|]. exists p. split; [|done].
  pose proof (fo_ctx _ _ _ Hf) as Hr. simpl in Hr. rewrite Hr, <- E. by destruct keep as [[]|].
Qed.

(** [__rbt_expensive_check] decides the invariant: on a memory that holds any
    binary tree with fewer than 2 ^ 32 - 2 nodes it returns success exactly if the
    root is black, no red node has a red child and every path has the same number
    of black nodes. *)
Theorem rb_check_decides {K} (h : rbmem K) t : holds_tree h t →
  ∃ r, __rbt_expensive_check (Some (root h)) h = Ret (r, h) ∧
    ((∃ b, r = TT_SUCCESS b) ↔ rbt t).
Proof.
  intros [Hf Hn]. pose proof (fo_ctx _ _ _ Hf) as Hr. simpl in Hr. rewrite Hr.
  destruct (expensive_check_loop t h [] (S (size (nodes h))) Hf) as (r & E & V); [by eapply fuel_ok|done|].
  exists r. split; [exact E|]. destruct r as [b|e]; simpl in V.
  - destruct V as (n & -> & Hrb & _ & Hb). split; [|by eauto]. intros _. split; eauto.
  - split; [by intros [b Hb]|]. intros [Hb [n Hrb]]. exfalso. by eapply V.
Qed.

(** ** Witnesses *)

(** A sentinel and four nodes. *)
Definition demo_fresh : rbmem (list Z) :=
  mk_rbmem {[ 1%positive := rbnode_blank; 2%positive := rbnode_blank; 3%positive := rbnode_blank;
    4%positive := rbnode_blank; 5%positive := rbnode_blank ]} 1 1 7.
Definition demo_tree : rbmem (list Z) :=
  match tt_rbtree_init demo_fresh with Ret (_, h) => h | _ => demo_fresh end.
Definition demo_free : gset nid := {[ 2%positive; 3%positive; 4%positive; 5%positive ]}.

Lemma demo_tree_rep : rb_rep __rbn_cmpkey demo_tree ([], demo_free).
Proof.
  destruct (init_rep __rbn_cmpkey demo_fresh demo_free rbnode_blank) as (h' & E & Hrep & _).
  - reflexivity.
  - intros z Hz. unfold demo_free in Hz. rewrite !elem_of_union, !elem_of_singleton in Hz.
    destruct Hz as [[[->| ->]| ->]| ->]; (split; [done|eexists; split; [vm_compute; reflexivity|done]]).
  - unfold demo_tree. by rewrite E.
Qed.

Definition demo_ops : list (op (K := list Z)) :=
  [Add [3] 2%positive; Add [1] 3%positive; Add [2] 4%positive; Add [1] 5%positive; Remove 4%positive;
   Search (Some L) [2]; Neighbour R 3%positive; Extreme R; Count; Search None [9]].

Lemma demo_legal : legal __rbn_cmpkey ([], demo_free) demo_ops.
Proof. vm_compute. exact I. Qed.

Example rb_demo_run : ∃ h', run_ops __rbn_cmpkey demo_ops demo_tree = Ret (TT_SUCCESS
  [RUnit; RUnit; RUnit; RUnit; RUnit; RNode (Some 2%positive); RNode (Some 5%positive); RNode (Some 2%positive);
   RNum 3; RNode None], h').
Proof. eexists. vm_compute. reflexivity. Qed.

Lemma rb_refines_witness : ∃ rs h' s', run_ops __rbn_cmpkey demo_ops demo_tree = Ret (TT_SUCCESS rs, h') ∧
  arun __rbn_cmpkey ([], demo_free) demo_ops rs s' ∧ rb_rep __rbn_cmpkey h' s'.
Proof. apply (rb_refines __rbn_cmpkey demo_tree ([], demo_free) demo_ops demo_tree_rep demo_legal). Defined.

(** The tree that four insertions build. *)
Definition demo_full : rbmem (list Z) :=
  match run_ops __rbn_cmpkey (firstn 4 demo_ops) demo_tree with Ret (_, h) => h | _ => demo_tree end.
Definition demo_shape : tree (list Z) :=
  T true (T true E 3 [1] (T false E 5 [1] E)) 4 [2] (T true E 2 [3] E).

Lemma demo_full_focus : focus demo_full [] demo_shape.
Proof.
  constructor; [reflexivity|vm_compute; split_and!; reflexivity|apply (bool_decide_unpack _); vm_compute; exact I|].
  eexists. split; [vm_compute; reflexivity|done].
Qed.
Lemma demo_full_rep : rb_rep __rbn_cmpkey demo_full (entries demo_shape, ∅).
Proof.
  exists demo_shape. split_and!; [exact demo_full_focus| |done| |reflexivity|by intros z ?%elem_of_empty].
  - split; [done|]. exists 2%nat. repeat constructor.
  - simpl. repeat constructor; vm_compute; congruence.
Qed.

Lemma rb_search_rounds_witness : ∃ p, find_loop __rbn_cmpkey (Some R) [7] (Some (root demo_full)) None 5 demo_full =
  Ret (TT_SUCCESS p, demo_full) ∧ found __rbn_cmpkey (Some R) [7] (entries demo_shape) p.
Proof.
  apply (rb_search_rounds __rbn_cmpkey demo_full (entries demo_shape) ∅ (Some R) [7] 5 demo_full_rep). simpl. lia.
Defined.

Lemma rb_check_decides_witness : ∃ r, __rbt_expensive_check (Some (root demo_full)) demo_full = Ret (r, demo_full) ∧
  ((∃ b, r = TT_SUCCESS b) ↔ rbt demo_shape).
Proof. apply (rb_check_decides demo_full demo_shape). split; [exact demo_full_focus|reflexivity]. Defined.
