(* ===== verification/Date.v ===== *)
(** Dates (time/tt_date.h, tt_date.c, tt_date_def.h and tt_date_def.c): a date with
    its time of day and time zone, the conversion to and from day numbers, and the
    arithmetic on days, hours, minutes and seconds.  This file holds the code and
    the calendar it computes; [DateArith] shows that it does. *)

From S2P Require Import Prelude.

#[local] Open Scope Z_scope.

(** ** Data *)

Definition TT_GREGORIAN_BEGIN : Z := 1583.

(** Months, weekdays and time zones are C enums that the code counts up and uses
    as indexes: numbers. *)
Definition TT_JANUARY : Z := 0.
Definition TT_MARCH : Z := 2.
Definition TT_DECEMBER : Z := 11.
Definition TT_MONTH_NUM : Z := 12.
Definition TT_MONTH_VALID (m : Z) : bool := m <? TT_MONTH_NUM.
Definition TT_WEEKDAY_NUM : Z := 7.
Definition TT_UTC_00_00 : Z := 14.
Definition TT_UTC_07_00 : Z := 26.
Definition TT_UTC_14_00 : Z := 38.
Definition TT_TMZONE_NUM : Z := 39.
Definition TT_TMZONE_VALID (z : Z) : bool := z <=? TT_TMZONE_NUM.

(** The year counts from [TT_GREGORIAN_BEGIN], the month and the day from 0. *)
Record tt_date_t : Type := mk_date {
  year : Z;
  mday : Z;
  hour : Z;
  minute : Z;
  second : Z;
  month : Z;
  tz : Z;
}.

Definition with_year y d := mk_date y (mday d) (hour d) (minute d) (second d) (month d) (tz d).
Definition with_mday x d := mk_date (year d) x (hour d) (minute d) (second d) (month d) (tz d).
Definition with_hour x d := mk_date (year d) (mday d) x (minute d) (second d) (month d) (tz d).
Definition with_minute x d := mk_date (year d) (mday d) (hour d) x (second d) (month d) (tz d).
Definition with_second x d := mk_date (year d) (mday d) (hour d) (minute d) x (month d) (tz d).
Definition with_month x d := mk_date (year d) (mday d) (hour d) (minute d) (second d) x (tz d).
Definition with_tz x d := mk_date (year d) (mday d) (hour d) (minute d) (second d) (month d) x.
Definition with_ymd y m x d := mk_date y x (hour d) (minute d) (second d) m (tz d).

(** The internal and the external numbers of a year and a day. *)
Definition __Y_IN (y : Z) : Z := y - TT_GREGORIAN_BEGIN.
Definition __Y_OUT (y : Z) : Z := y + TT_GREGORIAN_BEGIN.
Definition __MDAY_IN (x : Z) : Z := x - 1.
Definition __MDAY_OUT (x : Z) : Z := x + 1.

(** ** Tables *)

Definition __s_daynum_of : list Z := [31; 28; 31; 30; 31; 30; 31; 31; 30; 31; 30; 31].
Definition __s_daynum_before : list Z := [0; 31; 59; 90; 120; 151; 181; 212; 243; 273; 304; 334].
Definition __s_daynum_of_leap : list Z := [31; 29; 31; 30; 31; 30; 31; 31; 30; 31; 30; 31].
Definition __s_daynum_before_leap : list Z := [0; 31; 60; 91; 121; 152; 182; 213; 244; 274; 305; 335].

Definition SEC (h m : Z) : Z := h * 3600 + m * 60.
Definition __tmzone_offset : list Z :=
  [- SEC 12 0; - SEC 11 0; - SEC 10 0; - SEC 9 30; - SEC 9 0;
   - SEC 8 0; - SEC 7 0; - SEC 6 0; - SEC 5 0; - SEC 4 0;
   - SEC 3 30; - SEC 3 0; - SEC 2 0; - SEC 1 0; SEC 0 0;
   SEC 1 0; SEC 2 0; SEC 3 0; SEC 3 30; SEC 4 0;
   SEC 4 30; SEC 5 0; SEC 5 30; SEC 5 45; SEC 6 0;
   SEC 6 30; SEC 7 30; SEC 8 0; SEC 8 30; SEC 8 45;
   SEC 9 0; SEC 9 30; SEC 10 0; SEC 10 30; SEC 11 0;
   SEC 12 0; SEC 12 45; SEC 13 0; SEC 14 0].

(** [t[i]]: undefined outside the table. *)
Definition index {S A} (t : list A) (i : Z) : M S A := λ s,
  if i <? 0 then Undef
  else match t !! Z.to_nat i with Some x => Ret (TT_SUCCESS x, s) | None => Undef end.

(** Run on a copy: the caller's object stays as it is. *)
Definition on_copy {S T A} (m : M T A) (t : T) : M S (result A * T) := λ s,
  exec_bind (m t) (λ rt, Ret (TT_SUCCESS rt, s)).

(** ** Calendar *)

Definition __leap_year (year : Z) : bool :=
  let y := __Y_OUT year in
  let y := if y <? 0 then y + 1 else y in
  (Z.rem y 4 =? 0) && (negb (Z.rem y 100 =? 0) || (Z.rem y 400 =? 0)) && negb (Z.rem y 3200 =? 0).

Definition __daynum_of (year : Z) : list Z := if __leap_year year then __s_daynum_of_leap else __s_daynum_of.
Definition __daynum_before (year : Z) : list Z :=
  if __leap_year year then __s_daynum_before_leap else __s_daynum_before.

Definition __date_valid {S} (year month day : Z) : M S bool :=
  if negb (TT_MONTH_VALID month) then mret false
  else
    n ← index (__daynum_of year) month;
    mret (negb (n <=? day)).

(** The signed divisions of C truncate. *)
Definition __ymd2cjdn {S} (year month day : Z) : M S Z :=
  let year := u16 (__Y_OUT year) in
  let month := month + 1 in
  let day := u8 (__MDAY_OUT day) in
  let c0 := if month <? 3 then -1 else 0 in
  let x4 := year + c0 in
  let x3 := Z.quot x4 100 in
  let x2 := Z.rem x4 100 in
  let x1 := month - 12 * c0 - 3 in
  let j := Z.quot (146097 * x3) 4 + Z.quot (36525 * x2) 100 + Z.quot (153 * x1 + 2) 5 + day + 1721119 in
  assert_always (0 <=? j);;
  mret (u32 j).

(** Unsigned 32-bit arithmetic throughout; gives year, month and day. *)
Definition __cjdn2ymd (cjdn : Z) : Z * Z * Z :=
  let m := u32 (4 * cjdn - 6884477) in
  let x3 := m / 146097 in
  let r3 := m mod 146097 in
  let m := u32 (r3 / 4 * 100 + 99) in
  let x2 := m / 36525 in
  let r2 := m mod 36525 in
  let m := u32 (r2 / 100 * 5 + 2) in
  let x1 := m / 153 in
  let r1 := m mod 153 in
  let d := u32 (r1 / 5 + 1) in
  let c0 := (x1 + 2) / 12 in
  let j := u32 (100 * x3 + x2 + c0) in
  let m := u32 (x1 - 12 * c0 + 3) in
  (u16 (__Y_IN j), u32 (m - 1), u8 (__MDAY_IN d)).

(** What [__date_component_init] computes: the number of the second day. *)
Definition __s_min_cjdn : Z :=
  match @__ymd2cjdn unit (__Y_IN TT_GREGORIAN_BEGIN) TT_JANUARY 1 tt with Ret (TT_SUCCESS n, _) => n | _ => 0 end.

(** ** Time zones *)

Definition tt_tmzone2offsec {S} (tmzone : Z) : M S Z :=
  assert_always (TT_TMZONE_VALID tmzone);; index __tmzone_offset tmzone.

Fixpoint offsec_loop {S} (offset z : Z) (fuel : nat) : M S Z :=
  match fuel with
  | O => λ _, Diverge
  | S fuel =>
      if z <? TT_UTC_14_00 then
        o ← index __tmzone_offset z;
        if o <? offset then offsec_loop offset (z + 1) fuel else mret z
      else mret z
  end.
Definition tt_offsec2tmzone {S} (offset : Z) : M S Z := offsec_loop offset 0 40.

(** ** Fields *)

Definition tt_date_init (z : Z) : M tt_date_t unit :=
  assert_always (TT_TMZONE_VALID z);; modify (λ _, mk_date 0 0 0 0 0 0 z).

Definition tt_date_valid : M tt_date_t bool := d ← gets id; __date_valid (year d) (month d) (mday d).

(** Three-way comparison of fields, the first difference decides. *)
Fixpoint __dcmp (fs : list (Z * Z)) : Z :=
  match fs with
  | [] => 0
  | (a, b) :: fs => if b <? a then 1 else if a <? b then -1 else __dcmp fs
  end.
Definition tt_date_cmp (a b : tt_date_t) : Z :=
  __dcmp [(year a, year b); (month a, month b); (mday a, mday b); (hour a, hour b); (minute a, minute b);
    (second a, second b)].
Definition tt_date_cmp_date (a b : tt_date_t) : Z :=
  __dcmp [(year a, year b); (month a, month b); (mday a, mday b)].
Definition tt_date_cmp_time (a b : tt_date_t) : Z :=
  __dcmp [(hour a, hour b); (minute a, minute b); (second a, second b)].
Definition tt_date_cmp_v (d : tt_date_t) (y m x h mi s : Z) : Z :=
  __dcmp [(year d, u32 (__Y_IN y)); (month d, m); (mday d, u32 (__MDAY_IN x)); (hour d, h); (minute d, mi); (second d, s)].
Definition tt_date_cmp_vdate (d : tt_date_t) (y m x : Z) : Z :=
  __dcmp [(year d, u32 (__Y_IN y)); (month d, m); (mday d, u32 (__MDAY_IN x))].
Definition tt_date_cmp_vtime (d : tt_date_t) (h mi s : Z) : Z :=
  __dcmp [(hour d, h); (minute d, mi); (second d, s)].

Definition tt_date_set_year (y : Z) : M tt_date_t unit :=
  if y <? TT_GREGORIAN_BEGIN then fail TT_FAIL
  else
    let y := u16 (__Y_IN y) in
    d ← gets id;
    v ← __date_valid y (month d) (mday d);
    if negb v then fail TT_FAIL else modify (with_year y).
Definition tt_date_get_year (d : tt_date_t) : Z := __Y_OUT (year d).
Definition tt_date_is_leapyear (d : tt_date_t) : bool := __leap_year (year d).

Definition tt_date_set_month (m : Z) : M tt_date_t unit :=
  assert_always (TT_MONTH_VALID m);; modify (with_month m).
Definition tt_date_get_month (d : tt_date_t) : Z := month d.

Definition tt_date_set_monthday (x : Z) : M tt_date_t unit :=
  if (x <? 1) || (31 <? x) then fail TT_FAIL
  else
    let md := u8 (__MDAY_IN x) in
    d ← gets id;
    v ← __date_valid (year d) (month d) md;
    if negb v then fail TT_FAIL else modify (with_mday md).
Definition tt_date_get_monthday (d : tt_date_t) : Z := __MDAY_OUT (mday d).

Definition weekday_t : list Z := [0; 3; 2; 5; 0; 3; 5; 1; 4; 6; 2; 4].
Definition tt_date_get_weekday : M tt_date_t Z :=
  dt ← gets id;
  let y := __Y_OUT (year dt) in
  let m := month dt in
  let d := __MDAY_OUT (mday dt) in
  let y := u32 (y - if m <? 3 then 1 else 0) in
  t ← index weekday_t m;
  mret (u32 (y + y / 4 - y / 100 + y / 400 + t + d) mod 7).

Fixpoint yearday_loop (dn_of : list Z) (yday m : Z) (fuel : nat) : M tt_date_t unit :=
  match fuel with
  | O => λ _, Diverge
  | S fuel =>
      if m <=? TT_DECEMBER then
        n ← index dn_of m;
        if yday <? n then modify (λ d, with_month m (with_mday (u8 yday) d))
        else yearday_loop dn_of (u32 (yday - n)) (m + 1) fuel
      else crash
  end.
Definition tt_date_set_yearday (yday : Z) : M tt_date_t unit :=
  if 365 <? yday then fail TT_FAIL
  else
    d ← gets id;
    if negb (__leap_year (year d)) && (yday =? 365) then fail TT_FAIL
    else yearday_loop (__daynum_of (year d)) yday TT_JANUARY 13.
Definition tt_date_get_yearday : M tt_date_t Z :=
  d ← gets id; n ← index (__daynum_before (year d)) (month d); mret (n + mday d).

Definition tt_date_set_hour (h : Z) : M tt_date_t unit :=
  assert_always (h <=? 23);; modify (with_hour (u8 h)).
Definition tt_date_get_hour (d : tt_date_t) : Z := hour d.
Definition tt_date_get_hour_ampm (d : tt_date_t) : Z := if hour d <=? 12 then hour d else hour d - 12.
Definition tt_date_is_am (d : tt_date_t) : bool := hour d <? 12.
Definition tt_date_is_pm (d : tt_date_t) : bool := negb (tt_date_is_am d).
Definition tt_date_set_minute (x : Z) : M tt_date_t unit :=
  assert_always (x <=? 59);; modify (with_minute (u8 x)).
Definition tt_date_get_minute (d : tt_date_t) : Z := minute d.
Definition tt_date_set_second (x : Z) : M tt_date_t unit :=
  assert_always (x <=? 59);; modify (with_second (u8 x)).
Definition tt_date_get_second (d : tt_date_t) : Z := second d.

Definition tt_date_set_date (y m x : Z) : M tt_date_t unit :=
  if y <? TT_GREGORIAN_BEGIN then fail TT_FAIL
  else
    let y := __Y_IN y in
    assert_always (TT_MONTH_VALID m);;
    if (x <? 1) || (31 <? x) then fail TT_FAIL
    else
      let md := __MDAY_IN x in
      v ← __date_valid (u16 y) m (u8 md);
      if negb v then fail TT_FAIL else modify (with_ymd (u16 y) m (u8 md)).
Definition tt_date_set_time (h mi s : Z) : M tt_date_t unit :=
  tt_date_set_hour h;; tt_date_set_minute mi;; tt_date_set_second s.
Definition tt_date_set (y m x h mi s : Z) : M tt_date_t unit :=
  do_r TT_FAIL (tt_date_set_date y m x);; tt_date_set_time h mi s.
Definition tt_date_get_tmzone (d : tt_date_t) : Z := tz d.
Definition tt_date_set_tmzone (z : Z) : M tt_date_t unit := modify (with_tz z).
Definition tt_date_epoch : M tt_date_t unit :=
  try (tt_date_set 1970 TT_JANUARY 1 0 0 0);; tt_date_set_tmzone TT_UTC_00_00.

Definition tt_date_get_week (first_day : Z) : M tt_date_t Z :=
  date ← gets id;
  '(_, d) ← on_copy (tt_date_set_month TT_JANUARY;; try (tt_date_set_monthday 1)) date;
  '(wd, _) ← on_copy tt_date_get_weekday d;
  wd ← call (Ret wd);
  let n := if wd <? first_day then first_day - wd
           else if wd =? first_day then 0 else TT_WEEKDAY_NUM + first_day - wd in
  w ← tt_date_get_yearday;
  if n <=? w then
    let w := (w - n) / 7 in
    mret (if negb (n =? 0) then w + 1 else w)
  else mret 0.

(** ** Arithmetic *)

Definition tt_date_inc_day (day : Z) : M tt_date_t unit :=
  d ← gets id;
  cjdn ← __ymd2cjdn (year d) (month d) (mday d);
  if u32 (cjdn + day) <? day then fail TT_FAIL
  else
    let '(y, m, x) := __cjdn2ymd (u32 (cjdn + day)) in
    modify (with_ymd y m x);;
    v ← __date_valid y m x;
    assert_always v.

Definition tt_date_dec_day (day : Z) : M tt_date_t unit :=
  d ← gets id;
  cjdn ← __ymd2cjdn (year d) (month d) (mday d);
  if (u32 (__s_min_cjdn + day) <? day) || (cjdn <? u32 (__s_min_cjdn + day)) then fail TT_FAIL
  else
    let '(y, m, x) := __cjdn2ymd (u32 (cjdn - day)) in
    modify (with_ymd y m x);;
    v ← __date_valid y m x;
    assert_always v.

(** The carry to the next unit and what is left of [n], which may wrap below 0. *)
Definition carry_up (base field n : Z) : Z * Z :=
  let c := n / base in
  let n := n mod base in
  if base <=? field + n then (u32 (c + 1), u32 (n - base)) else (c, n).
Definition carry_down (base field n : Z) : Z * Z :=
  let c := n / base in
  let n := n mod base in
  if field <? n then (u32 (c + 1), u32 (n - base)) else (c, n).

(** The fields are bytes: the sums wrap back. *)
Definition tt_date_inc_hour (n : Z) : M tt_date_t unit :=
  d ← gets id;
  let '(day, n) := carry_up 24 (hour d) n in
  do_r TT_FAIL (tt_date_inc_day day);;
  modify (λ d, with_hour (u8 (hour d + n)) d);;
  d ← gets id;
  v ← __date_valid (year d) (month d) (mday d);
  assert_always v.
Definition tt_date_dec_hour (n : Z) : M tt_date_t unit :=
  d ← gets id;
  let '(day, n) := carry_down 24 (hour d) n in
  do_r TT_FAIL (tt_date_dec_day day);;
  modify (λ d, with_hour (u8 (hour d - n)) d);;
  d ← gets id;
  v ← __date_valid (year d) (month d) (mday d);
  assert_always v.
Definition tt_date_inc_minute (n : Z) : M tt_date_t unit :=
  d ← gets id;
  let '(h, n) := carry_up 60 (minute d) n in
  do_r TT_FAIL (tt_date_inc_hour h);;
  modify (λ d, with_minute (u8 (minute d + n)) d).
Definition tt_date_dec_minute (n : Z) : M tt_date_t unit :=
  d ← gets id;
  let '(h, n) := carry_down 60 (minute d) n in
  do_r TT_FAIL (tt_date_dec_hour h);;
  modify (λ d, with_minute (u8 (minute d - n)) d).
Definition tt_date_inc_second (n : Z) : M tt_date_t unit :=
  d ← gets id;
  let '(m, n) := carry_up 60 (second d) n in
  do_r TT_FAIL (tt_date_inc_minute m);;
  modify (λ d, with_second (u8 (second d + n)) d).
Definition tt_date_dec_second (n : Z) : M tt_date_t unit :=
  d ← gets id;
  let '(m, n) := carry_down 60 (second d) n in
  do_r TT_FAIL (tt_date_dec_minute m);;
  modify (λ d, with_second (u8 (second d - n)) d).

Definition tt_date_change_tmzone (z : Z) : M tt_date_t unit :=
  assert_always (TT_TMZONE_VALID z);;
  d ← gets id;
  org_s ← tt_tmzone2offsec (tz d);
  new_s ← tt_tmzone2offsec z;
  (if org_s <=? new_s then tt_date_inc_second (u32 (new_s - org_s)) else tt_date_dec_second (u32 (org_s - new_s)));;
  modify (with_tz z).

(** A copy of the date in UTC, as far as the change succeeds, and its day number. *)
Definition utc_cjdn (d : tt_date_t) : M unit (tt_date_t * Z) :=
  '(_, u) ← on_copy (tt_date_change_tmzone TT_UTC_00_00) d;
  n ← __ymd2cjdn (year u) (month u) (mday u);
  mret (u, n).

Definition tt_date_diff_day (a b : tt_date_t) : M unit Z :=
  '(_, a_cjdn) ← utc_cjdn a;
  '(_, b_cjdn) ← utc_cjdn b;
  mret (s32 (a_cjdn - b_cjdn)).
Definition tt_date_diff_second (a b : tt_date_t) : M unit Z :=
  '(ua, a_cjdn) ← utc_cjdn a;
  '(ub, b_cjdn) ← utc_cjdn b;
  mret ((a_cjdn - b_cjdn) * 86400 + (hour ua - hour ub) * 3600 + (minute ua - minute ub) * 60 + (second ua - second ub)).

Definition epoch_date : M unit tt_date_t :=
  '(_, d) ← on_copy (tt_date_init TT_UTC_00_00;; tt_date_epoch) (mk_date 0 0 0 0 0 0 0); mret d.
Definition tt_date_diff_epoch_day (a : tt_date_t) : M unit Z := b ← epoch_date; tt_date_diff_day a b.
Definition tt_date_diff_epoch_second (a : tt_date_t) : M unit Z := b ← epoch_date; tt_date_diff_second a b.

(** ** The calendar *)

(** The Gregorian calendar by its rules: month and day count from 0. *)
Definition leap (y : Z) : bool := (y mod 4 =? 0) && (negb (y mod 100 =? 0) || (y mod 400 =? 0)).
Definition month_len (b : bool) (m : Z) : Z :=
  if m =? 1 then if b then 29 else 28
  else if (m =? 3) || (m =? 5) || (m =? 8) || (m =? 10) then 30 else 31.
Definition month_days (y m : Z) : Z := month_len (leap y) m.
Definition gregorian (y m x : Z) : Prop := 0 ≤ m < 12 ∧ 0 ≤ x < month_days y m.
Definition next_day (y m x : Z) : Z * Z * Z :=
  if x + 1 <? month_days y m then (y, m, x + 1)
  else if m + 1 <? 12 then (y, m + 1, 0)
  else (y + 1, 0, 0).

Example day_try : @__ymd2cjdn unit (__Y_IN 2000) 0 0 tt = Ret (TT_SUCCESS 2451545, tt)
  ∧ __cjdn2ymd 2451545 = (__Y_IN 2000, 0, 0) ∧ __s_min_cjdn = 2299240.
Proof. vm_compute. split_and!; reflexivity. Qed.
