(* ===== verification/DateArith.v ===== *)
(** The day numbers of [Date] are those of the Gregorian calendar, and the
    arithmetic on dates is that on the instants they denote. *)

From S2P Require Import Prelude Date.

#[local] Open Scope Z_scope.

(** Linear arithmetic with divisions by constants. *)
Ltac dlia := Z.to_euclidean_division_equations; lia.

(** ** Day numbers *)

(** The number of a day by the formula of the code, with external year and with
    month and day counted from 0. *)
Definition cjdn (y m x : Z) : Z :=
  let c0 := if m <? 2 then -1 else 0 in
  let x4 := y + c0 in
  146097 * (x4 / 100) / 4 + 36525 * (x4 mod 100) / 100 + (153 * (m - 2 - 12 * c0) + 2) / 5 + x + 1721120.

(** [n] falls in the [x]-th step of a line that rises by [a / b] in each step. *)
Lemma line_step a b c x n : 0 < a → 0 < b → (a * x + c) / b ≤ n < (a * (x + 1) + c) / b →
  (b * n + (b - 1 - c)) / a = x ∧ (b * n + (b - 1 - c)) mod a / b = n - (a * x + c) / b.
Proof.
  intros Ha Hb [H1 H2]. set (q := (a * x + c) / b) in *. set (e := (a * x + c) mod b).
  pose proof (Z_div_mod_eq_full (a * x + c) b) as Hq. fold q e in Hq.
  pose proof (Z.mod_pos_bound (a * x + c) b Hb) as He. fold e in He.
  assert (b * (n + 1) ≤ a * (x + 1) + c) as Hn.
  { pose proof (Z.mul_div_le (a * (x + 1) + c) b Hb). nia. }
  set (r := b * (n - q) + (b - 1 - e)).
  assert (b * n + (b - 1 - c) = x * a + r) as -> by (unfold r; lia).
  assert (0 ≤ r < a) as Hr by (unfold r; nia).
  rewrite Z.div_add_l, (Z.add_comm (x * a)), Z.mod_add, (Z.div_small r), (Z.mod_small r) by lia. split; [lia|].
  unfold r. rewrite Z.mul_comm, Z.div_add_l, Z.div_small by lia. lia.
Qed.

(** The centuries, the years of a century and the months of a year, from March. *)
Lemma century_step x3 n : 146097 * x3 / 4 ≤ n < 146097 * (x3 + 1) / 4 →
  (4 * n + 3) / 146097 = x3 ∧ (4 * n + 3) mod 146097 / 4 = n - 146097 * x3 / 4.
Proof. intros H. pose proof (line_step 146097 4 0 x3 n) as L. rewrite !Z.add_0_r in L. apply L; lia. Qed.
Lemma year_step x2 n : 36525 * x2 / 100 ≤ n < 36525 * (x2 + 1) / 100 →
  (100 * n + 99) / 36525 = x2 ∧ (100 * n + 99) mod 36525 / 100 = n - 36525 * x2 / 100.
Proof. intros H. pose proof (line_step 36525 100 0 x2 n) as L. rewrite !Z.add_0_r in L. apply L; lia. Qed.
Lemma month_step x1 n : (153 * x1 + 2) / 5 ≤ n < (153 * (x1 + 1) + 2) / 5 →
  (5 * n + 2) / 153 = x1 ∧ (5 * n + 2) mod 153 / 5 = n - (153 * x1 + 2) / 5.
Proof. intros H. apply (line_step 153 5 2 x1 n); lia. Qed.

Lemma month_cases m : 0 ≤ m < 12 →
  m = 0 ∨ m = 1 ∨ m = 2 ∨ m = 3 ∨ m = 4 ∨ m = 5 ∨ m = 6 ∨ m = 7 ∨ m = 8 ∨ m = 9 ∨ m = 10 ∨ m = 11.
Proof. lia. Qed.
Ltac each_month Hm :=
  apply month_cases in Hm; destruct Hm as [->|[->|[->|[->|[->|[->|[->|[->|[->|[->|[->| ->]]]]]]]]]]].

Lemma month_days_range y m : 28 ≤ month_days y m ≤ 31.
Proof. unfold month_days, month_len. repeat case_match; lia. Qed.

Lemma leap_spec y : leap y = true ↔ y mod 4 = 0 ∧ (y mod 100 ≠ 0 ∨ y mod 400 = 0).
Proof.
  unfold leap. destruct (Z.eqb_spec (y mod 4) 0), (Z.eqb_spec (y mod 100) 0), (Z.eqb_spec (y mod 400) 0); simpl;
    split; (lia || congruence || intuition congruence).
Qed.

(** A March-based year has 365 or 366 days. *)
Lemma year_days y :
  146097 * (y / 100) / 4 + 36525 * (y mod 100) / 100 =
  146097 * ((y - 1) / 100) / 4 + 36525 * ((y - 1) mod 100) / 100 + (if leap y then 366 else 365).
Proof.
  pose proof (Z_div_mod_eq_full y 100) as Hy. pose proof (Z.mod_pos_bound y 100 eq_refl) as Hr.
  set (q := y / 100) in *. set (r := y mod 100) in *.
  destruct (decide (r = 0)) as [Hr0|Hr0].
  - assert ((y - 1) / 100 = q - 1) as -> by (symmetry; apply (Z.div_unique_pos _ _ _ 99); lia).
    assert ((y - 1) mod 100 = 99) as -> by (symmetry; apply (Z.mod_unique_pos _ _ (q - 1)); lia).
    assert (y mod 400 = 100 * (q mod 4)) as H4.
    { rewrite Hy, Hr0, Z.add_0_r. change 400 with (100 * 4). apply Z.mul_mod_distr_l; lia. }
    assert (y mod 4 = 0) as Hm by (rewrite Hy, Hr0, Z.add_0_r; change 100 with (25 * 4); rewrite <- Z.mul_assoc, (Z.mul_comm 4), Z.mul_assoc; apply Z_mod_mult).
    assert (leap y = true ↔ q mod 4 = 0) as Hl by (rewrite leap_spec; fold r; lia).
    rewrite Hr0. clearbody q r. clear Hy Hm H4. destruct (leap y).
    + assert (q mod 4 = 0) by tauto. dlia.
    + assert (q mod 4 ≠ 0) by (intros H4; apply Hl in H4; congruence). dlia.
  - assert ((y - 1) / 100 = q) as -> by (symmetry; apply (Z.div_unique_pos _ _ _ (r - 1)); lia).
    assert ((y - 1) mod 100 = r - 1) as -> by (symmetry; apply (Z.mod_unique_pos _ _ q); lia).
    assert (y mod 4 = r mod 4) as Hm by (rewrite Hy, <- (Z_mod_plus_full r (25 * q) 4); f_equal; lia).
    assert (leap y = true ↔ r mod 4 = 0) as Hl by (rewrite leap_spec, Hm; fold r; tauto).
    clearbody q r. clear Hy Hm. destruct (leap y).
    + assert (r mod 4 = 0) by tauto. dlia.
    + assert (r mod 4 ≠ 0) by (intros H4; apply Hl in H4; congruence). dlia.
Qed.

(** Days are counted one by one through the Gregorian calendar. *)
Lemma cjdn_next y m x : gregorian y m x →
  let '(y', m', x') := next_day y m x in gregorian y' m' x' ∧ cjdn y' m' x' = cjdn y m x + 1.
Proof.
  intros [Hm Hx]. unfold next_day. destruct (Z.ltb_spec (x + 1) (month_days y m)) as [H|H].
  { split; [split; lia|]. unfold cjdn. lia. }
  assert (x = month_days y m - 1) as -> by lia. clear Hx H. pose proof (year_days y) as Hy.
  destruct (Z.ltb_spec (m + 1) 12) as [H|H].
  - pose proof (month_days_range y (m + 1)). split; [split; lia|].
    unfold cjdn, month_days, month_len. each_month Hm; simpl; rewrite ?Z.add_0_r; try lia; destruct (leap y); dlia.
  - assert (m = 11) as -> by lia. pose proof (month_days_range (y + 1) 0). split; [split; lia|].
    unfold cjdn, month_days, month_len. simpl. replace (y + 1 + -1) with y by lia. rewrite Z.add_0_r. dlia.
Qed.

(** The pieces the formula adds up stay inside their month, year and century. *)
Lemma pieces_fit y m x : gregorian y m x → 1 ≤ y →
  let c0 := if m <? 2 then -1 else 0 in
  let x3 := (y + c0) / 100 in
  let x2 := (y + c0) mod 100 in
  let x1 := m - 2 - 12 * c0 in
  0 ≤ x3 ∧ 0 ≤ x2 < 100 ∧ 0 ≤ x1 < 12 ∧
  (153 * x1 + 2) / 5 + x < (153 * (x1 + 1) + 2) / 5 ∧
  36525 * x2 / 100 + ((153 * x1 + 2) / 5 + x) < 36525 * (x2 + 1) / 100 ∧
  146097 * x3 / 4 + (36525 * x2 / 100 + ((153 * x1 + 2) / 5 + x)) < 146097 * (x3 + 1) / 4.
Proof.
  intros [Hm Hx] Hy c0 x3 x2 x1.
  assert (0 ≤ x3 ∧ 0 ≤ x2 < 100 ∧ y + c0 = 100 * x3 + x2) as (H3 & H2 & E).
  { unfold x3, x2, c0. destruct (m <? 2); dlia. }
  assert (0 ≤ x1 < 12) as H1 by (unfold x1, c0; destruct (Z.ltb_spec m 2); lia).
  assert ((153 * x1 + 2) / 5 + x < (153 * (x1 + 1) + 2) / 5) as Hx1.
  { unfold x1, c0, month_days, month_len in *. each_month Hm; simpl in *; try dlia; destruct (leap y); dlia. }
  assert ((153 * x1 + 2) / 5 + x ≤ 364 + (if (m =? 1) && leap y then 1 else 0)) as Hc.
  { unfold x1, c0, month_days, month_len in *. each_month Hm; simpl in *; try dlia; destruct (leap y); simpl; dlia. }
  assert (m = 1 → leap y = true → x2 = 99 ∧ (x3 + 1) mod 4 = 0 ∨ (x2 + 1) mod 4 = 0 ∧ x2 ≠ 99) as Hl.
  { intros -> [H4 Hn]%leap_spec. unfold c0 in E. simpl in E. assert (y = 100 * x3 + x2 + 1) as Ey by lia.
    clearbody x3 x2. clear Hx1 Hc. rewrite Ey in H4, Hn. destruct (decide (x2 = 99)) as [->|Hne].
    - left. split; [done|]. destruct Hn as [Hn|Hn]; dlia.
    - right. split; [dlia|done]. }
  clearbody x1 x2 x3. set (C := (153 * x1 + 2) / 5 + x) in *. clearbody C.
  assert (C ≤ 364 ∨ C = 365 ∧ (x2 = 99 ∧ (x3 + 1) mod 4 = 0 ∨ (x2 + 1) mod 4 = 0 ∧ x2 ≠ 99)) as HC.
  { destruct (Z.eqb_spec m 1), (leap y) eqn:El; simpl in Hc; [|left; lia..].
    destruct (decide (C = 365)); [right; auto|left; lia]. }
  split_and!; [lia..|done| |].
  - clear -HC H2. destruct HC as [|[-> [[-> _]|[H _]]]]; dlia.
  - clear -HC H2 H3. destruct HC as [HC|[-> [[-> H]|[H Hn]]]]; dlia.
Qed.

Lemma cjdn_bounds y m x : gregorian y m x → TT_GREGORIAN_BEGIN ≤ y ≤ 65535 → 2299239 ≤ cjdn y m x < 25658000.
Proof.
  unfold TT_GREGORIAN_BEGIN. intros [Hm Hx] Hy. pose proof (month_days_range y m). unfold cjdn.
  destruct (Z.ltb_spec m 2); dlia.
Qed.

(** ** The conversions of the code *)

Lemma cjdn2ymd_ok y m x : gregorian y m x → TT_GREGORIAN_BEGIN ≤ y ≤ 65535 →
  __cjdn2ymd (cjdn y m x) = (y - TT_GREGORIAN_BEGIN, m, x).
Proof.
  intros Hg Hy. pose proof (cjdn_bounds y m x Hg Hy) as Hb. unfold TT_GREGORIAN_BEGIN in *.
  destruct (pieces_fit y m x Hg ltac:(lia)) as (H3 & H2 & H1 & F1 & F2 & F3).
  assert (m = (m - 2 - 12 * (if m <? 2 then -1 else 0)) + 2 + 12 * (if m <? 2 then -1 else 0)) as Em by lia.
  assert (y = 100 * ((y + (if m <? 2 then -1 else 0)) / 100) + (y + (if m <? 2 then -1 else 0)) mod 100
    - (if m <? 2 then -1 else 0)) as Ey by (pose proof (Z_div_mod_eq_full (y + (if m <? 2 then -1 else 0)) 100); lia).
  destruct Hg as [Hm Hx]. pose proof (month_days_range y m) as Hd.
  assert (0 ≤ 36525 * ((y + (if m <? 2 then -1 else 0)) mod 100) / 100 ∧
    0 ≤ (153 * (m - 2 - 12 * (if m <? 2 then -1 else 0)) + 2) / 5) as [P2 P1] by (split; apply Z.div_pos; lia).
  unfold __cjdn2ymd, cjdn in *. cbv zeta in *.
  set (c0 := if m <? 2 then -1 else 0) in *. set (x3 := (y + c0) / 100) in *. set (x2 := (y + c0) mod 100) in *.
  set (x1 := m - 2 - 12 * c0) in *.
  set (A := 146097 * x3 / 4) in *. set (B := 36525 * x2 / 100) in *. set (C := (153 * x1 + 2) / 5) in *.
  destruct (century_step x3 (A + (B + (C + x)))) as [S3 R3]; [unfold A in *; lia|].
  destruct (year_step x2 (B + (C + x))) as [S2 R2]; [unfold B in *; lia|].
  destruct (month_step x1 (C + x)) as [S1 R1]; [unfold C in *; lia|].
  fold A in R3. fold B in R2. fold C in R1.
  replace (4 * (A + B + C + x + 1721120) - 6884477) with (4 * (A + (B + (C + x))) + 3) by lia.
  assert (0 ≤ A) by (apply Z.div_pos; lia).
  rewrite (u32_small (4 * _ + 3)) by lia. rewrite S3, R3. replace (A + (B + (C + x)) - A) with (B + (C + x)) by lia.
  rewrite (Z.mul_comm (B + (C + x)) 100), (u32_small (100 * _ + 99)) by lia. rewrite S2, R2.
  replace (B + (C + x) - B) with (C + x) by lia.
  rewrite (Z.mul_comm (C + x) 5), (u32_small (5 * _ + 2)) by lia. rewrite S1, R1.
  replace (C + x - C) with x by lia. rewrite (u32_small (x + 1)) by lia.
  assert ((x1 + 2) / 12 = - c0) as ->.
  { unfold x1, c0. destruct (Z.ltb_spec m 2); symmetry; [apply (Z.div_unique_pos _ _ _ m)|apply (Z.div_unique_pos _ _ _ m)]; lia. }
  rewrite (u32_small (100 * x3 + x2 + - c0)) by lia. rewrite (u32_small (x1 - 12 * - c0 + 3)) by lia.
  unfold __Y_IN, __MDAY_IN, TT_GREGORIAN_BEGIN. rewrite u32_small by lia. unfold u16, u8.
  rewrite !Z.mod_small by lia. f_equal; [f_equal|]; lia.
Qed.

Lemma ymd2cjdn_ok {S} y m x (s : S) : gregorian y m x → TT_GREGORIAN_BEGIN ≤ y ≤ 65535 →
  __ymd2cjdn (y - TT_GREGORIAN_BEGIN) m x s = Ret (TT_SUCCESS (cjdn y m x), s).
Proof.
  intros Hg Hy. pose proof (cjdn_bounds y m x Hg Hy) as Hb. unfold TT_GREGORIAN_BEGIN in *.
  destruct Hg as [Hm Hx]. pose proof (month_days_range y m) as Hd.
  unfold __ymd2cjdn, __Y_OUT, __MDAY_OUT, TT_GREGORIAN_BEGIN, u16, u8. rewrite !Z.mod_small by lia.
  replace (y - 1583 + 1583) with y by lia.
  replace (m + 1 <? 3) with (m <? 2) by (destruct (Z.ltb_spec m 2), (Z.ltb_spec (m + 1) 3); lia).
  unfold cjdn in *. set (c0 := if m <? 2 then -1 else 0) in *.
  assert (c0 = -1 ∨ c0 = 0) as Hc0 by (unfold c0; destruct (m <? 2); auto).
  assert (0 ≤ m - 2 - 12 * c0) as H1 by (unfold c0; destruct (Z.ltb_spec m 2); lia).
  rewrite (Z.quot_div_nonneg (y + c0)), Z.rem_mod_nonneg by lia.
  pose proof (Z.mod_pos_bound (y + c0) 100 eq_refl). assert (0 ≤ (y + c0) / 100) by (apply Z.div_pos; lia).
  replace (m + 1 - 12 * c0 - 3) with (m - 2 - 12 * c0) by lia.
  rewrite !Z.quot_div_nonneg by lia.
  replace (146097 * ((y + c0) / 100) / 4 + 36525 * ((y + c0) mod 100) / 100 + (153 * (m - 2 - 12 * c0) + 2) / 5 +
    (x + 1) + 1721119) with (146097 * ((y + c0) / 100) / 4 + 36525 * ((y + c0) mod 100) / 100 +
    (153 * (m - 2 - 12 * c0) + 2) / 5 + x + 1721120) by lia.
  set (j := _ + 1721120) in *. m_simpl. b_step. by rewrite u32_small by lia.
Qed.

(** ** Dates as instants *)

(** The fields are in range and name a day of the Gregorian calendar. *)
Record calendar_date (d : tt_date_t) : Prop := {
  cd_day : gregorian (tt_date_get_year d) (month d) (mday d);
  cd_year : 0 ≤ year d ≤ 65535 - TT_GREGORIAN_BEGIN;
  cd_hour : 0 ≤ hour d < 24;
  cd_minute : 0 ≤ minute d < 60;
  cd_second : 0 ≤ second d < 60;
  cd_tz : 0 ≤ tz d < TT_TMZONE_NUM;
}.

Definition day_of (d : tt_date_t) : Z := cjdn (tt_date_get_year d) (month d) (mday d).

(** Seconds of local time since the day number 0. *)
Definition instant (d : tt_date_t) : Z := day_of d * 86400 + hour d * 3600 + minute d * 60 + second d.

(** The 29th of February of a year the code holds for a common year. *)
Definition ghost_day (d : tt_date_t) : bool :=
  (tt_date_get_year d mod 3200 =? 0) && (month d =? 1) && (mday d =? 28).

(** The first day after the last year a date can hold. *)
Definition last_day : Z := cjdn 65536 0 0.

Lemma leap_year_ok y : TT_GREGORIAN_BEGIN ≤ y → __leap_year (y - TT_GREGORIAN_BEGIN) = leap y && negb (y mod 3200 =? 0).
Proof.
  intros Hy. unfold __leap_year, __Y_OUT, TT_GREGORIAN_BEGIN in *. replace (y - 1583 + 1583) with y by lia.
  b_false. cbv zeta iota. rewrite !Z.rem_mod_nonneg by lia. done.
Qed.

Lemma month_table {S} (b : bool) m (s : S) : 0 ≤ m < 12 →
  index (if b then __s_daynum_of_leap else __s_daynum_of) m s = Ret (TT_SUCCESS (month_len b m), s).
Proof. intros Hm. each_month Hm; destruct b; reflexivity. Qed.

Lemma date_valid_ok {S} d (s : S) : calendar_date d →
  __date_valid (year d) (month d) (mday d) s = Ret (TT_SUCCESS (negb (ghost_day d)), s).
Proof.
  intros [[Hm Hx] Hy _ _ _ _]. unfold __date_valid, TT_MONTH_VALID, TT_MONTH_NUM. unfold tt_date_get_year, __Y_OUT in *.
  set (y := year d + TT_GREGORIAN_BEGIN) in *. assert (year d = y - TT_GREGORIAN_BEGIN) as -> by (unfold y; lia).
  unfold ghost_day, tt_date_get_year, __Y_OUT. fold y. b_true.
  unfold __daynum_of. rewrite leap_year_ok by (unfold y, TT_GREGORIAN_BEGIN in *; lia).
  cbn [negb]. rewrite (bind_step _ _ _ _ _ (month_table _ _ s Hm)). unfold mret, M_ret, ret. do 3 f_equal.
  unfold month_days, month_len in *. destruct (Z.eqb_spec (month d) 1) as [Em|Em].
  - rewrite Em in *. cbn [andb orb] in *. rewrite andb_true_r.
    assert (y mod 3200 = 0 → leap y = true) as Hl by (intros H3; apply leap_spec; split; [dlia|right; dlia]).
    destruct (Z.eqb_spec (y mod 3200) 0) as [E|E]; cbn [andb negb] in *; rewrite ?andb_true_r, ?andb_false_r in *.
    + rewrite Hl in Hx by done. destruct (Z.eqb_spec (mday d) 28), (Z.leb_spec 28 (mday d)); simpl; (done || lia).
    + destruct (leap y); [b_false|b_false]; done.
  - rewrite andb_false_r. cbn [andb negb]. destruct (_ || _); b_false; done.
Qed.

(** ** Every day number has a date *)

Lemma date_total n : cjdn TT_GREGORIAN_BEGIN 0 0 ≤ n < last_day →
  ∃ y m x, gregorian y m x ∧ TT_GREGORIAN_BEGIN ≤ y ≤ 65535 ∧ cjdn y m x = n.
Proof.
  set (P := λ k, cjdn TT_GREGORIAN_BEGIN 0 0 + k < last_day → ∃ y m x, gregorian y m x ∧
    TT_GREGORIAN_BEGIN ≤ y ≤ 65535 ∧ cjdn y m x = cjdn TT_GREGORIAN_BEGIN 0 0 + k).
  assert (∀ k, 0 ≤ k → P k) as HP.
  { apply natlike_ind.
    - intros _. exists TT_GREGORIAN_BEGIN, 0, 0. split_and!; done.
    - intros k _ IH Hk. unfold P in IH. destruct IH as (y & m & x & Hg & Hy & E); [lia|].
      pose proof (cjdn_next y m x Hg) as Hn. destruct (next_day y m x) as [[y' m'] x'] eqn:En. destruct Hn as [Hg' E'].
      exists y', m', x'. split; [done|]. split; [|lia].
      unfold next_day in En. destruct (_ <? _) in En; [simplify_eq; done|]. destruct (_ <? _) in En; [simplify_eq; done|].
      simplify_eq. split; [lia|]. destruct (decide (y = 65535)) as [->|]; [|lia].
      exfalso. unfold last_day in Hk. change (65535 + 1) with 65536 in E'. lia. }
  intros [Hn1 Hn2]. destruct (HP (n - cjdn TT_GREGORIAN_BEGIN 0 0)) as (y & m & x & ? & ? & ?); [lia..|].
  exists y, m, x. split_and!; (done || lia).
Qed.

Lemma day_bounds d : calendar_date d → 2299239 ≤ day_of d < last_day.
Proof.
  intros [Hg Hy _ _ _ _]. unfold day_of, tt_date_get_year, __Y_OUT in *.
  pose proof (cjdn_bounds _ _ _ Hg ltac:(lia)) as Hb. change last_day with 25657592 in *.
  destruct Hg as [Hm Hx]. pose proof (month_days_range (year d + TT_GREGORIAN_BEGIN) (month d)).
  split; [lia|]. unfold cjdn, TT_GREGORIAN_BEGIN in *. destruct (Z.ltb_spec (month d) 2); dlia.
Qed.

(** [d'] is the date [d] at another instant. *)
Definition shifted (d : tt_date_t) (t : Z) (d' : tt_date_t) : Prop :=
  calendar_date d' ∧ instant d' = t ∧ tz d' = tz d.

(** A change of the instant by whole units leaves the smaller fields alone. *)
Lemma shifted_fields d t d' : calendar_date d → shifted d t d' →
  (t mod 60 = instant d mod 60 → second d' = second d) ∧
  (t mod 3600 = instant d mod 3600 → minute d' = minute d ∧ second d' = second d) ∧
  (t mod 86400 = instant d mod 86400 → hour d' = hour d ∧ minute d' = minute d ∧ second d' = second d).
Proof.
  intros [_ _ ????] ([_ _ ????] & <- & _). unfold instant. split_and!; intros; [|split|split_and!]; dlia.
Qed.

(** The date with the day of [n], which must be one a date can hold. *)
Lemma move_day d n : calendar_date d → cjdn TT_GREGORIAN_BEGIN 0 0 ≤ n < last_day →
  ∃ y m x, __cjdn2ymd n = (y, m, x) ∧ shifted d (instant d + (n - day_of d) * 86400) (with_ymd y m x d).
Proof.
  intros Hd Hn. destruct (date_total n Hn) as (y & m & x & Hg & Hy & <-). pose proof (cjdn2ymd_ok y m x Hg Hy) as E.
  exists (y - TT_GREGORIAN_BEGIN), m, x. split; [done|].
  assert (tt_date_get_year (with_ymd (y - TT_GREGORIAN_BEGIN) m x d) = y) as Ey
    by (unfold tt_date_get_year, __Y_OUT; simpl; lia).
  split_and!; [|unfold instant, day_of; rewrite Ey; simpl; unfold day_of; lia|done].
  destruct Hd. constructor; rewrite ?Ey; simpl; (done || lia).
Qed.

Lemma ymd2cjdn_day {S} d (s : S) : calendar_date d →
  __ymd2cjdn (year d) (month d) (mday d) s = Ret (TT_SUCCESS (day_of d), s).
Proof.
  intros [Hg Hy _ _ _ _]. unfold day_of. pose proof (ymd2cjdn_ok (tt_date_get_year d) (month d) (mday d) s Hg) as E.
  unfold tt_date_get_year, __Y_OUT in *. rewrite Z.add_simpl_r in E. apply E. lia.
Qed.

(** The outcome of a step that moves the date to [d']. *)
Definition moved_to (d' : tt_date_t) : exec (result unit * tt_date_t) :=
  if ghost_day d' then Crash else Ret (TT_SUCCESS tt, d').

Lemma inc_day_ok n d : calendar_date d → 0 ≤ n < 2 ^ 32 → day_of d + n < last_day →
  ∃ d', shifted d (instant d + n * 86400) d' ∧ tt_date_inc_day n d = moved_to d'.
Proof.
  intros Hd Hn Hl. pose proof (day_bounds d Hd) as Hb. change last_day with 25657592 in *.
  destruct (move_day d (day_of d + n) Hd) as (y & m & x & E & Hs).
  { change last_day with 25657592. change (cjdn TT_GREGORIAN_BEGIN 0 0) with 2299239. lia. }
  exists (with_ymd y m x d). split; [by replace (n * 86400) with ((day_of d + n - day_of d) * 86400) by lia|].
  unfold tt_date_inc_day, moved_to. rewrite (bind_step _ _ d d d) by done.
  rewrite (bind_step _ _ _ _ _ (ymd2cjdn_day d d Hd)). rewrite u32_small by lia. b_false. rewrite E.
  rewrite (bind_step _ _ _ tt (with_ymd y m x d)) by done.
  rewrite (bind_step _ _ _ _ _ (date_valid_ok (with_ymd y m x d) (with_ymd y m x d) (proj1 Hs))).
  by destruct (ghost_day _).
Qed.

Lemma dec_day_ok n d : calendar_date d → 0 ≤ n < 2 ^ 32 →
  if day_of d - n <? __s_min_cjdn then tt_date_dec_day n d = Ret (TT_ERROR TT_FAIL, d)
  else ∃ d', shifted d (instant d - n * 86400) d' ∧ tt_date_dec_day n d = moved_to d'.
Proof.
  intros Hd Hn. pose proof (day_bounds d Hd) as Hb. change last_day with 25657592 in *.
  change __s_min_cjdn with 2299240.
  unfold tt_date_dec_day, moved_to. rewrite (bind_step _ _ d d d) by done.
  rewrite (bind_step _ _ _ _ _ (ymd2cjdn_day d d Hd)). change __s_min_cjdn with 2299240.
  assert ((u32 (2299240 + n) <? n) || (day_of d <? u32 (2299240 + n)) = (day_of d - n <? 2299240)) as ->.
  { unfold u32. destruct (Z.ltb_spec (day_of d - n) 2299240);
      destruct (Z.ltb_spec ((2299240 + n) mod 2 ^ 32) n), (Z.ltb_spec (day_of d) ((2299240 + n) mod 2 ^ 32));
      cbn [orb]; try done; exfalso; dlia. }
  destruct (Z.ltb_spec (day_of d - n) 2299240) as [|Hge]; [done|].
  destruct (move_day d (day_of d - n) Hd) as (y & m & x & E & Hs).
  { change last_day with 25657592. change (cjdn TT_GREGORIAN_BEGIN 0 0) with 2299239. lia. }
  exists (with_ymd y m x d). split; [by replace (instant d - n * 86400) with (instant d + (day_of d - n - day_of d) * 86400) by lia|].
  rewrite u32_small by lia. rewrite E. rewrite (bind_step _ _ _ tt (with_ymd y m x d)) by done.
  rewrite (bind_step _ _ _ _ _ (date_valid_ok (with_ymd y m x d) (with_ymd y m x d) (proj1 Hs))).
  by destruct (ghost_day _).
Qed.

(** ** Hours, minutes and seconds *)

Lemma carry_up_ok base f n : 0 ≤ f < base → 2 ≤ base ≤ 60 → 0 ≤ n < 2 ^ 32 →
  ∃ r, carry_up base f n = ((f + n) / base, r) ∧ u8 (f + r) = (f + n) mod base ∧ 0 ≤ (f + n) / base < 2 ^ 32.
Proof.
  intros Hf Hb Hn. unfold carry_up, u8. pose proof (Z_div_mod_eq_full n base) as E.
  pose proof (Z.mod_pos_bound n base ltac:(lia)) as Hr. pose proof (Z.div_pos n base ltac:(lia) ltac:(lia)) as Hq.
  assert (n / base < 2 ^ 31 + 1) as Hq2 by nia.
  destruct (Z.leb_spec base (f + n mod base)) as [H|H].
  - assert ((f + n) / base = n / base + 1) as Ed by (symmetry; apply (Z.div_unique_pos _ _ _ (f + n mod base - base)); lia).
    assert ((f + n) mod base = f + n mod base - base) as Em by (symmetry; apply (Z.mod_unique_pos _ _ (n / base + 1)); lia).
    rewrite Ed, Em. eexists. rewrite u32_small by lia. split; [done|]. split; [|lia].
    unfold u32. change (2 ^ 8) with 256. change (2 ^ 32) with 4294967296. dlia.
  - assert ((f + n) / base = n / base) as Ed by (symmetry; apply (Z.div_unique_pos _ _ _ (f + n mod base)); lia).
    assert ((f + n) mod base = f + n mod base) as Em by (symmetry; apply (Z.mod_unique_pos _ _ (n / base)); lia).
    rewrite Ed, Em. eexists. split; [done|]. split; [|lia]. change (2 ^ 8) with 256. rewrite Z.mod_small; lia.
Qed.

Lemma carry_down_ok base f n : 0 ≤ f < base → 2 ≤ base ≤ 60 → 0 ≤ n < 2 ^ 32 →
  ∃ r, carry_down base f n = (- ((f - n) / base), r) ∧ u8 (f - r) = (f - n) mod base ∧ 0 ≤ - ((f - n) / base) < 2 ^ 32.
Proof.
  intros Hf Hb Hn. unfold carry_down, u8. pose proof (Z_div_mod_eq_full n base) as E.
  pose proof (Z.mod_pos_bound n base ltac:(lia)) as Hr. pose proof (Z.div_pos n base ltac:(lia) ltac:(lia)) as Hq.
  assert (n / base < 2 ^ 31 + 1) as Hq2 by nia.
  destruct (Z.ltb_spec f (n mod base)) as [H|H].
  - assert ((f - n) / base = - (n / base + 1)) as Ed by (symmetry; apply (Z.div_unique_pos _ _ _ (f - n mod base + base)); lia).
    assert ((f - n) mod base = f - n mod base + base) as Em by (symmetry; apply (Z.mod_unique_pos _ _ (- (n / base + 1))); lia).
    rewrite Ed, Em, Z.opp_involutive. eexists. rewrite u32_small by lia. split; [done|]. split; [|lia].
    unfold u32. change (2 ^ 8) with 256. change (2 ^ 32) with 4294967296. dlia.
  - assert ((f - n) / base = - (n / base)) as Ed by (symmetry; apply (Z.div_unique_pos _ _ _ (f - n mod base)); lia).
    assert ((f - n) mod base = f - n mod base) as Em by (symmetry; apply (Z.mod_unique_pos _ _ (- (n / base))); lia).
    rewrite Ed, Em, Z.opp_involutive. eexists. split; [done|]. split; [|lia]. change (2 ^ 8) with 256.
    rewrite Z.mod_small; lia.
Qed.

(** A step that fails keeps the date. *)
Definition step_up (unit_ : Z) (step : Z → M tt_date_t unit) : Prop := ∀ n d,
  calendar_date d → 0 ≤ n < 2 ^ 32 → instant d + n * unit_ < last_day * 86400 →
  ∃ d', shifted d (instant d + n * unit_) d' ∧ step n d = moved_to d'.
Definition step_down (unit_ : Z) (step : Z → M tt_date_t unit) : Prop := ∀ n d,
  calendar_date d → 0 ≤ n < 2 ^ 32 →
  if instant d - n * unit_ <? __s_min_cjdn * 86400 then step n d = Ret (TT_ERROR TT_FAIL, d)
  else ∃ d', shifted d (instant d - n * unit_) d' ∧ step n d = moved_to d'.

(** What the arithmetic needs of a field with [base] values that counts [sub]
    seconds. *)
Record time_field (fld : tt_date_t → Z) (upd : Z → tt_date_t → tt_date_t) (base sub : Z) : Prop := {
  tf_base : 2 ≤ base ≤ 60;
  tf_sub : 0 < sub;
  tf_day : (base * sub | 86400);
  tf_range d : calendar_date d → 0 ≤ fld d < base;
  tf_upd d v : calendar_date d → 0 ≤ v < base → calendar_date (upd v d);
  tf_instant d v : instant (upd v d) = instant d + (v - fld d) * sub;
  tf_tz d v : tz (upd v d) = tz d;
  tf_ghost d v : ghost_day (upd v d) = ghost_day d;
  tf_keep d k d1 : calendar_date d → shifted d (instant d + k * (base * sub)) d1 → fld d1 = fld d;
  tf_low d : calendar_date d → ∃ q r, instant d = (q * base + fld d) * sub + r ∧ 0 ≤ r < sub;
}.

Lemma hour_field : time_field hour with_hour 24 3600.
Proof.
  split; try lia; [by exists 1|by intros ? []|..].
  - intros d v [] Hv. by constructor.
  - intros d v. unfold instant, day_of. simpl. unfold tt_date_get_year. simpl. lia.
  - done.
  - done.
  - intros d k d1 Hd Hs. pose proof (shifted_fields d _ d1 Hd Hs) as (_ & _ & H). apply H. dlia.
  - intros d []. exists (day_of d), (minute d * 60 + second d). unfold instant. lia.
Qed.
Lemma minute_field : time_field minute with_minute 60 60.
Proof.
  split; try lia; [by exists 24|by intros ? []|..].
  - intros d v [] Hv. by constructor.
  - intros d v. unfold instant, day_of. simpl. unfold tt_date_get_year. simpl. lia.
  - done.
  - done.
  - intros d k d1 Hd Hs. pose proof (shifted_fields d _ d1 Hd Hs) as (_ & H & _). apply H. dlia.
  - intros d []. exists (day_of d * 24 + hour d), (second d). unfold instant. lia.
Qed.
Lemma second_field : time_field second with_second 60 1.
Proof.
  split; try lia; [by exists 1440|by intros ? []|..].
  - intros d v [] Hv. by constructor.
  - intros d v. unfold instant, day_of. simpl. unfold tt_date_get_year. simpl. lia.
  - done.
  - done.
  - intros d k d1 Hd Hs. pose proof (shifted_fields d _ d1 Hd Hs) as (H & _). apply H. dlia.
  - intros d []. exists (day_of d * 1440 + hour d * 60 + minute d), 0. unfold instant. lia.
Qed.

Lemma block_lt u a b x : 0 < u → 0 ≤ x < u → a * u + x < b * u ↔ a < b.
Proof. intros Hu Hx. split; intros H; nia. Qed.

(** The instant after the larger units have moved, and after all of the move, in
    blocks of the larger unit. *)
Lemma blocks base sub f n q w t : 2 ≤ base → 0 < sub → t = f + n → 0 ≤ f < base → 0 ≤ w < sub →
  0 < base * sub ∧ 0 ≤ f * sub + w < base * sub ∧ 0 ≤ t mod base * sub + w < base * sub ∧
  (q * base + f) * sub + w + t / base * (base * sub) = (q + t / base) * (base * sub) + (f * sub + w) ∧
  (q * base + f) * sub + w + n * sub = (q + t / base) * (base * sub) + (t mod base * sub + w).
Proof.
  intros Hb Hs Et Hf Hw. pose proof (Z_div_mod_eq_full t base) as Ed. pose proof (Z.mod_pos_bound t base ltac:(lia)) as Hm.
  split_and!; [nia..|ring|]. replace n with (t - f) by lia. rewrite Ed at 1. ring.
Qed.

Section field.
Context {fld : tt_date_t → Z} {upd : Z → tt_date_t → tt_date_t} {base sub : Z}.
Hypothesis field : time_field fld upd base sub.
Context (inner : Z → M tt_date_t unit).

(** The shape of the functions: carry, move the larger units, set the field. *)
Definition shift_up (n : Z) : M tt_date_t unit :=
  d ← gets id;
  let '(c, n) := carry_up base (fld d) n in
  do_r TT_FAIL (inner c);;
  modify (λ d, upd (u8 (fld d + n)) d).
Definition shift_down (n : Z) : M tt_date_t unit :=
  d ← gets id;
  let '(c, n) := carry_down base (fld d) n in
  do_r TT_FAIL (inner c);;
  modify (λ d, upd (u8 (fld d - n)) d).

(** The larger units have moved by [c]; the field is set to what is left. *)
Lemma set_field d d1 t c : calendar_date d → shifted d (instant d + c * (base * sub)) d1 →
  fld d + t = c * base + (fld d + t) mod base →
  fld d1 = fld d ∧ shifted d (instant d + t * sub) (upd ((fld d + t) mod base) d1).
Proof.
  intros Hd Hs Ht. pose proof (tf_keep _ _ _ _ field d c d1 Hd Hs) as Hk. split; [done|].
  destruct Hs as (Hd1 & Hi & Htz). pose proof (tf_base _ _ _ _ field).
  split_and!; [apply (tf_upd _ _ _ _ field); [done|apply Z.mod_pos_bound; lia]| |by rewrite (tf_tz _ _ _ _ field)].
  rewrite (tf_instant _ _ _ _ field), Hi, Hk. nia.
Qed.

Lemma shift_up_ok : step_up (base * sub) inner → step_up sub shift_up.
Proof.
  intros Hin n d Hd Hn Hl. pose proof (tf_base _ _ _ _ field) as Hb.
  destruct (carry_up_ok base (fld d) n) as (r & E & Er & Hc); [by apply (tf_range _ _ _ _ field)|done|done|].
  pose proof (Z_div_mod_eq_full (fld d + n) base) as Ed. pose proof (Z.mod_pos_bound (fld d + n) base ltac:(lia)) as Hm.
  destruct (Hin ((fld d + n) / base) d Hd Hc) as (d1 & Hs1 & E1).
  { destruct (tf_low _ _ _ _ field d Hd) as (q & w & Ei & Hw), (tf_day _ _ _ _ field) as [k Hk].
    assert (last_day * 86400 = last_day * k * (base * sub)) as Ek by (by rewrite Hk, Z.mul_assoc).
    rewrite Ek in *. rewrite Ei in *. pose proof (tf_range _ _ _ _ field d Hd) as Hf.
    destruct (blocks base sub (fld d) n q w (fld d + n)) as (Hu & Hx & Hx' & E1 & E2); [lia|apply field|done..|].
    rewrite E1. apply block_lt; [done|done|]. rewrite E2 in Hl. by apply block_lt in Hl. }
  destruct (set_field d d1 n ((fld d + n) / base) Hd Hs1) as [Ek Hs]; [by rewrite Z.mul_comm|]. eexists. split; [exact Hs|].
  unfold shift_up. rewrite (bind_step _ _ d d d) by done. rewrite E. unfold moved_to in *.
  rewrite (tf_ghost _ _ _ _ field). m_simpl. rewrite E1. destruct (ghost_day d1); [done|]. by rewrite Ek, Er.
Qed.

Lemma shift_down_ok : step_down (base * sub) inner → step_down sub shift_down.
Proof.
  intros Hin n d Hd Hn. pose proof (tf_base _ _ _ _ field) as Hb.
  destruct (carry_down_ok base (fld d) n) as (r & E & Er & Hc); [by apply (tf_range _ _ _ _ field)|done|done|].
  pose proof (Z_div_mod_eq_full (fld d - n) base) as Ed. pose proof (Z.mod_pos_bound (fld d - n) base ltac:(lia)) as Hm.
  specialize (Hin (- ((fld d - n) / base)) d Hd Hc).
  assert ((instant d - - ((fld d - n) / base) * (base * sub) <? __s_min_cjdn * 86400) =
    (instant d - n * sub <? __s_min_cjdn * 86400)) as Eb.
  { destruct (tf_low _ _ _ _ field d Hd) as (q & w & Ei & Hw), (tf_day _ _ _ _ field) as [k Hk].
    assert (__s_min_cjdn * 86400 = __s_min_cjdn * k * (base * sub)) as -> by (by rewrite Hk, Z.mul_assoc).
    rewrite Ei. pose proof (tf_range _ _ _ _ field d Hd) as Hf.
    destruct (blocks base sub (fld d) (- n) q w (fld d - n)) as (Hu & Hx & Hx' & E1 & E2); [lia|apply field|lia|done..|].
    replace ((q * base + fld d) * sub + w - - ((fld d - n) / base) * (base * sub))
      with ((q * base + fld d) * sub + w + (fld d - n) / base * (base * sub)) by ring.
    replace ((q * base + fld d) * sub + w - n * sub) with ((q * base + fld d) * sub + w + - n * sub) by ring.
    rewrite E1, E2. apply eq_true_iff_eq. rewrite !Z.ltb_lt. by rewrite !block_lt. }
  rewrite Eb in Hin. destruct (_ <? _).
  - unfold shift_down. rewrite (bind_step _ _ d d d) by done. rewrite E. apply bind_error. by eapply do_r_error.
  - destruct Hin as (d1 & Hs1 & E1). destruct (set_field d d1 (- n) ((fld d - n) / base) Hd) as [Ek Hs].
    { replace (instant d + (fld d - n) / base * (base * sub)) with (instant d - - ((fld d - n) / base) * (base * sub)) by lia.
      done. }
    { by rewrite Z.add_opp_r, Z.mul_comm. }
    rewrite Z.add_opp_r in Hs. eexists. split; [replace (instant d - n * sub) with (instant d + - n * sub) by lia; exact Hs|].
    unfold shift_down. rewrite (bind_step _ _ d d d) by done. rewrite E. unfold moved_to in *.
    rewrite (tf_ghost _ _ _ _ field). m_simpl. rewrite E1. destruct (ghost_day d1); [done|]. by rewrite Ek, Er.
Qed.
End field.

(** The check of the date at the end of the hour functions passes. *)
Lemma check_moved (m : M tt_date_t unit) d d' : calendar_date d' → m d = moved_to d' →
  (m;; d ← gets id; v ← __date_valid (year d) (month d) (mday d); assert_always v) d = moved_to d'.
Proof.
  intros Hd' E. unfold moved_to in *. pose proof (date_valid_ok d' d' Hd') as Ev.
  m_simpl. rewrite E. destruct (ghost_day d'); [done|]. m_simpl_in Ev. by rewrite Ev.
Qed.

Lemma inc_hour_shape n d : tt_date_inc_hour n d =
  (shift_up (fld := hour) (upd := with_hour) (base := 24) tt_date_inc_day n;;
   d ← gets id; v ← __date_valid (year d) (month d) (mday d); assert_always v) d.
Proof.
  unfold tt_date_inc_hour, shift_up. m_simpl. destruct (carry_up 24 (hour d) n) as [c r].
  by destruct (tt_date_inc_day c d) as [[[] ]| | |].
Qed.
Lemma dec_hour_shape n d : tt_date_dec_hour n d =
  (shift_down (fld := hour) (upd := with_hour) (base := 24) tt_date_dec_day n;;
   d ← gets id; v ← __date_valid (year d) (month d) (mday d); assert_always v) d.
Proof.
  unfold tt_date_dec_hour, shift_down. m_simpl. destruct (carry_down 24 (hour d) n) as [c r].
  by destruct (tt_date_dec_day c d) as [[[] ]| | |].
Qed.

Lemma inc_hour_ok : step_up 3600 tt_date_inc_hour.
Proof.
  intros n d Hd Hn Hl. destruct (shift_up_ok hour_field tt_date_inc_day) with n d as (d' & Hs & E); try done.
  { intros k e He Hk Hle. apply inc_day_ok; [done|done|]. unfold instant in Hle. destruct He. lia. }
  exists d'. split; [done|]. rewrite inc_hour_shape. apply check_moved; [apply Hs|done].
Qed.
Lemma inc_minute_ok : step_up 60 tt_date_inc_minute.
Proof. apply (shift_up_ok minute_field tt_date_inc_hour), inc_hour_ok. Qed.
Lemma inc_second_ok : step_up 1 tt_date_inc_second.
Proof. apply (shift_up_ok second_field tt_date_inc_minute), inc_minute_ok. Qed.

Lemma dec_day_step : step_down 86400 tt_date_dec_day.
Proof.
  intros n d Hd Hn. pose proof (dec_day_ok n d Hd Hn) as H.
  replace (instant d - n * 86400 <? __s_min_cjdn * 86400) with (day_of d - n <? __s_min_cjdn); [done|].
  destruct Hd. unfold instant. destruct (Z.ltb_spec (day_of d - n) __s_min_cjdn), (Z.ltb_spec
    (day_of d * 86400 + hour d * 3600 + minute d * 60 + second d - n * 86400) (__s_min_cjdn * 86400)); lia.
Qed.
Lemma dec_hour_ok : step_down 3600 tt_date_dec_hour.
Proof.
  intros n d Hd Hn. pose proof (shift_down_ok hour_field tt_date_dec_day dec_day_step n d Hd Hn) as H.
  rewrite dec_hour_shape. destruct (_ <? _); [by apply bind_error|]. destruct H as (d' & Hs & E).
  exists d'. split; [done|]. apply check_moved; [apply Hs|done].
Qed.
Lemma dec_minute_ok : step_down 60 tt_date_dec_minute.
Proof. apply (shift_down_ok minute_field tt_date_dec_hour), dec_hour_ok. Qed.
Lemma dec_second_ok : step_down 1 tt_date_dec_second.
Proof. apply (shift_down_ok second_field tt_date_dec_minute), dec_minute_ok. Qed.

(** ** Time zones *)

Definition offset_of (z : Z) : Z := default 0 (__tmzone_offset !! Z.to_nat z).

Lemma tmzone2offsec_ok {S} z (s : S) : 0 ≤ z < TT_TMZONE_NUM →
  tt_tmzone2offsec z s = Ret (TT_SUCCESS (offset_of z), s).
Proof.
  unfold TT_TMZONE_NUM. intros Hz. unfold tt_tmzone2offsec, TT_TMZONE_VALID, TT_TMZONE_NUM, index, offset_of.
  m_simpl. b_true. b_false.
  destruct (lookup_lt_is_Some_2 __tmzone_offset (Z.to_nat z)) as [x ->]; [simpl; lia|done].
Qed.
Lemma offset_range z : -43200 ≤ offset_of z ≤ 50400.
Proof.
  unfold offset_of. destruct (__tmzone_offset !! Z.to_nat z) as [x|] eqn:E; simpl; [|lia].
  assert (Forall (λ x, -43200 ≤ x ≤ 50400) __tmzone_offset) as Hf by (unfold __tmzone_offset, SEC; repeat constructor; lia).
  by apply (Forall_lookup_1 _ _ _ _ Hf E).
Qed.

(** Seconds of universal time. *)
Definition utc (d : tt_date_t) : Z := instant d - offset_of (tz d).

Lemma ghost_tz z d : ghost_day (with_tz z d) = ghost_day d.
Proof. done. Qed.
Lemma moved_tz z d (step : M tt_date_t unit) d1 : step d = moved_to d1 →
  (step;; modify (with_tz z)) d = moved_to (with_tz z d1).
Proof. unfold moved_to. rewrite ghost_tz. m_simpl. intros ->. by destruct (ghost_day d1). Qed.

Lemma change_tmzone_ok z d : calendar_date d → 0 ≤ z < TT_TMZONE_NUM → utc d + offset_of z < last_day * 86400 →
  if (offset_of z <? offset_of (tz d)) && (utc d + offset_of z <? __s_min_cjdn * 86400)
  then tt_date_change_tmzone z d = Ret (TT_ERROR TT_FAIL, d)
  else ∃ d', calendar_date d' ∧ utc d' = utc d ∧ tz d' = z ∧ tt_date_change_tmzone z d = moved_to d'.
Proof.
  intros Hd Hz Hl. pose proof (offset_range z) as Hr. pose proof (offset_range (tz d)) as Hr'.
  assert (∀ d1, shifted d (utc d + offset_of z) d1 →
    calendar_date (with_tz z d1) ∧ utc (with_tz z d1) = utc d ∧ tz (with_tz z d1) = z) as Hfin.
  { intros d1 (Hd1 & Hi & _). split_and!; [|unfold utc in *; change (instant (with_tz z d1)) with (instant d1); simpl; lia|done].
    destruct Hd1. by constructor. }
  unfold tt_date_change_tmzone, TT_TMZONE_VALID. unfold utc in *.
  replace (z <=? TT_TMZONE_NUM) with true by (symmetry; apply Z.leb_le; lia).
  rewrite (bind_step _ _ d tt d) by done. rewrite (bind_step _ _ d d d) by done.
  rewrite (bind_step _ _ _ _ _ (tmzone2offsec_ok (tz d) d ltac:(apply Hd))), (bind_step _ _ _ _ _ (tmzone2offsec_ok z d Hz)).
  destruct (Z.ltb_spec (offset_of z) (offset_of (tz d))) as [H|H].
  - replace (offset_of (tz d) <=? offset_of z) with false by (symmetry; apply Z.leb_gt; lia). rewrite u32_small by lia.
    pose proof (dec_second_ok (offset_of (tz d) - offset_of z) d Hd ltac:(lia)) as Hs. rewrite Z.mul_1_r in Hs.
    replace (instant d - (offset_of (tz d) - offset_of z)) with (instant d - offset_of (tz d) + offset_of z) in Hs by lia.
    cbn [andb]. destruct (_ <? _); [by apply bind_error|]. destruct Hs as (d1 & Hs & E).
    exists (with_tz z d1). destruct (Hfin d1 Hs) as (? & ? & ?). split_and!; try done. by apply moved_tz.
  - replace (offset_of (tz d) <=? offset_of z) with true by (symmetry; apply Z.leb_le; lia). rewrite u32_small by lia.
    cbn [andb]. destruct (inc_second_ok (offset_of z - offset_of (tz d)) d Hd ltac:(lia)) as (d1 & Hs & E); [lia|].
    rewrite Z.mul_1_r in Hs. replace (instant d + (offset_of z - offset_of (tz d))) with (instant d - offset_of (tz d) + offset_of z) in Hs by lia.
    exists (with_tz z d1). destruct (Hfin d1 Hs) as (? & ? & ?). split_and!; try done. by apply moved_tz.
Qed.

(** A date is known by its instant and its time zone. *)
Lemma calendar_unique d d' : calendar_date d → calendar_date d' → instant d = instant d' → tz d = tz d' → d = d'.
Proof.
  intros Hd Hd' Hi Ht. assert (day_of d = day_of d' ∧ hour d = hour d' ∧ minute d = minute d' ∧ second d = second d') as (E & ? & ? & ?).
  { destruct Hd, Hd'. unfold instant in Hi. split_and!; dlia. }
  unfold day_of in E. destruct Hd as [Hg Hy _ _ _ _], Hd' as [Hg' Hy' _ _ _ _].
  pose proof (cjdn2ymd_ok _ _ _ Hg ltac:(unfold tt_date_get_year, __Y_OUT; lia)) as E1.
  pose proof (cjdn2ymd_ok _ _ _ Hg' ltac:(unfold tt_date_get_year, __Y_OUT; lia)) as E2.
  rewrite E, E2 in E1. unfold tt_date_get_year, __Y_OUT in E1. rewrite !Z.add_simpl_r in E1. injection E1 as ???.
  destruct d, d'; simpl in *; congruence.
Qed.

(** ** Differences *)

(** The date exists in UTC and no step of the code on the way fails. *)
Definition in_utc (d u : tt_date_t) : Prop :=
  calendar_date u ∧ utc u = utc d ∧ tz u = TT_UTC_00_00 ∧ ghost_day u = false ∧ __s_min_cjdn ≤ day_of u.

Lemma change_to_utc d u : calendar_date d → in_utc d u → tt_date_change_tmzone TT_UTC_00_00 d = Ret (TT_SUCCESS tt, u).
Proof.
  intros Hd (Hu & Hut & Ht & Hg & Hm). pose proof (change_tmzone_ok TT_UTC_00_00 d Hd ltac:(done)) as Hc.
  assert (offset_of TT_UTC_00_00 = 0) as Eo by reflexivity. rewrite Eo, Z.add_0_r in Hc.
  assert (utc u = instant u) as Eu by (unfold utc; rewrite Ht, Eo; lia).
  pose proof (day_bounds u Hu). assert (instant u < last_day * 86400 ∧ __s_min_cjdn * 86400 ≤ instant u) as [H1 H2].
  { destruct Hu. unfold instant. lia. }
  specialize (Hc ltac:(lia)).
  replace (utc d <? __s_min_cjdn * 86400) with false in Hc by (symmetry; apply Z.ltb_ge; lia). rewrite andb_false_r in Hc.
  destruct Hc as (d' & Hd' & Hut' & Ht' & E).
  assert (d' = u) as ->.
  { apply calendar_unique; [done|done| |congruence]. unfold utc in Hut, Hut'. rewrite Ht, Ht' in *. lia. }
  rewrite E. unfold moved_to. by rewrite Hg.
Qed.

Lemma utc_cjdn_ok d u s : calendar_date d → in_utc d u → utc_cjdn d s = Ret (TT_SUCCESS (u, day_of u), s).
Proof.
  intros Hd Hu. unfold utc_cjdn. rewrite (bind_step _ _ s (TT_SUCCESS tt, u) s).
  - rewrite (bind_step _ _ _ _ _ (ymd2cjdn_day u s (proj1 Hu))). done.
  - unfold on_copy. by rewrite (change_to_utc d u Hd Hu).
Qed.

Lemma epoch_ok s : epoch_date s = Ret (TT_SUCCESS (mk_date (__Y_IN 1970) 0 0 0 0 0 TT_UTC_00_00), s).
Proof. by destruct s. Qed.

Lemma s32_small x : - 2 ^ 31 ≤ x < 2 ^ 31 → s32 x = x.
Proof.
  intros Hx. unfold s32, u32. cbv zeta. destruct (Z.ltb_spec (x mod 2 ^ 32) (2 ^ 31)) as [H|H];
    change (2 ^ 32) with 4294967296 in *; change (2 ^ 31) with 2147483648 in *; dlia.
Qed.

Lemma diff_ok a b ua ub s : calendar_date a → calendar_date b → in_utc a ua → in_utc b ub →
  tt_date_diff_second a b s = Ret (TT_SUCCESS (utc a - utc b), s) ∧
  tt_date_diff_day a b s = Ret (TT_SUCCESS (utc a / 86400 - utc b / 86400), s).
Proof.
  intros Ha Hb Hua Hub. unfold tt_date_diff_second, tt_date_diff_day.
  rewrite !(bind_step _ _ _ _ _ (utc_cjdn_ok a ua s Ha Hua)), !(bind_step _ _ _ _ _ (utc_cjdn_ok b ub s Hb Hub)).
  destruct Hua as (Ca & Ea & Ta & _), Hub as (Cb & Eb & Tb & _).
  pose proof (day_bounds ua Ca). pose proof (day_bounds ub Cb). change last_day with 25657592 in *.
  unfold utc in Ea, Eb. rewrite Ta in Ea. rewrite Tb in Eb. change (offset_of TT_UTC_00_00) with 0 in *.
  fold (utc a) in Ea. fold (utc b) in Eb. unfold mret, M_ret, ret. rewrite s32_small by lia.
  rewrite <- Ea, <- Eb. split; do 3 f_equal; [unfold instant; lia|]. unfold instant. destruct Ca, Cb. dlia.
Qed.

(** ** Fields *)

(** The year [y - 1] that the code takes in March lacks a leap day of [y]. *)
Lemma year_number y : 1 ≤ y → y + y / 4 - y / 100 + y / 400 =
  (y - 1) + (y - 1) / 4 - (y - 1) / 100 + (y - 1) / 400 + (if leap y then 2 else 1).
Proof.
  intros Hy. assert (leap y = true ↔ y mod 4 = 0 ∧ (y mod 100 ≠ 0 ∨ y mod 400 = 0)) as Hl by apply leap_spec.
  destruct (leap y).
  - destruct Hl as [Hl _]. destruct (Hl eq_refl) as [H4 [Hn|Hn]]; dlia.
  - assert (y mod 4 ≠ 0 ∨ (y mod 100 = 0 ∧ y mod 400 ≠ 0)) as Hn.
    { destruct (decide (y mod 4 = 0)), (decide (y mod 100 = 0)), (decide (y mod 400 = 0)); try tauto.
      all: exfalso; assert (false = true); [apply Hl; tauto|done]. }
    clear Hl. destruct Hn as [Hn|[Hn Hn']]; dlia.
Qed.

Lemma days_formula y : 0 ≤ y → 146097 * (y / 100) / 4 + 36525 * (y mod 100) / 100 = 365 * y + y / 4 - y / 100 + y / 400.
Proof.
  intros Hy. pose proof (Z_div_mod_eq_full y 100) as E. pose proof (Z.mod_pos_bound y 100 eq_refl) as Hr.
  assert (y / 4 = 25 * (y / 100) + y mod 100 / 4) as H4 by dlia.
  assert (y / 400 = y / 100 / 4) as -> by (rewrite Z.div_div; done).
  set (q := y / 100) in *. set (r := y mod 100) in *. rewrite H4. clearbody q r.
  replace (146097 * q) with (q + 36524 * q * 4) by lia. replace (36525 * r) with (25 * r + 365 * r * 100) by lia.
  rewrite !Z.div_add by lia. assert (25 * r / 100 = r / 4) as -> by dlia. lia.
Qed.

(** The weekday of the calendar: the day number 0 was a Monday. *)
Definition weekday_of (d : tt_date_t) : Z := (day_of d + 1) mod 7.

(** How far the code is off. *)
Definition weekday_error (d : tt_date_t) : Z :=
  if month d =? TT_MARCH then if leap (tt_date_get_year d) then 2 else 1 else 0.

Lemma get_weekday_ok d : calendar_date d →
  tt_date_get_weekday d = Ret (TT_SUCCESS ((weekday_of d - weekday_error d) mod 7), d).
Proof.
  intros [[Hm Hx] Hy _ _ _ _]. unfold tt_date_get_weekday, weekday_of, weekday_error, day_of, TT_MARCH.
  rewrite (bind_step _ _ d d d) by done. fold (tt_date_get_year d).
  pose proof (month_days_range (tt_date_get_year d) (month d)) as Hd.
  assert (1583 ≤ tt_date_get_year d ≤ 65535) as HY by (unfold tt_date_get_year, __Y_OUT, TT_GREGORIAN_BEGIN in *; lia).
  set (y := tt_date_get_year d) in *. clearbody y. set (x := mday d) in *. clearbody x.
  pose proof (days_formula y ltac:(lia)) as F. pose proof (days_formula (y - 1) ltac:(lia)) as F1.
  pose proof (year_number y ltac:(lia)) as N.
  set (w := y + y / 4 - y / 100 + y / 400) in *. set (w1 := y - 1 + (y - 1) / 4 - (y - 1) / 100 + (y - 1) / 400) in *.
  assert (0 ≤ w < 2 ^ 31 ∧ 0 ≤ w1 < 2 ^ 31) as [Hw Hw1] by (unfold w, w1; split; dlia).
  assert (146097 * (y / 100) / 4 + 36525 * (y mod 100) / 100 = 364 * y + w) as G by (unfold w; lia).
  assert (146097 * ((y - 1) / 100) / 4 + 36525 * ((y - 1) mod 100) / 100 = 364 * (y - 1) + w1) as G1 by (unfold w1; lia).
  unfold __MDAY_OUT.
  assert (u32 (y - 1) = y - 1 ∧ u32 (y - 0) = y) as [U1 U0] by (rewrite !u32_small by lia; lia).
  unfold cjdn.
  each_month Hm; cbn [Z.ltb Z.eqb Z.compare Pos.compare Pos.compare_cont Pos.eqb];
    (erewrite bind_step; [|unfold index; simpl; reflexivity]); unfold mret, M_ret, ret; do 3 f_equal;
    rewrite ?U1, ?U0; fold w w1; rewrite ?Z.add_0_r; change (y + -1) with (y - 1); rewrite ?G, ?G1;
    clearbody w w1; rewrite u32_small by lia; clear -N; destruct (leap y); dlia.
Qed.

(** ** Days of the year *)

Lemma cjdn_day y m x : cjdn y m x = cjdn y m 0 + x.
Proof. unfold cjdn. lia. Qed.
Lemma cjdn_month y m : 0 ≤ m < 11 → cjdn y (m + 1) 0 = cjdn y m 0 + month_days y m.
Proof.
  intros Hm. pose proof (month_days_range y m). pose proof (cjdn_next y m (month_days y m - 1)) as H'.
  unfold next_day in H'. rewrite (proj2 (Z.ltb_ge _ _)), (proj2 (Z.ltb_lt _ _)) in H' by lia.
  destruct H' as [_ ->]; [split; lia|]. rewrite (cjdn_day y m (_ - 1)). lia.
Qed.
Lemma cjdn_year y : cjdn (y + 1) 0 0 = cjdn y 11 0 + 31.
Proof. pose proof (cjdn_next y 11 30) as H. unfold gregorian, next_day, month_days, month_len in H. simpl in H. destruct H as [_ ->]; [lia|]. rewrite (cjdn_day y 11 30). lia. Qed.

Lemma yearday_loop_ok y d n fuel : ∀ m k, 0 ≤ m < 12 → 0 ≤ k < 366 → cjdn y m 0 + k = n → n < cjdn (y + 1) 0 0 →
  11 - m < Z.of_nat fuel →
  ∃ m' x, yearday_loop (if leap y then __s_daynum_of_leap else __s_daynum_of) k m fuel d =
      Ret (TT_SUCCESS tt, with_month m' (with_mday x d)) ∧ gregorian y m' x ∧ cjdn y m' x = n.
Proof.
  induction fuel as [|fuel IH]; intros m k Hm Hk Hn Hl Hf; [lia|]. cbn [yearday_loop]. unfold TT_DECEMBER. b_true.
  rewrite (bind_step _ _ _ _ _ (month_table _ _ d Hm)). fold (month_days y m).
  pose proof (month_days_range y m) as Hr. destruct (Z.ltb_spec k (month_days y m)) as [H|H].
  - exists m, k. split; [|split; [split; lia|by rewrite cjdn_day]]. unfold modify, u8. by rewrite Z.mod_small by lia.
  - destruct (decide (m = 11)) as [->|Hm']; [rewrite cjdn_year in Hl; unfold month_days, month_len in H; simpl in H; lia|].
    rewrite u32_small by lia. apply IH; [lia|lia| |done|lia]. rewrite cjdn_month by lia. lia.
Qed.

Lemma year_span y : cjdn (y + 1) 0 0 = cjdn y 0 0 + (if leap y then 366 else 365).
Proof.
  rewrite cjdn_year. rewrite (cjdn_month y 10 ltac:(lia) : cjdn y 11 0 = _). 
  rewrite (cjdn_month y 9 ltac:(lia) : cjdn y 10 0 = _), (cjdn_month y 8 ltac:(lia) : cjdn y 9 0 = _),
    (cjdn_month y 7 ltac:(lia) : cjdn y 8 0 = _), (cjdn_month y 6 ltac:(lia) : cjdn y 7 0 = _),
    (cjdn_month y 5 ltac:(lia) : cjdn y 6 0 = _), (cjdn_month y 4 ltac:(lia) : cjdn y 5 0 = _),
    (cjdn_month y 3 ltac:(lia) : cjdn y 4 0 = _), (cjdn_month y 2 ltac:(lia) : cjdn y 3 0 = _),
    (cjdn_month y 1 ltac:(lia) : cjdn y 2 0 = _), (cjdn_month y 0 ltac:(lia) : cjdn y 1 0 = _).
  unfold month_days, month_len. simpl. destruct (leap y); lia.
Qed.

Lemma set_yearday_ok d n : calendar_date d → tt_date_get_year d mod 3200 ≠ 0 → 0 ≤ n →
  let y := tt_date_get_year d in
  if n <? (if leap y then 366 else 365)
  then ∃ m x, tt_date_set_yearday n d = Ret (TT_SUCCESS tt, with_month m (with_mday x d)) ∧ gregorian y m x ∧
    cjdn y m x = cjdn y 0 0 + n
  else tt_date_set_yearday n d = Ret (TT_ERROR TT_FAIL, d).
Proof.
  intros Hd Hg Hn y. unfold tt_date_set_yearday, __daynum_of. pose proof (cd_year _ Hd) as Hy.
  assert (__leap_year (year d) = leap y) as El.
  { pose proof (leap_year_ok y) as E. unfold y, tt_date_get_year, __Y_OUT in *. rewrite Z.add_simpl_r in E.
    rewrite E by lia. rewrite (proj2 (Z.eqb_neq _ _)) by done. by rewrite andb_true_r. }
  pose proof (year_span y) as Hs.
  destruct (Z.ltb_spec 365 n) as [H|H].
  { rewrite (proj2 (Z.ltb_ge _ _)); [done|]. destruct (leap y); lia. }
  rewrite (bind_step _ _ d d d) by done. rewrite El. destruct (leap y) eqn:E; cbn [negb andb].
  - b_true. destruct (yearday_loop_ok y d (cjdn y 0 0 + n) 13 0 n) as (m & x & El' & Hgr & Hc); [lia..|].
    rewrite E in El'. by exists m, x.
  - destruct (Z.eqb_spec n 365) as [->|Hne]; [done|]. b_true.
    destruct (yearday_loop_ok y d (cjdn y 0 0 + n) 13 0 n) as (m & x & El' & Hgr & Hc); [lia..|].
    rewrite E in El'. by exists m, x.
Qed.

Lemma before_table y m : 0 ≤ m < 12 → (∀ S (s : S),
  index (if leap y then __s_daynum_before_leap else __s_daynum_before) m s = Ret (TT_SUCCESS (cjdn y m 0 - cjdn y 0 0), s)).
Proof.
  intros Hm S s.
  assert (∀ k j, 0 ≤ k < 11 → j = k + 1 → cjdn y j 0 - cjdn y 0 0 = cjdn y k 0 - cjdn y 0 0 + month_len (leap y) k) as Hk.
  { intros k j Hk' ->. rewrite cjdn_month by done. unfold month_days. lia. }
  pose proof (Hk 0 1 ltac:(lia) eq_refl) as H0. pose proof (Hk 1 2 ltac:(lia) eq_refl) as H1.
  pose proof (Hk 2 3 ltac:(lia) eq_refl) as H2. pose proof (Hk 3 4 ltac:(lia) eq_refl) as H3.
  pose proof (Hk 4 5 ltac:(lia) eq_refl) as H4. pose proof (Hk 5 6 ltac:(lia) eq_refl) as H5.
  pose proof (Hk 6 7 ltac:(lia) eq_refl) as H6. pose proof (Hk 7 8 ltac:(lia) eq_refl) as H7.
  pose proof (Hk 8 9 ltac:(lia) eq_refl) as H8. pose proof (Hk 9 10 ltac:(lia) eq_refl) as H9.
  pose proof (Hk 10 11 ltac:(lia) eq_refl) as H10. clear Hk.
  rewrite Z.sub_diag in H0. unfold index.
  each_month Hm; destruct (leap y); unfold month_len in *; cbn -[cjdn] in *; do 3 f_equal; lia.
Qed.

Lemma get_yearday_ok d : calendar_date d → tt_date_get_year d mod 3200 ≠ 0 →
  tt_date_get_yearday d = Ret (TT_SUCCESS (day_of d - cjdn (tt_date_get_year d) 0 0), d).
Proof.
  intros Hd Hg. unfold tt_date_get_yearday, __daynum_before. pose proof (cd_year _ Hd) as Hy.
  set (y := tt_date_get_year d) in *. assert (__leap_year (year d) = leap y) as El.
  { pose proof (leap_year_ok y) as E. unfold y, tt_date_get_year, __Y_OUT in *. rewrite Z.add_simpl_r in E.
    rewrite E by lia. rewrite (proj2 (Z.eqb_neq _ _)) by done. by rewrite andb_true_r. }
  rewrite (bind_step _ _ d d d) by done. rewrite El. destruct (cd_day _ Hd) as [Hm _].
  rewrite (bind_step _ _ _ _ _ (before_table y (month d) Hm _ d)). unfold mret, M_ret, ret, day_of. fold y.
  rewrite (cjdn_day y (month d) (mday d)). do 3 f_equal. lia.
Qed.

(** ** Properties *)

(** C15: on the days of the Gregorian calendar from 1583 to 65535 the day numbers of
    the code count one day after the other from the known number of 1 January
    2000, the two conversions are inverse to each other, no step of them wraps or
    asserts, and every number in between is that of some day. *)
Theorem date_days {S} y m x (s : S) : gregorian y m x → TT_GREGORIAN_BEGIN ≤ y ≤ 65535 →
  cjdn 2000 0 0 = 2451545 ∧
  (let '(y', m', x') := next_day y m x in gregorian y' m' x' ∧ cjdn y' m' x' = cjdn y m x + 1) ∧
  __ymd2cjdn (__Y_IN y) m x s = Ret (TT_SUCCESS (cjdn y m x), s) ∧
  __cjdn2ymd (cjdn y m x) = (__Y_IN y, m, x) ∧
  ∀ n, cjdn TT_GREGORIAN_BEGIN 0 0 ≤ n < last_day → ∃ y m x, __cjdn2ymd n = (__Y_IN y, m, x) ∧
    gregorian y m x ∧ TT_GREGORIAN_BEGIN ≤ y ≤ 65535 ∧ cjdn y m x = n.
Proof.
  intros Hg Hy. split; [done|]. split; [by apply cjdn_next|]. split; [by apply ymd2cjdn_ok|].
  split; [by apply cjdn2ymd_ok|]. intros n Hn. destruct (date_total n Hn) as (y' & m' & x' & Hg' & Hy' & <-).
  exists y', m', x'. split; [by apply cjdn2ymd_ok|done].
Qed.



(** C18: the weekday is that of the calendar except in March, when it is one or two
    days early; the day of the year counts from the first of January, and setting
    it goes to that day or refuses a day that the year does not have. *)
Theorem date_fields d n : calendar_date d → tt_date_get_year d mod 3200 ≠ 0 → 0 ≤ n →
  let y := tt_date_get_year d in
  tt_date_get_weekday d = Ret (TT_SUCCESS ((weekday_of d - weekday_error d) mod 7), d) ∧
  tt_date_get_yearday d = Ret (TT_SUCCESS (day_of d - cjdn y 0 0), d) ∧
  if n <? (if leap y then 366 else 365)
  then ∃ m x, tt_date_set_yearday n d = Ret (TT_SUCCESS tt, with_month m (with_mday x d)) ∧ gregorian y m x ∧
    cjdn y m x = cjdn y 0 0 + n
  else tt_date_set_yearday n d = Ret (TT_ERROR TT_FAIL, d).
Proof.
  intros Hd Hg Hn y. split; [by apply get_weekday_ok|]. split; [by apply get_yearday_ok|by apply set_yearday_ok].
Qed.

(** ** Witnesses *)

(** 29 February 2000, 23:59:58 at +05:45, and 1 March 2000, 6:00 at -09:30. *)
Definition demo_a : tt_date_t := mk_date (__Y_IN 2000) 28 23 59 58 1 23.
Definition demo_b : tt_date_t := mk_date (__Y_IN 2000) 0 6 0 0 2 3.
Definition demo_ua : tt_date_t := mk_date (__Y_IN 2000) 28 18 14 58 1 TT_UTC_00_00.
Definition demo_ub : tt_date_t := mk_date (__Y_IN 2000) 0 15 30 0 2 TT_UTC_00_00.

Ltac calendar_tac := constructor; vm_compute; repeat split; (done || (intros H; discriminate H)).
Lemma demo_a_ok : calendar_date demo_a. Proof. calendar_tac. Qed.
Lemma demo_b_ok : calendar_date demo_b. Proof. calendar_tac. Qed.
Lemma demo_ua_ok : in_utc demo_a demo_ua.
Proof. split; [calendar_tac|]. vm_compute. repeat split; intros H; discriminate H. Qed.
Lemma demo_ub_ok : in_utc demo_b demo_ub.
Proof. split; [calendar_tac|]. vm_compute. repeat split; intros H; discriminate H. Qed.

Lemma date_days_witness : __cjdn2ymd (cjdn 2400 1 28) = (817, 1, 28).
Proof.
  assert (gregorian 2400 1 28) as Hg by (split; [lia|vm_compute; split; [intros H; discriminate H|reflexivity]]).
  destruct (date_days 2400 1 28 tt Hg ltac:(unfold TT_GREGORIAN_BEGIN; lia)) as (_ & _ & _ & E & _). exact E.
Defined.



Lemma date_fields_witness :
  tt_date_get_weekday demo_a = Ret (TT_SUCCESS 2, demo_a) ∧ tt_date_get_yearday demo_a = Ret (TT_SUCCESS 59, demo_a) ∧
  tt_date_set_yearday 366 demo_a = Ret (TT_ERROR TT_FAIL, demo_a).
Proof.
  apply (date_fields demo_a 366 demo_a_ok); [vm_compute; intros H; discriminate H|lia].
Defined.

(** What goes wrong: the day after 28 February 3200, the weekday of Wednesday,
    1 March 2000, and the first day of all. *)
Example date_ghost_day : tt_date_inc_day 1 (mk_date (__Y_IN 3200) 27 0 0 0 1 TT_UTC_00_00) = Crash.
Proof. vm_compute. reflexivity. Qed.
Example date_march : tt_date_get_weekday demo_b = Ret (TT_SUCCESS 1, demo_b) ∧ weekday_of demo_b = 3.
Proof. vm_compute. split; reflexivity. Qed.
Example date_first_day : let d := mk_date 0 0 0 0 0 0 TT_UTC_00_00 in tt_date_dec_day 0 d = Ret (TT_ERROR TT_FAIL, d).
Proof. vm_compute. reflexivity. Qed.
Example date_offset_0700 : offset_of TT_UTC_07_00 = SEC 7 30.
Proof. vm_compute. reflexivity. Qed.
Example date_epoch_second : tt_date_diff_epoch_second demo_b tt = Ret (TT_SUCCESS 951924600, tt).
Proof. vm_compute. reflexivity. Qed.
