(* ===== verification/Cells.v ===== *)
(** Blocks of elements of one type: the memory spring (memory/tt_memory_spring.c)
    as the containers of pointers use it, which extend and compress blocks of
    structs of [esize] bytes each.  A cell that was never written is [None]. *)

From S2P Require Import Prelude MemSpring.

#[local] Open Scope Z_scope.

Section cells.
Context `{Allocator} {A : Type}.
Implicit Types (p : option (list (option A))) (xs : list A).

(** [tt_memspg_extend] on a block of such elements, sizes in bytes. *)
Definition cells_extend (esize : Z) (mspg : tt_memspg_t) p (size to_size : Z)
  : exec (result (list (option A) * Z)) :=
  if negb (size <? to_size) then Crash
  else
    exec_bind (extend_size mspg size to_size) (λ r,
      match r with
      | None => Ret (TT_ERROR TT_FAIL)
      | Some new_size =>
          match malloc new_size with
          | None => Ret (TT_ERROR TT_FAIL)
          | Some _ =>
              let new_p := replicate (Z.to_nat (new_size / esize)) None in
              match p with
              | None => Ret (TT_SUCCESS (new_p, new_size))
              | Some old =>
                  exec_bind (mem_read old 0 (size / esize)) (λ d,
                  exec_bind (mem_write new_p 0 d) (λ np,
                  Ret (TT_SUCCESS (np, new_size))))
              end
          end
      end).

(** [tt_memspg_compress] to nothing: the block is freed. *)
Definition cells_free p (size : Z) : exec (result (option (list (option A)) * Z)) :=
  match p with
  | None => Crash
  | Some _ => if negb (0 <? size) then Crash else Ret (TT_SUCCESS (None, 0))
  end.

(** Access by index: outside the block, through NULL or to a cell without a value
    it is undefined. *)
Definition cell_get p (i : Z) : exec A :=
  match p with
  | Some b => if (i <? 0) || (zlen b <=? i) then Undef else match b !! Z.to_nat i with Some (Some x) => Ret x | _ => Undef end
  | None => Undef
  end.
Definition cell_put p (i : Z) (x : A) : exec (option (list (option A))) :=
  match p with
  | Some b => if (i <? 0) || (zlen b <=? i) then Undef else Ret (Some (<[Z.to_nat i := Some x]> b))
  | None => Undef
  end.

(** A block, possibly none, of [cap] cells that starts with [xs]. *)
Definition cells_of p (cap : Z) xs : Prop :=
  match p with
  | Some b => ∃ rest, b = (Some <$> xs) ++ rest ∧ zlen b = cap
  | None => cap = 0 ∧ xs = []
  end.

Lemma cells_of_cap p cap xs : cells_of p cap xs → zlen xs ≤ cap.
Proof.
  destruct p as [b|]; simpl; [intros (r & -> & <-)|intros [-> ->]; done].
  rewrite zlen_app. pose proof (zlen_nonneg r). unfold zlen in *. rewrite length_fmap. lia.
Qed.

Lemma cell_get_ok p cap xs (i : nat) x : cells_of p cap xs → xs !! i = Some x → cell_get p (Z.of_nat i) = Ret x.
Proof.
  unfold cells_of, cell_get. destruct p as [b|]; [intros (r & -> & _) Hx|by intros [_ ->]].
  pose proof (lookup_lt_Some _ _ _ Hx). rewrite (proj2 (Z.ltb_ge _ _)) by lia.
  rewrite (proj2 (Z.leb_gt _ _)) by (unfold zlen; rewrite length_app, length_fmap; lia). rewrite Nat2Z.id, lookup_app_l.
  - by rewrite list_lookup_fmap, Hx.
  - rewrite length_fmap. by eapply lookup_lt_Some.
Qed.

Lemma cell_put_ok p cap xs (i : nat) x : cells_of p cap xs → (i < length xs)%nat →
  ∃ p', cell_put p (Z.of_nat i) x = Ret p' ∧ cells_of p' cap (<[i := x]> xs).
Proof.
  intros Hc Hi. pose proof (cells_of_cap _ _ _ Hc) as Hcap. unfold cell_put. destruct p as [b|].
  2:{ destruct Hc as [_ ->]. simpl in Hi. lia. }
  destruct Hc as (r & -> & Hz).
  rewrite (proj2 (Z.ltb_ge _ _)) by lia. rewrite (proj2 (Z.leb_gt _ _)) by (unfold zlen in *; lia).
  eexists. split; [done|]. exists r. rewrite Nat2Z.id, insert_app_l by (by rewrite length_fmap).
  split; [by rewrite list_fmap_insert|]. rewrite <- Hz. unfold zlen. by rewrite !length_app, length_insert.
Qed.

(** The next cell after [xs]. *)
Lemma cell_put_next p cap xs x : cells_of p cap xs → zlen xs < cap →
  ∃ p', cell_put p (zlen xs) x = Ret p' ∧ cells_of p' cap (xs ++ [x]).
Proof.
  intros Hc Hi. pose proof (zlen_nonneg xs). unfold cell_put. destruct p as [b|].
  2:{ destruct Hc as [-> _]. lia. }
  destruct Hc as (r & -> & Hz).
  rewrite (proj2 (Z.ltb_ge _ _)) by lia. rewrite (proj2 (Z.leb_gt _ _)) by lia. simpl.
  eexists. split; [done|]. destruct r as [|y r].
  { rewrite app_nil_r in Hz. unfold zlen in *. rewrite length_fmap in Hz. lia. }
  exists r. assert (Z.to_nat (zlen xs) = length (Some <$> xs)) as -> by (rewrite length_fmap; unfold zlen; lia).
  rewrite insert_app_r_alt, Nat.sub_diag by lia. simpl. rewrite fmap_app, <- app_assoc.
  split; [done|]. rewrite <- Hz. unfold zlen. rewrite !length_app. done.
Qed.

Lemma cells_of_prefix p cap xs ys : cells_of p cap (xs ++ ys) → cells_of p cap xs.
Proof.
  destruct p as [b|]; simpl; [intros (r & -> & Hz)|by intros [-> [-> ->]%app_eq_nil]].
  exists ((Some <$> ys) ++ r). by rewrite fmap_app, <- app_assoc in *.
Qed.

(** Extending keeps the elements, or fails and keeps the block. *)
Lemma cells_extend_ok esize mspg p size xs to_size :
  memspg_wf mspg → 0 < esize → cells_of p (size / esize) xs →
  0 ≤ size < to_size → to_size < 2 ^ 32 →
  (∃ b n, cells_extend esize mspg p size to_size = Ret (TT_SUCCESS (b, n)) ∧
    cells_of (Some b) (n / esize) xs ∧ to_size ≤ n < 2 ^ 32) ∨
  (cells_extend esize mspg p size to_size = Ret (TT_ERROR TT_FAIL) ∧
    (¬ malloc_total ∨ max_limit mspg ≠ 0 ∨ 2 ^ 32 ≤ to_size + max_extend mspg)).
Proof.
  intros Hwf He Hc Hlt Hto. pose proof (cells_of_cap _ _ _ Hc) as Hcap. pose proof (zlen_nonneg xs).
  unfold cells_extend. rewrite (proj2 (Z.ltb_lt _ to_size)) by lia. simpl.
  destruct (extend_size_spec mspg size to_size) as (r & -> & Hr); [done|lia..|].
  simpl. destruct r as [n|]; [|right; eauto].
  destruct (malloc n) as [np|] eqn:Hm; cycle 1.
  { right. split; [done|]. left. intros Ht. destruct (Ht n) as [? ?]. congruence. }
  left. assert (size / esize ≤ n / esize) as Hn by (apply Z.div_le_mono; lia).
  assert (0 ≤ size / esize) by (apply Z.div_pos; lia).
  set (m := n / esize) in *. set (c := size / esize) in *.
  destruct p as [b|]; cycle 1.
  { destruct Hc as [_ ->]. eexists _, n. split; [done|]. split; [|lia]. exists (replicate (Z.to_nat m) None).
    split; [done|]. rewrite zlen_replicate. lia. }
  destruct Hc as (rest & Eb & Hz). rewrite mem_read_ok by lia. simpl.
  assert (sub b 0 c = b) as -> by (rewrite <- Hz; apply sub_all).
  rewrite mem_write_ok by (rewrite ?zlen_replicate; lia). simpl. eexists _, n. split; [done|]. split; [|lia].
  unfold splice. simpl. exists (rest ++ drop (length b) (replicate (Z.to_nat m) None)).
  split; [by rewrite app_assoc, <- Eb|].
  unfold zlen in *. rewrite length_app, length_drop, length_replicate. lia.
Qed.

Lemma cells_free_ok p xs cap size : cells_of p cap xs → p ≠ None → 0 < size →
  cells_free p size = Ret (TT_SUCCESS (None, 0)).
Proof. intros Hc Hp Hz. unfold cells_free. destruct p; [|done]. by rewrite (proj2 (Z.ltb_lt _ _)). Qed.
End cells.
