(* ===== verification/PtrHeap.v ===== *)
(** The heap of pointers (algorithm/ptr/tt_ptr_heap.h and .c): a binary heap in an
    array that grows, whose entries may name a variable that the heap keeps equal
    to the entry's index, so that the owner can remove or move it later.  This
    file holds the code and its effect on the array; [HeapSpec] shows that it is a
    priority queue. *)

From S2P Require Import Prelude Util MemSpring Cells.
From stdpp Require Import gmap.

#[local] Open Scope Z_scope.

(** ** Data *)

(** Pointers to elements and to index variables. *)
Notation ptr := positive (only parsing).
Definition TT_POS_NULL : Z := u32_max.

Record tt_phnode_t : Type := mk_phnode { np : ptr; nidx : option ptr }.
Definition sizeof_phnode : Z := 16.

Record tt_ptrheap_attr_t : Type := mk_phattr {
  min_extent_num : Z;
  max_extent_num : Z;
  max_limit_num : Z;
}.

(** The comparison is an argument of the operations. *)
Record tt_ptrheap_t : Type := mk_ptrheap {
  hnode : option (list (option tt_phnode_t));
  hmspg : tt_memspg_t;
  hsize : Z;
  hcap : Z;
  hcount : Z;
}.

Definition set_hnode b h := mk_ptrheap b (hmspg h) (hsize h) (hcap h) (hcount h).
Definition set_hcap c h := mk_ptrheap (hnode h) (hmspg h) (hsize h) c (hcount h).
Definition set_hsize z h := mk_ptrheap (hnode h) (hmspg h) z (hcap h) (hcount h).
Definition set_hcount c h := mk_ptrheap (hnode h) (hmspg h) (hsize h) (hcap h) c.

(** A heap and the index variables of its owners. *)
Record pstate : Type := mk_pstate { heap : tt_ptrheap_t; vars : gmap ptr Z }.
Definition on_heap (f : tt_ptrheap_t → tt_ptrheap_t) : M pstate unit :=
  modify (λ s, mk_pstate (f (heap s)) (vars s)).
Definition the_count : M pstate Z := gets (λ s, hcount (heap s)).

Definition get_node (i : Z) : M pstate tt_phnode_t :=
  h ← gets heap; access (cell_get (hnode h) i).
Definition put_node (i : Z) (nd : tt_phnode_t) : M pstate unit :=
  h ← gets heap;
  b ← access (cell_put (hnode h) i nd);
  on_heap (set_hnode b).

(** [*idx = v], where [idx] may be NULL. *)
Definition set_idx (idx : option ptr) (v : Z) : M pstate unit :=
  match idx with
  | None => mret tt
  | Some a => λ s,
      match vars s !! a with
      | Some _ => Ret (TT_SUCCESS tt, mk_pstate (heap s) (<[a := v]> (vars s)))
      | None => Undef
      end
  end.

Definition __PH_PARENT (i : Z) : Z := Z.shiftr (u32 (i - 1)) 1.
Definition __PH_LEFT (i : Z) : Z := u32 (u32 (Z.shiftl i 1) + 1).
Definition __PH_RIGHT (i : Z) : Z := u32 (u32 (Z.shiftl i 1) + 2).

Definition __SWAP_PH_NODE (a b : Z) : M pstate unit :=
  if a =? b then mret tt
  else
    tmp ← get_node a;
    nd ← get_node b;
    put_node a nd;;
    set_idx (nidx nd) a;;
    put_node b tmp;;
    set_idx (nidx tmp) b.
Definition __COPY_PH_NODE (dst src : Z) : M pstate unit :=
  if dst =? src then mret tt
  else
    nd ← get_node src;
    put_node dst nd;;
    set_idx (nidx nd) dst.

(** ** Operations *)

Definition tt_ptrheap_attr_default : tt_ptrheap_attr_t := mk_phattr 16 128 0.

Definition tt_ptrheap_init (attr : option tt_ptrheap_attr_t) : exec tt_ptrheap_t :=
  let attr := match attr with Some a => a | None => tt_ptrheap_attr_default end in
  if TT_U32_MUL_WOULD_OVFL sizeof_phnode (min_extent_num attr) ||
     TT_U32_MUL_WOULD_OVFL sizeof_phnode (max_extent_num attr) ||
     TT_U32_MUL_WOULD_OVFL sizeof_phnode (max_limit_num attr)
  then Crash
  else
    exec_bind (tt_memspg_init (u32 (min_extent_num attr * sizeof_phnode)) (u32 (max_extent_num attr * sizeof_phnode))
      (u32 (max_limit_num attr * sizeof_phnode))) (λ mspg,
    Ret (mk_ptrheap None mspg 0 0 0)).

Fixpoint phclear_loop (i : Z) (fuel : nat) : M pstate unit :=
  match fuel with
  | O => λ _, Diverge
  | S fuel =>
      c ← the_count;
      if i <? c then
        nd ← get_node i;
        set_idx (nidx nd) TT_POS_NULL;;
        phclear_loop (u32 (i + 1)) fuel
      else mret tt
  end.
Definition tt_ptrheap_clear : M pstate unit :=
  c ← the_count;
  phclear_loop 0 (S (Z.to_nat c));;
  on_heap (set_hcount 0).

Definition tt_ptrheap_destroy : M pstate unit :=
  tt_ptrheap_clear;;
  h ← gets heap;
  match hnode h with
  | None => mret tt
  | Some _ =>
      r ← try (call (cells_free (hnode h) (hsize h)));
      match r with
      | TT_SUCCESS (b, z) => on_heap (λ h, set_hsize z (set_hnode b h))
      | TT_ERROR _ => mret tt
      end
  end.

Section ptrheap.
Context `{Allocator}.

Definition __ptrheap_reserve (count : Z) : M pstate unit :=
  h ← gets heap;
  '(b, z) ← call (cells_extend sizeof_phnode (hmspg h) (hnode h) (hsize h) (u32 (u32 (hcap h + count) * sizeof_phnode)));
  on_heap (λ h, set_hcap (z / sizeof_phnode) (set_hsize z (set_hnode (Some b) h))).
Definition tt_ptrheap_reserve (count : Z) : M pstate unit :=
  h ← gets heap;
  if u32 (hcount h + count) <=? hcap h then mret tt else __ptrheap_reserve count.

Definition tt_ptrheap_count : M pstate Z := the_count.
Definition tt_ptrheap_empty : M pstate bool := c ← tt_ptrheap_count; mret (c =? 0).
Definition tt_ptrheap_head : M pstate (option ptr) :=
  c ← the_count;
  if c =? 0 then mret None else nd ← get_node 0; mret (Some (np nd)).

(** The function pointer [ph->cmp]. *)
Variable cmp : ptr → ptr → exec Z.

Definition cmp_nodes (i j : Z) : M pstate Z :=
  a ← get_node i; b ← get_node j; access (cmp (np a) (np b)).

(** The larger of the entries at [i] and, if there is one, [c]. *)
Definition larger (c i : Z) : M pstate Z :=
  n ← the_count;
  if c <? n then k ← cmp_nodes c i; mret (if 0 <? k then c else i) else mret i.

Fixpoint down_loop (idx : Z) (fuel : nat) : M pstate unit :=
  match fuel with
  | O => λ _, Diverge
  | S fuel =>
      let l := __PH_LEFT idx in
      let r := __PH_RIGHT idx in
      max ← larger l idx;
      max ← larger r max;
      if negb (max =? idx) then __SWAP_PH_NODE max idx;; down_loop max fuel else mret tt
  end.
Definition __fix_downward (idx : Z) : M pstate unit :=
  c ← the_count; down_loop idx (S (Z.to_nat c)).

Fixpoint up_loop (idx : Z) (fuel : nat) : M pstate unit :=
  match fuel with
  | O => λ _, Diverge
  | S fuel =>
      if 0 <? idx then
        let parent := __PH_PARENT idx in
        k ← cmp_nodes parent idx;
        if 0 <=? k then mret tt
        else __SWAP_PH_NODE parent idx;; up_loop parent fuel
      else mret tt
  end.
Definition __fix_upward (idx : Z) : M pstate unit := up_loop idx (S (Z.to_nat idx)).

Definition tt_ptrheap_fix (idx : Z) : M pstate unit :=
  c ← the_count;
  assert_always (idx <? c);;
  __fix_downward idx;;
  __fix_upward idx.

Definition tt_ptrheap_add (p : option ptr) (idx : option ptr) : M pstate unit :=
  match p with
  | None => fail TT_FAIL
  | Some p =>
      tt_ptrheap_reserve 1;;
      c ← the_count;
      put_node c (mk_phnode p idx);;
      set_idx idx c;;
      on_heap (set_hcount (u32 (c + 1)));;
      __fix_upward (u32 (u32 (c + 1) - 1))
  end.

Definition tt_ptrheap_remove (idx : Z) : M pstate unit :=
  c ← the_count;
  assert_always (idx <? c);;
  nd ← get_node idx;
  set_idx (nidx nd) TT_POS_NULL;;
  on_heap (set_hcount (u32 (c - 1)));;
  if negb (idx =? u32 (c - 1)) then
    __COPY_PH_NODE idx (u32 (c - 1));;
    __fix_downward idx;;
    __fix_upward idx
  else mret tt.

Definition tt_ptrheap_pop : M pstate (option ptr) :=
  c ← the_count;
  if c =? 0 then mret None
  else
    nd ← get_node 0;
    tt_ptrheap_remove 0;;
    mret (Some (np nd)).

Fixpoint contain_loop (p : ptr) (i : Z) (fuel : nat) : M pstate bool :=
  match fuel with
  | O => λ _, Diverge
  | S fuel =>
      c ← the_count;
      if i <? c then
        nd ← get_node i;
        k ← access (cmp (np nd) p);
        if k =? 0 then mret true else contain_loop p (u32 (i + 1)) fuel
      else mret false
  end.
Definition tt_ptrheap_contain (p : ptr) : M pstate bool :=
  c ← the_count; contain_loop p 0 (S (Z.to_nat c)).

Fixpoint build_loop (i : Z) (fuel : nat) : M pstate unit :=
  match fuel with
  | O => λ _, Diverge
  | S fuel =>
      if negb (i =? TT_POS_NULL) then __fix_downward i;; build_loop (u32 (i - 1)) fuel else mret tt
  end.
Definition __build_heap : M pstate unit :=
  c ← the_count;
  if c =? 0 then mret tt else build_loop (__PH_PARENT (u32 (c - 1))) (S (Z.to_nat c)).

(** The check of debug builds; a failure is an assertion. *)
Fixpoint sanity_check (idx : Z) (fuel : nat) : M pstate unit :=
  match fuel with
  | O => λ _, Diverge
  | S fuel =>
      let side c :=
        n ← the_count;
        if c <? n then
          k ← cmp_nodes c idx;
          if 0 <? k then crash else sanity_check c fuel
        else mret tt in
      side (__PH_LEFT idx);; side (__PH_RIGHT idx)
  end.
Definition __ph_sanity_check (idx : Z) : M pstate unit := c ← the_count; sanity_check idx (S (Z.to_nat c)).
End ptrheap.

(** An allocator and a comparison to try things on. *)
Definition demo_alloc : Allocator.
Proof.
  refine {| malloc := λ n, Some (replicate (Z.to_nat n) 0) |}.
  - intros n blk [= <-]. rewrite zlen_replicate. lia.
  - intros n blk [= <-]. apply Forall_replicate. unfold is_u8. lia.
Defined.
Definition demo_cmp (a b : ptr) : exec Z := Ret (Zpos a - Zpos b).

(** Add 1, 7, 9 and 3, take three out: the variables of those that left are
    null, and 1 is at the root. *)
Example ptrheap_try :
  exec_bind (tt_ptrheap_init None) (λ h,
  exec_bind ((foldr (λ p m, @tt_ptrheap_add demo_alloc demo_cmp (Some p) (Some p);; m)
    (a ← tt_ptrheap_pop demo_cmp; b ← tt_ptrheap_pop demo_cmp; c ← tt_ptrheap_pop demo_cmp; mret [a; b; c]) [1; 7; 9; 3]%positive)
    (mk_pstate h {[1 := TT_POS_NULL; 3 := TT_POS_NULL; 7 := TT_POS_NULL; 9 := TT_POS_NULL]}%positive))
    (λ '(r, s), Ret (r, vars s)))
  = Ret (TT_SUCCESS [Some 9; Some 7; Some 3]%positive,
      {[1 := 0%Z; 3 := TT_POS_NULL; 7 := TT_POS_NULL; 9 := TT_POS_NULL]}%positive).
Proof. vm_compute. reflexivity. Qed.
