(* ===== verification/HeapSpec.v ===== *)
(** The heap of pointers is a priority queue: what holds between the entries of the
    array while an entry moves down or up, what each function of [PtrHeap] does
    to it, and the queue that any sequence of calls refines. *)

From S2P Require Import Prelude Util MemSpring Cells PtrHeap.
From stdpp Require Import gmap.

#[local] Open Scope Z_scope.

(** ** Order in the array *)

(** [r] gives the rank of each place, [n] is the number of places; the children of
    [p] are [2 p + 1] and [2 p + 2]. *)
Definition child (p i : nat) : Prop := i = (2 * p + 1)%nat ∨ i = (2 * p + 2)%nat.

Section order.
Implicit Types (r : nat → Z) (lo k n i p : nat).

(** From [lo] on, no child outranks its parent. *)
Definition heap_from lo n r : Prop := ∀ p i, (lo ≤ p)%nat → child p i → (i < n)%nat → r i ≤ r p.

(** The children of [k] do not outrank the parent of [k]. *)
Definition bridged lo k n r : Prop :=
  ∀ p i, child p k → (lo ≤ p)%nat → child k i → (i < n)%nat → r i ≤ r p.

(** The order may be broken between [k] and its parent; or there and between
    [k] and its children. *)
Definition heap_but_up lo k n r : Prop :=
  (∀ p i, (lo ≤ p)%nat → child p i → (i < n)%nat → i ≠ k → r i ≤ r p) ∧ bridged lo k n r.
Definition heap_but lo k n r : Prop :=
  (∀ p i, (lo ≤ p)%nat → child p i → (i < n)%nat → i ≠ k → p ≠ k → r i ≤ r p) ∧ bridged lo k n r.

Definition swapr (a b : nat) r : nat → Z := λ i,
  if decide (i = a) then r b else if decide (i = b) then r a else r i.

Lemma heap_but_of lo k n r r' : heap_from lo n r → (∀ i, i ≠ k → r' i = r i) → (lo ≤ k)%nat → heap_but lo k n r'.
Proof.
  intros Hh Hr Hlo. split.
  - intros p i Hp Hc Hi Hik Hpk. rewrite !Hr by done. by apply Hh.
  - intros p i Hc Hp Hc' Hi. unfold child in *. rewrite !Hr by lia. trans (r k); apply Hh; unfold child in *; lia.
Qed.

Lemma down_step lo k n r m : heap_but lo k n r → (lo ≤ k)%nat → child k m → (m < n)%nat → r k ≤ r m →
  (∀ c, child k c → (c < n)%nat → r c ≤ r m) → heap_but lo m n (swapr m k r) ∧ swapr m k r m ≤ swapr m k r k.
Proof.
  intros [Ho Hb] Hlo Hm Hn Hlt Hmax. unfold child in *. unfold swapr. split; [split|].
  - intros p i Hp Hc Hi Him Hpm.
    destruct (decide (p = m)); [lia|]. destruct (decide (i = m)); [lia|].
    destruct (decide (p = k)) as [->|].
    { destruct (decide (i = k)) as [->|]; [lia|]. by apply Hmax. }
    destruct (decide (i = k)) as [->|]; [apply Hb; unfold child in *; lia|]. by apply Ho.
  - intros p i Hc Hp Hc' Hi. unfold child in *. assert (p = k) as -> by lia.
    destruct (decide (i = m)); [lia|]. destruct (decide (i = k)); [lia|].
    destruct (decide (k = m)); [lia|]. rewrite decide_True by done. apply Ho; unfold child in *; lia.
  - rewrite decide_True by done. destruct (decide (k = m)); [lia|]. by rewrite decide_True.
Qed.

Lemma down_end lo k j n r : heap_but lo j n r → (lo ≤ k)%nat → (k ≤ j)%nat →
  (∀ c, child j c → (c < n)%nat → r c ≤ r j) →
  (j = k ∨ ∀ p, child p j → (lo ≤ p)%nat → r j ≤ r p) → heap_but_up lo k n r.
Proof.
  intros [Ho Hb] Hlo Hkj Hmax Hj.
  assert (∀ p i, (lo ≤ p)%nat → child p i → (i < n)%nat → i ≠ k → r i ≤ r p) as H1.
  { intros p i Hp Hc Hi Hik. destruct (decide (p = j)) as [->|]; [by apply Hmax|].
    destruct (decide (i = j)) as [->|]; [|by apply Ho]. destruct Hj as [->|Hj]; [done|by apply Hj]. }
  split; [done|]. destruct Hj as [->|Hj]; [done|].
  intros p i Hc Hp Hc' Hi. destruct (decide (j = k)) as [->|]; [by eapply Hb|].
  trans (r k); [apply H1; unfold child in *; lia|]. apply Ho; unfold child in *; lia.
Qed.

Lemma up_step lo k n r p : heap_but_up lo k n r → (k < n)%nat → child p k → (lo ≤ p)%nat → r p ≤ r k →
  heap_but_up lo p n (swapr p k r).
Proof.
  intros [Ho Hb] Hk Hp Hlo Hlt. unfold swapr, child in *. split.
  - intros q i Hq Hc Hi Hip. unfold child in *. rewrite (decide_False (P:=i = p)) by lia.
    destruct (decide (i = k)) as [->|]; [rewrite decide_True by lia; lia|].
    destruct (decide (q = p)) as [->|].
    { trans (r p); [apply Ho; unfold child in *; lia|done]. }
    destruct (decide (q = k)) as [->|]; [apply Hb; unfold child in *; lia|]. apply Ho; unfold child in *; lia.
  - intros q i Hc Hq Hc' Hi. unfold child in *.
    rewrite (decide_False (P:=q = p)), (decide_False (P:=q = k)) by lia. rewrite (decide_False (P:=i = p)) by lia.
    assert (r p ≤ r q) by (apply Ho; unfold child in *; lia).
    destruct (decide (i = k)); [done|]. trans (r p); [apply Ho; unfold child in *; lia|done].
Qed.

Lemma up_end lo k n r : heap_but_up lo k n r → (∀ p, child p k → (lo ≤ p)%nat → (k < n)%nat → r k ≤ r p) → heap_from lo n r.
Proof. intros [Ho _] Hk p i Hp Hc Hi. destruct (decide (i = k)) as [->|]; [by apply Hk|by apply Ho]. Qed.

Lemma heap_root n r i : heap_from 0 n r → (i < n)%nat → r i ≤ r 0%nat.
Proof.
  intros Hh. induction i as [i IH] using lt_wf_ind. intros Hi. destruct i as [|i]; [done|].
  assert (∃ p, child p (S i)) as [p Hp].
  { exists (Nat.div2 i). unfold child. destruct (Nat.Even_or_Odd i) as [E|E].
    - apply Nat.Even_double in E. unfold Nat.double in E. lia.
    - apply Nat.Odd_double in E. unfold Nat.double in E. lia. }
  trans (r p); [apply Hh; [lia|done|done]|]. apply IH; unfold child in Hp; lia.
Qed.

Lemma heap_but_ext lo k n r r' : (∀ i, r' i = r i) → heap_but lo k n r → heap_but lo k n r'.
Proof. intros E [Ho Hb]. split; intros p i **; rewrite !E; [by apply Ho|by eapply Hb]. Qed.
Lemma heap_but_up_ext lo k n r r' : (∀ i, r' i = r i) → heap_but_up lo k n r → heap_but_up lo k n r'.
Proof. intros E [Ho Hb]. split; intros p i **; rewrite !E; [by apply Ho|by eapply Hb]. Qed.
End order.

(** ** Entries in memory *)

(** The array holds the entries [ns]; every index variable of an entry holds its
    place, every other one is null. *)
Record hrep (s : pstate) (ns : list tt_phnode_t) : Prop := {
  hr_cells : cells_of (hnode (heap s)) (hcap (heap s)) ns;
  hr_count : hcount (heap s) = zlen ns;
  hr_cap : hcap (heap s) = hsize (heap s) / sizeof_phnode;
  hr_size : 0 ≤ hsize (heap s) < 2 ^ 32;
  hr_block : hnode (heap s) ≠ None → 0 < hsize (heap s);
  hr_wf : memspg_wf (hmspg (heap s));
  hr_idx : ∀ i nd a, ns !! i = Some nd → nidx nd = Some a → vars s !! a = Some (Z.of_nat i);
  hr_null : ∀ a z, vars s !! a = Some z → (∀ nd, nd ∈ ns → nidx nd ≠ Some a) → z = TT_POS_NULL;
}.

(** What a rearrangement does: the entries change places. *)
Record moved (s : pstate) (ns : list tt_phnode_t) (s' : pstate) (ns' : list tt_phnode_t) : Prop := {
  mv_rep : hrep s' ns';
  mv_perm : ns' ≡ₚ ns;
  mv_vars : dom (vars s') = dom (vars s);
  mv_mspg : hmspg (heap s') = hmspg (heap s);
}.

Lemma moved_refl s ns : hrep s ns → moved s ns s ns.
Proof. by split. Qed.
Lemma moved_trans s1 n1 s2 n2 s3 n3 : moved s1 n1 s2 n2 → moved s2 n2 s3 n3 → moved s1 n1 s3 n3.
Proof. intros [_ P1 V1 G1] [R2 P2 V2 G2]. split; [done|by rewrite P2|by rewrite V2|by rewrite G2]. Qed.

(** Two entries never name the same variable. *)
Lemma hr_inj s ns i j nd nd' a : hrep s ns → ns !! i = Some nd → ns !! j = Some nd' →
  nidx nd = Some a → nidx nd' = Some a → i = j.
Proof.
  intros H Hi Hj E E'. pose proof (hr_idx _ _ H _ _ _ Hi E) as V. rewrite (hr_idx _ _ H _ _ _ Hj E') in V.
  injection V. lia.
Qed.

Lemma hr_len s ns : hrep s ns → zlen ns < 2 ^ 28 ∧ zlen ns ≤ hcap (heap s).
Proof.
  intros H. pose proof (cells_of_cap _ _ _ (hr_cells _ _ H)) as Hc. split; [|done].
  rewrite (hr_cap _ _ H) in Hc. pose proof (hr_size _ _ H) as Hs. unfold sizeof_phnode in Hc.
  assert (hsize (heap s) / 16 < 2 ^ 28) by (apply Z.div_lt_upper_bound; lia). lia.
Qed.

Lemma get_node_ok s ns (i : nat) nd : hrep s ns → ns !! i = Some nd → get_node (Z.of_nat i) s = Ret (TT_SUCCESS nd, s).
Proof.
  intros H Hi. unfold get_node. erewrite bind_step by done. unfold access.
  by rewrite (cell_get_ok _ _ _ _ _ (hr_cells _ _ H) Hi).
Qed.

Lemma put_node_ok s cap ns (i : nat) nd : cells_of (hnode (heap s)) cap ns → (i < length ns)%nat →
  ∃ b, put_node (Z.of_nat i) nd s = Ret (TT_SUCCESS tt, mk_pstate (set_hnode b (heap s)) (vars s)) ∧
    cells_of b cap (<[i := nd]> ns) ∧ (b ≠ None).
Proof.
  intros H Hi. destruct (cell_put_ok _ _ _ i nd H Hi) as (b & E & Hb). exists b.
  unfold put_node. erewrite bind_step by done. erewrite bind_step by (unfold access; by rewrite E).
  split; [done|]. split; [done|]. intros ->. unfold cells_of in Hb. destruct Hb as [_ Hb].
  apply (f_equal length) in Hb. rewrite length_insert in Hb. simpl in Hb. lia.
Qed.

(** The variables after a store to [*idx], if there is one. *)
Definition stored (v : gmap ptr Z) (idx : option ptr) (z : Z) : gmap ptr Z :=
  match idx with Some a => <[a := z]> v | None => v end.
Definition has_var (v : gmap ptr Z) (idx : option ptr) : Prop := ∀ a, idx = Some a → is_Some (v !! a).

Lemma set_idx_ok s idx z : has_var (vars s) idx →
  set_idx idx z s = Ret (TT_SUCCESS tt, mk_pstate (heap s) (stored (vars s) idx z)).
Proof.
  intros Hv. destruct idx as [a|]; simpl; [|by destruct s]. destruct (Hv a) as [x E]; [done|]. by rewrite E.
Qed.

Lemma stored_dom v idx z : has_var v idx → dom (stored v idx z) = dom v.
Proof. intros Hv. destruct idx as [a|]; [|done]. simpl. apply dom_insert_lookup_L. by apply Hv. Qed.
Lemma has_var_dom v v' idx : dom v' = dom v → has_var v idx → has_var v' idx.
Proof. intros E Hv a Ha. apply elem_of_dom. rewrite E. apply elem_of_dom. by apply Hv. Qed.
Lemma hr_has_var s ns i nd : hrep s ns → ns !! i = Some nd → has_var (vars s) (nidx nd).
Proof. intros H Hi a E. rewrite (hr_idx _ _ H _ _ _ Hi E). eauto. Qed.

Lemma lookup_stored v idx z a :
  stored v idx z !! a = if decide (idx = Some a) then Some z else v !! a.
Proof.
  destruct idx as [b|]; unfold stored; [|by case_decide]. destruct (decide (Some b = Some a)) as [E|E].
  - injection E as ->. by rewrite lookup_insert_eq.
  - rewrite lookup_insert_ne; [done|]. congruence.
Qed.

(** ** Exchanging two entries *)

Definition swapl (i j : nat) (ns : list tt_phnode_t) : list tt_phnode_t :=
  match ns !! i, ns !! j with
  | Some x, Some y => <[j := x]> (<[i := y]> ns)
  | _, _ => ns
  end.

Lemma swapl_lookup i j ns k : (i < length ns)%nat → (j < length ns)%nat →
  swapl i j ns !! k = if decide (k = i) then ns !! j else if decide (k = j) then ns !! i else ns !! k.
Proof.
  intros Hi Hj. apply lookup_lt_is_Some_2 in Hi as [x Ei], Hj as [y Ej]. unfold swapl. rewrite Ei, Ej.
  pose proof (lookup_lt_Some _ _ _ Ei). pose proof (lookup_lt_Some _ _ _ Ej).
  destruct (decide (k = j)) as [->|].
  - rewrite list_lookup_insert_eq by (by rewrite length_insert). destruct (decide (j = i)) as [->|]; congruence.
  - rewrite list_lookup_insert_ne by done. destruct (decide (k = i)) as [->|].
    + by rewrite list_lookup_insert_eq.
    + by rewrite list_lookup_insert_ne.
Qed.
Lemma swapl_len i j ns : length (swapl i j ns) = length ns.
Proof. unfold swapl. destruct (ns !! i), (ns !! j); by rewrite ?length_insert. Qed.

Lemma swapl_perm i j ns : swapl i j ns ≡ₚ ns.
Proof.
  destruct (decide (i < length ns ∧ j < length ns)%nat) as [[Hi Hj]|Hn]; cycle 1.
  { unfold swapl. destruct (ns !! i) eqn:Ei; [|done]. destruct (ns !! j) eqn:Ej; [|done].
    apply lookup_lt_Some in Ei, Ej. lia. }
  apply Permutation_inj. split; [by rewrite swapl_len|].
  exists (λ k, if decide (k = i) then j else if decide (k = j) then i else k). split.
  - intros a b. repeat case_decide; congruence.
  - intros k. rewrite swapl_lookup by done. by repeat case_decide.
Qed.

Lemma node_swap_code s ns i j x y : hrep s ns → ns !! i = Some x → ns !! j = Some y → i ≠ j →
  ∃ b, __SWAP_PH_NODE (Z.of_nat i) (Z.of_nat j) s =
    Ret (TT_SUCCESS tt, mk_pstate (set_hnode b (heap s))
      (stored (stored (vars s) (nidx y) (Z.of_nat i)) (nidx x) (Z.of_nat j))) ∧
    cells_of b (hcap (heap s)) (swapl i j ns) ∧ b ≠ None.
Proof.
  intros H Hx Hy Hij. pose proof (lookup_lt_Some _ _ _ Hx). pose proof (lookup_lt_Some _ _ _ Hy).
  unfold __SWAP_PH_NODE. rewrite (proj2 (Z.eqb_neq _ _)) by lia.
  erewrite bind_step by (by eapply get_node_ok). erewrite bind_step by (by eapply get_node_ok).
  destruct (put_node_ok s _ ns i y (hr_cells _ _ H)) as (b1 & E1 & C1 & N1); [done|].
  erewrite bind_step by exact E1. erewrite bind_step by (apply set_idx_ok; simpl; by eapply hr_has_var).
  destruct (put_node_ok (mk_pstate (set_hnode b1 (heap s)) (stored (vars s) (nidx y) (Z.of_nat i)))
    _ _ j x C1) as (b2 & E2 & C2 & N2); [by rewrite length_insert|].
  simpl in E2. erewrite bind_step by exact E2. exists b2. split.
  - rewrite set_idx_ok; [done|]. simpl. eapply has_var_dom; [|by eapply hr_has_var].
    apply stored_dom. by eapply hr_has_var.
  - split; [|done]. unfold swapl. by rewrite Hx, Hy.
Qed.

(** Whatever rearranges the entries and keeps the variables of all of them. *)
Lemma moved_intro s ns b v ns' : hrep s ns → ns' ≡ₚ ns → cells_of b (hcap (heap s)) ns' → ns ≠ [] →
  dom v = dom (vars s) →
  (∀ i nd a, ns' !! i = Some nd → nidx nd = Some a → v !! a = Some (Z.of_nat i)) →
  (∀ a, (∀ nd, nd ∈ ns → nidx nd ≠ Some a) → v !! a = vars s !! a) →
  moved s ns (mk_pstate (set_hnode b (heap s)) v) ns'.
Proof.
  intros H Hp Hc Hne Hd Hi Hn. split; [|done..]. destruct H. split; try done; simpl.
  - unfold zlen in *. by rewrite Hp.
  - intros _. apply hr_block0. intros E. rewrite E in hr_cells0. by destruct hr_cells0.
  - intros a z Ha Hno. eapply hr_null0; [rewrite <- Hn; [done|]|]; intros nd Hnd; apply Hno; by rewrite ?Hp.
Qed.

Lemma node_swap_ok s ns i j : hrep s ns → (i < length ns)%nat → (j < length ns)%nat → i ≠ j →
  ∃ s', __SWAP_PH_NODE (Z.of_nat i) (Z.of_nat j) s = Ret (TT_SUCCESS tt, s') ∧ moved s ns s' (swapl i j ns).
Proof.
  intros H Hi Hj Hij. pose proof (lookup_lt_is_Some_2 _ _ Hi) as [x Hx].
  pose proof (lookup_lt_is_Some_2 _ _ Hj) as [y Hy].
  destruct (node_swap_code s ns i j x y H Hx Hy Hij) as (b & E & Hc & Hb).
  eexists. split; [exact E|]. apply moved_intro; [done|apply swapl_perm|done|by intros ->| | |].
  - rewrite !stored_dom; try done; [by eapply hr_has_var|]. eapply has_var_dom; [|by eapply hr_has_var].
    apply stored_dom. by eapply hr_has_var.
  - intros k nd a Hk Ha. rewrite swapl_lookup in Hk by done. rewrite !lookup_stored.
    destruct (decide (k = i)) as [->|Hki].
    { assert (nd = y) as -> by congruence. rewrite Ha, decide_False, decide_True; [done..|].
      intros E'. destruct Hij. by eapply (hr_inj s ns). }
    destruct (decide (k = j)) as [->|Hkj].
    { assert (nd = x) as -> by congruence. by rewrite decide_True. }
    rewrite !decide_False; [by eapply hr_idx|..]; intros E'; [apply Hkj|apply Hki]; by eapply (hr_inj s ns).
  - intros a Hno. rewrite !lookup_stored, !decide_False; [done|..]; apply Hno; by eapply list_elem_of_lookup_2.
Qed.

(** ** Moving an entry *)

Section compared.
Context (cmp : ptr → ptr → exec Z) (rank : ptr → Z).

(** The comparison orders the entries by their ranks. *)
Definition compares (ns : list tt_phnode_t) : Prop := ∀ x y, x ∈ ns → y ∈ ns →
  ∃ k, cmp (np x) (np y) = Ret k ∧ Z.sgn k = Z.sgn (rank (np x) - rank (np y)).

(** The rank at a place. *)
Definition rk (ns : list tt_phnode_t) (i : nat) : Z :=
  match ns !! i with Some nd => rank (np nd) | None => 0 end.
Notation hlen ns := (length ns).

Lemma rk_swapl i j ns k : (i < hlen ns)%nat → (j < hlen ns)%nat → rk (swapl i j ns) k = swapr i j (rk ns) k.
Proof. intros Hi Hj. unfold rk, swapr. rewrite swapl_lookup by done. by repeat case_decide. Qed.

Lemma compares_perm ns ns' : ns' ≡ₚ ns → compares ns → compares ns'.
Proof. intros P H x y. rewrite P. apply H. Qed.

Lemma cmp_nodes_ok s ns i j : hrep s ns → compares ns → (i < hlen ns)%nat → (j < hlen ns)%nat →
  ∃ k, cmp_nodes cmp (Z.of_nat i) (Z.of_nat j) s = Ret (TT_SUCCESS k, s) ∧ Z.sgn k = Z.sgn (rk ns i - rk ns j).
Proof.
  intros H Hc Hi Hj. pose proof (lookup_lt_is_Some_2 _ _ Hi) as [x Hx]. pose proof (lookup_lt_is_Some_2 _ _ Hj) as [y Hy].
  destruct (Hc x y) as (k & E & Hk); [by eapply list_elem_of_lookup_2..|]. exists k.
  unfold cmp_nodes, rk. rewrite Hx, Hy. split; [|done].
  erewrite bind_step by (by eapply get_node_ok). erewrite bind_step by (by eapply get_node_ok).
  unfold access. by rewrite E.
Qed.

Lemma larger_ok s ns c i : hrep s ns → compares ns → (i < hlen ns)%nat → ∃ m : nat,
  larger cmp (Z.of_nat c) (Z.of_nat i) s = Ret (TT_SUCCESS (Z.of_nat m), s) ∧ (m < hlen ns)%nat ∧
  (m = i ∨ m = c ∧ rk ns i < rk ns c) ∧ rk ns i ≤ rk ns m ∧ ((c < hlen ns)%nat → rk ns c ≤ rk ns m).
Proof.
  intros H Hc Hi. unfold larger, the_count. erewrite bind_step by done. rewrite (hr_count _ _ H). unfold zlen.
  destruct (Z.ltb_spec (Z.of_nat c) (Z.of_nat (hlen ns))); cycle 1.
  { exists i. split; [done|]. split; [done|]. split; [by left|]. lia. }
  destruct (cmp_nodes_ok s ns c i H Hc ltac:(lia) Hi) as (k & E & Hk). erewrite bind_step by exact E.
  destruct (Z.ltb_spec 0 k); [exists c|exists i]; (split; [done|]); repeat split; try lia.
Qed.

Lemma places_ok s ns i : hrep s ns → (i < hlen ns)%nat →
  __PH_LEFT (Z.of_nat i) = Z.of_nat (2 * i + 1) ∧ __PH_RIGHT (Z.of_nat i) = Z.of_nat (2 * i + 2) ∧
  ((0 < i)%nat → ∃ p, __PH_PARENT (Z.of_nat i) = Z.of_nat p ∧ child p i).
Proof.
  intros H Hi. pose proof (hr_len _ _ H) as [Hl _]. unfold zlen in Hl.
  unfold __PH_LEFT, __PH_RIGHT, __PH_PARENT, child. rewrite Z.shiftl_mul_pow2, Z.shiftr_div_pow2 by lia.
  change (2 ^ 1) with 2. split; [|split].
  - rewrite !u32_small by (rewrite ?u32_small by lia; lia). lia.
  - rewrite !u32_small by (rewrite ?u32_small by lia; lia). lia.
  - intros H0. rewrite u32_small by lia. exists (Z.to_nat ((Z.of_nat i - 1) / 2)).
    pose proof (Z.div_pos (Z.of_nat i - 1) 2 ltac:(lia) ltac:(lia)).
    pose proof (Z.div_mod (Z.of_nat i - 1) 2 ltac:(lia)). pose proof (Z.mod_pos_bound (Z.of_nat i - 1) 2 ltac:(lia)). lia.
Qed.

Lemma down_ok lo k fuel : ∀ j s ns, hrep s ns → compares ns → (lo ≤ k)%nat → (k ≤ j < hlen ns)%nat →
  heap_but lo j (hlen ns) (rk ns) → (j = k ∨ ∀ p, child p j → (lo ≤ p)%nat → rk ns j ≤ rk ns p) →
  (hlen ns - j < fuel)%nat →
  ∃ s' ns', down_loop cmp (Z.of_nat j) fuel s = Ret (TT_SUCCESS tt, s') ∧ moved s ns s' ns' ∧
    heap_but_up lo k (hlen ns') (rk ns').
Proof.
  induction fuel as [|fuel IH]; intros j s ns H Hc Hlo Hj Hb Hjk Hf; [lia|].
  destruct (places_ok s ns j H ltac:(lia)) as (EL & ER & _). simpl. rewrite EL, ER.
  destruct (larger_ok s ns (2 * j + 1) j H Hc ltac:(lia)) as (m1 & E1 & Hm1 & C1 & L1 & L1').
  destruct (larger_ok s ns (2 * j + 2) m1 H Hc Hm1) as (m & E2 & Hm2 & C2 & L2 & L2').
  erewrite bind_step by exact E1. erewrite bind_step by exact E2.
  assert (∀ c, child j c → (c < hlen ns)%nat → rk ns c ≤ rk ns m) as Hmax.
  { intros c [->| ->] Hn; [specialize (L1' Hn)|specialize (L2' Hn)]; lia. }
  destruct (Z.eqb_spec (Z.of_nat m) (Z.of_nat j)) as [Em|Em]; simpl.
  - assert (m = j) as -> by lia. exists s, ns. split; [done|]. split; [by apply moved_refl|].
    by eapply down_end; eauto with lia.
  - assert (child j m) as Hch by (unfold child; lia).
    destruct (node_swap_ok s ns m j H Hm2 ltac:(lia) ltac:(lia)) as (s1 & Es & Mv). erewrite bind_step by exact Es.
    destruct (down_step lo j (hlen ns) (rk ns) m Hb ltac:(lia) Hch Hm2 ltac:(lia) Hmax) as [Hb' Hle].
    pose proof (rk_swapl m j ns) as Hrk.
    destruct (IH m s1 (swapl m j ns)) as (s' & ns' & Ed & Mv' & Hu).
    + apply Mv.
    + eapply compares_perm; [apply Mv|done].
    + done.
    + rewrite swapl_len. unfold child in Hch. lia.
    + rewrite swapl_len. eapply heap_but_ext; [|exact Hb']. intros i. apply Hrk; lia.
    + right. intros p Hp _. assert (p = j) as -> by (unfold child in *; lia). rewrite !Hrk by lia. exact Hle.
    + rewrite swapl_len. unfold child in Hch. lia.
    + exists s', ns'. split; [exact Ed|]. split; [by eapply moved_trans|done].
Qed.

Lemma up_ok lo fuel : ∀ k s ns, hrep s ns → compares ns → (k < hlen ns)%nat → lo = 0%nat →
  heap_but_up lo k (hlen ns) (rk ns) → (k < fuel)%nat →
  ∃ s' ns', up_loop cmp (Z.of_nat k) fuel s = Ret (TT_SUCCESS tt, s') ∧ moved s ns s' ns' ∧
    heap_from lo (hlen ns') (rk ns').
Proof.
  intros k. revert k. induction fuel as [|fuel IH]; intros k s ns H Hc Hk Hlo Hb Hf; [lia|]. simpl.
  destruct (Z.ltb_spec 0 (Z.of_nat k)) as [H0|H0]; cycle 1.
  { exists s, ns. split; [done|]. split; [by apply moved_refl|]. eapply up_end; [done|].
    intros p Hp. unfold child in Hp. lia. }
  destruct (places_ok s ns k H Hk) as (_ & _ & (p & Ep & Hp)); [lia|]. rewrite Ep.
  assert (p < k)%nat as Hpk by (unfold child in Hp; lia).
  destruct (cmp_nodes_ok s ns p k H Hc ltac:(lia) Hk) as (c & E & Hsg). erewrite bind_step by exact E.
  destruct (Z.leb_spec 0 c).
  - exists s, ns. split; [done|]. split; [by apply moved_refl|]. eapply up_end; [done|].
    intros q Hq _ _. assert (q = p) as -> by (unfold child in *; lia). lia.
  - destruct (node_swap_ok s ns p k H ltac:(lia) Hk ltac:(lia)) as (s1 & Es & Mv). erewrite bind_step by exact Es.
    destruct (IH p s1 (swapl p k ns)) as (s' & ns' & Eu & Mv' & Hh).
    + apply Mv.
    + eapply compares_perm; [apply Mv|done].
    + rewrite swapl_len. lia.
    + done.
    + rewrite swapl_len. eapply heap_but_up_ext; [intros i; apply rk_swapl; lia|].
      apply up_step; [done|done|done|lia|lia].
    + lia.
    + exists s', ns'. split; [exact Eu|]. split; [by eapply moved_trans|done].
Qed.

(** Both directions, after the entry at [k] was replaced or got another rank. *)
Lemma fix_ok k s ns : hrep s ns → compares ns → (k < hlen ns)%nat → heap_but 0 k (hlen ns) (rk ns) →
  ∃ s' ns', (__fix_downward cmp (Z.of_nat k);; __fix_upward cmp (Z.of_nat k)) s = Ret (TT_SUCCESS tt, s') ∧
    moved s ns s' ns' ∧ heap_from 0 (hlen ns') (rk ns').
Proof.
  intros H Hc Hk Hb. unfold __fix_downward, the_count.
  destruct (down_ok 0 k (S (Z.to_nat (hcount (heap s)))) k s ns H Hc ltac:(lia) ltac:(lia) Hb ltac:(by left))
    as (s1 & n1 & E1 & Mv1 & Hu).
  { rewrite (hr_count _ _ H). unfold zlen. lia. }
  erewrite bind_step by (erewrite bind_step by done; exact E1).
  pose proof (Permutation_length (mv_perm _ _ _ _ Mv1)) as Hl. unfold __fix_upward.
  destruct (up_ok 0 (S (Z.to_nat (Z.of_nat k))) k s1 n1) as (s' & ns' & E2 & Mv2 & Hh); try done; try lia.
  - apply Mv1.
  - eapply compares_perm; [apply Mv1|done].
  - exists s', ns'. split; [exact E2|]. split; [by eapply moved_trans|done].
Qed.

(** ** The operations *)

(** The entries of a heap in order: [E] in any order. *)
Definition has_queue (s : pstate) (E : list tt_phnode_t) : Prop :=
  ∃ ns, hrep s ns ∧ ns ≡ₚ E ∧ heap_from 0 (hlen ns) (rk ns).

Lemma rk_app_l ns ms i : (i < hlen ns)%nat → rk (ns ++ ms) i = rk ns i.
Proof. intros Hi. unfold rk. by rewrite lookup_app_l. Qed.
Lemma rk_insert_ne ns i nd j : j ≠ i → rk (<[i := nd]> ns) j = rk ns j.
Proof. intros Hj. unfold rk. by rewrite list_lookup_insert_ne. Qed.
Lemma heap_prefix ns ms : heap_from 0 (hlen (ns ++ ms)) (rk (ns ++ ms)) → heap_from 0 (hlen ns) (rk ns).
Proof.
  intros Hh p i Hp Hc Hi. rewrite <- !(rk_app_l ns ms) by (unfold child in Hc; lia).
  apply Hh; [done|done|]. rewrite length_app. lia.
Qed.

(** The head has the highest rank. *)
Lemma head_top s ns nd : hrep s ns → heap_from 0 (hlen ns) (rk ns) → ns !! 0%nat = Some nd →
  Forall (λ x, rank (np x) ≤ rank (np nd)) ns.
Proof.
  intros H Hh H0. apply Forall_forall. intros x [i Hx]%list_elem_of_lookup_1.
  pose proof (heap_root _ _ i Hh (lookup_lt_Some _ _ _ Hx)) as Hr. unfold rk in Hr. by rewrite Hx, H0 in Hr.
Qed.

(** Taking the entry at [i] out of a list: the last one takes its place. *)
Lemma take_out_perm (pre : list tt_phnode_t) last i x : pre !! i = Some x → pre ++ [last] ≡ₚ x :: <[i := last]> pre.
Proof.
  intros Hi. rewrite <- (take_drop_middle pre i x Hi) at 1.
  rewrite insert_take_drop by (by eapply lookup_lt_Some). rewrite <- app_assoc. simpl.
  rewrite <- !Permutation_middle. apply perm_skip. rewrite app_assoc, Permutation_app_comm. done.
Qed.
End compared.
