(* ===== verification/HeapQueue.v ===== *)
(** What each operation of the heap of pointers does to the queue of its entries,
    and the queue machine that any sequence of legal calls refines. *)

From S2P Require Import Prelude Util MemSpring Cells PtrHeap HeapSpec.
From stdpp Require Import gmap.

#[local] Open Scope Z_scope.

(** The variables and the growth policy stay. *)
Record alike (s s' : pstate) : Prop := {
  al_vars : dom (vars s') = dom (vars s);
  al_mspg : hmspg (heap s') = hmspg (heap s);
}.
Lemma alike_refl s : alike s s.
Proof. done. Qed.
Lemma alike_moved s1 s2 ns s3 ns' : alike s1 s2 → moved s2 ns s3 ns' → alike s1 s3.
Proof. intros [A B] [_ _ C D]. split; congruence. Qed.

Section ops.
Context `{Allocator}.
Implicit Types (s : pstate) (ns E : list tt_phnode_t) (nd : tt_phnode_t).

(** Why adding to [n] entries may fail. *)
Definition may_fail (mspg : tt_memspg_t) (n : Z) : Prop :=
  ¬ malloc_total ∨ max_limit mspg ≠ 0 ∨ 2 ^ 32 ≤ (n + 1) * sizeof_phnode + max_extend mspg.

Lemma reserve_ok s ns : hrep s ns → zlen ns + 1 < 2 ^ 28 →
  (∃ s', tt_ptrheap_reserve 1 s = Ret (TT_SUCCESS tt, s') ∧ hrep s' ns ∧ alike s s' ∧ vars s' = vars s ∧
    zlen ns < hcap (heap s')) ∨
  (tt_ptrheap_reserve 1 s = Ret (TT_ERROR TT_FAIL, s) ∧ may_fail (hmspg (heap s)) (zlen ns)).
Proof.
  intros Hr Hl. pose proof (hr_len _ _ Hr) as [_ Hcap]. pose proof (zlen_nonneg ns) as Hnn. pose proof (hr_size _ _ Hr) as Hs.
  unfold tt_ptrheap_reserve. erewrite bind_step by done. simpl. rewrite (hr_count _ _ Hr), u32_small by lia.
  destruct (Z.leb_spec (zlen ns + 1) (hcap (heap s))) as [Hle|Hle].
  { left. exists s. split; [done|]. split; [done|]. split; [apply alike_refl|]. split; [done|lia]. }
  assert (hcap (heap s) = zlen ns) as Ec by lia. unfold __ptrheap_reserve.
  pose proof (hr_cells _ _ Hr) as Hc. rewrite (hr_cap _ _ Hr) in Hc.
  assert (hsize (heap s) < (zlen ns + 1) * 16) as Hlt.
  { rewrite <- Ec, (hr_cap _ _ Hr). pose proof (Z.div_mod (hsize (heap s)) 16 ltac:(lia)).
    pose proof (Z.mod_pos_bound (hsize (heap s)) 16 ltac:(lia)). unfold sizeof_phnode. lia. }
  destruct (cells_extend_ok sizeof_phnode (hmspg (heap s)) (hnode (heap s)) (hsize (heap s)) ns
    (u32 (u32 (zlen ns + 1) * sizeof_phnode))) as [(b & n & E & Hb & Hn)|[E Hf]].
  - apply Hr.
  - done.
  - done.
  - rewrite !u32_small by (unfold sizeof_phnode; rewrite ?u32_small by lia; lia). unfold sizeof_phnode. lia.
  - apply u32_range.
  - left. erewrite bind_step by done. simpl. erewrite bind_step by (unfold call; rewrite Ec, E; done).
    eexists. split; [reflexivity|]. simpl.
    rewrite !u32_small in Hn by (unfold sizeof_phnode; rewrite ?u32_small by lia; lia). unfold sizeof_phnode in Hn.
    assert (zlen ns + 1 ≤ n / 16) by (apply Z.div_le_lower_bound; lia).
    split.
    { destruct Hr. split; try done; simpl; lia. }
    split; [done|]. split; [done|]. unfold sizeof_phnode. lia.
  - right. split.
    { erewrite bind_step by done. simpl. apply bind_error. unfold call. by rewrite Ec, E. }
    unfold may_fail. by rewrite !u32_small in Hf by (unfold sizeof_phnode; rewrite ?u32_small by lia; lia).
Qed.

(** An entry put after the last one. *)
Definition pushed s b nd (n : Z) : pstate :=
  mk_pstate (set_hcount (u32 (n + 1)) (set_hnode b (heap s))) (stored (vars s) (nidx nd) n).

Lemma pushed_rep s ns b nd : hrep s ns → cells_of b (hcap (heap s)) (ns ++ [nd]) → zlen ns < hcap (heap s) →
  (∀ a, nidx nd = Some a → ∀ x, x ∈ ns → nidx x ≠ Some a) → hrep (pushed s b nd (zlen ns)) (ns ++ [nd]).
Proof.
  intros Hr Hb Hlt Hfresh. pose proof (hr_len _ _ Hr) as [Hl _]. pose proof (zlen_nonneg ns). destruct Hr. split; simpl; try done.
  - rewrite zlen_app, u32_small by lia. done.
  - intros _. destruct (Z_lt_le_dec 0 (hsize (heap s))); [done|].
    assert (hsize (heap s) = 0) as Ez by lia. rewrite Ez, Zdiv_0_l in hr_cap. lia.
  - intros i x a Hi Ha. rewrite lookup_stored. destruct (decide (nidx nd = Some a)) as [En|En].
    + apply lookup_app_Some in Hi as [Hi|[Hi Hx]].
      * by destruct (Hfresh a En x); [eapply list_elem_of_lookup_2|].
      * apply list_lookup_singleton_Some in Hx as [Ei _]. unfold zlen. f_equal. lia.
    + apply lookup_app_Some in Hi as [Hi|[Hi Hx]]; [by eapply hr_idx|].
      apply list_lookup_singleton_Some in Hx as [_ ->]. done.
  - intros a z Ha Hno. rewrite lookup_stored, decide_False in Ha; [eapply hr_null; [done|]|].
    + intros x Hx. apply Hno. apply elem_of_app. by left.
    + apply Hno. apply elem_of_app. right. by apply list_elem_of_singleton.
Qed.

Context (cmp : ptr → ptr → exec Z) (rank : ptr → Z).
Notation has_queue := (has_queue rank).
Notation compares := (compares cmp rank).

(** An index variable that is free for a new entry. *)
Definition free_var s (idx : option ptr) E : Prop :=
  ∀ a, idx = Some a → is_Some (vars s !! a) ∧ ∀ x, x ∈ E → nidx x ≠ Some a.

Lemma put_next_ok s ns nd b : cell_put (hnode (heap s)) (zlen ns) nd = Ret b →
  put_node (zlen ns) nd s = Ret (TT_SUCCESS tt, mk_pstate (set_hnode b (heap s)) (vars s)).
Proof.
  intros E. unfold put_node. erewrite bind_step by done. simpl.
  erewrite bind_step by (unfold access; by rewrite E). done.
Qed.

Lemma last_heap_but ns nd : heap_from 0 (length ns) (rk rank ns) →
  heap_but_up 0 (length ns) (length (ns ++ [nd])) (rk rank (ns ++ [nd])).
Proof.
  intros Hh. rewrite length_app. simpl. split.
  - intros p i Hp Hc Hi Hne. rewrite !rk_app_l by (unfold child in Hc; lia). apply Hh; [done|done|lia].
  - intros p i _ _ Hc Hi. unfold child in Hc. lia.
Qed.

Lemma add_ok s E p idx : has_queue s E → compares (mk_phnode p idx :: E) → zlen E + 1 < 2 ^ 28 → free_var s idx E →
  (∃ s', tt_ptrheap_add cmp (Some p) idx s = Ret (TT_SUCCESS tt, s') ∧ has_queue s' (mk_phnode p idx :: E) ∧ alike s s') ∨
  (tt_ptrheap_add cmp (Some p) idx s = Ret (TT_ERROR TT_FAIL, s) ∧ may_fail (hmspg (heap s)) (zlen E)).
Proof.
  intros (ns & Hr & Hp & Hh) Hc Hl Hfree. set (nd := mk_phnode p idx).
  assert (zlen ns = zlen E) as El by (unfold zlen; by rewrite Hp). unfold tt_ptrheap_add.
  destruct (reserve_ok s ns Hr) as [(s1 & E1 & Hr1 & Ha1 & Hv1 & Hlt)|[E1 Hf]]; [lia| |]; cycle 1.
  { right. rewrite <- El. split; [by apply bind_error|done]. }
  left. erewrite bind_step by exact E1. unfold the_count. erewrite bind_step by done. rewrite (hr_count _ _ Hr1).
  destruct (cell_put_next _ _ _ nd (hr_cells _ _ Hr1) Hlt) as (b & Eb & Hb).
  erewrite bind_step by (by apply (put_next_ok _ ns nd b)).
  assert (has_var (vars s1) idx) as Hhv by (intros a Ea; rewrite Hv1; by apply Hfree).
  erewrite bind_step by (apply set_idx_ok; exact Hhv). erewrite bind_step by done.
  pose proof (pushed_rep s1 ns b nd Hr1 Hb Hlt) as Hr2. specialize (Hr2 ltac:(intros a Ea x Hx; apply Hfree; [done|by rewrite <- Hp])).
  pose proof (zlen_nonneg ns). rewrite u32_small by (rewrite u32_small by lia; lia). rewrite u32_small by lia.
  unfold __fix_upward. replace (zlen ns + 1 - 1) with (Z.of_nat (length ns)) by (unfold zlen; lia).
  destruct (up_ok cmp rank 0 (S (Z.to_nat (Z.of_nat (length ns)))) (length ns) _ _ Hr2) as (s' & ns' & Eu & Mv & Hh').
  - eapply compares_perm; [|exact Hc]. by rewrite Permutation_app_comm, Hp.
  - rewrite length_app. simpl. lia.
  - done.
  - by apply last_heap_but.
  - lia.
  - unfold pushed in Eu. simpl in Eu. rewrite u32_small in Eu by lia. exists s'. split; [exact Eu|].
    split.
    + exists ns'. split; [apply Mv|]. split; [|done]. rewrite (mv_perm _ _ _ _ Mv), Permutation_app_comm. by rewrite <- Hp.
    + eapply alike_moved; [|exact Mv]. split; [|apply Ha1]. simpl. rewrite stored_dom by done. apply Ha1.
Qed.

(** ** Removal *)

(** The state after the removed entry's variable was reset and the count
    decremented, and the one after the last entry took its place. *)
Definition dropped s (idx : option ptr) (n : Z) : pstate :=
  mk_pstate (set_hcount n (heap s)) (stored (vars s) idx TT_POS_NULL).
Definition replaced s b (idx last : option ptr) (i n : Z) : pstate :=
  mk_pstate (set_hnode b (set_hcount n (heap s))) (stored (stored (vars s) idx TT_POS_NULL) last i).

Lemma dropped_rep s pre nd : hrep s (pre ++ [nd]) → hrep (dropped s (nidx nd) (zlen pre)) pre.
Proof.
  intros Hr. assert ((pre ++ [nd]) !! length pre = Some nd) as Hn.
  { rewrite lookup_app_r, Nat.sub_diag by lia. done. }
  split; simpl; try apply Hr; try done.
  - eapply cells_of_prefix. apply Hr.
  - intros i x a Hi Ha. pose proof (lookup_lt_Some _ _ _ Hi).
    assert ((pre ++ [nd]) !! i = Some x) as Hi' by (by rewrite lookup_app_l).
    rewrite lookup_stored, decide_False; [by eapply hr_idx|]. intros En.
    pose proof (hr_inj _ _ _ _ _ _ _ Hr Hi' Hn Ha En). lia.
  - intros a z Hz Hno. rewrite lookup_stored in Hz. case_decide as Hd; [congruence|].
    eapply hr_null; [exact Hr|exact Hz|]. intros x [Hx| ->%list_elem_of_singleton]%elem_of_app; [by apply Hno|done].
Qed.

Lemma replaced_rep s pre last i nd b : hrep s (pre ++ [last]) → pre !! i = Some nd →
  cells_of b (hcap (heap s)) (<[i := last]> pre) → b ≠ None →
  hrep (replaced s b (nidx nd) (nidx last) (Z.of_nat i) (zlen pre)) (<[i := last]> pre).
Proof.
  intros Hr Hi Hb Hbn. pose proof (lookup_lt_Some _ _ _ Hi) as Hlt.
  assert ((pre ++ [last]) !! length pre = Some last) as Hl.
  { rewrite lookup_app_r, Nat.sub_diag by lia. done. }
  assert ((pre ++ [last]) !! i = Some nd) as Hi' by (by rewrite lookup_app_l).
  split; simpl; try apply Hr; try done.
  - unfold zlen. by rewrite length_insert.
  - intros _. apply Hr. intros E. pose proof (hr_cells _ _ Hr) as Hc. rewrite E in Hc. destruct Hc as [_ Hc]. by destruct pre.
  - intros j x a Hj Ha. rewrite !lookup_stored. destruct (decide (j = i)) as [->|Hji].
    { rewrite list_lookup_insert_eq in Hj by done. injection Hj as <-. by rewrite decide_True. }
    rewrite list_lookup_insert_ne in Hj by done. pose proof (lookup_lt_Some _ _ _ Hj).
    assert ((pre ++ [last]) !! j = Some x) as Hj' by (by rewrite lookup_app_l).
    rewrite !decide_False; [by eapply hr_idx|..]; intros En.
    + by pose proof (hr_inj _ _ _ _ _ _ _ Hr Hj' Hi' Ha En).
    + pose proof (hr_inj _ _ _ _ _ _ _ Hr Hj' Hl Ha En). lia.
  - intros a z Hz Hno. rewrite !lookup_stored in Hz. case_decide as Hd.
    { destruct (Hno last); [|done]. eapply list_elem_of_lookup_2. by apply list_lookup_insert_eq. }
    case_decide as Hd'; [congruence|]. eapply hr_null; [exact Hr|exact Hz|].
    intros x Hx. rewrite (take_out_perm _ _ _ _ Hi) in Hx. apply elem_of_cons in Hx as [->|Hx]; [done|by apply Hno].
Qed.

(** Moving the last entry over the one at [i]. *)
Lemma copy_ok s pre last (i : nat) : cells_of (hnode (heap s)) (hcap (heap s)) (pre ++ [last]) → (i < length pre)%nat →
  has_var (vars s) (nidx last) →
  ∃ b, __COPY_PH_NODE (Z.of_nat i) (zlen pre) s =
    Ret (TT_SUCCESS tt, mk_pstate (set_hnode b (heap s)) (stored (vars s) (nidx last) (Z.of_nat i))) ∧
    cells_of b (hcap (heap s)) (<[i := last]> pre) ∧ b ≠ None.
Proof.
  intros Hc Hi Hv. assert ((pre ++ [last]) !! length pre = Some last) as Hl.
  { rewrite lookup_app_r, Nat.sub_diag by lia. done. }
  unfold __COPY_PH_NODE. rewrite (proj2 (Z.eqb_neq _ _)) by (unfold zlen; lia). unfold zlen.
  erewrite bind_step.
  2:{ unfold get_node. erewrite bind_step by done. unfold access. by rewrite (cell_get_ok _ _ _ _ _ Hc Hl). }
  destruct (put_node_ok s _ _ i last Hc) as (b & Eb & Hb & Hn); [rewrite length_app; lia|].
  erewrite bind_step by exact Eb. exists b. rewrite set_idx_ok by done. split; [done|]. split; [|done].
  rewrite insert_app_l in Hb by done. by eapply cells_of_prefix.
Qed.

Lemma remove_ok s ns (i : nat) nd : hrep s ns → heap_from 0 (length ns) (rk rank ns) → compares ns → ns !! i = Some nd →
  ∃ s' E', tt_ptrheap_remove cmp (Z.of_nat i) s = Ret (TT_SUCCESS tt, s') ∧ has_queue s' E' ∧ ns ≡ₚ nd :: E' ∧ alike s s'.
Proof.
  intros Hr Hh Hc Hi. pose proof (lookup_lt_Some _ _ _ Hi) as Hlt. pose proof (hr_len _ _ Hr) as [Hl _].
  destruct (snoc_cases ns) as [->|(pre & last & ->)]; [done|].
  pose proof (zlen_nonneg pre). rewrite zlen_app in Hl. change (zlen [last]) with 1 in Hl.
  rewrite length_app in Hlt. simpl in Hlt. assert (Z.of_nat i < zlen pre + 1) as Hiz by (unfold zlen; lia).
  unfold tt_ptrheap_remove, the_count. erewrite bind_step by done. rewrite (hr_count _ _ Hr).
  rewrite zlen_app. change (zlen [last]) with 1. b_step.
  erewrite bind_step by done. erewrite bind_step by (by eapply get_node_ok).
  pose proof (hr_has_var _ _ _ _ Hr Hi) as Hv. erewrite bind_step by (by apply set_idx_ok). erewrite bind_step by done.
  rewrite u32_small by lia. replace (zlen pre + 1 - 1) with (zlen pre) by lia.
  pose proof (heap_prefix rank _ _ Hh) as Hpre.
  destruct (Z.eqb_spec (Z.of_nat i) (zlen pre)) as [Ei|Ei]; simpl.
  - assert (i = length pre) as -> by (unfold zlen in Ei; lia).
    rewrite lookup_app_r, Nat.sub_diag in Hi by lia. injection Hi as ->.
    exists (dropped s (nidx nd) (zlen pre)), pre. split; [done|]. split.
    { exists pre. split; [by apply dropped_rep|done]. }
    split; [by rewrite Permutation_app_comm|]. split; [|done]. by apply stored_dom.
  - assert (i < length pre)%nat as Hip by (unfold zlen in *; lia). rewrite lookup_app_l in Hi by done.
    set (s1 := mk_pstate (set_hcount (zlen pre) (heap s)) (stored (vars s) (nidx nd) TT_POS_NULL)).
    assert ((pre ++ [last]) !! length pre = Some last) as Hlast by (rewrite lookup_app_r, Nat.sub_diag by lia; done).
    assert (has_var (vars s1) (nidx last)) as Hv1.
    { eapply has_var_dom; [|by eapply hr_has_var]. simpl. by apply stored_dom. }
    destruct (copy_ok s1 pre last i (hr_cells _ _ Hr) Hip Hv1) as (b & Eb & Hb & Hbn).
    erewrite bind_step by exact Eb.
    pose proof (replaced_rep s pre last i nd b Hr Hi Hb Hbn) as Hr2.
    pose proof (take_out_perm pre last i nd Hi) as Hperm.
    destruct (fix_ok cmp rank i _ _ Hr2) as (s' & ns' & Ef & Mv & Hh').
    + intros x y Hx Hy. apply Hc; rewrite Hperm; apply elem_of_cons; by right.
    + by rewrite length_insert.
    + rewrite length_insert. eapply heap_but_of; [exact Hpre| |lia]. intros j Hj. by apply rk_insert_ne.
    + exists s', (<[i := last]> pre). split; [exact Ef|]. split; [exists ns'; split; [apply Mv|split; [apply Mv|done]]|].
      split; [done|]. eapply alike_moved; [|exact Mv]. split; [|done]. simpl. rewrite stored_dom by done. simpl. by apply stored_dom.
Qed.

(** ** The other operations *)

Lemma queue_perm s E E' : E' ≡ₚ E → has_queue s E → has_queue s E'.
Proof. intros Hp (ns & Hr & Hn & Hh). exists ns. split; [done|]. split; [by rewrite Hn, Hp|done]. Qed.


Lemma other_entry ns E (i j : nat) nd x : ns !! i = Some nd → ns ≡ₚ nd :: E → ns !! j = Some x → j ≠ i → x ∈ E.
Proof.
  intros Hi Hp Hj Hne. rewrite <- (take_drop_middle ns i nd Hi) in Hp.
  rewrite <- Permutation_middle in Hp. apply Permutation_cons_inv in Hp. rewrite <- Hp.
  apply elem_of_app. destruct (decide (j < i)%nat).
  - left. eapply list_elem_of_lookup_2. by rewrite lookup_take_lt.
  - right. apply (list_elem_of_lookup_2 _ (j - S i)). rewrite lookup_drop. by replace (S i + (j - S i))%nat with j by lia.
Qed.

(** The entry that names a variable is where the variable says. *)
Lemma find_entry s ns nd a : hrep s ns → nd ∈ ns → nidx nd = Some a →
  ∃ i : nat, vars s !! a = Some (Z.of_nat i) ∧ ns !! i = Some nd.
Proof. intros Hr [i Hi]%list_elem_of_lookup_1 Ha. exists i. split; [by eapply hr_idx|done]. Qed.

(** Ranks of other pointers do not matter. *)
Lemma rerank rank0 s E : HeapSpec.has_queue rank0 s E → (∀ x, x ∈ E → rank (np x) = rank0 (np x)) → has_queue s E.
Proof.
  intros (ns & Hr & Hp & Hh) Ha. exists ns. split; [done|]. split; [done|].
  assert (∀ i, (i < length ns)%nat → rk rank ns i = rk rank0 ns i) as Hrk.
  { intros i [x Hx]%lookup_lt_is_Some_2. unfold rk. rewrite Hx. apply Ha. rewrite <- Hp. by eapply list_elem_of_lookup_2. }
  intros p i H0 Hc Hi. rewrite !Hrk by (unfold child in Hc; lia). by apply Hh.
Qed.

Lemma fix_key_ok rank0 s E E' nd a : HeapSpec.has_queue rank0 s E → compares E → E ≡ₚ nd :: E' → nidx nd = Some a →
  (∀ x, x ∈ E' → rank (np x) = rank0 (np x)) →
  ∃ i s', vars s !! a = Some i ∧ tt_ptrheap_fix cmp i s = Ret (TT_SUCCESS tt, s') ∧ has_queue s' E ∧ alike s s'.
Proof.
  intros (ns & Hr & Hp & Hh) Hc HE Ha Hag.
  destruct (find_entry s ns nd a Hr) as (i & Hv & Hi); [rewrite Hp, HE; by constructor|done|].
  exists (Z.of_nat i). pose proof (lookup_lt_Some _ _ _ Hi).
  unfold tt_ptrheap_fix, the_count. rewrite <- Hp in HE.
  destruct (fix_ok cmp rank i s ns Hr) as (s' & ns' & Ef & Mv & Hh').
  - eapply compares_perm; [exact Hp|done].
  - done.
  - apply (heap_but_of 0 i (length ns) (rk rank0 ns)); [done| |lia].
    intros j Hj. unfold rk. destruct (ns !! j) as [x|] eqn:Ej; [|done]. apply Hag. by apply (other_entry ns E' i j nd x).
  - exists s'. split; [done|]. erewrite bind_step by done. rewrite (hr_count _ _ Hr).
    replace (Z.of_nat i <? zlen ns) with true by (symmetry; apply Z.ltb_lt; unfold zlen; lia).
    erewrite bind_step by done. split; [exact Ef|]. split; [|eapply alike_moved; [apply alike_refl|exact Mv]].
    exists ns'. split; [apply Mv|]. split; [|done]. by rewrite (mv_perm _ _ _ _ Mv), Hp.
Qed.

Lemma remove_key_ok s E nd a : has_queue s E → compares E → nd ∈ E → nidx nd = Some a →
  ∃ i s' E', vars s !! a = Some i ∧ tt_ptrheap_remove cmp i s = Ret (TT_SUCCESS tt, s') ∧ has_queue s' E' ∧
    E ≡ₚ nd :: E' ∧ alike s s'.
Proof.
  intros (ns & Hr & Hp & Hh) Hc HE Ha. destruct (find_entry s ns nd a Hr) as (i & Hv & Hi); [by rewrite Hp|done|].
  destruct (remove_ok s ns i nd Hr Hh) as (s' & E' & Er & Hq & Hpe & Hal); [eapply compares_perm; [exact Hp|done]|done|].
  exists (Z.of_nat i), s', E'. split; [done|]. split; [done|]. split; [done|]. split; [by rewrite <- Hp|done].
Qed.

(** The entries that may be on top. *)
Definition on_top nd E : Prop := nd ∈ E ∧ Forall (λ x, rank (np x) ≤ rank (np nd)) E.

Lemma root_entry s E : has_queue s E → E ≠ [] → ∃ ns nd, hrep s ns ∧ ns ≡ₚ E ∧ heap_from 0 (length ns) (rk rank ns) ∧
  ns !! 0%nat = Some nd ∧ on_top nd E ∧ hcount (heap s) =? 0 = false.
Proof.
  intros (ns & Hr & Hp & Hh) HE. destruct ns as [|nd ns]; [by apply Permutation_nil_l in Hp|].
  exists (nd :: ns), nd. split; [done|]. split; [done|]. split; [done|]. split; [done|]. split; [split|].
  - rewrite <- Hp. by constructor.
  - rewrite <- Hp. by eapply head_top.
  - rewrite (hr_count _ _ Hr), zlen_cons. pose proof (zlen_nonneg ns). apply Z.eqb_neq. lia.
Qed.
Lemma empty_count s : has_queue s [] → hcount (heap s) =? 0 = true.
Proof. intros (ns & Hr & Hp & _). apply Permutation_nil_r in Hp as ->. by rewrite (hr_count _ _ Hr). Qed.

Lemma queue_head_ok s E : has_queue s E → match E with
  | [] => tt_ptrheap_head s = Ret (TT_SUCCESS None, s)
  | _ => ∃ nd, on_top nd E ∧ tt_ptrheap_head s = Ret (TT_SUCCESS (Some (np nd)), s)
  end.
Proof.
  intros Hq. unfold tt_ptrheap_head, the_count. erewrite bind_step by done. destruct E as [|x E].
  - by rewrite empty_count.
  - destruct (root_entry s _ Hq) as (ns & nd & Hr & Hp & Hh & H0 & Ht & ->); [done|]. exists nd. split; [done|].
    by erewrite bind_step by (by apply (get_node_ok s ns 0)).
Qed.

(** Popping takes the head. *)
Lemma head_pop_ok s E : has_queue s E → compares E → E ≠ [] → ∃ nd s' E', on_top nd E ∧ E ≡ₚ nd :: E' ∧ has_queue s' E' ∧
  alike s s' ∧ tt_ptrheap_head s = Ret (TT_SUCCESS (Some (np nd)), s) ∧
  tt_ptrheap_pop cmp s = Ret (TT_SUCCESS (Some (np nd)), s').
Proof.
  intros Hq Hc HE. destruct (root_entry s _ Hq HE) as (ns & nd & Hr & Hp & Hh & H0 & Ht & Hz).
  destruct (remove_ok s ns 0 nd Hr Hh) as (s' & E' & Er & Hq' & Hpe & Hal); [eapply compares_perm; [exact Hp|done]|done|].
  exists nd, s', E'. split; [done|]. split; [by rewrite <- Hp|]. split; [done|]. split; [done|].
  unfold tt_ptrheap_head, tt_ptrheap_pop, the_count. split.
  - erewrite bind_step by done. rewrite Hz. by erewrite bind_step by (by apply (get_node_ok s ns 0)).
  - erewrite bind_step by done. rewrite Hz. erewrite bind_step by (by apply (get_node_ok s ns 0)). by erewrite bind_step by exact Er.
Qed.

Lemma pop_ok s E : has_queue s E → compares E → match E with
  | [] => tt_ptrheap_pop cmp s = Ret (TT_SUCCESS None, s)
  | _ => ∃ nd s' E', on_top nd E ∧ E ≡ₚ nd :: E' ∧ has_queue s' E' ∧ alike s s' ∧
      tt_ptrheap_pop cmp s = Ret (TT_SUCCESS (Some (np nd)), s')
  end.
Proof.
  intros Hq Hc. destruct E as [|x E].
  - unfold tt_ptrheap_pop, the_count. erewrite bind_step by done. by rewrite empty_count.
  - destruct (head_pop_ok s _ Hq Hc) as (nd & s' & E' & Ht & Hp & Hq' & Hal & _ & Ep); [done|].
    exists nd, s', E'. by rewrite <- Ep.
Qed.

Lemma count_ok s E : has_queue s E → tt_ptrheap_count s = Ret (TT_SUCCESS (zlen E), s).
Proof. intros (ns & Hr & Hp & _). unfold tt_ptrheap_count, the_count, gets. rewrite (hr_count _ _ Hr). unfold zlen. by rewrite Hp. Qed.

(** Resetting the variables from the [i]-th entry on. *)
Lemma phclear_ok fuel : ∀ (i : nat) s ns, cells_of (hnode (heap s)) (hcap (heap s)) ns → hcount (heap s) = zlen ns →
  zlen ns < 2 ^ 28 → (length ns - i < fuel)%nat → (i ≤ length ns)%nat →
  (∀ j nd a, (i ≤ j)%nat → ns !! j = Some nd → nidx nd = Some a → is_Some (vars s !! a)) →
  (∀ a z, vars s !! a = Some z → (∀ nd, nd ∈ drop i ns → nidx nd ≠ Some a) → z = TT_POS_NULL) →
  ∃ v, phclear_loop (Z.of_nat i) fuel s = Ret (TT_SUCCESS tt, mk_pstate (heap s) v) ∧ dom v = dom (vars s) ∧
    ∀ a z, v !! a = Some z → z = TT_POS_NULL.
Proof.
  induction fuel as [|fuel IH]; intros i s ns Hc Hn Hl Hf Hi Hv Hnull; [lia|]. simpl.
  unfold the_count. erewrite bind_step by done. rewrite Hn.
  destruct (Z.ltb_spec (Z.of_nat i) (zlen ns)) as [Hlt|Hge]; cycle 1.
  { exists (vars s). split; [by destruct s|]. split; [done|]. intros a z Ha. eapply Hnull; [done|].
    rewrite drop_ge by (unfold zlen in Hge; lia). intros nd Hnd. by apply not_elem_of_nil in Hnd. }
  assert (i < length ns)%nat as Hil by (unfold zlen in Hlt; lia). apply lookup_lt_is_Some_2 in Hil as [nd Hnd].
  erewrite bind_step.
  2:{ unfold get_node. erewrite bind_step by done. unfold access. by rewrite (cell_get_ok _ _ _ _ _ Hc Hnd). }
  assert (has_var (vars s) (nidx nd)) as Hhv by (intros a Ha; by apply (Hv i nd); [lia|..]).
  erewrite bind_step by (by apply set_idx_ok). rewrite u32_small by lia.
  replace (Z.of_nat i + 1) with (Z.of_nat (S i)) by lia.
  destruct (IH (S i) (mk_pstate (heap s) (stored (vars s) (nidx nd) TT_POS_NULL)) ns) as (v & E & Hd & Hall);
    try done; try (unfold zlen in *; lia).
  - intros j x a Hj Hx Ha. simpl. eapply (has_var_dom (vars s) _ (nidx x)); [by apply stored_dom| |exact Ha].
    intros b Hb. eapply (Hv j x); [lia|done|done].
  - simpl. intros a z Hz Hno. rewrite lookup_stored in Hz. case_decide as Hd; [congruence|].
    eapply Hnull; [done|]. intros x Hx. erewrite drop_S in Hx by done. apply elem_of_cons in Hx as [->|Hx]; [done|by apply Hno].
  - exists v. simpl in E, Hd. rewrite E. split; [done|]. split; [|done]. rewrite Hd. by apply stored_dom.
Qed.

Lemma queue_clear_ok s E : has_queue s E → ∃ s', tt_ptrheap_clear s = Ret (TT_SUCCESS tt, s') ∧ has_queue s' [] ∧ alike s s'.
Proof.
  intros (ns & Hr & Hp & _). unfold tt_ptrheap_clear, the_count. erewrite bind_step by done.
  destruct (phclear_ok (S (Z.to_nat (hcount (heap s)))) 0 s ns) as (v & Ec & Hd & Hall); try apply Hr.
  - by eapply hr_len.
  - rewrite (hr_count _ _ Hr). unfold zlen. lia.
  - lia.
  - intros j nd a _ Hj Ha. rewrite (hr_idx _ _ Hr _ _ _ Hj Ha). eauto.
  - erewrite bind_step by exact Ec. eexists. split; [reflexivity|]. split; [|done]. exists []. split; [|done].
    split; simpl; try apply Hr; try done.
    + apply (cells_of_prefix _ _ [] ns). apply Hr.
    + intros a z Ha _. by eapply Hall.
Qed.

(** The search compares with every entry; [p] must be comparable with all. *)
Definition has_rank p E : bool := bool_decide (Exists (λ x, rank (np x) = rank p) E).
Lemma contain_loop_ok p fuel : ∀ (i : nat) s ns, hrep s ns → compares (mk_phnode p None :: ns) →
  (length ns - i < fuel)%nat → (i ≤ length ns)%nat →
  contain_loop cmp p (Z.of_nat i) fuel s = Ret (TT_SUCCESS (has_rank p (drop i ns)), s).
Proof.
  induction fuel as [|fuel IH]; intros i s ns Hr Hc Hf Hi; [lia|]. simpl.
  pose proof (hr_len _ _ Hr) as [Hl _]. unfold the_count. erewrite bind_step by done. rewrite (hr_count _ _ Hr).
  destruct (Z.ltb_spec (Z.of_nat i) (zlen ns)) as [Hlt|Hge]; cycle 1.
  { rewrite drop_ge by (unfold zlen in Hge; lia). done. }
  assert (i < length ns)%nat as Hil by (unfold zlen in Hlt; lia). apply lookup_lt_is_Some_2 in Hil as [nd Hnd].
  erewrite bind_step by (by eapply get_node_ok).
  destruct (Hc nd (mk_phnode p None)) as (k & Ek & Hs); [|by constructor|].
  { constructor. by eapply list_elem_of_lookup_2. }
  simpl in Ek, Hs. erewrite bind_step by (unfold access; by rewrite Ek).
  erewrite drop_S by done. unfold has_rank. destruct (Z.eqb_spec k 0) as [->|Hk].
  - rewrite bool_decide_true; [done|]. apply Exists_cons. left. simpl in Hs. lia.
  - rewrite u32_small by lia. replace (Z.of_nat i + 1) with (Z.of_nat (S i)) by lia.
    rewrite (IH (S i) s ns) by (done || (unfold zlen in *; lia)). do 3 f_equal. unfold has_rank. apply bool_decide_ext.
    rewrite Exists_cons. split; [by right|]. intros [Hx|Hx]; [|done]. lia.
Qed.
Lemma contain_ok s E p : has_queue s E → compares (mk_phnode p None :: E) →
  tt_ptrheap_contain cmp p s = Ret (TT_SUCCESS (has_rank p E), s).
Proof.
  intros (ns & Hr & Hp & _) Hc. unfold tt_ptrheap_contain, the_count. erewrite bind_step by done.
  rewrite (contain_loop_ok p _ 0 s ns Hr).
  - do 3 f_equal. apply bool_decide_ext. rewrite drop_0. by rewrite Hp.
  - eapply compares_perm; [|exact Hc]. by rewrite Hp.
  - rewrite (hr_count _ _ Hr). unfold zlen. lia.
  - lia.
Qed.
(** ** Building and checking *)

Lemma build_loop_ok fuel : ∀ (lo : nat) s ns, hrep s ns → compares ns → (lo < length ns)%nat → (lo < fuel)%nat →
  heap_from lo (length ns) (rk rank ns) →
  ∃ s' ns', build_loop cmp (u32 (Z.of_nat lo - 1)) fuel s = Ret (TT_SUCCESS tt, s') ∧ moved s ns s' ns' ∧
    heap_from 0 (length ns') (rk rank ns').
Proof.
  induction fuel as [|fuel IH]; intros lo s ns Hr Hc Hlo Hf Hh; [lia|]. simpl.
  pose proof (hr_len _ _ Hr) as [Hl _]. unfold zlen in Hl. destruct lo as [|i].
  { exists s, ns. split; [done|]. split; [by apply moved_refl|done]. }
  replace (Z.of_nat (S i) - 1) with (Z.of_nat i) by lia. rewrite u32_small by lia. unfold TT_POS_NULL, u32_max.
  b_step. unfold __fix_downward, the_count.
  destruct (down_ok cmp rank i i (S (Z.to_nat (hcount (heap s)))) i s ns Hr Hc) as (s1 & n1 & E1 & Mv1 & [Hu _]); try lia.
  - split; [|intros p j Hp ? _ _; unfold child in Hp; lia].
    intros p j Hp Hcj Hj _ Hne. apply Hh; [lia|done|done].
  - rewrite (hr_count _ _ Hr). unfold zlen. lia.
  - erewrite bind_step by (erewrite bind_step by done; exact E1).
    pose proof (Permutation_length (mv_perm _ _ _ _ Mv1)) as Hlen.
    destruct (IH i s1 n1) as (s' & ns' & E2 & Mv2 & Hh'); try lia.
    + apply Mv1.
    + eapply compares_perm; [apply Mv1|done].
    + intros p j Hp Hcj Hj. apply Hu; [done|done|done|]. unfold child in Hcj. lia.
    + exists s', ns'. split; [exact E2|]. split; [by eapply moved_trans|done].
Qed.

(** [__build_heap], which nothing calls, orders two or more entries. *)
Lemma build_ok s ns : hrep s ns → compares ns → (2 ≤ length ns)%nat →
  ∃ s' ns', __build_heap cmp s = Ret (TT_SUCCESS tt, s') ∧ moved s ns s' ns' ∧ heap_from 0 (length ns') (rk rank ns').
Proof.
  intros Hr Hc Hn. pose proof (hr_len _ _ Hr) as [Hl _]. unfold __build_heap, the_count. erewrite bind_step by done.
  rewrite (hr_count _ _ Hr). rewrite (proj2 (Z.eqb_neq _ _)) by (unfold zlen; lia).
  rewrite u32_small by (unfold zlen in *; lia).
  replace (zlen ns - 1) with (Z.of_nat (length ns - 1)) by (unfold zlen; lia).
  destruct (places_ok s ns (length ns - 1) Hr) as (_ & _ & (p & -> & Hp)); [lia..|].
  assert (p < length ns - 1)%nat by (unfold child in Hp; lia).
  replace (Z.of_nat p) with (u32 (Z.of_nat (S p) - 1)).
  2:{ rewrite u32_small by (unfold zlen in *; lia). lia. }
  apply build_loop_ok; [done|done|lia|unfold zlen; lia|].
  intros q i Hq Hci Hi. unfold child in *. lia.
Qed.

Lemma bind_crash {A B} (m : M pstate A) (k : A → M pstate B) s : m s = Crash → (m ≫= k) s = Crash.
Proof. unfold mbind, M_bind, bind. by intros ->. Qed.

(** The places below [k], itself included. *)
Definition ordered_below (k n : nat) (r : nat → Z) : Prop := ∀ p i, rtc child k p → child p i → (i < n)%nat → r i ≤ r p.

Lemma ordered_below_split k n r : (k < n)%nat → ordered_below k n r ↔
  ∀ c, child k c → (c < n)%nat → r c ≤ r k ∧ ordered_below c n r.
Proof.
  intros Hk. split.
  - intros H1 c Hc Hn. split; [by apply H1|]. intros p i Hp. apply H1. by eapply rtc_l.
  - intros H1 p i Hp Hci Hi. apply rtc_inv in Hp as [->|(c & Hc & Hp)]; [by apply H1|].
    assert (c ≤ p)%nat as Hcp. { clear -Hp. induction Hp as [|a b d Hab _ IH]; [done|]. unfold child in Hab. lia. }
    destruct (H1 c Hc) as [_ Hb]; [unfold child in Hci; lia|]. by apply Hb.
Qed.
Lemma ordered_below_root n r : ordered_below 0 n r ↔ heap_from 0 n r.
Proof.
  split; intros H1 p i Hp Hci Hi; (apply H1; [|done|done]); [|lia].
  clear. induction p as [p IH] using lt_wf_ind. destruct p as [|p]; [done|].
  destruct (Nat.Even_or_Odd p) as [[q ->]|[q ->]]; (eapply rtc_r; [apply (IH q); lia|unfold child; lia]).
Qed.

(** The check of debug builds succeeds exactly if the entries are in order. *)
Lemma sanity_loop_ok fuel : ∀ (k : nat) s ns, hrep s ns → compares ns → (k < length ns)%nat → (length ns - k < fuel)%nat →
  let ok := ordered_below k (length ns) (rk rank ns) in
  (sanity_check cmp (Z.of_nat k) fuel s = Ret (TT_SUCCESS tt, s) ∧ ok) ∨ (sanity_check cmp (Z.of_nat k) fuel s = Crash ∧ ¬ ok).
Proof.
  induction fuel as [|fuel IH]; intros k s ns Hr Hc Hk Hf; [lia|]. cbv zeta.
  rewrite ordered_below_split by done. simpl. destruct (places_ok s ns k Hr Hk) as (-> & -> & _).
  set (side := λ c : Z, n ← the_count; if c <? n then z ← cmp_nodes cmp c (Z.of_nat k); if 0 <? z then crash else sanity_check cmp c fuel else mret tt).
  assert (∀ c : nat, child k c → let okc := (c < length ns)%nat → rk rank ns c ≤ rk rank ns k ∧ ordered_below c (length ns) (rk rank ns) in
    (side (Z.of_nat c) s = Ret (TT_SUCCESS tt, s) ∧ okc) ∨ (side (Z.of_nat c) s = Crash ∧ ¬ okc)) as Hside.
  { intros c Hck okc. unfold side, the_count. erewrite bind_step by done. rewrite (hr_count _ _ Hr).
    destruct (Z.ltb_spec (Z.of_nat c) (zlen ns)) as [Hlt|Hge]; [|left; split; [done|]; intros Hlt; unfold zlen in Hge; lia].
    assert (c < length ns)%nat as Hcn by (unfold zlen in Hlt; lia).
    destruct (cmp_nodes_ok cmp rank s ns c k Hr Hc Hcn Hk) as (z & Ez & Hz). erewrite bind_step by exact Ez.
    destruct (Z.ltb_spec 0 z); [right; split; [done|]; intros Hok; destruct (Hok Hcn); lia|].
    destruct (IH c s ns Hr Hc Hcn) as [[E Hok]|[E Hok]]; [unfold child in Hck; lia|left|right].
    - split; [done|]. intros _. split; [lia|done].
    - split; [done|]. intros Hok'. by destruct (Hok' Hcn). }
  destruct (Hside (2 * k + 1)%nat) as [[El Hl]|[El Hl]]; [by left| |].
  - erewrite bind_step by exact El. destruct (Hside (2 * k + 2)%nat) as [[Er Hrr]|[Er Hrr]]; [by right|left|right].
    + split; [exact Er|]. by intros c [->| ->].
    + split; [exact Er|]. intros Hok. apply Hrr. apply Hok. by right.
  - right. split; [|intros Hok; apply Hl; apply Hok; by left]. by apply bind_crash.
Qed.
Lemma sanity_ok s ns : hrep s ns → compares ns → ns ≠ [] → let ok := heap_from 0 (length ns) (rk rank ns) in
  (__ph_sanity_check cmp 0 s = Ret (TT_SUCCESS tt, s) ∧ ok) ∨ (__ph_sanity_check cmp 0 s = Crash ∧ ¬ ok).
Proof.
  intros Hr Hc Hne ok. unfold ok. rewrite <- ordered_below_root. unfold __ph_sanity_check, the_count. erewrite bind_step by done.
  assert (0 < length ns)%nat by (destruct ns; simpl; [done|lia]).
  apply (sanity_loop_ok _ 0 s ns Hr Hc); [done|]. rewrite (hr_count _ _ Hr). unfold zlen. lia.
Qed.
End ops.

(** ** Life of a heap *)

Definition attr_ok (a : tt_ptrheap_attr_t) : Prop :=
  0 < min_extent_num a < max_extent_num a ∧ max_extent_num a ≤ 2 ^ 26 ∧
  (max_limit_num a = 0 ∨ max_extent_num a < max_limit_num a < 2 ^ 28).
Definition all_null (v : gmap ptr Z) : Prop := ∀ a z, v !! a = Some z → z = TT_POS_NULL.

Lemma init_ok rank attr v : attr_ok (default tt_ptrheap_attr_default attr) → all_null v →
  ∃ h, tt_ptrheap_init attr = Ret h ∧ has_queue rank (mk_pstate h v) [].
Proof.
  set (a := default tt_ptrheap_attr_default attr). intros (Hm & Hx & Hl) Hv.
  assert (tt_ptrheap_init attr = tt_ptrheap_init (Some a)) as -> by (by destruct attr).
  unfold tt_ptrheap_init. clearbody a.
  assert (∀ n, 0 ≤ n < 2 ^ 28 → TT_U32_MUL_WOULD_OVFL sizeof_phnode n = false ∧ u32 (n * sizeof_phnode) = n * 16) as Hn.
  { intros n Hn. unfold TT_U32_MUL_WOULD_OVFL, sizeof_phnode, u64, u32_max. rewrite Z.mod_small by lia.
    split; [apply Z.ltb_ge; lia|]. by rewrite u32_small by lia. }
  destruct (Hn (min_extent_num a)) as [-> ->]; [lia|]. destruct (Hn (max_extent_num a)) as [-> ->]; [lia|].
  destruct (Hn (max_limit_num a)) as [-> ->]; [lia|]. simpl. unfold tt_memspg_init.
  assert (((max_limit_num a * 16 =? 0) || (max_extent_num a * 16 <? max_limit_num a * 16)) = true) as ->.
  { apply orb_true_iff. destruct Hl as [->|Hl]; [by left|right]. apply Z.ltb_lt. lia. }
  repeat b_step. simpl. eexists. split; [done|]. exists []. split; [|split; [done|]].
  - split; simpl; try done.
    + unfold memspg_wf. simpl. lia.
    + intros b z Hb _. by eapply Hv.
  - intros p i _ _ Hi. simpl in Hi. lia.
Qed.

Lemma heap_destroy_ok rank s E : has_queue rank s E → ∃ s', tt_ptrheap_destroy s = Ret (TT_SUCCESS tt, s') ∧
  hnode (heap s') = None ∧ dom (vars s') = dom (vars s) ∧ all_null (vars s').
Proof.
  intros Hq. destruct (queue_clear_ok rank s E Hq) as (s1 & E1 & (ns & Hr & Hp & _) & Hal).
  apply Permutation_nil_r in Hp as ->. unfold tt_ptrheap_destroy. erewrite bind_step by exact E1. erewrite bind_step by done.
  assert (all_null (vars s1)) as Hn.
  { intros a z Ha. eapply hr_null; [done..|]. intros nd Hnd. by apply not_elem_of_nil in Hnd. }
  destruct (hnode (heap s1)) as [b|] eqn:Eb; [|exists s1; split; [done|]; split; [done|]; split; [apply Hal|done]].
  unfold cells_free. pose proof (hr_block _ _ Hr ltac:(by rewrite Eb)). rewrite (proj2 (Z.ltb_lt _ _)) by done.
  eexists. split; [reflexivity|]. simpl. split; [done|]. split; [apply Hal|done].
Qed.

(** ** Sequences of calls *)

(** Entries are addressed by their variables. *)
Inductive hop : Type :=
  | HAdd (p idx : option ptr)
  | HRemove (a : ptr)
  | HFix (a : ptr)
  | HPop | HHead | HCount
  | HContain (p : ptr)
  | HClear.
Inductive hres : Type :=
  | HDone
  | HFail (e : tt_err)
  | HPtr (p : option ptr)
  | HNum (n : Z)
  | HBool (b : bool).

(** A call, with what the comparison does at that time and the ranks behind it. *)
Record hcall : Type := mk_hcall { c_cmp : ptr → ptr → exec Z; c_rank : ptr → Z; c_op : hop }.

Definition read_var (a : ptr) : M pstate Z := λ s,
  match vars s !! a with Some z => Ret (TT_SUCCESS z, s) | None => Undef end.

Definition run_call `{Allocator} (c : hcall) : M pstate hres :=
  match c_op c with
  | HAdd p idx =>
      r ← try (tt_ptrheap_add (c_cmp c) p idx);
      mret (match r with TT_SUCCESS _ => HDone | TT_ERROR e => HFail e end)
  | HRemove a => i ← read_var a; tt_ptrheap_remove (c_cmp c) i;; mret HDone
  | HFix a => i ← read_var a; tt_ptrheap_fix (c_cmp c) i;; mret HDone
  | HPop => p ← tt_ptrheap_pop (c_cmp c); mret (HPtr p)
  | HHead => p ← tt_ptrheap_head; mret (HPtr p)
  | HCount => n ← tt_ptrheap_count; mret (HNum n)
  | HContain p => b ← tt_ptrheap_contain (c_cmp c) p; mret (HBool b)
  | HClear => tt_ptrheap_clear;; mret HDone
  end.
Fixpoint run_calls `{Allocator} (cs : list hcall) : M pstate (list hres) :=
  match cs with
  | [] => mret []
  | c :: cs => r ← run_call c; rs ← run_calls cs; mret (r :: rs)
  end.

(** A legal call: the comparison is that of the ranks, which have not changed since
    the last call but for the entry that is fixed; a new entry's variable is
    free; the entry to remove or to fix is in the heap. *)
Definition compared_by (o : hop) (E : list tt_phnode_t) : list tt_phnode_t :=
  match o with
  | HAdd (Some p) idx => mk_phnode p idx :: E
  | HContain p => mk_phnode p None :: E
  | _ => E
  end.
Definition legal_call (A : gset ptr) (rank : ptr → Z) (E : list tt_phnode_t) (c : hcall) : Prop :=
  compares (c_cmp c) (c_rank c) (compared_by (c_op c) E) ∧
  (∀ x, x ∈ E → (∀ a, c_op c = HFix a → nidx x ≠ Some a) → c_rank c (np x) = rank (np x)) ∧
  match c_op c with
  | HAdd (Some _) idx => zlen E + 1 < 2 ^ 28 ∧ (∀ a, idx = Some a → a ∈ A ∧ ∀ x, x ∈ E → nidx x ≠ Some a)
  | HRemove a | HFix a => ∃ x, x ∈ E ∧ nidx x = Some a
  | _ => True
  end.

(** The queue machine, entries in any order. *)
Inductive qstep `{Allocator} (mspg : tt_memspg_t) (rank : ptr → Z) (E : list tt_phnode_t) : hop → hres → list tt_phnode_t → Prop :=
  | q_add p idx : qstep mspg rank E (HAdd (Some p) idx) HDone (mk_phnode p idx :: E)
  | q_add_full p idx : may_fail mspg (zlen E) → qstep mspg rank E (HAdd (Some p) idx) (HFail TT_FAIL) E
  | q_add_null idx : qstep mspg rank E (HAdd None idx) (HFail TT_FAIL) E
  | q_remove a x E' : E ≡ₚ x :: E' → nidx x = Some a → qstep mspg rank E (HRemove a) HDone E'
  | q_fix a : qstep mspg rank E (HFix a) HDone E
  | q_pop_none : E = [] → qstep mspg rank E HPop (HPtr None) E
  | q_pop x E' : on_top rank x E → E ≡ₚ x :: E' → qstep mspg rank E HPop (HPtr (Some (np x))) E'
  | q_head_none : E = [] → qstep mspg rank E HHead (HPtr None) E
  | q_head x : on_top rank x E → qstep mspg rank E HHead (HPtr (Some (np x))) E
  | q_count : qstep mspg rank E HCount (HNum (zlen E)) E
  | q_contain p : qstep mspg rank E (HContain p) (HBool (has_rank rank p E)) E
  | q_clear : qstep mspg rank E HClear HDone [].

(** Calls that are legal whatever the machine answers. *)
Fixpoint legal_calls `{Allocator} (A : gset ptr) mspg rank E (cs : list hcall) : Prop :=
  match cs with
  | [] => True
  | c :: cs => legal_call A rank E c ∧ ∀ r E', qstep mspg (c_rank c) E (c_op c) r E' → legal_calls A mspg (c_rank c) E' cs
  end.
Inductive qrun `{Allocator} mspg : (ptr → Z) → list tt_phnode_t → list hcall → list hres → (ptr → Z) → list tt_phnode_t → Prop :=
  | qrun_nil rank E : qrun mspg rank E [] [] rank E
  | qrun_cons rank E c cs r rs E1 rank' E' : qstep mspg (c_rank c) E (c_op c) r E1 →
      qrun mspg (c_rank c) E1 cs rs rank' E' → qrun mspg rank E (c :: cs) (r :: rs) rank' E'.

Section machine.
Context `{Allocator}.
Implicit Types (s : pstate) (E : list tt_phnode_t).

Lemma names_once rank s E E' x a : has_queue rank s E → E ≡ₚ x :: E' → nidx x = Some a → ∀ y, y ∈ E' → nidx y ≠ Some a.
Proof.
  intros (ns & Hr & Hp & _) HE Ha y Hy Hya. rewrite <- Hp in HE.
  destruct (find_entry s ns x a Hr) as (i & _ & Hi); [rewrite HE; by constructor|done|].
  rewrite <- (take_drop_middle ns i x Hi), <- Permutation_middle in HE. apply Permutation_cons_inv in HE.
  rewrite <- HE in Hy. apply elem_of_app in Hy as [[j Hj]%list_elem_of_lookup_1|[j Hj]%list_elem_of_lookup_1].
  - pose proof (lookup_lt_Some _ _ _ Hj) as Hl. rewrite length_take in Hl. rewrite lookup_take_lt in Hj by lia.
    pose proof (hr_inj _ _ _ _ _ _ _ Hr Hi Hj Ha Hya). lia.
  - rewrite lookup_drop in Hj. pose proof (hr_inj _ _ _ _ _ _ _ Hr Hi Hj Ha Hya). lia.
Qed.

Lemma call_ok rank s E c : has_queue rank s E → legal_call (dom (vars s)) rank E c →
  ∃ r s' E', run_call c s = Ret (TT_SUCCESS r, s') ∧ qstep (hmspg (heap s)) (c_rank c) E (c_op c) r E' ∧
    has_queue (c_rank c) s' E' ∧ alike s s'.
Proof.
  intros Hq (Hc & Hag & Hop). destruct c as [cmp rk' o]. simpl in *. unfold run_call. simpl.
  assert ((∀ a, o ≠ HFix a) → has_queue rk' s E) as Hq'.
  { intros Ho. eapply rerank; [exact Hq|]. intros x Hx. apply Hag; [done|]. intros a Ea. by destruct (Ho a). }
  destruct o as [[p|] idx|a|a| | | |p|]; simpl in Hc.
  - destruct Hop as [Hl Hfree]. destruct (add_ok cmp rk' s E p idx (Hq' ltac:(done)) Hc Hl) as [(s' & Ea & Hq1 & Hal)|[Ea Hf]].
    + intros a ->. destruct (Hfree a eq_refl) as [Ha ?]. split; [by apply elem_of_dom|done].
    + exists HDone, s', (mk_phnode p idx :: E). split; [erewrite bind_step by (unfold try; rewrite Ea; done); done|].
      split; [constructor|done].
    + exists (HFail TT_FAIL), s, E. split; [erewrite bind_step by (unfold try; rewrite Ea; done); done|].
      split; [by constructor|]. split; [by apply Hq'|done].
  - exists (HFail TT_FAIL), s, E. split; [done|]. split; [constructor|]. split; [by apply Hq'|done].
  - destruct Hop as (x & Hx & Ha). destruct (remove_key_ok cmp rk' s E x a (Hq' ltac:(done)) Hc Hx Ha) as (i & s' & E' & Hv & Er & Hq1 & Hp & Hal).
    exists HDone, s', E'. split.
    { erewrite bind_step by (unfold read_var; by rewrite Hv). by erewrite bind_step by exact Er. }
    split; [by econstructor|done].
  - destruct Hop as (x & Hx & Ha). apply elem_of_Permutation in Hx as [E0 Hp].
    destruct (fix_key_ok cmp rk' rank s E E0 x a Hq Hc Hp Ha) as (i & s' & Hv & Er & Hq1 & Hal).
    { intros y Hy. apply Hag; [rewrite Hp; by constructor|]. intros b [= <-]. by eapply names_once. }
    exists HDone, s', E. split; [|split; [constructor|done]].
    erewrite bind_step by (unfold read_var; by rewrite Hv). by erewrite bind_step by exact Er.
  - pose proof (pop_ok cmp rk' s E (Hq' ltac:(done)) Hc) as Hpop. destruct E as [|x E].
    + exists (HPtr None), s, []. split; [by erewrite bind_step by exact Hpop|]. split; [by constructor|]. split; [by apply Hq'|done].
    + destruct Hpop as (nd & s' & E' & Ht & Hp & Hq1 & Hal & Ep). exists (HPtr (Some (np nd))), s', E'.
      split; [by erewrite bind_step by exact Ep|]. split; [by constructor|done].
  - pose proof (queue_head_ok rk' s E (Hq' ltac:(done))) as Hh. destruct E as [|x E].
    + exists (HPtr None), s, []. split; [by erewrite bind_step by exact Hh|]. split; [by constructor|]. split; [by apply Hq'|done].
    + destruct Hh as (nd & Ht & Ep). exists (HPtr (Some (np nd))), s, (x :: E).
      split; [by erewrite bind_step by exact Ep|]. split; [by constructor|]. split; [by apply Hq'|done].
  - exists (HNum (zlen E)), s, E. split; [by erewrite bind_step by (by eapply count_ok)|]. split; [constructor|]. split; [by apply Hq'|done].
  - exists (HBool (has_rank rk' p E)), s, E. split; [erewrite bind_step by (eapply contain_ok; [by apply Hq'|done]); done|].
    split; [constructor|]. split; [by apply Hq'|done].
  - destruct (queue_clear_ok rk' s E (Hq' ltac:(done))) as (s' & Ec & Hq1 & Hal). exists HDone, s', [].
    split; [by erewrite bind_step by exact Ec|]. split; [constructor|done].
Qed.

(** C19: any sequence of legal calls on a heap does what it does to a queue with
    priorities: the head and the popped entry have the highest rank, removal and
    the change of a rank find the entry by its index variable, which the heap keeps
    up to date for every entry and resets when the entry leaves; every loop ends,
    no access leaves the array, and adding fails only for want of memory. *)
Theorem heap_refines rank s E cs : has_queue rank s E →
  legal_calls (dom (vars s)) (hmspg (heap s)) rank E cs →
  ∃ rs s' rank' E', run_calls cs s = Ret (TT_SUCCESS rs, s') ∧ qrun (hmspg (heap s)) rank E cs rs rank' E' ∧
    has_queue rank' s' E' ∧ dom (vars s') = dom (vars s).
Proof.
  revert rank s E. induction cs as [|c cs IH]; intros rank s E Hq Hl.
  { exists [], s, rank, E. split; [done|]. split; [constructor|done]. }
  destruct Hl as [Hc Hl]. destruct (call_ok rank s E c Hq Hc) as (r & s1 & E1 & Er & Hs & Hq1 & [Hv Hm]).
  destruct (IH (c_rank c) s1 E1 Hq1) as (rs & s' & rank' & E' & Ers & Hrun & Hq' & Hv').
  { rewrite Hv, Hm. by apply (Hl r). }
  exists (r :: rs), s', rank', E'. split.
  { simpl. erewrite bind_step by exact Er. by erewrite bind_step by exact Ers. }
  rewrite Hm in Hrun. split; [by econstructor|]. split; [done|congruence].
Qed.
End machine.

(** ** Witness *)

Lemma compares_rank rk E : compares (λ a b, Ret (rk a - rk b)) rk E.
Proof. intros x y _ _. by eexists. Qed.
Definition demo_call (rk : ptr → Z) (o : hop) : hcall := mk_hcall (λ a b, Ret (rk a - rk b)) rk o.
Definition demo_rank (p : ptr) : Z := if decide (p = 3%positive) then 20 else Zpos p.
Definition demo_calls : list hcall :=
  [demo_call Zpos (HAdd (Some 3) (Some 3)); demo_call Zpos (HAdd (Some 9) (Some 9));
   demo_call demo_rank (HFix 3); demo_call demo_rank HPop; demo_call demo_rank (HRemove 9)]%positive.
Definition demo_state : pstate :=
  mk_pstate (mk_ptrheap None (mk_memspg 256 2048 0) 0 0 0) {[3 := TT_POS_NULL; 9 := TT_POS_NULL]}%positive.

Lemma demo_queue : has_queue Zpos demo_state [].
Proof.
  destruct (init_ok Zpos None (vars demo_state)) as (h & Eh & Hq).
  - repeat split; simpl; lia.
  - intros a z. unfold demo_state. simpl. rewrite lookup_insert_Some, lookup_singleton_Some. naive_solver.
  - assert (h = heap demo_state) as -> by (vm_compute in Eh; injection Eh as <-; reflexivity). done.
Qed.

(** With a single entry [__build_heap] starts outside the array. *)
Example build_one : __build_heap demo_cmp (mk_pstate (mk_ptrheap (Some [Some (mk_phnode 1%positive None)]) (mk_memspg 256 2048 0) 16 1 1) ∅) = Undef.
Proof. vm_compute. reflexivity. Qed.

Lemma heap_refines_witness : ∃ rs s' rank' E',
  @run_calls demo_alloc demo_calls demo_state = Ret (TT_SUCCESS rs, s') ∧
  @qrun demo_alloc (hmspg (heap demo_state)) Zpos [] demo_calls rs rank' E' ∧
  has_queue rank' s' E' ∧ dom (vars s') = dom (vars demo_state).
Proof.
  assert (∀ n, n < 100 → ¬ @may_fail demo_alloc (hmspg (heap demo_state)) n) as Hnf.
  { intros n Hn [Hm|[Hm|Hm]]; [apply Hm; intros k; by eexists|done|]. simpl in Hm. unfold sizeof_phnode in Hm. lia. }
  apply (@heap_refines demo_alloc Zpos demo_state [] demo_calls demo_queue).
  split; [|intros r E' Hs; inversion Hs as [|? ? Hf| | | | | | | | | |]; subst; [|by apply Hnf in Hf]].
  { split; [apply compares_rank|]. split; [by intros x Hx%not_elem_of_nil|]. split; [done|].
    intros a [= <-]. split; [by apply elem_of_dom|]. by intros x Hx%not_elem_of_nil. }
  split; [|intros r E' Hs'; inversion Hs' as [|? ? Hf| | | | | | | | | |]; subst; [|by apply Hnf in Hf]].
  { split; [apply compares_rank|]. split; [done|]. split; [done|]. intros a [= <-]. split; [by apply elem_of_dom|].
    by intros x ->%list_elem_of_singleton. }
  split; [|intros r E' Hs''; inversion Hs''; subst].
  { split; [apply compares_rank|]. split.
    - intros x [->| ->%list_elem_of_singleton]%elem_of_cons Ha; [done|]. by destruct (Ha 3%positive).
    - exists (mk_phnode 3%positive (Some 3%positive)). split; [|done]. apply elem_of_cons. right. by apply list_elem_of_singleton. }
  split; [|intros r E' Hs3; inversion Hs3 as [| | | | | |x E1 Ht Hp| | | | |]; subst].
  { split; [apply compares_rank|]. done. }
  { done. }
  destruct Ht as [[->| ->%list_elem_of_singleton]%elem_of_cons Ht].
  { apply Forall_forall with (x := mk_phnode 3%positive (Some 3%positive)) in Ht; [|apply elem_of_cons; right; by apply list_elem_of_singleton].
    vm_compute in Ht. done. }
  assert (E' ≡ₚ [mk_phnode 9%positive (Some 9%positive)]) as HE.
  { rewrite Permutation_swap in Hp. by apply Permutation_cons_inv in Hp. }
  split; [|by intros]. split; [apply compares_rank|]. split; [done|].
  exists (mk_phnode 9%positive (Some 9%positive)). split; [|done]. simpl in *. rewrite HE. by apply list_elem_of_singleton.
Defined.
