(* ===== verification/Timer.v ===== *)
(** Timers (time/tt_timer.h and .c, tt_timer_manager.h and .c, and the timer part of
    os/tt_fiber_event.c): timers are nodes of the two timer lists of their fiber
    and, while started, entries of the manager's heap, ordered by the time they
    expire.  This file holds the code over the memories of [LinkedList] and
    [PtrHeap]; [TimerRun] shows what it does. *)

From S2P Require Import Prelude Util MemSpring Cells LinkedList PtrHeap HeapSpec HeapQueue.
From stdpp Require Import gmap.

#[local] Open Scope Z_scope.

(** ** Data *)

Inductive tt_tmr_status_t : Type := TT_TMR_INACTIVE | TT_TMR_ACTIVE | TT_TMR_ORPHAN.
#[global] Instance tt_tmr_status_eq_dec : EqDecision tt_tmr_status_t.
Proof. solve_decision. Defined.

(** The field [node] of the timer at [t] is the node [t] of the lists, and the
    field [heap_pos] is the variable [t] of the heap. *)
Record tt_tmr_t : Type := mk_tmr {
  delay_ms : Z;
  absolute_ref : Z;
  owner : positive;
  tparam : Z;
  tev : Z;
  status : tt_tmr_status_t;
}.
Definition set_delay d v := mk_tmr d (absolute_ref v) (owner v) (tparam v) (tev v) (status v).
Definition set_ref r v := mk_tmr (delay_ms v) r (owner v) (tparam v) (tev v) (status v).
Definition set_param p v := mk_tmr (delay_ms v) (absolute_ref v) (owner v) p (tev v) (status v).
Definition set_ev e v := mk_tmr (delay_ms v) (absolute_ref v) (owner v) (tparam v) e (status v).
Definition set_status s v := mk_tmr (delay_ms v) (absolute_ref v) (owner v) (tparam v) (tev v) s.

(** The timers of one task, its manager's heap, the timer lists of its fibers,
    which fibers wait for an event, and the number of times the clock was read. *)
Record tworld : Type := mk_world {
  tmrs : gmap ptr tt_tmr_t;
  tmr_heap : pstate;
  fibs : lmem;
  recving : gmap positive bool;
  reads : nat;
}.
Definition put_tmrs ts w := mk_world ts (tmr_heap w) (fibs w) (recving w) (reads w).
Definition put_heap h w := mk_world (tmrs w) h (fibs w) (recving w) (reads w).
Definition put_fibs l w := mk_world (tmrs w) (tmr_heap w) l (recving w) (reads w).
Definition put_reads n w := mk_world (tmrs w) (tmr_heap w) (fibs w) (recving w) n.

(** The two lists of a fiber. *)
Definition unexpired_tmr (f : positive) : positive := xO f.
Definition expired_tmr (f : positive) : positive := xI f.

Definition in_heap {A} (m : M pstate A) : M tworld A := zoom tmr_heap put_heap m.
Definition in_lists {A} (m : M lmem A) : M tworld A := zoom fibs put_fibs m.

(** Access to a timer; one that was freed is undefined. *)
Definition tmr (t : ptr) : M tworld tt_tmr_t := λ w,
  match tmrs w !! t with Some v => Ret (TT_SUCCESS v, w) | None => Undef end.
Definition upd_tmr (t : ptr) (f : tt_tmr_t → tt_tmr_t) : M tworld unit := λ w,
  match tmrs w !! t with
  | Some v => Ret (TT_SUCCESS tt, put_tmrs (<[t := f v]> (tmrs w)) w)
  | None => Undef
  end.
Definition heap_pos (t : ptr) : M tworld Z := in_heap (read_var t).

Definition INT64_MAX : Z := 2 ^ 63 - 1.
Definition is_s64 (x : Z) : bool := (- 2 ^ 63 <=? x) && (x <=? INT64_MAX).
Definition TT_TIME_INFINITE : Z := INT64_MAX.

(** The manager's comparison: the one that expires first is the largest. *)
Definition __tmr_cmp (ts : gmap ptr tt_tmr_t) (l r : ptr) : exec Z :=
  match ts !! l, ts !! r with
  | Some a, Some b =>
      let diff := absolute_ref a - absolute_ref b in
      if negb (is_s64 diff) then Undef
      else Ret (if diff <? 0 then 1 else if diff =? 0 then 0 else -1)
  | _, _ => Undef
  end.

(** [tt_malloc] and [tt_free] of a timer: its three parts come and go together. *)
Definition tmr_alloc (t : ptr) (w : tworld) : tworld :=
  mk_world (<[t := mk_tmr 0 0 1 0 0 TT_TMR_INACTIVE]> (tmrs w))
    (mk_pstate (heap (tmr_heap w)) (<[t := 0]> (vars (tmr_heap w))))
    (mk_lmem (<[t := lnode_blank]> (nodes (fibs w))) (lists (fibs w))) (recving w) (reads w).
Definition tmr_free (t : ptr) : M tworld unit := λ w,
  match tmrs w !! t with
  | Some _ => Ret (TT_SUCCESS tt, mk_world (delete t (tmrs w))
      (mk_pstate (heap (tmr_heap w)) (delete t (vars (tmr_heap w))))
      (mk_lmem (delete t (nodes (fibs w))) (lists (fibs w))) (recving w) (reads w))
  | None => Undef
  end.

(** Times are in milliseconds, the unit of the clock on Linux. *)
Definition tt_time_ms2ref (ms : Z) : Z := ms.
Definition tt_time_ref2ms (ref : Z) : Z := ref.

(** ** Timers *)

(** [addr] is what [tt_malloc] returns, [cfb] the fiber that is running. *)
Definition tt_tmr_create (addr : option ptr) (cfb : positive) (delay ev param : Z) : M tworld (option ptr) :=
  assert_always (0 <=? delay);;
  match addr with
  | None => mret None
  | Some t =>
      modify (tmr_alloc t);;
      upd_tmr t (set_delay delay);;
      upd_tmr t (set_ref 0);;
      upd_tmr t (λ v, mk_tmr (delay_ms v) (absolute_ref v) cfb (tparam v) (tev v) (status v));;
      in_lists (tt_lnode_init t);;
      in_lists (tt_list_push_tail (unexpired_tmr cfb) t);;
      upd_tmr t (set_param param);;
      upd_tmr t (set_ev ev);;
      in_heap (set_idx (Some t) TT_POS_NULL);;
      upd_tmr t (set_status TT_TMR_INACTIVE);;
      mret (Some t)
  end.

Definition tt_tmr_destroy (t : ptr) : M tworld unit :=
  in_lists (tt_list_remove t);;
  pos ← heap_pos t;
  if pos =? TT_POS_NULL then tmr_free t else upd_tmr t (set_status TT_TMR_ORPHAN).

Definition tt_tmr_stop (t : ptr) : M tworld unit := upd_tmr t (set_status TT_TMR_INACTIVE).
Definition tt_tmr_set_delay (t : ptr) (d : Z) : M tworld unit := upd_tmr t (set_delay d).
Definition tt_tmr_set_ev (t : ptr) (e : Z) : M tworld unit := upd_tmr t (set_ev e).
Definition tt_tmr_set_param (t : ptr) (p : Z) : M tworld unit := upd_tmr t (set_param p).

Section timer.
Context `{Allocator}.

(** The clock: what its n-th reading gives. *)
Variable clock : nat → Z.
Definition tt_time_ref : M tworld Z :=
  n ← gets reads; modify (put_reads (S n));; mret (clock n).

(** The sum overflows, which C does not define, or is compared as the code does. *)
Definition tt_tmr_start (t : ptr) : M tworld unit :=
  now ← tt_time_ref;
  upd_tmr t (set_ref now);;
  v ← tmr t;
  let delay_ref := tt_time_ms2ref (delay_ms v) in
  if negb (is_s64 (absolute_ref v + delay_ref)) then undef
  else if absolute_ref v + delay_ref <=? delay_ref then fail TT_FAIL
  else
    upd_tmr t (set_ref (absolute_ref v + delay_ref));;
    upd_tmr t (set_status TT_TMR_ACTIVE);;
    pos ← heap_pos t;
    ts ← gets tmrs;
    if pos =? TT_POS_NULL then in_heap (tt_ptrheap_add (__tmr_cmp ts) (Some t) (Some t))
    else in_heap (tt_ptrheap_fix (__tmr_cmp ts) pos).

(** ** Fibers *)

(** Switching to a fiber: what it does until it waits again is its own. *)
Variable tt_fiber_resume : positive → M tworld unit.

Definition is_recving (f : positive) : M tworld bool := λ w,
  match recving w !! f with Some b => Ret (TT_SUCCESS b, w) | None => Undef end.

Definition tt_fiber_send_timer (dst : positive) (t : ptr) : M tworld unit :=
  nd ← in_lists (LinkedList.node t);
  assert_always (bool_decide (lst nd = Some (unexpired_tmr dst)));;
  in_lists (tt_list_remove t);;
  in_lists (tt_list_push_tail (expired_tmr dst) t);;
  b ← is_recving dst;
  if (b : bool) then tt_fiber_resume dst else mret tt.

(** Without waiting. *)
Definition tt_fiber_recv_timer (current : positive) : M tworld (option ptr) :=
  n ← in_lists (tt_list_pop_head (expired_tmr current));
  match n with
  | Some t => in_lists (tt_list_push_tail (unexpired_tmr current) t);; mret (Some t)
  | None => mret None
  end.

(** ** The manager *)

Definition tt_tmr_mgr_attr_default : tt_ptrheap_attr_t := tt_ptrheap_attr_default.
Definition tt_tmr_mgr_init (attr : option tt_ptrheap_attr_t) : exec tt_ptrheap_t :=
  tt_ptrheap_init (Some (default tt_tmr_mgr_attr_default attr)).
Definition tt_tmr_mgr_destroy : M tworld unit := in_heap tt_ptrheap_destroy.
Definition tt_tmr_mgr_pop : M tworld (option ptr) :=
  ts ← gets tmrs; in_heap (tt_ptrheap_pop (__tmr_cmp ts)).

(** One round of the loop with the head: the new [now] and [cb_exec], or the
    result. *)
Definition run_round (t : ptr) (now : Z) (cb_exec : bool) : M tworld (Z * bool + Z)%type :=
  v ← tmr t;
  match status v with
  | TT_TMR_ACTIVE =>
      now ← (if now =? 0 then tt_time_ref else mret now);
      let fire now :=
        tt_tmr_mgr_pop;;
        tt_fiber_send_timer (owner v) t;;
        mret (inl (now, true)) in
      if absolute_ref v <=? now then fire now
      else if cb_exec then
        now ← tt_time_ref;
        if absolute_ref v <=? now then fire now
        else mret (inr (tt_time_ref2ms (absolute_ref v - now)))
      else mret (inr (tt_time_ref2ms (absolute_ref v - now)))
  | TT_TMR_INACTIVE => tt_tmr_mgr_pop;; mret (inl (now, cb_exec))
  | TT_TMR_ORPHAN => tt_tmr_mgr_pop;; tt_tmr_destroy t;; mret (inl (now, cb_exec))
  end.
Fixpoint run_loop (now : Z) (cb_exec : bool) (fuel : nat) : M tworld Z :=
  match fuel with
  | O => λ _, Diverge
  | S fuel =>
      head ← in_heap tt_ptrheap_head;
      match head with
      | None => mret TT_TIME_INFINITE
      | Some t =>
          r ← run_round t now cb_exec;
          match r with
          | inl (now, cb_exec) => run_loop now cb_exec fuel
          | inr z => mret z
          end
      end
  end.
Definition tt_tmr_mgr_run (fuel : nat) : M tworld Z := run_loop 0 false fuel.

(** The timers of a fiber that ends, and those left when a task ends. *)
Fixpoint drop_timers (L : positive) (fuel : nat) : M tworld unit :=
  match fuel with
  | O => λ _, Diverge
  | S fuel =>
      n ← in_lists (tt_list_pop_head L);
      match n with Some t => tt_tmr_destroy t;; drop_timers L fuel | None => mret tt end
  end.
Definition fiber_drop_timers (f : positive) (fuel : nat) : M tworld unit :=
  drop_timers (unexpired_tmr f) fuel;; drop_timers (expired_tmr f) fuel.
Fixpoint mgr_drop_timers (fuel : nat) : M tworld unit :=
  match fuel with
  | O => λ _, Diverge
  | S fuel =>
      n ← tt_tmr_mgr_pop;
      match n with Some t => tt_tmr_destroy t;; mgr_drop_timers fuel | None => mret tt end
  end.
End timer.
