(* ===== verification/TimerRun.v ===== *)
(** What timers do: the invariant between timers, the lists of their fibers and
    the manager's heap, that every operation keeps it, and that a run of the
    manager delivers exactly the timers that are due, in order. *)

From S2P Require Import Prelude Util MemSpring Cells LinkedList PtrHeap HeapSpec HeapQueue Timer.
From stdpp Require Import gmap sorting.

#[local] Open Scope Z_scope.

(** ** The invariant *)

Definition entry (t : ptr) : tt_phnode_t := mk_phnode t (Some t).
Definition trank (ts : gmap ptr tt_tmr_t) (t : ptr) : Z :=
  match ts !! t with Some v => - absolute_ref v | None => 0 end.

(** A time that a sum of two of them and a difference can be taken of. *)
Definition is_time (z : Z) : Prop := 0 ≤ z ≤ INT64_MAX.

(** [σ] are the lists, [Q] the timers in the heap.  A timer that was not destroyed
    is in the first or the second list of its fiber, in the first if it is in the
    heap; one that was destroyed is in no list and waits in the heap to be freed. *)
Definition placed (σ : gmap positive (list positive)) (Q : list ptr) (t : ptr) (v : tt_tmr_t) : Prop :=
  if decide (status v = TT_TMR_ORPHAN) then free σ t ∧ t ∈ Q
  else ∃ xs, t ∈ xs ∧ (σ !! unexpired_tmr (owner v) = Some xs ∨ σ !! expired_tmr (owner v) = Some xs ∧ t ∉ Q).

Record tmr_inv (w : tworld) (σ : gmap positive (list positive)) (Q : list ptr) : Prop := {
  ti_heap : has_queue (trank (tmrs w)) (tmr_heap w) (entry <$> Q);
  ti_vars : dom (vars (tmr_heap w)) = dom (tmrs w);
  ti_lists : lrep (fibs w) σ;
  ti_nodes : dom (nodes (fibs w)) = dom (tmrs w);
  ti_time t v : tmrs w !! t = Some v → is_time (absolute_ref v) ∧ is_time (delay_ms v);
  ti_placed t v : tmrs w !! t = Some v → placed σ Q t v;
  ti_fibers f : is_Some (recving w !! f) → is_Some (lists (fibs w) !! unexpired_tmr f) ∧ is_Some (lists (fibs w) !! expired_tmr f);
  ti_owner t v : tmrs w !! t = Some v → status v ≠ TT_TMR_ORPHAN → is_Some (recving w !! owner v);
}.

Lemma entry_in t (Q : list ptr) : entry t ∈ entry <$> Q ↔ t ∈ Q.
Proof. rewrite list_elem_of_fmap. split; [intros (x & [= ->] & ?); done|by exists t]. Qed.

(** An entry of the queue is a timer, and its position says so. *)
Lemma queue_pos r s E x a : has_queue r s E → x ∈ E → nidx x = Some a →
  ∃ i, vars s !! a = Some i ∧ 0 ≤ i < zlen E ∧ i ≠ TT_POS_NULL.
Proof.
  intros (ns & Hr & Hp & _) Hx Ha. destruct (find_entry s ns x a Hr) as (i & Hv & Hi); [by rewrite Hp|done|].
  pose proof (lookup_lt_Some _ _ _ Hi). pose proof (hr_len _ _ Hr) as [Hl _].
  assert (zlen ns = zlen E) as El by (unfold zlen; by rewrite Hp).
  exists (Z.of_nat i). split; [done|]. unfold TT_POS_NULL, u32_max. rewrite <- El. unfold zlen in *. lia.
Qed.
Lemma queue_null r s E a z : has_queue r s E → vars s !! a = Some z → (∀ x, x ∈ E → nidx x ≠ Some a) → z = TT_POS_NULL.
Proof. intros (ns & Hr & Hp & _) Hz Hno. eapply hr_null; [done..|]. intros x Hx. apply Hno. by rewrite <- Hp. Qed.

(** A variable that no entry names can go, or come with the null position. *)
Lemma queue_without r s E a : has_queue r s E → (∀ x, x ∈ E → nidx x ≠ Some a) →
  HeapSpec.has_queue r (mk_pstate (heap s) (delete a (vars s))) E.
Proof.
  intros (ns & Hr & Hp & Hh) Hno. exists ns. split; [|done]. split; simpl; try apply Hr.
  - intros i x b Hi Hb. rewrite lookup_delete_ne; [by eapply hr_idx|]. intros ->.
    apply (Hno x); [|done]. rewrite <- Hp. by eapply list_elem_of_lookup_2.
  - intros b z Hz Hb. apply lookup_delete_Some in Hz as [_ Hz]. by eapply hr_null.
Qed.
Lemma queue_with r s E a : has_queue r s E → vars s !! a = None →
  HeapSpec.has_queue r (mk_pstate (heap s) (<[a := TT_POS_NULL]> (vars s))) E.
Proof.
  intros (ns & Hr & Hp & Hh) Hno. exists ns. split; [|done]. split; simpl; try apply Hr.
  - intros i x b Hi Hb. pose proof (hr_idx _ _ Hr _ _ _ Hi Hb). rewrite lookup_insert_ne; [done|]. congruence.
  - intros b z Hz Hb. apply lookup_insert_Some in Hz as [[_ <-]|[_ Hz]]; [done|]. by eapply hr_null.
Qed.

(** The manager's comparison orders timers by the time they expire. *)
Lemma timers_compare ts (Q : list ptr) : (∀ t, t ∈ Q → ∃ v, ts !! t = Some v ∧ is_time (absolute_ref v)) →
  compares (__tmr_cmp ts) (trank ts) (entry <$> Q).
Proof.
  intros Hts x y (t & -> & Ht)%list_elem_of_fmap (u & -> & Hu)%list_elem_of_fmap. simpl.
  destruct (Hts t Ht) as (v & Hv & [? ?]), (Hts u Hu) as (v' & Hv' & [? ?]).
  unfold __tmr_cmp, trank, is_s64, INT64_MAX in *. rewrite Hv, Hv'. eexists. split.
  - rewrite (proj2 (Z.leb_le _ _)), (proj2 (Z.leb_le (absolute_ref v - absolute_ref v') _)) by lia. done.
  - destruct (Z.ltb_spec (absolute_ref v - absolute_ref v') 0); [|destruct (Z.eqb_spec (absolute_ref v - absolute_ref v') 0)]; simpl; lia.
Qed.

Section inv.
Context (w : tworld) (σ : gmap positive (list positive)) (Q : list ptr) (Hinv : tmr_inv w σ Q).

Lemma queued_timer t : t ∈ Q → ∃ v i, tmrs w !! t = Some v ∧ vars (tmr_heap w) !! t = Some i ∧ i ≠ TT_POS_NULL.
Proof.
  intros Ht. destruct (queue_pos _ _ _ (entry t) t (ti_heap _ _ _ Hinv)) as (i & Hi & _ & Hn); [by apply entry_in|done|].
  assert (t ∈ dom (tmrs w)) as [v Hv]%elem_of_dom by (rewrite <- (ti_vars _ _ _ Hinv); apply elem_of_dom; eauto). eauto.
Qed.
Lemma unqueued_timer t v : tmrs w !! t = Some v → t ∉ Q → vars (tmr_heap w) !! t = Some TT_POS_NULL.
Proof.
  intros Hv Ht. assert (t ∈ dom (vars (tmr_heap w))) as [z Hz]%elem_of_dom by (rewrite (ti_vars _ _ _ Hinv); apply elem_of_dom; eauto).
  rewrite Hz. f_equal. eapply queue_null; [apply Hinv|done|]. intros x (s & -> & Hs)%list_elem_of_fmap [= ->]. done.
Qed.
Lemma timer_node t v : tmrs w !! t = Some v → is_Some (nodes (fibs w) !! t).
Proof. intros Hv. apply elem_of_dom. rewrite (ti_nodes _ _ _ Hinv). apply elem_of_dom. eauto. Qed.

(** Nothing is in the heap twice. *)
Lemma queue_nodup Q1 t : Q ≡ₚ t :: Q1 → t ∉ Q1.
Proof.
  intros Hp Ht. pose proof (names_once _ _ _ (entry <$> Q1) (entry t) t (ti_heap _ _ _ Hinv)) as Hn.
  apply (Hn ltac:(by rewrite Hp) eq_refl (entry t)); [by apply entry_in|done].
Qed.

Lemma queue_compares : compares (__tmr_cmp (tmrs w)) (trank (tmrs w)) (entry <$> Q).
Proof.
  apply timers_compare. intros t Ht. destruct (queued_timer t Ht) as (v & _ & Hv & _).
  exists v. split; [done|]. by apply (ti_time _ _ _ Hinv t).
Qed.
End inv.

(** ** The lists *)

(** Every list without [x]. *)
Definition without (x : positive) (σ : gmap positive (list positive)) : gmap positive (list positive) :=
  (λ xs, filter (λ y, y ≠ x) xs) <$> σ.

Lemma filter_absent (x : positive) (xs : list positive) : x ∉ xs → filter (λ y, y ≠ x) xs = xs.
Proof.
  induction xs as [|y xs IH]; [done|]. intros [Hne Hx]%not_elem_of_cons. rewrite filter_cons_True by congruence. by rewrite IH.
Qed.
Lemma without_free x σ : free σ x → without x σ = σ.
Proof.
  intros Hf. apply map_eq. intros L. unfold without. rewrite lookup_fmap. destruct (σ !! L) as [xs|] eqn:E; [|done].
  simpl. rewrite filter_absent; [done|]. by eapply Hf.
Qed.
Lemma free_without x σ : free (without x σ) x.
Proof.
  intros L xs HL Hx. unfold without in HL. rewrite lookup_fmap in HL. destruct (σ !! L); [|done]. injection HL as <-.
  apply list_elem_of_filter in Hx. by destruct Hx.
Qed.

Lemma list_remove_ok h σ x : lrep h σ → is_Some (nodes h !! x) →
  ∃ r h', tt_list_remove x h = Ret (TT_SUCCESS r, h') ∧ lrep h' (without x σ) ∧ same_objects h h'.
Proof.
  intros Hr Hx. destruct (where_is h σ x Hr Hx) as [Hf|(L & xs1 & xs2 & HL)].
  - destruct Hx as [v Hx]. exists None, h. rewrite (rep_blank h σ Hr x v Hx Hf) in Hx.
    unfold tt_list_remove. erewrite bind_step by (unfold node; by rewrite Hx). split; [done|]. by rewrite without_free.
  - destruct (step_sound h σ (Remove x) _ Hr Hx (as_remove σ L xs1 x xs2 HL)) as (h' & E & Hr' & Hs).
    exists (hd_or xs2 None), h'. unfold run_op in E. split.
    { rewrite (remove_code h σ Hr L xs1 x xs2 HL). erewrite bind_step in E by (by apply (remove_code h σ Hr L xs1 x xs2 HL)).
      by injection E as <-. }
    split; [|done]. replace (without x σ) with (<[L := xs1 ++ xs2]> σ); [done|].
    destruct (rep_list h σ Hr L _ HL) as (_ & Hnd & _). apply nodup_parts in Hnd as (_ & _ & H1 & H2 & _ & _).
    apply map_eq. intros K. unfold without. rewrite lookup_fmap. destruct (decide (K = L)) as [->|Hne].
    + rewrite lookup_insert_eq, HL. simpl. rewrite filter_app, filter_cons_False by (by intros []). by rewrite !filter_absent.
    + rewrite lookup_insert_ne by done. destruct (σ !! K) as [ys|] eqn:EK; [|done]. simpl. rewrite filter_absent; [done|].
      intros Hy. assert (K = L) by (eapply (rep_disjoint h σ Hr L _ K ys x HL EK); [set_solver|done]). done.
Qed.

Lemma list_push_ok h σ L xs x : lrep h σ → σ !! L = Some xs → is_Some (nodes h !! x) → free σ x →
  ∃ h', tt_list_push_tail L x h = Ret (TT_SUCCESS tt, h') ∧ lrep h' (<[L := xs ++ [x]]> σ) ∧ same_objects h h'.
Proof.
  intros Hr HL Hx Hf. destruct (rep_list h σ Hr L _ HL) as (El & _ & _).
  destruct (step_sound h σ (PushTail L x) _ Hr (conj (ex_intro _ _ El) Hx) (as_push_tail σ L x xs HL Hf)) as (h' & E & Hr' & Hs).
  exists h'. split; [|done]. destruct Hx as [v Hx]. unfold run_op in E. rewrite (push_tail_code h σ Hr L x xs v HL Hx Hf).
  erewrite bind_step in E by (by apply (push_tail_code h σ Hr L x xs v HL Hx Hf)). by injection E as <-.
Qed.

Lemma list_pop_ok h σ L xs : lrep h σ → σ !! L = Some xs →
  ∃ h', tt_list_pop_head L h = Ret (TT_SUCCESS (hd_or xs None), h') ∧ lrep h' (<[L := tl xs]> σ) ∧ same_objects h h'.
Proof.
  intros Hr HL. destruct (rep_list h σ Hr L _ HL) as (El & _ & _). destruct xs as [|x xs].
  - exists h. rewrite (pop_head_empty h σ Hr L HL). rewrite insert_id by done. done.
  - destruct (step_sound h σ (PopHead L) _ Hr (ex_intro _ _ El) (as_pop_head σ L x xs HL)) as (h' & E & Hr' & Hs).
    exists h'. split; [|done]. unfold run_op in E. rewrite (pop_head_code h σ Hr L x xs HL).
    erewrite bind_step in E by (by apply (pop_head_code h σ Hr L x xs HL)). by injection E as <-.
Qed.

(** A free node goes, a new one comes. *)
Lemma lrep_delete h σ x : lrep h σ → free σ x → lrep (mk_lmem (delete x (nodes h)) (lists h)) σ.
Proof.
  intros Hr Hf. split; simpl.
  - intros L xs HL. destruct (rep_list h σ Hr L xs HL) as (El & Hnd & Hl). split; [done|]. split; [done|].
    eapply linked_ext; [|exact Hl]. intros y Hy. apply lookup_delete_ne. intros ->. by eapply Hf.
  - intros y v Hy. apply lookup_delete_Some in Hy as [_ Hy]. by apply (rep_node h σ Hr).
  - apply Hr.
Qed.
Lemma lrep_new h σ x : lrep h σ → nodes h !! x = None →
  lrep (mk_lmem (<[x := lnode_blank]> (nodes h)) (lists h)) σ ∧ free σ x.
Proof.
  intros Hr Hx. assert (free σ x) as Hf.
  { intros L xs HL Hin. destruct (rep_in h σ Hr L xs x HL Hin) as (v & Hv & _). congruence. }
  split; [|done]. split; simpl.
  - intros L xs HL. destruct (rep_list h σ Hr L xs HL) as (El & Hnd & Hl). split; [done|]. split; [done|].
    eapply linked_ext; [|exact Hl]. intros y Hy. apply lookup_insert_ne. intros ->. by eapply Hf.
  - intros y v Hy. apply lookup_insert_Some in Hy as [[_ <-]|[_ Hy]]; [done|]. by apply (rep_node h σ Hr).
  - apply Hr.
Qed.

(** ** Steps that keep the invariant *)

Lemma trank_insert ts t v v' : ts !! t = Some v → absolute_ref v' = absolute_ref v →
  ∀ u, trank (<[t := v']> ts) u = trank ts u.
Proof.
  intros Hv E u. unfold trank. destruct (decide (u = t)) as [->|Hne]; [|by rewrite lookup_insert_ne].
  by rewrite lookup_insert_eq, Hv, E.
Qed.

(** A field that decides neither the order nor the place. *)
Lemma set_inv w σ Q t v v' : tmr_inv w σ Q → tmrs w !! t = Some v → absolute_ref v' = absolute_ref v →
  owner v' = owner v → (status v' = TT_TMR_ORPHAN ↔ status v = TT_TMR_ORPHAN) → is_time (delay_ms v') →
  tmr_inv (put_tmrs (<[t := v']> (tmrs w)) w) σ Q.
Proof.
  intros Hi Hv Er Eo Es Hd. pose proof (ti_time _ _ _ Hi t v Hv) as [Ht _].
  split; simpl; try apply Hi.
  - eapply rerank; [apply Hi|]. intros x _. by apply (trank_insert _ _ v).
  - rewrite dom_insert_lookup_L by eauto. apply Hi.
  - rewrite dom_insert_lookup_L by eauto. apply Hi.
  - intros u x Hx. apply lookup_insert_Some in Hx as [[<- <-]|[_ Hx]]; [|by apply (ti_time _ _ _ Hi u)].
    by rewrite Er.
  - intros u x Hx. apply lookup_insert_Some in Hx as [[<- <-]|[_ Hx]]; [|by apply (ti_placed _ _ _ Hi u)].
    pose proof (ti_placed _ _ _ Hi t v Hv) as Hp. unfold placed in *. rewrite Eo.
    destruct (decide (status v = TT_TMR_ORPHAN)); destruct (decide (status v' = TT_TMR_ORPHAN)); tauto.
  - intros u x Hx Hs. apply lookup_insert_Some in Hx as [[<- <-]|[_ Hx]]; [|by apply (ti_owner _ _ _ Hi u)].
    rewrite Eo. apply (ti_owner _ _ _ Hi t v Hv). tauto.
Qed.

Lemma placed_without σ Q Q' t u v : placed σ Q u v → u ≠ t → (u ∈ Q' ↔ u ∈ Q) → placed (without t σ) Q' u v.
Proof.
  unfold placed. intros Hp Hne Hq. case_decide.
  - destruct Hp as [Hf Hin]. split; [|by apply Hq]. intros L xs HL Hx. unfold without in HL. rewrite lookup_fmap in HL.
    destruct (σ !! L) as [ys|] eqn:E; [|done]. injection HL as <-. apply list_elem_of_filter in Hx as [_ Hx]. by eapply Hf.
  - destruct Hp as (xs & Hx & HL). exists (filter (λ y, y ≠ t) xs). split; [by apply list_elem_of_filter|].
    unfold without. rewrite !lookup_fmap. destruct HL as [->|[-> Hn]]; [by left|right]. split; [done|]. by rewrite Hq.
Qed.

(** A timer that is in neither heap nor lists any more is freed. *)
Lemma gone_inv w σ Q h l Q' t : tmr_inv w σ Q → has_queue (trank (tmrs w)) h (entry <$> Q') →
  dom (vars h) = dom (tmrs w) → lrep l (without t σ) → same_objects (fibs w) l → t ∉ Q' →
  (∀ u, u ≠ t → (u ∈ Q' ↔ u ∈ Q)) →
  tmr_inv (mk_world (delete t (tmrs w)) (mk_pstate (heap h) (delete t (vars h)))
    (mk_lmem (delete t (nodes l)) (lists l)) (recving w) (reads w)) (without t σ) Q'.
Proof.
  intros Hi Hq Hd Hl [Hso1 Hso2] Ht Hu. split; simpl.
  - apply queue_without.
    + eapply rerank; [exact Hq|]. intros x (u & -> & Hx)%list_elem_of_fmap. unfold trank. simpl.
      rewrite lookup_delete_ne; [done|]. intros ->. done.
    + intros x (u & -> & Hx)%list_elem_of_fmap [= ->]. done.
  - by rewrite !dom_delete_L, Hd.
  - apply lrep_delete; [done|apply free_without].
  - rewrite !dom_delete_L, Hso1. by rewrite (ti_nodes _ _ _ Hi).
  - intros u v Hv. apply lookup_delete_Some in Hv as [_ Hv]. by apply (ti_time _ _ _ Hi u).
  - intros u v Hv. apply lookup_delete_Some in Hv as [Hne Hv]. apply (placed_without σ Q); [by apply Hi|done|by apply Hu].
  - intros f Hf. rewrite <- !elem_of_dom, Hso2, !elem_of_dom. by apply (ti_fibers _ _ _ Hi).
  - intros u v Hv. apply lookup_delete_Some in Hv as [_ Hv]. by apply (ti_owner _ _ _ Hi u).
Qed.

(** The head of the heap is the timer that expires first; popping takes it. *)
Lemma head_empty w σ : tmr_inv w σ [] → in_heap tt_ptrheap_head w = Ret (TT_SUCCESS None, w).
Proof.
  intros Hi. pose proof (queue_head_ok _ _ _ (ti_heap _ _ _ Hi)) as Hh. simpl in Hh.
  unfold in_heap, zoom. rewrite Hh. by destruct w.
Qed.

Lemma pop_timer w σ Q : tmr_inv w σ Q → Q ≠ [] → ∃ t v Q1 h, tmrs w !! t = Some v ∧ Q ≡ₚ t :: Q1 ∧
  (∀ u x, u ∈ Q → tmrs w !! u = Some x → absolute_ref v ≤ absolute_ref x) ∧
  in_heap tt_ptrheap_head w = Ret (TT_SUCCESS (Some t), w) ∧
  (∀ k, tt_tmr_mgr_pop (put_reads k w) = Ret (TT_SUCCESS (Some t), put_heap h (put_reads k w))) ∧
  has_queue (trank (tmrs w)) h (entry <$> Q1) ∧ dom (vars h) = dom (tmrs w).
Proof.
  intros Hi HQ.
  destruct (head_pop_ok (__tmr_cmp (tmrs w)) (trank (tmrs w)) (tmr_heap w) (entry <$> Q)) as (nd & h & E' & [Hin Htop] & Hp & Hq & [Hal _] & Eh & Ep).
  - apply Hi.
  - by eapply queue_compares.
  - by destruct Q.
  - apply list_elem_of_fmap in Hin as (t & -> & Ht). destruct (queued_timer w σ Q Hi t Ht) as (v & _ & Hv & _).
    pose proof Ht as [Q1 HQ1]%elem_of_Permutation. exists t, v, Q1, h. split; [done|]. split; [done|]. split.
    { intros u x Hu Hx. rewrite Forall_forall in Htop. specialize (Htop (entry u)). simpl in Htop.
      unfold trank in Htop. rewrite Hx, Hv in Htop. specialize (Htop ltac:(by apply entry_in)). lia. }
    split; [unfold in_heap, zoom; rewrite Eh; by destruct w|]. split.
    { intros k. unfold tt_tmr_mgr_pop. erewrite bind_step by done. unfold in_heap, zoom. simpl. by rewrite Ep. }
    split; [|rewrite Hal; apply Hi]. eapply queue_perm; [|exact Hq].
    rewrite HQ1 in Hp. simpl in Hp. by apply Permutation_cons_inv in Hp.
Qed.

(** A timer taken from the heap that was not destroyed stays where it is. *)
Lemma popped_inv w σ Q Q1 h t v : tmr_inv w σ Q → tmrs w !! t = Some v → Q ≡ₚ t :: Q1 → status v ≠ TT_TMR_ORPHAN →
  has_queue (trank (tmrs w)) h (entry <$> Q1) → dom (vars h) = dom (tmrs w) → tmr_inv (put_heap h w) σ Q1.
Proof.
  intros Hi Hv Hp Hs Hq Hd. split; simpl; try apply Hi; try done.
  intros u x Hx. pose proof (ti_placed _ _ _ Hi u x Hx) as Hpl. unfold placed in *. case_decide.
  - destruct Hpl as [Hf Hin]. split; [done|]. rewrite Hp in Hin. apply elem_of_cons in Hin as [->|?]; [congruence|done].
  - destruct Hpl as (xs & Hin & HL). exists xs. split; [done|]. destruct HL as [HL|[HL Hn]]; [by left|right].
    split; [done|]. intros Hu. apply Hn. rewrite Hp. by constructor.
Qed.

Lemma in_lists_ok {A} (m : M lmem A) w a l : m (fibs w) = Ret (TT_SUCCESS a, l) → in_lists m w = Ret (TT_SUCCESS a, put_fibs l w).
Proof. unfold in_lists, zoom. by intros ->. Qed.
Lemma in_heap_ok {A} (m : M pstate A) w a h : m (tmr_heap w) = Ret (TT_SUCCESS a, h) → in_heap m w = Ret (TT_SUCCESS a, put_heap h w).
Proof. unfold in_heap, zoom. by intros ->. Qed.
Lemma heap_pos_ok w t i : vars (tmr_heap w) !! t = Some i → heap_pos t w = Ret (TT_SUCCESS i, w).
Proof. intros E. unfold heap_pos. erewrite in_heap_ok; [|unfold read_var; by rewrite E]. by destruct w. Qed.
Lemma tmr_ok w t v : tmrs w !! t = Some v → tmr t w = Ret (TT_SUCCESS v, w).
Proof. unfold tmr. by intros ->. Qed.
Lemma upd_tmr_ok w t v f : tmrs w !! t = Some v → upd_tmr t f w = Ret (TT_SUCCESS tt, put_tmrs (<[t := f v]> (tmrs w)) w).
Proof. unfold upd_tmr. by intros ->. Qed.

Definition freed (t : ptr) (w : tworld) : tworld :=
  mk_world (delete t (tmrs w)) (mk_pstate (heap (tmr_heap w)) (delete t (vars (tmr_heap w))))
    (mk_lmem (delete t (nodes (fibs w))) (lists (fibs w))) (recving w) (reads w).

(** Destroying a timer that is in the heap or not. *)
Lemma tmr_destroy_ok w σ Q t v : tmr_inv w σ Q → tmrs w !! t = Some v → status v ≠ TT_TMR_ORPHAN →
  ∃ w', tt_tmr_destroy t w = Ret (TT_SUCCESS tt, w') ∧ tmr_inv w' (without t σ) Q ∧
    recving w' = recving w ∧ reads w' = reads w ∧
    tmrs w' = (if decide (t ∈ Q) then <[t := set_status TT_TMR_ORPHAN v]> (tmrs w) else delete t (tmrs w)).
Proof.
  intros Hi Hv Hs. destruct (list_remove_ok _ _ t (ti_lists _ _ _ Hi) (timer_node _ _ _ Hi t v Hv)) as (r & l & El & Hl & Hso).
  unfold tt_tmr_destroy. erewrite bind_step by (by apply in_lists_ok).
  destruct (decide (t ∈ Q)) as [Ht|Ht].
  - destruct (queued_timer _ _ _ Hi t Ht) as (_ & i & _ & Hp & Hn). erewrite bind_step by (by apply heap_pos_ok).
    rewrite (proj2 (Z.eqb_neq _ _)) by done. rewrite (upd_tmr_ok _ t v) by done. eexists. split; [reflexivity|].
    split; [|done]. simpl. destruct Hso as [Hso1 Hso2]. split; simpl; try apply Hi.
    + eapply rerank; [apply Hi|]. intros x _. by apply (trank_insert _ _ v).
    + rewrite dom_insert_lookup_L by eauto. apply Hi.
    + done.
    + rewrite dom_insert_lookup_L, Hso1 by eauto. apply Hi.
    + intros u x Hx. apply lookup_insert_Some in Hx as [[<- <-]|[_ Hx]]; [by apply (ti_time _ _ _ Hi t v)|by apply (ti_time _ _ _ Hi u)].
    + intros u x Hx. apply lookup_insert_Some in Hx as [[<- <-]|[Hne Hx]].
      * unfold placed. simpl. split; [apply free_without|done].
      * apply (placed_without σ Q); [by apply Hi|done|done].
    + intros f Hf. rewrite <- !elem_of_dom, Hso2, !elem_of_dom. by apply (ti_fibers _ _ _ Hi).
    + intros u x Hx Hsx. apply lookup_insert_Some in Hx as [[<- <-]|[_ Hx]]; [done|by apply (ti_owner _ _ _ Hi u)].
  - erewrite bind_step by (apply heap_pos_ok; exact (unqueued_timer w σ Q Hi t v Hv Ht)). rewrite (proj2 (Z.eqb_eq _ _)) by done.
    unfold tmr_free. simpl. rewrite Hv. eexists. split; [reflexivity|]. split; [|done].
    apply (gone_inv w σ Q (tmr_heap w) l Q t); try done; apply Hi.
Qed.

(** Destroying one that was an orphan, after it left the heap. *)
Lemma destroy_orphan w σ Q Q1 h t v : tmr_inv w σ Q → tmrs w !! t = Some v → Q ≡ₚ t :: Q1 →
  has_queue (trank (tmrs w)) h (entry <$> Q1) → dom (vars h) = dom (tmrs w) →
  ∃ w', tt_tmr_destroy t (put_heap h w) = Ret (TT_SUCCESS tt, w') ∧ tmr_inv w' (without t σ) Q1 ∧
    recving w' = recving w ∧ reads w' = reads w ∧ tmrs w' = delete t (tmrs w).
Proof.
  intros Hi Hv Hp Hq Hd. pose proof (queue_nodup _ _ _ Hi Q1 t Hp) as Ht.
  destruct (list_remove_ok _ _ t (ti_lists _ _ _ Hi) (timer_node _ _ _ Hi t v Hv)) as (r & l & El & Hl & Hso).
  unfold tt_tmr_destroy. erewrite bind_step by (by apply in_lists_ok).
  assert (t ∈ dom (vars h)) as [z Hz]%elem_of_dom by (rewrite Hd; apply elem_of_dom; eauto).
  assert (z = TT_POS_NULL) as ->.
  { eapply queue_null; [exact Hq|done|]. intros x (u & -> & Hu)%list_elem_of_fmap [= ->]. done. }
  erewrite bind_step by (by apply heap_pos_ok). rewrite (proj2 (Z.eqb_eq _ _)) by done.
  unfold tmr_free. simpl. rewrite Hv. eexists. split; [reflexivity|]. split; [|done].
  apply (gone_inv w σ Q h l Q1 t); try done. intros u Hu. rewrite Hp, elem_of_cons. naive_solver.
Qed.

(** ** Delivery *)

(** What a fiber that is switched to may do to timers: look at and receive its own. *)
Definition only_receives (resume : positive → M tworld unit) : Prop := ∀ w σ Q f,
  tmr_inv w σ Q → is_Some (recving w !! f) → ∃ w' σ', resume f w = Ret (TT_SUCCESS tt, w') ∧ tmr_inv w' σ' Q ∧
    tmrs w' = tmrs w ∧ (reads w ≤ reads w')%nat ∧ dom (recving w') = dom (recving w) ∧
    ∀ g, g ≠ f → recving w' !! g = recving w !! g ∧ σ' !! unexpired_tmr g = σ !! unexpired_tmr g ∧
      σ' !! expired_tmr g = σ !! expired_tmr g.

Lemma send_lists w σ Q t v : tmr_inv w σ Q → tmrs w !! t = Some v → status v ≠ TT_TMR_ORPHAN → t ∉ Q →
  (∃ xs, σ !! unexpired_tmr (owner v) = Some xs ∧ t ∈ xs) →
  ∃ l ys, σ !! expired_tmr (owner v) = Some ys ∧
    tmr_inv (put_fibs l w) (<[expired_tmr (owner v) := ys ++ [t]]> (without t σ)) Q ∧
    ∀ resume, tt_fiber_send_timer resume (owner v) t w =
      (r ← is_recving (owner v); if (r : bool) then resume (owner v) else mret tt) (put_fibs l w).
Proof.
  intros Hi Hv Hs Ht (xs & HU & Hin). set (f := owner v).
  pose proof (ti_lists _ _ _ Hi) as Hl. destruct (rep_in _ _ Hl _ _ t HU Hin) as (nd & Hnd & Hlst).
  destruct (list_remove_ok _ _ t Hl (timer_node _ _ _ Hi t v Hv)) as (r & l1 & E1 & Hl1 & [Hn1 Hls1]).
  destruct (ti_fibers _ _ _ Hi f (ti_owner _ _ _ Hi t v Hv Hs)) as [_ [le HE]].
  destruct (rep_dom _ _ Hl _ _ HE) as [ys Hys].
  assert (t ∉ ys) as Hty.
  { intros Hy. pose proof (rep_disjoint _ _ Hl _ _ _ _ t HU Hys Hin Hy) as E. done. }
  assert (without t σ !! expired_tmr f = Some ys) as Hys'.
  { unfold without. rewrite lookup_fmap, Hys. simpl. by rewrite filter_absent. }
  destruct (list_push_ok l1 (without t σ) (expired_tmr f) ys t Hl1 Hys') as (l2 & E2 & Hl2 & [Hn2 Hls2]).
  { apply elem_of_dom. rewrite Hn1. apply elem_of_dom. eauto. }
  { apply free_without. }
  exists l2, ys. split; [done|]. split.
  - split; simpl; try apply Hi.
    + done.
    + rewrite Hn2, Hn1. apply Hi.
    + intros u x Hx. destruct (decide (u = t)) as [->|Hne].
      * pose proof (eq_trans (eq_sym Hx) Hv) as [= ->]. unfold placed. rewrite decide_False by done.
        exists (ys ++ [t]). split; [set_solver|]. right. split; [|done]. by rewrite lookup_insert_eq.
      * pose proof (placed_without _ _ Q t u x (ti_placed _ _ _ Hi u x Hx) Hne ltac:(done)) as Hp.
        unfold placed in *. case_decide.
        { destruct Hp as [Hf Hq]. split; [|done]. intros L zs HL. apply lookup_insert_Some in HL as [[<- <-]|[_ HL]]; [|by eapply Hf].
          intros [Hz| ->%list_elem_of_singleton]%elem_of_app; [|done]. by eapply Hf. }
        destruct Hp as (zs & Hz & [HL|[HL Hq]]).
        { exists zs. split; [done|]. left. by rewrite lookup_insert_ne. }
        destruct (decide (owner x = f)) as [Ef|Ef].
        { exists (ys ++ [t]). rewrite Ef in *. rewrite Hys' in HL. injection HL as <-. split; [set_solver|].
          right. by rewrite lookup_insert_eq. }
        exists zs. split; [done|]. right. rewrite lookup_insert_ne; [done|]. unfold expired_tmr. congruence.
    + intros g Hg. rewrite <- !elem_of_dom, Hls2, Hls1, !elem_of_dom. by apply (ti_fibers _ _ _ Hi).
  - intros resume. unfold tt_fiber_send_timer.
    erewrite bind_step by (apply in_lists_ok; unfold node; by rewrite Hnd).
    erewrite bind_step by (simpl; rewrite bool_decide_true by done; done).
    erewrite bind_step by (apply in_lists_ok; exact E1). erewrite bind_step by (apply in_lists_ok; exact E2). done.
Qed.

Lemma send_ok resume w σ Q t v : only_receives resume → tmr_inv w σ Q → tmrs w !! t = Some v → status v ≠ TT_TMR_ORPHAN → t ∉ Q →
  (∃ xs, σ !! unexpired_tmr (owner v) = Some xs ∧ t ∈ xs) →
  ∃ w' σ', tt_fiber_send_timer resume (owner v) t w = Ret (TT_SUCCESS tt, w') ∧ tmr_inv w' σ' Q ∧
    tmrs w' = tmrs w ∧ (reads w ≤ reads w')%nat ∧ dom (recving w') = dom (recving w) ∧
    ∀ g ys, recving w !! g = Some false → σ !! expired_tmr g = Some ys →
      recving w' !! g = Some false ∧ σ' !! expired_tmr g = Some (if decide (owner v = g) then ys ++ [t] else ys).
Proof.
  intros Hres Hi Hv Hs Ht Hx. destruct (send_lists w σ Q t v Hi Hv Hs Ht Hx) as (l & ys & HE & Hi1 & Es). rewrite (Es resume). clear Es.
  destruct Hx as (xs & HU & Hin). pose proof (ti_lists _ _ _ Hi) as Hl.
  destruct (ti_owner _ _ _ Hi t v Hv Hs) as [b Hb].
  assert (∀ g zs, σ !! expired_tmr g = Some zs →
    (<[expired_tmr (owner v) := ys ++ [t]]> (without t σ)) !! expired_tmr g = Some (if decide (owner v = g) then zs ++ [t] else zs)) as Hexp.
  { intros g zs Hg. destruct (decide (owner v = g)) as [<-|Hne].
    - rewrite lookup_insert_eq. by pose proof (eq_trans (eq_sym HE) Hg) as [= ->].
    - rewrite lookup_insert_ne by (unfold expired_tmr; congruence). unfold without. rewrite lookup_fmap, Hg. simpl.
      rewrite filter_absent; [done|]. intros Hz. pose proof (rep_disjoint _ _ Hl _ _ _ _ t HU Hg Hin Hz). done. }
  erewrite bind_step by (unfold is_recving; simpl; by rewrite Hb). destruct b.
  - destruct (Hres _ _ _ (owner v) Hi1) as (w' & σ' & Er & Hi' & Et & Hrd & Hd & Ho); [simpl; by rewrite Hb|].
    exists w', σ'. split; [exact Er|]. split; [done|]. split; [done|]. split; [done|]. split; [done|].
    intros g zs Hg HEg. assert (g ≠ owner v) as Hne by congruence. destruct (Ho g Hne) as (E1 & _ & E3).
    rewrite E1, E3. split; [done|]. by apply Hexp.
  - eexists _, _. split; [reflexivity|]. split; [exact Hi1|]. simpl. split; [done|]. split; [lia|]. split; [done|].
    intros g zs Hg HEg. split; [done|]. by apply Hexp.
Qed.

(** ** A run of the manager *)

Definition tref (ts : gmap ptr tt_tmr_t) (t : ptr) : Z :=
  match ts !! t with Some v => absolute_ref v | None => 0 end.
Definition owned_by (ts : gmap ptr tt_tmr_t) (f : positive) (t : ptr) : Prop := owner <$> ts !! t = Some f.
#[global] Instance owned_by_dec ts f t : Decision (owned_by ts f t).
Proof. unfold owned_by. apply _. Defined.

(** From [w] with the timers [Q] in the heap to [w'] with [Q']: [D] were delivered,
    in this order, [K] were only taken out; readings of the clock count from [n0]. *)
Record ran (clock : nat → Z) (n0 : nat) (w : tworld) (σ : gmap positive (list positive)) (Q D K Q' : list ptr) (z : Z)
    (w' : tworld) (σ' : gmap positive (list positive)) : Prop := {
  ra_inv : tmr_inv w' σ' Q';
  ra_parts : Q ≡ₚ D ++ K ++ Q';
  ra_due u : u ∈ D → ∃ v n, tmrs w !! u = Some v ∧ status v = TT_TMR_ACTIVE ∧ (n0 ≤ n < reads w')%nat ∧ absolute_ref v ≤ clock n;
  ra_skipped u : u ∈ K → ∃ v, tmrs w !! u = Some v ∧ status v ≠ TT_TMR_ACTIVE;
  ra_sorted : StronglySorted (λ a b, tref (tmrs w) a ≤ tref (tmrs w) b) D;
  ra_stop : (Q' = [] ∧ z = TT_TIME_INFINITE) ∨
    ∃ n t v, S n = reads w' ∧ (n0 ≤ n)%nat ∧ t ∈ Q' ∧ tmrs w' !! t = Some v ∧ status v = TT_TMR_ACTIVE ∧
      z = absolute_ref v - clock n ∧ 0 < z ∧ ∀ u, u ∈ Q' → absolute_ref v ≤ tref (tmrs w') u;
  ra_tmrs u : tmrs w' !! u = match tmrs w !! u with
    | Some v => if decide (status v = TT_TMR_ORPHAN ∧ u ∈ K) then None else Some v
    | None => None
    end;
  ra_sent f ys : recving w !! f = Some false → σ !! expired_tmr f = Some ys →
    recving w' !! f = Some false ∧ σ' !! expired_tmr f = Some (ys ++ filter (owned_by (tmrs w) f) D);
}.

Lemma filter_agree {A} (P P' : A → Prop) `{!∀ x, Decision (P x), !∀ x, Decision (P' x)} (xs : list A) :
  (∀ x, x ∈ xs → (P x ↔ P' x)) → filter P xs = filter P' xs.
Proof.
  induction xs as [|x xs IH]; intros Ha; [done|]. rewrite !filter_cons. rewrite IH by (intros y Hy; apply Ha; by constructor).
  apply decide_ext. apply Ha. by constructor.
Qed.

Section rounds.
Context (clock : nat → Z) (n0 : nat).
Notation ran := (ran clock n0).

(** The rest of a run after [t] was delivered. *)
Lemma ran_fire w σ Q w1 σ1 Q1 t v n D K Q' z w' σ' : tmr_inv w σ Q → tmrs w !! t = Some v → status v = TT_TMR_ACTIVE →
  Q ≡ₚ t :: Q1 → (∀ u x, u ∈ Q → tmrs w !! u = Some x → absolute_ref v ≤ absolute_ref x) →
  (n0 ≤ n < reads w')%nat → absolute_ref v ≤ clock n → tmrs w1 = tmrs w →
  (∀ g ys, recving w !! g = Some false → σ !! expired_tmr g = Some ys →
      recving w1 !! g = Some false ∧ σ1 !! expired_tmr g = Some (if decide (owner v = g) then ys ++ [t] else ys)) →
  ran w1 σ1 Q1 D K Q' z w' σ' → ran w σ Q (t :: D) K Q' z w' σ'.
Proof.
  intros Hi Hv Hs Hp Hmin Hn Hc Et Hsend [Ri Rp Rd Rk Rs Rstop Rt Rsent]. rewrite Et in *. split; try done.
  - by rewrite Hp, Rp.
  - intros u [->|Hu]%elem_of_cons; [by exists v, n|]. destruct (Rd u Hu) as (x & m & ? & ? & ? & ?). by exists x, m.
  - constructor; [done|]. apply Forall_forall. intros u Hu. destruct (Rd u Hu) as (x & m & Hx & _).
    unfold tref. rewrite Hv, Hx. apply (Hmin u); [|done]. rewrite Hp, Rp. set_solver.
  - intros f ys Hf HE. destruct (Hsend f ys Hf HE) as [Hf1 HE1]. destruct (Rsent f _ Hf1 HE1) as [Hf' HE'].
    split; [done|]. rewrite HE'. f_equal. destruct (decide (owner v = f)) as [<-|Hne].
    + rewrite filter_cons_True by (unfold owned_by; by rewrite Hv). by rewrite <- app_assoc.
    + rewrite filter_cons_False; [done|]. unfold owned_by. rewrite Hv. intros [= E]. done.
Qed.

(** After [t] was only taken out: stopped, or destroyed and now freed. *)
Lemma ran_skip w σ Q w1 σ1 Q1 t v D K Q' z w' σ' : tmr_inv w σ Q → tmrs w !! t = Some v → status v ≠ TT_TMR_ACTIVE →
  Q ≡ₚ t :: Q1 → t ∉ Q1 → tmrs w1 = (if decide (status v = TT_TMR_ORPHAN) then delete t (tmrs w) else tmrs w) →
  recving w1 = recving w → (∀ g, σ1 !! expired_tmr g = σ !! expired_tmr g) →
  ran w1 σ1 Q1 D K Q' z w' σ' → ran w σ Q D (t :: K) Q' z w' σ'.
Proof.
  intros Hi Hv Hs Hp Hn Et Er Hσ [Ri Rp Rd Rk Rs Rstop Rt Rsent].
  assert (∀ u, u ≠ t → tmrs w1 !! u = tmrs w !! u) as Hu.
  { intros u Hne. rewrite Et. case_decide; [by apply lookup_delete_ne|done]. }
  assert (∀ u, u ∈ D ++ K → u ≠ t) as Hne.
  { intros u HD ->. apply Hn. rewrite Rp, app_assoc. apply elem_of_app. by left. }
  split; try done.
  - rewrite Hp, Rp. simpl. by rewrite <- Permutation_middle.
  - intros u HD. destruct (Rd u HD) as (x & m & Hx & ?). exists x, m. rewrite <- Hu by (apply Hne; set_solver). done.
  - intros u [->|HK]%elem_of_cons; [by exists v|]. destruct (Rk u HK) as (x & Hx & ?). exists x.
    rewrite <- Hu by (apply Hne; set_solver). done.
  - assert (∀ u, u ∈ D → tref (tmrs w1) u = tref (tmrs w) u) as Href.
    { intros u HD. unfold tref. rewrite Hu by (apply Hne; set_solver). done. }
    clear -Rs Href. induction Rs as [|a D Rs IH Ha]; constructor.
    + apply IH. intros u HD. apply Href. by constructor.
    + rewrite Forall_forall in *. intros u HD. specialize (Ha u HD). rewrite !Href in Ha by (by constructor || (constructor; done)). done.
  - intros u. rewrite Rt. destruct (decide (u = t)) as [->|Hne'].
    + rewrite Et, Hv. destruct (decide (status v = TT_TMR_ORPHAN)) as [Ho|Ho].
      * rewrite lookup_delete_eq, decide_True; [done|]. split; [done|by constructor].
      * rewrite Hv. by rewrite !decide_False by tauto.
    + rewrite Hu by done. destruct (tmrs w !! u) as [x|]; [|done]. apply decide_ext. rewrite elem_of_cons. tauto.
  - intros f ys Hf HE. destruct (Rsent f ys) as [Hf' HE']; [by rewrite Er|by rewrite Hσ|]. split; [done|]. rewrite HE'. do 2 f_equal.
    apply filter_agree. intros u HD. unfold owned_by. rewrite Hu; [done|]. apply Hne. set_solver.
Qed.

Context (resume : positive → M tworld unit).

Lemma reads_inv k w σ Q : tmr_inv w σ Q → tmr_inv (put_reads k w) σ Q.
Proof. intros Hi. destruct Hi. by split. Qed.

(** Delivering the head. *)
Lemma fire_ok w σ Q Q1 h t v k now : only_receives resume → tmr_inv w σ Q → tmrs w !! t = Some v → status v = TT_TMR_ACTIVE →
  Q ≡ₚ t :: Q1 → tt_tmr_mgr_pop (put_reads k w) = Ret (TT_SUCCESS (Some t), put_heap h (put_reads k w)) →
  has_queue (trank (tmrs w)) h (entry <$> Q1) → dom (vars h) = dom (tmrs w) →
  ∃ w1 σ1, (tt_tmr_mgr_pop;; tt_fiber_send_timer resume (owner v) t;; mret (inl (now, true))) (put_reads k w) =
      Ret (TT_SUCCESS (inl (now, true) : Z * bool + Z), w1) ∧ tmr_inv w1 σ1 Q1 ∧ tmrs w1 = tmrs w ∧ (k ≤ reads w1)%nat ∧
    ∀ g ys, recving w !! g = Some false → σ !! expired_tmr g = Some ys →
      recving w1 !! g = Some false ∧ σ1 !! expired_tmr g = Some (if decide (owner v = g) then ys ++ [t] else ys).
Proof.
  intros Hres Hi Hv Hs Hp Ep Hq Hd. erewrite bind_step by exact Ep.
  assert (status v ≠ TT_TMR_ORPHAN) as Hs' by congruence. pose proof (queue_nodup _ _ _ Hi Q1 t Hp) as Hn.
  pose proof (popped_inv (put_reads k w) σ Q Q1 h t v (reads_inv k _ _ _ Hi) Hv Hp Hs' Hq Hd) as Hi1.
  destruct (send_ok resume _ σ Q1 t v Hres Hi1 Hv Hs' Hn) as (w1 & σ1 & Es & Hi2 & Et & Hr & _ & Hsend).
  { pose proof (ti_placed _ _ _ Hi t v Hv) as Hpl. unfold placed in Hpl. rewrite decide_False in Hpl by done.
    destruct Hpl as (xs & Hx & [HL|[_ HQ]]); [eauto|]. destruct HQ. rewrite Hp. by constructor. }
  exists w1, σ1. split; [by erewrite bind_step by exact Es|]. split; [done|]. split; [done|]. split; [exact Hr|]. exact Hsend.
Qed.

(** What is known of [now]: nothing yet, or a reading, the last one if nothing was
    delivered since. *)
Definition now_ok (w : tworld) (now : Z) (cb : bool) : Prop :=
  now = 0 ∨ ∃ n, (n0 ≤ n < reads w)%nat ∧ now = clock n ∧ (cb = false → S n = reads w).

Lemma ran_stop w σ Q k n t v : tmr_inv w σ Q → t ∈ Q → tmrs w !! t = Some v → status v = TT_TMR_ACTIVE → (n0 ≤ n)%nat → S n = k →
  (∀ u x, u ∈ Q → tmrs w !! u = Some x → absolute_ref v ≤ absolute_ref x) → clock n < absolute_ref v →
  ran w σ Q [] [] Q (absolute_ref v - clock n) (put_reads k w) σ.
Proof.
  intros Hi Ht Hv Hs Hn Hk Hmin Hc. split; simpl; try done.
  - by apply reads_inv.
  - intros u Hu. by apply not_elem_of_nil in Hu.
  - intros u Hu. by apply not_elem_of_nil in Hu.
  - constructor.
  - right. exists n, t, v. repeat split; try done; try lia. intros u Hu.
    destruct (queued_timer _ _ _ Hi u Hu) as (x & _ & Hx & _). unfold tref. rewrite Hx. by apply (Hmin u).
  - intros u. destruct (tmrs w !! u); [|done]. rewrite decide_False; [done|]. intros [_ Hu]. by apply not_elem_of_nil in Hu.
  - intros f ys Hf HE. rewrite app_nil_r. done.
Qed.

Lemma now_read w now cb : (n0 ≤ reads w)%nat → now_ok w now cb → ∃ k n,
  (if now =? 0 then tt_time_ref clock else mret now) w = Ret (TT_SUCCESS (clock n), put_reads k w) ∧
  (reads w ≤ k)%nat ∧ (n0 ≤ n < k)%nat ∧ (cb = false → S n = k).
Proof.
  intros Hr [->|(n & Hn & -> & Hc)].
  - exists (S (reads w)), (reads w). split; [done|]. split; [lia|]. split; [lia|done].
  - destruct (Z.eqb_spec (clock n) 0) as [E|E].
    + exists (S (reads w)), (reads w). split; [done|]. split; [lia|]. split; [lia|done].
    + exists (reads w), n. split; [by destruct w|]. split; [lia|]. split; [lia|done].
Qed.

(** One round delivers the head, skips it or ends the run. *)
Lemma run_round_ok w σ Q Q1 h t v now cb : only_receives resume → tmr_inv w σ Q → (n0 ≤ reads w)%nat → now_ok w now cb →
  tmrs w !! t = Some v → Q ≡ₚ t :: Q1 → (∀ u x, u ∈ Q → tmrs w !! u = Some x → absolute_ref v ≤ absolute_ref x) →
  (∀ k, tt_tmr_mgr_pop (put_reads k w) = Ret (TT_SUCCESS (Some t), put_heap h (put_reads k w))) →
  has_queue (trank (tmrs w)) h (entry <$> Q1) → dom (vars h) = dom (tmrs w) →
  (∃ now1 cb1 w1 σ1, run_round clock resume t now cb w = Ret (TT_SUCCESS (inl (now1, cb1)), w1) ∧
    tmr_inv w1 σ1 Q1 ∧ (reads w ≤ reads w1)%nat ∧ now_ok w1 now1 cb1 ∧
    ((∃ n, (n0 ≤ n < reads w1)%nat ∧ absolute_ref v ≤ clock n ∧ status v = TT_TMR_ACTIVE ∧ tmrs w1 = tmrs w ∧
      ∀ g ys, recving w !! g = Some false → σ !! expired_tmr g = Some ys →
        recving w1 !! g = Some false ∧ σ1 !! expired_tmr g = Some (if decide (owner v = g) then ys ++ [t] else ys)) ∨
     (status v ≠ TT_TMR_ACTIVE ∧ tmrs w1 = (if decide (status v = TT_TMR_ORPHAN) then delete t (tmrs w) else tmrs w) ∧
      recving w1 = recving w ∧ ∀ g, σ1 !! expired_tmr g = σ !! expired_tmr g))) ∨
  (∃ n k, run_round clock resume t now cb w = Ret (TT_SUCCESS (inr (absolute_ref v - clock n)), put_reads k w) ∧
    status v = TT_TMR_ACTIVE ∧ (n0 ≤ n)%nat ∧ S n = k ∧ (reads w ≤ k)%nat ∧ clock n < absolute_ref v).
Proof.
  intros Hres Hi Hn0 Hnow Hv Hp Hmin Ep Hq Hd. unfold run_round. erewrite bind_step by (by apply tmr_ok).
  destruct (status v) eqn:Es.
  - left. pose proof (Ep (reads w)) as Ep0. replace (put_reads (reads w) w) with w in Ep0 by (by destruct w).
    erewrite bind_step by exact Ep0. exists now, cb, (put_heap h w), σ. split; [done|]. split.
    { eapply popped_inv; [done..| |done|done]. by rewrite Es. }
    split; [simpl; lia|]. split; [exact Hnow|]. right. done.
  - destruct (now_read w now cb Hn0 Hnow) as (k & n & Er & Hk & Hn & Hcb). erewrite bind_step by exact Er.
    assert (∀ k n, (reads w ≤ k)%nat → (n0 ≤ n < k)%nat → absolute_ref v ≤ clock n → ∃ now1 cb1 w1 σ1,
      (tt_tmr_mgr_pop;; tt_fiber_send_timer resume (owner v) t;; mret (inl (clock n, true))) (put_reads k w) =
        Ret (TT_SUCCESS (inl (now1, cb1) : Z * bool + Z), w1) ∧ tmr_inv w1 σ1 Q1 ∧ (reads w ≤ reads w1)%nat ∧ now_ok w1 now1 cb1 ∧
      ∃ n, (n0 ≤ n < reads w1)%nat ∧ absolute_ref v ≤ clock n ∧ TT_TMR_ACTIVE = TT_TMR_ACTIVE ∧ tmrs w1 = tmrs w ∧
      ∀ g ys, recving w !! g = Some false → σ !! expired_tmr g = Some ys →
        recving w1 !! g = Some false ∧ σ1 !! expired_tmr g = Some (if decide (owner v = g) then ys ++ [t] else ys)) as Hfire.
    { intros k' n' Hk' Hn' Hdue. destruct (fire_ok w σ Q Q1 h t v k' (clock n') Hres Hi Hv Es Hp (Ep k') Hq Hd)
        as (w1 & σ1 & E1 & Hi1 & Et & Hr & Hsend).
      exists (clock n'), true, w1, σ1. split; [exact E1|]. split; [done|]. split; [lia|]. split.
      - right. exists n'. split; [lia|]. split; [done|done].
      - exists n'. split; [lia|]. done. }
    destruct (Z.leb_spec (absolute_ref v) (clock n)) as [Hdue|Hlate].
    { left. destruct (Hfire k n Hk Hn Hdue) as (now1 & cb1 & w1 & σ1 & E1 & Hi1 & Hr1 & Hno1 & Hs1).
      exists now1, cb1, w1, σ1. split; [exact E1|]. split; [done|]. split; [done|]. split; [done|]. by left. }
    destruct cb.
    + unfold tt_time_ref. erewrite bind_step by (erewrite bind_step by done; erewrite bind_step by done; done).
      simpl. destruct (Z.leb_spec (absolute_ref v) (clock k)) as [Hdue|Hlate'].
      * left. destruct (Hfire (S k) k ltac:(lia) ltac:(lia) Hdue) as (now1 & cb1 & w1 & σ1 & E1 & Hi1 & Hr1 & Hno1 & Hs1).
        exists now1, cb1, w1, σ1. split; [exact E1|]. split; [done|]. split; [done|]. split; [done|]. by left.
      * right. exists k, (S k). split; [done|]. split; [done|]. split; [lia|]. split; [done|]. split; [lia|done].
    + right. exists n, k. split; [done|]. split; [done|]. split; [lia|]. split; [by apply Hcb|done].
  - left. pose proof (Ep (reads w)) as Ep0. replace (put_reads (reads w) w) with w in Ep0 by (by destruct w).
    erewrite bind_step by exact Ep0.
    destruct (destroy_orphan w σ Q Q1 h t v Hi Hv Hp Hq Hd) as (w1 & E1 & Hi1 & Er & Erd & Et).
    erewrite bind_step by exact E1. exists now, cb, w1, (without t σ). split; [done|]. split; [done|]. split; [lia|]. split.
    { unfold now_ok in *. by rewrite Erd. }
    right. split; [done|]. split; [by rewrite Et|]. split; [done|]. intros g. rewrite without_free; [done|].
    pose proof (ti_placed _ _ _ Hi t v Hv) as Hpl. unfold placed in Hpl. rewrite decide_True in Hpl by done. by destruct Hpl.
Qed.

Lemma run_loop_ok fuel : ∀ w σ Q now cb, only_receives resume → tmr_inv w σ Q → (length Q < fuel)%nat →
  (n0 ≤ reads w)%nat → now_ok w now cb →
  ∃ D K Q' z w' σ', run_loop clock resume now cb fuel w = Ret (TT_SUCCESS z, w') ∧ ran w σ Q D K Q' z w' σ' ∧
    (reads w ≤ reads w')%nat.
Proof.
  induction fuel as [|fuel IH]; intros w σ Q now cb Hres Hi Hf Hn0 Hnow; [lia|]. simpl.
  destruct (decide (Q = [])) as [->|HQ].
  { erewrite bind_step by (by eapply head_empty). exists [], [], [], TT_TIME_INFINITE, w, σ. split; [done|]. split; [|lia].
    split; try done.
    - intros u Hu. by apply not_elem_of_nil in Hu.
    - intros u Hu. by apply not_elem_of_nil in Hu.
    - constructor.
    - by left.
    - intros u. destruct (tmrs w !! u); [|done]. rewrite decide_False; [done|]. intros [_ Hu]. by apply not_elem_of_nil in Hu.
    - intros f ys Hf' HE. rewrite app_nil_r. done. }
  destruct (pop_timer w σ Q Hi HQ) as (t & v & Q1 & h & Hv & Hp & Hmin & Eh & Ep & Hq & Hd).
  assert (length Q1 < fuel)%nat as Hf1 by (apply Permutation_length in Hp; simpl in Hp; lia).
  assert (t ∈ Q) as Ht by (rewrite Hp; by constructor).
  pose proof (queue_nodup _ _ _ Hi Q1 t Hp) as Hnt.
  erewrite bind_step by exact Eh.
  destruct (run_round_ok w σ Q Q1 h t v now cb Hres Hi Hn0 Hnow Hv Hp Hmin Ep Hq Hd)
    as [(now1 & cb1 & w1 & σ1 & E1 & Hi1 & Hr1 & Hnow1 & Hcase)|(n & k & E1 & Hs & Hn & Hk & Hr1 & Hlate)]; cycle 1.
  { erewrite bind_step by exact E1. eexists [], [], Q, _, _, σ. split; [reflexivity|]. split; [by eapply ran_stop|simpl; lia]. }
  erewrite bind_step by exact E1.
  destruct (IH w1 σ1 Q1 now1 cb1 Hres Hi1 Hf1 ltac:(lia) Hnow1) as (D & K & Q' & z & w' & σ' & E2 & Hran & Hr2).
  destruct Hcase as [(n & Hn & Hdue & Hs & Et & Hsend)|(Hs & Et & Er & Hσ)].
  - exists (t :: D), K, Q', z, w', σ'. split; [exact E2|]. split; [|lia].
    eapply (ran_fire w σ Q w1 σ1 Q1 t v n); try done. lia.
  - exists D, (t :: K), Q', z, w', σ'. split; [exact E2|]. split; [|lia].
    by eapply (ran_skip w σ Q w1 σ1 Q1 t v).
Qed.
End rounds.

(** ** The other operations *)

Lemma recv_ok w σ Q f : tmr_inv w σ Q → is_Some (recving w !! f) → ∃ ys xs l,
  σ !! expired_tmr f = Some ys ∧ σ !! unexpired_tmr f = Some xs ∧
  tt_fiber_recv_timer f w = Ret (TT_SUCCESS (hd_or ys None), put_fibs l w) ∧
  tmr_inv (put_fibs l w) (<[unexpired_tmr f := xs ++ take 1 ys]> (<[expired_tmr f := tl ys]> σ)) Q.
Proof.
  intros Hi Hf. pose proof (ti_lists _ _ _ Hi) as Hl. destruct (ti_fibers _ _ _ Hi f Hf) as [[lu HU] [le HE]].
  destruct (rep_dom _ _ Hl _ _ HU) as [xs Hxs], (rep_dom _ _ Hl _ _ HE) as [ys Hys].
  exists ys, xs. destruct (list_pop_ok _ _ _ ys Hl Hys) as (l1 & E1 & Hl1 & [Hn1 Hs1]).
  unfold tt_fiber_recv_timer. destruct ys as [|x ys].
  { exists l1. split; [done|]. split; [done|]. erewrite bind_step by (by apply in_lists_ok). split; [done|].
    simpl in *. rewrite app_nil_r. rewrite insert_id by (by rewrite lookup_insert_ne). rewrite insert_id in Hl1 |- * by done.
    destruct Hi. split; try done; simpl; [by rewrite Hn1|]. intros g Hg. rewrite <- !elem_of_dom, Hs1, !elem_of_dom. by apply ti_fibers0. }
  simpl in Hl1. destruct (rep_list _ _ Hl _ _ Hys) as (_ & Hnd & _). apply NoDup_cons in Hnd as [Hx _].
  assert (free (<[expired_tmr f := ys]> σ) x) as Hfr.
  { intros L zs HL Hz. apply lookup_insert_Some in HL as [[<- <-]|[Hne HL]]; [done|]. apply Hne.
    apply eq_sym. eapply (rep_disjoint _ _ Hl _ _ _ _ x Hys HL); [by constructor|done]. }
  destruct (list_push_ok l1 _ (unexpired_tmr f) xs x Hl1) as (l2 & E2 & Hl2 & [Hn2 Hs2]).
  { by rewrite lookup_insert_ne. }
  { apply elem_of_dom. rewrite Hn1. apply elem_of_dom. destruct (rep_in _ _ Hl _ _ x Hys) as (nd & -> & _); [by constructor|eauto]. }
  { done. }
  exists l2. split; [done|]. split; [done|]. split.
  { erewrite bind_step by (by apply in_lists_ok). simpl. erewrite bind_step by (by apply in_lists_ok). done. }
  simpl. split; simpl; try apply Hi.
  - done.
  - rewrite Hn2, Hn1. apply Hi.
  - intros u v Hv. pose proof (ti_placed _ _ _ Hi u v Hv) as Hp. unfold placed in *. case_decide.
    { destruct Hp as [Hfu Hu]. split; [|done]. intros L zs HL Hz. apply lookup_insert_Some in HL as [[<- <-]|[_ HL]].
      - apply elem_of_app in Hz as [Hz| ->%list_elem_of_singleton]; [by eapply (Hfu _ xs)|].
        apply (Hfu _ _ Hys). by constructor.
      - apply lookup_insert_Some in HL as [[<- <-]|[_ HL]]; [|by eapply Hfu]. apply (Hfu _ _ Hys). by constructor. }
    destruct Hp as (zs & Hz & [HL|[HL Hu]]).
    + destruct (decide (owner v = f)) as [Ef|Ef].
      * rewrite Ef in *. exists (xs ++ [x]). rewrite lookup_insert_eq. split; [|by left].
        assert (zs = xs) as -> by congruence. set_solver.
      * exists zs. split; [done|]. left. rewrite !lookup_insert_ne; [done|done|intros [= E]; by destruct Ef].
    + destruct (decide (owner v = f)) as [Ef|Ef].
      * rewrite Ef in *. assert (zs = x :: ys) as -> by congruence. apply elem_of_cons in Hz as [->|Hz].
        { exists (xs ++ [x]). rewrite lookup_insert_eq. split; [set_solver|by left]. }
        exists ys. split; [done|]. right. rewrite lookup_insert_ne by done. by rewrite lookup_insert_eq.
      * exists zs. split; [done|]. right. rewrite !lookup_insert_ne; [done|intros [= E]; by destruct Ef|done].
  - intros g Hg. rewrite <- !elem_of_dom, Hs2, Hs1, !elem_of_dom. by apply (ti_fibers _ _ _ Hi).
Qed.

(** Timers that take their expired timers, one at a time, when they are woken. *)
Definition demo_resume (f : positive) : M tworld unit := tt_fiber_recv_timer f;; mret tt.
Lemma demo_receives : only_receives demo_resume.
Proof.
  intros w σ Q f Hi Hf. destruct (recv_ok w σ Q f Hi Hf) as (ys & xs & l & HE & HU & Er & Hi').
  eexists _, _. split; [unfold demo_resume; by erewrite bind_step by exact Er|]. split; [exact Hi'|].
  simpl. split; [done|]. split; [lia|]. split; [done|]. intros g Hg. split; [done|].
  split; rewrite !lookup_insert_ne; try done; intros [= E]; by destruct Hg.
Qed.

Definition new_timer (f : positive) (delay ev param : Z) : tt_tmr_t := mk_tmr delay 0 f param ev TT_TMR_INACTIVE.

Lemma tmr_create_ok w σ Q t f delay ev param : tmr_inv w σ Q → tmrs w !! t = None → is_Some (recving w !! f) → is_time delay →
  ∃ w' σ', tt_tmr_create (Some t) f delay ev param w = Ret (TT_SUCCESS (Some t), w') ∧ tmr_inv w' σ' Q ∧
    tmrs w' = <[t := new_timer f delay ev param]> (tmrs w) ∧ recving w' = recving w ∧ reads w' = reads w.
Proof.
  intros Hi Ht Hf Hd. pose proof (ti_lists _ _ _ Hi) as Hl.
  assert (nodes (fibs w) !! t = None) as Hn by (apply not_elem_of_dom; rewrite (ti_nodes _ _ _ Hi); by apply not_elem_of_dom).
  assert (vars (tmr_heap w) !! t = None) as Hva by (apply not_elem_of_dom; rewrite (ti_vars _ _ _ Hi); by apply not_elem_of_dom).
  assert (t ∉ Q) as HtQ by (intros HQ; destruct (queued_timer _ _ _ Hi t HQ) as (v & _ & Hv & _); congruence).
  destruct (lrep_new _ _ t Hl Hn) as [Hl0 Hfr]. destruct (ti_fibers _ _ _ Hi f Hf) as [[lu HU] _].
  destruct (rep_dom _ _ Hl _ _ HU) as [xs Hxs].
  destruct (list_push_ok _ _ (unexpired_tmr f) xs t Hl0 Hxs) as (l & El & Hl' & [Hs1 Hs2]); [simpl; rewrite lookup_insert_eq; eauto|done|].
  simpl in Hs1, Hs2.
  set (v := new_timer f delay ev param).
  exists (mk_world (<[t := v]> (tmrs w)) (mk_pstate (heap (tmr_heap w)) (<[t := TT_POS_NULL]> (vars (tmr_heap w)))) l (recving w) (reads w)),
    (<[unexpired_tmr f := xs ++ [t]]> σ). split; [|split; [|done]].
  - unfold tt_tmr_create. destruct Hd as [Hd0 _]. rewrite (proj2 (Z.leb_le _ _)) by done. erewrite bind_step by done.
    erewrite bind_step by done. unfold tmr_alloc.
    do 3 (erewrite bind_step by (apply upd_tmr_ok; simpl; by rewrite lookup_insert_eq); simpl; rewrite insert_insert_eq).
    erewrite bind_step.
    2:{ apply in_lists_ok. simpl. unfold tt_lnode_init, upd_node. simpl. by rewrite lookup_insert_eq. }
    simpl. rewrite insert_insert_eq. erewrite bind_step by (apply in_lists_ok; exact El).
    do 2 (erewrite bind_step by (apply upd_tmr_ok; simpl; by rewrite lookup_insert_eq); simpl; rewrite insert_insert_eq).
    erewrite bind_step.
    2:{ apply in_heap_ok. simpl. by rewrite lookup_insert_eq. }
    simpl. rewrite insert_insert_eq.
    erewrite bind_step by (apply upd_tmr_ok; simpl; by rewrite lookup_insert_eq). simpl. by rewrite insert_insert_eq.
  - split; simpl; try apply Hi.
    + apply (queue_with _ (tmr_heap w)); [|done]. eapply rerank; [apply Hi|].
      intros x (u & -> & Hu)%list_elem_of_fmap. unfold trank. simpl. rewrite lookup_insert_ne; [done|]. intros ->. done.
    + rewrite !dom_insert_L. by rewrite (ti_vars _ _ _ Hi).
    + done.
    + rewrite Hs1, !dom_insert_L. by rewrite (ti_nodes _ _ _ Hi).
    + intros u x Hx. apply lookup_insert_Some in Hx as [[<- <-]|[_ Hx]]; [|by apply (ti_time _ _ _ Hi u)].
      split; [|done]. unfold is_time, INT64_MAX. simpl. lia.
    + intros u x Hx. apply lookup_insert_Some in Hx as [[<- <-]|[Hne Hx]].
      * unfold placed. rewrite decide_False by done. exists (xs ++ [t]). split; [set_solver|]. left. by rewrite lookup_insert_eq.
      * pose proof (ti_placed _ _ _ Hi u x Hx) as Hp. unfold placed in *. case_decide.
        { destruct Hp as [Hfu Hu]. split; [|done]. intros L zs HL Hz. apply lookup_insert_Some in HL as [[<- <-]|[_ HL]]; [|by eapply Hfu].
          apply elem_of_app in Hz as [Hz| ->%list_elem_of_singleton]; [by eapply (Hfu _ xs)|done]. }
        destruct Hp as (zs & Hz & [HL|[HL Hu]]).
        { destruct (decide (owner x = f)) as [Ef|Ef].
          - rewrite Ef in *. exists (xs ++ [t]). rewrite lookup_insert_eq. split; [|by left].
            assert (zs = xs) as -> by congruence. set_solver.
          - exists zs. split; [done|]. left. rewrite lookup_insert_ne; [done|]. intros [= E]. by destruct Ef. }
        exists zs. split; [done|]. right. by rewrite lookup_insert_ne.
    + intros g Hg. rewrite <- !elem_of_dom, Hs2, !elem_of_dom. by apply (ti_fibers _ _ _ Hi).
    + intros u x Hx Hsx. apply lookup_insert_Some in Hx as [[<- <-]|[_ Hx]]; [done|by apply (ti_owner _ _ _ Hi u)].
Qed.

(** Starting, or starting again, a timer whose last expiry was received. *)
Definition received (w : tworld) (t : ptr) (v : tt_tmr_t) : Prop :=
  ∃ nd, nodes (fibs w) !! t = Some nd ∧ lst nd = Some (unexpired_tmr (owner v)).

Section start.
Context `{Allocator}.

Lemma start_ok clock w σ Q t v : tmr_inv w σ Q → tmrs w !! t = Some v → status v ≠ TT_TMR_ORPHAN → received w t v →
  0 < clock (reads w) → clock (reads w) + delay_ms v ≤ INT64_MAX → hcount (heap (tmr_heap w)) + 1 < 2 ^ 28 →
  ∃ r w' Q', try (tt_tmr_start clock t) w = Ret (TT_SUCCESS r, w') ∧ tmr_inv w' σ Q' ∧ recving w' = recving w ∧
    reads w' = S (reads w) ∧
    tmrs w' = <[t := mk_tmr (delay_ms v) (clock (reads w) + delay_ms v) (owner v) (tparam v) (tev v) TT_TMR_ACTIVE]> (tmrs w) ∧
    ((r = TT_SUCCESS tt ∧ Q' = (if decide (t ∈ Q) then Q else t :: Q)) ∨
     (r = TT_ERROR TT_FAIL ∧ t ∉ Q ∧ Q' = Q ∧ may_fail (hmspg (heap (tmr_heap w))) (zlen Q))).
Proof.
  intros Hi Hv Hs (nd & Hnd & Hlst) Hc Hsum Hcount. destruct (ti_time _ _ _ Hi t v Hv) as [[Ht0 _] [Hd0 _]].
  pose proof (rep_node _ _ (ti_lists _ _ _ Hi) t nd Hnd) as Hin. rewrite Hlst in Hin.
  set (v' := mk_tmr (delay_ms v) (clock (reads w) + delay_ms v) (owner v) (tparam v) (tev v) TT_TMR_ACTIVE).
  set (ts' := <[t := v']> (tmrs w)).
  (* the world when the heap is called *)
  set (w1 := mk_world ts' (tmr_heap w) (fibs w) (recving w) (S (reads w))).
  assert (∀ Q' h, has_queue (trank ts') h (entry <$> Q') → dom (vars h) = dom (tmrs w) → (Q' = Q ∨ Q' = t :: Q) →
    tmr_inv (put_heap h w1) σ Q') as Hinv1.
  { intros Q' h Hq Hd HQ'. split; simpl; try apply Hi; try done.
    - unfold ts'. rewrite dom_insert_lookup_L by eauto. done.
    - unfold ts'. rewrite dom_insert_lookup_L by eauto. apply Hi.
    - intros u x Hx. apply lookup_insert_Some in Hx as [[<- <-]|[_ Hx]]; [|by apply (ti_time _ _ _ Hi u)].
      unfold is_time. simpl. split; [lia|]. by apply (ti_time _ _ _ Hi t).
    - intros u x Hx. apply lookup_insert_Some in Hx as [[<- <-]|[Hne Hx]].
      + unfold placed. rewrite decide_False by done. destruct Hin as (xs & HL & Hin). exists xs. split; [done|by left].
      + pose proof (ti_placed _ _ _ Hi u x Hx) as Hp. unfold placed in *.
        assert (u ∈ Q' ↔ u ∈ Q) as Hu. { destruct HQ' as [->| ->]; [done|]. rewrite elem_of_cons. naive_solver. }
        case_decide; [by rewrite Hu|]. destruct Hp as (xs & ? & ?). exists xs. by rewrite Hu.
    - intros u x Hx Hsx. apply lookup_insert_Some in Hx as [[<- <-]|[_ Hx]]; [|by apply (ti_owner _ _ _ Hi u)].
      by apply (ti_owner _ _ _ Hi t v). }
  assert (∀ Q', (∀ u, u ∈ Q' → u = t ∨ u ∈ Q) → compares (__tmr_cmp ts') (trank ts') (entry <$> Q')) as Hcmp.
  { intros Q' HQ'. apply timers_compare. intros u Hu. destruct (decide (u = t)) as [->|Hne].
    - exists v'. split; [by apply lookup_insert_eq|]. unfold is_time. simpl. lia.
    - destruct (HQ' u Hu) as [?|HuQ]; [done|]. destruct (queued_timer _ _ _ Hi u HuQ) as (x & _ & Hx & _).
      exists x. split; [by apply lookup_insert_ne_Some || (unfold ts'; by rewrite lookup_insert_ne)|]. by apply (ti_time _ _ _ Hi u). }
  assert (∀ i, vars (tmr_heap w) !! t = Some i → tt_tmr_start clock t w =
    (if i =? TT_POS_NULL then in_heap (tt_ptrheap_add (__tmr_cmp ts') (Some t) (Some t))
     else in_heap (tt_ptrheap_fix (__tmr_cmp ts') i)) w1) as Erun.
  { intros i Hpos. unfold tt_tmr_start, tt_time_ref. erewrite bind_step by (erewrite bind_step by done; erewrite bind_step by done; done).
    erewrite bind_step by (by apply upd_tmr_ok). erewrite bind_step by (apply tmr_ok; simpl; by rewrite lookup_insert_eq).
    simpl. unfold tt_time_ms2ref, is_s64. rewrite (proj2 (Z.leb_le (- 2 ^ 63) _)) by lia. rewrite (proj2 (Z.leb_le _ _)) by done.
    simpl. rewrite (proj2 (Z.leb_gt _ _)) by lia.
    erewrite bind_step by (apply upd_tmr_ok; simpl; by rewrite lookup_insert_eq). simpl. rewrite insert_insert_eq.
    erewrite bind_step by (apply upd_tmr_ok; simpl; by rewrite lookup_insert_eq). simpl. rewrite insert_insert_eq.
    erewrite bind_step by (by apply heap_pos_ok). by erewrite bind_step by done. }
  destruct (decide (t ∈ Q)) as [HQ|HQ].
  - destruct (queued_timer _ _ _ Hi t HQ) as (_ & i & _ & Hpos & Hne). pose proof HQ as [Q1 Hp]%elem_of_Permutation.
    pose proof (queue_nodup _ _ _ Hi Q1 t Hp) as HtQ1.
    destruct (fix_key_ok (__tmr_cmp ts') (trank ts') (trank (tmrs w)) (tmr_heap w) (entry <$> Q) (entry <$> Q1) (entry t) t)
      as (i' & h & Hpos' & Ef & Hq & [Hal _]).
    + apply Hi.
    + apply Hcmp. by right.
    + by rewrite Hp.
    + done.
    + intros x (u & -> & Hu)%list_elem_of_fmap. unfold trank, ts'. simpl. rewrite lookup_insert_ne; [done|]. intros ->. done.
    + assert (i' = i) as -> by congruence. exists (TT_SUCCESS tt), (put_heap h w1), Q. split.
      { unfold try. rewrite (Erun i Hpos). rewrite (proj2 (Z.eqb_neq _ _)) by done. by rewrite (in_heap_ok _ w1 tt h Ef). }
      split; [apply Hinv1; [done| |by left]; rewrite Hal; apply Hi|]. do 3 (split; [done|]). by left.
  - pose proof (unqueued_timer _ _ _ Hi t v Hv HQ) as Hpos.
    assert (has_queue (trank ts') (tmr_heap w) (entry <$> Q)) as Hq0.
    { eapply rerank; [apply Hi|]. intros x (u & -> & Hu)%list_elem_of_fmap. unfold trank, ts'. simpl.
      rewrite lookup_insert_ne; [done|]. intros ->. done. }
    assert (zlen (entry <$> Q) = zlen Q) as Ez by (unfold zlen; by rewrite length_fmap).
    destruct (add_ok (__tmr_cmp ts') (trank ts') (tmr_heap w) (entry <$> Q) t (Some t) Hq0) as [(h & Ea & Hq & [Hal _])|[Ea Hf]].
    + apply (Hcmp (t :: Q)). intros u Hu. by apply elem_of_cons.
    + pose proof (count_ok _ _ _ Hq0) as Hcnt. unfold tt_ptrheap_count, the_count, gets in Hcnt. injection Hcnt as <-. done.
    + intros a [= <-]. split; [eauto|]. intros x (u & -> & Hu)%list_elem_of_fmap [= ->]. done.
    + exists (TT_SUCCESS tt), (put_heap h w1), (t :: Q). split.
      { unfold try. rewrite (Erun _ Hpos). rewrite (proj2 (Z.eqb_eq _ _)) by done. by rewrite (in_heap_ok _ w1 tt h Ea). }
      split; [apply Hinv1; [done| |by right]; rewrite Hal; apply Hi|]. do 3 (split; [done|]). by left.
    + exists (TT_ERROR TT_FAIL), (put_heap (tmr_heap w) w1), Q. split.
      { unfold try. rewrite (Erun _ Hpos). rewrite (proj2 (Z.eqb_eq _ _)) by done. unfold in_heap, zoom. change (tmr_heap w1) with (tmr_heap w). by rewrite Ea. }
      split; [apply Hinv1; [done|apply Hi|by left]|]. do 3 (split; [done|]). right. rewrite <- Ez. done.
Qed.
End start.
