(* ===== verification/TimerSpec.v ===== *)
(** What timers promise: no sequence of operations touches a freed timer or
    breaks the lists and the heap, and a run of the manager delivers the timers
    that are due. *)

From S2P Require Import Prelude Util MemSpring Cells LinkedList PtrHeap HeapSpec HeapQueue Timer TimerRun.
From stdpp Require Import gmap sorting.

#[local] Open Scope Z_scope.

(** ** Ends of fibers and tasks *)

(** Popping the head of a list and removing it are the same. *)
Lemma pop_is_remove h σ L t xs : lrep h σ → σ !! L = Some (t :: xs) → ∃ r h',
  tt_list_pop_head L h = Ret (TT_SUCCESS (Some t), h') ∧ tt_list_remove t h = Ret (TT_SUCCESS r, h') ∧
  tt_list_remove t h' = Ret (TT_SUCCESS None, h').
Proof.
  intros Hr HL. pose proof (pop_head_code h σ Hr L t xs HL) as Ep. pose proof (remove_code h σ Hr L [] t xs HL) as Er.
  simpl in Er. eexists _, _. split; [exact Ep|]. split; [exact Er|].
  pose proof (rep_link_out h σ Hr L [] xs t HL) as Hr'. simpl in Hr'.
  set (h' := mk_lmem _ _) in *.
  destruct (rep_in h σ Hr L _ t HL) as (v & Hv & _); [by constructor|].
  assert (free (<[L := xs]> σ) t) as Hf.
  { destruct (rep_list h σ Hr L _ HL) as (_ & Hnd & _). apply NoDup_cons in Hnd as [Hx _].
    intros K ys HK Hy. apply lookup_insert_Some in HK as [[<- <-]|[Hne HK]]; [done|]. apply Hne. symmetry.
    eapply (rep_disjoint h σ Hr L _ K ys t HL HK); [by constructor|done]. }
  assert (is_Some (nodes h' !! t)) as [v' Hv'].
  { apply elem_of_dom. unfold h'. simpl. rewrite (link_out_dom (nodes h) [] t xs) by eauto. apply elem_of_dom. eauto. }
  rewrite (rep_blank h' _ Hr' t v' Hv' Hf) in Hv'. unfold tt_list_remove.
  erewrite bind_step by (unfold node; by rewrite Hv'). done.
Qed.

(** What is left of the timers of the list [xs]: gone, or waiting in the heap. *)
Definition over (ts : gmap ptr tt_tmr_t) (t : ptr) : Prop :=
  match ts !! t with Some v => status v = TT_TMR_ORPHAN | None => True end.

Lemma drop_ok L fuel : ∀ w σ Q xs, tmr_inv w σ Q → σ !! L = Some xs → (length xs < fuel)%nat →
  ∃ w' σ', drop_timers L fuel w = Ret (TT_SUCCESS tt, w') ∧ tmr_inv w' σ' Q ∧ recving w' = recving w ∧ reads w' = reads w ∧
    (∀ K, σ' !! K = (if decide (K = L) then Some [] else σ !! K)) ∧
    (∀ t, t ∈ xs → over (tmrs w') t) ∧ (∀ t, tmrs w' !! t = tmrs w !! t ∨ over (tmrs w') t).
Proof.
  induction fuel as [|fuel IH]; intros w σ Q xs Hi HL Hf; [lia|]. simpl. pose proof (ti_lists _ _ _ Hi) as Hl.
  destruct xs as [|t xs].
  { erewrite bind_step by (apply in_lists_ok; by apply (pop_head_empty _ _ Hl)). exists w, σ.
    split; [by destruct w|]. split; [done|]. split; [done|]. split; [done|]. split; [|split; [intros t Ht; by apply not_elem_of_nil in Ht|by left]].
    intros K. by destruct (decide (K = L)) as [->|]. }
  destruct (pop_is_remove _ _ L t xs Hl HL) as (r & l & Ep & Er & Er2).
  assert (∃ v, tmrs w !! t = Some v) as [v Hv].
  { apply elem_of_dom. rewrite <- (ti_nodes _ _ _ Hi). apply elem_of_dom.
    destruct (rep_in _ _ Hl L _ t HL) as (nd & -> & _); [by constructor|eauto]. }
  assert (status v ≠ TT_TMR_ORPHAN) as Hs.
  { intros Ho. pose proof (ti_placed _ _ _ Hi t v Hv) as Hp. unfold placed in Hp. rewrite decide_True in Hp by done.
    destruct Hp as [Hfr _]. apply (Hfr L _ HL). by constructor. }
  destruct (tmr_destroy_ok w σ Q t v Hi Hv Hs) as (w1 & Ed & Hi1 & Hrc & Hrd & Et).
  assert (tt_tmr_destroy t (put_fibs l w) = Ret (TT_SUCCESS tt, w1)) as Ed'.
  { rewrite <- Ed. unfold tt_tmr_destroy. rewrite (bind_step _ _ _ _ _ (in_lists_ok _ w _ _ Er)).
    by rewrite (bind_step _ _ _ _ _ (in_lists_ok _ (put_fibs l w) _ _ Er2)). }
  erewrite bind_step by (apply in_lists_ok; exact Ep). simpl. erewrite bind_step by exact Ed'.
  destruct (rep_list _ _ Hl L _ HL) as (_ & Hnd & _). apply NoDup_cons in Hnd as [Hx _].
  assert (∀ K, without t σ !! K = if decide (K = L) then Some xs else σ !! K) as Hwo.
  { intros K. unfold without. rewrite lookup_fmap. destruct (decide (K = L)) as [->|Hne].
    - rewrite HL. simpl. rewrite filter_cons_False by (by intros []). by rewrite filter_absent.
    - destruct (σ !! K) as [ys|] eqn:EK; [|done]. simpl. rewrite filter_absent; [done|]. intros Hy.
      apply Hne. eapply (rep_disjoint _ _ Hl L _ K ys t HL EK); [by constructor|done]. }
  destruct (IH w1 (without t σ) Q xs Hi1) as (w' & σ' & E & Hi' & Hrc' & Hrd' & Hσ & Hdone & Hmono).
  { rewrite Hwo. by rewrite decide_True. }
  { simpl in Hf. lia. }
  exists w', σ'. split; [exact E|]. split; [done|]. split; [congruence|]. split; [congruence|]. split.
  { intros K. rewrite Hσ, Hwo. by destruct (decide (K = L)). }
  assert (over (tmrs w1) t) as Hover.
  { unfold over. rewrite Et. case_decide; [by rewrite lookup_insert_eq|by rewrite lookup_delete_eq]. }
  assert (over (tmrs w') t) as Hover'.
  { destruct (Hmono t) as [E'|?]; [|done]. unfold over in *. by rewrite E'. }
  split; [intros u [->|Hu]%elem_of_cons; [done|by apply Hdone]|].
  intros u. destruct (decide (u = t)) as [->|Hne]; [by right|]. destruct (Hmono u) as [->|?]; [|by right]. left.
  rewrite Et. case_decide; [by rewrite lookup_insert_ne|by rewrite lookup_delete_ne].
Qed.

(** When a fiber ends, all its timers are freed or wait in the heap to be. *)
Lemma fiber_drop_ok f fuel w σ Q xs ys : tmr_inv w σ Q → σ !! unexpired_tmr f = Some xs → σ !! expired_tmr f = Some ys →
  (length xs < fuel)%nat → (length ys < fuel)%nat →
  ∃ w' σ', fiber_drop_timers f fuel w = Ret (TT_SUCCESS tt, w') ∧ tmr_inv w' σ' Q ∧ recving w' = recving w ∧
    ∀ t v, tmrs w' !! t = Some v → owner v = f → status v = TT_TMR_ORPHAN.
Proof.
  intros Hi HU HE Hx Hy. destruct (drop_ok _ fuel w σ Q xs Hi HU Hx) as (w1 & σ1 & E1 & Hi1 & Hr1 & _ & Hσ1 & _ & _).
  destruct (drop_ok (expired_tmr f) fuel w1 σ1 Q ys Hi1) as (w' & σ' & E2 & Hi2 & Hr2 & _ & Hσ2 & _ & _); [|done|].
  { rewrite Hσ1. by rewrite decide_False. }
  exists w', σ'. split; [unfold fiber_drop_timers; by erewrite bind_step by exact E1|]. split; [done|]. split; [congruence|].
  intros t v Hv Ho. pose proof (ti_placed _ _ _ Hi2 t v Hv) as Hp. unfold placed in Hp. case_decide; [done|].
  destruct Hp as (zs & Hz & HL). rewrite Ho in HL.
  rewrite !Hσ2, Hσ1, decide_False, decide_True, decide_True in HL by done.
  destruct HL as [[= <-]|[[= <-] _]]; by apply not_elem_of_nil in Hz.
Qed.

(** When the task ends, every timer in the heap is freed. *)
Lemma mgr_drop_ok fuel : ∀ w σ Q, tmr_inv w σ Q → (length Q < fuel)%nat →
  ∃ w' σ', mgr_drop_timers fuel w = Ret (TT_SUCCESS tt, w') ∧ tmr_inv w' σ' [] ∧
    ∀ t, tmrs w' !! t = if decide (t ∈ Q) then None else tmrs w !! t.
Proof.
  induction fuel as [|fuel IH]; intros w σ Q Hi Hf; [lia|]. simpl. destruct (decide (Q = [])) as [->|HQ].
  { exists w, σ. split; [|split; [done|intros t; by rewrite decide_False by apply not_elem_of_nil]].
    unfold tt_tmr_mgr_pop. pose proof (pop_ok (__tmr_cmp (tmrs w)) _ _ _ (ti_heap _ _ _ Hi)) as Hp. simpl in Hp.
    erewrite bind_step.
    2:{ erewrite bind_step by done. apply in_heap_ok. apply Hp. by apply (queue_compares w σ []). }
    by destruct w. }
  destruct (pop_timer w σ Q Hi HQ) as (t & v & Q1 & h & Hv & Hp & _ & _ & Ep & Hq & Hd).
  specialize (Ep (reads w)). replace (put_reads (reads w) w) with w in Ep by (by destruct w).
  erewrite bind_step by exact Ep. simpl. pose proof (queue_nodup _ _ _ Hi Q1 t Hp) as Hnt.
  assert (∃ w1 σ1, tt_tmr_destroy t (put_heap h w) = Ret (TT_SUCCESS tt, w1) ∧ tmr_inv w1 σ1 Q1 ∧ tmrs w1 = delete t (tmrs w))
    as (w1 & σ1 & Ed & Hi1 & Et).
  { destruct (decide (status v = TT_TMR_ORPHAN)) as [Ho|Ho].
    - destruct (destroy_orphan w σ Q Q1 h t v Hi Hv Hp Hq Hd) as (w1 & Ed & Hi1 & _ & _ & Et). eauto.
    - destruct (tmr_destroy_ok (put_heap h w) σ Q1 t v) as (w1 & Ed & Hi1 & _ & _ & Et); [by eapply popped_inv|done|done|].
      rewrite decide_False in Et by done. eauto. }
  erewrite bind_step by exact Ed. destruct (IH w1 σ1 Q1 Hi1) as (w' & σ' & E & Hi' & Ht').
  { apply Permutation_length in Hp. simpl in Hp. lia. }
  exists w', σ'. split; [exact E|]. split; [done|]. intros u. rewrite Ht', Et.
  destruct (decide (u = t)) as [->|Hne].
  - rewrite lookup_delete_eq. rewrite (decide_True (P:=t ∈ Q)) by (rewrite Hp; by constructor). by case_decide.
  - rewrite lookup_delete_ne by done. apply decide_ext. rewrite Hp, elem_of_cons. tauto.
Qed.

(** ** Calls *)

Inductive top : Type :=
  | TCreate (addr : option ptr) (f : positive) (delay ev param : Z)
  | TStart (t : ptr)
  | TStop (t : ptr)
  | TDestroy (t : ptr)
  | TSetDelay (t : ptr) (d : Z)
  | TSetEv (t : ptr) (e : Z)
  | TSetParam (t : ptr) (p : Z)
  | TReceive (f : positive)
  | TEnd (f : positive)
  | TRun.

Section calls.
Context `{Allocator} (clock : nat → Z) (resume : positive → M tworld unit).

(** Enough rounds for every loop of a call. *)
Definition rounds (w : tworld) : nat := S (size (nodes (fibs w)) + Z.to_nat (hcount (heap (tmr_heap w)))).

Definition run_top (o : top) : M tworld unit :=
  match o with
  | TCreate addr f d e p => tt_tmr_create addr f d e p;; mret tt
  | TStart t => try (tt_tmr_start clock t);; mret tt
  | TStop t => tt_tmr_stop t
  | TDestroy t => tt_tmr_destroy t
  | TSetDelay t d => tt_tmr_set_delay t d
  | TSetEv t e => tt_tmr_set_ev t e
  | TSetParam t p => tt_tmr_set_param t p
  | TReceive f => tt_fiber_recv_timer f;; mret tt
  | TEnd f => n ← gets rounds; fiber_drop_timers f n
  | TRun => n ← gets rounds; tt_tmr_mgr_run clock resume n;; mret tt
  end.

(** A timer that its owner may still use. *)
Definition usable (w : tworld) (t : ptr) : Prop := ∃ v, tmrs w !! t = Some v ∧ status v ≠ TT_TMR_ORPHAN.

(** Legal calls: of existing fibers, on timers not destroyed, with memory that
    malloc may return; a timer is started again after its last expiry was received,
    and expires at a time a clock can show. *)
Definition legal_top (w : tworld) (o : top) : Prop :=
  match o with
  | TCreate addr f d _ _ => is_Some (recving w !! f) ∧ is_time d ∧ ∀ t, addr = Some t → tmrs w !! t = None
  | TStart t => ∃ v, tmrs w !! t = Some v ∧ status v ≠ TT_TMR_ORPHAN ∧ received w t v ∧ 0 < clock (reads w) ∧
      clock (reads w) + delay_ms v ≤ INT64_MAX ∧ hcount (heap (tmr_heap w)) + 1 < 2 ^ 28
  | TStop t | TDestroy t | TSetEv t _ | TSetParam t _ => usable w t
  | TSetDelay t d => usable w t ∧ is_time d
  | TReceive f | TEnd f => is_Some (recving w !! f)
  | TRun => True
  end.

(** The states that legal calls lead to. *)
Inductive reach (w0 : tworld) : tworld → Prop :=
  | reach_start : reach w0 w0
  | reach_call w o w' : reach w0 w → legal_top w o → run_top o w = Ret (TT_SUCCESS tt, w') → reach w0 w'.

Lemma usable_set (w : tworld) σ Q t (f : tt_tmr_t → tt_tmr_t) : tmr_inv w σ Q → usable w t →
  (∀ v, absolute_ref (f v) = absolute_ref v ∧ owner (f v) = owner v) →
  (∀ v, status v ≠ TT_TMR_ORPHAN → status (f v) ≠ TT_TMR_ORPHAN) → (∀ v, is_time (delay_ms v) → is_time (delay_ms (f v))) →
  ∃ w' σ' Q', upd_tmr t f w = Ret (TT_SUCCESS tt, w') ∧ tmr_inv w' σ' Q'.
Proof.
  intros Hi (v & Hv & Hs) Hf Hfs Hfd. eexists _, σ, Q. split; [by apply upd_tmr_ok|]. destruct (Hf v).
  apply (set_inv w σ Q t v); try done; [specialize (Hfs v Hs); tauto|]. apply Hfd. by apply (ti_time _ _ _ Hi t v).
Qed.

Lemma list_size h σ L xs : lrep h σ → σ !! L = Some xs → (length xs ≤ size (nodes h))%nat.
Proof. intros Hr HL. by eapply rep_length. Qed.

Lemma queue_rounds w σ Q : tmr_inv w σ Q → (length Q < rounds w)%nat.
Proof.
  intros Hi. pose proof (count_ok _ _ _ (ti_heap _ _ _ Hi)) as Hc. unfold tt_ptrheap_count, the_count, gets in Hc.
  injection Hc as Hc. unfold rounds. rewrite Hc. unfold zlen. rewrite length_fmap. lia.
Qed.

Lemma top_ok w σ Q o : only_receives resume → tmr_inv w σ Q → legal_top w o →
  ∃ w' σ' Q', run_top o w = Ret (TT_SUCCESS tt, w') ∧ tmr_inv w' σ' Q'.
Proof.
  intros Hres Hi Hl. destruct o as [[t|] f d e p|t|t|t|t d|t e|t p|f|f|]; simpl in *.
  - destruct Hl as (Hf & Hd & Ht). destruct (tmr_create_ok w σ Q t f d e p Hi (Ht t eq_refl) Hf Hd) as (w' & σ' & E & Hi' & _).
    exists w', σ', Q. split; [|done]. by erewrite bind_step by exact E.
  - destruct Hl as (_ & [Hd _] & _). exists w, σ, Q. split; [|done]. unfold tt_tmr_create.
    rewrite (proj2 (Z.leb_le _ _)) by done. done.
  - destruct Hl as (v & Hv & Hs & Hrc & Hc & Hsum & Hn).
    destruct (start_ok clock w σ Q t v Hi Hv Hs Hrc Hc Hsum Hn) as (r & w' & Q' & E & Hi' & _).
    exists w', σ, Q'. split; [|done]. by erewrite bind_step by exact E.
  - by eapply usable_set.
  - destruct Hl as (v & Hv & Hs). destruct (tmr_destroy_ok w σ Q t v Hi Hv Hs) as (w' & E & Hi' & _). eauto.
  - destruct Hl as [Hu Hd]. by eapply usable_set.
  - by eapply usable_set.
  - by eapply usable_set.
  - destruct (recv_ok w σ Q f Hi Hl) as (ys & xs & l & _ & _ & E & Hi'). eexists _, _, Q. split; [|exact Hi'].
    by erewrite bind_step by exact E.
  - destruct (ti_fibers _ _ _ Hi f Hl) as [[lu HU] [le HE]]. pose proof (ti_lists _ _ _ Hi) as Hr.
    destruct (rep_dom _ _ Hr _ _ HU) as [xs Hxs], (rep_dom _ _ Hr _ _ HE) as [ys Hys].
    destruct (fiber_drop_ok f (rounds w) w σ Q xs ys Hi Hxs Hys) as (w' & σ' & E & Hi' & _).
    { pose proof (list_size _ _ _ _ Hr Hxs). unfold rounds. lia. }
    { pose proof (list_size _ _ _ _ Hr Hys). unfold rounds. lia. }
    exists w', σ', Q. split; [|done]. by erewrite bind_step by done.
  - destruct (run_loop_ok clock (reads w) resume (rounds w) w σ Q 0 false Hres Hi) as (D & K & Q' & z & w' & σ' & E & Hran & _).
    { by eapply queue_rounds. } { done. } { by left. }
    exists w', σ', Q'. split; [|apply Hran]. erewrite bind_step by done. by erewrite bind_step by exact E.
Qed.


End calls.

(** ** Witnesses *)

(** One fiber that does not wait, a clock that shows 1, 2, 4, 5, 7, ..., and two
    timers started with delays of 3 and 60. *)
Definition demo_clock (n : nat) : Z := 1 + Z.of_nat n + Z.of_nat n / 2.
Definition demo_w0 : tworld :=
  mk_world ∅ (mk_pstate (mk_ptrheap None (mk_memspg 256 2048 0) 0 0 0) ∅)
    (mk_lmem ∅ {[2 := mk_list None None 0; 3 := mk_list None None 0]}%positive) {[1%positive := false]} 0.
Definition demo_tops : list top :=
  [TCreate (Some 7) 1 60 0 0; TCreate (Some 8) 1 3 0 0; TStart 7; TStart 8; TCreate (Some 9) 1 1 0 0; TStart 9; TStop 9]%positive.
Fixpoint run_tops (os : list top) : M tworld unit :=
  match os with [] => mret tt | o :: os => @run_top demo_alloc demo_clock demo_resume o;; run_tops os end.
Definition demo_w : tworld := match run_tops demo_tops demo_w0 with Ret (_, w) => w | _ => demo_w0 end.

Lemma demo_inv0 : tmr_inv demo_w0 ((λ _, []) <$> lists (fibs demo_w0)) [].
Proof.
  split; try done.
  - destruct (init_ok (trank (tmrs demo_w0)) None ∅) as (h & Eh & Hq); [repeat split; simpl; lia|done|].
    assert (h = heap (tmr_heap demo_w0)) as -> by (vm_compute in Eh; injection Eh as <-; reflexivity). done.
  - apply lrep_init; [done|]. intros L l. unfold demo_w0. simpl.
    rewrite lookup_insert_Some, lookup_singleton_Some. naive_solver.
  - intros f. unfold demo_w0. simpl. intros [b [<- _]%lookup_singleton_Some]. split; eexists; reflexivity.
Qed.

(** Follow a call from a state known to be reached. *)
Ltac legal_tac :=
  lazymatch goal with
  | |- legal_top _ _ (TCreate _ _ _ _ _) =>
      hnf; split; [eexists; vm_compute; reflexivity|];
      split; [hnf; split; intros HX; vm_compute in HX; discriminate HX|intros ? [= <-]; vm_compute; reflexivity]
  | |- legal_top _ _ (TStart _) =>
      hnf; eexists; split; [vm_compute; reflexivity|]; split; [discriminate|];
      split; [hnf; eexists; split; vm_compute; reflexivity|]; split; [vm_compute; reflexivity|];
      split; [intros HX; vm_compute in HX; discriminate HX|vm_compute; reflexivity]
  | |- _ => hnf; eexists; split; [vm_compute; reflexivity|discriminate]
  end.
Ltac follow R o :=
  lazymatch type of R with
  | reach _ _ _ ?w =>
      let r := eval vm_compute in (@run_top demo_alloc demo_clock demo_resume o w) in
      lazymatch r with
      | Ret (_, ?w1) =>
          assert (reach (H := demo_alloc) demo_clock demo_resume demo_w0 w1);
          [apply (reach_call _ _ _ w o); [exact R|legal_tac|vm_compute; reflexivity]|clear R]
      end
  end.

Lemma demo_reach : reach (H := demo_alloc) demo_clock demo_resume demo_w0 demo_w.
Proof.
  let w := eval vm_compute in demo_w in change demo_w with w.
  assert (reach (H := demo_alloc) demo_clock demo_resume demo_w0 demo_w0) as R by constructor.
  let rec go os := lazymatch os with
    | [] => idtac
    | ?o :: ?os => lazymatch goal with R : reach _ _ _ _ |- _ => follow R o; go os end
    end in
  let os := eval cbv [demo_tops] in demo_tops in go os.
  assumption.
Qed.



(** A timer that is started again before its fiber received the last expiry fails
    an assertion when it expires. *)
Example unreceived_restart :
  run_tops [TCreate (Some 7) 1 0 0 0; TStart 7; TRun; TStart 7; TRun]%positive demo_w0 = Crash ∧
  ∃ w, run_tops [TCreate (Some 7) 1 0 0 0; TStart 7; TRun; TReceive 1; TStart 7; TRun]%positive demo_w0 = Ret (TT_SUCCESS tt, w).
Proof. split; [vm_compute; reflexivity|eexists; vm_compute; reflexivity]. Qed.
