(* ===== verification/BufCommon.v ===== *)
(** Editing, comparing and splitting buffers (algorithm/tt_buffer_common.h and .c):
    the code, and what it does to the readable bytes. *)

From S2P Require Import Prelude MemSpring Buffer.

#[local] Open Scope Z_scope.

(** ** The C library *)

(** [memcmp] and its kin: only the sign of the result is specified. *)
Fixpoint mem_cmp (f : Z → Z) (a b : list Z) : Z :=
  match a, b with
  | x :: a, y :: b => if f x <? f y then -1 else if f y <? f x then 1 else mem_cmp f a b
  | _, _ => 0
  end.
Definition isspace (c : Z) : bool := (c =? 32) || ((9 <=? c) && (c <=? 13)).

(** Reading [buf->p[off .. off + n)]. *)
Definition buf_at (b : tt_buf_t) (off n : Z) : exec (list Z) :=
  match block b with None => Undef | Some l => mem_read l off n end.

(** ** Two buffers *)

(** The pointer of a buffer that uses its own bytes stays with them. *)
Definition tt_buf_swap (a b : tt_buf_t) : exec (tt_buf_t * tt_buf_t) :=
  if readonly a || readonly b then Crash
  else
    let own := match p a, p b with BufInit, _ | _, BufInit => true | _, _ => false end in
    Ret (mk_buf (p b) (size b) (mspg a) (wpos b) (rpos b) (if own then initbuf b else initbuf a) (readonly a),
         mk_buf (p a) (size a) (mspg b) (wpos a) (rpos a) (if own then initbuf a else initbuf b) (readonly b)).

(** The same buffer twice has equal lengths and bytes. *)
Definition tt_buf_cmp (a b : tt_buf_t) : exec Z :=
  let a_len := TT_BUF_RLEN a in
  let b_len := TT_BUF_RLEN b in
  if negb (a_len =? b_len) || (a_len =? 0) then Ret (s32 (a_len - b_len))
  else
    exec_bind (buf_at a (rpos a) a_len) (λ x,
    exec_bind (buf_at b (rpos b) a_len) (λ y, Ret (mem_cmp id x y))).

(** [for (i = cstr_len; i < a_len; ++i) if (p[i] != 0) return i - cstr_len;] *)
Fixpoint all_zero_from (p : list Z) (i cstr_len : Z) : Z :=
  match p with
  | [] => 0
  | c :: p => if negb (c =? 0) then s32 (i - cstr_len) else all_zero_from p (i + 1) cstr_len
  end.
Definition tt_buf_cmp_cstr (a : tt_buf_t) (cstr : list Z) : exec Z :=
  let a_len := TT_BUF_RLEN a in
  let cstr_len := u32 (zlen cstr) in
  if a_len <? cstr_len then Ret (s32 (a_len - cstr_len))
  else
    exec_bind (buf_at a (rpos a) cstr_len) (λ x,
    let r := mem_cmp id x cstr in
    if negb (r =? 0) then Ret r
    else
      exec_bind (buf_at a (rpos a + cstr_len) (a_len - cstr_len)) (λ y,
      Ret (all_zero_from y cstr_len cstr_len))).

(** [p] is a block of [len = zlen p] bytes. *)
Definition tt_buf_startwith (b : tt_buf_t) (p : list Z) : exec bool :=
  let len := zlen p in
  if len =? 0 then Ret true
  else if len <=? TT_BUF_RLEN b then
    exec_bind (buf_at b (rpos b) len) (λ x, Ret (mem_cmp id x p =? 0))
  else Ret false.
Definition tt_buf_endwith (b : tt_buf_t) (p : list Z) : exec bool :=
  let len := zlen p in
  let n := TT_BUF_RLEN b in
  if len =? 0 then Ret true
  else if len <=? n then
    exec_bind (buf_at b (rpos b + n - len) len) (λ x, Ret (mem_cmp id x p =? 0))
  else Ret false.
Definition tt_buf_startwith_u8 (b : tt_buf_t) (v : Z) : exec bool := tt_buf_startwith b [v].
Definition tt_buf_endwith_u8 (b : tt_buf_t) (v : Z) : exec bool := tt_buf_endwith b [v].

(** ** Editing *)

Definition tt_buf_remove_range (from to : Z) : M tt_buf_t unit :=
  b ← gets id;
  let len := TT_BUF_RLEN b in
  assert_always (from <=? to);;
  if from <? u32 (rpos b + from) then mret tt
  else if len <=? from then mret tt
  else
    let to := if len <=? to then len else to in
    d ← buf_read (u32 (rpos b + to)) (u32 (len - to));
    buf_write (u32 (rpos b + from)) d;;
    modify (set_wpos (u32 (wpos b - u32 (to - from)))).
Definition tt_buf_remove (idx : Z) : M tt_buf_t unit := tt_buf_remove_range idx (u32 (idx + 1)).

Definition tt_buf_remove_headto (to : Z) : M tt_buf_t unit :=
  b ← gets id;
  let len := TT_BUF_RLEN b in
  let to := if len <=? to then len else to in
  modify (set_rpos (u32 (rpos b + to))).
Definition tt_buf_remove_head (len : Z) : M tt_buf_t unit := tt_buf_remove_headto len.

Definition tt_buf_remove_tailfrom (from : Z) : M tt_buf_t unit :=
  b ← gets id;
  let len := TT_BUF_RLEN b in
  if len <=? from then mret tt else modify (set_wpos (u32 (wpos b - u32 (len - from)))).
Definition tt_buf_remove_tail (len : Z) : M tt_buf_t unit :=
  b ← gets id;
  let rlen := TT_BUF_RLEN b in
  tt_buf_remove_tailfrom (if len <=? rlen then u32 (rlen - len) else 0).

Section alloc.
Context `{Allocator}.

Definition tt_buf_copy (dst src : tt_buf_t) : exec (result unit * tt_buf_t) :=
  exec_bind (buf_at src (rpos src) (TT_BUF_RLEN src)) (λ d,
    (tt_buf_clear;; tt_buf_put d) dst).

Definition tt_buf_insert (idx : Z) (data : list Z) : M tt_buf_t unit :=
  b ← gets id;
  let len := TT_BUF_RLEN b in
  let data_len := zlen data in
  if idx <? u32 (rpos b + idx) then fail TT_FAIL
  else if len <? idx then fail TT_FAIL
  else
    tt_buf_reserve data_len;;
    s ← gets id;
    d ← buf_read (u32 (rpos s + idx)) (u32 (len - idx));
    buf_write (u32 (u32 (rpos s + idx) + data_len)) d;;
    buf_write (u32 (rpos s + idx)) data;;
    modify (set_wpos (u32 (wpos s + data_len))).
Definition tt_buf_insert_cstr (idx : Z) (cstr : list Z) : M tt_buf_t unit := tt_buf_insert idx cstr.
End alloc.

(** ** Splitting *)

(** The loop over the separators, and whether it stops before their end. *)
Fixpoint is_sep (c : Z) (sep : list Z) : bool :=
  match sep with [] => false | x :: sep => if negb (c =? x) then is_sep c sep else true end.

(** Pointers into the buffer are offsets in its block. *)
Fixpoint tok_loop (sep : list Z) (noempty : bool) (pos tstart : Z) (fuel : nat) : M tt_buf_t (Z * Z) :=
  match fuel with
  | O => λ _, Diverge
  | S fuel =>
      e ← gets wpos;
      if pos <? e then
        c ← buf_read pos 1;
        if is_sep (nth 0 c 0) sep then
          if (tstart <? pos) || negb noempty then mret (tstart, pos - tstart)
          else tok_loop sep noempty (pos + 1) (pos + 1) fuel
        else tok_loop sep noempty (pos + 1) tstart fuel
      else if (tstart <? pos) || negb noempty then mret (tstart, pos - tstart)
      else fail TT_E_END
  end.
Definition tt_buf_tok (sep : list Z) (noempty : bool) (last : option Z) (last_len : Z) : M tt_buf_t (Z * Z) :=
  b ← gets id;
  let run pos := tok_loop sep noempty pos pos (S (Z.to_nat (wpos b - pos))) in
  match last with
  | Some l => let pos := l + last_len in if pos <? wpos b then run (pos + 1) else fail TT_E_END
  | None => run (rpos b)
  end.

(** ** Trimming; the position is an 8-bit variable *)

Fixpoint trim_head (pos : Z) (fuel : nat) : M tt_buf_t Z :=
  match fuel with
  | O => λ _, Diverge
  | S fuel =>
      w ← gets wpos;
      if pos <? w then
        c ← buf_read pos 1;
        if isspace (nth 0 c 0) then trim_head (u8 (pos + 1)) fuel else mret pos
      else mret pos
  end.
Fixpoint trim_tail (pos : Z) (fuel : nat) : M tt_buf_t Z :=
  match fuel with
  | O => λ _, Diverge
  | S fuel =>
      r ← gets rpos;
      if r <? pos then
        c ← buf_read pos 1;
        if isspace (nth 0 c 0) then trim_tail (u8 (pos - 1)) fuel else mret pos
      else mret pos
  end.
Definition tt_buf_trim_sp (fuel : nat) : M tt_buf_t unit :=
  b ← gets id;
  (if rpos b <? wpos b then pos ← trim_head (u8 (rpos b)) fuel; modify (set_rpos pos) else mret tt);;
  b ← gets id;
  (if rpos b <? wpos b then
     pos ← trim_tail (u8 (wpos b - 1)) fuel; modify (set_wpos (u32 (pos + 1)))
   else mret tt).

(** ** What they do to the readable bytes *)

Lemma buf_at_ok b off n : buf_wf b → 0 ≤ off → 0 ≤ n → off + n ≤ size b → buf_at b off n = Ret (sub (blk b) off n).
Proof.
  intros Hwf ???. unfold buf_at. rewrite (wf_block b Hwf), mem_read_ok; rewrite ?wf_zlen; done.
Qed.
Lemma buf_at_content b k n : buf_wf b → 0 ≤ k → 0 ≤ n → k + n ≤ zlen (content b) →
  buf_at b (rpos b + k) n = Ret (sub (content b) k n).
Proof.
  intros Hwf ???. pose proof (wf_pos b Hwf). pose proof (wf_content b Hwf).
  rewrite buf_at_ok, sub_content by (done || lia). done.
Qed.
Lemma buf_read_content b k n : buf_wf b → 0 ≤ k → 0 ≤ n → k + n ≤ zlen (content b) →
  buf_read (rpos b + k) n b = Ret (TT_SUCCESS (sub (content b) k n), b).
Proof.
  intros Hwf ???. pose proof (wf_pos b Hwf). pose proof (wf_content b Hwf).
  by rewrite (buf_read_ok b Hwf), sub_content by (done || lia).
Qed.

(** Storing into the block: from the start of the readable bytes the block is
    [content] followed by what is left of it. *)
Definition tail_of (b : tt_buf_t) : list Z := drop (Z.to_nat (rpos b)) (blk b).

Lemma content_tail b : content b = take (Z.to_nat (wpos b - rpos b)) (tail_of b).
Proof. done. Qed.

Lemma tail_set_block b l : buf_wf b → tail_of (set_block l b) = drop (Z.to_nat (rpos b)) l.
Proof. intros Hwf. unfold tail_of. autorewrite with buf. by rewrite blk_set_block. Qed.

Lemma drop_splice {A} (l d : list A) (r k : Z) : 0 ≤ r → 0 ≤ k → r + k ≤ zlen l →
  drop (Z.to_nat r) (splice l (r + k) d) = splice (drop (Z.to_nat r) l) k d.
Proof.
  intros. unfold splice, zlen in *. rewrite drop_app_le by (rewrite length_take; lia).
  rewrite skipn_firstn_comm. f_equal; [f_equal; lia|]. f_equal. rewrite drop_drop. f_equal. lia.
Qed.

Lemma content_set_wpos b n : buf_wf b → 0 ≤ n ≤ zlen (content b) →
  content (set_wpos (rpos b + n) b) = take (Z.to_nat n) (content b).
Proof.
  intros Hwf Hn. rewrite (wf_content b Hwf) in Hn. unfold content, sub.
  change (blk (set_wpos _ b)) with (blk b). simpl. rewrite take_take. f_equal. lia.
Qed.

(** [b'] is [b] after stores and moves of the write position that leave [s]
    readable. *)
Record edited (b : tt_buf_t) (s : list Z) (b' : tt_buf_t) : Prop := {
  ed_wf : buf_wf b';
  ed_content : content b' = s;
  ed_rpos : rpos b' = rpos b;
  ed_wpos : wpos b' = rpos b + zlen s;
  ed_size : size b' = size b;
  ed_mspg : mspg b' = mspg b;
  ed_ro : readonly b' = readonly b;
}.

Lemma poke_ok b k d : buf_wf b → Forall is_u8 d → 0 ≤ k → rpos b + k + zlen d ≤ size b →
  let b' := set_block (splice (blk b) (rpos b + k) d) b in
  buf_write (rpos b + k) d b = Ret (TT_SUCCESS tt, b') ∧ buf_wf b' ∧ tail_of b' = splice (tail_of b) k d.
Proof.
  intros Hwf Hd Hk Hle b'. pose proof (wf_pos b Hwf). pose proof (wf_zlen b Hwf) as Hz. pose proof (zlen_nonneg d).
  split; [apply buf_write_ok; [done|lia..]|]. split.
  - apply wf_set_block; [done| |].
    + rewrite zlen_splice; lia.
    + apply Forall_splice; [apply wf_bytes, Hwf|done].
  - subst b'. rewrite tail_set_block by done. apply drop_splice; lia.
Qed.

(** Storing inside the readable bytes. *)
Lemma poke_content b k d : buf_wf b → Forall is_u8 d → 0 ≤ k → k + zlen d ≤ zlen (content b) →
  ∃ b', buf_write (rpos b + k) d b = Ret (TT_SUCCESS tt, b') ∧ buf_wf b' ∧ content b' = splice (content b) k d ∧
    rpos b' = rpos b ∧ wpos b' = wpos b ∧ size b' = size b ∧ mspg b' = mspg b ∧ readonly b' = readonly b.
Proof.
  intros Hwf Hd Hk Hle. rewrite (wf_content b Hwf) in Hle. pose proof (wf_pos b Hwf). pose proof (zlen_nonneg d).
  destruct (poke_ok b k d) as (E & Hwf' & Ht); [done|done|lia|lia|].
  eexists. split; [exact E|]. split; [done|]. autorewrite with buf. split; [|done].
  rewrite content_tail, Ht. autorewrite with buf. rewrite content_tail. unfold splice. set (n := Z.to_nat (wpos b - rpos b)).
  rewrite take_take, Nat.min_l by lia.
  assert (length (tail_of b) ≥ n)%nat by (unfold tail_of; rewrite length_drop; pose proof (wf_zlen b Hwf); unfold zlen in *; lia).
  rewrite take_app, length_take. rewrite (take_ge (take _ _)) by (rewrite length_take; unfold zlen in *; lia). f_equal.
  rewrite Nat.min_l by lia. rewrite take_app. rewrite (take_ge d) by (unfold zlen in *; lia). f_equal.
  rewrite skipn_firstn_comm. f_equal. unfold zlen in *. lia.
Qed.

(** The readable bytes after moving the write position. *)
Lemma edited_wpos b b' s rest :
  buf_wf b' → tail_of b' = s ++ rest → rpos b' = rpos b → size b' = size b → mspg b' = mspg b → readonly b' = readonly b →
  edited b s (set_wpos (rpos b + zlen s) b').
Proof.
  intros Hwf Ht Hr Hs Hm Hro. pose proof (wf_pos b' Hwf). pose proof (wf_zlen b' Hwf) as Hz. pose proof (zlen_nonneg s).
  assert (zlen s + zlen rest = size b' - rpos b') as Hl.
  { rewrite <- zlen_app, <- Ht. unfold tail_of. rewrite zlen_drop. lia. }
  pose proof (zlen_nonneg rest).
  constructor; try done.
  - apply wf_set_wpos; [done|lia].
  - rewrite content_tail. unfold tail_of in *. simpl. change (blk (set_wpos _ b')) with (blk b'). rewrite Ht.
    replace (rpos b + zlen s - rpos b') with (zlen s) by lia. unfold zlen. by rewrite Nat2Z.id, take_app_length.
Qed.

Lemma tail_content b : buf_wf b → ∃ rest, tail_of b = content b ++ rest ∧ zlen rest = size b - wpos b.
Proof.
  intros Hwf. pose proof (wf_pos b Hwf). pose proof (wf_zlen b Hwf).
  exists (drop (Z.to_nat (wpos b - rpos b)) (tail_of b)). rewrite content_tail. split; [by rewrite take_drop|].
  rewrite zlen_drop. unfold tail_of. rewrite zlen_drop. lia.
Qed.

(** [b'] has [s] readable from [r] on, after growing by at most [n] bytes. *)
Record becomes (b : tt_buf_t) (n r : Z) (s : list Z) (b' : tt_buf_t) : Prop := {
  be_wf : buf_wf b';
  be_content : content b' = s;
  be_rpos : rpos b' = r;
  be_wpos : wpos b' ≤ wpos b + n;
  be_size : size b' ≤ Z.max (size b) (wpos b + 2 * n + max_extend (mspg b));
  be_mspg : mspg b' = mspg b;
  be_ro : readonly b' = readonly b;
}.

Lemma becomes_room b n m r s b' : 0 ≤ n → 0 ≤ m → room b (n + m) → becomes b n r s b' → room b' m.
Proof. intros ?? [H1 H2] []. split; rewrite ?be_mspg0; lia. Qed.

Lemma becomes_refl b : buf_wf b → becomes b 0 (rpos b) (content b) b.
Proof. intros Hwf. constructor; try done; lia. Qed.

Lemma becomes_weaken b n m r s b' : n ≤ m → becomes b n r s b' → becomes b m r s b'.
Proof. intros ? []. constructor; try done; lia. Qed.

Lemma becomes_trans b n1 r1 s1 b1 n2 r s b2 :
  0 ≤ n1 → 0 ≤ n2 → becomes b n1 r1 s1 b1 → becomes b1 n2 r s b2 → becomes b (n1 + n2) r s b2.
Proof. intros ?? [] []. constructor; try done; try congruence; rewrite ?be_mspg0 in *; lia. Qed.

Lemma appended_becomes b d b' : appended b d b' → becomes b (zlen d) (rpos b) (content b ++ d) b'.
Proof. intros []. constructor; try done. lia. Qed.

Lemma edited_becomes b s b' n : buf_wf b → 0 ≤ n → zlen s ≤ zlen (content b) + n → edited b s b' → becomes b n (rpos b) s b'.
Proof.
  intros Hwf ? Hs []. pose proof (wf_content b Hwf). constructor; try done; lia.
Qed.

Lemma clear_becomes b : buf_wf b → ∃ b', tt_buf_clear b = Ret (TT_SUCCESS tt, b') ∧ becomes b 0 0 [] b'.
Proof.
  intros Hwf. pose proof (wf_pos b Hwf). eexists. split; [done|]. constructor; try done; simpl; try lia.
  apply wf_set_wpos; [apply wf_set_rpos; [done|lia]|simpl; lia].
Qed.

Lemma splice_remove {A} (s rest : list A) i j : 0 ≤ i ≤ j → j ≤ zlen s →
  ∃ rest', splice (s ++ rest) i (drop (Z.to_nat j) s) = (take (Z.to_nat i) s ++ drop (Z.to_nat j) s) ++ rest'.
Proof.
  intros. unfold splice, zlen in *. rewrite take_app_le by lia. eexists. by rewrite <- app_assoc.
Qed.

(** Moving what follows [j] and storing [d] at [i]. *)
Lemma splice_replace {A} (s rest d : list A) i j : 0 ≤ i ≤ j → j ≤ zlen s →
  i + zlen d + (zlen s - j) ≤ zlen s + zlen rest → ∃ rest',
  splice (splice (s ++ rest) (i + zlen d) (drop (Z.to_nat j) s)) i d
  = (take (Z.to_nat i) s ++ d ++ drop (Z.to_nat j) s) ++ rest'.
Proof.
  intros Hij Hj Hd. pose proof (zlen_nonneg d). set (y := drop (Z.to_nat j) s).
  unfold splice. rewrite Z2Nat.inj_add by lia.
  destruct (ex_intro (λ u, u = s ++ rest) _ eq_refl) as [u Hu]. rewrite <- !Hu.
  set (n := Z.to_nat i). assert (Z.to_nat (zlen d) = length d) as -> by (unfold zlen; lia).
  assert (n + length d ≤ length u)%nat by (rewrite Hu, length_app; unfold zlen in *; lia).
  eexists (drop (n + length d + length y) u).
  rewrite take_app_le, take_take, Nat.min_l by (rewrite ?length_take; lia).
  rewrite drop_app_ge by (rewrite length_take; lia). rewrite length_take, Nat.min_l by lia. rewrite Nat.sub_diag, drop_0.
  rewrite Hu, take_app_le, <- Hu by (unfold zlen in *; lia). by rewrite <- !app_assoc.
Qed.

Lemma splice_insert {A} (s rest d : list A) i : 0 ≤ i ≤ zlen s → zlen d ≤ zlen rest → ∃ rest',
  splice (splice (s ++ rest) (i + zlen d) (drop (Z.to_nat i) s)) i d
  = (take (Z.to_nat i) s ++ d ++ drop (Z.to_nat i) s) ++ rest'.
Proof. intros. apply splice_replace; lia. Qed.

Section edits.
Context (b : tt_buf_t) (Hwf : buf_wf b).

(** Nothing before the readable bytes: the guard of the code is not the overflow
    test it means to be, and refuses everything else. *)
Lemma remove_range_ok i j : rpos b = 0 → 0 ≤ i ≤ j → j < 2 ^ 32 →
  ∃ b', tt_buf_remove_range i j b = Ret (TT_SUCCESS tt, b') ∧
    becomes b 0 0 (take (Z.to_nat i) (content b) ++ drop (Z.to_nat j) (content b)) b'.
Proof.
  intros Hr Hij Hj. pose proof (wf_pos b Hwf). pose proof (wf_size b Hwf). pose proof (wf_content b Hwf) as Hc.
  unfold tt_buf_remove_range. m_simpl. rewrite (wf_rlen b Hwf), Hr, Z.sub_0_r, Z.add_0_l in *. b_step. m_simpl.
  rewrite (u32_small i) by lia. b_step.
  destruct (Z.leb_spec (wpos b) i) as [Hi|Hi].
  { exists b. split; [done|]. rewrite take_ge, drop_ge, app_nil_r by (unfold zlen in *; lia).
    pose proof (becomes_refl b Hwf) as Hb. by rewrite Hr in Hb. }
  set (k := if wpos b <=? j then wpos b else j).
  assert (i ≤ k ≤ wpos b) as Hk by (unfold k; destruct (Z.leb_spec (wpos b) j); lia).
  assert (drop (Z.to_nat j) (content b) = drop (Z.to_nat k) (content b)) as ->.
  { unfold k. destruct (Z.leb_spec (wpos b) j); [|done]. by rewrite !drop_ge by (unfold zlen in *; lia). }
  rewrite !u32_small by lia.
  pose proof (buf_read_content b k (wpos b - k) Hwf) as Er. rewrite Hr, !Z.add_0_l in *. rewrite Er by lia. m_simpl.
  assert (sub (content b) k (wpos b - k) = drop (Z.to_nat k) (content b)) as ->.
  { unfold sub. rewrite take_ge; [done|]. rewrite length_drop. unfold zlen in *. lia. }
  assert (zlen (drop (Z.to_nat k) (content b)) = wpos b - k) as Hd by (rewrite zlen_drop; lia).
  destruct (poke_ok b i (drop (Z.to_nat k) (content b))) as (Ew & Hw & Ht); try done; try lia.
  { apply Forall_drop, Forall_sub, wf_bytes, Hwf. }
  rewrite Hr, Z.add_0_l in *. rewrite Ew. m_simpl. eexists. split; [done|].
  destruct (tail_content b Hwf) as (rest & Hrest & _). rewrite Hrest in Ht.
  destruct (splice_remove (content b) rest i k) as (rest' & Esp); [lia|lia|]. rewrite Esp in Ht.
  set (s := take (Z.to_nat i) (content b) ++ drop (Z.to_nat k) (content b)) in *.
  assert (zlen s = wpos b - (k - i)) as Hs by (subst s; rewrite zlen_app, zlen_take; lia).
  rewrite (u32_small (k - i)), u32_small by lia. rewrite <- Hs. assert (edited b s (set_wpos (rpos b + zlen s) (set_block (splice (blk b) i (drop (Z.to_nat k) (content b))) b))) as He.
  { by eapply edited_wpos; autorewrite with buf. }
  rewrite Hr, Z.add_0_l in He. apply (edited_becomes _ _ _ 0) in He; [by rewrite Hr in He|done|lia..].
Qed.

Lemma remove_range_refused i j : 0 < rpos b → 0 ≤ i ≤ j → rpos b + i < 2 ^ 32 →
  tt_buf_remove_range i j b = Ret (TT_SUCCESS tt, b).
Proof.
  intros Hr Hij Ho. unfold tt_buf_remove_range. m_simpl. b_step. rewrite u32_small by lia. by b_step.
Qed.

Lemma remove_headto_ok n : 0 ≤ n → ∃ b', tt_buf_remove_headto n b = Ret (TT_SUCCESS tt, b') ∧
  becomes b 0 (rpos b + Z.min n (zlen (content b))) (drop (Z.to_nat n) (content b)) b'.
Proof.
  intros Hn. pose proof (wf_pos b Hwf). pose proof (wf_size b Hwf). pose proof (wf_content b Hwf) as Hc.
  unfold tt_buf_remove_headto. m_simpl. rewrite (wf_rlen b Hwf), <- Hc. eexists. split; [done|].
  set (k := if _ <=? n then _ else n).
  assert (k = Z.min n (zlen (content b))) as -> by (subst k; destruct (Z.leb_spec (zlen (content b)) n); lia).
  pose proof (zlen_nonneg (content b)). rewrite u32_small by lia.
  constructor; try done; simpl; try lia.
  - apply wf_set_rpos; [done|lia].
  - rewrite content_set_rpos by (done || lia). destruct (Z.min_spec n (zlen (content b))) as [[? ->]|[? ->]]; [done|].
    rewrite !drop_ge; [done|unfold zlen in *; lia..].
Qed.

Lemma remove_tailfrom_ok n : 0 ≤ n → ∃ b', tt_buf_remove_tailfrom n b = Ret (TT_SUCCESS tt, b') ∧
  becomes b 0 (rpos b) (take (Z.to_nat n) (content b)) b'.
Proof.
  intros Hn. pose proof (wf_pos b Hwf). pose proof (wf_size b Hwf). pose proof (wf_content b Hwf) as Hc.
  unfold tt_buf_remove_tailfrom. m_simpl. rewrite (wf_rlen b Hwf), <- Hc.
  destruct (Z.leb_spec (zlen (content b)) n) as [Hle|Hgt].
  { exists b. split; [done|]. rewrite take_ge by (unfold zlen in *; lia). by apply becomes_refl. }
  eexists. split; [done|]. rewrite !u32_small by (rewrite ?u32_small; lia).
  replace (wpos b - (zlen (content b) - n)) with (rpos b + n) by lia.
  constructor; try done; simpl; try lia.
  - apply wf_set_wpos; [done|lia].
  - apply content_set_wpos; [done|lia].
Qed.
End edits.

Section insert.
Context `{Allocator} (b : tt_buf_t) (Hwf : buf_wf b) (Hro : readonly b = false).

Lemma insert_ok i d : rpos b = 0 → Forall is_u8 d → 0 ≤ i ≤ zlen (content b) → room b (zlen d) →
  (∃ b', tt_buf_insert i d b = Ret (TT_SUCCESS tt, b') ∧
    becomes b (zlen d) 0 (take (Z.to_nat i) (content b) ++ d ++ drop (Z.to_nat i) (content b)) b') ∨
  (tt_buf_insert i d b = Ret (TT_ERROR TT_FAIL, b) ∧ ¬ reliable b).
Proof.
  intros Hr Hd Hi Hroom. pose proof (wf_pos b Hwf). pose proof (wf_size b Hwf). pose proof (wf_content b Hwf) as Hc.
  pose proof (zlen_nonneg d). unfold tt_buf_insert. m_simpl. rewrite (wf_rlen b Hwf), Hr, Z.sub_0_r, Z.add_0_l in *.
  rewrite (u32_small i) by lia. do 2 b_step.
  destruct (buf_reserve_spec b (zlen d)) as [(b1 & -> & Hk & Hs1)|[-> ?]]; try done; [left|by right]. m_simpl.
  destruct Hk as [kept_wf0 kept_content0 kept_wpos0 kept_rpos0 kept_mspg0 kept_ro0]. pose proof (wf_pos b1 kept_wf0). pose proof (wf_size b1 kept_wf0). rewrite kept_rpos0, Hr, Z.add_0_l.
  pose proof (wf_content b1 kept_wf0) as Hc1. rewrite kept_content0 in Hc1. destruct Hroom as [? ?].
  rewrite !u32_small by (rewrite ?u32_small; lia).
  pose proof (buf_read_content b1 i (wpos b - i) kept_wf0) as Er. rewrite kept_rpos0, Hr, !Z.add_0_l in *.
  rewrite Er by (rewrite ?kept_content0; lia). m_simpl. rewrite kept_content0.
  assert (sub (content b) i (wpos b - i) = drop (Z.to_nat i) (content b)) as ->.
  { unfold sub. rewrite take_ge; [done|]. rewrite length_drop. unfold zlen in *. lia. }
  assert (zlen (drop (Z.to_nat i) (content b)) = wpos b - i) as Hdz by (rewrite zlen_drop; lia).
  assert (Forall is_u8 (content b)) as Hcb by (apply Forall_sub, wf_bytes, Hwf).
  destruct (poke_ok b1 (i + zlen d) (drop (Z.to_nat i) (content b))) as (Ew & Hw & Ht); try done; try lia.
  { by apply Forall_drop. }
  rewrite kept_rpos0, Z.add_0_l in Ew, Hw, Ht. rewrite Ew. m_simpl. set (b2 := set_block _ b1) in *.
  destruct (poke_ok b2 i d) as (Ew2 & Hw2 & Ht2); try done; try lia.
  { subst b2. autorewrite with buf. lia. }
  assert (rpos b2 = 0) as Hr2 by (subst b2; autorewrite with buf; lia). rewrite Hr2, Z.add_0_l in Ew2, Hw2, Ht2. rewrite Ew2. m_simpl.
  eexists. split; [done|]. rewrite Ht in Ht2.
  destruct (tail_content b1 kept_wf0) as (rest & Hrest & Hzr). rewrite Hrest, kept_content0 in Ht2.
  destruct (splice_insert (content b) rest d i) as (rest' & Es); [lia|lia|]. rewrite Es in Ht2.
  set (s := take (Z.to_nat i) (content b) ++ d ++ drop (Z.to_nat i) (content b)) in *.
  assert (zlen s = wpos b + zlen d) as Hs by (subst s; rewrite !zlen_app, zlen_take; lia).
  rewrite kept_wpos0, <- Hs.
  assert (edited b1 s (set_wpos (rpos b1 + zlen s) (set_block (splice (blk b2) i d) b2))) as He.
  { eapply edited_wpos; [done|done|..]; subst b2; by autorewrite with buf. }
  rewrite kept_rpos0, Z.add_0_l in He. destruct He as [? ? Er4 Ew4 Es4 Em4 Eo4]. rewrite kept_rpos0 in *. constructor; try done; try congruence; lia.
Qed.

Lemma insert_refused i d : 0 < rpos b → 0 ≤ i → rpos b + i < 2 ^ 32 → tt_buf_insert i d b = Ret (TT_ERROR TT_FAIL, b).
Proof.
  intros Hr Hi Ho. unfold tt_buf_insert. m_simpl. rewrite u32_small by lia. by b_step.
Qed.
End insert.

(** ** Splitting is splitting *)

(** The pieces of [s] between separators, and those that a flag keeps. *)
Fixpoint split_on (sep s : list Z) : list (list Z) :=
  match s with
  | [] => [[]]
  | c :: s =>
      if is_sep c sep then [] :: split_on sep s
      else match split_on sep s with t :: ts => (c :: t) :: ts | [] => [[c]] end
  end.
Definition nonempty (t : list Z) : bool := match t with [] => false | _ => true end.
Definition tokens (sep : list Z) (noempty : bool) (s : list Z) : list (list Z) :=
  if noempty then List.filter nonempty (split_on sep s) else split_on sep s.

(** What the loop over the bytes [r] at [pos] finds. *)
Fixpoint next_tok (sep : list Z) (noempty : bool) (tstart pos : Z) (r : list Z) : option (Z * Z) :=
  match r with
  | [] => if (tstart <? pos) || negb noempty then Some (tstart, pos - tstart) else None
  | c :: r =>
      if is_sep c sep then
        if (tstart <? pos) || negb noempty then Some (tstart, pos - tstart)
        else next_tok sep noempty (pos + 1) (pos + 1) r
      else next_tok sep noempty tstart (pos + 1) r
  end.

Lemma split_nonsep sep pre s : Forall (λ c, is_sep c sep = false) pre →
  split_on sep (pre ++ s) = match split_on sep s with t :: ts => (pre ++ t) :: ts | [] => [pre] end.
Proof.
  induction 1 as [|c pre Hc _ IH]; simpl; [by destruct (split_on sep s) eqn:E; destruct s; simpl in E; repeat case_match|].
  rewrite Hc, IH. by destruct (split_on sep s).
Qed.

Lemma split_at sep pre c s : Forall (λ c, is_sep c sep = false) pre → is_sep c sep = true →
  split_on sep (pre ++ c :: s) = pre :: split_on sep s.
Proof. intros Hp Hc. rewrite split_nonsep by done. simpl. by rewrite Hc, app_nil_r. Qed.

Lemma next_tok_spec sep ne r : ∀ pre ts, Forall (λ c, is_sep c sep = false) pre →
  let u := pre ++ r in
  match next_tok sep ne ts (ts + zlen pre) r with
  | None => tokens sep ne u = []
  | Some (a, n) => ts ≤ a ∧ 0 ≤ n ∧ a + n ≤ ts + zlen u ∧ ∃ Y, tokens sep ne u = sub u (a - ts) n :: Y ∧
      (a + n = ts + zlen u ∧ Y = [] ∨
       a + n < ts + zlen u ∧ Y = tokens sep ne (drop (Z.to_nat (a + n + 1 - ts)) u))
  end.
Proof.
  induction r as [|c r IH]; intros pre ts Hp; cbn zeta; cbn [next_tok]; pose proof (zlen_nonneg pre).
  - rewrite app_nil_r. assert (split_on sep pre = [pre]) as E.
    { rewrite <- (app_nil_r pre) at 1. rewrite split_nonsep by done. simpl. by rewrite app_nil_r. }
    unfold tokens. rewrite E. destruct (Z.ltb_spec ts (ts + zlen pre)) as [Hl|Hl]; cbn [orb].
    + split; [lia|]. split; [lia|]. split; [lia|]. exists [].
      replace (ts - ts) with 0 by lia. replace (ts + zlen pre - ts) with (zlen pre) by lia.
      rewrite sub_all. split; [|left; split; [lia|done]]. destruct ne; [|done]. destruct pre; [rewrite zlen_nil in Hl; lia|done].
    + assert (pre = []) as -> by (apply zlen_nil_inv; lia). rewrite zlen_nil in *. destruct ne; cbn [negb]; [done|].
      split; [lia|]. split; [lia|]. split; [lia|]. exists [].
      replace (ts + 0 - ts) with 0 by lia. split; [done|left; split; [lia|done]].
  - destruct (is_sep c sep) eqn:Hc; cycle 1.
    { specialize (IH (pre ++ [c]) ts). rewrite zlen_app, zlen_cons, zlen_nil, <- app_assoc in IH.
      replace (ts + (zlen pre + (1 + 0))) with (ts + zlen pre + 1) in IH by lia.
      apply IH. apply Forall_app. split; [done|by constructor]. }
    assert (tokens sep ne (pre ++ c :: r) = (if ne then (if nonempty pre then [pre] else []) else [pre]) ++ tokens sep ne r) as Et.
    { unfold tokens. rewrite split_at by done. destruct ne; [simpl; by destruct (nonempty pre)|done]. }
    assert (zlen (pre ++ c :: r) = zlen pre + 1 + zlen r) as Hz by (rewrite zlen_app, zlen_cons; lia).
    pose proof (zlen_nonneg r).
    destruct ((ts <? ts + zlen pre) || negb ne) eqn:Hk.
    + split; [lia|]. split; [lia|]. split; [lia|]. exists (tokens sep ne r).
      replace (ts - ts) with 0 by lia. replace (ts + zlen pre - ts) with (zlen pre) by lia. rewrite sub_app_len.
      split.
      * rewrite Et. destruct ne; [|done]. destruct pre; [|done]. rewrite zlen_nil in Hk. simpl in Hk.
        rewrite orb_false_r in Hk. apply Z.ltb_lt in Hk. lia.
      * right. split; [lia|]. f_equal.
        replace (Z.to_nat (ts + zlen pre + 1 - ts)) with (length pre + 1)%nat by (unfold zlen; lia). by rewrite drop_app_add.
    + apply orb_false_iff in Hk as [Hk Hne]. apply Z.ltb_ge in Hk. destruct ne; [|done].
      assert (pre = []) as -> by (apply zlen_nil_inv; lia). rewrite zlen_nil, Z.add_0_r in *. rewrite Et. cbn [nonempty app].
      specialize (IH [] (ts + 1)). rewrite zlen_nil, Z.add_0_r in IH. cbn [app] in IH. specialize (IH (Forall_nil_2 _)).
      cbn zeta in IH. destruct (next_tok _ _ _ _ r) as [[a n]|]; [|done].
      destruct IH as (H1 & H2 & H3 & Y & EY & Hend). split; [lia|]. split; [lia|]. split; [rewrite zlen_cons; lia|].
      exists Y. split.
      * rewrite EY. f_equal. unfold sub. replace (Z.to_nat (a - ts)) with (S (Z.to_nat (a - (ts + 1)))) by lia. done.
      * destruct Hend as [[? ->]|[? ->]]; [left; rewrite zlen_cons; split; [lia|done]|right; rewrite zlen_cons; split; [lia|]].
        f_equal. replace (Z.to_nat (a + n + 1 - ts)) with (S (Z.to_nat (a + n + 1 - (ts + 1)))) by lia. done.
Qed.

Section tok.
Context (b : tt_buf_t) (Hwf : buf_wf b) (sep : list Z) (ne : bool).

Lemma read_one pos c r : rpos b ≤ pos → sub (blk b) pos (wpos b - pos) = c :: r →
  buf_read pos 1 b = Ret (TT_SUCCESS [c], b) ∧ sub (blk b) (pos + 1) (wpos b - (pos + 1)) = r ∧ pos < wpos b.
Proof.
  intros Hp Hs. pose proof (wf_pos b Hwf) as Hpos. assert (pos < wpos b) as Hlt.
  { destruct (Z_lt_le_dec pos (wpos b)) as [|Hge]; [done|]. unfold sub in Hs.
    replace (Z.to_nat (wpos b - pos)) with 0%nat in Hs by lia. done. }
  replace (wpos b - pos) with (1 + (wpos b - (pos + 1))) in Hs by lia. rewrite sub_split in Hs by lia.
  assert (zlen (sub (blk b) pos 1) = 1) as Hl by (apply zlen_sub; rewrite ?wf_zlen by done; lia).
  rewrite (buf_read_ok b Hwf) by lia. destruct (sub (blk b) pos 1) as [|x [|y l]]; unfold zlen in Hl; simpl in Hl; try lia.
  injection Hs as -> <-. done.
Qed.

Lemma tok_loop_ok r : ∀ tstart pos fuel, rpos b ≤ pos ≤ wpos b → sub (blk b) pos (wpos b - pos) = r → (length r < fuel)%nat →
  tok_loop sep ne pos tstart fuel b =
  match next_tok sep ne tstart pos r with Some x => Ret (TT_SUCCESS x, b) | None => Ret (TT_ERROR TT_E_END, b) end.
Proof.
  pose proof (wf_pos b Hwf) as Hpos.
  induction r as [|c r IH]; intros tstart pos fuel Hp Hs Hf; (destruct fuel as [|fuel]; [simpl in Hf; lia|]); cbn [tok_loop next_tok].
  - assert (pos = wpos b) as ->.
    { assert (zlen (sub (blk b) pos (wpos b - pos)) = wpos b - pos) by (apply zlen_sub; rewrite ?wf_zlen by done; lia).
      rewrite Hs, zlen_nil in *. lia. }
    m_simpl. rewrite (proj2 (Z.ltb_ge (wpos b) (wpos b))) by lia. by destruct (_ || _).
  - destruct (read_one pos c r) as (Er & Hr & Hlt); [lia|done|]. simpl in Hf. m_simpl. b_step. rewrite Er. cbn [nth].
    destruct (is_sep c sep); [destruct (_ || _); [done|]|]; apply IH; (done || lia).
Qed.

Lemma tok_loop_from u q : rpos b ≤ q → q + zlen u = wpos b → sub (blk b) q (zlen u) = u →
  tok_loop sep ne q q (S (Z.to_nat (wpos b - q))) b =
  match next_tok sep ne q q u with Some x => Ret (TT_SUCCESS x, b) | None => Ret (TT_ERROR TT_E_END, b) end.
Proof.
  intros Hq Hu Hs. pose proof (zlen_nonneg u). apply tok_loop_ok; [lia| |].
  - by replace (wpos b - q) with (zlen u) by lia.
  - unfold zlen in *. lia.
Qed.

(** Asking for tokens until there are no more. *)
Fixpoint all_tokens (last : option Z) (last_len : Z) (fuel : nat) : M tt_buf_t (list (list Z)) :=
  match fuel with
  | O => λ _, Diverge
  | S fuel =>
      r ← try (tt_buf_tok sep ne last last_len);
      match r with
      | TT_SUCCESS (a, n) => t ← buf_read a n; ts ← all_tokens (Some a) n fuel; mret (t :: ts)
      | TT_ERROR _ => mret []
      end
  end.

Lemma all_tokens_from m : ∀ u q last n fuel, (length u ≤ m)%nat → rpos b ≤ q → q + zlen u = wpos b →
  sub (blk b) q (zlen u) = u → tt_buf_tok sep ne last n b = tok_loop sep ne q q (S (Z.to_nat (wpos b - q))) b →
  (m + 2 ≤ fuel)%nat → all_tokens last n fuel b = Ret (TT_SUCCESS (tokens sep ne u), b).
Proof.
  pose proof (wf_pos b Hwf) as Hpos. pose proof (wf_zlen b Hwf) as Hz.
  induction m as [|m IH]; intros u q last n fuel Hm Hq Hu Hs Et Hf; (destruct fuel as [|fuel]; [lia|]);
    cbn [all_tokens]; pose proof (zlen_nonneg u).
  all: rewrite (tok_loop_from u q) in Et by done.
  all: pose proof (next_tok_spec sep ne u [] q (Forall_nil_2 _)) as Hn; rewrite zlen_nil, Z.add_0_r in Hn; cbn zeta in Hn; cbn [app] in Hn.
  all: unfold try; m_simpl; rewrite Et; destruct (next_tok sep ne q q u) as [[a k]|]; [|by rewrite Hn].
  all: destruct Hn as (H1 & H2 & H3 & Y & -> & Hend); m_simpl.
  all: rewrite (buf_read_ok b Hwf) by lia; m_simpl.
  all: assert (sub (blk b) a k = sub u (a - q) k) as -> by
    (rewrite <- Hs, sub_sub by lia; f_equal; lia).
  - destruct u; [|simpl in Hm; lia]. rewrite zlen_nil in *.
    destruct Hend as [[He ->]|[? _]]; [|lia]. destruct fuel as [|fuel]; [lia|]. cbn [all_tokens].
    unfold try, tt_buf_tok. m_simpl. by rewrite (proj2 (Z.ltb_ge _ _)) by lia.
  - destruct Hend as [[He ->]|[He ->]].
    + destruct fuel as [|fuel]; [lia|]. cbn [all_tokens].
      unfold try, tt_buf_tok. m_simpl. by rewrite (proj2 (Z.ltb_ge _ _)) by lia.
    + assert (zlen (drop (Z.to_nat (a + k + 1 - q)) u) = wpos b - (a + k + 1)) as Hd by (rewrite zlen_drop; lia).
      rewrite (IH (drop (Z.to_nat (a + k + 1 - q)) u) (a + k + 1)); [done|..]; try lia.
      * rewrite length_drop. lia.
      * rewrite Hd, <- Hs at 1. unfold sub. rewrite skipn_firstn_comm, drop_drop.
        f_equal; [lia|f_equal; lia].
      * unfold tt_buf_tok. m_simpl. by rewrite (proj2 (Z.ltb_lt _ _)) by lia.
Qed.

Lemma all_tokens_ok : all_tokens None 0 (length (content b) + 2) b = Ret (TT_SUCCESS (tokens sep ne (content b)), b).
Proof.
  pose proof (wf_content b Hwf) as Hc. eapply (all_tokens_from (length (content b)) _ (rpos b)); try done; try lia.
  by rewrite Hc.
Qed.
End tok.

(** ** Comparing *)

Lemma mem_cmp_eq f x y : length x = length y → (mem_cmp f x y =? 0) = bool_decide (f <$> x = f <$> y).
Proof.
  revert y. induction x as [|c x IH]; intros [|d y]; try done. intros [= Hl]. cbn [mem_cmp].
  rewrite !fmap_cons. destruct (Z.ltb_spec (f c) (f d)); [rewrite bool_decide_false; [done|]; intros [= ? _]; lia|].
  destruct (Z.ltb_spec (f d) (f c)); [rewrite bool_decide_false; [done|]; intros [= ? _]; lia|].
  rewrite IH by done. apply bool_decide_ext. assert (f c = f d) as -> by lia. split; [by intros ->|by intros [= ->]].
Qed.
Lemma mem_cmp_id x y : length x = length y → (mem_cmp id x y =? 0) = bool_decide (x = y).
Proof. intros. rewrite mem_cmp_eq by done. by rewrite !list_fmap_id. Qed.

Lemma prefix_sub (s t : list Z) : zlen t ≤ zlen s → t `prefix_of` s ↔ sub s 0 (zlen t) = t.
Proof.
  intros Hl. split.
  - intros (r & ->). apply sub_app_len.
  - intros <-. exists (drop (Z.to_nat (zlen t)) s). unfold sub. by rewrite drop_0, take_drop.
Qed.
Lemma suffix_sub (s t : list Z) : zlen t ≤ zlen s → t `suffix_of` s ↔ sub s (zlen s - zlen t) (zlen t) = t.
Proof.
  intros Hl. pose proof (zlen_nonneg t). split.
  - intros (r & ->). rewrite zlen_app. rewrite sub_app_r' by lia. apply sub_all.
  - intros E. exists (take (Z.to_nat (zlen s - zlen t)) s). rewrite <- E at 2. unfold sub.
    rewrite (take_ge (drop _ _)) by (rewrite length_drop; unfold zlen in *; lia). by rewrite take_drop.
Qed.

Section compare.
Context (a b : tt_buf_t) (Ha : buf_wf a) (Hb : buf_wf b).

(** Only whether the result is 0 means something. *)
Lemma buf_cmp_ok : ∃ z, tt_buf_cmp a b = Ret z ∧ (z = 0 ↔ content a = content b).
Proof.
  pose proof (wf_content a Ha) as Hca. pose proof (wf_content b Hb) as Hcb.
  pose proof (wf_pos a Ha). pose proof (wf_pos b Hb). pose proof (wf_size a Ha). pose proof (wf_size b Hb).
  unfold tt_buf_cmp. rewrite (wf_rlen a Ha), (wf_rlen b Hb), <- Hca, <- Hcb.
  destruct (Z.eqb_spec (zlen (content a)) (zlen (content b))) as [E|E]; cbn [negb orb].
  - destruct (Z.eqb_spec (zlen (content a)) 0) as [E0|E0].
    + eexists. split; [done|]. rewrite E, Z.sub_diag. split; [intros _|done].
      rewrite (zlen_nil_inv (content a)), (zlen_nil_inv (content b)) by lia. done.
    + pose proof (buf_at_content a 0 (zlen (content a)) Ha) as E1. pose proof (buf_at_content b 0 (zlen (content a)) Hb) as E2.
      rewrite Z.add_0_r in E1, E2. rewrite E1, E2 by lia. cbn [exec_bind]. eexists. split; [done|].
      rewrite sub_all, E, sub_all. rewrite <- Z.eqb_eq, mem_cmp_id by (unfold zlen in *; lia). apply bool_decide_eq_true.
  - eexists. split; [done|]. split; [|congruence]. intros Hz. exfalso.
    unfold s32 in Hz. destruct (Z_lt_le_dec (zlen (content a) - zlen (content b)) 0).
    + rewrite u32_neg in Hz by lia. destruct (_ <? _) eqn:E' in Hz; [apply Z.ltb_lt in E'|]; lia.
    + rewrite u32_small in Hz by lia. destruct (_ <? _) eqn:E' in Hz; [|apply Z.ltb_ge in E']; lia.
Qed.

Lemma startwith_ok t : tt_buf_startwith a t = Ret (bool_decide (t `prefix_of` content a)).
Proof.
  unfold tt_buf_startwith. rewrite (wf_rlen a Ha), <- (wf_content a Ha). pose proof (zlen_nonneg t).
  destruct (Z.eqb_spec (zlen t) 0) as [E|E].
  { apply zlen_nil_inv in E as ->. rewrite bool_decide_true; [done|]. apply prefix_nil. }
  destruct (Z.leb_spec (zlen t) (zlen (content a))) as [Hl|Hl].
  - pose proof (buf_at_content a 0 (zlen t) Ha) as E1. rewrite Z.add_0_r in E1. rewrite E1 by lia. cbn [exec_bind].
    f_equal. rewrite mem_cmp_id; [apply bool_decide_ext; symmetry; by apply prefix_sub|].
    pose proof (zlen_sub (content a) 0 (zlen t)). unfold zlen in *. lia.
  - rewrite bool_decide_false; [done|]. intros (r & E'). rewrite E', zlen_app in Hl. pose proof (zlen_nonneg r). lia.
Qed.

Lemma endwith_ok t : tt_buf_endwith a t = Ret (bool_decide (t `suffix_of` content a)).
Proof.
  unfold tt_buf_endwith. rewrite (wf_rlen a Ha), <- (wf_content a Ha). pose proof (zlen_nonneg t).
  destruct (Z.eqb_spec (zlen t) 0) as [E|E].
  { apply zlen_nil_inv in E as ->. rewrite bool_decide_true; [done|]. apply suffix_nil. }
  destruct (Z.leb_spec (zlen t) (zlen (content a))) as [Hl|Hl].
  - replace (rpos a + zlen (content a) - zlen t) with (rpos a + (zlen (content a) - zlen t)) by lia.
    rewrite (buf_at_content a) by (done || lia). cbn [exec_bind].
    f_equal. rewrite mem_cmp_id; [apply bool_decide_ext; symmetry; by apply suffix_sub|].
    pose proof (zlen_sub (content a) (zlen (content a) - zlen t) (zlen t)). unfold zlen in *. lia.
  - rewrite bool_decide_false; [done|]. intros (r & E'). rewrite E', zlen_app in Hl. pose proof (zlen_nonneg r). lia.
Qed.

(** Swapping exchanges the bytes and keeps both buffers in order, wherever their
    blocks are. *)
Lemma buf_swap_ok : readonly a = false → readonly b = false →
  ∃ a' b', tt_buf_swap a b = Ret (a', b') ∧ buf_wf a' ∧ buf_wf b' ∧ content a' = content b ∧ content b' = content a ∧
    readonly a' = false ∧ readonly b' = false ∧ rpos a' = rpos b ∧ rpos b' = rpos a.
Proof.
  intros Hra Hrb. unfold tt_buf_swap. rewrite Hra, Hrb. cbn [orb].
  destruct Ha as [Hp1 Hz1 Hpos1 Hs1 Hb1 [Hi1 Hi1'] Hm1 Ho1 Hh1]. destruct Hb as [Hp2 Hz2 Hpos2 Hs2 Hb2 [Hi2 Hi2'] Hm2 Ho2 Hh2].
  rewrite Hra in Ho1. rewrite Hrb in Ho2. eexists _, _. split; [done|].
  unfold content, blk, block in *.
  destruct (p a) as [| |l1|l1] eqn:Ea; try done; destruct (p b) as [| |l2|l2] eqn:Eb; try done;
    (split; [by constructor|]; split; [by constructor|]; done).
Qed.
End compare.

Lemma buf_copy_ok `{Allocator} dst src : buf_wf dst → buf_wf src → readonly dst = false → room dst (zlen (content src)) →
  (∃ b', tt_buf_copy dst src = Ret (TT_SUCCESS tt, b') ∧ becomes dst (zlen (content src)) 0 (content src) b') ∨
  (∃ b', tt_buf_copy dst src = Ret (TT_ERROR TT_FAIL, b') ∧ content b' = [] ∧ ¬ reliable dst).
Proof.
  intros Hd Hs Hro Hroom. unfold tt_buf_copy. rewrite (wf_rlen src Hs), <- (wf_content src Hs).
  pose proof (zlen_nonneg (content src)).
  pose proof (buf_at_content src 0 (zlen (content src)) Hs) as E1. rewrite Z.add_0_r in E1. rewrite E1, sub_all by lia.
  cbn [exec_bind]. destruct (clear_becomes dst Hd) as (b1 & E & Hb1). rewrite (bind_step _ _ _ _ _ E).
  destruct (buf_put_spec b1 (content src)) as [(b2 & -> & Ha)|[-> Hr]].
  - apply Hb1.
  - destruct Hb1. congruence.
  - apply Forall_sub, wf_bytes, Hs.
  - apply (becomes_room dst 0 _ 0 [] b1); [lia|lia|done|done].
  - left. exists b2. split; [done|]. apply appended_becomes in Ha. destruct Hb1 as [? Ec Er ? ? ? ?].
    rewrite Ec, Er in Ha. apply (becomes_trans dst 0 0 [] b1 (zlen (content src))); try done; lia.
  - right. exists b1. split; [done|]. destruct Hb1. split; [done|]. unfold reliable in *. congruence.
Qed.

(** ** Trimming *)

Fixpoint drop_sp (s : list Z) : list Z :=
  match s with c :: s' => if isspace c then drop_sp s' else s | [] => [] end.
Definition trim_sp (s : list Z) : list Z := rev (drop_sp (rev (drop_sp s))).

Section trim.
Context (b : tt_buf_t) (Hwf : buf_wf b).

Lemma trim_head_ok r : ∀ pos fuel, rpos b ≤ pos ≤ wpos b → wpos b ≤ 255 → sub (blk b) pos (wpos b - pos) = r →
  (length r < fuel)%nat → trim_head pos fuel b = Ret (TT_SUCCESS (wpos b - zlen (drop_sp r)), b).
Proof.
  pose proof (wf_pos b Hwf) as Hpos.
  induction r as [|c r IH]; intros pos fuel Hp Hw Hs Hf; (destruct fuel as [|fuel]; [simpl in Hf; lia|]); cbn [trim_head].
  - assert (zlen (sub (blk b) pos (wpos b - pos)) = wpos b - pos) as Hz by (apply zlen_sub; rewrite ?wf_zlen by done; lia).
    rewrite Hs, zlen_nil in Hz. m_simpl. rewrite (proj2 (Z.ltb_ge pos (wpos b))) by lia. cbn [drop_sp]. rewrite zlen_nil. do 3 f_equal. lia.
  - assert (zlen (sub (blk b) pos (wpos b - pos)) = wpos b - pos) as Hz by (apply zlen_sub; rewrite ?wf_zlen by done; lia).
    rewrite Hs in Hz. destruct (read_one b Hwf pos c r) as (Er & Hr & Hlt); [lia|done|]. simpl in Hf. m_simpl. b_step. rewrite Er. cbn [nth drop_sp].
    destruct (isspace c).
    + rewrite u8_small by (unfold is_u8; lia). apply IH; (done || lia).
    + do 3 f_equal. lia.
Qed.

Lemma trim_tail_ok c s : isspace c = false → ∀ rest fuel, wpos b ≤ 255 → content b = c :: s ++ rest → (length s < fuel)%nat →
  trim_tail (rpos b + zlen s) fuel b = Ret (TT_SUCCESS (rpos b + zlen (rev (drop_sp (rev (c :: s)))) - 1), b).
Proof.
  intros Hc. pose proof (wf_pos b Hwf) as Hpos.
  induction s as [|x s IH] using rev_ind; intros rest fuel Hw Hs Hf; (destruct fuel as [|fuel]; [simpl in Hf; lia|]); cbn [trim_tail].
  - m_simpl. rewrite zlen_nil. rewrite (proj2 (Z.ltb_ge _ _)) by lia. cbn [rev app drop_sp]. rewrite Hc. cbn [rev app]. unfold zlen. simpl. do 3 f_equal. lia.
  - pose proof (wf_content b Hwf) as Hl. rewrite Hs, zlen_cons, !zlen_app, zlen_cons, zlen_nil in Hl.
    pose proof (zlen_nonneg s). pose proof (zlen_nonneg rest). rewrite length_app in Hf. simpl in Hf.
    assert (buf_read (rpos b + zlen (s ++ [x])) 1 b = Ret (TT_SUCCESS [x], b)) as Er.
    { assert (content b = (c :: s) ++ [x] ++ rest) as Hs' by (rewrite Hs; simpl; by rewrite <- app_assoc).
      rewrite zlen_app, zlen_cons, zlen_nil. replace (zlen s + (1 + 0)) with (zlen (c :: s)) by (rewrite zlen_cons; lia).
      rewrite buf_read_content; [|done|apply zlen_nonneg|lia|rewrite Hs', !zlen_app, !zlen_cons, zlen_nil; lia].
      rewrite Hs'. rewrite sub_app_r' by done. done. }
    m_simpl. rewrite (proj2 (Z.ltb_lt _ _)) by (rewrite zlen_app, zlen_cons, zlen_nil; lia). rewrite Er. cbn [nth].
    change (c :: s ++ [x]) with ((c :: s) ++ [x]). rewrite rev_app_distr. cbn [rev app drop_sp].
    destruct (isspace x).
    + rewrite zlen_app, zlen_cons, zlen_nil. rewrite u8_small by (unfold is_u8; lia).
      replace (rpos b + (zlen s + (1 + 0)) - 1) with (rpos b + zlen s) by lia.
      apply (IH ([x] ++ rest)); [done|by rewrite Hs, <- app_assoc|lia].
    + change (rev s ++ [c]) with (rev (c :: s)). cbn [rev]. rewrite rev_app_distr, rev_involutive. cbn [rev app].
      do 3 f_equal. rewrite zlen_cons. lia.
Qed.
End trim.

(** In short buffers trimming removes the white space on both sides. *)
Lemma buf_trim_ok b fuel : buf_wf b → wpos b ≤ 255 → (length (content b) < fuel)%nat →
  ∃ b', tt_buf_trim_sp fuel b = Ret (TT_SUCCESS tt, b') ∧ buf_wf b' ∧ content b' = trim_sp (content b).
Proof.
  intros Hwf Hw Hf. pose proof (wf_pos b Hwf) as Hpos. pose proof (wf_content b Hwf) as Hc.
  unfold tt_buf_trim_sp, trim_sp. m_simpl.
  destruct (Z.ltb_spec (rpos b) (wpos b)) as [Hlt|Hge]; cycle 1.
  { rewrite (proj2 (Z.ltb_ge _ _)) by lia. exists b. split; [done|]. split; [done|].
    rewrite (zlen_nil_inv (content b)) by lia. done. }
  rewrite (u8_small (rpos b)) by (unfold is_u8; lia).
  rewrite (trim_head_ok b Hwf (content b)) by (try done; lia).
  set (t := drop_sp (content b)). assert (∃ h, content b = h ++ t) as [h Hh].
  { subst t. generalize (content b) as s. induction s as [|c s [h IH]]; [by exists []|]. simpl.
    destruct (isspace c); [exists (c :: h); by rewrite IH at 1|by exists []]. }
  assert (zlen h + zlen t = zlen (content b)) as Hz by (rewrite Hh; by rewrite zlen_app).
  pose proof (zlen_nonneg h). pose proof (zlen_nonneg t).
  set (b1 := set_rpos (wpos b - zlen t) b).
  assert (buf_wf b1) as Hwf1 by (apply wf_set_rpos; [done|lia]).
  assert (content b1 = t) as Hc1.
  { subst b1. replace (wpos b - zlen t) with (rpos b + zlen h) by lia.
    rewrite content_set_rpos by (done || lia). rewrite Hh. unfold zlen. by rewrite Nat2Z.id, drop_app_length. }
  change (rpos b1) with (wpos b - zlen t). change (wpos b1) with (wpos b).
  destruct (Z.ltb_spec (wpos b - zlen t) (wpos b)) as [Hlt1|Hge1]; cycle 1.
  { exists b1. split; [done|]. split; [done|]. rewrite Hc1, (zlen_nil_inv t) by lia. done. }
  destruct t as [|c s] eqn:Et; [rewrite zlen_nil in *; lia|].
  assert (isspace c = false) as Hns.
  { clear -Et. subst t. revert Et. generalize (content b) as u. induction u as [|x u IH]; [done|]. simpl.
    destruct (isspace x) eqn:E; [done|]. by intros [= -> _]. }
  rewrite zlen_cons in *. pose proof (zlen_nonneg s).
  pose proof (trim_tail_ok b1 Hwf1 c s Hns [] fuel) as Htl. change (wpos b1) with (wpos b) in Htl. change (rpos b1) with (wpos b - zlen (c :: s)) in Htl.
  rewrite zlen_cons in Htl. rewrite u8_small by (unfold is_u8; lia).
  replace (wpos b - 1) with (wpos b - (1 + zlen s) + zlen s) by lia.
  rewrite Htl; [|done|by rewrite app_nil_r|].
  2:{ assert (length (c :: s) ≤ length (content b))%nat by (rewrite Hh, length_app; lia). simpl in *. lia. }
  set (u := rev (drop_sp (rev (c :: s)))). assert (∃ k, c :: s = u ++ k) as [k Hk].
  { assert (∀ r, ∃ k, rev r = rev (drop_sp r) ++ k) as Hr.
    { induction r as [|y r [k IH]]; [by exists []|]. simpl.
      destruct (isspace y); [exists (k ++ [y]); by rewrite IH, <- app_assoc|exists []; by rewrite app_nil_r]. }
    destruct (Hr (rev (c :: s))) as [k Hk]. rewrite rev_involutive in Hk. by exists k. }
  assert (zlen u + zlen k = 1 + zlen s) as Hzu by (rewrite <- (zlen_cons c), Hk; by rewrite zlen_app).
  pose proof (zlen_nonneg u). pose proof (zlen_nonneg k). m_simpl.
  rewrite u32_small by lia. replace (wpos b - (1 + zlen s) + zlen u - 1 + 1) with (rpos b1 + zlen u) by (subst b1; cbn [rpos set_rpos]; rewrite zlen_cons; lia).
  eexists. split; [done|]. pose proof (wf_content b1 Hwf1) as Hl1. rewrite Hc1, zlen_cons in Hl1. pose proof (wf_pos b1 Hwf1).
  split; [apply wf_set_wpos; [done|lia]|].
  rewrite content_set_wpos by (rewrite ?Hc1, ?zlen_cons; done || lia). rewrite Hc1, Hk. unfold zlen. by rewrite Nat2Z.id, take_app_length.
Qed.

(** In longer ones that start with white space its 8-bit position never gets past
    the 255th byte, and the loop does not end. *)
Lemma buf_trim_stuck b fuel : buf_wf b → rpos b = 0 → 255 < wpos b → Forall (λ c, isspace c = true) (sub (blk b) 0 256) →
  tt_buf_trim_sp fuel b = Diverge.
Proof.
  intros Hwf Hr Hw Hsp. pose proof (wf_pos b Hwf) as Hpos.
  assert (∀ fuel pos, 0 ≤ pos < 256 → trim_head pos fuel b = Diverge) as Hloop.
  { clear fuel. induction fuel as [|fuel IH]; intros pos Hp; [done|]. cbn [trim_head]. m_simpl. b_step.
    rewrite (buf_read_ok b Hwf) by lia.
    assert (isspace (nth 0 (sub (blk b) pos 1) 0) = true) as ->.
    { assert (sub (blk b) pos 1 = sub (sub (blk b) 0 256) pos 1) as -> by (rewrite sub_sub by lia; by rewrite Z.add_0_l).
      assert (zlen (sub (sub (blk b) 0 256) pos 1) = 1) as Hl.
      { apply zlen_sub; try lia. rewrite zlen_sub; rewrite ?wf_zlen by done; lia. }
      pose proof (Forall_sub _ _ pos 1 Hsp) as Hf. destruct (sub (sub (blk b) 0 256) pos 1) as [|c l]; [done|].
      simpl. by apply Forall_cons_1 in Hf as [? _]. }
    apply IH. unfold u8. apply Z.mod_pos_bound. lia. }
  unfold tt_buf_trim_sp. m_simpl. rewrite Hr. b_step. rewrite Hloop; [done|]. rewrite u8_small by (unfold is_u8; lia). lia.
Qed.

(** What the pieces are, said without the loop: they hold no separator, and put
    together they are the bytes that are not separators. *)
Lemma split_on_pieces sep s : Forall (Forall (λ c, is_sep c sep = false)) (split_on sep s) ∧
  concat (split_on sep s) = List.filter (λ c, negb (is_sep c sep)) s.
Proof.
  induction s as [|c s [IH1 IH2]]; [split; [by repeat constructor|done]|]. simpl.
  destruct (is_sep c sep) eqn:E; simpl; [by split; [constructor|]|].
  destruct (split_on sep s) as [|t ts]; inv IH1; simpl in *; [|by rewrite <- IH2; split; [repeat constructor|]].
  rewrite <- IH2. split; [repeat constructor; done|done].
Qed.

Lemma tokens_pieces sep ne s : Forall (Forall (λ c, is_sep c sep = false)) (tokens sep ne s) ∧
  concat (tokens sep ne s) = List.filter (λ c, negb (is_sep c sep)) s.
Proof.
  destruct (split_on_pieces sep s) as [H1 H2]. unfold tokens. destruct ne; [|done].
  split.
  - rewrite List.Forall_forall in *. intros t [Ht _]%filter_In. by apply H1.
  - rewrite <- H2. clear. induction (split_on sep s) as [|[|c t] ts IH]; simpl; [done|done|by rewrite IH].
Qed.

(** C22: asking for tokens until there are no more ends and delivers the pieces of
    the content between separators, in order and without the empty ones if they
    are not wanted; no piece holds a separator, no other byte is lost, and the
    buffer does not change. *)
Theorem tok_splits b sep noempty : buf_wf b → ∃ ts,
  all_tokens sep noempty None 0 (length (content b) + 2) b = Ret (TT_SUCCESS ts, b) ∧
  ts = tokens sep noempty (content b) ∧
  Forall (Forall (λ c, is_sep c sep = false)) ts ∧
  concat ts = List.filter (λ c, negb (is_sep c sep)) (content b) ∧
  (noempty = true → Forall (λ t, t ≠ []) ts).
Proof.
  intros Hwf. exists (tokens sep noempty (content b)). rewrite (all_tokens_ok b Hwf).
  destruct (tokens_pieces sep noempty (content b)). repeat split; try done.
  intros ->. rewrite List.Forall_forall. intros t [_ Ht]%filter_In. by destruct t.
Qed.

Lemma tok_splits_witness : ∃ b, @tt_buf_create_nocopy zero_alloc [97; 58; 58; 98; 99] None = Ret (TT_SUCCESS b) ∧
  all_tokens [58] true None 0 7 b = Ret (TT_SUCCESS [[97]; [98; 99]], b).
Proof.
  destruct (@buf_create_nocopy_ok zero_alloc [97; 58; 58; 98; 99] None attr_default_wf) as (b & E & Hwf & Hc & _).
  { by repeat constructor. }
  { done. }
  exists b. split; [exact E|]. destruct (tok_splits b [58] true Hwf) as (ts & Et & -> & _). rewrite Hc in Et. exact Et.
Defined.
