(* ===== verification/Str.v ===== *)
(** Strings (algorithm/tt_string.h and .c, tt_string_common.h and .c): a buffer
    whose readable bytes end with a NUL.  This file holds the code; [StrSpec] shows
    that it is one on sequences of characters. *)

From S2P Require Import Prelude MemSpring Buffer BufferFormat BufCommon SshDef.

#[local] Open Scope Z_scope.

(** The one field of the struct is the buffer.  A C string argument is the list of
    its characters before the NUL, shorter than 2^32. *)
Notation tt_string_t := tt_buf_t (only parsing).
Definition TT_POS_NULL : Z := u32_max.

(** ** The C library *)

(** [strstr], [strchr] and [strrchr]: the place of what they find; the terminating
    NUL can be searched for. *)
Fixpoint strstr (s sub : list Z) : option Z :=
  if bool_decide (sub `prefix_of` s) then Some 0
  else match s with [] => None | _ :: s => option_map (Z.add 1) (strstr s sub) end.
Fixpoint index_of (l : list Z) (c : Z) : option Z :=
  match l with
  | [] => None
  | x :: l => if x =? c then Some 0 else option_map (Z.add 1) (index_of l c)
  end.
Definition strchr (s : list Z) (c : Z) : option Z := index_of (s ++ [0]) c.
Fixpoint last_index_of (l : list Z) (c : Z) : option Z :=
  match l with
  | [] => None
  | x :: l =>
      match last_index_of l c with
      | Some i => Some (1 + i)
      | None => if x =? c then Some 0 else None
      end
  end.
Definition strrchr (s : list Z) (c : Z) : option Z := last_index_of (s ++ [0]) c.
Definition strcmp (a b : list Z) : Z := mem_cmp id (a ++ [0]) (b ++ [0]).
Definition tolower (c : Z) : Z := if (65 <=? c) && (c <=? 90) then c + 32 else c.
Definition toupper (c : Z) : Z := if (97 <=? c) && (c <=? 122) then c - 32 else c.

(** The digits of "%u", at least one; [n] bounds their number. *)
Fixpoint digits (n : nat) (v : Z) : list Z :=
  match n with
  | O => []
  | S n => if v <? 10 then [48 + v] else digits n (v / 10) ++ [48 + v mod 10]
  end.
Definition print_u (v : Z) : list Z := digits 10 v.
Definition print_d (v : Z) : list Z := if v <? 0 then 45 :: print_u (- v) else print_u v.

(** A [char] is signed. *)
Definition char_of (x : Z) : Z := if x <? 128 then x else x - 256.
Definition __DIFF : Z := 65 - 97.
Fixpoint tt_memicmp (s1 s2 : list Z) : Z :=
  match s1, s2 with
  | x :: s1, y :: s2 =>
      let c1 := char_of x in
      let c2 := char_of y in
      if c1 =? c2 then tt_memicmp s1 s2
      else if (c1 + __DIFF =? c2) || (c2 + __DIFF =? c1) then tt_memicmp s1 s2
      else c1 - c2
  | _, _ => 0
  end.

(** ** Looking at a string *)

Definition tt_string_len : M tt_string_t Z := gets (λ b, u32 (TT_BUF_RLEN b - 1)).
Definition tt_string_empty : M tt_string_t bool := gets (λ b, TT_BUF_RLEN b =? 1).

(** The C string at [buf->p + off]. *)
Definition cstr_at (off : Z) : M tt_string_t (list Z) := λ b,
  match block b with
  | None => Undef
  | Some l =>
      if in_block l off 0 then exec_bind (c_str (drop (Z.to_nat off) l)) (λ s, Ret (TT_SUCCESS s, b)) else Undef
  end.
(** The pointer returned, as what it points at. *)
Definition tt_string_cstr : M tt_string_t (list Z) := b ← gets id; cstr_at (rpos b).

(** The pointer, as an offset in the block, and the number of characters. *)
Definition tt_string_subcstr (from : Z) : M tt_string_t (option Z * Z) :=
  len ← tt_string_len;
  b ← gets id;
  if from <=? len then mret (Some (rpos b + from), u32 (len - from)) else mret (None, 0).

Definition tt_string_getchar (pos : Z) : M tt_string_t Z :=
  b ← gets id;
  if pos <? TT_BUF_RLEN b then d ← buf_read (rpos b + pos) 1; mret (nth 0 d 0) else mret 0.

Definition tt_string_cmp (c : list Z) : M tt_string_t Z := s ← tt_string_cstr; mret (strcmp s c).

Definition tt_string_equal_range (c : list Z) (from len : Z) : M tt_string_t bool :=
  a_len ← tt_string_len;
  b ← gets id;
  if (a_len <? from) || (a_len <? u32 (from + len)) then mret false
  else
    let b_len := zlen c in
    if (b_len <? from) || (b_len <? u32 (from + len)) then mret false
    else
      x ← buf_read (rpos b + from) len;
      y ← access (mem_read (c ++ [0]) from len);
      mret (mem_cmp id x y =? 0).

Definition tt_string_ncasecmp (c : list Z) : M tt_string_t Z :=
  b ← gets id;
  let a_len := TT_BUF_RLEN b in
  let b_len := u32 (zlen c + 1) in
  if negb (a_len =? b_len) || (a_len =? 0) then mret (s32 (a_len - b_len))
  else
    x ← buf_read (rpos b) a_len;
    y ← access (mem_read (c ++ [0]) 0 a_len);
    mret (tt_memicmp x y).

(** A position from the start of the string, or [TT_POS_NULL]; the pointer that the
    search returns is inside the readable bytes. *)
Definition pos_of (o : option Z) : M tt_string_t Z :=
  b ← gets id;
  match o with
  | None => mret TT_POS_NULL
  | Some i => assert_always (rpos b + i <=? wpos b);; mret i
  end.
Definition tt_string_find (sub : list Z) : M tt_string_t Z :=
  match sub with
  | [] => mret 0
  | _ => s ← tt_string_cstr; pos_of (strstr s sub)
  end.
Definition tt_string_findfrom (from : Z) (sub : list Z) : M tt_string_t Z :=
  b ← gets id;
  '(p, _) ← tt_string_subcstr from;
  match p with
  | None => mret TT_POS_NULL
  | Some off =>
      match sub with
      | [] => pos_of (Some (off - rpos b))
      | _ => s ← cstr_at off; pos_of (option_map (Z.add (off - rpos b)) (strstr s sub))
      end
  end.
Definition tt_string_find_c (c : Z) : M tt_string_t Z := s ← tt_string_cstr; pos_of (strchr s c).
Definition tt_string_findfrom_c (from c : Z) : M tt_string_t Z :=
  b ← gets id;
  '(p, _) ← tt_string_subcstr from;
  match p with
  | None => mret TT_POS_NULL
  | Some off => s ← cstr_at off; pos_of (option_map (Z.add (off - rpos b)) (strchr s c))
  end.
Definition tt_string_rfind_c (c : Z) : M tt_string_t Z := s ← tt_string_cstr; pos_of (strrchr s c).

(** [while (--from != ~0) if (cs[from] == c) return from;] *)
Fixpoint rfind_loop (c : Z) (from : nat) : M tt_string_t Z :=
  match from with
  | O => mret TT_POS_NULL
  | S from =>
      b ← gets id;
      d ← buf_read (rpos b + Z.of_nat from) 1;
      if nth 0 d 0 =? c then mret (Z.of_nat from) else rfind_loop c from
  end.
Definition tt_string_rfindfrom_c (from c : Z) : M tt_string_t Z :=
  n ← tt_string_len;
  rfind_loop c (Z.to_nat (if n <? from then n else from)).

Definition tt_string_startwith (sub : list Z) : M tt_string_t bool :=
  let n := zlen sub in
  if n =? 0 then mret true
  else
    len ← tt_string_len;
    if len <? n then mret false else s ← tt_string_cstr; mret (strncmp s sub =? 0).
Definition tt_string_endwith (sub : list Z) : M tt_string_t bool :=
  s_len ← tt_string_len;
  b ← gets id;
  let n := zlen sub in
  if n =? 0 then mret true
  else if s_len <? n then mret false
  else s ← cstr_at (rpos b + u32 (s_len - n)); mret (strncmp s sub =? 0).

(** ** Changing it in place *)

Definition tt_string_clear : M tt_string_t unit :=
  b ← gets id;
  if readonly b then mret tt
  else
    assert_always (0 <? size b);;
    modify (λ b, set_wpos 1 (set_rpos 0 b));;
    buf_write 0 [0].

Definition tt_string_setfrom_c (from c : Z) : M tt_string_t unit :=
  n ← tt_string_len;
  b ← gets id;
  if n <=? from then fail TT_FAIL else buf_write (rpos b + from) [u8 c].

(** The loop that replaces every character up to the NUL, from the read position. *)
Fixpoint each_char (f : Z → Z) (l : list Z) : exec (list Z) :=
  match l with
  | [] => Undef
  | c :: l => if c =? 0 then Ret (0 :: l) else exec_bind (each_char f l) (λ l, Ret (f c :: l))
  end.
Definition map_chars (f : Z → Z) : M tt_string_t unit :=
  b ← gets id;
  l ← access (match block b with None => Undef | Some l => each_char f (drop (Z.to_nat (rpos b)) l) end);
  buf_write (rpos b) l.
Definition tt_string_replace_c (old new : Z) : M tt_string_t Z :=
  s ← tt_string_cstr;
  map_chars (λ c, if c =? old then new else c);;
  mret (s32 (zlen (List.filter (λ c, c =? old) s))).
Definition tt_string_tolower : M tt_string_t unit :=
  b ← gets id; if readonly b then mret tt else map_chars tolower.
Definition tt_string_toupper : M tt_string_t unit :=
  b ← gets id; if readonly b then mret tt else map_chars toupper.

(** [begin] and [end] as indices. *)
Fixpoint begin_loop (i : Z) (fuel : nat) : M tt_string_t Z :=
  match fuel with
  | O => λ _, Diverge
  | S fuel =>
      b ← gets id;
      d ← buf_read (rpos b + i) 1;
      if negb (nth 0 d 0 =? 0) && (nth 0 d 0 =? 32) then begin_loop (i + 1) fuel else mret i
  end.
Fixpoint end_loop (i j : Z) (fuel : nat) : M tt_string_t Z :=
  match fuel with
  | O => λ _, Diverge
  | S fuel =>
      if i <? j then
        b ← gets id;
        d ← buf_read (rpos b + j) 1;
        if nth 0 d 0 =? 32 then end_loop i (j - 1) fuel else mret j
      else mret j
  end.
Definition tt_string_trim : M tt_string_t unit :=
  b ← gets id;
  if readonly b then mret tt
  else
    len ← tt_string_len;
    if len =? 0 then mret tt
    else
      i ← begin_loop 0 (S (S (Z.to_nat len)));
      j ← end_loop i (len - 1) (S (Z.to_nat len));
      let len := u32 (j - i + 1) in
      (if negb (i =? 0) then d ← buf_read (rpos b + i) len; buf_write (rpos b) d else mret tt);;
      buf_write (rpos b + len) [0];;
      modify (set_wpos (u32 (rpos b + u32 (len + 1)))).

Definition tt_string_remove_range (from len : Z) : M tt_string_t unit :=
  n ← tt_string_len;
  if n <=? from then mret tt
  else
    let len := if n <=? u32 (from + len) then u32 (n - from) else len in
    tt_buf_remove_range from (u32 (from + len)).
Definition tt_string_remove_headto (to : Z) : M tt_string_t unit :=
  n ← tt_string_len; tt_buf_remove_headto (if n <=? to then n else to).
Definition tt_string_remove_head (len : Z) : M tt_string_t unit := tt_string_remove_headto len.

(** ** Operations that may need memory *)

Section alloc.
Context `{Allocator}.

Definition tt_string_attr_default : tt_buf_attr_t := tt_buf_attr_default.

Definition tt_string_create (c : list Z) (attr : option tt_buf_attr_t) : exec (result tt_string_t) :=
  exec_bind (tt_buf_create_copy (c ++ [0]) (Some (default tt_string_attr_default attr))) (λ r,
    Ret (match r with TT_SUCCESS b => TT_SUCCESS b | TT_ERROR _ => TT_ERROR TT_FAIL end)).

Definition tt_string_create_sub (c : list Z) (from len : Z) (attr : option tt_buf_attr_t) : exec (result tt_string_t) :=
  let n := zlen c in
  if n <? from then Ret (TT_ERROR TT_FAIL)
  else
    let len := if n <? u32 (from + len) then u32 (n - from) else len in
    exec_bind (mem_read (c ++ [0]) from len) (λ d,
    exec_bind (tt_buf_create_copy d (Some (default tt_string_attr_default attr))) (λ r,
      match r with
      | TT_ERROR _ => Ret (TT_ERROR TT_FAIL)
      | TT_SUCCESS b =>
          exec_bind (tt_buf_put_u8 0 b) (λ '(r, b),
            match r with
            | TT_SUCCESS _ => Ret (TT_SUCCESS b)
            | TT_ERROR _ => exec_bind (tt_buf_destroy b) (λ _, Ret (TT_ERROR TT_FAIL))
            end)
      end)).

Definition tt_string_create_nocopy (c : list Z) (attr : option tt_buf_attr_t) : exec (result tt_string_t) :=
  tt_buf_create_nocopy (c ++ [0]) (Some (default tt_string_attr_default attr)).

(** The result is not looked at; without it the string is not initialised. *)
Definition tt_string_init (attr : option tt_buf_attr_t) : exec tt_string_t :=
  exec_bind (tt_string_create [] attr) (λ r, match r with TT_SUCCESS b => Ret b | TT_ERROR _ => Undef end).

Definition tt_string_destroy : M tt_string_t unit := tt_buf_destroy.

Definition tt_string_set (c : list Z) : M tt_string_t unit := tt_buf_clear;; tt_buf_put (c ++ [0]).

Definition tt_string_set_sub (c : list Z) (from len : Z) : M tt_string_t unit :=
  let n := zlen c in
  if n <? from then fail TT_FAIL
  else
    let len := if n <? u32 (from + len) then u32 (n - from) else len in
    tt_buf_clear;;
    d ← access (mem_read (c ++ [0]) from len);
    tt_buf_put d;;
    tt_buf_put_u8 0.

Definition tt_string_setfrom (from : Z) (c : list Z) : M tt_string_t unit :=
  len ← tt_string_len;
  if len <? from then fail TT_FAIL
  else
    modify (λ b, set_wpos (u32 (rpos b + from)) b);;
    tt_buf_put (c ++ [0]).

Definition tt_string_set_range (from len : Z) (c : list Z) : M tt_string_t unit :=
  n ← tt_string_len;
  if n <? u32 (from + len) then fail TT_E_BADARG else tt_buf_set_range from len c.

Definition tt_string_remove_tailfrom (from : Z) : M tt_string_t unit :=
  n ← tt_string_len;
  if n <=? from then mret tt
  else tt_buf_remove_tailfrom from;; try (tt_buf_put_u8 0);; mret tt.
Definition tt_string_remove_tail (len : Z) : M tt_string_t unit :=
  n ← tt_string_len;
  tt_string_remove_tailfrom (if len <=? n then u32 (n - len) else 0).

Definition tt_string_append (c : list Z) : M tt_string_t unit :=
  b ← gets id;
  assert_always (0 <? wpos b);;
  modify (λ b, set_wpos (u32 (wpos b - 1)) b);;
  r ← try (tt_buf_put (c ++ [0]));
  match r with
  | TT_SUCCESS _ => mret tt
  | TT_ERROR _ => modify (λ b, set_wpos (u32 (wpos b + 1)) b);; fail TT_FAIL
  end.

Definition tt_string_append_c (c : Z) : M tt_string_t unit :=
  if c =? 0 then mret tt
  else
    tt_buf_reserve 1;;
    b ← gets id;
    assert_always (0 <? wpos b);;
    buf_write (wpos b - 1) [u8 c];;
    buf_write (wpos b) [0];;
    modify (set_wpos (u32 (wpos b + 1))).

Definition tt_string_append_rep (c c_num : Z) : M tt_string_t unit :=
  if c =? 0 then mret tt
  else
    b ← gets id;
    assert_always (0 <? wpos b);;
    modify (set_wpos (u32 (wpos b - 1)));;
    tt_buf_put_rep (u8 c) c_num;;
    tt_buf_put_u8 0.

Definition tt_string_append_sub (c : list Z) (from len : Z) : M tt_string_t unit :=
  let n := zlen c in
  if n <? from then fail TT_FAIL
  else
    let len := if n <? u32 (from + len) then u32 (n - from) else len in
    b ← gets id;
    assert_always (0 <? wpos b);;
    modify (set_wpos (u32 (wpos b - 1)));;
    d ← access (mem_read (c ++ [0]) from len);
    tt_buf_put d;;
    tt_buf_put_u8 0.

Definition tt_string_insert (from : Z) (c : list Z) : M tt_string_t unit :=
  n ← tt_string_len; tt_buf_insert (if n <=? from then n else from) c.
Definition tt_string_insert_c (from c : Z) : M tt_string_t unit :=
  if c =? 0 then fail TT_FAIL
  else n ← tt_string_len; tt_buf_insert (if n <=? from then n else from) [u8 c].

Definition tt_string_copy (dst src : tt_string_t) : exec (result unit * tt_string_t) := tt_buf_copy dst src.
Definition tt_string_swap (a b : tt_string_t) : exec (tt_string_t * tt_string_t) := tt_buf_swap a b.

(** Into the string [substr]. *)
Definition tt_string_substr (s : tt_string_t) (from len : Z) (substr : tt_string_t) : exec (result unit * tt_string_t) :=
  exec_bind (tt_string_subcstr from s) (λ '(r, _),
    match r with
    | TT_SUCCESS (Some off, n) =>
        exec_bind (buf_at s off (if n <? len then n else len)) (λ d,
          (tt_buf_clear;; tt_buf_put d;; tt_buf_put_u8 0) substr)
    | _ => Ret (TT_ERROR TT_FAIL, substr)
    end).
End alloc.

Definition tt_string_backup_rwp : M tt_string_t (Z * Z) := tt_buf_backup_rwp.
Definition tt_string_restore_rwp (rw : Z * Z) : M tt_string_t unit := tt_buf_restore_rwp rw.
