(* ===== verification/StrSpec.v ===== *)
(** What the string operations of [Str] do to the characters: a string behaves as
    a sequence of characters that are not NUL, and keeps its terminating NUL. *)

From S2P Require Import Prelude MemSpring Buffer BufferFormat BufCommon SshDef Str.

#[local] Open Scope Z_scope.

Definition cchar (c : Z) : Prop := is_u8 c ∧ c ≠ 0.
Notation cstring := (Forall cchar).

(** The string at [b] has the characters [s], after [r] bytes that were removed at
    its head. *)
Record str (b : tt_string_t) (s : list Z) (r : Z) : Prop := {
  st_wf : buf_wf b;
  st_ro : readonly b = false;
  st_content : content b = s ++ [0];
  st_chars : cstring s;
  st_rpos : rpos b = r;
}.

Lemma cstring_u8 s : cstring s → Forall is_u8 s.
Proof. apply Forall_impl. by intros ? [? _]. Qed.
Lemma cstring_nz s : cstring s → Forall (λ c, c ≠ 0) s.
Proof. apply Forall_impl. by intros ? [_ ?]. Qed.
Lemma cstr_u8 s : cstring s → Forall is_u8 (s ++ [0]).
Proof. intros Hs. apply Forall_app. split; [by apply cstring_u8|]. by repeat constructor. Qed.
#[local] Hint Resolve cstring_u8 cstring_nz cstr_u8 : core.

(** ** Looking *)

Section look.
Context (b : tt_string_t) (s : list Z) (r : Z) (Hs : str b s r).

Lemma str_zlen : zlen (content b) = zlen s + 1.
Proof. destruct Hs. by rewrite st_content0, zlen_app. Qed.
Lemma str_rlen : TT_BUF_RLEN b = zlen s + 1.
Proof. rewrite (wf_rlen b (st_wf _ _ _ Hs)), <- (wf_content b (st_wf _ _ _ Hs)). apply str_zlen. Qed.
Lemma str_pos : 0 ≤ zlen s ∧ 0 ≤ r ∧ wpos b = r + zlen s + 1 ∧ wpos b ≤ size b < 2 ^ 32.
Proof.
  pose proof str_zlen as Hz. destruct Hs. pose proof (wf_content b st_wf0). pose proof (wf_pos b st_wf0).
  pose proof (wf_size b st_wf0). pose proof (zlen_nonneg s). lia.
Qed.

Lemma string_len_ok : tt_string_len b = Ret (TT_SUCCESS (zlen s), b).
Proof. pose proof str_pos. unfold tt_string_len. m_simpl. rewrite str_rlen, u32_small by lia. do 3 f_equal. lia. Qed.
Lemma string_empty_ok : tt_string_empty b = Ret (TT_SUCCESS (bool_decide (s = [])), b).
Proof.
  unfold tt_string_empty. m_simpl. rewrite str_rlen. do 3 f_equal. destruct s as [|c s']; [done|].
  rewrite zlen_cons. pose proof (zlen_nonneg s'). rewrite bool_decide_false by done. apply Z.eqb_neq. lia.
Qed.

Lemma string_tail : ∃ rest, tail_of b = s ++ 0 :: rest.
Proof.
  destruct (tail_content b (st_wf _ _ _ Hs)) as (rest & E & _). exists rest.
  destruct Hs as [_ _ Hc _ _]. by rewrite E, Hc, <- app_assoc.
Qed.

(** Reading from the [k]-th character on. *)
Lemma cstr_at_ok k : 0 ≤ k ≤ zlen s → cstr_at (rpos b + k) b = Ret (TT_SUCCESS (drop (Z.to_nat k) s), b).
Proof.
  intros Hk. pose proof str_pos. destruct Hs as [Hwf _ _ Hc Hr]. unfold cstr_at. rewrite (wf_block b Hwf).
  rewrite (proj2 (in_block_spec _ _ _)) by (rewrite ?wf_zlen by done; lia).
  destruct string_tail as (rest & Ht). unfold tail_of in Ht.
  assert (drop (Z.to_nat (rpos b + k)) (blk b) = drop (Z.to_nat k) s ++ 0 :: rest) as ->.
  { rewrite Z2Nat.inj_add, <- drop_drop, Ht by lia. rewrite drop_app_le by (unfold zlen in *; lia). done. }
  rewrite c_str_app by (apply Forall_drop; auto). done.
Qed.
Lemma string_cstr_ok : tt_string_cstr b = Ret (TT_SUCCESS s, b).
Proof.
  pose proof str_pos. unfold tt_string_cstr. m_simpl. rewrite <- (Z.add_0_r (rpos b)). by rewrite cstr_at_ok by lia.
Qed.

Lemma subcstr_ok from : 0 ≤ from → tt_string_subcstr from b =
  Ret (TT_SUCCESS (if from <=? zlen s then (Some (rpos b + from), zlen s - from) else (None, 0)), b).
Proof.
  intros Hf. pose proof str_pos. unfold tt_string_subcstr. erewrite bind_step by apply string_len_ok. m_simpl.
  destruct (Z.leb_spec from (zlen s)); [by rewrite u32_small by lia|done].
Qed.

Lemma str_read k n : 0 ≤ k → 0 ≤ n → k + n ≤ zlen s + 1 →
  buf_read (rpos b + k) n b = Ret (TT_SUCCESS (sub (s ++ [0]) k n), b).
Proof.
  intros ???. pose proof str_zlen. destruct Hs as [Hwf _ Hc _ _]. rewrite <- Hc. apply buf_read_content; try done. lia.
Qed.

Lemma getchar_ok pos : 0 ≤ pos → tt_string_getchar pos b = Ret (TT_SUCCESS (nth (Z.to_nat pos) s 0), b).
Proof.
  intros Hp. pose proof str_pos. unfold tt_string_getchar. m_simpl. rewrite str_rlen.
  destruct (Z.ltb_spec pos (zlen s + 1)) as [Hl|Hl].
  - rewrite str_read by lia. do 3 f_equal. unfold sub. destruct (decide (Z.to_nat pos < length s)%nat) as [Hi|Hi].
    + apply lookup_lt_is_Some_2 in Hi as [c Hc]. rewrite (nth_lookup_Some _ _ _ _ Hc).
      rewrite (drop_S _ c) by (by apply lookup_app_l_Some). done.
    + replace (Z.to_nat pos) with (length s) by (unfold zlen in *; lia). rewrite drop_app_length, (nth_overflow s) by lia. done.
  - rewrite nth_overflow; [done|]. unfold zlen in *. lia.
Qed.

Lemma equal_range_ok c from len : cstring c → 0 ≤ from → 0 ≤ len → from + len < 2 ^ 32 →
  tt_string_equal_range c from len b = Ret (TT_SUCCESS
    (bool_decide (from + len ≤ zlen s ∧ from + len ≤ zlen c ∧ sub s from len = sub c from len)), b).
Proof.
  intros Hc ???. pose proof str_pos. unfold tt_string_equal_range. erewrite bind_step by apply string_len_ok. m_simpl.
  rewrite u32_small by lia.
  destruct (Z.ltb_spec (zlen s) (from + len)); [rewrite orb_true_r, bool_decide_false by lia; done|].
  rewrite (proj2 (Z.ltb_ge (zlen s) from)) by lia. cbn [orb].
  destruct (Z.ltb_spec (zlen c) (from + len)); [rewrite orb_true_r, bool_decide_false by lia; done|].
  rewrite (proj2 (Z.ltb_ge (zlen c) from)) by lia. cbn [orb].
  rewrite str_read by lia. rewrite mem_read_ok by (rewrite ?zlen_app, ?zlen_cons, ?zlen_nil; lia).
  rewrite !sub_app_l by lia. rewrite mem_cmp_id; [do 3 f_equal; apply bool_decide_ext; tauto|].
  pose proof (zlen_sub s from len). pose proof (zlen_sub c from len). unfold zlen in *. lia.
Qed.

(** *** Searching *)

Lemma pos_of_ok o : (∀ i, o = Some i → i ≤ zlen s) → pos_of o b = Ret (TT_SUCCESS (default TT_POS_NULL o), b).
Proof.
  intros Ho. pose proof str_pos. destruct Hs as [_ _ _ _ Hr]. unfold pos_of. m_simpl. destruct o as [i|]; [|done].
  specialize (Ho i eq_refl). rewrite (proj2 (Z.leb_le _ _)) by lia. done.
Qed.

End look.

Lemma strstr_bound s t i : strstr s t = Some i → 0 ≤ i ∧ i + zlen t ≤ zlen s.
Proof.
  revert i. induction s as [|c s IH]; intros i; simpl; case_bool_decide as Hp; try done.
  - intros [= <-]. apply prefix_nil_inv in Hp as ->. done.
  - intros [= <-]. destruct Hp as (k & E). rewrite E, zlen_app. pose proof (zlen_nonneg k). lia.
  - destruct (strstr s t) as [j|]; [|done]. intros [= <-]. specialize (IH j eq_refl). rewrite zlen_cons. lia.
Qed.
Lemma index_of_bound l c i : index_of l c = Some i → 0 ≤ i < zlen l.
Proof.
  revert i. induction l as [|x l IH]; intros i; simpl; [done|]. rewrite zlen_cons. destruct (x =? c).
  - intros [= <-]. pose proof (zlen_nonneg l). lia.
  - destruct (index_of l c) as [j|]; [|done]. intros [= <-]. specialize (IH j eq_refl). lia.
Qed.
Lemma last_index_of_bound l c i : last_index_of l c = Some i → 0 ≤ i < zlen l.
Proof.
  revert i. induction l as [|x l IH]; intros i; simpl; [done|]. rewrite zlen_cons. pose proof (zlen_nonneg l).
  destruct (last_index_of l c) as [j|].
  - intros [= <-]. specialize (IH j eq_refl). lia.
  - destruct (x =? c); [|done]. intros [= <-]. lia.
Qed.

(** What the three searches promise: the first occurrence, the first and the last
    place of a character. *)
Lemma strstr_first s t :
  match strstr s t with
  | Some i => t `prefix_of` drop (Z.to_nat i) s ∧ ∀ j : nat, (j < Z.to_nat i)%nat → ¬ t `prefix_of` drop j s
  | None => ∀ j, ¬ t `prefix_of` drop j s
  end.
Proof.
  induction s as [|c s IH]; simpl; case_bool_decide as Hp; try (split; [done|]; intros; lia).
  - intros j. by rewrite drop_nil.
  - destruct (strstr s t) as [i|] eqn:E; simpl.
    + apply strstr_bound in E as [Hi _]. replace (Z.to_nat (1 + i)) with (S (Z.to_nat i)) by lia. destruct IH as [H1 H2].
      split; [done|]. intros [|j] Hj; [done|]. apply H2. lia.
    + intros [|j]; [done|]. apply IH.
Qed.
Lemma index_of_first l c :
  match index_of l c with
  | Some i => l !! Z.to_nat i = Some c ∧ ∀ j : nat, (j < Z.to_nat i)%nat → l !! j ≠ Some c
  | None => c ∉ l
  end.
Proof.
  induction l as [|x l IH]; simpl; [by apply not_elem_of_nil|]. destruct (Z.eqb_spec x c) as [->|Hne].
  - split; [done|]. intros. lia.
  - destruct (index_of l c) as [i|] eqn:E; simpl.
    + apply index_of_bound in E as [Hi _]. replace (Z.to_nat (1 + i)) with (S (Z.to_nat i)) by lia. destruct IH as [H1 H2].
      split; [done|]. intros [|j] Hj; [simpl; congruence|]. apply H2. lia.
    + by apply not_elem_of_cons.
Qed.
Lemma last_index_of_last l c :
  match last_index_of l c with
  | Some i => l !! Z.to_nat i = Some c ∧ ∀ j : nat, (Z.to_nat i < j)%nat → l !! j ≠ Some c
  | None => c ∉ l
  end.
Proof.
  induction l as [|x l IH]; simpl; [by apply not_elem_of_nil|]. destruct (last_index_of l c) as [i|] eqn:E.
  - apply last_index_of_bound in E as [Hi _]. replace (Z.to_nat (1 + i)) with (S (Z.to_nat i)) by lia. destruct IH as [H1 H2].
    split; [done|]. intros [|j] Hj; [lia|]. apply H2. lia.
  - destruct (Z.eqb_spec x c) as [->|Hne].
    + split; [done|]. intros [|j] Hj; [simpl in Hj; lia|]. simpl. intros Hj'. by apply list_elem_of_lookup_2 in Hj'.
    + by apply not_elem_of_cons.
Qed.

(** The positions the operations return; beyond the end there is none. *)
Definition find_spec (s t : list Z) : Z := default TT_POS_NULL (strstr s t).
Definition findfrom_spec (s : list Z) (from : Z) (o : list Z → option Z) : Z :=
  if from <=? zlen s then default TT_POS_NULL (option_map (Z.add from) (o (drop (Z.to_nat from) s))) else TT_POS_NULL.
Definition rfindfrom_spec (s : list Z) (from c : Z) : Z :=
  default TT_POS_NULL (last_index_of (take (Z.to_nat from) s) c).

Lemma strstr_nil s : strstr s [] = Some 0.
Proof. by destruct s. Qed.

Section search.
Context (b : tt_string_t) (s : list Z) (r : Z) (Hs : str b s r).

Lemma find_ok t : tt_string_find t b = Ret (TT_SUCCESS (find_spec s t), b).
Proof.
  unfold tt_string_find, find_spec. destruct t as [|c t]; [by rewrite strstr_nil|].
  erewrite bind_step by (by eapply string_cstr_ok). eapply pos_of_ok; [done|].
  intros i Hi%strstr_bound. pose proof (zlen_nonneg (c :: t)). lia.
Qed.

(** The search from a position, for both kinds of patterns. *)
Lemma from_ok (f : list Z → option Z) from off : 0 ≤ from ≤ zlen s → off = rpos b + from →
  (∀ u i, f u = Some i → 0 ≤ i ≤ zlen u) →
  (u ← cstr_at off; pos_of (option_map (Z.add (off - rpos b)) (f u))) b =
  Ret (TT_SUCCESS (default TT_POS_NULL (option_map (Z.add from) (f (drop (Z.to_nat from) s)))), b).
Proof.
  intros Hf -> Hb. erewrite bind_step by (by eapply cstr_at_ok). replace (rpos b + from - rpos b) with from by lia.
  eapply pos_of_ok; [done|]. intros i. destruct (f _) as [j|] eqn:E; [|done]. intros [= <-]. apply Hb in E. rewrite zlen_drop in E. lia.
Qed.

Lemma findfrom_ok from t : 0 ≤ from → tt_string_findfrom from t b = Ret (TT_SUCCESS (findfrom_spec s from (λ u, strstr u t)), b).
Proof.
  intros Hf. unfold tt_string_findfrom, findfrom_spec. erewrite (bind_step (gets id)) by done. change (id b) with b.
  erewrite bind_step by (by eapply subcstr_ok). destruct (Z.leb_spec from (zlen s)) as [Hl|Hl]; [|done].
  destruct t as [|c t].
  - rewrite strstr_nil. replace (rpos b + from - rpos b) with from by lia. cbn [option_map]. rewrite Z.add_0_r. eapply pos_of_ok; [done|].
    intros i [= <-]. done.
  - apply (from_ok (λ u, strstr u (c :: t))); [lia|done|]. intros u i Hi%strstr_bound. pose proof (zlen_nonneg (c :: t)). lia.
Qed.

Lemma strchr_bound u c i : strchr u c = Some i → 0 ≤ i ≤ zlen u.
Proof. intros Hi. apply index_of_bound in Hi. rewrite zlen_app, zlen_cons in Hi. change (zlen []) with 0 in Hi. lia. Qed.
Lemma strrchr_bound u c i : strrchr u c = Some i → 0 ≤ i ≤ zlen u.
Proof. intros Hi. apply last_index_of_bound in Hi. rewrite zlen_app, zlen_cons in Hi. change (zlen []) with 0 in Hi. lia. Qed.

Lemma find_c_ok c : tt_string_find_c c b = Ret (TT_SUCCESS (default TT_POS_NULL (strchr s c)), b).
Proof.
  unfold tt_string_find_c. erewrite bind_step by (by eapply string_cstr_ok). eapply pos_of_ok; [done|].
  intros i Hi%strchr_bound. lia.
Qed.
Lemma rfind_c_ok c : tt_string_rfind_c c b = Ret (TT_SUCCESS (default TT_POS_NULL (strrchr s c)), b).
Proof.
  unfold tt_string_rfind_c. erewrite bind_step by (by eapply string_cstr_ok). eapply pos_of_ok; [done|].
  intros i Hi%strrchr_bound. lia.
Qed.
Lemma findfrom_c_ok from c : 0 ≤ from → tt_string_findfrom_c from c b = Ret (TT_SUCCESS (findfrom_spec s from (λ u, strchr u c)), b).
Proof.
  intros Hf. unfold tt_string_findfrom_c, findfrom_spec. erewrite (bind_step (gets id)) by done. change (id b) with b.
  erewrite bind_step by (by eapply subcstr_ok). destruct (Z.leb_spec from (zlen s)) as [Hl|Hl]; [|done].
  apply (from_ok (λ u, strchr u c)); [lia|done|]. intros u i. apply strchr_bound.
Qed.

Lemma str_read_char k c : s !! k = Some c → buf_read (rpos b + Z.of_nat k) 1 b = Ret (TT_SUCCESS [c], b).
Proof.
  intros Hc. pose proof (lookup_lt_Some _ _ _ Hc). rewrite (str_read b s r Hs) by (unfold zlen; lia).
  unfold sub. rewrite Nat2Z.id. rewrite (drop_S _ c) by (by apply lookup_app_l_Some). done.
Qed.

Lemma last_index_snoc l x c : last_index_of (l ++ [x]) c = if x =? c then Some (zlen l) else last_index_of l c.
Proof.
  induction l as [|y l IH]; simpl; [done|]. rewrite IH, zlen_cons. destruct (x =? c); [done|].
  by destruct (last_index_of l c).
Qed.

Lemma rfindfrom_c_ok from c : 0 ≤ from → tt_string_rfindfrom_c from c b = Ret (TT_SUCCESS (rfindfrom_spec s from c), b).
Proof.
  intros Hf. unfold tt_string_rfindfrom_c, rfindfrom_spec. erewrite bind_step by (by eapply string_len_ok).
  set (n := Z.to_nat (if _ <? _ then _ else _)).
  assert (take (Z.to_nat from) s = take n s) as ->.
  { subst n. destruct (Z.ltb_spec (zlen s) from); [|done]. rewrite !take_ge by (unfold zlen in *; lia). done. }
  assert (n ≤ length s)%nat as Hn by (subst n; destruct (Z.ltb_spec (zlen s) from); unfold zlen in *; lia). clearbody n.
  induction n as [|n IH]; [done|]. cbn [rfind_loop]. m_simpl.
  destruct (lookup_lt_is_Some_2 s n) as [x Hx]; [lia|]. rewrite (str_read_char n x) by done. cbn [nth].
  rewrite (take_S_r _ _ x) by done. rewrite last_index_snoc. destruct (x =? c).
  - do 3 f_equal. simpl. unfold zlen. rewrite length_take. lia.
  - apply IH. lia.
Qed.

Lemma str_startwith_ok t : cstring t → tt_string_startwith t b = Ret (TT_SUCCESS (bool_decide (t `prefix_of` s)), b).
Proof.
  intros Ht. unfold tt_string_startwith. pose proof (zlen_nonneg t). destruct (Z.eqb_spec (zlen t) 0) as [E|E].
  { apply zlen_nil_inv in E as ->. rewrite bool_decide_true; [done|]. apply prefix_nil. }
  erewrite bind_step by (by eapply string_len_ok). destruct (Z.ltb_spec (zlen s) (zlen t)) as [Hl|Hl].
  - rewrite bool_decide_false; [done|]. intros (k & E'). rewrite E', zlen_app in Hl. pose proof (zlen_nonneg k). lia.
  - erewrite bind_step by (by eapply string_cstr_ok). by rewrite strncmp_prefix by auto.
Qed.

Lemma str_endwith_ok t : cstring t → tt_string_endwith t b = Ret (TT_SUCCESS (bool_decide (t `suffix_of` s)), b).
Proof.
  intros Ht. unfold tt_string_endwith. pose proof (zlen_nonneg t). pose proof (str_pos b s r Hs).
  erewrite bind_step by (by eapply string_len_ok). m_simpl. destruct (Z.eqb_spec (zlen t) 0) as [E|E].
  { apply zlen_nil_inv in E as ->. rewrite bool_decide_true; [done|]. apply suffix_nil. }
  destruct (Z.ltb_spec (zlen s) (zlen t)) as [Hl|Hl].
  - rewrite bool_decide_false; [done|]. intros (k & E'). rewrite E', zlen_app in Hl. pose proof (zlen_nonneg k). lia.
  - rewrite u32_small by lia. erewrite cstr_at_ok by (done || lia). rewrite strncmp_prefix by auto. do 3 f_equal. apply bool_decide_ext.
    rewrite suffix_sub by done. unfold sub. split.
    + intros (k & E'). rewrite E'. unfold zlen. by rewrite Nat2Z.id, take_app_length.
    + intros E'. rewrite take_ge in E' by (rewrite length_drop; unfold zlen in *; lia). exists []. by rewrite app_nil_r.
Qed.

Lemma str_cmp_ok c : cstring c → ∃ z, tt_string_cmp c b = Ret (TT_SUCCESS z, b) ∧ (z = 0 ↔ s = c).
Proof.
  intros Hc. unfold tt_string_cmp. erewrite bind_step by (by eapply string_cstr_ok). eexists. split; [done|].
  pose proof (st_chars _ _ _ Hs) as Hsc. clear -Hc Hsc. unfold strcmp. revert c Hc. induction Hsc as [|x s [Hx Hx0] _ IH]; intros c Hc.
  - destruct Hc as [|y c [Hy Hy0] _]; [done|]. cbn. rewrite (proj2 (Z.ltb_lt 0 y)) by (unfold is_u8 in *; lia). done.
  - destruct Hc as [|y c [Hy Hy0] Hc].
    { cbn. rewrite (proj2 (Z.ltb_ge x 0)) by (unfold is_u8 in *; lia). rewrite (proj2 (Z.ltb_lt 0 x)) by (unfold is_u8 in *; lia). done. }
    cbn [mem_cmp app id]. destruct (Z.ltb_spec x y); [split; [done|]; intros [= ? _]; lia|].
    destruct (Z.ltb_spec y x); [split; [done|]; intros [= ? _]; lia|].
    rewrite IH by done. assert (x = y) as -> by lia. split; [by intros ->|by intros [= ->]].
Qed.
End search.

(** Characters that compare equal without case: the same, or 32 apart (letters of
    different case, but other pairs too). *)
Definition same_letter (x y : Z) : Prop := char_of x = char_of y ∨ Z.abs (char_of x - char_of y) = 32.

Lemma memicmp_ok s t : length s = length t → tt_memicmp s t = 0 ↔ Forall2 same_letter s t.
Proof.
  revert t. induction s as [|x s IH]; intros [|y t] Hl; try done. injection Hl as Hl. cbn [tt_memicmp]. unfold __DIFF.
  destruct (Z.eqb_spec (char_of x) (char_of y)) as [E|E].
  { rewrite IH by done. split; [intros ?; constructor; [by left|done]|]. by inversion 1. }
  destruct (_ || _) eqn:Ed.
  - rewrite IH by done. split; [|by inversion 1]. intros ?. constructor; [|done]. right.
    apply orb_true_iff in Ed as [?%Z.eqb_eq|?%Z.eqb_eq]; lia.
  - apply orb_false_iff in Ed as [?%Z.eqb_neq ?%Z.eqb_neq]. split; [lia|]. inversion 1 as [|? ? ? ? [?|?]]; subst; [done|]. lia.
Qed.

Lemma ncasecmp_ok b s r c : str b s r → cstring c → zlen c + 1 < 2 ^ 32 →
  ∃ z, tt_string_ncasecmp c b = Ret (TT_SUCCESS z, b) ∧ (z = 0 ↔ Forall2 same_letter s c).
Proof.
  intros Hs Hc Hl. pose proof (str_pos b s r Hs). pose proof (zlen_nonneg c). unfold tt_string_ncasecmp. m_simpl.
  rewrite (str_rlen b s r Hs), (u32_small (zlen c + 1)) by lia. destruct (Z.eqb_spec (zlen s + 1) (zlen c + 1)) as [E|E].
  - rewrite (proj2 (Z.eqb_neq (zlen s + 1) 0)) by lia. cbn [negb orb].
    pose proof (str_read b s r Hs 0 (zlen s + 1)) as Er. rewrite Z.add_0_r in Er. rewrite Er by lia.
    rewrite mem_read_ok by (rewrite ?zlen_app, ?zlen_cons; change (zlen []) with 0; lia).
    assert (∀ u, zlen u = zlen s → sub (u ++ [0]) 0 (zlen s + 1) = u ++ [0]) as Hsub.
    { intros u Hu. unfold sub. rewrite take_ge; [done|]. rewrite length_drop, length_app. unfold zlen in *. simpl. lia. }
    rewrite !Hsub by lia. eexists. split; [done|]. rewrite memicmp_ok by (rewrite !length_app; unfold zlen in *; lia).
    split; [|intros ?; apply Forall2_app; [done|repeat constructor; by left]].
    intros (u & v & Hu & _ & Eu)%Forall2_app_inv_l. pose proof (Forall2_length Hu).
    apply app_inj_1 in Eu as [-> _]; [done|]. unfold zlen in *. lia.
  - eexists. split; [done|]. split; [|intros Hf%Forall2_length; unfold zlen in *; lia]. intros Hz. exfalso. cbn [negb orb] in Hz.
    unfold s32 in Hz. destruct (Z_lt_le_dec (zlen s + 1 - (zlen c + 1)) 0).
    + rewrite u32_neg in Hz by lia. destruct (_ <? _) eqn:E' in Hz; [apply Z.ltb_lt in E'|]; lia.
    + rewrite u32_small in Hz by lia. destruct (_ <? _) eqn:E' in Hz; [|apply Z.ltb_ge in E']; lia.
Qed.

(** ** Changing *)

(** What a successful change leaves is a string again. *)
Lemma becomes_str b n s r b' : becomes b n r (s ++ [0]) b' → readonly b = false → cstring s → str b' s r.
Proof. intros [] ??. constructor; try done. congruence. Qed.

Lemma cut_becomes b k : buf_wf b → 0 ≤ k ≤ zlen (content b) →
  becomes b 0 (rpos b) (take (Z.to_nat k) (content b)) (set_wpos (rpos b + k) b).
Proof.
  intros Hwf Hk. pose proof (wf_pos b Hwf). pose proof (wf_content b Hwf). constructor; try done; simpl; try lia.
  - apply wf_set_wpos; [done|lia].
  - by apply content_set_wpos.
Qed.

Lemma poke_becomes b k d b' : buf_wf b → Forall is_u8 d → 0 ≤ k → k + zlen d ≤ zlen (content b) →
  buf_write (rpos b + k) d b = Ret (TT_SUCCESS tt, b') → becomes b 0 (rpos b) (splice (content b) k d) b'.
Proof.
  intros Hwf Hd Hk Hle E. destruct (poke_content b k d) as (b1 & E1 & ? & ? & ? & ? & ? & ? & ?); [done..|].
  rewrite E in E1. injection E1 as ->. constructor; try done; lia.
Qed.

Section change.
Context `{Allocator}.

Lemma put_chain b n r s b1 d :
  0 ≤ n → reliable b → readonly b = false → becomes b n r s b1 → Forall is_u8 d → room b (n + zlen d) →
  ∃ b2, tt_buf_put d b1 = Ret (TT_SUCCESS tt, b2) ∧ becomes b (n + zlen d) r (s ++ d) b2.
Proof.
  intros Hn Hrel Hro Hb Hd Hroom. pose proof (zlen_nonneg d).
  destruct (buf_put_spec b1 d) as [(b2 & E & Ha)|[_ Hr]].
  - apply Hb.
  - destruct Hb. congruence.
  - done.
  - eapply becomes_room; [exact Hn|lia| |exact Hb]. done.
  - exists b2. split; [done|]. apply appended_becomes in Ha. destruct Hb as [? Ec Er ? ? ? ?]. rewrite Ec, Er in Ha.
    by apply (becomes_trans b n r s b1 (zlen d)).
  - destruct Hr. destruct Hb as [_ _ _ _ _ Hm _]. unfold reliable in *. by rewrite Hm.
Qed.

Context (b : tt_string_t) (s : list Z) (r : Z) (Hs : str b s r) (Hrel : reliable b).

Lemma str_take k : 0 ≤ k ≤ zlen s → take (Z.to_nat k) (content b) = take (Z.to_nat k) s.
Proof. intros. destruct Hs. rewrite st_content0, take_app_le by (unfold zlen in *; lia). done. Qed.
Lemma str_drop k : 0 ≤ k ≤ zlen s → drop (Z.to_nat k) (content b) = drop (Z.to_nat k) s ++ [0].
Proof. intros. destruct Hs. rewrite st_content0, drop_app_le by (unfold zlen in *; lia). done. Qed.

(** Cutting the string after [k] characters and writing [d] there. *)
Lemma cut_put k d : 0 ≤ k ≤ zlen s → Forall is_u8 d → room b (zlen d) →
  ∃ b', tt_buf_put d (set_wpos (rpos b + k) b) = Ret (TT_SUCCESS tt, b') ∧ becomes b (zlen d) r (take (Z.to_nat k) s ++ d) b'.
Proof.
  intros Hk Hd Hroom. pose proof (str_zlen b s r Hs). destruct Hs as [Hwf Hro Hc _ Hr].
  pose proof (cut_becomes b k Hwf) as Hb. rewrite str_take, Hr in Hb by lia. rewrite Hr. apply (put_chain b 0); try done. apply Hb. lia.
Qed.

Lemma string_clear_keeps : ∃ b', tt_string_clear b = Ret (TT_SUCCESS tt, b') ∧ becomes b 0 0 [0] b' ∧ size b' = size b.
Proof.
  pose proof (str_pos b s r Hs). destruct Hs as [Hwf Hro Hc _ Hr]. unfold tt_string_clear. m_simpl. rewrite Hro. repeat b_step. m_simpl.
  set (b1 := set_wpos 1 (set_rpos 0 b)).
  assert (buf_wf b1) as Hwf1 by (apply wf_set_wpos; [apply wf_set_rpos; [done|lia]|simpl; lia]).
  destruct (poke_content b1 0 [0]) as (b' & E & Hw & Hc' & Hr' & Hwp & Hsz & Hm & Ho); [done|by repeat constructor|lia| |].
  { rewrite (wf_content b1 Hwf1). done. }
  rewrite Z.add_0_r in E. change (rpos b1) with 0 in *. change (wpos b1) with 1 in *. rewrite E. exists b'. split; [done|]. split; [|done].
  assert (zlen (content b1) = 1) as H1 by (rewrite (wf_content b1 Hwf1); done).
  constructor; try done; try lia; [|change (size b1) with (size b) in *; lia].
  rewrite Hc'. unfold splice. simpl. rewrite drop_ge; [done|]. unfold zlen in H1. lia.
Qed.
Lemma string_clear_ok : ∃ b', tt_string_clear b = Ret (TT_SUCCESS tt, b') ∧ becomes b 0 0 [0] b'.
Proof. destruct string_clear_keeps as (b' & E & Hb & _). by exists b'. Qed.

Lemma string_set_ok c : cstring c → room b (zlen c + 1) →
  ∃ b', tt_string_set c b = Ret (TT_SUCCESS tt, b') ∧ becomes b (zlen c + 1) 0 (c ++ [0]) b'.
Proof.
  intros Hc Hroom. destruct (clear_becomes b) as (b1 & E & Hb); [apply Hs|]. unfold tt_string_set. erewrite bind_step by exact E.
  assert (zlen (c ++ [0]) = zlen c + 1) as Hz by by rewrite zlen_app.
  rewrite <- Hz in *. apply (put_chain b 0 0 []); try done; [apply Hs|auto].
Qed.

Lemma put_two b1 n r' u d : 0 ≤ n → becomes b n r' u b1 → Forall is_u8 d → room b (n + (zlen d + 1)) →
  ∃ b', (tt_buf_put d;; tt_buf_put_u8 0) b1 = Ret (TT_SUCCESS tt, b') ∧ becomes b (n + (zlen d + 1)) r' ((u ++ d) ++ [0]) b'.
Proof.
  intros Hn Hb Hd Hroom. pose proof (zlen_nonneg d). destruct Hs as [_ Hro _ _ _].
  destruct (put_chain b n r' u b1 d) as (b2 & E & Hb2); try done; [eapply room_weaken; [|exact Hroom]; lia|].
  erewrite bind_step by exact E.
  destruct (put_chain b (n + zlen d) r' (u ++ d) b2 [0]) as (b3 & E3 & Hb3); try done; [lia|by repeat constructor| |].
  - by rewrite <- Z.add_assoc.
  - exists b3. split; [done|]. by rewrite <- Z.add_assoc in Hb3.
Qed.

(** The clipped range that several operations compute. *)
Lemma clip c from len : 0 ≤ from ≤ zlen c → 0 ≤ len → from + len < 2 ^ 32 → zlen c < 2 ^ 32 →
  mem_read (c ++ [0]) from (if zlen c <? u32 (from + len) then u32 (zlen c - from) else len)
  = Ret (take (Z.to_nat len) (drop (Z.to_nat from) c)).
Proof.
  intros. rewrite (u32_small (from + len)) by lia. destruct (Z.ltb_spec (zlen c) (from + len)).
  - rewrite u32_small by lia. rewrite mem_read_ok by (rewrite ?zlen_app; change (zlen [0]) with 1; lia).
    rewrite sub_app_l by lia. f_equal. unfold sub. rewrite !take_ge; [done|rewrite length_drop; unfold zlen in *; lia..].
  - rewrite mem_read_ok by (rewrite ?zlen_app; change (zlen [0]) with 1; lia). by rewrite sub_app_l by lia.
Qed.

Lemma zlen_clip (c : list Z) from len : zlen (take (Z.to_nat len) (drop (Z.to_nat from) c)) ≤ zlen c.
Proof. unfold zlen. rewrite length_take, length_drop. lia. Qed.

Lemma string_set_sub_ok c from len : cstring c → zlen c < 2 ^ 32 → 0 ≤ from → 0 ≤ len → from + len < 2 ^ 32 → room b (zlen c + 1) →
  ∃ b', tt_string_set_sub c from len b = Ret (if zlen c <? from then TT_ERROR TT_FAIL else TT_SUCCESS tt, b') ∧
    if zlen c <? from then b' = b else becomes b (zlen c + 1) 0 (take (Z.to_nat len) (drop (Z.to_nat from) c) ++ [0]) b'.
Proof.
  intros Hc Hz ??? Hroom. unfold tt_string_set_sub. destruct (Z.ltb_spec (zlen c) from); [by exists b|].
  destruct (clear_becomes b) as (b1 & E & Hb); [apply Hs|]. erewrite bind_step by exact E.
  rewrite clip by lia. m_simpl. pose proof (zlen_clip c from len). set (d := take _ _) in *.
  destruct (put_two b1 0 0 [] d) as (b' & Ep & Hb'); try done.
  - by apply Forall_take, Forall_drop, cstring_u8.
  - eapply room_weaken; [|exact Hroom]. pose proof (zlen_nonneg d). lia.
  - exists b'. split; [exact Ep|]. eapply becomes_weaken; [|exact Hb']. lia.
Qed.

Lemma string_setfrom_ok from c : cstring c → 0 ≤ from → room b (zlen c + 1) →
  ∃ b', tt_string_setfrom from c b = Ret (if zlen s <? from then TT_ERROR TT_FAIL else TT_SUCCESS tt, b') ∧
    if zlen s <? from then b' = b else becomes b (zlen c + 1) r ((take (Z.to_nat from) s ++ c) ++ [0]) b'.
Proof.
  intros Hc Hf Hroom. unfold tt_string_setfrom. erewrite bind_step by (by eapply string_len_ok).
  destruct (Z.ltb_spec (zlen s) from); [by exists b|]. pose proof (str_pos b s r Hs). m_simpl.
  assert (zlen (c ++ [0]) = zlen c + 1) as Hz by by rewrite zlen_app.
  rewrite u32_small by (destruct Hs; lia). rewrite <- app_assoc, <- Hz in *. apply cut_put; [lia|auto|done].
Qed.

Lemma string_append_ok c : cstring c → room b (zlen c + 1) →
  ∃ b', tt_string_append c b = Ret (TT_SUCCESS tt, b') ∧ becomes b (zlen c + 1) r ((s ++ c) ++ [0]) b'.
Proof.
  intros Hc Hroom. pose proof (str_pos b s r Hs). unfold tt_string_append. m_simpl. repeat b_step. m_simpl.
  assert (zlen (c ++ [0]) = zlen c + 1) as Hz by by rewrite zlen_app.
  destruct (cut_put (zlen s) (c ++ [0])) as (b' & E & Hb); [lia|auto|by rewrite Hz|].
  rewrite u32_small by lia. replace (wpos b - 1) with (rpos b + zlen s) by (destruct Hs; lia). rewrite E.
  exists b'. split; [done|]. rewrite take_ge, Hz, app_assoc in Hb by (unfold zlen; lia). done.
Qed.

Lemma string_append_rep_ok c n : cchar c → 0 ≤ n → room b (n + 1) →
  ∃ b', tt_string_append_rep c n b = Ret (TT_SUCCESS tt, b') ∧ becomes b (n + 1) r ((s ++ replicate (Z.to_nat n) c) ++ [0]) b'.
Proof.
  intros [Hc Hc0] Hn Hroom. pose proof (str_pos b s r Hs). unfold tt_string_append_rep. rewrite (proj2 (Z.eqb_neq c 0)) by done.
  m_simpl. repeat b_step. m_simpl. rewrite u32_small, u8_small by (done || lia). rewrite put_rep_put by done.
  replace (wpos b - 1) with (rpos b + zlen s) by (destruct Hs; lia).
  pose proof (cut_becomes b (zlen s) (st_wf _ _ _ Hs)) as Hb. rewrite str_take, (st_rpos _ _ _ Hs) in Hb by lia.
  rewrite (take_ge s) in Hb by (unfold zlen; lia). rewrite (str_zlen b s r Hs) in Hb. rewrite (st_rpos _ _ _ Hs).
  destruct (put_two _ 0 r s (replicate (Z.to_nat n) c) ltac:(lia) (Hb ltac:(lia))) as (b' & E & Hb').
  - by apply Forall_replicate.
  - rewrite zlen_replicate. by replace (0 + (Z.of_nat (Z.to_nat n) + 1)) with (n + 1) by lia.
  - exists b'. split; [exact E|]. rewrite zlen_replicate in Hb'. by replace (0 + (Z.of_nat (Z.to_nat n) + 1)) with (n + 1) in Hb' by lia.
Qed.

Lemma string_append_sub_ok c from len : cstring c → zlen c < 2 ^ 32 → 0 ≤ from → 0 ≤ len → from + len < 2 ^ 32 → room b (zlen c + 1) →
  ∃ b', tt_string_append_sub c from len b = Ret (if zlen c <? from then TT_ERROR TT_FAIL else TT_SUCCESS tt, b') ∧
    if zlen c <? from then b' = b else becomes b (zlen c + 1) r ((s ++ take (Z.to_nat len) (drop (Z.to_nat from) c)) ++ [0]) b'.
Proof.
  intros Hc Hz ??? Hroom. pose proof (str_pos b s r Hs). unfold tt_string_append_sub. destruct (Z.ltb_spec (zlen c) from); [by exists b|].
  m_simpl. repeat b_step. m_simpl. rewrite (u32_small (wpos b - 1)) by lia. rewrite clip by lia. pose proof (zlen_clip c from len). set (d := take _ (drop _ c)) in *.
  replace (wpos b - 1) with (rpos b + zlen s) by (destruct Hs; lia).
  pose proof (cut_becomes b (zlen s) (st_wf _ _ _ Hs)) as Hb. rewrite str_take, (st_rpos _ _ _ Hs) in Hb by lia.
  rewrite (take_ge s) in Hb by (unfold zlen; lia). rewrite (str_zlen b s r Hs) in Hb. rewrite (st_rpos _ _ _ Hs).
  destruct (put_two _ 0 r s d ltac:(lia) (Hb ltac:(lia))) as (b' & E & Hb').
  - by apply Forall_take, Forall_drop, cstring_u8.
  - eapply room_weaken; [|exact Hroom]. pose proof (zlen_nonneg d). lia.
  - exists b'. split; [exact E|]. eapply becomes_weaken; [|exact Hb']. lia.
Qed.
End change.

Lemma u8_one c : is_u8 c → Forall is_u8 [c].
Proof. intros. by apply Forall_singleton. Qed.

Section change2.
Context `{Allocator} (b : tt_string_t) (s : list Z) (r : Z) (Hs : str b s r) (Hrel : reliable b).

Lemma string_append_c_ok c : cchar c → room b 1 →
  ∃ b', tt_string_append_c c b = Ret (TT_SUCCESS tt, b') ∧ becomes b 1 r ((s ++ [c]) ++ [0]) b'.
Proof.
  intros [Hc Hc0] Hroom. pose proof (str_pos b s r Hs). unfold tt_string_append_c. rewrite (proj2 (Z.eqb_neq c 0)) by done.
  destruct (buf_reserve_spec b 1) as [(b1 & E & Hk & Hs1)|[_ Hr]]; [apply Hs|apply Hs|lia|done| |done].
  erewrite bind_step by exact E. destruct Hk as [Hw1 Hc1 Hp1 Hr1 Hm1 Ho1]. destruct Hs as [Hwf Hro Hcb _ Hrb].
  m_simpl. rewrite !Hp1. repeat b_step. m_simpl. rewrite u8_small by done.
  replace (wpos b - 1) with (rpos b1 + zlen s) by lia.
  pose proof (str_zlen b s r Hs) as Hz. assert (zlen (content b1) = zlen s + 1) as Hz1 by congruence.
  destruct (poke_ok b1 (zlen s) [c]) as (E2 & Hw2 & Ht2); [done|by apply u8_one|lia|change (zlen [c]) with 1; lia|].
  rewrite E2. set (b2 := set_block _ b1) in *. m_simpl.
  replace (wpos b) with (rpos b2 + (zlen s + 1)) by (subst b2; autorewrite with buf; lia).
  destruct (poke_ok b2 (zlen s + 1) [0]) as (E3 & Hw3 & Ht3); [done|by apply u8_one|lia|subst b2; autorewrite with buf; change (zlen [0]) with 1; lia|].
  rewrite E3. set (b3 := set_block _ b2) in *. m_simpl. rewrite u32_small by (destruct Hroom; subst b2; autorewrite with buf; lia).
  eexists. split; [done|].
  destruct (tail_content b1 Hw1) as (rest & Ht1 & Hzr). rewrite Hc1, Hcb, <- app_assoc in Ht1.
  assert (rest ≠ []) as Hne by (intros ->; change (zlen []) with 0 in Hzr; lia). destruct rest as [|x rest]; [done|].
  assert (tail_of b3 = ((s ++ [c]) ++ [0]) ++ rest) as Ht.
  { rewrite Ht3, Ht2, Ht1. unfold splice, zlen. rewrite Nat2Z.id, take_app_length. cbn [length app].
    rewrite drop_app_add. replace (Z.to_nat (Z.of_nat (length s) + 1)) with (length (s ++ [c])) by (rewrite length_app; simpl; lia).
    cbn [drop app]. rewrite (app_assoc s [c] (x :: rest) : s ++ c :: x :: rest = _), take_app_length, drop_app_add. by rewrite <- !app_assoc. }
  assert (edited b1 ((s ++ [c]) ++ [0]) (set_wpos (rpos b1 + zlen ((s ++ [c]) ++ [0])) b3)) as He.
  { eapply edited_wpos; [done|done|..]; subst b3 b2; by autorewrite with buf. }
  assert (zlen ((s ++ [c]) ++ [0]) = zlen s + 2) as Hz2 by (rewrite !zlen_app; change (zlen [c]) with 1; change (zlen [0]) with 1; lia).
  replace (rpos b2 + (zlen s + 1) + 1) with (rpos b1 + zlen ((s ++ [c]) ++ [0])) by (subst b2; autorewrite with buf; lia).
  destruct He. constructor; try done; try congruence; rewrite ?Hz2 in *; lia.
Qed.

Lemma str_slice_take i : 0 ≤ i ≤ zlen s → take (Z.to_nat i) (s ++ [0]) = take (Z.to_nat i) s.
Proof. intros. rewrite take_app_le by (unfold zlen in *; lia). done. Qed.
Lemma str_slice_drop i : 0 ≤ i ≤ zlen s → drop (Z.to_nat i) (s ++ [0]) = drop (Z.to_nat i) s ++ [0].
Proof. intros. rewrite drop_app_le by (unfold zlen in *; lia). done. Qed.

Lemma string_insert_ok from c : r = 0 → Forall is_u8 c → 0 ≤ from → room b (zlen c) →
  ∃ b', tt_string_insert from c b = Ret (TT_SUCCESS tt, b') ∧
    becomes b (zlen c) 0 ((take (Z.to_nat from) s ++ c ++ drop (Z.to_nat from) s) ++ [0]) b'.
Proof.
  intros Hr0 Hc Hf Hroom. pose proof (str_pos b s r Hs). unfold tt_string_insert. erewrite bind_step by (by eapply string_len_ok).
  set (i := if zlen s <=? from then zlen s else from). assert (i = Z.min from (zlen s)) as Hi by (subst i; destruct (Z.leb_spec (zlen s) from); lia).
  destruct (insert_ok b (st_wf _ _ _ Hs) (st_ro _ _ _ Hs) i c) as [(b' & E & Hb)|[_ ?]]; [by rewrite (st_rpos _ _ _ Hs)|done|rewrite (str_zlen b s r Hs); lia|done| |done].
  exists b'. split; [done|]. rewrite (st_content _ _ _ Hs), str_slice_take, str_slice_drop in Hb by lia.
  assert (take (Z.to_nat i) s = take (Z.to_nat from) s) as Et.
  { rewrite Hi. destruct (Z.min_spec from (zlen s)) as [[? ->]|[? ->]]; [done|]. rewrite !take_ge by (unfold zlen in *; lia). done. }
  assert (drop (Z.to_nat i) s = drop (Z.to_nat from) s) as Ed.
  { rewrite Hi. destruct (Z.min_spec from (zlen s)) as [[? ->]|[? ->]]; [done|]. rewrite !drop_ge by (unfold zlen in *; lia). done. }
  rewrite Et, Ed in Hb. by rewrite <- !app_assoc.
Qed.
Lemma string_insert_refused from c : 0 < r → 0 ≤ from → tt_string_insert from c b = Ret (TT_ERROR TT_FAIL, b).
Proof.
  intros Hr Hf. pose proof (str_pos b s r Hs). unfold tt_string_insert. erewrite bind_step by (by eapply string_len_ok).
  assert (0 ≤ (if zlen s <=? from then zlen s else from) ≤ zlen s) by (destruct (Z.leb_spec (zlen s) from); lia).
  apply insert_refused; destruct Hs; lia.
Qed.
Lemma insert_c_insert from c : cchar c → tt_string_insert_c from c b = tt_string_insert from [c] b.
Proof. intros [Hc Hc0]. unfold tt_string_insert_c, tt_string_insert. rewrite (proj2 (Z.eqb_neq c 0)), u8_small by done. done. Qed.

Lemma remove_clip from len : 0 ≤ from < zlen s → 0 ≤ len → from + len < 2 ^ 32 →
  u32 (from + (if zlen s <=? u32 (from + len) then u32 (zlen s - from) else len)) = Z.min (from + len) (zlen s).
Proof.
  intros. pose proof (str_pos b s r Hs). rewrite (u32_small (from + len)) by lia. destruct (Z.leb_spec (zlen s) (from + len)).
  - rewrite (u32_small (zlen s - from)), u32_small by lia. lia.
  - rewrite u32_small by lia. lia.
Qed.

Lemma string_remove_range_ok from len : r = 0 → 0 ≤ from → 0 ≤ len → from + len < 2 ^ 32 →
  ∃ b', tt_string_remove_range from len b = Ret (TT_SUCCESS tt, b') ∧
    becomes b 0 0 ((take (Z.to_nat from) s ++ drop (Z.to_nat (from + len)) s) ++ [0]) b'.
Proof.
  intros Hr0 ???. pose proof (str_pos b s r Hs). unfold tt_string_remove_range. erewrite bind_step by (by eapply string_len_ok).
  destruct (Z.leb_spec (zlen s) from) as [Hl|Hl].
  { exists b. split; [done|]. rewrite take_ge, drop_ge, app_nil_r by (unfold zlen in *; lia).
    pose proof (becomes_refl b (st_wf _ _ _ Hs)) as Hb. by rewrite (st_rpos _ _ _ Hs), (st_content _ _ _ Hs), Hr0 in Hb. }
  cbv zeta. rewrite remove_clip by lia. destruct (remove_range_ok b (st_wf _ _ _ Hs) from (Z.min (from + len) (zlen s))) as (b' & E & Hb);
    [by rewrite (st_rpos _ _ _ Hs)|lia|lia|]. exists b'. split; [done|].
  rewrite (st_content _ _ _ Hs), str_slice_take, str_slice_drop in Hb by lia.
  assert (drop (Z.to_nat (Z.min (from + len) (zlen s))) s = drop (Z.to_nat (from + len)) s) as Ed.
  { destruct (Z.min_spec (from + len) (zlen s)) as [[? ->]|[? ->]]; [done|]. rewrite !drop_ge by (unfold zlen in *; lia). done. }
  rewrite Ed in Hb. by rewrite <- app_assoc.
Qed.
Lemma string_remove_range_refused from len : 0 < r → 0 ≤ from → 0 ≤ len → from + len < 2 ^ 32 →
  tt_string_remove_range from len b = Ret (TT_SUCCESS tt, b).
Proof.
  intros Hr ???. pose proof (str_pos b s r Hs). unfold tt_string_remove_range. erewrite bind_step by (by eapply string_len_ok).
  destruct (Z.leb_spec (zlen s) from) as [Hl|Hl]; [done|]. cbv zeta. rewrite remove_clip by lia.
  apply remove_range_refused; destruct Hs; lia.
Qed.

Lemma string_remove_headto_ok to : 0 ≤ to → ∃ b', tt_string_remove_headto to b = Ret (TT_SUCCESS tt, b') ∧
  becomes b 0 (r + Z.min to (zlen s)) (drop (Z.to_nat to) s ++ [0]) b'.
Proof.
  intros Ht. pose proof (str_pos b s r Hs). unfold tt_string_remove_headto. erewrite bind_step by (by eapply string_len_ok).
  set (i := if zlen s <=? to then zlen s else to). assert (i = Z.min to (zlen s)) as Hi by (subst i; destruct (Z.leb_spec (zlen s) to); lia).
  destruct (remove_headto_ok b (st_wf _ _ _ Hs) i) as (b' & E & Hb); [lia|]. exists b'. split; [done|].
  rewrite (str_zlen b s r Hs), (st_rpos _ _ _ Hs), (st_content _ _ _ Hs), str_slice_drop in Hb by lia.
  replace (Z.min i (zlen s + 1)) with (Z.min to (zlen s)) in Hb by lia.
  assert (drop (Z.to_nat i) s = drop (Z.to_nat to) s) as Ed.
  { rewrite Hi. destruct (Z.min_spec to (zlen s)) as [[? ->]|[? ->]]; [done|]. rewrite !drop_ge by (unfold zlen in *; lia). done. }
  by rewrite Ed in Hb.
Qed.

Lemma string_remove_tailfrom_ok from : 0 ≤ from → room b 1 → ∃ b', tt_string_remove_tailfrom from b = Ret (TT_SUCCESS tt, b') ∧
  becomes b 1 r (take (Z.to_nat from) s ++ [0]) b'.
Proof.
  intros Hf Hroom. pose proof (str_pos b s r Hs). unfold tt_string_remove_tailfrom. erewrite bind_step by (by eapply string_len_ok).
  destruct (Z.leb_spec (zlen s) from) as [Hl|Hl].
  { exists b. split; [done|]. rewrite take_ge by (unfold zlen in *; lia).
    pose proof (becomes_refl b (st_wf _ _ _ Hs)) as Hb. rewrite (st_rpos _ _ _ Hs), (st_content _ _ _ Hs) in Hb.
    eapply becomes_weaken; [|done]. lia. }
  destruct (remove_tailfrom_ok b (st_wf _ _ _ Hs) from Hf) as (b1 & E & Hb). erewrite bind_step by exact E.
  rewrite (st_content _ _ _ Hs), (st_rpos _ _ _ Hs), str_slice_take in Hb by lia.
  destruct (put_chain b 0 r (take (Z.to_nat from) s) b1 [0]) as (b2 & E2 & Hb2); try done; [apply Hs|by apply u8_one|].
  exists b2. split; [|done]. unfold try. m_simpl. unfold tt_buf_put_u8. by rewrite E2.
Qed.

(** *** Character by character *)

Lemma string_setfrom_c_ok from c : cchar c → 0 ≤ from → ∃ b',
  tt_string_setfrom_c from c b = Ret (if zlen s <=? from then TT_ERROR TT_FAIL else TT_SUCCESS tt, b') ∧
  becomes b 0 r (<[Z.to_nat from := c]> s ++ [0]) b'.
Proof.
  intros [Hc Hc0] Hf. pose proof (str_pos b s r Hs). unfold tt_string_setfrom_c. erewrite bind_step by (by eapply string_len_ok).
  m_simpl. destruct (Z.leb_spec (zlen s) from) as [Hl|Hl].
  { exists b. split; [done|]. rewrite list_insert_ge by (unfold zlen in *; lia).
    pose proof (becomes_refl b (st_wf _ _ _ Hs)) as Hb. by rewrite (st_rpos _ _ _ Hs), (st_content _ _ _ Hs) in Hb. }
  rewrite u8_small by done. destruct (poke_content b from [c]) as (b' & E & _); [apply Hs|by apply u8_one|lia|rewrite (str_zlen b s r Hs); change (zlen [c]) with 1; lia|].
  exists b'. split; [done|]. apply poke_becomes in E; [|apply Hs|by apply u8_one|lia|rewrite (str_zlen b s r Hs); change (zlen [c]) with 1; lia].
  rewrite (st_content _ _ _ Hs), (st_rpos _ _ _ Hs) in E. enough (splice (s ++ [0]) from [c] = <[Z.to_nat from:=c]> s ++ [0]) as <- by done.
  unfold splice. rewrite str_slice_take by lia. rewrite insert_take_drop by (unfold zlen in *; lia). cbn [length].
  rewrite drop_app_le by (unfold zlen in *; lia). rewrite <- app_assoc. cbn. by rewrite Nat.add_1_r.
Qed.

Lemma each_char_ok f rest : each_char f (s ++ 0 :: rest) = Ret ((f <$> s) ++ 0 :: rest).
Proof.
  pose proof (st_chars _ _ _ Hs) as Hc. clear Hs. induction Hc as [|c u [_ Hc] _ IH]; [done|]. cbn [each_char app fmap list_fmap].
  rewrite (proj2 (Z.eqb_neq c 0)) by done. by rewrite IH.
Qed.

Lemma map_chars_ok f : (∀ c, cchar c → cchar (f c)) → ∃ b', map_chars f b = Ret (TT_SUCCESS tt, b') ∧ becomes b 0 r ((f <$> s) ++ [0]) b'.
Proof.
  intros Hf. pose proof (str_pos b s r Hs). unfold map_chars. m_simpl. rewrite (wf_block b (st_wf _ _ _ Hs)).
  destruct (tail_content b (st_wf _ _ _ Hs)) as (rest & Ht & Hzr). rewrite (st_content _ _ _ Hs), <- app_assoc in Ht. cbn [app] in Ht.
  change (drop (Z.to_nat (rpos b)) (blk b)) with (tail_of b). rewrite Ht, each_char_ok. set (d := (f <$> s) ++ 0 :: rest).
  assert (zlen (f <$> s) = zlen s) as Hzf by (unfold zlen; by rewrite length_fmap).
  assert (cstring (f <$> s)) as Hfs by (apply Forall_fmap; exact (Forall_impl _ Hf (st_chars _ _ _ Hs))).
  assert (zlen d = zlen s + 1 + (size b - wpos b)) as Hzd.
  { subst d. rewrite zlen_app, zlen_cons, Hzf. lia. }
  assert (Forall is_u8 (tail_of b)) as Hu by (apply Forall_drop, wf_bytes, Hs). rewrite Ht in Hu. apply Forall_app in Hu as [_ Hu].
  destruct (poke_ok b 0 d) as (E & Hw & Htl); [apply Hs| |lia|destruct Hs; lia|].
  { apply Forall_app. split; [by apply cstring_u8|done]. }
  rewrite Z.add_0_r in E. rewrite E. eexists. split; [done|].
  assert (∀ b1, wpos b1 = wpos b → buf_wf b1 → tail_of b1 = d → rpos b1 = rpos b → size b1 = size b → mspg b1 = mspg b → readonly b1 = readonly b →
    becomes b 0 r ((f <$> s) ++ [0]) b1) as Hbe.
  { intros b1 Hw1 ?????. constructor; try done; try lia; [|destruct Hs; congruence]. rewrite content_tail, H2, Hw1, H3.
    subst d. replace (Z.to_nat (wpos b - rpos b)) with (length ((f <$> s) ++ [0])) by (rewrite length_app, length_fmap; destruct Hs; unfold zlen in *; simpl; lia).
    rewrite (app_assoc _ [0] rest : _ ++ 0 :: rest = _), take_app_length. done. }
  apply Hbe; autorewrite with buf; try done.
  - by rewrite Z.add_0_r in Hw.
  - rewrite Z.add_0_r in Htl. rewrite Htl, Ht. unfold splice. cbn [take Z.to_nat app]. rewrite drop_ge; [by rewrite app_nil_r|].
    subst d. rewrite !length_app, length_fmap. simpl. lia.
Qed.

Lemma string_tolower_ok : ∃ b', tt_string_tolower b = Ret (TT_SUCCESS tt, b') ∧ becomes b 0 r ((tolower <$> s) ++ [0]) b'.
Proof.
  unfold tt_string_tolower. m_simpl. rewrite (st_ro _ _ _ Hs). apply map_chars_ok. intros c [Hc Hc0]. unfold tolower, cchar, is_u8 in *.
  destruct (_ && _) eqn:E; [|done]. apply andb_true_iff in E as [?%Z.leb_le ?%Z.leb_le]. lia.
Qed.
Lemma string_toupper_ok : ∃ b', tt_string_toupper b = Ret (TT_SUCCESS tt, b') ∧ becomes b 0 r ((toupper <$> s) ++ [0]) b'.
Proof.
  unfold tt_string_toupper. m_simpl. rewrite (st_ro _ _ _ Hs). apply map_chars_ok. intros c [Hc Hc0]. unfold toupper, cchar, is_u8 in *.
  destruct (_ && _) eqn:E; [|done]. apply andb_true_iff in E as [?%Z.leb_le ?%Z.leb_le]. lia.
Qed.
Lemma string_replace_c_ok old new : cchar new → ∃ b',
  tt_string_replace_c old new b = Ret (TT_SUCCESS (s32 (zlen (List.filter (λ c, c =? old) s))), b') ∧
  becomes b 0 r (((λ c, if c =? old then new else c) <$> s) ++ [0]) b'.
Proof.
  intros Hn. unfold tt_string_replace_c. erewrite bind_step by (by eapply string_cstr_ok).
  destruct (map_chars_ok (λ c, if c =? old then new else c)) as (b' & E & Hb).
  { intros c Hc. by destruct (c =? old). }
  erewrite bind_step by exact E. eauto.
Qed.
End change2.

(** *** Trimming blanks *)

Fixpoint drop_blank (s : list Z) : list Z :=
  match s with c :: s' => if c =? 32 then drop_blank s' else s | [] => [] end.
Definition trim_blank (s : list Z) : list Z := rev (drop_blank (rev (drop_blank s))).

Lemma drop_blank_split s : ∃ h, s = h ++ drop_blank s.
Proof.
  induction s as [|c s [h IH]]; [by exists []|]. simpl. destruct (c =? 32); [|by exists []].
  exists (c :: h). by rewrite IH at 1.
Qed.
Lemma drop_blank_head s c u : drop_blank s = c :: u → (c =? 32) = false.
Proof. induction s as [|x s IH]; [done|]. simpl. destruct (x =? 32) eqn:E; [done|]. by intros [= -> _]. Qed.

Section trim.
Context (b : tt_string_t) (s : list Z) (r : Z) (Hs : str b s r).

Lemma begin_loop_ok u : ∀ i fuel, 0 ≤ i ≤ zlen s → drop (Z.to_nat i) s = u → (length u < fuel)%nat →
  begin_loop i fuel b = Ret (TT_SUCCESS (zlen s - zlen (drop_blank u)), b).
Proof.
  induction u as [|c u IH]; intros i fuel Hi Hu Hf; (destruct fuel as [|fuel]; [simpl in Hf; lia|]); cbn [begin_loop]; m_simpl.
  - apply (f_equal length) in Hu. rewrite length_drop in Hu. simpl in Hu. assert (i = zlen s) as -> by (unfold zlen in *; lia).
    rewrite (str_read b s r Hs) by lia. rewrite sub_app_r' by done. change (sub [0] 0 1) with [0]. cbn [nth drop_blank]. change (0 =? 0) with true. cbn [negb andb]. change (zlen (@nil Z)) with 0. do 3 f_equal. lia.
  - assert (s !! Z.to_nat i = Some c) as Hc by (rewrite <- (Nat.add_0_r (Z.to_nat i)), <- lookup_drop, Hu; done).
    pose proof (lookup_lt_Some _ _ _ Hc). replace i with (Z.of_nat (Z.to_nat i)) by lia.
    rewrite (str_read_char b s r Hs _ c) by done. cbn [nth drop_blank].
    assert (c ≠ 0) as Hc0. { pose proof (st_chars _ _ _ Hs) as Hcs. by apply (Forall_lookup_1 _ _ _ _ Hcs Hc). }
    rewrite (proj2 (Z.eqb_neq c 0)) by done. cbn [negb andb]. destruct (c =? 32).
    + apply IH; [unfold zlen; lia| |simpl in Hf; lia]. replace (Z.to_nat (Z.of_nat (Z.to_nat i) + 1)) with (Z.to_nat i + 1)%nat by lia.
      by rewrite <- drop_drop, Hu.
    + do 3 f_equal. apply (f_equal length) in Hu. rewrite length_drop in Hu. unfold zlen. simpl in *. lia.
Qed.

Lemma end_loop_ok h c : (c =? 32) = false → ∀ t rest fuel, s = h ++ c :: t ++ rest → (length t < fuel)%nat →
  end_loop (zlen h) (zlen h + zlen t) fuel b = Ret (TT_SUCCESS (zlen h + zlen (rev (drop_blank (rev (c :: t)))) - 1), b).
Proof.
  intros Hc. induction t as [|x t IH] using rev_ind; intros rest fuel Hst Hf; (destruct fuel as [|fuel]; [simpl in Hf; lia|]); cbn [end_loop].
  - change (zlen []) with 0. rewrite (proj2 (Z.ltb_ge _ _)) by lia. cbn [rev app drop_blank]. rewrite Hc. cbn [rev app].
    m_simpl. do 3 f_equal. unfold zlen. simpl. lia.
  - pose proof (zlen_nonneg h). pose proof (zlen_nonneg t). rewrite zlen_app, zlen_cons. change (zlen []) with 0.
    rewrite (proj2 (Z.ltb_lt _ _)) by lia. m_simpl. rewrite length_app in Hf. simpl in Hf.
    assert (s !! (length h + S (length t))%nat = Some x) as Hx.
    { rewrite Hst, lookup_app_r by lia. replace (length h + S (length t) - length h)%nat with (S (length t)) by lia.
      change (((t ++ [x]) ++ rest) !! length t = Some x). rewrite <- app_assoc, lookup_app_r by lia. by rewrite Nat.sub_diag. }
    replace (zlen h + (zlen t + (1 + 0))) with (Z.of_nat (length h + S (length t))) by (unfold zlen; lia).
    rewrite (str_read_char b s r Hs _ x) by done. cbn [nth].
    change (c :: t ++ [x]) with ((c :: t) ++ [x]). rewrite rev_app_distr. cbn [rev app drop_blank]. destruct (x =? 32).
    + replace (Z.of_nat (length h + S (length t)) - 1) with (zlen h + zlen t) by (unfold zlen; lia).
      apply (IH ([x] ++ rest)); [by rewrite Hst, <- app_assoc|lia].
    + change (rev t ++ [c]) with (rev (c :: t)). cbn [rev]. rewrite rev_app_distr, rev_involutive. cbn [rev app].
      do 3 f_equal. rewrite !zlen_cons, zlen_app, zlen_cons. change (zlen []) with 0. unfold zlen. lia.
Qed.

(** Keeping the [n] characters from the [i]-th on. *)
Lemma keep_ok i n : 0 ≤ i → 0 ≤ n → i + n ≤ zlen s → ∃ b',
  ((if negb (i =? 0) then d ← buf_read (rpos b + i) n; buf_write (rpos b) d else mret tt);;
   buf_write (rpos b + n) [0];; modify (set_wpos (rpos b + (n + 1)))) b = Ret (TT_SUCCESS tt, b') ∧
  becomes b 0 r (sub s i n ++ [0]) b'.
Proof.
  intros Hi Hn Hle. pose proof (str_pos b s r Hs). pose proof (str_zlen b s r Hs) as Hz. destruct Hs as [Hwf Hro Hc Hch Hr].
  set (d := sub s i n). assert (zlen d = n) as Hd by (apply zlen_sub; lia).
  assert (Forall is_u8 d) as Hu by (apply Forall_sub; by apply cstring_u8).
  assert (∃ b1 rest, (if negb (i =? 0) then d ← buf_read (rpos b + i) n; buf_write (rpos b) d else mret tt) b = Ret (TT_SUCCESS tt, b1) ∧
    buf_wf b1 ∧ content b1 = d ++ rest ∧ rpos b1 = rpos b ∧ wpos b1 = wpos b ∧ size b1 = size b ∧ mspg b1 = mspg b ∧ readonly b1 = readonly b)
    as (b1 & rest & E & Hw1 & Hc1 & Hr1 & Hp1 & Hs1 & Hm1 & Ho1).
  { destruct (Z.eqb_spec i 0) as [->|Hi0]; cbn [negb].
    - exists b, (drop (Z.to_nat n) (s ++ [0])). split; [done|]. split; [done|]. split; [|done].
      subst d. rewrite Hc, sub_0. rewrite <- (take_app_le s [0]) by (unfold zlen in *; lia). by rewrite take_drop.
    - erewrite bind_step by (eapply (str_read b s r); [by constructor|lia..]). rewrite sub_app_l by lia. fold d.
      destruct (poke_content b 0 d) as (b1 & E & Hw1 & Hc1 & ?); [done|done|lia|lia|]. rewrite Z.add_0_r in E.
      exists b1. eexists. rewrite E, Hc1. unfold splice. cbn [Z.to_nat take app]. eauto. }
  erewrite bind_step by exact E.
  assert (zlen rest = zlen s + 1 - n) as Hzr.
  { pose proof (wf_content b1 Hw1) as Hl. rewrite Hc1, zlen_app in Hl. lia. }
  destruct (poke_content b1 n [0]) as (b2 & E2 & Hw2 & Hc2 & Hr2 & Hp2 & Hs2 & Hm2 & Ho2);
    [done|by apply u8_one|lia|rewrite Hc1, zlen_app; change (zlen [0]) with 1; lia|].
  rewrite <- Hr1. erewrite bind_step by exact E2. eexists. split; [done|].
  destruct rest as [|x rest]; [change (zlen []) with 0 in Hzr; lia|].
  assert (content b2 = (d ++ [0]) ++ rest) as Hc3.
  { rewrite Hc2, Hc1. unfold splice, zlen in *. replace (Z.to_nat n) with (length d) by lia. rewrite take_app_length.
    rewrite drop_app_add. by rewrite <- app_assoc. }
  rewrite <- Hr2. pose proof (cut_becomes b2 (n + 1) Hw2) as Hb. rewrite Hc3, zlen_app, zlen_app in Hb. change (zlen [0]) with 1 in Hb.
  pose proof (zlen_nonneg rest). specialize (Hb ltac:(lia)).
  replace (Z.to_nat (n + 1)) with (length (d ++ [0])) in Hb by (rewrite length_app; unfold zlen in *; simpl; lia). rewrite take_app_length in Hb.
  destruct Hb. constructor; try done; try congruence; lia.
Qed.

Lemma string_trim_ok : ∃ b', tt_string_trim b = Ret (TT_SUCCESS tt, b') ∧ becomes b 0 r (trim_blank s ++ [0]) b'.
Proof.
  pose proof (str_pos b s r Hs). unfold tt_string_trim. erewrite (bind_step (gets id)) by done. change (id b) with b.
  rewrite (st_ro _ _ _ Hs). erewrite bind_step by (by eapply string_len_ok).
  destruct (Z.eqb_spec (zlen s) 0) as [E0|E0].
  { exists b. split; [done|]. assert (s = []) as Es by by apply zlen_nil_inv. pose proof (becomes_refl b (st_wf _ _ _ Hs)) as Hb.
    rewrite (st_rpos _ _ _ Hs), (st_content _ _ _ Hs) in Hb. rewrite Es in *. done. }
  erewrite bind_step by (apply (begin_loop_ok s); [lia|done|unfold zlen; lia]).
  destruct (drop_blank_split s) as [h Hh]. set (u := drop_blank s) in *.
  assert (zlen s = zlen h + zlen u) as Hzs by (rewrite Hh at 1; by rewrite zlen_app). pose proof (zlen_nonneg h). pose proof (zlen_nonneg u).
  replace (zlen s - zlen u) with (zlen h) by lia. unfold trim_blank. fold u. destruct u as [|c t] eqn:Eu.
  - change (zlen []) with 0 in *. assert (end_loop (zlen h) (zlen s - 1) (S (Z.to_nat (zlen s))) b = Ret (TT_SUCCESS (zlen s - 1), b)) as Ee.
    { cbn [end_loop]. by rewrite (proj2 (Z.ltb_ge _ _)) by lia. }
    erewrite bind_step by exact Ee. cbv zeta. replace (zlen s - 1 - zlen h + 1) with 0 by lia. change (u32 0) with 0. change (u32 (0 + 1)) with (0 + 1).
    rewrite u32_small by (destruct Hs; lia). apply (keep_ok (zlen h) 0); lia.
  - pose proof (drop_blank_head s c t Eu) as Hc. rewrite zlen_cons in *. pose proof (zlen_nonneg t).
    replace (zlen s - 1) with (zlen h + zlen t) by lia.
    erewrite bind_step by (apply (end_loop_ok h c Hc t []); [by rewrite app_nil_r|unfold zlen in *; lia]). cbv zeta.
    set (v := rev (drop_blank (rev (c :: t)))). assert (∃ k, c :: t = v ++ k) as [k Hk].
    { destruct (drop_blank_split (rev (c :: t))) as [k Hk]. exists (rev k). subst v. rewrite <- rev_app_distr, <- Hk. by rewrite rev_involutive. }
    assert (1 + zlen t = zlen v + zlen k) as Hzv by (rewrite <- (zlen_cons c), Hk; by rewrite zlen_app).
    pose proof (zlen_nonneg v). pose proof (zlen_nonneg k).
    replace (zlen h + zlen v - 1 - zlen h + 1) with (zlen v) by lia. rewrite !(u32_small (zlen v)), (u32_small (zlen v + 1)), u32_small by (destruct Hs; lia).
    assert (v = sub s (zlen h) (zlen v)) as Ev.
    { rewrite Hh, Hk, sub_app_r' by done. by rewrite sub_app_len. }
    pose proof (keep_ok (zlen h) (zlen v)) as Hkeep. rewrite <- Ev in Hkeep. apply Hkeep; lia.
Qed.
End trim.

(** *** Replacing a range *)

Section range.
Context `{Allocator} (b : tt_string_t) (s : list Z) (r : Z) (Hs : str b s r) (Hrel : reliable b).

(** Moving what follows the range and storing [d]; the write position follows. *)
Lemma move_store b1 i j d : buf_wf b1 → content b1 = s ++ [0] → Forall is_u8 d → 0 ≤ i ≤ j → j ≤ zlen s →
  wpos b1 + (zlen d - (j - i)) ≤ size b1 → ∃ b3,
  (buf_write (rpos b1 + i + zlen d) (drop (Z.to_nat j) s ++ [0]);; buf_write (rpos b1 + i) d;;
   modify (set_wpos (wpos b1 + (zlen d - (j - i))))) b1 = Ret (TT_SUCCESS tt, b3) ∧
  edited b1 ((take (Z.to_nat i) s ++ d ++ drop (Z.to_nat j) s) ++ [0]) b3.
Proof.
  intros Hw1 Hc1 Hd Hij Hj Hfit. pose proof (zlen_nonneg d). pose proof (wf_pos b1 Hw1). pose proof (wf_content b1 Hw1) as Hl1.
  rewrite Hc1, zlen_app in Hl1. change (zlen [0]) with 1 in Hl1.
  assert (zlen (drop (Z.to_nat j) s ++ [0]) = zlen s - j + 1) as Hdz by (rewrite zlen_app, zlen_drop; change (zlen [0]) with 1; lia).
  destruct (poke_ok b1 (i + zlen d) (drop (Z.to_nat j) s ++ [0])) as (E & Hw & Ht); [done| |lia|lia|].
  { apply Forall_app. split; [|by apply u8_one]. apply Forall_drop, cstring_u8, Hs. }
  rewrite Z.add_assoc in E, Hw, Ht. erewrite bind_step by exact E. set (b2 := set_block _ b1) in *.
  destruct (poke_ok b2 i d) as (E2 & Hw2 & Ht2); [done|done|lia|subst b2; autorewrite with buf; lia|].
  replace (rpos b2) with (rpos b1) in * by (subst b2; by autorewrite with buf).
  erewrite bind_step by exact E2. eexists. split; [done|]. set (b3 := set_block _ b2) in *.
  destruct (tail_content b1 Hw1) as (rest & Hrest & Hzr). rewrite Hc1 in Hrest.
  destruct (splice_replace (s ++ [0]) rest d i j) as (rest' & Es); [lia|rewrite zlen_app; change (zlen [0]) with 1; lia| |].
  { rewrite zlen_app. change (zlen [0]) with 1. lia. }
  rewrite str_slice_drop, str_slice_take in Es by lia. rewrite Ht, Hrest, Es in Ht2. rewrite !app_assoc in Ht2. rewrite <- !app_assoc in Ht2.
  set (u := (take (Z.to_nat i) s ++ d ++ drop (Z.to_nat j) s) ++ [0]).
  assert (zlen u = zlen s + 1 + (zlen d - (j - i))) as Hu.
  { subst u. rewrite !zlen_app, zlen_take, zlen_drop. change (zlen [0]) with 1. lia. }
  replace (wpos b1 + (zlen d - (j - i))) with (rpos b1 + zlen u) by lia.
  eapply edited_wpos with (rest := rest'); [done| |subst b3 b2; by autorewrite with buf..].
  rewrite Ht2. subst u. by rewrite <- !app_assoc.
Qed.

Lemma string_set_range_ok from len c : cstring c → 0 ≤ from → 0 ≤ len → from + len < 2 ^ 32 → room b (zlen c) → ∃ b',
  tt_string_set_range from len c b = Ret (if zlen s <? from + len then TT_ERROR TT_E_BADARG else TT_SUCCESS tt, b') ∧
  if zlen s <? from + len then b' = b else
    becomes b (zlen c) r ((take (Z.to_nat from) s ++ c ++ drop (Z.to_nat (from + len)) s) ++ [0]) b'.
Proof.
  intros Hc Hf Hl Hfl Hroom. pose proof (str_pos b s r Hs). pose proof (str_zlen b s r Hs) as Hz. pose proof (zlen_nonneg c).
  pose proof (st_content _ _ _ Hs) as Hcb. pose proof (st_wf _ _ _ Hs) as Hwf. pose proof (st_rpos _ _ _ Hs) as Hr.
  unfold tt_string_set_range. erewrite bind_step by (by eapply string_len_ok). rewrite u32_small by lia.
  destruct (Z.ltb_spec (zlen s) (from + len)); [by exists b|]. unfold tt_buf_set_range. destruct Hroom as [Hr1 Hr2].
  erewrite (bind_step (gets id)) by done. change (id b) with b. rewrite (u32_small (from + len)) by lia.
  unfold u64. rewrite !Z.mod_small by lia. unfold u32_max. repeat b_step. rewrite (u32_small (rpos b + from)) by lia.
  rewrite (u32_small (rpos b + from + len)) by lia. repeat b_step.
  assert (∀ b1, content b1 = s ++ [0] → buf_wf b1 → buf_read (rpos b1 + from + len) (zlen s + 1 - from - len) b1 = Ret (TT_SUCCESS (drop (Z.to_nat (from + len)) s ++ [0]), b1)) as Hread.
  { intros b1 Hc1 Hw1. rewrite <- Z.add_assoc, buf_read_content by (rewrite ?Hc1, ?zlen_app; change (zlen [0]) with 1; done || lia). do 3 f_equal.
    rewrite Hc1. unfold sub. rewrite take_ge; [by apply str_slice_drop; lia|]. rewrite length_drop, length_app. unfold zlen in *. simpl. lia. }
  destruct (Z.ltb_spec len (zlen c)) as [Hlt|Hge]; [|destruct (Z.eqb_spec len (zlen c)) as [Heq|Hne]].
  - rewrite (u32_small (zlen c - len)) by lia.
    destruct (buf_reserve_spec b (zlen c - len)) as [(b1 & E & [Hw1 Hc1 Hp1 Hrp1 Hm1 Ho1] & Hs1)|[_ Hno]]; [done|apply Hs|lia|split; lia| |done].
    erewrite bind_step by exact E. erewrite (bind_step (gets id)) by done. change (id b1) with b1.
    rewrite (wf_rlen b1 Hw1), <- (wf_content b1 Hw1), Hc1, Hz. rewrite (u32_small (rpos b1 + from)), (u32_small (zlen s + 1 - from - len)), (u32_small (wpos b1 + _)) by lia.
    erewrite bind_step by (apply Hread; [congruence|done]).
    destruct (move_store b1 from (from + len) c) as (b3 & E3 & He); [done|congruence|by apply cstring_u8|lia|lia|lia|].
    exists b3. split; [by replace (wpos b1 + (zlen c - len)) with (wpos b1 + (zlen c - (from + len - from))) by lia|].
    assert (zlen ((take (Z.to_nat from) s ++ c ++ drop (Z.to_nat (from + len)) s) ++ [0]) = zlen s + 1 + (zlen c - len)) as Hu.
    { rewrite !zlen_app, zlen_take, zlen_drop. change (zlen [0]) with 1. lia. }
    destruct He as [? ? ? Hew ? ? ?]. rewrite Hu in Hew. constructor; try done; try congruence; lia.
  - destruct (poke_content b from c) as (b' & E & _); [done|by apply cstring_u8|lia|lia|].
    exists b'. split; [done|]. apply poke_becomes in E; [|done|by apply cstring_u8|lia|lia]. rewrite Hr, Hcb in E.
    enough (splice (s ++ [0]) from c = (take (Z.to_nat from) s ++ c ++ drop (Z.to_nat (from + len)) s) ++ [0]) as <- by (by eapply becomes_weaken).
    unfold splice. rewrite str_slice_take, <- !app_assoc by lia. do 2 f_equal.
    rewrite <- str_slice_drop by lia. f_equal. unfold zlen in *. lia.
  - rewrite (wf_rlen b Hwf), <- (wf_content b Hwf), Hz. rewrite (u32_small (zlen s + 1 - from - len)), (u32_small (len - zlen c)), (u32_small (wpos b - _)) by lia.
    erewrite bind_step by (by apply Hread). replace (wpos b - (len - zlen c)) with (wpos b + (zlen c - (from + len - from))) by lia.
    destruct (move_store b from (from + len) c) as (b3 & E3 & He); [done|done|by apply cstring_u8|lia|lia|lia|].
    exists b3. split; [done|]. rewrite <- Hr. apply edited_becomes; [done|lia| |done].
    rewrite Hz, !zlen_app, zlen_take, zlen_drop. change (zlen [0]) with 1. lia.
Qed.
End range.
