(* ===== verification/StrRun.v ===== *)
(** Strings as sequences of characters: the abstract machine of which
    algorithm/tt_string.h and .c and tt_string_common.h and .c are a refinement,
    and the life of a string. *)

From S2P Require Import Prelude MemSpring Buffer BufferFormat BufCommon SshDef Str StrSpec.

#[local] Open Scope Z_scope.

(** ** The calls *)

Inductive str_op : Type :=
  | SLen | SEmpty | SCstr
  | SGetchar (pos : Z)
  | SCmp (c : list Z) | SNcasecmp (c : list Z)
  | SEqualRange (c : list Z) (from len : Z)
  | SFind (t : list Z) | SFindfrom (from : Z) (t : list Z)
  | SFindC (c : Z) | SFindfromC (from c : Z) | SRfindC (c : Z) | SRfindfromC (from c : Z)
  | SStartwith (t : list Z) | SEndwith (t : list Z)
  | SClear | SSet (c : list Z) | SSetSub (c : list Z) (from len : Z)
  | SSetfrom (from : Z) (c : list Z) | SSetfromC (from c : Z) | SSetRange (from len : Z) (c : list Z)
  | SAppend (c : list Z) | SAppendC (c : Z) | SAppendRep (c n : Z) | SAppendSub (c : list Z) (from len : Z)
  | SInsert (from : Z) (c : list Z) | SInsertC (from c : Z)
  | SRemoveRange (from len : Z) | SRemoveHead (len : Z) | SRemoveTailfrom (from : Z) | SRemoveTail (len : Z)
  | SReplaceC (old new : Z) | STolower | SToupper | STrim.

Inductive str_out : Type :=
  | RNone | RZ (z : Z) | RBool (x : bool) | RChars (l : list Z).

(** The arguments the callers pass: characters, and positions whose sum does not wrap. *)
Definition op_ok (o : str_op) : Prop :=
  match o with
  | SGetchar i | SRemoveHead i | SRemoveTailfrom i | SRemoveTail i => 0 ≤ i
  | SCmp c | SStartwith c | SEndwith c | SSet c | SAppend c => cstring c
  | SNcasecmp c => cstring c ∧ zlen c + 1 < 2 ^ 32
  | SFindfrom i _ | SFindfromC i _ | SRfindfromC i _ => 0 ≤ i
  | SEqualRange c i n => cstring c ∧ 0 ≤ i ∧ 0 ≤ n ∧ i + n < 2 ^ 32
  | SSetSub c i n | SAppendSub c i n => cstring c ∧ zlen c < 2 ^ 32 ∧ 0 ≤ i ∧ 0 ≤ n ∧ i + n < 2 ^ 32
  | SSetRange i n c => cstring c ∧ 0 ≤ i ∧ 0 ≤ n ∧ i + n < 2 ^ 32
  | SSetfrom i c | SInsert i c => cstring c ∧ 0 ≤ i
  | SSetfromC i c | SInsertC i c => cchar c ∧ 0 ≤ i
  | SAppendC c => cchar c
  | SAppendRep c n => cchar c ∧ 0 ≤ n
  | SRemoveRange i n => 0 ≤ i ∧ 0 ≤ n ∧ i + n < 2 ^ 32
  | SReplaceC _ new => cchar new
  | _ => True
  end.

(** How many bytes the call may add. *)
Definition op_cost (o : str_op) : Z :=
  match o with
  | SSet c | SAppend c | SSetSub c _ _ | SAppendSub c _ _ | SSetfrom _ c => zlen c + 1
  | SSetRange _ _ c | SInsert _ c => zlen c
  | SAppendC _ | SInsertC _ _ | SRemoveTailfrom _ | SRemoveTail _ => 1
  | SAppendRep _ n => n + 1
  | _ => 0
  end.
Definition ops_cost (os : list str_op) : Z := foldr (λ o c, op_cost o + c) 0 os.

Section run.
Context `{Allocator}.

Definition out {A} (f : A → str_out) (m : M tt_string_t A) : M tt_string_t str_out := a ← m; mret (f a).
Definition none : unit → str_out := λ _, RNone.

Definition run_str (o : str_op) : M tt_string_t str_out :=
  match o with
  | SLen => out RZ tt_string_len
  | SEmpty => out RBool tt_string_empty
  | SCstr => out RChars tt_string_cstr
  | SGetchar i => out RZ (tt_string_getchar i)
  | SCmp c => out (λ z, RBool (z =? 0)) (tt_string_cmp c)
  | SNcasecmp c => out (λ z, RBool (z =? 0)) (tt_string_ncasecmp c)
  | SEqualRange c i n => out RBool (tt_string_equal_range c i n)
  | SFind t => out RZ (tt_string_find t)
  | SFindfrom i t => out RZ (tt_string_findfrom i t)
  | SFindC c => out RZ (tt_string_find_c c)
  | SFindfromC i c => out RZ (tt_string_findfrom_c i c)
  | SRfindC c => out RZ (tt_string_rfind_c c)
  | SRfindfromC i c => out RZ (tt_string_rfindfrom_c i c)
  | SStartwith t => out RBool (tt_string_startwith t)
  | SEndwith t => out RBool (tt_string_endwith t)
  | SClear => out none tt_string_clear
  | SSet c => out none (tt_string_set c)
  | SSetSub c i n => out none (tt_string_set_sub c i n)
  | SSetfrom i c => out none (tt_string_setfrom i c)
  | SSetfromC i c => out none (tt_string_setfrom_c i c)
  | SSetRange i n c => out none (tt_string_set_range i n c)
  | SAppend c => out none (tt_string_append c)
  | SAppendC c => out none (tt_string_append_c c)
  | SAppendRep c n => out none (tt_string_append_rep c n)
  | SAppendSub c i n => out none (tt_string_append_sub c i n)
  | SInsert i c => out none (tt_string_insert i c)
  | SInsertC i c => out none (tt_string_insert_c i c)
  | SRemoveRange i n => out none (tt_string_remove_range i n)
  | SRemoveHead n => out none (tt_string_remove_head n)
  | SRemoveTailfrom i => out none (tt_string_remove_tailfrom i)
  | SRemoveTail n => out none (tt_string_remove_tail n)
  | SReplaceC old new => out RZ (tt_string_replace_c old new)
  | STolower => out none tt_string_tolower
  | SToupper => out none tt_string_toupper
  | STrim => out none tt_string_trim
  end.

(** The results of a sequence of calls, errors included. *)
Fixpoint run_strs (os : list str_op) : M tt_string_t (list (result str_out)) :=
  match os with
  | [] => mret []
  | o :: os => x ← try (run_str o); l ← run_strs os; mret (x :: l)
  end.

(** ** The abstract machine *)

(** Its state: the characters, and how many bytes were removed at the head since
    the string was last cleared or set; while that is not 0, the code inserts
    nothing and removes no ranges. *)
Definition str_st : Type := list Z * Z.

Definition keep (x : str_out) (st : str_st) : result str_out * str_st := (TT_SUCCESS x, st).
Definition only_if (ok : bool) (e : tt_err) (s' : list Z) (st : str_st) : result str_out * str_st :=
  if ok then (TT_SUCCESS RNone, (s', snd st)) else (TT_ERROR e, st).

Definition str_step (o : str_op) (st : str_st) : result str_out * str_st :=
  let '(s, r) := st in
  let to (s' : list Z) := (TT_SUCCESS RNone, (s', r)) in
  let upto (i : Z) (l : list Z) := take (Z.to_nat i) l in
  let past (i : Z) (l : list Z) := drop (Z.to_nat i) l in
  match o with
  | SLen => keep (RZ (zlen s)) st
  | SEmpty => keep (RBool (bool_decide (s = []))) st
  | SCstr => keep (RChars s) st
  | SGetchar i => keep (RZ (nth (Z.to_nat i) s 0)) st
  | SCmp c => keep (RBool (bool_decide (s = c))) st
  | SNcasecmp c => keep (RBool (bool_decide (Forall2 same_letter s c))) st
  | SEqualRange c i n => keep (RBool (bool_decide (i + n ≤ zlen s ∧ i + n ≤ zlen c ∧ sub s i n = sub c i n))) st
  | SFind t => keep (RZ (find_spec s t)) st
  | SFindfrom i t => keep (RZ (findfrom_spec s i (λ u, strstr u t))) st
  | SFindC c => keep (RZ (default TT_POS_NULL (strchr s c))) st
  | SFindfromC i c => keep (RZ (findfrom_spec s i (λ u, strchr u c))) st
  | SRfindC c => keep (RZ (default TT_POS_NULL (strrchr s c))) st
  | SRfindfromC i c => keep (RZ (rfindfrom_spec s i c)) st
  | SStartwith t => keep (RBool (bool_decide (t `prefix_of` s))) st
  | SEndwith t => keep (RBool (bool_decide (t `suffix_of` s))) st
  | SClear => keep RNone ([], 0)
  | SSet c => keep RNone (c, 0)
  | SSetSub c i n => if zlen c <? i then (TT_ERROR TT_FAIL, st) else keep RNone (upto n (past i c), 0)
  | SSetfrom i c => only_if (i <=? zlen s) TT_FAIL (upto i s ++ c) st
  | SSetfromC i c => only_if (i <? zlen s) TT_FAIL (<[Z.to_nat i := c]> s) st
  | SSetRange i n c => only_if (i + n <=? zlen s) TT_E_BADARG (upto i s ++ c ++ past (i + n) s) st
  | SAppend c => to (s ++ c)
  | SAppendC c => to (s ++ [c])
  | SAppendRep c n => to (s ++ replicate (Z.to_nat n) c)
  | SAppendSub c i n => only_if (i <=? zlen c) TT_FAIL (s ++ upto n (past i c)) st
  | SInsert i c => only_if (r =? 0) TT_FAIL (upto i s ++ c ++ past i s) st
  | SInsertC i c => only_if (r =? 0) TT_FAIL (upto i s ++ [c] ++ past i s) st
  | SRemoveRange i n => to (if r =? 0 then upto i s ++ past (i + n) s else s)
  | SRemoveHead n => keep RNone (past n s, r + Z.min n (zlen s))
  | SRemoveTailfrom i => to (upto i s)
  | SRemoveTail n => to (upto (zlen s - n) s)
  | SReplaceC old new =>
      (TT_SUCCESS (RZ (s32 (zlen (List.filter (λ c, c =? old) s)))), ((λ c, if c =? old then new else c) <$> s, r))
  | STolower => to (tolower <$> s)
  | SToupper => to (toupper <$> s)
  | STrim => to (trim_blank s)
  end.

Fixpoint str_steps (os : list str_op) (st : str_st) : list (result str_out) * str_st :=
  match os with
  | [] => ([], st)
  | o :: os => let '(x, st) := str_step o st in let '(l, st) := str_steps os st in (x :: l, st)
  end.
End run.

(** ** Refinement *)

Section refines.
Context `{Allocator}.

(** The call [o] does to the string at [b] what the machine does, and leaves room
    for [n] more bytes. *)
Definition does (o : str_op) (b : tt_string_t) (s : list Z) (r n : Z) : Prop :=
  ∃ b', run_str o b = Ret ((str_step o (s, r)).1, b') ∧
    str b' (str_step o (s, r)).2.1 (str_step o (s, r)).2.2 ∧ reliable b' ∧ room b' n.

Lemma out_step {A} f (m : M tt_string_t A) b a b' : m b = Ret (TT_SUCCESS a, b') → out f m b = Ret (TT_SUCCESS (f a), b').
Proof. intros E. unfold out. by erewrite bind_step. Qed.
Lemma out_error {A} f (m : M tt_string_t A) b e b' : m b = Ret (TT_ERROR e, b') → out f m b = Ret (TT_ERROR e, b').
Proof. intros E. unfold out. by erewrite bind_error. Qed.

Section one.
Context (o : str_op) (b : tt_string_t) (s : list Z) (r n : Z).
Context (Hs : str b s r) (Hrel : reliable b) (Hc : 0 ≤ op_cost o) (Hn : 0 ≤ n) (Hroom : room b (op_cost o + n)).

Lemma op_room : room b n.
Proof. eapply room_weaken; [|exact Hroom]. lia. Qed.

Lemma stays_does x : run_str o b = Ret (x, b) → str_step o (s, r) = (x, (s, r)) → does o b s r n.
Proof. intros E Es. exists b. rewrite Es. split; [done|]. split; [done|]. split; [done|apply op_room]. Qed.

Lemma changes_does x b' s' r' : run_str o b = Ret (x, b') → becomes b (op_cost o) r' (s' ++ [0]) b' → cstring s' →
  str_step o (s, r) = (x, (s', r')) → does o b s r n.
Proof.
  intros E Hb Hs' Es. exists b'. rewrite Es. split; [done|]. split; [eapply becomes_str; [done|apply Hs|done]|]. split.
  - unfold reliable in *. by rewrite (be_mspg _ _ _ _ _ Hb).
  - exact (becomes_room _ _ _ _ _ _ Hc Hn Hroom Hb).
Qed.

(** The common shapes of the lemmas on operations. *)
Lemma done_does m s' r' : run_str o = out none m →
  (∃ b', m b = Ret (TT_SUCCESS tt, b') ∧ becomes b (op_cost o) r' (s' ++ [0]) b') → cstring s' →
  str_step o (s, r) = (TT_SUCCESS RNone, (s', r')) → does o b s r n.
Proof. intros Er (b' & E & Hb) Hs' Es. eapply changes_does; [|done..]. rewrite Er. exact (out_step none _ _ tt _ E). Qed.

Lemma checked_does m (bad : bool) e s' r' : run_str o = out none m →
  (∃ b', m b = Ret (if bad then TT_ERROR e else TT_SUCCESS tt, b') ∧
    if bad then b' = b else becomes b (op_cost o) r' (s' ++ [0]) b') → cstring s' →
  str_step o (s, r) = (if bad then (TT_ERROR e, (s, r)) else (TT_SUCCESS RNone, (s', r'))) → does o b s r n.
Proof.
  intros Er (b' & E & Hb) Hs' Es. destruct bad; subst.
  - eapply stays_does; [|done]. rewrite Er. by apply out_error.
  - eapply changes_does; [|done..]. rewrite Er. exact (out_step none _ _ tt _ E).
Qed.
End one.

Lemma only_if_ltb i n e s' st : only_if (i <=? n) e s' st = if n <? i then (TT_ERROR e, st) else (TT_SUCCESS RNone, (s', st.2)).
Proof. unfold only_if. destruct (Z.leb_spec i n), (Z.ltb_spec n i); done || lia. Qed.

Lemma cchar_lower c : cchar c → cchar (tolower c).
Proof.
  intros [Hc Hc0]. unfold tolower, cchar, is_u8 in *. destruct (_ && _) eqn:E; [|done].
  apply andb_true_iff in E as [?%Z.leb_le ?%Z.leb_le]. lia.
Qed.
Lemma cchar_upper c : cchar c → cchar (toupper c).
Proof.
  intros [Hc Hc0]. unfold toupper, cchar, is_u8 in *. destruct (_ && _) eqn:E; [|done].
  apply andb_true_iff in E as [?%Z.leb_le ?%Z.leb_le]. lia.
Qed.
Lemma cstring_trim s : cstring s → cstring (trim_blank s).
Proof.
  assert (∀ u, cstring u → cstring (drop_blank u)) as Hd.
  { intros u Hu. destruct (drop_blank_split u) as [h E]. rewrite E in Hu. by apply Forall_app in Hu as [_ Hu]. }
  intros Hs. unfold trim_blank. by apply Forall_rev, Hd, Forall_rev, Hd.
Qed.
Lemma cstring_fmap f s : cstring s → (∀ c, cchar c → cchar (f c)) → cstring (f <$> s).
Proof. intros Hs Hf. apply Forall_fmap. exact (Forall_impl _ Hf Hs). Qed.
Lemma cstring_app s t : cstring s → cstring t → cstring (s ++ t).
Proof. intros. by apply Forall_app. Qed.
End refines.

Create HintDb cstr.
#[local] Hint Resolve cstring_app Forall_take Forall_drop Forall_replicate cstring_trim cchar_lower cchar_upper
  Forall_cons_2 Forall_nil_2 Forall_insert : cstr.

Section refines2.
Context `{Allocator}.

(** Nothing of the string changes when it is looked at. *)
Definition looks (o : str_op) : bool :=
  match o with
  | SLen | SEmpty | SCstr | SGetchar _ | SCmp _ | SNcasecmp _ | SEqualRange _ _ _ | SFind _ | SFindfrom _ _
  | SFindC _ | SFindfromC _ _ | SRfindC _ | SRfindfromC _ _ | SStartwith _ | SEndwith _ => true
  | _ => false
  end.

Lemma zero_decides (z : Z) (P : Prop) `{!Decision P} : (z = 0 ↔ P) → (z =? 0) = bool_decide P.
Proof. intros HP. destruct (Z.eqb_spec z 0); symmetry; [by apply bool_decide_true, HP|by apply bool_decide_false; rewrite <- HP]. Qed.

Lemma look_does o b s r : looks o = true → op_ok o → str b s r →
  ∃ x, run_str o b = Ret (x, b) ∧ str_step o (s, r) = (x, (s, r)).
Proof.
  intros Hl Hok Hs. destruct o; try discriminate Hl; cbn in Hok; eexists; (split; [|reflexivity]).
  - by eapply out_step, string_len_ok.
  - by eapply out_step, string_empty_ok.
  - by eapply out_step, string_cstr_ok.
  - by eapply out_step, getchar_ok.
  - destruct (str_cmp_ok b s r Hs c Hok) as (z & E & Hz). unfold run_str. by rewrite (out_step _ _ _ _ _ E), (zero_decides z (s = c)).
  - destruct Hok. destruct (ncasecmp_ok b s r c) as (z & E & Hz); [done..|]. unfold run_str.
    by rewrite (out_step _ _ _ _ _ E), (zero_decides z (Forall2 same_letter s c)).
  - destruct Hok as (? & ? & ? & ?). by eapply out_step, equal_range_ok.
  - by eapply out_step, find_ok.
  - by eapply out_step, findfrom_ok.
  - by eapply out_step, find_c_ok.
  - by eapply out_step, findfrom_c_ok.
  - by eapply out_step, rfind_c_ok.
  - by eapply out_step, rfindfrom_c_ok.
  - by eapply out_step, str_startwith_ok.
  - by eapply out_step, str_endwith_ok.
Qed.

Lemma cost_nonneg o : op_ok o → 0 ≤ op_cost o.
Proof. destruct o; cbn; intros; try lia; pose proof (zlen_nonneg c); lia. Qed.

Lemma op_does o b s r n : str b s r → reliable b → op_ok o → 0 ≤ n → room b (op_cost o + n) → does o b s r n.
Proof.
  intros Hs Hrel Hok Hn Hroom. pose proof (cost_nonneg o Hok) as Hc.
  destruct (looks o) eqn:El.
  { destruct (look_does o b s r) as (x & E & Es); [done..|]. by eapply stays_does. }
  assert (room b (op_cost o)) as Hro by (eapply room_weaken; [|exact Hroom]; lia).
  pose proof (st_chars _ _ _ Hs) as Hch.
  destruct o; try discriminate El; cbn in Hok, Hro.
  - eapply done_does with (s' := []); [done..|by eapply string_clear_ok|by constructor|done].
  - eapply done_does; [done..|by eapply string_set_ok|done|done].
  - destruct Hok as (? & ? & ? & ? & ?). eapply checked_does; [done..|by apply string_set_sub_ok with (s := s) (r := r)|auto with cstr|].
    cbn. by destruct (zlen c <? from).
  - destruct Hok. eapply checked_does; [done..|by apply string_setfrom_ok with (s := s)|auto with cstr|].
    cbn. apply only_if_ltb.
  - destruct Hok as [Hc0 Hf]. destruct (string_setfrom_c_ok b s r Hs from c Hc0 Hf) as (b' & E & Hb). cbn.
    destruct (Z.leb_spec (zlen s) from) as [Hz|Hz].
    + rewrite list_insert_ge in Hb by (unfold zlen in *; lia). eapply changes_does; [done..|by apply out_error|exact Hb|done|].
      cbn. unfold only_if. rewrite (proj2 (Z.ltb_ge _ _)) by lia. done.
    + eapply changes_does; [done..|exact (out_step none _ _ tt _ E)|exact Hb|auto with cstr|]. cbn. unfold only_if. by rewrite (proj2 (Z.ltb_lt _ _)) by lia.
  - destruct Hok as (? & ? & ? & ?). eapply checked_does; [done..|by apply string_set_range_ok with (s := s)|auto with cstr|].
    cbn. apply only_if_ltb.
  - eapply done_does; [done..|by eapply string_append_ok|auto with cstr|done].
  - eapply done_does; [done..|by eapply string_append_c_ok|auto with cstr|done].
  - destruct Hok. eapply done_does; [done..|by eapply string_append_rep_ok|auto with cstr|done].
  - destruct Hok as (? & ? & ? & ? & ?). eapply checked_does; [done..|by apply string_append_sub_ok with (s := s)|auto with cstr|].
    cbn. apply only_if_ltb.
  - destruct Hok as [Hc0 Hf]. destruct (str_pos b s r Hs) as (_ & Hr & _). destruct (Z.eqb_spec r 0) as [Hr0|Hr0].
    + eapply done_does; [done..|eapply string_insert_ok; try done; by apply cstring_u8|auto with cstr|]. cbn. by rewrite Hr0.
    + eapply stays_does; [done..|apply out_error; eapply string_insert_refused; [done|lia|done]|].
      cbn. unfold only_if. by rewrite (proj2 (Z.eqb_neq r 0)).
  - destruct Hok as [Hc0 Hf]. destruct (str_pos b s r Hs) as (_ & Hr & _). destruct (Z.eqb_spec r 0) as [Hr0|Hr0].
    + eapply done_does; [done..|rewrite insert_c_insert by done; eapply string_insert_ok; try done; by apply u8_one, Hc0|auto 6 with cstr|].
      cbn. by rewrite Hr0.
    + eapply stays_does; [done..|apply out_error; rewrite insert_c_insert by done; eapply string_insert_refused; [done|lia|done]|].
      cbn. unfold only_if. by rewrite (proj2 (Z.eqb_neq r 0)).
  - destruct Hok as (? & ? & ?). destruct (str_pos b s r Hs) as (_ & Hr & _). destruct (Z.eqb_spec r 0) as [Hr0|Hr0].
    + eapply done_does; [done..|by eapply string_remove_range_ok|auto with cstr|]. cbn. by rewrite Hr0.
    + eapply stays_does; [done..|apply (out_step _ _ _ tt); eapply string_remove_range_refused; [done|lia|done..]|].
      cbn. by rewrite (proj2 (Z.eqb_neq r 0)).
  - eapply done_does; [done..|by eapply string_remove_headto_ok|auto with cstr|done].
  - eapply done_does; [done..|by eapply string_remove_tailfrom_ok|auto with cstr|done].
  - pose proof (str_pos b s r Hs) as Hp. eapply (done_does _ b s r n) with (m := tt_string_remove_tail len); [done..| |apply Forall_take, Hch|done].
    unfold tt_string_remove_tail. erewrite bind_step by (by eapply string_len_ok).
    assert (take (Z.to_nat (zlen s - len)) s = take (Z.to_nat (if len <=? zlen s then u32 (zlen s - len) else 0)) s) as ->.
    { destruct (Z.leb_spec len (zlen s)); [by rewrite u32_small by lia|]. by replace (Z.to_nat (zlen s - len)) with 0%nat by lia. }
    eapply string_remove_tailfrom_ok; [done..| |done]. destruct (len <=? zlen s); [apply u32_range|done].
  - destruct (string_replace_c_ok b s r Hs old new Hok) as (b' & E & Hb).
    eapply changes_does; [done..|by apply out_step|exact Hb| |done]. apply cstring_fmap; [done|]. intros c Hc'. by destruct (c =? old).
  - eapply done_does; [done..|by eapply string_tolower_ok|apply cstring_fmap; auto with cstr|done].
  - eapply done_does; [done..|by eapply string_toupper_ok|apply cstring_fmap; auto with cstr|done].
  - eapply done_does; [done..|by eapply string_trim_ok|auto with cstr|done].
Qed.
End refines2.

(** ** The life of a string *)

Section life.
Context `{Allocator}.

Definition attr_of (attr : option tt_buf_attr_t) : tt_buf_attr_t := default tt_string_attr_default attr.

(** An empty buffer of [n] bytes. *)
Lemma buf_create_ok n a : attr_wf a → attr_max_limit a = 0 → malloc_total → 0 ≤ n → n + attr_max_extend a < 2 ^ 32 →
  ∃ b, tt_buf_create n (Some a) = Ret (TT_SUCCESS b) ∧ buf_wf b ∧ readonly b = false ∧ content b = [] ∧
    rpos b = 0 ∧ wpos b = 0 ∧ size b ≤ Z.max TT_BUF_INIT_SIZE (n + attr_max_extend a) ∧
    mspg b = mk_memspg (attr_min_extend a) (attr_max_extend a) (attr_max_limit a).
Proof.
  intros Ha Hl Hm Hn Hle. unfold TT_BUF_INIT_SIZE in *. destruct (Z.ltb_spec n 16) as [Hlt|Hge].
  - destruct (buf_init_ok (Some a)) as (b & E & Hwf & Hro & Hc & Hs & Hr & Hw & Hms); [done|].
    exists b. split; [|split_and!; try done; unfold TT_BUF_INIT_SIZE in *; lia]. rewrite <- E. unfold tt_buf_init, tt_buf_create, TT_BUF_INIT_SIZE.
    cbv zeta. cbn [default from_option id]. rewrite memspg_init_ok by done. cbn [exec_bind]. by rewrite (proj2 (Z.ltb_lt _ _)) by lia.
  - unfold tt_buf_create, TT_BUF_INIT_SIZE. cbv zeta. cbn [default from_option id]. rewrite memspg_init_ok by done. cbn [exec_bind].
    rewrite (proj2 (Z.ltb_ge _ _)) by lia. unfold tt_memspg_extend, tt_memspg_extend_ex. rewrite (proj2 (Z.ltb_lt 0 n)) by lia. cbn [negb].
    destruct Ha as (H1 & H2 & H3 & H4). cbn in H1, H2, H3, H4.
    destruct (extend_size_spec (mk_memspg (attr_min_extend a) (attr_max_extend a) (attr_max_limit a)) 0 n) as (r & -> & Hr);
      [by split_and!|lia|lia|lia|]. cbn in Hr. destruct r as [k|]; [|lia]. cbn [exec_bind]. destruct (Hm k) as [np Hnp]. rewrite Hnp. cbn [exec_bind].
    pose proof (malloc_bytes _ _ Hnp) as Hb. pose proof (malloc_zlen _ _ Hnp). eexists. split; [done|].
    split; [|unfold content; cbn; split_and!; try done; lia]. constructor; cbn; try done; try lia.
    split; [done|]. by repeat constructor.
Qed.

Lemma create_copy_ok d a : attr_wf a → attr_max_limit a = 0 → malloc_total → Forall is_u8 d → 4 * zlen d + 2 * attr_max_extend a + 16 < 2 ^ 32 →
  ∃ b, tt_buf_create_copy d (Some a) = Ret (TT_SUCCESS b) ∧ buf_wf b ∧ readonly b = false ∧ content b = d ∧ rpos b = 0 ∧ wpos b = zlen d ∧
    mspg b = mk_memspg (attr_min_extend a) (attr_max_extend a) (attr_max_limit a) ∧ size b ≤ 2 * zlen d + 2 * attr_max_extend a + 16.
Proof.
  intros Ha Hl Hm Hd Hle. pose proof (zlen_nonneg d). unfold tt_buf_create_copy.
  assert (0 < attr_max_extend a) as Hmax by (destruct Ha as (? & ? & ? & ?); cbn in *; lia).
  destruct (buf_create_ok (zlen d) a) as (b & -> & Hwf & Hro & Hc & Hr & Hw & Hs & Hms); [done..|lia|]. cbn [exec_bind].
  unfold TT_BUF_INIT_SIZE in Hs. assert (room b (zlen d)) as Hroom by (split; rewrite ?Hms, ?Hw; cbn; lia).
  destruct (buf_put_spec b d) as [(b' & E & Ha')|[_ Hrel]]; [done..| |destruct Hrel; unfold reliable; by rewrite Hms].
  rewrite E. cbn [exec_bind]. exists b'. split; [done|]. apply appended_becomes in Ha'. rewrite Hc, Hr in Ha'. destruct Ha' as [Hwf' Hc' Hr' Hw' Hs' Hm' Ho'].
  pose proof (wf_content b' Hwf') as Hz. rewrite Hc' in Hz. cbn [app] in *. split_and!; try done; try congruence; [lia|].
  rewrite Hms, Hw in Hs'. cbn in Hs'. lia.
Qed.

(** A new string holds the characters given, with room for more. *)
Lemma string_create_ok c attr n : attr_wf (attr_of attr) → attr_max_limit (attr_of attr) = 0 → malloc_total → cstring c → 0 ≤ n →
  8 * (zlen c + 1) + 4 * n + 4 * attr_max_extend (attr_of attr) + 16 < 2 ^ 32 →
  ∃ b, tt_string_create c attr = Ret (TT_SUCCESS b) ∧ str b c 0 ∧ reliable b ∧ room b n.
Proof.
  intros Ha Hl Hm Hc Hn Hle. pose proof (zlen_nonneg c).
  assert (0 < attr_max_extend (attr_of attr)) by (destruct Ha as (? & ? & ? & ?); cbn in *; lia).
  assert (zlen (c ++ [0]) = zlen c + 1) as Hz by by rewrite zlen_app.
  destruct (create_copy_ok (c ++ [0]) (attr_of attr)) as (b & E & ? & ? & ? & ? & ? & Hms & ?); [done..|by apply cstr_u8|lia|].
  unfold tt_string_create. fold (attr_of attr). rewrite E. cbn [exec_bind]. exists b. split; [done|]. split; [by constructor|].
  unfold reliable, room. rewrite Hms. cbn. split; [done|]. lia.
Qed.

(** Writing what the block has space for needs no memory. *)
Lemma put_fits b d : buf_wf b → readonly b = false → d ≠ [] → Forall is_u8 d → wpos b + zlen d ≤ size b →
  tt_buf_put d b = Ret (TT_SUCCESS tt, set_wpos (u32 (wpos b + zlen d)) (set_block (splice (blk b) (wpos b) d) b)).
Proof.
  intros Hwf Hro Hne Hd Hfit. destruct (buf_store_spec b d) as (E & [Hwf' _ _ _ _ _ _]); [done..|].
  pose proof (wf_pos b Hwf). pose proof (wf_size b Hwf). pose proof (zlen_nonneg d).
  unfold tt_buf_put, tt_buf_reserve, TT_BUF_WLEN. m_simpl. rewrite Hro.
  destruct (Z.eqb_spec (zlen d) 0) as [E0|_]; [by apply zlen_nil_inv in E0|]. m_simpl. rewrite u32_small by lia. b_step. m_simpl.
  rewrite E. m_simpl. apply (wf_check _ Hwf').
Qed.

(** The initialisation needs no memory. *)
Lemma string_init_ok attr : attr_wf (attr_of attr) → ∃ b, tt_string_init attr = Ret b ∧ str b [] 0 ∧
  mspg b = mk_memspg (attr_min_extend (attr_of attr)) (attr_max_extend (attr_of attr)) (attr_max_limit (attr_of attr)) ∧ size b = TT_BUF_INIT_SIZE.
Proof.
  intros Ha. destruct (buf_init_ok (Some (attr_of attr)) Ha) as (b & E & Hwf & Hro & Hc & Hs & Hr & Hw & Hms).
  unfold tt_string_init, tt_string_create, tt_buf_create_copy. fold (attr_of attr). change (zlen ([] ++ [0])) with 1.
  change (tt_buf_create 1 (Some (attr_of attr))) with (tt_buf_init (Some (attr_of attr))). rewrite E. cbn [exec_bind].
  rewrite put_fits; [|done|done|done|by apply u8_one|by rewrite Hw, Hs]. cbn [exec_bind]. eexists. split; [done|].
  destruct (buf_store_spec b [0]) as (_ & [Hwf' Hc' _ Hr' _ Hro' _]); [done|by apply u8_one|by rewrite Hw, Hs|].
  assert (∀ w l, mspg (set_wpos w (set_block l b)) = mspg b ∧ size (set_wpos w (set_block l b)) = size b) as Hkeep.
  { intros w l. unfold set_wpos. cbn. by autorewrite with buf. }
  split; [|split; [by rewrite (proj1 (Hkeep _ _))|by rewrite (proj2 (Hkeep _ _))]]. constructor; [done|exact (eq_trans Hro' Hro)|refine (eq_trans Hc' _); by rewrite Hc|by constructor|exact (eq_trans Hr' Hr)].
Qed.

Lemma string_init_room attr n : attr_wf (attr_of attr) → attr_max_limit (attr_of attr) = 0 → malloc_total → 0 ≤ n →
  20 + 3 * n + attr_max_extend (attr_of attr) < 2 ^ 32 → ∃ b, tt_string_init attr = Ret b ∧ str b [] 0 ∧ reliable b ∧ room b n.
Proof.
  intros Ha Hl Hm Hn Hle. destruct (string_init_ok attr Ha) as (b & E & Hs & Hms & Hsz). exists b. split; [done|]. split; [done|].
  pose proof (str_pos b [] 0 Hs). change (zlen []) with 0 in *. unfold reliable, room. rewrite Hms, Hsz. cbn. split; [done|]. unfold TT_BUF_INIT_SIZE.
  destruct Ha as (? & ? & ? & ?). cbn in *. lia.
Qed.

(** A string over the caller's bytes can be looked at. *)
Lemma string_nocopy_ok c attr : attr_wf (attr_of attr) → cstring c → zlen c + 1 < 2 ^ 32 →
  ∃ b, tt_string_create_nocopy c attr = Ret (TT_SUCCESS b) ∧ buf_wf b ∧ content b = c ++ [0] ∧ readonly b = true ∧ rpos b = 0.
Proof.
  intros Ha Hc Hl. assert (zlen (c ++ [0]) = zlen c + 1) as Hz by by rewrite zlen_app.
  destruct (buf_create_nocopy_ok (c ++ [0]) (Some (attr_of attr))) as (b & E & ? & ? & ? & ? & _); [done|by apply cstr_u8|lia|].
  exists b. by split_and!.
Qed.

(** Part of a C string as a new string. *)
Lemma string_create_sub_ok c from len attr n : attr_wf (attr_of attr) → attr_max_limit (attr_of attr) = 0 → malloc_total → cstring c →
  0 ≤ from → 0 ≤ len → from + len < 2 ^ 32 → 0 ≤ n → 8 * (zlen c + 1) + 4 * n + 4 * attr_max_extend (attr_of attr) + 16 < 2 ^ 31 →
  if zlen c <? from then tt_string_create_sub c from len attr = Ret (TT_ERROR TT_FAIL)
  else ∃ b, tt_string_create_sub c from len attr = Ret (TT_SUCCESS b) ∧ str b (take (Z.to_nat len) (drop (Z.to_nat from) c)) 0 ∧ reliable b.
Proof.
  intros Ha Hl Hm Hc Hf Hlen Hfl Hn Hle. pose proof (zlen_nonneg c). unfold tt_string_create_sub.
  destruct (Z.ltb_spec (zlen c) from) as [|Hfc]; [done|]. cbv zeta.
  assert (0 < attr_max_extend (attr_of attr)) by (destruct Ha as (? & ? & ? & ?); cbn in *; lia).
  rewrite clip by lia. cbn [exec_bind]. pose proof (zlen_clip c from len) as Hz. set (d := take _ _) in *.
  assert (cstring d) as Hd by by apply Forall_take, Forall_drop. pose proof (zlen_nonneg d).
  destruct (create_copy_ok d (attr_of attr)) as (b & E & Hwf & Hro & Hc' & Hr & Hw & Hms & Hs); [done..|by apply cstring_u8|lia|].
  fold (attr_of attr). rewrite E. cbn [exec_bind].
  destruct (buf_put_spec b [0]) as [(b' & E' & [Hwf' Hct Hwp Hrp Hms' Hro' _])|[_ Hrel]]; [done|done|by apply u8_one| | |].
  - unfold room. rewrite Hms. cbn [max_extend]. change (zlen [0]) with 1. lia.
  - unfold tt_buf_put_u8. rewrite E'. cbn [exec_bind]. exists b'. split; [done|]. split.
    + constructor; try done; congruence.
    + unfold reliable. by rewrite Hms', Hms.
  - destruct Hrel. unfold reliable. by rewrite Hms.
Qed.

(** One string into another. *)
Lemma string_copy_ok dst src s s' r r' : str dst s' r' → str src s r → reliable dst → room dst (zlen s + 1) →
  ∃ b, tt_string_copy dst src = Ret (TT_SUCCESS tt, b) ∧ str b s 0.
Proof.
  intros Hd Hs Hrel Hroom. pose proof (str_zlen src s r Hs) as Hz.
  destruct (buf_copy_ok dst src) as [(b & E & Hb)|(? & _ & _ & Hn)]; [apply Hd|apply Hs|apply Hd|by rewrite Hz| |done].
  exists b. split; [done|]. rewrite (st_content _ _ _ Hs) in Hb. eapply becomes_str; [done|apply Hd|apply Hs].
Qed.
Lemma string_swap_ok a b s t r q : str a s r → str b t q →
  ∃ a' b', tt_string_swap a b = Ret (a', b') ∧ str a' t q ∧ str b' s r.
Proof.
  intros Ha Hb. destruct (buf_swap_ok a b) as (a' & b' & E & ? & ? & Ec & Ec' & ? & ? & ? & ?); [apply Ha|apply Hb|apply Ha|apply Hb|].
  exists a', b'. split; [done|]. rewrite (st_content _ _ _ Hb) in Ec. rewrite (st_content _ _ _ Ha) in Ec'.
  destruct Ha, Hb. split; constructor; try done; congruence.
Qed.

(** A range of one string as another; the range is cut at the end. *)
Lemma string_substr_ok b s r dst u q from len : str b s r → str dst u q → reliable dst → 0 ≤ from → 0 ≤ len → room dst (zlen s + 1) →
  ∃ dst', tt_string_substr b from len dst = Ret (if zlen s <? from then TT_ERROR TT_FAIL else TT_SUCCESS tt, dst') ∧
    if zlen s <? from then dst' = dst else str dst' (take (Z.to_nat len) (drop (Z.to_nat from) s)) 0.
Proof.
  intros Hs Hd Hrel Hf Hl Hroom. pose proof (str_pos b s r Hs) as Hp. unfold tt_string_substr.
  rewrite (subcstr_ok b s r Hs from Hf). cbn [exec_bind].
  destruct (Z.leb_spec from (zlen s)) as [Hle|Hgt]; [rewrite (proj2 (Z.ltb_ge (zlen s) from)) by lia|rewrite (proj2 (Z.ltb_lt (zlen s) from)) by lia; by exists dst].
  set (n := if _ <? _ then _ else _). assert (n = Z.min len (zlen s - from)) as Hn by (subst n; destruct (Z.ltb_spec (zlen s - from) len); lia).
  pose proof (str_zlen b s r Hs) as Hz. rewrite buf_at_content by (first [apply Hs|lia]). cbn [exec_bind].
  rewrite (st_content _ _ _ Hs), sub_app_l by lia.
  assert (sub s from n = take (Z.to_nat len) (drop (Z.to_nat from) s)) as ->.
  { unfold sub. rewrite Hn. destruct (Z.min_spec len (zlen s - from)) as [[? ->]|[? ->]]; [done|].
    rewrite !take_ge; [done|rewrite length_drop; unfold zlen in *; lia..]. }
  pose proof (zlen_clip s from len) as Hzc. set (d := take _ (drop _ s)) in *. pose proof (zlen_nonneg d).
  assert (cstring d) as Hcd by apply Forall_take, Forall_drop, (st_chars _ _ _ Hs).
  destruct (clear_becomes dst (st_wf _ _ _ Hd)) as (b1 & E & Hb1). rewrite (bind_step _ _ _ _ _ E).
  destruct (put_two dst u q Hd Hrel b1 0 0 [] d) as (b2 & E2 & Hb2); try done; [by apply cstring_u8|eapply room_weaken; [|exact Hroom]; lia|].
  exists b2. split; [exact E2|]. eapply becomes_str; [exact Hb2|apply Hd|done].
Qed.
End life.

(** ** Any sequence of calls *)


