(* ===== verification/DateFormat.v ===== *)
(** Dates as text (time/tt_date_format.h and .c, the tables of names of
    time/tt_date_def.c, and tt_strnicmp of native/linux-gnu/tt_cstd_api.c): the code
    that renders and parses a date by a format.  [DateText] shows what it does. *)

From S2P Require Import Prelude MemSpring Buffer BufferFormat BufCommon Str Date.
From stdpp Require Import strings.

#[local] Open Scope Z_scope.

(** ** Names *)

Definition tt_g_tmzone_name_rfc1123 : list (list Z) :=
  [chars "-1200"; chars "-1100"; chars "-1000"; chars "-0930"; chars "-0900"; chars "-0800"; chars "-0700";
   chars "-0600"; chars "-0500"; chars "-0400"; chars "-0330"; chars "-0300"; chars "-0200"; chars "-0100";
   chars "GMT"; chars "+0100"; chars "+0200"; chars "+0300"; chars "+0330"; chars "+0400"; chars "+0430";
   chars "+0500"; chars "+0530"; chars "+0545"; chars "+0600"; chars "+0630"; chars "+0700"; chars "+0800";
   chars "+0830"; chars "+0845"; chars "+0900"; chars "+0930"; chars "+1000"; chars "+1030"; chars "+1100";
   chars "+1200"; chars "+1245"; chars "+1300"; chars "+1400"].
Definition tt_g_tmzone_name_iso8601 : list (list Z) :=
  [chars "-12:00"; chars "-11:00"; chars "-10:00"; chars "-09:30"; chars "-09:00"; chars "-08:00";
   chars "-07:00"; chars "-06:00"; chars "-05:00"; chars "-04:00"; chars "-03:30"; chars "-03:00";
   chars "-02:00"; chars "-01:00"; chars "Z"; chars "+01:00"; chars "+02:00"; chars "+03:00"; chars "+03:30";
   chars "+04:00"; chars "+04:30"; chars "+05:00"; chars "+05:30"; chars "+05:45"; chars "+06:00";
   chars "+06:30"; chars "+07:00"; chars "+08:00"; chars "+08:30"; chars "+08:45"; chars "+09:00";
   chars "+09:30"; chars "+10:00"; chars "+10:30"; chars "+11:00"; chars "+12:00"; chars "+12:45";
   chars "+13:00"; chars "+14:00"].
Definition tt_g_month_name : list (list Z) :=
  [chars "January"; chars "February"; chars "March"; chars "April"; chars "May"; chars "June"; chars "July";
   chars "August"; chars "September"; chars "October"; chars "November"; chars "December"].
Definition tt_g_month_name_abbr : list (list Z) :=
  [chars "Jan"; chars "Feb"; chars "Mar"; chars "Apr"; chars "May"; chars "June"; chars "July"; chars "Aug";
   chars "Sept"; chars "Oct"; chars "Nov"; chars "Dec"].
Definition tt_g_weekday_name : list (list Z) :=
  [chars "Sunday"; chars "Monday"; chars "Tuesday"; chars "Wednesday"; chars "Thursday"; chars "Friday";
   chars "Saturday"].
Definition tt_g_weekday_name_abbr : list (list Z) :=
  [chars "Sun"; chars "Mon"; chars "Tue"; chars "Wed"; chars "Thu"; chars "Fri"; chars "Sat"].

(** ** The C library *)

Definition isdigit (c : Z) : bool := (48 <=? c) && (c <=? 57).

(** [n] characters are compared at most; both strings are read as far as that. *)
Fixpoint tt_strnicmp (s1 s2 : list Z) (n : nat) : exec Z :=
  match n with
  | O => Ret 0
  | S n =>
      match s1, s2 with
      | x :: s1, y :: s2 =>
          let c1 := char_of x in
          let c2 := char_of y in
          if (c1 =? 0) || (c2 =? 0) then Ret (c1 - c2)
          else if c1 =? c2 then tt_strnicmp s1 s2 n
          else if (c1 + __DIFF =? c2) || (c2 + __DIFF =? c1) then tt_strnicmp s1 s2 n
          else Ret (c1 - c2)
      | _, _ => Undef
      end
  end.

(** ** Rendering *)

Section alloc.
Context `{Allocator}.

(** Append what a local array of characters holds. *)
Definition append_arr (c : list Z) : M tt_string_t unit := s ← access (c_str c); tt_string_append s.

(** Two digits; with [pad] in place of a leading 0. *)
Definition two_digits (v : Z) : M tt_string_t unit := append_arr [u8 (v / 10 + 48); u8 (v mod 10 + 48); 0].
Definition blank_digits (v : Z) : M tt_string_t unit :=
  let v1 := v / 10 in
  append_arr (if negb (v1 =? 0) then [u8 (v1 + 48); u8 (v mod 10 + 48); 0] else [32; u8 (v mod 10 + 48); 0]).

Definition __Y_render (d : tt_date_t) : M tt_string_t unit := two_digits (tt_date_get_year d mod 100).
Definition __y_render (d : tt_date_t) : M tt_string_t unit :=
  let y := tt_date_get_year d mod 100 in
  let y1 := y / 10 in
  append_arr (if negb (y1 =? 0) then [u8 (y1 + 48); u8 (y mod 10 + 48); 0] else [u8 (y mod 10 + 48); 0; 0]).
(** The array has room for 8 characters. *)
Definition __C_render (d : tt_date_t) : M tt_string_t unit :=
  append_arr (take 8 (print_d (s32 (tt_date_get_year d))) ++ [0]).
Definition __B_render (d : tt_date_t) : M tt_string_t unit :=
  n ← index tt_g_month_name (tt_date_get_month d); tt_string_append n.
Definition __b_render (d : tt_date_t) : M tt_string_t unit :=
  n ← index tt_g_month_name_abbr (tt_date_get_month d); tt_string_append n.
Definition __N_render (d : tt_date_t) : M tt_string_t unit := two_digits (u32 (tt_date_get_month d + 1)).
Definition __n_render (d : tt_date_t) : M tt_string_t unit := blank_digits (u32 (tt_date_get_month d + 1)).
Definition __D_render (d : tt_date_t) : M tt_string_t unit := two_digits (tt_date_get_monthday d).
Definition __d_render (d : tt_date_t) : M tt_string_t unit := blank_digits (tt_date_get_monthday d).
Definition __H_render (d : tt_date_t) : M tt_string_t unit := two_digits (tt_date_get_hour d).
Definition __h_render (d : tt_date_t) : M tt_string_t unit := two_digits (tt_date_get_hour d mod 12).
Definition __M_render (d : tt_date_t) : M tt_string_t unit := two_digits (tt_date_get_minute d).
Definition __S_render (d : tt_date_t) : M tt_string_t unit := two_digits (tt_date_get_second d).

Definition weekday_of (d : tt_date_t) : M tt_string_t Z := '(w, _) ← on_copy tt_date_get_weekday d; call (Ret w).
Definition __W_render (d : tt_date_t) : M tt_string_t unit :=
  w ← weekday_of d; n ← index tt_g_weekday_name w; tt_string_append n.
Definition __w_render (d : tt_date_t) : M tt_string_t unit :=
  w ← weekday_of d; n ← index tt_g_weekday_name_abbr w; tt_string_append n.
Definition __A_render (d : tt_date_t) : M tt_string_t unit :=
  tt_string_append (if tt_date_get_hour d <? 12 then chars "AM" else chars "PM").
Definition __a_render (d : tt_date_t) : M tt_string_t unit :=
  tt_string_append (if tt_date_get_hour d <? 12 then chars "am" else chars "pm").
Definition __Z_render (d : tt_date_t) : M tt_string_t unit :=
  n ← index tt_g_tmzone_name_rfc1123 (tt_date_get_tmzone d); tt_string_append n.
Definition __z_render (d : tt_date_t) : M tt_string_t unit :=
  n ← index tt_g_tmzone_name_iso8601 (tt_date_get_tmzone d); tt_string_append n.

(** ** Parsing *)

(** Two pointers into a text, [start] and [end], are the list of the characters
    between them; a parser returns what is left, and NULL is an error. *)
Definition parser : Type := list Z → M tt_date_t (list Z).

Fixpoint num_loop (v : Z) (t : list Z) : Z * list Z :=
  match t with
  | c :: t' => if isdigit c then num_loop (u32 (u32 (v * 10) + (c - 48))) t' else (v, t)
  | [] => (v, [])
  end.
(** The number in the first [n] characters. *)
Definition read_num (n : nat) (t : list Z) : Z * list Z :=
  let '(v, r) := num_loop 0 (take n t) in (v, r ++ drop n t).

(** The first name of the table that the text starts with. *)
Fixpoint find_name (t : list Z) (i : Z) (names : list (list Z)) : exec (option (Z * list Z)) :=
  match names with
  | [] => Ret None
  | name :: names =>
      if zlen name <=? zlen t then
        exec_bind (tt_strnicmp t name (length name)) (λ c,
          if c =? 0 then Ret (Some (i, drop (length name) t)) else find_name t (i + 1) names)
      else find_name t (i + 1) names
  end.
(** One table, then the other; [set] stores the index. *)
Definition parse_name (names names' : list (list Z)) (set : Z → M tt_date_t unit) : parser := λ t,
  r ← access (find_name t 0 names);
  match r with
  | Some (i, t') => set i;; mret t'
  | None =>
      r ← access (find_name t 0 names');
      match r with
      | Some (i, t') => set i;; mret t'
      | None => fail TT_FAIL
      end
  end.

Definition __Y_parse : parser := λ t,
  let '(y, t') := read_num 4 t in
  assert_always (y <=? 9999);;
  do_r TT_FAIL (tt_date_set_year y);;
  mret t'.
Definition __B_parse : parser := parse_name tt_g_month_name tt_g_month_name_abbr tt_date_set_month.
Definition __N_parse : parser := λ t,
  let '(m, t') := read_num 2 t in
  if m <=? 12 then tt_date_set_month (u32 (m - 1));; mret t' else fail TT_FAIL.
Definition __D_parse : parser := λ t,
  let '(day, t') := read_num 2 t in
  do_r TT_FAIL (tt_date_set_monthday day);;
  mret t'.
Definition __H_parse : parser := λ t,
  let '(h, t') := read_num 2 t in
  if h <=? 23 then tt_date_set_hour h;; mret t' else fail TT_FAIL.
Definition __M_parse : parser := λ t,
  let '(m, t') := read_num 2 t in
  if m <=? 59 then tt_date_set_minute m;; mret t' else fail TT_FAIL.
Definition __S_parse : parser := λ t,
  let '(s, t') := read_num 2 t in
  if s <=? 59 then tt_date_set_second s;; mret t' else fail TT_FAIL.
Definition __W_parse : parser := parse_name tt_g_weekday_name tt_g_weekday_name_abbr (λ _, mret tt).
Definition __Z_parse : parser := parse_name tt_g_tmzone_name_iso8601 tt_g_tmzone_name_rfc1123 tt_date_set_tmzone.

(** ** Formats *)

(** What a letter behind the percent sign stands for; two letters have no parser. *)
Record __sym_t : Type := mk_sym {
  sym_c : Z;
  sym_render : tt_date_t → M tt_string_t unit;
  sym_parse : option parser;
}.
Definition __sym : list __sym_t :=
  [mk_sym 89 __Y_render (Some __Y_parse); mk_sym 121 __y_render (Some __Y_parse); mk_sym 67 __C_render (Some __Y_parse);
   mk_sym 66 __B_render (Some __B_parse); mk_sym 98 __b_render (Some __B_parse);
   mk_sym 78 __N_render (Some __N_parse); mk_sym 110 __n_render (Some __N_parse);
   mk_sym 68 __D_render (Some __D_parse); mk_sym 100 __d_render (Some __D_parse);
   mk_sym 72 __H_render (Some __H_parse); mk_sym 104 __h_render (Some __H_parse);
   mk_sym 77 __M_render (Some __M_parse); mk_sym 83 __S_render (Some __S_parse);
   mk_sym 87 __W_render (Some __W_parse); mk_sym 119 __w_render (Some __W_parse);
   mk_sym 65 __A_render None; mk_sym 97 __a_render None;
   mk_sym 90 __Z_render (Some __Z_parse); mk_sym 122 __z_render (Some __Z_parse)].
Definition __find_sym (c : Z) : option __sym_t := List.find (λ s, sym_c s =? c) __sym.

(** [prev] and [p]: what is left of the format from there.  An error is the jump to
    the end with the count 0. *)
Fixpoint render_loop (date : tt_date_t) (prev p : list Z) : M tt_string_t (list Z * list Z) :=
  match p with
  | [] => mret (prev, [])
  | c :: p1 =>
      if negb (c =? 37) then render_loop date prev p1
      else
        match p1 with
        | [] => mret (prev, [])
        | x :: p2 =>
            if x =? 37 then render_loop date prev p2
            else
              tt_string_append_sub prev 0 (u32 (zlen prev - zlen p));;
              match __find_sym x with
              | None => fail TT_FAIL
              | Some sym => sym_render sym date;; render_loop date p2 p2
              end
        end
  end.
Definition render_text (date : tt_date_t) (format : list Z) : M tt_string_t unit :=
  '(prev, p) ← render_loop date format format;
  if zlen p <? zlen prev then tt_string_append_sub prev 0 (u32 (zlen prev - zlen p)) else mret tt.

(** The count that is returned and the array. *)
Definition tt_date_render (date : tt_date_t) (format buf : list Z) (len : Z) : exec (Z * list Z) :=
  if len =? 0 then Ret (0, buf)
  else
    exec_bind (tt_string_init None) (λ s,
    exec_bind ((render_text date format;; tt_string_len) s) (λ '(r, s),
      match r with
      | TT_ERROR _ => exec_bind (tt_string_destroy s) (λ _, Ret (0, buf))
      | TT_SUCCESS n =>
          let n := if len <=? n then u32 (len - 1) else n in
          exec_bind (buf_at s (rpos s) n) (λ d,
          exec_bind (mem_write buf 0 d) (λ buf,
          exec_bind (mem_write buf n [0]) (λ buf,
          exec_bind (tt_string_destroy s) (λ _, Ret (n, buf)))))
      end)).

(** The loop runs once at least; [fp] and [bp] are what is left of the format and of
    the text. *)
Definition non_empty (l : list Z) : bool := match l with [] => false | _ => true end.
Fixpoint parse_loop (fp bp : list Z) (fuel : nat) : M tt_date_t (list Z) :=
  match fuel with
  | O => λ _, Diverge
  | S fuel =>
      let next fp bp := if non_empty fp && non_empty bp then parse_loop fp bp fuel else mret bp in
      match drop_sp fp with
      | [] => mret bp
      | f :: fp1 =>
          match drop_sp bp with
          | [] => fail TT_FAIL
          | b :: bp1 =>
              if f =? 37 then
                match fp1 with
                | x :: fp2 =>
                    if x =? 37 then
                      match bp1 with
                      | b1 :: bp2 => if (b =? 37) && (b1 =? 37) then next fp2 bp2 else fail TT_FAIL
                      | [] => fail TT_FAIL
                      end
                    else
                      match __find_sym x with
                      | None => fail TT_FAIL
                      | Some sym =>
                          match sym_parse sym with
                          | None => undef
                          | Some parse => bp ← parse (b :: bp1); next fp2 bp
                          end
                      end
                | [] => if b =? 37 then mret bp1 else fail TT_FAIL
                end
              else if f =? b then next fp1 bp1
              else fail TT_FAIL
          end
      end
  end.

(** [buf] are the characters from the pointer, [*len] of which are the text; without
    [len] there is nothing to do.  [tt_g_local_tmzone] is an argument. *)
Definition tt_date_parse (tmzone : Z) (format buf : list Z) (len : option Z) : M tt_date_t (option Z) :=
  match len with
  | None => mret None
  | Some n =>
      t ← access (mem_read buf 0 n);
      '(r, d) ← on_copy (
        tt_date_init tmzone;;
        bp ← parse_loop format t (S (length format));
        v ← tt_date_valid;
        if negb v then fail TT_FAIL else mret bp) (mk_date 0 0 0 0 0 0 0);
      bp ← call (Ret r);
      modify (λ _, d);;
      mret (Some (u32 (zlen t - zlen bp)))
  end.
End alloc.
