(* ===== verification/CliLine.v ===== *)
(** The line editor of the command line (cli/tt_cli_line.h and .c, cli/tt_cli_def.h):
    the code; [CliEdit] shows what a terminal displays of it. *)

From S2P Require Import Prelude MemSpring Buffer BufferFormat BufCommon SshDef Str.

#[local] Open Scope Z_scope.

(** ** Events *)

(** The bytes that stand for events; the others are characters. *)
Definition TT_CLI_EV_START : Z := 128.
Definition TT_CLI_EV_UP : Z := TT_CLI_EV_START.
Definition TT_CLI_EV_DOWN : Z := 129.
Definition TT_CLI_EV_RIGHT : Z := 130.
Definition TT_CLI_EV_LEFT : Z := 131.
Definition TT_CLI_EV_INTR : Z := 132.
Definition TT_CLI_EV_QUIT : Z := 133.
Definition TT_CLI_EV_DELETE : Z := 134.
Definition TT_CLI_EV_ENTER : Z := 135.
Definition TT_CLI_EV_TAB : Z := 136.
Definition TT_CLI_EV_END : Z := 137.
Definition TT_CLI_EV_NUM : Z := TT_CLI_EV_END - TT_CLI_EV_START.
Definition TT_CLI_EV_IDX (ev : Z) : Z := ev - TT_CLI_EV_START.
Definition TT_CLI_EV_VALID (k : Z) : bool := (TT_CLI_EV_START <=? k) && (k <? TT_CLI_EV_END).

(** [(e >= 0x20) && (e <= 0x7e)] *)
Definition printable (e : Z) : bool := (32 <=? e) && (e <=? 126).

(** [TT_CLI_MODE_VALID] holds of the one mode. *)
Inductive tt_cli_mode_t : Type := TT_CLI_MODE_DEFAUTL.

(** ** The line *)

(** The functions that handlers point at. *)
Inductive cline_char_fn : Type := __def_on_char_p.
Inductive cline_ev_fn : Type :=
  | __def_on_right_p | __def_on_left_p | __def_on_intr_p | __def_on_quit_p | __def_on_delete_p.

(** [outbuf] is the buffer that the field points at. *)
Record tt_cline_t : Type := mk_cline {
  outbuf : tt_buf_t;
  on_char : option cline_char_fn;
  cl_on_ev : list (option cline_ev_fn);
  line : tt_string_t;
  mode : tt_cli_mode_t;
  cursor : Z;
}.
Definition set_outbuf (b : tt_buf_t) (c : tt_cline_t) : tt_cline_t :=
  mk_cline b (on_char c) (cl_on_ev c) (line c) (mode c) (cursor c).
Definition set_line (s : tt_string_t) (c : tt_cline_t) : tt_cline_t :=
  mk_cline (outbuf c) (on_char c) (cl_on_ev c) s (mode c) (cursor c).
Definition set_cursor (n : Z) (c : tt_cline_t) : tt_cline_t :=
  mk_cline (outbuf c) (on_char c) (cl_on_ev c) (line c) (mode c) n.

Definition with_out {A} (m : M tt_buf_t A) : M tt_cline_t A := zoom outbuf set_outbuf m.
Definition with_line {A} (m : M tt_string_t A) : M tt_cline_t A := zoom line set_line m.

(** [&p[i]] for [n] bytes of the line, [p] a pointer that an operation on it returned. *)
Definition line_bytes (p : option Z) (n : Z) : M tt_cline_t (list Z) :=
  with_line (match p with None => undef | Some off => buf_read off n end).

(** The table of handlers, by [TT_CLI_EV_IDX]. *)
Definition __load_cline_cb (m : tt_cli_mode_t) : option cline_char_fn * list (option cline_ev_fn) :=
  match m with
  | TT_CLI_MODE_DEFAUTL =>
      (Some __def_on_char_p,
       [None; None; Some __def_on_right_p; Some __def_on_left_p; Some __def_on_intr_p; Some __def_on_quit_p;
        Some __def_on_delete_p; None; None])
  end.

Section alloc.
Context `{Allocator}.

Definition tt_cline_attr_default : tt_buf_attr_t := tt_string_attr_default.

Definition tt_cline_create (m : tt_cli_mode_t) (out : tt_buf_t) (attr : option tt_buf_attr_t) : exec (result tt_cline_t) :=
  let attr := default tt_cline_attr_default attr in
  let '(oc, oe) := __load_cline_cb m in
  exec_bind (tt_string_init (Some attr)) (λ s, Ret (TT_SUCCESS (mk_cline out oc oe s m 0))).
Definition tt_cline_destroy : M tt_cline_t unit := with_line tt_string_destroy.

(** ** The handlers of the default mode *)

Definition cline_on_char (c : Z) : M tt_cline_t unit :=
  len ← with_line tt_string_len;
  cl ← gets id;
  assert_always (cursor cl <=? len);;
  if cursor cl <? len then
    with_line (tt_string_insert_c (cursor cl) c);;
    modify (set_cursor (u32 (cursor cl + 1)));;
    '(tail, tail_len) ← with_line (tt_string_subcstr (u32 (cursor cl + 1)));
    with_out (tt_buf_put_u8 (u8 c));;
    d ← line_bytes tail tail_len;
    with_out (tt_buf_put d);;
    with_out (tt_buf_put_rep TT_CLI_EV_LEFT tail_len)
  else
    with_line (tt_string_append_c c);;
    modify (set_cursor (u32 (cursor cl + 1)));;
    with_out (tt_buf_put_u8 (u8 c)).

Definition cline_on_left : M tt_cline_t unit :=
  cl ← gets id;
  if cursor cl =? 0 then mret tt
  else
    with_out (tt_buf_put_u8 TT_CLI_EV_LEFT);;
    modify (set_cursor (u32 (cursor cl - 1))).

Definition cline_on_right : M tt_cline_t unit :=
  len ← with_line tt_string_len;
  cl ← gets id;
  if cursor cl =? len then mret tt
  else
    assert_always (cursor cl <? len);;
    with_out (tt_buf_put_u8 TT_CLI_EV_RIGHT);;
    modify (set_cursor (u32 (cursor cl + 1))).

Definition cline_on_intr : M tt_cline_t unit := with_out (tt_buf_put [94; 67]).
Definition cline_on_quit : M tt_cline_t unit := with_out (tt_buf_put [94; 68]).

Definition cline_on_delete : M tt_cline_t unit :=
  cl ← gets id;
  if cursor cl =? 0 then mret tt
  else
    let cur := u32 (cursor cl - 1) in
    modify (set_cursor cur);;
    with_line (tt_string_remove_range cur 1);;
    with_out (tt_buf_put_u8 TT_CLI_EV_DELETE);;
    '(p, n) ← with_line (tt_string_subcstr cur);
    if 0 <? n then
      d ← line_bytes p n;
      with_out (tt_buf_put d);;
      with_out (tt_buf_put_u8 32);;
      with_out (tt_buf_put_rep TT_CLI_EV_LEFT (u32 (n + 1)))
    else mret tt.

Definition run_char_fn (f : cline_char_fn) : Z → M tt_cline_t unit :=
  match f with __def_on_char_p => cline_on_char end.
Definition run_ev_fn (f : cline_ev_fn) : M tt_cline_t unit :=
  match f with
  | __def_on_right_p => cline_on_right
  | __def_on_left_p => cline_on_left
  | __def_on_intr_p => cline_on_intr
  | __def_on_quit_p => cline_on_quit
  | __def_on_delete_p => cline_on_delete
  end.

(** ** Input *)

(** A handler that fails is only logged. *)
Definition cline_input_one (e : Z) : M tt_cline_t unit :=
  cl ← gets id;
  if printable e then
    match on_char cl with
    | Some f => try (run_char_fn f e);; mret tt
    | None => mret tt
    end
  else if TT_CLI_EV_VALID e then
    match cl_on_ev cl !! Z.to_nat (TT_CLI_EV_IDX e) with
    | None => undef
    | Some None => mret tt
    | Some (Some f) => try (run_ev_fn f);; mret tt
    end
  else mret tt.
Fixpoint tt_cline_input (ev : list Z) : M tt_cline_t unit :=
  match ev with
  | [] => mret tt
  | e :: ev => cline_input_one e;; tt_cline_input ev
  end.
Definition tt_cline_input_ev (e : Z) : M tt_cline_t unit := tt_cline_input [e].

Definition tt_cline_cstr : M tt_cline_t (list Z) := with_line tt_string_cstr.
Definition tt_cline_reset : M tt_cline_t unit := with_line tt_string_clear;; modify (set_cursor 0).
End alloc.

(** ** What is at the cursor *)

(** [while ((i < cursor) && ok (p[i])) ++i;] *)
Fixpoint skip_while (ok : Z → bool) (p : list Z) (i : Z) (cur : Z) (fuel : nat) : exec Z :=
  match fuel with
  | O => Diverge
  | S fuel =>
      if i <? cur then
        exec_bind (mem_read p i 1) (λ d, if ok (nth 0 d 0) then skip_while ok p (i + 1) cur fuel else Ret i)
      else Ret i
  end.
(** [while ((i != ~0) && (p[i] != ' ')) --i; ++i;] from [i = n - 1]. *)
Fixpoint word_start (p : list Z) (n : nat) : exec Z :=
  match n with
  | O => Ret 0
  | S k => exec_bind (mem_read p (Z.of_nat k) 1) (λ d, if nth 0 d 0 =? 32 then Ret (Z.of_nat n) else word_start p k)
  end.

(** Whether a command is waited for, and the bytes [data] stands for ([None] for the
    null pointer). *)
Definition tt_cline_cursor_data : M tt_cline_t (bool * option (list Z)) :=
  cl ← gets id;
  p ← with_line tt_string_cstr;
  len ← with_line tt_string_len;
  let cur := cursor cl in
  assert_always (cur <=? len);;
  let fuel := S (Z.to_nat cur) in
  i ← access (skip_while (λ c, c =? 32) (p ++ [0]) 0 cur fuel);
  j ← access (skip_while (λ c, negb (c =? 32)) (p ++ [0]) i cur fuel);
  k ← access (skip_while (λ c, c =? 32) (p ++ [0]) j cur fuel);
  let see_char := i <? j in
  let see_sp := j <? k in
  w ← access (word_start (p ++ [0]) (Z.to_nat cur));
  assert_always (w <=? cur);;
  if w <? cur then
    d ← access (mem_read (p ++ [0]) w (cur - w));
    mret (negb (see_char && see_sp), Some d)
  else mret (negb (see_char && see_sp), None).
