(* ===== verification/CliEdit.v ===== *)
(** What a user sees of the line editor: an abstract editor, what it echoes, and a
    terminal that keeps the requirements of the default mode in cli/tt_cli_def.h
    and displays the echo. *)

From S2P Require Import Prelude MemSpring Buffer BufferFormat BufCommon SshDef Str StrSpec StrRun CliLine.

#[local] Open Scope Z_scope.

(** ** The editor *)

(** A line and the cursor in it. *)
Definition editor : Type := list Z * Z.

Definition edit (e : Z) (st : editor) : editor :=
  let '(l, cur) := st in
  let i := Z.to_nat cur in
  if printable e then (take i l ++ e :: drop i l, cur + 1)
  else if e =? TT_CLI_EV_LEFT then (l, Z.max 0 (cur - 1))
  else if e =? TT_CLI_EV_RIGHT then (l, Z.min (zlen l) (cur + 1))
  else if (e =? TT_CLI_EV_DELETE) && (0 <? cur) then (take (Z.to_nat (cur - 1)) l ++ drop i l, cur - 1)
  else st.

(** The bytes an event adds to the output. *)
Definition left_by (n : Z) : list Z := replicate (Z.to_nat n) TT_CLI_EV_LEFT.
Definition echo (e : Z) (st : editor) : list Z :=
  let '(l, cur) := st in
  let tail := drop (Z.to_nat cur) l in
  if printable e then e :: tail ++ left_by (zlen tail)
  else if (e =? TT_CLI_EV_LEFT) && (0 <? cur) then [TT_CLI_EV_LEFT]
  else if (e =? TT_CLI_EV_RIGHT) && (cur <? zlen l) then [TT_CLI_EV_RIGHT]
  else if e =? TT_CLI_EV_INTR then [94; 67]
  else if e =? TT_CLI_EV_QUIT then [94; 68]
  else if (e =? TT_CLI_EV_DELETE) && (0 <? cur) then
    TT_CLI_EV_DELETE :: (if 0 <? zlen tail then tail ++ 32 :: left_by (zlen tail + 1) else [])
  else [].

Definition edits (evs : list Z) (st : editor) : editor := foldl (λ st e, edit e st) st evs.
Fixpoint echoes (evs : list Z) (st : editor) : list Z :=
  match evs with [] => [] | e :: evs => echo e st ++ echoes evs (edit e st) end.

Definition editor_ok (st : editor) : Prop :=
  0 ≤ st.2 ≤ zlen st.1 ∧ Forall (λ c, printable c = true) st.1.

Lemma edit_ok e st : editor_ok st → editor_ok (edit e st).
Proof.
  destruct st as [l cur]. intros [Hc Hl]. cbn in Hc, Hl. unfold edit. destruct (printable e) eqn:Ep.
  { split; cbn.
    - rewrite zlen_app, zlen_cons, zlen_take, zlen_drop. lia.
    - apply Forall_app. split; [by apply Forall_take|]. constructor; [done|by apply Forall_drop]. }
  destruct (e =? TT_CLI_EV_LEFT); [split; [cbn; lia|done]|]. destruct (e =? TT_CLI_EV_RIGHT); [split; [cbn; lia|done]|].
  destruct ((e =? TT_CLI_EV_DELETE) && (0 <? cur)) eqn:Ed; [|done]. apply andb_true_iff in Ed as [_ Ed%Z.ltb_lt].
  split; cbn; [|apply Forall_app; split; [by apply Forall_take|by apply Forall_drop]].
  rewrite zlen_app, zlen_take, zlen_drop. lia.
Qed.
Lemma edits_ok evs st : editor_ok st → editor_ok (edits evs st).
Proof. revert st. induction evs as [|e evs IH]; intros st Hs; [done|]. by apply IH, edit_ok. Qed.

Lemma printable_cchar c : printable c = true → cchar c.
Proof. intros [?%Z.leb_le ?%Z.leb_le]%andb_true_iff. unfold cchar, is_u8. lia. Qed.
Lemma printable_cstring l : Forall (λ c, printable c = true) l → cstring l.
Proof. apply (Forall_impl _ printable_cchar). Qed.

(** ** The terminal *)

(** The row the cursor is in, its column, and the rows that were ended. *)
Record term : Type := mk_term { rows : list (list Z); row : list Z; col : Z }.

(** Writing in a column beyond the end of the row leaves blanks before it. *)
Definition put_at (n : Z) (c : Z) (l : list Z) : list Z :=
  let l := l ++ replicate (Z.to_nat n - length l) 32 in take (Z.to_nat n) l ++ c :: drop (S (Z.to_nat n)) l.

Definition term_step (t : term) (e : Z) : term :=
  if printable e then mk_term (rows t) (put_at (col t) e (row t)) (col t + 1)
  else if e =? TT_CLI_EV_LEFT then mk_term (rows t) (row t) (Z.max 0 (col t - 1))
  else if e =? TT_CLI_EV_RIGHT then mk_term (rows t) (row t) (col t + 1)
  else if e =? TT_CLI_EV_DELETE then
    if 0 <? col t then mk_term (rows t) (put_at (col t - 1) 32 (row t)) (col t - 1) else t
  else if e =? TT_CLI_EV_ENTER then mk_term (rows t ++ [row t]) [] 0
  else t.
Definition term_run : term → list Z → term := foldl term_step.

Lemma term_run_app t d d' : term_run t (d ++ d') = term_run (term_run t d) d'.
Proof. apply foldl_app. Qed.

(** The row is [pre], the line, and blanks; the cursor is at [cur] in the line. *)
Definition shows (t : term) (pre l : list Z) (cur : Z) : Prop :=
  (∃ k, row t = pre ++ l ++ replicate k 32) ∧ col t = zlen pre + cur.

Lemma put_at_app u x v c : put_at (zlen u) c (u ++ x :: v) = u ++ c :: v.
Proof.
  unfold put_at, zlen. rewrite Nat2Z.id. replace (length u - length (u ++ x :: v))%nat with 0%nat by (rewrite length_app; lia).
  cbn [replicate]. rewrite app_nil_r, take_app_length. do 2 f_equal. rewrite drop_app_ge by lia.
  replace (S (length u) - length u)%nat with 1%nat by lia. done.
Qed.
Lemma put_at_end u c : put_at (zlen u) c u = u ++ [c].
Proof.
  unfold put_at, zlen. rewrite Nat2Z.id, Nat.sub_diag. cbn [replicate]. rewrite app_nil_r, take_ge, drop_ge by lia. done.
Qed.

(** Characters overwrite what is there; [over u w] is what is left of [w]. *)
Lemma type_chars d : ∀ t u w, Forall (λ c, printable c = true) d → row t = u ++ w → col t = zlen u →
  term_run t d = mk_term (rows t) (u ++ d ++ drop (length d) w) (zlen u + zlen d).
Proof.
  induction d as [|c d IH]; intros t u w Hd Hr Hc.
  - cbn. rewrite drop_0, Z.add_0_r, <- Hr, <- Hc. by destruct t.
  - apply Forall_cons_1 in Hd as [Hp Hd]. cbn [term_run foldl]. unfold term_step. rewrite Hp, Hr, Hc.
    change (foldl term_step) with term_run. assert (put_at (zlen u) c (u ++ w) = (u ++ [c]) ++ drop 1 w) as ->.
    { destruct w as [|x w]; [rewrite app_nil_r, put_at_end; by rewrite app_nil_r|]. rewrite put_at_app. cbn. by rewrite <- app_assoc. }
    erewrite (IH _ (u ++ [c]) (drop 1 w)); [|done|reflexivity|cbn; rewrite zlen_app; done].
    cbn [rows]. rewrite drop_drop, <- !app_assoc. cbn [app length]. rewrite zlen_app, !zlen_cons. change (zlen []) with 0. f_equal. lia.
Qed.

Lemma lefts_run n : ∀ t, Z.of_nat n ≤ col t → term_run t (replicate n TT_CLI_EV_LEFT) = mk_term (rows t) (row t) (col t - Z.of_nat n).
Proof.
  induction n as [|n IH]; intros t Hn; [cbn; rewrite Z.sub_0_r; by destruct t|]. cbn [replicate term_run foldl].
  change (foldl term_step) with term_run. change (term_step t TT_CLI_EV_LEFT) with (mk_term (rows t) (row t) (Z.max 0 (col t - 1))).
  rewrite IH by (cbn; lia). cbn. f_equal. lia.
Qed.

(** Typing [d] and going back over the last [n] columns of it. *)
Lemma type_back t u w d n : Forall (λ c, printable c = true) d → row t = u ++ w → col t = zlen u → 0 ≤ n ≤ zlen d →
  term_run t (d ++ left_by n) = mk_term (rows t) (u ++ d ++ drop (length d) w) (zlen u + zlen d - n).
Proof.
  intros Hd Hr Hc Hn. rewrite term_run_app. rewrite (type_chars d t u w Hd Hr Hc). pose proof (zlen_nonneg u).
  unfold left_by. rewrite lefts_run by (cbn; lia). cbn. f_equal. lia.
Qed.

Lemma drop_blanks k n : drop n (replicate k 32) = replicate (k - n) 32.
Proof. by rewrite drop_replicate. Qed.

(** What the terminal displays of an echo, if it displayed the editor before. *)
Lemma echo_shows e st t pre : e ≠ TT_CLI_EV_INTR → e ≠ TT_CLI_EV_QUIT → editor_ok st →
  shows t pre st.1 st.2 → shows (term_run t (echo e st)) pre (edit e st).1 (edit e st).2.
Proof.
  destruct st as [l cur]. intros Hi Hq [Hc Hl] [(k & Hr) Hcol]. cbn [fst snd] in *.
  set (h := take (Z.to_nat cur) l). set (tl := drop (Z.to_nat cur) l).
  assert (l = h ++ tl) as El by (subst h tl; by rewrite take_drop). assert (zlen h = cur) as Hh by (subst h; rewrite zlen_take; lia).
  assert (Forall (λ c, printable c = true) tl) as Ht by by apply Forall_drop. pose proof (zlen_nonneg tl). pose proof (zlen_nonneg pre).
  assert (row t = (pre ++ h) ++ (tl ++ replicate k 32)) as Hr' by (rewrite Hr, El; by rewrite <- !app_assoc).
  assert (zlen (pre ++ h) = zlen pre + cur) as Hz by by rewrite zlen_app, Hh.
  unfold echo, edit. fold h tl. destruct (printable e) eqn:Ep.
  { change (e :: tl ++ left_by (zlen tl)) with ((e :: tl) ++ left_by (zlen tl)).
    erewrite type_back; [|by constructor|exact Hr'|by rewrite Hz|rewrite zlen_cons; lia].
    split; cbn [row col fst snd]; [|rewrite Hz, zlen_cons; lia]. eexists. rewrite drop_app_ge by (cbn; lia). rewrite drop_blanks.
    rewrite <- !app_assoc. cbn [app]. reflexivity. }
  destruct (Z.eqb_spec e TT_CLI_EV_LEFT) as [El'|_]; cbn [andb].
  { rewrite El'. cbn [fst snd]. destruct (Z.ltb_spec 0 cur); cbn.
    - split; cbn; [by eexists|lia].
    - split; cbn; [by eexists|lia]. }
  destruct (Z.eqb_spec e TT_CLI_EV_RIGHT) as [El'|_]; cbn [andb].
  { rewrite El'. cbn [fst snd]. destruct (Z.ltb_spec cur (zlen l)); cbn; (split; cbn; [by eexists|lia]). }
  rewrite (proj2 (Z.eqb_neq _ _) Hi), (proj2 (Z.eqb_neq _ _) Hq).
  destruct (Z.eqb_spec e TT_CLI_EV_DELETE) as [Ed|_]; cbn [andb]; [|by split; [eexists|]].
  destruct (Z.ltb_spec 0 cur) as [Hp0|Hp0]; [|by split; [eexists|]].
  destruct (snoc_cases h) as [E|(h0 & x & E)]; [rewrite E in Hh; change (zlen []) with 0 in Hh; lia|].
  assert (zlen h0 = cur - 1) as Hh0 by (rewrite E, zlen_app in Hh; change (zlen [x]) with 1 in Hh; lia).
  assert (take (Z.to_nat (cur - 1)) l = h0) as ->.
  { rewrite El, E, <- app_assoc. replace (Z.to_nat (cur - 1)) with (length h0) by (unfold zlen in *; lia). by rewrite take_app_length. }
  cbn [fst snd app].
  change (TT_CLI_EV_DELETE :: ?d) with ([TT_CLI_EV_DELETE] ++ d). rewrite term_run_app.
  assert (term_run t [TT_CLI_EV_DELETE] = mk_term (rows t) ((pre ++ h0) ++ 32 :: tl ++ replicate k 32) (zlen (pre ++ h0))) as ->.
  { change (term_run t [TT_CLI_EV_DELETE]) with (if 0 <? col t then mk_term (rows t) (put_at (col t - 1) 32 (row t)) (col t - 1) else t).
    rewrite (proj2 (Z.ltb_lt _ _)) by lia. assert (col t - 1 = zlen (pre ++ h0)) as -> by (rewrite zlen_app; lia).
    f_equal. rewrite Hr, El, E. rewrite <- !app_assoc. cbn [app]. rewrite (app_assoc pre h0), put_at_app. by rewrite <- app_assoc. }
  destruct (Z.ltb_spec 0 (zlen tl)) as [Hl0|Hl0].
  - change (tl ++ 32 :: left_by (zlen tl + 1)) with (tl ++ [32] ++ left_by (zlen tl + 1)). rewrite app_assoc.
    rewrite (type_back _ (pre ++ h0) (32 :: tl ++ replicate k 32)).
    + split; cbn [row col]; [|rewrite !zlen_app; change (zlen [32]) with 1; lia].
      exists (S k). rewrite length_app. cbn [length]. rewrite Nat.add_1_r. cbn [drop]. rewrite drop_app_length. by rewrite <- !app_assoc.
    + apply Forall_app. split; [done|]. by repeat constructor.
    + reflexivity.
    + reflexivity.
    + rewrite zlen_app. change (zlen [32]) with 1. lia.
  - assert (tl = []) as -> by (apply zlen_nil_inv; lia). cbn [term_run foldl app]. split; cbn [row col]; [|rewrite zlen_app; lia].
    exists (S k). by rewrite app_nil_r, <- app_assoc.
Qed.

Lemma echoes_shows evs : ∀ st t pre, TT_CLI_EV_INTR ∉ evs → TT_CLI_EV_QUIT ∉ evs → editor_ok st →
  shows t pre st.1 st.2 → shows (term_run t (echoes evs st)) pre (edits evs st).1 (edits evs st).2.
Proof.
  induction evs as [|e evs IH]; intros st t pre Hi Hq Hst Hsh; [done|].
  apply not_elem_of_cons in Hi as [Hi1 Hi], Hq as [Hq1 Hq]. cbn [echoes]. rewrite term_run_app.
  apply (IH (edit e st)); [done|done|by apply edit_ok|]. by apply echo_shows.
Qed.

(** ** The code and the editor *)

(** A buffer that output can be written to. *)
Record out_ok `{Allocator} (b : tt_buf_t) : Prop := {
  out_wf : buf_wf b;
  out_ro : readonly b = false;
  out_rel : reliable b;
}.
(** [b'] is [b] with [d] written, and room for [n] more bytes; the block did not grow
    more than the growth policy says. *)
Record wrote `{Allocator} (b : tt_buf_t) (d : list Z) (n : Z) (b' : tt_buf_t) : Prop := {
  wr_ok : out_ok b';
  wr_content : content b' = content b ++ d;
  wr_rpos : rpos b' = rpos b;
  wr_room : room b' n;
  wr_wpos : wpos b' = wpos b + zlen d;
  wr_size : size b' ≤ Z.max (size b) (wpos b + 2 * zlen d + max_extend (mspg b));
  wr_mspg : mspg b' = mspg b;
}.

Lemma printable_u8 c : printable c = true → is_u8 c.
Proof. intros Hc. by apply printable_cchar. Qed.
#[local] Hint Resolve printable_u8 : core.
Lemma left_u8 n : Forall is_u8 (left_by n).
Proof. by apply Forall_replicate. Qed.
Lemma zlen_left n : 0 ≤ n → zlen (left_by n) = n.
Proof. intros. unfold left_by. rewrite zlen_replicate. lia. Qed.

Section out.
Context `{Allocator}.

Lemma out_put b d n : out_ok b → Forall is_u8 d → 0 ≤ n → room b (zlen d + n) →
  ∃ b', tt_buf_put d b = Ret (TT_SUCCESS tt, b') ∧ wrote b d n b'.
Proof.
  intros [Hwf Hro Hrel] Hd Hn Hroom. pose proof (zlen_nonneg d).
  destruct (buf_put_spec b d) as [(b' & E & Ha)|[_ ?]]; [done..|eapply room_weaken; [|exact Hroom]; lia| |done].
  exists b'. split; [done|]. pose proof (appended_becomes _ _ _ Ha) as Hb. destruct Ha as [Hwf' Hc Hw Hr Hm Hro' Hsz].
  constructor; [|done|done| |done..].
  - constructor; [done|congruence|]. unfold reliable in *. by rewrite Hm.
  - by eapply (becomes_room b (zlen d) n).
Qed.

Lemma wrote_trans b d n b1 d' m b2 : wrote b d n b1 → wrote b1 d' m b2 → wrote b (d ++ d') m b2.
Proof.
  intros [] []. pose proof (zlen_nonneg d). pose proof (zlen_nonneg d'). constructor; [done|rewrite app_assoc; congruence|congruence|done|rewrite zlen_app; lia| |congruence].
  rewrite wr_mspg0 in *. rewrite zlen_app. lia.
Qed.
Lemma wrote_refl b n : out_ok b → room b n → wrote b [] n b.
Proof. intros. constructor; try done; [by rewrite app_nil_r|change (zlen []) with 0; lia..]. Qed.
End out.

Section editor.
Context `{Allocator}.

(** The line [c] holds the editor [st]; [m] more characters fit. *)
Record cline_is (c : tt_cline_t) (st : editor) (m : Z) : Prop := {
  ci_line : str (line c) st.1 0;
  ci_rel : reliable (line c);
  ci_room : room (line c) m;
  ci_cursor : cursor c = st.2;
  ci_ok : editor_ok st;
  ci_cb : (on_char c, cl_on_ev c) = __load_cline_cb (mode c);
}.

(** An operation that leaves the line [st'] and writes [d]. *)
Definition does_edit (o : M tt_cline_t unit) (c : tt_cline_t) (st' : editor) (m : Z) (d : list Z) (n : Z) : Prop :=
  ∃ c', o c = Ret (TT_SUCCESS tt, c') ∧ cline_is c' st' m ∧ wrote (outbuf c) d n (outbuf c').

Lemma with_out_put c d n : out_ok (outbuf c) → Forall is_u8 d → 0 ≤ n → room (outbuf c) (zlen d + n) →
  ∃ b, with_out (tt_buf_put d) c = Ret (TT_SUCCESS tt, set_outbuf b c) ∧ wrote (outbuf c) d n b.
Proof.
  intros Hok Hd Hn Hroom. destruct (out_put (outbuf c) d n) as (b & E & Hw); [done..|]. exists b. split; [|done].
  unfold with_out, zoom. by rewrite E.
Qed.

Lemma with_line_ret {A} (m : M tt_string_t A) c r s : m (line c) = Ret (r, s) → with_line m c = Ret (r, set_line s c).
Proof. intros E. unfold with_line, zoom. by rewrite E. Qed.
Lemma with_line_look {A} (m : M tt_string_t A) c r : m (line c) = Ret (r, line c) → with_line m c = Ret (r, c).
Proof. intros E. rewrite (with_line_ret _ _ _ _ E). by destruct c. Qed.

Lemma cline_set_out c st m b : cline_is c st m → cline_is (set_outbuf b c) st m.
Proof. intros []. by constructor. Qed.

Lemma line_changes c st m n l cur b : cline_is c st m → becomes (line c) n 0 (l ++ [0]) b → 0 ≤ n ≤ m → editor_ok (l, cur) →
  cline_is (set_cursor cur (set_line b c)) (l, cur) (m - n).
Proof.
  intros [Hl Hrel Hroom Hcur Hok Hcb] Hb Hn Hok'. constructor; cbn; try done.
  - eapply becomes_str; [exact Hb|apply Hl|]. by apply printable_cstring, Hok'.
  - unfold reliable in *. by rewrite (be_mspg _ _ _ _ _ Hb).
  - eapply (becomes_room _ n (m - n)); [lia|lia| |exact Hb]. by replace (n + (m - n)) with m by lia.
Qed.

(** Reading the rest of the line from the cursor on. *)
Lemma tail_bytes c st m i : cline_is c st m → 0 ≤ i ≤ zlen st.1 →
  line_bytes (Some (rpos (line c) + i)) (zlen st.1 - i) c = Ret (TT_SUCCESS (drop (Z.to_nat i) st.1), c).
Proof.
  intros Hc Hi. unfold line_bytes. apply with_line_look. rewrite (str_read _ _ _ (ci_line _ _ _ Hc)) by lia.
  rewrite sub_app_l by lia. do 3 f_equal. unfold sub. rewrite take_ge; [done|]. rewrite length_drop. unfold zlen in *. lia.
Qed.
Lemma subcstr_tail c st m i : cline_is c st m → 0 ≤ i ≤ zlen st.1 →
  with_line (tt_string_subcstr i) c = Ret (TT_SUCCESS (Some (rpos (line c) + i), zlen st.1 - i), c).
Proof.
  intros Hc Hi. apply with_line_look. rewrite (subcstr_ok _ _ _ (ci_line _ _ _ Hc)) by lia. by rewrite (proj2 (Z.leb_le _ _)) by lia.
Qed.

Lemma cline_bound c st m : cline_is c st m → 0 ≤ zlen st.1 ∧ zlen st.1 + 1 < 2 ^ 32.
Proof. intros [Hl]. pose proof (str_pos _ _ _ Hl). lia. Qed.

Context (c : tt_cline_t) (st : editor) (m n : Z).
Context (Hc : cline_is c st m) (Ho : out_ok (outbuf c)) (Hn : 0 ≤ n).

(** Output only. *)
Lemma echo_only d : Forall is_u8 d → room (outbuf c) (zlen d + n) → does_edit (with_out (tt_buf_put d)) c st m d n.
Proof.
  intros Hd Hroom. destruct (with_out_put c d n) as (b & E & Hw); [done..|]. exists (set_outbuf b c).
  split; [done|]. split; [by apply cline_set_out|done].
Qed.

Lemma stays_edit : room (outbuf c) n → does_edit (mret tt) c st m [] n.
Proof. intros. exists c. split; [done|]. split; [done|]. by apply wrote_refl. Qed.

End editor.


Section handlers.
Context `{Allocator}.

Lemma cline_weaken c st m m' : cline_is c st m → 0 ≤ m' ≤ m → cline_is c st m'.
Proof. intros [] ?. constructor; try done. by eapply room_weaken. Qed.
Lemma wrote_set c c' b d n : outbuf c = outbuf c' → wrote (outbuf c') d n b → wrote (outbuf c) d n (outbuf (set_outbuf b c')).
Proof. by intros ->. Qed.

(** Three writes in a row, as the handlers make them. *)
Lemma write_tail c st m d tl k n : cline_is c st m → out_ok (outbuf c) → Forall is_u8 d → Forall is_u8 tl → 0 ≤ k → 0 ≤ n →
  room (outbuf c) (zlen d + zlen tl + k + n) → ∃ b1 b2 b3,
  with_out (tt_buf_put d) c = Ret (TT_SUCCESS tt, set_outbuf b1 c) ∧
  with_out (tt_buf_put tl) (set_outbuf b1 c) = Ret (TT_SUCCESS tt, set_outbuf b2 c) ∧
  with_out (tt_buf_put_rep TT_CLI_EV_LEFT k) (set_outbuf b2 c) = Ret (TT_SUCCESS tt, set_outbuf b3 c) ∧
  wrote (outbuf c) (d ++ tl ++ left_by k) n b3.
Proof.
  intros Hc Ho Hd Ht Hk Hn Hroom. pose proof (zlen_nonneg d). pose proof (zlen_nonneg tl).
  destruct (with_out_put c d (zlen tl + k + n)) as (b1 & E1 & W1); [done|done|lia|by rewrite !Z.add_assoc|].
  destruct (with_out_put (set_outbuf b1 c) tl (k + n)) as (b2 & E2 & W2); [apply W1|done|lia|cbn; rewrite Z.add_assoc; apply W1|].
  destruct (with_out_put (set_outbuf b2 c) (left_by k) n) as (b3 & E3 & W3); [apply W2|apply left_u8|done|rewrite zlen_left by done; apply W2|].
  exists b1, b2, b3. split; [exact E1|]. split; [exact E2|]. split.
  - unfold with_out, zoom in *. cbn in *. by rewrite put_rep_put by done.
  - eapply wrote_trans; [exact W1|]. by eapply wrote_trans.
Qed.

Context (c : tt_cline_t) (st : editor) (m n : Z) (Hc : cline_is c st (m + 1)) (Hm : 0 ≤ m) (Ho : out_ok (outbuf c)) (Hn : 0 ≤ n).

Lemma char_does e : printable e = true → room (outbuf c) (zlen (echo e st) + n) →
  does_edit (cline_on_char e) c (edit e st) m (echo e st) n.
Proof.
  intros Hp. pose proof (edit_ok e st (ci_ok _ _ _ Hc)) as Hok'. pose proof (cline_bound _ _ _ Hc) as Hb. pose proof (printable_cchar e Hp) as He.
  destruct (ci_ok _ _ _ Hc) as [Hcur Hl]. pose proof (ci_cursor _ _ _ Hc) as Hcu. destruct st as [l cur]. cbn [fst snd] in *.
  unfold echo, edit in *. rewrite Hp in *. set (tl := drop (Z.to_nat cur) l) in *. set (l' := take (Z.to_nat cur) l ++ e :: tl) in *.
  assert (zlen tl = zlen l - cur) as Hzt by (subst tl; rewrite zlen_drop; lia).
  assert (zlen l' = zlen l + 1) as Hzl by (subst l'; rewrite zlen_app, zlen_cons, zlen_take; lia).
  assert (Forall is_u8 tl) as Htu by (apply Forall_drop, cstring_u8, printable_cstring, Hl).
  rewrite zlen_cons, zlen_app, zlen_left by lia. intros Hroom.
  assert (room (line c) 1) as Hr1 by (eapply room_weaken; [|apply Hc]; lia).
  unfold cline_on_char, does_edit. erewrite bind_step by (by apply with_line_look, (string_len_ok _ _ _ (ci_line _ _ _ Hc))).
  erewrite (bind_step (gets id)) by done. change (id c) with c. rewrite Hcu. cbn [fst].
  rewrite (proj2 (Z.leb_le _ _)) by lia. erewrite (bind_step (assert_always true)) by done. rewrite u8_small by apply He.
  destruct (Z.ltb_spec cur (zlen l)) as [Hlt|Hge].
  - destruct (string_insert_ok (line c) l 0 (ci_line _ _ _ Hc) (ci_rel _ _ _ Hc) cur [e]) as (s1 & E1 & Hb1); [done|by apply u8_one, He|lia|done|].
    erewrite bind_step by (apply with_line_ret; rewrite insert_c_insert by done; exact E1).
    erewrite bind_step by done. rewrite u32_small by lia.
    pose proof (line_changes c (l, cur) (m + 1) 1 l' (cur + 1) s1 Hc Hb1 ltac:(lia) Hok') as Hc2. replace (m + 1 - 1) with m in Hc2 by lia.
    set (c2 := set_cursor (cur + 1) (set_line s1 c)) in *.
    rewrite (bind_step _ _ _ _ _ (subcstr_tail c2 (l', cur + 1) m (cur + 1) Hc2 ltac:(cbn; lia))). cbn [fst].
    replace (zlen l' - (cur + 1)) with (zlen tl) by lia.
    destruct (write_tail c2 (l', cur + 1) m [e] tl (zlen tl) n) as (b1 & b2 & b3 & E & E2 & E3 & Hw); try done; [by apply u8_one, He|lia| |].
    { change (outbuf c2) with (outbuf c). change (zlen [e]) with 1. by replace (1 + zlen tl + zlen tl + n) with (1 + (zlen tl + zlen tl) + n) by lia. }
    unfold tt_buf_put_u8. erewrite bind_step by exact E.
    assert (cline_is (set_outbuf b1 c2) (l', cur + 1) m) as Hc3 by by apply cline_set_out.
    pose proof (tail_bytes _ _ _ (cur + 1) Hc3 ltac:(cbn; lia)) as Et. cbn [fst] in Et. replace (zlen l' - (cur + 1)) with (zlen tl) in Et by lia.
    change (line (set_outbuf b1 c2)) with (line c2) in Et.
    assert (drop (Z.to_nat (cur + 1)) l' = tl) as Hdr.
    { subst l'. rewrite drop_app_ge by (rewrite length_take; unfold zlen in *; lia). rewrite length_take.
      replace (Z.to_nat (cur + 1) - Z.to_nat cur `min` length l)%nat with 1%nat by (unfold zlen in *; lia). done. }
    rewrite Hdr in Et. rewrite (bind_step _ _ _ _ _ Et). rewrite (bind_step _ _ _ _ _ E2), E3.
    eexists. split; [done|]. split; [by apply cline_set_out|exact Hw].
  - assert (cur = zlen l) as -> by lia. assert (tl = []) as Et by (apply zlen_nil_inv; lia).
    assert (l' = l ++ [e]) as El. { subst l'. rewrite Et, take_ge by (unfold zlen; lia). done. }
    destruct (string_append_c_ok (line c) l 0 (ci_line _ _ _ Hc) (ci_rel _ _ _ Hc) e He Hr1) as (s1 & E1 & Hb1).
    erewrite bind_step by (by apply with_line_ret). erewrite bind_step by done. rewrite u32_small by lia. rewrite <- El in Hb1.
    pose proof (line_changes c (l, zlen l) (m + 1) 1 l' (zlen l + 1) s1 Hc Hb1 ltac:(lia) Hok') as Hc2. replace (m + 1 - 1) with m in Hc2 by lia.
    set (c2 := set_cursor (zlen l + 1) (set_line s1 c)) in *.
    destruct (with_out_put c2 [e] n) as (b & E & Hw); [exact Ho|by apply u8_one, He|done|eapply room_weaken; [|exact Hroom]; change (zlen [e]) with 1; lia|].
    unfold tt_buf_put_u8. rewrite E. eexists. split; [done|]. split; [by apply cline_set_out|]. rewrite Et. exact Hw.
Qed.

Lemma delete_does : room (outbuf c) (zlen (echo TT_CLI_EV_DELETE st) + n) →
  does_edit cline_on_delete c (edit TT_CLI_EV_DELETE st) m (echo TT_CLI_EV_DELETE st) n.
Proof.
  pose proof (edit_ok TT_CLI_EV_DELETE st (ci_ok _ _ _ Hc)) as Hok'. pose proof (cline_bound _ _ _ Hc) as Hb.
  destruct (ci_ok _ _ _ Hc) as [Hcur Hl]. pose proof (ci_cursor _ _ _ Hc) as Hcu. destruct st as [l cur]. cbn [fst snd] in *.
  change (echo TT_CLI_EV_DELETE (l, cur)) with (if 0 <? cur then TT_CLI_EV_DELETE :: (if 0 <? zlen (drop (Z.to_nat cur) l) then
    drop (Z.to_nat cur) l ++ 32 :: left_by (zlen (drop (Z.to_nat cur) l) + 1) else []) else []).
  change (edit TT_CLI_EV_DELETE (l, cur)) with (if 0 <? cur then (take (Z.to_nat (cur - 1)) l ++ drop (Z.to_nat cur) l, cur - 1) else (l, cur)) in *.
  unfold cline_on_delete, does_edit. erewrite (bind_step (gets id)) by done. change (id c) with c. rewrite Hcu.
  set (tl := drop (Z.to_nat cur) l) in *. assert (zlen tl = zlen l - cur) as Hzt by (subst tl; rewrite zlen_drop; lia).
  assert (Forall is_u8 tl) as Htu by (apply Forall_drop, cstring_u8, printable_cstring, Hl).
  destruct (Z.ltb_spec 0 cur) as [H0|H0]; cycle 1.
  { rewrite (proj2 (Z.eqb_eq cur 0)) by lia. intros Hroom. exists c. split; [done|]. split; [eapply cline_weaken; [exact Hc|lia]|by apply wrote_refl]. }
  rewrite (proj2 (Z.eqb_neq cur 0)) by lia. cbv zeta. rewrite (u32_small (cur - 1)) by lia. erewrite bind_step by done. intros Hroom.
  set (l' := take (Z.to_nat (cur - 1)) l ++ tl) in *.
  assert (zlen l' = zlen l - 1) as Hzl by (subst l'; rewrite zlen_app, zlen_take; lia).
  destruct (string_remove_range_ok (line c) l 0 (ci_line _ _ _ Hc) (cur - 1) 1) as (s1 & E1 & Hb1); [done|lia..|].
  replace (cur - 1 + 1) with cur in Hb1 by lia. fold tl l' in Hb1.
  erewrite bind_step by (apply with_line_ret; exact E1).
  pose proof (line_changes c (l, cur) (m + 1) 0 l' (cur - 1) s1 Hc Hb1 ltac:(lia) Hok') as Hc2. rewrite Z.sub_0_r in Hc2.
  change (set_line s1 (set_cursor (cur - 1) c)) with (set_cursor (cur - 1) (set_line s1 c)). set (c2 := set_cursor (cur - 1) (set_line s1 c)) in *.
  assert (drop (Z.to_nat (cur - 1)) l' = tl) as Hdr.
  { subst l'. rewrite drop_app_ge by (rewrite length_take; unfold zlen in *; lia). rewrite length_take.
    replace (Z.to_nat (cur - 1) - Z.to_nat (cur - 1) `min` length l)%nat with 0%nat by (unfold zlen in *; lia). done. }
  rewrite zlen_cons in Hroom. set (rest := if 0 <? zlen tl then _ else _) in *. pose proof (zlen_nonneg rest).
  destruct (with_out_put c2 [TT_CLI_EV_DELETE] (zlen rest + n)) as (b & E & Hw); [exact Ho|by apply u8_one|lia|by rewrite Z.add_assoc|]. subst rest.
  unfold tt_buf_put_u8 at 1. erewrite bind_step by exact E.
  pose proof (cline_set_out _ _ _ b Hc2) as Hc3. set (c3 := set_outbuf b c2) in *.
  rewrite (bind_step _ _ _ _ _ (subcstr_tail c3 (l', cur - 1) (m + 1) (cur - 1) Hc3 ltac:(cbn; lia))). cbn [fst].
  replace (zlen l' - (cur - 1)) with (zlen tl) by lia. destruct (Z.ltb_spec 0 (zlen tl)) as [Hl0|Hl0]; cycle 1.
  { exists c3. split; [done|]. split; [eapply cline_weaken; [exact Hc3|lia]|]. exact Hw. }
  rewrite !zlen_app, zlen_cons, zlen_left in Hw by lia.
  destruct (write_tail c3 (l', cur - 1) (m + 1) tl [32] (zlen tl + 1) n) as (b1 & b2 & b3 & F1 & F2 & F3 & Hw3); try done; [apply Hw|by apply u8_one|lia| |].
  { destruct Hw as [_ _ _ Hr]. change (zlen [32]) with 1. by replace (zlen tl + 1 + (zlen tl + 1) + n) with (zlen tl + (1 + (zlen tl + 1)) + n) by lia. }
  pose proof (tail_bytes _ _ _ (cur - 1) Hc3 ltac:(cbn; lia)) as Et. cbn [fst] in Et. replace (zlen l' - (cur - 1)) with (zlen tl) in Et by lia.
  rewrite Hdr in Et. rewrite (bind_step _ _ _ _ _ Et). rewrite (bind_step _ _ _ _ _ F1). unfold tt_buf_put_u8. rewrite (bind_step _ _ _ _ _ F2).
  rewrite u32_small by lia. rewrite F3. eexists. split; [done|]. split; [apply cline_set_out; eapply cline_weaken; [exact Hc3|lia]|].
  change (TT_CLI_EV_DELETE :: tl ++ 32 :: left_by (zlen tl + 1)) with ([TT_CLI_EV_DELETE] ++ tl ++ [32] ++ left_by (zlen tl + 1)).
  eapply wrote_trans; [exact Hw|exact Hw3].
Qed.

Lemma weak_edit o st' d : does_edit o c st' (m + 1) d n → does_edit o c st' m d n.
Proof. intros (c' & E & Hc' & Hw). exists c'. split; [done|]. split; [eapply cline_weaken; [exact Hc'|lia]|done]. Qed.

(** Moving the cursor after a write. *)
Lemma move_does d cur' : Forall is_u8 d → room (outbuf c) (zlen d + n) → editor_ok (st.1, cur') →
  does_edit (with_out (tt_buf_put d);; modify (set_cursor cur')) c (st.1, cur') m d n.
Proof.
  intros Hd Hroom Hok. destruct (with_out_put c d n) as (b & E & Hw); [done..|].
  eexists. split; [by erewrite bind_step by exact E|]. split; [|exact Hw].
  destruct Hc as [? ? Hr ? ? ?]. constructor; cbn; try done. eapply room_weaken; [|exact Hr]. lia.
Qed.

Lemma left_does : room (outbuf c) (zlen (echo TT_CLI_EV_LEFT st) + n) →
  does_edit cline_on_left c (edit TT_CLI_EV_LEFT st) m (echo TT_CLI_EV_LEFT st) n.
Proof.
  pose proof move_does as Hmove. pose proof weak_edit as Hweak.
  pose proof (cline_bound _ _ _ Hc). destruct (ci_ok _ _ _ Hc) as [Hcur Hl]. pose proof (ci_cursor _ _ _ Hc) as Hcu.
  destruct st as [l cur] eqn:Est. cbn [fst snd] in *.
  change (echo TT_CLI_EV_LEFT (l, cur)) with (if 0 <? cur then [TT_CLI_EV_LEFT] else []).
  change (edit TT_CLI_EV_LEFT (l, cur)) with (l, Z.max 0 (cur - 1)). intros Hroom.
  assert (∀ d n st', does_edit (if cur =? 0 then mret tt else with_out (tt_buf_put_u8 TT_CLI_EV_LEFT);; modify (set_cursor (u32 (cur - 1)))) c st' m d n →
    does_edit cline_on_left c st' m d n) as Hred.
  { intros d n0 st' Hd. unfold does_edit, cline_on_left. erewrite (bind_step (gets id)) by done. change (id c) with c. by rewrite Hcu. }
  apply Hred. destruct (Z.ltb_spec 0 cur) as [Hp|Hp].
  - rewrite (proj2 (Z.eqb_neq cur 0)) by lia. rewrite u32_small by lia. replace (Z.max 0 (cur - 1)) with (cur - 1) by lia.
    apply (Hmove [TT_CLI_EV_LEFT] (cur - 1)); [by apply u8_one|done|]. split; [cbn; lia|done].
  - assert (cur = 0) as -> by lia. apply Hweak. apply stays_edit; [exact Hc|done|done].
Qed.

Lemma right_does : room (outbuf c) (zlen (echo TT_CLI_EV_RIGHT st) + n) →
  does_edit cline_on_right c (edit TT_CLI_EV_RIGHT st) m (echo TT_CLI_EV_RIGHT st) n.
Proof.
  pose proof move_does as Hmove. pose proof weak_edit as Hweak.
  pose proof (cline_bound _ _ _ Hc). destruct (ci_ok _ _ _ Hc) as [Hcur Hl]. pose proof (ci_cursor _ _ _ Hc) as Hcu.
  pose proof (string_len_ok _ _ _ (ci_line _ _ _ Hc)) as Hlen.
  destruct st as [l cur] eqn:Est. cbn [fst snd] in *.
  change (echo TT_CLI_EV_RIGHT (l, cur)) with (if cur <? zlen l then [TT_CLI_EV_RIGHT] else []).
  change (edit TT_CLI_EV_RIGHT (l, cur)) with (l, Z.min (zlen l) (cur + 1)). intros Hroom.
  assert (∀ d n st', does_edit (if cur =? zlen l then mret tt else assert_always (cur <? zlen l);; with_out (tt_buf_put_u8 TT_CLI_EV_RIGHT);;
    modify (set_cursor (u32 (cur + 1)))) c st' m d n → does_edit cline_on_right c st' m d n) as Hred.
  { intros d n0 st' Hd. unfold does_edit, cline_on_right. erewrite bind_step by (by apply with_line_look).
    erewrite (bind_step (gets id)) by done. change (id c) with c. by rewrite Hcu. }
  apply Hred. destruct (Z.ltb_spec cur (zlen l)) as [Hp|Hp].
  - rewrite (proj2 (Z.eqb_neq cur (zlen l))) by lia. rewrite u32_small by lia. replace (Z.min (zlen l) (cur + 1)) with (cur + 1) by lia.
    unfold does_edit. erewrite (bind_step (assert_always true)) by done.
    apply (Hmove [TT_CLI_EV_RIGHT] (cur + 1)); [by apply u8_one|done|]. split; [cbn; lia|done].
  - assert (cur = zlen l) as -> by lia. rewrite Z.eqb_refl. replace (Z.min (zlen l) (zlen l + 1)) with (zlen l) by lia.
    apply Hweak. apply stays_edit; [exact Hc|done|done].
Qed.
End handlers.

(** An event does to the line what it does to the editor, and writes its echo. *)
Lemma input_one_does `{Allocator} c st m n e : cline_is c st (m + 1) → 0 ≤ m → out_ok (outbuf c) → 0 ≤ n →
  room (outbuf c) (zlen (echo e st) + n) → does_edit (cline_input_one e) c (edit e st) m (echo e st) n.
Proof.
  intros Hc Hm Ho Hn Hroom. pose proof (ci_cb _ _ _ Hc) as Hcb. destruct (mode c). injection Hcb as Hoc Hoe.
  unfold does_edit, cline_input_one. erewrite (bind_step (gets id)) by done. change (id c) with c. rewrite Hoc, Hoe.
  assert (∀ o : M tt_cline_t unit, does_edit o c (edit e st) m (echo e st) n → does_edit (try o;; mret tt) c (edit e st) m (echo e st) n) as Htry.
  { intros o (c' & E & ?). exists c'. split; [|done]. unfold try. m_simpl. by rewrite E. }
  destruct (printable e) eqn:Ep. { apply Htry. by apply char_does. }
  destruct (TT_CLI_EV_VALID e) eqn:Ev.
  - unfold TT_CLI_EV_VALID, TT_CLI_EV_START, TT_CLI_EV_END in Ev. apply andb_true_iff in Ev as [?%Z.leb_le ?%Z.ltb_lt].
    assert (e = TT_CLI_EV_UP ∨ e = TT_CLI_EV_DOWN ∨ e = TT_CLI_EV_RIGHT ∨ e = TT_CLI_EV_LEFT ∨ e = TT_CLI_EV_INTR ∨ e = TT_CLI_EV_QUIT ∨
      e = TT_CLI_EV_DELETE ∨ e = TT_CLI_EV_ENTER ∨ e = TT_CLI_EV_TAB) as He.
    { unfold TT_CLI_EV_UP, TT_CLI_EV_DOWN, TT_CLI_EV_RIGHT, TT_CLI_EV_LEFT, TT_CLI_EV_INTR, TT_CLI_EV_QUIT, TT_CLI_EV_DELETE, TT_CLI_EV_ENTER, TT_CLI_EV_TAB, TT_CLI_EV_START. lia. }
    assert (edit e st = st → echo e st = [] → does_edit (mret tt) c (edit e st) m (echo e st) n) as Hstay.
    { intros -> Ee. rewrite Ee in *. eapply weak_edit; [done|]. by apply stays_edit. }
    destruct st as [l cur]. destruct He as [->|[->|[->|[->|[->|[->|[->|[->| ->]]]]]]]].
    + by apply Hstay.
    + by apply Hstay.
    + apply Htry. by apply right_does.
    + apply Htry. by apply left_does.
    + apply Htry. eapply weak_edit; [done|]. apply echo_only; [done..|by repeat constructor|done].
    + apply Htry. eapply weak_edit; [done|]. apply echo_only; [done..|by repeat constructor|done].
    + apply Htry. by apply delete_does.
    + by apply Hstay.
    + by apply Hstay.
  - assert (edit e st = st ∧ echo e st = []) as [Ee Ec].
    { destruct st as [l cur]. unfold edit, echo. rewrite Ep. unfold TT_CLI_EV_VALID, TT_CLI_EV_START, TT_CLI_EV_END in Ev.
      unfold TT_CLI_EV_RIGHT, TT_CLI_EV_LEFT, TT_CLI_EV_INTR, TT_CLI_EV_QUIT, TT_CLI_EV_DELETE.
      destruct (Z.eqb_spec e 131) as [->|]; [done|]. destruct (Z.eqb_spec e 130) as [->|]; [done|]. destruct (Z.eqb_spec e 132) as [->|]; [done|].
      destruct (Z.eqb_spec e 133) as [->|]; [done|]. destruct (Z.eqb_spec e 134) as [->|]; [done|]. done. }
    rewrite Ee, Ec in *. eapply weak_edit; [done|]. by apply stays_edit.
Qed.

Lemma input_does `{Allocator} evs : ∀ c st m n, cline_is c st (m + zlen evs) → 0 ≤ m → out_ok (outbuf c) → 0 ≤ n →
  room (outbuf c) (zlen (echoes evs st) + n) → does_edit (tt_cline_input evs) c (edits evs st) m (echoes evs st) n.
Proof.
  induction evs as [|e evs IH]; intros c st m n Hc Hm Ho Hn Hroom.
  - exists c. split; [done|]. split; [eapply cline_weaken; [exact Hc|change (zlen []) with 0; lia]|by apply wrote_refl].
  - rewrite zlen_cons in Hc. pose proof (zlen_nonneg evs). cbn [echoes] in *. rewrite zlen_app, <- Z.add_assoc in Hroom. pose proof (zlen_nonneg (echoes evs (edit e st))).
    destruct (input_one_does c st (m + zlen evs) (zlen (echoes evs (edit e st)) + n) e) as (c1 & E1 & Hc1 & Hw1); [|lia|done|lia|done|].
    { by replace (m + zlen evs + 1) with (m + (1 + zlen evs)) by lia. }
    destruct (IH c1 (edit e st) m n) as (c2 & E2 & Hc2 & Hw2); [done|done|apply Hw1|done|apply Hw1|].
    exists c2. cbn [tt_cline_input]. erewrite bind_step by exact E1. split; [exact E2|]. split; [exact Hc2|]. by eapply wrote_trans.
Qed.

(** C24: whatever events come in, the line editor does to its line what the abstract
    editor does; what it writes makes a terminal that displayed the line with the
    cursor display it again after the edit.  The events that print a control key
    leave the display to the reset that follows them. *)
Theorem cline_displays `{Allocator} c l cur evs t pre :
  cline_is c (l, cur) (zlen evs) → out_ok (outbuf c) → room (outbuf c) (zlen (echoes evs (l, cur))) →
  let st' := edits evs (l, cur) in
  ∃ c', tt_cline_input evs c = Ret (TT_SUCCESS tt, c') ∧ cline_is c' st' 0 ∧
    content (outbuf c') = content (outbuf c) ++ echoes evs (l, cur) ∧
    (TT_CLI_EV_INTR ∉ evs → TT_CLI_EV_QUIT ∉ evs → shows t pre l cur →
     shows (term_run t (echoes evs (l, cur))) pre st'.1 st'.2).
Proof.
  intros Hc Ho Hroom st'. destruct (input_does evs c (l, cur) 0 0) as (c' & E & Hc' & Hw); [by rewrite Z.add_0_l|done|done|done|by rewrite Z.add_0_r|].
  exists c'. split; [exact E|]. split; [exact Hc'|]. split; [apply Hw|]. intros Hi Hq Hsh.
  apply (echoes_shows evs (l, cur) t pre); [done|done|apply Hc|done].
Qed.

(** ** Creation *)

Lemma cline_create_ok `{Allocator} m out attr n : attr_wf (default tt_cline_attr_default attr) → out_ok out →
  malloc_total → attr_max_limit (default tt_cline_attr_default attr) = 0 → 0 ≤ n → 20 + 3 * n + attr_max_extend (default tt_cline_attr_default attr) < 2 ^ 32 →
  ∃ c, tt_cline_create m out attr = Ret (TT_SUCCESS c) ∧ cline_is c ([], 0) n ∧ outbuf c = out.
Proof.
  intros Ha Ho Hm Hl Hn Hle. unfold tt_cline_create. cbv zeta. destruct (__load_cline_cb m) as [oc oe] eqn:Ecb.
  destruct (string_init_room (Some (default tt_cline_attr_default attr)) n) as (s & E & Hs & Hrel & Hr); [done..|].
  rewrite E. cbn [exec_bind]. eexists. split; [done|].
  split; [|done]. constructor; cbn; try done.
Qed.

Lemma cline_displays_witness :
  let out := mk_buf BufInit 16 (mk_memspg 64 4096 0) 0 0 (replicate 16 0) false in
  let evs := [97; 98; 99; TT_CLI_EV_LEFT; TT_CLI_EV_LEFT; 120; TT_CLI_EV_RIGHT; TT_CLI_EV_DELETE] in
  ∃ c c', @tt_cline_create zero_alloc TT_CLI_MODE_DEFAUTL out None = Ret (TT_SUCCESS c) ∧
    @tt_cline_input zero_alloc evs c = Ret (TT_SUCCESS tt, c') ∧ content (line c') = [97; 120; 99; 0] ∧ cursor c' = 2 ∧
    shows (term_run (mk_term [] [36; 32] 2) (content (outbuf c'))) [36; 32] [97; 120; 99] 2.
Proof.
  intros out evs.
  assert (@out_ok zero_alloc out) as Ho.
  { constructor; [apply empty_buf_wf|done|]. split; [by eexists|done]. }
  destruct (@cline_create_ok zero_alloc TT_CLI_MODE_DEFAUTL out None 8) as (c & Ec & Hc & Eo);
    [exact attr_default_wf|exact Ho|by eexists|done|done|vm_compute; reflexivity|].
  destruct (@cline_displays zero_alloc c [] 0 evs (mk_term [] [36; 32] 2) [36; 32]) as (c' & E & Hc' & Hct & Hsh).
  { exact Hc. } { by rewrite Eo. } { rewrite Eo. split; vm_compute; reflexivity. }
  exists c, c'. split; [exact Ec|]. split; [exact E|].
  rewrite Hct, Eo. destruct Hc' as [Hl _ _ Hcur _ _]. split; [rewrite (st_content _ _ _ Hl); reflexivity|]. split; [exact Hcur|].
  apply Hsh; [refine (bool_decide_unpack _ _); vm_compute; exact I|refine (bool_decide_unpack _ _); vm_compute; exact I|by split; [exists 0%nat|]].
Defined.

(** ** What is at the cursor *)

(** The characters after the last blank, and whether no blank follows a word. *)
Fixpoint until_blank (s : list Z) : list Z :=
  match s with c :: s => if c =? 32 then [] else c :: until_blank s | [] => [] end.
Definition last_word (s : list Z) : list Z := rev (until_blank (rev s)).
Definition first_word (s : list Z) : bool := forallb (λ c, negb (c =? 32)) (drop_blank s).

Fixpoint skip_list (ok : Z → bool) (s : list Z) : list Z :=
  match s with c :: s' => if ok c then skip_list ok s' else s | [] => [] end.

Lemma skip_while_ok ok u : ∀ p i cur fuel, 0 ≤ i → i + zlen u = cur → sub p i (zlen u) = u → cur ≤ zlen p → (length u < fuel)%nat →
  skip_while ok p i cur fuel = Ret (cur - zlen (skip_list ok u)).
Proof.
  induction u as [|c u IH]; intros p i cur fuel Hi Hz Hs Hp Hf; (destruct fuel as [|fuel]; [cbn in Hf; lia|]); cbn [skip_while skip_list].
  - change (zlen []) with 0 in *. rewrite (proj2 (Z.ltb_ge i cur)) by lia. do 2 f_equal. lia.
  - rewrite zlen_cons in Hz. pose proof (zlen_nonneg u). rewrite (proj2 (Z.ltb_lt i cur)) by lia. rewrite mem_read_ok by lia. cbn [exec_bind].
    rewrite zlen_cons in Hs. unfold sub in Hs. replace (Z.to_nat (1 + zlen u)) with (S (Z.to_nat (zlen u))) in Hs by lia.
    destruct (drop (Z.to_nat i) p) as [|x q] eqn:Eq; [done|]. cbn [take] in Hs. injection Hs as -> Hs.
    unfold sub at 1. rewrite Eq. cbn [take nth]. change (nth 0 (take (Z.to_nat 1) (c :: q)) 0) with c.
    destruct (ok c); [|do 2 f_equal; rewrite zlen_cons; lia].
    apply IH; [lia|lia| |done|cbn in Hf; lia]. unfold sub. replace (Z.to_nat (i + 1)) with (Z.to_nat i + 1)%nat by lia.
    by rewrite <- drop_drop, Eq.
Qed.

Lemma skip_list_split ok s : ∃ h, s = h ++ skip_list ok s.
Proof.
  induction s as [|c s [h IH]]; [by exists []|]. cbn. destruct (ok c); [|by exists []]. exists (c :: h). by rewrite IH at 1.
Qed.

Lemma word_start_ok p s rest : p = s ++ rest → word_start p (length s) = Ret (zlen s - zlen (last_word s)).
Proof.
  revert rest. induction s as [|c s IH] using rev_ind; intros rest Hp; [done|].
  rewrite length_app. cbn [length]. rewrite Nat.add_1_r. cbn [word_start]. rewrite <- app_assoc in Hp.
  pose proof (f_equal zlen Hp) as Hz. rewrite !zlen_app, zlen_cons in Hz. change (zlen []) with 0 in Hz. pose proof (zlen_nonneg rest). pose proof (zlen_nonneg s).
  rewrite mem_read_ok by (unfold zlen in *; lia). cbn [exec_bind].
  assert (sub p (Z.of_nat (length s)) 1 = [c]) as ->.
  { rewrite Hp. unfold sub. rewrite Nat2Z.id, drop_app_length. done. }
  unfold last_word. rewrite rev_app_distr. cbn [rev app nth until_blank]. destruct (Z.eqb_spec c 32) as [Hc|Hc].
  - f_equal. cbn [rev]. rewrite zlen_app. change (zlen [c]) with 1. change (zlen []) with 0. unfold zlen. lia.
  - rewrite (IH ([c] ++ rest)) by done. f_equal. cbn [rev]. rewrite !zlen_app. change (zlen [c]) with 1. unfold last_word. lia.
Qed.

Lemma until_blank_split s : ∃ k, s = until_blank s ++ k.
Proof.
  induction s as [|c s [k IH]]; [by exists []|]. cbn. destruct (c =? 32); [by exists (c :: s)|]. exists k. cbn. by rewrite <- IH.
Qed.
Lemma last_word_split s : ∃ h, s = h ++ last_word s.
Proof.
  destruct (until_blank_split (rev s)) as [k Hk]. exists (rev k). unfold last_word. rewrite <- rev_app_distr, <- Hk. by rewrite rev_involutive.
Qed.

(** After the leading blanks and the first word, there is a blank or nothing. *)
Lemma first_word_spec s : let v := drop_blank s in let w := skip_list (λ c, negb (c =? 32)) v in
  negb ((zlen w <? zlen v) && (zlen (skip_list (λ c, c =? 32) w) <? zlen w)) = first_word s.
Proof.
  intros v w. unfold first_word. fold v. subst w.
  assert (∀ u : list Z, (zlen u <? zlen u) = false) as Hself by (intros; apply Z.ltb_ge; lia).
  destruct v as [|c v'] eqn:Ev; [done|]. pose proof (drop_blank_head s c v' Ev) as Hc. cbn [skip_list forallb]. rewrite Hc. cbn [negb andb]. clear Ev.
  assert (∀ u, zlen (skip_list (λ c, negb (c =? 32)) u) ≤ zlen u ∧ negb (zlen (skip_list (λ c, c =? 32) (skip_list (λ c, negb (c =? 32)) u)) <? zlen (skip_list (λ c, negb (c =? 32)) u)) =
    forallb (λ c, negb (c =? 32)) u) as Hall.
  { induction u as [|x u [IH1 IH2]]; [done|]. cbn [skip_list forallb]. rewrite zlen_cons. destruct (x =? 32) eqn:Ex; cbn [negb andb].
    - split; [rewrite zlen_cons; lia|]. cbn [skip_list]. rewrite Ex. destruct (skip_list_split (λ c, c =? 32) u) as [h Hh].
      apply negb_false_iff, Z.ltb_lt. rewrite zlen_cons. pose proof (f_equal zlen Hh) as Hz. rewrite zlen_app in Hz. pose proof (zlen_nonneg h). lia.
    - split; [lia|done]. }
  destruct (Hall v') as [H1 H2]. rewrite <- H2. rewrite zlen_cons. by rewrite (proj2 (Z.ltb_lt _ _)) by lia.
Qed.

(** The completion works on the word that ends at the cursor; it is a command unless
    a word and a blank come before it. *)
Lemma cursor_data_ok `{Allocator} c l cur m : cline_is c (l, cur) m → let u := take (Z.to_nat cur) l in
  tt_cline_cursor_data c = Ret (TT_SUCCESS (first_word u, if bool_decide (last_word u = []) then None else Some (last_word u)), c).
Proof.
  intros Hc u. pose proof (ci_line _ _ _ Hc) as Hs. pose proof (ci_cursor _ _ _ Hc) as Hcu. destruct (ci_ok _ _ _ Hc) as [Hcur _]. cbn [fst snd] in *.
  assert (zlen u = cur) as Hu by (subst u; rewrite zlen_take; lia).
  assert (l ++ [0] = u ++ (drop (Z.to_nat cur) l ++ [0])) as El by (rewrite app_assoc; subst u; by rewrite take_drop).
  set (rest := drop (Z.to_nat cur) l ++ [0]) in *. assert (cur < zlen (l ++ [0])) as Hzl by (rewrite zlen_app; change (zlen [0]) with 1; lia).
  unfold tt_cline_cursor_data. erewrite (bind_step (gets id)) by done. change (id c) with c. rewrite Hcu.
  erewrite bind_step by (apply with_line_look; by eapply string_cstr_ok). erewrite bind_step by (apply with_line_look; by eapply string_len_ok).
  cbv zeta. rewrite (proj2 (Z.leb_le cur (zlen l))) by lia. erewrite (bind_step (assert_always true)) by done.
  set (v := drop_blank u). set (w := skip_list (λ c, negb (c =? 32)) v).
  assert (skip_list (λ c, c =? 32) u = v) as Ev by (subst v; clear; induction u as [|x u IH]; [done|]; cbn; by rewrite IH).
  destruct (drop_blank_split u) as [h Hh]. fold v in Hh. destruct (skip_list_split (λ c, negb (c =? 32)) v) as [h2 Hh2]. fold w in Hh2.
  pose proof (f_equal zlen Hh) as Z1. pose proof (f_equal zlen Hh2) as Z2. rewrite zlen_app in Z1, Z2. pose proof (zlen_nonneg h). pose proof (zlen_nonneg h2).
  assert (access (skip_while (λ c, c =? 32) (l ++ [0]) 0 cur (S (Z.to_nat cur))) c = Ret (TT_SUCCESS (zlen h), c)) as E1.
  { unfold access. rewrite (skip_while_ok _ u) by (first [lia|rewrite El; apply sub_app_len|unfold zlen in *; lia]).
    rewrite Ev. cbn [exec_bind]. do 3 f_equal. lia. }
  erewrite bind_step by exact E1.
  pose proof (zlen_nonneg v). pose proof (zlen_nonneg w).
  assert (access (skip_while (λ c, negb (c =? 32)) (l ++ [0]) (zlen h) cur (S (Z.to_nat cur))) c = Ret (TT_SUCCESS (zlen h + zlen h2), c)) as E2.
  { unfold access. rewrite (skip_while_ok _ v) by (first [lia|rewrite El, Hh, <- app_assoc, sub_app_r' by done; apply sub_app_len|unfold zlen in *; lia]).
    fold w. cbn [exec_bind]. do 3 f_equal. lia. }
  erewrite bind_step by exact E2.
  assert (access (skip_while (λ c, c =? 32) (l ++ [0]) (zlen h + zlen h2) cur (S (Z.to_nat cur))) c = Ret (TT_SUCCESS (cur - zlen (skip_list (λ c, c =? 32) w)), c)) as E3.
  { unfold access. rewrite (skip_while_ok _ w); [done|lia|lia| |lia|unfold zlen in *; lia].
    rewrite El, Hh, Hh2, app_assoc, <- app_assoc. rewrite sub_app_r' by (by rewrite zlen_app). apply sub_app_len. }
  erewrite bind_step by exact E3.
  assert (access (word_start (l ++ [0]) (Z.to_nat cur)) c = Ret (TT_SUCCESS (cur - zlen (last_word u)), c)) as E4.
  { unfold access. replace (Z.to_nat cur) with (length u) by (unfold zlen in *; lia). rewrite (word_start_ok _ u rest) by done. cbn [exec_bind]. by rewrite Hu. }
  erewrite bind_step by exact E4. destruct (last_word_split u) as [h3 Hh3]. pose proof (f_equal zlen Hh3) as Z3. rewrite zlen_app in Z3.
  pose proof (zlen_nonneg h3). pose proof (zlen_nonneg (last_word u)).
  rewrite (proj2 (Z.leb_le _ cur)) by lia. erewrite (bind_step (assert_always true)) by done.
  assert (negb ((zlen h <? zlen h + zlen h2) && (zlen h + zlen h2 <? cur - zlen (skip_list (λ c, c =? 32) w))) = first_word u) as Ef.
  { rewrite <- (first_word_spec u). fold v w. f_equal. f_equal.
    - destruct (Z.ltb_spec (zlen h) (zlen h + zlen h2)), (Z.ltb_spec (zlen w) (zlen v)); done || lia.
    - destruct (Z.ltb_spec (zlen h + zlen h2) (cur - zlen (skip_list (λ c, c =? 32) w))), (Z.ltb_spec (zlen (skip_list (λ c, c =? 32) w)) (zlen w)); done || lia. }
  rewrite Ef. case_bool_decide as Hw.
  - rewrite Hw. change (zlen []) with 0. rewrite (proj2 (Z.ltb_ge _ _)) by lia. done.
  - assert (zlen (last_word u) ≠ 0) by (intros E0; by apply zlen_nil_inv in E0). rewrite (proj2 (Z.ltb_lt _ _)) by lia.
    rewrite mem_read_ok by lia. m_simpl.
    assert (sub (l ++ [0]) (cur - zlen (last_word u)) (cur - (cur - zlen (last_word u))) = last_word u) as ->; [|done].
    assert (l ++ [0] = h3 ++ last_word u ++ rest) as -> by (rewrite app_assoc, <- Hh3; exact El).
    rewrite sub_app_r' by lia. replace (cur - (cur - zlen (last_word u))) with (zlen (last_word u)) by lia. apply sub_app_len.
Qed.
