(* ===== verification/Cli.v ===== *)
(** The command line (cli/tt_cli.h and .c): commands, completion, reading of lines
    and the prompt, around the line editor of [CliLine].  The code; [CliRun] shows
    what a session displays. *)

From S2P Require Import Prelude MemSpring Buffer BufferFormat BufCommon SshDef Str CliLine.

#[local] Open Scope Z_scope.

(** ** Data *)

(** What a command, a completion and a reader of lines return. *)
Definition TT_CLIOC_NOOUT : Z := 0.
Definition TT_CLIOC_OUT : Z := 1.
Definition TT_CLIOC_END : Z := 2.
Definition TT_CLICP_NONE : Z := 0.
Definition TT_CLICP_PARTIAL : Z := 1.
Definition TT_CLICP_FULL : Z := 2.
Definition TT_CLICP_FULL_MORE : Z := 3.
Definition TT_CLIOR_DONE : Z := 0.
Definition TT_CLIOR_MORE : Z := 1.
Definition TT_CLIOR_END : Z := 2.
Definition __CLI_NOT_READ : Z := 0.
Definition __CLI_READ_LINE : Z := 1.

(** Function pointers of the user and their parameters are addresses. *)
Record tt_cli_cb_t : Type := mk_cb { cb_param : Z; on_cmd : option Z; on_complete : option Z; on_quit : option Z }.
Record tt_cli_itf_t : Type := mk_itf { itf_param : Z; send : option Z }.
Definition no_cb : tt_cli_cb_t := mk_cb 0 None None None.
Definition no_itf : tt_cli_itf_t := mk_itf 0 None.

Inductive cli_ev_fn : Type :=
  | __def_on_up_f | __def_on_down_f | __def_on_right_f | __def_on_left_f | __def_on_intr_f | __def_on_quit_f
  | __def_on_delete_f | __def_on_enter_f | __def_on_tab_f.
Inductive cli_newline_fn : Type := __def_newline_f.

Record tt_cli_attr_t : Type := mk_cli_attr {
  attr_title : option (list Z);
  attr_sub_title : option (list Z);
  attr_seperator : Z;
  outbuf_attr : tt_buf_attr_t;
  cline_attr : tt_buf_attr_t;
}.

(** The output buffer of the struct is the one that its line points at. *)
Record tt_cli_t : Type := mk_cli {
  cb : tt_cli_cb_t;
  itf : tt_cli_itf_t;
  cli_on_ev : list (option cli_ev_fn);
  newline : cli_newline_fn;
  on_read : option Z;
  title : option (list Z);
  sub_title : option (list Z);
  cli_prefix : tt_string_t;
  acbuf : tt_buf_t;
  cline : tt_cline_t;
  seperator : Z;
  read_mode : Z;
}.
Definition cli_outbuf (c : tt_cli_t) : tt_buf_t := outbuf (cline c).

Definition set_cb (x : tt_cli_cb_t) (c : tt_cli_t) : tt_cli_t :=
  mk_cli x (itf c) (cli_on_ev c) (newline c) (on_read c) (title c) (sub_title c) (cli_prefix c) (acbuf c) (cline c) (seperator c) (read_mode c).
Definition set_itf (x : tt_cli_itf_t) (c : tt_cli_t) : tt_cli_t :=
  mk_cli (cb c) x (cli_on_ev c) (newline c) (on_read c) (title c) (sub_title c) (cli_prefix c) (acbuf c) (cline c) (seperator c) (read_mode c).
Definition set_titles (t u : option (list Z)) (sep : Z) (c : tt_cli_t) : tt_cli_t :=
  mk_cli (cb c) (itf c) (cli_on_ev c) (newline c) (on_read c) t u (cli_prefix c) (acbuf c) (cline c) sep (read_mode c).
Definition set_prefix (s : tt_string_t) (c : tt_cli_t) : tt_cli_t :=
  mk_cli (cb c) (itf c) (cli_on_ev c) (newline c) (on_read c) (title c) (sub_title c) s (acbuf c) (cline c) (seperator c) (read_mode c).
Definition set_acbuf (b : tt_buf_t) (c : tt_cli_t) : tt_cli_t :=
  mk_cli (cb c) (itf c) (cli_on_ev c) (newline c) (on_read c) (title c) (sub_title c) (cli_prefix c) b (cline c) (seperator c) (read_mode c).
Definition set_cline (l : tt_cline_t) (c : tt_cli_t) : tt_cli_t :=
  mk_cli (cb c) (itf c) (cli_on_ev c) (newline c) (on_read c) (title c) (sub_title c) (cli_prefix c) (acbuf c) l (seperator c) (read_mode c).
Definition set_read (m : Z) (f : option Z) (c : tt_cli_t) : tt_cli_t :=
  mk_cli (cb c) (itf c) (cli_on_ev c) (newline c) f (title c) (sub_title c) (cli_prefix c) (acbuf c) (cline c) (seperator c) m.

Definition __load_internal_cb (m : tt_cli_mode_t) : list (option cli_ev_fn) * cli_newline_fn :=
  match m with
  | TT_CLI_MODE_DEFAUTL =>
      ([Some __def_on_up_f; Some __def_on_down_f; Some __def_on_right_f; Some __def_on_left_f; Some __def_on_intr_f;
        Some __def_on_quit_f; Some __def_on_delete_f; Some __def_on_enter_f; Some __def_on_tab_f], __def_newline_f)
  end.

(** ** The user *)

(** The functions of the user, by their addresses; they may change the command line
    and the world outside it. *)
Class CliUser := {
  World : Type;
  call_cmd (f param : Z) (cmd : list Z) : tt_cli_t * World → exec (Z * (tt_cli_t * World));
  call_complete (f param : Z) (cur : option (list Z)) (wait4cmd : bool) : tt_cli_t * World → exec (Z * (tt_cli_t * World));
  call_quit (f : Z) : tt_cli_t * World → exec (bool * (tt_cli_t * World));
  call_read (f : Z) (content : list Z) : tt_cli_t * World → exec (Z * (tt_cli_t * World));
  call_send (f param : Z) (ev : list Z) : tt_cli_t * World → exec (result unit * (tt_cli_t * World));
}.

Definition user {S A} (f : S → exec (A * S)) : M S A := λ s, exec_bind (f s) (λ '(a, s), Ret (TT_SUCCESS a, s)).

(** [tt_cli_complete], which the user's completion may call: [option] are C strings,
    [cur] what was typed, or [None] for the null pointer. *)
Section complete.
Context `{Allocator}.

Fixpoint put_options (head : bool) (option : list (list Z)) : M tt_buf_t unit :=
  match option with
  | [] => mret tt
  | o :: option =>
      (if head then mret tt else tt_buf_put_u8 32);;
      tt_buf_put o;;
      put_options false option
  end.

(** [while ((k < n) && (common[k] == opt[cur_len + k])) ++k;] *)
Fixpoint common_loop (common opt : list Z) (k : Z) (n : nat) : Z :=
  match n, common, opt with
  | S n, x :: common, y :: opt => if x =? y then common_loop common opt (k + 1) n else k
  | _, _, _ => k
  end.

Definition is_match (cur opt : list Z) : bool := strncmp opt cur =? 0.

(** The matching options so far, the rest of the first one and the length of the
    common part. *)
Fixpoint match_loop (cur : list Z) (option : list (list Z)) (match_num : Z) (common : list Z) (common_len : Z) : Z * list Z * Z :=
  match option with
  | [] => (match_num, common, common_len)
  | opt :: option =>
      if is_match cur opt then
        if match_num =? 0 then
          match_loop cur option (u32 (match_num + 1)) (drop (length cur) opt) (u32 (zlen opt - zlen cur))
        else
          let n := Z.min common_len (u32 (zlen opt - zlen cur)) in
          let k := common_loop common (drop (length cur) opt) 0 (Z.to_nat n) in
          match_loop cur option (u32 (match_num + 1)) common (u32 (common_len - u32 (n - k)))
      else match_loop cur option match_num common common_len
  end.

Definition tt_cli_complete (cur : option (list Z)) (option : list (list Z)) : M tt_buf_t Z :=
  match cur with
  | None => put_options true option;; mret TT_CLICP_NONE
  | Some cur =>
      let '(match_num, common, common_len) := match_loop cur option 0 [] 0 in
      if match_num =? 0 then mret TT_CLICP_NONE
      else if match_num =? 1 then
        match List.find (is_match cur) option with
        | Some opt => tt_buf_put (drop (length cur) opt)
        | None => mret tt
        end;;
        mret TT_CLICP_FULL
      else if 0 <? common_len then
        d ← access (mem_read (common ++ [0]) 0 common_len);
        tt_buf_put d;;
        mret TT_CLICP_PARTIAL
      else
        put_options true (List.filter (is_match cur) option);;
        mret TT_CLICP_NONE
  end.
End complete.

(** ** The command line *)

Section cli.
Context `{Allocator} `{CliUser}.
Notation st := (tt_cli_t * World)%type.

Definition set_cli (c : tt_cli_t) (s : st) : st := (c, snd s).
Definition with_cline {A} (m : M tt_cline_t A) : M st A := zoom fst set_cli (zoom cline set_cline m).
Definition with_outbuf {A} (m : M tt_buf_t A) : M st A := with_cline (with_out m).
Definition with_acbuf {A} (m : M tt_buf_t A) : M st A := zoom fst set_cli (zoom acbuf set_acbuf m).
Definition with_prefix {A} (m : M tt_string_t A) : M st A := zoom fst set_cli (zoom cli_prefix set_prefix m).
Definition the_cli : M st tt_cli_t := gets fst.
Definition send_ev (f param : Z) (ev : list Z) : M st unit := call_send f param ev.

Definition tt_cli_attr_default : tt_cli_attr_t :=
  mk_cli_attr (Some [116; 105; 116; 97; 110; 115; 100; 107]) None 36 tt_buf_attr_default tt_cline_attr_default.

Definition append_opt (s : option (list Z)) : M tt_string_t unit :=
  match s with Some s => tt_string_append s | None => mret tt end.
Definition append_sub (s : option (list Z)) : M tt_string_t unit :=
  match s with
  | Some (c :: s) => tt_string_append_c 58;; tt_string_append (c :: s)
  | _ => mret tt
  end.

(** A failure destroys what was made. *)
Definition tt_cli_create (m : tt_cli_mode_t) (ucb : option tt_cli_cb_t) (uitf : option tt_cli_itf_t) (attr : option tt_cli_attr_t) : exec (result tt_cli_t) :=
  let a := default tt_cli_attr_default attr in
  let '(oe, nl) := __load_internal_cb m in
  exec_bind (tt_string_init None) (λ prefix,
  exec_bind ((append_opt (attr_title a);; append_sub (attr_sub_title a);;
              tt_string_append_c (attr_seperator a);; tt_string_append_c 32) prefix) (λ '(r, prefix),
    match r with
    | TT_ERROR _ => exec_bind (tt_string_destroy prefix) (λ _, Ret (TT_ERROR TT_FAIL))
    | TT_SUCCESS _ =>
        exec_bind (tt_buf_init (Some (outbuf_attr a))) (λ ro,
        exec_bind (tt_buf_init None) (λ ra,
          match ro, ra with
          | TT_SUCCESS out, TT_SUCCESS ac =>
              exec_bind (tt_cline_create m out (Some (cline_attr a))) (λ rl,
                match rl with
                | TT_SUCCESS l =>
                    Ret (TT_SUCCESS (mk_cli (default no_cb ucb) (default no_itf uitf) oe nl None (attr_title a) (attr_sub_title a) prefix ac l
                                       (if attr_seperator a =? 0 then 35 else attr_seperator a) __CLI_NOT_READ))
                | TT_ERROR _ =>
                    exec_bind (tt_buf_destroy ac) (λ _, exec_bind (tt_buf_destroy out) (λ _,
                    exec_bind (tt_string_destroy prefix) (λ _, Ret (TT_ERROR TT_FAIL))))
                end)
          | _, _ => Undef
          end))
    end)).

Definition tt_cli_destroy : M st unit :=
  with_prefix tt_string_destroy;; with_cline tt_cline_destroy;; with_outbuf tt_buf_destroy;; with_acbuf tt_buf_destroy.

Definition tt_cli_set_cb (ucb : option tt_cli_cb_t) : M st unit := modify (λ s, set_cli (set_cb (default no_cb ucb) (fst s)) s).
Definition tt_cli_set_itf (uitf : option tt_cli_itf_t) : M st unit := modify (λ s, set_cli (set_itf (default no_itf uitf) (fst s)) s).
Definition tt_cli_read_line (f : option Z) : M st unit := modify (λ s, set_cli (set_read __CLI_READ_LINE f (fst s)) s).

Definition tt_cli_update_prefix (t u : option (list Z)) (sep : Z) : M st unit :=
  with_prefix tt_string_clear;;
  c ← the_cli;
  (match t with
   | Some t' => with_prefix (tt_string_append t');; modify (λ s, set_cli (set_titles t (sub_title (fst s)) (seperator (fst s)) (fst s)) s)
   | None => with_prefix (append_opt (title c))
   end);;
  (match u with
   | Some (_ :: _) => with_prefix (append_sub u);; modify (λ s, set_cli (set_titles (title (fst s)) u (seperator (fst s)) (fst s)) s)
   | _ => with_prefix (append_sub (sub_title c))
   end);;
  (if negb (sep =? 0) then
     with_prefix (tt_string_append_c sep);; modify (λ s, set_cli (set_titles (title (fst s)) (sub_title (fst s)) sep (fst s)) s)
   else if negb (seperator c =? 0) then with_prefix (tt_string_append_c (seperator c))
   else with_prefix (tt_string_append_c 35));;
  with_prefix (tt_string_append_c 32).

(** ** Output *)

Definition tt_cli_output (ev : list Z) : M st unit :=
  c ← the_cli;
  if zlen ev =? 0 then mret tt
  else match send (itf c) with
       | None => mret tt
       | Some f => send_ev f (itf_param (itf c)) ev
       end.

Definition __cli_flush : M st unit :=
  c ← the_cli;
  match send (itf c) with
  | None => mret tt
  | Some f =>
      (if 0 <? TT_BUF_RLEN (cli_outbuf c) then
         d ← access (buf_at (cli_outbuf c) (rpos (cli_outbuf c)) (TT_BUF_RLEN (cli_outbuf c)));
         send_ev f (itf_param (itf c)) d;;
         with_outbuf tt_buf_clear
       else mret tt);;
      c ← the_cli;
      assert_always (rpos (cli_outbuf c) =? 0)
  end.

Definition __def_newline (crlf prefix line : bool) : M st unit :=
  (if crlf then with_outbuf (tt_buf_put_u8 TT_CLI_EV_ENTER) else mret tt);;
  (if prefix then
     p ← with_prefix tt_string_cstr;
     n ← with_prefix tt_string_len;
     d ← access (mem_read (p ++ [0]) 0 n);
     with_outbuf (tt_buf_put d)
   else mret tt);;
  (if line then
     s_len ← with_cline (with_line tt_string_len);
     s ← with_cline (with_line tt_string_cstr);
     d ← access (mem_read (s ++ [0]) 0 s_len);
     with_outbuf (tt_buf_put d);;
     c ← the_cli;
     assert_always (cursor (cline c) <=? s_len);;
     with_outbuf (tt_buf_put_rep TT_CLI_EV_LEFT (u32 (s_len - cursor (cline c))))
   else mret tt).
Definition run_newline (f : cli_newline_fn) : bool → bool → bool → M st unit := match f with __def_newline_f => __def_newline end.
Definition do_newline (crlf prefix line : bool) : M st unit := c ← the_cli; run_newline (newline c) crlf prefix line.

Definition tt_cli_start : M st unit :=
  do_r TT_FAIL (do_newline true true true);;
  do_r TT_FAIL __cli_flush.

(** ** Events *)

Definition __cli_on_cmd (cmd : list Z) : M st Z :=
  c ← the_cli;
  match on_cmd (cb c) with
  | Some f => user (call_cmd f (cb_param (cb c)) cmd)
  | None => mret 0
  end.
Definition __cli_on_quit : M st bool :=
  c ← the_cli;
  match on_quit (cb c) with
  | Some f => user (call_quit f)
  | None => mret false
  end.
(** [if (__cli_on_quit(cli, outbuf)) TT_DO(tt_buf_put_u8(outbuf, TT_CLI_EV_ENTER));] *)
Definition quit_line : M st unit :=
  q ← __cli_on_quit;
  if q : bool then with_outbuf (tt_buf_put_u8 TT_CLI_EV_ENTER) else mret tt.

Definition cli_on_intr : M st unit :=
  with_cline (tt_cline_input_ev TT_CLI_EV_INTR);;
  with_cline tt_cline_reset;;
  do_newline true true true.

Definition cli_on_quit : M st unit :=
  with_cline (tt_cline_input_ev TT_CLI_EV_QUIT);;
  with_outbuf (tt_buf_put_u8 TT_CLI_EV_ENTER);;
  quit_line;;
  fail TT_E_END.

Definition cli_on_enter : M st unit :=
  cmd ← with_cline tt_cline_cstr;
  with_outbuf (tt_buf_put_u8 TT_CLI_EV_ENTER);;
  status ← (match cmd with [] => mret TT_CLIOC_NOOUT | _ => __cli_on_cmd cmd end);
  with_cline tt_cline_reset;;
  c ← the_cli;
  if status =? TT_CLIOC_NOOUT then
    if read_mode c =? __CLI_NOT_READ then do_newline false true true else mret tt
  else if status =? TT_CLIOC_OUT then
    if read_mode c =? __CLI_NOT_READ then do_newline true true true else mret tt
  else
    assert_always (status =? TT_CLIOC_END);;
    quit_line;;
    fail TT_E_END.

(** The bytes in [acbuf]. *)
Definition acbuf_bytes : M st (list Z) :=
  c ← the_cli; access (buf_at (acbuf c) (rpos (acbuf c)) (TT_BUF_RLEN (acbuf c))).

Definition cli_on_tab : M st unit :=
  c ← the_cli;
  match on_complete (cb c) with
  | None => mret tt
  | Some f =>
      '(wait4cmd, data) ← with_cline tt_cline_cursor_data;
      with_acbuf tt_buf_clear;;
      status ← user (call_complete f (cb_param (cb c)) data wait4cmd);
      d ← acbuf_bytes;
      if status =? TT_CLICP_FULL then
        with_cline (tt_cline_input d);; with_cline (tt_cline_input_ev 32)
      else if status =? TT_CLICP_FULL_MORE then with_cline (tt_cline_input d)
      else if status =? TT_CLICP_PARTIAL then with_cline (tt_cline_input d)
      else
        assert_always (status =? TT_CLICP_NONE);;
        if 0 <? zlen d then
          do_newline true false false;;
          with_outbuf (tt_buf_put d);;
          do_newline true true true
        else mret tt
  end.

Definition run_cli_fn (f : cli_ev_fn) : M st unit :=
  match f with
  | __def_on_up_f => mret tt
  | __def_on_down_f => mret tt
  | __def_on_right_f => with_cline (tt_cline_input_ev TT_CLI_EV_RIGHT)
  | __def_on_left_f => with_cline (tt_cline_input_ev TT_CLI_EV_LEFT)
  | __def_on_intr_f => cli_on_intr
  | __def_on_quit_f => cli_on_quit
  | __def_on_delete_f => with_cline (tt_cline_input_ev TT_CLI_EV_DELETE)
  | __def_on_enter_f => cli_on_enter
  | __def_on_tab_f => cli_on_tab
  end.

(** ** Input *)

(** Failures of the flush are not looked at. *)
Definition flush_anyway : M st unit := try __cli_flush;; mret tt.

Fixpoint __cli_read_line (ev : list Z) : M st unit :=
  match ev with
  | [] => flush_anyway
  | e :: ev =>
      if printable e || (e =? TT_CLI_EV_LEFT) || (e =? TT_CLI_EV_RIGHT) || (e =? TT_CLI_EV_DELETE) then
        with_cline (tt_cline_input_ev e);; __cli_read_line ev
      else if e =? TT_CLI_EV_ENTER then
        with_outbuf (tt_buf_put_u8 TT_CLI_EV_ENTER);;
        c ← the_cli;
        status ← (match on_read c with
                  | Some f => content ← with_cline tt_cline_cstr; user (call_read f content)
                  | None => mret TT_CLIOR_DONE
                  end);
        with_cline tt_cline_reset;;
        if status =? TT_CLIOR_DONE then
          do_newline false true false;;
          modify (λ s, set_cli (set_read __CLI_NOT_READ (on_read (fst s)) (fst s)) s);;
          flush_anyway
        else if status =? TT_CLIOR_END then
          quit_line;;
          flush_anyway;;
          fail TT_E_END
        else
          assert_always (status =? TT_CLIOR_MORE);;
          __cli_read_line ev
      else __cli_read_line ev
  end.

Fixpoint cli_events (ev : list Z) : M st unit :=
  match ev with
  | [] => flush_anyway
  | e :: ev =>
      if printable e then with_cline (tt_cline_input [e]);; cli_events ev
      else if TT_CLI_EV_VALID e then
        c ← the_cli;
        match cli_on_ev c !! Z.to_nat (TT_CLI_EV_IDX e) with
        | None => undef
        | Some None => cli_events ev
        | Some (Some f) =>
            r ← try (run_cli_fn f);
            match r with
            | TT_ERROR TT_E_END => flush_anyway;; fail TT_E_END
            | _ => cli_events ev
            end
        end
      else cli_events ev
  end.

Definition tt_cli_input (ev : list Z) : M st unit :=
  if zlen ev =? 0 then mret tt
  else
    c ← the_cli;
    if read_mode c =? __CLI_READ_LINE then __cli_read_line ev else cli_events ev.
Definition tt_cli_input_ev (e : Z) : M st unit := tt_cli_input [e].
End cli.
