(* ===== verification/CliRun.v ===== *)
(** What the completion of [Cli] offers, and what a session displays. *)

From S2P Require Import Prelude MemSpring Buffer BufferFormat BufCommon SshDef Str StrSpec StrRun CliLine CliEdit Cli.

#[local] Open Scope Z_scope.

(** ** Completion *)

(** The longest common prefix. *)
Fixpoint lcp (a b : list Z) : list Z :=
  match a, b with
  | x :: a, y :: b => if x =? y then x :: lcp a b else []
  | _, _ => []
  end.
Definition lcp_all (l : list (list Z)) : list Z :=
  match l with [] => [] | r :: l => foldl lcp r l end.

Lemma lcp_prefix a b : lcp a b `prefix_of` a ∧ lcp a b `prefix_of` b.
Proof.
  revert b. induction a as [|x a IH]; intros b; [split; apply prefix_nil|]. destruct b as [|y b]; [split; apply prefix_nil|]. cbn.
  destruct (Z.eqb_spec x y) as [->|]; [|split; apply prefix_nil]. destruct (IH b) as [H1 H2]. by split; apply prefix_cons.
Qed.
Lemma lcp_greatest p a b : p `prefix_of` a → p `prefix_of` b → p `prefix_of` lcp a b.
Proof.
  revert a b. induction p as [|x p IH]; intros a b [k ->] [k' ->]; [apply prefix_nil|]. cbn. rewrite Z.eqb_refl.
  apply prefix_cons, IH; by eexists.
Qed.

(** It is below every option and above everything else that is. *)
Lemma lcp_all_spec l p : l ≠ [] → p `prefix_of` lcp_all l ↔ Forall (λ r, p `prefix_of` r) l.
Proof.
  intros Hl. destruct l as [|r l]; [done|]. clear Hl. cbn [lcp_all]. revert r. induction l as [|r' l IH]; intros r; cbn [foldl].
  - split; [by repeat constructor|]. by inversion 1.
  - rewrite IH. split.
    + inversion 1 as [|? ? Hp Hl]; subst. destruct (lcp_prefix r r') as [H1 H2]. constructor; [by etrans|]. constructor; [by etrans|done].
    + inversion 1 as [|? ? Hp Hl]; subst. inversion Hl as [|? ? Hp' Hl']; subst. constructor; [by apply lcp_greatest|done].
Qed.

Lemma common_loop_ok n : ∀ a b k, common_loop a b k n = k + zlen (lcp (take n a) b).
Proof.
  induction n as [|n IH]; intros a b k; [destruct a; cbn; unfold zlen; cbn; lia|]. destruct a as [|x a]; [cbn; unfold zlen; cbn; lia|]. destruct b as [|y b]; [cbn; unfold zlen; cbn; lia|].
  cbn [common_loop take lcp]. destruct (x =? y); [|unfold zlen; cbn; lia]. rewrite IH, zlen_cons. lia.
Qed.

(** The options that start with [cur], and what is left of them. *)
Definition matches (cur : list Z) (option : list (list Z)) : list (list Z) := List.filter (is_match cur) option.
Definition rests (cur : list Z) (option : list (list Z)) : list (list Z) := drop (length cur) <$> matches cur option.

(** The code keeps the length of the common part, and takes off only as much as the
    next option differs in; that is right as long as no option is shorter than what
    the ones before it have in common. *)
Fixpoint lasting (r : list Z) (l : list (list Z)) : Prop :=
  match l with
  | [] => True
  | r' :: l => zlen r ≤ zlen r' ∧ lasting (lcp r r') l
  end.
Definition lasting_all (l : list (list Z)) : Prop := match l with [] => True | r :: l => lasting r l end.

Lemma match_prefix cur opt : cstring cur → is_match cur opt = true ↔ cur `prefix_of` opt.
Proof. intros Hc. unfold is_match. rewrite strncmp_prefix by by apply cstring_nz. by rewrite bool_decide_eq_true. Qed.

Lemma match_len cur opt : cstring cur → is_match cur opt = true → zlen (drop (length cur) opt) = zlen opt - zlen cur.
Proof. intros Hc [k ->]%match_prefix; [|done]. rewrite drop_app_length, zlen_app. lia. Qed.

Lemma match_loop_ok cur option num r l : cstring cur → Forall (λ o, zlen o < 2 ^ 32) option → 0 < num → num + zlen option < 2 ^ 32 →
  l `prefix_of` r → zlen r < 2 ^ 32 → lasting l (rests cur option) →
  match_loop cur option num r (zlen l) = (num + zlen (rests cur option), r, zlen (foldl lcp l (rests cur option))).
Proof.
  intros Hc Ho Hnum Hle Hl Hr. revert num l Hnum Hle Hl. unfold rests, matches. induction Ho as [|o option Ho _ IH]; intros num l Hnum Hle Hl Hlast.
  { cbn. by rewrite Z.add_0_r. }
  rewrite zlen_cons in Hle. pose proof (zlen_nonneg option). cbn [match_loop List.filter]. cbn [List.filter] in Hlast.
  destruct (is_match cur o) eqn:Em; [|apply IH; [done|lia|done|done]].
  pose proof (match_len cur o Hc Em) as Hz. pose proof (zlen_nonneg (drop (length cur) o)). cbn [fmap list_fmap] in *. destruct Hlast as [Hll Hlast].
  pose proof (zlen_nonneg l). pose proof (zlen_nonneg cur). rewrite (proj2 (Z.eqb_neq num 0)) by lia. rewrite <- Hz.
  rewrite (u32_small (zlen (drop _ _))) by lia. replace (Z.min (zlen l) (zlen (drop (length cur) o))) with (zlen l) by lia.
  rewrite common_loop_ok. destruct Hl as [k ->]. assert (take (Z.to_nat (zlen l)) (l ++ k) = l) as -> by (unfold zlen; by rewrite Nat2Z.id, take_app_length).
  set (q := lcp l (drop (length cur) o)) in *.
  assert (zlen q ≤ zlen l) as Hq by (destruct (lcp_prefix l (drop (length cur) o)) as [[k' E] _]; apply (f_equal zlen) in E; rewrite zlen_app in E; fold q in E; pose proof (zlen_nonneg k'); lia).
  pose proof (zlen_nonneg q). rewrite zlen_app in Hr. pose proof (zlen_nonneg k).
  rewrite !u32_small by (rewrite ?u32_small; lia). replace (zlen l - (zlen l - (0 + zlen q))) with (zlen q) by lia.
  rewrite IH; [|lia|lia| |done].
  - f_equal. f_equal. rewrite zlen_cons. lia.
  - transitivity l; [apply lcp_prefix|]. by eexists.
Qed.

Lemma match_loop_start cur option : cstring cur → Forall (λ o, zlen o < 2 ^ 32) option → zlen option < 2 ^ 31 →
  lasting_all (rests cur option) →
  match_loop cur option 0 [] 0 = (zlen (rests cur option), hd [] (rests cur option), zlen (lcp_all (rests cur option))).
Proof.
  intros Hc Ho Hle. unfold rests, matches. induction Ho as [|o option Ho Hos IH]; intros Hl; [done|].
  rewrite zlen_cons in Hle. pose proof (zlen_nonneg option). cbn [match_loop List.filter]. cbn [List.filter] in Hl.
  destruct (is_match cur o) eqn:Em; [|apply IH; [lia|done]]. cbn [fmap list_fmap lasting_all hd lcp_all] in *.
  pose proof (match_len cur o Hc Em) as Hz. pose proof (zlen_nonneg (drop (length cur) o)). pose proof (zlen_nonneg cur).
  change (0 =? 0) with true. cbv iota. rewrite <- Hz, (u32_small (zlen _)) by lia. change (u32 (0 + 1)) with 1.
  rewrite match_loop_ok; try done; try lia. f_equal. f_equal. rewrite zlen_cons. done.
Qed.

(** The options separated by blanks. *)
Fixpoint join (l : list (list Z)) : list Z :=
  match l with [] => [] | [o] => o | o :: l => o ++ 32 :: join l end.
Definition completion (cur : option (list Z)) (option : list (list Z)) : Z * list Z :=
  match cur with
  | None => (TT_CLICP_NONE, join option)
  | Some cur =>
      match matches cur option with
      | [] => (TT_CLICP_NONE, [])
      | [o] => (TT_CLICP_FULL, drop (length cur) o)
      | m => if bool_decide (lcp_all (rests cur option) = []) then (TT_CLICP_NONE, join m) else (TT_CLICP_PARTIAL, lcp_all (rests cur option))
      end
  end.

Section complete_ok.
Context `{Allocator}.

Lemma put_options_ok option : ∀ head b n, out_ok b → Forall (Forall is_u8) option → 0 ≤ n →
  let d := if head || bool_decide (option = []) then join option else 32 :: join option in
  room b (zlen d + n) → ∃ b', put_options head option b = Ret (TT_SUCCESS tt, b') ∧ wrote b d n b'.
Proof.
  induction option as [|o option IH]; intros head b n Hb Hu Hn d Hroom.
  { exists b. split; [done|]. subst d. rewrite orb_true_r in *. by apply wrote_refl. }
  apply Forall_cons_1 in Hu as [Ho Hu]. subst d. rewrite orb_false_r in *.
  set (rest := if bool_decide (option = []) then join option else 32 :: join option).
  assert (join (o :: option) = o ++ rest) as Ej by (subst rest; destruct option; [cbn; by rewrite app_nil_r|done]).
  assert (∀ b1, out_ok b1 → room b1 (zlen (o ++ rest) + n) → ∃ b2, (tt_buf_put o;; put_options false option) b1 = Ret (TT_SUCCESS tt, b2) ∧ wrote b1 (o ++ rest) n b2) as Hgo.
  { intros b1 Hb1 Hr1. rewrite zlen_app, <- Z.add_assoc in Hr1. pose proof (zlen_nonneg rest). destruct (out_put b1 o (zlen rest + n)) as (b2 & E & Hw); [done|done|lia|done|].
    destruct (IH false b2 n) as (b3 & E3 & Hw3); [apply Hw|done|done|apply Hw|]. exists b3. erewrite bind_step by exact E. split; [exact E3|]. by eapply wrote_trans. }
  cbn [put_options]. rewrite Ej in *. destruct head.
  - erewrite bind_step by done. by apply Hgo.
  - rewrite zlen_cons, <- Z.add_assoc in Hroom. pose proof (zlen_nonneg (o ++ rest)).
    destruct (out_put b [32] (zlen (o ++ rest) + n)) as (b1 & E & Hw); [done|by apply u8_one|lia|done|].
    unfold tt_buf_put_u8 at 1. erewrite bind_step by exact E. destruct (Hgo b1) as (b2 & E2 & Hw2); [apply Hw|apply Hw|].
    exists b2. split; [exact E2|]. change (32 :: o ++ rest) with ([32] ++ (o ++ rest)). by eapply wrote_trans.
Qed.

Lemma find_matches cur option : List.find (is_match cur) option = head (matches cur option).
Proof. unfold matches. induction option as [|o option IH]; [done|]. cbn. by destruct (is_match cur o). Qed.

Lemma rests_nil cur option : rests cur option = [] ↔ matches cur option = [].
Proof. unfold rests. by destruct (matches cur option). Qed.

Lemma cli_complete_ok cur option b n :
  match cur with None => True | Some cur => cstring cur ∧ lasting_all (rests cur option) end →
  Forall cstring option → Forall (λ o, zlen o < 2 ^ 32) option → zlen option < 2 ^ 31 →
  out_ok b → 0 ≤ n → room b (zlen (completion cur option).2 + n) →
  ∃ b', tt_cli_complete cur option b = Ret (TT_SUCCESS (completion cur option).1, b') ∧
    wrote b (completion cur option).2 n b'.
Proof.
  intros Hcur Hos Hol Hnum Hb Hn Hroom.
  assert (∀ l, Forall cstring l → Forall (Forall is_u8) l) as Hu by (intros l; apply Forall_impl; apply cstring_u8).
  destruct cur as [cur|]; cbn [completion] in *; unfold tt_cli_complete; cycle 1.
  { destruct (put_options_ok option true b n) as (b' & E & Hw); [done|by apply Hu|done|done|]. exists b'. erewrite bind_step by exact E. by split. }
  destruct Hcur as [Hc Hl]. rewrite (match_loop_start cur option Hc Hol Hnum Hl).
  assert (Forall cstring (matches cur option)) as Hms.
  { unfold matches. clear -Hos. induction Hos as [|o option Ho _ IH]; [done|]. cbn. destruct (is_match cur o); [by constructor|done]. }
  assert (Forall cstring (rests cur option)) as Hrs.
  { unfold rests. apply Forall_fmap. refine (Forall_impl _ _ Hms). intros o Ho. by apply Forall_drop. }
  assert (zlen (rests cur option) = zlen (matches cur option)) as Hz by (unfold rests, zlen; by rewrite length_fmap).
  destruct (matches cur option) as [|o [|o' m]] eqn:Em.
  - rewrite Hz. exists b. split; [done|]. by apply wrote_refl.
  - rewrite Hz. change (zlen [o] =? 0) with false. change (zlen [o] =? 1) with true. cbv iota.
    rewrite find_matches, Em. cbn [head fst snd] in *.
    destruct (out_put b (drop (length cur) o) n) as (b' & E & Hw); [done| |done|done|].
    { apply Forall_cons_1 in Hms as [Ho _]. by apply Forall_drop, cstring_u8. }
    exists b'. erewrite bind_step by exact E. by split.
  - assert (2 ≤ zlen (rests cur option)) as H2 by (rewrite Hz, !zlen_cons; pose proof (zlen_nonneg m); lia).
    rewrite (proj2 (Z.eqb_neq _ 0)), (proj2 (Z.eqb_neq _ 1)) by lia. set (L := lcp_all (rests cur option)) in *.
    assert (L `prefix_of` hd [] (rests cur option)) as HL.
    { assert (rests cur option ≠ []) as Hne by (intros E; rewrite E in H2; change (zlen []) with 0 in H2; lia).
      pose proof (proj1 (lcp_all_spec (rests cur option) L Hne) ltac:(done)) as Hp.
      clearbody L. destruct (rests cur option) as [|r rs]; [done|]. by apply Forall_cons_1 in Hp as [? _]. }
    case_bool_decide as EL.
    + rewrite EL. change (0 <? zlen []) with false. cbv iota. fold (matches cur option). rewrite Em.
      cbn [fst snd] in *. destruct (put_options_ok (o :: o' :: m) true b n) as (b' & E & Hw); [done|by apply Hu|done|done|].
      exists b'. erewrite bind_step by exact E. by split.
    + pose proof (zlen_nonneg L). assert (zlen L ≠ 0) by (intros E; by apply zlen_nil_inv in E). rewrite (proj2 (Z.ltb_lt 0 (zlen L))) by lia.
      destruct HL as [k HL]. rewrite HL, <- app_assoc. pose proof (zlen_nonneg (k ++ [0])). rewrite mem_read_ok by (rewrite ?zlen_app in *; lia).
      rewrite sub_app_len. erewrite (bind_step (access _)) by done. cbn [fst snd] in *.
      destruct (out_put b L n) as (b' & E & Hw); [done| |done|done|].
      { assert (Forall cchar (L ++ k)) as Hf by (rewrite <- HL; clear -Hrs; destruct Hrs; [constructor|done]). apply Forall_app in Hf as [Hf _]. by apply cstring_u8. }
      exists b'. erewrite bind_step by exact E. by split.
Qed.

End complete_ok.


(** An option that is shorter than the first one takes nothing off: "list" and "lo"
    complete "l" to "lis", which "lo" does not start with. *)
Lemma complete_overshoots :
  ∃ b', @tt_cli_complete zero_alloc (Some [108]) [[108; 105; 115; 116]; [108; 111]] (mk_buf BufInit 16 (mk_memspg 64 4096 0) 0 0 (replicate 16 0) false)
    = Ret (TT_SUCCESS TT_CLICP_PARTIAL, b') ∧ content b' = [105; 115] ∧ ¬ [108; 105; 115] `prefix_of` [108; 111].
Proof. eexists. split; [vm_compute; reflexivity|]. split; [reflexivity|]. by intros [k [=]]. Qed.
