(* ===== verification/CliSession.v ===== *)
(** A session with the command line of [Cli]: as long as the functions of the user
    keep a contract, the terminal shows the prompt, the line and the cursor. *)

From S2P Require Import Prelude MemSpring Buffer BufferFormat BufCommon SshDef Str StrSpec StrRun CliLine CliEdit Cli.

#[local] Open Scope Z_scope.

Notation plain := (Forall (λ c, printable c = true ∨ c = TT_CLI_EV_ENTER)).
Notation printables := (Forall (λ c, printable c = true)).

(** ** Output on the terminal *)

(** The cursor is behind the last character of the row. *)
Definition at_end (t : term) (u : list Z) : Prop := row t = u ∧ col t = zlen u.

Lemma enter_end t : at_end (term_run t [TT_CLI_EV_ENTER]) [].
Proof. done. Qed.
Lemma type_end t u d : at_end t u → printables d → at_end (term_run t d) (u ++ d).
Proof.
  intros [Hr Hc] Hd. rewrite (type_chars d t u []) by (rewrite ?app_nil_r; done). split; cbn; [by rewrite drop_nil, app_nil_r|by rewrite zlen_app].
Qed.
Lemma plain_end d : plain d → ∀ t u, at_end t u → ∃ v, at_end (term_run t d) v.
Proof.
  induction 1 as [|c d [Hc| ->] Hd IH]; intros t u Ht; [by exists u| |].
  - change (c :: d) with ([c] ++ d). rewrite term_run_app. eapply IH. apply type_end; [exact Ht|by repeat constructor].
  - change (TT_CLI_EV_ENTER :: d) with ([TT_CLI_EV_ENTER] ++ d). rewrite term_run_app. by eapply IH, enter_end.
Qed.
Lemma shows_end t pre l : at_end t (pre ++ l) → shows t pre l (zlen l).
Proof. intros [Hr Hc]. split; [exists 0%nat; rewrite Hr; cbn; by rewrite app_nil_r|by rewrite Hc, zlen_app]. Qed.

(** What a new line prints. *)
Definition newline_out (P : list Z) (ed : editor) (crlf prefix line : bool) : list Z :=
  (if crlf then [TT_CLI_EV_ENTER] else []) ++ (if prefix then P else []) ++ (if line then ed.1 ++ left_by (zlen ed.1 - ed.2) else []).

Lemma prompt_shows t P ed : at_end t [] → printables P → editor_ok ed → shows (term_run t (newline_out P ed false true true)) P ed.1 ed.2.
Proof.
  intros Ht HP [Hc Hl]. unfold newline_out. cbn [app]. rewrite term_run_app. destruct (type_end t [] P Ht HP) as [Hr Hcol]. cbn [app] in *.
  rewrite (type_back _ P []) by (rewrite ?app_nil_r; done || lia). split; cbn; [|lia]. exists 0%nat. by rewrite drop_nil.
Qed.
Lemma newline_shows t P ed : printables P → editor_ok ed → shows (term_run t (newline_out P ed true true true)) P ed.1 ed.2.
Proof.
  intros HP Hed. change (newline_out P ed true true true) with ([TT_CLI_EV_ENTER] ++ newline_out P ed false true true).
  rewrite term_run_app. by apply prompt_shows.
Qed.

Lemma zlen_echo e ed : editor_ok ed → zlen (echo e ed) ≤ 2 * zlen ed.1 + 3.
Proof.
  destruct ed as [l cur]. intros [Hc _]. cbn [fst snd] in *. unfold echo. pose proof (zlen_drop cur l) as Hd. set (tl := drop _ l) in *.
  assert (0 ≤ zlen tl ≤ zlen l) by lia. pose proof (zlen_left (zlen tl)). pose proof (zlen_left (zlen tl + 1)).
  destruct (printable e); [rewrite zlen_cons, zlen_app; lia|].
  destruct (_ && _); [change (zlen [_]) with 1; lia|]. destruct (_ && _); [change (zlen [_]) with 1; lia|].
  destruct (_ =? _); [change (zlen [_; _]) with 2; lia|]. destruct (_ =? _); [change (zlen [_; _]) with 2; lia|].
  destruct (_ && _); [|change (zlen []) with 0; lia]. rewrite zlen_cons. destruct (_ <? _); [|change (zlen []) with 0; lia].
  rewrite zlen_app, zlen_cons. lia.
Qed.
Lemma zlen_edit e ed : editor_ok ed → zlen (edit e ed).1 ≤ zlen ed.1 + 1.
Proof.
  destruct ed as [l cur]. intros [Hc _]. cbn [fst snd] in *. unfold edit.
  destruct (printable e); [cbn; rewrite zlen_app, zlen_cons, zlen_take, zlen_drop; lia|].
  destruct (_ =? _); [cbn; lia|]. destruct (_ =? _); [cbn; lia|]. destruct ((_ =? _) && _) eqn:E; [|cbn; lia].
  apply andb_true_iff in E as [_ E%Z.ltb_lt]. cbn. rewrite zlen_app, zlen_take, zlen_drop. lia.
Qed.
Lemma zlen_edits evs : ∀ ed, editor_ok ed → zlen (edits evs ed).1 ≤ zlen ed.1 + zlen evs.
Proof.
  induction evs as [|e evs IH]; intros ed Hed; [cbn; unfold zlen; cbn; lia|]. cbn [edits foldl]. change (foldl _ ?x evs) with (edits evs x).
  pose proof (IH _ (edit_ok e ed Hed)). pose proof (zlen_edit e ed Hed). rewrite zlen_cons. lia.
Qed.
Lemma zlen_echoes L evs : ∀ ed, editor_ok ed → zlen ed.1 + zlen evs ≤ L → zlen (echoes evs ed) ≤ zlen evs * (2 * L + 3).
Proof.
  induction evs as [|e evs IH]; intros ed Hed HL; [cbn; unfold zlen; cbn; lia|]. cbn [echoes]. rewrite zlen_app, zlen_cons in *.
  pose proof (IH _ (edit_ok e ed Hed)) as HI. pose proof (zlen_edit e ed Hed). pose proof (zlen_echo e ed Hed). pose proof (zlen_nonneg evs).
  specialize (HI ltac:(lia)). lia.
Qed.

(** ** The state of a session *)

(** What only the user changes: the functions, the titles and the prompt. *)
Definition own (c : tt_cli_t) : tt_cli_cb_t * tt_cli_itf_t * option Z * (option (list Z) * option (list Z) * Z) * tt_string_t :=
  (cb c, itf c, on_read c, (title c, sub_title c, seperator c), cli_prefix c).

(** What stands before the cursor is asked for: the word, if there is one, and whether
    it is the first. *)
Definition asked (ed : editor) : option (list Z) * bool :=
  let u := take (Z.to_nat ed.2) ed.1 in
  (if bool_decide (last_word u = []) then None else Some (last_word u), first_word u).

Section session.
Context `{Allocator} `{CliUser}.
Notation st := (tt_cli_t * World)%type.

(** What was delivered so far; the terminal that shows it; how much the user writes
    at a time, and offers to complete; bounds of the prompt and of the line; what the
    user's functions rely on and keep, and what they can complete. *)
Context (shown : World → list Z) (t0 : term) (K C Pmax Lmax : Z).
Context (ok : tt_cli_cb_t * tt_cli_itf_t * option Z * (option (list Z) * option (list Z) * Z) * tt_string_t → World → Prop).
Context (tabs : option (list Z) * bool → Prop).
Context (HK : 0 ≤ K) (HC : 0 ≤ C) (HPmax : 0 ≤ Pmax) (HLmax : 0 ≤ Lmax).

(** The completion buffer has room again once it is cleared. *)
Definition acbuf_ok (b : tt_buf_t) : Prop := out_ok b ∧ room (set_wpos 0 (set_rpos 0 b)) C.

(** Prompt [P], line [ed], room for [m] more characters and [n] bytes of output;
    the terminal that is fed all output is [T]. *)
Record cli_at (s : st) (P : list Z) (ed : editor) (m n : Z) (T : term) (rm : Z) : Prop := {
  ca_prefix : ∃ r, str (cli_prefix s.1) P r;
  ca_printable : printables P;
  ca_plen : zlen P ≤ Pmax;
  ca_line : cline_is (cline s.1) ed m;
  ca_len : zlen ed.1 + m ≤ Lmax;
  ca_out : out_ok (cli_outbuf s.1);
  ca_room : room (cli_outbuf s.1) n;
  ca_rpos : rpos (cli_outbuf s.1) = 0;
  ca_ac : acbuf_ok (acbuf s.1);
  ca_fns : (cli_on_ev s.1, newline s.1) = __load_internal_cb TT_CLI_MODE_DEFAUTL;
  ca_mode : read_mode s.1 = rm;
  ca_term : term_run t0 (shown s.2 ++ content (cli_outbuf s.1)) = T;
  ca_own : ok (own s.1) s.2;
}.

(** The contract of the user's functions: they keep the command line in order, write
    characters and new lines, and a command that says that it wrote nothing did so
    unless it goes on to read. *)
Record cli_contract : Prop := {
  ct_cmd f cmd s P ed m n T rm : cli_at s P ed m (K + n) T rm → 0 ≤ n → on_cmd (cb s.1) = Some f → cmd ≠ [] → printables cmd → zlen cmd ≤ Lmax → ∃ status s' P' d rm',
    call_cmd f (cb_param (cb s.1)) cmd s = Ret (status, s') ∧ plain d ∧ cli_at s' P' ed m n (term_run T d) rm' ∧
    (status = TT_CLIOC_NOOUT ∧ (rm' = __CLI_NOT_READ → d = []) ∨ status = TT_CLIOC_OUT ∨ status = TT_CLIOC_END);
  ct_quit f s P ed m n T rm : cli_at s P ed m (K + n) T rm → 0 ≤ n → on_quit (cb s.1) = Some f → ∃ b s' P' d rm',
    call_quit f s = Ret (b, s') ∧ plain d ∧ cli_at s' P' ed m n (term_run T d) rm';
  ct_read f line s P ed m n T rm : cli_at s P ed m (K + n) T rm → 0 ≤ n → on_read s.1 = Some f → printables line → zlen line ≤ Lmax → ∃ status s' P' d,
    call_read f line s = Ret (status, s') ∧ plain d ∧ cli_at s' P' ed m n (term_run T d) rm ∧
    (status = TT_CLIOR_DONE ∧ (d = [] ∨ ∃ d', d = d' ++ [TT_CLI_EV_ENTER]) ∨ status = TT_CLIOR_MORE ∨ status = TT_CLIOR_END);
  ct_complete f cur w s P ed m n T rm : cli_at s P ed m n T rm → content (acbuf s.1) = [] → room (acbuf s.1) C →
    on_complete (cb s.1) = Some f → tabs (cur, w) → match cur with Some c => printables c | None => True end → ∃ status s',
    call_complete f (cb_param (cb s.1)) cur w s = Ret (status, s') ∧ cli_at s' P ed m n T rm ∧
    printables (content (acbuf s'.1)) ∧ zlen (content (acbuf s'.1)) ≤ C ∧
    (status = TT_CLICP_NONE ∨ status = TT_CLICP_PARTIAL ∨ status = TT_CLICP_FULL ∨ status = TT_CLICP_FULL_MORE);
  ct_send f d c w : ok (own c) w → ∃ r w', call_send f (itf_param (itf c)) d (c, w) = Ret (r, (c, w')) ∧ ok (own c) w' ∧
    shown w' = match r with TT_SUCCESS _ => shown w ++ d | TT_ERROR _ => shown w end;
}.

Lemma ca_edok s P ed m k T rm : cli_at s P ed m k T rm → editor_ok ed.
Proof. intros Ha. apply (ci_ok _ _ _ (ca_line _ _ _ _ _ _ _ Ha)). Qed.

Section steps.
Context (s : st) (P : list Z) (ed : editor) (m n : Z) (T : term) (rm : Z).

(** Writing [d]. *)
Lemma emit_at d : cli_at s P ed m (zlen d + n) T rm → Forall is_u8 d → 0 ≤ n →
  ∃ s', with_outbuf (tt_buf_put d) s = Ret (TT_SUCCESS tt, s') ∧ cli_at s' P ed m n (term_run T d) rm.
Proof.
  intros [] Hd Hn. destruct (with_out_put (cline s.1) d n) as (b & E & Hw); [done..|].
  eexists. split.
  - unfold with_outbuf, with_cline, zoom. rewrite E. cbn. reflexivity.
  - destruct Hw. constructor; cbn; try done.
    + by apply cline_set_out.
    + unfold cli_outbuf in *. cbn in *. congruence.
    + unfold cli_outbuf in *. cbn. rewrite wr_content, app_assoc, term_run_app. congruence.
Qed.

(** Events for the line editor. *)
Lemma edit_at evs : cli_at s P ed (m + zlen evs) (zlen evs * (2 * Lmax + 3) + n) T rm → 0 ≤ m → 0 ≤ n →
  ∃ s', with_cline (tt_cline_input evs) s = Ret (TT_SUCCESS tt, s') ∧ cli_at s' P (edits evs ed) m n (term_run T (echoes evs ed)) rm.
Proof.
  intros Ha Hm Hn. pose proof (ca_edok _ _ _ _ _ _ _ Ha) as Hed. destruct Ha. pose proof (zlen_nonneg evs).
  pose proof (zlen_echoes Lmax evs ed Hed ltac:(lia)) as Hz. pose proof (zlen_edits evs ed Hed).
  destruct (input_does evs (cline s.1) ed m n) as (c' & E & Hc' & Hw); [done..|eapply room_weaken; [|exact ca_room0]; pose proof (zlen_nonneg (echoes evs ed)); lia|].
  eexists. split.
  - unfold with_cline, zoom. rewrite E. cbn. reflexivity.
  - destruct Hw. constructor; cbn; try done; try lia.
    + unfold cli_outbuf in *. cbn in *. congruence.
    + unfold cli_outbuf in *. cbn. rewrite wr_content, app_assoc, term_run_app. congruence.
Qed.

Lemma weak_at m' n' k : cli_at s P ed m k T rm → 0 ≤ m' ≤ m → 0 ≤ n' ≤ k → cli_at s P ed m' n' T rm.
Proof. intros [] ??. constructor; try done; [by eapply cline_weaken|lia|by eapply room_weaken]. Qed.

(** Back to an empty line. *)
Lemma reset_at : cli_at s P ed m n T rm → 0 ≤ m → ∃ s', with_cline tt_cline_reset s = Ret (TT_SUCCESS tt, s') ∧ cli_at s' P ([], 0) m n T rm.
Proof.
  intros Ha Hm. pose proof (ca_edok _ _ _ _ _ _ _ Ha) as [? _]. destruct Ha. destruct ca_line0 as [Hli Hlr Hlm Hlc Hlo Hlf].
  destruct (string_clear_ok (line (cline s.1)) ed.1 0) as (b & E & Hb); [done|].
  assert (tt_cline_reset (cline s.1) = Ret (TT_SUCCESS tt, set_cursor 0 (set_line b (cline s.1)))) as Er.
  { unfold tt_cline_reset. by erewrite bind_step by (apply with_line_ret; exact E). }
  eexists. split.
  - unfold with_cline, zoom. rewrite Er. cbn. reflexivity.
  - constructor; cbn; try done.
    + constructor; cbn; try done.
      * eapply (becomes_str _ _ []); [exact Hb|apply Hli|done].
      * unfold reliable in *. by rewrite (be_mspg _ _ _ _ _ Hb).
      * eapply (becomes_room _ 0 m); [lia|lia|done|exact Hb].
    + change (zlen []) with 0. pose proof (zlen_nonneg ed.1). lia.
Qed.

Lemma prefix_look {A} (f : M tt_string_t A) a : (∀ b r, str b P r → f b = Ret (TT_SUCCESS a, b)) → ∀ k, cli_at s P ed m k T rm →
  with_prefix f s = Ret (TT_SUCCESS a, s).
Proof.
  intros Hf k Ha. destruct (ca_prefix _ _ _ _ _ _ _ Ha) as [r Hr]. unfold with_prefix, zoom. rewrite (Hf _ _ Hr). cbn. by destruct s as [[] w].
Qed.
Lemma line_look {A} (f : M tt_string_t A) a : (∀ b, str b ed.1 0 → f b = Ret (TT_SUCCESS a, b)) → ∀ k, cli_at s P ed m k T rm →
  with_cline (with_line f) s = Ret (TT_SUCCESS a, s).
Proof.
  intros Hf k Ha. pose proof (ci_line _ _ _ (ca_line _ _ _ _ _ _ _ Ha)) as Hr. unfold with_cline, with_line, zoom. rewrite (Hf _ Hr). cbn.
  by destruct s as [[? ? ? ? ? ? ? ? ? []] w].
Qed.
End steps.

(** A new line. *)
Lemma newline_at s P ed m n T rm (cr pf ln : bool) : cli_at s P ed m (1 + Pmax + 2 * Lmax + n) T rm → 0 ≤ m → 0 ≤ n →
  ∃ s', do_newline cr pf ln s = Ret (TT_SUCCESS tt, s') ∧ cli_at s' P ed m n (term_run T (newline_out P ed cr pf ln)) rm.
Proof.
  intros Ha Hm Hn. pose proof (ca_edok _ _ _ _ _ _ _ Ha) as Hed. destruct (id Hed) as [Hcur Hl]. pose proof (ca_len _ _ _ _ _ _ _ Ha). pose proof (ca_plen _ _ _ _ _ _ _ Ha).
  pose proof (zlen_nonneg P). pose proof (ca_printable _ _ _ _ _ _ _ Ha) as HP.
  unfold do_newline, the_cli. erewrite (bind_step (gets fst)) by done. pose proof (ca_fns _ _ _ _ _ _ _ Ha) as Hfn. injection Hfn as _ ->. cbn [run_newline].
  unfold __def_newline, newline_out. rewrite !term_run_app.
  assert (∃ s1, (if cr then with_outbuf (tt_buf_put_u8 TT_CLI_EV_ENTER) else mret tt) s = Ret (TT_SUCCESS tt, s1) ∧
    cli_at s1 P ed m (Pmax + 2 * Lmax + n) (term_run T (if cr then [TT_CLI_EV_ENTER] else [])) rm) as (s1 & E1 & H1').
  { destruct cr; [|exists s; split; [done|]; eapply weak_at; [exact Ha|lia|lia]].
    apply emit_at; [|by apply u8_one|lia]. change (zlen [_]) with 1. by replace (1 + (Pmax + 2 * Lmax + n)) with (1 + Pmax + 2 * Lmax + n) by lia. }
  erewrite bind_step by exact E1. set (T1 := term_run T _) in *.
  assert (∃ s2, (if pf then p ← with_prefix tt_string_cstr; k ← with_prefix tt_string_len; d ← access (mem_read (p ++ [0]) 0 k);
      with_outbuf (tt_buf_put d) else mret tt) s1 = Ret (TT_SUCCESS tt, s2) ∧
    cli_at s2 P ed m (2 * Lmax + n) (term_run T1 (if pf then P else [])) rm) as (s2 & E2 & H2').
  { destruct pf; [|exists s1; split; [done|]; eapply weak_at; [exact H1'|lia|lia]].
    erewrite bind_step by (eapply prefix_look; [intros b r; apply string_cstr_ok|exact H1']).
    erewrite bind_step by (eapply prefix_look; [intros b r; apply string_len_ok|exact H1']).
    rewrite mem_read_ok by (rewrite ?zlen_app; change (zlen [0]) with 1; lia). rewrite sub_app_len.
    erewrite (bind_step (access _)) by done. apply emit_at; [|by apply cstring_u8, printable_cstring|lia].
    eapply weak_at; [exact H1'|lia|lia]. }
  erewrite bind_step by exact E2. set (T2 := term_run T1 _) in *.
  destruct ln; [|exists s2; split; [done|]; eapply weak_at; [exact H2'|lia|lia]].
  erewrite bind_step by (eapply line_look; [intros b; apply string_len_ok|exact H2']).
  erewrite bind_step by (eapply line_look; [intros b; apply string_cstr_ok|exact H2']).
  rewrite mem_read_ok by (rewrite ?zlen_app; change (zlen [0]) with 1; lia). rewrite sub_app_len.
  erewrite (bind_step (access _)) by done.
  destruct (emit_at s2 P ed m (Lmax + n) T2 rm ed.1) as (s3 & E3 & H3'); [|by apply cstring_u8, printable_cstring|lia|].
  { eapply weak_at; [exact H2'|lia|lia]. }
  erewrite bind_step by exact E3. unfold the_cli. erewrite (bind_step (gets fst)) by done.
  pose proof (ci_cursor _ _ _ (ca_line _ _ _ _ _ _ _ H3')) as Hcu. rewrite Hcu. rewrite (proj2 (Z.leb_le _ _)) by lia.
  erewrite (bind_step (assert_always true)) by done. pose proof (cline_bound _ _ _ (ca_line _ _ _ _ _ _ _ H3')). rewrite u32_small by lia.
  rewrite term_run_app.
  assert (with_outbuf (tt_buf_put_rep TT_CLI_EV_LEFT (zlen ed.1 - ed.2)) s3 = with_outbuf (tt_buf_put (left_by (zlen ed.1 - ed.2))) s3) as ->.
  { unfold with_outbuf, with_cline, with_out, zoom. by rewrite put_rep_put by lia. }
  apply emit_at; [|apply left_u8|done]. eapply weak_at; [exact H3'|lia|]. rewrite zlen_left; lia.
Qed.

(** Delivering the output. *)
Lemma flush_at s P ed m n T rm : cli_contract → cli_at s P ed m n T rm → 0 ≤ n → ∃ s', flush_anyway s = Ret (TT_SUCCESS tt, s') ∧ cli_at s' P ed m n T rm.
Proof.
  intros Hct Ha Hn. destruct s as [c w]. pose proof Ha as Ha0. destruct Ha. cbn [fst snd] in *. pose proof (out_wf _ ca_out0) as Hwf.
  enough (∃ r s', __cli_flush (c, w) = Ret (r, s') ∧ cli_at s' P ed m n T rm) as (r & s' & E & Hs').
  { exists s'. split; [|done]. unfold flush_anyway, try. m_simpl. by rewrite E. }
  unfold __cli_flush, the_cli. erewrite (bind_step (gets fst)) by done. cbn [fst]. destruct (send (itf c)) as [f|]; [|by exists (TT_SUCCESS tt), (c, w)].
  assert (rpos (cli_outbuf c) =? 0 = true) as Hr0 by by apply Z.eqb_eq.
  destruct (0 <? TT_BUF_RLEN (cli_outbuf c)); cycle 1.
  { exists (TT_SUCCESS tt), (c, w). split; [|done]. m_simpl. by rewrite Hr0. }
  pose proof (buf_at_content (cli_outbuf c) 0 (zlen (content (cli_outbuf c))) Hwf) as Eb. rewrite Z.add_0_r, sub_all in Eb.
  rewrite (wf_rlen _ Hwf), <- (wf_content _ Hwf). pose proof (zlen_nonneg (content (cli_outbuf c))). rewrite Eb by lia.
  destruct (ct_send Hct f (content (cli_outbuf c)) c w ca_own0) as (r & w' & E & Hown & Hsh).
  unfold send_ev. m_simpl. rewrite E. cbn [exec_bind]. destruct r as [[]|e].
  - destruct (clear_becomes (cli_outbuf c) Hwf) as (b & Ec & Hb). unfold with_outbuf, with_cline, with_out, zoom. cbn [fst set_cli snd].
    unfold cli_outbuf in Ec. rewrite Ec. cbn [exec_bind]. destruct Hb as [Hbw Hbc Hbr Hbp Hbs Hbm Hbo]. cbn.
    m_simpl. unfold cli_outbuf. cbn. rewrite ?Hbr. cbn. exists (TT_SUCCESS tt). eexists. split; [done|]. constructor; cbn; try done.
    + by apply cline_set_out.
    + constructor; [done|rewrite Hbo; apply ca_out0|]. unfold reliable, cli_outbuf in *. rewrite Hbm. apply ca_out0.
    + destruct ca_room0 as [Hr1 Hr2]. unfold cli_outbuf in *. cbn. rewrite Z.mul_0_r, Z.add_0_r in Hbs. split; rewrite ?Hbm; lia.
    + unfold cli_outbuf. cbn. rewrite Hbc, app_nil_r, Hsh. done.
  - exists (TT_ERROR e), (c, w'). split; [done|]. constructor; cbn; try done. by rewrite Hsh.
Qed.

(** ** Events *)

(** What an event does to the line, in a loop that reads commands or lines ([rm]). *)
Inductive ev_step (rm e : Z) (ed : editor) : editor → Prop :=
  | es_edit : e ≠ TT_CLI_EV_ENTER → (rm = __CLI_NOT_READ → e ≠ TT_CLI_EV_INTR ∧ e ≠ TT_CLI_EV_QUIT) → ev_step rm e ed (edit e ed)
  | es_clear : e = TT_CLI_EV_ENTER ∨ e = TT_CLI_EV_INTR → ev_step rm e ed ([], 0)
  | es_tab d : e = TT_CLI_EV_TAB → printables d → ev_step rm e ed (edits d ed).
Inductive session (rm : Z) : list Z → editor → editor → Prop :=
  | ss_nil ed : session rm [] ed ed
  | ss_step e evs ed ed1 ed2 : ev_step rm e ed ed1 → session rm evs ed1 ed2 → session rm (e :: evs) ed ed2
  | ss_done evs ed : rm = __CLI_READ_LINE → session rm (TT_CLI_EV_ENTER :: evs) ed ([], 0).

(** The terminal shows the line behind the prompt, or behind what the user wrote
    when it reads a line. *)
Definition in_session (s : st) (ed : editor) (m n : Z) : Prop :=
  ∃ P T rm pre, cli_at s P ed m n T rm ∧ shows T pre ed.1 ed.2 ∧ (rm = __CLI_NOT_READ → pre = P).
Definition ended (s : st) (m n : Z) : Prop := ∃ P ed T rm, cli_at s P ed m n T rm.

(** Room for the output of one event. *)
Definition ev_cost : Z := (C + 1) * (2 * Lmax + 3) + 2 * (1 + Pmax + 2 * Lmax) + 2 * K + C + 4.

Lemma ev_cost_parts : 0 ≤ C * (2 * Lmax + 3).
Proof. apply Z.mul_nonneg_nonneg; lia. Qed.

(** A handler's two ways to end. *)
Definition handled (o : M st unit) (s : st) (ed' : editor → Prop) (m n : Z) : Prop :=
  (∃ s' ed1, o s = Ret (TT_SUCCESS tt, s') ∧ ed' ed1 ∧ in_session s' ed1 m n) ∨
  (∃ s', o s = Ret (TT_ERROR TT_E_END, s') ∧ ended s' m n).

Lemma emit_ev s P ed m n T rm e : cli_at s P ed m (1 + n) T rm → is_u8 e → 0 ≤ n →
  ∃ s', with_outbuf (tt_buf_put_u8 e) s = Ret (TT_SUCCESS tt, s') ∧ cli_at s' P ed m n (term_run T [e]) rm.
Proof. intros. apply emit_at; [done|by apply u8_one|done]. Qed.

Context (Hct : cli_contract).

Lemma quit_line_at s P ed m n T rm : cli_at s P ed m (K + 1 + n) T rm → 0 ≤ m → 0 ≤ n →
  ∃ s', quit_line s = Ret (TT_SUCCESS tt, s') ∧ ended s' m n.
Proof.
  intros Ha Hm Hn. unfold quit_line, __cli_on_quit, the_cli.
  destruct (on_quit (cb s.1)) as [f|] eqn:Eq.
  - destruct (ct_quit Hct f s P ed m (1 + n) T rm) as (q & s1 & P1 & d & rm1 & E & _ & Ha1); [by rewrite Z.add_assoc|lia|done|].
    assert ((c ← gets fst; match on_quit (cb c) with Some f0 => user (call_quit f0) | None => mret false end) s = Ret (TT_SUCCESS q, s1)) as E1.
    { erewrite (bind_step (gets fst)) by done. rewrite Eq. unfold user. by rewrite E. }
    erewrite bind_step by exact E1. destruct q.
    + destruct (emit_ev s1 P1 ed m n (term_run T d) rm1 TT_CLI_EV_ENTER) as (s2 & E2 & Ha2); [done|done|done|]. exists s2. split; [done|]. do 4 eexists; done.
    + exists s1. split; [done|]. do 4 eexists. eapply weak_at; [exact Ha1|lia|lia].
  - assert ((c ← gets fst; match on_quit (cb c) with Some f0 => user (call_quit f0) | None => mret false end) s = Ret (TT_SUCCESS false, s)) as E1.
    { erewrite (bind_step (gets fst)) by done. by rewrite Eq. }
    erewrite bind_step by exact E1. exists s. split; [done|]. do 4 eexists. eapply weak_at; [exact Ha|lia|lia].
Qed.

Section handlers.
Context (s : st) (P : list Z) (ed : editor) (m n : Z) (T : term) (rm : Z) (pre : list Z).
Context (Ha : cli_at s P ed (m + (C + 1)) (ev_cost + n) T rm) (Hsh : shows T pre ed.1 ed.2) (Hpre : rm = __CLI_NOT_READ → pre = P).
Context (Hm : 0 ≤ m) (Hn : 0 ≤ n).

(** Events that only edit the line. *)
Lemma edit_ev e : e ≠ TT_CLI_EV_INTR → e ≠ TT_CLI_EV_QUIT → handled (with_cline (tt_cline_input_ev e)) s (eq (edit e ed)) m n.
Proof.
  intros Hi Hq. pose proof ev_cost_parts as Hcp. left. destruct (edit_at s P ed m n T rm [e]) as (s' & E & Ha').
  { eapply weak_at; [exact Ha|change (zlen [e]) with 1; lia|]. change (zlen [e]) with 1. unfold ev_cost. lia. }
  { done. } { done. }
  exists s', (edit e ed). split; [exact E|]. split; [done|]. exists P, (term_run T (echoes [e] ed)), rm, pre.
  split; [exact Ha'|]. split; [|done]. apply (echoes_shows [e] ed); [by rewrite list_elem_of_singleton|by rewrite list_elem_of_singleton|by eapply ca_edok|done].
Qed.

Lemma intr_ev : handled cli_on_intr s (eq ([], 0)) m n.
Proof.
  pose proof ev_cost_parts as Hcp. left. unfold cli_on_intr.
  destruct (edit_at s P ed m (1 + Pmax + 2 * Lmax + n) T rm [TT_CLI_EV_INTR]) as (s1 & E1 & Ha1).
  { eapply weak_at; [exact Ha|change (zlen [_]) with 1; lia|]. change (zlen [_]) with 1. unfold ev_cost. lia. }
  { done. } { lia. }
  erewrite bind_step by exact E1. change (edits [TT_CLI_EV_INTR] ed) with (edit TT_CLI_EV_INTR ed) in Ha1.
  destruct (reset_at s1 P _ m _ _ rm Ha1 Hm) as (s2 & E2 & Ha2). erewrite bind_step by exact E2.
  destruct (newline_at s2 P _ m n _ rm true true true Ha2 Hm Hn) as (s3 & E3 & Ha3). exists s3, ([], 0). split; [exact E3|]. split; [done|].
  do 3 eexists. exists P. split; [exact Ha3|]. split; [|done]. apply newline_shows; [eapply ca_printable, Ha3|eapply ca_edok, Ha3].
Qed.

Lemma quit_ev : handled cli_on_quit s (λ _, False) m n.
Proof.
  pose proof ev_cost_parts as Hcp. right. unfold cli_on_quit.
  destruct (edit_at s P ed m (1 + (K + 1 + n)) T rm [TT_CLI_EV_QUIT]) as (s1 & E1 & Ha1).
  { eapply weak_at; [exact Ha|change (zlen [_]) with 1; lia|]. change (zlen [_]) with 1. unfold ev_cost. lia. }
  { done. } { lia. }
  erewrite bind_step by exact E1. destruct (emit_ev s1 P _ m (K + 1 + n) _ rm TT_CLI_EV_ENTER Ha1) as (s2 & E2 & Ha2); [done|lia|].
  erewrite bind_step by exact E2. destruct (quit_line_at s2 P _ m n _ rm Ha2 Hm Hn) as (s3 & E3 & He). erewrite bind_step by exact E3.
  by exists s3.
Qed.

(** After a command: back to an empty line, and a prompt unless a line is read. *)
Lemma after_cmd s1 P1 ed1 T1 rm1 (cr : bool) v : cli_at s1 P1 ed1 m (1 + Pmax + 2 * Lmax + n) T1 rm1 → at_end T1 v → (cr = false → rm1 = __CLI_NOT_READ → v = []) →
  ∃ s2, (with_cline tt_cline_reset;; c ← the_cli; if read_mode c =? __CLI_NOT_READ then do_newline cr true true else mret tt) s1 = Ret (TT_SUCCESS tt, s2) ∧
    in_session s2 ([], 0) m n.
Proof.
  intros G1 Hend Hcr. destruct (reset_at s1 P1 ed1 m _ T1 rm1 G1 Hm) as (s2 & E2 & G2). erewrite bind_step by exact E2.
  unfold the_cli. erewrite (bind_step (gets fst)) by done. rewrite (ca_mode _ _ _ _ _ _ _ G2). destruct (Z.eqb_spec rm1 __CLI_NOT_READ) as [Hr|Hr].
  - destruct (newline_at s2 P1 _ m n _ rm1 cr true true G2 Hm Hn) as (s3 & E3 & G3). exists s3. split; [exact E3|].
    do 3 eexists. exists P1. split; [exact G3|]. split; [|done]. pose proof (ca_printable _ _ _ _ _ _ _ G3). pose proof (ca_edok _ _ _ _ _ _ _ G3).
    destruct cr; [by apply newline_shows|]. rewrite (Hcr eq_refl Hr) in Hend. by apply prompt_shows.
  - exists s2. split; [done|]. do 3 eexists. exists v. split; [eapply weak_at; [exact G2|lia|lia]|]. split; [|done].
    apply (shows_end _ v []). by rewrite app_nil_r.
Qed.

Lemma enter_ev : handled cli_on_enter s (eq ([], 0)) m n.
Proof.
  pose proof ev_cost_parts as Hcp. unfold handled, cli_on_enter, tt_cline_cstr.
  erewrite bind_step by (eapply line_look; [intros b; apply string_cstr_ok|exact Ha]).
  destruct (emit_ev s P ed m (K + (1 + Pmax + 2 * Lmax + K + 1 + n)) T rm TT_CLI_EV_ENTER) as (s1 & E1 & G1); [eapply weak_at; [exact Ha|lia|unfold ev_cost; lia]|done|lia|].
  erewrite bind_step by exact E1. set (T1 := term_run T [TT_CLI_EV_ENTER]) in *. pose proof (enter_end T : at_end T1 []) as Hend.
  assert (∃ status s2 P2 d rm2, (match ed.1 with [] => mret TT_CLIOC_NOOUT | _ => __cli_on_cmd ed.1 end) s1 = Ret (TT_SUCCESS status, s2) ∧ plain d ∧
    cli_at s2 P2 ed m (1 + Pmax + 2 * Lmax + K + 1 + n) (term_run T1 d) rm2 ∧
    (status = TT_CLIOC_NOOUT ∧ (rm2 = __CLI_NOT_READ → d = []) ∨ status = TT_CLIOC_OUT ∨ status = TT_CLIOC_END)) as (status & s2 & P2 & d & rm2 & E2 & Hd & G2 & Hst).
  { assert (∃ P2 d rm2, plain d ∧ cli_at s1 P2 ed m (1 + Pmax + 2 * Lmax + K + 1 + n) (term_run T1 d) rm2 ∧ (rm2 = __CLI_NOT_READ → d = [])) as (P2 & d & rm2 & Hd & G2 & Hnone).
    { exists P, [], rm. split; [constructor|]. split; [|done]. eapply weak_at; [exact G1|lia|lia]. }
    destruct ed.1 as [|c l] eqn:El; [exists TT_CLIOC_NOOUT, s1, P2, d, rm2; split; [done|]; auto|].
    unfold __cli_on_cmd, the_cli. destruct (on_cmd (cb s1.1)) as [f|] eqn:Ef.
    - pose proof (ca_edok _ _ _ _ _ _ _ G1) as [_ Hpr]. pose proof (ca_len _ _ _ _ _ _ _ G1). rewrite El in *.
      destruct (ct_cmd Hct f (c :: l) s1 P ed m _ T1 rm G1) as (status & s2 & P3 & d3 & rm3 & E2 & ?); [lia|done|done|done|lia|].
      exists status, s2, P3, d3, rm3. split; [|done]. erewrite (bind_step (gets fst)) by done. rewrite Ef. unfold user. by rewrite E2.
    - exists TT_CLIOC_NOOUT, s1, P2, d, rm2. split; [erewrite (bind_step (gets fst)) by done; by rewrite Ef|]. auto. }
  erewrite bind_step by exact E2. destruct (plain_end d Hd T1 [] Hend) as [v Hv].
  destruct Hst as [[-> Hnone]|[-> | ->]].
  - left. destruct (after_cmd s2 P2 ed (term_run T1 d) rm2 false v) as (s3 & E3 & G3); [eapply weak_at; [exact G2|lia|lia]|done| |].
    { intros _ Hr. rewrite (Hnone Hr) in Hv. destruct Hv as [Hv _], Hend as [He _]. cbn in Hv. congruence. }
    exists s3, ([], 0). split; [exact E3|done].
  - left. destruct (after_cmd s2 P2 ed (term_run T1 d) rm2 true v) as (s3 & E3 & G3); [eapply weak_at; [exact G2|lia|lia]|done|done|].
    exists s3, ([], 0). split; [exact E3|done].
  - right. destruct (reset_at s2 P2 ed m _ _ rm2 G2 Hm) as (s3 & E3 & G3). erewrite bind_step by exact E3.
    destruct (quit_line_at s3 P2 ([], 0) m n (term_run T1 d) rm2) as (s4 & E4 & G4); [eapply weak_at; [exact G3|lia|lia]|done|done|].
    exists s4. split; [|done]. unfold the_cli. erewrite (bind_step (gets fst)) by done.
    change (TT_CLIOC_END =? TT_CLIOC_NOOUT) with false. change (TT_CLIOC_END =? TT_CLIOC_OUT) with false. cbv iota.
    erewrite (bind_step (assert_always _)) by done. by erewrite bind_step by exact E4.
Qed.

Lemma edits_app d d' st0 : edits (d ++ d') st0 = edits d' (edits d st0).
Proof. apply foldl_app. Qed.
Lemma echoes_app d : ∀ d' st0, echoes (d ++ d') st0 = echoes d st0 ++ echoes d' (edits d st0).
Proof. induction d as [|e d IH]; intros d' st0; [done|]. cbn [app echoes]. by rewrite IH, app_assoc. Qed.

Lemma printables_edit d : printables d → TT_CLI_EV_INTR ∉ d ∧ TT_CLI_EV_QUIT ∉ d.
Proof. rewrite Forall_forall. intros Hd. split; intros Hin; apply list_elem_of_In in Hin; by specialize (Hd _ Hin). Qed.

(** Inserting what was completed. *)
Lemma insert_at s1 d k : cli_at s1 P ed (m + (C + 1)) (ev_cost + n) T rm → printables d → zlen d ≤ C → k = [] ∨ k = [32] → ∃ s2,
  (with_cline (tt_cline_input d);; with_cline (tt_cline_input k)) s1 = Ret (TT_SUCCESS tt, s2) ∧ in_session s2 (edits (d ++ k) ed) m n.
Proof.
  intros G1 Hd Hz Hk. pose proof ev_cost_parts as Hcp. assert (printables (d ++ k)) as Hdk by (apply Forall_app; split; [done|destruct Hk as [-> | ->]; by repeat constructor]).
  assert (0 ≤ zlen k ≤ 1) as Hzk by (destruct Hk as [-> | ->]; unfold zlen; cbn; lia). pose proof (zlen_nonneg d) as Hzd.
  assert (zlen d * (2 * Lmax + 3) ≤ C * (2 * Lmax + 3)) by (apply Z.mul_le_mono_nonneg_r; lia).
  assert (zlen k * (2 * Lmax + 3) ≤ 1 * (2 * Lmax + 3)) by (apply Z.mul_le_mono_nonneg_r; lia).
  destruct (edit_at s1 P ed (m + zlen k) (zlen k * (2 * Lmax + 3) + n) T rm d) as (s2 & E2 & G2).
  { eapply weak_at; [exact G1|lia|]. assert (0 ≤ zlen d * (2 * Lmax + 3)) by (apply Z.mul_nonneg_nonneg; lia).
    assert (0 ≤ zlen k * (2 * Lmax + 3)) by (apply Z.mul_nonneg_nonneg; lia). unfold ev_cost. lia. }
  { lia. } { assert (0 ≤ zlen k * (2 * Lmax + 3)) by (apply Z.mul_nonneg_nonneg; lia). lia. }
  destruct (edit_at s2 P _ m n _ rm k G2 Hm Hn) as (s3 & E3 & G3). exists s3. erewrite bind_step by exact E2. split; [exact E3|].
  rewrite <- edits_app, <- term_run_app, <- echoes_app in G3. do 3 eexists. exists pre. split; [exact G3|]. split; [|done].
  destruct (printables_edit _ Hdk). apply (echoes_shows (d ++ k) ed); [done|done|by eapply ca_edok|done].
Qed.

Lemma until_blank_some s0 : printables s0 → printables (until_blank s0).
Proof. induction 1 as [|c s0 Hc Hs IH]; [constructor|]. cbn. destruct (c =? 32); [constructor|by constructor]. Qed.
Lemma last_word_some s0 : printables s0 → printables (last_word s0).
Proof. intros. by apply Forall_rev, until_blank_some, Forall_rev. Qed.

Lemma tab_ev : tabs (asked ed) → handled cli_on_tab s (λ ed', ed' = ed ∨ ∃ d, printables d ∧ ed' = edits d ed) m n.
Proof.
  intros Htab. pose proof ev_cost_parts as Hcp. pose proof insert_at as Hins. assert (∀ k, 0 ≤ k ≤ ev_cost + n → cli_at s P ed m k T rm) as Hweak by (intros; eapply weak_at; [exact Ha|lia|lia]).
  left. unfold cli_on_tab, the_cli. erewrite (bind_step (gets fst)) by done. destruct (on_complete (cb s.1)) as [f|] eqn:Ef; cycle 1.
  { exists s, ed. split; [done|]. split; [by left|]. exists P, T, rm, pre. split; [apply Hweak; unfold ev_cost; lia|done]. }
  pose proof (ca_line _ _ _ _ _ _ _ Ha) as Hl. destruct ed as [l cur] eqn:Eed. pose proof (cursor_data_ok _ _ _ _ Hl) as Ecd. cbv zeta in Ecd.
  assert (with_cline tt_cline_cursor_data s = Ret (TT_SUCCESS (first_word (take (Z.to_nat cur) l),
    if bool_decide (last_word (take (Z.to_nat cur) l) = []) then None else Some (last_word (take (Z.to_nat cur) l))), s)) as E1.
  { unfold with_cline, zoom. rewrite Ecd. cbn. by destruct s as [[] w]. }
  erewrite bind_step by exact E1. set (ac := set_wpos 0 (set_rpos 0 (acbuf s.1))).
  set (s1 := set_cli (set_acbuf ac s.1) s).
  assert (with_acbuf tt_buf_clear s = Ret (TT_SUCCESS tt, s1)) as E2 by done. cbv beta iota. erewrite bind_step by exact E2.
  assert (cli_at s1 P (l, cur) (m + (C + 1)) (ev_cost + n) T rm) as G1.
  { destruct Ha. constructor; cbn; try done. destruct ca_ac0 as [[Hw Hr Hre] Hroom]. split; [|done]. pose proof (wf_size _ Hw). pose proof (wf_pos _ Hw).
    constructor; [|done|done]. apply wf_set_wpos; [apply wf_set_rpos; [done|lia]|simpl; lia]. }
  destruct (ct_complete Hct f (if bool_decide (last_word (take (Z.to_nat cur) l) = []) then None else Some (last_word (take (Z.to_nat cur) l)))
    (first_word (take (Z.to_nat cur) l)) s1 P (l, cur) _ _ T rm G1) as (status & s2 & E3 & G2 & Hp & Hz & Hst).
  { unfold s1, content. cbn. rewrite Z.sub_diag. unfold sub. by rewrite take_0. }
  { apply Ha. }
  { exact Ef. }
  { exact Htab. }
  { pose proof (ca_edok _ _ _ _ _ _ _ Ha) as [_ Hpr]. case_bool_decide; [done|]. by apply last_word_some, Forall_take. }
  assert (user (call_complete f (cb_param (cb s.1)) (if bool_decide (last_word (take (Z.to_nat cur) l) = []) then None else Some (last_word (take (Z.to_nat cur) l)))
    (first_word (take (Z.to_nat cur) l))) s1 = Ret (TT_SUCCESS status, s2)) as E4 by (unfold user; change (cb s1.1) with (cb s.1) in E3; by rewrite E3).
  erewrite bind_step by exact E4. set (d := content (acbuf s2.1)) in *.
  assert (acbuf_bytes s2 = Ret (TT_SUCCESS d, s2)) as E5.
  { destruct (ca_ac _ _ _ _ _ _ _ G2) as [[Hw _ _] _]. unfold acbuf_bytes, the_cli. erewrite (bind_step (gets fst)) by done. unfold access. rewrite (wf_rlen _ Hw), <- (wf_content _ Hw).
    pose proof (buf_at_content (acbuf s2.1) 0 (zlen d) Hw) as Eb. rewrite Z.add_0_r, sub_all in Eb. fold d. pose proof (zlen_nonneg d) as Hzd. by rewrite Eb by (fold d; lia). }
  erewrite bind_step by exact E5. rewrite <- Eed in *.
  destruct (Hins s2 d [32] G2 Hp Hz ltac:(by right)) as (s3 & E6 & G6). destruct (Hins s2 d [] G2 Hp Hz ltac:(by left)) as (s4 & E7 & G7).
  assert (with_cline (tt_cline_input d) s2 = Ret (TT_SUCCESS tt, s4)) as E8.
  { destruct (edit_at s2 P ed (m + (C + 1) - zlen d) (ev_cost + n - zlen d * (2 * Lmax + 3)) T rm d) as (s5 & E9 & _).
    - by replace (m + (C + 1) - zlen d + zlen d) with (m + (C + 1)) by lia; replace (zlen d * (2 * Lmax + 3) + (ev_cost + n - zlen d * (2 * Lmax + 3))) with (ev_cost + n) by lia.
    - lia.
    - assert (zlen d * (2 * Lmax + 3) ≤ C * (2 * Lmax + 3)) by (apply Z.mul_le_mono_nonneg_r; lia). unfold ev_cost. lia.
    - rewrite (bind_step _ _ _ _ _ E9) in E7. replace s4 with s5; [done|]. injection E7. unfold set_cli. cbn. by destruct s5 as [[] w]. }
  rewrite app_nil_r in G7. destruct Hst as [-> |[-> |[-> | ->]]].
  - change (TT_CLICP_NONE =? TT_CLICP_FULL) with false. change (TT_CLICP_NONE =? TT_CLICP_FULL_MORE) with false. change (TT_CLICP_NONE =? TT_CLICP_PARTIAL) with false.
    cbv iota. erewrite (bind_step (assert_always _)) by done. destruct (0 <? zlen d); cycle 1.
    { exists s2, ed. split; [done|]. split; [by left|]. exists P, T, rm, pre. split; [eapply weak_at; [exact G2|lia|unfold ev_cost; lia]|done]. }
    destruct (newline_at s2 P ed m (C + (1 + Pmax + 2 * Lmax + n)) T rm true false false) as (s5 & E9 & G9); [eapply weak_at; [exact G2|lia|unfold ev_cost; lia]|done|lia|].
    erewrite bind_step by exact E9. pose proof (zlen_nonneg d) as Hzd.
    destruct (emit_at s5 P ed m (1 + Pmax + 2 * Lmax + n) (term_run T (newline_out P ed true false false)) rm d) as (s6 & E10 & G10);
      [eapply weak_at; [exact G9|lia|lia]|by apply cstring_u8, printable_cstring|lia|].
    erewrite bind_step by exact E10.
    destruct (newline_at s6 P ed m n _ rm true true true G10 Hm Hn) as (s7 & E11 & G11). exists s7, ed. split; [exact E11|]. split; [by left|].
    do 3 eexists. exists P. split; [exact G11|]. split; [|done]. apply newline_shows; [eapply ca_printable, G11|eapply ca_edok, G11].
  - exists s4, (edits d ed). split; [exact E8|]. split; [right; eauto|done].
  - exists s3, (edits (d ++ [32]) ed). split; [exact E6|]. split; [|done]. right. exists (d ++ [32]). split; [|done]. apply Forall_app. split; [done|]. by repeat constructor.
  - exists s4, (edits d ed). split; [exact E8|]. split; [right; eauto|done].
Qed.
End handlers.

(** *** The two loops *)

Lemma weak_session s ed m n m' n' : in_session s ed m n → 0 ≤ m' ≤ m → 0 ≤ n' ≤ n → in_session s ed m' n'.
Proof. intros (P & T & rm & pre & Ha & Hs) ??. exists P, T, rm, pre. split; [by eapply weak_at|done]. Qed.
Lemma weak_ended s m n m' n' : ended s m n → 0 ≤ m' ≤ m → 0 ≤ n' ≤ n → ended s m' n'.
Proof. intros (P & ed & T & rm & Ha) ??. do 4 eexists. by eapply weak_at. Qed.

Lemma flush_session s ed m n : in_session s ed m n → 0 ≤ n → ∃ s', flush_anyway s = Ret (TT_SUCCESS tt, s') ∧ in_session s' ed m n.
Proof. intros (P & T & rm & pre & Ha & Hs) Hn. destruct (flush_at _ _ _ _ _ _ _ Hct Ha Hn) as (s' & E & Ha'). exists s'. split; [done|]. by exists P, T, rm, pre. Qed.
Lemma flush_ended s m n : ended s m n → 0 ≤ n → ∃ s', flush_anyway s = Ret (TT_SUCCESS tt, s') ∧ ended s' m n.
Proof. intros (P & ed & T & rm & Ha) Hn. destruct (flush_at _ _ _ _ _ _ _ Hct Ha Hn) as (s' & E & Ha'). exists s'. split; [done|]. by exists P, ed, T, rm. Qed.

(** The end of a loop over the events [evs]. *)
Definition looped (o : M st unit) (s : st) (rm : Z) (evs : list Z) (ed : editor) (m n : Z) : Prop :=
  handled o s (session rm evs ed) m n.

Lemma skip_edit e ed : printable e = false → e ≠ TT_CLI_EV_LEFT → e ≠ TT_CLI_EV_RIGHT → e ≠ TT_CLI_EV_DELETE → edit e ed = ed.
Proof.
  intros Hp Hl Hr Hd. destruct ed as [l cur]. unfold edit. rewrite Hp, (proj2 (Z.eqb_neq _ _) Hl), (proj2 (Z.eqb_neq _ _) Hr), (proj2 (Z.eqb_neq _ _) Hd). done.
Qed.

Lemma printable_ev e : printable e = true → e ≠ TT_CLI_EV_INTR ∧ e ≠ TT_CLI_EV_QUIT ∧ e ≠ TT_CLI_EV_ENTER.
Proof. intros Hp. split_and!; by intros ->. Qed.

Lemma looped_step rm e evs ed ed1 m n o s : ev_step rm e ed ed1 → looped o s rm evs ed1 m n → looped o s rm (e :: evs) ed m n.
Proof.
  intros He [(s' & ed2 & E & Hse & Hin)|Hend]; [left|by right]. exists s', ed2. split; [done|]. split; [by eapply ss_step|done].
Qed.

(** One event of [k + 1]. *)
Lemma session_split s ed m n k : in_session s ed (m + (1 + k) * (C + 1)) ((1 + k) * ev_cost + n) → 0 ≤ k → 0 ≤ m → 0 ≤ n →
  in_session s ed ((m + k * (C + 1)) + (C + 1)) (ev_cost + (k * ev_cost + n)) ∧ 0 ≤ m + k * (C + 1) ∧ 0 ≤ k * ev_cost + n.
Proof.
  intros Hs Hk Hm Hn. pose proof ev_cost_parts as Hcp. assert (0 ≤ k * (C + 1)) by (apply Z.mul_nonneg_nonneg; lia).
  assert (0 ≤ ev_cost) by (unfold ev_cost; lia). assert (0 ≤ k * ev_cost) by (apply Z.mul_nonneg_nonneg; lia).
  split; [|lia]. by replace (m + k * (C + 1) + (C + 1)) with (m + (1 + k) * (C + 1)) by lia; replace (ev_cost + (k * ev_cost + n)) with ((1 + k) * ev_cost + n) by lia.
Qed.

(** Whenever a Tab comes, what is asked for can be completed. *)
Definition tabs_ok (rm : Z) (evs : list Z) (ed : editor) : Prop :=
  ∀ evs1 evs2 ed1, evs = evs1 ++ TT_CLI_EV_TAB :: evs2 → session rm evs1 ed ed1 → tabs (asked ed1).
Lemma tabs_step rm e evs ed ed1 : tabs_ok rm (e :: evs) ed → ev_step rm e ed ed1 → tabs_ok rm evs ed1.
Proof. intros Ht He evs1 evs2 ed2 -> Hs. eapply (Ht (e :: evs1)); [done|]. by eapply ss_step. Qed.

Lemma events_ok evs : ∀ s ed m n, tabs_ok __CLI_NOT_READ evs ed → in_session s ed (m + zlen evs * (C + 1)) (zlen evs * ev_cost + n) → 0 ≤ m → 0 ≤ n →
  looped (cli_events evs) s __CLI_NOT_READ evs ed m n.
Proof.
  induction evs as [|e evs IH]; intros s ed m n Htb Hs Hm Hn.
  { left. change (zlen []) with 0 in Hs. rewrite Z.mul_0_l, Z.add_0_r in Hs. destruct (flush_session s ed m n Hs Hn) as (s' & E & Hs').
    exists s', ed. split; [exact E|]. split; [constructor|done]. }
  rewrite zlen_cons in Hs. pose proof (zlen_nonneg evs) as Hz. destruct (session_split s ed m n (zlen evs) Hs Hz Hm Hn) as ((P & T & rm & pre & Ha & Hsh & Hpre) & Hm' & Hn').
  cbn [cli_events]. destruct (printable e) eqn:Ep.
  { destruct (printable_ev e Ep) as (Hi & Hq & He).
    destruct (edit_ev s P ed _ _ T rm pre Ha Hsh Hpre Hm' Hn' e Hi Hq) as [(s1 & ed1 & E1 & <- & Hs1)|(s1 & E1 & _)]; cycle 1.
    { exfalso. destruct (edit_at s P ed (m + zlen evs * (C + 1)) 0 T rm [e]) as (s2 & E2 & _); [|done|done|unfold tt_cline_input_ev in E1; congruence].
      pose proof ev_cost_parts. eapply weak_at; [exact Ha|change (zlen [e]) with 1; lia|change (zlen [e]) with 1; unfold ev_cost in *; lia]. }
    assert (ev_step __CLI_NOT_READ e ed (edit e ed)) as Hst by by apply es_edit.
    eapply looped_step; [exact Hst|]. unfold looped, handled. rewrite (bind_step _ _ _ _ _ E1). apply IH; [by eapply tabs_step|done..]. }
  destruct (TT_CLI_EV_VALID e) eqn:Ev; cycle 1.
  { assert (edit e ed = ed) as Ee by (apply skip_edit; [done|by intros ->..]). assert (ev_step __CLI_NOT_READ e ed (edit e ed)) as Hst by (apply es_edit; [by intros ->|intros _; split; by intros ->]).
    eapply looped_step; [exact Hst|]. rewrite Ee in *. apply IH; [by eapply tabs_step| |done|done]. eapply weak_session; [exists P, T, rm, pre; split; [exact Ha|done]|lia|].
    pose proof ev_cost_parts. unfold ev_cost in *. lia. }
  unfold looped, handled, the_cli. erewrite (bind_step (gets fst)) by done. pose proof (ca_fns _ _ _ _ _ _ _ Ha) as Hfn. injection Hfn as -> _.
  assert (∀ f ed', handled (run_cli_fn f) s ed' (m + zlen evs * (C + 1)) (zlen evs * ev_cost + n) → (∀ ed1, ed' ed1 → ev_step __CLI_NOT_READ e ed ed1) →
    looped (r ← try (run_cli_fn f); match r with TT_ERROR TT_E_END => flush_anyway;; fail TT_E_END | _ => cli_events evs end) s __CLI_NOT_READ (e :: evs) ed m n) as Hgo.
  { intros f ed' [(s1 & ed1 & E1 & He1 & Hs1)|(s1 & E1 & Hs1)] Hst.
    - eapply looped_step; [by apply Hst|]. unfold looped, handled. assert (try (run_cli_fn f) s = Ret (TT_SUCCESS (TT_SUCCESS tt), s1)) as E2 by (unfold try; by rewrite E1).
      rewrite (bind_step _ _ _ _ _ E2). apply IH; [eapply tabs_step; [exact Htb|by apply Hst]|done..].
    - right. assert (try (run_cli_fn f) s = Ret (TT_SUCCESS (TT_ERROR TT_E_END), s1)) as E2 by (unfold try; by rewrite E1).
      destruct (flush_ended s1 _ _ Hs1 Hn') as (s2 & E3 & He). exists s2. split; [|eapply weak_ended; [exact He|lia|]].
      + erewrite bind_step by exact E2. cbv beta iota. by erewrite bind_step by exact E3.
      + pose proof ev_cost_parts. assert (0 ≤ zlen evs * ev_cost) by (apply Z.mul_nonneg_nonneg; unfold ev_cost; lia). lia. }
  unfold TT_CLI_EV_VALID, TT_CLI_EV_START, TT_CLI_EV_END in Ev. apply andb_true_iff in Ev as [Ev1%Z.leb_le Ev2%Z.ltb_lt].
  assert (in_session s ed (m + zlen evs * (C + 1)) (zlen evs * ev_cost + n)) as Hstay.
  { exists P, T, rm, pre. split; [|done]. eapply weak_at; [exact Ha|lia|pose proof ev_cost_parts; unfold ev_cost in *; lia]. }
  assert (e = 128 ∨ e = 129 ∨ e = 130 ∨ e = 131 ∨ e = 132 ∨ e = 133 ∨ e = 134 ∨ e = 135 ∨ e = 136) as He by lia.
  destruct He as [->|[->|[->|[->|[->|[->|[->|[->| ->]]]]]]]]; cbn -[run_cli_fn try].
  - apply (Hgo __def_on_up_f (eq ed)); [left; by exists s, ed|]. intros ? <-. rewrite <- (skip_edit 128 ed) at 2; [by apply es_edit|done..].
  - apply (Hgo __def_on_down_f (eq ed)); [left; by exists s, ed|]. intros ? <-. rewrite <- (skip_edit 129 ed) at 2; [by apply es_edit|done..].
  - apply (Hgo __def_on_right_f (eq (edit TT_CLI_EV_RIGHT ed))); [by eapply edit_ev|]. intros ? <-. by apply es_edit.
  - apply (Hgo __def_on_left_f (eq (edit TT_CLI_EV_LEFT ed))); [by eapply edit_ev|]. intros ? <-. by apply es_edit.
  - apply (Hgo __def_on_intr_f (eq ([], 0))); [by eapply intr_ev|]. intros ? <-. apply es_clear. by right.
  - apply (Hgo __def_on_quit_f (λ _, False)); [by eapply quit_ev|done].
  - apply (Hgo __def_on_delete_f (eq (edit TT_CLI_EV_DELETE ed))); [by eapply edit_ev|]. intros ? <-. by apply es_edit.
  - apply (Hgo __def_on_enter_f (eq ([], 0))); [by eapply enter_ev|]. intros ? <-. apply es_clear. by left.
  - apply (Hgo __def_on_tab_f _ (tab_ev s P ed _ _ T rm pre Ha Hsh Hpre Hm' Hn' (Htb [] evs ed eq_refl (ss_nil _ ed)))).
    intros ed1 [-> |(d & Hd & ->)]; [|by apply es_tab]. change ed with (edits [] ed) at 2. by apply es_tab.
Qed.

(** Reading a line: the enter, the reader, and what it asks for. *)
Definition in_read (s : st) (ed : editor) (m n : Z) : Prop := ∃ P T pre, cli_at s P ed m n T __CLI_READ_LINE ∧ shows T pre ed.1 ed.2.

Lemma read_session s ed m n : in_read s ed m n → in_session s ed m n.
Proof. intros (P & T & pre & Ha & Hs). by exists P, T, __CLI_READ_LINE, pre. Qed.

Lemma read_enter_ok s ed m n m' n' evs : in_read s ed (m + (C + 1)) (ev_cost + n) → 0 ≤ m' ≤ m → 0 ≤ n' ≤ n →
  (∀ s1, in_read s1 ([], 0) m n → looped (__cli_read_line evs) s1 __CLI_READ_LINE evs ([], 0) m' n') →
  looped (__cli_read_line (TT_CLI_EV_ENTER :: evs)) s __CLI_READ_LINE (TT_CLI_EV_ENTER :: evs) ed m' n'.
Proof.
  intros (P & T & pre & Ha & Hsh) Hm' Hn' Hmore. assert (0 ≤ m) as Hm by lia. assert (0 ≤ n) as Hn by lia. set (rm := __CLI_READ_LINE) in *. pose proof ev_cost_parts as Hcp. unfold looped, handled. cbn [__cli_read_line].
  change (printable TT_CLI_EV_ENTER || (TT_CLI_EV_ENTER =? TT_CLI_EV_LEFT) || (TT_CLI_EV_ENTER =? TT_CLI_EV_RIGHT) || (TT_CLI_EV_ENTER =? TT_CLI_EV_DELETE)) with false.
  change (TT_CLI_EV_ENTER =? TT_CLI_EV_ENTER) with true. cbv iota.
  destruct (emit_ev s P ed m (K + (1 + Pmax + 2 * Lmax + K + 1 + n)) T rm TT_CLI_EV_ENTER) as (s1 & E1 & G1); [eapply weak_at; [exact Ha|lia|unfold ev_cost; lia]|done|lia|].
  erewrite bind_step by exact E1. unfold the_cli. erewrite (bind_step (gets fst)) by done.
  set (T1 := term_run T [TT_CLI_EV_ENTER]) in *. pose proof (enter_end T : at_end T1 []) as Hend.
  assert (∃ status s2 P2 d, (match on_read s1.1 with Some f => content ← with_cline tt_cline_cstr; user (call_read f content) | None => mret TT_CLIOR_DONE end) s1 =
      Ret (TT_SUCCESS status, s2) ∧ plain d ∧ cli_at s2 P2 ed m (1 + Pmax + 2 * Lmax + K + 1 + n) (term_run T1 d) rm ∧
    (status = TT_CLIOR_DONE ∧ (d = [] ∨ ∃ d', d = d' ++ [TT_CLI_EV_ENTER]) ∨ status = TT_CLIOR_MORE ∨ status = TT_CLIOR_END)) as (status & s2 & P2 & d & E2 & Hd & G2 & Hst).
  { destruct (on_read s1.1) as [f|] eqn:Ef.
    - pose proof (ca_edok _ _ _ _ _ _ _ G1) as [_ Hpr]. pose proof (ca_len _ _ _ _ _ _ _ G1).
      destruct (ct_read Hct f ed.1 s1 P ed m _ T1 rm G1) as (status & s2 & P2 & d & E2 & ?); [lia|done|done|lia|]. exists status, s2, P2, d. split; [|done].
      unfold tt_cline_cstr. erewrite bind_step by (eapply line_look; [intros b; apply string_cstr_ok|exact G1]). unfold user. by rewrite E2.
    - exists TT_CLIOR_DONE, s1, P, []. split; [done|]. split; [constructor|]. split; [eapply weak_at; [exact G1|lia|lia]|]. left. split; [done|by left]. }
  erewrite bind_step by exact E2. destruct (plain_end d Hd T1 [] Hend) as [v Hv].
  destruct (reset_at s2 P2 ed m _ _ rm G2 Hm) as (s3 & E3 & G3). erewrite bind_step by exact E3.
  destruct Hst as [[-> Hdone]|[-> | ->]].
  - change (TT_CLIOR_DONE =? TT_CLIOR_DONE) with true. cbv iota. left.
    assert (at_end (term_run T1 d) []) as He.
    { destruct Hdone as [-> |[d' ->]]; [exact Hend|]. rewrite term_run_app. apply enter_end. }
    destruct (newline_at s3 P2 _ m n _ rm false true false ltac:(eapply weak_at; [exact G3|lia|lia]) Hm Hn) as (s4 & E4 & G4).
    erewrite bind_step by exact E4. erewrite (bind_step (modify _)) by done. set (s5 := set_cli _ s4).
    assert (in_session s5 ([], 0) m n) as Hin.
    { exists P2. do 2 eexists. exists P2. split; [|split; [|done]].
      - destruct G4. constructor; cbn; try done.
      - unfold newline_out. cbn [app fst snd]. rewrite app_nil_r. apply (shows_end _ P2 []). rewrite app_nil_r.
        rewrite <- (app_nil_l P2) at 2. apply type_end; [done|by eapply ca_printable]. }
    destruct (flush_session s5 _ m n Hin Hn) as (s6 & E6 & Hin6). exists s6, ([], 0). split; [exact E6|]. split; [by apply ss_done|]. by eapply weak_session.
  - change (TT_CLIOR_MORE =? TT_CLIOR_DONE) with false. change (TT_CLIOR_MORE =? TT_CLIOR_END) with false. cbv iota.
    erewrite (bind_step (assert_always _)) by done. apply (looped_step _ _ _ _ ([], 0)); [apply es_clear; by left|].
    apply Hmore. exists P2, (term_run T1 d), v. split; [eapply weak_at; [exact G3|lia|lia]|]. apply (shows_end _ v []). by rewrite app_nil_r.
  - change (TT_CLIOR_END =? TT_CLIOR_DONE) with false. change (TT_CLIOR_END =? TT_CLIOR_END) with true. cbv iota. right.
    destruct (quit_line_at s3 P2 ([], 0) m n (term_run T1 d) rm) as (s4 & E4 & G4); [eapply weak_at; [exact G3|lia|lia]|done|done|].
    destruct (flush_ended s4 m n G4 Hn) as (s5 & E5 & G5). exists s5. split; [|by eapply weak_ended]. erewrite bind_step by exact E4. by erewrite bind_step by exact E5.
Qed.

Lemma read_ok evs : ∀ s ed m n, in_read s ed (m + zlen evs * (C + 1)) (zlen evs * ev_cost + n) → 0 ≤ m → 0 ≤ n →
  looped (__cli_read_line evs) s __CLI_READ_LINE evs ed m n.
Proof.
  induction evs as [|e evs IH]; intros s ed m n Hs Hm Hn.
  { left. change (zlen []) with 0 in Hs. rewrite Z.mul_0_l, Z.add_0_r in Hs. destruct (flush_session s ed m n (read_session _ _ _ _ Hs) Hn) as (s' & E & Hs').
    exists s', ed. split; [exact E|]. split; [constructor|done]. }
  rewrite zlen_cons in Hs. pose proof (zlen_nonneg evs) as Hz. destruct (session_split s ed m n (zlen evs) (read_session _ _ _ _ Hs) Hz Hm Hn) as (_ & Hm' & Hn').
  pose proof ev_cost_parts as Hcp. assert (0 ≤ ev_cost) as Hev by (unfold ev_cost; lia). assert (2 * Lmax + 3 ≤ ev_cost) as Hev1 by (unfold ev_cost; lia).
  assert (in_read s ed (m + zlen evs * (C + 1) + (C + 1)) (ev_cost + (zlen evs * ev_cost + n))) as Hs'.
  { by replace (m + zlen evs * (C + 1) + (C + 1)) with (m + (1 + zlen evs) * (C + 1)) by lia; replace (ev_cost + (zlen evs * ev_cost + n)) with ((1 + zlen evs) * ev_cost + n) by lia. }
  destruct (decide (e = TT_CLI_EV_ENTER)) as [->|He].
  { assert (0 ≤ zlen evs * (C + 1)) by (apply Z.mul_nonneg_nonneg; lia). assert (0 ≤ zlen evs * ev_cost) by (apply Z.mul_nonneg_nonneg; lia).
    apply (read_enter_ok s ed _ _ m n evs Hs'); [lia|lia|]. intros s1 Hs1. by apply (IH s1 ([], 0)). }
  destruct Hs' as (P & T & pre & Ha & Hsh). cbn [__cli_read_line].
  destruct (printable e || _ || _ || _) eqn:Ee; cycle 1.
  - rewrite (proj2 (Z.eqb_neq _ _) He). apply orb_false_iff in Ee as [[[Ep El%Z.eqb_neq]%orb_false_iff Er%Z.eqb_neq]%orb_false_iff Ed%Z.eqb_neq].
    eapply looped_step; [by apply es_edit|]. rewrite skip_edit by done. apply IH; [|done|done]. exists P, T, pre. split; [|done].
    eapply weak_at; [exact Ha|lia|lia].
  - assert (e ≠ TT_CLI_EV_INTR ∧ e ≠ TT_CLI_EV_QUIT) as [Hi Hq] by (split; by intros ->).
    destruct (edit_at s P ed (m + zlen evs * (C + 1)) (zlen evs * ev_cost + n) T __CLI_READ_LINE [e]) as (s1 & E1 & G1); [|done|done|].
    { eapply weak_at; [exact Ha|change (zlen [e]) with 1; lia|change (zlen [e]) with 1; lia]. }
    eapply looped_step; [by apply es_edit|]. unfold looped, handled, tt_cline_input_ev. rewrite (bind_step _ _ _ _ _ E1). apply IH; [|done|done].
    exists P, (term_run T (echoes [e] ed)), pre. split; [exact G1|]. apply (echoes_shows [e] ed); [by rewrite list_elem_of_singleton|by rewrite list_elem_of_singleton|by eapply ca_edok|done].
Qed.

Lemma cli_input_ok evs s P ed T rm pre :
  cli_at s P ed (zlen evs * (C + 1)) (zlen evs * ev_cost) T rm → shows T pre ed.1 ed.2 →
  rm = __CLI_NOT_READ ∧ pre = P ∨ rm = __CLI_READ_LINE → (rm = __CLI_NOT_READ → tabs_ok rm evs ed) →
  (∃ s' ed', tt_cli_input evs s = Ret (TT_SUCCESS tt, s') ∧ session rm evs ed ed' ∧
     ∃ P' T' rm' pre', cli_at s' P' ed' 0 0 T' rm' ∧ shows T' pre' ed'.1 ed'.2 ∧ (rm' = __CLI_NOT_READ → pre' = P')) ∨
  (∃ s', tt_cli_input evs s = Ret (TT_ERROR TT_E_END, s') ∧ ∃ P' ed' T' rm', cli_at s' P' ed' 0 0 T' rm').
Proof.
  intros Ha Hsh Hrm Htb. unfold tt_cli_input. destruct (Z.eqb_spec (zlen evs) 0) as [Hz|Hz].
  { apply zlen_nil_inv in Hz as ->. left. exists s, ed. split; [done|]. split; [constructor|]. exists P, T, rm, pre. split; [exact Ha|]. split; [done|].
    destruct Hrm as [[_ ?]| ->]; done. }
  unfold the_cli. erewrite (bind_step (gets fst)) by done. rewrite (ca_mode _ _ _ _ _ _ _ Ha).
  assert (cli_at s P ed (0 + zlen evs * (C + 1)) (zlen evs * ev_cost + 0) T rm) as Ha' by by rewrite Z.add_0_l, Z.add_0_r.
  destruct Hrm as [[-> ->]| ->].
  - apply (events_ok evs s ed 0 0); [by apply Htb|by exists P, T, __CLI_NOT_READ, P|done|done].
  - apply (read_ok evs s ed 0 0); [by exists P, T, pre|done|done].
Qed.

End session.

(** ** Creation *)

Section create.
Context `{Allocator} `{CliUser}.

(** A string that can still grow by [n]. *)
Definition grows (b : tt_string_t) (s : list Z) (n : Z) : Prop := str b s 0 ∧ reliable b ∧ room b n.

Lemma grows_becomes b s n k s' b' : grows b s (k + n) → 0 ≤ k → 0 ≤ n → becomes b k 0 (s' ++ [0]) b' → cstring s' → grows b' s' n.
Proof.
  intros (Hs & Hrel & Hroom) Hk Hn Hb Hs'. split; [by eapply becomes_str; [|apply Hs|]|]. split.
  - unfold reliable in *. by rewrite (be_mspg _ _ _ _ _ Hb).
  - by eapply (becomes_room b k n).
Qed.
Lemma append_grows b s n c : grows b s (zlen c + 1 + n) → cstring c → 0 ≤ n → ∃ b', tt_string_append c b = Ret (TT_SUCCESS tt, b') ∧ grows b' (s ++ c) n.
Proof.
  intros Hg Hc Hn. pose proof Hg as (Hs & Hrel & Hroom). pose proof (zlen_nonneg c).
  destruct (string_append_ok b s 0 Hs Hrel c Hc) as (b' & E & Hb); [eapply room_weaken; [|exact Hroom]; lia|]. exists b'. split; [done|].
  eapply grows_becomes; [exact Hg|lia|done|exact Hb|]. apply Forall_app. split; [apply Hs|done].
Qed.
Lemma append_c_grows b s n c : grows b s (1 + n) → cchar c → 0 ≤ n → ∃ b', tt_string_append_c c b = Ret (TT_SUCCESS tt, b') ∧ grows b' (s ++ [c]) n.
Proof.
  intros Hg Hc Hn. pose proof Hg as (Hs & Hrel & Hroom).
  destruct (string_append_c_ok b s 0 Hs Hrel c Hc) as (b' & E & Hb); [eapply room_weaken; [|exact Hroom]; lia|]. exists b'. split; [done|].
  eapply grows_becomes; [exact Hg|lia|done|exact Hb|]. apply Forall_app. split; [apply Hs|by apply Forall_singleton].
Qed.

(** The prompt: title, subtitle and separator. *)
Definition prompt (a : tt_cli_attr_t) : list Z :=
  default [] (attr_title a) ++ match attr_sub_title a with Some (c :: u) => 58 :: c :: u | _ => [] end ++ [attr_seperator a; 32].

Lemma make_prefix_ok b a n : grows b [] (zlen (prompt a) + 4 + n) → cstring (prompt a) → 0 ≤ n → ∃ b',
  (append_opt (attr_title a);; append_sub (attr_sub_title a);; tt_string_append_c (attr_seperator a);; tt_string_append_c 32) b =
    Ret (TT_SUCCESS tt, b') ∧ grows b' (prompt a) n.
Proof.
  intros Hg Hc Hn. unfold prompt in *. set (t := default [] (attr_title a)) in *. set (u := match attr_sub_title a with Some (c :: u) => 58 :: c :: u | _ => [] end) in *.
  apply Forall_app in Hc as [Ht Hc]. apply Forall_app in Hc as [Hu Hc]. apply Forall_cons_1 in Hc as [Hsep _].
  rewrite !zlen_app in Hg. change (zlen [attr_seperator a; 32]) with 2 in Hg. pose proof (zlen_nonneg t) as Hzt. pose proof (zlen_nonneg u) as Hzu.
  assert (∃ b1, append_opt (attr_title a) b = Ret (TT_SUCCESS tt, b1) ∧ grows b1 t (zlen u + 5 + n)) as (b1 & E1 & G1).
  { unfold append_opt. destruct (attr_title a) as [t'|]; cbn in t.
    - destruct (append_grows b [] (zlen u + 5 + n) t) as (b1 & E1 & G1); [|done|lia|by exists b1].
      by replace (zlen t + 1 + (zlen u + 5 + n)) with (zlen t + (zlen u + 2) + 4 + n) by lia.
    - exists b. split; [done|]. destruct Hg as (Hs & Hr & Hroom). split; [done|]. split; [done|]. eapply room_weaken; [|exact Hroom]. change (zlen t) with 0. lia. }
  erewrite bind_step by exact E1.
  assert (∃ b2, append_sub (attr_sub_title a) b1 = Ret (TT_SUCCESS tt, b2) ∧ grows b2 (t ++ u) (2 + n)) as (b2 & E2 & G2).
  { unfold append_sub. destruct (attr_sub_title a) as [[|c u']|]; cbn in u.
    - exists b1. split; [done|]. subst u. rewrite app_nil_r. destruct G1 as (Hs & Hr & Hroom). split; [done|]. split; [done|]. eapply room_weaken; [|exact Hroom]. change (zlen []) with 0. lia.
    - subst u. apply Forall_cons_1 in Hu as [H58 Hu]. rewrite zlen_cons in G1. pose proof (zlen_nonneg (c :: u')).
      destruct (append_c_grows b1 t (zlen (c :: u') + 5 + n) 58) as (b2 & E2 & G2); [|done|lia|].
      { by replace (1 + (zlen (c :: u') + 5 + n)) with (1 + zlen (c :: u') + 5 + n) by lia. }
      erewrite bind_step by exact E2. destruct (append_grows b2 (t ++ [58]) (4 + n) (c :: u')) as (b3 & E3 & G3); [|done|lia|].
      { by replace (zlen (c :: u') + 1 + (4 + n)) with (zlen (c :: u') + 5 + n) by lia. }
      exists b3. split; [done|]. rewrite <- app_assoc in G3. destruct G3 as (Hs & Hr & Hroom). split; [done|]. split; [done|]. eapply room_weaken; [|exact Hroom]. lia.
    - exists b1. split; [done|]. subst u. rewrite app_nil_r. destruct G1 as (Hs & Hr & Hroom). split; [done|]. split; [done|]. eapply room_weaken; [|exact Hroom]. change (zlen []) with 0. lia. }
  erewrite bind_step by exact E2.
  destruct (append_c_grows b2 (t ++ u) (1 + n) (attr_seperator a)) as (b3 & E3 & G3); [by rewrite Z.add_assoc|done|lia|].
  erewrite bind_step by exact E3. destruct (append_c_grows b3 _ n 32 G3) as (b4 & E4 & G4); [done|done|].
  exists b4. split; [exact E4|]. by rewrite <- !app_assoc in G4.
Qed.

(** Everything is empty at first; the prompt is printed by [tt_cli_start]. *)
Lemma cli_create_ok shown t0 C Pmax Lmax ok k cb itf a w m n :
  malloc_total → attr_wf (outbuf_attr a) → attr_max_limit (outbuf_attr a) = 0 → attr_wf (cline_attr a) → attr_max_limit (cline_attr a) = 0 →
  printables (prompt a) → zlen (prompt a) ≤ Pmax → Pmax < 2 ^ 28 → 0 ≤ C < 2 ^ 28 → 0 ≤ m ≤ Lmax → m < 2 ^ 28 → 0 ≤ n →
  16 + 3 * n + attr_max_extend (outbuf_attr a) < 2 ^ 32 → attr_max_extend (cline_attr a) < 2 ^ 30 →
  0 ≤ k < 2 ^ 28 → (∀ s, grows s (prompt a) k → ok (default no_cb cb, default no_itf itf, None, (attr_title a, attr_sub_title a, if attr_seperator a =? 0 then 35 else attr_seperator a), s) w) →
  ∃ c, tt_cli_create TT_CLI_MODE_DEFAUTL cb itf (Some a) = Ret (TT_SUCCESS c) ∧
    cli_at shown t0 C Pmax Lmax ok (c, w) (prompt a) ([], 0) m n (term_run t0 (shown w)) __CLI_NOT_READ.
Proof.
  intros Hmt Hoa Hol Hca Hcl HP HPz HPm HK Hm Hm2 Hn Hn2 Hce Hk Hown. unfold tt_cli_create. cbn [default from_option id __load_internal_cb].
  pose proof (zlen_nonneg (prompt a)). pose proof (printable_cstring _ HP) as Hcs.
  assert (attr_max_extend tt_buf_attr_default = 4096) as Hext by reflexivity.
  destruct (string_init_room None (zlen (prompt a) + 4 + k)) as (s & E & Hs & Hrel & Hroom);
    [exact attr_default_wf|done|done|lia|change (attr_max_extend (attr_of None)) with 4096; lia|].
  rewrite E. cbn [exec_bind]. destruct (make_prefix_ok s a k) as (s' & E2 & Hgs); [by split|done|lia|]. pose proof Hgs as [Hs' _].
  rewrite E2. cbn [exec_bind].
  destruct (buf_init_ok (Some (outbuf_attr a)) Hoa) as (out & Eo & Hwo & Hoo & Hco & Hso & Hro & Hwpo & Hmo).
  destruct (buf_init_ok None attr_default_wf) as (ac & Ea & Hwa & Hoa' & Hca' & Hsa & Hra & Hwpa & Hma).
  rewrite Eo. cbn [exec_bind]. rewrite Ea. cbn [exec_bind]. cbn in Hmo, Hma. unfold TT_BUF_INIT_SIZE in *.
  assert (out_ok out) as Hout by (constructor; [done|done|]; unfold reliable; rewrite Hmo; by split).
  destruct (cline_create_ok TT_CLI_MODE_DEFAUTL out (Some (cline_attr a)) m) as (l & El & Hl & Hlo); [done|done|done|done|lia|cbn; lia|].
  rewrite El. cbn [exec_bind]. eexists. split; [done|].
  assert (0 < attr_max_extend (outbuf_attr a)) by (destruct Hoa as (? & ? & ? & ?); cbn in *; lia).
  constructor; cbn; try done.
  - by exists 0.
  - unfold zlen; cbn; lia.
  - unfold cli_outbuf. cbn. by rewrite Hlo.
  - unfold cli_outbuf. cbn. rewrite Hlo. split; rewrite ?Hmo, ?Hso, ?Hwpo; cbn; lia.
  - unfold cli_outbuf. cbn. by rewrite Hlo.
  - split; [constructor; [done|done|unfold reliable; rewrite Hma; by split]|]. assert (max_extend (mspg ac) = 4096) by (rewrite Hma; reflexivity). split; cbn [size wpos mspg set_wpos set_rpos]; lia.
  - unfold cli_outbuf. cbn. by rewrite Hlo, Hco, app_nil_r.
  - by apply Hown.
Qed.

(** Starting prints the prompt. *)
Lemma cli_start_ok shown t0 K C Pmax Lmax ok tabs s P m n T : 0 ≤ K → 0 ≤ C → 0 ≤ Pmax → 0 ≤ Lmax → cli_contract shown t0 K C Pmax Lmax ok tabs → 0 ≤ m → 0 ≤ n →
  cli_at shown t0 C Pmax Lmax ok s P ([], 0) m (1 + Pmax + 2 * Lmax + n) T __CLI_NOT_READ →
  ∃ r s' T', tt_cli_start s = Ret (r, s') ∧ cli_at shown t0 C Pmax Lmax ok s' P ([], 0) m n T' __CLI_NOT_READ ∧ shows T' P [] 0.
Proof.
  intros HK HC HP HL Hct Hm Hn Ha. unfold tt_cli_start.
  destruct (newline_at _ _ _ _ _ _ HP HL s P ([], 0) m n T __CLI_NOT_READ true true true Ha Hm Hn) as (s1 & E1 & H1).
  erewrite bind_step by (by apply do_r_step).
  assert (shows (term_run T (newline_out P ([], 0) true true true)) P [] 0) as Hsh.
  { apply (newline_shows T P ([], 0)); [eapply ca_printable, H1|eapply ca_edok, H1]. }
  destruct (flush_at _ _ _ _ _ _ _ _ s1 P _ m n _ _ Hct H1 Hn) as (s2 & E2 & H2).
  assert (∃ r, do_r TT_FAIL __cli_flush s1 = Ret (r, s2)) as [r Er].
  { unfold flush_anyway, try in E2. unfold do_r. revert E2. m_simpl. destruct (__cli_flush s1) as [[r s3]| | |]; [|done..].
    cbn [exec_bind]. intros [= ->]. destruct r; by eexists. }
  exists r, s2. eexists. split; [exact Er|]. split; [exact H2|done].
Qed.
End create.

(** A user whose commands answer "ok", and whose world is what was sent. *)
#[local] Instance ok_user `{Allocator} : CliUser := {|
  World := list Z;
  call_cmd _ _ _ s := exec_bind (with_out (tt_buf_put [111; 107]) (cline s.1)) (λ '(_, l), Ret (TT_CLIOC_OUT, (set_cline l s.1, s.2)));
  call_complete _ _ _ _ s := Ret (TT_CLICP_NONE, s);
  call_quit _ s := Ret (false, s);
  call_read _ _ s := Ret (TT_CLIOR_DONE, s);
  call_send _ _ ev s := Ret (TT_SUCCESS tt, (s.1, s.2 ++ ev));
|}.

Lemma ok_contract `{Allocator} t0 Pmax Lmax : cli_contract (id : World → list Z) t0 2 2 Pmax Lmax (λ _ _, True) (λ _, True).
Proof.
  assert (∀ s P ed m k n T rm, cli_at (id : World → list Z) t0 2 Pmax Lmax (λ _ _, True) s P ed m k T rm → 0 ≤ n ≤ k → cli_at (id : World → list Z) t0 2 Pmax Lmax (λ _ _, True) s P ed m n T rm) as Hweak.
  { intros s P ed m k n T rm [] Hn. constructor; try done. by eapply room_weaken. }
  constructor.
  - intros f cmd s P ed m n T rm Ha Hn _ _ _ _. destruct (emit_at _ _ _ _ _ _ s P ed m n T rm [111; 107] Ha) as (s' & E & Ha'); [by repeat constructor|done|].
    exists TT_CLIOC_OUT, s', P, [111; 107], rm. split; [|split; [repeat constructor; by left|split; [done|by right; left]]].
    unfold call_cmd. cbn [ok_user]. revert E. unfold with_outbuf, with_cline, zoom.
    destruct (with_out (tt_buf_put [111; 107]) (cline s.1)) as [[r l]| | |] eqn:Eo; [|done..]. cbn. intros [= -> <-]. exact (f_equal (λ x, exec_bind x (λ '(_, l0), Ret (TT_CLIOC_OUT, (set_cline l0 s.1, s.2)))) Eo).
  - intros f s P ed m n T rm Ha Hn _. exists false, s, P, [], rm. split; [done|]. split; [constructor|]. eapply Hweak; [exact Ha|lia].
  - intros f l s P ed m n T rm Ha Hn _ _ _. exists TT_CLIOR_DONE, s, P, []. split; [done|]. split; [constructor|]. split; [eapply Hweak; [exact Ha|lia]|]. left. split; [done|by left].
  - intros f cur w s P ed m n T rm Ha Hc Hr _ _ _. exists TT_CLICP_NONE, s. split; [done|]. split; [done|]. rewrite Hc. split; [constructor|]. split; [done|by left].
  - intros f d c w _. by exists (TT_SUCCESS tt), (w ++ d).
Qed.

