(* ===== verification/Der.v ===== *)
(** The DER codec: misc/tt_asn1_def.h, tt_der_encode.h and .c, tt_der_decode.h and .c.
    The code; the reference encoding of X.690 [head_bytes], [int_bytes]; what the
    encoder writes, what the decoder makes of it, and what it does with any bytes.
    Pointers into the buffer are offsets in its block. *)

From S2P Require Import Prelude MemSpring Buffer BufferFormat SshCodec.

Definition TT_ASN1_TAG_INTEGER : Z := 2.
Definition TT_ASN1_TAG_BIT_STRING : Z := 3.
Definition TT_ASN1_TAG_OCTET_STRING : Z := 4.
Definition TT_ASN1_TAG_NULL : Z := 5.
Definition TT_ASN1_TAG_OBJECT_IDENTIFIER : Z := 6.
Definition TT_ASN1_TAG_SEQUENCE : Z := 16.
Definition TT_ASN1_MK_CLASS_PC_TAG (class pc tag : Z) : Z :=
  Z.lor (Z.lor (Z.shiftl class 6) (Z.shiftl pc 5)) tag.
Definition TT_ASN1_TAG_UP (tag : Z) : Z := TT_ASN1_MK_CLASS_PC_TAG 0 0 tag.
Definition TT_ASN1_TAG_UC (tag : Z) : Z := TT_ASN1_MK_CLASS_PC_TAG 0 1 tag.
Definition TT_ASN1_INTEGER : Z := TT_ASN1_TAG_UP TT_ASN1_TAG_INTEGER.
Definition TT_ASN1_BIT_STRING : Z := TT_ASN1_TAG_UP TT_ASN1_TAG_BIT_STRING.
Definition TT_ASN1_OCTET_STRING : Z := TT_ASN1_TAG_UP TT_ASN1_TAG_OCTET_STRING.
Definition TT_ASN1_OBJECT_IDENTIFIER : Z := TT_ASN1_TAG_UP TT_ASN1_TAG_OBJECT_IDENTIFIER.
Definition TT_ASN1_SEQUENCE : Z := TT_ASN1_TAG_UC TT_ASN1_TAG_SEQUENCE.

(** ** Lengths *)

Definition __octnum_of_length (length : Z) : Z :=
  if negb (Z.land length 0xFF000000 =? 0) then 5
  else if negb (Z.land length 0xFF0000 =? 0) then 4
  else if negb (Z.land length 0xFF00 =? 0) then 3
  else if negb (Z.land length 0x80 =? 0) then 2
  else 1.

Definition __octnum_of_s32 (val_s32 : Z) : Z :=
  let val_u32 := u32 val_s32 in
  if val_s32 =? 0 then 1
  else if 0 <? val_s32 then
    if negb (Z.land val_u32 0xFF000000 =? 0) then 4
    else if negb (Z.land val_u32 0xFF0000 =? 0) then if negb (Z.land val_u32 0x800000 =? 0) then 4 else 3
    else if negb (Z.land val_u32 0xFF00 =? 0) then if negb (Z.land val_u32 0x8000 =? 0) then 3 else 2
    else if negb (Z.land val_u32 0x80 =? 0) then 2 else 1
  else
    if negb (Z.land val_u32 0xFF000000 =? 0xFF000000) then 4
    else if negb (Z.land val_u32 0xFF0000 =? 0xFF0000) then if Z.land val_u32 0x800000 =? 0 then 4 else 3
    else if negb (Z.land val_u32 0xFF00 =? 0xFF00) then if Z.land val_u32 0x8000 =? 0 then 3 else 2
    else if Z.land val_u32 0x80 =? 0 then 2 else 1.

Definition high_tag (tag : Z) : bool := Z.land tag 0x1F =? 0x1F.

Definition tt_der_head_len (tag length : Z) : exec Z :=
  if high_tag tag then Crash else Ret (u32 (1 + __octnum_of_length length)).
Definition tt_der_sequence_len (content_len : Z) : exec Z :=
  exec_bind (tt_der_head_len TT_ASN1_SEQUENCE content_len) (λ n, Ret (u32 (n + content_len))).
Definition tt_der_oid_len (oid_len : Z) : exec Z :=
  exec_bind (tt_der_head_len TT_ASN1_OBJECT_IDENTIFIER oid_len) (λ n, Ret (u32 (n + oid_len))).
Definition tt_der_octstr_len (octstr_len : Z) : exec Z :=
  exec_bind (tt_der_head_len TT_ASN1_OBJECT_IDENTIFIER octstr_len) (λ n, Ret (u32 (n + octstr_len))).
Definition tt_der_bitstr_len (bitstr_len pad_bit_num : Z) : exec Z :=
  if pad_bit_num <? 8 then
    exec_bind (tt_der_head_len TT_ASN1_BIT_STRING bitstr_len) (λ n, Ret (u32 (u32 (n + 1) + bitstr_len)))
  else Crash.
Definition tt_der_s32_len (val_s32 : Z) : exec Z :=
  let n := __octnum_of_s32 val_s32 in
  exec_bind (tt_der_head_len TT_ASN1_INTEGER n) (λ h, Ret (u32 (h + n))).
Definition tt_der_null_len : exec Z := Ret 2.
Definition tt_der_integer_len (integer_len : Z) : exec Z :=
  exec_bind (tt_der_head_len TT_ASN1_INTEGER integer_len) (λ n, Ret (u32 (n + integer_len))).

(** ** Encoding *)

Section encode.
Context `{Allocator}.

Definition tt_der_encode_head (tag length : Z) : M tt_buf_t unit :=
  if high_tag tag then fail TT_E_BADARG
  else
    tt_buf_put_u8 (u8 tag);;
    (if negb (Z.land length 0xFF000000 =? 0) then
       tt_buf_put_u8 0x84;; tt_buf_put_u32_n length
     else if negb (Z.land length 0xFF0000 =? 0) then
       tt_buf_put_u8 0x83;;
       tt_buf_put_u8 (u8 (Z.shiftr (Z.land length 0xFF0000) 16));;
       tt_buf_put_u16_n (u16 length)
     else if negb (Z.land length 0xFF00 =? 0) then
       tt_buf_put_u8 0x82;; tt_buf_put_u16_n (u16 length)
     else if negb (Z.land length 0x80 =? 0) then
       tt_buf_put_u8 0x81;; tt_buf_put_u8 (u8 length)
     else tt_buf_put_u8 (u8 length)).

Definition tt_der_encode_sequence (length : Z) : M tt_buf_t unit := tt_der_encode_head TT_ASN1_SEQUENCE length.
Definition tt_der_encode_oid (oid : list Z) : M tt_buf_t unit :=
  tt_der_encode_head TT_ASN1_OBJECT_IDENTIFIER (zlen oid);; tt_buf_put oid.
Definition tt_der_encode_octstr (octstr : list Z) : M tt_buf_t unit :=
  tt_der_encode_head TT_ASN1_OCTET_STRING (zlen octstr);; tt_buf_put octstr.
(** Without [bitstr] only the head and the number of unused bits are written. *)
Definition tt_der_encode_bitstr (bitstr : option (list Z)) (bitstr_len pad_bit_num : Z) : M tt_buf_t unit :=
  tt_der_encode_head TT_ASN1_BIT_STRING (u32 (1 + bitstr_len));;
  assert_always (pad_bit_num <? 8);;
  tt_buf_put_u8 (u8 pad_bit_num);;
  match bitstr with
  | Some d => d ← access (mem_read d 0 bitstr_len); tt_buf_put d
  | None => mret tt
  end.
Definition tt_der_encode_s32 (val_s32 : Z) : M tt_buf_t unit :=
  let val_u32 := u32 val_s32 in
  let n := __octnum_of_s32 val_s32 in
  tt_der_encode_head TT_ASN1_INTEGER n;;
  assert_always ((1 <=? n) && (n <=? 4));;
  if n =? 4 then tt_buf_put_u32_n val_u32
  else if n =? 3 then
    tt_buf_put_u8 (u8 (Z.shiftr (Z.land val_u32 0xFF0000) 16));; tt_buf_put_u16_n (u16 val_u32)
  else if n =? 2 then tt_buf_put_u16_n (u16 val_u32)
  else tt_buf_put_u8 (u8 val_u32).
Definition tt_der_encode_null : M tt_buf_t unit := tt_buf_put_u16_n 0x0500.
Definition tt_der_encode_integer (integer : list Z) : M tt_buf_t unit :=
  tt_der_encode_head TT_ASN1_INTEGER (zlen integer);; tt_buf_put integer.
End encode.

(** ** Decoding; [pass] is the flag [TT_DER_PASS_CONTENT] *)

Fixpoint length_loop (n : nat) (len : Z) : M tt_buf_t Z :=
  match n with
  | O => mret len
  | S n => v ← tt_buf_get_u8; length_loop n (u32 (u32 (Z.shiftl len 8) + v))
  end.

Definition pass_content (pass : bool) (len : Z) : M tt_buf_t unit :=
  if pass then tt_buf_inc_rp len else mret tt.

Definition tt_der_decode_head (pass : bool) : M tt_buf_t (Z * Z) :=
  v ← tt_buf_get_u8;
  if high_tag v then fail TT_FAIL
  else
    let tag := Z.land v 0x1F in
    v ← tt_buf_get_u8;
    len ← (if negb (Z.land v 0x80 =? 0) then
             let n := Z.land v 0x7F in
             if 4 <? n then fail TT_FAIL else length_loop (Z.to_nat n) 0
           else mret v);
    pass_content pass len;;
    mret (tag, len).

Definition expect_tag (want : Z) : M tt_buf_t Z :=
  '(tag, len) ← do_r TT_FAIL (tt_der_decode_head false);
  if negb (tag =? want) then fail TT_FAIL else mret len.

Definition tt_der_decode_sequence (pass : bool) : M tt_buf_t Z :=
  len ← expect_tag TT_ASN1_TAG_SEQUENCE; pass_content pass len;; mret len.

Definition tt_der_decode_oid (pass : bool) : M tt_buf_t (Z * Z) :=
  len ← expect_tag TT_ASN1_TAG_OBJECT_IDENTIFIER;
  oid ← gets rpos;
  pass_content pass len;;
  mret (oid, len).

Definition tt_der_decode_octstr (pass : bool) : M tt_buf_t (Z * Z) :=
  len ← expect_tag TT_ASN1_TAG_OCTET_STRING;
  octstr ← gets rpos;
  pass_content pass len;;
  mret (octstr, len).

Definition tt_der_decode_bitstr (pass : bool) : M tt_buf_t (Z * Z * Z) :=
  len ← expect_tag TT_ASN1_TAG_BIT_STRING;
  padded ← tt_buf_get_u8;
  bitstr ← gets rpos;
  pass_content pass len;;
  mret (bitstr, u32 (len - 1), padded).

(** [val_u32] and [max_u32] after the loop. *)
Definition int_loop (d : list Z) : Z * Z :=
  fold_left (λ '(v, m) x, (u32 (u32 (Z.shiftl v 8) + x), u32 (u32 (Z.shiftl m 8) + 0xFF))) d (0, 0).

Definition tt_der_decode_s32 (pass : bool) : M tt_buf_t (Z * Z) :=
  len ← expect_tag TT_ASN1_TAG_INTEGER;
  if 4 <? len then fail TT_FAIL
  else
    d ← tt_buf_get len;
    let '(val_u32, max_u32) := int_loop d in
    v ← (match d with
         | [] => undef
         | x :: _ =>
             if negb (Z.land x 0x80 =? 0) then mret (- s32 (u32 (max_u32 - val_u32)))
             else mret (s32 val_u32)
         end);
    (if pass then mret tt else modify (λ b, set_rpos (u32 (rpos b - len)) b));;
    mret (len, v).

Definition tt_der_decode_null : M tt_buf_t unit :=
  len ← expect_tag TT_ASN1_TAG_NULL;
  if negb (len =? 0) then fail TT_FAIL else mret tt.

(** ** The encoding of X.690 *)

Definition len_octets (n : Z) : nat := if n <? 2 ^ 8 then 1 else if n <? 2 ^ 16 then 2 else if n <? 2 ^ 24 then 3 else 4.
Definition length_bytes (n : Z) : list Z :=
  if n <? 128 then [n] else (128 + Z.of_nat (len_octets n)) :: be_bytes (len_octets n) n.
Definition head_bytes (tag n : Z) : list Z := tag :: length_bytes n.

(** The least number of octets that hold [v] in two's complement. *)
Definition fits (k v : Z) : bool := (- 2 ^ (8 * k - 1) <=? v) && (v <? 2 ^ (8 * k - 1)).
Definition int_octets (v : Z) : nat := if fits 1 v then 1 else if fits 2 v then 2 else if fits 3 v then 3 else 4.
Definition int_bytes (v : Z) : list Z := be_bytes (int_octets v) v.
Definition is_s32 (v : Z) : Prop := - 2 ^ 31 ≤ v < 2 ^ 31.

(** ** Bit masks *)

Lemma land_field n w k : 0 ≤ w → 0 ≤ k → Z.land n (Z.shiftl (Z.ones w) k) = ((n / 2 ^ k) mod 2 ^ w) * 2 ^ k.
Proof.
  intros Hw Hk. rewrite <- Z.land_ones, <- Z.shiftr_div_pow2, <- Z.shiftl_mul_pow2 by done.
  apply Z.bits_inj'. intros i Hi. rewrite Z.land_spec, !Z.shiftl_spec, Z.land_spec by done.
  destruct (Z.ltb_spec i k).
  - rewrite !(Z.testbit_neg_r _ (i - k)) by lia. by rewrite !andb_false_r.
  - rewrite Z.shiftr_spec by lia. by replace (i - k + k) with i by lia.
Qed.
Lemma land_field_0 n w k : 0 ≤ w → 0 ≤ k → (Z.land n (Z.shiftl (Z.ones w) k) =? 0) = ((n / 2 ^ k) mod 2 ^ w =? 0).
Proof.
  intros. rewrite land_field by done. assert (0 < 2 ^ k) by by apply Z.pow_pos_nonneg.
  apply eq_true_iff_eq. rewrite !Z.eqb_eq. split; [intros ?%Z.mul_eq_0; lia|by intros ->].
Qed.
Lemma land_field_1 n w k : 0 ≤ w → 0 ≤ k →
  (Z.land n (Z.shiftl (Z.ones w) k) =? Z.shiftl (Z.ones w) k) = ((n / 2 ^ k) mod 2 ^ w =? 2 ^ w - 1).
Proof.
  intros. rewrite land_field by done. assert (0 < 2 ^ k) by by apply Z.pow_pos_nonneg.
  rewrite (Z.shiftl_mul_pow2 _ _ ltac:(done)), Z.ones_equiv, <- Z.sub_1_r.
  apply eq_true_iff_eq. rewrite !Z.eqb_eq. split; [intros ?%Z.mul_reg_r; lia|by intros ->].
Qed.

(** Fields of a number that has no higher bits, or only higher bits that are set. *)
Lemma field_pos n w k : 0 ≤ w → 0 ≤ k → 0 ≤ n < 2 ^ (k + w) → ((n / 2 ^ k) mod 2 ^ w =? 0) = (n <? 2 ^ k).
Proof.
  intros Hw Hk Hn. assert (0 < 2 ^ k) by by apply Z.pow_pos_nonneg. rewrite Z.pow_add_r in Hn by done.
  assert (0 ≤ n / 2 ^ k < 2 ^ w) by (split; [apply Z.div_pos|apply Z.div_lt_upper_bound]; lia).
  rewrite Z.mod_small by done. apply eq_true_iff_eq. rewrite Z.eqb_eq, Z.ltb_lt. split; intros Hz.
  - pose proof (Z.div_mod n (2 ^ k)). pose proof (Z.mod_pos_bound n (2 ^ k)). rewrite Hz in *. lia.
  - apply Z.div_small. lia.
Qed.
Lemma field_neg v w k : 0 ≤ w → 0 ≤ k → k + w ≤ 32 → - 2 ^ (k + w) ≤ v < 0 →
  ((v + 2 ^ 32) / 2 ^ k) mod 2 ^ w = v / 2 ^ k + 2 ^ w.
Proof.
  intros Hw Hk Hkw Hv. assert (0 < 2 ^ k) by by apply Z.pow_pos_nonneg. assert (0 < 2 ^ w) by by apply Z.pow_pos_nonneg.
  rewrite Z.pow_add_r in Hv by done.
  assert (2 ^ 32 = 2 ^ (32 - k - w) * 2 ^ w * 2 ^ k) as -> by (rewrite <- !Z.pow_add_r by lia; f_equal; lia).
  rewrite Z.div_add, Z.mod_add by lia.
  assert (- 2 ^ w ≤ v / 2 ^ k < 0) by (split; [apply Z.div_le_lower_bound|apply Z.div_lt_upper_bound]; lia).
  rewrite <- (Z.mod_add _ 1) by lia. rewrite Z.mod_small; lia.
Qed.
Lemma field_neg_1 v w k : 0 ≤ w → 0 ≤ k → k + w ≤ 32 → - 2 ^ (k + w) ≤ v < 0 →
  (((v + 2 ^ 32) / 2 ^ k) mod 2 ^ w =? 2 ^ w - 1) = (- 2 ^ k <=? v).
Proof.
  intros Hw Hk Hkw Hv. rewrite field_neg by done. assert (0 < 2 ^ k) by by apply Z.pow_pos_nonneg.
  apply eq_true_iff_eq. rewrite Z.eqb_eq, Z.leb_le. pose proof (Z.div_mod v (2 ^ k)). pose proof (Z.mod_pos_bound v (2 ^ k)).
  split; intros Hz.
  - assert (v / 2 ^ k = -1) as Hq by lia. rewrite Hq in *. lia.
  - assert (v / 2 ^ k < 0) by (apply Z.div_lt_upper_bound; lia). assert (-1 ≤ v / 2 ^ k) by (apply Z.div_le_lower_bound; lia). lia.
Qed.
Lemma field_neg_0 v k : 0 ≤ k → k < 32 → - 2 ^ (k + 1) ≤ v < 0 →
  (((v + 2 ^ 32) / 2 ^ k) mod 2 ^ 1 =? 0) = (v <? - 2 ^ k).
Proof.
  intros Hk Hk2 Hv. rewrite field_neg by lia. assert (0 < 2 ^ k) by by apply Z.pow_pos_nonneg.
  apply eq_true_iff_eq. rewrite Z.eqb_eq, Z.ltb_lt. pose proof (Z.div_mod v (2 ^ k)). pose proof (Z.mod_pos_bound v (2 ^ k)).
  rewrite Z.pow_add_r in Hv by lia. change (2 ^ 1) with 2 in *. split; intros Hz.
  - assert (v / 2 ^ k = -2) as Hq by lia. rewrite Hq in *. lia.
  - assert (v / 2 ^ k < -1) by (apply Z.div_lt_upper_bound; lia). assert (-2 ≤ v / 2 ^ k) by (apply Z.div_le_lower_bound; lia). lia.
Qed.

(** The masks of the code as fields. *)
Ltac masks :=
  change 0xFF000000 with (Z.shiftl (Z.ones 8) 24) in *; change 0xFF0000 with (Z.shiftl (Z.ones 8) 16) in *;
  change 0xFF00 with (Z.shiftl (Z.ones 8) 8) in *; change 0x800000 with (Z.shiftl (Z.ones 1) 23) in *;
  change 0x8000 with (Z.shiftl (Z.ones 1) 15) in *; change 0x80 with (Z.shiftl (Z.ones 1) 7) in *;
  rewrite ?land_field_0, ?land_field_1 by done.
Ltac div_lia :=
  change (Z.shiftl (Z.ones 1) 7) with 128 in *; change (Z.shiftl (Z.ones 1) 15) with 32768 in *;
  change (Z.shiftl (Z.ones 1) 23) with 8388608 in *;
  repeat match goal with
  | |- context [2 ^ ?k] => let v := eval compute in (2 ^ k) in change (2 ^ k) with v in *
  | H : context [2 ^ ?k] |- _ => let v := eval compute in (2 ^ k) in change (2 ^ k) with v in *
  end; Z.to_euclidean_division_equations; lia.
(** Decide the comparisons one after the other. *)
Ltac compares :=
  repeat (match goal with
  | |- context [?a =? ?b] => destruct (Z.eqb_spec a b)
  | |- context [?a <? ?b] => destruct (Z.ltb_spec a b)
  | |- context [?a <=? ?b] => destruct (Z.leb_spec a b)
  end; cbn [negb andb]).

Lemma octnum_of_length n : is_u32 n → __octnum_of_length n = zlen (length_bytes n).
Proof.
  intros Hn. unfold is_u32 in Hn. unfold __octnum_of_length, length_bytes, len_octets.
  masks. compares; rewrite ?zlen_cons, ?zlen_be; try done; exfalso; div_lia.
Qed.

Lemma be_bytes_S n v : be_bytes (S n) v = (v / 256 ^ Z.of_nat n) mod 256 :: be_bytes n v.
Proof.
  unfold be_bytes. revert v. induction n as [|n IH]; intros v; [simpl; by rewrite Z.div_1_r|].
  change (le_split (S (S n)) v) with (v mod 256 :: le_split (S n) (v / 256)). cbn [rev]. rewrite IH.
  rewrite <- app_comm_cons. f_equal. rewrite Nat2Z.inj_succ, Z.pow_succ_r, Z.div_div by lia. done.
Qed.
Lemma be_bytes_mod n m v : (n ≤ m)%nat → be_bytes n (v mod 256 ^ Z.of_nat m) = be_bytes n v.
Proof.
  intros Hnm. unfold be_bytes. f_equal. revert v n Hnm. induction m as [|m IH]; intros v n Hnm; [by assert (n = 0%nat) as -> by lia|].
  destruct n as [|n]; [done|]. cbn [le_split]. rewrite Nat2Z.inj_succ, Z.pow_succ_r by lia.
  assert (0 < 256 ^ Z.of_nat m) by (apply Z.pow_pos_nonneg; lia).
  assert (v mod (256 * 256 ^ Z.of_nat m) = v mod 256 + 256 * ((v / 256) mod 256 ^ Z.of_nat m)) as -> by (apply Z.rem_mul_r; lia).
  f_equal.
  - rewrite Z.mul_comm, Z.mod_add by lia. by apply Z.mod_mod.
  - rewrite Z.mul_comm, Z.div_add, (Z.div_small (v mod 256)) by (try apply Z.mod_pos_bound; lia). apply IH. lia.
Qed.
Lemma be_bytes_1 v : be_bytes 1 v = [v mod 256].
Proof. done. Qed.

Lemma shr_field v : Z.shiftr (Z.land v 0xFF0000) 16 = (v / 256 ^ 2) mod 256.
Proof.
  change 0xFF0000 with (Z.shiftl (Z.ones 8) 16). rewrite land_field by done.
  rewrite Z.shiftr_div_pow2 by done. by rewrite Z.div_mul.
Qed.

(** ** What the encoder writes *)

Section encodes.
Context `{Allocator}.

Lemma renders_u16_n v n : be_bytes 2 n = be_bytes 2 v → renders (tt_buf_put_u16_n n) (be_bytes 2 v).
Proof. intros <-. apply (renders_be 2). Qed.
Lemma renders_u32_n n : renders (tt_buf_put_u32_n n) (be_bytes 4 n).
Proof. apply (renders_be 4). Qed.
Lemma renders_low v : renders (tt_buf_put_u8 (u8 v)) (be_bytes 1 v).
Proof. apply renders_u8, u8_range. Qed.
Lemma renders_three v : renders (tt_buf_put_u8 (u8 (Z.shiftr (Z.land v 0xFF0000) 16));; tt_buf_put_u16_n (u16 v)) (be_bytes 3 v).
Proof.
  rewrite shr_field, be_bytes_S. change (256 ^ Z.of_nat 2) with (256 ^ 2). apply (renders_bind _ _ [_]).
  - rewrite u8_small by by apply Z.mod_pos_bound. apply renders_u8. by apply Z.mod_pos_bound.
  - apply renders_u16_n. apply (be_bytes_mod 2 2). lia.
Qed.

Lemma renders_head tag n : is_u8 tag → high_tag tag = false → is_u32 n → renders (tt_der_encode_head tag n) (head_bytes tag n).
Proof.
  intros Ht Hh Hn. unfold tt_der_encode_head. rewrite Hh. apply (renders_bind _ _ [tag]).
  { rewrite u8_small by done. by apply renders_u8. }
  assert (∀ v d m, is_u8 v → renders m d → renders (tt_buf_put_u8 v;; m) (v :: d)) as Hput.
  { intros v d m Hv Hm. apply (renders_bind _ _ [v]); [by apply renders_u8|done]. }
  unfold length_bytes, len_octets. unfold is_u32 in Hn.
  masks.
  destruct (Z.eqb_spec ((n / 2 ^ 24) mod 2 ^ 8) 0) as [E4|E4]; cbv [negb].
  2: { compares; try (exfalso; div_lia). apply Hput; [done|]. apply renders_u32_n. }
  destruct (Z.eqb_spec ((n / 2 ^ 16) mod 2 ^ 8) 0) as [E3|E3]; cbv iota.
  2: { compares; try (exfalso; div_lia). apply Hput; [done|]. apply renders_three. }
  destruct (Z.eqb_spec ((n / 2 ^ 8) mod 2 ^ 8) 0) as [E2|E2]; cbv iota.
  2: { compares; try (exfalso; div_lia). apply Hput; [done|]. apply renders_u16_n. apply (be_bytes_mod 2 2). lia. }
  destruct (Z.eqb_spec ((n / 2 ^ 7) mod 2 ^ 1) 0) as [E1|E1]; cbv iota.
  2: { compares; try (exfalso; div_lia). apply Hput; [done|]. apply renders_low. }
  compares; try (exfalso; div_lia). replace [n] with (be_bytes 1 n); [apply renders_low|].
  rewrite be_bytes_1, Z.mod_small by div_lia. done.
Qed.

Lemma octnum_of_s32 v : is_s32 v → __octnum_of_s32 v = Z.of_nat (int_octets v).
Proof.
  intros Hv. unfold is_s32 in Hv. unfold __octnum_of_s32, int_octets, fits.
  change (2 ^ (8 * 1 - 1)) with (2 ^ 7); change (2 ^ (8 * 2 - 1)) with (2 ^ 15); change (2 ^ (8 * 3 - 1)) with (2 ^ 23).
  destruct (Z.eqb_spec v 0) as [->|Hv0]; [done|]. masks.
  destruct (Z.ltb_spec 0 v) as [Hp|Hp]; [rewrite u32_small by lia|rewrite u32_neg by lia].
  - rewrite (field_pos v 8 24) by lia. destruct (Z.ltb_spec v (2 ^ 24)); cbn [negb]; [|compares; lia].
    rewrite (field_pos v 8 16), (field_pos v 1 23) by lia. destruct (Z.ltb_spec v (2 ^ 16)); cbn [negb]; [|compares; lia].
    rewrite (field_pos v 8 8), (field_pos v 1 15) by lia. destruct (Z.ltb_spec v (2 ^ 8)); cbn [negb]; [|compares; lia].
    rewrite (field_pos v 1 7) by lia. compares; lia.
  - rewrite (field_neg_1 v 8 24) by lia. destruct (Z.leb_spec (- 2 ^ 24) v); cbn [negb]; [|compares; lia].
    rewrite (field_neg_1 v 8 16), (field_neg_0 v 23) by lia. destruct (Z.leb_spec (- 2 ^ 16) v); cbn [negb]; [|compares; lia].
    rewrite (field_neg_1 v 8 8), (field_neg_0 v 15) by lia. destruct (Z.leb_spec (- 2 ^ 8) v); cbn [negb]; [|compares; lia].
    rewrite (field_neg_0 v 7) by lia. compares; lia.
Qed.

Lemma int_octets_range v : (1 ≤ int_octets v ≤ 4)%nat.
Proof. unfold int_octets. repeat case_match; lia. Qed.
Lemma renders_s32 v : is_s32 v → renders (tt_der_encode_s32 v) (head_bytes 2 (Z.of_nat (int_octets v)) ++ int_bytes v).
Proof.
  intros Hv. unfold tt_der_encode_s32. rewrite octnum_of_s32 by done. pose proof (int_octets_range v) as Hr.
  apply renders_bind; [apply renders_head; [done|done|unfold is_u32; lia]|].
  rewrite (proj2 (Z.leb_le 1 _)), (proj2 (Z.leb_le _ 4)) by lia. cbn [andb assert_always].
  apply (renders_bind _ _ [] (int_bytes v)); [apply renders_ret|]. unfold int_bytes.
  assert (∀ n, (n ≤ 4)%nat → be_bytes n (u32 v) = be_bytes n v) as Hb by (intros; by apply (be_bytes_mod _ 4)).
  destruct (int_octets v) as [|[|[|[|[|k]]]]]; try lia; rewrite <- (Hb _) by lia; cbn -[renders tt_buf_put_u32_n tt_buf_put_u16_n be_bytes].
  - apply renders_low.
  - apply renders_u16_n. apply (be_bytes_mod 2 2). lia.
  - apply renders_three.
  - apply renders_u32_n.
Qed.
End encodes.

(** ** What the decoder reads *)

Lemma parses_do_r {A} e (m : M tt_buf_t A) d a : parses m d a → parses (do_r e m) d a.
Proof. intros Hm b rest Hwf Hc. apply do_r_step. by apply Hm with rest. Qed.
Lemma parses_head {A B} (m : M tt_buf_t A) (k : A → M tt_buf_t B) d a c : parses m d a → parses (k a) [] c → parses (m ≫= k) d c.
Proof. intros H1 H2. rewrite <- (app_nil_r d). by eapply parses_bind. Qed.

Lemma parses_length_loop k n : ∀ acc, 0 ≤ acc → (acc + 1) * 256 ^ Z.of_nat k ≤ 2 ^ 32 →
  parses (length_loop k acc) (be_bytes k n) (acc * 256 ^ Z.of_nat k + n mod 256 ^ Z.of_nat k).
Proof.
  induction k as [|k IH]; intros acc Ha Hk.
  { change (256 ^ Z.of_nat 0) with 1. rewrite Z.mod_1_r, Z.mul_1_r, Z.add_0_r. apply parses_ret. }
  rewrite be_bytes_S. cbn [length_loop]. rewrite Nat2Z.inj_succ, Z.pow_succ_r in * by lia.
  assert (0 < 256 ^ Z.of_nat k) as Hp by (apply Z.pow_pos_nonneg; lia). set (x := (n / 256 ^ Z.of_nat k) mod 256).
  assert (0 ≤ x < 256) as Hx by by apply Z.mod_pos_bound.
  assert ((acc * 256 + 256) * 1 ≤ (acc * 256 + 256) * 256 ^ Z.of_nat k) by (apply Z.mul_le_mono_nonneg_l; lia).
  apply (parses_bind _ _ [x] _ x); [apply parses_u8|].
  rewrite Z.shiftl_mul_pow2 by done. change (2 ^ 8) with 256. rewrite (u32_small (acc * 256)), u32_small by lia.
  assert (acc * (256 * 256 ^ Z.of_nat k) + n mod (256 * 256 ^ Z.of_nat k) = (acc * 256 + x) * 256 ^ Z.of_nat k + n mod 256 ^ Z.of_nat k) as ->.
  { rewrite (Z.mul_comm 256), Z.rem_mul_r by lia. fold x. lia. }
  apply IH; [lia|]. assert ((acc * 256 + x + 1) * 256 ^ Z.of_nat k ≤ (acc * 256 + 256) * 256 ^ Z.of_nat k) by (apply Z.mul_le_mono_nonneg_r; lia). lia.
Qed.

Lemma len_octets_spec n : is_u32 n → (1 ≤ len_octets n ≤ 4)%nat ∧ n mod 256 ^ Z.of_nat (len_octets n) = n.
Proof.
  intros Hn. unfold is_u32 in Hn. unfold len_octets. repeat case_match; (split; [lia|]);
    match goal with |- context [256 ^ ?k] => let v := eval vm_compute in (256 ^ k) in change (256 ^ k) with v end; apply Z.mod_small; lia.
Qed.

Lemma parses_der_head tag n : is_u8 tag → high_tag tag = false → is_u32 n →
  parses (tt_der_decode_head false) (head_bytes tag n) (Z.land tag 31, n).
Proof.
  intros Ht Hh Hn. unfold tt_der_decode_head. apply (parses_bind _ _ [tag] (length_bytes n) tag); [apply parses_u8|]. rewrite Hh.
  destruct (len_octets_spec n Hn) as [Hk Hm]. unfold length_bytes. destruct (Z.ltb_spec n 128).
  - apply (parses_head _ _ [n] n); [apply parses_u8|]. change 128 with (Z.shiftl (Z.ones 1) 7). rewrite land_field_0 by done. unfold is_u32 in *.
    change (2 ^ 7) with 128. rewrite Z.div_small by lia. cbn [negb Z.modulo Z.eqb]. apply (parses_head _ _ [] n); [apply parses_ret|].
    apply (parses_head _ _ [] tt); [apply parses_ret|apply parses_ret].
  - apply (parses_bind _ _ [_] (be_bytes _ n) (128 + Z.of_nat (len_octets n))); [apply parses_u8|].
    apply (parses_head _ _ _ n).
    2: { apply (parses_head _ _ [] tt); [apply parses_ret|apply parses_ret]. }
    pose proof (parses_length_loop (len_octets n) n 0 ltac:(lia)) as Hl. rewrite Hm, Z.mul_0_l, Z.add_0_l in Hl.
    destruct (len_octets n) as [|[|[|[|[|k]]]]]; try lia; apply Hl; vm_compute; discriminate.
Qed.

Lemma parses_expect tag n want : is_u8 tag → high_tag tag = false → is_u32 n → Z.land tag 31 = want →
  parses (expect_tag want) (head_bytes tag n) n.
Proof.
  intros Ht Hh Hn <-. unfold expect_tag. apply (parses_head _ _ _ (Z.land tag 31, n)); [by apply parses_do_r, parses_der_head|].
  rewrite Z.eqb_refl. apply parses_ret.
Qed.

Lemma parses_assoc {A B C} (m : M tt_buf_t A) (k : A → M tt_buf_t B) (h : B → M tt_buf_t C) d c :
  parses (y ← (x ← m; k x); h y) d c ↔ parses (x ← m; y ← k x; h y) d c.
Proof.
  assert (∀ b, (y ← (x ← m; k x); h y) b = (x ← m; y ← k x; h y) b) as E.
  { intros b. unfold mbind, M_bind, bind. by destruct (m b) as [[[a|e] s]| | |]. }
  split; intros Hp b rest Hwf Hc; [rewrite <- E|rewrite E]; by eapply Hp.
Qed.

(** The bytes a decoder points to. *)
Definition pointed (x : Z * Z) : M tt_buf_t (list Z) := b ← gets id; access (mem_read (blk b) x.1 x.2).

Lemma mem_read_content b d rest : buf_wf b → content b = d ++ rest → mem_read (blk b) (rpos b) (zlen d) = Ret d.
Proof.
  intros Hwf Hc. pose proof (zlen_nonneg d). pose proof (zlen_nonneg rest). pose proof (wf_content b Hwf) as Hl. pose proof (wf_pos b Hwf).
  pose proof (wf_zlen b Hwf) as Hz. assert (zlen (content b) = zlen d + zlen rest) as Hcl by by rewrite Hc, zlen_app.
  unfold mem_read, in_block.
  rewrite (proj2 (Z.leb_le 0 (rpos b))), (proj2 (Z.leb_le 0 (zlen d))), (proj2 (Z.leb_le (rpos b + zlen d) (zlen (blk b)))) by lia. cbn [andb]. f_equal.
  transitivity (sub (content b) 0 (zlen d)); [|rewrite Hc; apply sub_app_len].
  unfold content. rewrite sub_sub by lia. by rewrite Z.add_0_r.
Qed.

Lemma parses_pointed d n : n = zlen d → parses (x ← (p ← gets rpos; pass_content true n;; mret (p, n)); pointed x) d d.
Proof.
  intros -> b rest Hwf Hc. unfold pass_content.
  pose proof (parses_inc_rp d (zlen d) eq_refl b rest Hwf Hc) as Hi.
  assert ((p ← gets rpos; tt_buf_inc_rp (zlen d);; mret (p, zlen d)) b = Ret (TT_SUCCESS (rpos b, zlen d), set_rpos (rpos b + zlen d) b)) as E.
  { erewrite (bind_step (gets rpos)) by done. by erewrite bind_step by exact Hi. }
  erewrite bind_step by exact E. unfold pointed. erewrite (bind_step (gets id)) by done. cbn [id fst snd].
  change (blk (set_rpos (rpos b + zlen d) b)) with (blk b). unfold access. by rewrite (mem_read_content b d rest).
Qed.

Lemma int_loop_spec d : Forall is_u8 d → zlen d ≤ 4 → int_loop d = (le_combine (rev d), 256 ^ zlen d - 1).
Proof.
  induction d as [|x d IH] using rev_ind; intros Hd Hl; [done|].
  apply Forall_app in Hd as [Hd [Hx _]%Forall_cons_1]. unfold is_u8 in Hx. rewrite zlen_app in *. change (zlen [x]) with 1 in *.
  pose proof (zlen_nonneg d). unfold int_loop in *. rewrite fold_left_app, IH by (done || lia). cbn [fold_left].
  rewrite rev_app_distr. cbn [rev app le_combine]. pose proof (le_combine_range (rev d) (Forall_rev Hd)) as Hr.
  assert (zlen (rev d) = zlen d) as Hzr by (unfold zlen; by rewrite length_rev). rewrite Hzr in Hr.
  assert (256 ^ (zlen d + 1) = 256 ^ zlen d * 256) as -> by by rewrite Z.pow_add_r by lia.
  assert (256 ^ zlen d ≤ 256 ^ 3) by (apply Z.pow_le_mono_r; lia).
  rewrite !Z.shiftl_mul_pow2 by done. f_equal.
  - rewrite (u32_small (_ * _)), u32_small by lia. lia.
  - rewrite (u32_small (_ * _)), u32_small by lia. lia.
Qed.

(** A negative number comes back one too large. *)
Definition seen_s32 (v : Z) : Z := if v <? 0 then v + 1 else v.

Lemma int_octets_fits v : is_s32 v → fits (Z.of_nat (int_octets v)) v = true.
Proof. unfold is_s32, int_octets. intros. repeat case_match; try done. unfold fits. change (2 ^ (8 * Z.of_nat 4 - 1)) with (2 ^ 31). rewrite andb_true_iff. lia. Qed.

Lemma parses_s32 v : is_s32 v →
  parses (tt_der_decode_s32 true) (head_bytes 2 (Z.of_nat (int_octets v)) ++ int_bytes v) (Z.of_nat (int_octets v), seen_s32 v).
Proof.
  intros Hv. pose proof (int_octets_range v) as Hk. pose proof (int_octets_fits v Hv) as Hf. unfold int_bytes. set (k := int_octets v) in *. clearbody k.
  unfold tt_der_decode_s32.
  apply (parses_bind _ _ _ _ (Z.of_nat k)); [apply parses_expect; try done; unfold is_u32; lia|].
  rewrite (proj2 (Z.ltb_ge 4 _)) by lia. apply (parses_head _ _ _ (be_bytes k v)); [apply parses_get_n, zlen_be|].
  rewrite int_loop_spec by (rewrite ?zlen_be; apply be_bytes_u8 || lia). rewrite zlen_be.
  assert (le_combine (rev (be_bytes k v)) = v mod 256 ^ Z.of_nat k) as -> by (unfold be_bytes; by rewrite rev_involutive, le_combine_split).
  destruct k as [|k]; [lia|]. rewrite be_bytes_S. cbv beta iota.
  set (x := (v / 256 ^ Z.of_nat k) mod 256). change 128 with (Z.shiftl (Z.ones 1) 7). rewrite land_field_0 by done.
  assert (0 < 256 ^ Z.of_nat k) as Hp by (apply Z.pow_pos_nonneg; lia).
  assert (256 ^ Z.of_nat (S k) = 2 * (128 * 256 ^ Z.of_nat k)) as Hpow by (rewrite Nat2Z.inj_succ, Z.pow_succ_r by lia; lia).
  assert (2 ^ (8 * Z.of_nat (S k) - 1) = 128 * 256 ^ Z.of_nat k) as Hhalf.
  { replace (8 * Z.of_nat (S k) - 1) with (7 + 8 * Z.of_nat k) by lia. rewrite Z.pow_add_r, Z.pow_mul_r by lia. done. }
  assert (256 ^ Z.of_nat k ≤ 256 ^ 3) as Hp3 by (apply Z.pow_le_mono_r; lia).
  unfold fits in Hf. rewrite Hhalf in Hf. apply andb_true_iff in Hf as [Hf1%Z.leb_le Hf2%Z.ltb_lt]. rewrite Hpow.
  apply (parses_head _ _ [] (seen_s32 v)); [|apply (parses_head _ _ [] tt); [apply parses_ret|apply parses_ret]].
  unfold seen_s32. destruct (Z.ltb_spec v 0) as [Hneg|Hpos].
  - assert (v mod (2 * (128 * 256 ^ Z.of_nat k)) = v + 2 * (128 * 256 ^ Z.of_nat k)) as ->.
    { rewrite <- (Z.mod_add v 1), Z.mul_1_l by lia. apply Z.mod_small. lia. }
    assert (128 ≤ x < 256) as Hx.
    { assert (-128 ≤ v / 256 ^ Z.of_nat k < 0) by (split; [apply Z.div_le_lower_bound|apply Z.div_lt_upper_bound]; lia).
      unfold x. rewrite <- (Z.mod_add _ 1) by lia. rewrite Z.mod_small; lia. }
    assert (x / 2 ^ 7 = 1) as -> by (symmetry; apply (Z.div_unique x (2 ^ 7) 1 (x - 128)); lia). change (negb (1 mod 2 ^ 1 =? 0)) with true. cbv iota.
    replace (2 * (128 * 256 ^ Z.of_nat k) - 1 - (v + 2 * (128 * 256 ^ Z.of_nat k))) with (- v - 1) by lia.
    unfold s32. rewrite !(u32_small (- v - 1)) by lia. rewrite (proj2 (Z.ltb_lt _ _)) by lia. replace (- (- v - 1)) with (v + 1) by lia. apply parses_ret.
  - rewrite (Z.mod_small v) by lia.
    assert (0 ≤ x < 128) as Hx.
    { assert (0 ≤ v / 256 ^ Z.of_nat k < 128) by (split; [apply Z.div_pos|apply Z.div_lt_upper_bound]; lia). unfold x. rewrite Z.mod_small; lia. }
    rewrite (Z.div_small x) by lia. change (negb (0 mod 2 ^ 1 =? 0)) with false. cbv iota.
    unfold s32. rewrite u32_small by lia. rewrite (proj2 (Z.ltb_lt _ _)) by lia. apply parses_ret.
Qed.

(** ** Documents: the tokens of a DER document in their order *)

Inductive item : Type :=
  | ISeq (n : Z) | IOid (d : list Z) | IOctstr (d : list Z) | IBitstr (d : list Z) (pad : Z) | IS32 (v : Z) | INull.

Definition item_bytes (i : item) : list Z :=
  match i with
  | ISeq n => head_bytes TT_ASN1_SEQUENCE n
  | IOid d => head_bytes TT_ASN1_OBJECT_IDENTIFIER (zlen d) ++ d
  | IOctstr d => head_bytes TT_ASN1_OCTET_STRING (zlen d) ++ d
  | IBitstr d pad => head_bytes TT_ASN1_BIT_STRING (1 + zlen d) ++ pad :: d
  | IS32 v => head_bytes TT_ASN1_INTEGER (Z.of_nat (int_octets v)) ++ int_bytes v
  | INull => [5; 0]
  end.

Definition item_ok (i : item) : Prop :=
  match i with
  | ISeq n => is_u32 n
  | IOid d | IOctstr d => Forall is_u8 d ∧ zlen d < 2 ^ 31
  | IBitstr d pad => Forall is_u8 d ∧ zlen d < 2 ^ 31 ∧ 0 ≤ pad < 8
  | IS32 v => is_s32 v
  | INull => True
  end.

Definition put_item `{Allocator} (i : item) : M tt_buf_t unit :=
  match i with
  | ISeq n => tt_der_encode_sequence n
  | IOid d => tt_der_encode_oid d
  | IOctstr d => tt_der_encode_octstr d
  | IBitstr d pad => tt_der_encode_bitstr (Some d) (zlen d) pad
  | IS32 v => tt_der_encode_s32 v
  | INull => tt_der_encode_null
  end.

(** Read an item of the kind of [i]. *)
Definition get_item (i : item) : M tt_buf_t item :=
  match i with
  | ISeq _ => n ← tt_der_decode_sequence false; mret (ISeq n)
  | IOid _ => x ← tt_der_decode_oid true; d ← pointed x; mret (IOid d)
  | IOctstr _ => x ← tt_der_decode_octstr true; d ← pointed x; mret (IOctstr d)
  | IBitstr _ _ =>
      '(p, n, pad) ← tt_der_decode_bitstr false; tt_buf_inc_rp n;; d ← pointed (p, n); mret (IBitstr d pad)
  | IS32 _ => '(_, v) ← tt_der_decode_s32 true; mret (IS32 v)
  | INull => tt_der_decode_null;; mret INull
  end.

Definition seen (i : item) : item := match i with IS32 v => IS32 (seen_s32 v) | _ => i end.

(** The announced length of an item; that of a sequence without its content, which
    is the items that follow. *)
Definition item_len (i : item) : exec Z :=
  match i with
  | ISeq n => tt_der_head_len TT_ASN1_SEQUENCE n
  | IOid d => tt_der_oid_len (zlen d)
  | IOctstr d => tt_der_octstr_len (zlen d)
  | IBitstr d pad => tt_der_bitstr_len (zlen d) pad
  | IS32 v => tt_der_s32_len v
  | INull => tt_der_null_len
  end.
(** The lengths at which the number of unused bits needs another length octet. *)
Definition at_step (n : Z) : bool := (n =? 2 ^ 7 - 1) || (n =? 2 ^ 8 - 1) || (n =? 2 ^ 16 - 1) || (n =? 2 ^ 24 - 1).

Fixpoint put_items `{Allocator} (l : list item) : M tt_buf_t unit :=
  match l with [] => mret tt | i :: l => put_item i;; put_items l end.
Fixpoint get_items (l : list item) : M tt_buf_t (list item) :=
  match l with [] => mret [] | i :: l => x ← get_item i; xs ← get_items l; mret (x :: xs) end.
Definition items_bytes (l : list item) : list Z := concat (map item_bytes l).

Section items.
Context `{Allocator}.

Lemma renders_item i : item_ok i → renders (put_item i) (item_bytes i).
Proof.
  destruct i as [n|d|d|d pad|v|]; cbn [item_ok put_item item_bytes].
  - intros. by apply renders_head.
  - intros [Hd Hl]. pose proof (zlen_nonneg d). apply renders_bind; [apply renders_head; [done|done|unfold is_u32; lia]|by apply renders_put].
  - intros [Hd Hl]. pose proof (zlen_nonneg d). apply renders_bind; [apply renders_head; [done|done|unfold is_u32; lia]|by apply renders_put].
  - intros (Hd & Hl & Hp). pose proof (zlen_nonneg d). unfold tt_der_encode_bitstr. rewrite u32_small by lia.
    apply renders_bind; [apply renders_head; [done|done|unfold is_u32; lia]|].
    rewrite (proj2 (Z.ltb_lt pad 8)) by lia. apply (renders_bind _ _ [] (pad :: d)); [apply renders_ret|].
    rewrite u8_small by (unfold is_u8; lia). apply (renders_bind _ _ [pad]); [apply renders_u8; unfold is_u8; lia|].
    apply (renders_access _ _ d); [|by apply renders_put]. unfold mem_read, in_block. rewrite Z.add_0_l.
    rewrite (proj2 (Z.leb_le 0 (zlen d))), (proj2 (Z.leb_le (zlen d) (zlen d))) by lia. cbn. f_equal. unfold sub. rewrite drop_0. apply take_ge. unfold zlen. lia.
  - apply renders_s32.
  - intros _. apply (renders_be 2).
Qed.

Lemma renders_items l : Forall item_ok l → renders (put_items l) (items_bytes l).
Proof. induction 1 as [|i l Hi Hl IH]; [apply renders_ret|]. apply renders_bind; [by apply renders_item|done]. Qed.

Lemma parses_pointed_map (k : list Z → item) d n : n = zlen d →
  parses (x ← (p ← gets rpos; pass_content true n;; mret (p, n)); d ← pointed x; mret (k d)) d (k d).
Proof. intros Hn. apply (proj1 (parses_assoc _ pointed (λ d, mret (k d)) d (k d))), (parses_map _ k). by apply parses_pointed. Qed.

Lemma parses_item i : item_ok i → parses (get_item i) (item_bytes i) (seen i).
Proof.
  destruct i as [n|d|d|d pad|v|]; cbn [item_ok get_item item_bytes seen].
  - intros. apply (parses_map _ ISeq), (parses_head _ _ _ n); [by apply parses_expect|]. apply (parses_head _ _ [] tt); apply parses_ret.
  - intros [Hd Hl]. pose proof (zlen_nonneg d). apply parses_assoc. apply (parses_bind _ _ _ _ (zlen d)); [apply parses_expect; try done; unfold is_u32; lia|].
    by apply (parses_pointed_map IOid).
  - intros [Hd Hl]. pose proof (zlen_nonneg d). apply parses_assoc. apply (parses_bind _ _ _ _ (zlen d)); [apply parses_expect; try done; unfold is_u32; lia|].
    by apply (parses_pointed_map IOctstr).
  - intros (Hd & Hl & Hp). pose proof (zlen_nonneg d). apply parses_assoc.
    apply (parses_bind _ _ _ _ (1 + zlen d)); [apply parses_expect; try done; unfold is_u32; lia|]. apply parses_assoc.
    apply (parses_bind _ _ [pad] d pad); [apply parses_u8|]. replace (u32 (1 + zlen d - 1)) with (zlen d) by (rewrite u32_small; lia).
    intros b rest Hwf Hc. pose proof (parses_inc_rp d (zlen d) eq_refl b rest Hwf Hc) as Hi.
    assert ((p ← gets rpos; pass_content false (1 + zlen d);; mret (p, zlen d, pad)) b = Ret (TT_SUCCESS (rpos b, zlen d, pad), b)) as E.
    { done. }
    erewrite bind_step by exact E. cbv beta iota. erewrite bind_step by exact Hi. unfold pointed. cbn [fst snd].
    rewrite (bind_step _ _ _ d (set_rpos (rpos b + zlen d) b)); [done|]. erewrite (bind_step (gets id)) by done. cbn [id].
    change (blk (set_rpos (rpos b + zlen d) b)) with (blk b). unfold access. by rewrite (mem_read_content b d rest).
  - intros Hv. apply (parses_head _ _ _ _ _ (parses_s32 v Hv)). apply parses_ret.
  - intros _. apply (parses_head _ _ _ tt); [|apply parses_ret]. apply (parses_head _ _ [5; 0] 0); [|apply parses_ret].
    by apply (parses_expect 5 0).
Qed.

Lemma parses_items l : Forall item_ok l → parses (get_items l) (items_bytes l) (map seen l).
Proof.
  induction 1 as [|i l Hi Hl IH]; [apply parses_ret|]. cbn [get_items items_bytes map concat].
  apply (parses_bind _ _ _ _ (seen i)); [by apply parses_item|]. by apply (parses_map _ (cons (seen i))).
Qed.
End items.

(** ** Announced lengths *)

Lemma zlen_length_bytes n : is_u32 n → 1 ≤ zlen (length_bytes n) ≤ 5.
Proof.
  intros Hn. unfold length_bytes. case_match; [change (zlen [n]) with 1; lia|]. rewrite zlen_cons, zlen_be.
  destruct (len_octets_spec n Hn). lia.
Qed.
Lemma head_len_ok tag n : high_tag tag = false → is_u32 n → tt_der_head_len tag n = Ret (zlen (head_bytes tag n)).
Proof.
  intros Ht Hn. unfold tt_der_head_len, head_bytes. rewrite Ht, octnum_of_length, zlen_cons by done.
  pose proof (zlen_length_bytes n Hn). rewrite u32_small by lia. done.
Qed.
Lemma head_len_step n : 0 ≤ n < 2 ^ 31 →
  zlen (length_bytes (1 + n)) = zlen (length_bytes n) + (if at_step n then 1 else 0).
Proof.
  intros Hn. unfold length_bytes, len_octets, at_step. compares; rewrite ?zlen_cons, ?zlen_be; cbn [orb]; try lia; reflexivity.
Qed.

Lemma item_len_ok i : item_ok i →
  item_len i = Ret (zlen (item_bytes i) - match i with IBitstr d _ => if at_step (zlen d) then 1 else 0 | _ => 0 end).
Proof.
  assert (∀ tag n, high_tag tag = false → 0 ≤ n < 2 ^ 31 → tt_der_head_len tag n = Ret (zlen (head_bytes tag n)) ∧ 2 ≤ zlen (head_bytes tag n) ≤ 6) as Hhead.
  { intros tag n Ht Hn. assert (is_u32 n) as Hu by (unfold is_u32; lia). split; [by apply head_len_ok|]. unfold head_bytes. rewrite zlen_cons.
    pose proof (zlen_length_bytes n Hu). lia. }
  destruct i as [n|d|d|d pad|v|]; cbn [item_ok item_len item_bytes].
  - intros Hn. rewrite Z.sub_0_r. by apply head_len_ok.
  - intros [Hd Hl]. pose proof (zlen_nonneg d). unfold tt_der_oid_len. destruct (Hhead TT_ASN1_OBJECT_IDENTIFIER (zlen d)) as [-> ?]; [done|lia|].
    cbn [exec_bind]. rewrite zlen_app, Z.sub_0_r, u32_small by lia. done.
  - intros [Hd Hl]. pose proof (zlen_nonneg d). unfold tt_der_octstr_len. destruct (Hhead TT_ASN1_OBJECT_IDENTIFIER (zlen d)) as [-> ?]; [done|lia|].
    cbn [exec_bind]. rewrite zlen_app, Z.sub_0_r, u32_small by lia. done.
  - intros (Hd & Hl & Hp). pose proof (zlen_nonneg d). unfold tt_der_bitstr_len. rewrite (proj2 (Z.ltb_lt pad 8)) by lia.
    destruct (Hhead TT_ASN1_BIT_STRING (zlen d)) as [-> Hh]; [done|lia|]. cbn [exec_bind].
    rewrite (u32_small (_ + 1)), u32_small by lia. f_equal. rewrite zlen_app, zlen_cons. unfold head_bytes. rewrite !zlen_cons.
    pose proof (head_len_step (zlen d) ltac:(lia)). lia.
  - intros Hv. pose proof (int_octets_range v). unfold tt_der_s32_len. rewrite octnum_of_s32 by done.
    destruct (Hhead TT_ASN1_INTEGER (Z.of_nat (int_octets v))) as [-> ?]; [done|lia|]. cbn [exec_bind]. unfold int_bytes.
    rewrite zlen_app, zlen_be, Z.sub_0_r, u32_small by lia. done.
  - done.
Qed.

(** ** Any bytes *)

Lemma reads_length_loop k : ∀ acc, is_u32 acc → reads (length_loop k acc) is_u32.
Proof.
  induction k as [|k IH]; intros acc Ha; cbn [length_loop]; [by apply reads_ret|].
  eapply reads_bind; [apply reads_u8|]. intros v _. apply IH. apply u32_range.
Qed.
Lemma reads_head : reads (tt_der_decode_head false) (λ x, 0 ≤ x.1 ∧ is_u32 x.2).
Proof.
  unfold tt_der_decode_head. eapply reads_bind; [apply reads_u8|]. intros v Hv. destruct (high_tag v); [apply reads_fail|].
  eapply reads_bind; [apply reads_u8|]. intros w Hw. eapply (reads_bind _ _ is_u32).
  - destruct (negb _); [|apply reads_ret; unfold is_u8, is_u32 in *; lia]. destruct (4 <? _); [apply reads_fail|]. by apply reads_length_loop.
  - intros n Hn. eapply (reads_bind _ _ (λ _, True)); [by apply reads_ret|]. intros _ _. apply reads_ret. split; [|done].
    unfold is_u8 in Hv. cbn. apply Z.land_nonneg. lia.
Qed.
Lemma reads_expect want : reads (expect_tag want) is_u32.
Proof.
  unfold expect_tag. eapply reads_bind; [apply reads_do_r, reads_head|]. intros [tag n] [_ Hn]. destruct (negb _); [apply reads_fail|by apply reads_ret].
Qed.
Lemma reads_assoc {A B C} (m : M tt_buf_t A) (k : A → M tt_buf_t B) (h : B → M tt_buf_t C) P :
  reads (x ← m; y ← k x; h y) P → reads (y ← (x ← m; k x); h y) P.
Proof.
  intros Hr b Hwf Hl. destruct (Hr b Hwf Hl) as (r & n & E & ?). exists r, n. split; [|done]. rewrite <- E.
  unfold mbind, M_bind, bind. by destruct (m b) as [[[a|e] s]| | |].
Qed.

(** Passing the content makes sure that the bytes pointed to are in the buffer. *)
Lemma reads_pointed (k : list Z → item) n P : 0 ≤ n → (∀ d, Forall is_u8 d → zlen d = n → P (k d)) →
  reads (x ← (p ← gets rpos; pass_content true n;; mret (p, n)); d ← pointed x; mret (k d)) P.
Proof.
  intros Hn HP b Hwf Hl. destruct (Z_lt_le_dec (zlen (content b)) n) as [Hlt|Hle].
  - exists (TT_ERROR TT_E_BUF_NOBUFS), 0. rewrite set_rpos_0. split; [|split; [pose proof (zlen_nonneg (content b)); lia|done]].
    assert ((p ← gets rpos; pass_content true n;; mret (p, n)) b = Ret (TT_ERROR TT_E_BUF_NOBUFS, b)) as E.
    { erewrite (bind_step (gets rpos)) by done. apply bind_error. cbn [pass_content]. rewrite buf_inc_rp_spec by done. by b_step. }
    by erewrite bind_error by exact E.
  - set (d := sub (content b) 0 n). assert (zlen d = n) as Hd by (apply zlen_sub; lia).
    assert (content b = d ++ sub (content b) n (zlen (content b) - n)) as Hc.
    { unfold d. rewrite <- (sub_split _ 0 n) by lia. replace (n + (zlen (content b) - n)) with (zlen (content b)) by lia. by rewrite sub_all. }
    exists (TT_SUCCESS (k d)), n. split; [|split; [lia|]].
    + pose proof (parses_pointed_map k d n (eq_sym Hd) b _ Hwf Hc) as E. by rewrite Hd in E.
    + apply HP; [|done]. apply Forall_sub, Forall_sub, wf_bytes, Hwf.
Qed.

Lemma le_combine_app l1 l2 : le_combine (l1 ++ l2) = le_combine l1 + 256 ^ zlen l1 * le_combine l2.
Proof.
  induction l1 as [|x l IH]; cbn [app le_combine]; [change (256 ^ zlen (@nil Z)) with 1; lia|].
  rewrite IH, zlen_cons, Z.pow_add_r by (try lia; apply zlen_nonneg). lia.
Qed.

(** The value of one to four bytes. *)
Lemma int_value_range x d : is_u8 x → Forall is_u8 d → zlen d ≤ 3 →
  let '(v, m) := int_loop (x :: d) in
  is_s32 (if negb (Z.land x 0x80 =? 0) then - s32 (u32 (m - v)) else s32 v).
Proof.
  intros Hx Hd Hl. unfold is_u8 in Hx. pose proof (zlen_nonneg d).
  rewrite int_loop_spec by first [by constructor|rewrite zlen_cons; lia]. cbn [rev]. rewrite le_combine_app. cbn [le_combine].
  assert (zlen (rev d) = zlen d) as Hz by (unfold zlen; by rewrite length_rev).
  pose proof (le_combine_range (rev d) (Forall_rev Hd)) as Hr. rewrite Hz in *.
  change 128 with (Z.shiftl (Z.ones 1) 7). rewrite land_field_0 by done. rewrite zlen_cons, Z.pow_add_r by lia.
  assert (256 ^ zlen d ≤ 256 ^ 3) by (apply Z.pow_le_mono_r; lia). change (256 ^ 1) with 256. set (P := 256 ^ zlen d) in *. set (v := le_combine (rev d)) in *.
  assert (x / 2 ^ 7 = if x <? 128 then 0 else 1) as ->.
  { destruct (Z.ltb_spec x 128); [apply Z.div_small; lia|]. symmetry. apply (Z.div_unique x (2 ^ 7) 1 (x - 128)); lia. }
  unfold is_s32. destruct (Z.ltb_spec x 128).
  - change (negb (0 mod 2 ^ 1 =? 0)) with false. cbv iota. assert (0 ≤ v + P * (x + 256 * 0) < 128 * P) by nia.
    unfold s32. rewrite u32_small by lia. rewrite (proj2 (Z.ltb_lt _ _)) by lia. lia.
  - change (negb (1 mod 2 ^ 1 =? 0)) with true. cbv iota. assert (128 * P ≤ v + P * (x + 256 * 0) < 256 * P) by nia.
    unfold s32. rewrite !(u32_small (256 * P - 1 - _)) by lia. rewrite (proj2 (Z.ltb_lt _ _)) by lia. lia.
Qed.

Definition seen_ok (i x : item) : Prop :=
  match i, x with
  | ISeq _, ISeq n => is_u32 n
  | IOid _, IOid d | IOctstr _, IOctstr d => Forall is_u8 d
  | IBitstr _ _, IBitstr d pad => Forall is_u8 d ∧ is_u8 pad
  | IS32 _, IS32 v => is_s32 v
  | INull, INull => True
  | _, _ => False
  end.

Lemma reads_item i : (∀ v, i ≠ IS32 v) → reads (get_item i) (seen_ok i).
Proof.
  intros Hi. destruct i as [n|d|d|d pad|v|]; cbn [get_item]; [..|by destruct (Hi v)|].
  - eapply (reads_bind _ _ is_u32); [|intros m Hm; by apply reads_ret]. eapply reads_bind; [apply reads_expect|]. intros m Hm.
    eapply (reads_bind _ _ (λ _, True)); [by apply reads_ret|]. intros _ _. by apply reads_ret.
  - apply reads_assoc. eapply reads_bind; [apply reads_expect|]. intros n [Hn _]. by apply (reads_pointed IOid).
  - apply reads_assoc. eapply reads_bind; [apply reads_expect|]. intros n [Hn _]. by apply (reads_pointed IOctstr).
  - apply reads_assoc. eapply reads_bind; [apply reads_expect|]. intros n Hn. apply reads_assoc. eapply reads_bind; [apply reads_u8|]. intros q Hq.
    intros b Hwf Hl. pose proof (u32_range (n - 1)) as Hr. pose proof (reads_pointed (λ d, IBitstr d q) (u32 (n - 1)) (seen_ok (IBitstr d pad)) ltac:(lia) ltac:(by intros) b Hwf Hl) as Hp'.
    destruct Hp' as (r & k & E & ?). exists r, k. split; [|done]. rewrite <- E. unfold pointed, pass_content, mbind, M_bind, bind, gets, mret, M_ret, ret. cbn [exec_bind].
    by destruct (tt_buf_inc_rp (u32 (n - 1)) b) as [[[a|e] s]| | |].
  - eapply (reads_bind _ _ (λ _, True)); [|intros _ _; by apply reads_ret]. eapply reads_bind; [apply reads_expect|]. intros n _.
    destruct (negb _); [apply reads_fail|by apply reads_ret].
Qed.

(** The decoder of numbers, with or without passing them: it is undefined exactly on
    a number without bytes, whose first byte it looks at. *)
Lemma s32_cases pass b : buf_wf b → zlen (content b) ≤ max_read →
  (∃ b', expect_tag TT_ASN1_TAG_INTEGER b = Ret (TT_SUCCESS 0, b')) ∧ tt_der_decode_s32 pass b = Undef ∨
  (¬ ∃ b', expect_tag TT_ASN1_TAG_INTEGER b = Ret (TT_SUCCESS 0, b')) ∧
  ∃ r n, tt_der_decode_s32 pass b = Ret (r, set_rpos (rpos b + n) b) ∧ 0 ≤ n ≤ zlen (content b) ∧
    match r with TT_SUCCESS x => 1 ≤ x.1 ≤ 4 ∧ is_s32 x.2 | TT_ERROR _ => True end.
Proof.
  intros Hwf Hl. destruct (reads_expect TT_ASN1_TAG_INTEGER b Hwf Hl) as (r & k & E & Hk & Hr). unfold tt_der_decode_s32.
  destruct r as [n|e].
  2: { right. split; [intros [? E']; congruence|]. exists (TT_ERROR e), k. split; [by apply bind_error|done]. }
  set (b1 := set_rpos (rpos b + k) b) in *. assert (buf_wf b1) as Hwf1 by (apply wf_advance; [done|lia|lia]).
  assert (content b1 = drop (Z.to_nat k) (content b)) as Hc1 by by apply content_set_rpos.
  assert (zlen (content b1) = zlen (content b) - k) as Hl1 by (rewrite Hc1, zlen_drop; lia).
  pose proof (wf_pos b1 Hwf1). pose proof (wf_size b1 Hwf1). pose proof (wf_content b1 Hwf1) as Hc.
  erewrite bind_step by exact E. destruct (Z.ltb_spec 4 n).
  { right. split; [intros [? E']; assert (n = 0) by congruence; lia|]. exists (TT_ERROR TT_FAIL), k. done. }
  destruct (Z.eq_dec n 0) as [->|Hn].
  { left. split; [by exists b1|]. assert (tt_buf_get 0 b1 = Ret (TT_SUCCESS [], set_rpos (rpos b1 + 0) b1)) as Eg.
    { rewrite buf_get_spec by done. by rewrite (proj2 (Z.leb_le 0 _)) by lia. }
    by erewrite bind_step by exact Eg. }
  right. split; [intros [? E']; assert (n = 0) by congruence; lia|]. destruct Hr as [Hr0 _].
  destruct (Z_lt_le_dec (zlen (content b1)) n) as [Hlt|Hle].
  { exists (TT_ERROR TT_E_BUF_NOBUFS), k. split; [|done].
    apply bind_error. rewrite buf_get_spec by done. by rewrite (proj2 (Z.leb_gt _ _)) by lia. }
  assert (tt_buf_get n b1 = Ret (TT_SUCCESS (sub (content b1) 0 n), set_rpos (rpos b1 + n) b1)) as Eg.
  { rewrite buf_get_spec by done. by rewrite (proj2 (Z.leb_le _ _)) by lia. }
  assert (Forall is_u8 (sub (content b1) 0 n)) as Hd by (apply Forall_sub, Forall_sub, wf_bytes, Hwf1).
  assert (zlen (sub (content b1) 0 n) = n) as Hz by (apply zlen_sub; lia).
  erewrite bind_step by exact Eg. destruct (sub (content b1) 0 n) as [|x d]; [unfold zlen in Hz; simpl in Hz; lia|].
  rewrite zlen_cons in Hz. apply Forall_cons_1 in Hd as [Hx Hd]. pose proof (int_value_range x d Hx Hd ltac:(lia)) as Hv.
  destruct (int_loop (x :: d)) as [v m].
  assert (∃ w, (if negb (Z.land x 128 =? 0) then mret (- s32 (u32 (m - v))) else mret (s32 v)) = (mret w : M tt_buf_t Z) ∧ is_s32 w) as (w & -> & Hw)
    by (destruct (negb _); eauto).
  exists (TT_SUCCESS (n, w)), (k + if pass then n else 0). split; [|split; [destruct pass; lia|]; split; [cbn; lia|done]].
  assert (set_rpos (rpos b + (k + if pass then n else 0)) b = set_rpos (rpos b1 + if pass then n else 0) b1) as ->
    by (subst b1; unfold set_rpos; cbn; f_equal; lia).
  destruct pass; [done|]. rewrite set_rpos_0. erewrite (bind_step (mret w)) by done. erewrite (bind_step (modify _)) by done.
  unfold mret, M_ret, ret. do 2 f_equal. subst b1. unfold set_rpos in *. cbn in *. rewrite u32_small by lia. f_equal. lia.
Qed.

(** C27: DER round-trips, number by number off by one: the tokens of any document,
    encoded one after the other, are the bytes of X.690; reading them by their
    kinds gives them back, except that a negative number comes back one too large,
    and leaves nothing behind; the announced lengths are the encoded ones, except
    for bit strings whose unused-bits octet needs a longer length. *)
Theorem der_roundtrip `{Allocator} l b :
  Forall item_ok l → buf_wf b → readonly b = false → content b = [] → reliable b → room b (zlen (items_bytes l)) →
  ∃ b' b'', put_items l b = Ret (TT_SUCCESS tt, b') ∧ content b' = items_bytes l ∧
    get_items l b' = Ret (TT_SUCCESS (map seen l), b'') ∧ buf_wf b'' ∧ content b'' = [] ∧
    Forall (λ i, item_len i = Ret (zlen (item_bytes i) - match i with IBitstr d _ => if at_step (zlen d) then 1 else 0 | _ => 0 end)) l.
Proof.
  intros Hl Hwf Hro Hc Hrel Hroom.
  destruct (renders_items l Hl b Hwf Hro Hroom) as [(b' & E & A)|(? & ? & _ & _ & _ & ?)]; [|done].
  pose proof (app_content _ _ _ A) as Hc'. rewrite Hc in Hc'. simpl in Hc'. pose proof (app_wf _ _ _ A) as Hwf'.
  pose proof (zlen_nonneg (content b')). pose proof (parses_items l Hl b' [] Hwf' ltac:(by rewrite app_nil_r)) as Eg. rewrite <- Hc' in Eg.
  exists b', (set_rpos (rpos b' + zlen (content b')) b'). split_and!; try done.
  - apply wf_advance; [done|lia|lia].
  - rewrite content_set_rpos by (done || lia). apply drop_ge. unfold zlen. lia.
  - eapply List.Forall_impl; [|exact Hl]. apply item_len_ok.
Qed.


Lemma der_roundtrip_witness : ∃ b' b'',
  @put_items zero_alloc [ISeq 14; IS32 (-130); IOctstr [1; 2]; IBitstr [128] 7; INull] small_buf = Ret (TT_SUCCESS tt, b') ∧
  content b' = [48; 14; 2; 2; 255; 126; 4; 2; 1; 2; 3; 2; 7; 128; 5; 0] ∧
  get_items [ISeq 14; IS32 (-130); IOctstr [1; 2]; IBitstr [128] 7; INull] b'
    = Ret (TT_SUCCESS [ISeq 14; IS32 (-129); IOctstr [1; 2]; IBitstr [128] 7; INull], b'').
Proof.
  destruct (@der_roundtrip zero_alloc [ISeq 14; IS32 (-130); IOctstr [1; 2]; IBitstr [128] 7; INull] small_buf) as (b' & b'' & E & Hc & Eg & _).
  - repeat (apply Forall_cons_2 || apply Forall_nil_2); cbn; unfold is_u32, is_s32; split_and?; try done; bytes_tac.
  - exact empty_buf_wf.
  - done.
  - done.
  - split; [by intros n; eexists|reflexivity].
  - by apply small_buf_room.
  - exists b', b''. split; [exact E|]. split; [exact Hc|exact Eg].
Defined.

