(* ===== verification/Base64.v ===== *)
(** Base64 decoding: misc/tt_base64.h and .c.  The code; the decoding of RFC 2045
    [ref_decode] and an encoder [b64_encode], which the library does not have; when
    the code delivers what they say. *)

From S2P Require Import Prelude MemSpring Buffer SshCodec Str StrSpec.

Definition __B64_C_PAD : Z := 61.
Definition __B64_U_INVALID : Z := 0xFF.

Definition tt_s_base64_u2c_table : list Z := [
  65; 66; 67; 68; 69; 70; 71; 72; 73; 74; 75; 76; 77; 78; 79; 80; 81; 82; 83; 84; 85; 86; 87; 88;
  89; 90; 97; 98; 99; 100; 101; 102; 103; 104; 105; 106; 107; 108; 109; 110; 111; 112; 113; 114;
  115; 116; 117; 118; 119; 120; 121; 122; 48; 49; 50; 51; 52; 53; 54; 55; 56; 57; 43; 47].
Definition tt_s_base64_c2u_table : list Z := [
  255; 255; 255; 255; 255; 255; 255; 255; 255; 255; 255; 255; 255; 255; 255; 255; 255; 255; 255;
  255; 255; 255; 255; 255; 255; 255; 255; 255; 255; 255; 255; 255; 255; 255; 255; 255; 255; 255;
  255; 255; 255; 255; 255; 62; 255; 255; 255; 63; 52; 53; 54; 55; 56; 57; 58; 59; 60; 61; 255; 255;
  255; 255; 255; 255; 255; 0; 1; 2; 3; 4; 5; 6; 7; 8; 9; 10; 11; 12; 13; 14; 15; 16; 17; 18; 19;
  20; 21; 22; 23; 24; 25; 255; 255; 255; 255; 255; 255; 26; 27; 28; 29; 30; 31; 32; 33; 34; 35; 36;
  37; 38; 39; 40; 41; 42; 43; 44; 45; 46; 47; 48; 49; 50; 51; 255; 255; 255; 255; 255; 255; 255;
  255; 255; 255; 255; 255; 255; 255; 255; 255; 255; 255; 255; 255; 255; 255; 255; 255; 255; 255;
  255; 255; 255; 255; 255; 255; 255; 255; 255; 255; 255; 255; 255; 255; 255; 255; 255; 255; 255;
  255; 255; 255; 255; 255; 255; 255; 255; 255; 255; 255; 255; 255; 255; 255; 255; 255; 255; 255;
  255; 255; 255; 255; 255; 255; 255; 255; 255; 255; 255; 255; 255; 255; 255; 255; 255; 255; 255;
  255; 255; 255; 255; 255; 255; 255; 255; 255; 255; 255; 255; 255; 255; 255; 255; 255; 255; 255;
  255; 255; 255; 255; 255; 255; 255; 255; 255; 255; 255; 255; 255; 255; 255; 255; 255; 255; 255;
  255; 255; 255; 255; 255; 255; 255; 255; 255; 255; 255; 255].

Definition __b64_u2c (u : Z) : exec Z :=
  if u <? 64 then Ret (nth (Z.to_nat u) tt_s_base64_u2c_table 0) else Crash.
Definition __b64_c2u (c : Z) : Z := nth (Z.to_nat c) tt_s_base64_c2u_table 0.

(** The boundaries, as C strings. *)
Record tt_base64_decode_attr_t : Type := mk_b64_attr {
  start_boundary : option (list Z);
  end_boundary : option (list Z);
}.
Definition tt_base64_decode_attr_default : tt_base64_decode_attr_t := mk_b64_attr None None.

(** The OUT parameters: the array, if there is one, and its length. *)
Record b64_out : Type := mk_b64 { decoded : option (list Z); decoded_len : Z }.
Definition set_decoded (d : list Z) (o : b64_out) : b64_out := mk_b64 (Some d) (decoded_len o).
Definition set_decoded_len (n : Z) (o : b64_out) : b64_out := mk_b64 (decoded o) n.

Definition crlf (c : Z) : bool := (c =? 13) || (c =? 10).

(** ** Validation *)

Definition __BV_INIT : Z := 0.
Definition __BV_PAD : Z := 1.
Definition __BV_END : Z := 2.

Fixpoint validate_loop (data : list Z) (state : Z) : result unit :=
  match data with
  | [] => TT_SUCCESS tt
  | c :: data =>
      if state =? __BV_PAD then
        if negb (c =? __B64_C_PAD) && negb (crlf c) then TT_ERROR TT_FAIL
        else validate_loop data __BV_END
      else if state =? __BV_END then
        if negb (crlf c) then TT_ERROR TT_FAIL else validate_loop data state
      else if crlf c then validate_loop data state
      else if c =? __B64_C_PAD then validate_loop data __BV_PAD
      else if __b64_c2u c =? __B64_U_INVALID then TT_ERROR TT_FAIL
      else validate_loop data state
  end.
Definition __b64_validate (data : list Z) : result unit := validate_loop data __BV_INIT.

(** ** Decoding *)

(** Store the bytes [d] at [decoded + decoded_idx]. *)
Definition put_decoded (decoded_idx : Z) (d : list Z) : M b64_out unit := λ o,
  match decoded o with
  | None => Ret (TT_SUCCESS tt, o)
  | Some buf =>
      if decoded_len o <? u32 (decoded_idx + zlen d) then Ret (TT_ERROR TT_FAIL, o)
      else exec_bind (mem_write buf decoded_idx d) (λ buf, Ret (TT_SUCCESS tt, set_decoded buf o))
  end.

(** The bytes of 24 bits, less those that were padded. *)
Definition quantum (val pad_num : Z) : list Z :=
  take (if pad_num =? 0 then 3 else if pad_num =? 1 then 2 else 1)
    [Z.land (Z.shiftr val 16) 0xFF; Z.land (Z.shiftr val 8) 0xFF; Z.land val 0xFF].

(** [n] and [decoded_idx] after the loop. *)
Fixpoint decode_loop (data : list Z) (n val pad_num decoded_idx : Z) : M b64_out (Z * Z) :=
  match data with
  | [] => mret (n, decoded_idx)
  | c :: data =>
      if crlf c then decode_loop data n val pad_num decoded_idx
      else
        '(v, pad_num) ← (if negb (c =? __B64_C_PAD) then
                           let v := __b64_c2u c in assert_always (negb (v =? __B64_U_INVALID));; mret (v, pad_num)
                         else mret (0, u32 (pad_num + 1)));
        let val := Z.lor (u32 (Z.shiftl val 6)) v in
        let n := u32 (n + 1) in
        if n =? 4 then
          assert_always (pad_num <=? 2);;
          let d := quantum val pad_num in
          put_decoded decoded_idx d;;
          decode_loop data 0 0 pad_num (u32 (decoded_idx + zlen d))
        else decode_loop data n val pad_num decoded_idx
  end.
Definition __b64_decode (data : list Z) : M b64_out unit :=
  '(n, idx) ← decode_loop data 0 0 0 0;
  if negb (n =? 0) then fail TT_FAIL else modify (set_decoded_len idx).

(** The place of the text between the boundaries in the block of [data]; [after] is
    what follows the data there. *)
Definition __b64_rm_boundary (data after : list Z) (start_b end_b : list Z) : exec (result (list Z)) :=
  exec_bind (c_str (data ++ after)) (λ s,
    match strstr s start_b with
    | None => Ret (TT_ERROR TT_FAIL)
    | Some i =>
        let s := drop (Z.to_nat (i + zlen start_b)) s in
        match strstr s end_b with
        | None => Ret (TT_ERROR TT_FAIL)
        | Some j => Ret (TT_SUCCESS (take (Z.to_nat j) s))
        end
    end).

Definition tt_base64_decode (data after : list Z) (attr : option tt_base64_decode_attr_t) : M b64_out unit :=
  o ← gets id;
  if zlen data =? 0 then modify (set_decoded_len 0)
  else if match decoded o with Some _ => decoded_len o =? 0 | None => false end then mret tt
  else
    let a := default tt_base64_decode_attr_default attr in
    data ← (match start_boundary a, end_boundary a with
            | Some s, Some e => do_r TT_FAIL (call (__b64_rm_boundary data after s e))
            | _, _ => mret data
            end);
    if zlen data =? 0 then modify (set_decoded_len 0)
    else
      do_r TT_FAIL (call (Ret (__b64_validate data)));;
      __b64_decode data.

(** The array, or [NULL] for nothing, and its length. *)
Definition tt_base64_decode_alloc `{Allocator} (data after : list Z) (attr : option tt_base64_decode_attr_t)
  : exec (result (option (list Z) * Z)) :=
  exec_bind (tt_base64_decode data after attr (mk_b64 None 0)) (λ '(r, o),
    match r with
    | TT_ERROR _ => Ret (TT_ERROR TT_FAIL)
    | TT_SUCCESS _ =>
        if decoded_len o =? 0 then Ret (TT_SUCCESS (None, 0))
        else
          match malloc (decoded_len o) with
          | None => Ret (TT_ERROR TT_FAIL)
          | Some blk =>
              exec_bind (tt_base64_decode data after attr (mk_b64 (Some blk) (decoded_len o))) (λ '(r, o),
                match r with
                | TT_ERROR _ => Ret (TT_ERROR TT_FAIL)
                | TT_SUCCESS _ => Ret (TT_SUCCESS (decoded o, decoded_len o))
                end)
          end
    end).

(** ** The encoding of RFC 2045 *)

Definition b64_val (c : Z) : option Z :=
  if (65 <=? c) && (c <=? 90) then Some (c - 65)
  else if (97 <=? c) && (c <=? 122) then Some (c - 71)
  else if (48 <=? c) && (c <=? 57) then Some (c + 4)
  else if c =? 43 then Some 62 else if c =? 47 then Some 63 else None.
Definition b64_char (v : Z) : Z :=
  if v <? 26 then v + 65 else if v <? 52 then v + 71 else if v <? 62 then v - 4 else if v =? 62 then 43 else 47.

Definition bytes3 (x y z w : Z) : list Z := [x * 4 + y / 16; y mod 16 * 16 + z / 4; z mod 4 * 64 + w].

(** Groups of four characters, the last one padded. *)
Fixpoint ref_groups (s : list Z) : option (list Z) :=
  match s with
  | [] => Some []
  | a :: b :: c :: d :: s =>
      match b64_val a, b64_val b with
      | Some x, Some y =>
          match b64_val c, b64_val d with
          | Some z, Some w => app (bytes3 x y z w) <$> ref_groups s
          | Some z, None => if (d =? 61) && bool_decide (s = []) then Some (take 2 (bytes3 x y z 0)) else None
          | None, None => if (c =? 61) && (d =? 61) && bool_decide (s = []) then Some (take 1 (bytes3 x y 0 0)) else None
          | None, Some _ => None
          end
      | _, _ => None
      end
  | _ => None
  end.

(** Line ends may be anywhere but between the padding characters. *)
Definition strip (data : list Z) : list Z := List.filter (λ c, negb (crlf c)) data.
Fixpoint pads_together (data : list Z) : bool :=
  match data with
  | [] => true
  | c :: data =>
      if c =? 61 then match data with x :: t => ((x =? 61) || crlf x) && forallb crlf t | [] => true end
      else pads_together data
  end.
Definition ref_decode (data : list Z) : option (list Z) :=
  if pads_together data then ref_groups (strip data) else None.

Fixpoint b64_encode (d : list Z) : list Z :=
  match d with
  | [] => []
  | [a] => [b64_char (a / 4); b64_char (a mod 4 * 16); 61; 61]
  | [a; b] => [b64_char (a / 4); b64_char (a mod 4 * 16 + b / 16); b64_char (b mod 16 * 4); 61]
  | a :: b :: c :: d =>
      [b64_char (a / 4); b64_char (a mod 4 * 16 + b / 16); b64_char (b mod 16 * 4 + c / 64); b64_char (c mod 64)] ++ b64_encode d
  end.

(** The tables. *)
Lemma all_u8 (f : Z → bool) : forallb f (seqZ 0 256) = true → ∀ c, is_u8 c → f c = true.
Proof. intros Hf c Hc. rewrite forallb_forall in Hf. apply Hf, list_elem_of_In, elem_of_seqZ. unfold is_u8 in Hc. lia. Qed.
Lemma c2u_val c : is_u8 c → __b64_c2u c = default 255 (b64_val c).
Proof.
  intros Hc. apply Z.eqb_eq. revert c Hc. apply (all_u8 (λ c, __b64_c2u c =? default 255 (b64_val c))). vm_compute. reflexivity.
Qed.
Lemma u2c_char v : 0 ≤ v < 64 → __b64_u2c v = Ret (b64_char v).
Proof.
  intros Hv. unfold __b64_u2c. rewrite (proj2 (Z.ltb_lt _ _)) by lia. f_equal.
  assert (∀ c, is_u8 c → (negb (c <? 64) || (nth (Z.to_nat c) tt_s_base64_u2c_table 0 =? b64_char c)) = true) as Ht
    by (apply all_u8; vm_compute; reflexivity).
  specialize (Ht v ltac:(unfold is_u8; lia)). rewrite (proj2 (Z.ltb_lt v 64)) in Ht by lia. by apply Z.eqb_eq in Ht.
Qed.
Lemma b64_val_range c v : b64_val c = Some v → 0 ≤ v < 64.
Proof. unfold b64_val. intros. repeat case_match; simplify_eq; lia. Qed.
Lemma b64_val_char v : 0 ≤ v < 64 → b64_val (b64_char v) = Some v.
Proof. intros. unfold b64_char. repeat case_match; unfold b64_val; repeat case_match; f_equal; lia. Qed.
Lemma b64_char_plain v : 0 ≤ v < 64 → b64_char v ≠ 61 ∧ crlf (b64_char v) = false.
Proof. intros. unfold b64_char, crlf. repeat case_match; (split; [lia|]); apply orb_false_iff; lia. Qed.
Lemma b64_val_plain c v : b64_val c = Some v → c ≠ 61 ∧ crlf c = false.
Proof. unfold b64_val, crlf. intros. repeat case_match; simplify_eq; (split; [lia|]); apply orb_false_iff; lia. Qed.

(** ** Validation *)

Lemma validate_end data : validate_loop data __BV_END = if forallb crlf data then TT_SUCCESS tt else TT_ERROR TT_FAIL.
Proof. induction data as [|c data IH]; [done|]. cbn [validate_loop forallb]. change (__BV_END =? __BV_PAD) with false. change (__BV_END =? __BV_END) with true. by destruct (crlf c). Qed.

(** The characters before the padding. *)
Fixpoint body_ok (data : list Z) : bool :=
  match data with
  | [] => true
  | c :: data => if c =? 61 then true else (crlf c || bool_decide (is_Some (b64_val c))) && body_ok data
  end.
Lemma validate_spec data : Forall is_u8 data →
  __b64_validate data = if body_ok data && pads_together data then TT_SUCCESS tt else TT_ERROR TT_FAIL.
Proof.
  unfold __b64_validate. induction 1 as [|c data Hc Hd IH]; [done|]. cbn [validate_loop body_ok pads_together].
  change (__BV_INIT =? __BV_PAD) with false. change (__BV_INIT =? __BV_END) with false. cbv iota.
  unfold __B64_C_PAD in *. destruct (Z.eqb_spec c 61) as [->|Hp].
  - cbn [crlf]. change (crlf 61) with false. cbv iota. cbn [andb]. destruct data as [|x t]; [done|]. cbn [validate_loop].
    change (__BV_PAD =? __BV_PAD) with true. cbv iota. unfold __B64_C_PAD. rewrite <- negb_orb. destruct ((x =? 61) || crlf x); cbn; [|done]. apply validate_end.
  - rewrite c2u_val by done. destruct (crlf c); cbn [orb andb]; [done|].
    destruct (b64_val c) as [v|] eqn:Ev; [change (default 255 (Some v)) with v|change (default 255 None) with 255].
    + apply b64_val_range in Ev. rewrite bool_decide_true by by eexists. unfold __B64_U_INVALID. rewrite (proj2 (Z.eqb_neq v 255)) by lia. done.
    + rewrite bool_decide_false by by intros [? ?]. done.
Qed.

(** What can be decoded has no other characters. *)
Lemma ref_groups_body s d : ref_groups s = Some d → body_ok s = true.
Proof.
  assert (∀ n s d, (length s ≤ n)%nat → ref_groups s = Some d → body_ok s = true) as Hn; [|by apply (Hn (length s))]. clear.
  assert (∀ c v s, b64_val c = Some v → body_ok (c :: s) = body_ok s) as Hstep.
  { intros c v s Hc. cbn [body_ok]. destruct (b64_val_plain c v Hc) as [Hp _]. rewrite (proj2 (Z.eqb_neq c 61)) by done.
    rewrite Hc, bool_decide_true by by eexists. by rewrite orb_true_r. }
  induction n as [|n IH]; intros s d Hl Hr; [destruct s; [done|simpl in Hl; lia]|].
  destruct s as [|a [|b [|c [|e s]]]]; try done. cbn [ref_groups] in Hr.
  destruct (b64_val a) as [x|] eqn:Ea; [|done]. destruct (b64_val b) as [y|] eqn:Eb; [|done].
  rewrite (Hstep a x), (Hstep b y) by done.
  destruct (b64_val c) as [z|] eqn:Ec; [rewrite (Hstep c z) by done|]; destruct (b64_val e) as [w|] eqn:Ee; try done.
  - rewrite (Hstep e w) by done. destruct (ref_groups s) as [d'|] eqn:Es; [|done]. apply (IH s d'); [simpl in Hl; lia|done].
  - destruct (Z.eqb_spec e 61) as [->|]; done.
  - destruct (Z.eqb_spec c 61) as [->|]; done.
Qed.
Lemma body_strip data : body_ok data = body_ok (strip data).
Proof.
  induction data as [|c data IH]; [done|]. cbn [body_ok strip List.filter]. destruct (crlf c) eqn:Ec; cbn [negb orb andb].
  - destruct (Z.eqb_spec c 61) as [->|]; [done|]. apply IH.
  - cbn [body_ok]. destruct (c =? 61); [done|]. by rewrite Ec, IH.
Qed.

(** ** Groups of six bits *)

Lemma lor_low a w : 0 ≤ w < 64 → Z.lor (Z.shiftl a 6) w = a * 64 + w.
Proof.
  intros Hw. assert (Z.land (Z.shiftl a 6) w = 0) as Hl.
  { apply Z.bits_inj'. intros i Hi. rewrite Z.land_spec, Z.shiftl_spec, Z.bits_0 by done.
    destruct (Z.ltb_spec i 6); [by rewrite Z.testbit_neg_r by lia|].
    assert (Z.testbit w i = false) as ->; [|by rewrite andb_false_r].
    destruct (Z.eq_dec w 0) as [->|]; [apply Z.bits_0|]. apply Z.bits_above_log2; [lia|].
    assert (Z.log2 w < 6) by (apply Z.log2_lt_pow2; lia). lia. }
  pose proof (Z.add_lor_land (Z.shiftl a 6) w) as Hs. rewrite Hl, Z.add_0_r in Hs. rewrite Z.shiftl_mul_pow2 in * by done. lia.
Qed.
Lemma shift_in a w : 0 ≤ a < 2 ^ 18 → 0 ≤ w < 64 → Z.lor (u32 (Z.shiftl a 6)) w = a * 64 + w.
Proof.
  intros Ha Hw. rewrite u32_small by (rewrite Z.shiftl_mul_pow2 by done; lia). by apply lor_low.
Qed.
Lemma quantum_bytes x y z w p : 0 ≤ x < 64 → 0 ≤ y < 64 → 0 ≤ z < 64 → 0 ≤ w < 64 →
  quantum (((x * 64 + y) * 64 + z) * 64 + w) p = take (if p =? 0 then 3 else if p =? 1 then 2 else 1) (bytes3 x y z w).
Proof.
  intros. unfold quantum. f_equal. unfold bytes3. rewrite !Z.shiftr_div_pow2 by done.
  change 255 with (Z.ones 8). rewrite !Z.land_ones by done. change (2 ^ 16) with 65536. change (2 ^ 8) with 256.
  do 2 f_equal; [|f_equal|do 2 f_equal]; Z.to_euclidean_division_equations; lia.
Qed.

(** ** The loop *)

Definition out_wf (o : b64_out) : Prop :=
  0 ≤ decoded_len o < 2 ^ 32 ∧ match decoded o with Some buf => decoded_len o ≤ zlen buf | None => True end.
Definition written (o : b64_out) (idx : Z) (d : list Z) : b64_out :=
  match decoded o with Some buf => set_decoded (splice buf idx d) o | None => o end.
Definition fits (o : b64_out) (idx : Z) (d : list Z) : bool :=
  match decoded o with Some _ => idx + zlen d <=? decoded_len o | None => true end.

Lemma written_len o idx d : decoded_len (written o idx d) = decoded_len o.
Proof. unfold written. by destruct (decoded o). Qed.
Lemma written_fits o idx d i e : fits (written o idx d) i e = fits o i e.
Proof. unfold fits, written. by destruct (decoded o) eqn:E; cbn; rewrite ?E. Qed.
Lemma written_wf o idx d : out_wf o → 0 ≤ idx → fits o idx d = true → out_wf (written o idx d).
Proof.
  intros [Hl Hb] Hi Hf. split; [by rewrite written_len|]. unfold written, fits in *. destruct (decoded o) as [buf|] eqn:E; cbn; rewrite ?E; [|done].
  apply Z.leb_le in Hf. rewrite zlen_splice; lia.
Qed.
Lemma splice_splice {A} (l a b : list A) i : 0 ≤ i → i + zlen a + zlen b ≤ zlen l → splice (splice l i a) (i + zlen a) b = splice l i (a ++ b).
Proof.
  intros Hi Hl. pose proof (zlen_nonneg a). pose proof (zlen_nonneg b). unfold splice. unfold zlen in *.
  set (T := take (Z.to_nat i) l). set (r := drop (Z.to_nat i + length a) l).
  assert (length T = Z.to_nat i) as Ht by (subst T; rewrite length_take; lia).
  assert (take (Z.to_nat (i + Z.of_nat (length a))) (T ++ a ++ r) = T ++ a) as ->.
  { rewrite app_assoc. apply take_app_length'. rewrite length_app. lia. }
  assert (drop (Z.to_nat (i + Z.of_nat (length a)) + length b) (T ++ a ++ r) = drop (length b) r) as ->.
  { rewrite app_assoc, drop_app_ge by (rewrite length_app; lia). f_equal. rewrite length_app. lia. }
  subst r. rewrite drop_drop, !length_app, <- !app_assoc. do 3 f_equal. f_equal. lia.
Qed.
Lemma written_written o i a b : out_wf o → 0 ≤ i → fits o i (a ++ b) = true → written (written o i a) (i + zlen a) b = written o i (a ++ b).
Proof.
  intros [Hl Hb] Hi Hf. unfold written, fits in *. destruct (decoded o) as [buf|] eqn:E; cbn; rewrite ?E; [|done].
  apply Z.leb_le in Hf. rewrite zlen_app in Hf. unfold set_decoded. cbn. by rewrite splice_splice by lia.
Qed.
Lemma written_nil o i : out_wf o → 0 ≤ i → written o i [] = o.
Proof.
  intros _ Hi. unfold written. destruct o as [[buf|] n]; cbn; [|done]. unfold set_decoded, splice. cbn. by rewrite Nat.add_0_r, take_drop.
Qed.

Lemma put_decoded_ok o idx d : out_wf o → 0 ≤ idx → idx + zlen d < 2 ^ 32 →
  put_decoded idx d o = if fits o idx d then Ret (TT_SUCCESS tt, written o idx d) else Ret (TT_ERROR TT_FAIL, o).
Proof.
  intros [Hl Hb] Hi Hd. pose proof (zlen_nonneg d). unfold put_decoded, fits, written. destruct (decoded o) as [buf|]; [|done].
  rewrite u32_small by lia. destruct (Z.leb_spec (idx + zlen d) (decoded_len o)) as [Hle|Hgt].
  - rewrite (proj2 (Z.ltb_ge _ _)) by lia. unfold mem_write, in_block.
    rewrite (proj2 (Z.leb_le 0 idx)), (proj2 (Z.leb_le 0 (zlen d))), (proj2 (Z.leb_le (idx + zlen d) (zlen buf))) by lia. done.
  - by rewrite (proj2 (Z.ltb_lt _ _)) by lia.
Qed.

(** One character: the first three of a group, and the last. *)
Section steps.
Context (data : list Z) (n val pad idx : Z) (Hn : 0 ≤ n < 3) (Hval : 0 ≤ val < 2 ^ 18) (Hpad : 0 ≤ pad < 3).

Lemma step_digit c v o : b64_val c = Some v →
  decode_loop (c :: data) n val pad idx o = decode_loop data (n + 1) (val * 64 + v) pad idx o.
Proof.
  intros Hv. destruct (b64_val_plain c v Hv) as [Hp Hc]. pose proof (b64_val_range c v Hv). cbn [decode_loop].
  rewrite Hc. unfold __B64_C_PAD. rewrite (proj2 (Z.eqb_neq c 61)) by done. cbn [negb].
  assert (is_u8 c) as Hc8 by (unfold b64_val in Hv; unfold is_u8; repeat case_match; simplify_eq; lia).
  rewrite c2u_val, Hv by done. change (default 255 (Some v)) with v. unfold __B64_U_INVALID. rewrite (proj2 (Z.eqb_neq v 255)) by lia.
  cbn [negb assert_always]. m_simpl. rewrite shift_in by lia. rewrite u32_small by lia. by rewrite (proj2 (Z.eqb_neq (n + 1) 4)) by lia.
Qed.
Lemma step_pad o : decode_loop (61 :: data) n val pad idx o = decode_loop data (n + 1) (val * 64 + 0) (pad + 1) idx o.
Proof.
  cbn [decode_loop]. change (crlf 61) with false. change (negb (61 =? __B64_C_PAD)) with false. cbv iota.
  m_simpl. rewrite shift_in by lia. rewrite !u32_small by lia. by rewrite (proj2 (Z.eqb_neq (n + 1) 4)) by lia.
Qed.
Lemma last_digit c v o : b64_val c = Some v →
  decode_loop (c :: data) 3 val pad idx o =
    (put_decoded idx (quantum (val * 64 + v) pad);; decode_loop data 0 0 pad (u32 (idx + zlen (quantum (val * 64 + v) pad)))) o.
Proof.
  intros Hv. destruct (b64_val_plain c v Hv) as [Hp Hc]. pose proof (b64_val_range c v Hv). cbn [decode_loop].
  rewrite Hc. unfold __B64_C_PAD. rewrite (proj2 (Z.eqb_neq c 61)) by done. cbn [negb].
  assert (is_u8 c) as Hc8 by (unfold b64_val in Hv; unfold is_u8; repeat case_match; simplify_eq; lia).
  rewrite c2u_val, Hv by done. change (default 255 (Some v)) with v. unfold __B64_U_INVALID. rewrite (proj2 (Z.eqb_neq v 255)) by lia.
  cbn [negb assert_always]. m_simpl. rewrite shift_in by lia. change (u32 (3 + 1) =? 4) with true. cbv iota.
  rewrite (proj2 (Z.leb_le pad 2)) by lia. done.
Qed.
Lemma last_pad o : pad < 2 → decode_loop (61 :: data) 3 val pad idx o =
    (put_decoded idx (quantum (val * 64 + 0) (pad + 1));; decode_loop data 0 0 (pad + 1) (u32 (idx + zlen (quantum (val * 64 + 0) (pad + 1))))) o.
Proof.
  intros Hp. cbn [decode_loop]. change (crlf 61) with false. change (negb (61 =? __B64_C_PAD)) with false. cbv iota.
  m_simpl. rewrite shift_in by lia. change (u32 (3 + 1) =? 4) with true. cbv iota. rewrite (u32_small (pad + 1)) by lia.
  rewrite (proj2 (Z.leb_le (pad + 1) 2)) by lia. done.
Qed.
End steps.

(** Line ends do not matter. *)
Lemma decode_strip data : ∀ n val pad idx o, decode_loop data n val pad idx o = decode_loop (strip data) n val pad idx o.
Proof.
  induction data as [|c data IH]; intros n val pad idx o; [done|]. unfold strip in *. cbn [List.filter decode_loop].
  destruct (crlf c) eqn:Ec; cbn [negb]; [by apply IH|]. cbn [decode_loop]. rewrite Ec.
  destruct (negb (c =? __B64_C_PAD)); [destruct (negb (__b64_c2u c =? _)); [|done]|];
    cbn [assert_always]; m_simpl; (destruct (_ =? 4); [|by apply IH]).
  - destruct (pad <=? 2); [|done]. m_simpl. destruct (put_decoded _ _ o) as [[[?|?] ?]| | |]; [apply IH|done..].
  - destruct (u32 (pad + 1) <=? 2); [|done]. m_simpl. destruct (put_decoded _ _ o) as [[[?|?] ?]| | |]; [apply IH|done..].
Qed.

(** Four characters at the start of a group, or fewer. *)
Lemma group_step a b c e x y z w s idx o :
  b64_val a = Some x → b64_val b = Some y → b64_val c = Some z → b64_val e = Some w →
  decode_loop (a :: b :: c :: e :: s) 0 0 0 idx o =
    (put_decoded idx (bytes3 x y z w);; decode_loop s 0 0 0 (u32 (idx + 3))) o.
Proof.
  intros Ha Hb Hc He. pose proof (b64_val_range _ _ Ha). pose proof (b64_val_range _ _ Hb). pose proof (b64_val_range _ _ Hc). pose proof (b64_val_range _ _ He).
  rewrite (step_digit _ 0 0 0 idx ltac:(lia) ltac:(lia) a x) by done. rewrite (step_digit _ (0 + 1) (0 * 64 + x) 0 idx ltac:(lia) ltac:(lia) b y) by done.
  rewrite (step_digit _ (0 + 1 + 1) ((0 * 64 + x) * 64 + y) 0 idx ltac:(lia) ltac:(lia) c z) by done. change (0 + 1 + 1 + 1) with 3.
  rewrite (last_digit _ (((0 * 64 + x) * 64 + y) * 64 + z) 0 idx ltac:(lia) ltac:(lia) e w) by done. rewrite quantum_bytes by lia. done.
Qed.
Lemma group_pad1 a b c x y z s idx o :
  b64_val a = Some x → b64_val b = Some y → b64_val c = Some z →
  decode_loop (a :: b :: c :: 61 :: s) 0 0 0 idx o =
    (put_decoded idx (take 2 (bytes3 x y z 0));; decode_loop s 0 0 1 (u32 (idx + 2))) o.
Proof.
  intros Ha Hb Hc. pose proof (b64_val_range _ _ Ha). pose proof (b64_val_range _ _ Hb). pose proof (b64_val_range _ _ Hc).
  rewrite (step_digit _ 0 0 0 idx ltac:(lia) ltac:(lia) a x) by done. rewrite (step_digit _ (0 + 1) (0 * 64 + x) 0 idx ltac:(lia) ltac:(lia) b y) by done.
  rewrite (step_digit _ (0 + 1 + 1) ((0 * 64 + x) * 64 + y) 0 idx ltac:(lia) ltac:(lia) c z) by done. change (0 + 1 + 1 + 1) with 3.
  rewrite (last_pad _ (((0 * 64 + x) * 64 + y) * 64 + z) 0 idx ltac:(lia) ltac:(lia)) by lia. rewrite quantum_bytes by lia. done.
Qed.
Lemma group_pad2 a b x y s idx o : b64_val a = Some x → b64_val b = Some y →
  decode_loop (a :: b :: 61 :: 61 :: s) 0 0 0 idx o =
    (put_decoded idx (take 1 (bytes3 x y 0 0));; decode_loop s 0 0 2 (u32 (idx + 1))) o.
Proof.
  intros Ha Hb. pose proof (b64_val_range _ _ Ha). pose proof (b64_val_range _ _ Hb).
  rewrite (step_digit _ 0 0 0 idx ltac:(lia) ltac:(lia) a x) by done. rewrite (step_digit _ (0 + 1) (0 * 64 + x) 0 idx ltac:(lia) ltac:(lia) b y) by done.
  rewrite (step_pad _ (0 + 1 + 1) ((0 * 64 + x) * 64 + y) 0 idx ltac:(lia) ltac:(lia) ltac:(lia)). change (0 + 1 + 1 + 1) with 3.
  rewrite (last_pad _ (((0 * 64 + x) * 64 + y) * 64 + 0) (0 + 1) idx ltac:(lia) ltac:(lia)) by lia. rewrite quantum_bytes by lia. done.
Qed.
(** What the loop makes of the characters [s] at the start of a group. *)
Definition outcome (s : list Z) (idx : Z) (o : b64_out) (e : exec (result (Z * Z) * b64_out)) : Prop :=
  match ref_groups s with
  | Some d =>
      if fits o idx d then e = Ret (TT_SUCCESS (0, idx + zlen d), written o idx d)
      else ∃ o', e = Ret (TT_ERROR TT_FAIL, o')
  | None => (∃ o', e = Ret (TT_ERROR TT_FAIL, o')) ∨ ∃ n i o', n ≠ 0 ∧ e = Ret (TT_SUCCESS (n, i), o')
  end.

(** [bind], unfolded once. *)
Lemma bind_unfold {S A B} (m : M S A) (k : A → M S B) s :
  (m ≫= k) s = exec_bind (m s) (λ '(r, s'), match r with TT_SUCCESS a => k a s' | TT_ERROR e => Ret (TT_ERROR e, s') end).
Proof. done. Qed.
Lemma fits_app o i a b : fits o i (a ++ b) = fits o i a && fits o (i + zlen a) b.
Proof.
  unfold fits. destruct (decoded o); [|done]. rewrite zlen_app, Z.add_assoc. pose proof (zlen_nonneg b). apply eq_true_iff_eq. rewrite andb_true_iff, !Z.leb_le. lia.
Qed.
Lemma outcome_done idx o : out_wf o → 0 ≤ idx → fits o idx [] = true → outcome [] idx o (Ret (TT_SUCCESS (0, idx), o)).
Proof. intros Ho Hi Hf. unfold outcome. cbn [ref_groups]. rewrite Hf, written_nil by done. change (zlen []) with 0. by rewrite Z.add_0_r. Qed.
Lemma outcome_short s idx o n i : ref_groups s = None → n ≠ 0 → outcome s idx o (Ret (TT_SUCCESS (n, i), o)).
Proof. intros Hr Hn. unfold outcome. rewrite Hr. right. eauto. Qed.
Lemma outcome_last s d idx o k : ref_groups s = Some d → out_wf o → 0 ≤ idx → idx + zlen d < 2 ^ 32 → k = idx + zlen d →
  outcome s idx o ((put_decoded idx d;; mret (0, k)) o).
Proof.
  intros Hr Ho Hi Hd ->. unfold outcome. rewrite Hr, bind_unfold, put_decoded_ok by done.
  destruct (fits o idx d); [done|by eexists].
Qed.

Definition digit (c : Z) : Prop := is_Some (b64_val c).

Lemma loop_outcome m : ∀ ds k idx o, (length ds ≤ m)%nat → Forall digit ds → (k ≤ 2)%nat → out_wf o → fits o idx [] = true →
  0 ≤ idx → idx + zlen ds + 3 < 2 ^ 32 → outcome (ds ++ replicate k 61) idx o (decode_loop (ds ++ replicate k 61) 0 0 0 idx o).
Proof.
  induction m as [|m IH]; intros ds k idx o Hm Hds Hk Ho Hf Hi Hb.
  all: destruct ds as [|a ds]; [try clear IH|try (simpl in Hm; lia)].
  1,2: destruct k as [|[|[|k]]]; [by apply outcome_done|..|lia]; cbn [app replicate]; rewrite !step_pad by lia; by apply outcome_short.
  apply Forall_cons_1 in Hds as [[x Ha] Hds]. destruct ds as [|b ds].
  { clear IH. cbn [app]. rewrite (step_digit _ 0 0 0 idx ltac:(lia) ltac:(lia) a x) by done. pose proof (b64_val_range _ _ Ha).
    destruct k as [|[|[|k]]]; [..|lia]; cbn [replicate]; rewrite ?step_pad by lia; apply outcome_short; cbn [ref_groups]; by rewrite ?Ha. }
  apply Forall_cons_1 in Hds as [[y Hb'] Hds]. pose proof (b64_val_range _ _ Ha). pose proof (b64_val_range _ _ Hb').
  assert (b64_val 61 = None) as Hpad by done. destruct ds as [|c ds].
  { clear IH. rewrite !zlen_cons, zlen_nil in Hb. cbn [app]. destruct k as [|[|[|k]]]; [..|lia]; cbn [replicate].
    - rewrite (step_digit _ 0 0 0 idx ltac:(lia) ltac:(lia) a x), (step_digit _ (0 + 1) (0 * 64 + x) 0 idx ltac:(lia) ltac:(lia) b y) by done. by apply outcome_short.
    - rewrite (step_digit _ 0 0 0 idx ltac:(lia) ltac:(lia) a x), (step_digit _ (0 + 1) (0 * 64 + x) 0 idx ltac:(lia) ltac:(lia) b y) by done.
      rewrite step_pad by lia. by apply outcome_short.
    - rewrite (group_pad2 a b x y) by done. rewrite u32_small by lia.
      apply outcome_last; [cbn [ref_groups]; by rewrite Ha, Hb'|done|done|change (zlen (take 1 (bytes3 x y 0 0))) with 1; lia|done]. }
  apply Forall_cons_1 in Hds as [[z Hc] Hds]. pose proof (b64_val_range _ _ Hc). rewrite !zlen_cons in Hb. destruct ds as [|e ds].
  { clear IH. rewrite zlen_nil in Hb. cbn [app]. destruct k as [|[|[|k]]]; [..|lia]; cbn [replicate].
    - rewrite (step_digit _ 0 0 0 idx ltac:(lia) ltac:(lia) a x), (step_digit _ (0 + 1) (0 * 64 + x) 0 idx ltac:(lia) ltac:(lia) b y) by done.
      rewrite (step_digit _ (0 + 1 + 1) ((0 * 64 + x) * 64 + y) 0 idx ltac:(lia) ltac:(lia) c z) by done. by apply outcome_short.
    - rewrite (group_pad1 a b c x y z) by done. rewrite u32_small by lia.
      apply outcome_last; [cbn [ref_groups]; by rewrite Ha, Hb', Hc|done|done|change (zlen (take 2 (bytes3 x y z 0))) with 2; lia|done].
    - rewrite (group_pad1 a b c x y z) by done. assert (ref_groups [a; b; c; 61; 61] = None) as Hr by (cbn [ref_groups]; by rewrite Ha, Hb', Hc).
      unfold outcome. rewrite Hr, bind_unfold, put_decoded_ok by (done || (change (zlen (take 2 (bytes3 x y z 0))) with 2; lia)).
      destruct (fits o idx (take 2 (bytes3 x y z 0))); [|left; by eexists]. right. cbn [exec_bind]. rewrite step_pad by lia. eexists (0 + 1), _, _. by split; [lia|]. }
  apply Forall_cons_1 in Hds as [[w He] Hds]. rewrite zlen_cons in Hb. pose proof (zlen_nonneg ds). cbn [app].
  rewrite (group_step a b c e x y z w) by done. set (g := bytes3 x y z w). assert (zlen g = 3) as Hg by done.
  unfold outcome. cbn [ref_groups]. rewrite Ha, Hb', Hc, He. fold g. rewrite bind_unfold, put_decoded_ok by (done || lia).
  rewrite u32_small by lia.
  destruct (fits o idx g) eqn:Eg; cbn [exec_bind].
  2: { destruct (ref_groups _) as [d|]; cbn [fmap option_fmap option_map]; [|left; by eexists]. rewrite fits_app, Eg. by eexists. }
  pose proof (written_wf o idx g Ho Hi Eg) as Hw.
  assert (outcome (ds ++ replicate k 61) (idx + 3) (written o idx g) (decode_loop (ds ++ replicate k 61) 0 0 0 (idx + 3) (written o idx g))) as Hout.
  { apply IH; try done; try lia; [simpl in Hm; lia|]. rewrite written_fits. rewrite <- Hg. pose proof (fits_app o idx g []) as Ha'.
    rewrite app_nil_r, Eg in Ha'. by rewrite andb_comm, andb_true_r in Ha'. }
  unfold outcome in Hout. destruct (ref_groups (ds ++ replicate k 61)) as [d|]; cbn [fmap option_fmap option_map]; [|exact Hout].
  rewrite written_fits in Hout. rewrite fits_app, Eg, Hg. cbn [andb]. destruct (fits o (idx + 3) d) eqn:Ed; [|exact Hout]. rewrite Hout. rewrite zlen_app, Hg, Z.add_assoc.
  rewrite <- Hg at 3. rewrite written_written; [done|done|done|]. by rewrite fits_app, Eg, Hg.
Qed.

(** ** Whole texts *)

Lemma strip_crlf t : forallb crlf t = true → strip t = [].
Proof. induction t as [|c t IH]; [done|]. cbn [forallb strip List.filter]. intros [-> Ht]%andb_true_iff. by apply IH. Qed.
Lemma strip_shape data : body_ok data = true → pads_together data = true →
  ∃ ds k, strip data = ds ++ replicate k 61 ∧ Forall digit ds ∧ (k ≤ 2)%nat.
Proof.
  induction data as [|c data IH]; [intros _ _; exists [], 0%nat; split; [done|split; [constructor|lia]]|]. cbn [body_ok pads_together].
  destruct (Z.eqb_spec c 61) as [->|Hc].
  - intros _ Hp. destruct data as [|x t]; [exists [], 1%nat; split; [done|split; [constructor|lia]]|].
    apply andb_true_iff in Hp as [Hx Ht%strip_crlf]. unfold strip in *. cbn [List.filter]. rewrite Ht. change (negb (crlf 61)) with true. cbv iota.
    destruct (Z.eqb_spec x 61) as [->|Hx61].
    + exists [], 2%nat. split; [done|split; [constructor|lia]].
    + cbn [orb] in Hx. rewrite Hx. exists [], 1%nat. split; [done|split; [constructor|lia]].
  - intros [Hv Hb]%andb_true_iff Hp. destruct (IH Hb Hp) as (ds & k & Hs & Hds & Hk). unfold strip in *. cbn [List.filter].
    destruct (crlf c) eqn:Ec; cbn [negb orb] in *; [by exists ds, k|].
    apply bool_decide_eq_true in Hv. exists (c :: ds), k. rewrite Hs. split; [done|]. split; [by constructor|done].
Qed.

(** What decoding a text does to the OUT parameters. *)
Definition decodes (text : list Z) (o : b64_out) (e : exec (result unit * b64_out)) : Prop :=
  match ref_decode text with
  | Some d =>
      if fits o 0 d then e = Ret (TT_SUCCESS tt, set_decoded_len (zlen d) (written o 0 d))
      else ∃ o', e = Ret (TT_ERROR TT_FAIL, o')
  | None => ∃ o', e = Ret (TT_ERROR TT_FAIL, o')
  end.

Lemma zlen_filter (f : Z → bool) l : zlen (List.filter f l) ≤ zlen l.
Proof. pose proof (filter_length_le f l). unfold zlen. lia. Qed.

Lemma decode_text text o : Forall is_u8 text → zlen text + 3 < 2 ^ 32 → out_wf o →
  decodes text o ((do_r TT_FAIL (call (Ret (__b64_validate text)));; __b64_decode text) o).
Proof.
  intros Ht Hl Ho. unfold decodes. rewrite validate_spec by done. unfold ref_decode. destruct (body_ok text) eqn:Eb; cbn [andb].
  2: { assert (ref_groups (strip text) = None) as ->.
       { destruct (ref_groups (strip text)) as [d|] eqn:Er; [|done]. apply ref_groups_body in Er. rewrite <- body_strip in Er. congruence. }
       destruct (pads_together text); by eexists. }
  destruct (pads_together text) eqn:Ep; [|by eexists]. destruct (strip_shape text Eb Ep) as (ds & k & Hs & Hds & Hk).
  assert (fits o 0 [] = true) as Hf.
  { unfold fits. destruct (decoded o); [|done]. apply Z.leb_le. change (zlen []) with 0. apply Ho. }
  assert (zlen ds ≤ zlen text) as Hz.
  { pose proof (zlen_filter (λ c, negb (crlf c)) text) as Hfl. fold (strip text) in Hfl. rewrite Hs, zlen_app in Hfl. pose proof (zlen_nonneg (replicate k 61)). lia. }
  pose proof (loop_outcome (length ds) ds k 0 o ltac:(lia) Hds Hk Ho Hf ltac:(lia) ltac:(lia)) as Hout. rewrite <- Hs, <- decode_strip in Hout.
  erewrite (bind_step _ _ o tt o) by done. unfold __b64_decode, outcome in *. rewrite bind_unfold.
  destruct (ref_groups (strip text)) as [d|].
  - destruct (fits o 0 d); [by rewrite Hout|]. destruct Hout as [o' ->]. by eexists.
  - destruct Hout as [[o' ->]|(n & i & o' & Hn & ->)]; [by eexists|]. cbn [exec_bind]. rewrite (proj2 (Z.eqb_neq n 0)) by done. by eexists.
Qed.

(** Texts between boundaries: [pre], the start, the text, the end and [post] up to
    the NUL, with the first occurrences there. *)
Definition located (data after : list Z) (attr : option tt_base64_decode_attr_t) (text : list Z) : Prop :=
  match attr with
  | None => text = data
  | Some a =>
      match start_boundary a, end_boundary a with
      | Some sb, Some eb =>
          ∃ pre post more, data ++ after = pre ++ sb ++ text ++ eb ++ post ++ 0 :: more ∧
            Forall (λ c, c ≠ 0) (pre ++ sb ++ text ++ eb ++ post) ∧
            strstr (pre ++ sb ++ text ++ eb ++ post) sb = Some (zlen pre) ∧ strstr (text ++ eb ++ post) eb = Some (zlen text)
      | _, _ => text = data
      end
  end.

Lemma decode_located data after attr text o :
  located data after attr text → Forall is_u8 text → zlen text + 3 < 2 ^ 32 → out_wf o → data ≠ [] →
  (decoded o ≠ None → decoded_len o ≠ 0) → decodes text o (tt_base64_decode data after attr o).
Proof.
  intros Hloc Ht Hl Ho Hne Hnz. unfold tt_base64_decode. erewrite (bind_step (gets id)) by done. change (id o) with o.
  assert (zlen data ≠ 0) as Hz by (destruct data; [done|rewrite zlen_cons; pose proof (zlen_nonneg data); lia]).
  rewrite (proj2 (Z.eqb_neq (zlen data) 0)) by done.
  set (a := default tt_base64_decode_attr_default attr).
  assert ((match start_boundary a, end_boundary a with
           | Some s, Some e => do_r TT_FAIL (call (__b64_rm_boundary data after s e))
           | _, _ => mret data
           end) o = Ret (TT_SUCCESS text, o)) as E.
  { subst a. destruct attr as [[sb eb]|]; cbn [located start_boundary end_boundary default from_option id tt_base64_decode_attr_default] in *; [|by subst].
    destruct sb as [sb|], eb as [eb|]; try by subst. destruct Hloc as (pre & post & more & Hd & H0 & Hs & He).
    unfold do_r, call, __b64_rm_boundary. replace (data ++ after) with ((pre ++ sb ++ text ++ eb ++ post) ++ 0 :: more) by by rewrite Hd, <- !app_assoc.
    rewrite c_str_app by done. cbn [exec_bind]. rewrite Hs.
    assert (drop (Z.to_nat (zlen pre + zlen sb)) (pre ++ sb ++ text ++ eb ++ post) = text ++ eb ++ post) as ->.
    { rewrite app_assoc. apply drop_app_length'. rewrite length_app. unfold zlen. lia. }
    rewrite He. cbn [exec_bind]. do 3 f_equal. apply take_app_length'. unfold zlen. lia. }
  assert (decodes text o ((text ← (match start_boundary a, end_boundary a with
           | Some s, Some e => do_r TT_FAIL (call (__b64_rm_boundary data after s e))
           | _, _ => mret data
           end); if zlen text =? 0 then modify (set_decoded_len 0) else do_r TT_FAIL (call (Ret (__b64_validate text)));; __b64_decode text) o)) as Hd.
  { erewrite bind_step by exact E. destruct (Z.eqb_spec (zlen text) 0) as [->%zlen_nil_inv|Hn]; [|by apply decode_text].
    unfold decodes. cbn. rewrite written_nil by (done || lia). unfold fits. destruct (decoded o); [|done]. rewrite (proj2 (Z.leb_le _ _)); [done|]. apply Ho. }
  destruct (decoded o) as [buf|]; [|exact Hd]. rewrite (proj2 (Z.eqb_neq (decoded_len o) 0)) by by apply Hnz. exact Hd.
Qed.

(** C29: decoding finds the text between its boundaries and delivers exactly what
    RFC 2045 says about it, at the start of the array and with its length, if the
    array is large enough; without an array it delivers the length; anything else
    fails, and no byte is written outside the array.  Only an empty array is taken
    for a success with whatever text. *)
Theorem b64_decode_spec data after attr text o :
  located data after attr text → Forall is_u8 text → zlen text + 3 < 2 ^ 32 → out_wf o → data ≠ [] →
  match decoded o with
  | Some _ => if decoded_len o =? 0 then tt_base64_decode data after attr o = Ret (TT_SUCCESS tt, o)
              else decodes text o (tt_base64_decode data after attr o)
  | None => decodes text o (tt_base64_decode data after attr o)
  end.
Proof.
  intros Hloc Ht Hl Ho Hne.
  destruct (decoded o) as [buf|] eqn:Ed; [destruct (Z.eqb_spec (decoded_len o) 0) as [Ez|]|].
  - unfold tt_base64_decode. erewrite (bind_step (gets id)) by done. change (id o) with o.
    rewrite Ed, Ez, (proj2 (Z.eqb_neq (zlen data) 0)); [done|]. intros E. by apply zlen_nil_inv in E.
  - by apply decode_located.
  - by apply decode_located.
Qed.

Lemma bytes3_back a b c : is_u8 a → is_u8 b → is_u8 c →
  bytes3 (a / 4) (a mod 4 * 16 + b / 16) (b mod 16 * 4 + c / 64) (c mod 64) = [a; b; c].
Proof.
  unfold is_u8. change (2 ^ 8) with 256. intros. unfold bytes3. f_equal; [|f_equal; [|f_equal]]; Z.to_euclidean_division_equations; lia.
Qed.
Lemma sextets a b c : is_u8 a → is_u8 b → is_u8 c →
  b64_val (b64_char (a / 4)) = Some (a / 4) ∧ b64_val (b64_char (a mod 4 * 16 + b / 16)) = Some (a mod 4 * 16 + b / 16) ∧
  b64_val (b64_char (b mod 16 * 4 + c / 64)) = Some (b mod 16 * 4 + c / 64) ∧ b64_val (b64_char (c mod 64)) = Some (c mod 64).
Proof.
  unfold is_u8. change (2 ^ 8) with 256. intros. split_and!; apply b64_val_char; Z.to_euclidean_division_equations; lia.
Qed.

Lemma ref_encode d : Forall is_u8 d → ref_groups (b64_encode d) = Some d.
Proof.
  assert (∀ n d, (length d ≤ n)%nat → Forall is_u8 d → ref_groups (b64_encode d) = Some d) as Hn; [|by apply (Hn (length d))]. clear.
  induction n as [|n IH]; intros d Hl Hd; [destruct d; [done|simpl in Hl; lia]|].
  destruct d as [|a [|b [|c d]]]; [done|..].
  - apply Forall_cons_1 in Hd as [Ha _]. destruct (sextets a 0 0 Ha ltac:(done) ltac:(done)) as (E1 & E2 & _).
    pose proof (bytes3_back a 0 0 Ha ltac:(done) ltac:(done)) as Hb. change (0 / 16) with 0 in *. rewrite Z.add_0_r in *. change (0 mod 16 * 4 + 0 / 64) with 0 in Hb. change (0 mod 64) with 0 in Hb.
    cbn [b64_encode ref_groups]. rewrite E1, E2. change (b64_val 61) with (@None Z). rewrite Hb. done.
  - apply Forall_cons_1 in Hd as [Ha Hd]. apply Forall_cons_1 in Hd as [Hb _]. destruct (sextets a b 0 Ha Hb ltac:(done)) as (E1 & E2 & E3 & _).
    pose proof (bytes3_back a b 0 Ha Hb ltac:(done)) as Hc. change (0 / 64) with 0 in *. rewrite Z.add_0_r in *. change (0 mod 64) with 0 in Hc.
    cbn [b64_encode ref_groups]. rewrite E1, E2, E3. change (b64_val 61) with (@None Z). by rewrite Hc.
  - apply Forall_cons_1 in Hd as [Ha Hd]. apply Forall_cons_1 in Hd as [Hb Hd]. apply Forall_cons_1 in Hd as [Hc Hd].
    destruct (sextets a b c Ha Hb Hc) as (E1 & E2 & E3 & E4). cbn [b64_encode app ref_groups]. rewrite E1, E2, E3, E4.
    rewrite (IH d) by (done || simpl in Hl; lia). cbn [fmap option_fmap option_map]. by rewrite bytes3_back.
Qed.

Lemma zlen_encode d : zlen d ≤ zlen (b64_encode d).
Proof.
  assert (∀ n d, (length d ≤ n)%nat → zlen d ≤ zlen (b64_encode d)) as Hn; [|by apply (Hn (length d))]. clear.
  induction n as [|n IH]; intros d Hl; [destruct d; [done|simpl in Hl; lia]|].
  destruct d as [|a [|b [|c d]]]; [done..|]. cbn [b64_encode]. rewrite zlen_app, !zlen_cons. change (zlen []) with 0. specialize (IH d ltac:(simpl in Hl; lia)). lia.
Qed.

(** C30: a text that is the encoding of [d], with line ends anywhere but between the
    padding characters, is decoded to [d]: the call without an array gives its
    length, and the allocating call returns it whenever there is memory, and
    nothing for an empty [d]. *)
Theorem b64_roundtrip `{Allocator} d data after attr text :
  Forall is_u8 d → located data after attr text → Forall is_u8 text → zlen text + 3 < 2 ^ 32 → data ≠ [] →
  strip text = b64_encode d → pads_together text = true →
  tt_base64_decode data after attr (mk_b64 None 0) = Ret (TT_SUCCESS tt, mk_b64 None (zlen d)) ∧
  tt_base64_decode_alloc data after attr =
    if zlen d =? 0 then Ret (TT_SUCCESS (None, 0))
    else match malloc (zlen d) with
         | Some _ => Ret (TT_SUCCESS (Some d, zlen d))
         | None => Ret (TT_ERROR TT_FAIL)
         end.
Proof.
  intros Hd Hloc Ht Hl Hne Hs Hp. pose proof (zlen_nonneg d) as Hz.
  assert (ref_decode text = Some d) as Hr by (unfold ref_decode; rewrite Hp, Hs; by apply ref_encode).
  assert (zlen d ≤ zlen text) as Hdl.
  { pose proof (zlen_encode d). pose proof (zlen_filter (λ c, negb (crlf c)) text) as Hfl. fold (strip text) in Hfl. rewrite Hs in Hfl. lia. }
  assert (tt_base64_decode data after attr (mk_b64 None 0) = Ret (TT_SUCCESS tt, mk_b64 None (zlen d))) as E1.
  { pose proof (decode_located data after attr text (mk_b64 None 0) Hloc Ht Hl ltac:(by split) Hne ltac:(done)) as Hspec.
    unfold decodes in Hspec. rewrite Hr in Hspec. exact Hspec. }
  split; [exact E1|]. unfold tt_base64_decode_alloc. rewrite E1. cbn [exec_bind decoded_len]. destruct (Z.eqb_spec (zlen d) 0); [done|].
  destruct (malloc (zlen d)) as [blk|] eqn:Em; [|done]. apply malloc_zlen in Em. rewrite Z.max_r in Em by lia.
  pose proof (decode_located data after attr text (mk_b64 (Some blk) (zlen d)) Hloc Ht Hl) as Hspec.
  unfold decodes in Hspec. rewrite Hr in Hspec. unfold fits in Hspec. cbn [decoded decoded_len] in Hspec.
  rewrite Z.add_0_l, Z.leb_refl in Hspec. rewrite Hspec; [|split; cbn; lia|done|done]. cbn [exec_bind]. unfold written, set_decoded, set_decoded_len. cbn [decoded decoded_len].
  do 3 f_equal. unfold splice. cbn. rewrite drop_ge by (unfold zlen in *; lia). by rewrite app_nil_r.
Qed.

Lemma b64_decode_spec_witness :
  tt_base64_decode [45; 81; 85; 73; 61; 45] [0] (Some (mk_b64_attr (Some [45]) (Some [45]))) (mk_b64 (Some [7; 7; 7]) 3)
    = Ret (TT_SUCCESS tt, mk_b64 (Some [65; 66; 7]) 2).
Proof.
  pose proof (b64_decode_spec [45; 81; 85; 73; 61; 45] [0] (Some (mk_b64_attr (Some [45]) (Some [45]))) [81; 85; 73; 61] (mk_b64 (Some [7; 7; 7]) 3)) as Hs.
  apply Hs.
  - exists [], [], []. split; [done|]. split; [repeat (apply Forall_cons_2 || apply Forall_nil_2); lia|]. done.
  - bytes_tac.
  - done.
  - by split.
  - done.
Defined.

Lemma b64_roundtrip_witness :
  @tt_base64_decode_alloc zero_alloc [81; 13; 10; 85; 73; 61; 10] [] None = Ret (TT_SUCCESS (Some [65; 66], 2)).
Proof.
  destruct (@b64_roundtrip zero_alloc [65; 66] [81; 13; 10; 85; 73; 61; 10] [] None [81; 13; 10; 85; 73; 61; 10]) as [_ E]; [..|exact E].
  - bytes_tac.
  - done.
  - bytes_tac.
  - done.
  - done.
  - done.
  - done.
Defined.
