(* ===== verification/CfgTree.v ===== *)
(** Configuration objects and directories (init/tt_config_object_def.h,
    tt_config_object.h and .c, tt_config_directory.h and .c, and what
    tt_config_string.c does when an object is destroyed): the code.  An object, its
    list node and the list of its children are parts of one block and share its
    address, so TT_CONTAINER, TT_CFGOBJ_CAST and TT_CFGOBJ_OF are the identity. *)

From S2P Require Import Prelude MemSpring Buffer BufferFormat SshDef Str LinkedList.
From stdpp Require Import gmap.

#[local] Open Scope Z_scope.

(** ** Data *)

Notation key := positive (only parsing).

Inductive tt_cfgobj_type_t : Type :=
  | TT_CFGOBJ_U32 | TT_CFGOBJ_S32 | TT_CFGOBJ_DIR | TT_CFGOBJ_STRING | TT_CFGOBJ_BOOL | TT_CFGOBJ_FLOAT | TT_CFGOBJ_EXE
  | TT_CFGOBJ_TYPE_NUM.
#[global] Instance tt_cfgobj_type_eq_dec : EqDecision tt_cfgobj_type_t.
Proof. solve_decision. Defined.
Definition TT_CFGOBJ_TYPE_VALID (t : tt_cfgobj_type_t) : bool := bool_decide (t ≠ TT_CFGOBJ_TYPE_NUM).
Definition is_dir (t : tt_cfgobj_type_t) : bool := bool_decide (t = TT_CFGOBJ_DIR).

(** The functions that the pointers of an interface can hold. *)
Inductive cfg_destroy_fn : Type := __cdir_on_destroy_f | __cfgstr_on_destroy_f.
Inductive cfg_read_fn : Type := __cfgu32_read_f | __cfgs32_read_f | __cfgbool_read_f | __cfgstr_read_f.
Inductive cfg_write_fn : Type := __cfgu32_write_f | __cfgs32_write_f | __cfgbool_write_f | __cfgstr_write_f.
Record tt_cfgobj_itf_t : Type := mk_cfgitf {
  on_destroy : option cfg_destroy_fn;
  read : option cfg_read_fn;
  write : option cfg_write_fn;
}.

(** C strings are lists of characters, [None] the null pointer. *)
Record tt_cfgobj_attr_t : Type := mk_cfgattr {
  at_display : option (list Z);
  at_brief : option (list Z);
  at_detail : option (list Z);
  at_need_reboot : bool;
  at_can_read : bool;
  at_can_write : bool;
}.

(** What follows an object in its block: [tt_cfgdir_t] less its list, [tt_cfgu32_t],
    [tt_cfgs32_t], [tt_cfgbool_t], [tt_cfgstr_t] or [tt_cfgexe_t].  Functions of the
    user are addresses. *)
Inductive cfg_ext : Type :=
  | XDir (child_name_len : Z)
  | XU32 (on_set : option Z)
  | XS32 (on_set : option Z)
  | XBool (on_set : option Z)
  | XStr (on_set : option Z) (str : tt_string_t)
  | XExe (run : Z).

Record tt_cfgobj_t : Type := mk_cfgobj {
  name : list Z;
  display : option (list Z);
  brief : option (list Z);
  detail : option (list Z);
  itf : tt_cfgobj_itf_t;
  opaque : option key;
  type : tt_cfgobj_type_t;
  need_reboot : bool;
  can_read : bool;
  can_write : bool;
  ext : cfg_ext;
}.
Definition set_ext (x : cfg_ext) (o : tt_cfgobj_t) : tt_cfgobj_t :=
  mk_cfgobj (name o) (display o) (brief o) (detail o) (itf o) (opaque o) (type o) (need_reboot o) (can_read o) (can_write o) x.

(** A variable of the user that an object stands for. *)
Inductive cfg_var : Type := VU32 (v : Z) | VS32 (v : Z) | VBool (v : bool) | VStr (s : tt_string_t).

(** The nodes and lists of the objects, the objects, and the variables. *)
Record cfg : Type := mk_cfg { links : lmem; objs : gmap key tt_cfgobj_t; vars : gmap key cfg_var }.
Definition put_links (h : lmem) (m : cfg) : cfg := mk_cfg h (objs m) (vars m).
Definition put_objs (os : gmap key tt_cfgobj_t) (m : cfg) : cfg := mk_cfg (links m) os (vars m).
Definition put_vars (vs : gmap key cfg_var) (m : cfg) : cfg := mk_cfg (links m) (objs m) vs.
Definition in_links {A} (o : M lmem A) : M cfg A := zoom links put_links o.

Definition obj (x : key) : M cfg tt_cfgobj_t := λ m,
  match objs m !! x with Some o => Ret (TT_SUCCESS o, m) | None => Undef end.
Definition upd_obj (x : key) (f : tt_cfgobj_t → tt_cfgobj_t) : M cfg unit := λ m,
  match objs m !! x with Some o => Ret (TT_SUCCESS tt, put_objs (<[x := f o]> (objs m)) m) | None => Undef end.

(** A new block with its node and, for a directory, its list; giving it back. *)
Definition cfg_alloc (x : key) (o : tt_cfgobj_t) (m : cfg) : cfg :=
  mk_cfg (mk_lmem (<[x := lnode_blank]> (nodes (links m)))
            (match ext o with XDir _ => <[x := mk_list None None 0]> (lists (links m)) | _ => lists (links m) end))
    (<[x := o]> (objs m)) (vars m).
Definition cfg_free (x : key) : M cfg unit := λ m,
  match objs m !! x with
  | Some _ => Ret (TT_SUCCESS tt, mk_cfg (mk_lmem (delete x (nodes (links m))) (delete x (lists (links m)))) (delete x (objs m)) (vars m))
  | None => Undef
  end.

(** The interfaces of the types. *)
Definition __cfgdir_itf : tt_cfgobj_itf_t := mk_cfgitf (Some __cdir_on_destroy_f) None None.
Definition __cfgu32_itf : tt_cfgobj_itf_t := mk_cfgitf None (Some __cfgu32_read_f) (Some __cfgu32_write_f).
Definition __cfgs32_itf : tt_cfgobj_itf_t := mk_cfgitf None (Some __cfgs32_read_f) (Some __cfgs32_write_f).
Definition __cfgbool_itf : tt_cfgobj_itf_t := mk_cfgitf None (Some __cfgbool_read_f) (Some __cfgbool_write_f).
Definition __cfgstr_itf : tt_cfgobj_itf_t := mk_cfgitf (Some __cfgstr_on_destroy_f) (Some __cfgstr_read_f) (Some __cfgstr_write_f).
Definition __cfgexe_itf : tt_cfgobj_itf_t := mk_cfgitf None None None.

(** ** Objects *)

Definition isalnum (c : Z) : bool :=
  ((48 <=? c) && (c <=? 57)) || ((65 <=? c) && (c <=? 90)) || ((97 <=? c) && (c <=? 122)).
Definition __name_ok (n : list Z) : bool := forallb (λ c, isalnum c || (c =? 45)) n.

Definition tt_cfgobj_attr_default : tt_cfgobj_attr_t := mk_cfgattr (Some []) (Some []) (Some []) false true true.

Definition or_empty (s : option (list Z)) : list Z := default [] s.
Definition tt_cfgobj_name (o : tt_cfgobj_t) : list Z := name o.
Definition tt_cfgobj_display (o : tt_cfgobj_t) : list Z := or_empty (display o).
Definition tt_cfgobj_brief (o : tt_cfgobj_t) : list Z := or_empty (brief o).
Definition tt_cfgobj_detail (o : tt_cfgobj_t) : list Z := or_empty (detail o).

(** [addr] is what [tt_zalloc] returns, [x] the zeroed bytes behind the object. *)
Definition tt_cfgobj_create (addr : option key) (x : cfg_ext) (t : tt_cfgobj_type_t) (n : list Z) (i : tt_cfgobj_itf_t)
    (op : option key) (attr : option tt_cfgobj_attr_t) : M cfg (option key) :=
  assert_always (TT_CFGOBJ_TYPE_VALID t);;
  if negb (__name_ok n) then mret None
  else
    let a := default tt_cfgobj_attr_default attr in
    match addr with
    | None => mret None
    | Some co =>
        modify (cfg_alloc co (mk_cfgobj n (at_display a) (at_brief a) (at_detail a) i op t
                                (at_need_reboot a) (at_can_read a) (at_can_write a) x));;
        in_links (tt_lnode_init co);;
        mret (Some co)
    end.

(** ** Directories *)

(** The directory behind an object that is one. *)
Definition name_len_of (cdir : key) : M cfg Z :=
  o ← obj cdir; match ext o with XDir n => mret n | _ => undef end.

Definition tt_cfgdir_create (addr : option key) (n : list Z) (attr : option tt_cfgobj_attr_t) : M cfg (option key) :=
  r ← tt_cfgobj_create addr (XDir 0) TT_CFGOBJ_DIR n __cfgdir_itf None attr;
  match r with
  | None => mret None
  | Some co =>
      in_links (tt_list_init co);;
      upd_obj co (set_ext (XDir 0));;
      mret (Some co)
  end.

(** The loops over the children of a directory run once for each of them. *)
Definition fuel_of (m : cfg) : nat := S (size (nodes (links m))).
Definition next_of (x : key) : M cfg (option key) := v ← in_links (LinkedList.node x); mret (next v).

(** [nm] are the [name_len] characters at the argument [name]. *)
Fixpoint find_loop (fuel : nat) (nd : option key) (nm : list Z) : M cfg (option key) :=
  match fuel with
  | O => λ _, Diverge
  | S fuel =>
      match nd with
      | None => mret None
      | Some x =>
          child ← obj x;
          if (zlen (name child) =? zlen nm) && (strncmp (name child) nm =? 0) then mret (Some x)
          else nx ← next_of x; find_loop fuel nx nm
      end
  end.
Definition tt_cfgdir_find (cdir : key) (nm : list Z) : M cfg (option key) :=
  hd ← in_links (tt_list_head cdir);
  fuel ← gets fuel_of;
  find_loop fuel hd nm.

(** Among the directories, before the first object that is not one or comes later. *)
Fixpoint add_dir_loop (fuel : nat) (cdir child : key) (cn : list Z) (nd : option key) : M cfg unit :=
  match fuel with
  | O => λ _, Diverge
  | S fuel =>
      match nd with
      | None => in_links (tt_list_push_tail cdir child)
      | Some x =>
          cur ← obj x;
          if negb (is_dir (type cur)) then in_links (tt_list_insert_before x child)
          else if strcmp cn (name cur) <? 0 then in_links (tt_list_insert_before x child)
          else nx ← next_of x; add_dir_loop fuel cdir child cn nx
      end
  end.
Fixpoint skip_dirs (fuel : nat) (nd : option key) : M cfg (option key) :=
  match fuel with
  | O => λ _, Diverge
  | S fuel =>
      match nd with
      | None => mret None
      | Some x =>
          cur ← obj x;
          if negb (is_dir (type cur)) then mret (Some x) else nx ← next_of x; skip_dirs fuel nx
      end
  end.
Fixpoint add_leaf_loop (fuel : nat) (cdir child : key) (cn : list Z) (nd : option key) : M cfg unit :=
  match fuel with
  | O => λ _, Diverge
  | S fuel =>
      match nd with
      | None => in_links (tt_list_push_tail cdir child)
      | Some x =>
          cur ← obj x;
          assert_always (negb (is_dir (type cur)));;
          if strcmp cn (name cur) <? 0 then in_links (tt_list_insert_before x child)
          else nx ← next_of x; add_leaf_loop fuel cdir child cn nx
      end
  end.

Definition tt_cfgdir_add (cdir child : key) : M cfg unit :=
  c ← obj child;
  dup ← tt_cfgdir_find cdir (name c);
  if is_null dup then
    let n := u32 (zlen (name c)) in
    let n := if is_dir (type c) then u32 (n + 1) else n in
    len ← name_len_of cdir;
    (if len <? n then upd_obj cdir (set_ext (XDir n)) else mret tt);;
    hd ← in_links (tt_list_head cdir);
    fuel ← gets fuel_of;
    if is_dir (type c) then add_dir_loop fuel cdir child (name c) hd
    else
      nd ← skip_dirs fuel hd;
      add_leaf_loop fuel cdir child (name c) nd
  else fail TT_FAIL.

Definition tt_cfgdir_remove (cdir child : key) : M cfg unit :=
  v ← in_links (LinkedList.node child);
  assert_always (bool_decide (lst v = Some cdir));;
  in_links (tt_list_remove child);;
  mret tt.

(** ** Destroying *)

Section destroy.
Context `{Allocator}.

Definition __cfgstr_on_destroy (co : key) : M cfg unit :=
  o ← obj co;
  match ext o with
  | XStr f s =>
      λ m, exec_bind (tt_string_destroy s) (λ '(r, s'), upd_obj co (set_ext (XStr f s')) m)
  | _ => undef
  end.

(** [destroy] is [tt_cfgobj_destroy] for what lies below. *)
Fixpoint destroy_loop (destroy : key → M cfg unit) (n : nat) (cdir : key) : M cfg unit :=
  match n with
  | O => λ _, Diverge
  | S n =>
      nd ← in_links (tt_list_pop_tail cdir);
      match nd with
      | None => mret tt
      | Some x => destroy x;; destroy_loop destroy n cdir
      end
  end.
Definition __cdir_on_destroy (destroy : key → M cfg unit) (co : key) : M cfg unit :=
  v ← in_links (LinkedList.node co);
  assert_always (is_null (lst v));;
  n ← gets fuel_of;
  destroy_loop destroy n co.

(** The depth of the calls is bounded by [fuel]. *)
Fixpoint cfgobj_destroy (fuel : nat) (co : key) : M cfg unit :=
  match fuel with
  | O => λ _, Diverge
  | S fuel =>
      o ← obj co;
      match on_destroy (itf o) with
      | Some __cdir_on_destroy_f => __cdir_on_destroy (cfgobj_destroy fuel) co
      | Some __cfgstr_on_destroy_f => __cfgstr_on_destroy co
      | None => mret tt
      end;;
      cfg_free co
  end.
Definition tt_cfgobj_destroy (co : key) : M cfg unit := λ m, cfgobj_destroy (fuel_of m) co m.
End destroy.
