(* ===== verification/CfgForest.v ===== *)
(** The forest that the configuration objects of [CfgTree] form: an invariant of the
    memory, and what creating, adding, finding, removing and destroying do to it. *)

From S2P Require Import Prelude MemSpring Buffer BufferFormat SshDef BufCommon Str StrSpec LinkedList CfgTree.
From stdpp Require Import gmap sorting.

#[local] Open Scope Z_scope.

(** ** The order of names *)

(** [strcmp] on characters that are not NUL is the order of sequences. *)
Fixpoint lexcmp (a b : list Z) : Z :=
  match a, b with
  | [], [] => 0
  | [], _ => -1
  | _, [] => 1
  | x :: a, y :: b => if x <? y then -1 else if y <? x then 1 else lexcmp a b
  end.
Notation positives := (Forall (λ c, 0 < c)).

Lemma strcmp_lex a b : positives a → positives b → strcmp a b = lexcmp a b.
Proof.
  intros Ha. revert b. induction Ha as [|x a Hx Ha IH]; intros [|y b] Hb; unfold strcmp; cbn; unfold id.
  - done.
  - apply Forall_cons_1 in Hb as [Hy _]. by rewrite (proj2 (Z.ltb_lt 0 y)).
  - rewrite (proj2 (Z.ltb_ge x 0)) by lia. by rewrite (proj2 (Z.ltb_lt 0 x)).
  - apply Forall_cons_1 in Hb as [_ Hb]. rewrite <- (IH b Hb). done.
Qed.
Lemma lexcmp_anti a : ∀ b, lexcmp b a = - lexcmp a b.
Proof.
  induction a as [|x a IH]; intros [|y b]; cbn; [done..|]. rewrite IH.
  destruct (Z.ltb_spec x y), (Z.ltb_spec y x); done || lia.
Qed.
Lemma lexcmp_eq a : ∀ b, lexcmp a b = 0 ↔ a = b.
Proof.
  induction a as [|x a IH]; intros [|y b]; cbn; [done..|].
  destruct (Z.ltb_spec x y), (Z.ltb_spec y x); try (split; [done|intros [= -> ->]; lia]).
  rewrite IH. assert (x = y) as -> by lia. split; [by intros ->|congruence].
Qed.
Lemma lexcmp_trans a : ∀ b c, lexcmp a b < 0 → lexcmp b c < 0 → lexcmp a c < 0.
Proof.
  induction a as [|x a IH]; intros [|y b] [|z c]; cbn; try lia.
  destruct (Z.ltb_spec x y), (Z.ltb_spec y x), (Z.ltb_spec y z), (Z.ltb_spec z y), (Z.ltb_spec x z), (Z.ltb_spec z x); try lia.
  apply IH.
Qed.

(** What a listing shows of a child first: whether it is a directory, and its name.
    Directories come first, and each kind in the order of the names. *)
Notation entry := (bool * list Z)%type (only parsing).
Definition tag (o : tt_cfgobj_t) : entry := (is_dir (type o), name o).
Definition before (a b : entry) : Prop :=
  if a.1 then b.1 = true → lexcmp a.2 b.2 < 0 else b.1 = false ∧ lexcmp a.2 b.2 < 0.

#[global] Instance before_trans : Transitive before.
Proof.
  intros [[] a] [[] b] [[] c]; unfold before; cbn; intros; naive_solver eauto using lexcmp_trans.
Qed.
Lemma before_irrefl a : ¬ before a a.
Proof. unfold before. pose proof (proj2 (lexcmp_eq a.2 a.2) eq_refl). destruct a as [[] a]; cbn in *; [intros Hb; specialize (Hb eq_refl); lia|intros [_ ?]; lia]. Qed.

(** ** The invariant *)

Definition parent (m : cfg) (x : key) : option key :=
  match nodes (links m) !! x with Some v => lst v | None => None end.

(** [l] are the objects above [x], the nearest first. *)
Inductive up (m : cfg) : key → list key → Prop :=
  | up_root x : parent m x = None → up m x []
  | up_step x p l : parent m x = Some p → up m p l → up m x (p :: l).

(** [y] is [x] or below it. *)
Definition below (m : cfg) (x y : key) : Prop := ∃ l, up m y l ∧ x ∈ y :: l.

(** The columns of a name, with the slash of a directory. *)
Definition width (e : entry) : Z := zlen e.2 + (if e.1 then 1 else 0).

(** An object as the create functions make it. *)
Definition ext_ok (o : tt_cfgobj_t) : Prop :=
  match type o, ext o with
  | TT_CFGOBJ_DIR, XDir n => itf o = __cfgdir_itf ∧ is_u32 n
  | TT_CFGOBJ_U32, XU32 _ => itf o = __cfgu32_itf
  | TT_CFGOBJ_S32, XS32 _ => itf o = __cfgs32_itf
  | TT_CFGOBJ_BOOL, XBool _ => itf o = __cfgbool_itf
  | TT_CFGOBJ_STRING, XStr _ s => itf o = __cfgstr_itf ∧ ∃ t, str s t 0
  | TT_CFGOBJ_EXE, XExe _ => itf o = __cfgexe_itf
  | _, _ => False
  end.
Record obj_ok (o : tt_cfgobj_t) : Prop := {
  ok_name : __name_ok (name o) = true;
  ok_len : zlen (name o) + 1 < 2 ^ 32;
  ok_ext : ext_ok o;
}.

(** The children [xs] of a directory that reserves [n] columns for their names. *)
Record kids_ok (os : gmap key tt_cfgobj_t) (n : Z) (xs : list key) (es : list entry) : Prop := {
  ko_tags : Forall2 (λ x e, tag <$> os !! x = Some e) xs es;
  ko_sorted : StronglySorted before es;
  ko_names : NoDup es.*2;
  ko_width : Forall (λ e, width e ≤ n) es;
}.

Record cfg_inv (m : cfg) (kids : gmap key (list key)) : Prop := {
  ci_lrep : lrep (links m) kids;
  ci_node x : is_Some (nodes (links m) !! x) ↔ is_Some (objs m !! x);
  ci_obj x o : objs m !! x = Some o → obj_ok o;
  ci_dir x : is_Some (kids !! x) ↔ ∃ o, objs m !! x = Some o ∧ type o = TT_CFGOBJ_DIR;
  ci_kids d xs : kids !! d = Some xs → ∃ o n es, objs m !! d = Some o ∧ ext o = XDir n ∧ kids_ok (objs m) n xs es;
  ci_up x : is_Some (objs m !! x) → ∃ l, up m x l;
}.

Lemma is_dir_true t : is_dir t = true ↔ t = TT_CFGOBJ_DIR.
Proof. apply bool_decide_eq_true. Qed.
Lemma is_dir_false t : is_dir t = false ↔ t ≠ TT_CFGOBJ_DIR.
Proof. apply bool_decide_eq_false. Qed.

Lemma name_positives n : __name_ok n = true → positives n.
Proof.
  unfold __name_ok, isalnum. intros Hn. apply List.Forall_forall. intros c Hc. rewrite forallb_forall in Hn. specialize (Hn c Hc).
  repeat (apply orb_true_iff in Hn as [Hn|Hn] || apply andb_true_iff in Hn as [Hn ?]); lia.
Qed.

(** ** Ancestors *)

Lemma up_fun m x l l' : up m x l → up m x l' → l = l'.
Proof.
  intros Hl. revert l'. induction Hl as [x Hx|x p l Hx Hp IH]; intros l' Hl'; inversion Hl' as [? Hn|? q ? Hn Hq]; subst; try congruence.
  assert (q = p) as -> by congruence. f_equal. by apply IH.
Qed.
Lemma up_split m x l1 y l2 : up m x (l1 ++ y :: l2) → up m y l2.
Proof.
  revert x. induction l1 as [|z l1 IH]; intros x Hu; inversion Hu; subst; [done|]. by eapply IH.
Qed.
Lemma up_parent m x l : up m x l → parent m x = hd_or l None.
Proof. by inversion 1. Qed.
Lemma up_nodup m x l : up m x l → NoDup (x :: l).
Proof.
  intros Hu. assert (∀ k, (length l ≤ k)%nat → NoDup (x :: l)) as Hk; [|by eapply Hk].
  intros k. revert x l Hu. induction k as [|k IH]; intros x l Hu Hl.
  - destruct l; [|simpl in Hl; lia]. apply NoDup_singleton.
  - apply NoDup_cons. split.
    + intros (l1 & l2 & ->)%list_elem_of_split. pose proof (up_split _ _ _ _ _ Hu) as Hx. pose proof (up_fun _ _ _ _ Hu Hx) as E.
      apply (f_equal length) in E. rewrite length_app in E. simpl in E. lia.
    + destruct l as [|p l]; [apply NoDup_nil_2|]. inversion Hu; subst. apply IH; [done|simpl in Hl; lia].
Qed.
(** A different memory with the same parents along the way. *)
Lemma up_ext m m' x l : up m x l → (∀ y, y ∈ x :: l → parent m' y = parent m y) → up m' x l.
Proof.
  induction 1 as [x Hx|x p l Hx Hp IH]; intros He.
  - constructor. rewrite He; [done|set_solver].
  - econstructor; [rewrite He; [done|set_solver]|]. apply IH. intros y Hy. apply He. set_solver.
Qed.

Section inv.
Context (m : cfg) (kids : gmap key (list key)) (Hinv : cfg_inv m kids).

Lemma parent_kids x d : parent m x = Some d ↔ ∃ xs, kids !! d = Some xs ∧ x ∈ xs.
Proof.
  unfold parent. split.
  - destruct (nodes (links m) !! x) as [v|] eqn:E; [|done]. intros Hl. pose proof (rep_node _ _ (ci_lrep _ _ Hinv) x v E) as Hn. by rewrite Hl in Hn.
  - intros (xs & Hd & Hx). destruct (rep_in _ _ (ci_lrep _ _ Hinv) d xs x Hd Hx) as (v & -> & ?). done.
Qed.
Lemma kid_known d xs x : kids !! d = Some xs → x ∈ xs → is_Some (objs m !! x).
Proof.
  intros Hd Hx. apply (ci_node _ _ Hinv). destruct (rep_in _ _ (ci_lrep _ _ Hinv) d xs x Hd Hx) as (v & -> & _). by eexists.
Qed.
Lemma parent_dir x d : parent m x = Some d → is_Some (kids !! d) ∧ is_Some (objs m !! d).
Proof.
  intros (xs & Hd & _)%parent_kids. split; [by eexists|]. destruct (proj1 (ci_dir _ _ Hinv d)) as (o & -> & _); by eexists.
Qed.
Lemma up_known x l : up m x l → Forall (λ p, is_Some (objs m !! p)) l.
Proof. induction 1 as [|x p l Hx Hp IH]; constructor; [by eapply parent_dir|done]. Qed.
Lemma up_short x l : is_Some (objs m !! x) → up m x l → (length l < size (nodes (links m)))%nat.
Proof.
  intros Hx Hu. pose proof (up_nodup _ _ _ Hu) as Hnd. pose proof (up_known _ _ Hu) as Hk.
  assert (size (list_to_set (x :: l) : gset key) ≤ size (dom (nodes (links m))))%nat as Hs.
  { apply subseteq_size. intros y Hy. rewrite elem_of_list_to_set in Hy. apply elem_of_dom, (ci_node _ _ Hinv).
    apply elem_of_cons in Hy as [->|Hy]; [done|]. rewrite Forall_forall in Hk. by apply Hk. }
  rewrite size_list_to_set in Hs by done. rewrite size_dom in Hs. simpl in Hs. lia.
Qed.
Lemma free_root x : is_Some (objs m !! x) → parent m x = None ↔ free kids x.
Proof.
  intros Hx. destruct (proj2 (ci_node _ _ Hinv x) Hx) as [v Hv]. unfold parent. rewrite Hv. symmetry. by apply (rep_free _ _ (ci_lrep _ _ Hinv)).
Qed.
End inv.

(** ** Steps *)

Lemma in_links_step {A} (o : M lmem A) m r h : o (links m) = Ret (r, h) → in_links o m = Ret (r, put_links h m).
Proof. intros E. unfold in_links, zoom. by rewrite E. Qed.
Lemma in_links_look {A} (o : M lmem A) m r : o (links m) = Ret (r, links m) → in_links o m = Ret (r, m).
Proof. intros E. rewrite (in_links_step _ _ _ _ E). by destruct m. Qed.
Lemma obj_step m x o : objs m !! x = Some o → obj x m = Ret (TT_SUCCESS o, m).
Proof. unfold obj. by intros ->. Qed.
Lemma upd_obj_step m x f o : objs m !! x = Some o → upd_obj x f m = Ret (TT_SUCCESS tt, put_objs (<[x := f o]> (objs m)) m).
Proof. unfold upd_obj. by intros ->. Qed.
Lemma node_step m x v : nodes (links m) !! x = Some v → in_links (LinkedList.node x) m = Ret (TT_SUCCESS v, m).
Proof. intros E. apply in_links_look. unfold LinkedList.node. by rewrite E. Qed.

Lemma name_same n nm : positives n → (zlen n =? zlen nm) && (strncmp n nm =? 0) = bool_decide (n = nm).
Proof.
  intros Hn. revert nm. induction Hn as [|c n Hc Hn IH]; intros [|d nm]; rewrite ?zlen_cons; change (zlen (@nil Z)) with 0.
  - done.
  - rewrite (proj2 (Z.eqb_neq 0 _)) by (pose proof (zlen_nonneg nm); lia). done.
  - rewrite (proj2 (Z.eqb_neq _ 0)) by (pose proof (zlen_nonneg n); lia). done.
  - cbn [strncmp hd tail]. replace (1 + zlen n =? 1 + zlen nm) with (zlen n =? zlen nm) by (destruct (Z.eqb_spec (zlen n) (zlen nm)), (Z.eqb_spec (1 + zlen n) (1 + zlen nm)); lia).
    destruct (Z.eqb_spec c d) as [->|Hne].
    + rewrite (proj2 (Z.eqb_neq d 0)) by lia. rewrite IH. repeat case_bool_decide; congruence.
    + rewrite (proj2 (Z.eqb_neq (c - d) 0)) by lia. rewrite andb_false_r. rewrite bool_decide_eq_false_2; congruence.
Qed.

(** A child of name [nm]. *)
Definition named (os : gmap key tt_cfgobj_t) (nm : list Z) (x : key) : bool :=
  match os !! x with Some o => bool_decide (name o = nm) | None => false end.

(** The memory after [c] was linked in between. *)
Definition placed (m : cfg) (d : key) (xs1 : list key) (c : key) (xs2 : list key) : cfg :=
  put_links (mk_lmem (link_in (nodes (links m)) d xs1 c xs2) (<[d := list_of (xs1 ++ c :: xs2)]> (lists (links m)))) m.

Section loops.
Context (m : cfg) (kids : gmap key (list key)) (Hinv : cfg_inv m kids) (d : key).

Lemma next_of_ok pre x xs : kids !! d = Some (pre ++ x :: xs) → next_of x m = Ret (TT_SUCCESS (hd_or xs None), m).
Proof.
  intros Hd. destruct (rep_list _ _ (ci_lrep _ _ Hinv) d _ Hd) as (_ & _ & Hl). apply linked_at in Hl.
  unfold next_of. by erewrite bind_step by (apply node_step; exact Hl).
Qed.
Lemma cfg_head_ok xs : kids !! d = Some xs → in_links (tt_list_head d) m = Ret (TT_SUCCESS (hd_or xs None), m).
Proof.
  intros Hd. destruct (rep_list _ _ (ci_lrep _ _ Hinv) d _ Hd) as (El & _). apply in_links_look. unfold tt_list_head. lrun. done.
Qed.
Lemma fuel_enough pre xs : kids !! d = Some (pre ++ xs) → (length xs < fuel_of m)%nat.
Proof.
  intros Hd. destruct (rep_list _ _ (ci_lrep _ _ Hinv) d _ Hd) as (_ & Hnd & _). unfold fuel_of.
  pose proof (rep_length _ _ (ci_lrep _ _ Hinv) d _ Hd) as Hs. rewrite length_app in Hs. lia.
Qed.
Lemma kid_obj pre x xs : kids !! d = Some (pre ++ x :: xs) → ∃ o, objs m !! x = Some o ∧ obj_ok o.
Proof.
  intros Hd. destruct (kid_known m kids Hinv d _ x Hd) as [o Ho]; [set_solver|]. exists o. split; [done|]. by eapply ci_obj.
Qed.

Lemma cfg_find_loop_ok nm xs : ∀ pre fuel, kids !! d = Some (pre ++ xs) → (length xs < fuel)%nat →
  find_loop fuel (hd_or xs None) nm m = Ret (TT_SUCCESS (List.find (named (objs m) nm) xs), m).
Proof.
  induction xs as [|x xs IH]; intros pre [|fuel] Hd Hf; simpl in Hf; [lia|done|lia|].
  destruct (kid_obj pre x xs Hd) as (o & Ho & Hok). cbn [hd_or find_loop List.find]. erewrite bind_step by (apply obj_step; exact Ho).
  rewrite name_same by apply name_positives, Hok. unfold named at 1. rewrite Ho. case_bool_decide; [done|].
  erewrite bind_step by (eapply next_of_ok; exact Hd). apply (IH (pre ++ [x])); [by rewrite <- app_assoc|lia].
Qed.

Lemma cfg_find_ok nm xs : kids !! d = Some xs → tt_cfgdir_find d nm m = Ret (TT_SUCCESS (List.find (named (objs m) nm) xs), m).
Proof.
  intros Hd. unfold tt_cfgdir_find. erewrite bind_step by (apply cfg_head_ok; exact Hd). erewrite (bind_step (gets fuel_of)) by done.
  apply (cfg_find_loop_ok nm xs []); [done|]. by apply (fuel_enough []).
Qed.

Context (c : key) (Hc : is_Some (nodes (links m) !! c)) (Hfree : free kids c).

Lemma push_tail_step xs : kids !! d = Some xs → in_links (tt_list_push_tail d c) m = Ret (TT_SUCCESS tt, placed m d xs c []).
Proof.
  intros Hd. destruct Hc as [v Hv]. rewrite (in_links_step _ _ _ _ (push_tail_code _ _ (ci_lrep _ _ Hinv) d c xs v Hd Hv Hfree)). done.
Qed.
Lemma insert_before_step xs1 x xs2 : kids !! d = Some (xs1 ++ x :: xs2) →
  in_links (tt_list_insert_before x c) m = Ret (TT_SUCCESS tt, placed m d xs1 c (x :: xs2)).
Proof.
  intros Hd. destruct Hc as [v Hv]. rewrite (in_links_step _ _ _ _ (insert_before_code _ _ (ci_lrep _ _ Hinv) d xs1 x xs2 c v Hd Hv Hfree)). done.
Qed.

(** Where the loops put a directory, and another object. *)
Definition dir_before (cn : list Z) (x : key) : Prop :=
  ∃ o, objs m !! x = Some o ∧ type o = TT_CFGOBJ_DIR ∧ (strcmp cn (name o) <? 0) = false.
Definition leaf_before (cn : list Z) (x : key) : Prop :=
  ∃ o, objs m !! x = Some o ∧ type o ≠ TT_CFGOBJ_DIR ∧ (strcmp cn (name o) <? 0) = false.
Definition dir_after (cn : list Z) (x : key) : Prop :=
  ∃ o, objs m !! x = Some o ∧ (type o = TT_CFGOBJ_DIR → (strcmp cn (name o) <? 0) = true).
Definition leaf_after (cn : list Z) (x : key) : Prop :=
  ∃ o, objs m !! x = Some o ∧ type o ≠ TT_CFGOBJ_DIR ∧ (strcmp cn (name o) <? 0) = true.
Definition hd_ok (P : key → Prop) (xs : list key) : Prop := match xs with [] => True | x :: _ => P x end.

Lemma add_dir_loop_ok cn xs : ∀ pre fuel, kids !! d = Some (pre ++ xs) → (length xs < fuel)%nat →
  ∃ xs1 xs2, xs = xs1 ++ xs2 ∧ add_dir_loop fuel d c cn (hd_or xs None) m = Ret (TT_SUCCESS tt, placed m d (pre ++ xs1) c xs2) ∧
    Forall (dir_before cn) xs1 ∧ hd_ok (dir_after cn) xs2.
Proof.
  induction xs as [|x xs IH]; intros pre [|fuel] Hd Hf; simpl in Hf; [lia| |lia|].
  - exists [], []. split; [done|]. rewrite app_nil_r in *. split; [|by repeat constructor]. cbn [hd_or add_dir_loop]. by apply push_tail_step.
  - destruct (kid_obj pre x xs Hd) as (o & Ho & Hok). cbn [hd_or add_dir_loop]. erewrite bind_step by (apply obj_step; exact Ho).
    destruct (is_dir (type o)) eqn:Et; cbn [negb]; [apply is_dir_true in Et; destruct (strcmp cn (name o) <? 0) eqn:Es|apply is_dir_false in Et].
    + exists [], (x :: xs). rewrite app_nil_r. split; [done|]. split; [by apply insert_before_step|]. split; [done|]. by exists o.
    + erewrite bind_step by (eapply next_of_ok; exact Hd). destruct (IH (pre ++ [x]) fuel) as (xs1 & xs2 & -> & E & H1 & H2); [by rewrite <- app_assoc|lia|].
      exists (x :: xs1), xs2. split; [done|]. rewrite <- app_assoc in E. split; [exact E|]. split; [|done]. constructor; [|done]. by exists o.
    + exists [], (x :: xs). rewrite app_nil_r. split; [done|]. split; [by apply insert_before_step|]. split; [done|]. by exists o.
Qed.

Lemma skip_dirs_ok xs : ∀ pre fuel, kids !! d = Some (pre ++ xs) → (length xs < fuel)%nat →
  ∃ xs1 xs2, xs = xs1 ++ xs2 ∧ skip_dirs fuel (hd_or xs None) m = Ret (TT_SUCCESS (hd_or xs2 None), m) ∧
    Forall (λ x, ∃ o, objs m !! x = Some o ∧ type o = TT_CFGOBJ_DIR) xs1 ∧ hd_ok (λ x, ∃ o, objs m !! x = Some o ∧ type o ≠ TT_CFGOBJ_DIR) xs2.
Proof.
  induction xs as [|x xs IH]; intros pre [|fuel] Hd Hf; simpl in Hf; [lia| |lia|].
  - by exists [], [].
  - destruct (kid_obj pre x xs Hd) as (o & Ho & Hok). cbn [hd_or skip_dirs]. erewrite bind_step by (apply obj_step; exact Ho).
    destruct (is_dir (type o)) eqn:Et; cbn [negb]; [apply is_dir_true in Et|apply is_dir_false in Et].
    + erewrite bind_step by (eapply next_of_ok; exact Hd). destruct (IH (pre ++ [x]) fuel) as (xs1 & xs2 & -> & E & H1 & H2); [by rewrite <- app_assoc|lia|].
      exists (x :: xs1), xs2. split; [done|]. split; [exact E|]. split; [|done]. constructor; [|done]. by exists o.
    + exists [], (x :: xs). split; [done|]. split; [done|]. split; [done|]. by exists o.
Qed.

Lemma add_leaf_loop_ok cn xs : ∀ pre fuel, kids !! d = Some (pre ++ xs) → (length xs < fuel)%nat →
  Forall (λ x, ∃ o, objs m !! x = Some o ∧ type o ≠ TT_CFGOBJ_DIR) xs →
  ∃ xs1 xs2, xs = xs1 ++ xs2 ∧ add_leaf_loop fuel d c cn (hd_or xs None) m = Ret (TT_SUCCESS tt, placed m d (pre ++ xs1) c xs2) ∧
    Forall (leaf_before cn) xs1 ∧ hd_ok (leaf_after cn) xs2.
Proof.
  induction xs as [|x xs IH]; intros pre [|fuel] Hd Hf Hl; simpl in Hf; [lia| |lia|].
  - exists [], []. split; [done|]. rewrite app_nil_r in *. split; [|by repeat constructor]. cbn [hd_or add_leaf_loop]. by apply push_tail_step.
  - apply Forall_cons_1 in Hl as [(o & Ho & Et) Hl]. cbn [hd_or add_leaf_loop]. erewrite bind_step by (apply obj_step; exact Ho).
    rewrite (proj2 (is_dir_false _) Et). erewrite (bind_step (assert_always _)) by done. destruct (strcmp cn (name o) <? 0) eqn:Es.
    + exists [], (x :: xs). rewrite app_nil_r. split; [done|]. split; [by apply insert_before_step|]. split; [done|]. by exists o.
    + erewrite bind_step by (eapply next_of_ok; exact Hd). destruct (IH (pre ++ [x]) fuel) as (xs1 & xs2 & -> & E & H1 & H2); [by rewrite <- app_assoc|lia|done|].
      exists (x :: xs1), xs2. split; [done|]. rewrite <- app_assoc in E. split; [exact E|]. split; [|done]. constructor; [|done]. by exists o.
Qed.
End loops.

(** ** Objects that keep what their directory shows of them *)

Lemma kids_ok_upd os n xs es x o o' : kids_ok os n xs es → os !! x = Some o → tag o' = tag o → kids_ok (<[x := o']> os) n xs es.
Proof.
  intros [Ht ? ? ?] Hx He. constructor; try done. eapply Forall2_impl; [exact Ht|]. intros y e Hy. cbn in *.
  destruct (decide (y = x)) as [->|]; [|by rewrite lookup_insert_ne]. rewrite lookup_insert_eq. cbn. rewrite Hx in Hy. cbn in Hy. congruence.
Qed.
Lemma kids_ok_widen os n n' xs es : n ≤ n' → kids_ok os n xs es → kids_ok os n' xs es.
Proof. intros Hn []. constructor; try done. eapply List.Forall_impl; [|done]. intros; cbn in *; lia. Qed.

(** Changing the fields of an object other than those in its tag. *)
Lemma inv_upd m kids x o o' : cfg_inv m kids → objs m !! x = Some o → obj_ok o' → type o' = type o → name o' = name o →
  (∀ n n', ext o = XDir n → ext o' = XDir n' → n ≤ n') → cfg_inv (put_objs (<[x := o']> (objs m)) m) kids.
Proof.
  intros Hinv Hx Hok Ht Hn Hw. assert (tag o' = tag o) as Htag by (unfold tag; congruence). destruct Hinv as [H1 H2 H3 H4 H5 H6]. constructor; cbn; try done.
  - intros y. rewrite H2. destruct (decide (y = x)) as [->|]; [|by rewrite lookup_insert_ne]. rewrite lookup_insert_eq, Hx. by split; eexists.
  - intros y p. destruct (decide (y = x)) as [->|]; [|rewrite lookup_insert_ne by done; apply H3]. rewrite lookup_insert_eq. by intros [= <-].
  - intros y. rewrite H4. destruct (decide (y = x)) as [->|]; [|by rewrite lookup_insert_ne]. rewrite lookup_insert_eq, Hx. split; intros (? & [= <-] & ?); eexists; split; try done; congruence.
  - intros d xs Hd. destruct (H5 d xs Hd) as (p & n & es & Hp & He & Hk). destruct (decide (d = x)) as [->|].
    + assert (p = o) as -> by congruence. assert (type o = TT_CFGOBJ_DIR) as Hdir.
      { destruct (proj1 (H4 x)) as (q & ? & ?); [by eexists|]. congruence. }
      pose proof (ok_ext _ Hok) as Hx'. unfold ext_ok in Hx'. rewrite Ht, Hdir in Hx'. destruct (ext o') as [n'| | | | |] eqn:Ee; try done.
      exists o', n', es. rewrite lookup_insert_eq. split_and!; try done. apply (kids_ok_upd _ _ _ _ _ o); [|done..]. apply (kids_ok_widen _ n); [by apply Hw|done].
    + exists p, n, es. rewrite lookup_insert_ne by done. split_and!; try done. by eapply kids_ok_upd.
  - intros y. destruct (decide (y = x)) as [->|]; [|rewrite lookup_insert_ne by done]; intros Hy; [destruct (H6 x) as [l Hl]; [by eexists|]|destruct (H6 y Hy) as [l Hl]]; exists l;
      eapply up_ext; done.
Qed.

(** ** Linking a child in *)

Lemma parent_lrep m kids x d : lrep (links m) kids → parent m x = Some d ↔ ∃ xs, kids !! d = Some xs ∧ x ∈ xs.
Proof.
  intros Hr. unfold parent. split.
  - destruct (nodes (links m) !! x) as [v|] eqn:E; [|done]. intros Hl. pose proof (rep_node _ _ Hr x v E) as Hn. by rewrite Hl in Hn.
  - intros (xs & Hd & Hx). destruct (rep_in _ _ Hr d xs x Hd Hx) as (v & -> & ?). done.
Qed.

(** When only [c] changes its parent, from none to [d]. *)
Lemma up_place m m' c d ld y l : parent m c = None → parent m' c = Some d → (∀ z, z ≠ c → parent m' z = parent m z) →
  up m d ld → c ∉ d :: ld → up m y l → up m' y (if decide (c ∈ y :: l) then l ++ d :: ld else l).
Proof.
  intros Hc Hc' He Hd Hcd. assert (up m' d ld) as Hd'.
  { eapply up_ext; [exact Hd|]. intros z Hz. apply He. by intros ->. }
  induction 1 as [y Hy|y p l Hy Hp IH].
  - case_decide as Hin; [|constructor; rewrite He; [done|set_solver]]. assert (c = y) as <- by set_solver. by econstructor.
  - assert (y ≠ c) as Hne by congruence. assert (parent m' y = Some p) as Hy' by by rewrite He.
    assert (c ∈ y :: p :: l ↔ c ∈ p :: l) as Hin by (rewrite (elem_of_cons (p :: l)); clear IH; naive_solver).
    destruct (decide (c ∈ p :: l)), (decide (c ∈ y :: p :: l)); try (clear IH; tauto); cbn; by econstructor.
Qed.

Lemma sorted_insert es1 e es2 : StronglySorted before (es1 ++ es2) → Forall (λ a, before a e) es1 → Forall (before e) es2 →
  StronglySorted before (es1 ++ e :: es2).
Proof.
  induction es1 as [|a es1 IH]; cbn; intros Hs H1 H2; [by constructor|].
  apply StronglySorted_inv in Hs as [Hs Ha]. apply Forall_cons_1 in H1 as [Hae H1]. constructor; [by apply IH|].
  apply Forall_app in Ha as [? ?]. apply Forall_app. split; [done|by constructor].
Qed.

Lemma inv_place m kids d xs1 xs2 c o n es1 es2 oc :
  cfg_inv m kids → kids !! d = Some (xs1 ++ xs2) → objs m !! d = Some o → ext o = XDir n → kids_ok (objs m) n (xs1 ++ xs2) (es1 ++ es2) →
  length xs1 = length es1 → objs m !! c = Some oc → parent m c = None → ¬ below m c d →
  Forall (λ a, before a (tag oc)) es1 → Forall (before (tag oc)) es2 → name oc ∉ (es1 ++ es2).*2 → width (tag oc) ≤ n →
  cfg_inv (placed m d xs1 c xs2) (<[d := xs1 ++ c :: xs2]> kids).
Proof.
  intros Hinv Hd Ho En Hk Hlen Hc Hpc Hnb H1 H2 Hn Hw.
  assert (free kids c) as Hf by (apply (free_root m kids Hinv); [by eexists|done]).
  pose proof (rep_link_in _ _ (ci_lrep _ _ Hinv) d xs1 xs2 c Hd Hf) as Hrep.
  assert (is_Some (nodes (links m) !! c)) as Hnc by (apply (ci_node _ _ Hinv); by eexists).
  pose proof (link_in_dom (nodes (links m)) d xs1 c xs2 Hnc) as Hdom.
  assert (∀ z, z ≠ c → parent (placed m d xs1 c xs2) z = parent m z) as Hpz.
  { intros z Hz. apply option_eq. intros p. rewrite (parent_lrep (placed m d xs1 c xs2) _ z p Hrep), (parent_lrep _ _ z p (ci_lrep _ _ Hinv)).
    destruct (decide (p = d)) as [->|]; [|by rewrite lookup_insert_ne]. rewrite lookup_insert_eq, Hd. split; intros (? & [= <-] & ?); eexists; split; try done; set_solver. }
  assert (parent (placed m d xs1 c xs2) c = Some d) as Hpc'.
  { apply (parent_lrep (placed m d xs1 c xs2) _ c d Hrep). rewrite lookup_insert_eq. eexists. split; [done|]. set_solver. }
  destruct (ci_up _ _ Hinv d) as [ld Hld]; [by eexists|].
  constructor; cbn.
  - exact Hrep.
  - intros x. rewrite <- (ci_node _ _ Hinv). rewrite <- !elem_of_dom. by rewrite Hdom.
  - apply (ci_obj _ _ Hinv).
  - intros x. rewrite <- (ci_dir _ _ Hinv). destruct (decide (x = d)) as [->|]; [|by rewrite lookup_insert_ne]. rewrite lookup_insert_eq, Hd. by split; eexists.
  - intros x xs. destruct (decide (x = d)) as [->|]; [|rewrite lookup_insert_ne by done; apply (ci_kids _ _ Hinv)]. rewrite lookup_insert_eq. intros [= <-].
    exists o, n, (es1 ++ tag oc :: es2). split_and!; [done..|]. destruct Hk as [Kt Ks Kn Kw]. constructor.
    + apply Forall2_app_inv in Kt as [K1 K2]; [|done]. apply Forall2_app; [done|]. constructor; [by rewrite Hc|done].
    + by apply sorted_insert.
    + rewrite fmap_app in *. cbn. apply NoDup_Permutation_proper with (name oc :: (es1.*2 ++ es2.*2)); [by rewrite Permutation_middle|]. by constructor.
    + apply Forall_app in Kw as [? ?]. apply Forall_app. split; [done|by constructor].
  - intros x Hx. destruct (ci_up _ _ Hinv x Hx) as [l Hl]. eexists. eapply up_place; try done. intros Hin. apply Hnb. by exists ld.
Qed.

Lemma sorted_tail e es : StronglySorted before es → (∀ a l, es = a :: l → before e a) → Forall (before e) es.
Proof.
  intros Hs Ha. destruct es as [|a es]; [done|]. specialize (Ha a es eq_refl). apply StronglySorted_inv in Hs as [_ Hs].
  constructor; [done|]. eapply List.Forall_impl; [|exact Hs]. intros b Hb. by etransitivity.
Qed.
Lemma sorted_app_r es1 es2 : StronglySorted before (es1 ++ es2) → StronglySorted before es2.
Proof. induction es1 as [|a es1 IH]; [done|]. cbn. intros [Hs _]%StronglySorted_inv. by apply IH. Qed.

(** The tag of a known child of another name. *)
Lemma tags_forall (os : gmap key tt_cfgobj_t) xs es (P : key → Prop) (Q : entry → Prop) :
  Forall2 (λ x e, tag <$> os !! x = Some e) xs es → Forall P xs → (∀ x o, P x → os !! x = Some o → tag o ∈ es → Q (tag o)) → Forall Q es.
Proof.
  intros Ht HP HQ. apply Forall_forall. intros e He. destruct (list_elem_of_lookup_1 _ _ He) as [i Hi].
  destruct (Forall2_lookup_r _ _ _ _ _ Ht Hi) as (x & Hx & Ex). destruct (os !! x) as [o|] eqn:Eo; [|done]. injection Ex as <-.
  apply (HQ x o); [|done|done]. rewrite Forall_forall in HP. apply HP. by eapply list_elem_of_lookup_2.
Qed.

Lemma not_named (os : gmap key tt_cfgobj_t) nm xs es : Forall2 (λ x e, tag <$> os !! x = Some e) xs es → List.find (named os nm) xs = None → nm ∉ es.*2.
Proof.
  induction 1 as [|x e xs es Hx Ht IH]; [cbn; intros _; apply not_elem_of_nil|]. cbn [List.find]. destruct (named os nm x) eqn:En; [done|]. intros Hf.
  cbn. apply not_elem_of_cons. split; [|by apply IH]. unfold named in En. destruct (os !! x) as [o|]; [|done]. injection Hx as <-.
  intros E. cbn in E. rewrite bool_decide_eq_false in En. congruence.
Qed.

Lemma cmp_later cn n : positives cn → positives n → (strcmp cn n <? 0) = false → n ≠ cn → lexcmp n cn < 0.
Proof.
  intros Hc Hn Hs Hne. rewrite strcmp_lex in Hs by done. apply Z.ltb_ge in Hs. pose proof (lexcmp_anti cn n) as Ha.
  assert (lexcmp cn n ≠ 0) by (rewrite lexcmp_eq; congruence). lia.
Qed.

(** ** Adding *)

Definition widened (d : key) (n : Z) (m : cfg) : cfg :=
  match objs m !! d with Some o => put_objs (<[d := set_ext (XDir n) o]> (objs m)) m | None => m end.

Lemma widen_ok m kids d o n w : cfg_inv m kids → objs m !! d = Some o → ext o = XDir n → type o = TT_CFGOBJ_DIR → is_u32 w →
  (if n <? w then upd_obj d (set_ext (XDir w)) else mret tt) m = Ret (TT_SUCCESS tt, widened d (Z.max n w) m) ∧
  cfg_inv (widened d (Z.max n w) m) kids.
Proof.
  intros Hinv Ho En Et Hw. pose proof (ci_obj _ _ Hinv d o Ho) as Hok.
  assert (is_u32 n) as Hn by (pose proof (ok_ext _ Hok) as Hx; unfold ext_ok in Hx; rewrite Et, En in Hx; apply Hx).
  unfold widened. rewrite Ho. split.
  - destruct (Z.ltb_spec n w).
    + rewrite Z.max_r by lia. by apply upd_obj_step.
    + rewrite Z.max_l by lia. assert (set_ext (XDir n) o = o) as -> by (rewrite <- En; by destruct o). rewrite insert_id by done. by destruct m.
  - apply (inv_upd m kids d o); try done.
    + destruct Hok as [? ? Hx]. constructor; [done|done|]. unfold ext_ok in *. cbn. rewrite Et, En in *. destruct Hx. split; [done|]. unfold is_u32 in *. lia.
    + cbn. rewrite En. intros ?? [= <-] [= <-]. lia.
Qed.

Section add.
Context (m : cfg) (kids : gmap key (list key)) (Hinv : cfg_inv m kids).
Context (d c : key) (xs : list key) (oc : tt_cfgobj_t).
Context (Hd : kids !! d = Some xs) (Hc : objs m !! c = Some oc) (Hroot : parent m c = None) (Hnb : ¬ below m c d).
Context (Hnew : List.find (named (objs m) (name oc)) xs = None).

Context (o : tt_cfgobj_t) (n : Z) (es : list entry).
Context (Ho : objs m !! d = Some o) (En : ext o = XDir n) (Hk : kids_ok (objs m) n xs es) (Hw : width (tag oc) ≤ n).
Notation tagged := (Forall2 (λ x e, tag <$> objs m !! x = Some e)).

(** Between [xs1] and [xs2] the child is in order. *)
Definition sorts_at (xs1 xs2 : list key) : Prop :=
  ∀ es1 es2, es = es1 ++ es2 → tagged xs1 es1 → tagged xs2 es2 → Forall (λ a, before a (tag oc)) es1 ∧ ∀ a l, es2 = a :: l → before (tag oc) a.

Lemma new_linkable : is_Some (nodes (links m) !! c) ∧ free kids c.
Proof. split; [apply (ci_node _ _ Hinv); by eexists|apply (free_root m kids Hinv); [by eexists|done]]. Qed.
Lemma new_positives : positives (name oc).
Proof. by eapply name_positives, ok_name, ci_obj. Qed.
Lemma other_name es1 x o' : tag o' ∈ es1 → objs m !! x = Some o' → es1.*2 ⊆ es.*2 → positives (name o') ∧ name o' ≠ name oc.
Proof.
  intros Hin Hx He. split; [by eapply name_positives, ok_name, ci_obj|]. intros E. apply (not_named _ _ _ _ (ko_tags _ _ _ _ Hk) Hnew).
  rewrite <- E. apply He. by apply (list_elem_of_fmap_2' snd _ _ _ Hin).
Qed.

Lemma add_dir_place : is_dir (type oc) = true → ∃ xs1 xs2, xs = xs1 ++ xs2 ∧
  add_dir_loop (fuel_of m) d c (name oc) (hd_or xs None) m = Ret (TT_SUCCESS tt, placed m d xs1 c xs2) ∧ sorts_at xs1 xs2.
Proof.
  intros Et. destruct new_linkable as [Hnc Hf].
  destruct (add_dir_loop_ok m kids Hinv d c Hnc Hf (name oc) xs [] _ Hd (fuel_enough m kids Hinv d [] xs Hd)) as (xs1 & xs2 & Exs & E & H1 & H2).
  exists xs1, xs2. split; [done|]. split; [exact E|]. intros es1 es2 Ees F1 F2. split.
  - eapply (tags_forall _ _ _ _ _ F1 H1). intros x o' (q & Hq & Hqd & Hqs) Hx Hin. assert (q = o') as -> by congruence.
    destruct (other_name es1 x o' Hin Hx) as [Hp Hne]; [rewrite Ees, fmap_app; set_solver|]. unfold before, tag. cbn. rewrite (proj2 (is_dir_true _) Hqd).
    intros _. apply cmp_later; [apply new_positives|done..].
  - intros a l ->. inversion F2 as [|x ? xs2' ? Hx F2']; subst. destruct H2 as (q & Hq & Hqs). rewrite Hq in Hx. injection Hx as <-.
    unfold before, tag. cbn. rewrite Et. intros Hdir%is_dir_true. specialize (Hqs Hdir). rewrite strcmp_lex in Hqs; [by apply Z.ltb_lt|apply new_positives|by eapply name_positives, ok_name, ci_obj].
Qed.

(** Behind the directories are only other objects. *)
Lemma leaves_behind xs0 xs' : xs = xs0 ++ xs' → hd_ok (λ x, ∃ o, objs m !! x = Some o ∧ type o ≠ TT_CFGOBJ_DIR) xs' →
  Forall (λ x, ∃ o, objs m !! x = Some o ∧ type o ≠ TT_CFGOBJ_DIR) xs'.
Proof.
  intros E H2. pose proof (ko_tags _ _ _ _ Hk) as Ht. rewrite E in Ht. apply Forall2_app_inv_l in Ht as (es0 & es' & F0 & F' & Ees).
  pose proof (ko_sorted _ _ _ _ Hk) as Hs. rewrite Ees in Hs. apply sorted_app_r in Hs.
  destruct xs' as [|x xs']; [constructor|]. destruct H2 as (q & Hq & Hqt). inversion F' as [|? e ? es'' Hx F'' E1 E2]; subst. rewrite Hq in Hx. injection Hx as <-.
  apply StronglySorted_inv in Hs as [_ Hs]. constructor; [by exists q|]. clear -F'' Hs Hqt.
  induction F'' as [|y e ys es Hy _ IH]; [constructor|]. apply Forall_cons_1 in Hs as [He Hs].
  constructor; [|by apply IH]. destruct (objs m !! y) as [p|]; [|done]. injection Hy as <-. exists p. split; [done|].
  unfold before, tag in He. cbn in He. rewrite (proj2 (is_dir_false _) Hqt) in He. apply is_dir_false, He.
Qed.

Lemma add_leaf_place : is_dir (type oc) = false → ∃ xs1 xs2, xs = xs1 ++ xs2 ∧
  (nd ← skip_dirs (fuel_of m) (hd_or xs None); add_leaf_loop (fuel_of m) d c (name oc) nd) m = Ret (TT_SUCCESS tt, placed m d xs1 c xs2) ∧ sorts_at xs1 xs2.
Proof.
  intros Et. destruct new_linkable as [Hnc Hf]. pose proof (fuel_enough m kids Hinv d [] xs Hd) as Hfuel.
  destruct (skip_dirs_ok m kids Hinv d xs [] _ Hd Hfuel) as (xs0 & xs' & Exs & E & H1 & H2). erewrite bind_step by exact E.
  pose proof (leaves_behind xs0 xs' Exs H2) as Hleaf. pose proof Hd as Hd'. rewrite Exs in Hd', Hfuel. rewrite length_app in Hfuel.
  destruct (add_leaf_loop_ok m kids Hinv d c Hnc Hf (name oc) xs' xs0 (fuel_of m) Hd' ltac:(lia) Hleaf) as (xs1 & xs2 & Exs' & E2 & H3 & H4).
  exists (xs0 ++ xs1), xs2. split; [by rewrite <- app_assoc, Exs, Exs'|]. split; [exact E2|]. intros es1 es2 Ees F1 F2. split.
  - apply (tags_forall _ _ _ (λ x, ∃ o, objs m !! x = Some o ∧ (type o = TT_CFGOBJ_DIR ∨ (strcmp (name oc) (name o) <? 0) = false)) _ F1).
    + apply Forall_app. split; [eapply List.Forall_impl; [|exact H1]|eapply List.Forall_impl; [|exact H3]]; cbn; [intros x (q & ? & ?)|intros x (q & ? & ? & ?)]; exists q; auto.
    + intros x o' (q & Hq & Hqs) Hx Hin. assert (q = o') as -> by congruence. destruct (other_name es1 x o' Hin Hx) as [Hp Hne]; [rewrite Ees, fmap_app; set_solver|].
      unfold before, tag. cbn. rewrite Et. destruct (is_dir (type o')) eqn:Eq; [done|]. split; [done|]. apply is_dir_false in Eq. destruct Hqs as [?|?]; [done|].
      apply cmp_later; [apply new_positives|done..].
  - intros a l ->. inversion F2 as [|x ? xs2' ? Hx F2']; subst. destruct H4 as (q & Hq & Hqt & Hqs). rewrite Hq in Hx. injection Hx as <-.
    unfold before, tag. cbn. rewrite Et. split; [by apply is_dir_false|]. rewrite strcmp_lex in Hqs; [by apply Z.ltb_lt|apply new_positives|by eapply name_positives, ok_name, ci_obj].
Qed.

(** The place that the loops find. *)
Lemma add_place : ∃ xs1 xs2, xs = xs1 ++ xs2 ∧
  (if is_dir (type oc) then add_dir_loop (fuel_of m) d c (name oc) (hd_or xs None)
   else nd ← skip_dirs (fuel_of m) (hd_or xs None); add_leaf_loop (fuel_of m) d c (name oc) nd) m = Ret (TT_SUCCESS tt, placed m d xs1 c xs2) ∧
  cfg_inv (placed m d xs1 c xs2) (<[d := xs1 ++ c :: xs2]> kids).
Proof.
  assert (∃ xs1 xs2, xs = xs1 ++ xs2 ∧
    (if is_dir (type oc) then add_dir_loop (fuel_of m) d c (name oc) (hd_or xs None)
     else nd ← skip_dirs (fuel_of m) (hd_or xs None); add_leaf_loop (fuel_of m) d c (name oc) nd) m = Ret (TT_SUCCESS tt, placed m d xs1 c xs2) ∧
    sorts_at xs1 xs2) as (xs1 & xs2 & E & Er & Hsort).
  { destruct (is_dir (type oc)) eqn:Et; [by apply add_dir_place|by apply add_leaf_place]. }
  exists xs1, xs2. split; [done|]. split; [exact Er|]. pose proof Hk as Hk'. pose proof Hd as Hd'. rewrite E in Hk', Hd'.
  destruct (proj1 (Forall2_app_inv_l _ _ _ _) (ko_tags _ _ _ _ Hk')) as (es1 & es2 & F1 & F2 & Ees).
  destruct (Hsort es1 es2 Ees F1 F2) as [S1 S2]. rewrite Ees in Hk'. apply (inv_place m kids d xs1 xs2 c o n es1 es2 oc); try done.
  - by eapply Forall2_length.
  - apply sorted_tail; [|done]. eapply sorted_app_r, ko_sorted, Hk'.
  - rewrite <- Ees. apply (not_named _ _ _ _ (ko_tags _ _ _ _ Hk) Hnew).
Qed.
End add.

(** Adding [c] to directory [d]: a name that is there already is refused and nothing
    changes; a new one is put in its place, and the columns grow with it. *)
Lemma cfg_add_ok m kids d c xs oc od n : cfg_inv m kids → kids !! d = Some xs → objs m !! c = Some oc → objs m !! d = Some od → ext od = XDir n →
  match List.find (named (objs m) (name oc)) xs with
  | Some _ => tt_cfgdir_add d c m = Ret (TT_ERROR TT_FAIL, m)
  | None => parent m c = None → ¬ below m c d → ∃ xs1 xs2, xs = xs1 ++ xs2 ∧
      let m' := placed (widened d (Z.max n (width (tag oc))) m) d xs1 c xs2 in
      tt_cfgdir_add d c m = Ret (TT_SUCCESS tt, m') ∧ cfg_inv m' (<[d := xs1 ++ c :: xs2]> kids)
  end.
Proof.
  intros Hinv Hd Hc Ho En. unfold tt_cfgdir_add. erewrite bind_step by (apply obj_step; exact Hc). erewrite bind_step by (apply (cfg_find_ok m kids Hinv d); exact Hd).
  destruct (List.find (named (objs m) (name oc)) xs) eqn:Ef; [done|]. intros Hroot Hnb. cbn [is_null].
  destruct (proj1 (ci_dir _ _ Hinv d)) as (od' & Ho' & Et); [by eexists|]. assert (od' = od) as -> by congruence.
  pose proof (ok_len _ (ci_obj _ _ Hinv c oc Hc)) as Hl. pose proof (zlen_nonneg (name oc)) as Hz.
  set (w := if is_dir (type oc) then u32 (u32 (zlen (name oc)) + 1) else u32 (zlen (name oc))).
  assert (w = width (tag oc)) as Hw by (subst w; unfold width, tag; cbn; destruct (is_dir (type oc)); rewrite ?u32_small by (rewrite ?u32_small by lia; lia); lia).
  destruct (widen_ok m kids d od n w Hinv Ho En Et) as [E1 Hinv1]; [rewrite Hw; unfold width, tag, is_u32; cbn; destruct (is_dir _); lia|].
  unfold name_len_of. rewrite (bind_step _ _ m n m) by (rewrite (bind_step _ _ _ _ _ (obj_step _ _ _ Ho)), En; done).
  fold w. erewrite bind_step by exact E1. rewrite Hw in *. set (m1 := widened d _ m) in *.
  assert (∃ od1, objs m1 !! d = Some od1 ∧ ext od1 = XDir (Z.max n (width (tag oc)))) as (od1 & Ho1 & En1).
  { subst m1. unfold widened. rewrite Ho. eexists. cbn. by rewrite lookup_insert_eq. }
  assert (∀ x, tag <$> objs m1 !! x = tag <$> objs m !! x) as Htags.
  { intros x. subst m1. unfold widened. rewrite Ho. cbn. destruct (decide (x = d)) as [->|]; [|by rewrite lookup_insert_ne]. by rewrite lookup_insert_eq, Ho. }
  assert (∃ oc1, objs m1 !! c = Some oc1 ∧ tag oc1 = tag oc) as (oc1 & Hc1 & Htc).
  { pose proof (Htags c) as Ht. rewrite Hc in Ht. destruct (objs m1 !! c) as [oc1|]; [|done]. exists oc1. cbn in Ht. split; [done|congruence]. }
  assert (links m1 = links m) as Hlk by (subst m1; unfold widened; by rewrite Ho).
  erewrite bind_step by (apply (cfg_head_ok m1 kids Hinv1 d xs Hd)). erewrite (bind_step (gets fuel_of)) by done.
  destruct (ci_kids _ _ Hinv1 d xs Hd) as (od2 & n2 & es & Ho2 & En2 & Hk2). assert (n2 = Z.max n (width (tag oc))) as -> by congruence.
  injection Htc as Htd Htn. rewrite <- Htd, <- Htn.
  destruct (add_place m1 kids Hinv1 d c xs oc1 Hd Hc1) with (o := od2) (n := Z.max n (width (tag oc))) (es := es) as (xs1 & xs2 & E2 & E3 & Hi); try done.
  - unfold parent. by rewrite Hlk.
  - intros (l & Hu & Hin). apply Hnb. exists l. split; [|done]. eapply up_ext; [exact Hu|]. intros y _. unfold parent. by rewrite Hlk.
  - rewrite Htn, <- Ef. clear -Htags. induction xs as [|x xs IH]; [done|]. cbn. rewrite IH. pose proof (Htags x) as Ht. unfold named.
    destruct (objs m1 !! x) as [a|], (objs m !! x) as [b|]; try done. injection Ht as _ Ht. by rewrite Ht.
  - unfold tag. rewrite Htd, Htn. fold (tag oc). lia.
  - by exists xs1, xs2.
Qed.

(** ** Creating *)

Definition alloc_kids (x : key) (o : tt_cfgobj_t) (kids : gmap key (list key)) : gmap key (list key) :=
  if is_dir (type o) then <[x := []]> kids else kids.

Lemma lrep_new_node h σ x : lrep h σ → nodes h !! x = None → lrep (mk_lmem (<[x := lnode_blank]> (nodes h)) (lists h)) σ.
Proof.
  intros Hr Hx. constructor; cbn.
  - intros L xs HL. destruct (rep_list _ _ Hr L xs HL) as (? & ? & Hl). split_and!; try done. apply linked_insert; [|done].
    intros Hin. destruct (rep_in _ _ Hr L xs x HL Hin) as (v & Hv & _). congruence.
  - intros y v. destruct (decide (y = x)) as [->|]; [|rewrite lookup_insert_ne by done; apply (rep_node _ _ Hr)]. rewrite lookup_insert_eq. by intros [= <-].
  - apply (rep_dom _ _ Hr).
Qed.
Lemma lrep_new_list h σ x : lrep h σ → σ !! x = None → lrep (mk_lmem (nodes h) (<[x := mk_list None None 0]> (lists h))) (<[x := []]> σ).
Proof.
  intros Hr Hx. constructor; cbn.
  - intros L xs. destruct (decide (L = x)) as [->|]; [|rewrite !lookup_insert_ne by done; apply (rep_list _ _ Hr)]. rewrite !lookup_insert_eq.
    intros [= <-]. split_and!; [done|apply NoDup_nil_2|done].
  - intros y v Hy. pose proof (rep_node _ _ Hr y v Hy) as Hn. destruct (lst v) as [L|]; [|done]. destruct Hn as (xs & HL & ?). exists xs.
    rewrite lookup_insert_ne; [done|congruence].
  - intros L l. destruct (decide (L = x)) as [->|]; [|rewrite !lookup_insert_ne by done; apply (rep_dom _ _ Hr)]. rewrite !lookup_insert_eq. by eexists.
Qed.

Lemma obj_dir_ext o : obj_ok o → is_dir (type o) = match ext o with XDir _ => true | _ => false end.
Proof. intros [_ _ Hx]. unfold ext_ok in Hx. by destruct (type o), (ext o). Qed.

Lemma inv_alloc m kids x o : cfg_inv m kids → objs m !! x = None → obj_ok o → (∀ n, ext o = XDir n → n = 0) →
  cfg_inv (cfg_alloc x o m) (alloc_kids x o kids).
Proof.
  intros Hinv Hx Hok Hw.
  assert (nodes (links m) !! x = None) as Hn.
  { destruct (nodes (links m) !! x) eqn:E; [|done]. destruct (proj1 (ci_node _ _ Hinv x)) as [? E']; [by eexists|]. congruence. }
  assert (kids !! x = None) as Hk.
  { destruct (kids !! x) eqn:E; [|done]. destruct (proj1 (ci_dir _ _ Hinv x)) as (? & E' & _); [by eexists|]. congruence. }
  assert (∀ y, parent (cfg_alloc x o m) y = parent m y) as Hp.
  { intros y. unfold parent. cbn. destruct (decide (y = x)) as [->|]; [|by rewrite lookup_insert_ne]. by rewrite lookup_insert_eq, Hn. }
  assert (∀ n xs es, kids_ok (objs m) n xs es → kids_ok (<[x := o]> (objs m)) n xs es) as Hks.
  { intros n xs es [Ht ? ? ?]. constructor; try done. eapply Forall2_impl; [exact Ht|]. intros y e Hy. cbn in *. rewrite lookup_insert_ne; [done|]. intros <-. by rewrite Hx in Hy. }
  unfold alloc_kids. pose proof (obj_dir_ext o Hok) as Hd. constructor; cbn [links objs cfg_alloc].
  - pose proof (lrep_new_node _ _ x (ci_lrep _ _ Hinv) Hn) as Hr. destruct (ext o); rewrite Hd; [by apply (lrep_new_list _ _ _ Hr)|done..].
  - intros y. cbn. destruct (decide (y = x)) as [->|]; [rewrite !lookup_insert_eq; by split; eexists|rewrite !lookup_insert_ne by done; apply (ci_node _ _ Hinv)].
  - intros y p. destruct (decide (y = x)) as [->|]; [rewrite lookup_insert_eq; by intros [= <-]|rewrite lookup_insert_ne by done; apply (ci_obj _ _ Hinv)].
  - intros y. destruct (decide (y = x)) as [->|].
    + rewrite lookup_insert_eq. destruct (is_dir (type o)) eqn:Et.
      * rewrite lookup_insert_eq. apply is_dir_true in Et. split; [by exists o|by eexists].
      * apply is_dir_false in Et. rewrite Hk. split; [by intros [? ?]|]. intros (? & [= <-] & ?). done.
    + rewrite lookup_insert_ne by done. rewrite <- (ci_dir _ _ Hinv y). destruct (is_dir (type o)); [by rewrite lookup_insert_ne|done].
  - intros d xs Hd'. destruct (decide (d = x)) as [->|].
    + destruct (is_dir (type o)); [|congruence]. rewrite lookup_insert_eq in Hd'. injection Hd' as <-. destruct (ext o) as [n| | | | |] eqn:Ee; try done.
      exists o, n, []. rewrite lookup_insert_eq. split_and!; [done..|]. constructor; cbn; by constructor.
    + assert (kids !! d = Some xs) as Hd'' by (destruct (is_dir (type o)); [by rewrite lookup_insert_ne in Hd'|done]).
      destruct (ci_kids _ _ Hinv d xs Hd'') as (p & k & es & ? & ? & ?). exists p, k, es. rewrite lookup_insert_ne by done. auto.
  - intros y Hy. destruct (decide (y = x)) as [->|].
    + exists []. constructor. rewrite Hp. unfold parent. by rewrite Hn.
    + rewrite lookup_insert_ne in Hy by done. destruct (ci_up _ _ Hinv y Hy) as [l Hl]. exists l. eapply up_ext; done.
Qed.

Definition new_obj (e : cfg_ext) (t : tt_cfgobj_type_t) (n : list Z) (i : tt_cfgobj_itf_t) (op : option key) (attr : option tt_cfgobj_attr_t) : tt_cfgobj_t :=
  let a := default tt_cfgobj_attr_default attr in
  mk_cfgobj n (at_display a) (at_brief a) (at_detail a) i op t (at_need_reboot a) (at_can_read a) (at_can_write a) e.

Lemma cfg_create_ok m x e t n i op attr : t ≠ TT_CFGOBJ_TYPE_NUM → __name_ok n = true →
  tt_cfgobj_create (Some x) e t n i op attr m = Ret (TT_SUCCESS (Some x), cfg_alloc x (new_obj e t n i op attr) m).
Proof.
  intros Ht Hn. unfold tt_cfgobj_create, TT_CFGOBJ_TYPE_VALID. rewrite bool_decide_eq_true_2 by done. erewrite (bind_step (assert_always true)) by done.
  rewrite Hn. cbn [negb]. erewrite (bind_step (modify _)) by done. erewrite bind_step; [done|].
  erewrite in_links_step; [|unfold tt_lnode_init, upd_node; cbn; by rewrite lookup_insert_eq]. cbn. rewrite insert_insert_eq. done.
Qed.

Lemma dir_create_ok m kids x n attr : cfg_inv m kids → objs m !! x = None → __name_ok n = true → zlen n + 1 < 2 ^ 32 →
  let o := new_obj (XDir 0) TT_CFGOBJ_DIR n __cfgdir_itf None attr in
  tt_cfgdir_create (Some x) n attr m = Ret (TT_SUCCESS (Some x), cfg_alloc x o m) ∧ cfg_inv (cfg_alloc x o m) (<[x := []]> kids).
Proof.
  intros Hinv Hx Hn Hl o. assert (obj_ok o) as Hok by (constructor; [done|done|by split]). split.
  - unfold tt_cfgdir_create. erewrite bind_step by (by apply cfg_create_ok). fold o. cbv beta iota.
    erewrite bind_step by (erewrite in_links_step; [done|unfold tt_list_init, upd_list; cbn; by rewrite lookup_insert_eq]).
    erewrite bind_step by (apply upd_obj_step; cbn; by rewrite lookup_insert_eq). cbn. unfold mret, M_ret, ret, put_objs. cbn. by rewrite !insert_insert_eq.
  - apply (inv_alloc m kids x o); [done|done|done|by intros ? [= <-]].
Qed.

(** ** Removing *)

(** The memory after [c] was taken out from between [xs1] and [xs2]. *)
Definition unlinked (m : cfg) (d : key) (xs1 : list key) (c : key) (xs2 : list key) : cfg :=
  put_links (mk_lmem (link_out (nodes (links m)) xs1 c xs2) (<[d := list_of (xs1 ++ xs2)]> (lists (links m)))) m.

Lemma tags_less os n xs1 c xs2 es : kids_ok os n (xs1 ++ c :: xs2) es → ∃ es1 e es2, es = es1 ++ e :: es2 ∧ kids_ok os n (xs1 ++ xs2) (es1 ++ es2).
Proof.
  intros [Ht Hs Hn Hw]. apply Forall2_app_inv_l in Ht as (es1 & l & F1 & F2 & ->). inversion F2 as [|? e ? es2 He F2']; subst.
  exists es1, e, es2. split; [done|]. apply Forall_app in Hw as [Hw1 Hw2]. apply Forall_cons_1 in Hw2 as [_ Hw2]. constructor.
  - by apply Forall2_app.
  - clear -Hs. induction es1 as [|a es1 IH]; cbn in *; apply StronglySorted_inv in Hs as [Hs Ha]; [done|]. constructor; [by apply IH|].
    apply Forall_app in Ha as [? Ha]. apply Forall_cons_1 in Ha as [_ ?]. apply Forall_app. by split.
  - rewrite fmap_app in *. cbn in Hn. apply NoDup_app in Hn as (N1 & N2 & N3). apply NoDup_cons in N3 as [_ N3]. apply NoDup_app. split_and!; [done| |done].
    intros y Hy Hy'. apply (N2 y Hy). by right.
  - apply Forall_app. by split.
Qed.

Section unlink.
Context (m : cfg) (kids : gmap key (list key)) (Hinv : cfg_inv m kids).
Context (d : key) (xs1 : list key) (c : key) (xs2 : list key) (Hd : kids !! d = Some (xs1 ++ c :: xs2)).
Notation m' := (unlinked m d xs1 c xs2).

Lemma unlinked_lrep : lrep (links m') (<[d := xs1 ++ xs2]> kids).
Proof. apply (rep_link_out _ _ (ci_lrep _ _ Hinv) d xs1 xs2 c Hd). Qed.
Lemma kids_nodup : NoDup (xs1 ++ c :: xs2).
Proof. by destruct (rep_list _ _ (ci_lrep _ _ Hinv) d _ Hd) as (_ & ? & _). Qed.
Lemma unlinked_other y : y ≠ c → parent m' y = parent m y.
Proof.
  intros Hy. apply option_eq. intros p. rewrite (parent_lrep m' _ y p unlinked_lrep), (parent_lrep _ _ y p (ci_lrep _ _ Hinv)).
  destruct (decide (p = d)) as [->|]; [|by rewrite lookup_insert_ne]. rewrite lookup_insert_eq, Hd. split; intros (? & [= <-] & ?); eexists; split; try done; set_solver.
Qed.
Lemma unlinked_root : parent m' c = None.
Proof.
  destruct (parent m' c) as [p|] eqn:E; [|done]. apply (parent_lrep m' _ c p unlinked_lrep) in E as (xs & Hp & Hc). pose proof kids_nodup as Hnd.
  apply nodup_parts in Hnd as (_ & _ & N1 & N2 & _). destruct (decide (p = d)) as [->|].
  - rewrite lookup_insert_eq in Hp. injection Hp as <-. apply elem_of_app in Hc as [?|?]; done.
  - rewrite lookup_insert_ne in Hp by done. assert (parent m c = Some p) as H1 by (apply (parent_lrep _ _ _ _ (ci_lrep _ _ Hinv)); by exists xs).
    assert (parent m c = Some d) as H2 by (apply (parent_lrep _ _ _ _ (ci_lrep _ _ Hinv)); eexists; split; [done|set_solver]). congruence.
Qed.
Lemma kid_parent : parent m c = Some d.
Proof. apply (parent_lrep _ _ _ _ (ci_lrep _ _ Hinv)). eexists. split; [done|set_solver]. Qed.

(** An object below [c] has [c] as its root now. *)
Lemma unlinked_up y l : up m y l → ∃ l', up m' y l' ∧ (if decide (c ∈ y :: l) then c ∈ y :: l' ∧ ∃ r, l = l' ++ d :: r else l' = l).
Proof.
  induction 1 as [y Hy|y p l Hy Hp IH].
  - assert (y ≠ c) as Hne by (intros ->; rewrite kid_parent in Hy; done). exists []. rewrite decide_False by set_solver. split; [|done].
    constructor. by rewrite unlinked_other.
  - destruct (decide (y = c)) as [->|Hne].
    + exists []. rewrite decide_True by set_solver. split; [constructor; apply unlinked_root|]. split; [set_solver|]. rewrite kid_parent in Hy. injection Hy as <-. by exists l.
    + destruct IH as (l' & Hl' & IH). exists (p :: l'). assert (c ∈ y :: p :: l ↔ c ∈ p :: l) as Hin by (rewrite (elem_of_cons (p :: l)); clear IH; naive_solver).
      split; [econstructor; [by rewrite unlinked_other|done]|]. destruct (decide (c ∈ p :: l)) as [Hc|Hc].
      * rewrite decide_True by tauto. destruct IH as [IH (r & ->)]. split; [by right|by exists r].
      * rewrite decide_False by tauto. by rewrite IH.
Qed.

Lemma unlinked_inv : cfg_inv m' (<[d := xs1 ++ xs2]> kids).
Proof.
  pose proof unlinked_lrep as Hrep. assert (is_Some (nodes (links m) !! c)) as Hnc by (destruct (rep_in _ _ (ci_lrep _ _ Hinv) d _ c Hd) as (v & Hv & _); [set_solver|by eexists]).
  constructor; [exact Hrep|cbn..].
  - intros x. rewrite <- (ci_node _ _ Hinv). rewrite <- !elem_of_dom. by rewrite link_out_dom.
  - apply (ci_obj _ _ Hinv).
  - intros x. rewrite <- (ci_dir _ _ Hinv). destruct (decide (x = d)) as [->|]; [|by rewrite lookup_insert_ne]. rewrite lookup_insert_eq, Hd. by split; eexists.
  - intros x xs. destruct (decide (x = d)) as [->|]; [|rewrite lookup_insert_ne by done; apply (ci_kids _ _ Hinv)]. rewrite lookup_insert_eq. intros [= <-].
    destruct (ci_kids _ _ Hinv d _ Hd) as (o & n & es & Ho & En & Hk). destruct (tags_less _ _ _ _ _ _ Hk) as (es1 & e & es2 & _ & Hk'). by exists o, n, (es1 ++ es2).
  - intros x Hx. destruct (ci_up _ _ Hinv x Hx) as [l Hl]. destruct (unlinked_up x l Hl) as (l' & ? & _). by exists l'.
Qed.

Lemma cfg_remove_ok : tt_cfgdir_remove d c m = Ret (TT_SUCCESS tt, m').
Proof.
  destruct (rep_in _ _ (ci_lrep _ _ Hinv) d _ c Hd) as (v & Hv & Hl); [set_solver|].
  unfold tt_cfgdir_remove. erewrite bind_step by (apply node_step; exact Hv). rewrite bool_decide_eq_true_2 by done. erewrite (bind_step (assert_always true)) by done.
  by erewrite bind_step by (apply in_links_step, (remove_code _ _ (ci_lrep _ _ Hinv)); exact Hd).
Qed.
End unlink.
