(* ===== verification/CfgDestroy.v ===== *)
(** Destroying a configuration object of [CfgTree]: everything below it is given back,
    once, and nothing else. *)

From S2P Require Import Prelude MemSpring Buffer BufferFormat SshDef BufCommon Str StrSpec LinkedList CfgTree CfgForest.
From stdpp Require Import gmap.

#[local] Open Scope Z_scope.

(** ** Giving a block back *)

Definition freed (x : key) (m : cfg) : cfg :=
  mk_cfg (mk_lmem (delete x (nodes (links m))) (delete x (lists (links m)))) (delete x (objs m)) (vars m).

Lemma lrep_free_node h σ x : lrep h σ → free σ x → (∀ xs, σ !! x = Some xs → xs = []) →
  lrep (mk_lmem (delete x (nodes h)) (delete x (lists h))) (delete x σ).
Proof.
  intros Hr Hf Hk. constructor; cbn.
  - intros L xs HL. apply lookup_delete_Some in HL as [Hne HL]. rewrite lookup_delete_ne by done. destruct (rep_list _ _ Hr L xs HL) as (? & ? & Hl).
    split_and!; try done. eapply linked_ext; [|exact Hl]. intros y Hy. apply lookup_delete_ne. intros ->. by apply (Hf L xs HL).
  - intros y v Hy. apply lookup_delete_Some in Hy as [Hne Hy]. pose proof (rep_node _ _ Hr y v Hy) as Hn. destruct (lst v) as [L|]; [|done].
    destruct Hn as (xs & HL & Hin). exists xs. split; [|done]. rewrite lookup_delete_ne; [done|]. intros ->. rewrite (Hk xs HL) in Hin. by apply not_elem_of_nil in Hin.
  - intros L l HL. apply lookup_delete_Some in HL as [Hne HL]. rewrite lookup_delete_ne by done. by apply (rep_dom _ _ Hr L l).
Qed.

Section free.
Context (m : cfg) (kids : gmap key (list key)) (Hinv : cfg_inv m kids) (x : key) (o : tt_cfgobj_t).
Context (Hx : objs m !! x = Some o) (Hroot : parent m x = None) (Hleaf : ∀ xs, kids !! x = Some xs → xs = []).

Lemma freed_parent y : y ≠ x → parent (freed x m) y = parent m y.
Proof. intros Hy. unfold parent. cbn. by rewrite lookup_delete_ne. Qed.
Lemma leaf_below y l : up m y l → x ∉ l.
Proof.
  induction 1 as [|y p l Hy Hp IH]; [by intros ?%not_elem_of_nil|]. intros [<-|?]%elem_of_cons; [|done].
  apply (parent_kids m kids Hinv) in Hy as (xs & Hk & Hin). rewrite (Hleaf xs Hk) in Hin. by apply not_elem_of_nil in Hin.
Qed.

Lemma inv_free : cfg_inv (freed x m) (delete x kids).
Proof.
  assert (free kids x) as Hf by (apply (free_root m kids Hinv); [by eexists|done]).
  constructor; cbn [freed links objs].
  - apply lrep_free_node; [apply Hinv|done|done].
  - intros y. cbn. rewrite !lookup_delete_is_Some, (ci_node _ _ Hinv y). done.
  - intros y p Hy. apply lookup_delete_Some in Hy as [_ Hy]. by eapply ci_obj.
  - intros y. rewrite lookup_delete_is_Some, (ci_dir _ _ Hinv y). split.
    + intros [Hne (p & ? & ?)]. exists p. by rewrite lookup_delete_ne.
    + intros (p & Hy & ?). apply lookup_delete_Some in Hy as [Hne Hy]. split; [done|by exists p].
  - intros d xs Hd. apply lookup_delete_Some in Hd as [Hne Hd]. destruct (ci_kids _ _ Hinv d xs Hd) as (p & n & es & ? & ? & [Ht ? ? ?]).
    exists p, n, es. rewrite lookup_delete_ne by done. split_and!; try done. constructor; try done. rewrite Forall2_lookup in *. intros i. specialize (Ht i).
    destruct (xs !! i) as [y|] eqn:Ey; inversion Ht; subst; constructor. rewrite lookup_delete_ne; [done|]. intros <-. apply (Hf d xs Hd). by eapply list_elem_of_lookup_2.
  - intros y [p Hy]. apply lookup_delete_Some in Hy as [Hne Hy]. destruct (ci_up _ _ Hinv y) as [l Hl]; [by eexists|]. exists l. eapply up_ext; [exact Hl|].
    intros z Hz. apply freed_parent. intros ->. apply elem_of_cons in Hz as [?|Hz]; [done|]. by apply (leaf_below y l).
Qed.
Lemma free_step : cfg_free x m = Ret (TT_SUCCESS tt, freed x m).
Proof. unfold cfg_free. by rewrite Hx. Qed.
End free.

(** ** What is left *)

(** From [m] to [m'] exactly the objects in [S] disappeared; the rest is as it was,
    but for the children of [r]. *)
Record pruned (r : key) (S : key → Prop) (m : cfg) (kids : gmap key (list key)) (m' : cfg) (kids' : gmap key (list key)) : Prop := {
  pr_inv : cfg_inv m' kids';
  pr_sub y o : objs m' !! y = Some o → objs m !! y = Some o ∧ ¬ S y;
  pr_keep y o : objs m !! y = Some o → ¬ S y → objs m' !! y = Some o;
  pr_kids y : is_Some (objs m' !! y) → y ≠ r → kids' !! y = kids !! y;
  pr_parent y : is_Some (objs m' !! y) → parent m' y = parent m y;
  pr_vars : vars m' = vars m;
}.

Section loop.
Context (x : key).

(** Objects below [x], [x] less. *)
Definition under (m : cfg) (y : key) : Prop := below m x y ∧ y ≠ x.

Context (m : cfg) (kids : gmap key (list key)) (Hinv : cfg_inv m kids) (Hroot : parent m x = None) (Hx : is_Some (objs m !! x)).
Context (xs : list key) (c : key) (Hk : kids !! x = Some (xs ++ [c])).
Notation m1 := (unlinked m x xs c []).
Notation kids1 := (<[x := xs ++ []]> kids).
Context (m2 : cfg) (kids2 : gmap key (list key)) (Hp : pruned c (below m1 c) m1 kids1 m2 kids2).

Lemma chain_below y l : up m y l → c ∈ y :: l → below m1 c y ∧ below m x y ∧ y ≠ x.
Proof.
  intros Hl Hc. destruct (unlinked_up m kids Hinv x xs c [] Hk y l Hl) as (l' & Hl' & Hd). rewrite decide_True in Hd by done. destruct Hd as [Hc' (r & ->)].
  split; [by exists l'|]. split; [exists (l' ++ x :: r); split; [done|set_solver]|]. intros ->. inversion Hl as [? E E2|]; [by destruct l'|congruence].
Qed.
Lemma below_chain y l : up m y l → below m1 c y → c ∈ y :: l.
Proof.
  intros Hl (l' & Hl' & Hc). destruct (unlinked_up m kids Hinv x xs c [] Hk y l Hl) as (l'' & Hl'' & Hd). rewrite (up_fun _ _ _ _ Hl' Hl'') in *.
  case_decide; [done|]. by subst.
Qed.
(** Chains that avoid [c] are the same in all three memories. *)
Lemma chain_kept y l : is_Some (objs m !! y) → up m y l → c ∉ y :: l → up m2 y l ∧ is_Some (objs m2 !! y).
Proof.
  intros Hy Hl Hc. destruct (unlinked_up m kids Hinv x xs c [] Hk y l Hl) as (l' & Hl' & Hd). rewrite decide_False in Hd by done. subst l'.
  assert (∀ z, z ∈ y :: l → is_Some (objs m2 !! z)) as Hz.
  { intros z Hz. assert (is_Some (objs m !! z)) as [oz Hoz].
    { apply elem_of_cons in Hz as [->|Hz]; [done|]. pose proof (up_known m kids Hinv y l Hl) as Hkn. rewrite Forall_forall in Hkn. by apply Hkn. }
    exists oz. apply (pr_keep _ _ _ _ _ _ Hp z oz); [done|]. intros Hb.
    assert (∃ l2, up m z l2 ∧ ∀ w, w ∈ z :: l2 → w ∈ y :: l) as (l2 & Hl2 & Hsub).
    { apply elem_of_cons in Hz as [->|(la & lb & ->)%list_elem_of_split]; [by exists l|]. exists lb. split; [by eapply up_split|]. set_solver. }
    apply Hc, Hsub. by apply below_chain. }
  split; [|apply Hz; by left]. eapply up_ext; [exact Hl'|]. intros z Hin. apply (pr_parent _ _ _ _ _ _ Hp). by apply Hz.
Qed.
Lemma chain_back y l : is_Some (objs m2 !! y) → up m2 y l → up m y l ∧ c ∉ y :: l.
Proof.
  intros Hy Hl. pose proof (up_known m2 kids2 (pr_inv _ _ _ _ _ _ Hp) y l Hl) as Hkn. rewrite Forall_forall in Hkn.
  assert (∀ z, z ∈ y :: l → is_Some (objs m2 !! z)) as Hz by (intros z [->|Hz]%elem_of_cons; [done|by apply Hkn]).
  assert (c ∉ y :: l) as Hc.
  { intros Hc. destruct (Hz c Hc) as [oc Hoc]. apply (pr_sub _ _ _ _ _ _ Hp) in Hoc as [_ Hnb]. apply Hnb. exists []. split; [|set_solver].
    constructor. by eapply unlinked_root. }
  split; [|done]. eapply up_ext; [exact Hl|]. intros z Hin. rewrite (pr_parent _ _ _ _ _ _ Hp z) by by apply Hz. symmetry. apply (unlinked_other m kids Hinv x xs c [] Hk).
  by intros ->.
Qed.

Lemma pruned_step m3 kids3 : pruned x (under m2) m2 kids2 m3 kids3 → pruned x (under m) m kids m3 kids3.
Proof.
  intros Hp3. constructor.
  - apply Hp3.
  - intros y o Hy. apply (pr_sub _ _ _ _ _ _ Hp3) in Hy as [Hy H3]. pose proof Hy as Hy2. apply (pr_sub _ _ _ _ _ _ Hp) in Hy as [Hy H2]. split; [done|].
    intros [(l & Hl & Hin) Hne]. assert (c ∉ y :: l) as Hc by (intros Hc; apply H2; by eapply chain_below).
    apply H3. split; [|done]. exists l. split; [|done]. eapply chain_kept; [by eexists|done|done].
  - intros y o Hy HS. destruct (ci_up _ _ Hinv y) as [l Hl]; [by eexists|].
    assert (c ∉ y :: l) as Hc by (intros Hc; apply HS; split; by eapply chain_below).
    apply (pr_keep _ _ _ _ _ _ Hp3); [apply (pr_keep _ _ _ _ _ _ Hp); [done|]|].
    + intros Hb. by apply Hc, below_chain.
    + intros [(l2 & Hl2 & Hin) Hne]. destruct (chain_kept y l) as [Hl' _]; [by eexists|done|done|]. rewrite (up_fun _ _ _ _ Hl2 Hl') in Hin. apply HS. split; [by exists l|done].
  - intros y Hy Hne. rewrite (pr_kids _ _ _ _ _ _ Hp3 y Hy Hne). destruct Hy as [o Hy]. apply (pr_sub _ _ _ _ _ _ Hp3) in Hy as [Hy _].
    rewrite (pr_kids _ _ _ _ _ _ Hp y); [by rewrite lookup_insert_ne|by eexists|]. intros ->. apply (pr_sub _ _ _ _ _ _ Hp) in Hy as [_ Hnb]. apply Hnb.
    exists []. split; [|set_solver]. constructor. by eapply unlinked_root.
  - intros y Hy. rewrite (pr_parent _ _ _ _ _ _ Hp3 y Hy). destruct Hy as [o Hy]. apply (pr_sub _ _ _ _ _ _ Hp3) in Hy as [Hy _].
    rewrite (pr_parent _ _ _ _ _ _ Hp y) by by eexists. apply (unlinked_other m kids Hinv x xs c [] Hk). intros ->.
    apply (pr_sub _ _ _ _ _ _ Hp) in Hy as [_ Hnb]. apply Hnb. exists []. split; [|set_solver]. constructor. by eapply unlinked_root.
  - rewrite (pr_vars _ _ _ _ _ _ Hp3), (pr_vars _ _ _ _ _ _ Hp). done.
Qed.
End loop.

(** ** Destroying *)

(** The calls below [x] nest less than [h] deep. *)
Definition high (m : cfg) (x : key) (h : nat) : Prop :=
  ∀ y l, is_Some (objs m !! y) → up m y l → x ∈ y :: l → (length l < h)%nat.

Lemma below_self m x : parent m x = None → below m x x.
Proof. intros Hx. exists []. split; [by constructor|set_solver]. Qed.
Lemma root_below m x y l : parent m x = None → up m x l → y ∈ x :: l → y = x.
Proof. intros Hx Hl. inversion Hl; subst; [set_solver|congruence]. Qed.

Section destroy.
Context `{Allocator}.

Definition destroys (destroy : key → M cfg unit) (f : nat) : Prop :=
  ∀ m kids c, cfg_inv m kids → is_Some (objs m !! c) → parent m c = None → high m c f →
  ∃ m' kids', destroy c m = Ret (TT_SUCCESS tt, m') ∧ pruned c (below m c) m kids m' kids'.

Lemma destroy_loop_ok destroy f x : destroys destroy f → ∀ n xs m kids,
  cfg_inv m kids → kids !! x = Some xs → is_Some (objs m !! x) → parent m x = None → (length xs < n)%nat → high m x (S f) →
  ∃ m' kids', destroy_loop destroy n x m = Ret (TT_SUCCESS tt, m') ∧ pruned x (under x m) m kids m' kids' ∧ kids' !! x = Some [].
Proof.
  intros IHd. induction n as [|n IH]; intros xs m kids Hinv Hk Hx Hroot Hn Hh; [lia|]. cbn [destroy_loop].
  destruct (snoc_cases xs) as [->|(xs' & c & ->)].
  - erewrite bind_step by (apply in_links_look, (pop_tail_empty _ _ (ci_lrep _ _ Hinv)); exact Hk). exists m, kids. split; [done|]. split; [|done].
    assert (∀ y, ¬ under x m y) as Hu.
    { intros y [(l & Hl & Hin) Hne]. apply elem_of_cons in Hin as [?|Hin]; [done|]. eapply (leaf_below m kids Hinv x); [|exact Hl|done]. intros ? E. congruence. }
    by constructor.
  - erewrite bind_step by (apply in_links_step, (pop_tail_code _ _ (ci_lrep _ _ Hinv)); exact Hk). cbv beta iota.
    assert (put_links (mk_lmem (link_out (nodes (links m)) xs' c []) (<[x := list_of xs']> (lists (links m)))) m = unlinked m x xs' c []) as -> by (unfold unlinked; by rewrite app_nil_r).
    pose proof (unlinked_inv m kids Hinv x xs' c [] Hk) as Hinv1. pose proof (unlinked_root m kids Hinv x xs' c [] Hk) as Hroot1.
    destruct (IHd _ _ c Hinv1) as (m2 & kids2 & E2 & Hp); [|done| |].
    { apply (kid_known m kids Hinv x _ c Hk). set_solver. }
    { intros y l' Hy Hl' Hc. destruct (ci_up _ _ Hinv y Hy) as [l Hl]. pose proof (below_chain x m kids Hinv xs' c Hk y l Hl) as Hin.
      specialize (Hin ltac:(by exists l')). destruct (unlinked_up m kids Hinv x xs' c [] Hk y l Hl) as (l'' & Hl'' & Hd). rewrite (up_fun _ _ _ _ Hl' Hl'') in *.
      rewrite decide_True in Hd by done. destruct Hd as [_ (r & ->)]. specialize (Hh y _ Hy Hl ltac:(set_solver)). rewrite length_app in Hh. simpl in Hh. lia. }
    erewrite bind_step by exact E2. pose proof (up_root _ _ Hroot) as Hux.
    assert (c ≠ x) as Hcx by (intros ->; rewrite (kid_parent m kids Hinv x xs' x [] Hk) in Hroot; done).
    destruct (chain_kept x m kids Hinv Hroot Hx xs' c Hk m2 kids2 Hp x [] Hx Hux) as [Hux2 Hx2]; [set_solver|].
    destruct (IH xs' m2 kids2) as (m3 & kids3 & E3 & Hp3 & Hk3).
    { apply Hp. } { rewrite (pr_kids _ _ _ _ _ _ Hp) by done. by rewrite lookup_insert_eq, app_nil_r. } { done. } { by apply up_parent in Hux2. }
    { rewrite length_app in Hn. simpl in Hn. lia. }
    { intros y l Hy Hl Hin. destruct (chain_back x m kids Hinv Hroot Hx xs' c Hk m2 kids2 Hp y l Hy Hl) as [Hl' _]. destruct Hy as [o Hy]. apply (pr_sub _ _ _ _ _ _ Hp) in Hy as [Hy _].
      apply (Hh y l); [by eexists|done|done]. }
    exists m3, kids3. split; [exact E3|]. split; [|done]. by eapply pruned_step.
Qed.

(** An object that has no children is freed alone. *)
Lemma pruned_free m kids x o : cfg_inv m kids → objs m !! x = Some o → parent m x = None → (∀ xs, kids !! x = Some xs → xs = []) →
  pruned x (eq x) m kids (freed x m) (delete x kids).
Proof.
  intros Hinv Hx Hroot Hleaf. constructor; cbn [freed objs].
  - by eapply inv_free.
  - intros y p Hy. apply lookup_delete_Some in Hy as [? ?]. by split.
  - intros y p Hy Hne. by rewrite lookup_delete_ne.
  - intros y _ Hne. by rewrite lookup_delete_ne.
  - intros y [p Hy]. apply lookup_delete_Some in Hy as [Hne _]. by apply freed_parent.
  - done.
Qed.
(** Dropping the rest, then the object. *)
Lemma pruned_join x m kids m1 kids1 : cfg_inv m kids → parent m x = None → is_Some (objs m !! x) → pruned x (under x m) m kids m1 kids1 → kids1 !! x = Some [] →
  (∃ o, objs m1 !! x = Some o) ∧ pruned x (below m x) m kids (freed x m1) (delete x kids1).
Proof.
  intros Hinv Hroot [o Hx] Hp Hk. assert (objs m1 !! x = Some o) as Hx1 by (apply (pr_keep _ _ _ _ _ _ Hp); [done|by intros [_ ?]]).
  split; [by exists o|]. assert (parent m1 x = None) as Hroot1 by (rewrite (pr_parent _ _ _ _ _ _ Hp); [done|by eexists]).
  pose proof (pruned_free m1 kids1 x o (pr_inv _ _ _ _ _ _ Hp) Hx1 Hroot1) as Hf. specialize (Hf ltac:(intros ? E; congruence)). constructor.
  - apply Hf.
  - intros y p Hy. apply (pr_sub _ _ _ _ _ _ Hf) in Hy as [Hy Hne]. apply (pr_sub _ _ _ _ _ _ Hp) in Hy as [Hy Hu]. split; [done|]. intros Hb. apply Hu. by split.
  - intros y p Hy Hb. apply (pr_keep _ _ _ _ _ _ Hf); [apply (pr_keep _ _ _ _ _ _ Hp); [done|by intros [? _]]|]. intros <-. by apply Hb, below_self.
  - intros y Hy Hne. rewrite (pr_kids _ _ _ _ _ _ Hf y Hy Hne). destruct Hy as [p Hy]. apply (pr_sub _ _ _ _ _ _ Hf) in Hy as [Hy _].
    apply (pr_kids _ _ _ _ _ _ Hp); [by eexists|done].
  - intros y Hy. rewrite (pr_parent _ _ _ _ _ _ Hf y Hy). destruct Hy as [p Hy]. apply (pr_sub _ _ _ _ _ _ Hf) in Hy as [Hy _]. apply (pr_parent _ _ _ _ _ _ Hp). by eexists.
  - rewrite (pr_vars _ _ _ _ _ _ Hf). apply Hp.
Qed.

Lemma root_alone m kids x y : cfg_inv m kids → (∀ xs, kids !! x = Some xs → xs = []) → below m x y → x = y.
Proof.
  intros Hinv Hleaf (l & Hl & Hin). apply elem_of_cons in Hin as [?|Hin]; [done|]. by destruct (leaf_below m kids Hinv x Hleaf y l Hl).
Qed.
Lemma pruned_iff x S S' m kids m' kids' : (∀ y, S y ↔ S' y) → pruned x S m kids m' kids' → pruned x S' m kids m' kids'.
Proof.
  intros He []. constructor; try done.
  - intros y o Hy. rewrite <- He. by apply pr_sub0.
  - intros y o Hy HS. apply pr_keep0; [done|]. by rewrite He.
Qed.

Lemma cdir_destroy_ok f x m kids : destroys (cfgobj_destroy f) f → cfg_inv m kids → is_Some (kids !! x) → parent m x = None → high m x (S f) →
  ∃ m1 kids1, __cdir_on_destroy (cfgobj_destroy f) x m = Ret (TT_SUCCESS tt, m1) ∧ pruned x (under x m) m kids m1 kids1 ∧ kids1 !! x = Some [].
Proof.
  intros IH Hinv [xs Hk] Hroot Hh. destruct (proj1 (ci_dir _ _ Hinv x)) as (o & Hx & _); [by eexists|].
  destruct (proj2 (ci_node _ _ Hinv x)) as [v Hv]; [by eexists|]. unfold __cdir_on_destroy. erewrite bind_step by (apply node_step; exact Hv).
  assert (lst v = None) as -> by (unfold parent in Hroot; by rewrite Hv in Hroot). cbn [is_null].
  erewrite (bind_step (assert_always true)) by done. erewrite (bind_step (gets fuel_of)) by done.
  apply (destroy_loop_ok _ f x IH _ xs); [done|done|by eexists|done|by apply (fuel_enough m kids Hinv x [])|done].
Qed.

(** An object without children, whose block was written to before it is freed. *)
Lemma leaf_destroyed m kids x o o' : cfg_inv m kids → objs m !! x = Some o → parent m x = None → type o ≠ TT_CFGOBJ_DIR →
  ∃ m' kids', cfg_free x (put_objs (<[x := o']> (objs m)) m) = Ret (TT_SUCCESS tt, m') ∧ pruned x (below m x) m kids m' kids'.
Proof.
  intros Hinv Hx Hroot Ht. assert (∀ xs, kids !! x = Some xs → xs = []) as Hno.
  { intros xs Hk. destruct (proj1 (ci_dir _ _ Hinv x)) as (p & Ho' & ?); [by eexists|]. congruence. }
  exists (freed x m), (delete x kids). split.
  - rewrite (free_step _ x o') by apply lookup_insert_eq. unfold freed. cbn. by rewrite delete_insert_eq.
  - eapply pruned_iff; [|by eapply pruned_free]. intros y. split; [intros <-; by apply below_self|by eapply root_alone].
Qed.

(** Any object that is in no directory. *)
Lemma destroy_ok fuel : destroys (cfgobj_destroy fuel) fuel.
Proof.
  induction fuel as [|f IH]; intros m kids x Hinv [o Hx] Hroot Hh.
  { specialize (Hh x [] ltac:(by eexists) ltac:(by constructor) ltac:(set_solver)). lia. }
  cbn [cfgobj_destroy]. erewrite bind_step by (apply obj_step; exact Hx). cbv beta. pose proof (ci_obj _ _ Hinv x o Hx) as Hok. pose proof (ok_ext _ Hok) as He. unfold ext_ok in He.
  assert (put_objs (<[x := o]> (objs m)) m = m) as Hm by (rewrite insert_id by done; by destruct m).
  assert (type o ≠ TT_CFGOBJ_DIR → on_destroy (itf o) = None → ∃ m' kids', (match on_destroy (itf o) with
      | Some __cdir_on_destroy_f => __cdir_on_destroy (cfgobj_destroy f) x
      | Some __cfgstr_on_destroy_f => __cfgstr_on_destroy x
      | None => mret tt
      end;; cfg_free x) m = Ret (TT_SUCCESS tt, m') ∧ pruned x (below m x) m kids m' kids') as Hplain.
  { intros Ht Hn. rewrite Hn. erewrite (bind_step (mret tt)) by done. destruct (leaf_destroyed m kids x o o Hinv Hx Hroot Ht) as (m' & kids' & E & ?).
    rewrite Hm in E. by exists m', kids'. }
  destruct (type o) eqn:Et, (ext o) eqn:Ee; try done; try (apply Hplain; [done|by rewrite He]); clear Hplain.
  - destruct He as [Hi _]. rewrite Hi. cbn [on_destroy __cfgdir_itf].
    destruct (cdir_destroy_ok f x m kids IH Hinv) as (m1 & kids1 & E & Hp & Hk1); [apply (ci_dir _ _ Hinv); by exists o|done|done|]. erewrite bind_step by exact E.
    destruct (pruned_join x m kids m1 kids1 Hinv Hroot ltac:(by eexists) Hp Hk1) as ((o1 & Ho1) & Hp'). exists (freed x m1), (delete x kids1). split; [by eapply free_step|done].
  - destruct He as [Hi (t & Hs)]. rewrite Hi. cbn [on_destroy __cfgstr_itf]. destruct (buf_destroy_ok str (st_wf _ _ _ Hs)) as (s' & E).
    set (o' := set_ext (XStr on_set s') o).
    assert (__cfgstr_on_destroy x m = Ret (TT_SUCCESS tt, put_objs (<[x := o']> (objs m)) m)) as E1.
    { unfold __cfgstr_on_destroy. erewrite bind_step by (apply obj_step; exact Hx). rewrite Ee. unfold tt_string_destroy. rewrite E. cbn. by apply upd_obj_step. }
    erewrite bind_step by exact E1. apply (leaf_destroyed m kids x o o' Hinv Hx Hroot). congruence.
Qed.

Lemma cfgobj_destroy_ok m kids x : cfg_inv m kids → is_Some (objs m !! x) → parent m x = None →
  ∃ m' kids', tt_cfgobj_destroy x m = Ret (TT_SUCCESS tt, m') ∧ pruned x (below m x) m kids m' kids'.
Proof.
  intros Hinv Hx Hroot. apply destroy_ok; [done..|]. intros y l Hy Hl _. pose proof (up_short m kids Hinv y l Hy Hl). unfold fuel_of. lia.
Qed.
End destroy.
