(* ===== verification/CfgValue.v ===== *)
(** Objects that stand for a variable of the user (init/tt_config_u32.c, tt_config_s32.c,
    tt_config_bool.c, tt_config_string.c, tt_config_exe.c, the readers of
    tt_config_object.c, and tt_strtou32 and tt_strtos32 of
    native/linux-gnu/tt_cstd_api.c): the code; what reading prints and writing accepts. *)

From S2P Require Import Prelude MemSpring Buffer BufferFormat SshDef BufCommon Str StrSpec StrRun SshCodec LinkedList CfgTree CfgForest.
From stdpp Require Import gmap.

#[local] Open Scope Z_scope.

(** ** The C library *)

(** The value of a digit in base [base]. *)
Definition digit_of (base c : Z) : option Z :=
  let v := if (48 <=? c) && (c <=? 57) then c - 48
           else if (97 <=? c) && (c <=? 122) then c - 87
           else if (65 <=? c) && (c <=? 90) then c - 55
           else 36 in
  if v <? base then Some v else None.
Definition is_digit (base c : Z) : bool := match digit_of base c with Some _ => true | None => false end.

(** The number at the start of [s] and what follows it. *)
Fixpoint scan_num (base acc : Z) (s : list Z) : Z * list Z :=
  match s with
  | [] => (acc, [])
  | c :: s' => match digit_of base c with Some v => scan_num base (acc * base + v) s' | None => (acc, s) end
  end.

(** A number with the prefix of its base, if there is a digit. *)
Definition num_at (s : list Z) : option (Z * list Z) :=
  match s with
  | [] => None
  | c :: s2 =>
      if c =? 48 then
        match s2 with
        | x :: h :: _ => if ((x =? 120) || (x =? 88)) && is_digit 16 h then Some (scan_num 16 0 (tail s2)) else Some (scan_num 8 0 s)
        | _ => Some (scan_num 8 0 s)
        end
      else if is_digit 10 c then Some (scan_num 10 0 s)
      else None
  end.

(** [strtoul] and [strtol] with base 0, less the final conversion: the number with its
    sign and the place of [endptr], which is the start if there is no digit. *)
Definition strto (s : list Z) : Z * list Z :=
  let s1 := match s with c :: s' => if (c =? 43) || (c =? 45) then s' else s | [] => s end in
  let neg := match s with c :: _ => c =? 45 | [] => false end in
  match num_at s1 with
  | Some (v, e) => (if neg then - v else v, e)
  | None => (0, s)
  end.
Definition ULONG_MAX : Z := 2 ^ 64 - 1.
Definition LONG_MAX : Z := 2 ^ 63 - 1.
Definition strtoul (s : list Z) : Z * list Z :=
  let '(v, e) := strto s in (if ULONG_MAX <? Z.abs v then ULONG_MAX else u64 v, e).
Definition strtol (s : list Z) : Z * list Z :=
  let '(v, e) := strto s in (Z.max (- LONG_MAX - 1) (Z.min LONG_MAX v), e).

(** ** tt_strtou32 and tt_strtos32 *)

Fixpoint skip_space (s : list Z) : list Z :=
  match s with c :: s' => if isspace c then skip_space s' else s | [] => [] end.

(** [endptr] points at the end or at a white space. *)
Definition ends_well (e : list Z) : bool := match e with [] => true | c :: _ => isspace c end.

(** With 64-bit longs the test for ULONG_MAX is covered by the one that follows it. *)
Definition tt_strtou32 (s : list Z) : result Z :=
  match skip_space s with
  | [] => TT_ERROR TT_FAIL
  | c :: s' =>
      if c =? 45 then TT_ERROR TT_FAIL
      else
        let '(v, e) := strtoul (c :: s') in
        if negb (ends_well e) then TT_ERROR TT_FAIL
        else if 0xFFFFFFFF <? v then TT_ERROR TT_FAIL
        else TT_SUCCESS (u32 (s32 v))
  end.
Definition tt_strtos32 (s : list Z) : result Z :=
  match skip_space s with
  | [] => TT_ERROR TT_FAIL
  | s' =>
      let '(v, e) := strtol s' in
      if negb (ends_well e) then TT_ERROR TT_FAIL
      else if (0x7FFFFFFF <? v) || (v <? - 2 ^ 31) then TT_ERROR TT_FAIL
      else TT_SUCCESS (s32 v)
  end.

(** ** The user *)

(** A value that is passed to the user. *)
Inductive cfg_val : Type := CU32 (v : Z) | CS32 (v : Z) | CBool (v : bool) | CStr (s : list Z).

(** The functions of the user, by their addresses: what [on_set] does to the
    variables, and what an executable object does to them and to the output; it
    returns the status. *)
Class CfgUser := {
  call_on_set (f : Z) (co : key) (v : cfg_val) : gmap key cfg_var → exec (gmap key cfg_var);
  call_run (f : Z) (co : key) (argv : list (list Z)) (line_sep : list Z) : M (gmap key cfg_var * tt_buf_t) Z;
}.

Section value.
Context `{Allocator} `{CfgUser}.

Definition set_by (f : option Z) (co : key) (v : cfg_val) : M cfg unit :=
  match f with
  | None => mret tt
  | Some f => λ m, exec_bind (call_on_set f co v (vars m)) (λ vs, Ret (TT_SUCCESS tt, put_vars vs m))
  end.

(** ** Creating *)

Definition some_ext (x : cfg_ext) (r : option key) : M cfg (option key) :=
  match r with None => mret None | Some co => upd_obj co (set_ext x);; mret (Some co) end.

Definition tt_cfgu32_create (addr : option key) (n : list Z) (p_u32 : key) (attr : option tt_cfgobj_attr_t) (cb : option (option Z)) : M cfg (option key) :=
  r ← tt_cfgobj_create addr (XU32 None) TT_CFGOBJ_U32 n __cfgu32_itf (Some p_u32) attr;
  some_ext (XU32 (match cb with Some on_set => on_set | None => None end)) r.
Definition tt_cfgs32_create (addr : option key) (n : list Z) (p_s32 : key) (attr : option tt_cfgobj_attr_t) (cb : option (option Z)) : M cfg (option key) :=
  r ← tt_cfgobj_create addr (XS32 None) TT_CFGOBJ_S32 n __cfgs32_itf (Some p_s32) attr;
  some_ext (XS32 (match cb with Some on_set => on_set | None => None end)) r.
(** The callbacks are copied without a test for the null pointer. *)
Definition tt_cfgbool_create (addr : option key) (n : list Z) (p_bool : key) (attr : option tt_cfgobj_attr_t) (cb : option (option Z)) : M cfg (option key) :=
  r ← tt_cfgobj_create addr (XBool None) TT_CFGOBJ_BOOL n __cfgbool_itf (Some p_bool) attr;
  match r, cb with
  | Some _, None => undef
  | _, _ => some_ext (XBool (match cb with Some on_set => on_set | None => None end)) r
  end.
(** [zero] is the string as zeroed memory, which the initialisation overwrites. *)
Definition tt_cfgstr_create (zero : tt_string_t) (addr : option key) (n : list Z) (p_str : key) (attr : option tt_cfgobj_attr_t) (cb : option (option Z)) : M cfg (option key) :=
  r ← tt_cfgobj_create addr (XStr None zero) TT_CFGOBJ_STRING n __cfgstr_itf (Some p_str) attr;
  match r with
  | None => mret None
  | Some _ => s ← access (tt_string_init None); some_ext (XStr (match cb with Some on_set => on_set | None => None end) s) r
  end.
Definition tt_cfgexe_create (addr : option key) (n : list Z) (attr : option tt_cfgobj_attr_t) (run : option Z) : M cfg (option key) :=
  match run with
  | None => crash
  | Some run =>
      r ← tt_cfgobj_create addr (XExe 0) TT_CFGOBJ_EXE n __cfgexe_itf None attr;
      some_ext (XExe run) r
  end.

(** ** Reading: what is printed does not change the configuration [m] *)

Definition at_obj (m : cfg) (co : key) : exec tt_cfgobj_t := match objs m !! co with Some o => Ret o | None => Undef end.
Definition at_var (m : cfg) (p : option key) : exec cfg_var :=
  match p with Some p => match vars m !! p with Some v => Ret v | None => Undef end | None => Undef end.

Definition __cfgu32_read (m : cfg) (o : tt_cfgobj_t) : M tt_buf_t unit :=
  v ← access (at_var m (opaque o)); match v with VU32 v => tt_buf_put_cstr (print_u v) | _ => undef end.
Definition __cfgs32_read (m : cfg) (o : tt_cfgobj_t) : M tt_buf_t unit :=
  v ← access (at_var m (opaque o)); match v with VS32 v => tt_buf_put_cstr (print_d v) | _ => undef end.
Definition __CFG_TRUE : list Z := [116; 114; 117; 101].
Definition __CFG_FALSE : list Z := [102; 97; 108; 115; 101].
Definition __cfgbool_read (m : cfg) (o : tt_cfgobj_t) : M tt_buf_t unit :=
  v ← access (at_var m (opaque o)); match v with VBool b => tt_buf_put_cstr (if b then __CFG_TRUE else __CFG_FALSE) | _ => undef end.
Definition __cfgstr_read (m : cfg) (o : tt_cfgobj_t) : M tt_buf_t unit :=
  tt_buf_put_u8 34;;
  v ← access (at_var m (opaque o));
  match v with
  | VStr s => c ← access (exec_bind (tt_string_cstr s) (λ '(r, _), match r with TT_SUCCESS c => Ret c | TT_ERROR _ => Undef end)); tt_buf_put_cstr c
  | _ => undef
  end;;
  tt_buf_put_u8 34.

Definition call_read (f : cfg_read_fn) (m : cfg) (o : tt_cfgobj_t) : M tt_buf_t unit :=
  match f with
  | __cfgu32_read_f => __cfgu32_read m o
  | __cfgs32_read_f => __cfgs32_read m o
  | __cfgbool_read_f => __cfgbool_read m o
  | __cfgstr_read_f => __cfgstr_read m o
  end.
Definition tt_cfgobj_read (m : cfg) (co : key) : M tt_buf_t unit :=
  o ← access (at_obj m co);
  match read (itf o) with
  | Some f => if can_read o then call_read f m o else fail TT_E_UNSUPPORT
  | None => fail TT_E_UNSUPPORT
  end.

(** ** Writing: [val] are the bytes at the argument of that name *)

Definition __MAX_U32_LEN : Z := 10.
Definition __MAX_S32_LEN : Z := 11.

(** The bytes as the C string that [buf] holds. *)
Definition num_buf (max : Z) (val : list Z) : M cfg (list Z) :=
  access (c_str (val ++ replicate (Z.to_nat (max + 1 - zlen val)) 0)).

Definition __cfgu32_write (co : key) (o : tt_cfgobj_t) (val : list Z) : M cfg unit :=
  match ext o with
  | XU32 on_set =>
      if (zlen val =? 0) || (__MAX_U32_LEN <? zlen val) then fail TT_E_BADARG
      else
        s ← num_buf __MAX_U32_LEN val;
        v ← do_r TT_E_BADARG (call (Ret (tt_strtou32 s)));
        set_by on_set co (CU32 v)
  | _ => undef
  end.
Definition __cfgs32_write (co : key) (o : tt_cfgobj_t) (val : list Z) : M cfg unit :=
  match ext o with
  | XS32 on_set =>
      if (zlen val =? 0) || (__MAX_S32_LEN <? zlen val) then fail TT_E_BADARG
      else
        s ← num_buf __MAX_S32_LEN val;
        v ← do_r TT_E_BADARG (call (Ret (tt_strtos32 s)));
        set_by on_set co (CS32 v)
  | _ => undef
  end.
Definition __cfgbool_write (co : key) (o : tt_cfgobj_t) (val : list Z) : M cfg unit :=
  match ext o with
  | XBool on_set =>
      if (zlen val =? zlen __CFG_TRUE) && (strncmp __CFG_TRUE val =? 0) then set_by on_set co (CBool true)
      else if (zlen val =? zlen __CFG_FALSE) && (strncmp __CFG_FALSE val =? 0) then set_by on_set co (CBool false)
      else fail TT_E_BADARG
  | _ => undef
  end.

(** Work on the string of a string object. *)
Definition with_str {A} (co : key) (f : M tt_string_t A) : M cfg A := λ m,
  match objs m !! co with
  | Some o =>
      match ext o with
      | XStr g s => exec_bind (f s) (λ '(r, s'), Ret (r, put_objs (<[co := set_ext (XStr g s') o]> (objs m)) m))
      | _ => Undef
      end
  | None => Undef
  end.
(** The argument is a C string of [val_len] characters. *)
Definition __cfgstr_write (co : key) (o : tt_cfgobj_t) (val : list Z) : M cfg unit :=
  match ext o with
  | XStr on_set _ =>
      with_str co tt_string_clear;;
      with_str co (tt_string_append_sub val 0 (zlen val));;
      m ← gets id;
      v ← access (at_var m (opaque o));
      match v with
      | VStr cur =>
          c ← access (exec_bind (tt_string_cstr cur) (λ '(r, _), match r with TT_SUCCESS c => Ret c | TT_ERROR _ => Undef end));
          d ← with_str co (tt_string_cmp c);
          if d =? 0 then mret tt
          else s ← with_str co tt_string_cstr; set_by on_set co (CStr s)
      | _ => undef
      end
  | _ => undef
  end.

Definition call_write (f : cfg_write_fn) : key → tt_cfgobj_t → list Z → M cfg unit :=
  match f with
  | __cfgu32_write_f => __cfgu32_write
  | __cfgs32_write_f => __cfgs32_write
  | __cfgbool_write_f => __cfgbool_write
  | __cfgstr_write_f => __cfgstr_write
  end.
Definition tt_cfgobj_write (co : key) (val : list Z) : M cfg unit :=
  o ← obj co;
  match write (itf o) with
  | Some f => if can_write o then call_write f co o val else fail TT_E_UNSUPPORT
  | None => fail TT_E_UNSUPPORT
  end.

(** ** Executing *)

Definition tt_cfgexe_run (co : key) (argv : list (list Z)) (line_sep : list Z) : M (cfg * tt_buf_t) Z := λ '(m, out),
  match objs m !! co with
  | Some o =>
      match ext o with
      | XExe f => exec_bind (call_run f co argv line_sep (vars m, out)) (λ '(r, (vs, out)), Ret (r, (put_vars vs m, out)))
      | _ => Undef
      end
  | None => Undef
  end.
End value.

(** ** Numbers *)

Lemma digits_scan n : ∀ v acc rest, 0 ≤ v < 10 ^ Z.of_nat n → (0 < n)%nat →
  scan_num 10 acc (digits n v ++ rest) = scan_num 10 (acc * 10 ^ zlen (digits n v) + v) rest ∧ Forall (λ c, 48 ≤ c ≤ 57) (digits n v).
Proof.
  induction n as [|n IH]; intros v acc rest Hv Hn; [lia|]. cbn [digits]. rewrite Nat2Z.inj_succ, Z.pow_succ_r in Hv by lia.
  assert (∀ d a r, 0 ≤ d < 10 → scan_num 10 a ((48 + d) :: r) = scan_num 10 (a * 10 + d) r) as Hd.
  { intros d a r ?. cbn [scan_num]. unfold digit_of. rewrite (proj2 (Z.leb_le 48 (48 + d))), (proj2 (Z.leb_le (48 + d) 57)) by lia. cbn [andb].
    replace (48 + d - 48) with d by lia. by rewrite (proj2 (Z.ltb_lt d 10)) by lia. }
  destruct (Z.ltb_spec v 10).
  - change (zlen [48 + v]) with 1. split; [cbn [app]; rewrite Hd by lia; f_equal|constructor; [lia|done]].
  - assert (0 < v / 10 < 10 ^ Z.of_nat n ∧ 0 ≤ v mod 10 < 10 ∧ v = 10 * (v / 10) + v mod 10) as (Hq & Hr & Ev).
    { pose proof (Z.div_mod v 10). pose proof (Z.mod_pos_bound v 10). assert (v / 10 < 10 ^ Z.of_nat n) by (apply Z.div_lt_upper_bound; lia).
      assert (1 ≤ v / 10) by (apply Z.div_le_lower_bound; lia). lia. }
    assert (0 < n)%nat as Hn' by (destruct n; [change (10 ^ Z.of_nat 0) with 1 in Hq; lia|lia]).
    destruct (IH (v / 10) acc ((48 + v mod 10) :: rest)) as [E HF]; [lia|done|].
    split; [|apply Forall_app; split; [done|constructor; [lia|done]]].
    rewrite <- app_assoc. cbn [app]. rewrite E, Hd by done. f_equal. rewrite zlen_app. change (zlen [48 + v mod 10]) with 1.
    rewrite Z.pow_add_r by (pose proof (zlen_nonneg (digits n (v / 10))); lia). change (10 ^ 1) with 10. lia.
Qed.

Lemma digits_head n : ∀ v, 0 < v < 10 ^ Z.of_nat n → ∃ c s, digits n v = c :: s ∧ 49 ≤ c ≤ 57.
Proof.
  induction n as [|n IH]; intros v Hv; [change (10 ^ Z.of_nat 0) with 1 in Hv; lia|]. cbn [digits]. rewrite Nat2Z.inj_succ, Z.pow_succ_r in Hv by lia.
  destruct (Z.ltb_spec v 10); [exists (48 + v), []; split; [done|lia]|].
  destruct (IH (v / 10)) as (c & s & -> & ?); [|by exists c, (s ++ [48 + v mod 10])].
  split; [apply Z.div_str_pos; lia|apply Z.div_lt_upper_bound; lia].
Qed.
Lemma digits_len n : ∀ v, zlen (digits n v) ≤ Z.of_nat n.
Proof.
  induction n as [|n IH]; intros v; cbn [digits]; [done|]. destruct (v <? 10); [change (zlen [_]) with 1; lia|].
  rewrite zlen_app. specialize (IH (v / 10)). change (zlen [48 + v mod 10]) with 1. lia.
Qed.

Lemma num_at_print v : 0 ≤ v < 10 ^ 10 → num_at (print_u v) = Some (v, []) ∧ Forall (λ c, 48 ≤ c ≤ 57) (print_u v).
Proof.
  intros Hv. destruct (digits_scan 10 v 0 [] Hv ltac:(lia)) as [E Hf]. rewrite app_nil_r in E. cbn [scan_num Z.mul Z.add] in E. fold (print_u v) in E, Hf. split; [|done].
  destruct (Z.eqb_spec v 0) as [->|Hne]; [done|]. destruct (digits_head 10 v) as (c & s2 & Ec & Hc); [lia|]. fold (print_u v) in Ec. rewrite Ec in *. unfold num_at.
  rewrite (proj2 (Z.eqb_neq c 48)) by lia. assert (is_digit 10 c = true) as ->.
  { unfold is_digit, digit_of. rewrite (proj2 (Z.leb_le 48 c)), (proj2 (Z.leb_le c 57)) by lia. cbn [andb]. by rewrite (proj2 (Z.ltb_lt (c - 48) 10)) by lia. }
  by rewrite E.
Qed.
(** A printed number of either sign. *)
Lemma strto_print v : 0 ≤ v < 10 ^ 10 → ∀ sg : bool, strto ((if sg then [45] else []) ++ print_u v) = (if sg then - v else v, []).
Proof.
  intros Hv sg. destruct (num_at_print v Hv) as [E Hf]. destruct sg; cbn [app]; unfold strto.
  - change ((45 =? 43) || (45 =? 45)) with true. change (45 =? 45) with true. cbv iota. by rewrite E.
  - destruct (print_u v) as [|c s] eqn:Ep; [done|]. apply Forall_cons_1 in Hf as [Hc _].
    rewrite (proj2 (Z.eqb_neq c 43)), (proj2 (Z.eqb_neq c 45)) by lia. cbn [orb]. by rewrite E.
Qed.

Lemma print_u_start v : 0 ≤ v < 10 ^ 10 → ∃ c s, print_u v = c :: s ∧ 48 ≤ c ≤ 57.
Proof.
  intros Hv. destruct (Z.eqb_spec v 0) as [->|]; [by exists 48, []|]. destruct (digits_head 10 v) as (c & s & E & ?); [lia|]. exists c, s. split; [done|lia].
Qed.

(** Printed numbers are read back. *)
Lemma strtou32_print v : is_u32 v → tt_strtou32 (print_u v) = TT_SUCCESS v.
Proof.
  intros Hv. unfold is_u32 in Hv. assert (0 ≤ v < 10 ^ 10) as Hv' by (change (2 ^ 32) with 4294967296 in Hv; lia).
  pose proof (strto_print v Hv' false) as E. cbn [app] in E. destruct (print_u_start v Hv') as (c & s & Ec & Hc). rewrite Ec in E. unfold tt_strtou32. rewrite Ec.
  assert (skip_space (c :: s) = c :: s) as -> by (cbn; unfold isspace; by rewrite (proj2 (Z.eqb_neq c 32)), (proj2 (Z.leb_gt c 13)), andb_false_r by lia).
  rewrite (proj2 (Z.eqb_neq c 45)) by lia. unfold strtoul. rewrite E. cbn [ends_well negb]. unfold ULONG_MAX. change (2 ^ 32) with 4294967296 in Hv.
  rewrite (proj2 (Z.ltb_ge (2 ^ 64 - 1) (Z.abs v))) by lia. unfold u64. rewrite Z.mod_small by lia. rewrite (proj2 (Z.ltb_ge 4294967295 v)) by lia. f_equal.
  unfold s32. rewrite (u32_small v) by lia. cbv zeta. destruct (Z.ltb_spec v (2 ^ 31)); [apply u32_small; lia|]. rewrite u32_neg by lia. lia.
Qed.
Lemma strtos32_print v : - 2 ^ 31 ≤ v < 2 ^ 31 → tt_strtos32 (print_d v) = TT_SUCCESS v.
Proof.
  intros Hv. assert (0 ≤ Z.abs v < 10 ^ 10) as Hv' by lia. set (sg := v <? 0). pose proof (strto_print (Z.abs v) Hv' sg) as E.
  assert ((if sg then [45] else []) ++ print_u (Z.abs v) = print_d v ∧ (if sg then - Z.abs v else Z.abs v) = v) as [Ep Ev].
  { subst sg. unfold print_d. destruct (Z.ltb_spec v 0); cbn [app]; split; try lia; do 2 f_equal; lia. }
  rewrite Ep, Ev in E. assert (∃ c s, print_d v = c :: s ∧ 45 ≤ c ≤ 57) as (c & s & Ec & Hc).
  { rewrite <- Ep. destruct (print_u_start _ Hv') as (c & s & -> & ?). destruct sg; cbn [app]; [exists 45, (c :: s); split; [done|lia]|exists c, s; split; [done|lia]]. }
  rewrite Ec in E. unfold tt_strtos32. rewrite Ec.
  assert (skip_space (c :: s) = c :: s) as -> by (cbn; unfold isspace; by rewrite (proj2 (Z.eqb_neq c 32)), (proj2 (Z.leb_gt c 13)), andb_false_r by lia).
  unfold strtol. rewrite E. cbn [ends_well negb]. unfold LONG_MAX. rewrite Z.min_r, Z.max_r by lia.
  rewrite (proj2 (Z.ltb_ge 2147483647 v)), (proj2 (Z.ltb_ge v (- 2 ^ 31))) by lia. cbn [orb]. f_equal.
  unfold s32. destruct (Z.ltb_spec v 0).
  - rewrite u32_neg by lia. rewrite (proj2 (Z.ltb_ge _ _)) by lia. lia.
  - rewrite u32_small by lia. by rewrite (proj2 (Z.ltb_lt _ _)) by lia.
Qed.

(** ** Values as text *)

(** What reading prints, and what writing a value takes. *)
Definition show (v : cfg_val) : list Z :=
  match v with
  | CU32 n => print_u n
  | CS32 n => print_d n
  | CBool b => if b then __CFG_TRUE else __CFG_FALSE
  | CStr s => [34] ++ s ++ [34]
  end.
Definition text (v : cfg_val) : list Z := match v with CStr s => s | _ => show v end.

Definition val_type (v : cfg_val) : tt_cfgobj_type_t :=
  match v with CU32 _ => TT_CFGOBJ_U32 | CS32 _ => TT_CFGOBJ_S32 | CBool _ => TT_CFGOBJ_BOOL | CStr _ => TT_CFGOBJ_STRING end.
Definition val_ok (v : cfg_val) : Prop :=
  match v with
  | CU32 n => is_u32 n
  | CS32 n => - 2 ^ 31 ≤ n < 2 ^ 31
  | CBool _ => True
  | CStr s => cstring s ∧ zlen s < 2 ^ 32
  end.
(** A variable that has the value. *)
Definition holds (x : cfg_var) (v : cfg_val) : Prop :=
  match x, v with
  | VU32 a, CU32 n => a = n
  | VS32 a, CS32 n => a = n
  | VBool a, CBool b => a = b
  | VStr b, CStr s => ∃ r, str b s r
  | _, _ => False
  end.
Definition on_set_of (x : cfg_ext) : option Z :=
  match x with XU32 f | XS32 f | XBool f | XStr f _ => f | _ => None end.

(** Object [o] at [co] stands for the variable at [p], which has the value [v]; it may
    be read and written. *)
Record stands_for (m : cfg) (co : key) (o : tt_cfgobj_t) (p : key) (v : cfg_val) : Prop := {
  sf_obj : objs m !! co = Some o;
  sf_ok : obj_ok o;
  sf_type : type o = val_type v;
  sf_var : opaque o = Some p;
  sf_read : can_read o = true;
  sf_write : can_write o = true;
  sf_val : ∃ x, vars m !! p = Some x ∧ holds x v;
  sf_good : val_ok v;
}.

Section roundtrip.
Context `{Allocator} `{CfgUser}.

Lemma digits_u8 n v : 0 ≤ v < 10 ^ Z.of_nat n → (0 < n)%nat → Forall is_u8 (digits n v).
Proof.
  intros Hv Hn. destruct (digits_scan n v 0 [] Hv Hn) as [_ Hf]. eapply List.Forall_impl; [|exact Hf]. intros c Hc. unfold is_u8. cbn in Hc. lia.
Qed.
Lemma show_u8 v : val_ok v → Forall is_u8 (show v).
Proof.
  destruct v as [n|n|b|s]; cbn [val_ok show].
  - intros Hn. apply digits_u8; [|lia]. unfold is_u32 in Hn. lia.
  - intros Hn. unfold print_d. destruct (Z.ltb_spec n 0); [constructor; [done|]|]; (apply digits_u8; [lia|lia]).
  - intros _. destruct b; by repeat constructor.
  - intros [Hs _]. apply Forall_app. split; [by repeat constructor|]. apply Forall_app. split; [by apply cstring_u8|by repeat constructor].
Qed.

Lemma cstr_of b s r : str b s r → exec_bind (tt_string_cstr b) (λ '(r, _), match r with TT_SUCCESS c => Ret c | TT_ERROR _ => Undef end) = Ret s.
Proof. intros Hs. by rewrite (string_cstr_ok _ _ _ Hs). Qed.

(** Reading prints the value. *)
Lemma read_shows m co o p v x : objs m !! co = Some o → obj_ok o → type o = val_type v → opaque o = Some p → can_read o = true →
  vars m !! p = Some x → holds x v → val_ok v → renders (tt_cfgobj_read m co) (show v).
Proof.
  intros Ho Hok Ht Hp Hr Hx Hh Hv. pose proof (show_u8 v Hv) as Hu. unfold tt_cfgobj_read. apply (renders_access _ _ o); [unfold at_obj; by rewrite Ho|].
  pose proof (ok_ext _ Hok) as He. unfold ext_ok in He. rewrite Ht in He.
  assert (at_var m (opaque o) = Ret x) as Ev by (unfold at_var; by rewrite Hp, Hx).
  destruct v as [n|n|b|s], (ext o); cbn [val_type] in He; try done; [| | |destruct He as [He _]]; rewrite He; cbn [read call_read __cfgu32_itf __cfgs32_itf __cfgbool_itf __cfgstr_itf]; rewrite Hr;
    destruct x as [a|a|a|a]; try done; cbn [holds] in Hh.
  - subst. unfold __cfgu32_read. apply (renders_access _ _ (VU32 n)); [done|]. by apply renders_put.
  - subst. unfold __cfgs32_read. apply (renders_access _ _ (VS32 n)); [done|]. by apply renders_put.
  - subst. unfold __cfgbool_read. apply (renders_access _ _ (VBool b)); [done|]. by apply renders_put.
  - destruct Hh as [r Hs]. unfold __cfgstr_read. cbn [show]. apply renders_bind; [by apply renders_u8|]. rewrite Ev.
    assert (Forall is_u8 s) as Hsu by apply cstring_u8, Hv.
    intros bb Hwf Hro Hroom. assert (((v ← access (Ret (VStr a)); match v with VStr s => c ← access (exec_bind (tt_string_cstr s) (λ '(r, _), match r with TT_SUCCESS c => Ret c | TT_ERROR _ => Undef end)); tt_buf_put_cstr c | _ => undef end;; tt_buf_put_u8 34) : M tt_buf_t unit) bb = (tt_buf_put_cstr s;; tt_buf_put_u8 34) bb) as ->.
    { erewrite (bind_step (access (Ret (VStr a)))) by done. cbv iota. rewrite (cstr_of _ _ _ Hs). unfold mbind, M_bind, bind at 1. cbn [access exec_bind]. done. }
    by apply (renders_bind _ _ s [34]); [apply renders_put|apply renders_u8|..].
Qed.
Lemma cfg_read_ok m co o p v : stands_for m co o p v → renders (tt_cfgobj_read m co) (show v).
Proof. intros [Ho Hok Ht Hp Hr Hw (x & Hx & Hh) Hv]. by eapply read_shows. Qed.
End roundtrip.
