(* ===== verification/CfgWrite.v ===== *)
(** Writing the objects of [CfgValue]: which bytes are accepted, what the user is told,
    and that a value that was written is the value that is read. *)

From S2P Require Import Prelude MemSpring Buffer BufferFormat SshDef BufCommon Str StrSpec StrRun SshCodec LinkedList CfgTree CfgForest CfgValue.
From stdpp Require Import gmap.

#[local] Open Scope Z_scope.

(** The object keeps its value when the same string is written. *)
Definition same_str (v w : cfg_val) : bool :=
  match v, w with CStr a, CStr b => bool_decide (a = b) | _, _ => false end.

(** The string of a string object can take [n] more bytes. *)
Definition own_room `{Allocator} (o : tt_cfgobj_t) (n : Z) : Prop :=
  match ext o with XStr _ s => reliable s ∧ room s n | _ => True end.

(** The callback at [f] stores the value [w] in the variable at [p]. *)
Definition assigns `{CfgUser} (f : Z) (co p : key) (w : cfg_val) : Prop :=
  ∀ vs x, vs !! p = Some x → ∃ y, call_on_set f co w vs = Ret (<[p:=y]> vs) ∧ holds y w.

(** Text that is no number of the type: empty, too long, out of range, or with
    something that is neither a digit nor a space behind the digits. *)
Inductive no_number (t : tt_cfgobj_type_t) : list Z → Prop :=
  | nn_empty : no_number t []
  | nn_long val : (if decide (t = TT_CFGOBJ_U32) then 10 else 11) < zlen val → no_number t val
  | nn_minus val : t = TT_CFGOBJ_U32 → Forall (λ c, c ≠ 0) val → no_number t (45 :: val)
  | nn_large n : (if decide (t = TT_CFGOBJ_U32) then 2 ^ 32 else 2 ^ 31) ≤ n < 10 ^ 10 → no_number t (print_u n)
  | nn_small n : t = TT_CFGOBJ_S32 → 2 ^ 31 < n < 10 ^ 10 → no_number t (45 :: print_u n)
  | nn_junk n c rest : 0 < n < 10 ^ 10 → isalnum c = false → isspace c = false → c ≠ 0 → Forall (λ c, c ≠ 0) rest → no_number t (print_u n ++ c :: rest).

(** Bytes that an object does not take, and the error. *)
Inductive refused (o : tt_cfgobj_t) : list Z → tt_err → Prop :=
  | ref_type val : write (itf o) = None → refused o val TT_E_UNSUPPORT
  | ref_perm val : can_write o = false → refused o val TT_E_UNSUPPORT
  | ref_bool val : can_write o = true → type o = TT_CFGOBJ_BOOL → val ≠ __CFG_TRUE → val ≠ __CFG_FALSE → refused o val TT_E_BADARG
  | ref_num val : can_write o = true → type o = TT_CFGOBJ_U32 ∨ type o = TT_CFGOBJ_S32 → no_number (type o) val → refused o val TT_E_BADARG.

Section write.
Context `{Allocator} `{CfgUser}.

Lemma num_buf_ok max val m : Forall (λ c, c ≠ 0) val → zlen val ≤ max → num_buf max val m = Ret (TT_SUCCESS val, m).
Proof.
  intros Hn Hl. unfold num_buf, access. replace (Z.to_nat (max + 1 - zlen val)) with (S (Z.to_nat (max - zlen val))) by lia.
  cbn [replicate]. by rewrite c_str_app.
Qed.
Lemma digits_nz n v : 0 ≤ v < 10 ^ Z.of_nat n → (0 < n)%nat → Forall (λ c, c ≠ 0) (digits n v).
Proof. intros Hv Hn. destruct (digits_scan n v 0 [] Hv Hn) as [_ Hf]. eapply List.Forall_impl; [|exact Hf]. cbn. lia. Qed.
Lemma print_len v : 0 ≤ v < 10 ^ 10 → 0 < zlen (print_u v) ≤ 10.
Proof. intros Hv. destruct (print_u_start v Hv) as (c & s & E & _). pose proof (digits_len 10 v). fold (print_u v) in *. rewrite E in *. rewrite zlen_cons in *. pose proof (zlen_nonneg s). lia. Qed.
Lemma print_nz v : 0 ≤ v < 10 ^ 10 → Forall (λ c, c ≠ 0) (print_u v).
Proof. intros Hv. apply digits_nz; [done|lia]. Qed.
Lemma print_d_fits v : - 2 ^ 31 ≤ v < 2 ^ 31 → Forall (λ c, c ≠ 0) (print_d v) ∧ 0 < zlen (print_d v) ≤ 11.
Proof.
  intros Hv. unfold print_d. destruct (Z.ltb_spec v 0).
  - pose proof (print_len (- v)). split; [constructor; [done|apply print_nz; lia]|]. rewrite zlen_cons. lia.
  - pose proof (print_len v). split; [apply print_nz; lia|lia].
Qed.

(** What a store into the object's own string leaves of the rest. *)
Lemma set_str_ok o g s s' t : obj_ok o → ext o = XStr g s → type o = TT_CFGOBJ_STRING → str s' t 0 → obj_ok (set_ext (XStr g s') o).
Proof.
  intros [Hn Hl He] Ex Ht Hs. unfold ext_ok in He. rewrite Ex, Ht in He. destruct He as [Hi _]. constructor; [done|done|]. unfold ext_ok. cbn. rewrite Ht. split; [done|by exists t].
Qed.

Lemma with_str_step {A} co (f : M tt_string_t A) m o g s r s' : objs m !! co = Some o → ext o = XStr g s → f s = Ret (r, s') →
  with_str co f m = Ret (r, put_objs (<[co := set_ext (XStr g s') o]> (objs m)) m).
Proof. intros Ho He Hf. unfold with_str. by rewrite Ho, He, Hf. Qed.
Lemma with_str_look {A} co (f : M tt_string_t A) m o g s r : objs m !! co = Some o → ext o = XStr g s → f s = Ret (r, s) →
  with_str co f m = Ret (r, m).
Proof.
  intros Ho He Hf. rewrite (with_str_step co f m o g s r s) by done. do 2 f_equal. unfold set_ext. rewrite <- He.
  assert (mk_cfgobj (name o) (display o) (brief o) (detail o) (itf o) (opaque o) (type o) (need_reboot o) (can_read o) (can_write o) (ext o) = o) as -> by by destruct o.
  rewrite insert_id by done. by destruct m.
Qed.

(** Storing a string in the object's own string, in two steps. *)
Lemma store_ok m co o g b t w : objs m !! co = Some o → ext o = XStr g b → str b t 0 → cstring w → zlen w < 2 ^ 32 → reliable b → room b (zlen w + 1) →
  ∃ b', str b' w 0 ∧ ∀ A (k : M cfg A), (with_str co tt_string_clear;; with_str co (tt_string_append_sub w 0 (zlen w));; k) m =
    k (put_objs (<[co := set_ext (XStr g b') o]> (objs m)) m).
Proof.
  intros Ho He Hs Hw Hz Hrel Hroom. pose proof (zlen_nonneg w). destruct (string_clear_ok b t 0 Hs) as (b1 & E1 & Hb1).
  assert (str b1 [] 0) as Hs1 by (eapply (becomes_str b 0 []); [exact Hb1|apply Hs|constructor]).
  destruct (string_append_sub_ok b1 [] 0 Hs1 ltac:(unfold reliable; by rewrite (be_mspg _ _ _ _ _ Hb1)) w 0 (zlen w)) as (b2 & E2 & Hb2); try done; [by apply (becomes_room b 0 (zlen w + 1) 0 [0] b1); [lia|lia|..]|].
  rewrite (proj2 (Z.ltb_ge (zlen w) 0)) in E2, Hb2 by lia. exists b2. split.
  - eapply becomes_str; [|apply Hs1|done]. change (Z.to_nat 0) with O in Hb2. rewrite drop_0, take_ge in Hb2 by (unfold zlen; lia). exact Hb2.
  - intros A k. erewrite bind_step by (eapply with_str_step; [exact Ho|exact He|exact E1]).
    erewrite bind_step by (eapply with_str_step; [apply lookup_insert_eq|done|exact E2]). unfold put_objs. cbn. by rewrite insert_insert_eq.
Qed.

(** Writing the text of a value of the object's type. *)
Lemma cfg_write_ok m co o p v w : stands_for m co o p v → val_ok w → val_type w = val_type v → own_room o (zlen (text w) + 1) →
  ∃ o', stands_for (put_objs (<[co := o']> (objs m)) m) co o' p v ∧ on_set_of (ext o') = on_set_of (ext o) ∧
    tt_cfgobj_write co (text w) m =
      (if same_str v w then mret tt else set_by (on_set_of (ext o)) co w) (put_objs (<[co := o']> (objs m)) m).
Proof.
  intros Hsf Hw Ht Hroom. pose proof Hsf as [Ho Hok Hto Hp Hr Hcw (x & Hx & Hh) Hv]. pose proof (ok_ext _ Hok) as He. unfold ext_ok in He. rewrite Hto in He.
  assert (put_objs (<[co := o]> (objs m)) m = m) as Em by (rewrite insert_id by done; by destruct m).
  unfold tt_cfgobj_write. setoid_rewrite (bind_step (obj co) _ m _ _ (obj_step _ _ _ Ho)).
  destruct w as [n|n|b|s], v as [n'|n'|b'|s']; try done; destruct (ext o) eqn:Ee; cbn [val_type] in He; try done. all: [> | | |destruct He as [He (t & Hs)]].
  all: rewrite He; cbn [write __cfgu32_itf __cfgs32_itf __cfgbool_itf __cfgstr_itf]; rewrite Hcw; cbn [call_write same_str text show on_set_of val_ok] in *.
  - exists o. rewrite Em. split; [done|]. split; [by rewrite Ee|]. unfold __cfgu32_write. rewrite Ee. pose proof (print_len n). unfold is_u32 in Hw. unfold __MAX_U32_LEN.
    rewrite (proj2 (Z.eqb_neq _ 0)), (proj2 (Z.ltb_ge 10 _)) by lia. cbn [orb]. erewrite bind_step by (apply num_buf_ok; [apply print_nz; lia|lia]).
    cbv beta. rewrite strtou32_print by done. done.
  - exists o. rewrite Em. split; [done|]. split; [by rewrite Ee|]. unfold __cfgs32_write. rewrite Ee. destruct (print_d_fits n Hw) as [Hnz Hl]. unfold __MAX_S32_LEN.
    rewrite (proj2 (Z.eqb_neq _ 0)), (proj2 (Z.ltb_ge 11 _)) by lia. cbn [orb]. erewrite bind_step by (apply num_buf_ok; [done|lia]).
    cbv beta. rewrite strtos32_print by done. done.
  - exists o. rewrite Em. split; [done|]. split; [by rewrite Ee|]. unfold __cfgbool_write. rewrite Ee. by destruct b.
  - destruct x as [a|a|a|cur]; try done. destruct Hh as [rc Hcur]. destruct Hw as [Hcs Hz], Hv as [Hcs' Hz']. unfold own_room in Hroom. rewrite Ee in Hroom. destruct Hroom as [Hrel Hroom].
    destruct (store_ok m co o on_set str t s Ho Ee Hs Hcs Hz Hrel Hroom) as (b' & Hb' & Hstore). set (o' := set_ext (XStr on_set b') o). exists o'.
    assert (stands_for (put_objs (<[co := o']> (objs m)) m) co o' p (CStr s')) as Hsf'.
    { constructor; try done; [cbn; by apply lookup_insert_eq|by eapply set_str_ok|]. exists (VStr cur). split; [done|]. by exists rc. }
    split; [done|]. split; [done|]. unfold __cfgstr_write. rewrite Ee, Hstore. erewrite (bind_step (gets id)) by done. cbv beta. unfold id.
    erewrite (bind_step (access _)) by (unfold access, at_var; cbn; by rewrite Hp, Hx). cbv beta iota.
    erewrite (bind_step (access _)) by (unfold access; by rewrite (cstr_of _ _ _ Hcur)).
    destruct (str_cmp_ok b' s 0 Hb' s' Hcs') as (d & Ed & Hd). cbv beta.
    erewrite bind_step by (eapply with_str_look; [apply lookup_insert_eq|done|exact Ed]). cbv beta.
    destruct (bool_decide_reflect (s' = s)) as [->|Hne].
    + by rewrite (proj2 (Z.eqb_eq d 0)) by tauto.
    + rewrite (proj2 (Z.eqb_neq d 0)) by naive_solver.
      erewrite bind_step by (eapply with_str_look; [apply lookup_insert_eq|done|apply (string_cstr_ok b' s 0 Hb')]). done.
Qed.

Lemma scan_stop n c rest : 0 < n < 10 ^ 10 → isalnum c = false → strto (print_u n ++ c :: rest) = (n, c :: rest).
Proof.
  intros Hn Hc. destruct (digits_scan 10 n 0 (c :: rest)) as [E Hf]; [lia|lia|]. destruct (digits_head 10 n) as (d & s & Ed & Hd); [lia|].
  fold (print_u n) in *. rewrite Ed in *. cbn [app] in *. unfold strto, num_at.
  rewrite (proj2 (Z.eqb_neq d 43)), (proj2 (Z.eqb_neq d 45)) by lia. cbn [orb]. rewrite (proj2 (Z.eqb_neq d 48)) by lia.
  assert (is_digit 10 d = true) as ->.
  { unfold is_digit, digit_of. rewrite (proj2 (Z.leb_le 48 d)), (proj2 (Z.leb_le d 57)) by lia. cbn [andb]. by rewrite (proj2 (Z.ltb_lt (d - 48) 10)) by lia. }
  rewrite E. cbn [scan_num]. unfold isalnum in Hc. apply orb_false_iff in Hc as [[H1 H2]%orb_false_iff H3]. unfold digit_of. rewrite H1, H2, H3. cbn [Z.ltb]. done.
Qed.
Lemma digit_no_space c : 48 ≤ c ≤ 57 → isspace c = false.
Proof. intros Hc. unfold isspace. by rewrite (proj2 (Z.eqb_neq c 32)), (proj2 (Z.leb_gt c 13)), andb_false_r by lia. Qed.

(** The conversions of a text that starts with a digit. *)
Lemma strtou32_at c s v e : 48 ≤ c ≤ 57 → strto (c :: s) = (v, e) → 0 ≤ v < 2 ^ 64 → ends_well e = false ∨ 2 ^ 32 ≤ v → tt_strtou32 (c :: s) = TT_ERROR TT_FAIL.
Proof.
  intros Hc E Hv Hbad. unfold tt_strtou32. cbn [skip_space]. rewrite digit_no_space by done. rewrite (proj2 (Z.eqb_neq c 45)) by lia.
  unfold strtoul. rewrite E. unfold ULONG_MAX. rewrite (proj2 (Z.ltb_ge _ (Z.abs v))) by lia. unfold u64. rewrite Z.mod_small by lia.
  destruct Hbad as [->|Hl]; [done|]. destruct (ends_well e); [|done]. cbn [negb]. by rewrite (proj2 (Z.ltb_lt 4294967295 v)) by lia.
Qed.
Lemma strtos32_at c s v e : isspace c = false → strto (c :: s) = (v, e) → - 2 ^ 63 < v < 2 ^ 63 → ends_well e = false ∨ 2 ^ 31 ≤ v ∨ v < - 2 ^ 31 → tt_strtos32 (c :: s) = TT_ERROR TT_FAIL.
Proof.
  intros Hc E Hv Hbad. unfold tt_strtos32. cbn [skip_space]. rewrite Hc. unfold strtol. rewrite E. unfold LONG_MAX. rewrite Z.min_r, Z.max_r by lia.
  destruct Hbad as [->|Hl]; [done|]. destruct (ends_well e); [|done]. cbn [negb].
  destruct Hl; [by rewrite (proj2 (Z.ltb_lt 2147483647 v)) by lia|]. by rewrite (proj2 (Z.ltb_lt v (- 2 ^ 31))), orb_true_r by lia.
Qed.

Lemma no_number_u32 val : no_number TT_CFGOBJ_U32 val → (zlen val = 0 ∨ 10 < zlen val) ∨ (Forall (λ c, c ≠ 0) val ∧ tt_strtou32 val = TT_ERROR TT_FAIL).
Proof.
  inversion 1 as [|? Hl|? Ht Hnz|n Hn|? Ht|n c rest Hn Ha Hs Hc Hr]; subst; [by left; left|left; right; by rewrite decide_True in Hl|right..].
  - split; [by constructor|done].
  - rewrite decide_True in Hn by done. split; [apply print_nz; lia|]. pose proof (strto_print n ltac:(lia) false) as E. destruct (print_u_start n) as (c & s & Ec & ?); [lia|].
    cbn [app] in E. rewrite Ec in *. eapply strtou32_at; [done|exact E|lia|right; lia].
  - done.
  - split; [apply Forall_app; split; [apply print_nz; lia|by constructor]|]. pose proof (scan_stop n c rest Hn Ha) as E. destruct (print_u_start n) as (d & s & Ed & ?); [lia|].
    rewrite Ed in *. cbn [app] in *. eapply strtou32_at; [done|exact E|lia|by left].
Qed.
Lemma no_number_s32 val : no_number TT_CFGOBJ_S32 val → (zlen val = 0 ∨ 11 < zlen val) ∨ (Forall (λ c, c ≠ 0) val ∧ tt_strtos32 val = TT_ERROR TT_FAIL).
Proof.
  inversion 1 as [|? Hl|? Ht|n Hn|n Ht Hn|n c rest Hn Ha Hs Hc Hr]; subst; [by left; left|left; right; by rewrite decide_False in Hl|right..].
  - done.
  - rewrite decide_False in Hn by done. split; [apply print_nz; lia|]. pose proof (strto_print n ltac:(lia) false) as E. destruct (print_u_start n) as (c & s & Ec & ?); [lia|].
    cbn [app] in E. rewrite Ec in *. eapply strtos32_at; [by apply digit_no_space|exact E|lia|right; lia].
  - split; [constructor; [done|apply print_nz; lia]|]. pose proof (strto_print n ltac:(lia) true) as E. cbn [app] in E. eapply strtos32_at; [done|exact E|lia|right; lia].
  - split; [apply Forall_app; split; [apply print_nz; lia|by constructor]|]. pose proof (scan_stop n c rest Hn Ha) as E. destruct (print_u_start n) as (d & s & Ed & ?); [lia|].
    rewrite Ed in *. cbn [app] in *. eapply strtos32_at; [by apply digit_no_space|exact E|lia|by left].
Qed.

(** A refused text changes nothing and calls nobody. *)
Lemma cfg_refused_ok m co o val e : objs m !! co = Some o → obj_ok o → refused o val e → tt_cfgobj_write co val m = Ret (TT_ERROR e, m).
Proof.
  intros Ho Hok Href. pose proof (ok_ext _ Hok) as He. unfold ext_ok in He. unfold tt_cfgobj_write. erewrite bind_step by (apply obj_step; exact Ho).
  destruct Href as [val Hn|val Hn|val Hc Ht H1 H2|val Hc Ht Hnn].
  - by rewrite Hn.
  - rewrite Hn. by destruct (write (itf o)).
  - rewrite Ht in He. destruct (ext o) eqn:Ee; try done. rewrite He, Hc. cbn [write __cfgbool_itf call_write]. unfold __cfgbool_write. rewrite Ee.
    rewrite Z.eqb_sym, name_same, Z.eqb_sym, name_same by by repeat constructor.
    by rewrite !bool_decide_false by done.
  - destruct Ht as [Ht|Ht]; rewrite Ht in *; destruct (ext o) eqn:Ee; try done; rewrite He, Hc; cbn [write __cfgu32_itf __cfgs32_itf call_write].
    + unfold __cfgu32_write. rewrite Ee. unfold __MAX_U32_LEN.
      destruct (no_number_u32 val Hnn) as [[Hz|Hz]|[Hnz E]]; [by rewrite Hz|by rewrite (proj2 (Z.ltb_lt 10 _) Hz), orb_true_r|].
      destruct (_ || _) eqn:Eo; [done|]. apply orb_false_iff in Eo as [_ Hl%Z.ltb_ge]. erewrite bind_step by (by apply num_buf_ok). cbv beta. rewrite E. done.
    + unfold __cfgs32_write. rewrite Ee. unfold __MAX_S32_LEN.
      destruct (no_number_s32 val Hnn) as [[Hz|Hz]|[Hnz E]]; [by rewrite Hz|by rewrite (proj2 (Z.ltb_lt 11 _) Hz), orb_true_r|].
      destruct (_ || _) eqn:Eo; [done|]. apply orb_false_iff in Eo as [_ Hl%Z.ltb_ge]. erewrite bind_step by (by apply num_buf_ok). cbv beta. rewrite E. done.
Qed.
End write.

(** ** Properties *)

Section properties.
Context `{Allocator} `{CfgUser}.

(** C32: an object that stands for a variable shows the variable when it is read, and
    writing the text of a value of its type hands exactly that value to the callback of
    the user, unless a string keeps its value, and touches nothing but the object's own
    copy of the string; when the callback stores what it gets, reading afterwards shows
    the value that was written, and writing the number or word that was read changes
    nothing that is shown. *)
Theorem cfg_value m co o p v w : stands_for m co o p v → val_ok w → val_type w = val_type v → own_room o (zlen (text w) + 1) →
  renders (tt_cfgobj_read m co) (show v) ∧
  ∃ o', stands_for (put_objs (<[co := o']> (objs m)) m) co o' p v ∧
    tt_cfgobj_write co (text w) m = (if same_str v w then mret tt else set_by (on_set_of (ext o)) co w) (put_objs (<[co := o']> (objs m)) m) ∧
    ∀ f, on_set_of (ext o) = Some f → assigns f co p w → ∃ m2, tt_cfgobj_write co (text w) m = Ret (TT_SUCCESS tt, m2) ∧
      links m2 = links m ∧ objs m2 = <[co := o']> (objs m) ∧ stands_for m2 co o' p w ∧ renders (tt_cfgobj_read m2 co) (show w).
Proof.
  intros Hsf Hw Ht Hroom. split; [by eapply cfg_read_ok|]. destruct (cfg_write_ok m co o p v w Hsf Hw Ht Hroom) as (o' & Hsf' & Hon & E).
  exists o'. split; [done|]. split; [done|]. intros f Hf Ha. rewrite E, Hf. clear E. set (m1 := put_objs _ _) in *.
  assert (∃ m2, (if same_str v w then mret tt else set_by (Some f) co w) m1 = Ret (TT_SUCCESS tt, m2) ∧ links m2 = links m1 ∧ objs m2 = objs m1 ∧
    ∃ y, vars m2 !! p = Some y ∧ holds y w) as (m2 & E & El & Eo & Hy).
  { destruct (sf_val _ _ _ _ _ Hsf') as (x & Hx & Hh). destruct (same_str v w) eqn:Es.
    - exists m1. split; [done|]. split; [done|]. split; [done|]. exists x. split; [done|]. destruct v, w; try done. cbn in Es. apply bool_decide_eq_true in Es. by subst.
    - destruct (Ha (vars m1) x Hx) as (y & Ey & Hy). exists (put_vars (<[p:=y]> (vars m1)) m1). unfold set_by. rewrite Ey. split; [done|]. split; [done|]. split; [done|].
      exists y. split; [by apply lookup_insert_eq|done]. }
  assert (stands_for m2 co o' p w) as H2.
  { destruct Hsf' as [Ho Hok Hto Hp Hr Hcw _ _]. constructor; try done; [by rewrite Eo|congruence]. }
  exists m2. split; [done|]. split; [done|]. split; [by rewrite Eo|]. split; [done|]. by eapply cfg_read_ok.
Qed.

End properties.

Module Demo.
(** A callback that stores what it gets in the variable at 2. *)
#[export] Instance store_user : CfgUser := {|
  call_on_set _ _ v vs := Ret (match v with CU32 n => <[2%positive := VU32 n]> vs | _ => vs end);
  call_run _ _ _ _ s := Ret (TT_SUCCESS 0, s);
|}.
Definition port : tt_cfgobj_t :=
  mk_cfgobj [112; 111; 114; 116] None None None __cfgu32_itf (Some 2%positive) TT_CFGOBJ_U32 false true true (XU32 (Some 7)).
Definition memory : cfg := mk_cfg (mk_lmem {[1%positive := lnode_blank]} ∅) {[1%positive := port]} {[2%positive := VU32 22]}.

Lemma port_ok : obj_ok port.
Proof. by constructor. Defined.
Lemma port_stands : stands_for memory 1%positive port 2%positive (CU32 22).
Proof. constructor; try done. by exists (VU32 22). Defined.

Lemma cfg_value_witness : @renders zero_alloc (@tt_cfgobj_read zero_alloc memory 1%positive) [50; 50] ∧
  ∃ m2, @tt_cfgobj_write zero_alloc _ 1%positive [52; 50; 57; 52; 57; 54; 55; 50; 57; 53] memory = Ret (TT_SUCCESS tt, m2) ∧
    @renders zero_alloc (@tt_cfgobj_read zero_alloc m2 1%positive) [52; 50; 57; 52; 57; 54; 55; 50; 57; 53].
Proof.
  destruct (@cfg_value zero_alloc _ memory 1%positive port 2%positive (CU32 22) (CU32 4294967295) port_stands) as (Hr & o' & _ & _ & Hf); [done..|].
  split; [exact Hr|]. destruct (Hf 7 eq_refl) as (m2 & E & _ & _ & _ & Hr2); [|by exists m2].
  intros vs x Hx. exists (VU32 4294967295). by split.
Defined.
End Demo.
