(* ===== verification/CfgRun.v ===== *)
(** Any sequence of operations on the configuration objects: creating them, linking
    them into directories, looking for a child, unlinking and destroying them behaves
    as an abstract forest, which knows the name, the sort and the directory of each. *)

From S2P Require Import Prelude MemSpring Buffer BufferFormat SshDef BufCommon Str StrSpec StrRun LinkedList CfgTree CfgForest CfgDestroy CfgValue.
From stdpp Require Import gmap sorting.

#[local] Open Scope Z_scope.

(** ** The operations *)

(** What an object is for. *)
Inductive cfg_kind : Type :=
  | KDir
  | KU32 (p : key) (cb : option (option Z))
  | KS32 (p : key) (cb : option (option Z))
  | KBool (p : key) (on_set : option Z)
  | KStr (p : key) (cb : option (option Z))
  | KExe (run : Z).

Inductive cfg_op : Type :=
  | CCreate (addr : option key) (k : cfg_kind) (n : list Z) (attr : option tt_cfgobj_attr_t)
  | CAdd (cdir child : key)
  | CFind (cdir : key) (n : list Z)
  | CRemove (cdir child : key)
  | CDestroy (co : key).

Section run.
Context `{Allocator} (zero : tt_string_t).

Definition create_kind (k : cfg_kind) (addr : option key) (n : list Z) (attr : option tt_cfgobj_attr_t) : M cfg (option key) :=
  match k with
  | KDir => tt_cfgdir_create addr n attr
  | KU32 p cb => tt_cfgu32_create addr n p attr cb
  | KS32 p cb => tt_cfgs32_create addr n p attr cb
  | KBool p on_set => tt_cfgbool_create addr n p attr (Some on_set)
  | KStr p cb => tt_cfgstr_create zero addr n p attr cb
  | KExe run => tt_cfgexe_create addr n attr (Some run)
  end.
Definition run_op (o : cfg_op) : M cfg (option key) :=
  match o with
  | CCreate addr k n attr => create_kind k addr n attr
  | CAdd d c => tt_cfgdir_add d c;; mret None
  | CFind d n => tt_cfgdir_find d n
  | CRemove d c => tt_cfgdir_remove d c;; mret None
  | CDestroy c => tt_cfgobj_destroy c;; mret None
  end.
Fixpoint run_cfg (os : list cfg_op) (m : cfg) : exec (list (result (option key)) * cfg) :=
  match os with
  | [] => Ret ([], m)
  | o :: os => exec_bind (run_op o m) (λ '(r, m), exec_bind (run_cfg os m) (λ '(rs, m), Ret (r :: rs, m)))
  end.
End run.

(** ** The abstract forest *)

(** Sort, name and directory of every object. *)
Notation forest := (gmap key (entry * option key)).

Fixpoint chain (fuel : nat) (F : forest) (x : key) : list key :=
  match fuel with
  | O => [x]
  | S fuel => match F !! x with Some (_, Some p) => x :: chain fuel F p | _ => [x] end
  end.
(** [x] and what is above it. *)
Definition path_up (F : forest) (x : key) : list key := chain (size F) F x.

Definition is_child (d : key) (n : list Z) (x : key * (entry * option key)) : Prop := x.2.2 = Some d ∧ x.2.1.2 = n.
#[local] Instance is_child_dec d n x : Decision (is_child d n x).
Proof. unfold is_child. apply _. Defined.
Definition child_named (F : forest) (d : key) (n : list Z) : option key :=
  match filter (is_child d n) (map_to_list F) with (x, _) :: _ => Some x | [] => None end.

Definition kind_dir (k : cfg_kind) : bool := match k with KDir => true | _ => false end.

Definition spec_op (o : cfg_op) (F : forest) : result (option key) * forest :=
  match o with
  | CCreate addr k n _ =>
      match addr with
      | Some x => if __name_ok n then (TT_SUCCESS (Some x), <[x := ((kind_dir k, n), None)]> F) else (TT_SUCCESS None, F)
      | None => (TT_SUCCESS None, F)
      end
  | CAdd d c =>
      match F !! c with
      | Some (e, _) => match child_named F d e.2 with Some _ => (TT_ERROR TT_FAIL, F) | None => (TT_SUCCESS None, <[c := (e, Some d)]> F) end
      | None => (TT_ERROR TT_FAIL, F)
      end
  | CFind d n => (TT_SUCCESS (child_named F d n), F)
  | CRemove d c => (TT_SUCCESS None, match F !! c with Some (e, _) => <[c := (e, None)]> F | None => F end)
  | CDestroy c => (TT_SUCCESS None, filter (λ x, c ∉ path_up F x.1) F)
  end.
Fixpoint spec_cfg (os : list cfg_op) (F : forest) : list (result (option key)) * forest :=
  match os with
  | [] => ([], F)
  | o :: os => let '(r, F) := spec_op o F in let '(rs, F) := spec_cfg os F in (r :: rs, F)
  end.

(** What the caller has to respect: fresh memory; directories where they are expected;
    an object to be added is in no directory and not above the one it is added to;
    an object to be destroyed is in no directory. *)
Definition legal (o : cfg_op) (F : forest) : Prop :=
  match o with
  | CCreate addr _ n _ => zlen n + 1 < 2 ^ 32 ∧ match addr with Some x => F !! x = None | None => True end
  | CAdd d c => (∃ n p, F !! d = Some ((true, n), p)) ∧
      ∃ e p, F !! c = Some (e, p) ∧ (child_named F d e.2 = None → p = None ∧ c ∉ path_up F d)
  | CFind d _ => ∃ n p, F !! d = Some ((true, n), p)
  | CRemove d c => ∃ e, F !! c = Some (e, Some d)
  | CDestroy c => ∃ e, F !! c = Some (e, None)
  end.
Fixpoint all_legal (os : list cfg_op) (F : forest) : Prop :=
  match os with
  | [] => True
  | o :: os => legal o F ∧ all_legal os (spec_op o F).2
  end.

(** The memory holds the forest. *)
Definition view (m : cfg) (x : key) : option (entry * option key) := (λ o, (tag o, parent m x)) <$> objs m !! x.
Definition models (m : cfg) (F : forest) : Prop := (∃ kids, cfg_inv m kids) ∧ ∀ x, F !! x = view m x.

(** Every directory lists its children: directories first, then by name. *)
Definition lists_children (m : cfg) (F : forest) : Prop :=
  ∀ d n p, F !! d = Some ((true, n), p) → ∃ xs es,
    lists (links m) !! d = Some (list_of xs) ∧ linked (nodes (links m)) d None xs None ∧
    (∀ x, x ∈ xs ↔ ∃ e, F !! x = Some (e, Some d)) ∧
    Forall2 (λ x e, F !! x = Some (e, Some d)) xs es ∧ StronglySorted before es.

(** ** The abstract view *)

Section models.
Context (m : cfg) (kids : gmap key (list key)) (F : forest) (Hinv : cfg_inv m kids) (Hv : ∀ x, F !! x = view m x).

Lemma view_obj x e p : F !! x = Some (e, p) → ∃ o, objs m !! x = Some o ∧ tag o = e ∧ parent m x = p.
Proof. rewrite Hv. unfold view. intros (o & Ho & [= -> ->])%fmap_Some. by exists o. Qed.
Lemma obj_view x o : objs m !! x = Some o → F !! x = Some (tag o, parent m x).
Proof. intros Ho. rewrite Hv. unfold view. by rewrite Ho. Qed.
Lemma view_known x : is_Some (F !! x) ↔ is_Some (objs m !! x).
Proof. rewrite Hv. unfold view. by rewrite fmap_is_Some. Qed.

Lemma forest_size : size F = size (nodes (links m)).
Proof.
  rewrite <- !size_dom. f_equal. apply set_eq. intros x. rewrite !elem_of_dom. by rewrite (ci_node _ _ Hinv x), view_known.
Qed.
Lemma chain_up x l : up m x l → ∀ fuel, is_Some (objs m !! x) → (length l ≤ fuel)%nat → chain fuel F x = x :: l.
Proof.
  induction 1 as [x Hx|x p l Hx Hp IH]; intros fuel [o Ho] Hf.
  - destruct fuel as [|fuel]; cbn; [done|]. by rewrite (obj_view x o Ho), Hx.
  - destruct fuel as [|fuel]; simpl in Hf; [lia|]. cbn. rewrite (obj_view x o Ho), Hx. f_equal. apply IH; [|lia]. by eapply (parent_dir m kids).
Qed.
Lemma path_below x c : is_Some (objs m !! x) → c ∈ path_up F x ↔ below m c x.
Proof.
  intros Hx. destruct (ci_up _ _ Hinv x Hx) as [l Hl]. pose proof (up_short m kids Hinv x l Hx Hl) as Hs. unfold path_up.
  rewrite (chain_up x l Hl) by (rewrite ?forest_size; done || lia). split; [by exists l|]. intros (l' & Hl' & Hin). by rewrite (up_fun _ _ _ _ Hl Hl').
Qed.

Lemma dir_kids d n p : F !! d = Some ((true, n), p) → ∃ xs od k es, kids !! d = Some xs ∧ objs m !! d = Some od ∧ ext od = XDir k ∧ kids_ok (objs m) k xs es.
Proof.
  intros (o & Ho & [= Ht <-] & _)%view_obj. destruct (proj2 (ci_dir _ _ Hinv d)) as [xs Hd]; [exists o; by apply is_dir_true in Ht|].
  destruct (ci_kids _ _ Hinv d xs Hd) as (od & k & es & ? & ? & ?). by exists xs, od, k, es.
Qed.
Lemma kid_view d xs x : kids !! d = Some xs → x ∈ xs ↔ ∃ e, F !! x = Some (e, Some d).
Proof.
  intros Hd. split.
  - intros Hx. destruct (kid_known m kids Hinv d xs x Hd Hx) as [o Ho]. exists (tag o). rewrite (obj_view x o Ho). do 2 f_equal. apply (parent_kids m kids Hinv). by exists xs.
  - intros (e & (o & _ & _ & Hp)%view_obj). apply (parent_kids m kids Hinv) in Hp as (ys & Hy & Hx). congruence.
Qed.

(** A child of a name is unique; the search finds it. *)
Lemma kids_unique d xs nm x y : kids !! d = Some xs → x ∈ xs → y ∈ xs → named (objs m) nm x = true → named (objs m) nm y = true → x = y.
Proof.
  intros Hd Hx Hy Nx Ny. destruct (ci_kids _ _ Hinv d xs Hd) as (od & k & es & _ & _ & [Ht _ Hnd _]).
  apply list_elem_of_lookup_1 in Hx as [i Hi]. apply list_elem_of_lookup_1 in Hy as [j Hj].
  destruct (Forall2_lookup_l _ _ _ _ _ Ht Hi) as (ei & Hei & Ei), (Forall2_lookup_l _ _ _ _ _ Ht Hj) as (ej & Hej & Ej).
  apply fmap_Some in Ei as (ox & Hox & ->), Ej as (oy & Hoy & ->). unfold named in Nx, Ny. rewrite Hox in Nx. rewrite Hoy in Ny.
  apply bool_decide_eq_true in Nx, Ny. assert (i = j) as ->; [|congruence].
  apply (NoDup_lookup _ _ _ nm Hnd); rewrite list_lookup_fmap; [rewrite Hei|rewrite Hej]; cbn; by f_equal.
Qed.
Lemma kids_child d xs nm x : kids !! d = Some xs → x ∈ xs ∧ named (objs m) nm x = true ↔ ∃ nd, F !! x = Some nd ∧ is_child d nm (x, nd).
Proof.
  intros Hd. rewrite (kid_view d xs x Hd). unfold is_child. cbn. split.
  - intros [(e & He) Hn]. exists (e, Some d). split; [done|]. split; [done|]. destruct (view_obj _ _ _ He) as (o & Ho & <- & _). unfold named in Hn. rewrite Ho in Hn.
    by apply bool_decide_eq_true in Hn.
  - intros ([e p] & Hx & Hp & Hn). cbn in *. subst p. split; [by exists e|]. destruct (view_obj _ _ _ Hx) as (o & Ho & <- & _). unfold named. rewrite Ho. by apply bool_decide_eq_true.
Qed.
Lemma kids_named d xs nm : kids !! d = Some xs → List.find (named (objs m) nm) xs = child_named F d nm.
Proof.
  intros Hd. pose proof (λ x, kids_child d xs nm x Hd) as Hin.
  unfold child_named. destruct (filter (is_child d nm) (map_to_list F)) as [|[x nd] l] eqn:Ef.
  - destruct (List.find (named (objs m) nm) xs) as [x|] eqn:E; [|done]. apply List.find_some in E as [Hx Hn]. apply list_elem_of_In in Hx.
    destruct (proj1 (Hin x) (conj Hx Hn)) as (nd & Hnd & Hc). assert ((x, nd) ∈ filter (is_child d nm) (map_to_list F)) as Hbad by (apply list_elem_of_filter; split; [done|by apply elem_of_map_to_list]).
    rewrite Ef in Hbad. by apply not_elem_of_nil in Hbad.
  - assert ((x, nd) ∈ filter (is_child d nm) (map_to_list F)) as Hx by (rewrite Ef; left). apply list_elem_of_filter in Hx as [Hc Hx%elem_of_map_to_list].
    destruct (proj2 (Hin x)) as [Hxs Hn]; [by exists nd|]. destruct (List.find (named (objs m) nm) xs) as [y|] eqn:E.
    + apply List.find_some in E as [Hy Hny]. apply list_elem_of_In in Hy. f_equal. by apply (kids_unique d xs nm).
    + pose proof (List.find_none _ _ E x (proj1 (list_elem_of_In _ _) Hxs)). congruence.
Qed.

(** An object is found by its name in its directory. *)
Lemma child_found x d s nm : F !! x = Some ((s, nm), Some d) → child_named F d nm = Some x.
Proof.
  intros Hx. destruct (view_obj _ _ _ Hx) as (o & Ho & Ht & Hp). apply (parent_kids m kids Hinv) in Hp as (xs & Hd & Hin). rewrite <- (kids_named d xs nm Hd).
  assert (named (objs m) nm x = true) as Hn by (unfold named; rewrite Ho; apply bool_decide_eq_true; unfold tag in Ht; congruence).
  destruct (List.find (named (objs m) nm) xs) as [y|] eqn:E.
  - apply List.find_some in E as [Hy Hny]. apply list_elem_of_In in Hy. f_equal. by apply (kids_unique d xs nm).
  - pose proof (List.find_none _ _ E x (proj1 (list_elem_of_In _ _) Hin)). congruence.
Qed.
End models.

(** ** The steps *)

Section steps.
Context `{Allocator} (zero : tt_string_t).

Lemma some_ext_step x e o m o0 : (∀ n, ext o0 ≠ XDir n) → (∀ n, e ≠ XDir n) → o = set_ext e o0 →
  some_ext e (Some x) (cfg_alloc x o0 m) = Ret (TT_SUCCESS (Some x), cfg_alloc x o m).
Proof.
  intros H0 He ->. unfold some_ext. erewrite bind_step by (apply upd_obj_step; cbn; by rewrite lookup_insert_eq). unfold mret, M_ret, ret, put_objs, cfg_alloc. cbn.
  rewrite insert_insert_eq. do 2 f_equal. f_equal. f_equal. destruct (ext o0), e; try done; exfalso; (by eapply H0) || by eapply He.
Qed.

(** Creating any kind of object leaves a new one, on its own. *)
Lemma kind_created k x n attr m kids : cfg_inv m kids → objs m !! x = None → __name_ok n = true → zlen n + 1 < 2 ^ 32 →
  ∃ o, create_kind zero k (Some x) n attr m = Ret (TT_SUCCESS (Some x), cfg_alloc x o m) ∧ obj_ok o ∧ tag o = (kind_dir k, n) ∧ cfg_inv (cfg_alloc x o m) (alloc_kids x o kids).
Proof.
  intros Hinv Hx Hn Hl.
  assert (∃ o, create_kind zero k (Some x) n attr m = Ret (TT_SUCCESS (Some x), cfg_alloc x o m) ∧ obj_ok o ∧ tag o = (kind_dir k, n) ∧ (∀ j, ext o = XDir j → j = 0)) as (o & ? & ? & ? & ?);
    [|exists o; split_and!; try done; by apply inv_alloc].
  destruct k as [|p cb|p cb|p on_set|p cb|f]; cbn [create_kind kind_dir].
  - destruct (dir_create_ok m kids x n attr Hinv Hx Hn Hl) as [E Hi]. eexists. split; [exact E|]. split; [by constructor|]. split; [done|]. by intros ? [= <-].
  - exists (new_obj (XU32 (match cb with Some g => g | None => None end)) TT_CFGOBJ_U32 n __cfgu32_itf (Some p) attr). split; [|by repeat split].
    unfold tt_cfgu32_create. erewrite bind_step by (by apply cfg_create_ok). by apply some_ext_step.
  - exists (new_obj (XS32 (match cb with Some g => g | None => None end)) TT_CFGOBJ_S32 n __cfgs32_itf (Some p) attr). split; [|by repeat split].
    unfold tt_cfgs32_create. erewrite bind_step by (by apply cfg_create_ok). by apply some_ext_step.
  - exists (new_obj (XBool on_set) TT_CFGOBJ_BOOL n __cfgbool_itf (Some p) attr). split; [|by repeat split].
    unfold tt_cfgbool_create. erewrite bind_step by (by apply cfg_create_ok). by apply some_ext_step.
  - destruct (string_init_ok None attr_default_wf) as (s & E & Hs & _).
    exists (new_obj (XStr (match cb with Some g => g | None => None end) s) TT_CFGOBJ_STRING n __cfgstr_itf (Some p) attr).
    split; [|split; [constructor; [done|done|split; [done|by exists []]]|by split]].
    unfold tt_cfgstr_create. erewrite bind_step by (by apply cfg_create_ok). cbv beta iota. rewrite E. erewrite (bind_step (access (Ret s))) by done. by apply some_ext_step.
  - exists (new_obj (XExe f) TT_CFGOBJ_EXE n __cfgexe_itf None attr). split; [|by repeat split].
    unfold tt_cfgexe_create. erewrite bind_step by (by apply cfg_create_ok). by apply some_ext_step.
Qed.

Lemma name_refused k addr n attr m : __name_ok n = false ∨ addr = None → create_kind zero k addr n attr m = Ret (TT_SUCCESS None, m).
Proof.
  intros Hn. assert (∀ e t i op, t ≠ TT_CFGOBJ_TYPE_NUM → tt_cfgobj_create addr e t n i op attr m = Ret (TT_SUCCESS None, m)) as Hc.
  { intros e t i op Ht. unfold tt_cfgobj_create, TT_CFGOBJ_TYPE_VALID. rewrite bool_decide_eq_true_2 by done. erewrite (bind_step (assert_always true)) by done.
    destruct Hn as [->| ->]; [done|]. by destruct (negb _). }
  destruct k; cbn [create_kind]; unfold tt_cfgdir_create, tt_cfgu32_create, tt_cfgs32_create, tt_cfgbool_create, tt_cfgstr_create, tt_cfgexe_create; by erewrite bind_step by by apply Hc.
Qed.

Lemma parent_alloc x o m y : parent (cfg_alloc x o m) y = if decide (y = x) then None else parent m y.
Proof. unfold parent. cbn. destruct (decide (y = x)) as [->|]; [by rewrite lookup_insert_eq|by rewrite lookup_insert_ne]. Qed.

Lemma parent_linked m kids m' d xs1 c xs2 : cfg_inv m kids → cfg_inv m' (<[d := xs1 ++ c :: xs2]> kids) → kids !! d = Some (xs1 ++ xs2) →
  ∀ y, parent m' y = if decide (y = c) then Some d else parent m y.
Proof.
  intros Hinv Hinv' Hd y. apply option_eq. intros p. rewrite (parent_kids m' _ Hinv'). destruct (decide (y = c)) as [->|Hne].
  - split; [|intros [= <-]; exists (xs1 ++ c :: xs2); rewrite lookup_insert_eq; split; [done|set_solver]].
    intros (xs & Hp & Hin). f_equal. assert (parent m' c = Some p) as E1 by (apply (parent_kids m' _ Hinv'); by exists xs).
    assert (parent m' c = Some d) as E2 by (apply (parent_kids m' _ Hinv'); exists (xs1 ++ c :: xs2); rewrite lookup_insert_eq; split; [done|set_solver]). congruence.
  - rewrite (parent_kids m kids Hinv). destruct (decide (p = d)) as [->|]; [|by rewrite lookup_insert_ne]. rewrite lookup_insert_eq, Hd.
    split; intros (? & [= <-] & Hin); eexists; (split; [done|]); rewrite elem_of_app in *; rewrite ?elem_of_cons in *; tauto.
Qed.

Lemma tag_view (a b : option tt_cfgobj_t) (p : option key) : tag <$> a = tag <$> b → (λ o, (tag o, p)) <$> a = (λ o, (tag o, p)) <$> b.
Proof. destruct a, b; cbn; congruence. Qed.

(** Every legal operation does to the memory what it does to the forest. *)
Lemma op_models m F o : models m F → legal o F → ∃ m', run_op zero o m = Ret ((spec_op o F).1, m') ∧ models m' (spec_op o F).2.
Proof.
  intros [[kids Hinv] Hv] Hleg. destruct o as [addr k n attr|d c|d n|d c|c]; cbn [run_op spec_op legal] in *.
  - destruct Hleg as [Hl Hf]. destruct addr as [x|]; [|exists m; split; [apply name_refused; by right|split; [by exists kids|done]]].
    destruct (__name_ok n) eqn:En; [|exists m; split; [apply name_refused; by left|split; [by exists kids|done]]].
    assert (objs m !! x = None) as Hx by (rewrite Hv in Hf; unfold view in Hf; by destruct (objs m !! x)).
    destruct (kind_created k x n attr m kids Hinv Hx En Hl) as (o & E & Hok & Ht & Hi). exists (cfg_alloc x o m). split; [exact E|]. split; [by eexists|].
    intros y. cbn [snd]. unfold view. rewrite parent_alloc. cbn. destruct (decide (y = x)) as [->|]; [by rewrite !lookup_insert_eq; cbn; rewrite Ht|].
    rewrite !lookup_insert_ne by done. apply Hv.
  - destruct Hleg as ((nd & pd & Hd) & e & p & Hc & Hok). rewrite Hc. destruct (view_obj m F Hv _ _ _ Hc) as (oc & Hoc & <- & Hp).
    destruct (dir_kids m kids F Hinv Hv d nd pd Hd) as (xs & od & w & es & Hk & Hod & Ew & _).
    pose proof (cfg_add_ok m kids d c xs oc od w Hinv Hk Hoc Hod Ew) as Ha. rewrite (kids_named m kids F Hinv Hv d xs (name oc) Hk) in Ha. change (tag oc).2 with (name oc) in *.
    destruct (child_named F d (name oc)); [exists m; by erewrite bind_error by exact Ha; split; [|split; [exists kids|]]|]. destruct (Hok eq_refl) as [-> Hnb].
    rewrite (path_below m kids F Hinv Hv) in Hnb by by eexists. destruct (Ha Hp Hnb) as (xs1 & xs2 & -> & E & Hi). eexists. erewrite bind_step by exact E. split; [done|].
    split; [by eexists|]. intros y. unfold view. rewrite (parent_linked _ _ _ _ _ _ _ Hinv Hi Hk). cbn [snd].
    assert (∀ z, tag <$> objs (placed (widened d (Z.max w (width (tag oc))) m) d xs1 c xs2) !! z = tag <$> objs m !! z) as Ht.
    { intros z. unfold placed, widened. rewrite Hod. cbn. destruct (decide (z = d)) as [->|]; [|by rewrite lookup_insert_ne]. by rewrite lookup_insert_eq, Hod. }
    rewrite (tag_view _ _ _ (Ht y)). destruct (decide (y = c)) as [->|Hne]; [by rewrite lookup_insert_eq, Hoc|]. rewrite lookup_insert_ne by done. apply Hv.
  - destruct Hleg as (nd & pd & Hd). destruct (dir_kids m kids F Hinv Hv d nd pd Hd) as (xs & od & w & es & Hk & _).
    exists m. rewrite <- (kids_named m kids F Hinv Hv d xs n Hk). split; [by apply (cfg_find_ok m kids Hinv)|]. split; [by exists kids|done].
  - destruct Hleg as (e & Hc). rewrite Hc. destruct (view_obj m F Hv _ _ _ Hc) as (oc & Hoc & <- & Hp). apply (parent_kids m kids Hinv) in Hp as (xs & Hk & Hin).
    apply list_elem_of_split in Hin as (xs1 & xs2 & ->). erewrite bind_step by (apply (cfg_remove_ok m kids Hinv d xs1 c xs2 Hk)). eexists. split; [done|].
    split; [eexists; by apply (unlinked_inv m kids Hinv d xs1 c xs2 Hk)|]. intros y. unfold view. cbn [snd]. change (objs (unlinked m d xs1 c xs2)) with (objs m).
    destruct (decide (y = c)) as [->|Hne].
    + rewrite lookup_insert_eq, Hoc, (unlinked_root m kids Hinv d xs1 c xs2 Hk). done.
    + rewrite lookup_insert_ne, Hv by done. unfold view. by rewrite (unlinked_other m kids Hinv d xs1 c xs2 Hk y Hne).
  - destruct Hleg as (e & Hc). destruct (view_obj m F Hv _ _ _ Hc) as (oc & Hoc & <- & Hp).
    destruct (cfgobj_destroy_ok m kids c Hinv ltac:(by eexists) Hp) as (m' & kids' & E & Hpr). exists m'. erewrite bind_step by exact E. split; [done|].
    split; [exists kids'; apply Hpr|]. intros y. cbn [snd]. unfold view. apply option_eq. intros nd. rewrite map_lookup_filter_Some. cbn [fst]. split.
    + intros [Hy Hnp]. rewrite Hv in Hy. unfold view in Hy. apply fmap_Some in Hy as (o & Ho & ->). rewrite (path_below m kids F Hinv Hv) in Hnp by by eexists.
      assert (objs m' !! y = Some o) as Ho' by by apply (pr_keep _ _ _ _ _ _ Hpr). rewrite Ho'. cbn. by rewrite (pr_parent _ _ _ _ _ _ Hpr) by by eexists.
    + intros (o & Ho & ->)%fmap_Some. rewrite (pr_parent _ _ _ _ _ _ Hpr) by by eexists. apply (pr_sub _ _ _ _ _ _ Hpr) in Ho as [Ho Hnb].
      rewrite (path_below m kids F Hinv Hv) by by eexists. split; [|done]. by apply (obj_view m F Hv).
Qed.

Lemma run_models os : ∀ m F, models m F → all_legal os F → ∃ m', run_cfg zero os m = Ret ((spec_cfg os F).1, m') ∧ models m' (spec_cfg os F).2.
Proof.
  induction os as [|o os IH]; intros m F Hm; cbn [all_legal run_cfg spec_cfg]; [intros _; by exists m|]. intros [Hl Hls].
  destruct (op_models m F o Hm Hl) as (m1 & E & Hm1). destruct (spec_op o F) as [r F1]. cbn [fst snd] in *. destruct (IH m1 F1 Hm1 Hls) as (m2 & E2 & Hm2).
  destruct (spec_cfg os F1) as [rs F2]. cbn [fst snd] in *. exists m2. rewrite E. cbn [exec_bind]. by rewrite E2.
Qed.

Lemma models_listing m F : models m F → lists_children m F.
Proof.
  intros [[kids Hinv] Hv] d n p Hd. destruct (dir_kids m kids F Hinv Hv d n p Hd) as (xs & od & k & es & Hk & _ & _ & [Ht Hs _ _]).
  destruct (rep_list _ _ (ci_lrep _ _ Hinv) d xs Hk) as (El & _ & Hl). exists xs, es. split_and!; try done; [intros x; by apply (kid_view m kids F Hinv Hv d xs x)|].
  rewrite Forall2_lookup in *. intros i. specialize (Ht i). destruct (xs !! i) as [x|] eqn:Ex, (es !! i) as [e|] eqn:Ee; inversion Ht; subst; constructor.
  destruct (proj1 (kid_view m kids F Hinv Hv d xs x Hk)) as (e' & He'); [by eapply list_elem_of_lookup_2|]. destruct (view_obj m F Hv _ _ _ He') as (o & Ho & <- & _).
  match goal with Hx : tag <$> _ = Some _ |- _ => rewrite Ho in Hx; cbn in Hx; injection Hx as <- end. done.
Qed.

Lemma models_empty vs : models (mk_cfg (mk_lmem ∅ ∅) ∅ vs) ∅.
Proof.
  split; [|intros x; unfold view; cbn; by rewrite !lookup_empty]. exists ∅. constructor; cbn.
  - constructor; cbn; intros; by simplify_map_eq.
  - intros x. by rewrite !lookup_empty.
  - intros x o Hx. by rewrite lookup_empty in Hx.
  - intros x. rewrite lookup_empty. split; [by intros []|]. intros (o & Ho & _). by rewrite lookup_empty in Ho.
  - intros x o Hx. by rewrite lookup_empty in Hx.
  - intros x [o Hx]. by rewrite lookup_empty in Hx.
Qed.
End steps.

(** ** Properties *)

(** C31: from an empty memory, any sequence of legal operations on configuration objects
    returns and gives the results of the abstract forest: a new object stands alone, a
    name with other characters than letters, digits and hyphens is refused, adding
    refuses a name that the directory has and otherwise moves the object below it,
    finding gives the child of exactly that name, removing puts it on its own, and
    destroying takes away the object and what is below it, each once, and nothing else.
    Afterwards the memory holds that forest, and every directory lists its children in
    order: the directories first, each kind by name. *)
Theorem cfg_refines `{Allocator} zero vs os : all_legal os ∅ →
  ∃ m', run_cfg zero os (mk_cfg (mk_lmem ∅ ∅) ∅ vs) = Ret ((spec_cfg os ∅).1, m') ∧
    models m' (spec_cfg os ∅).2 ∧ lists_children m' (spec_cfg os ∅).2.
Proof.
  intros Hl. destruct (run_models zero os _ ∅ (models_empty vs) Hl) as (m' & E & Hm). exists m'. split; [exact E|]. split; [done|]. by apply models_listing.
Qed.

(** Two directories and two numbers: "net" takes "b", "a" and "sub"; a second "a" is
    refused; "sub" is taken out, then "net" is destroyed. *)
Definition demo : list cfg_op :=
  [ CCreate (Some 1%positive) KDir [110; 101; 116] None; CCreate (Some 2%positive) KDir [115; 117; 98] None;
    CCreate (Some 3%positive) (KU32 9%positive None) [97] None; CCreate (Some 4%positive) (KS32 9%positive None) [98] None;
    CCreate (Some 5%positive) (KExe 7) [97] None; CCreate (Some 6%positive) KDir [47] None;
    CAdd 1%positive 4%positive; CAdd 1%positive 3%positive; CAdd 1%positive 2%positive; CAdd 1%positive 5%positive;
    CFind 1%positive [97]; CRemove 1%positive 2%positive; CDestroy 1%positive; CAdd 2%positive 5%positive; CFind 2%positive [97] ].
Lemma cfg_refines_witness : ∃ m', @run_cfg zero_alloc (read_buf 0) demo (mk_cfg (mk_lmem ∅ ∅) ∅ ∅) = Ret
  ([TT_SUCCESS (Some 1%positive); TT_SUCCESS (Some 2%positive); TT_SUCCESS (Some 3%positive); TT_SUCCESS (Some 4%positive);
    TT_SUCCESS (Some 5%positive); TT_SUCCESS None; TT_SUCCESS None; TT_SUCCESS None; TT_SUCCESS None; TT_ERROR TT_FAIL;
    TT_SUCCESS (Some 3%positive); TT_SUCCESS None; TT_SUCCESS None; TT_SUCCESS None; TT_SUCCESS (Some 5%positive)], m').
Proof.
  assert (all_legal demo ∅) as Hl.
  { cbn [demo all_legal]. repeat split; try by vm_compute.
    all: try (by eexists; vm_compute); try (by eexists _, _; vm_compute).
    all: eexists _, _; split; [by vm_compute|intros _; split; [done|by vm_compute; set_solver]]. }
  destruct (@cfg_refines zero_alloc (read_buf 0) ∅ demo Hl) as (m' & E & _). exists m'. rewrite E. by vm_compute.
Defined.
