(* ===== verification/CfgPath.v ===== *)
(** Paths of configuration objects (init/tt_config_path.c, less the completion): from a
    path to an object and back. *)

From S2P Require Import Prelude MemSpring Buffer BufferFormat SshDef BufCommon Str StrSpec StrRun LinkedList CfgTree CfgForest CfgDestroy CfgValue CfgRun.
From stdpp Require Import gmap sorting.

#[local] Open Scope Z_scope.

(** ** The code *)

Definition __co_parent (co : key) : M cfg (option key) := v ← in_links (LinkedList.node co); mret (lst v).

Definition __co_goto (current : key) (nm : list Z) : M cfg (option key) :=
  if (zlen nm =? 1) && (strncmp nm [46] =? 0) then mret (Some current)
  else if (zlen nm =? 2) && (strncmp nm [46; 46] =? 0) then __co_parent current
  else tt_cfgdir_find current nm.

(** [acc] are the characters from [prev] to [pos], [rest] those from [pos] on. *)
Fixpoint slash_loop (co : key) (acc rest : list Z) : M cfg (option key) :=
  match rest with
  | [] => if 0 <? zlen acc then __co_goto co acc else mret (Some co)
  | c :: rest =>
      if c =? 47 then
        r ← __co_goto co acc;
        match r with
        | None => mret None
        | Some co' =>
            o ← obj co';
            if negb (is_dir (type o)) then mret None else slash_loop co' [] rest
        end
      else slash_loop co (acc ++ [c]) rest
  end.

(** [path] are the [len] characters at the argument of that name. *)
Definition tt_cfgpath_p2n (root current : key) (path : list Z) : M cfg (option key) :=
  match path with
  | [] => mret None
  | c :: rest =>
      let '(co, rest) := if c =? 47 then (root, rest) else (current, path) in
      o ← obj co;
      if negb (is_dir (type o)) then mret None else slash_loop co [] rest
  end.

Section code.
Context `{Allocator}.

(** Going up does not change the configuration [m]. *)
Fixpoint n2p_loop (fuel : nat) (m : cfg) (root : option key) (co : key) (pos : Z) : M tt_buf_t unit :=
  match fuel with
  | O => λ _, Diverge
  | S fuel =>
      v ← access (match nodes (links m) !! co with Some v => Ret v | None => Undef end);
      match lst v with
      | None => mret tt
      | Some co' =>
          if bool_decide (Some co' = root) then mret tt
          else
            tt_buf_insert pos [47];;
            o ← access (at_obj m co');
            tt_buf_insert_cstr pos (name o);;
            n2p_loop fuel m root co' pos
      end
  end.
Definition tt_cfgpath_n2p (m : cfg) (root : option key) (current : key) : M tt_buf_t unit :=
  if bool_decide (root = Some current) then mret tt
  else
    pos ← gets wpos;
    o ← access (at_obj m current);
    tt_buf_insert_cstr pos (name o);;
    n2p_loop (fuel_of m) m root current pos.
End code.

(** ** Paths on the forest *)

(** The parts of a path between slashes; there is always a last one. *)
Fixpoint split_path (acc rest : list Z) : list (list Z) * list Z :=
  match rest with
  | [] => ([], acc)
  | c :: rest => if c =? 47 then let '(ds, l) := split_path [] rest in (acc :: ds, l) else split_path (acc ++ [c]) rest
  end.

Definition parent_of (F : forest) (x : key) : option key := match F !! x with Some (_, p) => p | None => None end.
Definition dir_at (F : forest) (x : key) : bool := match F !! x with Some ((d, _), _) => d | None => false end.

(** One part of a path. *)
Definition go (F : forest) (co : key) (nm : list Z) : option key :=
  if bool_decide (nm = [46]) then Some co
  else if bool_decide (nm = [46; 46]) then parent_of F co
  else child_named F co nm.
Fixpoint walk (F : forest) (co : key) (ds : list (list Z)) : option key :=
  match ds with
  | [] => Some co
  | d :: ds => match go F co d with Some co' => if dir_at F co' then walk F co' ds else None | None => None end
  end.
(** Directories as far as the last slash, then any child; nothing behind the last slash
    is the directory itself. *)
Definition resolve (F : forest) (root current : key) (path : list Z) : option key :=
  match path with
  | [] => None
  | c :: rest =>
      let '(co, rest) := if c =? 47 then (root, rest) else (current, path) in
      if negb (dir_at F co) then None
      else
        let '(ds, l) := split_path [] rest in
        match walk F co ds with
        | Some d => if bool_decide (l = []) then Some d else go F d l
        | None => None
        end
  end.

Section p2n.
Context (m : cfg) (F : forest) (Hm : models m F).

Lemma dir_obj x o : objs m !! x = Some o → dir_at F x = is_dir (type o).
Proof. intros Ho. destruct Hm as [_ Hv]. unfold dir_at. rewrite Hv. unfold view. by rewrite Ho. Qed.
Lemma known_obj x : is_Some (F !! x) → ∃ o, objs m !! x = Some o.
Proof. destruct Hm as [_ Hv]. rewrite Hv. unfold view. rewrite fmap_is_Some. done. Qed.
Lemma dir_known x : dir_at F x = true → ∃ n p, F !! x = Some ((true, n), p).
Proof. unfold dir_at. destruct (F !! x) as [[[[] n] p]|]; try done. by exists n, p. Qed.

Lemma goto_ok co nm : dir_at F co = true → __co_goto co nm m = Ret (TT_SUCCESS (go F co nm), m) ∧ (∀ y, go F co nm = Some y → is_Some (F !! y)).
Proof.
  intros Hd. destruct Hm as [[kids Hinv] Hv]. destruct (dir_known co Hd) as (n & p & Hco). unfold __co_goto, go.
  assert (∀ s, Forall (λ c, c ≠ 0) s → (zlen nm =? zlen s) && (strncmp nm s =? 0) = bool_decide (nm = s)) as Hs.
  { intros s Hz. rewrite strncmp_prefix by done. destruct (Z.eqb_spec (zlen nm) (zlen s)) as [E|E]; cbn [andb].
    - repeat case_bool_decide; try done; exfalso; [|naive_solver]. match goal with Hp : _ `prefix_of` _ |- _ => destruct Hp as [k ->] end. rewrite zlen_app in E. destruct k; [rewrite app_nil_r in *; done|]. rewrite zlen_cons in E. pose proof (zlen_nonneg k). lia.
    - symmetry. apply bool_decide_eq_false. by intros ->. }
  pose proof (Hs [46] ltac:(by repeat constructor)) as H1. pose proof (Hs [46; 46] ltac:(by repeat constructor)) as H2. change (zlen [46]) with 1 in H1. change (zlen [46; 46]) with 2 in H2. rewrite H1, H2. clear Hs H1 H2. case_bool_decide; [split; [done|intros ? [= <-]; by eexists]|]. case_bool_decide.
  - destruct (view_obj m F Hv _ _ _ Hco) as (o & Ho & _ & Hp). destruct (proj2 (ci_node _ _ Hinv co)) as [v Hn]; [by eexists|].
    unfold __co_parent, parent_of. erewrite bind_step by (apply node_step; exact Hn). rewrite Hco. unfold parent in Hp. rewrite Hn in Hp. subst p. split; [done|].
    intros y Hy. apply (view_known m F Hv). apply (parent_dir m kids Hinv co). unfold parent. by rewrite Hn.
  - destruct (dir_kids m kids F Hinv Hv co n p Hco) as (xs & od & k & es & Hk & _). rewrite <- (kids_named m kids F Hinv Hv co xs nm Hk).
    split; [by apply (cfg_find_ok m kids Hinv)|]. intros y Hy. apply List.find_some in Hy as [Hy _]. apply (view_known m F Hv), (kid_known m kids Hinv co xs y Hk). by apply list_elem_of_In.
Qed.

Lemma slash_loop_ok rest : ∀ co acc, dir_at F co = true →
  let '(ds, l) := split_path acc rest in
  slash_loop co acc rest m = Ret (TT_SUCCESS (match walk F co ds with Some d => if bool_decide (l = []) then Some d else go F d l | None => None end), m).
Proof.
  induction rest as [|c rest IH]; intros co acc Hd; cbn [split_path slash_loop walk].
  - destruct acc as [|a acc]; [done|]. rewrite zlen_cons. rewrite (proj2 (Z.ltb_lt 0 _)) by (pose proof (zlen_nonneg acc); lia).
    rewrite bool_decide_eq_false_2 by done. by apply goto_ok.
  - destruct (Z.eqb_spec c 47); [|apply IH; done]. destruct (goto_ok co acc Hd) as [E Hk]. destruct (split_path [] rest) as [ds l] eqn:Es. cbn [walk].
    erewrite bind_step by exact E. destruct (go F co acc) as [co'|]; [|done]. destruct (known_obj co' (Hk co' eq_refl)) as [o Ho].
    erewrite bind_step by (apply obj_step; exact Ho). rewrite (dir_obj co' o Ho). destruct (is_dir (type o)) eqn:Et; [|done]. cbn [negb].
    specialize (IH co' []). rewrite Es in IH. apply IH. by rewrite (dir_obj co' o Ho).
Qed.

Lemma p2n_ok root current path : is_Some (F !! root) → is_Some (F !! current) →
  tt_cfgpath_p2n root current path m = Ret (TT_SUCCESS (resolve F root current path), m).
Proof.
  intros Hr Hc. unfold tt_cfgpath_p2n, resolve. destruct path as [|c rest]; [done|].
  assert (∀ co s, is_Some (F !! co) → (o ← obj co; if negb (is_dir (type o)) then mret None else slash_loop co [] s) m = Ret (TT_SUCCESS
    (if negb (dir_at F co) then None else let '(ds, l) := split_path [] s in match walk F co ds with Some d => if bool_decide (l = []) then Some d else go F d l | None => None end), m)) as Hgo.
  { intros co s Hco. destruct (known_obj co Hco) as [o Ho]. erewrite bind_step by (apply obj_step; exact Ho). rewrite (dir_obj co o Ho).
    destruct (is_dir (type o)) eqn:Et; [|done]. cbn [negb]. pose proof (slash_loop_ok s co [] ltac:(by rewrite (dir_obj co o Ho))) as E. by destruct (split_path [] s). }
  destruct (c =? 47); by apply Hgo.
Qed.

(** What a path leads to is an object of the forest. *)
Lemma resolve_known root current path y : is_Some (F !! root) → is_Some (F !! current) → resolve F root current path = Some y → is_Some (F !! y).
Proof.
  intros Hr Hc. unfold resolve. destruct path as [|c rest]; [done|].
  assert (∀ ds co d, dir_at F co = true → walk F co ds = Some d → dir_at F d = true) as Hw.
  { induction ds as [|nm ds IH]; intros co d Hd; cbn [walk]; [by intros [= <-]|]. destruct (go F co nm) as [co'|]; [|done]. destruct (dir_at F co') eqn:Ed; [|done]. by apply IH. }
  assert (∀ co s, (if negb (dir_at F co) then None else let '(ds, l) := split_path [] s in match walk F co ds with Some d => if bool_decide (l = []) then Some d else go F d l | None => None end) = Some y → is_Some (F !! y)) as Hgo.
  { intros co s. destruct (dir_at F co) eqn:Ed; [|done]. cbn [negb]. destruct (split_path [] s) as [ds l]. destruct (walk F co ds) as [d|] eqn:Ew; [|done]. pose proof (Hw _ _ _ Ed Ew) as Hd.
    case_bool_decide; [intros [= <-]; destruct (dir_known d Hd) as (? & ? & ->); by eexists|]. by apply goto_ok. }
  destruct (c =? 47); apply Hgo.
Qed.
End p2n.

(** ** The path of an object *)

Definition name_at (F : forest) (x : key) : list Z := match F !! x with Some ((_, n), _) => n | None => [] end.

(** The objects before [root]. *)
Fixpoint cut_at (root : option key) (l : list key) : list key :=
  match l with [] => [] | x :: l => if bool_decide (Some x = root) then [] else x :: cut_at root l end.
Fixpoint prepend (F : forest) (s : list Z) (l : list key) : list Z :=
  match l with [] => s | x :: l => prepend F (name_at F x ++ 47 :: s) l end.
(** The names below [root] down to the object, with slashes between them. *)
Definition path_of (F : forest) (root : option key) (x : key) : list Z :=
  if bool_decide (root = Some x) then [] else prepend F (name_at F x) (cut_at root (tail (path_up F x))).

Section n2p.
Context `{Allocator} (m : cfg) (F : forest) (Hm : models m F).

Lemma name_obj x o : objs m !! x = Some o → name_at F x = name o.
Proof. intros Ho. destruct Hm as [_ Hv]. unfold name_at. rewrite Hv. unfold view. by rewrite Ho. Qed.
Lemma name_chars x : Forall is_u8 (name_at F x) ∧ __name_ok (name_at F x) = true.
Proof.
  destruct Hm as [[kids Hinv] Hv]. unfold name_at. destruct (F !! x) as [[[d n] p]|] eqn:E; [|by split].
  destruct (view_obj m F Hv _ _ _ E) as (o & Ho & Ht & _). pose proof (ok_name _ (ci_obj _ _ Hinv x o Ho)) as Hn. unfold tag in Ht. injection Ht as _ <-.
  split; [|done]. unfold __name_ok in Hn. rewrite forallb_forall in Hn. apply List.Forall_forall. intros c Hc. specialize (Hn c Hc). unfold isalnum in Hn. unfold is_u8.
  repeat (apply orb_true_iff in Hn as [Hn|Hn] || apply andb_true_iff in Hn as [Hn ?]); lia.
Qed.

(** One insertion at [pos] in front of what the path has so far. *)
Lemma insert_front b n s acc b1 d : becomes b n 0 (s ++ acc) b1 → rpos b = 0 → s = content b → buf_wf b → readonly b = false → reliable b →
  0 ≤ n → Forall is_u8 d → room b (n + zlen d) → wpos b = zlen s →
  ∃ b2, tt_buf_insert (wpos b) d b1 = Ret (TT_SUCCESS tt, b2) ∧ becomes b (n + zlen d) 0 (s ++ d ++ acc) b2.
Proof.
  intros Hb Hr Hs Hwf Hro Hrel Hn Hd Hroom Hw. pose proof (zlen_nonneg d). pose proof (zlen_nonneg acc).
  destruct (insert_ok b1 (be_wf _ _ _ _ _ Hb)) with (i := wpos b) (d := d) as [(b2 & E & Hb2)|[_ Hnr]].
  - by rewrite (be_ro _ _ _ _ _ Hb).
  - apply Hb.
  - done.
  - rewrite (be_content _ _ _ _ _ Hb), zlen_app, Hw. pose proof (zlen_nonneg s). lia.
  - by eapply (becomes_room b n (zlen d)); [..|exact Hb].
  - exists b2. split; [exact E|]. eapply becomes_trans; [done|done|exact Hb|]. rewrite (be_content _ _ _ _ _ Hb) in Hb2.
    assert (Z.to_nat (wpos b) = length s) as El by (rewrite Hw; unfold zlen; lia). by rewrite El, take_app_length, drop_app_length in Hb2.
  - exfalso. apply Hnr. unfold reliable in *. by rewrite (be_mspg _ _ _ _ _ Hb).
Qed.

Context (b : tt_buf_t) (Hwf : buf_wf b) (Hro : readonly b = false) (Hrel : reliable b) (Hr : rpos b = 0).
Lemma wpos_content : wpos b = zlen (content b).
Proof. rewrite (wf_content b Hwf), Hr. lia. Qed.

Lemma prepend_len acc l : zlen acc ≤ zlen (prepend F acc l).
Proof. revert acc. induction l as [|x l IH]; intros acc; cbn [prepend]; [lia|]. pose proof (IH (name_at F x ++ 47 :: acc)) as Hl. rewrite zlen_app, zlen_cons in Hl. pose proof (zlen_nonneg (name_at F x)). lia. Qed.

Lemma n2p_loop_ok root x l : up m x l → ∀ fuel acc b1 , is_Some (objs m !! x) → (length l < fuel)%nat →
  becomes b (zlen acc) 0 (content b ++ acc) b1 → room b (zlen (prepend F acc (cut_at root l))) →
  ∃ b2, n2p_loop fuel m root x (wpos b) b1 = Ret (TT_SUCCESS tt, b2) ∧
    let d := prepend F acc (cut_at root l) in becomes b (zlen d) 0 (content b ++ d) b2.
Proof.
  destruct Hm as [[kids Hinv] Hv].
  induction 1 as [x Hx|x p l Hx Hp IH]; intros [|fuel] acc b1 [o Ho] Hf Hb Hroom; simpl in Hf; try lia.
  - destruct (proj2 (ci_node _ _ Hinv x)) as [v Hn]; [by eexists|]. unfold parent in Hx. rewrite Hn in Hx.
    cbn [n2p_loop]. rewrite Hn. erewrite (bind_step (access (Ret v))) by done. rewrite Hx. by exists b1.
  - destruct (proj2 (ci_node _ _ Hinv x)) as [v Hn]; [by eexists|]. unfold parent in Hx. rewrite Hn in Hx. assert (lst v = Some p) as Hl by done.
    cbn [n2p_loop cut_at] in *. rewrite Hn. erewrite (bind_step (access (Ret v))) by done. rewrite Hl. case_bool_decide; [by exists b1|]. cbn [prepend] in *.
    assert (parent m x = Some p) as Hpx by (unfold parent; by rewrite Hn). destruct (parent_dir m kids Hinv x p Hpx) as [_ [op Hop]].
    pose proof (prepend_len (name_at F p ++ 47 :: acc) (cut_at root l)) as Hlen. rewrite zlen_app, zlen_cons in Hlen. pose proof (zlen_nonneg acc). pose proof (zlen_nonneg (name_at F p)).
    destruct (insert_front b (zlen acc) (content b) acc b1 [47]) as (b2 & E2 & Hb2); try done; [by repeat constructor|eapply room_weaken; [|exact Hroom]; change (zlen [47]) with 1; lia|apply wpos_content|].
    erewrite bind_step by exact E2. unfold at_obj. rewrite Hop. erewrite (bind_step (access (Ret op))) by done. rewrite <- (name_obj p op Hop). change (zlen [47]) with 1 in Hb2. cbn [app] in Hb2.
    destruct (insert_front b (zlen acc + 1) (content b) (47 :: acc) b2 (name_at F p)) as (b3 & E3 & Hb3); try done; [lia|apply name_chars|eapply room_weaken; [|exact Hroom]; lia|apply wpos_content|].
    unfold tt_buf_insert_cstr. erewrite bind_step by exact E3. apply IH; [by eexists|lia| |done]. rewrite zlen_app, zlen_cons.
    replace (zlen (name_at F p) + (1 + zlen acc)) with (zlen acc + 1 + zlen (name_at F p)) by lia. exact Hb3.
Qed.

Lemma n2p_ok root x : is_Some (F !! x) → room b (zlen (path_of F root x)) →
  ∃ b', tt_cfgpath_n2p m root x b = Ret (TT_SUCCESS tt, b') ∧ becomes b (zlen (path_of F root x)) 0 (content b ++ path_of F root x) b'.
Proof.
  intros Hx Hroom. pose proof Hm as [[kids Hinv] Hv]. unfold tt_cfgpath_n2p, path_of in *. case_bool_decide.
  - exists b. split; [done|]. rewrite app_nil_r, <- Hr. by apply becomes_refl.
  - destruct (known_obj m F Hm x Hx) as [o Ho]. destruct (ci_up _ _ Hinv x) as [l Hl]; [by eexists|].
    pose proof (up_short m kids Hinv x l ltac:(by eexists) Hl) as Hs.
    assert (path_up F x = x :: l) as Ep by (unfold path_up; apply (chain_up m kids F Hinv Hv x l Hl); [by eexists|rewrite (forest_size m kids F Hinv Hv); lia]).
    rewrite Ep in *. cbn [tail] in *. erewrite (bind_step (gets wpos)) by done. unfold at_obj. rewrite Ho. erewrite (bind_step (access (Ret o))) by done. rewrite <- (name_obj x o Ho).
    pose proof (prepend_len (name_at F x) (cut_at root l)).
    pose proof (zlen_nonneg (name_at F x)).
    destruct (insert_front b 0 (content b) [] b (name_at F x)) as (b1 & E1 & Hb1); try done; [rewrite app_nil_r; pose proof (becomes_refl b Hwf) as Hb0; by rewrite Hr in Hb0|apply name_chars|eapply room_weaken; [|exact Hroom]; lia|apply wpos_content|].
    unfold tt_buf_insert_cstr. erewrite bind_step by exact E1. rewrite app_nil_r in Hb1. cbn [Z.add] in Hb1.
    apply n2p_loop_ok; [done|by eexists|unfold fuel_of; lia|done|done].
Qed.
End n2p.

(** ** There and back *)

Definition resolve_at (F : forest) (co : key) (s : list Z) : option key :=
  let '(ds, l) := split_path [] s in
  match walk F co ds with Some d => if bool_decide (l = []) then Some d else go F d l | None => None end.

Lemma split_name n : Forall (λ c, c ≠ 47) n → ∀ acc s, split_path acc (n ++ s) = split_path (acc ++ n) s.
Proof.
  induction 1 as [|c n Hc Hn IH]; intros acc s; cbn [app split_path]; [by rewrite app_nil_r|].
  rewrite (proj2 (Z.eqb_neq c 47)) by done. rewrite IH. by rewrite <- app_assoc.
Qed.
Lemma resolve_part F co n s : Forall (λ c, c ≠ 47) n →
  resolve_at F co (n ++ 47 :: s) = match go F co n with Some x => if dir_at F x then resolve_at F x s else None | None => None end.
Proof.
  intros Hn. unfold resolve_at. rewrite split_name by done. cbn [app split_path]. change (47 =? 47) with true. cbv iota. destruct (split_path [] s) as [ds l]. cbn [walk].
  destruct (go F co n) as [x|]; [|done]. by destruct (dir_at F x).
Qed.
Lemma resolve_last F co n : Forall (λ c, c ≠ 47) n → n ≠ [] → resolve_at F co n = go F co n.
Proof. intros Hn Hne. unfold resolve_at. pose proof (split_name n Hn [] []) as E. rewrite app_nil_r in E. rewrite E. cbn [app split_path walk]. by rewrite bool_decide_eq_false_2. Qed.
Lemma resolve_dir F root current s : dir_at F root = true → resolve F root current (47 :: s) = resolve_at F root s.
Proof. intros Hd. unfold resolve, resolve_at. change (47 =? 47) with true. cbv iota. rewrite Hd. done. Qed.
Lemma resolve_here F root s : dir_at F root = true → s ≠ [] → hd 0 s ≠ 47 → resolve F root root s = resolve_at F root s.
Proof. intros Hd Hs Hh. unfold resolve, resolve_at. destruct s as [|c s]; [done|]. cbn in Hh. rewrite (proj2 (Z.eqb_neq c 47)) by done. rewrite Hd. done. Qed.

Section back.
Context (m : cfg) (F : forest) (Hm : models m F).

Lemma name_plain n : __name_ok n = true → Forall (λ c, c ≠ 47 ∧ c ≠ 46) n.
Proof.
  unfold __name_ok. intros Hn. rewrite forallb_forall in Hn. apply List.Forall_forall. intros c Hc. specialize (Hn c Hc). unfold isalnum in Hn.
  repeat (apply orb_true_iff in Hn as [Hn|Hn] || apply andb_true_iff in Hn as [Hn ?]); lia.
Qed.
Lemma name_no_slash x : Forall (λ c, c ≠ 47) (name_at F x).
Proof. eapply List.Forall_impl; [|apply name_plain, (name_chars m F Hm x)]. by intros c [? _]. Qed.
Lemma go_child x q : parent_of F x = Some q → name_at F x ≠ [] → go F q (name_at F x) = Some x.
Proof.
  pose proof (name_plain _ (proj2 (name_chars m F Hm x))) as Hp. pose proof Hm as [[kids Hinv] Hv]. unfold parent_of, name_at in *.
  destruct (F !! x) as [[[d n] p]|] eqn:E; [|done]. intros -> Hne. unfold go.
  rewrite !bool_decide_eq_false_2 by (intros ->; apply Forall_cons_1 in Hp as [[_ ?] _]; done). by apply (child_found m kids F Hinv Hv x q d n).
Qed.

Lemma prepend_resolves root x y l : up m y l → ∀ acc p0, is_Some (F !! y) → root ∈ l → hd_or l None = Some p0 → resolve_at F p0 acc = Some x →
  (∀ z, z ∈ cut_at (Some root) l → name_at F z ≠ []) → resolve_at F root (prepend F acc (cut_at (Some root) l)) = Some x.
Proof.
  destruct Hm as [[kids Hinv] Hv].
  induction 1 as [y Hy|y p l Hy Hp IH]; intros acc p0 Hk Hin Hp0 Hacc Hne; [by apply not_elem_of_nil in Hin|].
  injection Hp0 as <-. cbn [cut_at] in *. case_bool_decide as Hc; [injection Hc as ->; done|]. cbn [prepend]. apply elem_of_cons in Hin as [->|Hin]; [done|].
  inversion Hp as [|? q l' Hq Hl']; subst; [by apply not_elem_of_nil in Hin|].
  destruct (parent_dir m kids Hinv y p Hy) as [Hdk [op Hop]].
  assert (parent_of F p = Some q) as Hpq by (unfold parent_of; rewrite (obj_view m F Hv p op Hop), Hq; done).
  apply (IH _ q); [by apply (view_known m F Hv); eexists|done|done| |].
  - rewrite resolve_part by apply name_no_slash. rewrite (go_child p q Hpq) by (apply Hne; by left).
    assert (dir_at F p = true) as ->; [|done]. destruct (proj1 (ci_dir _ _ Hinv p) Hdk) as (o & Ho & Ht). rewrite (dir_obj m F Hm p o Ho), Ht. done.
  - intros z Hz. apply Hne. by right.
Qed.

Lemma path_resolves root x : dir_at F root = true → is_Some (F !! x) → root ∈ path_up F x →
  (∀ y, y ∈ x :: cut_at (Some root) (tail (path_up F x)) → name_at F y ≠ []) → x ≠ root → resolve_at F root (path_of F (Some root) x) = Some x.
Proof.
  intros Hd Hx Hin Hne Hxr. pose proof Hm as [[kids Hinv] Hv]. unfold path_of. rewrite bool_decide_eq_false_2 by congruence.
  destruct (known_obj m F Hm x Hx) as [o Ho]. destruct (ci_up _ _ Hinv x) as [l Hl]; [by eexists|]. pose proof (up_short m kids Hinv x l ltac:(by eexists) Hl) as Hs.
  assert (path_up F x = x :: l) as Ep by (unfold path_up; apply (chain_up m kids F Hinv Hv x l Hl); [by eexists|rewrite (forest_size m kids F Hinv Hv); lia]).
  rewrite Ep in *. cbn [tail] in *. apply elem_of_cons in Hin as [?|Hin]; [done|]. pose proof Hl as Hl0. destruct Hl as [x Hp|x p l Hp Hl]; [by apply not_elem_of_nil in Hin|].
  apply (prepend_resolves root x x (p :: l) Hl0 _ p); [done|done|done| |].
  - rewrite resolve_last by (apply name_no_slash || (apply Hne; by left)). apply go_child; [|apply Hne; by left]. unfold parent_of. by rewrite (obj_view m F Hv x o Ho), Hp.
  - intros z Hz. apply Hne. by right.
Qed.

Lemma prepend_head acc l : hd 0 acc ≠ 47 → acc ≠ [] → (∀ z, z ∈ l → name_at F z ≠ []) → hd 0 (prepend F acc l) ≠ 47 ∧ prepend F acc l ≠ [].
Proof.
  revert acc. induction l as [|z l IH]; intros acc Ha Hn Hne; [done|]. cbn [prepend]. pose proof (Hne z ltac:(by left)) as Hz. pose proof (name_no_slash z) as Hs.
  destruct (name_at F z) as [|c s]; [done|]. apply IH; [|done|intros y Hy; apply Hne; by right]. cbn. by apply Forall_cons_1 in Hs as [? _].
Qed.
End back.

(** ** Properties *)

(** C34: a path is resolved part by part on the forest of objects, from the root if it
    starts with a slash and from the current directory otherwise, through directories
    only, with "." and ".." and the exact names of children; and the path that is
    written for an object below the root, provided no name on the way is empty, leads
    back to it, from anywhere behind a slash and from the root without one. *)
Theorem cfg_paths `{Allocator} m F root : models m F → dir_at F root = true →
  (∀ current path, is_Some (F !! current) → tt_cfgpath_p2n root current path m = Ret (TT_SUCCESS (resolve F root current path), m)) ∧
  (∀ x b, is_Some (F !! x) → root ∈ path_up F x → (∀ y, y ∈ x :: cut_at (Some root) (tail (path_up F x)) → y ≠ root → name_at F y ≠ []) →
    buf_wf b → readonly b = false → reliable b → rpos b = 0 → room b (zlen (path_of F (Some root) x)) →
    let d := path_of F (Some root) x in
    (∃ b', tt_cfgpath_n2p m (Some root) x b = Ret (TT_SUCCESS tt, b') ∧ buf_wf b' ∧ content b' = content b ++ d) ∧
    (∀ current, is_Some (F !! current) → tt_cfgpath_p2n root current (47 :: d) m = Ret (TT_SUCCESS (Some x), m)) ∧
    (x ≠ root → tt_cfgpath_p2n root root d m = Ret (TT_SUCCESS (Some x), m))).
Proof.
  intros Hm Hd. destruct (dir_known F root Hd) as (nr & pr & Hr). assert (is_Some (F !! root)) as Hroot by by eexists. split; [intros; by apply (p2n_ok m F Hm)|].
  intros x b Hx Hin Hne Hwf Hro Hrel Hrp Hroom. destruct (n2p_ok m F Hm b Hwf Hro Hrel Hrp (Some root) x Hx Hroom) as (b' & E & Hb).
  cbv zeta. split; [exists b'; split; [exact E|]; split; apply Hb|].
  destruct (decide (x = root)) as [->|Hxr].
  - split; [|done]. intros current Hc. rewrite (p2n_ok m F Hm) by done. rewrite resolve_dir by done. unfold path_of. by rewrite bool_decide_eq_true_2.
  - assert (∀ y, y ∈ x :: cut_at (Some root) (tail (path_up F x)) → name_at F y ≠ []) as Hne'.
    { intros y Hy. apply Hne; [done|]. apply elem_of_cons in Hy as [->|Hy]; [done|]. clear -Hy. induction (tail (path_up F x)) as [|z l IH]; cbn [cut_at] in Hy; [by apply not_elem_of_nil in Hy|].
      case_bool_decide; [by apply not_elem_of_nil in Hy|]. apply elem_of_cons in Hy as [->|Hy]; [congruence|by apply IH]. }
    pose proof (path_resolves m F Hm root x Hd Hx Hin Hne' Hxr) as Hres. split.
    + intros current Hc. rewrite (p2n_ok m F Hm) by done. by rewrite resolve_dir, Hres.
    + intros _. rewrite (p2n_ok m F Hm) by done. assert (hd 0 (path_of F (Some root) x) ≠ 47 ∧ path_of F (Some root) x ≠ []) as [Hh Hn].
      { unfold path_of. rewrite bool_decide_eq_false_2 by congruence. pose proof (Hne' x ltac:(by left)) as Hnx. pose proof (name_no_slash m F Hm x) as Hs.
        apply (prepend_head m F Hm); [|done|intros z Hz; apply Hne'; by right]. destruct (name_at F x) as [|c s]; [done|]. by apply Forall_cons_1 in Hs as [? _]. }
      by rewrite resolve_here, Hres.
Qed.

(** A root without a name, "net" in it, and "mtu" in that. *)
Definition demo_path : list cfg_op :=
  [ CCreate (Some 1%positive) KDir [] None; CCreate (Some 2%positive) KDir [110; 101; 116] None;
    CCreate (Some 3%positive) (KU32 9%positive None) [109; 116; 117] None; CAdd 1%positive 2%positive; CAdd 2%positive 3%positive ].
Lemma cfg_paths_witness : ∃ m, models m (spec_cfg demo_path ∅).2 ∧
  tt_cfgpath_p2n 1%positive 2%positive [46; 46; 47; 110; 101; 116; 47; 46; 47; 109; 116; 117] m = Ret (TT_SUCCESS (Some 3%positive), m) ∧
  tt_cfgpath_p2n 1%positive 2%positive [47; 110; 101; 116; 47; 109; 116; 117] m = Ret (TT_SUCCESS (Some 3%positive), m).
Proof.
  assert (all_legal demo_path ∅) as Hl.
  { cbn [demo_path all_legal]. repeat split; try by vm_compute.
    all: try (by eexists _, _; vm_compute).
    all: eexists _, _; split; [by vm_compute|intros _; split; [done|by vm_compute; set_solver]]. }
  destruct (@run_models zero_alloc (read_buf 0) demo_path _ ∅ (models_empty ∅) Hl) as (m & _ & Hm). exists m. split; [done|].
  destruct (@cfg_paths zero_alloc m _ 1%positive Hm) as [Hp Hn]; [by vm_compute|]. split.
  - rewrite Hp by (by vm_compute; eexists). by vm_compute.
  - destruct (Hn 3%positive (mk_buf BufInit 16 (mk_memspg 64 4096 0) 0 0 (replicate 16 0) false)) as (_ & Hb & _).
    + by vm_compute; eexists.
    + by vm_compute; set_solver.
    + intros y Hy Hne. vm_compute in Hy. repeat (apply elem_of_cons in Hy as [->|Hy]; [try done; by vm_compute|]). by apply not_elem_of_nil in Hy.
    + apply empty_buf_wf.
    + done.
    + split; [by intros n; eexists|done].
    + done.
    + by vm_compute.
    + assert (47 :: path_of (spec_cfg demo_path ∅).2 (Some 1%positive) 3%positive = [47; 110; 101; 116; 47; 109; 116; 117]) as <- by by vm_compute.
      apply Hb. by vm_compute; eexists.
Defined.
