(* ===== verification/CfgList.v ===== *)
(** Listing configuration objects (tt_cfgobj_line and tt_cfgobj_ls of
    init/tt_config_object.c, tt_cfgdir_ls of init/tt_config_directory.c). *)

From S2P Require Import Prelude MemSpring Buffer BufferFormat SshDef BufCommon Str StrSpec StrRun LinkedList CfgTree CfgForest CfgDestroy CfgValue CfgRun CfgPath.
From stdpp Require Import gmap sorting.

#[local] Open Scope Z_scope.

(** ** The code *)

Definition __DEFAULT_COL_SEP : list Z := [32; 32; 32; 32].
Definition __DEFAULT_LINE_SEP : list Z := [10].

Definition __s_type_name (t : tt_cfgobj_type_t) : exec (list Z) :=
  match t with
  | TT_CFGOBJ_U32 => Ret [117; 51; 50; 32; 32; 32]
  | TT_CFGOBJ_S32 => Ret [115; 51; 50; 32; 32; 32]
  | TT_CFGOBJ_DIR => Ret [100; 105; 114; 32; 32; 32]
  | TT_CFGOBJ_STRING => Ret [115; 116; 114; 105; 110; 103]
  | TT_CFGOBJ_BOOL => Ret [98; 111; 111; 108; 32; 32]
  | TT_CFGOBJ_FLOAT => Ret [102; 108; 111; 97; 116; 32]
  | TT_CFGOBJ_EXE => Ret [101; 120; 101; 32; 32; 32]
  | TT_CFGOBJ_TYPE_NUM => Undef
  end.

Section code.
Context `{Allocator}.

(** A call whose result nobody looks at. *)
Definition ignore (o : M tt_buf_t unit) : M tt_buf_t unit := try o;; mret tt.

Definition __line_perm (o : tt_cfgobj_t) : M tt_buf_t unit :=
  let p0 := if can_read o && negb (is_null (read (itf o))) then 114 else 45 in
  let p1 := if can_write o && negb (is_null (write (itf o))) then 119 else 45 in
  tt_buf_put [p0; p1].
Definition __line_type (o : tt_cfgobj_t) : M tt_buf_t unit := n ← access (__s_type_name (type o)); tt_buf_put_cstr n.

Definition tt_cfgobj_line (o : tt_cfgobj_t) (col_sep : option (list Z)) (max_name_len : Z) : M tt_buf_t unit :=
  let col_sep := default __DEFAULT_COL_SEP col_sep in
  ignore (__line_perm o);;
  tt_buf_put_cstr col_sep;;
  ignore (__line_type o);;
  tt_buf_put_cstr col_sep;;
  let n := if is_dir (type o) then 1 else 0 in
  let name_len := u32 (u32 (zlen (name o)) + n) in
  (if negb (max_name_len =? 0) then
     if max_name_len <? name_len then tt_buf_put_rep 63 max_name_len
     else
       tt_buf_put_cstr (name o);;
       tt_buf_put_subcstr [47] n;;
       tt_buf_put_rep 32 (u32 (max_name_len - name_len))
   else
     tt_buf_put_cstr (name o);;
     tt_buf_put_subcstr [47] n);;
  tt_buf_put_cstr col_sep;;
  tt_buf_put_cstr (tt_cfgobj_brief o).

(** Listing does not change the configuration [m]; [empty] as the code has it. *)
Fixpoint ls_loop (fuel : nat) (m : cfg) (col_sep line_sep : list Z) (width : Z) (nd : option key) (empty : bool) : M tt_buf_t bool :=
  match fuel with
  | O => λ _, Diverge
  | S fuel =>
      match nd with
      | None => mret empty
      | Some x =>
          o ← access (at_obj m x);
          tt_cfgobj_line o (Some col_sep) width;;
          tt_buf_put line_sep;;
          v ← access (match nodes (links m) !! x with Some v => Ret v | None => Undef end);
          ls_loop fuel m col_sep line_sep width (next v) false
      end
  end.
Definition tt_cfgdir_ls (m : cfg) (cdir : key) (col_sep line_sep : list Z) : M tt_buf_t unit :=
  l ← access (match lists (links m) !! cdir with Some l => Ret l | None => Undef end);
  o ← access (at_obj m cdir);
  w ← access (match ext o with XDir n => Ret n | _ => Undef end);
  empty ← ls_loop (fuel_of m) m col_sep line_sep w (LinkedList.head l) true;
  if negb empty then ignore (tt_buf_dec_wp (u32 (zlen line_sep))) else mret tt.

Definition tt_cfgobj_ls (m : cfg) (co : key) (col_sep line_sep : option (list Z)) : M tt_buf_t unit :=
  let col_sep := default __DEFAULT_COL_SEP col_sep in
  let line_sep := default __DEFAULT_LINE_SEP line_sep in
  o ← access (at_obj m co);
  if is_dir (type o) then tt_cfgdir_ls m co col_sep line_sep
  else tt_cfgobj_line o (Some col_sep) 0.
End code.

(** ** Output that cannot fail *)

(** When memory does not run out, [o] appends [d], and needs room for [n] bytes. *)
Definition adds `{Allocator} (o : M tt_buf_t unit) (n : Z) (d : list Z) : Prop :=
  ∀ b, buf_wf b → readonly b = false → reliable b → room b n →
  ∃ b', o b = Ret (TT_SUCCESS tt, b') ∧ becomes b n (rpos b) (content b ++ d) b'.

Section adds.
Context `{Allocator}.

Lemma adds_renders o d : renders o d → adds o (zlen d) d.
Proof.
  intros Ho b Hwf Hro Hrel Hroom. destruct (Ho b Hwf Hro Hroom) as [(b' & E & Ha)|(? & ? & _ & _ & _ & ?)]; [|done].
  exists b'. split; [done|]. by apply appended_becomes.
Qed.
Lemma adds_weaken o n k d : 0 ≤ n ≤ k → adds o n d → adds o k d.
Proof.
  intros Hn Ho b Hwf Hro Hrel Hroom. destruct (Ho b Hwf Hro Hrel) as (b' & E & Hb); [by eapply room_weaken|].
  exists b'. split; [done|]. by eapply becomes_weaken; [|exact Hb]; lia.
Qed.
Lemma adds_next {A} (o : M tt_buf_t A) a (k : A → M tt_buf_t unit) n1 n2 d1 d2 : 0 ≤ n1 → 0 ≤ n2 →
  (∀ b, buf_wf b → readonly b = false → reliable b → room b n1 → ∃ b', o b = Ret (TT_SUCCESS a, b') ∧ becomes b n1 (rpos b) (content b ++ d1) b') →
  adds (k a) n2 d2 → adds (x ← o; k x) (n1 + n2) (d1 ++ d2).
Proof.
  intros H1 H2 Ho Hk b Hwf Hro Hrel Hroom. destruct (Ho b Hwf Hro Hrel) as (b1 & E1 & Hb1); [eapply room_weaken; [|exact Hroom]; lia|].
  destruct (Hk b1) as (b2 & E2 & Hb2); [apply Hb1|by rewrite (be_ro _ _ _ _ _ Hb1)|unfold reliable in *; by rewrite (be_mspg _ _ _ _ _ Hb1)|by eapply becomes_room; [| |exact Hroom|]|].
  exists b2. split; [by erewrite bind_step|]. rewrite (be_content _ _ _ _ _ Hb1), (be_rpos _ _ _ _ _ Hb1), <- app_assoc in Hb2. by eapply becomes_trans.
Qed.
Lemma adds_bind o1 o2 n1 n2 d1 d2 : 0 ≤ n1 → 0 ≤ n2 → adds o1 n1 d1 → adds o2 n2 d2 → adds (o1;; o2) (n1 + n2) (d1 ++ d2).
Proof. intros ?? H1. by apply (adds_next o1 tt (λ _, o2)). Qed.
Lemma adds_access {A} (e : exec A) a (k : A → M tt_buf_t unit) n d : e = Ret a → adds (k a) n d → adds (x ← access e; k x) n d.
Proof. intros -> Hk b Hwf Hro Hrel Hroom. erewrite (bind_step (access (Ret a))) by done. by apply Hk. Qed.
Lemma adds_ret : adds (mret tt) 0 [].
Proof. intros b Hwf _ _ _. exists b. split; [done|]. rewrite app_nil_r. by apply becomes_refl. Qed.
Lemma adds_ignore o n d : adds o n d → adds (ignore o) n d.
Proof.
  intros Ho b Hwf Hro Hrel Hroom. destruct (Ho b Hwf Hro Hrel Hroom) as (b' & E & Hb). exists b'. split; [|done].
  unfold ignore. erewrite bind_step by (unfold try; rewrite E; done). done.
Qed.
Lemma adds_put d : Forall is_u8 d → adds (tt_buf_put d) (zlen d) d.
Proof. intros. by apply adds_renders, renders_put. Qed.
Lemma adds_u8 v : is_u8 v → adds (tt_buf_put_u8 v) 1 [v].
Proof. intros. apply (adds_put [v]). by constructor. Qed.
End adds.

(** ** What a listing shows *)

Definition perm_text (o : tt_cfgobj_t) : list Z :=
  [if can_read o && negb (is_null (read (itf o))) then 114 else 45; if can_write o && negb (is_null (write (itf o))) then 119 else 45].
Definition type_text (t : tt_cfgobj_type_t) : list Z := match __s_type_name t with Ret n => n | _ => [] end.
Definition slashed (o : tt_cfgobj_t) : list Z := name o ++ (if is_dir (type o) then [47] else []).
(** A line whose name column has [w] places. *)
Definition line_text (o : tt_cfgobj_t) (col : list Z) (w : Z) : list Z :=
  perm_text o ++ col ++ type_text (type o) ++ col ++ slashed o ++ replicate (Z.to_nat (w - zlen (slashed o))) 32 ++ col ++ tt_cfgobj_brief o.

(** Lines with separators in between. *)
Fixpoint lines_text (sep : list Z) (ls : list (list Z)) : list Z :=
  match ls with [] => [] | [l] => l | l :: ls => l ++ sep ++ lines_text sep ls end.
Definition ended (sep : list Z) (ls : list (list Z)) : list Z := concat (map (λ l, l ++ sep) ls).

Lemma ended_lines sep ls : ls ≠ [] → ended sep ls = lines_text sep ls ++ sep.
Proof.
  induction ls as [|l ls IH]; [done|]. intros _. unfold ended in *. cbn [map concat]. destruct ls as [|l' ls]; [by rewrite app_nil_r|].
  rewrite IH by done. cbn [lines_text]. by rewrite <- !app_assoc.
Qed.

Lemma slashed_len o : zlen (slashed o) = width (tag o).
Proof. unfold slashed, width, tag. cbn. rewrite zlen_app. by destruct (is_dir (type o)). Qed.
Lemma type_text_len o : obj_ok o → __s_type_name (type o) = Ret (type_text (type o)) ∧ zlen (type_text (type o)) = 6 ∧ Forall is_u8 (type_text (type o)).
Proof.
  intros Ho. pose proof (ok_ext _ Ho) as He. unfold ext_ok in He. unfold type_text. destruct (type o), (ext o); try done; split; done || (split; [done|]); by repeat constructor.
Qed.

Section line.
Context `{Allocator} (o : tt_cfgobj_t) (Hok : obj_ok o) (Hb : Forall is_u8 (tt_cfgobj_brief o)) (col : list Z) (Hc : Forall is_u8 col).

Lemma name_bytes : Forall is_u8 (name o).
Proof.
  pose proof (name_positives _ (ok_name _ Hok)). pose proof (ok_name _ Hok) as Hn. unfold __name_ok in Hn. rewrite forallb_forall in Hn.
  apply List.Forall_forall. intros c Hin. specialize (Hn c Hin). unfold isalnum in Hn. unfold is_u8.
  repeat (apply orb_true_iff in Hn as [Hn|Hn] || apply andb_true_iff in Hn as [Hn ?]); lia.
Qed.

(** The cell of the name. *)
Lemma cell_adds w : (w = 0 ∨ zlen (slashed o) ≤ w < 2 ^ 32) →
  let n := if is_dir (type o) then 1 else 0 in
  let name_len := u32 (u32 (zlen (name o)) + n) in
  adds (if negb (w =? 0) then
     if w <? name_len then tt_buf_put_rep 63 w
     else
       tt_buf_put_cstr (name o);;
       tt_buf_put_subcstr [47] n;;
       tt_buf_put_rep 32 (u32 (w - name_len))
   else
     tt_buf_put_cstr (name o);;
     tt_buf_put_subcstr [47] n)
  (zlen (slashed o ++ replicate (Z.to_nat (w - zlen (slashed o))) 32)) (slashed o ++ replicate (Z.to_nat (w - zlen (slashed o))) 32).
Proof.
  intros Hw n name_len. pose proof (zlen_nonneg (name o)). pose proof (ok_len _ Hok). assert (name_len = zlen (slashed o)) as En.
  { subst name_len n. unfold slashed. rewrite zlen_app. destruct (is_dir (type o)); rewrite ?u32_small by (rewrite ?u32_small by lia; lia); done. }
  clearbody name_len. subst name_len. set (sl := if is_dir (type o) then [47] else []).
  assert (adds (tt_buf_put_subcstr [47] n) (zlen sl) sl) as Hsl.
  { unfold tt_buf_put_subcstr. subst n sl. destruct (is_dir (type o)); apply adds_put; by repeat constructor. }
  assert (slashed o = name o ++ sl) as Es by done. pose proof (zlen_nonneg sl).
  assert (zlen (slashed o) = zlen (name o) + zlen sl) as Ez by (by rewrite Es, zlen_app).
  destruct (Z.eqb_spec w 0) as [->|Hne]; cbn [negb].
  - replace (Z.to_nat (0 - zlen (slashed o))) with O by lia. cbn [replicate]. rewrite app_nil_r, Es, zlen_app. apply adds_bind; [done|done|apply adds_put, name_bytes|done].
  - destruct Hw as [?|Hw]; [done|]. rewrite (proj2 (Z.ltb_ge w _)) by lia. set (pad := replicate (Z.to_nat (w - zlen (slashed o))) 32).
    pose proof (zlen_nonneg pad). rewrite zlen_app, Ez, <- Z.add_assoc. rewrite Es, <- app_assoc. apply adds_bind; [done|lia|apply adds_put, name_bytes|].
    apply adds_bind; [done|done|done|]. rewrite <- Ez, u32_small by lia. intros b Hwf Hro Hrel Hroom. rewrite put_rep_put by lia.
    apply adds_put; try done. apply Forall_replicate. by vm_compute.
Qed.

Lemma line_adds w : (w = 0 ∨ zlen (slashed o) ≤ w < 2 ^ 32) → adds (tt_cfgobj_line o (Some col) w) (zlen (line_text o col w)) (line_text o col w).
Proof.
  intros Hw. destruct (type_text_len o Hok) as (Et & _ & Htu). unfold tt_cfgobj_line, line_text. cbn [default].
  assert (Forall is_u8 (perm_text o)) as Hpu by (unfold perm_text; destruct (_ && _), (_ && _); by repeat constructor).
  rewrite !zlen_app.
  apply adds_bind; [apply zlen_nonneg|pose proof zlen_nonneg (A := Z); repeat apply Z.add_nonneg_nonneg; apply zlen_nonneg|by apply adds_ignore, (adds_put (perm_text o))|].
  apply adds_bind; [apply zlen_nonneg|repeat apply Z.add_nonneg_nonneg; apply zlen_nonneg|by apply adds_put|].
  apply adds_bind; [apply zlen_nonneg|repeat apply Z.add_nonneg_nonneg; apply zlen_nonneg|apply adds_ignore; unfold __line_type; eapply adds_access; [exact Et|by apply adds_put]|].
  apply adds_bind; [apply zlen_nonneg|repeat apply Z.add_nonneg_nonneg; apply zlen_nonneg|by apply adds_put|].
  rewrite Z.add_assoc, app_assoc, <- zlen_app. apply adds_bind; [apply zlen_nonneg|repeat apply Z.add_nonneg_nonneg; apply zlen_nonneg|by apply cell_adds|].
  apply adds_bind; [apply zlen_nonneg|apply zlen_nonneg|by apply adds_put|by apply adds_put].
Qed.
End line.

(** ** Directories *)

Definition line_at (m : cfg) (col : list Z) (w : Z) (x : key) : list Z :=
  match objs m !! x with Some o => line_text o col w | None => [] end.
(** The descriptions are strings of bytes. *)
Definition briefs (m : cfg) : Prop := ∀ x o, objs m !! x = Some o → Forall is_u8 (tt_cfgobj_brief o).

Section ls.
Context `{Allocator} (m : cfg) (kids : gmap key (list key)) (Hinv : cfg_inv m kids) (Hbr : briefs m).
Context (col sep : list Z) (Hc : Forall is_u8 col) (Hs : Forall is_u8 sep).

Lemma ls_loop_ok d w xs : is_u32 w → ∀ pre fuel e b, kids !! d = Some (pre ++ xs) → (length xs < fuel)%nat →
  (∀ x, x ∈ xs → ∃ o, objs m !! x = Some o ∧ zlen (slashed o) ≤ w) →
  buf_wf b → readonly b = false → reliable b → room b (zlen (ended sep (map (line_at m col w) xs))) →
  ∃ b', ls_loop fuel m col sep w (hd_or xs None) e b = Ret (TT_SUCCESS (match xs with [] => e | _ => false end), b') ∧
    becomes b (zlen (ended sep (map (line_at m col w) xs))) (rpos b) (content b ++ ended sep (map (line_at m col w) xs)) b'.
Proof.
  intros Hw. induction xs as [|x xs IH]; intros pre [|fuel] e b Hd Hf Hx Hwf Hro Hrel Hroom; simpl in Hf; [lia| |lia|].
  - exists b. split; [done|]. cbn. rewrite app_nil_r. by apply becomes_refl.
  - destruct (Hx x) as (o & Ho & Hwo); [by left|]. cbn [hd_or ls_loop]. unfold at_obj. rewrite Ho. erewrite (bind_step (access (Ret o))) by done.
    assert (ended sep (map (line_at m col w) (x :: xs)) = (line_text o col w ++ sep) ++ ended sep (map (line_at m col w) xs)) as E.
    { unfold ended, line_at. cbn [map concat]. by rewrite Ho. }
    rewrite E in *. set (rest := ended sep (map (line_at m col w) xs)) in *. pose proof (zlen_nonneg rest). pose proof (zlen_nonneg (line_text o col w)). pose proof (zlen_nonneg sep).
    rewrite !zlen_app in Hroom. unfold is_u32 in Hw.
    destruct (adds_bind (tt_cfgobj_line o (Some col) w) (tt_buf_put sep) (zlen (line_text o col w)) (zlen sep) (line_text o col w) sep) with (b := b) as (b1 & E1 & Hb1); try done.
    { apply line_adds; [by eapply ci_obj|by eapply Hbr|done|right; lia]. } { by apply adds_put. } { eapply room_weaken; [|exact Hroom]. lia. }
    assert ((tt_cfgobj_line o (Some col) w;; tt_buf_put sep;;
      v ← access (match nodes (links m) !! x with Some v => Ret v | None => Undef end); ls_loop fuel m col sep w (next v) false) b =
      (v ← access (match nodes (links m) !! x with Some v => Ret v | None => Undef end); ls_loop fuel m col sep w (next v) false) b1) as ->.
    { clear -E1. revert E1. unfold mbind, M_bind, bind. destruct (tt_cfgobj_line o (Some col) w b) as [[[[]|] b0]| | |]; cbn; try done.
      destruct (tt_buf_put sep b0) as [[[[]|] b2]| | |]; cbn; try done. by intros [= ->]. }
    destruct (rep_list _ _ (ci_lrep _ _ Hinv) d _ Hd) as (_ & _ & Hl). apply linked_at in Hl. rewrite Hl. erewrite (bind_step (access (Ret _))) by done. cbn [next].
    destruct (IH (pre ++ [x]) fuel false b1) as (b2 & E2 & Hb2).
    { by rewrite <- app_assoc. } { lia. } { intros y Hy. apply Hx. by right. } { apply Hb1. } { by rewrite (be_ro _ _ _ _ _ Hb1). } { unfold reliable in *. by rewrite (be_mspg _ _ _ _ _ Hb1). }
    { eapply (becomes_room b (zlen (line_text o col w) + zlen sep)); [lia|done|exact Hroom|exact Hb1]. }
    exists b2. split; [rewrite E2; by destruct xs|]. rewrite (be_content _ _ _ _ _ Hb1), (be_rpos _ _ _ _ _ Hb1), <- app_assoc in Hb2. rewrite !zlen_app. by eapply becomes_trans; [lia| |exact Hb1|exact Hb2].
Qed.

(** Taking back bytes that were written last. *)
Lemma dec_wp_becomes b n s t b1 : becomes b n (rpos b) (s ++ t) b1 → zlen t < 2 ^ 32 →
  ∃ b2, tt_buf_dec_wp (zlen t) b1 = Ret (TT_SUCCESS tt, b2) ∧ becomes b n (rpos b) s b2.
Proof.
  intros Hb Ht. pose proof (zlen_nonneg s). pose proof (zlen_nonneg t). pose proof (be_wf _ _ _ _ _ Hb) as Hwf. pose proof (wf_pos b1 Hwf). pose proof (wf_size b1 Hwf).
  pose proof (wf_content b1 Hwf) as Hc1. rewrite (be_content _ _ _ _ _ Hb), zlen_app in Hc1.
  unfold tt_buf_dec_wp. m_simpl. rewrite (wf_rlen b1 Hwf). rewrite (proj2 (Z.leb_le _ _)) by lia. rewrite u32_small by lia. eexists. split; [done|].
  pose proof (cut_becomes b1 (zlen s) Hwf) as Hcut. rewrite (be_content _ _ _ _ _ Hb), zlen_app in Hcut. specialize (Hcut ltac:(lia)).
  assert (Z.to_nat (zlen s) = length s) as El by (unfold zlen; lia). rewrite El, take_app_length in Hcut. replace (wpos b1 - zlen t) with (rpos b1 + zlen s) by lia.
  destruct Hb, Hcut. constructor; try done; try congruence; cbn in *; lia.
Qed.

Lemma dir_ls_ok d xs : kids !! d = Some xs → ∃ od w, objs m !! d = Some od ∧ ext od = XDir w ∧ is_u32 w ∧ (∀ x, x ∈ xs → ∃ o, objs m !! x = Some o ∧ zlen (slashed o) ≤ w) ∧
  adds (tt_cfgobj_ls m d (Some col) (Some sep)) (zlen (ended sep (map (line_at m col w) xs))) (lines_text sep (map (line_at m col w) xs)).
Proof.
  intros Hd. destruct (ci_kids _ _ Hinv d xs Hd) as (od & w & es & Hod & Ew & [Ht _ _ Hwid]). pose proof (ok_ext _ (ci_obj _ _ Hinv d od Hod)) as Hx.
  destruct (proj1 (ci_dir _ _ Hinv d)) as (od' & Hod' & Htype); [by eexists|]. assert (od' = od) as -> by congruence.
  unfold ext_ok in Hx. rewrite Htype, Ew in Hx. destruct Hx as [_ Hw]. exists od, w. split; [done|]. split; [done|]. split; [done|].
  assert (∀ x, x ∈ xs → ∃ o, objs m !! x = Some o ∧ zlen (slashed o) ≤ w) as Hxs.
  { intros x Hin. apply list_elem_of_lookup_1 in Hin as [i Hi]. destruct (Forall2_lookup_l _ _ _ _ _ Ht Hi) as (e & He & Ee). apply fmap_Some in Ee as (o & Ho & ->).
    exists o. split; [done|]. rewrite slashed_len. rewrite Forall_forall in Hwid. apply Hwid. by eapply list_elem_of_lookup_2. }
  split; [done|]. intros b Hwf Hro Hrel Hroom. unfold tt_cfgobj_ls. cbn [default]. unfold at_obj at 1. rewrite Hod. erewrite (bind_step (access (Ret od))) by done. rewrite Htype. cbn [is_dir].
  change (is_dir TT_CFGOBJ_DIR) with true. cbv iota. unfold tt_cfgdir_ls. destruct (rep_list _ _ (ci_lrep _ _ Hinv) d _ Hd) as (El & _ & _). rewrite El. erewrite (bind_step (access (Ret _))) by done.
  unfold at_obj at 1. rewrite Hod. erewrite (bind_step (access (Ret od))) by done. rewrite Ew. erewrite (bind_step (access (Ret w))) by done. cbn [LinkedList.head list_of].
  destruct (ls_loop_ok d w xs Hw [] (fuel_of m) true b Hd) as (b1 & E1 & Hb1); try done; [by apply (fuel_enough m kids Hinv d [])|].
  erewrite bind_step by exact E1. destruct xs as [|x xs]; cbn [negb]; [by exists b1|].
  rewrite ended_lines in * by done. set (t := lines_text sep (map (line_at m col w) (x :: xs))) in *. rewrite app_assoc in Hb1.
  assert (zlen sep < 2 ^ 32) as Hz. { destruct Hroom as [Hr _]. pose proof (wf_size b Hwf). pose proof (wf_pos b Hwf). rewrite zlen_app in Hr. pose proof (zlen_nonneg t). lia. }
  destruct (dec_wp_becomes b _ (content b ++ t) sep b1 Hb1 Hz) as (b2 & E2 & Hb2). exists b2. split; [|done].
  unfold ignore. change (id sep) with sep. rewrite u32_small by (pose proof (zlen_nonneg sep); lia). erewrite bind_step by (unfold try; rewrite E2; done). done.
Qed.

Lemma leaf_ls_ok x o : objs m !! x = Some o → type o ≠ TT_CFGOBJ_DIR →
  adds (tt_cfgobj_ls m x (Some col) (Some sep)) (zlen (line_text o col 0)) (line_text o col 0).
Proof.
  intros Ho Ht. unfold tt_cfgobj_ls. cbn [default]. apply (adds_access _ o); [unfold at_obj; by rewrite Ho|]. rewrite (proj2 (is_dir_false _) Ht).
  apply line_adds; [by eapply ci_obj|by eapply Hbr|done|by left].
Qed.
End ls.

(** ** Properties *)

(** The children of a directory as it lists them, and what a listing shows of each. *)
Definition listing (F : forest) (d : key) (xs : list key) (es : list entry) : Prop :=
  (∀ x, x ∈ xs ↔ ∃ e, F !! x = Some (e, Some d)) ∧ Forall2 (λ x e, F !! x = Some (e, Some d)) xs es ∧ StronglySorted before es.

Lemma kids_listing m kids F d ys : cfg_inv m kids → (∀ x, F !! x = view m x) → kids !! d = Some ys →
  ∃ es, listing F d ys es ∧ Forall2 (λ x e, tag <$> objs m !! x = Some e) ys es.
Proof.
  intros Hinv Hv Hk. destruct (ci_kids _ _ Hinv d ys Hk) as (od & k & fs & _ & _ & [Hty Hsy _ _]). exists fs. split; [|done].
  split; [intros x; by apply (kid_view m kids F Hinv Hv d ys x)|]. split; [|done].
  rewrite Forall2_lookup in *. intros i. specialize (Hty i). destruct (ys !! i) as [x|] eqn:Ex, (fs !! i) as [e|] eqn:Ee; inversion Hty as [? ? Hxe|]; subst; constructor.
  destruct (proj1 (kid_view m kids F Hinv Hv d ys x Hk)) as (e' & He'); [by eapply list_elem_of_lookup_2|]. destruct (view_obj m F Hv _ _ _ He') as (o & Ho & <- & _).
  rewrite Ho in Hxe. cbn in Hxe. by injection Hxe as <-.
Qed.

(** C35: listing a directory appends one line for each of its children, directories
    first, then by name, with separators between the lines and none at the end; a line
    has the permissions that hold, the type, the name (with a slash for a directory)
    padded to the same width for all children, and the description, between the given
    separators: no name is ever replaced by question marks. *)
Theorem cfg_listing `{Allocator} m F d n p col sep : models m F → F !! d = Some ((true, n), p) → briefs m → Forall is_u8 col → Forall is_u8 sep →
  ∃ xs es w, listing F d xs es ∧ (∀ x, x ∈ xs → ∃ o, objs m !! x = Some o ∧ zlen (slashed o) ≤ w) ∧
    adds (tt_cfgobj_ls m d (Some col) (Some sep)) (zlen (ended sep (map (line_at m col w) xs))) (lines_text sep (map (line_at m col w) xs)).
Proof.
  intros [[kids Hinv] Hv] Hd Hbr Hc Hs. destruct (dir_kids m kids F Hinv Hv d n p Hd) as (ys & _ & _ & _ & Hk & _).
  destruct (kids_listing m kids F d ys Hinv Hv Hk) as (es & Hl & _). destruct (dir_ls_ok m kids Hinv Hbr col sep Hc Hs d ys Hk) as (od & w & _ & _ & _ & Hw & Ha). by exists ys, es, w.
Qed.

Definition demo_memory : cfg := match @run_cfg zero_alloc (read_buf 0) demo_path (mk_cfg (mk_lmem ∅ ∅) ∅ ∅) with Ret (_, m) => m | _ => mk_cfg (mk_lmem ∅ ∅) ∅ ∅ end.
Lemma demo_models : models demo_memory (spec_cfg demo_path ∅).2.
Proof.
  destruct (@run_models zero_alloc (read_buf 0) demo_path _ ∅ (models_empty ∅)) as (m & E & Hm); [|unfold demo_memory; by rewrite E].
  cbn [demo_path all_legal]. repeat split; try by vm_compute.
  all: try (by eexists _, _; vm_compute).
  all: eexists _, _; split; [by vm_compute|intros _; split; [done|by vm_compute; set_solver]].
Qed.
Lemma demo_briefs : briefs demo_memory.
Proof.
  assert (forallb (λ x, bool_decide (tt_cfgobj_brief x.2 = [])) (map_to_list (objs demo_memory)) = true) as Hf by by vm_compute.
  intros x o Ho%elem_of_map_to_list%list_elem_of_In. rewrite forallb_forall in Hf. apply Hf, bool_decide_eq_true in Ho. cbn in Ho. rewrite Ho. constructor.
Qed.
(** "--    dir       net/    " *)
Example demo_ls : ∃ b', @tt_cfgobj_ls zero_alloc demo_memory 1%positive None (Some [59]) (mk_buf BufInit 16 (mk_memspg 64 4096 0) 0 0 (replicate 16 0) false) = Ret (TT_SUCCESS tt, b') ∧
  content b' = [45; 45; 32; 32; 32; 32; 100; 105; 114; 32; 32; 32; 32; 32; 32; 32; 110; 101; 116; 47; 32; 32; 32; 32].
Proof. eexists. split; [by vm_compute|]. by vm_compute. Qed.
Lemma cfg_listing_witness : ∃ xs w, (∀ x, x ∈ xs ↔ ∃ e, (spec_cfg demo_path ∅).2 !! x = Some (e, Some 1%positive)) ∧
  @adds zero_alloc (@tt_cfgobj_ls zero_alloc demo_memory 1%positive (Some __DEFAULT_COL_SEP) (Some [59]))
    (zlen (ended [59] (map (line_at demo_memory __DEFAULT_COL_SEP w) xs))) (lines_text [59] (map (line_at demo_memory __DEFAULT_COL_SEP w) xs)).
Proof.
  destruct (@cfg_listing zero_alloc demo_memory _ 1%positive [] None __DEFAULT_COL_SEP [59] demo_models) as (xs & es & w & (Hin & _) & _ & Ha); [by vm_compute|apply demo_briefs|by repeat constructor..|].
  by exists xs, w.
Defined.
