(* ===== verification/CfgComplete.v ===== *)
(** Completing a path of configuration objects (tt_cfgpath_complete of
    init/tt_config_path.c): the code, and what it offers. *)

From S2P Require Import Prelude MemSpring Buffer BufferFormat SshDef BufCommon Str StrSpec StrRun LinkedList CliLine CliEdit Cli CliRun CfgTree CfgForest CfgDestroy CfgValue CfgRun CfgPath CfgList.
From stdpp Require Import gmap sorting.

#[local] Open Scope Z_scope.

(** ** The code *)

Definition TT_CFGPCP_NONE : Z := 0.
Definition TT_CFGPCP_PARTIAL : Z := 1.
Definition TT_CFGPCP_FULL : Z := 2.
Definition TT_CFGPCP_FULL_MORE : Z := 3.

(** The place of the last slash among the first [n] characters. *)
Fixpoint last_slash (n : nat) (path : list Z) : option nat :=
  match n with
  | O => None
  | S i => if nth i path 0 =? 47 then Some i else last_slash i path
  end.

(** [tt_memcmp(name, tail_name, tail_len) == 0], for the block of a name and its NUL. *)
Definition starts_with (nm tail : list Z) : exec bool :=
  exec_bind (mem_read (nm ++ [0]) 0 (zlen tail)) (λ d, Ret (mem_cmp id d tail =? 0)).

Section code.
Context `{Allocator} (m : cfg).

Definition node_at (x : key) : exec tt_lnode_t := match nodes (links m) !! x with Some v => Ret v | None => Undef end.

(** The number of matching children, the rest of the first one and the length of the
    common part. *)
Fixpoint count_loop (fuel : nat) (tail : list Z) (nd : option key) (match_num : Z) (common : list Z) (common_len : Z) : exec (Z * list Z * Z) :=
  match fuel with
  | O => Diverge
  | S fuel =>
      match nd with
      | None => Ret (match_num, common, common_len)
      | Some x =>
          exec_bind (at_obj m x) (λ o,
          exec_bind (starts_with (name o) tail) (λ hit,
          exec_bind (node_at x) (λ v,
          let rest := drop (length tail) (name o) in
          let rest_len := u32 (zlen (name o) - zlen tail) in
          if hit then
            if match_num =? 0 then count_loop fuel tail (next v) (u32 (match_num + 1)) rest rest_len
            else
              let n := Z.min common_len rest_len in
              let k := common_loop common rest 0 (Z.to_nat n) in
              count_loop fuel tail (next v) (u32 (match_num + 1)) common (u32 (common_len - u32 (n - k)))
          else count_loop fuel tail (next v) match_num common common_len)))
      end
  end.

(** The rest of a name, and a slash behind a directory. *)
Definition put_child (o : tt_cfgobj_t) (rest : list Z) : M tt_buf_t Z :=
  tt_buf_put_cstr rest;;
  if is_dir (type o) then tt_buf_put_u8 47;; mret TT_CFGPCP_FULL_MORE else mret TT_CFGPCP_FULL.
Fixpoint single_loop (fuel : nat) (tail : list Z) (nd : option key) : M tt_buf_t Z :=
  match fuel with
  | O => λ _, Diverge
  | S fuel =>
      match nd with
      | None => undef
      | Some x =>
          o ← access (at_obj m x);
          hit ← access (starts_with (name o) tail);
          if hit : bool then put_child o (drop (length tail) (name o))
          else v ← access (node_at x); single_loop fuel tail (next v)
      end
  end.
(** The names that [sel] takes, with blanks between them. *)
Fixpoint names_loop (fuel : nat) (sel : list Z → exec bool) (nd : option key) (hd : bool) : M tt_buf_t unit :=
  match fuel with
  | O => λ _, Diverge
  | S fuel =>
      match nd with
      | None => mret tt
      | Some x =>
          o ← access (at_obj m x);
          hit ← access (sel (name o));
          v ← access (node_at x);
          if hit : bool then
            (if hd : bool then mret tt else tt_buf_put_u8 32);;
            tt_buf_put_cstr (name o);;
            names_loop fuel sel (next v) false
          else names_loop fuel sel (next v) hd
      end
  end.

(** The directory of the path and what is behind its last slash. *)
Definition complete_dir (root current : key) (path : list Z) : exec (option key * list Z) :=
  match last_slash (length path) path with
  | Some i => exec_bind (tt_cfgpath_p2n root current (take i path) m) (λ '(r, _), match r with TT_SUCCESS x => Ret (x, drop (S i) path) | TT_ERROR _ => Undef end)
  | None => Ret (Some current, path)
  end.

(** From the line "now current is parent node" on. *)
Definition complete_at (d : key) (tail : list Z) : M tt_buf_t Z :=
  od ← access (at_obj m d);
  if negb (is_dir (type od)) then mret TT_CFGPCP_NONE
  else if (zlen tail =? 1) && (nth 0 tail 0 =? 46) then tt_buf_put_u8 47;; mret TT_CFGPCP_FULL_MORE
  else if (zlen tail =? 2) && (nth 0 tail 0 =? 46) && (nth 1 tail 0 =? 46) then tt_buf_put_u8 47;; mret TT_CFGPCP_FULL_MORE
  else
    l ← access (match lists (links m) !! d with Some l => Ret l | None => Undef end);
    if zlen tail =? 0 then
      if count l =? 1 then
        match LinkedList.head l with
        | Some x => o ← access (at_obj m x); put_child o (name o)
        | None => undef
        end
      else names_loop (fuel_of m) (λ _, Ret true) (LinkedList.head l) true;; mret TT_CFGPCP_NONE
    else
      '(match_num, common, common_len) ← access (count_loop (fuel_of m) tail (LinkedList.head l) 0 [] 0);
      if match_num =? 0 then mret TT_CFGPCP_NONE
      else if match_num =? 1 then single_loop (fuel_of m) tail (LinkedList.head l)
      else if 0 <? common_len then
        d ← access (mem_read (common ++ [0]) 0 common_len);
        tt_buf_put d;;
        mret TT_CFGPCP_PARTIAL
      else names_loop (fuel_of m) (λ n, starts_with n tail) (LinkedList.head l) true;; mret TT_CFGPCP_NONE.

(** [path] is [None] for the null pointer. *)
Definition tt_cfgpath_complete (root current : key) (path : option (list Z)) : M tt_buf_t Z :=
  assert_always (negb (is_null path));;
  '(dir, tail) ← access (complete_dir root current (default [] path));
  match dir with
  | None => mret TT_CFGPCP_NONE
  | Some d => complete_at d tail
  end.
End code.

(** ** What is offered *)

(** For the children [es] of a directory and the start [tail] of a name. *)
Definition full (e : entry) (rest : list Z) : Z * list Z :=
  if e.1 then (TT_CFGPCP_FULL_MORE, rest ++ [47]) else (TT_CFGPCP_FULL, rest).
Definition offer (tail : list Z) (es : list entry) : Z * list Z :=
  if bool_decide (tail = [46] ∨ tail = [46; 46]) then (TT_CFGPCP_FULL_MORE, [47])
  else
    match filter (λ e : entry, tail `prefix_of` e.2) es with
    | [] => (TT_CFGPCP_NONE, [])
    | [e] => full e (drop (length tail) e.2)
    | ms =>
        let L := lcp_all (drop (length tail) <$> (ms.*2)) in
        if bool_decide (tail = [] ∨ L = []) then (TT_CFGPCP_NONE, CliRun.join (ms.*2)) else (TT_CFGPCP_PARTIAL, L)
    end.

Lemma starts_prefix nm tail : Forall (λ c, c ≠ 0) tail → zlen tail ≤ zlen nm + 1 → starts_with nm tail = Ret (bool_decide (tail `prefix_of` nm)).
Proof.
  intros Ht Hl. unfold starts_with. pose proof (zlen_nonneg tail). rewrite mem_read_ok by (rewrite ?zlen_app; change (zlen [0]) with 1; lia). cbn [exec_bind]. f_equal.
  unfold sub. change (Z.to_nat 0) with O. rewrite drop_0.
  assert (length (take (Z.to_nat (zlen tail)) (nm ++ [0])) = length tail) as Elen by (rewrite length_take, length_app; unfold zlen in *; simpl; lia).
  rewrite mem_cmp_id by done. unfold zlen. rewrite Nat2Z.id. apply bool_decide_ext. split.
  - intros E. destruct (decide (length tail ≤ length nm)%nat) as [Hle|Hgt].
    + rewrite take_app_le in E by done. exists (drop (length tail) nm). by rewrite <- E at 1; rewrite take_drop.
    + exfalso. rewrite take_ge in E by (rewrite length_app; unfold zlen in Hl; simpl; lia). rewrite <- E in Ht. apply Forall_app in Ht as [_ Ht]. by apply Forall_cons_1 in Ht as [? _].
  - intros [k ->]. rewrite <- app_assoc. by rewrite take_app_length.
Qed.

Section children.
Context `{Allocator} (m : cfg) (kids : gmap key (list key)) (Hinv : cfg_inv m kids) (d : key).

(** The children and what a listing shows of them. *)
Notation shown xs es := (Forall2 (λ x e, tag <$> objs m !! x = Some e) xs es).

Lemma child_step pre x xs : kids !! d = Some (pre ++ x :: xs) → ∃ o v, at_obj m x = Ret o ∧ obj_ok o ∧ objs m !! x = Some o ∧ node_at m x = Ret v ∧ next v = hd_or xs None.
Proof.
  intros Hd. destruct (kid_obj m kids Hinv d pre x xs Hd) as (o & Ho & Hok). destruct (rep_list _ _ (ci_lrep _ _ Hinv) d _ Hd) as (_ & _ & Hl). apply linked_at in Hl.
  exists o. eexists. unfold at_obj, node_at. rewrite Ho, Hl. done.
Qed.
Lemma cstring_nm o : obj_ok o → cstring (name o).
Proof.
  intros Hok. pose proof (name_bytes o Hok). pose proof (name_positives _ (ok_name _ Hok)) as Hp. apply Forall_forall. intros c Hc.
  rewrite Forall_forall in *. split; [by eauto|]. specialize (Hp c Hc). cbn in Hp. lia.
Qed.

Context (tail : list Z) (Ht : cstring tail).

Lemma is_match_decide nm : is_match tail nm = bool_decide (tail `prefix_of` nm).
Proof. apply eq_bool_prop_intro. rewrite bool_decide_spec. rewrite <- (match_prefix tail nm Ht). by destruct (is_match tail nm). Qed.

Lemma matches_ok xs : ∀ es pre fuel num common len, kids !! d = Some (pre ++ xs) → shown xs es → (length xs < fuel)%nat →
  Forall (λ e, zlen tail ≤ zlen e.2 + 1) es →
  count_loop m fuel tail (hd_or xs None) num common len = Ret (match_loop tail es.*2 num common len).
Proof.
  induction xs as [|x xs IH]; intros es pre [|fuel] num common len Hd Hsh Hf Hlen; simpl in Hf; try lia; inversion Hsh as [|? e ? es' Hxe Hsh']; subst; [done|].
  destruct (child_step pre x xs Hd) as (o & v & Eo & Hok & Ho & Ev & En). rewrite Ho in Hxe. injection Hxe as <-. apply Forall_cons_1 in Hlen as [Hl Hlen]. cbn [tag snd] in Hl.
  cbn [hd_or count_loop fmap list_fmap match_loop tag snd]. rewrite Eo. cbn [exec_bind]. rewrite starts_prefix by (done || by apply cstring_nz). cbn [exec_bind]. rewrite Ev. cbn [exec_bind]. rewrite En.
  rewrite is_match_decide. assert (kids !! d = Some ((pre ++ [x]) ++ xs)) as Hd' by by rewrite <- app_assoc. destruct (bool_decide _); [|by eapply IH; [exact Hd'|done|lia|done]].
  destruct (num =? 0); by eapply IH; [exact Hd'|done|lia|done].
Qed.

Lemma put_child_ok o e rest : obj_ok o → tag o = e → Forall is_u8 rest → ∀ b n, out_ok b → 0 ≤ n → room b (zlen (full e rest).2 + n) →
  ∃ b', put_child o rest b = Ret (TT_SUCCESS (full e rest).1, b') ∧ wrote b (full e rest).2 n b'.
Proof.
  intros Hok <- Hr b n Hb Hn Hroom. unfold put_child, full in *. cbn [tag fst] in *. destruct (is_dir (type o)); cbn [fst snd] in *.
  - rewrite zlen_app in Hroom. change (zlen [47]) with 1 in Hroom. rewrite <- Z.add_assoc in Hroom. destruct (out_put b rest (1 + n)) as (b1 & E1 & Hw1); [done|done|lia|done|].
    unfold tt_buf_put_cstr. erewrite bind_step by exact E1. destruct (out_put b1 [47] n) as (b2 & E2 & Hw2); [apply Hw1|by repeat constructor|done|apply Hw1|].
    unfold tt_buf_put_u8. erewrite bind_step by exact E2. exists b2. split; [done|]. by eapply wrote_trans.
  - destruct (out_put b rest n) as (b1 & E1 & Hw1); try done. unfold tt_buf_put_cstr. erewrite bind_step by exact E1. by exists b1.
Qed.

Lemma single_loop_ok xs : ∀ es pre fuel e ms, kids !! d = Some (pre ++ xs) → shown xs es → (length xs < fuel)%nat →
  Forall (λ e, zlen tail ≤ zlen e.2 + 1) es → filter (λ e : entry, tail `prefix_of` e.2) es = e :: ms →
  ∀ b n, out_ok b → 0 ≤ n → room b (zlen (full e (drop (length tail) e.2)).2 + n) →
  ∃ b', single_loop m fuel tail (hd_or xs None) b = Ret (TT_SUCCESS (full e (drop (length tail) e.2)).1, b') ∧ wrote b (full e (drop (length tail) e.2)).2 n b'.
Proof.
  induction xs as [|x xs IH]; intros es pre [|fuel] e ms Hd Hsh Hf Hlen Hfl b n Hb Hn Hroom; simpl in Hf; try lia; inversion Hsh as [|? e0 ? es' Hxe Hsh']; subst; [done|].
  destruct (child_step pre x xs Hd) as (o & v & Eo & Hok & Ho & Ev & En). rewrite Ho in Hxe. injection Hxe as <-. apply Forall_cons_1 in Hlen as [Hl Hlen]. cbn [tag snd] in Hl.
  cbn [hd_or single_loop]. rewrite Eo. erewrite (bind_step (access (Ret o))) by done. rewrite starts_prefix by (done || by apply cstring_nz). erewrite (bind_step (access (Ret _))) by done.
  rewrite filter_cons in Hfl. cbn [tag snd] in Hfl. case_bool_decide as Hp; [rewrite decide_True in Hfl by done|rewrite decide_False in Hfl by done].
  - injection Hfl as <- _. apply put_child_ok; try done. apply Forall_drop. by apply cstring_u8, cstring_nm.
  - rewrite Ev. erewrite (bind_step (access (Ret v))) by done. rewrite En. eapply (IH es' (pre ++ [x])); try done; [by rewrite <- app_assoc|lia].
Qed.

Lemma names_loop_ok (P : list Z → Prop) `{∀ s, Decision (P s)} sel xs : ∀ es pre fuel hd, kids !! d = Some (pre ++ xs) → shown xs es → (length xs < fuel)%nat →
  Forall (λ e, sel e.2 = Ret (bool_decide (P e.2))) es →
  ∀ b, names_loop m fuel sel (hd_or xs None) hd b = put_options hd (filter (λ e : entry, P e.2) es).*2 b.
Proof.
  induction xs as [|x xs IH]; intros es pre [|fuel] hd Hd Hsh Hf Hs b; simpl in Hf; try lia; inversion Hsh as [|? e0 ? es' Hxe Hsh']; subst; [done|].
  destruct (child_step pre x xs Hd) as (o & v & Eo & Hok & Ho & Ev & En). rewrite Ho in Hxe. injection Hxe as <-. apply Forall_cons_1 in Hs as [Hl Hs]. cbn [tag snd] in Hl.
  assert (kids !! d = Some ((pre ++ [x]) ++ xs)) as Hd' by by rewrite <- app_assoc.
  cbn [hd_or names_loop]. rewrite Eo. erewrite (bind_step (access (Ret o))) by done. rewrite Hl. erewrite (bind_step (access (Ret _))) by done. rewrite Ev. erewrite (bind_step (access (Ret v))) by done. rewrite En.
  rewrite filter_cons. cbn [tag snd]. case_bool_decide as Hp; [rewrite decide_True by done|rewrite decide_False by done; by eapply IH; [exact Hd'|done|lia|done]].
  cbn [fmap list_fmap put_options tag snd]. unfold mbind, M_bind, bind. destruct ((if hd then mret tt else tt_buf_put_u8 32) b) as [[[[]|e] b1]| | |]; cbn [exec_bind]; try done.
  unfold tt_buf_put_cstr. destruct (tt_buf_put (name o) b1) as [[[[]|e] b2]| | |]; cbn [exec_bind]; try done. eapply IH; [exact Hd'|done|lia|done].
Qed.
End children.

(** ** Properties *)

(** The directory in which a path is completed, and the start of the name. *)
Definition where_to (F : forest) (root current : key) (path : list Z) : option key * list Z :=
  match last_slash (length path) path with
  | Some i => (resolve F root current (take i path), drop (S i) path)
  | None => (Some current, path)
  end.

Section spec.
Context `{Allocator} (m : cfg) (F : forest) (Hm : models m F).

Lemma entries_names kids d xs es : cfg_inv m kids → kids !! d = Some xs → Forall2 (λ x e, tag <$> objs m !! x = Some e) xs es →
  Forall cstring es.*2 ∧ Forall (λ n, zlen n < 2 ^ 32) es.*2.
Proof.
  intros Hinv Hd Hsh. rewrite !Forall_fmap. split; apply Forall_forall; intros e [i He]%list_elem_of_lookup_1; destruct (Forall2_lookup_r _ _ _ _ _ Hsh He) as (x & _ & Hx);
    apply fmap_Some in Hx as (o & Ho & ->); pose proof (ci_obj _ _ Hinv x o Ho) as Hok; cbn; [by apply cstring_nm|pose proof (ok_len _ Hok); lia].
Qed.
Lemma matches_filter tail es : cstring tail → (filter (λ e : entry, tail `prefix_of` e.2) es).*2 = matches tail es.*2.
Proof.
  intros Ht. unfold matches. induction es as [|e es IH]; [done|]. rewrite filter_cons. cbn [fmap list_fmap List.filter]. rewrite (is_match_decide tail Ht).
  case_decide as Hp; [rewrite bool_decide_eq_true_2 by done|rewrite bool_decide_eq_false_2 by done]; cbn; by rewrite <- IH.
Qed.
Lemma matches_all (es : list entry) : filter (λ e : entry, [] `prefix_of` e.2) es = es.
Proof. induction es as [|e es IH]; [done|]. rewrite filter_cons, decide_True by apply prefix_nil. by rewrite IH. Qed.

Lemma filter_all {A} (P : A → Prop) `{∀ x, Decision (P x)} (l : list A) : (∀ x, P x) → filter P l = l.
Proof. intros HP. induction l as [|x l IH]; [done|]. by rewrite filter_cons, decide_True, IH. Qed.

(** In directory [d], whose children are [xs] with what a listing shows of them. *)
Lemma complete_in kids d xs es tail od b n : cfg_inv m kids → kids !! d = Some xs → Forall2 (λ x e, tag <$> objs m !! x = Some e) xs es →
  objs m !! d = Some od → type od = TT_CFGOBJ_DIR → cstring tail → zlen es < 2 ^ 31 → Forall (λ e, zlen tail ≤ zlen e.2 + 1) es →
  lasting_all (rests tail es.*2) → out_ok b → 0 ≤ n → room b (zlen (offer tail es).2 + n) →
  ∃ b', complete_at m d tail b = Ret (TT_SUCCESS (offer tail es).1, b') ∧
    wrote b (offer tail es).2 n b'.
Proof.
  intros Hinv Hd Hsh Hod Htype Ht Hnum Hlen Hlast Hb Hn Hroom.
  unfold complete_at. assert (at_obj m d = Ret od) as -> by (unfold at_obj; by rewrite Hod). erewrite (bind_step (access (Ret od))) by done. rewrite Htype. change (is_dir TT_CFGOBJ_DIR) with true. cbn [negb].
  destruct (entries_names kids d xs es Hinv Hd Hsh) as [Hcs Hsz]. destruct (rep_list _ _ (ci_lrep _ _ Hinv) d _ Hd) as (El & _ & _).
  pose proof (Forall2_length _ _ _ Hsh) as Elen. assert (zlen xs = zlen es) as Ez by (unfold zlen; lia).
  assert (length xs < fuel_of m)%nat as Hfuel by by apply (fuel_enough m kids Hinv d []).
  unfold offer in *. case_bool_decide as Hdots.
  { cbn [fst snd] in *. destruct (out_put b [47] n) as (b' & E & Hw); [done|by repeat constructor|done|done|]. exists b'. split; [|done]. unfold tt_buf_put_u8.
    destruct Hdots as [->| ->]; cbv [zlen length nth Z.of_nat Pos.of_succ_nat Pos.succ Z.eqb Pos.eqb andb]; by erewrite bind_step by exact E. }
  assert ((zlen tail =? 1) && (nth 0 tail 0 =? 46) = false ∧ (zlen tail =? 2) && (nth 0 tail 0 =? 46) && (nth 1 tail 0 =? 46) = false) as [-> ->].
  { clear -Hdots. destruct tail as [|c [|c' [|c'' tail]]]; cbn [nth]; rewrite ?zlen_cons, ?zlen_nil.
    - done.
    - split; [|done]. apply andb_false_iff. right. apply Z.eqb_neq. intros ->. apply Hdots. by left.
    - split; [done|]. apply not_true_is_false. intros [[_ E1%Z.eqb_eq]%andb_true_iff E2%Z.eqb_eq]%andb_true_iff. subst. apply Hdots. by right.
    - pose proof (zlen_nonneg tail). by rewrite (proj2 (Z.eqb_neq _ 1)), (proj2 (Z.eqb_neq _ 2)) by lia. }
  rewrite El. erewrite (bind_step (access (Ret _))) by done. cbn [LinkedList.head count list_of]. pose proof (matches_filter tail es Ht) as Hmf. unfold rests in Hlast. rewrite <- Hmf in Hlast.
  destruct tail as [|c tail0] eqn:Etail.
  - change (zlen [] =? 0) with true. cbv iota. rewrite matches_all in *. cbn [length] in *.
    assert (drop 0 <$> es.*2 = es.*2) as Edrop by (clear; induction (es.*2) as [|a l IH]; [done|]; cbn; by rewrite IH).
    assert (u32 (zlen xs) = zlen es) as -> by (rewrite u32_small by (pose proof (zlen_nonneg xs); lia); done).
    assert (Forall (λ e : entry, (λ _ : list Z, Ret true) e.2 = Ret (bool_decide True)) es) as Hall by by apply Forall_true.
    destruct es as [|e [|e' es]].
    + apply Forall2_nil_inv_r in Hsh as ->. exists b. split; [done|]. by apply wrote_refl.
    + change (zlen [e] =? 1) with true. cbv iota. apply Forall2_cons_inv_r in Hsh as (x & xs' & Hx & Hsh' & ->). apply Forall2_nil_inv_r in Hsh' as ->. cbn [hd_or].
      destruct (child_step m kids Hinv d [] x [] Hd) as (o & v & Eo & Hok & Ho & _). rewrite Ho in Hx. injection Hx as <-.
      rewrite Eo. erewrite (bind_step (access (Ret o))) by done. rewrite drop_0 in *. cbn [tag snd] in *. apply put_child_ok; try done. apply cstring_u8. by apply cstring_nm.
    + rewrite (proj2 (Z.eqb_neq _ 1)) by (rewrite !zlen_cons; pose proof (zlen_nonneg es); lia). rewrite bool_decide_eq_true_2 in * by by left. cbn [fst snd] in *.
      destruct (put_options_ok (e :: e' :: es).*2 true b n) as (b' & E & Hw); [done|by eapply Forall_impl, cstring_u8|done|done|]. exists b'. split; [|done].
      pose proof (names_loop_ok m kids Hinv d (λ _, True) (λ _, Ret true) xs (e :: e' :: es) [] (fuel_of m) true Hd Hsh Hfuel Hall b) as En.
      rewrite filter_all in En by done. rewrite <- En in E. by erewrite bind_step by exact E.
  - rewrite <- Etail in *. assert (zlen tail ≠ 0) as Hne by (rewrite Etail, zlen_cons; pose proof (zlen_nonneg tail0); lia). rewrite (proj2 (Z.eqb_neq (zlen tail) 0)) by done.
    set (ms := filter (λ e : entry, tail `prefix_of` e.2) es) in *.
    rewrite (matches_ok m kids Hinv d tail Ht xs es [] (fuel_of m) 0 [] 0 Hd Hsh Hfuel Hlen).
    assert (lasting_all (rests tail es.*2)) as Hla by (unfold rests; by rewrite <- Hmf).
    rewrite (match_loop_start tail es.*2 Ht Hsz) by (done || (unfold zlen; rewrite length_fmap; exact Hnum)). erewrite (bind_step (access (Ret _))) by done. cbv beta iota.
    assert (rests tail es.*2 = drop (length tail) <$> ms.*2) as Er by (unfold rests; by rewrite <- Hmf). rewrite Er.
    assert (zlen (drop (length tail) <$> ms.*2) = zlen ms) as Ezm by (unfold zlen; by rewrite !length_fmap). rewrite Ezm.
    assert (Forall cstring ms.*2) as Hms.
    { subst ms. clear -Hcs. induction es as [|e es IH]; [done|]. apply Forall_cons_1 in Hcs as [Hc Hcs]. rewrite filter_cons. case_decide; [constructor; [done|by apply IH]|by apply IH]. }
    pose proof (λ e l, single_loop_ok m kids Hinv d tail Ht xs es [] (fuel_of m) e l Hd Hsh Hfuel Hlen) as Hsingle. fold ms in Hsingle.
    assert (Forall (λ e : entry, (λ n, starts_with n tail) e.2 = Ret (bool_decide ((λ n, tail `prefix_of` n) e.2))) es) as Hsel.
    { eapply Forall_impl; [exact Hlen|]. intros e He. apply starts_prefix; [by apply cstring_nz|done]. }
    assert (names_loop m (fuel_of m) (λ n, starts_with n tail) (hd_or xs None) true b = put_options true ms.*2 b) as Hnames.
    { apply (names_loop_ok m kids Hinv d (λ n, tail `prefix_of` n) (λ n, starts_with n tail) xs es []); done. }
    clearbody ms. clear Hmf Er Hla Hlast. destruct ms as [|e [|e' ms]]; [exists b; split; [done|by apply wrote_refl]|by apply (Hsingle e [])|].
    rewrite (proj2 (Z.eqb_neq _ 0)), (proj2 (Z.eqb_neq _ 1)) by (rewrite !zlen_cons; pose proof (zlen_nonneg ms); lia).
    set (rs := drop (length tail) <$> (e :: e' :: ms).*2) in *. set (L := lcp_all rs) in *.
    assert (Forall cstring rs) as Hrs by (subst rs; apply Forall_fmap; eapply Forall_impl; [exact Hms|]; intros r Hr; by apply Forall_drop).
    assert (L `prefix_of` hd [] rs) as [k HL].
    { pose proof (proj1 (lcp_all_spec rs L ltac:(subst rs; done)) ltac:(done)) as Hp. subst rs. cbn in Hp. by apply Forall_cons_1 in Hp as [? _]. }
    assert (tail ≠ []) as Htne by congruence. case_bool_decide as EL.
    + destruct EL as [?|EL]; [done|]. rewrite EL. change (0 <? zlen []) with false. cbv iota. cbn [fst snd] in *.
      destruct (put_options_ok (e :: e' :: ms).*2 true b n) as (b' & E & Hw); [done|by eapply Forall_impl, cstring_u8|done|done|]. exists b'. split; [|done].
      rewrite <- Hnames in E. by erewrite bind_step by exact E.
    + assert (L ≠ []) as HLne by tauto. pose proof (zlen_nonneg L). assert (zlen L ≠ 0) by (intros E; by apply zlen_nil_inv in E). rewrite (proj2 (Z.ltb_lt 0 (zlen L))) by lia.
      rewrite HL, <- app_assoc. pose proof (zlen_nonneg (k ++ [0])). rewrite mem_read_ok by (rewrite ?zlen_app in *; lia).
      rewrite sub_app_len. erewrite (bind_step (access _)) by done. cbn [fst snd] in *.
      destruct (out_put b L n) as (b' & E & Hw); [done| |done|done|].
      { assert (Forall cchar (L ++ k)) as Hf by (rewrite <- HL; clear -Hrs; destruct Hrs; [constructor|done]). apply Forall_app in Hf as [Hf _]. by apply cstring_u8. }
      exists b'. erewrite bind_step by exact E. by split.
Qed.

Lemma complete_dir_ok root current path : is_Some (F !! root) → is_Some (F !! current) → complete_dir m root current path = Ret (where_to F root current path).
Proof.
  intros Hr Hc. unfold complete_dir, where_to. destruct (last_slash (length path) path) as [i|]; [|done]. by rewrite (p2n_ok m F Hm).
Qed.

Lemma path_complete_ok root current path b n : is_Some (F !! root) → is_Some (F !! current) → cstring path →
  out_ok b → 0 ≤ n →
  match where_to F root current path with
  | (Some d, tail) =>
      if dir_at F d then ∃ xs es, listing F d xs es ∧
        (zlen es < 2 ^ 31 → Forall (λ e, zlen tail ≤ zlen e.2 + 1) es → lasting_all (rests tail es.*2) → room b (zlen (offer tail es).2 + n) →
         ∃ b', tt_cfgpath_complete m root current (Some path) b = Ret (TT_SUCCESS (offer tail es).1, b') ∧ wrote b (offer tail es).2 n b')
      else tt_cfgpath_complete m root current (Some path) b = Ret (TT_SUCCESS TT_CFGPCP_NONE, b)
  | (None, _) => tt_cfgpath_complete m root current (Some path) b = Ret (TT_SUCCESS TT_CFGPCP_NONE, b)
  end.
Proof.
  intros Hr Hc Hp Hb Hn. pose proof (complete_dir_ok root current path Hr Hc) as E. unfold tt_cfgpath_complete. erewrite (bind_step (assert_always _)) by done.
  change (default [] (Some path)) with path. rewrite E.
  assert (∀ d tail, where_to F root current path = (Some d, tail) → is_Some (F !! d) ∧ cstring tail) as Hdt.
  { unfold where_to. intros d tail. destruct (last_slash _ _) as [i|]; intros [= Hd <-]; [split; [exact (resolve_known m F Hm root current _ d Hr Hc Hd)|by apply Forall_drop]|by subst]. }
  destruct (where_to F root current path) as [[d|] tail]; cycle 1. { by erewrite (bind_step (access (Ret _))) by done. }
  destruct (Hdt d tail eq_refl) as [Hd Ht]. destruct (known_obj m F Hm d Hd) as [od Hod]. rewrite (dir_obj m F Hm d od Hod). destruct (is_dir (type od)) eqn:Et; cycle 1.
  { erewrite (bind_step (access (Ret _))) by done. cbv beta iota. unfold complete_at. assert (at_obj m d = Ret od) as -> by (unfold at_obj; by rewrite Hod). erewrite (bind_step (access (Ret od))) by done. by rewrite Et. }
  apply is_dir_true in Et. destruct Hm as [[kids Hinv] Hv]. destruct (proj2 (ci_dir _ _ Hinv d)) as [xs Hk]; [by exists od|].
  destruct (kids_listing m kids F d xs Hinv Hv Hk) as (es & Hl & Hsh). exists xs, es. split; [done|]. intros Hnum Hlen Hlast Hroom.
  erewrite (bind_step (access (Ret _))) by done. cbv beta iota. by eapply complete_in.
Qed.
End spec.



