(* ===== verification/Shell.v ===== *)
(** The shell on the configuration objects (cli/shell/tt_shell.h and .c,
    tt_shell_command.h and .c, and the commands tt_shcmd_*.c): the code, as the
    functions that the command line of [Cli] calls. *)

From Stdlib Require Import String Ascii.
From S2P Require Import Prelude MemSpring Buffer BufferFormat SshDef BufCommon Str LinkedList CliLine Cli CfgTree CfgValue CfgPath CfgList CfgComplete.
From stdpp Require Import gmap.

#[local] Open Scope Z_scope.

(** ** Data *)

Definition TT_SH_ARG_NUM : Z := 10.
Definition tt_g_sh_line_sep : list Z := [TT_CLI_EV_ENTER].
Definition tt_g_sh_colume_sep : list Z := [32; 32; 32; 32].

Inductive tt_shcmd_id_t : Type := TT_SHCMD_LS | TT_SHCMD_CD | TT_SHCMD_HELP | TT_SHCMD_PWD | TT_SHCMD_QUIT | TT_SHCMD_GET | TT_SHCMD_SET.
Record tt_shcmd_t : Type := mk_shcmd { shcmd_name : list Z; info : list Z; usage : list Z; run : tt_shcmd_id_t }.

Definition tt_g_shcmd : list tt_shcmd_t :=
  [ mk_shcmd (chars "ls") (chars "list directory contents or entry information") (chars "testing") TT_SHCMD_LS;
    mk_shcmd (chars "cd") (chars "change directory") (chars "testing change directory") TT_SHCMD_CD;
    mk_shcmd (chars "help") (chars "show command or entry usage") [] TT_SHCMD_HELP;
    mk_shcmd (chars "pwd") (chars "show current shell path") (chars "testing pwd") TT_SHCMD_PWD;
    mk_shcmd (chars "quit") (chars "quit shell") (chars "testing quit") TT_SHCMD_QUIT;
    mk_shcmd (chars "get") (chars "get entry value") (chars "testing get") TT_SHCMD_GET;
    mk_shcmd (chars "set") (chars "set value") (chars "testing set") TT_SHCMD_SET ].
Definition tt_g_shcmd_name : list (list Z) := map shcmd_name tt_g_shcmd.

(** [TT_SHCMD_NUM] entries are compared until one is equal. *)
Definition tt_shcmd_find (nm : list Z) : option tt_shcmd_t := List.find (λ c, strcmp (shcmd_name c) nm =? 0) tt_g_shcmd.

(** [conf] are the objects that [root] and [current] point to; [arg] the first
    [arg_num] entries of the array, which has room for [arg_size]. *)
Record tt_shell_t : Type := mk_sh {
  conf : cfg;
  root : key;
  current : key;
  arg : list (list Z);
  arg_size : Z;
  exit_msg : option (list Z);
}.
Definition set_conf (m : cfg) (s : tt_shell_t) : tt_shell_t := mk_sh m (root s) (current s) (arg s) (arg_size s) (exit_msg s).
Definition set_current (x : key) (s : tt_shell_t) : tt_shell_t := mk_sh (conf s) (root s) x (arg s) (arg_size s) (exit_msg s).
Definition set_arg (a : list (list Z)) (n : Z) (s : tt_shell_t) : tt_shell_t := mk_sh (conf s) (root s) (current s) a n (exit_msg s).
Record tt_sh_attr_t : Type := mk_sh_attr { at_exit_msg : option (list Z); cli_attr : tt_cli_attr_t }.

(** A [tt_result_t] as a number. *)
Definition err_code (e : tt_err) : Z :=
  match e with
  | TT_FAIL => 0x1000001 | TT_E_TIMEOUT => 0x1000002 | TT_E_END => 0x1000003 | TT_E_PROCEED => 0x1000004 | TT_E_BADARG => 0x1000005
  | TT_E_NOMEM => 0x1000006 | TT_E_NOEXIST => 0x1000007 | TT_E_EXIST => 0x1000008 | TT_E_UNSUPPORT => 0x1000009 | TT_E_NOSPC => 0x100000A
  | TT_E_BUF_NOBUFS => 0x2000001 | TT_E_NTV_FAIL => 0x3000001
  end.

(** ** Formatted output *)

Section putf.
Context `{Allocator}.

(** [tt_buf_putv] for the text [d] that the format yields: [tt_vsnprintf] writes what
    fits and a NUL. *)
Fixpoint putv_loop (retry : nat) (d : list Z) : M tt_buf_t unit :=
  b ← gets id;
  let len := TT_BUF_WLEN b in
  let n := zlen d in
  (if 0 <? len then buf_write (wpos b) (take (Z.to_nat (len - 1)) d ++ [0]) else mret tt);;
  if len <=? u32 (n + 1) then
    match retry with
    | O => fail TT_FAIL
    | S retry => r ← try tt_buf_extend; match r with TT_SUCCESS _ => putv_loop retry d | TT_ERROR _ => fail TT_FAIL end
    end
  else try (tt_buf_inc_wp n);; mret tt.
Definition tt_buf_putf (d : list Z) : M tt_buf_t unit := putv_loop 10 d.
End putf.

(** ** The shell *)

(** The command line hands the shell to its functions; they call none of them. *)
Definition bare : CliUser := {|
  World := tt_shell_t;
  call_cmd _ _ _ _ := Undef;
  call_complete _ _ _ _ _ := Undef;
  call_quit _ _ := Undef;
  Cli.call_read _ _ _ := Undef;
  call_send _ _ _ _ := Undef;
|}.

Section shell.
Context `{Allocator} `{CfgUser}.
Notation st := (tt_cli_t * tt_shell_t)%type.

Definition on_out {A} (o : M tt_buf_t A) : M st A := @with_outbuf bare A o.
Definition the_shell : M st tt_shell_t := gets snd.
Definition upd_shell (f : tt_shell_t → tt_shell_t) : M st unit := modify (λ s, (s.1, f s.2)).
Definition on_conf {A} (o : M cfg A) : M st A := zoom (λ s : st, conf s.2) (λ m s, (s.1, set_conf m s.2)) o.

(** A call whose result nobody looks at. *)
Definition drop_res (o : M st unit) : M st unit := try o;; mret tt.
Definition say (d : list Z) : M st unit := drop_res (on_out (tt_buf_putf d)).
Definition put (d : list Z) : M st unit := drop_res (on_out (tt_buf_put_cstr d)).

(** [tt_buf_backup_rwp], the operation, and if it fails [tt_buf_restore_rwp] and a message. *)
Definition guarded (o : M st unit) (msg : tt_err → list Z) : M st (result unit) :=
  rw ← on_out tt_buf_backup_rwp;
  r ← try o;
  match r with
  | TT_SUCCESS _ => mret r
  | TT_ERROR e => on_out (tt_buf_restore_rwp rw);; say (msg e);; mret r
  end.
Definition op_msg (e : tt_err) : list Z :=
  match e with TT_E_UNSUPPORT => chars "not supported operation" | _ => chars "internal error" end.

(** [tt_cfgpath_p2n(sh->root, sh->current, path, tt_strlen(path))] *)
Definition find_path (path : list Z) : M st (option key) :=
  sh ← the_shell; on_conf (tt_cfgpath_p2n (root sh) (current sh) path).
Definition object (co : key) : M st tt_cfgobj_t := on_conf (obj co).

(** *** Arguments *)

Definition __expand_arg : M st unit :=
  sh ← the_shell;
  let num := u32 (arg_size sh + TT_SH_ARG_NUM) in
  let size := u32 (num * 8) in
  match malloc size with
  | None => fail TT_FAIL
  | Some _ => if size <? arg_size sh * 8 + 8 then undef else upd_shell (set_arg (arg sh) num)
  end.
Definition __put_arg (a : list Z) : M st unit :=
  sh ← the_shell;
  assert_always (zlen (arg sh) <=? arg_size sh);;
  (if zlen (arg sh) =? arg_size sh then do_r TT_FAIL __expand_arg else mret tt);;
  sh ← the_shell;
  assert_always (zlen (arg sh) <? arg_size sh);;
  upd_shell (set_arg (arg sh ++ [a]) (arg_size sh)).

Fixpoint skip_blanks (p : list Z) : list Z := match p with c :: p' => if c =? 32 then skip_blanks p' else p | [] => [] end.
(** The characters before [end_c], and the rest from it on. *)
Fixpoint arg_end (end_c : Z) (p : list Z) : list Z * list Z :=
  match p with
  | [] => ([], [])
  | c :: p' => if c =? end_c then ([], p) else let '(a, r) := arg_end end_c p' in (c :: a, r)
  end.
(** An argument ends with the NUL that is written over [end_c], or with the line; the
    line is the one that was typed, which the command line clears afterwards. *)
Fixpoint parse_loop (fuel : nat) (p : list Z) : M st unit :=
  match fuel with
  | O => λ _, Diverge
  | S fuel =>
      match skip_blanks p with
      | [] => mret tt
      | c :: p' =>
          let '(end_c, q) := if c =? 34 then (34, p') else if c =? 39 then (39, p') else (32, c :: p') in
          let '(a, rest) := arg_end end_c q in
          (if 0 <? zlen a then __put_arg a else mret tt);;
          match rest with
          | [] => mret tt
          | _ :: rest => parse_loop fuel rest
          end
      end
  end.
Definition __parse_arg (line : list Z) : M st unit := parse_loop (S (length line)) line.

(** *** Commands: [argv] are the arguments behind the name *)

(** [TT_SH_NEWLINE] in a function that returns a status. *)
Definition newline_or (k : M st Z) : M st Z :=
  r ← try (on_out (tt_buf_put tt_g_sh_line_sep));
  match r with TT_SUCCESS _ => k | TT_ERROR e => mret (err_code e) end.

Definition __cd_run (argv : list (list Z)) : M st Z :=
  match argv with
  | [] => mret TT_CLIOC_NOOUT
  | path :: _ =>
      co ← find_path path;
      match co with
      | None => say (chars "not found: " ++ path);; mret TT_CLIOC_OUT
      | Some co =>
          o ← object co;
          if negb (is_dir (type o)) then say (chars "not a directory: " ++ path);; mret TT_CLIOC_OUT
          else
            upd_shell (set_current co);;
            drop_res (@tt_cli_update_prefix _ bare None (Some (name o)) 0);;
            mret TT_CLIOC_NOOUT
      end
  end.

Definition __get_val (co : key) : M st Z :=
  o ← object co;
  put (name o);;
  put (chars ": ");;
  sh ← the_shell;
  guarded (on_out (tt_cfgobj_read (conf sh) co)) op_msg;;
  mret TT_CLIOC_OUT.
Definition __get_single (path : list Z) : M st Z :=
  co ← find_path path;
  match co with
  | None => say (chars "not found: " ++ path);; mret TT_CLIOC_OUT
  | Some co =>
      o ← object co;
      if is_dir (type o) then say (chars "get: " ++ path ++ chars ": is a direcoty");; mret TT_CLIOC_OUT
      else __get_val co
  end.

Definition __ls_at (co : key) : M st Z :=
  sh ← the_shell;
  guarded (on_out (tt_cfgobj_ls (conf sh) co (Some tt_g_sh_colume_sep) (Some tt_g_sh_line_sep))) op_msg;;
  mret TT_CLIOC_OUT.
Definition __ls_current : M st Z := sh ← the_shell; __ls_at (current sh).
Definition __ls_single (path : list Z) : M st Z :=
  co ← find_path path;
  match co with
  | None => say (chars "can not find: " ++ path);; mret TT_CLIOC_OUT
  | Some co => __ls_at co
  end.

(** [__get_multiple] and [__ls_multiple] *)
Fixpoint multiple (single : list Z → M st Z) (paths : list (list Z)) : M st Z :=
  match paths with
  | [] => mret TT_CLIOC_OUT
  | path :: paths =>
      put path;;
      drop_res (on_out (tt_buf_put_u8 58));;
      newline_or (single path;;
        match paths with
        | [] => mret TT_CLIOC_OUT
        | _ => newline_or (newline_or (multiple single paths))
        end)
  end.
Definition __get_multiple : list (list Z) → M st Z := multiple __get_single.
Definition __ls_multiple : list (list Z) → M st Z := multiple __ls_single.
Definition __get_run (argv : list (list Z)) : M st Z :=
  match argv with
  | [] => say (chars "usage: get [name]");; mret TT_CLIOC_OUT
  | [path] => __get_single path
  | _ => __get_multiple argv
  end.
Definition __ls_run (argv : list (list Z)) : M st Z :=
  match argv with [] => __ls_current | [path] => __ls_single path | _ => __ls_multiple argv end.

Definition __pwd_run (argv : list (list Z)) : M st Z :=
  sh ← the_shell;
  guarded (drop_res (on_out (tt_buf_put_u8 47));; on_out (tt_cfgpath_n2p (conf sh) (Some (root sh)) (current sh))) (λ _, chars "internal error");;
  mret TT_CLIOC_OUT.

Definition __quit_run (argv : list (list Z)) : M st Z := mret TT_CLIOC_END.

Definition __set_run (argv : list (list Z)) : M st Z :=
  match argv with
  | path :: val :: _ =>
      co ← find_path path;
      match co with
      | None => say (chars "not found: " ++ path);; mret TT_CLIOC_OUT
      | Some co =>
          o ← object co;
          if is_dir (type o) then say (chars "set: " ++ path ++ chars ": is a direcoty");; mret TT_CLIOC_OUT
          else
            r ← guarded (on_conf (tt_cfgobj_write co val)) op_msg;
            match r with TT_SUCCESS _ => mret TT_CLIOC_NOOUT | TT_ERROR _ => mret TT_CLIOC_OUT end
      end
  | _ => say (chars "usage: set [name] [value]");; mret TT_CLIOC_OUT
  end.

Definition max_len : Z := foldl (λ n c, Z.max n (zlen (shcmd_name c) + 4)) 0 tt_g_shcmd.
Fixpoint help_loop (cmds : list tt_shcmd_t) : M st Z :=
  match cmds with
  | [] => mret TT_CLIOC_OUT
  | cmd :: cmds =>
      put (shcmd_name cmd);;
      drop_res (on_out (tt_buf_put_rep 32 (max_len - zlen (shcmd_name cmd))));;
      put (info cmd);;
      match cmds with [] => help_loop cmds | _ => newline_or (help_loop cmds) end
  end.
Definition __help_all : M st Z := help_loop tt_g_shcmd.
Definition __help_single (nm : list Z) : M st Z :=
  match tt_shcmd_find nm with
  | Some cmd => put (usage cmd);; mret TT_CLIOC_OUT
  | None =>
      co ← find_path nm;
      match co with
      | Some co => o ← object co; put (tt_cfgobj_detail o);; mret TT_CLIOC_OUT
      | None => say (chars "not found: " ++ nm);; mret TT_CLIOC_OUT
      end
  end.
Definition __help_multiple (nms : list (list Z)) : M st Z := match nms with nm :: _ => __help_single nm | [] => undef end.
Definition __help_run (argv : list (list Z)) : M st Z :=
  match argv with [] => __help_all | [nm] => __help_single nm | _ => __help_multiple argv end.

Definition run_cmd (c : tt_shcmd_id_t) : list (list Z) → M st Z :=
  match c with
  | TT_SHCMD_LS => __ls_run
  | TT_SHCMD_CD => __cd_run
  | TT_SHCMD_HELP => __help_run
  | TT_SHCMD_PWD => __pwd_run
  | TT_SHCMD_QUIT => __quit_run
  | TT_SHCMD_GET => __get_run
  | TT_SHCMD_SET => __set_run
  end.

(** *** The functions that the command line calls *)

(** An executable object works on the variables and the output; its result is a
    [tt_result_t], its status comes with it. *)
Definition run_exe (co : key) (argv : list (list Z)) : M st Z := λ s,
  exec_bind (tt_cfgexe_run co argv tt_g_sh_line_sep (conf s.2, cli_outbuf s.1)) (λ '(r, (m, out)),
    Ret (r, (set_cline (set_outbuf out (cline s.1)) s.1, set_conf m s.2))).

Definition __sh_on_cmd (line : list Z) : M st Z :=
  match line with
  | [] => mret TT_CLIOC_NOOUT
  | _ =>
      upd_shell (λ s, set_arg [] (arg_size s) s);;
      r ← try (__parse_arg line);
      sh ← the_shell;
      match r, arg sh with
      | TT_SUCCESS _, nm :: argv =>
          match tt_shcmd_find nm with
          | Some cmd => run_cmd (run cmd) argv
          | None =>
              co ← find_path nm;
              match co with
              | None => say (chars "not found: " ++ nm);; mret TT_CLIOC_OUT
              | Some co =>
                  o ← object co;
                  if negb (bool_decide (type o = TT_CFGOBJ_EXE)) then say (chars "not executable: " ++ nm);; mret TT_CLIOC_OUT
                  else
                    rw ← on_out tt_buf_backup_rwp;
                    res ← try (run_exe co argv);
                    match res with
                    | TT_SUCCESS status => mret status
                    | TT_ERROR _ => on_out (tt_buf_restore_rwp rw);; say (nm ++ chars ": failed");; mret TT_CLIOC_OUT
                    end
              end
          end
      | _, _ => say (chars "bad input: ");; mret TT_CLIOC_OUT
      end
  end.

(** [output] is the completion buffer of the command line. *)
Definition on_ac {A} (o : M tt_buf_t A) : M st A := @with_acbuf bare A o.
Definition __sh_on_complete (cur : option (list Z)) (wait4cmd : bool) : M st Z :=
  r ← try (if wait4cmd then on_ac (tt_cli_complete cur tt_g_shcmd_name)
           else sh ← the_shell; on_ac (tt_cfgpath_complete (conf sh) (root sh) (current sh) cur));
  match r with
  | TT_SUCCESS status =>
      if wait4cmd then mret status
      else if status =? TT_CFGPCP_PARTIAL then mret TT_CLICP_PARTIAL
      else if status =? TT_CFGPCP_FULL then mret TT_CLICP_FULL
      else if status =? TT_CFGPCP_FULL_MORE then mret TT_CLICP_FULL_MORE
      else mret TT_CLICP_NONE
  | TT_ERROR _ => mret TT_CLICP_NONE
  end.
Definition __sh_on_quit : M st bool :=
  sh ← the_shell;
  match exit_msg sh with
  | Some (c :: msg) => put (c :: msg);; mret true
  | _ => mret false
  end.

(** A function that does not fail, as the command line calls it; [W] is the world
    outside, which only [send] reaches. *)
Definition called {W A} (o : M st A) (s : tt_cli_t * (tt_shell_t * W)) : exec (A * (tt_cli_t * (tt_shell_t * W))) :=
  exec_bind (o (s.1, s.2.1)) (λ '(r, s'), match r with TT_SUCCESS a => Ret (a, (s'.1, (s'.2, s.2.2))) | TT_ERROR _ => Undef end).

(** The shell as the user of the command line; what it sends goes to [snd_to]. *)
Definition __sh_on_cmd_f : Z := 1.
Definition __sh_on_complete_f : Z := 2.
Definition __sh_on_quit_f : Z := 3.
Definition shell_user {W} (snd_to : Z → Z → list Z → W → exec (result unit * W)) : CliUser := {|
  World := tt_shell_t * W;
  call_cmd f _ line s := if f =? __sh_on_cmd_f then called (__sh_on_cmd line) s else Undef;
  call_complete f _ cur wait s := if f =? __sh_on_complete_f then called (__sh_on_complete cur wait) s else Undef;
  call_quit f s := if f =? __sh_on_quit_f then called __sh_on_quit s else Undef;
  Cli.call_read _ _ _ := Undef;
  call_send f p ev s := exec_bind (snd_to f p ev s.2.2) (λ '(r, w), Ret (r, (s.1, (s.2.1, w))));
|}.

Definition tt_sh_attr_default : tt_sh_attr_t := mk_sh_attr (Some (chars "exiting...")) tt_cli_attr_default.

Definition tt_sh_create (m : cfg) (rt : key) (mode : tt_cli_mode_t) (itf : tt_cli_itf_t) (attr : option tt_sh_attr_t) : exec (result st) :=
  let a := default tt_sh_attr_default attr in
  let sh := mk_sh m rt rt [] TT_SH_ARG_NUM (at_exit_msg a) in
  exec_bind (tt_cli_create mode (Some (mk_cb 0 (Some __sh_on_cmd_f) (Some __sh_on_complete_f) (Some __sh_on_quit_f))) (Some itf) (Some (cli_attr a))) (λ r,
    match r with
    | TT_ERROR _ => Ret (TT_ERROR TT_FAIL)
    | TT_SUCCESS c =>
        exec_bind ((o ← object rt; drop_res (@tt_cli_update_prefix _ bare None (Some (name o)) 0)) (c, sh)) (λ '(_, s), Ret (TT_SUCCESS s))
    end).
Definition tt_sh_destroy : M st unit := @tt_cli_destroy _ bare.
Definition tt_sh_start {W} (snd_to : Z → Z → list Z → W → exec (result unit * W)) : M (tt_cli_t * (tt_shell_t * W)) unit := @tt_cli_start _ (shell_user snd_to).
Definition tt_sh_input {W} (snd_to : Z → Z → list Z → W → exec (result unit * W)) (ev : list Z) : M (tt_cli_t * (tt_shell_t * W)) unit := @tt_cli_input _ (shell_user snd_to) ev.
End shell.
