(* ===== verification/ShellOut.v ===== *)
(** What the commands of [Shell] write: formatted text arrives whole or not at all, and
    output is described by what is added to the buffer of the command line. *)

From S2P Require Import Prelude MemSpring Buffer BufferFormat SshDef BufCommon Str StrSpec StrRun SshCodec LinkedList CliLine CliEdit Cli CliSession CfgTree CfgValue CfgPath CfgList Shell.

#[local] Open Scope Z_scope.

(** ** Formatted text *)

Section putf.
Context `{Allocator}.

(** Bytes behind the readable ones. *)
Lemma scratch_ok b d : buf_wf b → Forall is_u8 d → wpos b + zlen d ≤ size b →
  ∃ b' rest, buf_write (wpos b) d b = Ret (TT_SUCCESS tt, b') ∧ kept b b' ∧ size b' = size b ∧ tail_of b' = content b ++ d ++ rest.
Proof.
  intros Hwf Hd Hfit. pose proof (wf_pos b Hwf). pose proof (wf_content b Hwf) as Hc. pose proof (zlen_nonneg (content b)).
  destruct (poke_ok b (zlen (content b)) d) as (E & Hwf' & Ht); [done|done|lia|lia|]. replace (rpos b + zlen (content b)) with (wpos b) in * by lia.
  set (b' := set_block _ b) in *. assert (wpos b' = wpos b ∧ rpos b' = rpos b ∧ size b' = size b ∧ mspg b' = mspg b ∧ readonly b' = readonly b) as (Hw & Hr0 & Hs0 & Hm0 & Ho0) by (subst b'; by autorewrite with buf).
  destruct (tail_content b Hwf) as (r & Htl & Hr). exists b', (drop (length d) r). split; [exact E|]. rewrite Htl in Ht. unfold splice in Ht.
  assert (Z.to_nat (zlen (content b)) = length (content b)) as El by (unfold zlen; lia).
  rewrite El, take_app_length, drop_app_ge in Ht by lia. replace (length (content b) + length d - length (content b))%nat with (length d) in Ht by lia.
  split; [|split; [done|exact Ht]]. constructor; try done. rewrite content_tail, Ht, Hw, Hr0.
  replace (Z.to_nat (wpos b - rpos b)) with (length (content b)) by (unfold zlen in *; lia). by rewrite take_app_length.
Qed.

Lemma kept_trans b b1 b2 : kept b b1 → kept b1 b2 → kept b b2.
Proof. intros [] []. constructor; try done; congruence. Qed.
Lemma extend_kept b : buf_wf b → readonly b = false → size b + 1 < 2 ^ 32 →
  (∃ b', tt_buf_extend b = Ret (TT_SUCCESS tt, b') ∧ kept b b' ∧ size b' ≤ size b + 1 + max_extend (mspg b)) ∨
  (tt_buf_extend b = Ret (TT_ERROR TT_FAIL, b) ∧ (reliable b → 2 ^ 32 ≤ size b + 1 + max_extend (mspg b))).
Proof.
  intros Hwf Hro Hs. pose proof (wf_size b Hwf). pose proof (wf_pos b Hwf). unfold tt_buf_extend. m_simpl. rewrite u32_small by lia.
  destruct (buf_extend_spec b (size b + 1)) as [(np & ns & -> & Hz & Hb & Hsub & Hns & Hm)|[-> Hrel]]; [done|done|lia|lia| |by right].
  left. eexists. split; [done|]. split; [|simpl; lia]. pose proof (wf_pos b Hwf). constructor; simpl; try done.
  - pose proof (wf_init b Hwf). pose proof (wf_mspg b Hwf). constructor; simpl; unfold blk, block; simpl; try done; lia.
  - unfold content at 1, blk, block. simpl. unfold content. rewrite <- Hsub. rewrite sub_sub by lia. f_equal; lia.
Qed.

(** The text is there: only the position moves. *)
Lemma advance_ok d b b2 rest : kept b b2 → tail_of b2 = content b ++ (d ++ [0]) ++ rest → zlen d ≤ size b2 - wpos b → zlen d < 2 ^ 32 →
  size b2 ≤ Z.max (size b) (wpos b + zlen d + 2 + max_extend (mspg b)) →
  ∃ b3, (try (tt_buf_inc_wp (zlen d));; mret tt) b2 = Ret (TT_SUCCESS tt, b3) ∧ becomes b (zlen d + 1) (rpos b) (content b ++ d) b3.
Proof.
  intros Hk2 Ht Hfits Hz Hsz. pose proof (zlen_nonneg d). pose proof (kept_wf _ _ Hk2) as Hwf2. pose proof (wf_pos b2 Hwf2). pose proof (wf_size b2 Hwf2).
  pose proof (wf_content b2 Hwf2) as Hc2. rewrite (kept_content _ _ Hk2), (kept_wpos _ _ Hk2), (kept_rpos _ _ Hk2) in *.
  assert (tt_buf_inc_wp (zlen d) b2 = Ret (TT_SUCCESS tt, set_wpos (wpos b + zlen d) b2)) as E.
  { unfold tt_buf_inc_wp. m_simpl. rewrite (wf_wlen b2 Hwf2), (kept_wpos _ _ Hk2), (proj2 (Z.leb_le _ _)) by lia. by rewrite u32_small by lia. }
  eexists. split; [unfold try; erewrite bind_step by (rewrite E; done); done|].
  rewrite <- app_assoc, app_assoc in Ht. destruct (edited_wpos b2 b2 (content b ++ d) ([0] ++ rest)) as [Hw Hc Hr Hwp Hsi Hm Hr2]; try done.
  rewrite zlen_app in *. rewrite (kept_rpos _ _ Hk2) in *. replace (rpos b + (zlen (content b) + zlen d)) with (wpos b + zlen d) in * by lia.
  destruct Hk2. constructor; try done; try congruence; lia.
Qed.

Lemma putv_loop_ok d b : Forall is_u8 d → reliable b → readonly b = false → room b (zlen d + 1) → ∀ retry b1, kept b b1 →
  size b1 ≤ Z.max (size b) (wpos b + zlen d + 2 + max_extend (mspg b)) →
  ∃ r b', putv_loop retry d b1 = Ret (r, b') ∧
    (r = TT_SUCCESS tt ∧ becomes b (zlen d + 1) (rpos b) (content b ++ d) b' ∨
     r = TT_ERROR TT_FAIL ∧ becomes b (zlen d + 1) (rpos b) (content b) b').
Proof.
  intros Hd Hrel Hro [Hroom1 Hroom2]. pose proof (zlen_nonneg d) as Hzd.
  assert (∀ b2, kept b b2 → size b2 ≤ Z.max (size b) (wpos b + zlen d + 2 + max_extend (mspg b)) → becomes b (zlen d + 1) (rpos b) (content b) b2) as Hstay.
  { intros b2 [] ?. constructor; try done; lia. }
  induction retry as [|retry IH]; intros b1 Hk Hsz; cbn [putv_loop]; pose proof (kept_wf _ _ Hk) as Hwf1; pose proof (wf_pos b1 Hwf1) as Hp1; pose proof (wf_size b1 Hwf1);
    erewrite (bind_step (gets id)) by done; change (id b1) with b1; rewrite (wf_wlen b1 Hwf1), (kept_wpos _ _ Hk) in *; pose proof (kept_mspg _ _ Hk) as Hms.
  all: set (len := size b1 - wpos b) in *; set (d0 := take (Z.to_nat (len - 1)) d ++ [0]).
  all: assert (∃ b2 rest, (if 0 <? len then buf_write (wpos b) d0 else mret tt) b1 = Ret (TT_SUCCESS tt, b2) ∧ kept b b2 ∧ size b2 = size b1 ∧
      (0 < len → tail_of b2 = content b ++ d0 ++ rest)) as (b2 & rest & E & Hk2 & Hs2 & Ht).
  1, 3: destruct (Z.ltb_spec 0 len); [|by exists b1, []; split_and!; [done..|lia]];
    (destruct (scratch_ok b1 d0) as (b2 & rest & E & Hk2 & Hs2 & Ht); [done|subst d0; apply Forall_app; split; [by apply Forall_take|by repeat constructor]
      |subst d0; rewrite zlen_app, zlen_take, (kept_wpos _ _ Hk); change (zlen [0]) with 1; lia|]);
    rewrite (kept_wpos _ _ Hk), (kept_content _ _ Hk) in *; exists b2, rest; split; [done|]; split; [by eapply kept_trans|done].
  all: erewrite bind_step by exact E; cbv beta.
  all: assert (size b2 ≤ Z.max (size b) (wpos b + zlen d + 2 + max_extend (mspg b))) as Hsz2 by lia.
  all: rewrite u32_small by lia; destruct (Z.leb_spec len (zlen d + 1)) as [Hshort|Hfits].
  2, 4: assert (d0 = d ++ [0]) as Ed by (subst d0; rewrite take_ge by (unfold zlen in *; lia); done); rewrite Ed in Ht; specialize (Ht ltac:(lia));
    destruct (advance_ok d b b2 rest Hk2 Ht) as (b3 & E3 & Hb3); [lia..|]; exists (TT_SUCCESS tt), b3; split; [exact E3|by left].
  - exists (TT_ERROR TT_FAIL), b2. split; [done|]. right. split; [done|by apply Hstay].
  - destruct (extend_kept b2) as [(b3 & E3 & Hk3 & Hs3)|[_ Hbad]]; [by apply Hk2|by rewrite (kept_ro _ _ Hk2)|lia| |].
    + erewrite (bind_step (try tt_buf_extend)) by (unfold try; rewrite E3; done). cbv beta iota. apply IH; [by eapply kept_trans|]. rewrite (kept_mspg _ _ Hk2) in Hs3. lia.
    + exfalso. rewrite (kept_mspg _ _ Hk2) in Hbad. unfold reliable in *. rewrite (kept_mspg _ _ Hk2) in Hbad. specialize (Hbad Hrel). lia.
Qed.
End putf.

(** ** What an operation of the shell writes *)

(** The command line with the output buffer [b]. *)
Definition set_out (b : tt_buf_t) (c : tt_cli_t) : tt_cli_t := set_cline (set_outbuf b (cline c)) c.
Lemma set_out_id c : set_out (cli_outbuf c) c = c.
Proof. by destruct c as [? ? ? ? ? ? ? ? ? [] ? ?]. Qed.

Section says.
Context `{Allocator}.
Notation st := (tt_cli_t * tt_shell_t)%type.

(** [b'] is [b] with [d] written, and room for [n] more bytes; the block may have grown
    for text that is not there any more. *)
Record out_with (b : tt_buf_t) (d : list Z) (n : Z) (b' : tt_buf_t) : Prop := {
  ow_ok : out_ok b';
  ow_content : content b' = content b ++ d;
  ow_rpos : rpos b' = rpos b;
  ow_room : room b' n;
}.
Lemma out_trans b d n b1 d' m b2 : out_with b d n b1 → out_with b1 d' m b2 → out_with b (d ++ d') m b2.
Proof. intros [] []. constructor; [done|rewrite app_assoc; congruence|congruence|done]. Qed.
Lemma out_refl b n : out_ok b → room b n → out_with b [] n b.
Proof. intros. constructor; [done|by rewrite app_nil_r|done|done]. Qed.

Lemma becomes_out b k d n b' : out_ok b → 0 ≤ k → 0 ≤ n → room b (k + n) → becomes b k (rpos b) (content b ++ d) b' → out_with b d n b'.
Proof.
  intros [Hwf Hro Hrel] Hk Hn Hroom Hb. constructor; [|apply Hb|apply Hb|by eapply (becomes_room b k n)].
  constructor; [apply Hb|by rewrite (be_ro _ _ _ _ _ Hb)|]. unfold reliable in *. by rewrite (be_mspg _ _ _ _ _ Hb).
Qed.

(** With the shell [sh], which stays as it is, [o] returns [a] and writes the characters
    and new lines [d], with [Q a d]; it needs room for [k] bytes. *)
Definition says {A} (o : M st A) (sh : tt_shell_t) (k : Z) (Q : A → list Z → Prop) : Prop :=
  ∀ c n, out_ok (cli_outbuf c) → rpos (cli_outbuf c) = 0 → 0 ≤ n → room (cli_outbuf c) (k + n) →
  ∃ a d b', o (c, sh) = Ret (TT_SUCCESS a, (set_out b' c, sh)) ∧ Q a d ∧ plain d ∧ out_with (cli_outbuf c) d n b'.

Lemma says_weaken {A} (o : M st A) sh k k' (Q Q' : A → list Z → Prop) : 0 ≤ k ≤ k' → (∀ a d, Q a d → Q' a d) → says o sh k Q → says o sh k' Q'.
Proof.
  intros Hk HQ Ho c n Hok Hr Hn Hroom. destruct (Ho c n) as (a & d & b' & E & Ha & Hw); [done..|eapply room_weaken; [|exact Hroom]; lia|].
  exists a, d, b'. split; [done|]. split; [by apply HQ|done].
Qed.
Lemma says_ret {A} (a : A) sh : says (mret a) sh 0 (λ a' d, a' = a ∧ d = []).
Proof.
  intros c n Hok Hr Hn Hroom. exists a, [], (cli_outbuf c). split; [by rewrite set_out_id|]. split; [done|]. split; [constructor|]. by apply out_refl.
Qed.
Lemma says_bind {A B} (o : M st A) (f : A → M st B) sh k1 k2 Q1 (Q : B → list Z → Prop) : 0 ≤ k1 → 0 ≤ k2 → says o sh k1 Q1 →
  (∀ a d1, Q1 a d1 → says (f a) sh k2 (λ b d2, Q b (d1 ++ d2))) → says (a ← o; f a) sh (k1 + k2) Q.
Proof.
  intros H1 H2 Ho Hf c n Hok Hr Hn Hroom. destruct (Ho c (k2 + n)) as (a & d1 & b1 & E1 & HQ1 & Hp1 & W1); [done|done|lia|by rewrite Z.add_assoc|].
  destruct (Hf a d1 HQ1 (set_out b1 c) n) as (b & d2 & b2 & E2 & HQ2 & Hp2 & W2); [apply W1|rewrite <- Hr; apply W1|done|apply W1|].
  exists b, (d1 ++ d2), b2. split; [by erewrite bind_step by exact E1|]. split; [done|]. split; [by apply Forall_app|]. by eapply out_trans.
Qed.
(** Looking at something first. *)
Lemma says_look {A B} (o : M st A) (f : A → M st B) sh a k Q : (∀ c, o (c, sh) = Ret (TT_SUCCESS a, (c, sh))) → says (f a) sh k Q → says (a ← o; f a) sh k Q.
Proof.
  intros Ho Hf c n Hok Hr Hn Hroom. destruct (Hf c n) as (b & d & b' & E & HQ & Hw); [done..|]. exists b, d, b'. split; [|done].
  by erewrite bind_step by apply Ho.
Qed.

Lemma says_shell {B} (f : tt_shell_t → M st B) sh k Q : says (f sh) sh k Q → says (s ← the_shell; f s) sh k Q.
Proof. by apply (says_look _ f sh sh). Qed.

Lemma on_out_step {A} (o : M tt_buf_t A) c sh r b' : o (cli_outbuf c) = Ret (r, b') → on_out o (c, sh) = Ret (r, (set_out b' c, sh)).
Proof. intros E. unfold on_out, with_outbuf, with_cline, with_out, zoom. cbn. unfold cli_outbuf in E. by rewrite E. Qed.

(** Output into a buffer of which nothing was read yet, when memory does not run out. *)
Definition writes (o : M tt_buf_t unit) (k : Z) (d : list Z) : Prop :=
  ∀ b, out_ok b → rpos b = 0 → room b k → ∃ b', o b = Ret (TT_SUCCESS tt, b') ∧ becomes b k (rpos b) (content b ++ d) b'.
Lemma adds_writes o k k' d : 0 ≤ k ≤ k' → adds o k d → writes o k' d.
Proof.
  intros Hk Ho b [Hwf Hro Hrel] _ Hroom. destruct (Ho b Hwf Hro Hrel) as (b' & E & Hb); [by eapply room_weaken|]. exists b'. split; [done|].
  eapply becomes_weaken; [|exact Hb]. lia.
Qed.
Lemma says_ext {A} (o o' : M st A) sh k Q : (∀ s, o s = o' s) → says o' sh k Q → says o sh k Q.
Proof. intros E Ho c n Hok Hr Hn Hroom. destruct (Ho c n) as (a & d & b' & Eo & H'); [done..|]. exists a, d, b'. by rewrite E. Qed.

Lemma says_writes o sh k d : 0 ≤ k → plain d → writes o k d → says (on_out o) sh k (λ _ d', d' = d).
Proof.
  intros Hk Hd Ho c n Hok Hr Hn Hroom. destruct (Ho (cli_outbuf c)) as (b' & E & Hb); [done|done|eapply room_weaken; [|exact Hroom]; lia|].
  exists tt, d, b'. split; [by apply on_out_step|]. split; [done|]. split; [done|]. by eapply (becomes_out _ k).
Qed.
Lemma plain_u8 d : plain d → Forall is_u8 d.
Proof. apply List.Forall_impl. intros c [Hc| ->]; [by apply printable_cchar|done]. Qed.
Lemma says_drop o sh k d : 0 ≤ k → plain d → writes o k d → says (drop_res (on_out o)) sh k (λ _ d', d' = d).
Proof.
  intros Hk Hd Ho c n Hok Hr Hn Hroom. destruct (says_writes o sh k d Hk Hd Ho c n) as ([] & d' & b' & E & Hw); [done..|].
  exists tt, d', b'. split; [|done]. unfold drop_res, try. erewrite bind_step by (by rewrite E). done.
Qed.
Lemma says_put d sh : plain d → says (put d) sh (zlen d) (λ _ d', d' = d).
Proof. intros Hd. apply says_drop; [apply zlen_nonneg|done|]. eapply adds_writes; [|by apply adds_put, plain_u8]. pose proof (zlen_nonneg d). lia. Qed.
Lemma says_then {A B} (o : M st A) (b : B) sh k (Q : list Z → Prop) : 0 ≤ k → says o sh k (λ _, Q) → says (o;; mret b) sh k (λ b' d, b' = b ∧ Q d).
Proof.
  intros Hk Ho. rewrite <- (Z.add_0_r k). eapply says_bind; [done|done|exact Ho|]. cbn. intros _ d1 HQ. eapply (says_weaken _ _ 0); [done| |apply says_ret]. cbn.
  intros b' d [-> ->]. by rewrite app_nil_r.
Qed.
(** Where the output would be left with an error if memory ran out. *)
Lemma says_newline (k : M st Z) sh n (Q : Z → list Z → Prop) : 0 ≤ n → says k sh n (λ a d, Q a (TT_CLI_EV_ENTER :: d)) → says (newline_or k) sh (1 + n) Q.
Proof.
  intros Hn Ho c n' Hok Hr Hn' Hroom. assert (plain tt_g_sh_line_sep) as Hp by (constructor; [by right|constructor]).
  destruct (says_writes (tt_buf_put tt_g_sh_line_sep) sh 1 _ ltac:(done) Hp (adds_writes _ 1 1 _ ltac:(done) (adds_put _ (plain_u8 _ Hp))) c (n + n')) as ([] & d1 & b1 & E1 & -> & _ & W1); [done|done|lia|by rewrite Z.add_assoc|].
  destruct (Ho (set_out b1 c) n') as (a & d & b2 & E2 & HQ & Hpd & W2); [apply W1|rewrite <- Hr; apply W1|done|apply W1|].
  exists a, (TT_CLI_EV_ENTER :: d), b2. split; [|split; [done|split; [by constructor; [right|]|by eapply (out_trans _ [_])]]].
  unfold newline_or. by erewrite (bind_step (try _)) by (unfold try; rewrite E1; done).
Qed.

(** Formatted text, whole or not at all. *)
Definition said (d d' : list Z) : Prop := d' = d ∨ d' = [].
Lemma says_say d sh : plain d → says (say d) sh (zlen d + 1) (λ _, said d).
Proof.
  intros Hd c n Hok Hr Hn Hroom. pose proof (zlen_nonneg d). destruct Hok as [Hwf Hro Hrel]. set (b := cli_outbuf c) in *.
  assert (room b (zlen d + 1)) as Hroom1 by (eapply room_weaken; [|exact Hroom]; lia).
  destruct (putv_loop_ok d b (plain_u8 d Hd) Hrel Hro Hroom1 10 b) as (r & b' & E & Hb); [by apply kept_refl|lia|].
  assert (∃ d', said d d' ∧ becomes b (zlen d + 1) (rpos b) (content b ++ d') b') as (d' & Hd' & Hb').
  { destruct Hb as [[_ Hb]|[_ Hb]]; [exists d; split; [by left|done]|exists []; split; [by right|by rewrite app_nil_r]]. }
  exists tt, d', b'. split; [|split; [done|split; [by destruct Hd' as [-> | ->]; [|constructor]|by apply (becomes_out _ (zlen d + 1)); [|lia|..]]]].
  unfold say, drop_res, try. erewrite bind_step by (by rewrite (on_out_step _ _ _ _ _ E)). done.
Qed.

(** An operation on the buffer that succeeds, or one that fails after writing
    something, which is taken back. *)
Definition fails (o : M tt_buf_t unit) (k : Z) (e : tt_err) : Prop :=
  ∀ b, out_ok b → room b k → ∃ d b', o b = Ret (TT_ERROR e, b') ∧ becomes b k (rpos b) (content b ++ d) b'.

Lemma restore_ok b k d b' : buf_wf b → 0 ≤ k → becomes b k (rpos b) (content b ++ d) b' →
  tt_buf_restore_rwp (rpos b, wpos b) b' = Ret (TT_SUCCESS tt, set_rpos (rpos b) (set_wpos (wpos b) b')) ∧
  becomes b k (rpos b) (content b) (set_rpos (rpos b) (set_wpos (wpos b) b')).
Proof.
  intros Hwf Hk Hb. split; [done|]. pose proof (wf_content b Hwf) as Hc. pose proof (zlen_nonneg (content b)).
  pose proof (cut_becomes b' (zlen (content b)) (be_wf _ _ _ _ _ Hb)) as Hcut. rewrite (be_content _ _ _ _ _ Hb), (be_rpos _ _ _ _ _ Hb), zlen_app in Hcut. pose proof (zlen_nonneg d).
  specialize (Hcut ltac:(lia)). assert (Z.to_nat (zlen (content b)) = length (content b)) as El by (unfold zlen; lia). rewrite El, take_app_length in Hcut.
  replace (rpos b + zlen (content b)) with (wpos b) in Hcut by lia.
  assert (set_rpos (rpos b) (set_wpos (wpos b) b') = set_wpos (wpos b) b') as -> by (rewrite <- (be_rpos _ _ _ _ _ Hb); by destruct b').
  destruct Hb, Hcut. constructor; try done; try congruence; cbn in *; lia.
Qed.

Lemma backup_step c sh : on_out tt_buf_backup_rwp (c, sh) = Ret (TT_SUCCESS (rpos (cli_outbuf c), wpos (cli_outbuf c)), (c, sh)).
Proof. rewrite (on_out_step _ _ _ _ (cli_outbuf c)) by done. by rewrite set_out_id. Qed.

Lemma guarded_ext (o o' : M st unit) msg s : (∀ s, o s = o' s) → guarded o msg s = guarded o' msg s.
Proof.
  intros E. assert (∀ s, try o s = try o' s) as Et by (intros; unfold try; by rewrite E). unfold guarded, mbind, M_bind, bind.
  destruct (on_out tt_buf_backup_rwp s) as [[[rw|] s1]| | |]; cbn; [|done..]. by rewrite Et.
Qed.
Lemma says_guarded o msg sh k d : 0 ≤ k → plain d → writes o k d → says (guarded (on_out o) msg) sh k (λ r d', r = TT_SUCCESS tt ∧ d' = d).
Proof.
  intros Hk Hd Ho c n Hok Hr Hn Hroom. destruct (says_writes o sh k d Hk Hd Ho c n) as ([] & d' & b' & E & -> & Hw); [done..|].
  exists (TT_SUCCESS tt), d, b'. split; [|done]. unfold guarded. erewrite bind_step by apply backup_step. cbv beta.
  by erewrite (bind_step (try _)) by (unfold try; rewrite E; done).
Qed.
Lemma says_refused o msg sh k e : 0 ≤ k → fails o k e → plain (msg e) →
  says (guarded (on_out o) msg) sh (k + (zlen (msg e) + 1)) (λ r d, r = TT_ERROR e ∧ said (msg e) d).
Proof.
  intros Hk Ho Hm c n Hok Hr Hn Hroom. pose proof (zlen_nonneg (msg e)). destruct (Ho (cli_outbuf c)) as (d & b' & E & Hb); [done|eapply room_weaken; [|exact Hroom]; lia|].
  destruct (restore_ok _ _ _ _ (out_wf _ Hok) Hk Hb) as [Er Hb2]. set (b2 := set_rpos _ _) in *.
  assert (out_with (cli_outbuf c) [] (zlen (msg e) + 1 + n) b2) as Hw2.
  { eapply (becomes_out _ k); [done|done|lia|by rewrite Z.add_assoc|by rewrite app_nil_r]. }
  destruct (says_say (msg e) sh Hm (set_out b2 c) n) as ([] & d' & b3 & E3 & Hd & Hpl & Hw3); [apply Hw2|rewrite <- Hr; apply Hw2|done|apply Hw2|].
  exists (TT_ERROR e), d', b3. split; [|split; [done|split; [done|by eapply (out_trans _ [])]]].
  unfold guarded. erewrite bind_step by apply backup_step. cbv beta. erewrite (bind_step (try _)) by (unfold try; rewrite (on_out_step _ _ _ _ _ E); done). cbv beta iota.
  erewrite (bind_step (on_out (tt_buf_restore_rwp _))) by (apply (on_out_step _ (set_out b' c)); exact Er). by erewrite bind_step by exact E3.
Qed.
End says.

(** ** The prompt *)

Section prefix.
Context `{Allocator}.
Notation st := (tt_cli_t * tt_shell_t)%type.

(** A string that can be cleared and written again, [n] bytes at a time. *)
Definition regrows (b : tt_string_t) (n : Z) : Prop := reliable b ∧ size b + n < 2 ^ 32 ∧ 1 + 3 * n + max_extend (mspg b) < 2 ^ 32.

Lemma grows_regrows b s n : grows b s n → regrows b n.
Proof. intros (Hs & Hrel & [H1 H2]). split; [done|]. split; [done|]. pose proof (str_pos b s 0 Hs). pose proof (zlen_nonneg s). lia. Qed.
Lemma clear_again b s r n : str b s r → regrows b n → 0 ≤ n → ∃ b', tt_string_clear b = Ret (TT_SUCCESS tt, b') ∧ grows b' [] n ∧
  size b' = size b ∧ mspg b' = mspg b.
Proof.
  intros Hs (Hrel & H1 & H2) Hn. pose proof (str_pos b s r Hs). destruct (string_clear_keeps b s r Hs) as (b' & E & Hb & Hsz). pose proof (be_mspg _ _ _ _ _ Hb) as Hm.
  assert (str b' [] 0) as Hs' by (eapply (becomes_str b 0 []); [exact Hb|apply Hs|constructor]). pose proof (str_pos b' [] 0 Hs') as Hp. change (zlen []) with 0 in Hp.
  exists b'. split; [done|]. split; [|done]. split; [done|]. split; [unfold reliable in *; by rewrite Hm|]. split; rewrite ?Hm, ?Hsz; lia.
Qed.

(** Writing the cleared string [b1] again, part by part. *)
Section parts.
Context (b1 : tt_string_t) (n : Z) (Hg : grows b1 [] n).

Definition part (k : Z) (s : list Z) (b : tt_string_t) : Prop := becomes b1 k 0 (s ++ [0]) b ∧ cstring s.
Lemma part_start : part 0 [] b1.
Proof. destruct Hg as (Hs & _ & _). pose proof (becomes_refl b1 (st_wf _ _ _ Hs)) as Hb. split; [|constructor]. by rewrite (st_content _ _ _ Hs), (st_rpos _ _ _ Hs) in Hb. Qed.
Lemma part_step k s b m : part k s b → 0 ≤ k → 0 ≤ m → k + m ≤ n → str b s 0 ∧ reliable b ∧ room b m.
Proof.
  intros [Hb Hs] Hk Hm Hle. destruct Hg as (Hs1 & Hrel & Hroom). split; [by eapply becomes_str; [exact Hb|apply Hs1|]|]. split.
  - unfold reliable in *. by rewrite (be_mspg _ _ _ _ _ Hb).
  - eapply (becomes_room b1 k m); [done|done|by eapply room_weaken; [|exact Hroom]; lia|exact Hb].
Qed.
Lemma part_append k s b c : part k s b → 0 ≤ k → k + (zlen c + 1) ≤ n → cstring c → ∃ b', tt_string_append c b = Ret (TT_SUCCESS tt, b') ∧ part (k + (zlen c + 1)) (s ++ c) b'.
Proof.
  intros Hp Hk Hle Hc. pose proof (zlen_nonneg c). destruct (part_step k s b (zlen c + 1) Hp) as (Hs & Hrel & Hroom); [lia..|].
  destruct (string_append_ok b s 0 Hs Hrel c Hc Hroom) as (b' & E & Hb'). exists b'. split; [done|]. destruct Hp as [Hb Hcs]. split; [eapply becomes_trans; [..|exact Hb|exact Hb']; lia|by apply Forall_app].
Qed.
Lemma part_append_c k s b c : part k s b → 0 ≤ k → k + 1 ≤ n → cchar c → ∃ b', tt_string_append_c c b = Ret (TT_SUCCESS tt, b') ∧ part (k + 1) (s ++ [c]) b'.
Proof.
  intros Hp Hk Hle Hc. destruct (part_step k s b 1 Hp) as (Hs & Hrel & Hroom); [lia..|].
  destruct (string_append_c_ok b s 0 Hs Hrel c Hc Hroom) as (b' & E & Hb'). exists b'. split; [done|]. destruct Hp as [Hb Hcs]. split; [eapply becomes_trans; [..|exact Hb|exact Hb']; lia|].
  apply Forall_app. split; [done|by apply Forall_singleton].
Qed.
Lemma part_opt k s b t : part k s b → 0 ≤ k → k + (zlen (default [] t) + 1) ≤ n → cstring (default [] t) →
  ∃ b' k', append_opt t b = Ret (TT_SUCCESS tt, b') ∧ part k' (s ++ default [] t) b' ∧ k ≤ k' ≤ k + (zlen (default [] t) + 1).
Proof.
  intros Hp Hk Hle Hc. destruct t as [t|]; cbn in *.
  - destruct (part_append k s b t Hp Hk Hle Hc) as (b' & E & Hp'). exists b'. eexists. split; [done|]. split; [done|]. pose proof (zlen_nonneg t). lia.
  - exists b, k. split; [done|]. rewrite app_nil_r. split; [done|]. change (zlen []) with 0. lia.
Qed.
Definition sub_text (u : option (list Z)) : list Z := match u with Some (c :: u) => 58 :: c :: u | _ => [] end.
Lemma part_sub k s b u : part k s b → 0 ≤ k → k + (zlen (sub_text u) + 1) ≤ n → cstring (sub_text u) →
  ∃ b' k', append_sub u b = Ret (TT_SUCCESS tt, b') ∧ part k' (s ++ sub_text u) b' ∧ k ≤ k' ≤ k + (zlen (sub_text u) + 1).
Proof.
  intros Hp Hk Hle Hc. destruct u as [[|c u]|]; cbn [sub_text append_sub] in *.
  1, 3: exists b, k; split; [done|]; rewrite app_nil_r; split; [done|]; change (zlen []) with 0; lia.
  rewrite zlen_cons in *. pose proof (zlen_nonneg (c :: u)). apply Forall_cons_1 in Hc as [H58 Hc]. destruct (part_append_c k s b 58 Hp Hk) as (b2 & E2 & Hp2); [lia|done|].
  destruct (part_append _ _ b2 (c :: u) Hp2) as (b3 & E3 & Hp3); [lia|lia|done|]. exists b3. eexists. split; [by erewrite bind_step by exact E2|].
  rewrite <- app_assoc in Hp3. split; [exact Hp3|lia].
Qed.
Lemma part_end k s b : part k s b → 0 ≤ k ≤ n → size b1 + n < 2 ^ 32 → 1 + 3 * n + max_extend (mspg b1) < 2 ^ 32 → str b s 0 ∧ regrows b n.
Proof.
  intros Hp Hk H1 H2. destruct (part_step k s b 0 Hp) as (Hs & Hrel & _); [lia..|]. split; [done|]. destruct Hp as [Hb _]. destruct Hg as (Hs1 & _ & _).
  pose proof (str_pos b1 [] 0 Hs1) as Hp1. change (zlen []) with 0 in Hp1. split; [done|]. destruct Hb. rewrite be_mspg. split; lia.
Qed.
End parts.

(** The prompt that an update leaves. *)
Definition prompt_of (t u : option (list Z)) (sep : Z) : list Z := default [] t ++ sub_text u ++ [if sep =? 0 then 35 else sep; 32].
Definition new_sub (u : list Z) (c : tt_cli_t) : option (list Z) := match u with [] => sub_title c | _ => Some u end.

Lemma with_prefix_step {A} (m : M tt_string_t A) c (sh : tt_shell_t) r p : m (cli_prefix c) = Ret (r, p) →
  @with_prefix bare A m (c, sh) = Ret (r, (set_prefix p c, sh)).
Proof. intros E. unfold with_prefix, zoom. cbn [fst]. by rewrite E. Qed.

(** A name that is empty leaves the old one in the prompt. *)
Lemma update_prefix_ok c sh u P r n : str (cli_prefix c) P r → regrows (cli_prefix c) n →
  zlen (prompt_of (title c) (new_sub u c) (seperator c)) + 4 ≤ n → cstring (prompt_of (title c) (new_sub u c) (seperator c)) →
  ∃ p, @tt_cli_update_prefix _ bare None (Some u) 0 (c, sh) = Ret (TT_SUCCESS tt, (set_prefix p (set_titles (title c) (new_sub u c) (seperator c) c), sh)) ∧
    str p (prompt_of (title c) (new_sub u c) (seperator c)) 0 ∧ regrows p n.
Proof.
  intros Hs Hre Hn Hc. unfold prompt_of in *. set (t := default [] (title c)) in *. set (su := sub_text (new_sub u c)) in *. set (sp := if seperator c =? 0 then 35 else seperator c) in *.
  rewrite !zlen_app in Hn. change (zlen [sp; 32]) with 2 in Hn. apply Forall_app in Hc as [Hct Hc]. apply Forall_app in Hc as [Hcu Hc]. apply Forall_cons_1 in Hc as [Hcs _].
  pose proof (zlen_nonneg t). pose proof (zlen_nonneg su). pose proof Hre as (_ & Hr1 & Hr2).
  destruct (clear_again _ P r n Hs Hre ltac:(lia)) as (b1 & E1 & Hg & Hsz & Hm).
  destruct (part_opt b1 n Hg 0 [] b1 (title c) (part_start b1 n Hg)) as (b2 & k2 & E2 & Hp2 & Hk2); [done|fold t; lia|done|]. fold t in Hp2, Hk2.
  destruct (part_sub b1 n Hg k2 _ b2 (new_sub u c) Hp2) as (b3 & k3 & E3 & Hp3 & Hk3); [lia|fold su; lia|done|]. fold su in Hp3, Hk3.
  destruct (part_append_c b1 n Hg k3 _ b3 sp Hp3) as (b4 & E4 & Hp4); [lia|lia|done|].
  destruct (part_append_c b1 n Hg _ _ b4 32 Hp4) as (b5 & E5 & Hp5); [lia|lia|done|].
  exists b5. split; [|destruct (part_end b1 n Hg _ _ b5 Hp5) as [Hs5 Hr5]; [lia|by rewrite Hsz|by rewrite Hm|]; split; [by rewrite <- !app_assoc in Hs5|done]].
  unfold tt_cli_update_prefix. erewrite bind_step by (apply with_prefix_step; exact E1). unfold the_cli. erewrite (bind_step (gets fst)) by done. cbn [fst title set_prefix].
  erewrite bind_step by (apply with_prefix_step; exact E2). cbv beta.
  assert ((match u with
    | [] => @with_prefix bare unit (append_sub (sub_title (set_prefix b1 c)))
    | _ :: _ => @with_prefix bare unit (append_sub (Some u));; modify (λ s, set_cli (set_titles (title s.1) (Some u) (seperator s.1) s.1) s)
    end) (set_prefix b2 (set_prefix b1 c), sh) = Ret (TT_SUCCESS tt, (set_prefix b3 (set_titles (title c) (new_sub u c) (seperator c) c), sh))) as E3'.
  { destruct u as [|x u]; cbn [new_sub] in *.
    - rewrite (with_prefix_step _ _ _ _ b3) by exact E3. by destruct c.
    - erewrite bind_step by (apply with_prefix_step; exact E3). done. }
  erewrite bind_step by (destruct u; exact E3'). cbv beta. change (negb (0 =? 0)) with false. cbv iota. cbn [seperator set_prefix].
  assert ((if negb (seperator c =? 0) then @with_prefix bare unit (tt_string_append_c (seperator c)) else @with_prefix bare unit (tt_string_append_c 35)) = @with_prefix bare unit (tt_string_append_c sp)) as ->.
  { subst sp. by destruct (seperator c =? 0). }
  erewrite bind_step by (apply with_prefix_step; exact E4). etrans; [eapply (with_prefix_step _ _ _ _ b5); exact E5|done].
Qed.
End prefix.
