(* ===== verification/ShellArgs.v ===== *)
(** How the shell of [Shell] splits a line into arguments. *)

From Stdlib Require Import String.
From S2P Require Import Prelude MemSpring Buffer BufferFormat SshDef BufCommon Str SshCodec CliLine CliEdit Cli CfgTree CfgValue CfgWrite Shell.

#[local] Open Scope Z_scope.
#[local] Open Scope list_scope.

(** ** Lines and words *)

Definition blanks (k : nat) : list Z := replicate k 32.
(** A word without quotes: no blank in it, no quote at its start. *)
Definition bare_word (w : list Z) : Prop := w ≠ [] ∧ 32 ∉ w ∧ hd 0 w ≠ 34 ∧ hd 0 w ≠ 39.
Definition quote (q : Z) : Prop := q = 34 ∨ q = 39.
(** What is empty is no argument. *)
Definition unless_empty (w : list Z) : list (list Z) := match w with [] => [] | _ => [w] end.

(** [line] consists of the words [ws]; a quote may be missing at the end. *)
Inductive words : list Z → list (list Z) → Prop :=
  | ws_blank k : words (blanks k) []
  | ws_bare k w : bare_word w → words (blanks k ++ w) [w]
  | ws_bare_more k w rest ws : bare_word w → words rest ws → words (blanks k ++ w ++ 32 :: rest) (w :: ws)
  | ws_open k q w : quote q → q ∉ w → words (blanks k ++ q :: w) (unless_empty w)
  | ws_quoted k q w rest ws : quote q → q ∉ w → words rest ws → words (blanks k ++ q :: w ++ q :: rest) (unless_empty w ++ ws).

Lemma skip_blanks_app k p : skip_blanks (blanks k ++ p) = skip_blanks p.
Proof. induction k as [|k IH]; [done|]. cbn. exact IH. Qed.
Lemma skip_blanks_split p : ∃ k, p = blanks k ++ skip_blanks p ∧ hd 0 (skip_blanks p) ≠ 32.
Proof.
  induction p as [|c p [k [IH Hh]]]; [by exists 0%nat|]. cbn. destruct (Z.eqb_spec c 32) as [->|Hc]; [|by exists 0%nat].
  exists (S k). split; [cbn; by f_equal|done].
Qed.
Lemma arg_end_all e w : e ∉ w → arg_end e w = (w, []).
Proof.
  induction w as [|c w IH]; intros He; [done|]. apply not_elem_of_cons in He as [Hc He]. cbn. rewrite (proj2 (Z.eqb_neq c e)) by done. by rewrite IH.
Qed.
Lemma arg_end_at e w rest : e ∉ w → arg_end e (w ++ e :: rest) = (w, e :: rest).
Proof.
  induction w as [|c w IH]; intros He; cbn; [by rewrite Z.eqb_refl|]. apply not_elem_of_cons in He as [Hc He]. rewrite (proj2 (Z.eqb_neq c e)) by done. by rewrite IH.
Qed.
Lemma arg_end_split (e : Z) (p : list Z) : ∃ w, e ∉ w ∧ (p = w ∨ ∃ rest, p = w ++ e :: rest).
Proof.
  induction p as [|c p (w & Hw & Hp)]; [exists []; split; [apply not_elem_of_nil|by left]|].
  destruct (decide (c = e)) as [->|Hc]; [exists []; split; [apply not_elem_of_nil|right; by exists p]|].
  exists (c :: w). split; [by apply not_elem_of_cons|]. destruct Hp as [->|[rest ->]]; [by left|right; by exists rest].
Qed.

(** Every line has its words. *)
Lemma words_exist_aux n : ∀ p, (length p < n)%nat → ∃ ws, words p ws.
Proof.
  induction n as [|n IH]; intros p Hn; [lia|]. destruct (skip_blanks_split p) as (k & Ep & Hh). set (q := skip_blanks p) in *. clearbody q. subst p. rewrite length_app in Hn.
  destruct q as [|c q]; [exists []; rewrite app_nil_r; constructor|]. cbn in Hh, Hn.
  assert (∀ w rest : list Z, (length (w ++ c :: rest) ≤ length q)%nat → ∃ ws, words rest ws) as Hrest by (intros w rest Hl; rewrite length_app in Hl; cbn in Hl; apply IH; lia).
  destruct (decide (quote c)) as [Hq|Hq].
  - destruct (arg_end_split c q) as (w & Hw & [->|[rest ->]]); [eexists; by apply ws_open|]. destruct (Hrest w rest) as [ws Hws]; [lia|]. eexists. by apply ws_quoted.
  - assert (∀ w, 32 ∉ w → bare_word (c :: w)) as Hb.
    { intros w Hw. repeat split; cbn; [done|apply not_elem_of_cons; by split|intros ->; apply Hq; by left|intros ->; apply Hq; by right]. }
    destruct (arg_end_split 32 q) as (w & Hw & [->|[rest ->]]); [eexists; apply ws_bare; by apply Hb|].
    destruct (IH rest) as [ws Hws]; [rewrite length_app in Hn; cbn in Hn; lia|]. eexists. apply (ws_bare_more k (c :: w)); [by apply Hb|done].
Qed.
Lemma words_exist p : ∃ ws, words p ws.
Proof. apply (words_exist_aux (S (length p))). lia. Qed.

Lemma words_len p ws : words p ws → zlen ws ≤ zlen p ∧ Forall (λ w, zlen w ≤ zlen p) ws.
Proof.
  assert (∀ w n, zlen w ≤ n → zlen (unless_empty w) ≤ zlen w ∧ Forall (λ w, zlen w ≤ n) (unless_empty w)) as Hu.
  { intros w n Hw. destruct w; [by split|]. cbn [unless_empty]. split; [rewrite !zlen_cons, zlen_nil; pose proof (zlen_nonneg w); lia|by constructor]. }
  assert (∀ k, zlen (blanks k) = Z.of_nat k) as Hbl by (intros; unfold zlen, blanks; by rewrite length_replicate).
  induction 1 as [k|k w [Hw _]|k w rest ws [Hw _] _ [IH1 IH2]|k q w _ _|k q w rest ws _ _ _ [IH1 IH2]];
    rewrite ?zlen_app, ?zlen_cons, ?zlen_app, ?zlen_cons, ?Hbl, ?zlen_nil; try pose proof (zlen_nonneg w); try pose proof (zlen_nonneg rest).
  - split; [lia|constructor].
  - assert (1 ≤ zlen w) by (destruct w; [done|]; rewrite zlen_cons; pose proof (zlen_nonneg w); lia). split; [lia|]. constructor; [lia|done].
  - assert (1 ≤ zlen w) by (destruct w; [done|]; rewrite zlen_cons; pose proof (zlen_nonneg w); lia). split; [lia|]. constructor; [lia|]. eapply List.Forall_impl; [|exact IH2]. cbn. lia.
  - destruct (Hu w (Z.of_nat k + (1 + zlen w))) as [H1 H2]; [lia|]. split; [lia|exact H2].
  - destruct (Hu w (Z.of_nat k + (1 + (zlen w + (1 + zlen rest))))) as [H1 H2]; [lia|]. split; [lia|]. apply Forall_app. split; [exact H2|].
    eapply List.Forall_impl; [|exact IH2]. cbn. lia.
Qed.
Lemma words_chars (P : Z → Prop) p ws : words p ws → Forall P p → Forall (Forall P) ws.
Proof.
  assert (∀ w, Forall P w → Forall (Forall P) (unless_empty w)) as Hu by (intros [|c w] Hw; [constructor|by constructor]).
  induction 1 as [k|k w _|k w rest ws _ _ IH|k q w _ _|k q w rest ws _ _ _ IH]; intros Hp; repeat (rewrite Forall_app in Hp || rewrite List.Forall_cons_iff in Hp).
  - constructor.
  - constructor; [tauto|done].
  - constructor; [tauto|apply IH; tauto].
  - apply Hu; tauto.
  - apply Forall_app. split; [apply Hu; tauto|apply IH; tauto].
Qed.

(** ** The code *)

Section parse.
Context `{Allocator} `{CfgUser} (Hmt : malloc_total).
Notation st := (tt_cli_t * tt_shell_t)%type.

(** The array has room for the arguments it holds. *)
Definition args_fit (sh : tt_shell_t) : Prop := zlen (arg sh) ≤ arg_size sh ∧ 8 * (arg_size sh + 10) < 2 ^ 32.

Lemma put_arg_ok a c sh : args_fit sh → ∃ n, __put_arg a (c, sh) = Ret (TT_SUCCESS tt, (c, set_arg (arg sh ++ [a]) n sh)) ∧
  zlen (arg sh) + 1 ≤ n ≤ Z.max (arg_size sh) (zlen (arg sh) + 10).
Proof.
  intros [Hfit Hsz]. pose proof (zlen_nonneg (arg sh)). unfold __put_arg, the_shell. erewrite (bind_step (gets snd)) by done. cbn [snd].
  rewrite (proj2 (Z.leb_le _ _) Hfit). erewrite (bind_step (assert_always true)) by done.
  assert (∃ n, (if zlen (arg sh) =? arg_size sh then do_r TT_FAIL __expand_arg else mret tt) (c, sh) = Ret (TT_SUCCESS tt, (c, set_arg (arg sh) n sh)) ∧
    zlen (arg sh) + 1 ≤ n ≤ Z.max (arg_size sh) (zlen (arg sh) + 10)) as (n & E & Hn).
  { destruct (Z.eqb_spec (zlen (arg sh)) (arg_size sh)) as [Ee|Ee]; [|exists (arg_size sh); split; [by destruct sh|lia]].
    exists (arg_size sh + 10). split; [|lia]. unfold do_r, __expand_arg, the_shell. erewrite (bind_step (gets snd)) by done. cbn [snd]. cbv zeta. unfold TT_SH_ARG_NUM.
    rewrite (u32_small (arg_size sh + 10)) by lia. rewrite u32_small by lia. destruct (Hmt ((arg_size sh + 10) * 8)) as [l ->].
    rewrite (proj2 (Z.ltb_ge _ _)) by lia. done. }
  erewrite bind_step by exact E. erewrite (bind_step (gets snd)) by done. cbn [snd arg arg_size set_arg]. rewrite (proj2 (Z.ltb_lt _ _)) by lia.
  erewrite (bind_step (assert_always true)) by done. exists n. by split.
Qed.

(** What the loop has read goes behind the arguments that are there. *)
Lemma parse_loop_ok p ws : words p ws → ∀ fuel c sh, (length p < fuel)%nat → args_fit sh → 8 * (zlen (arg sh) + zlen ws + 20) < 2 ^ 32 →
  ∃ n, parse_loop fuel p (c, sh) = Ret (TT_SUCCESS tt, (c, set_arg (arg sh ++ ws) n sh)) ∧
    zlen (arg sh) + zlen ws ≤ n ≤ Z.max (arg_size sh) (zlen (arg sh) + zlen ws + 10).
Proof.
  assert (∀ sh, set_arg (arg sh ++ []) (arg_size sh) sh = sh) as Hsame by (intros []; unfold set_arg; cbn; by rewrite app_nil_r).
  assert (∀ w c sh, args_fit sh → 8 * (zlen (arg sh) + zlen (unless_empty w) + 20) < 2 ^ 32 → ∃ n, (if 0 <? zlen w then __put_arg w else mret tt) (c, sh) = Ret (TT_SUCCESS tt, (c, set_arg (arg sh ++ unless_empty w) n sh)) ∧
    zlen (arg sh) + zlen (unless_empty w) ≤ n ≤ Z.max (arg_size sh) (zlen (arg sh) + zlen (unless_empty w) + 10)) as Hput.
  { intros w c sh Hfit Hb. pose proof (zlen_nonneg (arg sh)). destruct w as [|x w].
    - exists (arg_size sh). split; [by rewrite Hsame|]. destruct Hfit. change (zlen (unless_empty [])) with 0. lia.
    - rewrite zlen_cons, (proj2 (Z.ltb_lt 0 _)) by (pose proof (zlen_nonneg w); lia). destruct (put_arg_ok (x :: w) c sh Hfit) as (n & E & Hn). exists n. split; [done|]. change (zlen (unless_empty (x :: w))) with 1. lia. }
  assert (∀ w, bare_word w → unless_empty w = [w] ∧ ∃ c w', w = c :: w' ∧ c ≠ 32 ∧ (c =? 34) = false ∧ (c =? 39) = false) as Hbw.
  { intros [|c w] (Hne & H32 & H34 & H39); [done|]. split; [done|]. exists c, w. cbn in *. apply not_elem_of_cons in H32 as [? _]. repeat split; [done|by apply Z.eqb_neq..]. }
  assert (∀ q, quote q → ∀ w rest, skip_blanks (q :: w) = q :: w ∧ (if q =? 34 then (34, rest) else if q =? 39 then (39, rest) else (32, q :: rest)) = (q, rest : list Z)) as Hqu.
  { intros q [->| ->] w rest; done. }
  induction 1 as [k|k w Hw|k w rest ws Hw Hws IH|k q w Hq Hn|k q w rest ws Hq Hn Hws IH]; intros [|fuel] c sh Hf Hfit Hb; simpl in Hf; try lia; cbn [parse_loop];
    rewrite ?skip_blanks_app.
  - replace (blanks k) with (blanks k ++ []) by apply app_nil_r. rewrite skip_blanks_app. exists (arg_size sh). split; [by rewrite Hsame|]. destruct Hfit. change (zlen []) with 0. lia.
  - destruct (Hbw w Hw) as (Eu & x & w' & -> & Hx & H34 & H39). destruct Hw as (_ & H32 & _). cbn [skip_blanks]. rewrite (proj2 (Z.eqb_neq x 32)) by done. rewrite H34, H39, arg_end_all by done.
    rewrite <- Eu in *. destruct (Hput (x :: w') c sh Hfit) as (n & E & Hnn); [lia|]. exists n. split; [|done]. by erewrite bind_step by exact E.
  - destruct (Hbw w Hw) as (Eu & x & w' & -> & Hx & H34 & H39). destruct Hw as (_ & H32 & _). cbn [app skip_blanks]. rewrite (proj2 (Z.eqb_neq x 32)) by done. rewrite H34, H39.
    change (x :: w' ++ 32 :: rest) with ((x :: w') ++ 32 :: rest). rewrite arg_end_at by done. rewrite zlen_cons in Hb. pose proof (zlen_nonneg ws).
    destruct (Hput (x :: w') c sh Hfit) as (n & E & Hnn); [rewrite Eu; change (zlen [_]) with 1; lia|]. erewrite bind_step by exact E. rewrite Eu in *. change (zlen [_]) with 1 in Hnn.
    destruct (IH fuel c (set_arg (arg sh ++ [x :: w']) n sh)) as (n2 & E2 & Hn2); cbn [arg arg_size set_arg] in *.
    { rewrite !length_app in Hf. cbn in Hf. lia. } { destruct Hfit. split; cbn [arg arg_size set_arg]; rewrite ?zlen_app; change (zlen [_]) with 1; lia. }
    { rewrite zlen_app. change (zlen [_]) with 1. lia. }
    exists n2. split; [rewrite E2; unfold set_arg; cbn; by rewrite <- app_assoc|]. rewrite zlen_app in Hn2. change (zlen [_]) with 1 in Hn2. rewrite zlen_cons. lia.
  - destruct (Hqu q Hq w w) as [-> ->]. rewrite arg_end_all by done. destruct (Hput w c sh Hfit Hb) as (n & E & Hnn). exists n. split; [|done]. by erewrite bind_step by exact E.
  - destruct (Hqu q Hq (w ++ q :: rest) (w ++ q :: rest)) as [-> ->]. rewrite arg_end_at by done. rewrite zlen_app in Hb. pose proof (zlen_nonneg ws).
    pose proof (zlen_nonneg (unless_empty w)). destruct (Hput w c sh Hfit) as (n & E & Hnn); [lia|]. erewrite bind_step by exact E.
    destruct (IH fuel c (set_arg (arg sh ++ unless_empty w) n sh)) as (n2 & E2 & Hn2); cbn [arg arg_size set_arg] in *.
    { rewrite length_app in Hf. cbn in Hf. rewrite length_app in Hf. cbn in Hf. lia. } { destruct Hfit. split; cbn [arg arg_size set_arg]; rewrite ?zlen_app; lia. }
    { rewrite zlen_app. lia. }
    exists n2. split; [rewrite E2; unfold set_arg; cbn; by rewrite <- app_assoc|]. rewrite !zlen_app in *. lia.
Qed.

(** C37: every line has exactly one list of arguments, which the shell finds, however many
    they are: what stands between blanks, or between two equal quotes, or from a quote to
    the end of the line; arguments without characters do not count. *)
Theorem shell_args line c sh : arg sh = [] → 10 ≤ arg_size sh → 8 * (arg_size sh + zlen line + 20) < 2 ^ 32 →
  ∃ ws, words line ws ∧ (∀ ws', words line ws' → ws' = ws) ∧
    ∃ n, __parse_arg line (c, sh) = Ret (TT_SUCCESS tt, (c, set_arg ws n sh)) ∧ zlen ws ≤ n ≤ Z.max (arg_size sh) (zlen ws + 10).
Proof.
  intros Ha Hs Hb. destruct (words_exist line) as [ws Hws]. exists ws. split; [done|].
  assert (∀ ws', words line ws' → ∃ n, __parse_arg line (c, sh) = Ret (TT_SUCCESS tt, (c, set_arg ws' n sh)) ∧ zlen ws' ≤ n ≤ Z.max (arg_size sh) (zlen ws' + 10)) as Hp.
  { intros ws' Hws'. destruct (words_len line ws' Hws') as [Hl _]. pose proof (zlen_nonneg ws').
    destruct (parse_loop_ok line ws' Hws' (S (length line)) c sh) as (n & E & Hn); [lia|split; rewrite ?Ha; change (zlen (@nil (list Z))) with 0; pose proof (zlen_nonneg line); lia|rewrite Ha; change (zlen (@nil (list Z))) with 0; lia|].
    rewrite Ha in *. exists n. by split. }
  split; [|by apply Hp]. intros ws' Hws'. destruct (Hp ws Hws) as (n & E & _), (Hp ws' Hws') as (n' & E' & _). rewrite E in E'. by injection E'.
Qed.
End parse.

Definition demo_line : tt_cline_t := mk_cline (read_buf 0) None [] (read_buf 0) TT_CLI_MODE_DEFAUTL 0.
Definition demo_cli : tt_cli_t := mk_cli no_cb no_itf [] __def_newline_f None None None (read_buf 0) (read_buf 0) demo_line 35 0.
Definition demo_shell : tt_shell_t := mk_sh (mk_cfg (LinkedList.mk_lmem ∅ ∅) ∅ ∅) 1%positive 1%positive [] 10 None.
(** Blanks, a quoted blank, two quotes with nothing between them, a quote without an end. *)
Lemma shell_args_witness : ∃ n, @__parse_arg zero_alloc (chars "set  'a b' ''" ++ 34 :: chars "c d") (demo_cli, demo_shell) =
  Ret (TT_SUCCESS tt, (demo_cli, set_arg [chars "set"; chars "a b"; chars "c d"] n demo_shell)).
Proof.
  destruct (@shell_args zero_alloc zero_alloc_total (chars "set  'a b' ''" ++ 34 :: chars "c d") demo_cli demo_shell) as (ws & _ & Hu & n & E & _); [done..|].
  exists n. rewrite E, <- (Hu [chars "set"; chars "a b"; chars "c d"]); [done|].
  assert (∀ (x : Z) (l : list Z), bool_decide (x ∈ l) = false → x ∉ l) as Hout by (intros x l; by apply bool_decide_eq_false_1).
  apply (ws_bare_more 0 (chars "set") (chars " 'a b' ''" ++ 34 :: chars "c d") [chars "a b"; chars "c d"]).
  { repeat split; cbn; [done| |done..]. by apply Hout. }
  assert (39 ∉ chars "a b" ∧ 39 ∉ [] ∧ 34 ∉ chars "c d") as (H1 & H2 & H3).
  { repeat split; by apply Hout. }
  apply (ws_quoted 1 39 (chars "a b") (chars " ''" ++ 34 :: chars "c d") [chars "c d"]); [by right|done|].
  apply (ws_quoted 1 39 [] (34 :: chars "c d") [chars "c d"]); [by right|done|]. apply (ws_open 0 34 (chars "c d")); [by left|done].
Defined.
