(* ===== verification/ShellSpec.v ===== *)
(** What a line does in the shell of [Shell]: every command, on a forest of
    configuration objects. *)

From Stdlib Require Import String.
From S2P Require Import Prelude MemSpring Buffer BufferFormat SshDef BufCommon Str StrSpec StrRun SshCodec LinkedList CliLine CliEdit Cli CliSession CfgTree CfgForest CfgDestroy CfgValue CfgWrite CfgRun CfgPath CfgList Shell ShellOut ShellArgs.
From stdpp Require Import gmap sorting.

#[local] Open Scope Z_scope.
#[local] Open Scope list_scope.

Lemma name_printable n : __name_ok n = true → printables n.
Proof.
  unfold __name_ok. rewrite forallb_forall. intros Hn. apply List.Forall_forall. intros c Hc. specialize (Hn c Hc). unfold isalnum in Hn. unfold printable.
  apply andb_true_iff. repeat (apply orb_true_iff in Hn as [Hn|Hn] || apply andb_true_iff in Hn as [Hn ?]); lia.
Qed.
Lemma printables_plain d : printables d → plain d.
Proof. apply List.Forall_impl. by left. Qed.
Lemma blanks_plain n : plain (replicate n 32).
Proof. apply Forall_replicate. by left. Qed.

Lemma all_printable d : forallb printable d = true → plain d.
Proof. rewrite forallb_forall. intros Hd. apply List.Forall_forall. intros c Hc. left. by apply Hd. Qed.
#[local] Hint Extern 1 (plain (chars _)) => (apply all_printable; reflexivity) : core.
#[local] Hint Extern 1 (plain [_]) => (apply all_printable; reflexivity) : core.
Lemma plain_app d d' : plain d → plain d' → plain (d ++ d').
Proof. intros. by apply Forall_app. Qed.
#[local] Hint Resolve plain_app : core.

(** ** What the answers are *)

Notation FILE_SEP := tt_g_sh_colume_sep (only parsing).

Section answers.
Context (F : forest).

(** The value that an object stands for. *)
Definition has_value (m : cfg) (o : tt_cfgobj_t) (v : cfg_val) : Prop :=
  type o = val_type v ∧ val_ok v ∧ ∃ p x, opaque o = Some p ∧ vars m !! p = Some x ∧ holds x v.

(** A listing of an object. *)
Definition ls_text (m : cfg) (x : key) (d : list Z) : Prop :=
  ∃ o, objs m !! x = Some o ∧
    if is_dir (type o) then ∃ xs es w, listing F x xs es ∧ d = lines_text tt_g_sh_line_sep (map (line_at m tt_g_sh_colume_sep w) xs)
    else d = line_text o tt_g_sh_colume_sep 0.
(** What reading an object shows. *)
Definition value_text (m : cfg) (o : tt_cfgobj_t) (d : list Z) : Prop :=
  (∃ v, has_value m o v ∧ can_read o = true ∧ d = show v) ∨
  ((can_read o = false ∨ type o = TT_CFGOBJ_EXE) ∧ said (op_msg TT_E_UNSUPPORT) d).

Context (sh : tt_shell_t).
Definition goes (path : list Z) : option key := resolve F (root sh) (current sh) path.

Definition ls_answer (path d : list Z) : Prop :=
  match goes path with
  | None => said (chars "can not find: " ++ path) d
  | Some x => ls_text (conf sh) x d
  end.
Definition get_answer (path d : list Z) : Prop :=
  match goes path with
  | None => said (chars "not found: " ++ path) d
  | Some x => ∃ o, objs (conf sh) !! x = Some o ∧
      if is_dir (type o) then said (chars "get: " ++ path ++ chars ": is a direcoty") d
      else ∃ d', d = name o ++ chars ": " ++ d' ∧ value_text (conf sh) o d'
  end.
(** Several paths: each with a title, and an empty line between them. *)
Fixpoint titled (single : list Z → list Z → Prop) (paths : list (list Z)) (d : list Z) : Prop :=
  match paths with
  | [] => d = []
  | path :: paths => ∃ d1 d2, single path d1 ∧ titled single paths d2 ∧
      d = path ++ 58 :: TT_CLI_EV_ENTER :: d1 ++ match paths with [] => [] | _ => TT_CLI_EV_ENTER :: TT_CLI_EV_ENTER :: d2 end
  end.
Definition help_line (c : tt_shcmd_t) : list Z := shcmd_name c ++ replicate (Z.to_nat (max_len - zlen (shcmd_name c))) 32 ++ info c.
Definition help_answer (argv : list (list Z)) (d : list Z) : Prop :=
  match argv with
  | [] => d = lines_text tt_g_sh_line_sep (map help_line tt_g_shcmd)
  | nm :: _ =>
      match tt_shcmd_find nm with
      | Some c => d = usage c
      | None =>
          match goes nm with
          | Some x => ∃ o, objs (conf sh) !! x = Some o ∧ d = tt_cfgobj_detail o
          | None => said (chars "not found: " ++ nm) d
          end
      end
  end.
End answers.

(** ** The configuration behind a shell: [I] is what the user's functions rely on. *)

Section shell.
Context `{Allocator} `{CfgUser} (F : forest) (I : cfg → Prop) (N V Lmax : Z) (HN : 0 ≤ N) (HV : Lmax + 12 ≤ V) (HL : 0 ≤ Lmax).
Notation st := (tt_cli_t * tt_shell_t)%type.

(** Names and descriptions are short, and printable. *)
Record obj_texts (o : tt_cfgobj_t) : Prop := {
  ot_name : zlen (name o) ≤ N;
  ot_brief : printables (tt_cfgobj_brief o) ∧ zlen (tt_cfgobj_brief o) ≤ N;
  ot_detail : printables (tt_cfgobj_detail o) ∧ zlen (tt_cfgobj_detail o) ≤ N;
  ot_width w : ext o = XDir w → w ≤ N;
}.
(** Every object but directories and executables stands for a variable with a value
    that can be shown. *)
Definition shows_value (m : cfg) (o : tt_cfgobj_t) : Prop := ∃ v, has_value m o v ∧ printables (show v) ∧ zlen (show v) ≤ V.
Definition vals_ok (m : cfg) : Prop := ∀ x o, objs m !! x = Some o → type o ≠ TT_CFGOBJ_DIR → type o ≠ TT_CFGOBJ_EXE → shows_value m o.
Record conf_ok (m : cfg) : Prop := {
  co_models : models m F;
  co_texts x o : objs m !! x = Some o → obj_texts o;
  co_vals : vals_ok m;
  co_own x o g s : objs m !! x = Some o → ext o = XStr g s → regrows s (Lmax + 2);
  co_user : I m;
}.
Record shell_ok (sh : tt_shell_t) : Prop := {
  so_conf : conf_ok (conf sh);
  so_root : dir_at F (root sh) = true;
  so_current : dir_at F (current sh) = true;
  so_args : 0 ≤ arg_size sh ≤ Lmax + 10;
  so_exit : plain (default [] (exit_msg sh)) ∧ zlen (default [] (exit_msg sh)) ≤ 1000;
}.

(** Room for the answer about one path. *)
Definition one_cost : Z := (Z.of_nat (size F) + 1) * (3 * N + 30) + V + Lmax + 1000.

Context (sh : tt_shell_t) (Hsh : shell_ok sh).
Notation m := (conf sh).

Lemma conf_models : models (conf sh) F.
Proof. apply Hsh. Qed.
Lemma conf_obj_ok x o : objs (conf sh) !! x = Some o → obj_ok o.
Proof. intros Ho. destruct conf_models as [[kids Hinv] _]. by eapply ci_obj. Qed.
Lemma dir_some x : dir_at F x = true → is_Some (F !! x).
Proof. intros Hd. destruct (dir_known F x Hd) as (n & p & ->). by eexists. Qed.
Lemma known_at x : is_Some (F !! x) → ∃ o, objs (conf sh) !! x = Some o.
Proof. apply known_obj, conf_models. Qed.

Lemma find_path_ok path c : find_path path (c, sh) = Ret (TT_SUCCESS (goes F sh path), (c, sh)).
Proof.
  unfold find_path, the_shell. erewrite (bind_step (gets snd)) by done. cbn [snd]. unfold on_conf, zoom. cbn [snd].
  rewrite (p2n_ok _ F conf_models) by (apply dir_some, Hsh). cbn. by destruct sh.
Qed.
Lemma goes_known path x : goes F sh path = Some x → is_Some (F !! x).
Proof. apply (resolve_known _ F conf_models); apply dir_some, Hsh. Qed.
Lemma object_ok x o c : objs (conf sh) !! x = Some o → object x (c, sh) = Ret (TT_SUCCESS o, (c, sh)).
Proof. intros Ho. unfold object, on_conf, zoom. cbn [snd]. rewrite (obj_step _ _ _ Ho). cbn. by destruct sh. Qed.

(** *** Listing *)

Lemma type_text_plain t : plain (type_text t).
Proof. destruct t; repeat constructor. Qed.
Lemma line_plain o w : obj_ok o → obj_texts o → plain (line_text o tt_g_sh_colume_sep w).
Proof.
  intros Hok Ht. pose proof (printables_plain _ (name_printable _ (ok_name _ Hok))). unfold line_text, perm_text, slashed.
  repeat (apply Forall_app; split); try (by repeat constructor; left); try done; try apply blanks_plain; try apply type_text_plain.
  - constructor; [|constructor; [|constructor]]; left; by destruct (_ && _).
  - destruct (is_dir _); repeat constructor.
  - apply printables_plain, Ht.
Qed.
Lemma line_len o w : obj_ok o → obj_texts o → w ≤ N → zlen (line_text o tt_g_sh_colume_sep w) ≤ 2 * N + 25.
Proof.
  intros Hok Ht Hw. destruct (type_text_len o Hok) as (_ & Hty & _). pose proof (ot_name _ Ht). destruct (ot_brief _ Ht) as [_ Hb].
  unfold line_text. rewrite !zlen_app, Hty, zlen_replicate. change (zlen (perm_text o)) with 2. change (zlen tt_g_sh_colume_sep) with 4.
  assert (0 ≤ zlen (slashed o) ≤ N + 1) by (unfold slashed; rewrite zlen_app; pose proof (zlen_nonneg (name o)); destruct (is_dir _); [change (zlen [47]) with 1|change (zlen []) with 0]; lia). lia.
Qed.
Lemma lines_plain sep ls : plain sep → Forall (λ l, plain l) ls → plain (lines_text sep ls).
Proof.
  intros Hs. induction 1 as [|l ls Hl _ IH]; [constructor|]. cbn. destruct ls; [done|]. repeat (apply Forall_app; split); done.
Qed.
Lemma ended_len sep ls n : Forall (λ l, zlen l ≤ n) ls → 0 ≤ n → 0 ≤ zlen (ended sep ls) ≤ zlen ls * (n + zlen sep).
Proof.
  intros Hl Hn. unfold ended. pose proof (zlen_nonneg sep). induction Hl as [|l ls Hl _ IH]; [done|]. cbn [map concat]. rewrite !zlen_app, zlen_cons. pose proof (zlen_nonneg l). lia.
Qed.

Lemma ls_writes x : is_Some (F !! x) → ∃ d, ls_text F (conf sh) x d ∧ plain d ∧
  writes (tt_cfgobj_ls (conf sh) x (Some tt_g_sh_colume_sep) (Some tt_g_sh_line_sep)) one_cost d.
Proof.
  intros Hx. destruct (known_at x Hx) as [o Ho]. pose proof (so_conf _ Hsh) as [[[kids Hinv] Hv] Htx _ _ _].
  assert (briefs (conf sh)) as Hbr by (intros y oy Hy; destruct (ot_brief _ (Htx y oy Hy)) as [Hp _]; by apply plain_u8, printables_plain).
  assert (Forall is_u8 tt_g_sh_colume_sep ∧ Forall is_u8 tt_g_sh_line_sep) as [Hc Hs] by by split; repeat constructor.
  assert (0 ≤ (Z.of_nat (size F)) * (3 * N + 30)) by (apply Z.mul_nonneg_nonneg; lia).
  unfold ls_text. destruct (is_dir (type o)) eqn:Et.
  - apply is_dir_true in Et. destruct (proj2 (ci_dir _ _ Hinv x)) as [xs Hk]; [by exists o|]. destruct (kids_listing _ kids F x xs Hinv Hv Hk) as (es & Hl & _).
    destruct (dir_ls_ok _ kids Hinv Hbr _ _ Hc Hs x xs Hk) as (od & w & Hod & Ew & Hw & _ & Ha). assert (od = o) as -> by congruence.
    pose proof (ot_width _ (Htx x o Ho) w Ew) as HwN. eexists. split; [exists o; split; [done|]; rewrite (proj2 (is_dir_true _) Et); by exists xs, es, w|].
    assert (Forall (λ l, plain l ∧ zlen l ≤ 2 * N + 25) (map (line_at (conf sh) tt_g_sh_colume_sep w) xs)) as Hlines.
    { apply List.Forall_forall. intros l Hin. apply in_map_iff in Hin as (y & <- & _). unfold line_at. destruct (objs (conf sh) !! y) as [oy|] eqn:Ey; [|split; [constructor|change (zlen []) with 0; lia]].
      pose proof (ci_obj _ _ Hinv y oy Ey). split; [by apply line_plain; [|eapply Htx]|by apply line_len; [|eapply Htx|]]. }
    split; [apply lines_plain; [repeat constructor; by right|eapply List.Forall_impl; [|exact Hlines]; cbn; tauto]|].
    eapply adds_writes; [|exact Ha]. edestruct (ended_len tt_g_sh_line_sep (map (line_at (conf sh) tt_g_sh_colume_sep w) xs) (2 * N + 25)) as [He1 He2]; [eapply List.Forall_impl; [|exact Hlines]; cbn; tauto|lia|].
    split; [done|]. change (zlen tt_g_sh_line_sep) with 1 in He2. assert (zlen (map (line_at (conf sh) tt_g_sh_colume_sep w) xs) ≤ Z.of_nat (size F)) as Hn.
    { unfold zlen. rewrite length_map. rewrite (forest_size _ kids F Hinv Hv). apply inj_le. by eapply (rep_length _ _ (ci_lrep _ _ Hinv) x). }
    unfold one_cost. assert (zlen (map (line_at (conf sh) tt_g_sh_colume_sep w) xs) * (2 * N + 25 + 1) ≤ Z.of_nat (size F) * (3 * N + 30)).
    { apply Z.mul_le_mono_nonneg; [apply zlen_nonneg|done|lia|lia]. } lia.
  - apply is_dir_false in Et. eexists. split; [exists o; split; [done|]; by rewrite (proj2 (is_dir_false _) Et)|]. pose proof (conf_obj_ok x o Ho) as Hok.
    split; [by apply line_plain; [|eapply Htx]|]. eapply adds_writes; [|by eapply leaf_ls_ok]. pose proof (line_len o 0 Hok (Htx x o Ho) HN). split; [apply zlen_nonneg|unfold one_cost; lia].
Qed.

(** A message. *)
Lemma says_msg d k : plain d → zlen d + 1 ≤ k → says (say d;; mret TT_CLIOC_OUT) sh k (λ a d', a = TT_CLIOC_OUT ∧ said d d').
Proof. intros Hd Hk. pose proof (zlen_nonneg d). apply says_then; [lia|]. eapply says_weaken; [| |by apply says_say]; [lia|done]. Qed.

Lemma ls_at_says x : is_Some (F !! x) → says (__ls_at x) sh one_cost (λ a d, a = TT_CLIOC_OUT ∧ ls_text F m x d).
Proof.
  intros Hx. destruct (ls_writes x Hx) as (d & Hd & Hp & Hw). unfold __ls_at. apply says_shell.
  assert (0 ≤ one_cost) by (unfold one_cost; pose proof (Z.mul_nonneg_nonneg (Z.of_nat (size F) + 1) (3 * N + 30)); lia).
  apply says_then; [done|]. eapply says_weaken; [| |by apply (says_guarded _ op_msg _ one_cost d)]; [lia|]. by intros r d' [_ ->].
Qed.

Lemma one_cost_path : 0 ≤ one_cost ∧ Lmax + 1000 ≤ one_cost.
Proof. unfold one_cost. pose proof (Z.mul_nonneg_nonneg (Z.of_nat (size F) + 1) (3 * N + 30)). lia. Qed.

Section one.
Context (path : list Z) (Hpath : printables path) (Hlen : zlen path ≤ Lmax).

Lemma path_msg s s' : zlen s + zlen s' ≤ 500 → plain s → plain s' →
  says (say (s ++ path ++ s');; mret TT_CLIOC_OUT) sh one_cost (λ a d', a = TT_CLIOC_OUT ∧ said (s ++ path ++ s') d').
Proof.
  intros Hz Hs Hs'. pose proof one_cost_path. pose proof (printables_plain _ Hpath). apply says_msg; [auto|]. rewrite !zlen_app. lia.
Qed.
Lemma path_msg1 s : zlen s ≤ 500 → plain s → says (say (s ++ path);; mret TT_CLIOC_OUT) sh one_cost (λ a d', a = TT_CLIOC_OUT ∧ said (s ++ path) d').
Proof. intros Hz Hs. pose proof (path_msg s [] ltac:(change (zlen []) with 0; lia) Hs ltac:(constructor)) as Hm. by rewrite app_nil_r in Hm. Qed.

Lemma ls_single_says : says (__ls_single path) sh one_cost (λ a d, a = TT_CLIOC_OUT ∧ ls_answer F sh path d).
Proof.
  unfold __ls_single, ls_answer. eapply says_look; [apply find_path_ok|]. destruct (goes F sh path) as [x|] eqn:E; [by eapply ls_at_says, goes_known|].
  apply path_msg1; [vm_compute; discriminate|auto].
Qed.

(** *** Values *)

Lemma read_says x o : objs m !! x = Some o → is_dir (type o) = false →
  says (guarded (on_out (tt_cfgobj_read m x)) op_msg) sh (V + 30) (λ _ d, value_text m o d).
Proof.
  intros Ho Ht. apply is_dir_false in Ht. pose proof (conf_obj_ok x o Ho) as Hok.
  assert (plain (op_msg TT_E_UNSUPPORT)) as Hmsg by by apply all_printable.
  destruct (can_read o) eqn:Er; [destruct (decide (type o = TT_CFGOBJ_EXE)) as [Hexe|Hexe]|].
  2: { destruct (co_vals _ (so_conf _ Hsh) x o Ho Ht Hexe) as (v & (Hty & Hv & p & y & Hp & Hy & Hh) & Hpr & Hz).
    eapply says_weaken; [| |apply (says_guarded _ op_msg _ (zlen (show v)) (show v))]; [pose proof (zlen_nonneg (show v)); lia| |apply zlen_nonneg|by apply printables_plain|].
    - intros r d [_ ->]. left. exists v. split; [|done]. by repeat (split || eexists).
    - eapply adds_writes; [|apply adds_renders; by eapply read_shows]. pose proof (zlen_nonneg (show v)). lia. }
  all: eapply says_weaken; [| |apply (says_refused _ op_msg _ 0 TT_E_UNSUPPORT); [done| |done]]; [change (zlen (op_msg TT_E_UNSUPPORT)) with 23; lia|intros r d [_ Hd]; right; split; [auto|done]|].
  all: intros b [Hwf _ _] _; exists [], b; split; [|rewrite app_nil_r; by apply becomes_refl]; unfold tt_cfgobj_read, at_obj; rewrite Ho; erewrite (bind_step (access _)) by done.
  - pose proof (ok_ext _ Hok) as He. unfold ext_ok in He. rewrite Hexe in He. destruct (ext o); try done. by rewrite He.
  - rewrite Er. by destruct (read (itf o)).
Qed.

Lemma get_val_says x o : objs m !! x = Some o → is_dir (type o) = false →
  says (__get_val x) sh one_cost (λ a d, a = TT_CLIOC_OUT ∧ ∃ d', d = name o ++ chars ": " ++ d' ∧ value_text m o d').
Proof.
  intros Ho Ht. pose proof (conf_obj_ok x o Ho) as Hok. pose proof (ot_name _ (co_texts _ (so_conf _ Hsh) x o Ho)) as Hn. unfold __get_val. eapply says_look; [by intros c; apply object_ok|].
  pose proof (zlen_nonneg (name o)). eapply (says_weaken _ _ (zlen (name o) + (2 + (V + 30)))); [|intros a d H'; exact H'|].
  { unfold one_cost. pose proof (Z.mul_nonneg_nonneg (Z.of_nat (size F)) (3 * N + 30)). lia. }
  eapply says_bind; [lia|lia|by apply says_put, printables_plain, name_printable, Hok|]. cbn. intros _ d1 ->.
  eapply (says_bind _ _ _ 2); [lia|lia|by apply (says_put (chars ": ")); auto|]. cbn. intros _ d2 ->.
  apply says_shell. apply says_then; [lia|]. eapply says_weaken; [| |by apply (read_says x o)]; [lia|]. intros r d Hd. exists d. by split.
Qed.
Lemma get_single_says : says (__get_single path) sh one_cost (λ a d, a = TT_CLIOC_OUT ∧ get_answer F sh path d).
Proof.
  unfold __get_single, get_answer. eapply says_look; [apply find_path_ok|]. destruct (goes F sh path) as [x|] eqn:E; cycle 1.
  { apply path_msg1; [vm_compute; discriminate|auto]. }
  destruct (known_at x (goes_known _ _ E)) as [o Ho]. eapply says_look; [by intros c; apply object_ok|].
  destruct (is_dir (type o)) eqn:Et.
  - eapply says_weaken; [| |apply path_msg; [vm_compute; discriminate|auto..]]; [pose proof one_cost_path; lia|]. intros a d [-> Hd]. split; [done|]. exists o. by rewrite Et.
  - eapply says_weaken; [| |by apply (get_val_says x o)]; [pose proof one_cost_path; lia|]. intros a d [-> Hd]. split; [done|]. exists o. by rewrite Et.
Qed.
End one.

(** *** Several paths *)

Lemma multiple_says single answer : (∀ path, printables path → zlen path ≤ Lmax → says (single path) sh one_cost (λ a d, a = TT_CLIOC_OUT ∧ answer path d)) →
  ∀ paths, Forall printables paths → Forall (λ p, zlen p ≤ Lmax) paths →
  says (multiple single paths) sh (zlen paths * (Lmax + one_cost + 4)) (λ a d, a = TT_CLIOC_OUT ∧ titled answer paths d).
Proof.
  intros Hs. pose proof one_cost_path. induction 1 as [|path paths Hp Hps IH]; intros Hl; [change (zlen []) with 0; apply says_ret|].
  apply Forall_cons_1 in Hl as [Hl Hls]. rewrite zlen_cons. cbn [multiple]. pose proof (zlen_nonneg path). pose proof (zlen_nonneg paths) as Hzp.
  assert (0 ≤ zlen paths * (Lmax + one_cost + 4)) by (apply Z.mul_nonneg_nonneg; lia).
  eapply (says_weaken _ _ (zlen path + (1 + (1 + (one_cost + (2 + zlen paths * (Lmax + one_cost + 4))))))); [lia|intros a d H'; exact H'|].
  eapply says_bind; [lia|lia|by apply says_put, printables_plain|]. cbn. intros _ d1 ->.
  eapply (says_bind _ _ _ 1); [lia|lia|apply (says_drop _ _ 1 [58]); [lia|auto|eapply adds_writes; [|by apply adds_u8]; lia]|]. cbn. intros _ d2 ->.
  apply says_newline; [lia|]. eapply says_bind; [lia|lia|by apply Hs|]. cbn. intros _ d3 [-> Hd3]. destruct paths as [|path' paths].
  - eapply (says_weaken _ _ 0); [change (zlen []) with 0; lia| |apply says_ret]. intros a d [-> ->]. split; [done|]. exists d3, []. split; [done|]. split; [done|]. by rewrite app_nil_r.
  - replace (2 + zlen (path' :: paths) * (Lmax + one_cost + 4)) with (1 + (1 + zlen (path' :: paths) * (Lmax + one_cost + 4))) by lia.
    apply says_newline; [lia|]. apply says_newline; [lia|]. eapply says_weaken; [| |by apply IH]; [lia|]. intros a d [-> Hd]. split; [done|]. exists d3, d. split; [done|]. split; [done|]. cbn. by rewrite <- ?app_assoc.
Qed.

(** *** pwd and help *)

Lemma prepend_cost l : Forall (λ x, zlen (name_at F x) ≤ N) l → ∀ acc, zlen (prepend F acc l) ≤ zlen acc + zlen l * (N + 1).
Proof.
  induction 1 as [|x l Hx Hl IH]; intros acc; cbn [prepend]; [change (zlen []) with 0; lia|]. specialize (IH (name_at F x ++ 47 :: acc)).
  rewrite zlen_app, !zlen_cons in *. pose proof (zlen_nonneg l). lia.
Qed.
Lemma name_at_short x : zlen (name_at F x) ≤ N.
Proof.
  unfold name_at. destruct (F !! x) as [[[d n] p]|] eqn:E; [|change (zlen []) with 0; lia]. destruct conf_models as [Hi Hv].
  destruct (view_obj _ F Hv _ _ _ E) as (o & Ho & Ht & _). injection Ht as _ <-. by apply ot_name, (co_texts _ (so_conf _ Hsh) x).
Qed.
Lemma prepend_plain l : ∀ acc, plain acc → plain (prepend F acc l).
Proof.
  induction l as [|x l IH]; intros acc Ha; cbn [prepend]; [done|]. apply IH. apply plain_app; [|constructor; [by left|done]].
  apply printables_plain, name_printable. by apply (name_chars m F conf_models).
Qed.
Lemma chain_len fuel x : (length (CfgRun.chain fuel F x) ≤ S fuel)%nat.
Proof. revert x. induction fuel as [|fuel IH]; intros x; cbn; [lia|]. destruct (F !! x) as [[e [p|]]|]; cbn; [specialize (IH p); lia|lia|lia]. Qed.
Lemma cut_len rt l : (length (cut_at rt l) ≤ length l)%nat.
Proof. induction l as [|x l IH]; [done|]. cbn. case_bool_decide; cbn; lia. Qed.
Lemma path_cost rt x : plain (path_of F rt x) ∧ 1 + zlen (path_of F rt x) ≤ one_cost.
Proof.
  assert (0 ≤ Z.of_nat (size F) * (2 * N + 29)) by (apply Z.mul_nonneg_nonneg; lia). unfold path_of, one_cost. case_bool_decide; [split; [constructor|change (zlen []) with 0; lia]|].
  split; [apply prepend_plain, printables_plain, name_printable; by apply (name_chars m F conf_models)|].
  pose proof (prepend_cost (cut_at rt (tail (path_up F x))) ltac:(apply List.Forall_forall; intros; apply name_at_short) (name_at F x)) as Hp. pose proof (name_at_short x).
  assert (zlen (cut_at rt (tail (path_up F x))) ≤ Z.of_nat (size F)).
  { unfold zlen. apply inj_le. pose proof (cut_len rt (tail (path_up F x))). pose proof (chain_len (size F) x). unfold path_up in *. destruct (CfgRun.chain _ _ _); cbn in *; lia. }
  assert (zlen (cut_at rt (tail (path_up F x))) * (N + 1) ≤ Z.of_nat (size F) * (N + 1)) by (apply Z.mul_le_mono_nonneg_r; lia). lia.
Qed.

Lemma pwd_says argv : says (__pwd_run argv) sh one_cost (λ a d, a = TT_CLIOC_OUT ∧ d = 47 :: path_of F (Some (root sh)) (current sh)).
Proof.
  pose proof one_cost_path. destruct (path_cost (Some (root sh)) (current sh)) as [Hp Hc]. unfold __pwd_run. apply says_shell. apply says_then; [lia|].
  set (o := (ignore (tt_buf_put_u8 47);; tt_cfgpath_n2p m (Some (root sh)) (current sh)) : M tt_buf_t unit).
  assert (∀ msg s, guarded (drop_res (on_out (tt_buf_put_u8 47));; on_out (tt_cfgpath_n2p m (Some (root sh)) (current sh))) msg s = guarded (on_out o) msg s) as Eg.
  { intros msg s. apply guarded_ext. intros [c s']. unfold o, on_out, with_outbuf, with_cline, with_out, drop_res, ignore, try, zoom, mbind, M_bind, bind. cbn.
    destruct (tt_buf_put_u8 47 (outbuf (cline c))) as [[r b]| | |]; cbn; [|done..]. destruct (tt_cfgpath_n2p _ _ _ b) as [[r2 b2]| | |]; cbn; by destruct c. }
  eapply says_ext; [apply Eg|]. eapply says_weaken; [| |apply (says_guarded o _ _ one_cost (47 :: path_of F (Some (root sh)) (current sh)))]; [lia|by intros r d [_ ->]|lia|constructor; [by left|done]|].
  intros b [Hwf Hro Hrel] Hr Hroom. pose proof (zlen_nonneg (path_of F (Some (root sh)) (current sh))).
  destruct (adds_ignore _ _ _ (adds_u8 47 ltac:(done)) b Hwf Hro Hrel) as (b1 & E1 & Hb1); [eapply room_weaken; [|exact Hroom]; lia|].
  destruct (n2p_ok m F conf_models b1) with (root := Some (root sh)) (x := current sh) as (b2 & E2 & Hb2).
  { apply Hb1. } { by rewrite (be_ro _ _ _ _ _ Hb1). } { unfold reliable in *. by rewrite (be_mspg _ _ _ _ _ Hb1). } { by rewrite (be_rpos _ _ _ _ _ Hb1). } { by apply dir_some, Hsh. }
  { eapply (becomes_room b 1); [lia|done| |exact Hb1]. eapply room_weaken; [|exact Hroom]. lia. }
  exists b2. split; [unfold o; by erewrite bind_step by exact E1|]. rewrite (be_content _ _ _ _ _ Hb1), <- app_assoc in Hb2. rewrite Hr in *.
  eapply (becomes_weaken _ (1 + zlen (path_of F (Some (root sh)) (current sh)))); [lia|]. by eapply becomes_trans; [lia|lia|exact Hb1|exact Hb2].
Qed.

Lemma help_loop_says cmds : Forall (λ c, plain (shcmd_name c) ∧ plain (info c) ∧ zlen (shcmd_name c) ≤ max_len) cmds →
  says (help_loop cmds) sh (zlen (ended tt_g_sh_line_sep (map help_line cmds))) (λ a d, a = TT_CLIOC_OUT ∧ d = lines_text tt_g_sh_line_sep (map help_line cmds)).
Proof.
  induction 1 as [|c cmds (Hn & Hi & Hl) Hc IH]; [apply says_ret|]. cbn [help_loop]. unfold ended in *. cbn [map concat]. set (rest := concat _) in *. set (pad := replicate (Z.to_nat (max_len - zlen (shcmd_name c))) 32).
  pose proof (zlen_nonneg (shcmd_name c)). pose proof (zlen_nonneg (info c)). pose proof (zlen_nonneg pad). pose proof (zlen_nonneg rest).
  rewrite !zlen_app. unfold help_line at 1. fold pad. rewrite !zlen_app. change (zlen tt_g_sh_line_sep) with 1.
  eapply (says_weaken _ _ (zlen (shcmd_name c) + (zlen pad + (zlen (info c) + (1 + zlen rest))))); [lia|intros a d H'; exact H'|].
  eapply says_bind; [lia|lia|by apply says_put|]. cbv beta. intros _ d1 ->.
  eapply says_bind; [lia|lia|apply (says_drop _ _ _ pad); [done|apply blanks_plain|]|].
  { intros b [Hwf Hro Hrel] _ Hroom. rewrite put_rep_put by lia. by apply adds_put; [apply plain_u8, blanks_plain|..]. }
  cbv beta. intros _ d2 ->. eapply says_bind; [lia|lia|by apply says_put|]. cbv beta. intros _ d3 ->. destruct cmds as [|c' cmds].
  - eapply (says_weaken _ _ 0); [lia| |exact IH]. intros a d [-> ->]. split; [done|]. cbn [map lines_text]. by rewrite app_nil_r.
  - apply says_newline; [lia|]. eapply says_weaken; [| |exact IH]; [lia|]. intros a d [-> ->]. split; [done|]. change (shcmd_name c ++ pad ++ info c ++ TT_CLI_EV_ENTER :: lines_text tt_g_sh_line_sep (map help_line (c' :: cmds)) = (shcmd_name c ++ pad ++ info c) ++ tt_g_sh_line_sep ++ lines_text tt_g_sh_line_sep (map help_line (c' :: cmds))). by rewrite <- !app_assoc.
Qed.

Lemma help_says argv : Forall printables argv → Forall (λ p, zlen p ≤ Lmax) argv → says (__help_run argv) sh one_cost (λ a d, a = TT_CLIOC_OUT ∧ help_answer F sh argv d).
Proof.
  intros Hp Hl. pose proof one_cost_path. assert (0 ≤ Z.of_nat (size F) * (3 * N + 30)) by (apply Z.mul_nonneg_nonneg; lia).
  assert (∀ nm argv, printables nm → zlen nm ≤ Lmax → says (__help_single nm) sh one_cost (λ a d, a = TT_CLIOC_OUT ∧ help_answer F sh (nm :: argv) d)) as Hone.
  { intros nm argv' Hpn Hln. unfold __help_single, help_answer. destruct (tt_shcmd_find nm) as [cmd|] eqn:Ef.
    - apply List.find_some in Ef as [Hin _].
      assert (Forall (λ c, plain (usage c) ∧ zlen (usage c) ≤ 100) tt_g_shcmd) as Hall by (repeat (constructor; [split; [by apply all_printable|by vm_compute]|]); constructor).
      rewrite List.Forall_forall in Hall. destruct (Hall _ Hin) as [Hu Hz]. apply says_then; [lia|]. eapply says_weaken; [| |by apply says_put]; [pose proof (zlen_nonneg (usage cmd)); lia|by intros a d ->].
    - eapply says_look; [apply find_path_ok|]. destruct (goes F sh nm) as [x|] eqn:E; [|apply path_msg1; [done|done|vm_compute; discriminate|auto]].
      destruct (known_at x (goes_known _ _ E)) as [o Ho]. eapply says_look; [by intros c; apply object_ok|]. destruct (ot_detail _ (co_texts _ (so_conf _ Hsh) x o Ho)) as [Hd Hz].
      apply says_then; [lia|]. eapply says_weaken; [| |by apply says_put, printables_plain]; [pose proof (zlen_nonneg (tt_cfgobj_detail o)); unfold one_cost; lia|]. intros a d ->. by exists o. }
  destruct argv as [|nm [|nm' argv]].
  - eapply says_weaken; [| |apply help_loop_says]; [split; [apply zlen_nonneg|assert (zlen (ended tt_g_sh_line_sep (map help_line tt_g_shcmd)) ≤ 1000) by (vm_compute; discriminate); lia]|done|].
    repeat (constructor; [split; [by apply all_printable|split; [by apply all_printable|by vm_compute]]|]). constructor.
  - apply Forall_cons_1 in Hp as [Hp _], Hl as [Hl _]. by apply (Hone nm []).
  - apply Forall_cons_1 in Hp as [Hp _], Hl as [Hl _]. by apply (Hone nm (nm' :: argv)).
Qed.
End shell.
