(* ===== verification/ShellSet.v ===== *)
(** What the command "set" of [Shell] does to an object: any text that was typed is
    either a value of the object's type, which reaches the user's function, or it is
    refused and nothing changes. *)

From S2P Require Import Prelude MemSpring Buffer BufferFormat SshDef BufCommon Str StrSpec StrRun SshCodec LinkedList CliLine CliEdit Cli CliSession CfgTree CfgForest CfgValue CfgWrite CfgRun Shell ShellOut.
From stdpp Require Import gmap.

#[local] Open Scope Z_scope.

(** ** The value of a text *)

Definition number (max : Z) (conv : list Z → result Z) (of_num : Z → cfg_val) (val : list Z) : result cfg_val :=
  if (zlen val =? 0) || (max <? zlen val) then TT_ERROR TT_E_BADARG
  else match conv val with TT_SUCCESS n => TT_SUCCESS (of_num n) | TT_ERROR _ => TT_ERROR TT_E_BADARG end.
(** What an object makes of a text. *)
Definition takes (o : tt_cfgobj_t) (val : list Z) : result cfg_val :=
  if can_write o then
    match type o with
    | TT_CFGOBJ_U32 => number 10 tt_strtou32 CU32 val
    | TT_CFGOBJ_S32 => number 11 tt_strtos32 CS32 val
    | TT_CFGOBJ_BOOL =>
        if decide (val = __CFG_TRUE) then TT_SUCCESS (CBool true) else if decide (val = __CFG_FALSE) then TT_SUCCESS (CBool false) else TT_ERROR TT_E_BADARG
    | TT_CFGOBJ_STRING => TT_SUCCESS (CStr val)
    | _ => TT_ERROR TT_E_UNSUPPORT
    end
  else TT_ERROR TT_E_UNSUPPORT.

Lemma strtou32_range s n : tt_strtou32 s = TT_SUCCESS n → is_u32 n.
Proof.
  unfold tt_strtou32. destruct (skip_space s) as [|c s']; [done|]. destruct (c =? 45); [done|]. destruct (strtoul (c :: s')) as [v e].
  destruct (negb (ends_well e)); [done|]. destruct (0xFFFFFFFF <? v); [done|]. intros [= <-]. apply u32_range.
Qed.
Lemma strtos32_range s n : tt_strtos32 s = TT_SUCCESS n → - 2 ^ 31 ≤ n < 2 ^ 31.
Proof.
  unfold tt_strtos32. destruct (skip_space s) as [|c s']; [done|]. destruct (strtol (c :: s')) as [v e]. destruct (negb (ends_well e)); [done|].
  destruct (Z.ltb_spec 0x7FFFFFFF v); [done|]. destruct (Z.ltb_spec v (- 2 ^ 31)); [done|]. intros [= <-]. unfold s32. destruct (Z.ltb_spec v 0).
  - rewrite u32_neg by lia. rewrite (proj2 (Z.ltb_ge _ _)) by lia. lia.
  - rewrite u32_small by lia. rewrite (proj2 (Z.ltb_lt _ _)) by lia. lia.
Qed.
Lemma number_ok max conv of_num val w : number max conv of_num val = TT_SUCCESS w → ∃ n, conv val = TT_SUCCESS n ∧ w = of_num n.
Proof. unfold number. destruct (_ || _); [done|]. destruct (conv val) as [n|]; [|done]. intros [= <-]. by exists n. Qed.
Lemma takes_ok o val w : takes o val = TT_SUCCESS w → cstring val → zlen val < 2 ^ 32 → val_ok w ∧ val_type w = type o ∧ can_write o = true.
Proof.
  unfold takes. destruct (can_write o); [|done]. intros Ht Hc Hz. split_and!; [..|done]; destruct (type o) eqn:Et; try done.
  1-2: apply number_ok in Ht as (n & En & ->); cbn; first [by eapply strtou32_range|by eapply strtos32_range].
  3-4: apply number_ok in Ht as (n & En & ->); done.
  all: repeat case_decide; by inversion Ht.
Qed.

Section set.
Context `{Allocator} `{CfgUser}.

(** ** The object's own string *)

Lemma part_append_sub b1 n (Hg : grows b1 [] n) k s b c : part b1 k s b → 0 ≤ k → k + (zlen c + 1) ≤ n → cstring c → zlen c < 2 ^ 32 →
  ∃ b', tt_string_append_sub c 0 (zlen c) b = Ret (TT_SUCCESS tt, b') ∧ part b1 (k + (zlen c + 1)) (s ++ c) b'.
Proof.
  intros Hp Hk Hle Hc Hz. pose proof (zlen_nonneg c). destruct (part_step b1 n Hg k s b (zlen c + 1) Hp) as (Hs & Hrel & Hroom); [lia..|].
  destruct (string_append_sub_ok b s 0 Hs Hrel c 0 (zlen c) Hc) as (b' & E & Hb'); [done|done|lia|lia|done|]. rewrite (proj2 (Z.ltb_ge (zlen c) 0)) in E, Hb' by lia.
  change (Z.to_nat 0) with O in Hb'. rewrite drop_0, take_ge in Hb' by (unfold zlen; lia). exists b'. split; [done|]. destruct Hp as [Hb Hcs].
  split; [eapply becomes_trans; [..|exact Hb|exact Hb']; lia|by apply Forall_app].
Qed.

Lemma store_again m co o g b t w n : objs m !! co = Some o → ext o = XStr g b → str b t 0 → regrows b n → cstring w → zlen w + 1 ≤ n →
  ∃ b', str b' w 0 ∧ regrows b' n ∧ ∀ A (k : M cfg A), (with_str co tt_string_clear;; with_str co (tt_string_append_sub w 0 (zlen w));; k) m =
    k (put_objs (<[co := set_ext (XStr g b') o]> (objs m)) m).
Proof.
  intros Ho He Hs Hre Hw Hn. pose proof (zlen_nonneg w). destruct (clear_again b t 0 n Hs Hre) as (b1 & E1 & Hg & Hsz & Hm); [lia|]. pose proof Hre as (_ & Hr1 & Hr2). pose proof (str_pos b t 0 Hs). pose proof (zlen_nonneg t).
  destruct (part_append_sub b1 n Hg 0 [] b1 w) as (b2 & E2 & Hp2); [by eapply part_start|lia|lia|done|lia|].
  destruct (part_end b1 n Hg _ _ _ Hp2) as [Hs2 Hr]; [lia|by rewrite Hsz|by rewrite Hm|]. exists b2. split; [done|]. split; [done|].
  intros A k. erewrite bind_step by (eapply with_str_step; [exact Ho|exact He|exact E1]).
  erewrite bind_step by (eapply with_str_step; [apply lookup_insert_eq|done|exact E2]). unfold put_objs. cbn. by rewrite insert_insert_eq.
Qed.

(** ** Writing any text *)

(** Only the object's own string is another one. *)
Definition own_changed (o o' : tt_cfgobj_t) (n : Z) : Prop :=
  o' = o ∨ ∃ g s s' t, ext o = XStr g s ∧ o' = set_ext (XStr g s') o ∧ str s' t 0 ∧ regrows s' n.
(** What the variable of a string object holds, the others need not have one. *)
Definition var_ok (m : cfg) (o : tt_cfgobj_t) (v : cfg_val) : Prop := val_type v = type o ∧ val_ok v ∧ ∃ p x, opaque o = Some p ∧ vars m !! p = Some x ∧ holds x v.

Lemma number_write co max conv of_num val on_set m : cstring val → zlen val < 2 ^ 32 →
  (if (zlen val =? 0) || (max <? zlen val) then fail TT_E_BADARG
   else s ← num_buf max val; v ← do_r TT_E_BADARG (call (Ret (conv s))); set_by on_set co (of_num v)) m =
  match number max conv of_num val with TT_SUCCESS w => set_by on_set co w m | TT_ERROR e => Ret (TT_ERROR e, m) end.
Proof.
  intros Hc Hz. unfold number. destruct (zlen val =? 0); [done|]. destruct (Z.ltb_spec max (zlen val)); [done|]. cbn [orb].
  erewrite bind_step by (apply num_buf_ok; [|done]; eapply List.Forall_impl; [|exact Hc]; unfold cchar; cbn; lia). cbv beta. by destruct (conv val).
Qed.

Lemma write_takes m co o v val n : objs m !! co = Some o → obj_ok o → cstring val → zlen val + 1 ≤ n → zlen val < 2 ^ 32 →
  (type o = TT_CFGOBJ_STRING → var_ok m o v) → (∀ g s, ext o = XStr g s → regrows s n) →
  match takes o val with
  | TT_ERROR e => tt_cfgobj_write co val m = Ret (TT_ERROR e, m)
  | TT_SUCCESS w => ∃ o', own_changed o o' n ∧
      tt_cfgobj_write co val m = (if same_str v w then mret tt else set_by (on_set_of (ext o)) co w) (put_objs (<[co := o']> (objs m)) m)
  end.
Proof.
  intros Ho Hok Hc Hn Hz Hvar Hown. assert (put_objs (<[co := o]> (objs m)) m = m) as Em by (rewrite insert_id by done; by destruct m).
  assert (tt_cfgobj_write co val m = match write (itf o) with Some f => if can_write o then call_write f co o val m else Ret (TT_ERROR TT_E_UNSUPPORT, m) | None => Ret (TT_ERROR TT_E_UNSUPPORT, m) end) as Ecw.
  { unfold tt_cfgobj_write. rewrite (bind_step (obj co) _ m _ _ (obj_step _ _ _ Ho)). by destruct (write (itf o)), (can_write o). }
  pose proof (ok_ext _ Hok) as He. unfold ext_ok in He. unfold takes. destruct (can_write o) eqn:Ew; [|by rewrite Ecw; destruct (write (itf o))].
  destruct (type o) eqn:Et, (ext o) eqn:Ee; try done.
  3: destruct He as [He _]; by rewrite Ecw, He. 5: by rewrite Ecw, He.
  3: destruct He as [He (t & Hs)].
  all: rewrite He in Ecw; cbn [write __cfgu32_itf __cfgs32_itf __cfgbool_itf __cfgstr_itf call_write on_set_of] in *.
  - unfold __cfgu32_write in Ecw. rewrite Ee, number_write in Ecw by done. unfold __MAX_U32_LEN in Ecw. destruct (number _ _ _ _) as [w|e] eqn:En; [|done]. exists o. split; [by left|].
    apply number_ok in En as (k & _ & ->). rewrite Em, Ecw. by destruct v.
  - unfold __cfgs32_write in Ecw. rewrite Ee, number_write in Ecw by done. unfold __MAX_S32_LEN in Ecw. destruct (number _ _ _ _) as [w|e] eqn:En; [|done]. exists o. split; [by left|].
    apply number_ok in En as (k & _ & ->). rewrite Em, Ecw. by destruct v.
  - destruct (Hvar eq_refl) as (Hvt & Hv & p & x & Hp & Hx & Hh). rewrite Et in Hvt. destruct v as [| | |s']; try done. destruct x as [| | |cur]; try done. destruct Hh as [rc Hcur], Hv as [Hcs' _].
    destruct (store_again m co o on_set str t val n Ho Ee Hs (Hown _ _ eq_refl) Hc Hn) as (b' & Hb' & Hre & Hstore). set (o' := set_ext (XStr on_set b') o) in *.
    exists o'. split; [right; by exists on_set, str, b', val|]. rewrite Ecw. unfold __cfgstr_write. rewrite Ee, Hstore. erewrite (bind_step (gets id)) by done. cbv beta. unfold id.
    erewrite (bind_step (access _)) by (unfold access, at_var; cbn; by rewrite Hp, Hx). cbv beta iota.
    erewrite (bind_step (access _)) by (unfold access; by rewrite (cstr_of _ _ _ Hcur)).
    destruct (str_cmp_ok b' val 0 Hb' s' Hcs') as (d & Ed & Hd). cbv beta.
    erewrite bind_step by (eapply with_str_look; [apply lookup_insert_eq|done|exact Ed]). cbv beta. cbn [same_str].
    destruct (bool_decide_reflect (s' = val)) as [->|Hne]; [by rewrite (proj2 (Z.eqb_eq d 0)) by tauto|]. rewrite (proj2 (Z.eqb_neq d 0)) by naive_solver.
    erewrite bind_step by (eapply with_str_look; [apply lookup_insert_eq|done|apply (string_cstr_ok b' val 0 Hb')]). done.
  - unfold __cfgbool_write in Ecw. rewrite Ee, !(Z.eqb_sym (zlen val)), !name_same in Ecw by by repeat constructor.
    destruct (decide (val = __CFG_TRUE)) as [->|Ht]; [exists o; split; [by left|rewrite Em, Ecw; by destruct v]|]. rewrite (bool_decide_eq_false_2 _ (not_eq_sym Ht)) in Ecw.
    destruct (decide (val = __CFG_FALSE)) as [->|Hf]; [exists o; split; [by left|rewrite Em, Ecw; by destruct v]|]. by rewrite (bool_decide_eq_false_2 _ (not_eq_sym Hf)) in Ecw.
Qed.
End set.
