(* ===== verification/ShellRun.v ===== *)
(** The commands of [Shell] that change something, and what a whole line does. *)

From Stdlib Require Import String.
From S2P Require Import Prelude MemSpring Buffer BufferFormat SshDef BufCommon Str StrSpec StrRun SshCodec LinkedList CliLine CliEdit Cli CliSession CfgTree CfgForest CfgDestroy CfgValue CfgWrite CfgRun CfgPath CfgList Shell ShellOut ShellArgs ShellSpec ShellSet.
From stdpp Require Import gmap.

#[local] Open Scope Z_scope.
#[local] Open Scope list_scope.

(** ** What a line does *)

(** Nothing but output. *)
Definition only (st : Z) (P : list Z → Prop) (sh : tt_shell_t) (c : tt_cli_t) (a : Z) (d : list Z) (c' : tt_cli_t) (sh' : tt_shell_t) : Prop :=
  a = st ∧ P d ∧ c' = c ∧ sh' = sh.
(** The prompt shows the name [nm], if there is one. *)
Definition reprompted (nm : list Z) (c c' : tt_cli_t) : Prop :=
  ∃ p, c' = set_prefix p (set_titles (title c) (new_sub nm c) (seperator c) c) ∧ str p (prompt_of (title c) (new_sub nm c) (seperator c)) 0.
(** A status that ends a command. *)
Definition status_ok (a : Z) (d : list Z) : Prop := a = TT_CLIOC_NOOUT ∧ d = [] ∨ a = TT_CLIOC_OUT ∨ a = TT_CLIOC_END.

Section answers.
Context `{Allocator} `{CfgUser} (F : forest) (Lmax : Z).

(** The value [w] reaches the user's function, unless it is the string that is there. *)
Definition told (m : cfg) (x : key) (o : tt_cfgobj_t) (w : cfg_val) (m' : cfg) : Prop :=
  ∃ o' vs, own_changed o o' (Lmax + 2) ∧ m' = put_vars vs (put_objs (<[x := o']> (objs m)) m) ∧
    ((∃ v, has_value m o v ∧ same_str v w = true) ∧ vs = vars m ∨
     (∀ v, has_value m o v → same_str v w = false) ∧ match on_set_of (ext o) with Some f => call_on_set f x w (vars m) = Ret vs | None => vs = vars m end).

Section line.
Context (sh : tt_shell_t).
Notation m := (conf sh).
Notation goes := (goes F sh).
Notation only := (λ st P, only st P sh).

Definition cd_answer (argv : list (list Z)) : tt_cli_t → Z → list Z → tt_cli_t → tt_shell_t → Prop :=
  match argv with
  | [] => only TT_CLIOC_NOOUT (λ d, d = [])
  | path :: _ =>
      match goes path with
      | None => only TT_CLIOC_OUT (said (chars "not found: " ++ path))
      | Some x => λ c a d c' sh', ∃ o, objs m !! x = Some o ∧
          if is_dir (type o) then a = TT_CLIOC_NOOUT ∧ d = [] ∧ reprompted (name o) c c' ∧ sh' = set_current x sh
          else only TT_CLIOC_OUT (said (chars "not a directory: " ++ path)) c a d c' sh'
      end
  end.
Definition set_answer (argv : list (list Z)) : tt_cli_t → Z → list Z → tt_cli_t → tt_shell_t → Prop :=
  match argv with
  | path :: val :: _ =>
      match goes path with
      | None => only TT_CLIOC_OUT (said (chars "not found: " ++ path))
      | Some x => λ c a d c' sh', ∃ o, objs m !! x = Some o ∧
          if is_dir (type o) then only TT_CLIOC_OUT (said (chars "set: " ++ path ++ chars ": is a direcoty")) c a d c' sh'
          else
            match takes o val with
            | TT_ERROR e => only TT_CLIOC_OUT (said (op_msg e)) c a d c' sh'
            | TT_SUCCESS w => a = TT_CLIOC_NOOUT ∧ d = [] ∧ c' = c ∧ ∃ m', told m x o w m' ∧ sh' = set_conf m' sh
            end
      end
  | _ => only TT_CLIOC_OUT (said (chars "usage: set [name] [value]"))
  end.
Definition cmd_answer (id : tt_shcmd_id_t) (argv : list (list Z)) : tt_cli_t → Z → list Z → tt_cli_t → tt_shell_t → Prop :=
  match id with
  | TT_SHCMD_LS => only TT_CLIOC_OUT (match argv with [] => ls_text F m (current sh) | [path] => ls_answer F sh path | _ => titled (ls_answer F sh) argv end)
  | TT_SHCMD_CD => cd_answer argv
  | TT_SHCMD_HELP => only TT_CLIOC_OUT (help_answer F sh argv)
  | TT_SHCMD_PWD => only TT_CLIOC_OUT (λ d, d = 47 :: path_of F (Some (root sh)) (current sh))
  | TT_SHCMD_QUIT => only TT_CLIOC_END (λ d, d = [])
  | TT_SHCMD_GET => only TT_CLIOC_OUT (match argv with [] => said (chars "usage: get [name]") | [path] => get_answer F sh path | _ => titled (get_answer F sh) argv end)
  | TT_SHCMD_SET => set_answer argv
  end.
(** An executable object. *)
Definition exe_answer (nm : list Z) (argv : list (list Z)) : tt_cli_t → Z → list Z → tt_cli_t → tt_shell_t → Prop :=
  match goes nm with
  | None => only TT_CLIOC_OUT (said (chars "not found: " ++ nm))
  | Some x => λ c a d c' sh', ∃ o, objs m !! x = Some o ∧
      match ext o with
      | XExe f => c' = c ∧ ∃ r vs out, call_run f x argv tt_g_sh_line_sep (vars m, cli_outbuf c) = Ret (r, (vs, out)) ∧ sh' = set_conf (put_vars vs m) sh ∧
          match r with TT_SUCCESS a' => a = a' ∧ content out = content (cli_outbuf c) ++ d | TT_ERROR _ => a = TT_CLIOC_OUT ∧ said (nm ++ chars ": failed") d end
      | _ => only TT_CLIOC_OUT (said (chars "not executable: " ++ nm)) c a d c' sh'
      end
  end.
End line.

Definition line_answer (line : list Z) (sh : tt_shell_t) (c : tt_cli_t) (a : Z) (d : list Z) (c' : tt_cli_t) (sh' : tt_shell_t) : Prop :=
  match line with
  | [] => only TT_CLIOC_NOOUT (λ d, d = []) sh c a d c' sh'
  | _ => ∃ ws n, words line ws ∧ let sh1 := set_arg ws n sh in
      match ws with
      | [] => only TT_CLIOC_OUT (said (chars "bad input: ")) sh1 c a d c' sh'
      | nm :: argv =>
          match tt_shcmd_find nm with
          | Some cmd => cmd_answer sh1 (run cmd) argv c a d c' sh'
          | None => exe_answer sh1 nm argv c a d c' sh'
          end
      end
  end.
End answers.

(** ** The prompt *)

Notation owned := (option (list Z) * option (list Z) * Z * tt_string_t)%type.

Section run.
Context `{Allocator} `{CfgUser} (Hmt : malloc_total) (F : forest) (I : cfg → Prop) (N V Lmax Pmax R : Z).
Context (HN : 0 ≤ N) (HV : Lmax + 12 ≤ V) (HL : 0 ≤ Lmax) (HL32 : Lmax < 2 ^ 28) (HR : 0 ≤ R).
Notation st := (tt_cli_t * tt_shell_t)%type.
Notation conf_ok := (conf_ok F I N V Lmax).
Notation shell_ok := (shell_ok F I N V Lmax).
Notation one_cost := (one_cost F N V Lmax).

(** Titles, separator and prompt: every name fits behind the title. *)
Record prompt_fits (o : owned) : Prop := {
  pf_again : regrows o.2 (Pmax + 4);
  pf_text : printables (prompt_of o.1.1.1 o.1.1.2 o.1.2);
  pf_len : zlen (prompt_of o.1.1.1 o.1.1.2 o.1.2) ≤ Pmax;
  pf_room : zlen (default [] o.1.1.1) + N + 3 ≤ Pmax;
}.
Definition prompt_part (c : tt_cli_t) : owned := (title c, sub_title c, seperator c, cli_prefix c).
Definition prompted (c : tt_cli_t) : Prop := prompt_fits (prompt_part c) ∧ ∃ P r, str (cli_prefix c) P r ∧ printables P ∧ zlen P ≤ Pmax.

(** What the user's functions have to do: a callback leaves every object a value that
    can be shown; an executable object writes at most [R] bytes, characters and new
    lines, and ends with a status of a command; what they rely on, they keep, and it
    does not depend on the strings inside the objects. *)
Record user_ok : Prop := {
  uo_set m x o f w : conf_ok m → objs m !! x = Some o → on_set_of (ext o) = Some f → val_type w = type o → val_ok w → printables (show w) → zlen (show w) ≤ V →
    ∃ vs, call_on_set f x w (vars m) = Ret vs ∧ vals_ok V (put_vars vs m) ∧ I (put_vars vs m);
  uo_run m x o f argv b n : conf_ok m → objs m !! x = Some o → ext o = XExe f → Forall printables argv → Forall (λ a, zlen a ≤ Lmax) argv →
    out_ok b → rpos b = 0 → 0 ≤ n → room b (R + n) →
    ∃ r vs d b', call_run f x argv tt_g_sh_line_sep (vars m, b) = Ret (r, (vs, b')) ∧ vals_ok V (put_vars vs m) ∧ I (put_vars vs m) ∧ becomes b R (rpos b) (content b ++ d) b' ∧
      match r with TT_SUCCESS a => plain d ∧ status_ok a d | TT_ERROR _ => True end;
  uo_own m x o o' : conf_ok m → objs m !! x = Some o → own_changed o o' (Lmax + 2) → I (put_objs (<[x := o']> (objs m)) m);
}.

(** The prompt and the sub title may change. *)
Definition moved (c c' : tt_cli_t) : Prop := ∃ p u, c' = set_prefix p (set_titles (title c) u (seperator c) c).
(** [o] ends as [Q] says, having written characters and new lines into the output, with
    room for [k] bytes, and leaves the shell and the prompt in order. *)
Definition answers (o : M st Z) (sh : tt_shell_t) (k : Z) (Q : tt_cli_t → Z → list Z → tt_cli_t → tt_shell_t → Prop) : Prop :=
  ∀ c n, prompted c → out_ok (cli_outbuf c) → rpos (cli_outbuf c) = 0 → 0 ≤ n → room (cli_outbuf c) (k + n) →
  ∃ a d b' c' sh', o (c, sh) = Ret (TT_SUCCESS a, (set_out b' c', sh')) ∧ Q c a d c' sh' ∧ plain d ∧ out_with (cli_outbuf c) d n b' ∧ prompted c' ∧ shell_ok sh' ∧
    moved c c' ∧ status_ok a d.

Lemma unmoved c : moved c c.
Proof. exists (cli_prefix c), (sub_title c). by destruct c. Qed.
Lemma says_answers o sh k st P : shell_ok sh → says o sh k (λ a d, a = st ∧ P d) → (st = TT_CLIOC_NOOUT → ∀ d, P d → d = []) → st = TT_CLIOC_NOOUT ∨ st = TT_CLIOC_OUT ∨ st = TT_CLIOC_END →
  answers o sh k (only st P sh).
Proof.
  intros Hsh Ho Hn Hst c n Hp Hok Hr Hnn Hroom. destruct (Ho c n) as (a & d & b' & E & [-> HP] & Hd & Hw); [done..|].
  exists st, d, b', c, sh. split; [exact E|]. split; [done|]. split; [done|]. split; [done|]. split; [done|]. split; [done|]. split; [apply unmoved|].
  destruct Hst as [->|[->| ->]]; [left; auto|by right; left|by right; right].
Qed.
Lemma answers_look {B} (o : M st B) f sh x k Q : (∀ c, o (c, sh) = Ret (TT_SUCCESS x, (c, sh))) → answers (f x) sh k Q → answers (y ← o; f y) sh k Q.
Proof. intros Ho Hf c n Hp Hok Hr Hn Hroom. destruct (Hf c n) as (a & d & b' & c' & sh' & E & H'); [done..|]. exists a, d, b', c', sh'. split; [|done]. by erewrite bind_step by apply Ho. Qed.
Lemma answers_weaken o sh k k' (Q Q' : tt_cli_t → Z → list Z → tt_cli_t → tt_shell_t → Prop) : 0 ≤ k ≤ k' → (∀ c a d c' sh', Q c a d c' sh' → Q' c a d c' sh') → answers o sh k Q → answers o sh k' Q'.
Proof.
  intros Hk HQ Ho c n Hp Hok Hr Hn Hroom. destruct (Ho c n) as (a & d & b' & c' & sh' & E & HQ' & H'); [done..|eapply room_weaken; [|exact Hroom]; lia|].
  exists a, d, b', c', sh'. split; [done|]. split; [by apply HQ|done].
Qed.

(** ** Commands *)

Section cmds.
Context (Hu : user_ok) (sh : tt_shell_t) (Hsh : shell_ok sh).
Notation m := (conf sh).
Notation goes := (goes F sh).

Lemma chars_printable s : forallb printable (chars s) = true → printables (chars s).
Proof. rewrite forallb_forall. intros Hs. apply List.Forall_forall. by intros c Hc%Hs. Qed.
Lemma msg_answers s path s' : printables path → zlen path ≤ Lmax → zlen (chars s) + zlen (chars s') ≤ 500 → forallb printable (chars s) = true → forallb printable (chars s') = true →
  answers (say (chars s ++ path ++ chars s');; mret TT_CLIOC_OUT) sh one_cost (only TT_CLIOC_OUT (said (chars s ++ path ++ chars s')) sh).
Proof.
  intros Hp Hl Hz Hs Hs'. apply says_answers; [done| |done|by right; left]. apply (path_msg F N V Lmax); try done; by apply printables_plain, chars_printable.
Qed.
Lemma msg1_answers s path : printables path → zlen path ≤ Lmax → zlen (chars s) ≤ 500 → forallb printable (chars s) = true →
  answers (say (chars s ++ path);; mret TT_CLIOC_OUT) sh one_cost (only TT_CLIOC_OUT (said (chars s ++ path)) sh).
Proof.
  intros Hp Hl Hz Hs. pose proof (msg_answers s path "" Hp Hl) as Hm. change (chars "") with (@nil Z) in Hm. rewrite app_nil_r in Hm. apply Hm; [|done|done]. change (zlen []) with 0. lia.
Qed.
Lemma quiet_answers a : a = TT_CLIOC_NOOUT ∨ a = TT_CLIOC_END → answers (mret a) sh 0 (only a (λ d, d = []) sh).
Proof. intros Ha. apply says_answers; [done|apply says_ret|done|tauto]. Qed.
Lemma text_answers s : zlen (chars s) ≤ 500 → forallb printable (chars s) = true → answers (say (chars s);; mret TT_CLIOC_OUT) sh one_cost (only TT_CLIOC_OUT (said (chars s)) sh).
Proof. intros Hz Hs. pose proof (msg1_answers s [] ltac:(constructor) HL Hz Hs) as Hm. by rewrite app_nil_r in Hm. Qed.

Lemma one_cost_pos : 0 ≤ one_cost ∧ Lmax + 1000 ≤ one_cost.
Proof. by apply (one_cost_path F N V Lmax). Qed.
Lemma moved_out c p u : set_out (cli_outbuf c) (set_prefix p (set_titles (title c) u (seperator c) c)) = set_prefix p (set_titles (title c) u (seperator c) c).
Proof. by destruct c as [? ? ? ? ? ? ? ? ? [] ? ?]. Qed.
Lemma drop_res_step (o : M st unit) s r s' : o s = Ret (r, s') → drop_res o s = Ret (TT_SUCCESS tt, s').
Proof. intros E. unfold drop_res. by erewrite (bind_step (try o)) by (unfold try; rewrite E; done). Qed.
Lemma current_ok x o : objs m !! x = Some o → is_dir (type o) = true → shell_ok (set_current x sh).
Proof. intros Ho Ht. destruct Hsh as [Hc Hr _ Ha He]. constructor; try done. cbn. by rewrite (dir_obj m F (co_models _ _ _ _ _ _ Hc) x o Ho). Qed.

Lemma new_prompt c nm : printables (prompt_of (title c) (sub_title c) (seperator c)) → zlen (prompt_of (title c) (sub_title c) (seperator c)) ≤ Pmax →
  zlen (default [] (title c)) + N + 3 ≤ Pmax → printables nm → zlen nm ≤ N →
  printables (prompt_of (title c) (new_sub nm c) (seperator c)) ∧ zlen (prompt_of (title c) (new_sub nm c) (seperator c)) ≤ Pmax.
Proof.
  intros Hp Hz Hr Hn Hnl. destruct nm as [|x nm]; [done|]. unfold prompt_of in *. cbn [new_sub sub_text]. apply Forall_app in Hp as [H1 H2]. apply Forall_app in H2 as [_ H2]. split.
  - apply Forall_app. split; [done|]. apply Forall_app. split; [by constructor|done].
  - rewrite !zlen_app, (zlen_cons 58). change (zlen [_; 32]) with 2. lia.
Qed.
Lemma cd_answers argv : Forall printables argv → Forall (λ p, zlen p ≤ Lmax) argv → answers (__cd_run argv) sh one_cost (cd_answer F sh argv).
Proof.
  intros Hp Hl. pose proof one_cost_pos. destruct argv as [|path argv]; [eapply answers_weaken; [| |apply quiet_answers; by left]; [lia|done]|].
  apply Forall_cons_1 in Hp as [Hp _], Hl as [Hl _]. unfold __cd_run, cd_answer. eapply answers_look; [by intros; eapply find_path_ok|].
  destruct (goes path) as [x|] eqn:E; [|by apply msg1_answers].
  destruct (known_at F I N V Lmax sh Hsh x) as [o Ho]; [by eapply goes_known|]. eapply answers_look; [by intros; eapply object_ok|].
  destruct (is_dir (type o)) eqn:Et; cbn [negb].
  - intros c n Hpr Hok Hr Hn Hroom. destruct Hpr as [[Hre Ht Hlen Hroom2] (P & r & Hs & HP & HPl)]. unfold prompt_part in *. cbn [fst snd] in *.
    destruct (new_prompt c (name o) Ht Hlen Hroom2) as [Hpp Hz]; [by apply name_printable, (conf_obj_ok F I N V Lmax sh Hsh x)|by apply ot_name, (co_texts _ _ _ _ _ _ (so_conf _ _ _ _ _ _ Hsh) x)|]. pose proof (printable_cstring _ Hpp) as Hcs.
    destruct (update_prefix_ok c (set_current x sh) (name o) P r (Pmax + 4)) as (p & Eu & Hsp & Hrp); [done|done|lia|done|].
    exists TT_CLIOC_NOOUT, [], (cli_outbuf c), (set_prefix p (set_titles (title c) (new_sub (name o) c) (seperator c) c)), (set_current x sh). split; [|split; [exists o; split; [done|]; rewrite Et; split; [done|]; split; [done|]; split; [by exists p|done]|]].
    + unfold upd_shell. erewrite (bind_step (modify _)) by done. cbn [snd fst].
      erewrite bind_step by (eapply drop_res_step; exact Eu).
      by rewrite moved_out.
    + split; [constructor|]. split; [apply out_refl; [done|eapply room_weaken; [|exact Hroom]; lia]|]. split; [|split; [by eapply current_ok|split; [by eexists _, _|by left]]].
      split; [constructor; try done|]. eexists _, 0. split; [exact Hsp|done].
  - eapply answers_weaken; [split; [|reflexivity]; lia| |by apply msg1_answers]. intros c a d c' sh' Hq. exists o. by rewrite Et.
Qed.

(** *** set *)

Lemma conf_own m0 x o o' : conf_ok m0 → objs m0 !! x = Some o → own_changed o o' (Lmax + 2) → conf_ok (put_objs (<[x := o']> (objs m0)) m0).
Proof.
  intros Hc Ho Hch. pose proof Hc as [[[kids Hinv] Hv] Htx Hvals Hown Huser]. pose proof (uo_own Hu m0 x o o' Hc Ho Hch) as HI. destruct Hch as [->|(g & s & s' & t & Ee & -> & Hs & Hre)].
  { assert (put_objs (<[x := o]> (objs m0)) m0 = m0) as -> by (rewrite insert_id by done; by destruct m0). done. }
  pose proof (ci_obj _ _ Hinv x o Ho) as Hok. assert (type o = TT_CFGOBJ_STRING) as Et.
  { pose proof (ok_ext _ Hok) as He. unfold ext_ok in He. rewrite Ee in He. by destruct (type o). }
  set (o' := set_ext (XStr g s') o) in *. set (m1 := put_objs _ _).
  assert (∀ y oy, objs m1 !! y = Some oy → ∃ oy', objs m0 !! y = Some oy' ∧ (y = x ∧ oy = o' ∧ oy' = o ∨ oy = oy')) as Hback.
  { intros y oy. cbn. destruct (decide (y = x)) as [->|]; [rewrite lookup_insert_eq; intros [= <-]; exists o; auto|rewrite lookup_insert_ne by done; intros ?; exists oy; auto]. }
  constructor.
  - split; [exists kids; apply (inv_upd m0 kids x o o' Hinv Ho); [by eapply set_str_ok|done|done|by rewrite Ee]|].
    intros y. rewrite Hv. unfold view, parent. cbn. destruct (decide (y = x)) as [->|]; [by rewrite lookup_insert_eq, Ho|by rewrite lookup_insert_ne].
  - intros y oy (oy' & Ho' & [(-> & -> & ->)| ->])%Hback; [|by eapply Htx]. destruct (Htx x o Ho). by constructor.
  - intros y oy (oy' & Ho' & [(-> & -> & ->)| ->])%Hback Ht1 Ht2; [|by eapply Hvals]. exact (Hvals x o Ho Ht1 Ht2).
  - intros y oy g0 s0 (oy' & Ho' & [(-> & -> & ->)| ->])%Hback Hx; [by injection Hx as <- <-|by eapply Hown].
  - exact HI.
Qed.
Lemma conf_vars m0 vs : conf_ok m0 → vals_ok V (put_vars vs m0) → I (put_vars vs m0) → conf_ok (put_vars vs m0).
Proof.
  intros [[[kids [? ? ? ? ? Hup]] Hv] Htx Hvals Hown _] Hn HI. constructor; try done. split; [|done]. exists kids. constructor; try done.
  intros x Hx. destruct (Hup x Hx) as [l Hl]. exists l. eapply up_ext; done.
Qed.
Lemma shell_conf m' : conf_ok m' → shell_ok (set_conf m' sh).
Proof. intros Hc. destruct Hsh. by constructor. Qed.

(** A value that was typed can be shown. *)
Lemma digits_printable n v : 0 ≤ v < 10 ^ Z.of_nat n → (0 < n)%nat → printables (digits n v).
Proof.
  intros Hv Hn. destruct (digits_scan n v 0 [] Hv Hn) as [_ Hf]. eapply List.Forall_impl; [|exact Hf]. intros c Hc. unfold printable. cbn in Hc. apply andb_true_iff. lia.
Qed.
Lemma typed_shows o val w : takes o val = TT_SUCCESS w → printables val → zlen val ≤ Lmax → printables (show w) ∧ zlen (show w) ≤ V.
Proof.
  intros Ht Hp Hl. destruct (takes_ok o val w Ht) as (Hok & Hty & _); [by apply printable_cstring|lia|]. destruct w as [n|n|b|s]; cbn [val_ok show] in *.
  - unfold is_u32 in Hok. split; [apply digits_printable; lia|]. pose proof (print_len n). lia.
  - destruct (print_d_fits n Hok) as [_ Hd]. split; [|lia]. unfold print_d. destruct (n <? 0) eqn:E; [constructor; [done|]|]; apply digits_printable; lia.
  - split; [destruct b; by repeat constructor|]. destruct b; cbn; unfold zlen; cbn; lia.
  - assert (s = val) as ->. { revert Ht. unfold takes. destruct (can_write o); [|done]. rewrite <- Hty. by intros [= <-]. }
    split; [apply Forall_app; split; [by repeat constructor|apply Forall_app; split; [done|by repeat constructor]]|]. rewrite !zlen_app. change (zlen [34]) with 1. lia.
Qed.

Lemma str_unique b s s' r r' : str b s r → str b s' r' → s = s'.
Proof. intros H1 H2. pose proof (st_content _ _ _ H1) as E1. rewrite (st_content _ _ _ H2) in E1. by apply app_inj_tail in E1 as [-> _]. Qed.
Lemma value_unique m0 o v v' : has_value m0 o v → has_value m0 o v' → v = v'.
Proof.
  intros (Ht & _ & p & x & Hp & Hx & Hh) (Ht' & _ & p' & x' & Hp' & Hx' & Hh'). rewrite Hp in Hp'. injection Hp' as <-. rewrite Hx in Hx'. injection Hx' as <-.
  rewrite Ht in Ht'. destruct v, v', x; cbn in *; try done; try congruence. destruct Hh as [r Hs], Hh' as [r' Hs']. f_equal. by eapply str_unique.
Qed.

Lemma conf_write x o val : objs m !! x = Some o → type o ≠ TT_CFGOBJ_DIR → printables val → zlen val ≤ Lmax →
  match takes o val with
  | TT_ERROR e => tt_cfgobj_write x val m = Ret (TT_ERROR e, m)
  | TT_SUCCESS w => ∃ m', tt_cfgobj_write x val m = Ret (TT_SUCCESS tt, m') ∧ told Lmax m x o w m' ∧ conf_ok m'
  end.
Proof.
  intros Ho Ht Hp Hl. pose proof (so_conf _ _ _ _ _ _ Hsh) as Hc. pose proof (conf_obj_ok F I N V Lmax sh Hsh x o Ho) as Hok.
  assert (cstring val) as Hcs by by apply printable_cstring.
  assert (∀ w, takes o val = TT_SUCCESS w → type o ≠ TT_CFGOBJ_EXE) as Hexe by (intros w Hw E; unfold takes in Hw; rewrite E in Hw; by destruct (can_write o)).
  assert (∃ v, (type o = TT_CFGOBJ_STRING → var_ok m o v) ∧ (type o ≠ TT_CFGOBJ_EXE → has_value m o v)) as (v & Hvar & Hhas).
  { destruct (decide (type o = TT_CFGOBJ_EXE)) as [E|E]; [exists (CBool true); split; [rewrite E; done|done]|].
    destruct (co_vals _ _ _ _ _ _ Hc x o Ho Ht E) as (v & Hv & _). exists v. split; [|done]. intros _. destruct Hv as (? & ? & ?). by split. }
  pose proof (write_takes m x o v val (Lmax + 2) Ho Hok Hcs ltac:(lia) ltac:(lia) Hvar ltac:(intros; by eapply (co_own _ _ _ _ _ _ Hc))) as Hw.
  destruct (takes o val) as [w|e] eqn:Etk; [|done]. destruct Hw as (o' & Hch & ->). pose proof (conf_own m x o o' Hc Ho Hch) as Hc1. set (m1 := put_objs _ _) in *.
  destruct (takes_ok o val w Etk Hcs ltac:(lia)) as (Hwok & Hwt & _). destruct (typed_shows o val w Etk Hp Hl) as [Hsp Hsl].
  specialize (Hhas (Hexe w eq_refl)). assert (put_vars (vars m) m1 = m1) as Em by done.
  destruct (same_str v w) eqn:Esame.
  - exists m1. split; [done|]. split; [|done]. exists o', (vars m). split; [done|]. split; [done|]. left. split; [by exists v|done].
  - assert (∀ v', has_value m o v' → same_str v' w = false) as Hdiff by (intros v' Hv'; by rewrite (value_unique _ _ _ _ Hv' Hhas)).
    assert (on_set_of (ext o') = on_set_of (ext o)) as Eon by (destruct Hch as [->|(g & s & s' & t & Ee & -> & _)]; [done|cbn; by rewrite Ee]).
    unfold set_by. destruct (on_set_of (ext o)) as [f|] eqn:Ef; cycle 1.
    { exists m1. split; [done|]. split; [|done]. exists o', (vars m). split; [done|]. split; [done|]. right. by rewrite Ef. }
    destruct (uo_set Hu m1 x o' f w Hc1) as (vs & Ecall & Hvals & HI); [apply lookup_insert_eq|done|by destruct Hch as [->|(?&?&?&?&?&->&_)]|done..|].
    exists (put_vars vs m1). rewrite Ecall. split; [done|]. split; [|by apply conf_vars]. exists o', vs. split; [done|]. split; [done|]. right. by rewrite Ef.
Qed.

Lemma on_conf_step {A} (o : M cfg A) c r m' : o m = Ret (r, m') → on_conf o (c, sh) = Ret (r, (c, set_conf m' sh)).
Proof. intros E. unfold on_conf, zoom. cbn [snd fst]. by rewrite E. Qed.
Lemma restored (b : tt_buf_t) : tt_buf_restore_rwp (rpos b, wpos b) b = Ret (TT_SUCCESS tt, b).
Proof. by destruct b. Qed.
Lemma op_msg_fits e : plain (op_msg e) ∧ zlen (op_msg e) + 1 ≤ 500.
Proof. destruct e; (split; [by apply all_printable|by vm_compute]). Qed.

(** An operation that fails without output: the message. *)
Lemma refused_answers (o : M st unit) msg (k : result unit → M st Z) e : (∀ c, o (c, sh) = Ret (TT_ERROR e, (c, sh))) → plain (msg e) → zlen (msg e) + 1 ≤ one_cost → k (TT_ERROR e) = mret TT_CLIOC_OUT →
  answers (r ← guarded o msg; k r) sh one_cost (only TT_CLIOC_OUT (said (msg e)) sh).
Proof.
  intros Ho Hm Hz Hk. apply says_answers; [done| |done|by right; left]. intros c n Hok Hr Hn Hroom.
  destruct (says_msg sh (msg e) one_cost Hm Hz c n) as (a & d & b' & E & H'); [done..|]. exists a, d, b'. split; [|done]. rewrite <- E. unfold guarded.
  assert ((rw ← on_out tt_buf_backup_rwp; r ← try o; match r with TT_SUCCESS _ => mret r | TT_ERROR e => on_out (tt_buf_restore_rwp rw);; say (msg e);; mret r end) (c, sh) = (say (msg e);; mret (TT_ERROR e)) (c, sh)) as E1.
  { erewrite bind_step by apply backup_step. cbv beta. erewrite (bind_step (try o)) by (unfold try; rewrite Ho; done). cbv beta iota.
    erewrite (bind_step (on_out (tt_buf_restore_rwp _))) by (apply (on_out_step _ c); apply restored). by rewrite set_out_id. }
  unfold mbind, M_bind, bind in *. rewrite E1. cbn. destruct (say (msg e) (c, sh)) as [[[u|] s]| | |]; cbn; [by rewrite Hk|done..].
Qed.

Lemma set_answers argv : Forall printables argv → Forall (λ p, zlen p ≤ Lmax) argv → answers (__set_run argv) sh one_cost (set_answer F Lmax sh argv).
Proof.
  intros Hp Hl. pose proof one_cost_pos. unfold __set_run, set_answer. destruct argv as [|path [|val argv]]; [by apply text_answers..|].
  apply Forall_cons_1 in Hp as [Hp [Hpv _]%Forall_cons_1], Hl as [Hl [Hlv _]%Forall_cons_1]. eapply answers_look; [by intros; eapply find_path_ok|].
  destruct (goes path) as [x|] eqn:E; [|by apply msg1_answers].
  destruct (known_at F I N V Lmax sh Hsh x) as [o Ho]; [by eapply goes_known|]. eapply answers_look; [by intros; eapply object_ok|].
  destruct (is_dir (type o)) eqn:Et.
  { eapply answers_weaken; [split; [|reflexivity]; lia| |by apply msg_answers]. intros c a d c' sh' Hq. exists o. by rewrite Et. }
  assert (type o ≠ TT_CFGOBJ_DIR) as Hnd by by apply is_dir_false. pose proof (conf_write x o val Ho Hnd Hpv Hlv) as Hw. destruct (takes o val) as [w|e] eqn:Etk.
  - destruct Hw as (m' & E' & Htold & Hc'). intros c n Hpr Hok Hr Hn Hroom.
    exists TT_CLIOC_NOOUT, [], (cli_outbuf c), c, (set_conf m' sh). split; [|split; [exists o; split; [done|]; rewrite Et, Etk; split; [done|]; split; [done|]; split; [done|]; by exists m'|]].
    + rewrite set_out_id. erewrite bind_step; [|unfold guarded; erewrite bind_step by apply backup_step; cbv beta; erewrite (bind_step (try _)) by (unfold try; rewrite (on_conf_step _ _ _ _ E'); done); done]. done.
    + split; [constructor|]. split; [apply out_refl; [done|eapply room_weaken; [|exact Hroom]; lia]|]. split; [done|]. split; [by apply shell_conf|]. split; [apply unmoved|by left].
  - destruct (op_msg_fits e) as [Hm Hz]. eapply answers_weaken; [split; [|reflexivity]; lia| |apply (refused_answers _ op_msg _ e); [|done|lia|done]].
    + intros c a d c' sh' Hq. exists o. by rewrite Et, Etk.
    + intros c. rewrite (on_conf_step _ _ _ _ Hw). by destruct sh.
Qed.

(** *** Executable objects *)

Lemma exe_ext x o : objs m !! x = Some o → bool_decide (type o = TT_CFGOBJ_EXE) = match ext o with XExe _ => true | _ => false end.
Proof.
  intros Ho. pose proof (ok_ext _ (conf_obj_ok F I N V Lmax sh Hsh x o Ho)) as He. unfold ext_ok in He. by destruct (type o), (ext o).
Qed.
Lemma run_exe_step x o f argv c r vs b' : objs m !! x = Some o → ext o = XExe f → call_run f x argv tt_g_sh_line_sep (vars m, cli_outbuf c) = Ret (r, (vs, b')) →
  run_exe x argv (c, sh) = Ret (r, (set_out b' c, set_conf (put_vars vs m) sh)).
Proof. intros Ho He Ec. unfold run_exe. cbn [fst snd]. unfold tt_cfgexe_run. by rewrite Ho, He, Ec. Qed.

Lemma exe_answers nm argv : printables nm → zlen nm ≤ Lmax → Forall printables argv → Forall (λ p, zlen p ≤ Lmax) argv →
  answers (co ← find_path nm;
    match co with
    | None => say (chars "not found: " ++ nm);; mret TT_CLIOC_OUT
    | Some co =>
        o ← object co;
        if negb (bool_decide (type o = TT_CFGOBJ_EXE)) then say (chars "not executable: " ++ nm);; mret TT_CLIOC_OUT
        else
          rw ← on_out tt_buf_backup_rwp;
          res ← try (run_exe co argv);
          match res with
          | TT_SUCCESS status => mret status
          | TT_ERROR _ => on_out (tt_buf_restore_rwp rw);; say (nm ++ chars ": failed");; mret TT_CLIOC_OUT
          end
    end) sh (R + one_cost) (exe_answer F sh nm argv).
Proof.
  intros Hp Hl Hpa Hla. pose proof one_cost_pos. unfold exe_answer. eapply answers_look; [by intros; eapply find_path_ok|].
  destruct (goes nm) as [x|] eqn:E; [|eapply answers_weaken; [split; [|assert (one_cost ≤ R + one_cost) by lia; eassumption]; lia|done|by apply msg1_answers]].
  destruct (known_at F I N V Lmax sh Hsh x) as [o Ho]; [by eapply goes_known|]. eapply answers_look; [by intros; eapply object_ok|].
  rewrite (exe_ext x o Ho). destruct (ext o) as [| | | | |f] eqn:Ee; cbn [negb].
  1-5: eapply answers_weaken; [split; [|assert (one_cost ≤ R + one_cost) by lia; eassumption]; lia| |by apply msg1_answers]; intros c a d c' sh' Hq; exists o; by rewrite Ee.
  intros c n Hpr Hok Hr Hn Hroom.
  destruct (uo_run Hu m x o f argv (cli_outbuf c) (one_cost + n)) as (r & vs & d & b' & Ec & Hvals & HI & Hb & Hres); [apply Hsh|done..|lia|by rewrite Z.add_assoc|].
  pose proof (conf_vars m vs (so_conf _ _ _ _ _ _ Hsh) Hvals HI) as Hc'. pose proof (run_exe_step x o f argv c r vs b' Ho Ee Ec) as Er. set (sh' := set_conf (put_vars vs m) sh) in *.
  destruct r as [a|e].
  - destruct Hres as [Hd Hst]. exists a, d, b', c, sh'. split; [|split].
    + erewrite bind_step by apply backup_step. cbv beta. by erewrite (bind_step (try (run_exe x argv))) by (unfold try; rewrite Er; done).
    + exists o. split; [done|]. rewrite Ee. split; [done|]. exists (TT_SUCCESS a), vs, b'. split; [exact Ec|]. split; [done|]. split; [done|by apply Hb].
    + split; [done|]. split; [apply (becomes_out _ R); [done|done|done|eapply room_weaken; [|exact Hroom]; lia|exact Hb]|]. split; [done|]. split; [by apply shell_conf|]. split; [apply unmoved|exact Hst].
  - destruct (restore_ok _ _ _ _ (out_wf _ Hok) HR Hb) as [Ere Hb2]. set (b2 := set_rpos _ _) in *.
    assert (out_with (cli_outbuf c) [] (one_cost + n) b2) as Hw2.
    { eapply (becomes_out _ R); [done|done|lia|by rewrite Z.add_assoc|by rewrite app_nil_r]. }
    assert (plain (nm ++ chars ": failed")) as Hm by (apply plain_app; [by apply printables_plain|by apply all_printable]).
    assert (zlen (nm ++ chars ": failed") + 1 ≤ one_cost) as Hz by (rewrite zlen_app; change (zlen (chars ": failed")) with 8; lia).
    destruct (says_msg sh' (nm ++ chars ": failed") one_cost Hm Hz (set_out b2 c) n) as (a & d' & b3 & E3 & [-> Hd'] & Hpl & Hw3); [apply Hw2|rewrite <- Hr; apply Hw2|done|apply Hw2|].
    exists TT_CLIOC_OUT, d', b3, c, sh'. split; [|split].
    + erewrite bind_step by apply backup_step. cbv beta. erewrite (bind_step (try (run_exe x argv))) by (unfold try; rewrite Er; done). cbv beta iota.
      erewrite (bind_step (on_out (tt_buf_restore_rwp _))) by (apply (on_out_step _ (set_out b' c)); exact Ere). exact E3.
    + exists o. split; [done|]. rewrite Ee. split; [done|]. by exists (TT_ERROR e), vs, b'.
    + split; [done|]. split; [by eapply (out_trans _ [])|]. split; [done|]. split; [by apply shell_conf|]. split; [apply unmoved|by right; left].
Qed.

(** *** Every command *)

Definition line_cost : Z := Lmax * (Lmax + one_cost + 4) + R + one_cost.

Lemma titled_answers single answer argv : (∀ path, printables path → zlen path ≤ Lmax → says (single path) sh one_cost (λ a d, a = TT_CLIOC_OUT ∧ answer path d)) →
  Forall printables argv → Forall (λ p, zlen p ≤ Lmax) argv → zlen argv ≤ Lmax → answers (multiple single argv) sh line_cost (only TT_CLIOC_OUT (titled answer argv) sh).
Proof.
  intros Hs Hp Hl Hz. pose proof one_cost_pos. pose proof (zlen_nonneg argv).
  assert (0 ≤ zlen argv * (Lmax + one_cost + 4) ≤ Lmax * (Lmax + one_cost + 4)) as [Hz1 Hz2] by (split; [apply Z.mul_nonneg_nonneg; lia|apply Z.mul_le_mono_nonneg_r; lia]).
  eapply answers_weaken; [| |apply says_answers; [done|by apply (multiple_says F N V Lmax HN HV HL sh)|done|by right; left]]; [unfold line_cost; lia|done].
Qed.
Lemma one_weaken o Q : answers o sh one_cost Q → answers o sh line_cost Q.
Proof.
  intros Ho. pose proof one_cost_pos. assert (0 ≤ Lmax * (Lmax + one_cost + 4)) by (apply Z.mul_nonneg_nonneg; lia). eapply answers_weaken; [|done|exact Ho]. unfold line_cost. lia.
Qed.
Lemma says_one o P : says o sh one_cost (λ a d, a = TT_CLIOC_OUT ∧ P d) → answers o sh line_cost (only TT_CLIOC_OUT P sh).
Proof. intros Ho. apply one_weaken, says_answers; [done|done|done|by right; left]. Qed.

Lemma cmd_answers id argv : Forall printables argv → Forall (λ p, zlen p ≤ Lmax) argv → zlen argv ≤ Lmax → answers (run_cmd id argv) sh line_cost (cmd_answer F Lmax sh id argv).
Proof.
  intros Hp Hl Hz. assert (is_Some (F !! current sh)) as Hcur by apply dir_some, Hsh. destruct id; cbn [run_cmd cmd_answer].
  - destruct argv as [|path [|path' argv]]; [apply says_one| |].
    + unfold __ls_run, __ls_current. apply says_shell. by apply (ls_at_says F I N V Lmax).
    + apply Forall_cons_1 in Hp as [Hp _], Hl as [Hl _]. apply says_one. by apply (ls_single_says F I N V Lmax).
    + apply titled_answers; [|done..]. intros p Hpp Hpl. by apply (ls_single_says F I N V Lmax).
  - by apply one_weaken, cd_answers.
  - apply says_one. by apply (help_says F I N V Lmax).
  - apply says_one. by apply (pwd_says F I N V Lmax).
  - pose proof one_cost_pos. apply one_weaken. eapply answers_weaken; [| |apply quiet_answers; by right]; [lia|done].
  - destruct argv as [|path [|path' argv]]; [by apply one_weaken, text_answers| |].
    + apply Forall_cons_1 in Hp as [Hp _], Hl as [Hl _]. apply says_one. by apply (get_single_says F I N V Lmax).
    + apply titled_answers; [|done..]. intros p Hpp Hpl. by apply (get_single_says F I N V Lmax).
  - by apply one_weaken, set_answers.
Qed.
End cmds.

(** *** A line *)

Lemma seq_step {S A B} (u : M S unit) (t : M S A) (k : A → M S B) s a s' : (u;; t) s = Ret (TT_SUCCESS a, s') → (u;; r ← t; k r) s = k a s'.
Proof.
  unfold mbind, M_bind, bind. destruct (u s) as [[[v|] s1]| | |]; cbn; try done. destruct (t s1) as [[[r|] s2]| | |]; cbn; try done. by intros [= -> ->].
Qed.
Lemma args_step line c sh ws : words line ws → zlen line ≤ Lmax → shell_ok sh → ∃ n,
  (upd_shell (λ s, set_arg [] (arg_size s) s);; try (__parse_arg line)) (c, sh) = Ret (TT_SUCCESS (TT_SUCCESS tt), (c, set_arg ws n sh)) ∧ shell_ok (set_arg ws n sh).
Proof.
  intros Hws Hl [Hc Hr Hcu Ha He]. destruct (words_len line ws Hws) as [Hn _]. pose proof (zlen_nonneg ws).
  destruct (parse_loop_ok Hmt line ws Hws (S (length line)) c (set_arg [] (arg_size sh) sh)) as (n & E & Hnn); [lia|split; cbn [arg arg_size set_arg]; change (zlen (@nil (list Z))) with 0; lia|cbn [arg set_arg]; change (zlen (@nil (list Z))) with 0; lia|].
  cbn [arg arg_size set_arg app] in *. change (zlen (@nil (list Z))) with 0 in Hnn. exists n. split.
  - unfold upd_shell. erewrite (bind_step (modify _)) by done. cbn [fst snd]. unfold try, __parse_arg. by rewrite E.
  - constructor; cbn; try done. lia.
Qed.

Lemma on_cmd_answers (Hu : user_ok) line sh : shell_ok sh → printables line → zlen line ≤ Lmax → answers (__sh_on_cmd line) sh line_cost (line_answer F Lmax line sh).
Proof.
  intros Hsh Hp Hl. destruct (words_exist line) as [ws Hws]. pose proof one_cost_pos. assert (0 ≤ Lmax * (Lmax + one_cost + 4)) by (apply Z.mul_nonneg_nonneg; lia).
  destruct (words_len line ws Hws) as [Hn Hwl]. pose proof (words_chars _ line ws Hws Hp) as Hwp. unfold __sh_on_cmd, line_answer.
  destruct line as [|x line]; [eapply (answers_weaken _ _ 0); [unfold line_cost; lia|done|apply quiet_answers; [done|by left]]|]. set (l := x :: line) in *.
  intros c n0 Hpr Hok Hr Hnn Hroom. destruct (args_step l c sh ws Hws Hl Hsh) as (n & Ea & Hsh1). set (sh1 := set_arg ws n sh) in *.
  assert (Forall (λ w, zlen w ≤ Lmax) ws) as Hws2 by (eapply List.Forall_impl; [|exact Hwl]; cbn; lia).
  assert (∀ (k : result unit → M st Z), (upd_shell (λ s, set_arg [] (arg_size s) s);; r ← try (__parse_arg l); k r) (c, sh) = k (TT_SUCCESS tt) (c, sh1)) as Estep.
  { intros k. by eapply seq_step. }
  rewrite Estep. cbv beta.
  assert (∀ (o : M st Z) Q, answers o sh1 line_cost Q → (∀ a d c' sh', Q c a d c' sh' → ∃ ws n, words l ws ∧ let sh1 := set_arg ws n sh in
      match ws with
      | [] => only TT_CLIOC_OUT (said (chars "bad input: ")) sh1 c a d c' sh'
      | nm :: argv => match tt_shcmd_find nm with Some cmd => cmd_answer F Lmax sh1 (run cmd) argv c a d c' sh' | None => exe_answer F sh1 nm argv c a d c' sh' end
      end) → ∃ a d b' c' sh', o (c, sh1) = Ret (TT_SUCCESS a, (set_out b' c', sh')) ∧ (∃ ws n, words l ws ∧ let sh1 := set_arg ws n sh in
      match ws with
      | [] => only TT_CLIOC_OUT (said (chars "bad input: ")) sh1 c a d c' sh'
      | nm :: argv => match tt_shcmd_find nm with Some cmd => cmd_answer F Lmax sh1 (run cmd) argv c a d c' sh' | None => exe_answer F sh1 nm argv c a d c' sh' end
      end) ∧ plain d ∧ out_with (cli_outbuf c) d n0 b' ∧ prompted c' ∧ shell_ok sh' ∧ moved c c' ∧ status_ok a d) as Hfin.
  { intros o Q Ho HQ. destruct (Ho c n0) as (a & d & b' & c' & sh' & E & Hq & H'); [done..|]. exists a, d, b', c', sh'. split; [done|]. split; [by apply HQ|done]. }
  unfold the_shell. erewrite (bind_step (gets snd)) by done. cbn [snd]. change (arg sh1) with ws. destruct ws as [|nm argv] eqn:Ews.
  { eapply Hfin; [by apply one_weaken, text_answers|]. intros a d c' sh' Hq. by exists [], n. }
  apply Forall_cons_1 in Hwp as [Hpn Hpa], Hws2 as [Hln Hla]. rewrite zlen_cons in Hn.
  destruct (tt_shcmd_find nm) as [cmd|] eqn:Ef.
  - eapply Hfin; [apply (cmd_answers Hu sh1 Hsh1); [done..|lia]|]. intros a d c' sh' Hq. exists (nm :: argv), n. split; [done|]. cbv zeta. by rewrite Ef.
  - eapply Hfin; [eapply (answers_weaken _ _ (R + one_cost)); [unfold line_cost; lia|intros c1 a d c' sh' Hq; exact Hq|by apply (exe_answers Hu sh1 Hsh1)]|]. intros a d c' sh' Hq. exists (nm :: argv), n. split; [done|]. cbv zeta. by rewrite Ef.
Qed.

End run.
