(* ===== verification/ShellSession.v ===== *)
(** The shell of [Shell] as the user of the command line: its functions keep the contract
    of [CliSession], so that a session with the shell stays in order whatever is typed. *)

From Stdlib Require Import String.
From S2P Require Import Prelude MemSpring Buffer BufferFormat SshDef BufCommon Str StrSpec StrRun SshCodec LinkedList CliLine CliEdit Cli CliRun CliSession CfgTree CfgForest CfgDestroy CfgValue CfgWrite CfgRun CfgPath CfgList CfgComplete Shell ShellOut ShellArgs ShellSpec ShellSet ShellRun.
From stdpp Require Import gmap sorting.

#[local] Open Scope Z_scope.
#[local] Open Scope list_scope.

(** ** What a completion offers *)

Definition short (k : Z) (l : list Z) : Prop := printables l ∧ zlen l ≤ k.

Lemma short_drop k l n : short k l → short k (drop n l).
Proof. intros [Hp Hz]. split; [by apply Forall_drop|]. unfold zlen in *. rewrite length_drop. lia. Qed.
Lemma short_prefix k l p : p `prefix_of` l → short k l → short k p.
Proof. intros [l' ->] [Hp Hz]. apply Forall_app in Hp as [Hp _]. rewrite zlen_app in Hz. pose proof (zlen_nonneg l'). split; [done|lia]. Qed.
Lemma short_join k ls : 0 ≤ k → Forall (short k) ls → short (zlen ls * (k + 1)) (CliRun.join ls).
Proof.
  intros Hk. induction 1 as [|l ls [Hp Hz] Hls [IHp IHz]]; [by split; [constructor|]|]. cbn [CliRun.join]. rewrite zlen_cons. pose proof (zlen_nonneg ls). destruct ls as [|l' ls].
  - split; [done|change (zlen (@nil (list Z))) with 0; lia].
  - split; [apply Forall_app; split; [done|by constructor]|]. rewrite zlen_app, zlen_cons. lia.
Qed.
Lemma short_lcp k ls : 0 ≤ k → Forall (short k) ls → short k (lcp_all ls).
Proof.
  intros Hk Hls. destruct ls as [|l ls]; [by split; [constructor|]|]. pose proof (proj1 (lcp_all_spec (l :: ls) (lcp_all (l :: ls)) ltac:(done)) ltac:(done)) as Hp.
  apply Forall_cons_1 in Hp as [Hp _], Hls as [Hl _]. by eapply short_prefix.
Qed.
Lemma short_weaken k k' l : k ≤ k' → short k l → short k' l.
Proof. intros ? [? ?]. split; [done|lia]. Qed.

Lemma matches_sub (P : list Z → Prop) cur ls : Forall P ls → Forall P (matches cur ls) ∧ zlen (matches cur ls) ≤ zlen ls.
Proof.
  unfold matches. induction 1 as [|l ls Hl _ [IH1 IH2]]; [done|]. cbn. rewrite zlen_cons. destruct (is_match cur l); [rewrite zlen_cons; split; [by constructor|lia]|split; [done|lia]].
Qed.
Lemma completion_short k cur ls : 0 ≤ k → Forall (short k) ls → short (zlen ls * (k + 1) + k) (completion cur ls).2.
Proof.
  intros Hk Hls. pose proof (zlen_nonneg ls). assert (0 ≤ zlen ls * (k + 1)) by (apply Z.mul_nonneg_nonneg; lia). unfold completion. destruct cur as [cur|]; [|cbn [snd]; eapply short_weaken; [|by apply (short_join k)]; lia].
  destruct (matches_sub _ cur ls Hls) as [Hm Hz]. destruct (matches cur ls) as [|o [|o' m]] eqn:Em; [cbn [snd]; split; [constructor|change (zlen []) with 0; lia]| |].
  - apply Forall_cons_1 in Hm as [Ho _]. cbn [snd]. eapply short_weaken; [|by apply short_drop]. lia.
  - case_bool_decide; cbn [snd].
    + eapply short_weaken; [|by apply (short_join k)]. assert (zlen (o :: o' :: m) * (k + 1) ≤ zlen ls * (k + 1)) by (apply Z.mul_le_mono_nonneg_r; lia). lia.
    + eapply short_weaken; [|apply (short_lcp k)]; [lia|done|]. unfold rests. rewrite Em. apply Forall_fmap. eapply List.Forall_impl; [|exact Hm]. intros l Hl. by apply short_drop.
Qed.

(** Options with different initials complete anything that is typed. *)
Lemma one_match cur ls : cur ≠ [] → cstring cur → NoDup (hd 0 <$> ls) → (length (matches cur ls) ≤ 1)%nat.
Proof.
  intros Hne Hc. assert (∀ o, is_match cur o = true → hd 0 o = hd 0 cur) as Hhd.
  { intros o [k ->]%(match_prefix cur o Hc). by destruct cur. }
  assert (∀ ls, hd 0 cur ∉ (hd 0 <$> ls) → matches cur ls = []) as Hnone.
  { clear ls. intros ls. induction ls as [|l ls IH]; [done|]. cbn. intros [Hx Hl]%not_elem_of_cons. destruct (is_match cur l) eqn:E; [by rewrite (Hhd l E) in Hx|by apply IH]. }
  induction ls as [|l ls IH]; [cbn; lia|]. cbn. intros [Hl Hn]%NoDup_cons. destruct (is_match cur l) eqn:E; [|by apply IH].
  rewrite (Hhd l E) in Hl. pose proof (Hnone ls Hl) as Em. unfold matches in Em. rewrite Em. cbn. lia.
Qed.
Lemma commands_complete cur : cstring cur → lasting_all (rests cur tt_g_shcmd_name).
Proof.
  intros Hc. destruct (decide (cur = [])) as [->|Hne]; [vm_compute; repeat split; discriminate|].
  assert (NoDup (hd 0 <$> tt_g_shcmd_name)) as Hn by (apply (bool_decide_unpack _); vm_compute; exact I).
  pose proof (one_match cur tt_g_shcmd_name Hne Hc Hn) as H1. unfold rests. destruct (matches cur tt_g_shcmd_name) as [|o [|o' m]]; [done|done|cbn in H1; lia].
Qed.
Lemma commands_short : Forall (short 4) tt_g_shcmd_name.
Proof. repeat (constructor; [split; [by repeat constructor|by vm_compute]|]). constructor. Qed.

Lemma offer_short k tail es : 1 ≤ k → Forall (λ e : entry, short k e.2) es → short (zlen es * (k + 1) + k + 1) (offer tail es).2.
Proof.
  intros Hk Hes. pose proof (zlen_nonneg es). assert (0 ≤ zlen es * (k + 1)) by (apply Z.mul_nonneg_nonneg; lia). unfold offer.
  case_bool_decide; [cbn [snd]; split; [by repeat constructor|change (zlen [47]) with 1; lia]|].
  assert (Forall (λ e : entry, short k e.2) (filter (λ e : entry, tail `prefix_of` e.2) es) ∧ zlen (filter (λ e : entry, tail `prefix_of` e.2) es) ≤ zlen es) as [Hf Hz].
  { split; [apply Forall_forall; intros e [_ He]%list_elem_of_filter; rewrite Forall_forall in Hes; by apply Hes|]. unfold zlen. apply inj_le. apply length_filter. }
  destruct (filter _ es) as [|e [|e' ms]]; [cbn [snd]; split; [constructor|change (zlen []) with 0; lia]| |].
  - apply Forall_cons_1 in Hf as [He _]. unfold full. destruct (short_drop k e.2 (length tail) He) as [Hp Hl]. destruct e.1; cbn [snd].
    + split; [apply Forall_app; split; [done|by repeat constructor]|]. rewrite zlen_app. change (zlen [47]) with 1. lia.
    + split; [done|lia].
  - assert (Forall (short k) (e :: e' :: ms).*2) as Hn by (apply Forall_fmap; exact Hf). assert (zlen (e :: e' :: ms).*2 = zlen (e :: e' :: ms)) as El by (unfold zlen; by rewrite length_fmap).
    case_bool_decide; cbn [snd].
    + eapply short_weaken; [|apply (short_join k); [lia|done]]. rewrite El. assert (zlen (e :: e' :: ms) * (k + 1) ≤ zlen es * (k + 1)) by (apply Z.mul_le_mono_nonneg_r; lia). lia.
    + eapply short_weaken; [|apply (short_lcp k)]; [lia|lia|]. apply Forall_fmap. eapply List.Forall_impl; [|exact Hn]. intros l Hl. by apply short_drop.
Qed.

(** ** The contract *)

Definition shell_cb : tt_cli_cb_t := mk_cb 0 (Some __sh_on_cmd_f) (Some __sh_on_complete_f) (Some __sh_on_quit_f).

Section session.
Context `{Allocator} `{CfgUser} (Hmt : malloc_total) (F : forest) (I : cfg → Prop) (N V Lmax Pmax R C : Z).
Context (HN : 1 ≤ N) (HV : Lmax + 12 ≤ V) (HL : 0 ≤ Lmax) (HL32 : Lmax < 2 ^ 28) (HR : 0 ≤ R) (HF : Z.of_nat (size F) < 2 ^ 31) (HC : Z.of_nat (size F) * (N + 1) + N + 40 ≤ C).
Context (Hu : user_ok F I N V Lmax R).
(** What is sent arrives whole or not at all. *)
Context {W : Type} (sent : W → list Z) (snd_to : Z → Z → list Z → W → exec (result unit * W)).
Context (Hsend : ∀ f p d w, ∃ r w', snd_to f p d w = Ret (r, w') ∧ sent w' = match r with TT_SUCCESS _ => sent w ++ d | TT_ERROR _ => sent w end).
Context (t0 : term).
Notation shell_ok := (shell_ok F I N V Lmax).
Notation user := (@shell_user _ _ W snd_to).
Notation K := (line_cost F N V Lmax R).

Definition shell_own (o : tt_cli_cb_t * tt_cli_itf_t * option Z * (option (list Z) * option (list Z) * Z) * tt_string_t) (w : tt_shell_t * W) : Prop :=
  o.1.1.1.1 = shell_cb ∧ o.1.1.2 = None ∧ prompt_fits N Pmax (o.1.2, o.2) ∧ shell_ok w.1.
(** A path can be completed: no name in its directory ends before the typed part does,
    and none that starts so ends inside what the others have in common. *)
Definition path_tab (path : list Z) : Prop := ∀ rt cur d tail xs es, where_to F rt cur path = (Some d, tail) → dir_at F d = true → listing F d xs es →
  Forall (λ e, zlen tail ≤ zlen e.2 + 1) es ∧ lasting_all (rests tail es.*2).
(** Tab behind a command needs something to complete: without it an assertion fails. *)
Definition shell_tabs (q : option (list Z) * bool) : Prop := q.2 = true ∨ ∃ path, q.1 = Some path ∧ path_tab path.
Notation sent_by := (λ w : tt_shell_t * W, sent w.2).
Notation shell_at := (@cli_at _ user sent_by t0 C Pmax Lmax shell_own).

Lemma at_output c sh w P ed m k n T rm c' b' d sh' P' : shell_at (c, (sh, w)) P ed m k T rm → moved c c' → out_with (cli_outbuf c) d n b' →
  (∃ r, str (cli_prefix c') P' r) → printables P' → zlen P' ≤ Pmax → shell_own (own c') (sh', w) → shell_at (set_out b' c', (sh', w)) P' ed m n (term_run T d) rm.
Proof.
  intros [] (p & u & ->) [] Hs HP HPl Hown. destruct c as [? ? ? ? ? ? ? ? ? l ? ?]. cbn in *. unfold cli_outbuf in *. cbn in *. constructor; cbn; try done.
  - by apply cline_set_out.
  - unfold cli_outbuf. cbn. congruence.
  - unfold cli_outbuf. cbn. rewrite ow_content, app_assoc, term_run_app. congruence.
Qed.
Lemma at_prompted c sh w P ed m k T rm : shell_at (c, (sh, w)) P ed m k T rm → prompted N Pmax c ∧ shell_ok sh.
Proof. intros []. destruct ca_own as (_ & _ & Hp & Hs). destruct ca_prefix as [r Hr]. cbn in *. split; [|done]. split; [done|]. by exists P, r. Qed.
Lemma own_moved c c' sh w sh' : shell_own (own c) (sh, w) → moved c c' → prompted N Pmax c' → shell_ok sh' → shell_own (own c') (sh', w).
Proof. intros (Hcb & Hrd & _ & _) (p & u & ->) [Hp _] Hs. by destruct c. Qed.

Lemma called_step {A} (o : M (tt_cli_t * tt_shell_t) A) c sh (w : W) a c' sh' : o (c, sh) = Ret (TT_SUCCESS a, (c', sh')) → called o (c, (sh, w)) = Ret (a, (c', (sh', w))).
Proof. intros E. unfold called. cbn [fst snd]. by rewrite E. Qed.

Lemma cmd_contract c sh w P ed m n T rm cmd : shell_at (c, (sh, w)) P ed m (K + n) T rm → 0 ≤ n → printables cmd → zlen cmd ≤ Lmax → ∃ a d b' c' sh' P',
  called (__sh_on_cmd cmd) (c, (sh, w)) = Ret (a, (set_out b' c', (sh', w))) ∧ plain d ∧ status_ok a d ∧ shell_at (set_out b' c', (sh', w)) P' ed m n (term_run T d) rm.
Proof.
  intros Ha Hn Hp Hl. destruct (at_prompted _ _ _ _ _ _ _ _ _ Ha) as [Hpr Hsh]. pose proof Ha as [].
  destruct (on_cmd_answers Hmt F I N V Lmax Pmax R ltac:(lia) HV HL HL32 HR Hu cmd sh Hsh Hp Hl c n) as (a & d & b' & c' & sh' & E & _ & Hd & Hw & Hpr' & Hsh' & Hm & Hst); [done..|].
  pose proof Hpr' as [_ (P' & r & Hs & HP & HPl)]. exists a, d, b', c', sh', P'. split; [by apply called_step|]. split; [done|]. split; [done|].
  eapply at_output; [exact Ha|done|exact Hw|by exists r|done|done|]. by eapply own_moved.
Qed.

Lemma cost_room : 0 ≤ K ∧ 1000 ≤ K ∧ 0 ≤ Z.of_nat (size F) * (N + 1).
Proof.
  assert (0 ≤ Z.of_nat (size F) * (2 * N + 29) ∧ 0 ≤ Z.of_nat (size F) * (N + 1)) as [? ?] by (split; apply Z.mul_nonneg_nonneg; lia). unfold line_cost, one_cost.
  assert (0 ≤ Lmax * (Lmax + ((Z.of_nat (size F) + 1) * (3 * N + 30) + V + Lmax + 1000) + 4)) by (apply Z.mul_nonneg_nonneg; lia). lia.
Qed.

Lemma quit_contract c sh w P ed m n T rm : shell_at (c, (sh, w)) P ed m (K + n) T rm → 0 ≤ n → ∃ b s' d,
  called __sh_on_quit (c, (sh, w)) = Ret (b, s') ∧ plain d ∧ shell_at s' P ed m n (term_run T d) rm.
Proof.
  intros Ha Hn. destruct (at_prompted _ _ _ _ _ _ _ _ _ Ha) as [Hpr Hsh]. destruct cost_room as (HK & HK1 & _). pose proof Ha as [].
  assert (∀ s' : tt_cli_t * (tt_shell_t * W), s' = (c, (sh, w)) → shell_at s' P ed m n (term_run T []) rm) as Hsame.
  { intros ? ->. eapply (at_output c sh w P ed m (K + n) n T rm c (cli_outbuf c) [] sh P) in Ha; [by rewrite set_out_id in Ha|apply unmoved|apply out_refl; [done|eapply room_weaken; [|done]; lia]|done..]. }
  destruct (exit_msg sh) as [[|x msg]|] eqn:Em.
  1, 3: exists false, (c, (sh, w)), []; split; [|split; [constructor|by apply Hsame]]; apply called_step; unfold __sh_on_quit, the_shell; erewrite (bind_step (gets snd)) by done; cbn [snd]; by rewrite Em.
  destruct (so_exit _ _ _ _ _ _ Hsh) as [Hpl Hz]. rewrite Em in Hpl, Hz. cbn [default from_option id] in *.
  destruct (says_put (x :: msg) sh Hpl c n) as ([] & d & b' & E & -> & _ & Hw); [done|done|done|eapply room_weaken; [|done]; pose proof (zlen_nonneg (x :: msg)); lia|].
  exists true, (set_out b' c, (sh, w)), (x :: msg). split; [|split; [done|]].
  - apply called_step. unfold __sh_on_quit, the_shell. erewrite (bind_step (gets snd)) by done. cbn [snd]. rewrite Em. by erewrite bind_step by exact E.
  - eapply at_output; [exact Ha|apply unmoved|exact Hw|done..].
Qed.

(** *** Completion *)

Lemma ac_step {A} (o : M tt_buf_t A) c (sh : tt_shell_t) r b' : o (acbuf c) = Ret (r, b') → on_ac o (c, sh) = Ret (r, (set_acbuf b' c, sh)).
Proof. intros E. unfold on_ac, with_acbuf, zoom. cbn. by rewrite E. Qed.
Lemma ac_wrote b d b' : acbuf_ok C b → content b = [] → room b C → zlen d ≤ C → wrote b d 0 b' → acbuf_ok C b' ∧ content b' = d.
Proof.
  intros [Hok [Hr1 Hr2]] Hc [Hr3 Hr4] Hd []. rewrite Hc in wr_content. split; [|done]. split; [done|]. destruct cost_room as (_ & _ & HK).
  unfold set_wpos, set_rpos in *. cbn [Buffer.size wpos mspg] in *. split; cbn [Buffer.size wpos mspg]; rewrite ?wr_mspg; lia.
Qed.

Lemma nodup_before es : StronglySorted before es → NoDup es.
Proof.
  induction 1 as [|e es _ IH Hf]; constructor; [|done]. intros He. rewrite Forall_forall in Hf. by apply Hf, before_irrefl in He.
Qed.
Lemma listing_short sh d xs es : shell_ok sh → listing F d xs es → Forall (λ e : entry, short N e.2) es ∧ zlen es ≤ Z.of_nat (size F).
Proof.
  intros Hsh (Hin & Hf & Hs). destruct (conf_models F I N V Lmax sh Hsh) as [[kids Hinv] Hv]. split.
  - apply Forall_forall. intros e [i He]%list_elem_of_lookup_1. destruct (Forall2_lookup_r _ _ _ _ _ Hf He) as (x & _ & Hx). cbn in Hx.
    destruct (view_obj (conf sh) F Hv _ _ _ Hx) as (o & Ho & <- & _). cbn [tag snd]. split; [apply name_printable; by eapply ok_name, (ci_obj _ _ Hinv x)|]. by apply ot_name, (co_texts _ _ _ _ _ _ (so_conf _ _ _ _ _ _ Hsh) x).
  - set (f := λ x, match F !! x with Some (e, _) => e | None => (false, []) end). assert (es = f <$> xs) as ->.
    { clear Hs Hin. induction Hf as [|x e xs es Hx _ IH]; [done|]. cbn. unfold f at 1. rewrite Hx. by f_equal. }
    apply nodup_before in Hs. apply NoDup_fmap_1 in Hs. unfold zlen. rewrite length_fmap. apply inj_le. rewrite <- (size_list_to_set (C := gset key) xs Hs), <- size_dom.
    apply subseteq_size. intros x Hx%elem_of_list_to_set. apply elem_of_dom. destruct (proj1 (Hin x) Hx) as [e He]. by eexists.
Qed.

Lemma complete_contract c sh w P ed m n T rm cur wt : shell_at (c, (sh, w)) P ed m n T rm → content (acbuf c) = [] → room (acbuf c) C → shell_tabs (cur, wt) →
  match cur with Some c => printables c | None => True end → ∃ a b',
    called (__sh_on_complete cur wt) (c, (sh, w)) = Ret (a, (set_acbuf b' c, (sh, w))) ∧ acbuf_ok C b' ∧ short C (content b') ∧
    (a = TT_CLICP_NONE ∨ a = TT_CLICP_PARTIAL ∨ a = TT_CLICP_FULL ∨ a = TT_CLICP_FULL_MORE).
Proof.
  intros Ha Hc Hroom Htab Hcur. destruct (at_prompted _ _ _ _ _ _ _ _ _ Ha) as [_ Hsh]. pose proof (ca_ac _ _ _ _ _ _ _ _ _ _ _ _ _ Ha) as Hac. cbn [fst] in Hac. destruct cost_room as (HK & HK1 & HK2).
  assert (∀ d, short C d → room (acbuf c) (zlen d + 0)) as Hr by (intros d [_ Hz]; pose proof (zlen_nonneg d); eapply room_weaken; [|exact Hroom]; lia).
  unfold __sh_on_complete. destruct wt.
  - pose proof (completion_short 4 cur tt_g_shcmd_name ltac:(done) commands_short) as Hsh4. change (zlen tt_g_shcmd_name * (4 + 1) + 4) with 39 in Hsh4.
    assert (short C (completion cur tt_g_shcmd_name).2) as Hd by (eapply short_weaken; [|exact Hsh4]; lia).
    destruct (cli_complete_ok cur tt_g_shcmd_name (acbuf c) 0) as (b' & E & Hw); [|by repeat constructor|by repeat constructor|done|apply Hac|done|by apply Hr|].
    { destruct cur as [cur|]; [|done]. split; [by apply printable_cstring|by apply commands_complete, printable_cstring]. }
    destruct (ac_wrote _ _ _ Hac Hc Hroom (proj2 Hd) Hw) as [Hac' Hc']. exists (completion cur tt_g_shcmd_name).1, b'. split; [|split; [done|split; [by rewrite Hc'|]]].
    + apply called_step. by erewrite (bind_step (try _)) by (unfold try; rewrite (ac_step _ _ _ _ _ E); done).
    + unfold completion. destruct cur as [cur|]; [|by left]. destruct (matches cur tt_g_shcmd_name) as [|o [|o' ms]]; [by left|by right; right; left|]. case_bool_decide; [by left|by right; left].
  - destruct Htab as [?|(path & Epath & Htab)]; [done|]. cbn [fst] in Epath. subst cur.
    assert (∃ a b', tt_cfgpath_complete (conf sh) (root sh) (current sh) (Some path) (acbuf c) = Ret (TT_SUCCESS a, b') ∧ acbuf_ok C b' ∧ short C (content b')) as (a & b' & E & Hac' & Hs').
    { assert (acbuf_ok C (acbuf c) ∧ short C (content (acbuf c))) as Hsame by (split; [done|rewrite Hc; split; [constructor|change (zlen []) with 0; lia]]).
      pose proof (path_complete_ok (conf sh) F (conf_models F I N V Lmax sh Hsh) (root sh) (current sh) path (acbuf c) 0 ltac:(by apply dir_some, Hsh) ltac:(by apply dir_some, Hsh) ltac:(by apply printable_cstring) (proj1 Hac) ltac:(done)) as Hpc.
      destruct (where_to F (root sh) (current sh) path) as [[d|] tail] eqn:Ew; [|by eexists _, _]. destruct (dir_at F d) eqn:Ed; [|by eexists _, _].
      destruct Hpc as (xs & es & Hl & Hpc). destruct (Htab _ _ _ _ _ _ Ew Ed Hl) as [Ht1 Ht2]. destruct (listing_short sh d xs es Hsh Hl) as [Hes Hn].
      assert (short C (offer tail es).2) as Hd.
      { eapply short_weaken; [|by apply (offer_short N)]. assert (zlen es * (N + 1) ≤ Z.of_nat (size F) * (N + 1)) by (apply Z.mul_le_mono_nonneg_r; lia). lia. }
      destruct Hpc as (b' & E & Hw); [lia|done|done|by apply Hr|]. destruct (ac_wrote _ _ _ Hac Hc Hroom (proj2 Hd) Hw) as [Hac' Hc']. exists (offer tail es).1, b'. split; [done|]. split; [done|]. by rewrite Hc'. }
    exists (if a =? TT_CFGPCP_PARTIAL then TT_CLICP_PARTIAL else if a =? TT_CFGPCP_FULL then TT_CLICP_FULL else if a =? TT_CFGPCP_FULL_MORE then TT_CLICP_FULL_MORE else TT_CLICP_NONE), b'.
    split; [|split; [done|split; [done|]]].
    + apply called_step. erewrite (bind_step (try _)); cycle 1.
      { unfold try, the_shell. erewrite (bind_step (gets snd)) by done. cbn [snd]. rewrite (ac_step _ _ _ _ _ E). done. }
      cbv beta iota. by repeat case_match.
    + repeat case_match; auto.
Qed.

(** *** All functions *)

Lemma shell_contract : @cli_contract _ user sent_by t0 K C Pmax Lmax shell_own shell_tabs.
Proof.
  assert (∀ s : tt_cli_t * (tt_shell_t * W), ∃ c sh w, s = (c, (sh, w))) as Hs by (intros [c [sh w]]; eauto).
  constructor.
  - intros f cmd s P ed m n T rm Ha Hn Hf _ Hp Hl. destruct (Hs s) as (c & sh & w & ->). pose proof (ca_own _ _ _ _ _ _ _ _ _ _ _ _ _ Ha) as (Hcb & _). cbn in Hcb, Hf. rewrite Hcb in Hf. injection Hf as <-.
    destruct (cmd_contract c sh w P ed m n T rm cmd Ha Hn Hp Hl) as (a & d & b' & c' & sh' & P' & E & Hd & Hst & Ha'). exists a, (set_out b' c', (sh', w)), P', d, rm.
    split; [exact E|]. split; [done|]. split; [done|]. destruct Hst as [[-> ->]|Hst]; [by left|by right].
  - intros f s P ed m n T rm Ha Hn Hf. destruct (Hs s) as (c & sh & w & ->). pose proof (ca_own _ _ _ _ _ _ _ _ _ _ _ _ _ Ha) as (Hcb & _). cbn in Hcb, Hf. rewrite Hcb in Hf. injection Hf as <-.
    destruct (quit_contract c sh w P ed m n T rm Ha Hn) as (b & s' & d & E & Hd & Ha'). by exists b, s', P, d, rm.
  - intros f line s P ed m n T rm Ha _ Hf. destruct (Hs s) as (c & sh & w & ->). pose proof (ca_own _ _ _ _ _ _ _ _ _ _ _ _ _ Ha) as (_ & Hrd & _). cbn in Hrd, Hf. by rewrite Hrd in Hf.
  - intros f cur wt s P ed m n T rm Ha Hc Hroom Hf Htab Hcur. destruct (Hs s) as (c & sh & w & ->). pose proof Ha as []. destruct ca_own as (Hcb & Hown). cbn in Hcb, Hf. rewrite Hcb in Hf. injection Hf as <-.
    destruct (complete_contract c sh w P ed m n T rm cur wt Ha Hc Hroom Htab Hcur) as (a & b' & E & Hac & [Hp Hz] & Hst). exists a, (set_acbuf b' c, (sh, w)).
    split; [exact E|]. split; [by constructor|]. split; [done|]. split; [done|]. tauto.
  - intros f d c [sh w] Hown. destruct (Hsend f (itf_param (Cli.itf c)) d w) as (r & w' & E & Hw). exists r, (sh, w'). cbn [call_send user shell_user fst snd]. rewrite E. split; [done|]. split; [exact Hown|exact Hw].
Qed.

(** ** Creation *)

(** The attributes of a shell that can be created. *)
Record attrs_ok (a : tt_sh_attr_t) : Prop := {
  sa_out : attr_wf (outbuf_attr (cli_attr a)) ∧ attr_max_limit (outbuf_attr (cli_attr a)) = 0;
  sa_line : attr_wf (cline_attr (cli_attr a)) ∧ attr_max_limit (cline_attr (cli_attr a)) = 0;
  sa_prompt : printables (prompt (cli_attr a)) ∧ zlen (prompt (cli_attr a)) ≤ Pmax;
  sa_title : zlen (default [] (attr_title (cli_attr a))) + N + 3 ≤ Pmax;
  sa_exit : plain (default [] (at_exit_msg a)) ∧ zlen (default [] (at_exit_msg a)) ≤ 1000;
}.

Lemma shell_created mem rt itf0 a w m n : conf_ok F I N V Lmax mem → dir_at F rt = true → attrs_ok a → Pmax + 4 < 2 ^ 28 → C < 2 ^ 28 → 0 ≤ m ≤ Lmax → 0 ≤ n →
  16 + 3 * n + attr_max_extend (outbuf_attr (cli_attr a)) < 2 ^ 32 → attr_max_extend (cline_attr (cli_attr a)) < 2 ^ 30 →
  ∃ c sh P, tt_sh_create mem rt TT_CLI_MODE_DEFAUTL itf0 (Some a) = Ret (TT_SUCCESS (c, sh)) ∧ shell_at (c, (sh, w)) P ([], 0) m n (term_run t0 (sent w)) __CLI_NOT_READ ∧ 0 ≤ Pmax.
Proof.
  intros Hc Hrt [[Ho1 Ho2] [Hl1 Hl2] [Hp Hpl] Ht He] HP HC28 Hm Hn Hn2 Hce. set (ca := cli_attr a) in *.
  assert (0 ≤ Pmax) as HP0 by (pose proof (zlen_nonneg (prompt ca)); lia). destruct cost_room as (_ & _ & Hs0).
  assert (attr_seperator ca ≠ 0) as Hsep.
  { unfold prompt in Hp. apply Forall_app in Hp as [_ Hp]. apply Forall_app in Hp as [_ Hp]. apply Forall_cons_1 in Hp as [Hp _]. intros E. by rewrite E in Hp. }
  set (ok' := λ (o : tt_cli_cb_t * tt_cli_itf_t * option Z * (option (list Z) * option (list Z) * Z) * tt_string_t) (_ : @World user),
    o.1 = (shell_cb, itf0, None, (attr_title ca, attr_sub_title ca, attr_seperator ca)) ∧ grows o.2 (prompt ca) (Pmax + 4)).
  set (sh := mk_sh mem rt rt [] TT_SH_ARG_NUM (at_exit_msg a)).
  destruct (@cli_create_ok _ user sent_by t0 C Pmax Lmax ok' (Pmax + 4) (Some shell_cb) (Some itf0) ca (sh, w) m n) as (c & Ec & Ha); try done; [lia..| |].
  { intros s Hg. unfold ok'. cbn [fst snd]. by rewrite (proj2 (Z.eqb_neq _ 0) Hsep). }
  assert (shell_ok sh) as Hsh by (constructor; try done; cbn; unfold TT_SH_ARG_NUM; lia).
  destruct Ha. destruct ca_own as [Eown Hg]. unfold own in Eown, Hg. cbn [fst snd] in Eown, Hg. injection Eown as Ecb Eitf Erd Etitle Esub Esep.
  assert (prompt ca = prompt_of (title c) (sub_title c) (seperator c)) as Epr.
  { rewrite Etitle, Esub, Esep. unfold prompt, prompt_of. by rewrite (proj2 (Z.eqb_neq _ 0) Hsep). }
  destruct (known_at F I N V Lmax sh Hsh rt) as [o Ho]; [by apply dir_some|]. pose proof (conf_obj_ok F I N V Lmax sh Hsh rt o Ho) as Hok.
  rewrite Epr in Hp, Hpl. rewrite <- Etitle in Ht.
  destruct (new_prompt N Pmax c (name o) Hp Hpl Ht) as [Hpp Hz]; [by apply name_printable, Hok|by apply ot_name, (co_texts _ _ _ _ _ _ Hc rt)|]. pose proof (printable_cstring _ Hpp) as Hcs.
  pose proof Hg as [Hstr _]. destruct (update_prefix_ok c sh (name o) (prompt ca) 0 (Pmax + 4)) as (p & Eu & Hsp & Hrp); [done|by eapply grows_regrows|lia|done|].
  eexists _, sh, _. split; [|split; [|done]].
  - unfold tt_sh_create. cbn [default from_option id]. fold sh ca. change (mk_cb 0 (Some __sh_on_cmd_f) (Some __sh_on_complete_f) (Some __sh_on_quit_f)) with shell_cb. rewrite Ec. cbn [exec_bind].
    erewrite bind_step by (eapply object_ok; [exact Hsh|exact Ho]). erewrite drop_res_step by exact Eu. cbn [exec_bind]. done.
  - constructor; cbn; try done. by exists 0.
Qed.

End session.
