(* ===== verification/ShellDemo.v ===== *)
(** The shell of [Shell] on a small configuration: the hypotheses of [ShellRun] and
    [ShellSession] hold there, and some sessions are evaluated. *)

From Stdlib Require Import String.
From S2P Require Import Prelude MemSpring Buffer BufferFormat SshDef BufCommon Str StrSpec StrRun SshCodec LinkedList CliLine CliEdit Cli CliRun CliSession CfgTree CfgForest CfgDestroy CfgValue CfgWrite CfgRun CfgPath CfgList CfgComplete Shell ShellOut ShellArgs ShellSpec ShellSet ShellRun ShellSession.
From stdpp Require Import gmap sorting.

#[local] Open Scope Z_scope.
#[local] Open Scope list_scope.

Module Demo.
(** "/net/mtu" is a number, "/go" can be executed. *)
Definition ops : list cfg_op :=
  [ CCreate (Some 1%positive) KDir [] None; CCreate (Some 2%positive) KDir (chars "net") None;
    CCreate (Some 3%positive) (KU32 9%positive (Some (Some 7))) (chars "mtu") None; CCreate (Some 4%positive) (KExe 8) (chars "go") None;
    CAdd 1%positive 2%positive; CAdd 2%positive 3%positive; CAdd 1%positive 4%positive ].
Definition forest_of : forest := (spec_cfg ops ∅).2.
Definition vars0 : gmap key cfg_var := {[9%positive := VU32 1500]}.
Definition memory : cfg := match @run_cfg zero_alloc (read_buf 0) ops (mk_cfg (mk_lmem ∅ ∅) ∅ vars0) with Ret (_, m) => m | _ => mk_cfg (mk_lmem ∅ ∅) ∅ vars0 end.

(** The callback stores the number, the executable says "ok". *)
#[export] Instance demo_user : CfgUser := {|
  call_on_set _ _ v vs := Ret (match v with CU32 n => <[9%positive := VU32 n]> vs | _ => vs end);
  call_run _ _ _ _ s := exec_bind (@tt_buf_put zero_alloc (chars "ok") s.2) (λ '(r, b), Ret (match r with TT_SUCCESS _ => TT_SUCCESS TT_CLIOC_OUT | TT_ERROR e => TT_ERROR e end, (s.1, b)));
|}.

Lemma memory_models : models memory forest_of.
Proof.
  destruct (@run_models zero_alloc (read_buf 0) ops _ ∅ (models_empty vars0)) as (m & E & Hm); [|unfold memory; by rewrite E].
  cbn [ops all_legal]. repeat split; try by vm_compute.
  all: try (by eexists _, _; vm_compute).
  all: eexists _, _; split; [by vm_compute|intros _; split; [done|by vm_compute; set_solver]].
Qed.
Definition objects : list (key * tt_cfgobj_t) := map_to_list (objs memory).
Lemma memory_objects (P : key → tt_cfgobj_t → Prop) : Forall (λ x, P x.1 x.2) objects → ∀ x o, objs memory !! x = Some o → P x o.
Proof. intros Hf x o Ho%elem_of_map_to_list. rewrite Forall_forall in Hf. exact (Hf _ Ho). Qed.

(** Only numbers stand for the variable of the callback. *)
Definition relies (m : cfg) : Prop := ∀ y oy, objs m !! y = Some oy → opaque oy = Some 9%positive → type oy = TT_CFGOBJ_U32.

Lemma demo_conf : @conf_ok zero_alloc forest_of relies 8 2212 2200 memory.
Proof.
  constructor; [apply memory_models| | | |].
  - refine (memory_objects (λ _ o, obj_texts 8 o) _). let l := eval vm_compute in objects in change objects with l.
    repeat (constructor; [constructor; cbn; [done|split; [constructor|done]|split; [constructor|done]|intros w [= <-]; done]|]). constructor.
  - refine (memory_objects (λ _ o, type o ≠ TT_CFGOBJ_DIR → type o ≠ TT_CFGOBJ_EXE → shows_value 2212 memory o) _). let l := eval vm_compute in objects in change objects with l.
    repeat (constructor; [cbn [fst snd type]; try done|]); [|constructor]. intros _ _. exists (CU32 1500). split; [|split; [by repeat constructor|done]].
    split; [done|]. split; [done|]. exists 9%positive, (VU32 1500). split; [done|]. split; [by vm_compute|done].
  - intros x o g s Hx. revert g s. revert x o Hx. refine (memory_objects (λ _ o, ∀ g s, ext o = XStr g s → regrows s 2202) _). let l := eval vm_compute in objects in change objects with l. repeat (constructor; [by intros g s|]). constructor.
  - refine (memory_objects (λ _ o, opaque o = Some 9%positive → type o = TT_CFGOBJ_U32) _). let l := eval vm_compute in objects in change objects with l. by repeat constructor.
Qed.

Lemma demo_user_ok : @user_ok zero_alloc demo_user forest_of relies 8 2212 2200 2.
Proof.
  constructor.
  - intros m x o f w Hc Ho Hf Ht Hw Hp Hz. eexists. split; [done|]. destruct w as [n| | |]; try (split; [exact (co_vals _ _ _ _ _ _ Hc)|exact (co_user _ _ _ _ _ _ Hc)]).
    split; [|exact (co_user _ _ _ _ _ _ Hc)]. intros y oy Hy Hnd Hne. destruct (co_vals _ _ _ _ _ _ Hc y oy Hy Hnd Hne) as (v & (Hty & Hv & p & z & Hop & Hz' & Hh) & Hpv & Hzv).
    destruct (decide (p = 9%positive)) as [->|Hp9].
    + exists (CU32 n). split; [|done]. split; [by apply (co_user _ _ _ _ _ _ Hc y)|]. split; [done|]. exists 9%positive, (VU32 n). split; [done|]. split; [cbn; by rewrite lookup_insert_eq|done].
    + exists v. split; [|done]. split; [done|]. split; [done|]. exists p, z. split; [done|]. split; [cbn; by rewrite lookup_insert_ne|done].
  - intros m x o f argv b n Hc Ho Hf _ _ [Hwf Hro Hrel] Hr Hn Hroom. assert (plain (chars "ok")) as Hok by by apply all_printable.
    destruct (@buf_put_spec zero_alloc b (chars "ok")) as [(b' & E & Ha)|[_ ?]]; [done|done|by apply plain_u8|by eapply room_weaken; [|exact Hroom]; change (zlen (chars "ok")) with 2; lia| |done].
    exists (TT_SUCCESS TT_CLIOC_OUT), (vars m), (chars "ok"), b'. split; [cbn [call_run demo_user fst snd]; by rewrite E|]. split; [exact (co_vals _ _ _ _ _ _ Hc)|]. split; [exact (co_user _ _ _ _ _ _ Hc)|].
    split; [by apply appended_becomes in Ha|]. split; [done|by right; left].
  - intros m x o o' Hc Ho Hch y oy. cbn. destruct (decide (y = x)) as [->|]; [|rewrite lookup_insert_ne by done; apply (co_user _ _ _ _ _ _ Hc)].
    rewrite lookup_insert_eq. intros [= <-]. pose proof (co_user _ _ _ _ _ _ Hc x o Ho). by destruct Hch as [->|(g & s & s' & t & _ & -> & _)].
Qed.

Definition itf0 : tt_cli_itf_t := mk_itf 0 (Some 9).
(** What is sent is kept. *)
Definition keep (f p : Z) (d w : list Z) : exec (result unit * list Z) := Ret (TT_SUCCESS tt, w ++ d).
Lemma keeps_sent : ∀ f p d w, ∃ r w', keep f p d w = Ret (r, w') ∧ id w' = match r with TT_SUCCESS _ => id w ++ d | TT_ERROR _ => id w end.
Proof. intros. by exists (TT_SUCCESS tt), (w ++ d). Qed.
Definition t0 : term := mk_term [] [] 0.
Lemma demo_attrs : @attrs_ok 8 40 tt_sh_attr_default.
Proof.
  constructor; cbn [cli_attr tt_sh_attr_default at_exit_msg]; [split; [exact attr_default_wf|done]|split; [exact attr_default_wf|done]|split; [by repeat constructor|done]|done|].
  split; [by apply all_printable|by vm_compute].
Qed.
Lemma demo_size : Z.of_nat (size forest_of) = 4.
Proof. by vm_compute. Qed.

Lemma demo_created n : 0 ≤ n < 2 ^ 30 → ∃ c sh P, @tt_sh_create zero_alloc memory 1%positive TT_CLI_MODE_DEFAUTL itf0 (Some tt_sh_attr_default) = Ret (TT_SUCCESS (c, sh)) ∧
  @cli_at zero_alloc (@shell_user zero_alloc demo_user (list Z) keep) (λ w, w.2) t0 84 40 2200 (@shell_own zero_alloc forest_of relies 8 2212 2200 40 (list Z)) (c, (sh, [])) P ([], 0) 2000 n t0 __CLI_NOT_READ.
Proof.
  intros Hn. destruct (@shell_created zero_alloc demo_user zero_alloc_total forest_of relies 8 2212 2200 40 2 84 ltac:(lia) ltac:(lia) ltac:(lia) ltac:(lia) ltac:(lia) ltac:(rewrite demo_size; lia) (list Z) id keep t0
    memory 1%positive itf0 tt_sh_attr_default [] 2000 n demo_conf) as (c & sh & P & Ec & Ha & _); [by vm_compute|apply demo_attrs|lia|lia|lia|lia|change (attr_max_extend _) with 4096; lia|by vm_compute|].
  exists c, sh, P. by split.
Qed.


(** "get ", completed from its first letter, and a path. *)
Definition demo_events : list Z := chars "g" ++ TT_CLI_EV_TAB :: chars "net/mtu" ++ [TT_CLI_EV_ENTER].
Lemma demo_tabs : tabs_ok (shell_tabs forest_of) __CLI_NOT_READ demo_events ([], 0).
Proof.
  intros evs1 evs2 ed1 E Hs. assert (evs1 = [103]) as ->.
  { let l := eval vm_compute in demo_events in change demo_events with l in E. do 11 (destruct evs1 as [|? evs1]; cbn in E; [first [done|by simplify_eq]|first [discriminate E|injection E as <- E]]). }
  inversion Hs as [|? ? ? ? ? He Hs'|]; subst. inversion Hs'; subst. inversion He as [|[?|?]|]; subst; try done. by left.
Qed.

(** What the terminal shows after a session. *)
Definition screen (evs : list Z) : exec (result unit * term) :=
  exec_bind (@tt_sh_create zero_alloc memory 1%positive TT_CLI_MODE_DEFAUTL itf0 (Some tt_sh_attr_default)) (λ r,
    match r with
    | TT_ERROR _ => Undef
    | TT_SUCCESS (c, sh) => exec_bind (@tt_sh_start zero_alloc demo_user (list Z) keep (c, (sh, []))) (λ '(_, s),
        exec_bind (@tt_sh_input zero_alloc demo_user (list Z) keep evs s) (λ '(r, s), Ret (r, term_run t0 s.2.2)))
    end).
Definition enter : list Z := [TT_CLI_EV_ENTER].
Definition tab : list Z := [TT_CLI_EV_TAB].

Example demo_get : screen demo_events = Ret (TT_SUCCESS tt, mk_term [[]; chars "titansdk$ get net/mtu"; chars "mtu: 1500"] (chars "titansdk$ ") 10).
Proof. by vm_compute. Qed.
Example demo_set : screen (chars "ls net" ++ enter ++ chars "cd net" ++ enter ++ chars "pwd" ++ enter ++ chars "set mtu 7" ++ enter ++ chars "get mtu" ++ enter) =
  Ret (TT_SUCCESS tt, mk_term [[]; chars "titansdk$ ls net"; chars "rw    u32       mtu    "; chars "titansdk$ cd net"; chars "titansdk:net$ pwd"; chars "/net";
    chars "titansdk:net$ set mtu 7"; chars "titansdk:net$ get mtu"; chars "mtu: 7"] (chars "titansdk:net$ ") 14).
Proof. by vm_compute. Qed.
(** The root has no name, and the prompt keeps the one of the directory that was left. *)
Example demo_prompt_stays : screen (chars "cd net" ++ enter ++ chars "cd /" ++ enter) =
  Ret (TT_SUCCESS tt, mk_term [[]; chars "titansdk$ cd net"; chars "titansdk:net$ cd /"] (chars "titansdk:net$ ") 14).
Proof. by vm_compute. Qed.
(** A path is completed; without one, the assertion on the path fails. *)
Example demo_tab : screen (chars "cd n" ++ tab) = Ret (TT_SUCCESS tt, mk_term [[]] (chars "titansdk$ cd net/") 17).
Proof. by vm_compute. Qed.
Example demo_tab_crashes : screen (chars "cd " ++ tab) = Crash.
Proof. by vm_compute. Qed.
End Demo.
